(* ===== verification/_CoqProject ===== *)
-Q . S2P
Prelude.v
Paging.v
Authz.v
GoStr.v
SqlText.v
Crc.v
Base64.v
Checksum.v
BlockIO.v
FileStream.v
CompositeStream.v
Store.v
Directory.v
DirFrame.v
Tree.v
DirWalk.v
DirOps.v
DirTx.v
DirTransfer.v
DirTheorems.v
References.v
RefInv.v
DeleteWorker.v
WorkerProofs.v
Dao.v
Mutation.v
S3Object.v
AdminBrowser.v
FileManager.v
DaoCache.v
DaoCacheTheorems.v
Multipart.v
DiskCache.v
IOCache.v
IOCacheProofs.v
IOCacheNames.v
IOCacheWrite.v
IOCacheTheorems.v
BackupFmt.v
Archive.v
BackupExport.v
BackupImport.v
JobRow.v
BackupJobs.v
Config.v
ManifestSpec.v
ConfigTheorems.v
ArchiveNames.v
ArchiveReader.v
ArchiveTheorems.v
UploadProofs.v
LinkSafety.v
ObjectTheorems.v
CompletedPart.v
WebDAV.v
TreeQuery.v
S3List.v
S3ListTheorems.v
UploadListTheorems.v
WebDAVTheorems.v
WebDAVSync.v
WebDAVSafety.v
BackupSafety.v
MultipartSafety.v
MultipartTheorems.v
PartTheorems.v
PurgeSafety.v
System.v
SystemTheorems.v
BackupTheorems.v
BackupPublish.v
BackupJobSteps.v
BackupJobFiles.v
BackupJobTheorems.v
BackupJobProgress.v
BackupJobDemo.v
UploadLifecycle.v
