(* ===== verification/Prelude.v ===== *)
(** * tgfile: a verification development

    tgfile stores files as blocks in a block store (Telegram, a directory, memory) and
    keeps everything else in one SQLite database: which blocks make a file, the tree of
    paths over the files, S3 and WebDAV metadata, multipart uploads, and for every block
    whether it is live, queued for deletion or deleted. A worker deletes the blocks of
    files nobody refers to, while clients link, copy, remove and upload.

    ** The model

    The database is a record of tables (Store.v), each a list of rows with the columns of
    the final schema of src/migrations. Code that uses it is a function
    [World -> outcome A * World] (the monad [M World] below); a statement of SQL is a
    list function ([sql_select], [sql_update], [order_by], ...), a transaction
    ([OnTransation]) gives the old database back when it fails. Go errors are the
    constructors of [err]; a panic and a recursion that does not end are errors of their
    own. Integers are [Z]; where a width matters (checksums, file ids, base64) it is
    written out. What is not under src/ is a parameter: the class [Env] (clock and id
    generator), [FileCodec] and [Sha] (hash functions, JSON), [S3Object.MimeTypes], the
    block store [IBlockIO] with the laws [BlockStore], and for the I/O cache [CacheLib] with
    [CacheLaws] (the disk and its faults, UUIDs, ristretto), for the configuration
    [ConfigLib] with [ConfigLaws] (URLs, addresses, the file system).

    ** Files and code

    - Prelude, Paging: errors, the monad, SQL on lists, generic lemmas; keyset paging.
    - Authz: src/authz/authz.go.
    - GoStr, Base64: package path and strconv, base64 and hex; src/utils/fileid_utils.go.
    - SqlText: what SQLite does to text in the queries: LIKE, ESCAPE, substr, length, instr.
    - Crc, Checksum: src/s3checksum.
    - BlockIO: src/blockio: the interface, the memory backend, the rotating wrapper.
    - FileStream, CompositeStream: src/filemgr/file_stream.go, composite_stream.go.
    - Store: the tables and the columns of src/migrations.
    - Directory: src/directory/db_directory.go. Proofs: DirFrame (frames of the
      operations), Tree (what a tree of rows is), DirWalk (path walks), DirOps, DirTx,
      DirTransfer (each operation against the tree), DirTheorems.
    - References: src/filemgr/references.go; RefInv: the invariant of files, blocks and
      references.
    - DeleteWorker, WorkerProofs: src/filemgr/block_delete_worker.go.
    - Dao: src/dao; Mutation: src/filemgr/webdav_mutation.go; S3Object:
      src/filemgr/s3_object.go; AdminBrowser: src/filemgr/admin_browser.go; FileManager:
      src/filemgr/file_manager_impl.go; Multipart: src/filemgr/s3_multipart.go;
      CompletedPart: src/filemgr/s3_completed_part.go; WebDAV:
      src/filemgr/webdav_protocol.go; S3List: ListS3Objects and ListMultipartUploads of
      s3_object.go and s3_multipart.go, with TreeQuery (what the recursive queries over the
      tree return). Proofs: S3ListTheorems, UploadListTheorems.
    - DiskCache, IOCache: src/filemgr/file_io_cache_disk.go, file_io_cache.go, the cache of
      file contents in memory and on disk. Proofs: IOCacheProofs (the invariant of index and
      files), IOCacheNames (the names of files), IOCacheWrite (publishing and recovery),
      IOCacheTheorems.
    - DaoCache, DaoCacheTheorems: src/cacheapi, src/dao/cache, the caches of rows.
    - Config, ConfigTheorems: src/config/config.go, and what src/cmd/serve.go makes of it.
    - BackupFmt: src/backupfmt/model.go, strictjson.go and validate.go (the records of an
      archive and their validation); Archive: src/backupfmt/archive.go; BackupExport and
      BackupImport: the two halves of src/filemgr/backup.go. Proofs: ManifestSpec (what
      validation accepts), ArchiveNames, ArchiveReader, ArchiveTheorems, BackupSafety (the
      transactions of backups keep the invariant of RefInv), BackupTheorems and
      BackupPublish.
    - BackupJobs: src/backupmgr/manager.go and disk_space.go, over the interface
      [BackupFiles] to the file manager; JobRow: the columns its UPDATEs set. Proofs:
      BackupJobSteps (the job table as a state machine, against the laws [BackupFilesLaws]),
      BackupJobFiles (src/filemgr/backup.go satisfies them), BackupJobTheorems,
      BackupJobProgress, BackupJobDemo (the theorems at a small run).
    - UploadProofs: uploads round trip, failed uploads are queued. LinkSafety,
      WebDAVSafety, MultipartSafety: every client transaction keeps the invariant of RefInv.
      PurgeSafety: so does a purge, which takes the rows of unreferenced files only.
      ObjectTheorems, MultipartTheorems, PartTheorems, WebDAVTheorems, WebDAVSync: what
      the S3 and WebDAV operations do.
    - System, SystemTheorems: clients, uploads, purges and the worker interleaved;
      UploadLifecycle: the state machine of a multipart upload in those interleavings, as
      labelled edges: which operation may take a row where.

    ** What the theorems show

    - The database and the block store agree in every interleaving: a referenced physical
      file that is not empty still opens and reads back what was stored; no block claimed
      for deletion belongs to a referenced file; a file with a queued block is never
      referenced again (SystemTheorems). The steps are the transactions of S3, WebDAV,
      multipart uploads and backups, the calls of the block store, and PurgeFile, which is
      one step although it is not one transaction in the code; the code of CreateFile, of
      the worker and of the WebDAV requests runs as such steps. Three steps carry a
      condition: a LOCK links a file that is its own, finishing an import works on drafts
      that nobody has linked ([import_of]: the rows of the drafts exist and are referenced
      by nothing), and a part that could not be staged is recorded for deletion under a
      draft that nobody references.
    - A step leaves a multipart upload alone or takes it along one edge of its state
      machine, by the operation the edge names (UploadLifecycle).
    - The mapping table stays a tree; Create, Remove, Move, Copy and Stat do to the tree
      what their names say, on success and on every error; a move keeps the ids of the
      entries and answers with what it overwrote (DirTheorems).
    - Under any sequence of seeks and reads a stream behaves as a reader of the stored bytes
      (FileStream, CompositeStream); uploads read back, and a failed one leaves at most a
      draft and pending blocks (UploadProofs); checksums combine (Checksum).
    - The worker claims only what it may, and settles each block it claims by the answer of
      the store to a call that names it (WorkerProofs).
    - Multipart uploads: completing builds the object of the chosen parts, and completing
      again gives the same answer (MultipartTheorems).
    - The parts of a completed object: a part number selects the bytes of that part, its
      reader returns exactly them, and paging lists every part (PartTheorems,
      CompletedPart).
    - WebDAV: a live lock keeps a mutation away from the paths it covers unless the If header
      is true of the lock (a list that names no token may be); locking an existing resource
      is exclusive, except that a lock on the root does not look below; a property that was
      set reads back; the pages of a sync report together hold every change of the scope
      when the query selects no path outside of it (WebDAVTheorems, WebDAVSync).
    - Archives: validation accepts exactly the well-formed manifests (ManifestSpec); what
      is built is read back, and what is verified is what the manifest says, with the
      declared checksums of parts and of objects, physical or composite
      (ArchiveTheorems); totals do not wrap around (BackupTheorems).
    - Backups: the parts a snapshot lists stay readable while its pins are there; a staged
      part is the block of the archive, or its block is recorded for deletion; a restored
      file reads back when its parts have the block size of the store, and never ends when
      they are smaller (BackupTheorems); a publication puts exactly the files of the
      manifest into the tree, or nothing (BackupPublish).
    - Listings: following the tokens of a bucket listing, or the markers of a listing of
      uploads, gives every object or upload and every common prefix exactly once, in order
      (S3ListTheorems, UploadListTheorems).
    - Backup jobs: requests, workers, restarts and cleanups are sequences of steps of one
      state machine; along them a canceled job is never published and never succeeds, a
      repeated request for an export finds its job while its row is there; a restart leaves every unfinished job ready to be
      claimed; a worker that reports no error has finished its job (BackupJobTheorems,
      BackupJobProgress).
    - The I/O cache: over any run with replaced and lost files, failing calls on the file
      system and restarts, what is read through the cache for a file identity is the content
      of that identity and no other (its key tells identities apart), a file the loader
      delivers is always served, and the index of the disk keeps to its budget
      (IOCacheTheorems).
    - The caches of rows return what the database holds, as long as no parts are deleted
      and but for the columns that other code updates directly (DaoCacheTheorems).
    - A configuration that is accepted fits the parts of the service that get it
      (ConfigTheorems).
    - Permissions entail what the documentation says (Authz); paging lists everything
      once (AdminBrowser).

    ** Fuel and bounds

    Loops over rows are structural. The walks down the tree and from composite files to
    their sources take the number of rows as fuel and report [Diverge] when it runs out;
    the theorems show results, so on a tree the fuel is enough. Reading a file takes a
    number of calls that the theorems bound by its size and block count.

    ** Not modelled

    HTTP handlers, migrations, metrics and the Telegram and local backends: request parsing,
    file formats of libraries, network and disk I/O. The formats of JSON, XML, tar and gzip,
    which are the Go library's. Concurrency inside one transaction: SQLite serialises them.
    What other requests do between the queries of one PurgeFile.
    Loads of the I/O cache that wait for one another. Cancelled contexts, which end a request early.
    Errors when the reader of a block is closed: Close and the change of segments succeed. *)

From stdpp Require Import base gmap strings list sorting.
From Stdlib Require Import ZArith Lia.

#[global] Open Scope Z_scope.

(** ** Errors

    One constructor per Go sentinel error that the modelled code returns or
    tests with [errors.Is]; wrapping with [%w] keeps the sentinel, so a wrapped
    error is the sentinel itself. *)
Inductive err :=
  (* os, io, database/sql *)
  | ErrNotExist | ErrExist | EOF | ErrUnexpectedEOF | ErrUniqueConstraint
  | ErrCheckConstraint
  (* strconv, encoding/hex, encoding/base64 *)
  | ErrSyntax | ErrRange | ErrCorruptInput
  (* authz *)
  | ErrInvalidPermission
  (* s3checksum *)
  | ErrInvalidAlgorithm | ErrUnsupportedAlgorithm | ErrInvalidType
  | ErrInvalidCombination | ErrInvalidDigest | ErrInvalidPartSize
  (* directory *)
  | ErrInvalidPath | ErrPathComponentNotDirectory | ErrSourceNotFound
  | ErrDestinationMustNotBeRoot | ErrDestinationExists
  | ErrDestinationInsideSource | ErrEntryMustNotBeRoot | ErrEntryNotFile
  | ErrParentNotFound | ErrNoRowsAffected | ErrInvalidScanBatch
  | ErrInvalidPageLimit | ErrInvalidPageCursor | ErrRootNotFoundAfterCreate
  (* blockio *)
  | ErrEmptyDeleteReference | ErrUpload
  (* filemgr *)
  | ErrInvalidFileSize | ErrInvalidBlockSize | ErrTooManyFileParts
  | ErrFileShortRead | ErrFilePartNotFound | ErrInvalidFilePart | ErrFileNotOpen
  | ErrInvalidOffset | ErrSeekPastEnd | ErrInvalidFileLayout
  | ErrInvalidComposite | ErrS3Precondition | ErrS3ObjectConflict
  | ErrInvalidS3Part | ErrS3PartNotFound | ErrInvalidUploadDeleteReference
  | ErrFileDeleteNotLive | ErrNotDirectory | ErrInvalidFileLinkPage | ErrFileLinkCursorStale
  | ErrWebDAVPrecondition | ErrWebDAVLocked | ErrWebDAVLockToken | ErrWebDAVProperty
  | ErrWebDAVQuota | ErrWebDAVTooManyItems | ErrWebDAVSyncToken
  | ErrNoSuchUpload | ErrInvalidMultipartPart | ErrInvalidPartOrder | ErrMultipartPartTooSmall
  | ErrMultipartEntityTooLarge | ErrMultipartConflict | ErrInvalidMultipartRequest
  | ErrMultipartChecksum | ErrMultipartChecksumType | ErrMultipartObjectSize
  | ErrBackupConflict | ErrBackupState | ErrBackupCompensation | ErrBackupBackendUpload
  | ErrBackupBackendReadback | ErrBackupPublish | ErrNoRows
  (* backupfmt *)
  | ErrInvalidArchive | ErrLimitExceeded | ErrChecksum | ErrMalformedJSON
  (* backupmgr *)
  | ErrInvalidRequest | ErrIdempotencyConflict | ErrJobNotFound | ErrJobNotCancelable
  | ErrArtifactUnavailable | ErrJobFailed | ErrJobCanceled | ErrJobClaimed | ErrSourceUnreadable
  (* syscall *)
  | ENOSPC
  (* the I/O cache *)
  | ErrInvalidCache | ErrInvalidCachePath | ErrCacheClosed | ErrCacheSourceSizeMismatch
  | ErrCacheLocalIO | ErrCacheSourceRead | ErrInvalidConfig
  (* an error without a sentinel of its own *)
  | ErrOther
  (* a Go runtime panic, and a recursion that does not end *)
  | Panic | Diverge.

#[global] Instance err_eq_dec : EqDecision err.
Proof. solve_decision. Defined.

(** ** Results *)
Inductive outcome (A : Type) :=
  | Ok (a : A)
  | Err (e : err).
Arguments Ok {A} a.
Arguments Err {A} e.

#[global] Instance outcome_eq_dec {A} `{EqDecision A} : EqDecision (outcome A).
Proof. solve_decision. Defined.

#[global] Instance outcome_ret : MRet outcome := @Ok.
#[global] Instance outcome_bind : MBind outcome := fun A B f m =>
  match m with Ok a => f a | Err e => Err e end.

(** ** Stateful code that may fail

    Go code that mutates a shared state and returns [(T, error)]: the state
    survives an error, so every effect made before the error stays visible. *)
Definition M (S A : Type) : Type := S -> outcome A * S.

#[global] Instance M_ret {S} : MRet (M S) := fun A a s => (Ok a, s).
#[global] Instance M_bind {S} : MBind (M S) := fun A B f m s =>
  match m s with
  | (Ok a, s') => f a s'
  | (Err e, s') => (Err e, s')
  end.

Definition fail {S A} (e : err) : M S A := fun s => (Err e, s).
Definition lift {S A} (o : outcome A) : M S A := fun s => (o, s).
Definition reads {S A} (f : S -> A) : M S A := fun s => (Ok (f s), s).
Definition modify {S} (f : S -> S) : M S unit := fun s => (Ok tt, f s).
(** [if cond { return err }] *)
Definition check {S} (b : bool) (e : err) : M S unit :=
  if b then fail e else mret tt.

(** The error as a value, for callers that test it. *)
Definition attempt {S A} (m : M S A) : M S (outcome A) := fun s => (Ok (m s).1, (m s).2).

(** [for _, x := range l { if err := f(x); err != nil { return err } }] *)
Fixpoint for_each {S A} (f : A -> M S unit) (l : list A) : M S unit :=
  match l with
  | [] => mret tt
  | x :: l' => f x ≫= fun _ => for_each f l'
  end.

(** A loop that threads an accumulator. *)
Fixpoint fold_each {S A B} (f : B -> A -> M S B) (acc : B) (l : list A) : M S B :=
  match l with
  | [] => mret acc
  | x :: l' => f acc x ≫= fun acc' => fold_each f acc' l'
  end.

(** The loop of the table scans: pages of rows for a callback that says whether to
    go on, until a page is not full. [page] also returns where the next one starts. *)
Fixpoint batch_loop {S A R} (page : Z -> M S (list R * Z)) (cb : A -> list R -> M S (bool * A))
    (batch fuel : nat) (lastid : Z) (acc : A) : M S A :=
  match fuel with
  | O => fail Diverge
  | Datatypes.S fuel =>
      rs ← page lastid;
      r ← cb acc rs.1;
      if negb r.1 then mret r.2
      else if Nat.ltb (length rs.1) batch then mret r.2
      else batch_loop page cb batch fuel rs.2 r.2
  end.

(** Pre- and postconditions. The postcondition sees the result whether it is a
    value or an error, so a triple never holds because the code fails. *)
Definition hoare {S A} (P : S -> Prop) (m : M S A)
    (Q : S -> outcome A -> S -> Prop) : Prop :=
  forall s, P s -> Q s (m s).1 (m s).2.

(** [m] keeps [I], on every branch. *)
Definition preserves {S A} (I : S -> Prop) (m : M S A) : Prop :=
  forall s, I s -> I (m s).2.

Section MonadLemmas.
Context {S : Type}.
Implicit Types (I P : S -> Prop).

Lemma bind_ok {A B} (m : M S A) (f : A -> M S B) s a s' :
  m s = (Ok a, s') -> (m ≫= f) s = f a s'.
Proof. intros H. unfold mbind, M_bind. by rewrite H. Qed.

Lemma bind_err {A B} (m : M S A) (f : A -> M S B) s e s' :
  m s = (Err e, s') -> (m ≫= f) s = (Err e, s').
Proof. intros H. unfold mbind, M_bind. by rewrite H. Qed.

Lemma bind_ok_inv {A B} (m : M S A) (f : A -> M S B) s b s'' :
  (m ≫= f) s = (Ok b, s'') ->
  exists a s', m s = (Ok a, s') /\ f a s' = (Ok b, s'').
Proof.
  unfold mbind, M_bind. destruct (m s) as [[a|e] s']; naive_solver.
Qed.

Lemma preserves_ret {A} I (a : A) : preserves I (mret a : M S A).
Proof. by intros s. Qed.

Lemma preserves_fail {A} I e : preserves I (fail e : M S A).
Proof. by intros s. Qed.

Lemma preserves_lift {A} I (o : outcome A) : preserves I (lift o).
Proof. by intros s. Qed.

Lemma preserves_reads {A} I (f : S -> A) : preserves I (reads f).
Proof. by intros s. Qed.

Lemma preserves_check I b e : preserves I (check b e).
Proof. by destruct b; intros s. Qed.

Lemma preserves_bind {A B} I (m : M S A) (f : A -> M S B) :
  preserves I m -> (forall a, preserves I (f a)) -> preserves I (m ≫= f).
Proof.
  intros Hm Hf s Hs. specialize (Hm s Hs). unfold mbind, M_bind.
  destruct (m s) as [[a|e] s']; simpl in *; [by apply Hf | done].
Qed.

Lemma preserves_attempt {A} I (m : M S A) : preserves I m -> preserves I (attempt m).
Proof. intros Hm s Hs. exact (Hm s Hs). Qed.

Lemma preserves_fold_each {A B} I (f : B -> A -> M S B) l acc :
  (forall b a, preserves I (f b a)) -> preserves I (fold_each f acc l).
Proof.
  intros Hf. revert acc. induction l; intros acc; simpl; [apply preserves_ret|].
  by apply preserves_bind.
Qed.

Lemma preserves_for_each {A} I (f : A -> M S unit) l :
  (forall a, preserves I (f a)) -> preserves I (for_each f l).
Proof.
  intros Hf. induction l; simpl; [apply preserves_ret|].
  by apply preserves_bind.
Qed.

Lemma bind_assoc {A B C} (m : M S A) (f : A -> M S B) (g : B -> M S C) s :
  ((m ≫= f) ≫= g) s = (m ≫= fun a => f a ≫= g) s.
Proof. unfold mbind, M_bind. by destruct (m s) as [[?|?] ?]. Qed.

Lemma reads_bind {A B} (f : S -> A) (g : A -> M S B) s : (reads f ≫= g) s = g (f s) s.
Proof. done. Qed.
Lemma modify_bind {B} (f : S -> S) (g : unit -> M S B) s : (modify f ≫= g) s = g tt (f s).
Proof. done. Qed.
Lemma ret_bind {A B} (a : A) (g : A -> M S B) s : (mret a ≫= g) s = g a s.
Proof. done. Qed.
Lemma lift_bind {A B} (o : outcome A) (g : A -> M S B) s :
  (lift o ≫= g) s = match o with Ok a => g a s | Err e => (Err e, s) end.
Proof. by destruct o. Qed.
Lemma check_bind {B} b e (f : unit -> M S B) s : (check b e ≫= f) s = if b then (Err e, s) else f tt s.
Proof. by destruct b. Qed.
Lemma check_eq b e (s : S) : check b e s = if b then (Err e, s) else (Ok tt, s).
Proof. by destruct b. Qed.

(** The bind rule used when the continuation needs what the first call gave. *)
Lemma hoare_bind {A B} P (m : M S A) (f : A -> M S B) Q R :
  hoare P m Q ->
  (forall s a s', P s -> Q s (Ok a) s' -> R s (f a s').1 (f a s').2) ->
  (forall s e s', P s -> Q s (Err e) s' -> R s (Err e) s') ->
  hoare P (m ≫= f) R.
Proof.
  intros Hm Hok Herr s Hs. specialize (Hm s Hs). unfold mbind, M_bind.
  destruct (m s) as [[a|e] s']; simpl in *; eauto.
Qed.
End MonadLemmas.

Create HintDb go.
#[export] Hint Resolve preserves_ret preserves_fail preserves_lift
  preserves_reads preserves_check preserves_bind preserves_for_each
  preserves_attempt preserves_fold_each : go.

(** Inverts a run [m s = (Ok b, s')] of a chain of binds into its steps. *)
Ltac run_inv H :=
  let a := fresh "a" in let s := fresh "s" in
  let H1 := fresh "Hrun" in
  apply bind_ok_inv in H as (a & s & H1 & H).

(** Destructs the scrutinee of a [match] or [if], keeping its equation. *)
Ltac case_go :=
  match goal with
  | |- context [match ?x with _ => _ end] =>
      lazymatch x with
      | context [match _ with _ => _ end] => fail
      | _ => destruct x eqn:?
      end
  end.
Ltac case_go_in H :=
  lazymatch type of H with
  | context [match ?x with _ => _ end] => destruct x eqn:?
  end.

(** ** Tables

    A table is the list of its rows in insertion order. [WHERE] clauses are
    boolean predicates; [UPDATE], [DELETE], [COUNT] and [ORDER BY] are below. *)
Section Sql.
Context {R : Type}.
Implicit Types (p : R -> bool) (f : R -> R) (t : list R).

Definition sql_select p t : list R := List.filter p t.
Definition sql_count p t : Z := Z.of_nat (length (sql_select p t)).
Definition sql_update p f t : list R := map (fun r => if p r then f r else r) t.
Definition sql_delete p t : list R := List.filter (fun r => negb (p r)) t.
Definition sql_exists p t : bool := existsb p t.

(** Insertion sort by a boolean order, for [ORDER BY]. *)
Fixpoint insert_by (le : R -> R -> bool) (x : R) t : list R :=
  match t with
  | [] => [x]
  | y :: t' => if le x y then x :: t else y :: insert_by le x t'
  end.
Fixpoint order_by (le : R -> R -> bool) t : list R :=
  match t with
  | [] => []
  | x :: t' => insert_by le x (order_by le t')
  end.
(** [LIMIT offset, limit] *)
Definition sql_limit (offset limit : nat) t : list R := take limit (drop offset t).

Lemma sql_select_elem p t r : r ∈ sql_select p t <-> r ∈ t /\ p r = true.
Proof. unfold sql_select. by rewrite !list_elem_of_In, List.filter_In. Qed.

Lemma sql_delete_elem p t r : r ∈ sql_delete p t <-> r ∈ t /\ p r = false.
Proof.
  unfold sql_delete. rewrite !list_elem_of_In, List.filter_In.
  by rewrite negb_true_iff.
Qed.

Lemma filter_sublist p t : sublist (List.filter p t) t.
Proof.
  induction t as [|r t IH]; simpl; [constructor|]. by case_match; constructor.
Qed.

Lemma sql_update_elem p f t r :
  r ∈ sql_update p f t <->
  exists r0, r0 ∈ t /\ r = (if p r0 then f r0 else r0).
Proof.
  unfold sql_update. rewrite list_elem_of_In, in_map_iff.
  split; intros (r0 & H1 & H2); exists r0; rewrite list_elem_of_In in *; auto.
Qed.

Lemma sql_count_zero p t :
  sql_count p t = 0 <-> forall r, r ∈ t -> p r = false.
Proof.
  unfold sql_count. split.
  - intros H r Hr. destruct (p r) eqn:E; [|done].
    assert (r ∈ sql_select p t) as Hin by (by apply sql_select_elem).
    destruct (sql_select p t); [by apply elem_of_nil in Hin | simpl in H; lia].
  - intros H. destruct (sql_select p t) as [|r l] eqn:E; [done|].
    assert (r ∈ sql_select p t) as Hin by (rewrite E; left).
    apply sql_select_elem in Hin as [Hin Hp]. rewrite H in Hp; done.
Qed.

Lemma sql_exists_true p t :
  sql_exists p t = true <-> exists r, r ∈ t /\ p r = true.
Proof.
  unfold sql_exists. rewrite existsb_exists.
  by setoid_rewrite <- list_elem_of_In.
Qed.

Lemma sql_exists_false p t :
  sql_exists p t = false <-> forall r, r ∈ t -> p r = false.
Proof.
  rewrite <- not_true_iff_false, sql_exists_true. split.
  - intros H r Hr. destruct (p r) eqn:E; [|done]. exfalso; eauto.
  - intros H (r & Hr & Hp). by rewrite H in Hp.
Qed.

Lemma sql_update_length p f t : length (sql_update p f t) = length t.
Proof. apply length_map. Qed.

Lemma insert_by_perm le x t : insert_by le x t ≡ₚ x :: t.
Proof.
  induction t as [|y t IH]; simpl; [done|].
  case_match; [done|]. rewrite IH. apply Permutation_swap.
Qed.

Lemma order_by_perm le t : order_by le t ≡ₚ t.
Proof. induction t; simpl; [done|]. rewrite insert_by_perm. by f_equiv. Qed.

Lemma order_by_elem le t r : r ∈ order_by le t <-> r ∈ t.
Proof. by rewrite order_by_perm. Qed.

Section Sorted.
Context (le : R -> R -> bool).
Hypothesis le_trans : forall a b c, le a b = true -> le b c = true -> le a c = true.
Hypothesis le_total : forall a b, le a b = true \/ le b a = true.

Lemma insert_by_sorted x t :
  StronglySorted (fun a b => le a b = true) t ->
  StronglySorted (fun a b => le a b = true) (insert_by le x t).
Proof.
  induction 1 as [|y t Ht IH Hy]; simpl; [repeat constructor|].
  destruct (le x y) eqn:E.
  - constructor; [by constructor|]. constructor; [done|].
    eapply Forall_impl; [exact Hy|]. simpl. eauto.
  - constructor; [done|]. rewrite insert_by_perm. constructor; [|done].
    destruct (le_total x y); congruence.
Qed.

Lemma order_by_sorted t :
  StronglySorted (fun a b => le a b = true) (order_by le t).
Proof. induction t; simpl; [constructor | by apply insert_by_sorted]. Qed.
End Sorted.
End Sql.

(** ** Constants (src/constant/) *)
Definition FileStateInit : Z := 1.
Definition FileStateReady : Z := 2.
Definition FileStateDeleted : Z := 3.

(** ** Integers *)

(** The value an int64 variable holds after an arithmetic expression. *)
Definition wrap64 (z : Z) : Z :=
  let m := z `mod` 2 ^ 64 in if m <? 2 ^ 63 then m else m - 2 ^ 64.

Definition int64 (z : Z) : Prop := - 2 ^ 63 <= z < 2 ^ 63.

Lemma wrap64_id z : int64 z -> wrap64 z = z.
Proof.
  unfold int64, wrap64. intros H.
  destruct (decide (0 <= z)).
  - rewrite Z.mod_small by lia. case_match; lia.
  - assert (z `mod` 2 ^ 64 = z + 2 ^ 64) as ->.
    { rewrite <- (Z.mod_add z 1) by lia. rewrite Z.mod_small; lia. }
    case_match; lia.
Qed.

(** ** Lists *)
Definition sumZ (l : list Z) : Z := foldr Z.add 0 l.

Lemma sumZ_app l1 l2 : sumZ (l1 ++ l2) = sumZ l1 + sumZ l2.
Proof. unfold sumZ. induction l1; simpl; lia. Qed.

Lemma sumZ_nonneg l : Forall (fun z => 0 <= z) l -> 0 <= sumZ l.
Proof. unfold sumZ. induction 1; simpl; lia. Qed.

Lemma NoDup_fmap_inj {A B} (f : A -> B) (l : list A) a b :
  NoDup (f <$> l) -> a ∈ l -> b ∈ l -> f a = f b -> a = b.
Proof.
  induction l as [|c l IH]; simpl; intros Hnd Ha Hb E; [by apply elem_of_nil in Ha|].
  apply NoDup_cons in Hnd as [Hc Hnd].
  assert (forall x, x ∈ l -> f x <> f c) as Hne.
  { intros x Hx Hfx. apply Hc. rewrite <- Hfx. by apply list_elem_of_fmap_2. }
  apply elem_of_cons in Ha as [->|Ha], Hb as [->|Hb]; eauto; exfalso; eapply Hne; eauto.
Qed.

(** [Z]-indexed slices, as Go's [b[i:j]] on a byte slice. *)
Definition zdrop {A} (i : Z) (l : list A) : list A := drop (Z.to_nat i) l.
Definition ztake {A} (i : Z) (l : list A) : list A := take (Z.to_nat i) l.
Definition zlen {A} (l : list A) : Z := Z.of_nat (length l).

Section ZSlices.
Context {A : Type}.
Implicit Types l k : list A.

Lemma zlen_nonneg l : 0 <= zlen l.
Proof. unfold zlen; lia. Qed.

Lemma zlen_app l k : zlen (l ++ k) = zlen l + zlen k.
Proof. unfold zlen. rewrite length_app. lia. Qed.

Lemma zlen_nil_inv l : zlen l = 0 -> l = [].
Proof. unfold zlen. destruct l; simpl; [done | lia]. Qed.

Lemma zlen_zdrop i l : 0 <= i -> zlen (zdrop i l) = Z.max 0 (zlen l - i).
Proof. intros. unfold zlen, zdrop. rewrite length_drop. lia. Qed.

Lemma zlen_ztake i l : 0 <= i -> zlen (ztake i l) = Z.min i (zlen l).
Proof. intros. unfold zlen, ztake. rewrite length_take. lia. Qed.

Lemma zdrop_zdrop i j l : 0 <= i -> 0 <= j -> zdrop i (zdrop j l) = zdrop (i + j) l.
Proof. intros. unfold zdrop. rewrite drop_drop. f_equal. lia. Qed.

Lemma zdrop_0 l : zdrop 0 l = l.
Proof. done. Qed.

Lemma zdrop_ge i l : zlen l <= i -> zdrop i l = [].
Proof. intros. unfold zdrop, zlen in *. apply drop_ge. lia. Qed.

Lemma ztake_ge i l : zlen l <= i -> ztake i l = l.
Proof. intros. unfold ztake, zlen in *. apply take_ge. lia. Qed.

Lemma ztake_app_le i l k : i <= zlen l -> ztake i (l ++ k) = ztake i l.
Proof. intros. unfold ztake, zlen in *. apply take_app_le. lia. Qed.

Lemma zdrop_app_ge i l k :
  zlen l <= i -> zdrop i (l ++ k) = zdrop (i - zlen l) k.
Proof.
  intros. unfold zdrop, zlen in *. rewrite drop_app_ge by lia. f_equal. lia.
Qed.

Lemma zdrop_app_le i l k : i <= zlen l -> zdrop i (l ++ k) = zdrop i l ++ k.
Proof. intros. unfold zdrop, zlen in *. apply drop_app_le. lia. Qed.

Lemma zdrop_prefix i l k rest :
  0 <= i -> zdrop i l = k ++ rest -> rest = zdrop (i + zlen k) l.
Proof.
  intros Hi H. rewrite Z.add_comm, <- zdrop_zdrop by (try apply zlen_nonneg; lia).
  rewrite H. unfold zdrop, zlen. by rewrite Nat2Z.id, drop_app_length.
Qed.

Lemma ztake_prefix l k rest : l = k ++ rest -> k = ztake (zlen k) l.
Proof. intros ->. unfold ztake, zlen. by rewrite Nat2Z.id, take_app_length. Qed.
End ZSlices.
#[export] Hint Resolve zlen_nonneg : go.
