(* ===== verification/Paging.v ===== *)
(** * Keyset pagination

    Scans and listings read a table page by page, each page starting after the
    last row of the one before. Over an order in which no two rows are equal the
    pages are the consecutive pieces of the ordered table. *)

From stdpp Require Import base strings list sorting.
From S2P Require Import Prelude.

Section Keyset.
Context {R : Type} (le : R -> R -> bool).
Hypothesis le_trans : forall a b c, le a b = true -> le b c = true -> le a c = true.
Hypothesis le_total : forall a b, le a b = true \/ le b a = true.
Context (t : list R).
Hypothesis le_anti : forall a b, a ∈ t -> b ∈ t -> le a b = true -> le b a = true -> a = b.

Lemma order_by_perm_eq (l1 l2 : list R) :
  (forall r, r ∈ l1 -> r ∈ t) -> l1 ≡ₚ l2 ->
  StronglySorted (fun a b => le a b = true) l2 -> order_by le l1 = l2.
Proof.
  intros Hin Hp Hs. apply (StronglySorted_unique_strong (fun a b => le a b = true)).
  - intros a b Ha%order_by_elem Hb. apply le_anti; [by apply Hin|]. apply Hin. by rewrite Hp.
  - by apply order_by_sorted.
  - done.
  - by rewrite order_by_perm.
Qed.

Lemma filter_perm (p : R -> bool) l1 l2 : l1 ≡ₚ l2 -> List.filter p l1 ≡ₚ List.filter p l2.
Proof.
  induction 1; simpl; [done| | |by etrans].
  - by case_match; [f_equiv|].
  - repeat case_match; try done. apply Permutation_swap.
Qed.

Lemma filter_all (p : R -> bool) l : (forall r, r ∈ l -> p r = true) -> List.filter p l = l.
Proof.
  induction l as [|r l IH]; intros Hp; simpl; [done|].
  rewrite (Hp r) by left. f_equal. apply IH. intros. apply Hp. by right.
Qed.

Lemma filter_none (p : R -> bool) l : (forall r, r ∈ l -> p r = false) -> List.filter p l = [].
Proof.
  induction l as [|r l IH]; intros Hp; simpl; [done|].
  rewrite (Hp r) by left. apply IH. intros. apply Hp. by right.
Qed.

Lemma filter_andb (p q : R -> bool) l :
  List.filter (fun r => p r && q r) l = List.filter q (List.filter p l).
Proof. induction l as [|r l IH]; simpl; [done|]. destruct (p r); simpl; by rewrite IH. Qed.

(** The rows after the cut, when [after] tells them from the rows before it. *)
Lemma keyset_rest (p after : R -> bool) l1 l2 :
  order_by le (sql_select p t) = l1 ++ l2 ->
  (forall r, r ∈ l1 -> after r = false) -> (forall r, r ∈ l2 -> after r = true) ->
  order_by le (sql_select (fun r => p r && after r) t) = l2.
Proof.
  intros E H1 H2. apply order_by_perm_eq.
  - intros r Hr. by apply sql_select_elem in Hr as [? _].
  - unfold sql_select. rewrite filter_andb.
    rewrite (filter_perm after _ (l1 ++ l2)).
    2: { rewrite <- E. symmetry. apply order_by_perm. }
    rewrite List.filter_app, filter_none, filter_all by done. done.
  - pose proof (order_by_sorted le le_trans le_total (sql_select p t)) as Hs. rewrite E in Hs.
    by apply StronglySorted_app_1_r in Hs.
Qed.
End Keyset.

(** ** Pages by a key with a strict order *)
Section ByStrict.
Context {R K : Type} (k : R -> K) (lt : K -> K -> Prop) (le : R -> R -> bool).
Hypothesis lt_irrefl : forall a, ~ lt a a.
Hypothesis lt_trans : forall a b c, lt a b -> lt b c -> lt a c.
Hypothesis lt_cases : forall a b, lt a b \/ a = b \/ lt b a.
Hypothesis le_spec : forall a b, le a b = true <-> lt (k a) (k b) \/ k a = k b.
Context (t : list R) (k_nodup : NoDup (k <$> t)).

Lemma strict_trans a b c : le a b = true -> le b c = true -> le a c = true.
Proof using lt_trans le_spec.
  rewrite !le_spec. intros [H1|E1] [H2|E2].
  - left. by eapply lt_trans.
  - left. by rewrite <- E2.
  - left. by rewrite E1.
  - right. congruence.
Qed.

Lemma strict_total a b : le a b = true \/ le b a = true.
Proof using lt_cases le_spec.
  rewrite !le_spec. destruct (lt_cases (k a) (k b)) as [?|[?|?]]; auto.
Qed.

Lemma strict_anti a b : a ∈ t -> b ∈ t -> le a b = true -> le b a = true -> a = b.
Proof using lt_irrefl lt_trans le_spec k_nodup.
  rewrite !le_spec. intros Ha Hb H1 H2. apply (NoDup_fmap_inj k t); [done..|].
  destruct H1 as [H1|]; [|done]. destruct H2 as [H2|]; [|done].
  destruct (lt_irrefl _ (lt_trans _ _ _ H1 H2)).
Qed.

(** The ordered table is strictly increasing. *)
Lemma ordered_strict : StronglySorted (fun a b => lt (k a) (k b)) (order_by le t).
Proof using lt_irrefl lt_trans lt_cases le_spec k_nodup.
  pose proof (order_by_sorted le strict_trans strict_total t) as Hs.
  assert (NoDup (k <$> order_by le t)) as Hn by (by rewrite order_by_perm).
  induction Hs as [|x l Hs IH Hx]; constructor.
  - apply IH. by apply NoDup_cons in Hn as [_ ?].
  - apply NoDup_cons in Hn as [Hn _]. rewrite Forall_forall in *. intros y Hy.
    destruct (proj1 (le_spec _ _) (Hx y Hy)) as [?|E]; [done|].
    exfalso. apply Hn. rewrite E. by apply list_elem_of_fmap_2.
Qed.

(** The rows behind [l1], when [after] asks for the keys behind its last one. *)
Lemma strict_page (after : R -> bool) l1 l2 :
  (forall r, r ∈ t -> after r = true <-> match last l1 with Some x => lt (k x) (k r) | None => True end) ->
  order_by le t = l1 ++ l2 -> order_by le (sql_select after t) = l2.
Proof using lt_irrefl lt_trans lt_cases le_spec k_nodup.
  intros Hafter E. pose proof ordered_strict as Hs. rewrite E in Hs.
  assert (forall r, r ∈ l1 ++ l2 -> r ∈ t) as Hin by (intros r; by rewrite <- E, order_by_elem).
  apply (keyset_rest le strict_trans strict_total t strict_anti (fun _ => true) _ l1 l2).
  - by rewrite <- E, (filter_all (fun _ => true)).
  - intros r Hr. apply not_true_iff_false. rewrite Hafter by (apply Hin, elem_of_app; by left).
    destruct (last l1) as [x|] eqn:Ex; [|apply last_None in Ex as ->; by apply elem_of_nil in Hr].
    apply last_Some in Ex as [l ->]. apply elem_of_app in Hr as [Hr|Hr%list_elem_of_singleton].
    2: { subst. apply lt_irrefl. }
    rewrite <- app_assoc in Hs.
    pose proof (StronglySorted_app_1_elem_of _ _ _ r x Hs Hr ltac:(left)) as Hlt. cbn in Hlt.
    intros H. destruct (lt_irrefl _ (lt_trans _ _ _ H Hlt)).
  - intros r Hr. apply Hafter; [apply Hin, elem_of_app; by right|].
    destruct (last l1) as [x|] eqn:Ex; [|done]. apply last_Some in Ex as [l ->].
    apply (StronglySorted_app_1_elem_of _ _ _ x r Hs); [|done]. apply elem_of_app. right. left.
Qed.
End ByStrict.

Lemma sorted_filter_by {A K} (lt : K -> K -> Prop) (k : A -> K) p (l : list A) :
  StronglySorted (fun a b => lt (k a) (k b)) l -> StronglySorted lt (map k (List.filter p l)).
Proof.
  induction 1 as [|x l Hs IH Hx]; simpl; [constructor|]. destruct (p x); [|done]. simpl.
  constructor; [done|]. apply Forall_forall.
  intros y (z & <- & [Hz _]%List.filter_In)%list_elem_of_In%in_map_iff.
  rewrite Forall_forall in Hx. by apply Hx, list_elem_of_In.
Qed.

(** ** Scans by an increasing key *)
Section ByKey.
Context {R : Type} (k : R -> Z) (t : list R).
Definition by_key (a b : R) : bool := k a <=? k b.
Hypothesis k_nodup : NoDup (k <$> t).
Hypothesis k_pos : forall r, r ∈ t -> 0 < k r.

Lemma by_key_anti a b : a ∈ t -> b ∈ t -> by_key a b = true -> by_key b a = true -> a = b.
Proof using k_nodup.
  intros Ha Hb H1%Z.leb_le H2%Z.leb_le. apply (NoDup_fmap_inj k t); [done..|lia].
Qed.

Lemma by_key_trans a b c : by_key a b = true -> by_key b c = true -> by_key a c = true.
Proof. unfold by_key. rewrite !Z.leb_le. lia. Qed.

Lemma by_key_total a b : by_key a b = true \/ by_key b a = true.
Proof. unfold by_key. rewrite !Z.leb_le. lia. Qed.

(** Where the scan stands after the rows [l1]. *)
Definition cut_key (l1 : list R) : Z := match last l1 with Some r => k r | None => 0 end.

Lemma page_after (p : R -> bool) l1 l2 :
  order_by by_key (sql_select p t) = l1 ++ l2 ->
  order_by by_key (sql_select (fun r => p r && (cut_key l1 <? k r)) t) = l2.
Proof using k_nodup k_pos.
  intros E. eapply keyset_rest; [apply by_key_trans|apply by_key_total|apply by_key_anti|exact E|..].
  all: pose proof (order_by_sorted by_key by_key_trans by_key_total (sql_select p t)) as Hs;
    rewrite E in Hs.
  - intros r Hr. apply Z.ltb_ge. unfold cut_key.
    destruct (last l1) as [x|] eqn:Ex; [|by apply last_None in Ex; subst; apply elem_of_nil in Hr].
    apply last_Some in Ex as [l ->]. apply elem_of_app in Hr as [Hr|Hr%list_elem_of_singleton]; [|by subst].
    rewrite <- app_assoc in Hs. apply Z.leb_le.
    eapply (StronglySorted_app_1_elem_of (fun a b => by_key a b = true)); [exact Hs|done|left].
  - intros r Hr. apply Z.ltb_lt. unfold cut_key.
    assert (forall x, x ∈ l1 ++ l2 -> x ∈ t) as Hin.
    { intros x Hx. rewrite <- E in Hx. apply order_by_elem, sql_select_elem in Hx. by destruct Hx. }
    destruct (last l1) as [x|] eqn:Ex; [|apply k_pos, Hin, elem_of_app; by right].
    apply last_Some in Ex as [l ->].
    assert (by_key x r = true) as Hle%Z.leb_le.
    { eapply (StronglySorted_app_1_elem_of (fun a b => by_key a b = true)); [exact Hs| |done].
      apply elem_of_app. right. by apply list_elem_of_singleton. }
    assert (k x <> k r); [|lia]. intros Ek.
    assert (NoDup ((l ++ [x]) ++ l2)) as Hnd.
    { rewrite <- E, order_by_perm. eapply sublist_NoDup; [by eapply NoDup_fmap_1|apply filter_sublist]. }
    assert (x = r) as <-.
    { apply (NoDup_fmap_inj k t); [done| | |done]; apply Hin, elem_of_app; [left|by right].
      apply elem_of_app. right. by apply list_elem_of_singleton. }
    apply NoDup_app in Hnd as (_ & Hdis & _). apply (Hdis x); [|done].
    apply elem_of_app. right. by apply list_elem_of_singleton.
Qed.

(** One page of a batch. *)
Definition next_page (p : R -> bool) (batch : nat) (lastid : Z) : list R * Z :=
  let rs := sql_limit 0 batch (order_by by_key (sql_select (fun r => p r && (lastid <? k r)) t)) in
  (rs, match last rs with Some r => k r | None => 0 end).

(** A scan whose callback folds over the rows visits every row once, in order. *)
Lemma batch_loop_fold {S A} (page : Z -> M S (list R * Z)) (f : A -> R -> A) (p : R -> bool)
    batch fuel l1 l2 acc s :
  (forall last, page last s = (Ok (next_page p batch last), s)) ->
  (0 < batch)%nat -> order_by by_key (sql_select p t) = l1 ++ l2 -> (length l2 < fuel)%nat ->
  batch_loop page (fun acc rs => mret (true, foldl f acc rs)) batch fuel (cut_key l1) acc s
  = (Ok (foldl f acc l2), s).
Proof using k_nodup k_pos.
  intros Hpage Hb. revert l1 l2 acc. induction fuel as [|fuel IH]; intros l1 l2 acc E Hfuel; [lia|].
  cbn [batch_loop]. rewrite (bind_ok _ _ _ _ _ (Hpage _)).
  rewrite (bind_ok (mret _) _ s _ s eq_refl). cbn [fst snd negb].
  unfold next_page. rewrite (page_after p l1 l2 E). unfold sql_limit. rewrite drop_0. cbn [fst snd].
  destruct (Nat.ltb_spec (length (take batch l2)) batch) as [Hlt|Hge].
  { rewrite length_take in Hlt. by rewrite take_ge by lia. }
  rewrite length_take in Hge.
  replace (match last (take batch l2) with Some r => k r | None => 0 end)
    with (cut_key (l1 ++ take batch l2)).
  2: { unfold cut_key. rewrite last_app. destruct (last (take batch l2)) eqn:El; [done|].
       apply last_None in El. apply (f_equal length) in El. rewrite length_take in El. simpl in El. lia. }
  rewrite (IH (l1 ++ take batch l2) (drop batch l2)).
  - by rewrite <- foldl_app, take_drop.
  - by rewrite E, <- app_assoc, take_drop.
  - rewrite length_drop. lia.
Qed.
End ByKey.
