(* ===== verification/Authz.v ===== *)
(** * authz: permissions (src/authz/authz.go)

    [Permission] is a string type with eleven constants; an [Authorizer] holds
    the permissions granted to each user and answers [Has], [Any] and [Level].
    The specification is the relation [entails]: which granted permission
    allows which requested one. *)

From stdpp Require Import base gmap strings list.
From S2P Require Import Prelude.

Module Authz.

Definition Permission := string.

Definition S3Read : Permission := "s3:read".
Definition S3Write : Permission := "s3:write".
Definition WebDAVRead : Permission := "webdav:read".
Definition WebDAVWrite : Permission := "webdav:write".
Definition BackupRead : Permission := "backup:read".
Definition BackupWrite : Permission := "backup:write".
Definition AdminRead : Permission := "admin:read".
Definition AdminWrite : Permission := "admin:write".
Definition FileWrite : Permission := "file:write".
Definition AllRead : Permission := "all:read".
Definition AllWrite : Permission := "all:write".

Inductive Level := LevelNone | LevelRead | LevelReadWrite.

Inductive permissionClass := classRead | classWrite.

#[global] Instance permissionClass_eq_dec : EqDecision permissionClass.
Proof. solve_decision. Defined.

Definition permissionClasses : gmap string permissionClass :=
  list_to_map
    [(S3Read, classRead); (S3Write, classWrite);
     (WebDAVRead, classRead); (WebDAVWrite, classWrite);
     (BackupRead, classRead); (BackupWrite, classWrite);
     (AdminRead, classRead); (AdminWrite, classWrite);
     (FileWrite, classWrite); (AllRead, classRead); (AllWrite, classWrite)].

Definition writeForRead : gmap string string :=
  list_to_map
    [(S3Read, S3Write); (WebDAVRead, WebDAVWrite);
     (BackupRead, BackupWrite); (AdminRead, AdminWrite)].

Record Authorizer := { grants : gmap string (gset string) }.

(** The inner loop of [New]: one user's permission list. *)
Fixpoint userGrants_loop (values : list string) (userGrants : gset string)
    : outcome (gset string) :=
  match values with
  | [] => Ok userGrants
  | permission :: rest =>
      match permissionClasses !! permission with
      | None => Err ErrInvalidPermission
      | Some _ =>
          if decide (permission ∈ userGrants) then Err ErrInvalidPermission
          else userGrants_loop rest ({[permission]} ∪ userGrants)
      end
  end.

(** The outer loop of [New], over the map's entries in iteration order. *)
Fixpoint New_loop (entries : list (string * list string))
    (acc : gmap string (gset string)) : outcome (gmap string (gset string)) :=
  match entries with
  | [] => Ok acc
  | (username, values) :: rest =>
      userGrants ← userGrants_loop values ∅;
      New_loop rest (<[username := userGrants]> acc)
  end.

Definition New (input : gmap string (list string)) : outcome Authorizer :=
  g ← New_loop (map_to_list input) ∅; Ok {| grants := g |}.

(** [None] is the nil [*Authorizer]. *)
Definition Has (a : option Authorizer) (username permission : string) : bool :=
  match permissionClasses !! permission, a with
  | Some class, Some a =>
      match grants a !! username with
      | None => false
      | Some g =>
          if decide (AllWrite ∈ g) then true
          else if decide (permission ∈ g) then true
          else if decide (class = classRead) then
            if decide (AllRead ∈ g) then true
            else match writeForRead !! permission with
                 | Some write => bool_decide (write ∈ g)
                 | None => false
                 end
          else false
      end
  | _, _ => false
  end.

Definition Any (a : option Authorizer) (permission : string) : bool :=
  match a with
  | None => false
  | Some x => existsb (fun u => Has a u permission) (map_to_list (grants x)).*1
  end.

Definition level (a : option Authorizer)
    (username readPermission writePermission : string) : Level :=
  if Has a username writePermission then LevelReadWrite
  else if Has a username readPermission then LevelRead
  else LevelNone.

(** ** Specification *)

Definition known (p : string) : Prop := is_Some (permissionClasses !! p).

(** Holding [g] allows [p]. *)
Inductive entails : string -> string -> Prop :=
  | entails_self p : known p -> entails p p
  | entails_all_write p : known p -> entails AllWrite p
  | entails_all_read p :
      permissionClasses !! p = Some classRead -> entails AllRead p
  | entails_write_read r w : writeForRead !! r = Some w -> entails w r.

(** ** Proofs *)

Lemma userGrants_loop_spec values acc g :
  userGrants_loop values acc = Ok g <->
  NoDup values /\ Forall known values /\ (forall p, p ∈ values -> p ∉ acc) /\
  g = list_to_set values ∪ acc.
Proof.
  revert acc. induction values as [|p values IH]; intros acc; simpl.
  { split; [intros [= ->]; split_and!; set_solver by constructor |].
    intros (_ & _ & _ & ->). f_equal. set_solver. }
  rewrite NoDup_cons, Forall_cons. unfold known.
  destruct (permissionClasses !! p) eqn:E; [|naive_solver].
  case_decide; [set_solver|].
  rewrite IH. split.
  - intros (? & ? & Hd & ->). split_and!; try done; [set_solver..|].
    rewrite (assoc_L (∪)). f_equal. set_solver.
  - intros ([? ?] & [_ ?] & Hd & ->). split_and!; [done..| |].
    + intros q Hq. set_solver.
    + rewrite (assoc_L (∪)). f_equal. set_solver.
Qed.

Lemma New_loop_spec entries acc g :
  NoDup entries.*1 -> New_loop entries acc = Ok g ->
  forall u, g !! u =
    match (list_to_map entries : gmap string (list string)) !! u with
    | Some values => Some (list_to_set values)
    | None => acc !! u
    end.
Proof.
  revert acc. induction entries as [|[u0 values] entries IH]; intros acc Hnd; simpl.
  { by intros [= ->]. }
  apply NoDup_cons in Hnd as [Hni Hnd].
  destruct (userGrants_loop values ∅) as [ug|] eqn:E; [|done]. simpl.
  intros H u. rewrite (IH _ Hnd H).
  apply userGrants_loop_spec in E as (_ & _ & _ & ->).
  destruct (decide (u = u0)) as [->|].
  - rewrite not_elem_of_list_to_map_1 by done. rewrite !lookup_insert_eq.
    f_equal. set_solver.
  - by rewrite !lookup_insert_ne by done.
Qed.

Lemma New_grants input a u :
  New input = Ok a ->
  grants a !! u = (fun l => list_to_set l) <$> input !! u.
Proof.
  unfold New. destruct (New_loop _ _) as [g|] eqn:E; [|done].
  intros [= <-]. simpl.
  rewrite (New_loop_spec _ _ _ (NoDup_fst_map_to_list _) E).
  rewrite list_to_map_to_list, lookup_empty. by destruct (input !! u).
Qed.

Lemma writeForRead_class r w :
  writeForRead !! r = Some w -> permissionClasses !! r = Some classRead.
Proof.
  intros H. apply elem_of_list_to_map_2 in H.
  set_unfold in H. destruct_or!; simplify_eq; reflexivity.
Qed.

Lemma entails_known g p : entails g p -> known p.
Proof.
  unfold known. intros [p' Hk|p' Hk|p' Hc|r w Hw]; [done|done|..].
  - by rewrite Hc.
  - by rewrite (writeForRead_class _ _ Hw).
Qed.

Lemma Has_entails a u p :
  Has (Some a) u p = true <->
  exists g q, grants a !! u = Some g /\ q ∈ g /\ entails q p.
Proof.
  unfold Has. destruct (permissionClasses !! p) as [c|] eqn:Ec; last first.
  { split; [done|]. intros (g & q & _ & _ & He).
    apply entails_known in He as [? ?]. congruence. }
  assert (known p) as Hk by (unfold known; by rewrite Ec).
  destruct (grants a !! u) as [g|] eqn:Eg; last naive_solver.
  split.
  - intros H. exists g.
    repeat case_decide; try done.
    + by exists AllWrite; eauto using entails.
    + by exists p; eauto using entails.
    + subst. by exists AllRead; eauto using entails.
    + destruct (writeForRead !! p) as [w|] eqn:Ew; [|done].
      apply bool_decide_eq_true in H. exists w; eauto using entails.
  - intros (g' & q & [= <-] & Hq & He).
    destruct He as [p' Hk'|p' Hk'|p' Hc|r w Hw].
    + by repeat case_decide.
    + by repeat case_decide.
    + assert (c = classRead) by congruence. by repeat case_decide.
    + pose proof (writeForRead_class _ _ Hw).
      assert (c = classRead) by congruence. subst.
      repeat case_decide; try done. rewrite Hw. by apply bool_decide_eq_true.
Qed.

(** C21. [Has] of an authorizer built by [New] decides the permission closure: a
    user may do [p] exactly when one of the permissions configured for that user
    entails [p] (itself, [all:write], [all:read] for a read permission, or the
    write permission of the same protocol). *)
Theorem Has_decides_entails (input : gmap string (list string)) a u p :
  New input = Ok a ->
  Has (Some a) u p = true <->
  exists values g, input !! u = Some values /\ g ∈ values /\ entails g p.
Proof.
  intros HN. rewrite Has_entails. setoid_rewrite (New_grants _ _ _ HN).
  split.
  - intros (g & q & Hg & Hq & He).
    apply fmap_Some in Hg as (l & Hl & ->). exists l, q. set_solver.
  - intros (l & g & Hl & Hg & He). exists (list_to_set l), g.
    rewrite Hl. set_solver.
Qed.

Definition example_input : gmap string (list string) :=
  {["alice" := ["s3:write"; "admin:read"]]}.

Lemma Has_decides_entails_witness :
  exists a, New example_input = Ok a /\
    (Has (Some a) "alice" S3Read = true <->
     exists values g, example_input !! "alice" = Some values /\
       g ∈ values /\ entails g S3Read).
Proof.
  eexists. split; [vm_compute; reflexivity|].
  apply Has_decides_entails. vm_compute. reflexivity.
Defined.

Lemma entails_trans p q r : entails p q -> entails q r -> entails p r.
Proof.
  intros H1 H2. pose proof (entails_known _ _ H2) as Hr.
  destruct H1 as [p' Hk|p' Hk|p' Hc|r' w Hw]; [done|by constructor|..].
  - destruct H2 as [p'' Hk''|p'' Hk''|p'' Hc''|r'' w'' Hw''].
    + by apply entails_all_read.
    + by vm_compute in Hc.
    + by apply entails_all_read.
    + apply elem_of_list_to_map_2 in Hw''. set_unfold in Hw''.
      destruct_or!; simplify_eq; by vm_compute in Hc.
  - apply elem_of_list_to_map_2 in Hw. set_unfold in Hw.
    destruct H2 as [p'' Hk''|p'' Hk''|p'' Hc''|r'' w'' Hw''].
    + apply entails_write_read. destruct_or!; simplify_eq; reflexivity.
    + destruct_or!; simplify_eq.
    + destruct_or!; simplify_eq.
    + apply elem_of_list_to_map_2 in Hw''. set_unfold in Hw''.
      destruct_or!; simplify_eq.
Qed.

(** C22. [New] accepts a configuration exactly when every user's permissions are
    known and listed once. *)
Theorem New_accepts_iff (input : gmap string (list string)) :
  (exists a, New input = Ok a) <->
  forall u values, input !! u = Some values -> NoDup values /\ Forall known values.
Proof.
  assert (forall entries acc,
    (exists g, New_loop entries acc = Ok g) <->
    forall u values, (u, values) ∈ entries -> NoDup values /\ Forall known values)
    as Hloop.
  { induction entries as [|[u0 vs] entries IH]; intros acc; simpl.
    { split; [intros _ ? ? []%elem_of_nil | eauto]. }
    destruct (userGrants_loop vs ∅) as [ug|e] eqn:E; simpl.
    - rewrite IH. apply userGrants_loop_spec in E as (? & ? & _).
      set_solver.
    - split; [naive_solver|]. intros H.
      destruct (H u0 vs) as [Hn Hk]; [left|].
      assert (userGrants_loop vs ∅ = Ok (list_to_set vs ∪ ∅)) as Hok.
      { apply userGrants_loop_spec. split_and!; set_solver. }
      congruence. }
  setoid_rewrite <- elem_of_map_to_list.
  rewrite <- (Hloop _ ∅). unfold New. destruct (New_loop _ _); naive_solver.
Qed.

End Authz.
