(* ===== verification/GoStr.v ===== *)
(** * Go strings: the parts of [strings], [path] and [strconv] the code uses

    Go strings are byte strings, modelled by [string]. [path.Clean] and its
    relatives work on slash-separated components; [strconv.FormatUint] and
    [ParseUint] are the base-10, 64-bit versions. *)

From stdpp Require Import base strings list sets gmap.
From Stdlib Require Import Ascii.
From S2P Require Import Prelude.

Definition slash : ascii := "/"%char.

(** ** strings *)

(** [strings.Split(s, sep)] for a one-byte separator. *)
Fixpoint split_on (sep : ascii) (s : string) : list string :=
  match s with
  | EmptyString => [""]
  | String c s' =>
      let rest := split_on sep s' in
      if Ascii.eqb c sep then "" :: rest
      else match rest with
           | [] => [String c ""]
           | w :: ws => String c w :: ws
           end
  end.

(** [strings.Join(l, "/")] *)
Fixpoint join_slash (l : list string) : string :=
  match l with
  | [] => ""
  | [w] => w
  | w :: l' => w +:+ "/" +:+ join_slash l'
  end.

Fixpoint has_byte (c : ascii) (s : string) : bool :=
  match s with
  | EmptyString => false
  | String d s' => Ascii.eqb d c || has_byte c s'
  end.

(** [strings.HasPrefix(s, "/")] *)
Definition rooted (s : string) : bool :=
  match s with String c _ => Ascii.eqb c slash | _ => false end.

(** [strings.TrimSuffix(s, "/")] *)
Fixpoint trim_slash (s : string) : string :=
  match s with
  | EmptyString => ""
  | String c EmptyString => if Ascii.eqb c slash then "" else s
  | String c s' => String c (trim_slash s')
  end.

(** ** path *)

(** The component stack of [path.Clean], most recent component first. *)
Definition clean_step (root : bool) (out : list string) (c : string) : list string :=
  if decide (c = "" \/ c = ".") then out
  else if decide (c = "..") then
    match out with
    | [] => if root then [] else [c]
    | w :: out' => if decide (w = "..") then c :: out else out'
    end
  else c :: out.

Definition clean_comps (s : string) : list string :=
  rev (fold_left (clean_step (rooted s)) (split_on slash s) []).

(** [path.Clean] *)
Definition path_clean (s : string) : string :=
  let cs := clean_comps s in
  if rooted s then "/" +:+ join_slash cs
  else match cs with [] => "." | _ => join_slash cs end.

(** [path.Dir]: [Clean] of everything up to and including the last slash. *)
Definition path_dir (s : string) : string :=
  path_clean
    (match removelast (split_on slash s) with
     | [] => ""
     | ws => join_slash ws +:+ "/"
     end).

(** Drops the empty components that trailing slashes leave. *)
Fixpoint drop_empty (l : list string) : list string :=
  match l with
  | "" :: l' => drop_empty l'
  | _ => l
  end.

(** [path.Base] *)
Definition path_base (s : string) : string :=
  if decide (s = "") then "."
  else match drop_empty (rev (split_on slash s)) with
       | [] => "/"
       | w :: _ => w
       end.

(** [path.Join] *)
Definition path_join (l : list string) : string :=
  match List.filter (fun w => negb (String.eqb w "")) l with
  | [] => ""
  | ws => path_clean (join_slash ws)
  end.

(** ** strconv *)

Definition digit (d : Z) : ascii := ascii_of_N (Z.to_N (48 + d)).

Fixpoint format_digits (fuel : nat) (n : Z) (acc : string) : string :=
  match fuel with
  | O => acc
  | S f =>
      let acc' := String (digit (n `mod` 10)) acc in
      if n / 10 =? 0 then acc' else format_digits f (n / 10) acc'
  end.

(** [strconv.FormatUint(n, 10)]: at most 20 digits for a uint64. *)
Definition FormatUint (n : Z) : string := format_digits 20 n "".

Definition is_digit (c : ascii) : bool :=
  let v := Z.of_N (N_of_ascii c) in (48 <=? v) && (v <=? 57).

Fixpoint parse_digits (s : string) (acc : Z) : outcome Z :=
  match s with
  | EmptyString => Ok acc
  | String c s' =>
      if is_digit c then
        let acc' := acc * 10 + (Z.of_N (N_of_ascii c) - 48) in
        if 2 ^ 64 <=? acc' then Err ErrRange else parse_digits s' acc'
      else Err ErrSyntax
  end.

(** [strconv.ParseUint(s, 10, 64)] *)
Definition ParseUint (s : string) : outcome Z :=
  if decide (s = "") then Err ErrSyntax else parse_digits s 0.

(** ** Lemmas: split and join *)

Lemma split_on_nonempty sep s : split_on sep s <> [].
Proof. destruct s; simpl; [done|]. case_match; [done|]. by case_match. Qed.

Lemma append_length (a b : string) : String.length (a +:+ b) = (String.length a + String.length b)%nat.
Proof.
  induction a as [|c a IH]; [done|]. change (String c a +:+ b) with (String c (a +:+ b)).
  cbn [String.length]. by rewrite IH.
Qed.

Lemma has_byte_app c s1 s2 : has_byte c (s1 +:+ s2) = has_byte c s1 || has_byte c s2.
Proof.
  induction s1 as [|d s1 IH]; [done|].
  change (String d s1 +:+ s2) with (String d (s1 +:+ s2)). simpl. rewrite IH.
  by destruct (Ascii.eqb d c).
Qed.

Lemma split_on_no_sep sep s : Forall (fun w => has_byte sep w = false) (split_on sep s).
Proof.
  induction s as [|c s IH]; simpl; [by repeat constructor|].
  destruct (Ascii.eqb c sep) eqn:E; [by constructor|].
  destruct (split_on sep s) as [|w ws]; simpl.
  - repeat constructor. simpl. by rewrite E.
  - apply Forall_cons in IH as [? ?]. constructor; [simpl; by rewrite E|done].
Qed.

Lemma split_on_word sep w : has_byte sep w = false -> split_on sep w = [w].
Proof.
  induction w as [|c w IH]; simpl; [done|].
  intros [H1 H2]%orb_false_iff. rewrite H1, IH; done.
Qed.

Lemma split_on_app_sep sep w s :
  has_byte sep w = false -> split_on sep (w +:+ String sep s) = w :: split_on sep s.
Proof.
  induction w as [|c w IH].
  - intros _. change ("" +:+ String sep s) with (String sep s). simpl.
    by rewrite Ascii.eqb_refl.
  - change (String c w +:+ String sep s) with (String c (w +:+ String sep s)).
    simpl. intros [H1 H2]%orb_false_iff. by rewrite H1, IH.
Qed.

Lemma split_join ws :
  ws <> [] -> Forall (fun w => has_byte slash w = false) ws ->
  split_on slash (join_slash ws) = ws.
Proof.
  intros Hne H. induction H as [|w ws Hw Hws IH]; [done|].
  destruct ws as [|w' ws']; [by apply split_on_word|].
  change (join_slash (w :: w' :: ws')) with (w +:+ String slash (join_slash (w' :: ws'))).
  rewrite split_on_app_sep by done. by rewrite IH.
Qed.

Lemma split_on_root s : split_on slash (String slash s) = "" :: split_on slash s.
Proof. done. Qed.

(** ** Lemmas: paths without [..] *)

(** What [clean_comps] and the directory's own path splitting keep. *)
Definition keep (c : string) : bool := negb (String.eqb c "" || String.eqb c ".").

Lemma keep_true c : keep c = true <-> c <> "" /\ c <> ".".
Proof.
  unfold keep. rewrite negb_true_iff, orb_false_iff.
  by rewrite !String.eqb_neq.
Qed.

Lemma keep_false c : keep c = false <-> c = "" \/ c = ".".
Proof.
  unfold keep. rewrite negb_false_iff, orb_true_iff. by rewrite !String.eqb_eq.
Qed.

Lemma clean_fold_keep root l out :
  ".." ∉ l -> fold_left (clean_step root) l out = rev (List.filter keep l) ++ out.
Proof.
  revert out. induction l as [|c l IH]; intros out Hn; [done|].
  apply not_elem_of_cons in Hn as [Hc Hl]. simpl. rewrite IH by done.
  unfold clean_step. destruct (keep c) eqn:E.
  - apply keep_true in E. rewrite decide_False by naive_solver.
    rewrite decide_False by naive_solver. simpl. by rewrite <- app_assoc.
  - apply keep_false in E. by rewrite decide_True.
Qed.

Lemma clean_comps_keep s :
  ".." ∉ split_on slash s -> clean_comps s = List.filter keep (split_on slash s).
Proof.
  intros H. unfold clean_comps. rewrite clean_fold_keep by done.
  by rewrite app_nil_r, rev_involutive.
Qed.

(** A component list as the directory code sees it: names that survive cleaning. *)
Definition comp (c : string) : Prop :=
  c <> "" /\ c <> "." /\ c <> ".." /\ has_byte slash c = false.

#[global] Instance comp_dec c : Decision (comp c).
Proof. unfold comp. apply _. Defined.

Lemma filter_keep_comps cs : Forall comp cs -> List.filter keep cs = cs.
Proof.
  induction 1 as [|c cs (?&?&?&?) ? IH]; simpl; [done|].
  assert (keep c = true) as -> by (by apply keep_true). by f_equal.
Qed.

Lemma comps_no_slash cs : Forall comp cs -> Forall (fun w => has_byte slash w = false) cs.
Proof. intros H. eapply Forall_impl; [exact H|]. by intros c (?&?&?&?). Qed.

Lemma comps_no_dotdot cs : Forall comp cs -> ".." ∉ cs.
Proof. intros H Hin. rewrite Forall_forall in H. by apply H in Hin as (?&?&?&?). Qed.

Lemma split_clean_form s cs :
  Forall comp cs -> cs <> [] ->
  s = "/" +:+ join_slash cs \/ s = join_slash cs ->
  ".." ∉ split_on slash s /\ List.filter keep (split_on slash s) = cs.
Proof.
  intros H Hne [-> | ->].
  - change ("/" +:+ join_slash cs) with (String slash (join_slash cs)).
    rewrite split_on_root, split_join by eauto using comps_no_slash.
    split; [|simpl; by apply filter_keep_comps].
    apply not_elem_of_cons. split; [done | by apply comps_no_dotdot].
  - rewrite split_join by eauto using comps_no_slash.
    split; [by apply comps_no_dotdot | by apply filter_keep_comps].
Qed.

Lemma split_comps s :
  ".." ∉ split_on slash s -> Forall comp (List.filter keep (split_on slash s)).
Proof.
  intros Hn. pose proof (split_on_no_sep slash s) as Hs.
  induction Hs as [|w ws Hw Hws IH]; simpl; [done|].
  apply not_elem_of_cons in Hn as [? ?].
  destruct (keep w) eqn:E; [|auto].
  apply keep_true in E as [? ?]. constructor; [|auto]. by split_and!.
Qed.

(** ** Lemmas: [path.Base] and [path.Dir] of a cleaned path *)

Lemma drop_empty_last cs c :
  c <> "" -> drop_empty (rev (cs ++ [c])) = c :: rev cs.
Proof. intros. rewrite rev_unit. simpl. by destruct c. Qed.

Lemma append_ne_empty c s : String c s <> "".
Proof. done. Qed.

Lemma join_slash_ne cs : cs <> [] -> Forall comp cs -> join_slash cs <> "".
Proof.
  intros Hne H. destruct H as [|c cs (Hc&_) _]; [done|].
  destruct cs; [done|]. by destruct c.
Qed.

Lemma path_base_clean s cs c :
  Forall comp (cs ++ [c]) ->
  s = "/" +:+ join_slash (cs ++ [c]) \/ s = join_slash (cs ++ [c]) ->
  path_base s = c.
Proof.
  intros H Hs. assert (cs ++ [c] <> []) as Hne by (by destruct cs).
  assert (c <> "") as Hc.
  { apply Forall_app in H as [_ H]. by apply Forall_cons in H as [(?&?) _]. }
  unfold path_base. rewrite decide_False.
  2: { destruct Hs as [-> | ->]; [done | by apply join_slash_ne]. }
  destruct Hs as [-> | ->].
  - change ("/" +:+ ?x) with (String slash x).
    rewrite split_on_root, split_join by eauto using comps_no_slash.
    change ("" :: cs ++ [c]) with (("" :: cs) ++ [c]). by rewrite drop_empty_last.
  - rewrite split_join by eauto using comps_no_slash. by rewrite drop_empty_last.
Qed.

Lemma split_on_snoc_slash s : split_on slash (s +:+ "/") = split_on slash s ++ [""].
Proof.
  induction s as [|c s IH]; [done|].
  change (String c s +:+ "/") with (String c (s +:+ "/")). simpl.
  rewrite IH. destruct (Ascii.eqb c slash); [done|].
  pose proof (split_on_nonempty slash s). by destruct (split_on slash s).
Qed.

(** [path.Dir] of a cleaned path has the components but the last. *)
Lemma path_dir_comps s cs c :
  Forall comp (cs ++ [c]) ->
  s = "/" +:+ join_slash (cs ++ [c]) \/ s = join_slash (cs ++ [c]) ->
  path_dir s =
    (if rooted s then "/" +:+ join_slash cs
     else match cs with [] => "." | _ => join_slash cs end).
Proof.
  intros H Hs. assert (cs ++ [c] <> []) as Hne by (by destruct cs).
  pose proof (comps_no_slash _ H) as Hns.
  apply Forall_app in H as [Hcs Hc].
  apply Forall_cons in Hc as [(Hc&_&_&Hcslash) _].
  unfold path_dir.
  assert (exists ws, removelast (split_on slash s) = ws /\
    ((s = "/" +:+ join_slash (cs ++ [c]) /\ ws = "" :: cs) \/
     (s = join_slash (cs ++ [c]) /\ ws = cs))) as (ws & -> & Hcase).
  { destruct Hs as [-> | ->].
    - change ("/" +:+ join_slash (cs ++ [c])) with (String slash (join_slash (cs ++ [c]))).
      rewrite split_on_root, split_join by done.
      change ("" :: cs ++ [c]) with (("" :: cs) ++ [c]).
      rewrite removelast_last. exists ("" :: cs). split; [done|]. by left.
    - rewrite split_join by done. rewrite removelast_last.
      exists cs. split; [done|]. by right. }
  destruct Hcase as [[-> ->] | [-> ->]].
  - assert (rooted ("/" +:+ join_slash (cs ++ [c])) = true) as -> by done.
    assert (join_slash ("" :: cs) +:+ "/" =
      match cs with [] => "/" | _ => String slash (join_slash cs +:+ "/") end) as ->
      by (by destruct cs).
    destruct cs as [|c0 cs']; [done|]. set (cs := c0 :: cs') in *.
    assert (split_on slash (String slash (join_slash cs +:+ "/")) = "" :: cs ++ [""]) as Hsp.
    { rewrite split_on_root, split_on_snoc_slash, split_join; [done|done|].
      by apply comps_no_slash. }
    unfold path_clean. rewrite clean_comps_keep; rewrite Hsp.
    + change (List.filter keep ("" :: cs ++ [""])) with (List.filter keep (cs ++ [""])).
      rewrite List.filter_app, (filter_keep_comps cs) by done.
      change (List.filter keep [""]) with (@nil string). by rewrite app_nil_r.
    + rewrite not_elem_of_cons, not_elem_of_app.
      split_and!; [done | by apply comps_no_dotdot | set_solver].
  - assert (rooted (join_slash (cs ++ [c])) = false) as Hr.
    { destruct cs as [|c0 cs']; simpl.
      - destruct c as [|a c]; [done|]. simpl in *.
        apply orb_false_iff in Hcslash as [? _]. done.
      - apply Forall_cons in Hcs as [(Hc0&_&_&Hc0s) _].
        destruct c0 as [|a c0]; [done|]. simpl in Hc0s.
        apply orb_false_iff in Hc0s as [? _]. by destruct (cs' ++ [c]). }
    rewrite Hr. destruct cs as [|c0 cs']; [done|]. set (cs := c0 :: cs') in *.
    change (match cs with [] => "" | _ => join_slash cs +:+ "/" end)
      with (join_slash cs +:+ "/").
    assert (split_on slash (join_slash cs +:+ "/") = cs ++ [""]) as Hsp.
    { rewrite split_on_snoc_slash, split_join; [done|done|by apply comps_no_slash]. }
    assert (rooted (join_slash cs +:+ "/") = false) as Hr'.
    { subst cs. apply Forall_cons in Hcs as [(Hc0&_&_&Hc0s) _].
      destruct c0 as [|a c0]; [done|]. simpl in Hc0s.
      apply orb_false_iff in Hc0s as [? _]. by destruct cs'. }
    unfold path_clean. rewrite Hr', clean_comps_keep; rewrite Hsp.
    + rewrite List.filter_app, (filter_keep_comps cs) by done.
      change (List.filter keep [""]) with (@nil string). by rewrite app_nil_r.
    + rewrite not_elem_of_app. split; [by apply comps_no_dotdot | set_solver].
Qed.

(** ** Lemmas: decimal numbers *)

Lemma digit_value d : 0 <= d < 10 -> Z.of_N (N_of_ascii (digit d)) = 48 + d.
Proof. intros. unfold digit. rewrite N_ascii_embedding; lia. Qed.

Lemma is_digit_digit d : 0 <= d < 10 -> is_digit (digit d) = true.
Proof. intros. unfold is_digit. rewrite digit_value by done. apply andb_true_iff. lia. Qed.

(** Parsing what [format_digits] wrote resumes at the accumulator. *)
Lemma parse_format_digits fuel n acc k :
  0 <= n -> n < 10 ^ Z.of_nat fuel -> 0 < Z.of_nat fuel ->
  0 <= k -> k = 0 \/ k * 10 ^ Z.of_nat fuel + n < 2 ^ 64 -> n < 2 ^ 64 ->
  k = 0 ->
  parse_digits (format_digits fuel n acc) k = parse_digits acc n.
Proof.
  intros Hn Hlt Hf Hk Hb Hn64 ->. clear Hb Hk Hf.
  revert n acc Hn Hlt Hn64.
  induction fuel as [|f IH]; intros n acc Hn Hlt Hn64.
  { simpl in *. assert (n = 0) as -> by lia. done. }
  simpl format_digits.
  assert (0 <= n `mod` 10 < 10) by (apply Z.mod_pos_bound; lia).
  assert (n = 10 * (n / 10) + n `mod` 10) by (apply Z.div_mod; lia).
  assert (0 <= n / 10) by (apply Z.div_pos; lia).
  assert (forall m, 10 * m + n `mod` 10 < 2 ^ 64 -> 0 <= m ->
    parse_digits (String (digit (n `mod` 10)) acc) m =
    parse_digits acc (10 * m + n `mod` 10)) as Hstep.
  { intros m Hm Hm0. simpl. rewrite is_digit_digit, digit_value by done.
    replace (m * 10 + (48 + n `mod` 10 - 48)) with (10 * m + n `mod` 10) by lia.
    case_match; [lia|done]. }
  destruct (Z.eqb_spec (n / 10) 0) as [E|E].
  - rewrite Hstep by lia. f_equal. lia.
  - rewrite IH; [|lia| |lia].
    + rewrite Hstep by lia. f_equal. lia.
    + rewrite Nat2Z.inj_succ, Z.pow_succ_r in Hlt by lia.
      apply Z.div_lt_upper_bound; lia.
Qed.

Lemma format_digits_ne fuel n acc : fuel <> O -> format_digits fuel n acc <> "".
Proof.
  intros Hf. destruct fuel as [|f]; [done|]. clear Hf. revert n acc.
  induction f as [|f IH]; intros n acc; simpl; [by case_match|].
  case_match; [done|]. apply IH.
Qed.

Lemma ParseUint_FormatUint n : 0 <= n < 2 ^ 64 -> ParseUint (FormatUint n) = Ok n.
Proof.
  intros Hn. unfold ParseUint, FormatUint.
  rewrite decide_False by (by apply format_digits_ne).
  assert (10 ^ Z.of_nat 20 = 100000000000000000000) as E by reflexivity.
  rewrite parse_format_digits; [done|lia|lia|lia|lia|by left|lia|done].
Qed.

Lemma parse_digits_range s acc n : 0 <= acc < 2 ^ 64 -> parse_digits s acc = Ok n -> 0 <= n < 2 ^ 64.
Proof.
  revert acc. induction s as [|c s IH]; intros acc Hacc; cbn [parse_digits]; [by intros [= <-]|].
  unfold is_digit. destruct (_ && _) eqn:Ed; [|done].
  apply andb_true_iff in Ed as [E1%Z.leb_le E2%Z.leb_le]. cbv zeta.
  destruct (Z.leb_spec (2 ^ 64) (acc * 10 + (Z.of_N (N_of_ascii c) - 48))); [done|].
  apply IH. lia.
Qed.

Lemma ParseUint_range s n : ParseUint s = Ok n -> 0 <= n < 2 ^ 64.
Proof. unfold ParseUint. case_decide; [done|]. by apply parse_digits_range. Qed.

Lemma FormatUint_inj n m :
  0 <= n < 2 ^ 64 -> 0 <= m < 2 ^ 64 -> FormatUint n = FormatUint m -> n = m.
Proof.
  intros Hn Hm E. pose proof (ParseUint_FormatUint n Hn) as H1.
  rewrite E, ParseUint_FormatUint in H1 by done. by injection H1.
Qed.

#[export] Hint Resolve comps_no_slash comps_no_dotdot : go.

(** ** The order of strings *)

Lemma ascii_compare_trans a b c :
  Ascii.compare a b = Lt -> Ascii.compare b c = Lt -> Ascii.compare a c = Lt.
Proof. unfold Ascii.compare. rewrite !N.compare_lt_iff. apply N.lt_trans. Qed.

Lemma ascii_compare_eq a b : Ascii.compare a b = Eq <-> a = b.
Proof.
  unfold Ascii.compare. rewrite N.compare_eq_iff. split; [|by intros ->].
  intros E. apply (f_equal Ascii.ascii_of_N) in E. by rewrite !Ascii.ascii_N_embedding in E.
Qed.

Lemma string_lt_trans a b c : String.compare a b = Lt -> String.compare b c = Lt -> String.compare a c = Lt.
Proof.
  revert b c. induction a as [|x a IH]; intros [|y b] [|z c]; simpl; try done.
  destruct (Ascii.compare x y) eqn:Exy; [|intros _|done].
  - apply ascii_compare_eq in Exy as ->. destruct (Ascii.compare y z) eqn:Eyz; try done. eauto.
  - destruct (Ascii.compare y z) eqn:Eyz; [|intros _|done].
    + apply ascii_compare_eq in Eyz as ->. by rewrite Exy.
    + by rewrite (ascii_compare_trans x y z).
Qed.

Lemma ltb_lt a b : String.ltb a b = true <-> String.compare a b = Lt.
Proof. unfold String.ltb. destruct (String.compare a b); done. Qed.

Lemma ltb_trichotomy a b : String.ltb a b = true \/ a = b \/ String.ltb b a = true.
Proof.
  rewrite !ltb_lt. destruct (String.compare a b) eqn:E; [|by left|].
  - right; left. by apply String.compare_eq_iff.
  - right; right. by rewrite String.compare_antisym, E.
Qed.

Lemma ltb_irrefl a : String.ltb a a = false.
Proof.
  apply not_true_iff_false. rewrite ltb_lt. intros E.
  pose proof (String.compare_antisym a a) as Ha. rewrite E in Ha. done.
Qed.

Lemma ltb_trans a b c : String.ltb a b = true -> String.ltb b c = true -> String.ltb a c = true.
Proof. rewrite !ltb_lt. apply string_lt_trans. Qed.

Lemma leb_ltb a b : String.leb a b = false <-> String.ltb b a = true.
Proof.
  rewrite ltb_lt, String.compare_antisym. unfold String.leb.
  destruct (String.compare a b); cbn; split; congruence.
Qed.
