(* ===== verification/SqlText.v ===== *)
(** * SQLite text functions

    [LIKE], [substr], [length] and [instr] as SQLite defines them on UTF-8 text: [LIKE] folds the case of
    ASCII letters, ['%'] stands for any characters and ['_'] for one, and both are plain
    characters after the ESCAPE character. Bytes are compared one by one, which for
    valid UTF-8 is the comparison of characters. *)

From stdpp Require Import base strings list.
From Stdlib Require Import Ascii.
From S2P Require Import Prelude GoStr.

Definition code (c : ascii) : Z := Z.of_N (N_of_ascii c).

(** The case folding of [LIKE]: ASCII letters only. *)
Definition fold_case (c : ascii) : ascii :=
  if (65 <=? code c) && (code c <=? 90) then ascii_of_N (N_of_ascii c + 32) else c.
Definition same_letter (c d : ascii) : bool := Ascii.eqb (fold_case c) (fold_case d).

(** ** Characters *)
Definition is_lead (c : ascii) : bool := 192 <=? code c.
Definition is_continuation (c : ascii) : bool := (128 <=? code c) && (code c <? 192).

Fixpoint skip_continuations (s : string) : string :=
  match s with
  | "" => ""
  | String c s' => if is_continuation c then skip_continuations s' else s
  end.
(** The text after the character that starts with the byte [c]. *)
Definition after_char (c : ascii) (s : string) : string :=
  if is_lead c then skip_continuations s else s.

Fixpoint skip_chars (n : nat) (s : string) : string :=
  match n, s with
  | S n, String c s' => skip_chars n (after_char c s')
  | _, _ => s
  end.
(** [substr(s, start)], counted in characters from 1. *)
Definition sql_substr (s : string) (start : Z) : string := skip_chars (Z.to_nat (start - 1)) s.

(** The first byte of a text with the continuation bytes behind it, if it leads some. *)
Fixpoint continuations (s : string) : string :=
  match s with
  | "" => ""
  | String c s' => if is_continuation c then String c (continuations s') else ""
  end.
Definition char_at (c : ascii) (s : string) : string :=
  String c (if is_lead c then continuations s else "").

(** [substr(s, 1, n)]: the first [n] characters. *)
Fixpoint take_chars (n : nat) (s : string) : string :=
  match n, s with
  | S n, String c s' => char_at c s' +:+ take_chars n (after_char c s')
  | _, _ => ""
  end.

(** [length(s)]: a lead byte and the continuation bytes behind it count once. *)
Fixpoint length_from (inside : bool) (s : string) : nat :=
  match s with
  | "" => 0
  | String c s' =>
      if inside && is_continuation c then length_from true s'
      else S (length_from (is_lead c) s')
  end.
Definition sql_length (s : string) : Z := Z.of_nat (length_from false s).

(** [instr(s, '/')]: the place of the first slash, counted in characters from 1, or 0;
    the search starts at the first byte and skips continuation bytes. *)
Fixpoint slash_from (inside : bool) (n : Z) (s : string) : Z :=
  match s with
  | "" => 0
  | String c s' =>
      if inside && is_continuation c then slash_from true n s'
      else if Ascii.eqb c slash then n + 1
      else slash_from true (n + 1) s'
  end.
Definition instr_slash (s : string) : Z := slash_from false 0 s.

(** ** LIKE *)
Section Like.
Context (escape : option ascii).

(** ['%'] before a pattern [rest]: it may end at any character; [inside] is true in
    the middle of one. *)
Fixpoint like_any (rest : string -> bool) (inside : bool) (s : string) : bool :=
  match s with
  | "" => rest ""
  | String c s' =>
      if inside && is_continuation c then like_any rest true s'
      else rest s || like_any rest (is_lead c) s'
  end.

Definition is_escape (c : ascii) : bool :=
  match escape with Some e => Ascii.eqb c e | None => false end.

Definition like_literal (c : ascii) (rest : string -> bool) (s : string) : bool :=
  match s with
  | "" => false
  | String d s' => same_letter c d && rest s'
  end.

(** [literal] is true right after the escape character. *)
Fixpoint like_from (literal : bool) (p : string) (s : string) : bool :=
  match p with
  | "" => negb literal && String.eqb s ""
  | String c p' =>
      if literal then like_literal c (like_from false p') s
      else if is_escape c then like_from true p' s
      else if Ascii.eqb c "%"%char then like_any (like_from false p') false s
      else if Ascii.eqb c "_"%char then
        match s with
        | "" => false
        | String d s' => like_from false p' (after_char d s')
        end
      else like_literal c (like_from false p') s
  end.
Definition like (p s : string) : bool := like_from false p s.
End Like.

(** src/filemgr/s3_object.go: [escapeSQLiteLike] *)
Definition backslash : ascii := "092"%char.
Fixpoint escapeSQLiteLike (s : string) : string :=
  match s with
  | "" => ""
  | String c s' =>
      if Ascii.eqb c backslash || Ascii.eqb c "%"%char || Ascii.eqb c "_"%char
      then String backslash (String c (escapeSQLiteLike s'))
      else String c (escapeSQLiteLike s')
  end.

(** ** Lemmas *)

Lemma string_app_cons c s1 s2 : String c s1 +:+ s2 = String c (s1 +:+ s2).
Proof. done. Qed.

Lemma string_append_assoc (s1 s2 s3 : string) : (s1 +:+ s2) +:+ s3 = s1 +:+ s2 +:+ s3.
Proof. induction s1 as [|c s1 IH]; [done|]. by rewrite !string_app_cons, IH. Qed.

Lemma string_app_empty (s : string) : s +:+ "" = s.
Proof. induction s as [|c s IH]; [done|]. by rewrite string_app_cons, IH. Qed.

Lemma same_letter_refl c : same_letter c c = true.
Proof. apply Ascii.eqb_refl. Qed.

Lemma like_any_end inside s rest : rest "" = true -> like_any rest inside s = true.
Proof.
  intros Hr. revert inside. induction s as [|c s IH]; intros inside; cbn; [done|].
  case_match; [apply IH|]. by rewrite IH, orb_true_r.
Qed.

Lemma like_percent escape s : is_escape escape "%"%char = false -> like escape "%" s = true.
Proof. intros He. unfold like. cbn. rewrite He. by apply like_any_end. Qed.

Lemma like_any_now rest s : rest s = true -> like_any rest false s = true.
Proof. intros Hr. destruct s; cbn; [done|]. by rewrite Hr. Qed.

(** A text is matched by itself as a pattern. *)
Lemma like_self (p q s : string) :
  like_from None false q s = true -> like_from None false (p +:+ q) (p +:+ s) = true.
Proof.
  intros Hq. induction p as [|c p IH]; [exact Hq|]. rewrite !string_app_cons. cbn [like_from is_escape].
  destruct (Ascii.eqb_spec c "%"%char) as [->|_].
  - cbn [like_any andb]. change (is_lead "%"%char) with false. rewrite (like_any_now _ (p +:+ s) IH). apply orb_true_r.
  - destruct (Ascii.eqb_spec c "_"%char) as [->|_]; [exact IH|].
    cbn [like_literal]. by rewrite same_letter_refl.
Qed.

(** What lies below a path is matched by the path as an unescaped pattern. *)
Lemma like_below root rest : like None (root +:+ "/%") (root +:+ "/" +:+ rest) = true.
Proof.
  unfold like. apply (like_self root "/%" ("/" +:+ rest)). cbn.
  apply like_any_end. done.
Qed.

(** Prefixes up to the case of ASCII letters. *)
Fixpoint fold_prefix (p s : string) : bool :=
  match p, s with
  | "", _ => true
  | String c p', String d s' => same_letter c d && fold_prefix p' s'
  | _, "" => false
  end.

Lemma like_escaped p s : like (Some backslash) (escapeSQLiteLike p +:+ "%") s = fold_prefix p s.
Proof.
  unfold like. revert s. induction p as [|c p IH]; intros s.
  { transitivity true; [|by destruct s]. by apply (like_percent (Some backslash)). }
  cbn [escapeSQLiteLike].
  destruct (Ascii.eqb c backslash || Ascii.eqb c "%"%char || Ascii.eqb c "_"%char) eqn:E.
  - rewrite !string_app_cons. cbn [like_from is_escape]. rewrite Ascii.eqb_refl. cbn [like_from].
    destruct s as [|d s]; cbn [like_literal fold_prefix]; [done|]. by rewrite IH.
  - rewrite !orb_false_iff in E. destruct E as [[E1 E2] E3].
    rewrite !string_app_cons. cbn [like_from is_escape]. rewrite E1, E2, E3.
    destruct s as [|d s]; cbn [like_literal fold_prefix]; [done|]. by rewrite IH.
Qed.

Lemma fold_prefix_app p s : fold_prefix p (p +:+ s) = true.
Proof. induction p as [|c p IH]; [by destruct s|]. rewrite string_app_cons. cbn. by rewrite same_letter_refl. Qed.

(** ** Characters, again *)

Lemma fold_case_class c :
  is_lead (fold_case c) = is_lead c /\ is_continuation (fold_case c) = is_continuation c /\
  ((code (fold_case c) <? 128) = (code c <? 128)) /\ Ascii.eqb (fold_case c) slash = Ascii.eqb c slash.
Proof. destruct c as [[] [] [] [] [] [] [] []]; vm_compute; auto. Qed.

Lemma same_letter_class c d :
  same_letter c d = true ->
  is_lead c = is_lead d /\ is_continuation c = is_continuation d /\
  (code c <? 128) = (code d <? 128) /\ Ascii.eqb c slash = Ascii.eqb d slash.
Proof.
  intros E%Ascii.eqb_eq. destruct (fold_case_class c) as (A1 & A2 & A3 & A4).
  destruct (fold_case_class d) as (B1 & B2 & B3 & B4). repeat split; congruence.
Qed.

Lemma slash_class : is_lead slash = false /\ is_continuation slash = false.
Proof. done. Qed.

(** The byte after position [n], and texts that agree up to the case of letters. *)
Fixpoint skip_bytes (n : nat) (s : string) : string :=
  match n, s with
  | S n, String _ s' => skip_bytes n s'
  | _, _ => s
  end.

Definition fold_equal (p s : string) : bool :=
  fold_prefix p s && (String.length p =? String.length s)%nat.

Lemma skip_bytes_app p s : skip_bytes (String.length p) (p +:+ s) = s.
Proof. induction p; [by destruct s|done]. Qed.

Lemma fold_prefix_split p s :
  fold_prefix p s = true ->
  exists q, s = q +:+ skip_bytes (String.length p) s /\ fold_equal p q = true.
Proof.
  revert s. induction p as [|c p IH]; intros s H; [by exists ""; destruct s|].
  destruct s as [|d s]; [done|]. cbn in H. apply andb_true_iff in H as [Hc H].
  destruct (IH s H) as (q & E & Hq). exists (String d q). cbn [String.length skip_bytes]. rewrite string_app_cons, <- E.
  split; [done|]. revert Hq. unfold fold_equal. cbn. by rewrite Hc.
Qed.

Lemma fold_equal_cons c p s :
  fold_equal (String c p) s = true ->
  exists d q, s = String d q /\ same_letter c d = true /\ fold_equal p q = true.
Proof.
  unfold fold_equal. destruct s as [|d s]; [done|]. cbn.
  intros [[H1 H2]%andb_true_iff H3]%andb_true_iff. exists d, s. by rewrite H1, H2, H3.
Qed.

Lemma fold_equal_nil s : fold_equal "" s = true -> s = "".
Proof. by destruct s. Qed.

Lemma fold_equal_length p q : fold_equal p q = true -> String.length q = String.length p.
Proof. unfold fold_equal. intros [_ H%Nat.eqb_eq]%andb_true_iff. done. Qed.

Lemma fold_equal_chars inside p q : fold_equal p q = true -> length_from inside q = length_from inside p.
Proof.
  revert inside q. induction p as [|c p IH]; intros inside q H; [by apply fold_equal_nil in H as ->|].
  apply fold_equal_cons in H as (d & q' & -> & (El & Ec & _)%same_letter_class & H). cbn.
  rewrite El, Ec, !(fun b => IH b q' H). done.
Qed.

Definition is_ascii (c : ascii) : bool := code c <? 128.
Fixpoint ascii_text (s : string) : bool :=
  match s with "" => true | String c s' => is_ascii c && ascii_text s' end.

Lemma fold_equal_ascii p q : fold_equal p q = true -> ascii_text q = ascii_text p.
Proof.
  revert q. induction p as [|c p IH]; intros q H; [by apply fold_equal_nil in H as ->|].
  apply fold_equal_cons in H as (d & q' & -> & (_ & _ & E & _)%same_letter_class & H). cbn.
  unfold is_ascii. by rewrite E, (IH q').
Qed.

Lemma ascii_app p q : ascii_text (p +:+ q) = ascii_text p && ascii_text q.
Proof. induction p as [|c p IH]; [done|]. rewrite string_app_cons. cbn. by rewrite IH, andb_assoc. Qed.

Lemma skip_chars_ascii p s : ascii_text p = true -> skip_chars (String.length p) (p +:+ s) = s.
Proof.
  induction p as [|c p IH]; intros H; [by destruct s|]. cbn in H. apply andb_true_iff in H as [Hc H].
  rewrite string_app_cons. cbn. unfold after_char.
  assert (is_lead c = false) as -> by (unfold is_lead, is_ascii in *; lia). by apply IH.
Qed.

(** A text that does not begin inside a character. *)
Definition clean_start (s : string) : Prop := skip_continuations s = s.

Lemma skip_length_clean p s :
  clean_start s ->
  skip_chars (length_from false p) (p +:+ s) = s /\
  skip_chars (length_from true p) (skip_continuations (p +:+ s)) = s.
Proof.
  intros Hs. induction p as [|c p [IH1 IH2]].
  { split; [by destruct s|exact Hs]. }
  rewrite string_app_cons. cbn.
  assert (skip_chars (S (length_from (is_lead c) p)) (String c (p +:+ s)) = s) as Hone.
  { cbn. unfold after_char. by destruct (is_lead c). }
  split; [exact Hone|]. destruct (is_continuation c); [exact IH2|exact Hone].
Qed.

Lemma skip_prefix p q s :
  fold_equal p q = true -> clean_start s -> sql_substr (q +:+ s) (sql_length p + 1) = s.
Proof.
  intros Hq Hs. unfold sql_substr, sql_length.
  replace (Z.to_nat _) with (length_from false q); [by apply skip_length_clean|].
  rewrite (fold_equal_chars false p q Hq). lia.
Qed.

(** A text in which continuation bytes follow the lead byte of their character. *)
Fixpoint text_from (inside : bool) (s : string) : bool :=
  match s with
  | "" => true
  | String c s' => if is_continuation c then inside && text_from true s' else text_from (is_lead c) s'
  end.
Definition text (s : string) : bool := text_from false s.

Lemma text_clean s : text s = true -> clean_start s.
Proof. destruct s as [|c s]; [done|]. unfold text, clean_start. cbn. by destruct (is_continuation c). Qed.

(** Up to the first slash. *)
Fixpoint up_to_slash (s : string) : string :=
  match s with
  | "" => ""
  | String c s' => if Ascii.eqb c slash then String c "" else String c (up_to_slash s')
  end.

Lemma slash_from_no b n s : has_byte slash s = false -> slash_from b n s = 0.
Proof.
  revert b n. induction s as [|c s IH]; intros b n H; [done|]. cbn in *.
  apply orb_false_iff in H as [H1 H2]. rewrite H1. destruct (b && is_continuation c); by apply IH.
Qed.

Lemma slash_from_yes b n s :
  has_byte slash s = true -> slash_from b n s = n + slash_from b 0 s /\ 0 < slash_from b 0 s.
Proof.
  revert b n. induction s as [|c s IH]; intros b n H; [done|]. cbn in *.
  destruct (Ascii.eqb c slash) eqn:E.
  - apply Ascii.eqb_eq in E as ->. rewrite (proj2 slash_class), andb_false_r. lia.
  - cbn in H. destruct (b && is_continuation c); [by apply IH|].
    destruct (IH true (n + 1) H) as [-> ?], (IH true (0 + 1) H) as [-> ?]. lia.
Qed.

Lemma instr_pos s : (0 <? instr_slash s) = has_byte slash s.
Proof.
  unfold instr_slash. destruct (has_byte slash s) eqn:E.
  - apply Z.ltb_lt, (slash_from_yes false 0 s E).
  - by rewrite slash_from_no.
Qed.

Lemma take_instr s :
  has_byte slash s = true ->
  (text_from false s = true -> forall b, take_chars (Z.to_nat (slash_from b 0 s)) s = up_to_slash s) /\
  (text_from true s = true ->
     continuations s +:+ take_chars (Z.to_nat (slash_from true 0 s)) (skip_continuations s) = up_to_slash s).
Proof.
  induction s as [|c s IH]; intros H; [done|]. cbn in H.
  assert (forall b, is_continuation c = false -> text_from (is_lead c) s = true ->
    take_chars (Z.to_nat (slash_from b 0 (String c s))) (String c s) = up_to_slash (String c s)) as Hone.
  { intros b Hc Ht. cbn [slash_from up_to_slash]. rewrite Hc, andb_false_r.
    destruct (Ascii.eqb c slash) eqn:E.
    { apply Ascii.eqb_eq in E as ->. by destruct s. }
    cbn in H. destruct (slash_from_yes true (0 + 1) s H) as [-> ?].
    replace (Z.to_nat (0 + 1 + slash_from true 0 s)) with (S (Z.to_nat (slash_from true 0 s))) by lia.
    cbn [take_chars]. unfold char_at, after_char. destruct (IH H) as [IH1 IH2].
    destruct (is_lead c); rewrite string_app_cons; f_equal; [by apply IH2|by apply IH1]. }
  cbn [text_from]. split.
  - destruct (is_continuation c) eqn:Hc; [done|]. intros Ht b. by apply Hone.
  - cbn [continuations skip_continuations]. destruct (is_continuation c) eqn:Hc; [|by apply Hone].
    cbn [andb]. intros Ht. cbn [slash_from up_to_slash]. rewrite Hc. cbn [andb].
    destruct (Ascii.eqb c slash) eqn:E.
    { apply Ascii.eqb_eq in E as ->. done. }
    cbn in H. rewrite string_app_cons. f_equal. by apply IH.
Qed.

Lemma take_to_slash s :
  text s = true -> has_byte slash s = true -> take_chars (Z.to_nat (instr_slash s)) s = up_to_slash s.
Proof. intros Ht Hs. by apply (take_instr s Hs). Qed.

Lemma continuations_skip s : continuations s +:+ skip_continuations s = s.
Proof.
  induction s as [|c s IH]; [done|]. cbn. destruct (is_continuation c); [|done].
  by rewrite string_app_cons, IH.
Qed.

Lemma take_skip_chars n s : take_chars n s +:+ skip_chars n s = s.
Proof.
  revert s. induction n as [|n IH]; intros s; [by destruct s|]. destruct s as [|c s]; [done|]. cbn.
  rewrite string_append_assoc, IH. unfold char_at, after_char. rewrite string_app_cons. f_equal.
  destruct (is_lead c); [apply continuations_skip|done].
Qed.

Lemma append_same_inv p q s : p +:+ s = q +:+ s -> p = q.
Proof.
  revert q. induction p as [|c p IH]; intros q E.
  - apply (f_equal String.length) in E. rewrite !append_length in E. destruct q; [done|]. cbn in E. lia.
  - destruct q as [|d q].
    + apply (f_equal String.length) in E. rewrite !append_length in E. cbn in E. lia.
    + rewrite !string_app_cons in E. injection E as -> E. f_equal. by apply IH.
Qed.

(** [substr(s, 1, length(p)) = p]: the text starts with [p]. *)
Lemma take_prefix p s :
  clean_start (skip_bytes (String.length p) s) ->
  String.eqb (take_chars (Z.to_nat (sql_length p)) s) p = true <->
  s = p +:+ skip_bytes (String.length p) s.
Proof.
  intros Hs. unfold sql_length. rewrite Nat2Z.id, String.eqb_eq. split; intros E.
  - pose proof (take_skip_chars (length_from false p) s) as H. rewrite E in H.
    rewrite <- H at 2. by rewrite skip_bytes_app.
  - set (rest := skip_bytes _ s) in *. clearbody rest. apply (append_same_inv _ _ rest).
    assert (skip_chars (length_from false p) s = rest) as Hr by (rewrite E; by apply skip_length_clean).
    rewrite <- E, <- Hr. apply take_skip_chars.
Qed.
