(* ===== verification/Crc.v ===== *)
(** * CRC combination (src/s3checksum/combine_crc.go)

    The reflected CRCs of [hash/crc32] and [hash/crc64] at width [w], the GF(2)
    matrix routines of the repository, and the proof that [combineCRC] computes
    the CRC of a concatenation from the CRCs of its two parts. *)

From stdpp Require Import base list.
From Stdlib Require Import Zbitwise.
From S2P Require Import Prelude.

Definition is_byte (b : Z) : Prop := 0 <= b < 256.

#[global] Instance is_byte_dec b : Decision (is_byte b).
Proof. unfold is_byte. apply _. Defined.

Module Crc.

(** ** [hash/crc32] and [hash/crc64]: the bitwise definition *)

(** One zero bit through the reflected shift register. *)
Definition zero_bit (poly s : Z) : Z :=
  Z.lxor (Z.shiftr s 1) (if Z.testbit s 0 then poly else 0).

Definition crc_byte (poly s b : Z) : Z :=
  Nat.iter 8 (zero_bit poly) (Z.lxor s b).

Definition crc_raw (poly s : Z) (data : list Z) : Z :=
  fold_left (crc_byte poly) data s.

(** [crc.Sum]: all-ones start value, complemented result. *)
Definition crc (poly : Z) (w : nat) (data : list Z) : Z :=
  Z.lxor (crc_raw poly (Z.ones (Z.of_nat w)) data) (Z.ones (Z.of_nat w)).

(** ** The repository's code *)

Definition crc32IEEEPolynomial : Z := 0xedb88320.
Definition crc32CastagnoliPolynomial : Z := 0x82f63b78.
Definition crc64NVMEPolynomial : Z := 0x9a6c9329ac4bc9b5.

(** [gf2MatrixTimes]: an index past the matrix is a runtime panic. *)
Fixpoint gf2MatrixTimes_loop (matrix : list Z) (vector sum : Z) : outcome Z :=
  if vector =? 0 then Ok sum
  else match matrix with
       | [] => Err Panic
       | row :: matrix' =>
           gf2MatrixTimes_loop matrix' (Z.shiftr vector 1)
             (if negb (Z.land vector 1 =? 0) then Z.lxor sum row else sum)
       end.

Definition gf2MatrixTimes (matrix : list Z) (vector : Z) : outcome Z :=
  gf2MatrixTimes_loop matrix vector 0.

Fixpoint gf2MatrixSquare_loop (matrix rows : list Z) : outcome (list Z) :=
  match rows with
  | [] => Ok []
  | row :: rows' =>
      r ← gf2MatrixTimes matrix row;
      rs ← gf2MatrixSquare_loop matrix rows';
      Ok (r :: rs)
  end.

Definition gf2MatrixSquare (matrix : list Z) : outcome (list Z) :=
  gf2MatrixSquare_loop matrix matrix.

(** The rows [1 .. width-1] of the initial matrix: [row <<= 1] at width [w]. *)
Fixpoint unit_rows (w n : nat) (row : Z) : list Z :=
  match n with
  | O => []
  | S n' => row :: unit_rows w n' (Z.land (Z.shiftl row 1) (Z.ones (Z.of_nat w)))
  end.

Definition maybe_times (matrix : list Z) (first len : Z) : outcome Z :=
  if negb (Z.land len 1 =? 0) then gf2MatrixTimes matrix first else Ok first.

(** The loop of [combineCRC]; each round halves [secondLength] twice. *)
Fixpoint combine_loop (fuel : nat) (odd : list Z) (first secondLength : Z)
    : outcome Z :=
  match fuel with
  | O => Err Diverge
  | S fuel' =>
      even ← gf2MatrixSquare odd;
      first ← maybe_times even first secondLength;
      let secondLength := Z.shiftr secondLength 1 in
      if secondLength =? 0 then Ok first
      else
        odd ← gf2MatrixSquare even;
        first ← maybe_times odd first secondLength;
        let secondLength := Z.shiftr secondLength 1 in
        if secondLength =? 0 then Ok first
        else combine_loop fuel' odd first secondLength
  end.

(** [combineCRC[T]] for a word type of [w] bits. *)
Definition combineCRC (first second secondLength poly : Z) (w : nat) : outcome Z :=
  if secondLength <=? 0 then Ok first
  else
    let odd := poly :: unit_rows w (w - 1) 1 in
    even ← gf2MatrixSquare odd;
    odd ← gf2MatrixSquare even;
    first ← combine_loop 32 odd first secondLength;
    Ok (Z.lxor first second).

(** ** The shift register is linear *)

Definition word (w : nat) (z : Z) : Prop := 0 <= z < 2 ^ Z.of_nat w.

Lemma word_bits w z :
  word w z <-> 0 <= z /\ forall i, Z.of_nat w <= i -> Z.testbit z i = false.
Proof.
  unfold word. split.
  - intros [H0 H1]. split; [done|]. intros i Hi.
    destruct (decide (z = 0)) as [->|Hz]; [apply Z.bits_0|].
    apply Z.bits_above_log2; [done|].
    enough (Z.log2 z < Z.of_nat w) by lia. apply Z.log2_lt_pow2; lia.
  - intros [H0 H]. split; [done|].
    destruct (decide (z = 0)) as [->|Hz]; [apply Z.pow_pos_nonneg; lia|].
    apply Z.log2_lt_pow2; [lia|].
    destruct (decide (Z.of_nat w <= Z.log2 z)) as [Hle|]; [|lia].
    apply H in Hle. rewrite Z.bit_log2 in Hle by lia. done.
Qed.

Lemma word_lxor w a b : word w a -> word w b -> word w (Z.lxor a b).
Proof.
  rewrite !word_bits. intros [Ha0 Ha] [Hb0 Hb]. split.
  - apply Z.lxor_nonneg. lia.
  - intros i Hi. rewrite Z.lxor_spec, Ha, Hb by done. done.
Qed.

Lemma word_shiftr w a : word w a -> word w (Z.shiftr a 1).
Proof.
  unfold word. intros. rewrite Z.shiftr_div_pow2 by lia. change (2 ^ 1) with 2.
  split; [apply Z.div_pos; lia|]. apply Z.div_lt_upper_bound; lia.
Qed.

Lemma word_0 w : word w 0.
Proof. unfold word. split; [lia|]. apply Z.pow_pos_nonneg; lia. Qed.

Lemma word_ones w : word w (Z.ones (Z.of_nat w)).
Proof.
  unfold word. rewrite Z.ones_equiv.
  assert (0 < 2 ^ Z.of_nat w) by (apply Z.pow_pos_nonneg; lia). lia.
Qed.

Section Linear.
Context (poly : Z) (w : nat).
Hypothesis poly_word : word w poly.

Lemma zero_bit_word s : word w s -> word w (zero_bit poly s).
Proof.
  intros. apply word_lxor; [by apply word_shiftr|].
  case_match; [done|apply word_0].
Qed.

Lemma zero_bit_lxor a b :
  zero_bit poly (Z.lxor a b) = Z.lxor (zero_bit poly a) (zero_bit poly b).
Proof.
  unfold zero_bit. rewrite Z.shiftr_lxor, Z.lxor_spec.
  apply Z.bits_inj'. intros i Hi. rewrite !Z.lxor_spec.
  destruct (Z.testbit a 0), (Z.testbit b 0); simpl; rewrite ?Z.bits_0;
    by destruct (Z.testbit (Z.shiftr a 1) i), (Z.testbit (Z.shiftr b 1) i),
      (Z.testbit poly i).
Qed.

Lemma zero_bits_word n s : word w s -> word w (Nat.iter n (zero_bit poly) s).
Proof. intros. induction n; simpl; [done|]. by apply zero_bit_word. Qed.

Lemma zero_bits_lxor n a b :
  Nat.iter n (zero_bit poly) (Z.lxor a b) =
  Z.lxor (Nat.iter n (zero_bit poly) a) (Nat.iter n (zero_bit poly) b).
Proof. induction n as [|n IH]; simpl; [done|]. by rewrite IH, zero_bit_lxor. Qed.

Lemma zero_bits_0 n : Nat.iter n (zero_bit poly) 0 = 0.
Proof. induction n as [|n IH]; simpl; [done|]. by rewrite IH. Qed.

Lemma iter_add_comp {X} (f : X -> X) n m x :
  Nat.iter n f (Nat.iter m f x) = Nat.iter (n + m) f x.
Proof. by rewrite Nat.iter_add. Qed.

Lemma crc_raw_cons s b data :
  crc_raw poly s (b :: data) = crc_raw poly (crc_byte poly s b) data.
Proof. reflexivity. Qed.

Lemma crc_byte_lxor s b :
  crc_byte poly s b = Z.lxor (Nat.iter 8 (zero_bit poly) s) (crc_byte poly 0 b).
Proof. unfold crc_byte. by rewrite zero_bits_lxor, Z.lxor_0_l. Qed.

(** The state's contribution separates from the data's. *)
Lemma crc_raw_split s data :
  crc_raw poly s data =
  Z.lxor (Nat.iter (8 * length data) (zero_bit poly) s) (crc_raw poly 0 data).
Proof.
  revert s. induction data as [|b data IH]; intros s.
  { simpl. by rewrite Z.lxor_0_r. }
  rewrite !crc_raw_cons.
  rewrite (IH (crc_byte poly s b)), (IH (crc_byte poly 0 b)).
  rewrite (crc_byte_lxor s b).
  rewrite zero_bits_lxor, iter_add_comp, Z.lxor_assoc.
  replace (8 * length data + 8)%nat with (8 * length (b :: data))%nat
    by (cbn [length]; lia).
  reflexivity.
Qed.

(** ** Matrices represent linear maps *)

(** [matrix] lists the images under [f] of the bits from position [k] on. *)
Definition represents_from (k : nat) (matrix : list Z) (f : Z -> Z) : Prop :=
  forall i row, matrix !! i = Some row -> row = f (Z.shiftl 1 (Z.of_nat (k + i))).

Definition linear (f : Z -> Z) : Prop :=
  f 0 = 0 /\ forall a b, f (Z.lxor a b) = Z.lxor (f a) (f b).

Lemma land_1_testbit v : negb (Z.land v 1 =? 0) = Z.testbit v 0.
Proof.
  change 1 with (Z.ones 1). rewrite Z.land_ones by lia. change (2 ^ 1) with 2.
  rewrite Z.bit0_odd, Zmod_odd. by destruct (Z.odd v).
Qed.

Lemma split_low_bit v k :
  0 <= v -> 0 <= k ->
  Z.shiftl v k =
  Z.lxor (if Z.testbit v 0 then Z.shiftl 1 k else 0) (Z.shiftl (Z.shiftr v 1) (k + 1)).
Proof.
  intros Hv Hk. apply Z.bits_inj'. intros i Hi. rewrite Z.lxor_spec.
  rewrite !Z.shiftl_spec by lia.
  assert (Z.testbit (if Z.testbit v 0 then Z.shiftl 1 k else 0) i =
          Z.testbit v 0 && (i =? k)) as ->.
  { destruct (Z.testbit v 0); [|apply Z.bits_0]. simpl.
    rewrite Z.shiftl_spec by lia. destruct (Z.eqb_spec i k) as [->|].
    - by rewrite Z.sub_diag.
    - destruct (decide (i < k)); [apply Z.testbit_neg_r; lia|].
      apply (Z.bits_above_log2 1); simpl; lia. }
  destruct (Z.eqb_spec i k) as [->|Hne].
  - rewrite Z.sub_diag, (Z.testbit_neg_r _ (k - (k + 1))) by lia.
    by rewrite andb_true_r, xorb_false_r.
  - rewrite andb_false_r, xorb_false_l.
    destruct (decide (i < k)).
    + rewrite !Z.testbit_neg_r; [done|lia|lia].
    + rewrite Z.shiftr_spec by lia. f_equal. lia.
Qed.

Lemma gf2MatrixTimes_loop_spec f matrix k v sum :
  linear f -> represents_from k matrix f -> word (length matrix) v ->
  gf2MatrixTimes_loop matrix v sum =
  Ok (Z.lxor sum (f (Z.shiftl v (Z.of_nat k)))).
Proof.
  intros [Hf0 Hfx]. revert k v sum.
  induction matrix as [|row matrix IH]; intros k v sum Hrep Hv; simpl.
  { unfold word in Hv. simpl in Hv. assert (v = 0) as -> by lia. simpl.
    by rewrite Z.shiftl_0_l, Hf0, Z.lxor_0_r. }
  destruct (Z.eqb_spec v 0) as [->|Hv0].
  { by rewrite Z.shiftl_0_l, Hf0, Z.lxor_0_r. }
  rewrite (IH (S k)).
  - f_equal. rewrite land_1_testbit.
    rewrite (split_low_bit v (Z.of_nat k)) by (unfold word in Hv; lia).
    rewrite Hfx. replace (Z.of_nat (S k)) with (Z.of_nat k + 1) by lia.
    assert (row = f (Z.shiftl 1 (Z.of_nat k))) as ->.
    { rewrite (Hrep 0%nat row) by done. do 2 f_equal. lia. }
    destruct (Z.testbit v 0); [by rewrite Z.lxor_assoc|].
    by rewrite Hf0, Z.lxor_0_l.
  - intros i r Hi. rewrite (Hrep (S i) r) by done. do 2 f_equal. lia.
  - unfold word in *. rewrite Z.shiftr_div_pow2 by lia. change (2 ^ 1) with 2.
    cbn [length] in Hv. rewrite Nat2Z.inj_succ, Z.pow_succ_r in Hv by lia.
    split; [apply Z.div_pos; lia|]. apply Z.div_lt_upper_bound; lia.
Qed.

(** A matrix of [w] rows standing for [f]. *)
Definition represents (matrix : list Z) (f : Z -> Z) : Prop :=
  length matrix = w /\ represents_from 0 matrix f.

Definition keeps_words (f : Z -> Z) : Prop := forall z, word w z -> word w (f z).

Lemma gf2MatrixTimes_spec f matrix v :
  linear f -> represents matrix f -> word w v -> gf2MatrixTimes matrix v = Ok (f v).
Proof.
  intros Hl [Hlen Hrep] Hv. unfold gf2MatrixTimes.
  rewrite (gf2MatrixTimes_loop_spec f _ 0) by (try done; by rewrite Hlen).
  by rewrite Z.lxor_0_l, Z.shiftl_0_r.
Qed.

Lemma gf2MatrixSquare_spec f matrix :
  linear f -> keeps_words f -> represents matrix f ->
  exists sq, gf2MatrixSquare matrix = Ok sq /\ represents sq (fun z => f (f z)).
Proof.
  intros Hl Hw Hrep.
  assert (Forall (word w) matrix) as Hrows.
  { apply Forall_lookup. intros i row Hi.
    rewrite (proj2 Hrep i row Hi). apply Hw. unfold word.
    apply lookup_lt_Some in Hi. destruct Hrep as [Hlen _].
    rewrite Z.shiftl_1_l. split; [apply Z.pow_nonneg; lia|].
    apply Z.pow_lt_mono_r; lia. }
  assert (forall rows, Forall (word w) rows ->
    gf2MatrixSquare_loop matrix rows = Ok (f <$> rows)) as Hloop.
  { induction 1 as [|row rows Hrow Hrows' IH]; simpl; [done|].
    by rewrite (gf2MatrixTimes_spec f), IH. }
  exists (f <$> matrix). split; [by apply Hloop|].
  destruct Hrep as [Hlen Hrep]. split; [by rewrite length_fmap|].
  intros i row. rewrite list_lookup_fmap, fmap_Some.
  intros (r & Hr & ->). by rewrite (Hrep i r Hr).
Qed.

Notation T n := (Nat.iter n (zero_bit poly)).

Lemma zero_bits_linear n : linear (T n).
Proof. split; [apply zero_bits_0 | apply zero_bits_lxor]. Qed.

Lemma zero_bits_keeps n : keeps_words (T n).
Proof. intros z. apply zero_bits_word. Qed.

Lemma square_zero_bits n matrix :
  represents matrix (T n) ->
  exists sq, gf2MatrixSquare matrix = Ok sq /\ represents sq (T (2 * n)).
Proof.
  intros H. destruct (gf2MatrixSquare_spec (T n) matrix) as (sq & -> & Hsq);
    eauto using zero_bits_linear, zero_bits_keeps.
  exists sq. split; [done|]. destruct Hsq as [? Hrep]. split; [done|].
  intros i row Hi. rewrite (Hrep i row Hi), iter_add_comp. f_equal. lia.
Qed.

Lemma maybe_times_spec n matrix first len :
  represents matrix (T n) -> word w first -> 0 <= len ->
  maybe_times matrix first len = Ok (T (n * Z.to_nat (len `mod` 2)) first).
Proof.
  intros Hrep Hf Hlen. unfold maybe_times. rewrite land_1_testbit, Z.bit0_odd.
  rewrite Zmod_odd. destruct (Z.odd len); simpl.
  - rewrite Nat.mul_1_r. by apply gf2MatrixTimes_spec; [apply zero_bits_linear|..].
  - by rewrite Nat.mul_0_r.
Qed.

Lemma shiftr1_half len : Z.shiftr len 1 = len / 2.
Proof. rewrite Z.shiftr_div_pow2; [done|lia]. Qed.

Lemma combine_loop_spec fuel n odd first len :
  represents odd (T n) -> word w first -> 0 < len < 4 ^ Z.of_nat fuel ->
  combine_loop fuel odd first len = Ok (T (2 * n * Z.to_nat len) first).
Proof.
  revert n odd first len.
  induction fuel as [|fuel IH]; intros n odd first len Hodd Hf Hlen.
  { simpl in Hlen. lia. }
  simpl. destruct (square_zero_bits n odd Hodd) as (even & -> & Heven). simpl.
  rewrite (maybe_times_spec (2 * n)) by (try done; lia). simpl.
  rewrite shiftr1_half.
  assert (len = 2 * (len / 2) + len `mod` 2) as Hl by (apply Z.div_mod; lia).
  assert (0 <= len `mod` 2 < 2) as Hm by (apply Z.mod_pos_bound; lia).
  assert (0 <= len / 2) as Hd by (apply Z.div_pos; lia).
  destruct (Z.eqb_spec (len / 2) 0) as [E|E].
  { repeat f_equal. lia. }
  destruct (square_zero_bits _ even Heven) as (odd2 & -> & Hodd2). simpl.
  rewrite (maybe_times_spec (2 * (2 * n))) by (try done; by apply zero_bits_word).
  simpl. rewrite shiftr1_half. set (h := len / 2) in *.
  assert (h = 2 * (h / 2) + h `mod` 2) as Hl2 by (apply Z.div_mod; lia).
  assert (0 <= h `mod` 2 < 2) as Hm2 by (apply Z.mod_pos_bound; lia).
  assert (0 <= h / 2) as Hd2 by (apply Z.div_pos; lia).
  rewrite iter_add_comp.
  destruct (Z.eqb_spec (h / 2) 0) as [E2|E2].
  { f_equal. f_equal. nia. }
  rewrite (IH (2 * (2 * n))%nat); [|done|by apply zero_bits_word|];
    [|rewrite Nat2Z.inj_succ, Z.pow_succ_r in Hlen by lia; lia].
  f_equal. rewrite iter_add_comp. f_equal.
  assert (Z.to_nat len = 4 * Z.to_nat (h / 2) + 2 * Z.to_nat (h `mod` 2)
    + Z.to_nat (len `mod` 2))%nat as -> by lia.
  lia.
Qed.

Lemma unit_rows_lookup n k i row :
  (k + n <= w)%nat ->
  unit_rows w n (Z.shiftl 1 (Z.of_nat k)) !! i = Some row ->
  row = Z.shiftl 1 (Z.of_nat (k + i)).
Proof.
  revert k i. induction n as [|n IH]; intros k i Hk; simpl; [done|].
  destruct i as [|i]; simpl.
  { intros [= <-]. do 2 f_equal. lia. }
  destruct n as [|n']; [done|].
  rewrite Z.shiftl_shiftl by lia.
  assert (Z.land (Z.shiftl 1 (Z.of_nat k + 1)) (Z.ones (Z.of_nat w)) =
          Z.shiftl 1 (Z.of_nat (S k))) as ->.
  { rewrite Z.land_ones by lia. rewrite !Z.shiftl_1_l.
    replace (Z.of_nat k + 1) with (Z.of_nat (S k)) by lia.
    apply Z.mod_small. split; [apply Z.pow_nonneg; lia|].
    apply Z.pow_lt_mono_r; lia. }
  intros H. apply IH in H; [|lia]. rewrite H. do 2 f_equal. lia.
Qed.

Lemma unit_rows_length n row : length (unit_rows w n row) = n.
Proof. revert row. induction n; intros; simpl; [done|]. by rewrite IHn. Qed.

(** The initial matrix is one zero bit. *)
Lemma odd_represents : (0 < w)%nat -> represents (poly :: unit_rows w (w - 1) 1) (T 1).
Proof.
  intros Hw. split; [simpl; rewrite unit_rows_length; lia|].
  intros i row. destruct i as [|i]; simpl.
  - intros [= <-]. unfold zero_bit. simpl. by rewrite Z.lxor_0_l.
  - intros H. change 1 with (Z.shiftl 1 (Z.of_nat 0)) in H at 1.
    apply unit_rows_lookup in H; [|lia]. rewrite H. unfold zero_bit.
    rewrite Z.shiftl_spec_low by lia. rewrite Z.lxor_0_r.
    rewrite Z.shiftr_shiftl_l by lia. f_equal. lia.
Qed.

Lemma crc_raw_app s a b : crc_raw poly s (a ++ b) = crc_raw poly (crc_raw poly s a) b.
Proof. apply fold_left_app. Qed.

Lemma crc_raw_word s data : word w s -> (8 <= w)%nat -> Forall is_byte data ->
  word w (crc_raw poly s data).
Proof.
  intros Hs H8 H. revert s Hs. induction H as [|b data Hb Hd IH]; intros s Hs; [done|].
  simpl. apply IH. apply zero_bits_word, word_lxor; [done|].
  unfold word, is_byte in *. split; [lia|].
  assert (2 ^ 8 <= 2 ^ Z.of_nat w) by (apply Z.pow_le_mono_r; lia). lia.
Qed.

Lemma crc_word data : (8 <= w)%nat -> Forall is_byte data -> word w (crc poly w data).
Proof.
  intros. apply word_lxor; [|apply word_ones].
  apply crc_raw_word; [apply word_ones|done..].
Qed.

Lemma crc_nil : crc poly w [] = 0.
Proof. unfold crc. simpl. apply Z.lxor_nilpotent. Qed.

(** The algebraic identity behind CRC combination. *)
Lemma crc_app a b :
  crc poly w (a ++ b) = Z.lxor (T (8 * length b) (crc poly w a)) (crc poly w b).
Proof.
  unfold crc. rewrite crc_raw_app. rewrite (crc_raw_split _ b).
  rewrite (crc_raw_split (Z.ones _) b). rewrite zero_bits_lxor.
  set (o := Z.ones (Z.of_nat w)). set (x := T (8 * length b) (crc_raw poly o a)).
  set (y := T (8 * length b) o). set (z := crc_raw poly 0 b).
  apply Z.bits_inj'. intros i Hi. rewrite !Z.lxor_spec.
  by destruct (Z.testbit x i), (Z.testbit y i), (Z.testbit z i), (Z.testbit o i).
Qed.

Lemma combineCRC_app a b :
  (8 <= w)%nat -> Forall is_byte a -> zlen b < 2 ^ 63 ->
  combineCRC (crc poly w a) (crc poly w b) (zlen b) poly w = Ok (crc poly w (a ++ b)).
Proof.
  intros Hw Ha Hb. unfold combineCRC.
  destruct (Z.leb_spec (zlen b) 0) as [Hz|Hz].
  { assert (b = []) as -> by (apply zlen_nil_inv; pose proof (zlen_nonneg b); lia).
    by rewrite app_nil_r. }
  destruct (square_zero_bits 1 (poly :: unit_rows w (w - 1) 1)) as (even & -> & Heven).
  { apply odd_represents. lia. }
  cbn [mbind outcome_bind].
  destruct (square_zero_bits _ even Heven) as (odd & -> & Hodd).
  cbn [mbind outcome_bind].
  rewrite (combine_loop_spec 32 _ odd _ _ Hodd).
  - cbn [mbind outcome_bind]. rewrite crc_app. f_equal. f_equal. f_equal. unfold zlen. lia.
  - by apply crc_word.
  - split; [lia|]. change (4 ^ Z.of_nat 32) with (2 ^ 64). lia.
Qed.
End Linear.

End Crc.
