(* ===== verification/Base64.v ===== *)
(** * [encoding/base64] StdEncoding and [encoding/hex], [encoding/binary]

    The encodings the checksum and file-key code uses: standard Base64 with
    padding, lower-case hexadecimal and big-endian words. *)

From stdpp Require Import base strings list.
From Stdlib Require Import Ascii.
From S2P Require Import Prelude GoStr Crc.

Module Base64.

Definition alphabet : list ascii :=
  String.list_ascii_of_string
    "ABCDEFGHIJKLMNOPQRSTUVWXYZabcdefghijklmnopqrstuvwxyz0123456789+/".

Definition pad : ascii := "="%char.

Definition b64char (v : Z) : ascii := nth (Z.to_nat v) alphabet pad.

Fixpoint index_of (c : ascii) (l : list ascii) (i : Z) : option Z :=
  match l with
  | [] => None
  | d :: l' => if Ascii.eqb c d then Some i else index_of c l' (i + 1)
  end.

Definition b64val (c : ascii) : option Z := index_of c alphabet 0.

(** [EncodeToString] *)
Fixpoint encode_bytes (l : list Z) : list ascii :=
  match l with
  | [] => []
  | [a] => [b64char (a / 4); b64char (a `mod` 4 * 16); pad; pad]
  | [a; b] =>
      [b64char (a / 4); b64char (a `mod` 4 * 16 + b / 16);
       b64char (b `mod` 16 * 4); pad]
  | a :: b :: c :: l' =>
      b64char (a / 4) :: b64char (a `mod` 4 * 16 + b / 16)
      :: b64char (b `mod` 16 * 4 + c / 64) :: b64char (c `mod` 64)
      :: encode_bytes l'
  end.

Definition encode (l : list Z) : string :=
  String.string_of_list_ascii (encode_bytes l).

(** [DecodeString]: carriage returns and line feeds are skipped, padding is
    required and ends the input, the unused low bits of a short last quantum
    are ignored. *)
Fixpoint decode_bytes (s : list ascii) : option (list Z) :=
  match s with
  | [] => Some []
  | ca :: cb :: cc :: cd :: rest =>
      match b64val ca, b64val cb with
      | Some a, Some b =>
          let x := (a * 4 + b / 16) `mod` 256 in
          if Ascii.eqb cc pad then
            if Ascii.eqb cd pad then
              match rest with [] => Some [x] | _ => None end
            else None
          else match b64val cc with
               | None => None
               | Some c =>
                   let y := (b * 16 + c / 4) `mod` 256 in
                   if Ascii.eqb cd pad then
                     match rest with [] => Some [x; y] | _ => None end
                   else match b64val cd with
                        | None => None
                        | Some d =>
                            match decode_bytes rest with
                            | None => None
                            | Some l => Some (x :: y :: (c * 64 + d) `mod` 256 :: l)
                            end
                        end
               end
      | _, _ => None
      end
  | _ => None
  end.

Definition is_newline (c : ascii) : bool :=
  Ascii.eqb c "010"%char || Ascii.eqb c "013"%char.

Definition decode (s : string) : outcome (list Z) :=
  match decode_bytes
          (List.filter (fun c => negb (is_newline c)) (String.list_ascii_of_string s)) with
  | Some l => Ok l
  | None => Err ErrCorruptInput
  end.

(** ** Big-endian words ([binary.BigEndian]) *)

(** [PutUint32]/[PutUint64] into [n] bytes. *)
Fixpoint put_be (n : nat) (v : Z) : list Z :=
  match n with
  | O => []
  | S n' => (v / 256 ^ Z.of_nat n') `mod` 256 :: put_be n' v
  end.

(** [Uint32]/[Uint64] of the first [n] bytes; a shorter slice panics. *)
Definition get_be (n : nat) (l : list Z) : outcome Z :=
  if decide (length l < n)%nat then Err Panic
  else Ok (fold_left (fun acc b => acc * 256 + b) (take n l) 0).

(** ** Hexadecimal *)

Definition hexdigit (v : Z) : ascii :=
  nth (Z.to_nat v) (String.list_ascii_of_string "0123456789abcdef") "0"%char.

(** [hex.EncodeToString] *)
Definition hex_encode (l : list Z) : string :=
  String.string_of_list_ascii
    (concat (map (fun b => [hexdigit (b / 16); hexdigit (b `mod` 16)]) l)).

(** Digits of both cases. *)
Definition hexval (c : ascii) : option Z :=
  let v := Z.of_N (N_of_ascii c) in
  if (48 <=? v) && (v <=? 57) then Some (v - 48)
  else if (97 <=? v) && (v <=? 102) then Some (v - 87)
  else if (65 <=? v) && (v <=? 70) then Some (v - 55)
  else None.

Fixpoint hex_decode_bytes (s : list ascii) : outcome (list Z) :=
  match s with
  | [] => Ok []
  | a :: b :: rest =>
      match hexval a, hexval b with
      | Some x, Some y => l ← hex_decode_bytes rest; Ok (x * 16 + y :: l)
      | _, _ => Err ErrSyntax
      end
  | _ => Err ErrSyntax
  end.

(** [hex.DecodeString] *)
Definition hex_decode (s : string) : outcome (list Z) :=
  hex_decode_bytes (String.list_ascii_of_string s).

(** ** Lemmas *)

(** Reduces a statement about a small range to a computation. *)
Lemma range_forall (P : Z -> bool) n v :
  forallb (fun i => P (Z.of_nat i)) (seq 0 n) = true ->
  0 <= v < Z.of_nat n -> P v = true.
Proof.
  intros H Hv. rewrite forallb_forall in H.
  rewrite <- (Z2Nat.id v) by lia. apply H, in_seq. lia.
Qed.

Definition good_char (v : Z) : bool :=
  bool_decide (b64val (b64char v) = Some v) &&
  negb (Ascii.eqb (b64char v) pad) && negb (is_newline (b64char v)) &&
  negb (Ascii.eqb (b64char v) "-"%char).

Lemma b64char_good v : 0 <= v < 64 ->
  b64val (b64char v) = Some v /\ Ascii.eqb (b64char v) pad = false /\
  is_newline (b64char v) = false /\ Ascii.eqb (b64char v) "-"%char = false.
Proof.
  intros Hv. assert (good_char v = true) as H.
  { apply (range_forall good_char 64); [vm_compute; reflexivity | done]. }
  unfold good_char in H. rewrite !andb_true_iff, !negb_true_iff in H.
  destruct H as [[[H1 H2] H3] H4]. by apply bool_decide_eq_true in H1.
Qed.

(** Induction in steps of three. *)
Lemma list_ind3 {A} (P : list A -> Prop) :
  P [] -> (forall a, P [a]) -> (forall a b, P [a; b]) ->
  (forall a b c l, P l -> P (a :: b :: c :: l)) -> forall l, P l.
Proof.
  intros H0 H1 H2 H3.
  fix IH 1. intros [|a [|b [|c l]]]; [done | apply H1 | apply H2 | apply H3, IH].
Qed.

Ltac b64_range := unfold is_byte in *; Z.to_euclidean_division_equations; lia.

Lemma b64val_char v : 0 <= v < 64 -> b64val (b64char v) = Some v.
Proof. apply b64char_good. Qed.

Lemma b64char_pad v : 0 <= v < 64 -> Ascii.eqb (b64char v) pad = false.
Proof. apply b64char_good. Qed.

Lemma decode_encode_bytes l :
  Forall is_byte l -> decode_bytes (encode_bytes l) = Some l.
Proof.
  induction l as [|a|a b|a b c l IH] using list_ind3; intros H; [done|..];
    decompose_Forall_hyps.
  - simpl. rewrite !b64val_char by b64_range. rewrite ?Ascii.eqb_refl.
    repeat f_equal. b64_range.
  - simpl. rewrite !b64val_char by b64_range.
    rewrite b64char_pad by b64_range. rewrite ?Ascii.eqb_refl.
    repeat f_equal; b64_range.
  - simpl. rewrite !b64val_char by b64_range.
    rewrite !b64char_pad by b64_range. rewrite IH by done.
    repeat f_equal; b64_range.
Qed.

(** The characters [EncodeToString] produces. *)
Lemma encode_bytes_chars l :
  Forall is_byte l ->
  Forall (fun c => is_newline c = false /\ Ascii.eqb c "-"%char = false) (encode_bytes l).
Proof.
  assert (is_newline pad = false /\ Ascii.eqb pad "-"%char = false) as Hp by done.
  assert (forall v, 0 <= v < 64 ->
    is_newline (b64char v) = false /\ Ascii.eqb (b64char v) "-"%char = false) as Hc.
  { intros v Hv. by apply b64char_good. }
  induction l as [|a|a b|a b c l IH] using list_ind3; intros H; simpl;
    decompose_Forall_hyps;
    repeat (constructor; [first [exact Hp | apply Hc; b64_range]|]); auto.
Qed.

Lemma decode_encode l : Forall is_byte l -> decode (encode l) = Ok l.
Proof.
  intros H. unfold decode, encode. rewrite String.list_ascii_of_string_of_list_ascii.
  assert (List.filter (fun c => negb (is_newline c)) (encode_bytes l) = encode_bytes l)
    as ->.
  { apply encode_bytes_chars in H.
    induction H as [|c cs [Hc _] Hcs IH]; simpl; [done|]. by rewrite Hc, IH. }
  by rewrite decode_encode_bytes.
Qed.

Lemma has_byte_list c s :
  has_byte c s = existsb (fun d => Ascii.eqb d c) (String.list_ascii_of_string s).
Proof. induction s; simpl; [done|]. by rewrite IHs. Qed.

(** No dash occurs in an encoded digest. *)
Lemma encode_no_dash l : Forall is_byte l -> has_byte "-"%char (encode l) = false.
Proof.
  intros H. rewrite has_byte_list. unfold encode.
  rewrite String.list_ascii_of_string_of_list_ascii.
  apply encode_bytes_chars in H.
  induction H as [|c cs [_ Hc] Hcs IH]; simpl; [done|]. by rewrite Hc, IH.
Qed.

(** Nor in a text that decodes. *)
Lemma decode_bytes_no_dash n s l : (length s <= n)%nat -> decode_bytes s = Some l -> "-"%char ∉ s.
Proof.
  revert s l. induction n as [|n IH]; intros s l Hn Hd.
  { destruct s; [by intros ?%elem_of_nil|cbn in Hn; lia]. }
  destruct s as [|ca [|cb [|cc [|cd rest]]]]; try done; [by intros ?%elem_of_nil|]. cbn [decode_bytes] in Hd.
  assert (forall c v, b64val c = Some v -> c <> "-"%char) as Hv by (intros c v E ->; done).
  assert (forall c, Ascii.eqb c pad = true -> c <> "-"%char) as Hp by (by intros c E ->).
  destruct (b64val ca) eqn:Ea; [|done]. destruct (b64val cb) eqn:Eb; [|done].
  rewrite !elem_of_cons. destruct (Ascii.eqb cc pad) eqn:Ec.
  - destruct (Ascii.eqb cd pad) eqn:Ed; [|done]. destruct rest; [|done]. rewrite elem_of_nil. naive_solver.
  - destruct (b64val cc) eqn:Ec'; [|done]. destruct (Ascii.eqb cd pad) eqn:Ed.
    + destruct rest; [|done]. rewrite elem_of_nil. naive_solver.
    + destruct (b64val cd) eqn:Ed'; [|done]. destruct (decode_bytes rest) eqn:Er; [|done].
      apply IH in Er; [|cbn in Hn; lia]. naive_solver.
Qed.

Lemma decode_no_dash s l : decode s = Ok l -> has_byte "-"%char s = false.
Proof.
  unfold decode. destruct (decode_bytes _) eqn:E; [|done]. intros _.
  apply (decode_bytes_no_dash _ _ _ (le_n _)) in E. rewrite has_byte_list. apply not_true_iff_false.
  rewrite existsb_exists. intros (c & Hc & ->%Ascii.eqb_eq). apply E, list_elem_of_In, List.filter_In. done.
Qed.

Lemma put_be_length n v : length (put_be n v) = n.
Proof. induction n; simpl; [done|]. by rewrite IHn. Qed.

Lemma put_be_bytes n v : Forall is_byte (put_be n v).
Proof.
  induction n; simpl; constructor; [|done].
  unfold is_byte. apply Z.mod_pos_bound. lia.
Qed.

Lemma fold_put_be n v acc :
  0 <= v ->
  fold_left (fun a b => a * 256 + b) (put_be n v) acc =
  acc * 256 ^ Z.of_nat n + v `mod` 256 ^ Z.of_nat n.
Proof.
  intros Hv. revert acc. induction n as [|n IH]; intros acc; simpl.
  { rewrite Z.mod_1_r. lia. }
  rewrite IH. replace (Z.of_nat (S n)) with (Z.of_nat n + 1) by lia.
  rewrite Z.pow_add_r by lia. change (256 ^ 1) with 256.
  set (p := 256 ^ Z.of_nat n).
  assert (0 < p) by (apply Z.pow_pos_nonneg; lia).
  rewrite Z.rem_mul_r by lia. lia.
Qed.

Lemma get_put_be n v : 0 <= v < 256 ^ Z.of_nat n -> get_be n (put_be n v) = Ok v.
Proof.
  intros Hv. unfold get_be. rewrite put_be_length, decide_False by lia.
  rewrite take_ge by (by rewrite put_be_length).
  rewrite fold_put_be by lia. rewrite Z.mod_small by lia. done.
Qed.

Definition hex_ok (v : Z) : bool := bool_decide (hexval (hexdigit v) = Some v).

Lemma hexval_digit v : 0 <= v < 16 -> hexval (hexdigit v) = Some v.
Proof.
  intros Hv. apply (bool_decide_eq_true_1 (hexval (hexdigit v) = Some v)).
  apply (range_forall hex_ok 16); [vm_compute; reflexivity | done].
Qed.

Lemma hex_decode_encode l : Forall is_byte l -> hex_decode (hex_encode l) = Ok l.
Proof.
  unfold hex_decode, hex_encode. rewrite String.list_ascii_of_string_of_list_ascii.
  induction 1 as [|b l Hb Hl IH]; [done|]. simpl.
  rewrite !hexval_digit by b64_range. rewrite IH. simpl. do 2 f_equal. b64_range.
Qed.

End Base64.

(** * File ids (src/utils/fileid_utils.go) *)
Module FileId.
Import Base64.

(** [EncodeFileId] *)
Definition EncodeFileId (fileid : Z) : string := hex_encode (put_be 8 fileid).

(** [DecodeFileId]: [binary.BigEndian.Uint64] panics on fewer than 8 bytes and
    ignores the bytes after the eighth. *)
Definition DecodeFileId (xfid : string) : outcome Z :=
  raw ← hex_decode xfid; get_be 8 raw.

(** [FileIdToHash], over xxhash's 64-bit sum. *)
Definition FileIdToHash (xxhash : list Z -> Z) (fid : Z) : list Z :=
  put_be 8 (xxhash (put_be 8 fid)).

(** C38. Every uint64 file id survives [EncodeFileId] and [DecodeFileId]. *)
Theorem DecodeFileId_EncodeFileId fid :
  0 <= fid < 2 ^ 64 -> DecodeFileId (EncodeFileId fid) = Ok fid.
Proof.
  intros H. unfold DecodeFileId, EncodeFileId.
  rewrite hex_decode_encode by apply put_be_bytes.
  cbn [mbind outcome_bind].
  apply get_put_be. change (256 ^ Z.of_nat 8) with (2 ^ 64). lia.
Qed.

Lemma DecodeFileId_EncodeFileId_witness :
  EncodeFileId 258 = "0000000000000102" /\ DecodeFileId (EncodeFileId 258) = Ok 258.
Proof. split; [vm_compute; reflexivity | apply DecodeFileId_EncodeFileId; lia]. Defined.

End FileId.
