(* ===== verification/Checksum.v ===== *)
(** * s3checksum: S3 checksums (src/s3checksum/)

    Algorithm and type names with their defaults, digest decoding, the CRC of a
    complete multipart object from the CRCs of its parts ([FullObject]) and the
    checksum of checksums ([Composite]) with its stored form. SHA-1 and SHA-256
    are parameters; the CRCs are computed. *)

From stdpp Require Import base strings list gmap.
From Stdlib Require Import Ascii.
From S2P Require Import Prelude GoStr Crc Base64.
Import Base64.

Module Checksum.

Definition AlgorithmCRC32 : string := "CRC32".
Definition AlgorithmCRC32C : string := "CRC32C".
Definition AlgorithmCRC64NVME : string := "CRC64NVME".
Definition AlgorithmSHA1 : string := "SHA1".
Definition AlgorithmSHA256 : string := "SHA256".

Definition TypeFullObject : string := "FULL_OBJECT".
Definition TypeComposite : string := "COMPOSITE".

Definition unsupportedAlgorithms : list string :=
  ["MD5"; "SHA512"; "XXHASH64"; "XXHASH3"; "XXHASH128"].

Definition supported : list string :=
  [AlgorithmCRC32; AlgorithmCRC32C; AlgorithmCRC64NVME; AlgorithmSHA1; AlgorithmSHA256].

(** ** algorithm.go *)

Definition parseAlgorithmWithDefault (algorithmValue typeValue : string) : outcome string :=
  if decide (algorithmValue = "") then
    if decide (typeValue = TypeComposite) then Err ErrInvalidCombination
    else Ok AlgorithmCRC64NVME
  else if decide (algorithmValue ∈ unsupportedAlgorithms) then Err ErrUnsupportedAlgorithm
  else if decide (algorithmValue ∈ supported) then Ok algorithmValue
  else Err ErrInvalidAlgorithm.

Definition parseTypeWithDefault (algorithm typeValue : string) : outcome string :=
  if decide (typeValue = "") then
    if decide (algorithm = AlgorithmCRC64NVME) then Ok TypeFullObject
    else Ok TypeComposite
  else if decide (typeValue = TypeFullObject \/ typeValue = TypeComposite) then Ok typeValue
  else Err ErrInvalidType.

Definition ParseAlgorithm (value : string) : outcome string :=
  if decide (value = "") then Err ErrInvalidAlgorithm
  else parseAlgorithmWithDefault value "".

Definition ParseType (value : string) : outcome string :=
  if decide (value = "") then Err ErrInvalidType
  else parseTypeWithDefault AlgorithmCRC64NVME value.

Definition ValidateCombination (algorithm checksumType : string) : outcome unit :=
  if decide (checksumType = TypeFullObject) then
    if decide (algorithm ∈ [AlgorithmCRC32; AlgorithmCRC32C; AlgorithmCRC64NVME]) then Ok tt
    else if decide (algorithm ∈ [AlgorithmSHA1; AlgorithmSHA256]) then Err ErrInvalidCombination
    else Err ErrInvalidAlgorithm
  else if decide (checksumType = TypeComposite) then
    if decide (algorithm ∈ [AlgorithmCRC32; AlgorithmCRC32C; AlgorithmSHA1; AlgorithmSHA256])
    then Ok tt
    else if decide (algorithm = AlgorithmCRC64NVME) then Err ErrInvalidCombination
    else Err ErrInvalidAlgorithm
  else Err ErrInvalidType.

Definition ResolveMultipart (algorithmValue typeValue : string) : outcome (string * string) :=
  algorithm ← parseAlgorithmWithDefault algorithmValue typeValue;
  checksumType ← parseTypeWithDefault algorithm typeValue;
  _ ← ValidateCombination algorithm checksumType;
  Ok (algorithm, checksumType).

(** ** strconv and strings helpers of composite.go *)

(** [strings.LastIndexByte] as a split: what is before and after the last [c]. *)
Fixpoint split_last (c : ascii) (s : string) : option (string * string) :=
  match s with
  | EmptyString => None
  | String d s' =>
      match split_last c s' with
      | Some (p, q) => Some (String d p, q)
      | None => if Ascii.eqb d c then Some ("", s') else None
      end
  end.

(** [strconv.Atoi] *)
Definition Atoi (s : string) : outcome Z :=
  let bounded (neg : bool) (o : outcome Z) :=
    n ← o;
    if neg then if 2 ^ 63 <? n then Err ErrRange else Ok (- n)
    else if 2 ^ 63 <=? n then Err ErrRange else Ok n in
  match s with
  | String c s' =>
      if Ascii.eqb c "+"%char then bounded false (ParseUint s')
      else if Ascii.eqb c "-"%char then bounded true (ParseUint s')
      else bounded false (ParseUint s)
  | EmptyString => Err ErrSyntax
  end.

(** ** Hashes *)
Section Hashes.
Context (sha1 sha256 : list Z -> list Z).

(** A hash: [Size()] and the digest [Sum(nil)] of all bytes written. *)
Record Hash := { hash_size : nat; hash_sum : list Z -> list Z }.

Definition crc_hash (poly : Z) (bytes : nat) : Hash :=
  {| hash_size := bytes;
     hash_sum := fun data => put_be bytes (Crc.crc poly (8 * bytes) data) |}.

Definition NewHash (algorithm : string) : outcome Hash :=
  if decide (algorithm = AlgorithmCRC32) then Ok (crc_hash Crc.crc32IEEEPolynomial 4)
  else if decide (algorithm = AlgorithmCRC32C) then
    Ok (crc_hash Crc.crc32CastagnoliPolynomial 4)
  else if decide (algorithm = AlgorithmCRC64NVME) then
    Ok (crc_hash Crc.crc64NVMEPolynomial 8)
  else if decide (algorithm = AlgorithmSHA1) then
    Ok {| hash_size := 20; hash_sum := sha1 |}
  else if decide (algorithm = AlgorithmSHA256) then
    Ok {| hash_size := 32; hash_sum := sha256 |}
  else Err ErrInvalidAlgorithm.

(** digest.go: [Decode] *)
Definition Decode (algorithm value : string) : outcome (list Z) :=
  match Base64.decode value with
  | Err _ => Err ErrInvalidDigest
  | Ok digest =>
      hasher ← NewHash algorithm;
      if decide (length digest = hash_size hasher) then Ok digest
      else Err ErrInvalidDigest
  end.

(** digest.go: [SumBase64] of a hash that was given [data]. *)
Definition SumBase64 (h : Hash) (data : list Z) : string := Base64.encode (hash_sum h data).

(** ** combine_crc.go *)

Record PartChecksum := { pc_value : string; pc_size : Z }.

(** The loops of [combineCRC32Parts] and [combineCRC64Parts]; [None] before the
    first part. *)
Fixpoint combine_parts (algorithm : string) (poly : Z) (bytes : nat)
    (parts : list PartChecksum) (combined : option Z) : outcome Z :=
  match parts with
  | [] => Ok (default 0 combined)
  | part :: rest =>
      if pc_size part <? 0 then Err ErrInvalidPartSize
      else
        raw ← Decode algorithm (pc_value part);
        partCRC ← get_be bytes raw;
        next ← (match combined with
                | None => Ok partCRC
                | Some c => Crc.combineCRC c partCRC (pc_size part) poly (8 * bytes)
                end);
        combine_parts algorithm poly bytes rest (Some next)
  end.

Definition combineCRC32Parts (algorithm : string) (parts : list PartChecksum) : outcome string :=
  let poly := if decide (algorithm = AlgorithmCRC32C)
              then Crc.crc32CastagnoliPolynomial else Crc.crc32IEEEPolynomial in
  combined ← combine_parts algorithm poly 4 parts None;
  Ok (Base64.encode (put_be 4 combined)).

Definition combineCRC64Parts (parts : list PartChecksum) : outcome string :=
  combined ← combine_parts AlgorithmCRC64NVME Crc.crc64NVMEPolynomial 8 parts None;
  Ok (Base64.encode (put_be 8 combined)).

Definition FullObject (algorithm : string) (parts : list PartChecksum) : outcome string :=
  if decide (parts = []) then Err ErrInvalidDigest
  else
    _ ← ValidateCombination algorithm TypeFullObject;
    if decide (algorithm = AlgorithmCRC32 \/ algorithm = AlgorithmCRC32C) then
      combineCRC32Parts algorithm parts
    else if decide (algorithm = AlgorithmCRC64NVME) then combineCRC64Parts parts
    else if decide (algorithm = AlgorithmSHA1 \/ algorithm = AlgorithmSHA256) then
      Err ErrInvalidCombination
    else Err ErrInvalidAlgorithm.

(** ** composite.go *)

(** The loop of [Composite]: the bytes written to the hasher. *)
Fixpoint composite_write (algorithm : string) (values : list string) (written : list Z)
    : outcome (list Z) :=
  match values with
  | [] => Ok written
  | value :: rest =>
      raw ← Decode algorithm value;
      composite_write algorithm rest (written ++ raw)
  end.

Definition Composite (algorithm : string) (values : list string) : outcome (string * string) :=
  if decide (values = []) then Err ErrInvalidDigest
  else
    _ ← ValidateCombination algorithm TypeComposite;
    hasher ← NewHash algorithm;
    written ← composite_write algorithm values [];
    let requestValue := SumBase64 hasher written in
    Ok (requestValue, requestValue +:+ "-" +:+ FormatUint (zlen values)).

Definition ParseCompositeStored (algorithm value : string) (expectedParts : Z)
    : outcome string :=
  match split_last "-"%char value with
  | None => Err ErrInvalidDigest
  | Some (requestValue, suffix) =>
      if decide (requestValue = "" \/ suffix = "") then Err ErrInvalidDigest
      else
        match Atoi suffix with
        | Err _ => Err ErrInvalidDigest
        | Ok partCount =>
            if negb (partCount =? expectedParts) || (partCount <=? 0) then Err ErrInvalidDigest
            else
              _ ← Decode algorithm requestValue;
              Ok requestValue
        end
  end.

(** [HeaderName] and [XMLName] *)
Definition lower_ascii (c : ascii) : ascii :=
  let v := N_of_ascii c in
  if (65 <=? v)%N && (v <=? 90)%N then ascii_of_N (v + 32) else c.

Definition HeaderName (algorithm : string) : outcome string :=
  _ ← NewHash algorithm;
  Ok ("x-amz-checksum-" +:+
      String.string_of_list_ascii (map lower_ascii (String.list_ascii_of_string algorithm))).

Definition XMLName (algorithm : string) : outcome string :=
  _ ← NewHash algorithm; Ok ("Checksum" +:+ algorithm).

(** ** Lemmas *)

(** What the standard library documents of the SHA digests. *)
Class ShaSizes : Prop := {
  sha1_size : forall data, length (sha1 data) = 20%nat;
  sha1_bytes : forall data, Forall is_byte (sha1 data);
  sha256_size : forall data, length (sha256 data) = 32%nat;
  sha256_bytes : forall data, Forall is_byte (sha256 data) }.

Lemma NewHash_digest `{!ShaSizes} algorithm h data :
  NewHash algorithm = Ok h ->
  length (hash_sum h data) = hash_size h /\ Forall is_byte (hash_sum h data).
Proof.
  unfold NewHash. intros Hn.
  repeat case_decide; simplify_eq; cbn [hash_size hash_sum crc_hash];
    (split; [first [apply put_be_length | apply sha1_size | apply sha256_size]
            | first [apply put_be_bytes | apply sha1_bytes | apply sha256_bytes]]).
Qed.

(** Decoding the digest a hash produced gives its bytes back. *)
Lemma Decode_encode algorithm h raw :
  NewHash algorithm = Ok h -> length raw = hash_size h -> Forall is_byte raw ->
  Decode algorithm (Base64.encode raw) = Ok raw.
Proof.
  intros Hh Hl Hb. unfold Decode. rewrite decode_encode by done. rewrite Hh. simpl.
  by rewrite decide_True.
Qed.

Definition checksum_of (h : Hash) (data : list Z) : PartChecksum :=
  {| pc_value := SumBase64 h data; pc_size := zlen data |}.

Lemma combine_parts_spec algorithm poly bytes parts acc :
  NewHash algorithm = Ok (crc_hash poly bytes) -> (0 < bytes)%nat ->
  Crc.word (8 * bytes) poly -> Forall is_byte acc ->
  Forall (fun d => Forall is_byte d /\ zlen d < 2 ^ 63) parts ->
  combine_parts algorithm poly bytes (map (checksum_of (crc_hash poly bytes)) parts)
    (Some (Crc.crc poly (8 * bytes) acc)) =
  Ok (Crc.crc poly (8 * bytes) (acc ++ concat parts)).
Proof.
  intros Hh Hb Hpoly. revert acc.
  induction parts as [|d parts IH]; intros acc Hacc Hparts; cbn [map concat].
  { by rewrite app_nil_r. }
  apply Forall_cons in Hparts as [[Hd Hlen] Hparts].
  cbn [combine_parts pc_size checksum_of pc_value].
  destruct (Z.ltb_spec (zlen d) 0); [pose proof (zlen_nonneg d); lia|].
  unfold SumBase64.
  rewrite (Decode_encode _ _ _ Hh) by (first [apply put_be_length | apply put_be_bytes]).
  cbn [mbind outcome_bind hash_sum crc_hash]. rewrite get_put_be.
  2: { replace 256 with (2 ^ 8) by done. rewrite <- Z.pow_mul_r by lia.
       replace (8 * Z.of_nat bytes) with (Z.of_nat (8 * bytes)) by lia.
       apply Crc.crc_word; [done|lia|done]. }
  cbn [mbind outcome_bind]. rewrite Crc.combineCRC_app by (try done; lia).
  cbn [mbind outcome_bind]. rewrite IH by (try done; by apply Forall_app).
  by rewrite <- app_assoc.
Qed.

Lemma combine_parts_first algorithm poly bytes d parts :
  NewHash algorithm = Ok (crc_hash poly bytes) -> (0 < bytes)%nat ->
  Crc.word (8 * bytes) poly ->
  Forall (fun d => Forall is_byte d /\ zlen d < 2 ^ 63) (d :: parts) ->
  combine_parts algorithm poly bytes
    (map (checksum_of (crc_hash poly bytes)) (d :: parts)) None =
  Ok (Crc.crc poly (8 * bytes) (concat (d :: parts))).
Proof.
  intros Hh Hb Hpoly Hparts. apply Forall_cons in Hparts as [[Hd Hlen] Hparts].
  cbn [map combine_parts pc_size checksum_of pc_value].
  destruct (Z.ltb_spec (zlen d) 0); [pose proof (zlen_nonneg d); lia|].
  unfold SumBase64.
  rewrite (Decode_encode _ _ _ Hh) by (first [apply put_be_length | apply put_be_bytes]).
  cbn [mbind outcome_bind hash_sum crc_hash]. rewrite get_put_be.
  2: { replace 256 with (2 ^ 8) by done. rewrite <- Z.pow_mul_r by lia.
       replace (8 * Z.of_nat bytes) with (Z.of_nat (8 * bytes)) by lia.
       apply Crc.crc_word; [done|lia|done]. }
  cbn [mbind outcome_bind]. by apply combine_parts_spec.
Qed.

(** The checksum of the parts, in order, is that of their bytes. *)
Lemma FullObject_parts algorithm h (parts : list (list Z)) :
  NewHash algorithm = Ok h -> ValidateCombination algorithm TypeFullObject = Ok tt ->
  parts <> [] -> Forall (fun d => Forall is_byte d /\ zlen d < 2 ^ 63) parts ->
  FullObject algorithm (map (checksum_of h) parts) = Ok (SumBase64 h (concat parts)).
Proof.
  intros Hh Hv Hne Hparts. unfold FullObject.
  destruct parts as [|d parts]; [done|]. rewrite decide_False by done.
  rewrite Hv. cbn [mbind outcome_bind].
  unfold ValidateCombination in Hv. rewrite decide_True in Hv by done.
  case_decide as Hin; [|by case_decide]. pose proof Hh as Hh'. unfold NewHash in Hh'.
  rewrite !elem_of_cons in Hin. destruct Hin as [->|[->|[->|[]%elem_of_nil]]].
  - rewrite decide_True by (by left). injection Hh' as <-.
    unfold combineCRC32Parts. rewrite decide_False by done.
    by rewrite combine_parts_first by (try done; lia).
  - rewrite decide_True by (by right). injection Hh' as <-.
    unfold combineCRC32Parts. rewrite decide_True by done.
    by rewrite combine_parts_first by (try done; lia).
  - rewrite decide_False by (by intros [?|?]). rewrite decide_True by done.
    injection Hh' as <-. unfold combineCRC64Parts.
    by rewrite combine_parts_first by (try done; lia).
Qed.

(** C40: [FullObject] is sound: from the Base64 CRCs and the sizes of the parts,
    without reading the data, it returns exactly the Base64 CRC of the
    concatenated object, for CRC32, CRC32C and CRC64NVME. *)
Theorem FullObject_concat algorithm h (parts : list (list Z)) :
  NewHash algorithm = Ok h -> ValidateCombination algorithm TypeFullObject = Ok tt ->
  parts <> [] -> Forall (fun d => Forall is_byte d /\ zlen d < 2 ^ 63) parts ->
  FullObject algorithm (map (checksum_of h) parts) = Ok (SumBase64 h (concat parts)).
Proof. apply FullObject_parts. Qed.

Lemma split_last_no_byte c q : has_byte c q = false -> split_last c q = None.
Proof.
  induction q as [|d q IH]; simpl; [done|].
  intros [H1 H2]%orb_false_iff. by rewrite IH, H1.
Qed.

Lemma split_last_app c p q :
  has_byte c q = false -> split_last c (p +:+ String c q) = Some (p, q).
Proof.
  intros Hq. induction p as [|d p IH].
  - change ("" +:+ String c q) with (String c q). simpl.
    by rewrite split_last_no_byte, Ascii.eqb_refl.
  - change (String d p +:+ String c q) with (String d (p +:+ String c q)). simpl.
    by rewrite IH.
Qed.

Lemma format_digits_no_dash fuel n acc :
  0 <= n -> has_byte "-"%char acc = false ->
  has_byte "-"%char (format_digits fuel n acc) = false.
Proof.
  revert n acc. induction fuel as [|f IH]; intros n acc Hn Ha; simpl; [done|].
  assert (has_byte "-"%char (String (digit (n `mod` 10)) acc) = false) as Hd.
  { simpl. rewrite Ha, orb_false_r. apply Ascii.eqb_neq. intros E.
    assert (0 <= n `mod` 10 < 10) as Hm by (apply Z.mod_pos_bound; lia).
    pose proof (digit_value _ Hm) as Hv. rewrite E in Hv.
    change (Z.of_N (N_of_ascii "-")) with 45 in Hv. lia. }
  case_match; [done|]. apply IH; [apply Z.div_pos; lia | done].
Qed.

Lemma format_digits_first fuel n acc :
  0 <= n -> fuel <> O ->
  exists c s, format_digits fuel n acc = String c s /\ is_digit c = true.
Proof.
  revert n acc. induction fuel as [|f IH]; intros n acc Hn Hf; [done|]. simpl.
  assert (0 <= n `mod` 10 < 10) as Hm by (apply Z.mod_pos_bound; lia).
  destruct (n / 10 =? 0); [eauto using is_digit_digit|].
  destruct f as [|f]; [simpl; eauto using is_digit_digit|].
  apply IH; [apply Z.div_pos; lia | done].
Qed.

Lemma Atoi_FormatUint n : 0 <= n < 2 ^ 63 -> Atoi (FormatUint n) = Ok n.
Proof.
  intros Hn. destruct (format_digits_first 20 n "") as (c & s & E & Hc); [lia|done|].
  pose proof (ParseUint_FormatUint n) as Hp. unfold FormatUint in *. rewrite E in *.
  unfold Atoi.
  assert (Ascii.eqb c "+"%char = false) as ->.
  { apply Ascii.eqb_neq. intros ->. done. }
  assert (Ascii.eqb c "-"%char = false) as ->.
  { apply Ascii.eqb_neq. intros ->. done. }
  rewrite Hp by lia. simpl. case_match; [lia|done].
Qed.

Lemma encode_ne l : l <> [] -> Base64.encode l <> "".
Proof. destruct l as [|a [|b [|c l]]]; done. Qed.

(** C30. The stored form of a composite checksum parses back: whenever
    [Composite] accepts the part checksums, [ParseCompositeStored] of the
    persisted value with the same number of parts returns the request value. *)
Theorem ParseCompositeStored_Composite `{!ShaSizes} algorithm values request stored :
  zlen values < 2 ^ 63 ->
  Composite algorithm values = Ok (request, stored) ->
  ParseCompositeStored algorithm stored (zlen values) = Ok request.
Proof.
  intros Hlen. unfold Composite. case_decide as Hne; [done|].
  destruct (ValidateCombination _ _) as [[]|]; [|done]. cbn [mbind outcome_bind].
  destruct (NewHash algorithm) as [h|] eqn:Hh; [|done]. cbn [mbind outcome_bind].
  destruct (composite_write _ _ _) as [written|]; [|done]. cbn [mbind outcome_bind].
  intros [= <- <-]. destruct (NewHash_digest _ _ written Hh) as [Hsize Hbytes].
  assert (0 < zlen values) as Hpos.
  { destruct values; [done|]. unfold zlen. simpl. lia. }
  unfold ParseCompositeStored.
  change ("-" +:+ ?x) with (String "-"%char x).
  rewrite split_last_app by (apply format_digits_no_dash; [lia|done]).
  unfold SumBase64. rewrite decide_False.
  2: { intros [E|E]; [|by apply format_digits_ne in E].
       apply encode_ne in E; [done|]. intros E'. rewrite E' in Hsize.
       unfold NewHash in Hh. repeat case_decide; simplify_eq; simpl in *; lia. }
  rewrite Atoi_FormatUint by lia. rewrite Z.eqb_refl. simpl.
  case_match; [lia|]. by rewrite (Decode_encode _ _ _ Hh).
Qed.

(** C31. [ResolveMultipart] only ever yields a valid combination, keeps what the
    client asked for, and defaults to a full-object CRC64NVME. *)
Theorem ResolveMultipart_valid algorithmValue typeValue algorithm checksumType :
  ResolveMultipart algorithmValue typeValue = Ok (algorithm, checksumType) ->
  ValidateCombination algorithm checksumType = Ok tt /\
  (exists h, NewHash algorithm = Ok h) /\
  (algorithmValue <> "" -> algorithm = algorithmValue) /\
  (typeValue <> "" -> checksumType = typeValue) /\
  (algorithmValue = "" -> algorithm = AlgorithmCRC64NVME /\ checksumType = TypeFullObject).
Proof.
  unfold ResolveMultipart, parseAlgorithmWithDefault, parseTypeWithDefault. intros H.
  assert (forall a, a ∈ supported -> exists h, NewHash a = Ok h) as Hsup.
  { intros a. unfold supported. rewrite !elem_of_cons, elem_of_nil.
    intros Ha. destruct_or!; subst; try done; eexists; reflexivity. }
  repeat (case_decide; try done; simpl in H);
    destruct (ValidateCombination _ _) as [[]|] eqn:Ev; simpl in H; try done;
    simplify_eq; split_and!; try done; try (apply Hsup; try done; set_solver);
    try naive_solver.
Qed.
End Hashes.

(** ** Witnesses *)

Definition zeros (n : nat) (_ : list Z) : list Z := replicate n 0.

#[global] Instance zeros_sizes : ShaSizes (zeros 20) (zeros 32).
Proof.
  assert (forall n (d : list Z), Forall is_byte (zeros n d)) as H.
  { intros n d. apply Forall_replicate. unfold is_byte. lia. }
  split; intros; first [apply length_replicate | apply H].
Qed.

(** The check value of CRC-32 ("123456789" gives cbf43926), cut in two parts. *)
Definition check_parts : list (list Z) := [[49; 50; 51; 52]; [53; 54; 55; 56; 57]].

Lemma FullObject_concat_witness :
  FullObject (zeros 20) (zeros 32) AlgorithmCRC32
    (map (checksum_of (crc_hash Crc.crc32IEEEPolynomial 4)) check_parts) =
  Ok "y/Q5Jg==".
Proof.
  rewrite (FullObject_concat (zeros 20) (zeros 32) AlgorithmCRC32
    (crc_hash Crc.crc32IEEEPolynomial 4) check_parts).
  - vm_compute. reflexivity.
  - reflexivity.
  - vm_compute. reflexivity.
  - discriminate.
  - repeat constructor; vm_compute; congruence.
Defined.

Definition stored_example : string := "AAAAAAAAAAAAAAAAAAAAAAAAAAA=-2".

Lemma ParseCompositeStored_Composite_witness :
  ParseCompositeStored (zeros 20) (zeros 32) AlgorithmSHA1 stored_example 2 =
  Ok "AAAAAAAAAAAAAAAAAAAAAAAAAAA=".
Proof.
  apply (ParseCompositeStored_Composite (zeros 20) (zeros 32) AlgorithmSHA1
    ["AAAAAAAAAAAAAAAAAAAAAAAAAAA="; "AAAAAAAAAAAAAAAAAAAAAAAAAAA="]).
  - vm_compute. reflexivity.
  - vm_compute. reflexivity.
Defined.

Lemma ResolveMultipart_valid_witness :
  ValidateCombination AlgorithmSHA256 TypeComposite = Ok tt.
Proof.
  apply (ResolveMultipart_valid (zeros 20) (zeros 32) "SHA256" "").
  vm_compute. reflexivity.
Defined.

End Checksum.
