(* ===== verification/BlockIO.v ===== *)
(** * blockio: block storage backends (src/blockio/)

    The interface [IBlockIO] with what it promises ([BlockStore]), the in-memory
    backend and the byte-rotating wrapper, which is proved to keep the promise of
    whatever backend it wraps. *)

From stdpp Require Import base strings list gmap.
From S2P Require Import Prelude Crc.

(** ** Readers *)

(** An [io.ReadCloser] at the bottom of a stack of wrappers, as the calls to
    [Read] see it: the chunks that arrive one after the other (a network or file
    reader may return fewer bytes than asked for), the error after the last
    chunk ([None] is [io.EOF]) and whether that error comes together with the
    last chunk or on the call after it. *)
Record chunked := { chunks : list (list Z); fin : option err; eager : bool }.

Definition fin_err (r : chunked) : err := default EOF (fin r).

(** [Read(p)] with [len(p) = n]: the bytes, the error, the reader after. *)
Definition chunked_read (r : chunked) (n : Z) : list Z * option err * chunked :=
  match chunks r with
  | [] => ([], Some (fin_err r), r)
  | c :: cs =>
      if zlen c <=? n then
        (c, (if eager r && bool_decide (cs = []) then Some (fin_err r) else None),
         {| chunks := cs; fin := fin r; eager := eager r |})
      else
        (ztake n c, None,
         {| chunks := zdrop n c :: cs; fin := fin r; eager := eager r |})
  end.

(** [rotateReadCloser.Read]: the byte after rotation. *)
Definition rotate_byte (val b : Z) : Z := (b + val) `mod` 256.

(** The readers a [Download] returns. *)
Inductive readcloser :=
  | RcChunks (r : chunked)
  | RcRotate (rc : readcloser) (val : Z).

Fixpoint rc_read (rc : readcloser) (n : Z) : list Z * option err * readcloser :=
  match rc with
  | RcChunks r =>
      let '(bs, e, r') := chunked_read r n in (bs, e, RcChunks r')
  | RcRotate rc val =>
      let '(bs, e, rc') := rc_read rc n in
      (map (rotate_byte val) bs, e, RcRotate rc' val)
  end.

(** [newRotateReadCloser]: Go's remainder keeps the sign of the dividend. *)
Definition newRotateReadCloser (rc : readcloser) (val : Z) : readcloser :=
  let val := Z.rem val 256 in
  RcRotate rc (if val <? 0 then val + 256 else val).

(** The bytes a reader still delivers, and the readers that deliver them without
    a read error and without empty reads. *)
Fixpoint rc_content (rc : readcloser) : list Z :=
  match rc with
  | RcChunks r => concat (chunks r)
  | RcRotate rc val => map (rotate_byte val) (rc_content rc)
  end.

Fixpoint rc_ok (rc : readcloser) : Prop :=
  match rc with
  | RcChunks r => Forall (fun c => c <> []) (chunks r) /\ fin r = None
  | RcRotate rc _ => rc_ok rc
  end.

(** What is handed to [Upload]: the bytes an [io.Reader] delivers to
    [io.ReadAll], and the error it ends with ([None] is [io.EOF]). *)
Record source := { src_data : list Z; src_err : option err }.

(** ** The interface *)

Record UploadResult := { FileKey : string; DeleteRef : string; UploadedAt : Z }.

(** [B] is the backend's state. [Upload] also tells how many bytes it consumed. *)
Class IBlockIO (B : Type) := {
  bio_name : B -> string;
  MaxFileSize : B -> Z;
  Upload : source -> B -> outcome UploadResult * Z * B;
  Download : string -> Z -> B -> outcome readcloser;
  DeleteBlocks : list string -> B -> outcome unit * B }.

(** What FileManager relies on. [bs_block] are the blocks that can be downloaded,
    from any offset; [bs_ref_key] are the delete references handed out so far and
    the block each stands for. An upload that succeeds stores its bytes under a key
    and a reference that were never handed out before; one that fails loses no
    block. [DeleteBlocks], whatever it returns, removes no block but those its
    references stand for, and removes all of these when it succeeds. *)
Class BlockStore (B : Type) `{!IBlockIO B} := {
  bs_inv : B -> Prop;
  bs_block : B -> string -> option (list Z);
  bs_ref_key : B -> string -> option string;
  bs_upload : forall src b res n b',
    bs_inv b -> Forall is_byte (src_data src) ->
    Upload src b = (Ok res, n, b') ->
    bs_inv b' /\ MaxFileSize b' = MaxFileSize b /\ bio_name b' = bio_name b /\
    src_err src = None /\ n = zlen (src_data src) /\
    (forall r, bs_ref_key b r <> Some (FileKey res)) /\
    bs_ref_key b (DeleteRef res) = None /\ bs_block b (FileKey res) = None /\
    (forall r, bs_ref_key b' r =
       if decide (r = DeleteRef res) then Some (FileKey res) else bs_ref_key b r) /\
    (forall k, bs_block b' k =
       if decide (k = FileKey res) then Some (src_data src) else bs_block b k);
  bs_upload_err : forall src b e n b',
    bs_inv b -> Forall is_byte (src_data src) ->
    Upload src b = (Err e, n, b') ->
    bs_inv b' /\ MaxFileSize b' = MaxFileSize b /\ bio_name b' = bio_name b /\
    (forall r, bs_ref_key b' r = bs_ref_key b r) /\
    (forall k, is_Some (bs_block b k) -> bs_block b' k = bs_block b k);
  bs_download : forall b k pos data,
    bs_inv b -> bs_block b k = Some data -> 0 <= pos ->
    exists rc, Download k pos b = Ok rc /\ rc_ok rc /\ rc_content rc = zdrop pos data;
  bs_delete : forall refs b res b',
    bs_inv b -> DeleteBlocks refs b = (res, b') ->
    bs_inv b' /\ MaxFileSize b' = MaxFileSize b /\ bio_name b' = bio_name b /\
    (forall r, bs_ref_key b' r = bs_ref_key b r) /\
    (forall k, (forall r, r ∈ refs -> bs_ref_key b r <> Some k) ->
       bs_block b' k = bs_block b k) /\
    (res = Ok tt -> forall r k, r ∈ refs -> bs_ref_key b r = Some k -> bs_block b' k = None) }.

(** ** mem (src/blockio/mem/mem_blockio.go) *)
Module Mem.
Section Mem.
(** [uuid.NewString] and [time.Now().UnixMilli], by call number. *)
Context (uuid : nat -> string) (unixMilli : nat -> Z).

Record memBlockIO := { bksize : Z; m : gmap string (list Z); calls : nat }.

Definition upload (src : source) (b : memBlockIO) : outcome UploadResult * Z * memBlockIO :=
  match src_err src with
  | Some e => (Err e, zlen (src_data src), b)
  | None =>
      let key := uuid (calls b) in
      (Ok {| FileKey := key; DeleteRef := key; UploadedAt := unixMilli (calls b) |},
       zlen (src_data src),
       {| bksize := bksize b; m := <[key := src_data src]> (m b); calls := S (calls b) |})
  end.

Definition download (filekey : string) (pos : Z) (b : memBlockIO) : outcome readcloser :=
  match m b !! filekey with
  | None => Err ErrNotExist
  | Some data =>
      let pos := if zlen data <? pos then zlen data else pos in
      if pos <? 0 then Err Panic
      else
        let rest := zdrop pos data in
        Ok (RcChunks {| chunks := match rest with [] => [] | _ => [rest] end;
                        fin := None; eager := false |})
  end.

Fixpoint deleteBlocks (deleteRefs : list string) (b : memBlockIO) : outcome unit * memBlockIO :=
  match deleteRefs with
  | [] => (Ok tt, b)
  | ref :: rest =>
      if decide (ref = "") then (Err ErrEmptyDeleteReference, b)
      else deleteBlocks rest
             {| bksize := bksize b; m := delete ref (m b); calls := calls b |}
  end.

Definition New (bksize : Z) : memBlockIO :=
  {| bksize := if bksize =? 0 then 4 * 1024 else bksize; m := ∅; calls := 0 |}.

#[global] Instance mem_blockio : IBlockIO memBlockIO := {
  bio_name _ := "mem";
  MaxFileSize := bksize;
  Upload := upload;
  Download := download;
  DeleteBlocks := deleteBlocks }.

Lemma deleteBlocks_spec refs b res b' :
  deleteBlocks refs b = (res, b') ->
  bksize b' = bksize b /\ calls b' = calls b /\
  (forall k, k ∉ refs -> m b' !! k = m b !! k) /\
  (forall k, m b !! k = None -> m b' !! k = None) /\
  (res = Ok tt -> forall k, k ∈ refs -> m b' !! k = None).
Proof.
  revert b. induction refs as [|r refs IH]; intros b; cbn [deleteBlocks].
  { intros [= <- <-]. split_and!; try done. intros _ k Hk. by apply elem_of_nil in Hk. }
  case_decide; [by intros [= <- <-]|]. intros Hrun.
  apply IH in Hrun as (-> & -> & Hout & Hnone & Hin). cbn [m] in *.
  split_and!; [done..| | |].
  - intros k Hk. rewrite Hout by set_solver. rewrite lookup_delete_ne by set_solver. done.
  - intros k Hk. apply Hnone. rewrite lookup_delete. by case_decide.
  - intros -> k [->|Hk]%elem_of_cons; [|by apply Hin].
    apply Hnone, lookup_delete_eq.
Qed.

(** uuid.NewString does not repeat. *)
Hypothesis uuid_inj : forall i j, uuid i = uuid j -> i = j.

Definition issued (b : memBlockIO) : list string := map uuid (seq 0 (calls b)).

Lemma issued_elem b k : k ∈ issued b <-> exists i, (i < calls b)%nat /\ k = uuid i.
Proof.
  unfold issued. rewrite list_elem_of_In, in_map_iff. setoid_rewrite in_seq.
  split; intros (i & H1 & H2); exists i; [split; [lia|done]|]. split; [done|lia].
Qed.

Lemma not_issued b : uuid (calls b) ∉ issued b.
Proof. rewrite issued_elem. intros (i & Hi & E%uuid_inj). lia. Qed.

#[global] Instance mem_block_store : BlockStore memBlockIO.
Proof.
  refine {|
    bs_inv b := forall k, is_Some (m b !! k) -> k ∈ issued b;
    bs_block b k := m b !! k;
    bs_ref_key b r := if decide (r ∈ issued b) then Some r else None |}.
  - intros src b res n b' Hinv _. cbn. unfold upload.
    destruct (src_err src) eqn:E; [done|]. intros [= <- <- <-]. cbn [FileKey DeleteRef m].
    assert (forall k, k ∈ issued {| bksize := bksize b; m := <[uuid (calls b):=src_data src]> (m b);
      calls := S (calls b) |} <-> k = uuid (calls b) \/ k ∈ issued b) as Hiss.
    { intros k. unfold issued. cbn [calls]. rewrite seq_S, map_app. set_solver. }
    pose proof (not_issued b) as Hnew. split_and!; try done.
    + intros k [d Hd]. apply Hiss. destruct (decide (k = uuid (calls b))) as [->|Hne]; [by left|].
      rewrite lookup_insert_ne in Hd by done. right. apply Hinv. by eexists.
    + intros r Hr. case_decide; [|done]. injection Hr as ->. done.
    + by rewrite decide_False.
    + destruct (m b !! uuid (calls b)) eqn:El; [|done]. exfalso. apply Hnew, Hinv. by eexists.
    + intros r. repeat case_decide; subst; try done; exfalso; set_solver.
    + intros k. rewrite lookup_insert. do 2 case_decide; congruence.
  - intros src b e n b' Hinv _. cbn. unfold upload.
    destruct (src_err src) eqn:E; [|done]. by intros [= <- <- <-].
  - intros b k pos data Hinv Hk Hpos. cbn. unfold download. rewrite Hk.
    set (p := if zlen data <? pos then zlen data else pos).
    assert (0 <= p) as Hp by (subst p; case_match; [apply zlen_nonneg | lia]).
    destruct (Z.ltb_spec p 0); [lia|].
    assert (zdrop p data = zdrop pos data) as ->.
    { subst p. destruct (Z.ltb_spec (zlen data) pos); [|done].
      by rewrite !zdrop_ge by lia. }
    eexists. split; [done|]. simpl. destruct (zdrop pos data) eqn:E; simpl; split; try done.
    + by repeat constructor.
    + by rewrite app_nil_r.
  - intros refs b res b' Hinv Hrun. cbn in Hrun. cbn.
    apply deleteBlocks_spec in Hrun as (-> & Hcalls & Hout & Hnone & Hin).
    assert (issued b' = issued b) as Hiss by (unfold issued; by rewrite Hcalls).
    split_and!; try done.
    + intros k [d Hd]. rewrite Hiss. apply Hinv. destruct (m b !! k) eqn:E; [by eexists|].
      by rewrite Hnone in Hd.
    + intros r. by rewrite Hiss.
    + intros k Hk. destruct (decide (k ∈ refs)) as [Hr|]; [|by apply Hout].
      specialize (Hk k Hr). case_decide as Hi; [done|].
      destruct (m b !! k) eqn:E; [|by apply Hnone]. exfalso. apply Hi, Hinv. by eexists.
    + intros Hres r k Hr. case_decide; [|done]. intros [= ->]. by apply Hin.
Defined.
End Mem.
End Mem.

(** ** rotate (src/blockio/rotate_io.go) *)
Module Rotate.
Section Rotate.
Context {B : Type} `{!IBlockIO B}.

Record rotateIO := { impl : B; rotateVal : Z }.

(** The bytes the wrapped [Upload] reads through the rotating reader. *)
Definition rotate_source (src : source) (val : Z) : source :=
  let val := Z.rem val 256 in
  let val := if val <? 0 then val + 256 else val in
  {| src_data := map (rotate_byte val) (src_data src); src_err := src_err src |}.

Definition upload (src : source) (r : rotateIO) : outcome UploadResult * Z * rotateIO :=
  let '(res, n, impl') := Upload (rotate_source src (rotateVal r)) (impl r) in
  (res, n, {| impl := impl'; rotateVal := rotateVal r |}).

Definition download (filekey : string) (pos : Z) (r : rotateIO) : outcome readcloser :=
  match Download filekey pos (impl r) with
  | Err e => Err e
  | Ok rc => Ok (newRotateReadCloser rc (- rotateVal r))
  end.

Definition deleteBlocks (deleteRefs : list string) (r : rotateIO) : outcome unit * rotateIO :=
  let '(res, impl') := DeleteBlocks deleteRefs (impl r) in
  (res, {| impl := impl'; rotateVal := rotateVal r |}).

#[global] Instance rotate_blockio : IBlockIO rotateIO := {
  bio_name r := bio_name (impl r);
  MaxFileSize r := MaxFileSize (impl r);
  Upload := upload;
  Download := download;
  DeleteBlocks := deleteBlocks }.

(** [NewRotateIO] wraps only for a positive value. *)
Definition NewRotateIO (impl : B) (rotateVal : Z) : B + rotateIO :=
  if rotateVal <=? 0 then inl impl
  else inr {| impl := impl; rotateVal := rotateVal |}.

Definition norm (val : Z) : Z :=
  let val := Z.rem val 256 in if val <? 0 then val + 256 else val.

Lemma norm_mod val : norm val = val `mod` 256.
Proof.
  unfold norm. destruct (Z.ltb_spec (Z.rem val 256) 0) as [Hlt|Hge];
    Z.to_euclidean_division_equations; lia.
Qed.

Lemma rotate_inverse val b : is_byte b -> rotate_byte (norm (- val)) (rotate_byte (norm val) b) = b.
Proof.
  intros Hb. unfold rotate_byte. rewrite !norm_mod, Z.add_mod_idemp_r by lia.
  rewrite Z.add_mod_idemp_r, Z.add_mod_idemp_l by lia.
  replace (b + val + - val) with b by lia. by apply Z.mod_small.
Qed.

Lemma map_rotate_inverse val l :
  Forall is_byte l -> map (rotate_byte (norm (- val))) (map (rotate_byte (norm val)) l) = l.
Proof. induction 1 as [|b l Hb Hl IH]; simpl; [done|]. by rewrite rotate_inverse, IH. Qed.

Lemma rotate_bytes val l : Forall is_byte (map (rotate_byte val) l).
Proof.
  induction l; simpl; constructor; [|done]. unfold is_byte, rotate_byte.
  apply Z.mod_pos_bound. lia.
Qed.

(** The wrapper keeps the wrapped backend's contract. *)
Context `{!BlockStore B}.

#[global] Instance rotate_block_store : BlockStore rotateIO.
Proof.
  refine {|
    bs_inv r := bs_inv (impl r);
    bs_block r k := map (rotate_byte (norm (- rotateVal r))) <$> bs_block (impl r) k;
    bs_ref_key r ref := bs_ref_key (impl r) ref |}.
  - intros src r res n r' Hinv Hsrc. cbn. unfold upload.
    destruct (Upload _ _) as [[res' n'] impl'] eqn:E. intros [= -> -> <-]. simpl.
    apply bs_upload in E as (? & ? & ? & He & Hn & Hk & Href & Hnone & Href' & Hb);
      [|done|apply rotate_bytes].
    simpl in *. split_and!; try done.
    + unfold zlen in *. by rewrite length_map in Hn.
    + by rewrite Hnone.
    + intros k. rewrite Hb. case_decide; [|done]. simpl. f_equal.
      by apply map_rotate_inverse.
  - intros src r e n r' Hinv Hsrc. cbn. unfold upload.
    destruct (Upload _ _) as [[res' n'] impl'] eqn:E. intros [= -> -> <-]. simpl.
    apply bs_upload_err in E as (? & ? & ? & ? & Hb); [|done|apply rotate_bytes].
    split_and!; try done. intros k [d Hd]. rewrite Hb; [done|].
    destruct (bs_block (impl r) k); [by eexists|done].
  - intros r k pos data Hinv Hk Hpos. cbn. unfold download.
    apply fmap_Some in Hk as (d & Hd & ->).
    destruct (bs_download (impl r) k pos d) as (rc & -> & Hok & Hc); [done..|].
    eexists. split; [done|]. unfold newRotateReadCloser. split; [done|].
    simpl. rewrite Hc. unfold zdrop. by rewrite skipn_map.
  - intros refs r res r' Hinv. cbn. unfold deleteBlocks.
    destruct (DeleteBlocks _ _) as [res' impl'] eqn:E. intros [= -> <-]. simpl.
    apply bs_delete in E as (? & ? & ? & ? & Hkeep & Hgone); [|done]. split_and!; try done.
    + intros k Hk. by rewrite Hkeep.
    + intros -> ref k Hr Hk. by rewrite (Hgone eq_refl ref k).
Defined.
End Rotate.
Arguments rotateIO B : clear implicits.
End Rotate.

(** ** Lemmas on readers *)

Lemma chunked_read_spec r n bs e r' :
  0 < n -> Forall (fun c => c <> []) (chunks r) -> fin r = None ->
  chunked_read r n = (bs, e, r') ->
  concat (chunks r) = bs ++ concat (chunks r') /\ zlen bs <= n /\
  Forall (fun c => c <> []) (chunks r') /\ fin r' = None /\
  ((e = Some EOF /\ chunks r' = []) \/ (e = None /\ bs <> [])).
Proof.
  intros Hn Hne Hfin. unfold chunked_read, fin_err. rewrite Hfin.
  destruct (chunks r) as [|c cs] eqn:Ec.
  { intros [= <- <- <-]. rewrite Ec, Hfin. split_and!; try done; [unfold zlen; simpl; lia|by left]. }
  apply Forall_cons in Hne as [Hc Hcs].
  destruct (Z.leb_spec (zlen c) n) as [Hle|Hgt].
  - intros [= <- <- <-]. simpl. split_and!; try done.
    destruct (eager r && bool_decide (cs = [])) eqn:Ee; [left|by right].
    apply andb_true_iff in Ee as [_ Ee]. by apply bool_decide_eq_true in Ee.
  - intros [= <- <- <-]. simpl. unfold ztake, zdrop. split_and!; try done.
    + by rewrite app_assoc, take_drop.
    + unfold zlen. rewrite length_take. lia.
    + constructor; [|done]. intros E. apply (f_equal length) in E.
      rewrite length_drop in E. unfold zlen in Hgt. simpl in E. lia.
    + right. split; [done|]. intros E. apply (f_equal length) in E.
      rewrite length_take in E. unfold zlen in Hgt. simpl in E. lia.
Qed.

(** [Read] on a sound reader: the bytes are the next ones, the end is announced
    only at the end, and a call without error makes progress. *)
Lemma rc_read_spec rc n bs e rc' :
  0 < n -> rc_ok rc -> rc_read rc n = (bs, e, rc') ->
  rc_content rc = bs ++ rc_content rc' /\ zlen bs <= n /\ rc_ok rc' /\
  ((e = Some EOF /\ rc_content rc' = []) \/ (e = None /\ bs <> [])).
Proof.
  intros Hn. revert bs e rc'. induction rc as [r|rc IH val]; intros bs e rc' Hok; simpl.
  - destruct Hok as [Hne Hfin].
    destruct (chunked_read r n) as [[bs0 e0] r0] eqn:E. intros [= <- <- <-].
    apply chunked_read_spec in E as (-> & ? & ? & ? & Hend); [|done..].
    split_and!; try done. destruct Hend as [[? Hnil]|?]; [left|by right].
    simpl. by rewrite Hnil.
  - simpl in Hok. destruct (rc_read rc n) as [[bs0 e0] rc0] eqn:E. intros [= <- <- <-].
    destruct (IH _ _ _ Hok eq_refl) as (-> & Hl & Hok' & Hend). simpl.
    rewrite map_app. unfold zlen in *. rewrite length_map. split_and!; try done.
    destruct Hend as [[? Hnil]|[? Hne]]; [left|right]; [by rewrite Hnil|].
    split; [done|]. by destruct bs0.
Qed.
