(* ===== verification/FileStream.v ===== *)
(** * The stream over the blocks of one physical file (src/filemgr/file_stream.go)

    [defaultFsIO] reads a file block by block through a [Download] per block.
    [stored_file] says what the store must hold for a file's content, and the
    theorems say that any sequence of reads delivers exactly that content, from
    any position reached by [Seek], and then [io.EOF]. *)

From stdpp Require Import base strings list gmap.
From Stdlib Require Import Ascii.
From S2P Require Import Prelude Crc BlockIO.

(** [github.com/xxxsen/common/retry]: it gives the result of the first call that
    succeeds, and an error when none does. *)
Class RetryLib := {
  RetryDo : forall {A}, nat -> Z -> outcome A -> outcome A;
  RetryDo_ok : forall A n delay (a : A), RetryDo n delay (Ok a) = Ok a;
  RetryDo_err : forall A n delay e, exists e', RetryDo (A := A) n delay (Err e) = Err e' }.

Definition maxFilePartCount : Z := 100000.

(** [io.SeekStart], [io.SeekCurrent] and [io.SeekEnd]. *)
Definition SeekStart : Z := 0.
Definition SeekCurrent : Z := 1.
Definition SeekEnd : Z := 2.

Module FileStream.
Section FileStream.
Context {B : Type} `{!IBlockIO B} `{!RetryLib}.

(** The store, and the lookup of a block's file key, are the two collaborators
    [bkio] and [b2f] of the Go struct. *)
Record defaultFsIO := {
  fsize : Z;
  isOpen : bool;
  cursor : Z;
  tmpReader : option readcloser }.

Definition newFileStream (fsize : Z) : defaultFsIO :=
  {| fsize := fsize; isOpen := true; cursor := 0; tmpReader := None |}.

Definition calcOffset (f : defaultFsIO) (offset whence : Z) : Z :=
  if whence =? SeekStart then offset
  else if whence =? SeekCurrent then wrap64 (cursor f + offset)
  else if whence =? SeekEnd then wrap64 (fsize f + offset)
  else cursor f.

Definition close_tmp (f : defaultFsIO) : defaultFsIO :=
  {| fsize := fsize f; isOpen := isOpen f; cursor := cursor f; tmpReader := None |}.

Definition Seek (f : defaultFsIO) (offset whence : Z) : Z * option err * defaultFsIO :=
  if negb (isOpen f) then (0, Some ErrFileNotOpen, f)
  else
    let f := close_tmp f in
    let cur := calcOffset f offset whence in
    if cur <? 0 then (0, Some ErrInvalidOffset, f)
    else if fsize f <? cur then (fsize f, Some ErrSeekPastEnd, f)
    else (cur, None,
          {| fsize := fsize f; isOpen := isOpen f; cursor := cur; tmpReader := tmpReader f |}).

Definition Close (f : defaultFsIO) : defaultFsIO :=
  {| fsize := fsize f; isOpen := false; cursor := cursor f; tmpReader := None |}.

Section Read.
Context (bkio : B) (b2f : Z -> outcome string).

Definition retryGetDownloadStream (filekey : string) (pos : Z) : outcome readcloser :=
  RetryDo 3 1000 (Download filekey pos bkio).

Definition openCurrentPart (f : defaultFsIO) : outcome defaultFsIO :=
  if cursor f =? fsize f then Err EOF
  else
    let blockSize := MaxFileSize bkio in
    if blockSize <=? 0 then Err ErrInvalidBlockSize
    else
      let blockID := Z.quot (cursor f) blockSize in
      let position := Z.rem (cursor f) blockSize in
      if (blockID <? 0) || (maxFilePartCount <? blockID) then Err ErrInvalidFilePart
      else
        fileKey ← b2f blockID;
        reader ← retryGetDownloadStream fileKey position;
        Ok {| fsize := fsize f; isOpen := isOpen f; cursor := cursor f;
              tmpReader := Some reader |}.

(** [f.tmpReader.Read(b)] and what follows it in [read]. *)
Definition read_open (f : defaultFsIO) (rc : readcloser) (n : Z)
    : list Z * option err * defaultFsIO :=
  let '(bs, e, rc') := rc_read rc n in
  match e with
  | Some EOF =>
      (bs, None, {| fsize := fsize f; isOpen := isOpen f;
                    cursor := cursor f + zlen bs; tmpReader := None |})
  | Some e =>
      (bs, Some e, {| fsize := fsize f; isOpen := isOpen f;
                      cursor := cursor f; tmpReader := Some rc' |})
  | None =>
      (bs, None, {| fsize := fsize f; isOpen := isOpen f;
                    cursor := cursor f + zlen bs; tmpReader := Some rc' |})
  end.

(** [Read(b)] with [len(b) = n] (it logs and returns what [read] returns). *)
Definition Read (f : defaultFsIO) (n : Z) : list Z * option err * defaultFsIO :=
  if negb (isOpen f) then ([], Some ErrFileNotOpen, f)
  else
    match tmpReader f with
    | Some rc => read_open f rc n
    | None =>
        match openCurrentPart f with
        | Err e => ([], Some e, f)
        | Ok f' =>
            match tmpReader f' with
            | Some rc => read_open f' rc n
            | None => ([], Some Panic, f')
            end
        end
    end.

(** [io.ReadAll] and the like: reads until [io.EOF], with a buffer of [sizes i]
    bytes at the [i]-th call. *)
Fixpoint ReadAll (fuel : nat) (sizes : nat -> Z) (f : defaultFsIO)
    : outcome (list Z) :=
  match fuel with
  | O => Err Diverge
  | S fuel =>
      match Read f (sizes fuel) with
      | (bs, Some EOF, _) => Ok bs
      | (_, Some e, _) => Err e
      | (bs, None, f') => rest ← ReadAll fuel sizes f'; Ok (bs ++ rest)
      end
  end.

(** ** What the store holds for a file *)
Context `{!BlockStore B}.

Definition stored_file (content : list Z) : Prop :=
  bs_inv bkio /\ 0 < MaxFileSize bkio /\
  zlen content <= maxFilePartCount * MaxFileSize bkio /\
  forall i, 0 <= i -> i * MaxFileSize bkio < zlen content ->
    exists key, b2f i = Ok key /\
      bs_block bkio key = Some (ztake (MaxFileSize bkio) (zdrop (i * MaxFileSize bkio) content)).

(** The stream's invariant: an open reader stands at the cursor and ends at the
    end of a block or of the file. *)
Definition stream_ok (content : list Z) (f : defaultFsIO) : Prop :=
  isOpen f = true /\ fsize f = zlen content /\ 0 <= cursor f <= fsize f /\
  forall rc, tmpReader f = Some rc ->
    rc_ok rc /\ exists last, cursor f <= last <= fsize f /\
      (last = fsize f \/ (0 < last /\ last `mod` MaxFileSize bkio = 0)) /\
      rc_content rc = ztake (last - cursor f) (zdrop (cursor f) content).

Lemma newFileStream_ok content : stream_ok content (newFileStream (zlen content)).
Proof. split_and!; try done; simpl; auto with go. Qed.

Lemma close_tmp_ok content f : stream_ok content f -> stream_ok content (close_tmp f).
Proof. unfold stream_ok, close_tmp; simpl. naive_solver. Qed.

Section Stored.
Context (content : list Z) (Hst : stored_file content).

Lemma openCurrentPart_ok f :
  stream_ok content f -> cursor f <> fsize f ->
  exists f' rc, openCurrentPart f = Ok f' /\ stream_ok content f' /\
    tmpReader f' = Some rc /\ rc_content rc <> [] /\
    cursor f' = cursor f /\ fsize f' = fsize f.
Proof.
  intros (Hopen & Hsize & Hcur & _) Hne.
  destruct Hst as (Hinv & Hbs & Hmax & Hblocks).
  set (bs := MaxFileSize bkio) in *. unfold openCurrentPart. fold bs.
  destruct (Z.eqb_spec (cursor f) (fsize f)); [done|].
  destruct (Z.leb_spec bs 0); [lia|].
  rewrite Z.quot_div_nonneg, Z.rem_mod_nonneg by lia.
  pose proof (Z.div_mod (cursor f) bs ltac:(lia)) as Hdm.
  pose proof (Z.mod_pos_bound (cursor f) bs ltac:(lia)) as Hmod.
  set (i := cursor f / bs) in *. set (pos := cursor f `mod` bs) in *.
  assert (0 <= i) as Hi by (by apply Z.div_pos; lia).
  assert (i < maxFilePartCount) by nia.
  destruct (Z.ltb_spec i 0); [lia|]. destruct (Z.ltb_spec maxFilePartCount i); [lia|].
  destruct (Hblocks i Hi) as (key & Hkey & Hblock); [nia|].
  destruct (bs_download bkio key pos _ Hinv Hblock) as (rc & Hd & Hrc & Hcont); [lia|].
  cbn [orb]. rewrite Hkey. cbn [mbind outcome_bind]. unfold retryGetDownloadStream.
  rewrite Hd, RetryDo_ok. cbn [mbind outcome_bind].
  assert (rc_content rc = ztake (bs - pos) (zdrop (cursor f) content)) as Hc.
  { rewrite Hcont. unfold ztake, zdrop. rewrite skipn_firstn_comm, drop_drop.
    f_equal; [lia|]. f_equal. lia. }
  assert (zlen (rc_content rc) = Z.min (bs - pos) (fsize f - cursor f)) as Hlen.
  { rewrite Hc, zlen_ztake, zlen_zdrop by lia. lia. }
  do 2 eexists. split_and!; simpl; try done; try lia.
  - unfold stream_ok; simpl. split_and!; try done; try lia.
    intros rc' [= <-]. split; [done|].
    exists (Z.min ((i + 1) * bs) (fsize f)).
    split_and!; try nia.
    + destruct (Z.le_ge_cases (fsize f) ((i + 1) * bs)); [left; lia|right].
      rewrite Z.min_l by lia. split; [nia|]. apply Z.mod_mul. lia.
    + rewrite Hc. destruct (Z.le_ge_cases (fsize f) ((i + 1) * bs)).
      * rewrite Z.min_r by lia. rewrite !ztake_ge; [done|rewrite zlen_zdrop by lia; lia|].
        rewrite zlen_zdrop by lia. nia.
      * rewrite Z.min_l by lia. f_equal. nia.
  - intros E. rewrite E in Hlen. unfold zlen in Hlen at 1. simpl in Hlen. lia.
Qed.

(** What a call to [Read] with a non-empty buffer does: the bytes are the next
    ones; nothing is lost; the end is announced only at the end; a call that
    delivers nothing closes an exhausted block reader. *)
Definition read_post (f : defaultFsIO) (n : Z) (r : list Z * option err * defaultFsIO) : Prop :=
  let '(bs, e, f') := r in
  stream_ok content f' /\ zlen bs <= n /\ fsize f' = fsize f /\
  cursor f' = cursor f + zlen bs /\
  zdrop (cursor f) content = bs ++ zdrop (cursor f') content /\
  ((e = Some EOF /\ bs = [] /\ cursor f = fsize f) \/
   (e = None /\
    (bs <> [] \/
     (is_Some (tmpReader f) /\ tmpReader f' = None /\
      (cursor f = fsize f \/ (0 < cursor f /\ cursor f `mod` MaxFileSize bkio = 0)))))).

Lemma read_open_ok f rc n :
  0 < n -> stream_ok content f -> tmpReader f = Some rc ->
  read_post f n (read_open f rc n) /\ ((read_open f rc n).1.1 = [] -> rc_content rc = []).
Proof.
  intros Hn (Hopen & Hsize & Hcur & Hrd) Hrc. unfold read_open.
  destruct (Hrd rc Hrc) as (Hok & last & Hlast & Hend & Hcont).
  destruct (rc_read rc n) as [[bs e] rc'] eqn:E.
  apply rc_read_spec in E as (Hcat & Hl & Hok' & Hres); [|done..].
  assert (bs = [] -> rc_content rc = []) as Hempty.
  { intros ->. rewrite Hcat. destruct Hres as [[_ ->]|[_ []]]; done. }
  rewrite Hcont in Hcat.
  assert (zlen bs <= last - cursor f) as Hbs.
  { apply (f_equal zlen) in Hcat. rewrite zlen_app, zlen_ztake, zlen_zdrop in Hcat by lia.
    pose proof (zlen_nonneg (rc_content rc')). lia. }
  pose proof (zlen_nonneg bs) as Hbs0.
  assert (exists tail, zdrop (cursor f) content = bs ++ tail) as [tail Htail].
  { exists (rc_content rc' ++ zdrop (last - cursor f) (zdrop (cursor f) content)).
    rewrite app_assoc, <- Hcat. unfold ztake, zdrop. by rewrite take_drop. }
  pose proof (zdrop_prefix _ _ _ _ (proj1 Hcur) Htail) as ->.
  assert (rc_content rc' = ztake (last - (cursor f + zlen bs)) (zdrop (cursor f + zlen bs) content)) as Hc'.
  { rewrite Htail in Hcat. unfold ztake in Hcat. rewrite take_app_ge in Hcat
      by (unfold zlen in Hbs; lia). apply app_inv_head in Hcat. rewrite <- Hcat.
    unfold ztake. f_equal. unfold zlen. lia. }
  destruct Hres as [[-> Hnil]|[-> Hne]]; simpl.
  - assert (bs = [] -> cursor f = last) as Hz.
    { intros ->. rewrite Hnil in Hcat. simpl in Hcat. apply (f_equal zlen) in Hcat.
      rewrite zlen_ztake, zlen_zdrop in Hcat by lia. unfold zlen in Hcat at 2. simpl in Hcat. lia. }
    split; [|done]. unfold stream_ok; simpl. split_and!; try done; try lia.
    right. split; [done|]. destruct (decide (bs = [])) as [->|]; [right|by left].
    rewrite (Hz eq_refl). split_and!; [by rewrite Hrc|done|].
    destruct Hend as [->|[? ?]]; [by left|by right].
  - split; [|done]. unfold stream_ok; simpl. split_and!; try done; try lia.
    + intros rc0 [= <-]. split; [done|]. exists last. split_and!; [lia|lia|done|done].
    + right. split; [done|by left].
Qed.

Lemma Read_ok f n : 0 < n -> stream_ok content f -> read_post f n (Read f n).
Proof.
  intros Hn Hf. pose proof Hf as (Hopen & Hsize & Hcur & Hrd). unfold Read.
  rewrite Hopen. cbn [negb]. destruct (tmpReader f) as [rc|] eqn:Hrc.
  { by apply read_open_ok. }
  destruct (decide (cursor f = fsize f)) as [Heq|Hne].
  - unfold openCurrentPart. rewrite (proj2 (Z.eqb_eq _ _) Heq).
    split_and!; try done; [unfold zlen; simpl; lia..|by left].
  - destruct (openCurrentPart_ok f Hf Hne) as (f' & rc & -> & Hf' & Hrc' & Hrcne & Hc & Hs).
    rewrite Hrc'. destruct (read_open_ok f' rc n Hn Hf' Hrc') as [Hpost Hnil].
    destruct (read_open f' rc n) as [[bs e] f'']. simpl in Hnil.
    assert (bs <> []) by (intros ->; by apply Hrcne, Hnil).
    destruct Hpost as (? & ? & ? & ? & ? & Hres). rewrite Hc, Hs in *.
    split_and!; try done. destruct Hres as [(? & ? & ?)|(? & _)]; [done|]. right. by split; [|left].
Qed.

(** The calls [ReadAll] makes from a state: each delivers a byte or closes a
    reader. *)
Definition reads_left (f : defaultFsIO) : Z :=
  2 * (fsize f - cursor f) + (if tmpReader f then 1 else 0).

Lemma ReadAll_ok fuel sizes f :
  (forall i, 0 < sizes i) -> stream_ok content f -> reads_left f < Z.of_nat fuel ->
  ReadAll fuel sizes f = Ok (zdrop (cursor f) content).
Proof.
  intros Hsz. revert f. induction fuel as [|fuel IH]; intros f Hf Hfuel.
  { destruct Hf as (_ & _ & ? & _). unfold reads_left in Hfuel. destruct (tmpReader f); lia. }
  cbn [ReadAll]. pose proof (Read_ok f (sizes fuel) (Hsz fuel) Hf) as Hpost.
  destruct (Read f (sizes fuel)) as [[bs e] f'].
  destruct Hpost as (Hf' & _ & Hs & Hc & Hcat & [(-> & -> & Heq)|(-> & Hprog)]).
  - rewrite Hcat. by rewrite Hc, zdrop_ge by (destruct Hf as (_ & <- & _); unfold zlen; simpl; lia).
  - rewrite (IH f'); [cbn [mbind outcome_bind]; by rewrite Hcat|done|].
    destruct Hf' as (_ & _ & ? & _). unfold reads_left in *. rewrite Hs, Hc in *.
    destruct Hprog as [Hne|([rc Hrc] & Hnone & _)].
    + assert (0 < zlen bs) by (unfold zlen; destruct bs; simpl; [done|lia]).
      destruct (tmpReader f), (tmpReader f'); lia.
    + rewrite Hrc, Hnone in *. pose proof (zlen_nonneg bs). lia.
Qed.

Lemma Seek_ok f offset whence :
  stream_ok content f ->
  let '(pos, e, f') := Seek f offset whence in
  stream_ok content f' /\ tmpReader f' = None /\
  match e with
  | None => pos = calcOffset f offset whence /\ 0 <= pos <= fsize f /\ cursor f' = pos
  | Some e => cursor f' = cursor f /\
      (e = ErrInvalidOffset /\ calcOffset f offset whence < 0 \/
       e = ErrSeekPastEnd /\ fsize f < calcOffset f offset whence)
  end.
Proof.
  intros Hf. pose proof Hf as (Hopen & Hsize & Hcur & _). unfold Seek.
  rewrite Hopen. cbn [negb].
  change (calcOffset (close_tmp f) offset whence) with (calcOffset f offset whence).
  destruct (Z.ltb_spec (calcOffset f offset whence) 0).
  { split; [by apply close_tmp_ok|]. split; [done|]. split; [done|by left]. }
  simpl. destruct (Z.ltb_spec (fsize f) (calcOffset f offset whence)).
  { split; [by apply (close_tmp_ok _ f)|]. split; [done|]. split; [done|by right]. }
  unfold stream_ok; simpl. split_and!; done || lia.
Qed.
End Stored.

Lemma read_from content offset sizes fuel :
  stored_file content -> 0 <= offset <= zlen content -> (forall i, 0 < sizes i) ->
  2 * zlen content < Z.of_nat fuel ->
  let '(pos, e, f) := Seek (newFileStream (zlen content)) offset SeekStart in
  pos = offset /\ e = None /\ ReadAll fuel sizes f = Ok (zdrop offset content).
Proof.
  intros Hst Hoff Hsz Hfuel.
  pose proof (Seek_ok content (newFileStream (zlen content)) offset SeekStart
    (newFileStream_ok content)) as Hseek.
  change (calcOffset _ _ _) with offset in Hseek.
  destruct (Seek _ _ _) as [[pos [e|]] f].
  { destruct Hseek as (_ & _ & _ & [[_ ?]|[_ ?]]); simpl in *; lia. }
  destruct Hseek as (Hf & Hnone & -> & _ & Hc). split_and!; [done..|].
  rewrite (ReadAll_ok content Hst), Hc; [done..|].
  destruct Hf as (_ & Hsize & ? & _). unfold reads_left. rewrite Hnone, Hsize, Hc. lia.
Qed.

(** The stream stands at the start when it is opened. *)
Lemma read_stored content sizes fuel :
  stored_file content -> (forall i, 0 < sizes i) -> 2 * zlen content < Z.of_nat fuel ->
  ReadAll fuel sizes (newFileStream (zlen content)) = Ok content.
Proof.
  intros Hst Hsz Hfuel. pose proof (zlen_nonneg content).
  pose proof (read_from content 0 sizes fuel Hst ltac:(lia) Hsz Hfuel) as Hr.
  unfold Seek in Hr. cbn [isOpen newFileStream negb fsize close_tmp] in Hr.
  change (calcOffset _ _ _) with 0 in Hr. cbn [Z.ltb Z.compare] in Hr.
  rewrite (proj2 (Z.ltb_ge (zlen content) 0)) in Hr by lia. by destruct Hr as (_ & _ & Hr).
Qed.

(** ** Any use of the stream *)

(** The calls a reader makes, and what they answer. *)
Inductive call := CSeek (offset whence : Z) | CRead (n : Z).
Inductive reply := RSeek (pos : Z) (e : option err) | RRead (bs : list Z) (e : option err).

Definition do_call (f : defaultFsIO) (c : call) : reply * defaultFsIO :=
  match c with
  | CSeek offset whence => let '(pos, e, f') := Seek f offset whence in (RSeek pos e, f')
  | CRead n => let '(bs, e, f') := Read f n in (RRead bs e, f')
  end.
Fixpoint do_calls (f : defaultFsIO) (l : list call) : list reply * defaultFsIO :=
  match l with
  | [] => ([], f)
  | c :: l => let '(r, f1) := do_call f c in let '(rs, f2) := do_calls f1 l in (r :: rs, f2)
  end.

(** What [io.ReadSeeker] asks of a reader of [content] that stands at [pos]: the place that
    [Seek] means, as an integer; a [whence] that does not exist means where the reader is. *)
Definition place (size pos offset whence : Z) : Z :=
  if whence =? 0 then offset else if whence =? 1 then pos + offset
  else if whence =? 2 then size + offset else pos.

Inductive answers (content : list Z) : Z -> call -> reply -> Z -> Prop :=
| seek_inside pos offset whence t :
    t = place (zlen content) pos offset whence -> 0 <= t <= zlen content ->
    answers content pos (CSeek offset whence) (RSeek t None) t
| seek_before pos offset whence r :
    place (zlen content) pos offset whence < 0 ->
    answers content pos (CSeek offset whence) (RSeek r (Some ErrInvalidOffset)) pos
| seek_behind pos offset whence r e :
    zlen content < place (zlen content) pos offset whence ->
    e = ErrSeekPastEnd \/ (e = ErrInvalidOffset /\ 2 ^ 63 <= place (zlen content) pos offset whence) ->
    answers content pos (CSeek offset whence) (RSeek r (Some e)) pos
| read_bytes pos n bs :
    zlen bs <= n -> zdrop pos content = bs ++ zdrop (pos + zlen bs) content ->
    answers content pos (CRead n) (RRead bs None) (pos + zlen bs)
| read_end n :
    answers content (zlen content) (CRead n) (RRead [] (Some EOF)) (zlen content).

Inductive answers_all (content : list Z) : Z -> list call -> list reply -> Z -> Prop :=
| all_nil pos : answers_all content pos [] [] pos
| all_cons pos c r pos1 l rs pos2 :
    answers content pos c r pos1 -> answers_all content pos1 l rs pos2 ->
    answers_all content pos (c :: l) (r :: rs) pos2.

Definition call_ok (c : call) : Prop :=
  match c with CSeek offset _ => - 2 ^ 63 <= offset < 2 ^ 63 | CRead n => 0 < n end.

Lemma wrap64_over z : 2 ^ 63 <= z < 2 ^ 64 -> wrap64 z < 0.
Proof.
  intros Hz. unfold wrap64. rewrite Z.mod_small by lia. case_match; lia.
Qed.

Lemma do_call_ok content f c :
  stored_file content -> zlen content < 2 ^ 63 -> call_ok c -> stream_ok content f ->
  answers content (cursor f) c (do_call f c).1 (cursor (do_call f c).2) /\ stream_ok content (do_call f c).2.
Proof.
  intros Hst Hlen Hc Hf. pose proof Hf as (_ & Hsize & Hcur & _). destruct c as [offset whence|n]; cbn in Hc |- *.
  - pose proof (Seek_ok content f offset whence Hf) as Hs. destruct (Seek f offset whence) as [[pos e] f']; cbn.
    destruct Hs as (Hf' & _ & Hs). split; [|done].
    assert (calcOffset f offset whence = place (zlen content) (cursor f) offset whence \/
            (2 ^ 63 <= place (zlen content) (cursor f) offset whence /\ calcOffset f offset whence < 0)) as Hpl.
    { rewrite <- Hsize in *. unfold calcOffset, place, SeekStart, SeekCurrent, SeekEnd. repeat case_match; try (by left).
      all: match goal with |- wrap64 ?x = _ \/ _ => destruct (Z.lt_ge_cases x (2 ^ 63)) end.
      all: first [left; apply wrap64_id; unfold int64; lia | right; split; [done|apply wrap64_over; lia]]. }
    destruct e as [e|].
    + destruct Hs as (-> & Hs). destruct Hs as [[-> Hlt]|[-> Hlt]].
      * destruct Hpl as [E|[Hbig _]]; [rewrite E in Hlt; by constructor|]. constructor; [lia|by right].
      * destruct Hpl as [E|[_ Hneg]]; [|lia]. rewrite E in Hlt. constructor; [lia|by left].
    + destruct Hs as (-> & Hin & ->). destruct Hpl as [E|[_ Hneg]]; [|lia]. constructor; [done|lia].
  - pose proof (Read_ok content Hst f n Hc Hf) as Hr. unfold read_post in Hr.
    destruct (Read f n) as [[bs e] f']; cbn. destruct Hr as (Hf' & Hn & _ & Hc' & Hd & Hr). split; [|done].
    rewrite Hc'. rewrite Hc' in Hd. destruct Hr as [(-> & -> & Hend)|(-> & _)]; [|by constructor].
    rewrite Hend, Hsize. change (zlen []) with 0. rewrite Z.add_0_r. constructor.
Qed.

Lemma do_calls_ok content f l :
  stored_file content -> zlen content < 2 ^ 63 -> Forall call_ok l -> stream_ok content f ->
  answers_all content (cursor f) l (do_calls f l).1 (cursor (do_calls f l).2) /\ stream_ok content (do_calls f l).2.
Proof.
  intros Hst Hlen Hl. revert f. induction Hl as [|c l Hc _ IH]; intros f Hf; cbn [do_calls]; [by split; [constructor|]|].
  pose proof (do_call_ok content f c Hst Hlen Hc Hf) as [Ha Hf1]. destruct (do_call f c) as [r f1]. cbn in Ha, Hf1.
  pose proof (IH f1 Hf1) as [Hall Hf2]. destruct (do_calls f1 l) as [rs f2]. cbn in *. split; [|done]. by econstructor.
Qed.

(** C33: Whatever seeks and reads a caller makes, the stream behaves as a reader of the
    file's content. [Seek] goes to the place meant by its offset from the start, from where
    the stream is or from the end, and refuses a place outside the file without moving;
    [Read] delivers the next bytes, at most as many as the buffer has, and [io.EOF] only
    at the end. Afterwards reading on to the end gives the bytes from that position on,
    whatever buffer sizes the caller uses and however the backend cuts its reads. Each call
    delivers a byte or closes one exhausted reader, which bounds their number. *)
Theorem stream_reads_content content calls sizes fuel :
  stored_file content -> zlen content < 2 ^ 63 -> Forall call_ok calls ->
  (forall i, 0 < sizes i) -> 2 * zlen content + 1 < Z.of_nat fuel ->
  let '(replies, f) := do_calls (newFileStream (zlen content)) calls in
  exists pos, answers_all content 0 calls replies pos /\ 0 <= pos <= zlen content /\
    ReadAll fuel sizes f = Ok (zdrop pos content).
Proof.
  intros Hst Hlen Hc Hsz Hfuel.
  pose proof (do_calls_ok content _ calls Hst Hlen Hc (newFileStream_ok content)) as [Ha Hf].
  destruct (do_calls _ calls) as [replies f]; cbn in Ha, Hf. exists (cursor f). split; [done|].
  pose proof Hf as (_ & Hsize & Hcur & _). split; [lia|]. apply ReadAll_ok; [done..|].
  unfold reads_left. destruct (tmpReader f); lia.
Qed.

(** ** Truncated blocks *)
Definition truncated_at (f : defaultFsIO) : Prop :=
  isOpen f = true /\ tmpReader f = None /\ 0 <= cursor f < fsize f /\
  bs_inv bkio /\ 0 < MaxFileSize bkio /\
  cursor f / MaxFileSize bkio <= maxFilePartCount /\
  exists key data, b2f (cursor f / MaxFileSize bkio) = Ok key /\
    bs_block bkio key = Some data /\ zlen data <= cursor f `mod` MaxFileSize bkio.

Lemma Read_truncated f n : 0 < n -> truncated_at f -> Read f n = ([], None, f).
Proof.
  intros Hn (Hopen & Hnone & Hcur & Hinv & Hbs & Hid & key & data & Hkey & Hblk & Hlen).
  unfold Read, openCurrentPart. rewrite Hopen, Hnone. cbn [negb].
  rewrite Z.quot_div_nonneg, Z.rem_mod_nonneg by lia.
  pose proof (Z.mod_pos_bound (cursor f) (MaxFileSize bkio) Hbs).
  destruct (Z.eqb_spec (cursor f) (fsize f)); [lia|].
  destruct (Z.leb_spec (MaxFileSize bkio) 0); [lia|].
  assert (0 <= cursor f / MaxFileSize bkio) by (apply Z.div_pos; lia).
  destruct (Z.ltb_spec (cursor f / MaxFileSize bkio) 0); [lia|].
  destruct (Z.ltb_spec maxFilePartCount (cursor f / MaxFileSize bkio)); [lia|].
  cbn [orb]. rewrite Hkey. cbn [mbind outcome_bind]. unfold retryGetDownloadStream.
  destruct (bs_download bkio key (cursor f `mod` MaxFileSize bkio) data)
    as (rc & -> & Hok & Hc); [done..|lia|].
  rewrite RetryDo_ok. cbn [mbind outcome_bind tmpReader]. unfold read_open.
  destruct (rc_read rc n) as [[bs e] rc'] eqn:E.
  apply rc_read_spec in E as (Hcat & _ & _ & Hres); [|done..].
  rewrite Hc, zdrop_ge in Hcat by done.
  symmetry in Hcat. apply app_eq_nil in Hcat as [-> _].
  destruct Hres as [[-> _]|[_ []]]; [|done].
  destruct f; simpl in *. subst. unfold zlen; simpl. by rewrite Z.add_0_r.
Qed.

(** When a stored block is shorter than the metadata says, a reader that
    reaches its end gets no data and no error from then on: [Read] answers
    [(0, nil)] and leaves the stream as it was, so a loop that reads to the end
    of the file does not end. *)
Lemma truncated_block_never_ends f sizes fuel :
  (forall i, 0 < sizes i) -> truncated_at f ->
  (forall n, 0 < n -> Read f n = ([], None, f)) /\ ReadAll fuel sizes f = Err Diverge.
Proof.
  intros Hsz Htr. split; [by intros; apply Read_truncated|].
  induction fuel as [|fuel IH]; cbn [ReadAll]; [done|].
  rewrite Read_truncated by done. by rewrite IH.
Qed.

(** The same from the start of a file whose first block is shorter than the block size of
    the store, and not the whole file. *)
Definition in_short (first : list Z) (f : defaultFsIO) : Prop :=
  isOpen f = true /\ 0 <= cursor f <= zlen first /\ zlen first < fsize f /\ zlen first < MaxFileSize bkio /\
  bs_inv bkio /\ (exists key, b2f 0 = Ok key /\ bs_block bkio key = Some first) /\
  forall rc, tmpReader f = Some rc -> rc_ok rc /\ rc_content rc = zdrop (cursor f) first.

Lemma read_open_short first f rc n : 0 < n -> in_short first f -> rc_ok rc -> rc_content rc = zdrop (cursor f) first ->
  exists bs f', read_open f rc n = (bs, None, f') /\ in_short first f'.
Proof.
  intros Hn (Hopen & Hcur & Hsize & Hmax & Hinv & Hkey & _) Hok Hc. unfold read_open.
  destruct (rc_read rc n) as [[bs e] rc'] eqn:E. apply rc_read_spec in E as (Hcat & _ & Hok' & Hres); [|done..].
  rewrite Hc in Hcat. pose proof (f_equal zlen Hcat) as Hlen. rewrite zlen_app, zlen_zdrop in Hlen by lia.
  pose proof (zlen_nonneg bs). pose proof (zlen_nonneg (rc_content rc')).
  pose proof (zdrop_prefix _ _ _ _ (proj1 Hcur) Hcat) as Hrest.
  destruct Hres as [[-> _]|[-> _]]; do 2 eexists; (split; [done|]); unfold in_short; cbn; split_and!; try done; try lia.
  by intros rc0 [= <-].
Qed.

Lemma Read_short first f n : 0 < n -> in_short first f -> exists bs f', Read f n = (bs, None, f') /\ in_short first f'.
Proof.
  intros Hn Hf. pose proof Hf as (Hopen & Hcur & Hsize & Hmax & Hinv & (key & Hkey & Hblk) & Hrd).
  unfold Read. rewrite Hopen. cbn [negb]. destruct (tmpReader f) as [rc|] eqn:Erc.
  { destruct (Hrd rc eq_refl). by apply read_open_short. }
  pose proof (zlen_nonneg first). unfold openCurrentPart.
  destruct (Z.eqb_spec (cursor f) (fsize f)); [lia|]. destruct (Z.leb_spec (MaxFileSize bkio) 0); [lia|].
  rewrite Z.quot_small, Z.rem_small by lia. cbn [Z.ltb Z.compare orb]. unfold maxFilePartCount.
  cbn [Z.ltb Z.compare]. rewrite Hkey. cbn [mbind outcome_bind]. unfold retryGetDownloadStream.
  destruct (bs_download bkio key (cursor f) first) as (rc & -> & Hok & Hc); [done..|lia|].
  rewrite RetryDo_ok. cbn [mbind outcome_bind tmpReader]. apply read_open_short; [done| |done|done].
  unfold in_short. cbn. split_and!; try done; try lia; [by exists key|]. by intros rc0 [= <-].
Qed.

Lemma short_block_never_ends first f sizes fuel :
  (forall i, 0 < sizes i) -> in_short first f -> ReadAll fuel sizes f = Err Diverge.
Proof.
  intros Hsz. revert f. induction fuel as [|fuel IH]; intros f Hf; cbn [ReadAll]; [done|].
  destruct (Read_short first f (sizes fuel) (Hsz fuel) Hf) as (bs & f' & -> & Hf'). by rewrite IH.
Qed.
End Read.
End FileStream.

(** ** A store to run the stream on *)

(** [RetryDo] with a single successful or failed call. *)
#[global] Instance retry_once : RetryLib :=
  {| RetryDo A _ _ o := o;
     RetryDo_ok A n delay a := eq_refl;
     RetryDo_err A n delay e := ex_intro _ e eq_refl |}.

Fixpoint tag (n : nat) : string :=
  match n with O => "k" | S n => String "u"%char (tag n) end.

Lemma tag_inj i j : tag i = tag j -> i = j.
Proof. revert j. induction i; intros [|j]; simpl; intros [=]; auto. Qed.

Definition demo_store (blocks : list (string * list Z)) : Mem.memBlockIO :=
  {| Mem.bksize := 4; Mem.m := list_to_map blocks; Mem.calls := 3 |}.

#[global] Instance demo_blockio : IBlockIO Mem.memBlockIO := Mem.mem_blockio tag (fun _ => 7).
#[global] Instance demo_block_store : BlockStore Mem.memBlockIO :=
  Mem.mem_block_store tag (fun _ => 7) tag_inj.

Definition demo_keys (i : Z) : outcome string :=
  if i =? 0 then Ok "k" else if i =? 1 then Ok "uk" else Err ErrFilePartNotFound.

Lemma demo_store_inv b1 b2 : bs_inv (demo_store [("k", b1); ("uk", b2)]).
Proof.
  intros k Hk. apply elem_of_dom in Hk. apply Mem.issued_elem.
  unfold demo_store in Hk. cbn in Hk. rewrite dom_insert_L, dom_insert_L in Hk.
  apply elem_of_union in Hk as [Hk|Hk].
  - apply elem_of_singleton in Hk as ->. exists 0%nat. split; [simpl; lia|done].
  - apply elem_of_union in Hk as [Hk|Hk].
    + apply elem_of_singleton in Hk as ->. exists 1%nat. split; [simpl; lia|done].
    + by rewrite dom_empty_L in Hk.
Defined.

Definition demo_calls : list call := [CSeek (-2) SeekEnd; CSeek (-1) SeekCurrent; CRead 2; CSeek 9 SeekStart; CSeek 1 SeekStart].

Lemma stream_reads_content_witness :
  let st := demo_store [("k", [1; 2; 3; 4]); ("uk", [5; 6])] in
  stored_file st demo_keys [1; 2; 3; 4; 5; 6] /\
  let '(replies, f) := do_calls st demo_keys (newFileStream 6) demo_calls in
  exists pos, answers_all [1; 2; 3; 4; 5; 6] 0 demo_calls replies pos /\ 0 <= pos <= 6 /\
    ReadAll st demo_keys 20 (fun _ => 3) f = Ok (zdrop pos [1; 2; 3; 4; 5; 6]).
Proof.
  assert (stored_file (demo_store [("k", [1; 2; 3; 4]); ("uk", [5; 6])]) demo_keys
    [1; 2; 3; 4; 5; 6]) as Hst.
  { split; [apply demo_store_inv|]. split; [done|]. split; [done|].
    intros i Hi Hlt. change (MaxFileSize _) with 4 in *. change (zlen _) with 6 in Hlt.
    assert (i = 0 \/ i = 1) as [-> | ->] by lia; eexists; split; reflexivity. }
  split; [exact Hst|].
  apply (stream_reads_content _ demo_keys [1; 2; 3; 4; 5; 6] demo_calls (fun _ => 3) 20 Hst);
    [done | repeat constructor; cbn; lia | done | unfold zlen; simpl; lia].
Defined.

Definition stuck_stream : defaultFsIO :=
  {| fsize := 6; isOpen := true; cursor := 5; tmpReader := None |}.

Lemma truncated_block_never_ends_witness :
  let st := demo_store [("k", [1; 2; 3; 4]); ("uk", [5])] in
  truncated_at st demo_keys stuck_stream /\
  ReadAll st demo_keys 50 (fun _ => 512) stuck_stream = Err Diverge.
Proof.
  assert (truncated_at (demo_store [("k", [1; 2; 3; 4]); ("uk", [5])]) demo_keys stuck_stream) as Htr.
  { split; [done|]. split; [done|]. split; [simpl; lia|]. split; [apply demo_store_inv|].
    split; [done|]. split; [done|]. exists "uk", [5]. done. }
  split; [exact Htr|].
  by apply (truncated_block_never_ends _ demo_keys stuck_stream (fun _ => 512) 50).
Defined.
End FileStream.
