(* ===== verification/CompositeStream.v ===== *)
(** * Composite files (src/filemgr/composite_stream.go)

    A completed multipart object is stored as a manifest of physical files. The
    manifest loader checks every row; the stream presents the segments as one
    file. A read through it is proved to fill the caller's buffer with exactly
    the next bytes of the concatenated sources. *)

From stdpp Require Import base strings list gmap.
From S2P Require Import Prelude Crc BlockIO FileStream.

(** [sort.Search(n, f)] of the Go library: binary search for the least index
    whose test holds, [n] if there is none. *)
Fixpoint search_loop (fuel : nat) (f : Z -> bool) (i j : Z) : Z :=
  match fuel with
  | O => i
  | S fuel =>
      if i <? j then
        let h := Z.shiftr (i + j) 1 in
        if negb (f h) then search_loop fuel f (h + 1) j else search_loop fuel f i h
      else i
  end.
Definition sort_Search (n : Z) (f : Z -> bool) : Z := search_loop (Z.to_nat n) f 0 n.

Lemma search_loop_spec fuel f i j n :
  0 <= i <= j -> j <= n -> j - i <= Z.of_nat fuel ->
  (forall a b, 0 <= a <= b -> b < n -> f a = true -> f b = true) ->
  (forall a, 0 <= a < i -> f a = false) ->
  (j < n -> f j = true) ->
  let r := search_loop fuel f i j in
  i <= r <= j /\ (forall a, 0 <= a < r -> f a = false) /\ (r < n -> f r = true).
Proof.
  revert i j. induction fuel as [|fuel IH]; intros i j Hij Hjn Hfuel Hmono Hlo Hhi; simpl.
  { assert (i = j) as -> by lia. split_and!; [lia..|done|done]. }
  destruct (Z.ltb_spec i j) as [Hlt|]; [|assert (i = j) as -> by lia; split_and!; [lia..|done|done]].
  rewrite Z.shiftr_div_pow2 by lia. change (2 ^ 1) with 2.
  set (h := (i + j) / 2).
  assert (i <= h < j) as Hh
    by (subst h; Z.to_euclidean_division_equations; lia).
  destruct (f h) eqn:Hf; simpl.
  - destruct (IH i h) as (? & ? & ?); try done; [lia..|]. split_and!; [lia..|done|done].
  - destruct (IH (h + 1) j) as (? & ? & ?); try done; [lia..| |split_and!; [lia..|done|done]].
    intros a Ha. destruct (f a) eqn:Ea; [|done].
    rewrite (Hmono a h) in Hf; [done|lia..|done].
Qed.

Lemma sort_Search_spec n f :
  0 <= n ->
  (forall a b, 0 <= a <= b -> b < n -> f a = true -> f b = true) ->
  let r := sort_Search n f in
  0 <= r <= n /\ (forall a, 0 <= a < r -> f a = false) /\ (r < n -> f r = true).
Proof. intros Hn Hmono. apply search_loop_spec; try done; lia. Qed.

Module Composite.

(** ** The manifest *)

Record compositeSegment := {
  index : Z; sourceFileID : Z; size : Z; start : Z }.

(** A row of the manifest query: the segment, and the size, state and layout of
    its source file when the join finds it. *)
Record manifest_row := {
  r_index : Z; r_sourceFileID : Z; r_segmentSize : Z;
  r_source : option (Z * Z * Z) }.

Definition validateCompositeSegment (idx expectedIndex segmentSize : Z)
    (source : option (Z * Z * Z)) (total fileSize : Z) : outcome unit :=
  if negb (idx =? expectedIndex) then Err ErrInvalidComposite
  else match source with
  | None => Err ErrInvalidComposite
  | Some (sourceSize, sourceState, sourceLayout) =>
      if negb (sourceState =? FileStateReady) then Err ErrInvalidComposite
      else if negb (sourceLayout =? 1) then Err ErrInvalidComposite
      else if negb (sourceSize =? segmentSize) then Err ErrInvalidComposite
      else if (segmentSize <? 0) || (fileSize - segmentSize <? total)
      then Err ErrInvalidComposite
      else Ok tt
  end.

(** The [for rows.Next()] loop of [loadCompositeManifest]. *)
Fixpoint manifest_loop (rows : list manifest_row) (fileSize : Z)
    (segments : list compositeSegment) (total : Z) : outcome (list compositeSegment * Z) :=
  match rows with
  | [] => Ok (segments, total)
  | r :: rows =>
      _ ← validateCompositeSegment (r_index r) (zlen segments) (r_segmentSize r)
            (r_source r) total fileSize;
      manifest_loop rows fileSize
        (segments ++ [{| index := r_index r; sourceFileID := r_sourceFileID r;
                         size := r_segmentSize r; start := total |}])
        (total + r_segmentSize r)
  end.

Definition loadCompositeManifest (rows : list manifest_row) (fileSize : Z)
    : outcome (list compositeSegment) :=
  '(segments, total) ← manifest_loop rows fileSize [] 0;
  if zlen segments =? 0 then Err ErrInvalidComposite
  else if negb (total =? fileSize) then Err ErrInvalidComposite
  else Ok segments.

(** ** The stream *)
Section Stream.
Context {B : Type} `{!IBlockIO B} `{!RetryLib}.
(** The manager's backend and part lookup, and the loaded manifest. *)
Context (bkio : B) (b2f : Z -> Z -> outcome string).

Record compositeFileStream := {
  segments : list compositeSegment;
  csize : Z;
  offset : Z;
  current : option FileStream.defaultFsIO;
  currentIndex : Z;
  copen : bool }.

Definition compositeIOStream (rows : list manifest_row) (fileSize : Z)
    : outcome compositeFileStream :=
  segs ← loadCompositeManifest rows fileSize;
  Ok {| segments := segs; csize := fileSize; offset := 0; current := None;
        currentIndex := -1; copen := true |}.

Definition set_current (f : compositeFileStream) (cur : option FileStream.defaultFsIO)
    (idx off : Z) : compositeFileStream :=
  {| segments := segments f; csize := csize f; offset := off; current := cur;
     currentIndex := idx; copen := copen f |}.

(** Closing a physical stream does not fail. *)
Definition closeCurrent (f : compositeFileStream) : compositeFileStream :=
  set_current f None (-1) (offset f).

Definition segmentAt (f : compositeFileStream) (off : Z) : Z :=
  let i := sort_Search (zlen (segments f)) (fun i =>
    match segments f !! Z.to_nat i with
    | Some segment => off <? start segment + size segment
    | None => false
    end) in
  if i =? zlen (segments f) then -1 else i.

Definition openSegment (f : compositeFileStream) (idx : Z) (segment : compositeSegment)
    : outcome compositeFileStream :=
  if (if current f then true else false) && (currentIndex f =? idx) then Ok f
  else
    let f := closeCurrent f in
    let reader := FileStream.newFileStream (size segment) in
    let position := offset f - start segment in
    if negb (position =? 0) then
      match FileStream.Seek reader position SeekStart with
      | (_, Some e, _) => Err e
      | (_, None, reader) => Ok (set_current f (Some reader) idx (offset f))
      end
    else Ok (set_current f (Some reader) idx (offset f)).

(** It runs with [f.current] set. *)
Definition advancePhysicalBoundary (f : compositeFileStream) (segment : compositeSegment)
    : option err * compositeFileStream :=
  let sourceOffset := offset f - start segment in
  let blockSize := MaxFileSize bkio in
  if (blockSize <=? 0) || (sourceOffset <=? 0) || negb (Z.rem sourceOffset blockSize =? 0)
  then (Some ErrUnexpectedEOF, f)
  else match current f with
  | None => (Some Panic, f)
  | Some cur =>
      let '(_, e, cur') := FileStream.Seek cur sourceOffset SeekStart in
      (e, set_current f (Some cur') (currentIndex f) (offset f))
  end.

(** What [readSegment] does after a read without a real error. *)
Definition after_read (f : compositeFileStream) (segment : compositeSegment) (bs : list Z)
    : list Z * option err * compositeFileStream :=
  if (zlen bs =? 0) && (offset f <? start segment + size segment) then
    let '(e, f') := advancePhysicalBoundary f segment in ([], e, f')
  else if offset f =? start segment + size segment then (bs, None, closeCurrent f)
  else (bs, None, f).

(** The bytes read, the error, the stream after; [n] is [len(buffer)]. *)
Definition readSegment (f : compositeFileStream) (idx n : Z)
    : list Z * option err * compositeFileStream :=
  match segments f !! Z.to_nat idx with
  | None => ([], Some Panic, f)
  | Some segment =>
      match openSegment f idx segment with
      | Err e => ([], Some e, closeCurrent f)
      | Ok f =>
          match current f with
          | None => ([], Some Panic, f)
          | Some cur =>
              let remaining := start segment + size segment - offset f in
              let requestSize := Z.min n remaining in
              let '(bs, readErr, cur') :=
                FileStream.Read bkio (b2f (sourceFileID segment)) cur requestSize in
              let f := set_current f (Some cur') (currentIndex f) (offset f + zlen bs) in
              match readErr with
              | Some e =>
                  if decide (e = EOF) then after_read f segment bs else (bs, Some e, f)
              | None => after_read f segment bs
              end
          end
      end
  end.

(** The loop of [Read]: [n] bytes of the buffer are still free. *)
Fixpoint Read_loop (fuel : nat) (f : compositeFileStream) (n : Z)
    : list Z * option err * compositeFileStream :=
  match fuel with
  | O => ([], Some Diverge, f)
  | S fuel =>
      if (0 <? n) && (offset f <? csize f) then
        let idx := segmentAt f (offset f) in
        if idx <? 0 then ([], Some ErrInvalidComposite, f)
        else
          match readSegment f idx n with
          | (bs, Some e, f') => (bs, Some e, f')
          | (bs, None, f') =>
              let '(rest, e, f'') := Read_loop fuel f' (n - zlen bs) in
              (bs ++ rest, e, f'')
          end
      else ([], None, f)
  end.

(** Two calls per byte are enough: a call that delivers nothing closes a block
    reader, and the next one delivers a byte. *)
Definition Read (f : compositeFileStream) (n : Z)
    : list Z * option err * compositeFileStream :=
  if negb (copen f) then ([], Some ErrFileNotOpen, f)
  else if n =? 0 then ([], None, f)
  else if offset f =? csize f then ([], Some EOF, f)
  else Read_loop (Z.to_nat (2 * n + 2)) f n.

Definition Seek (f : compositeFileStream) (off whence : Z)
    : Z * option err * compositeFileStream :=
  if negb (copen f) then (0, Some ErrFileNotOpen, f)
  else
    match (if whence =? SeekStart then Some off
           else if whence =? SeekCurrent then Some (wrap64 (offset f + off))
           else if whence =? SeekEnd then Some (wrap64 (csize f + off))
           else None) with
    | None => (offset f, Some ErrInvalidOffset, f)
    | Some next =>
        if next <? 0 then (offset f, Some ErrInvalidOffset, f)
        else if csize f <? next then (csize f, Some ErrSeekPastEnd, f)
        else (next, None, set_current f None (-1) next)
    end.

Definition Close (f : compositeFileStream) : compositeFileStream :=
  if negb (copen f) then f
  else {| segments := segments f; csize := csize f; offset := offset f; current := None;
          currentIndex := -1; copen := false |}.

(** ** Proofs *)
Context `{!BlockStore B}.

(** The segments follow one another from [pos] on. *)
Fixpoint laid_out (pos : Z) (segs : list compositeSegment) : Prop :=
  match segs with
  | [] => True
  | s :: segs => start s = pos /\ 0 <= size s /\ laid_out (pos + size s) segs
  end.

(** The sources the segments refer to hold [contents]. *)
Definition sources (segs : list compositeSegment) (contents : list (list Z)) : Prop :=
  Forall2 (fun s c => zlen c = size s /\
    FileStream.stored_file bkio (b2f (sourceFileID s)) c) segs contents.

Lemma laid_out_lookup pos segs contents i s :
  laid_out pos segs -> sources segs contents -> segs !! i = Some s ->
  exists c, contents !! i = Some c /\ zlen c = size s /\
    FileStream.stored_file bkio (b2f (sourceFileID s)) c /\
    start s = pos + zlen (concat (take i contents)).
Proof.
  intros Hl Hs. revert pos i Hl. induction Hs as [|s' c segs contents [Hc Hst] Hs IH];
    intros pos i Hl Hi; [done|]. destruct Hl as (Hstart & Hsz & Hl).
  destruct i as [|i]; simpl in *.
  - injection Hi as <-. exists c. split; [done|]. split; [done|]. split; [done|].
    unfold zlen; simpl; lia.
  - destruct (IH _ _ Hl Hi) as (c' & ? & ? & ? & ->). exists c'. split; [done|]. split; [done|]. split; [done|].
    rewrite zlen_app. lia.
Qed.

Lemma concat_at (contents : list (list Z)) i c k :
  contents !! i = Some c -> 0 <= k <= zlen c ->
  zdrop (zlen (concat (take i contents)) + k) (concat contents) =
  zdrop k c ++ concat (drop (S i) contents).
Proof.
  intros Hi Hk. rewrite <- (take_drop_middle _ _ _ Hi) at 2.
  rewrite concat_app. cbn [concat]. pose proof (zlen_nonneg (concat (take i contents))).
  rewrite zdrop_app_ge by lia. rewrite Z.add_simpl_l. apply zdrop_app_le. lia.
Qed.

Lemma concat_take_mono (contents : list (list Z)) i j :
  (i <= j)%nat -> zlen (concat (take i contents)) <= zlen (concat (take j contents)).
Proof.
  intros Hij. replace (take i contents) with (take i (take j contents))
    by (by rewrite take_take, Nat.min_l).
  rewrite <- (take_drop i (take j contents)) at 2. rewrite concat_app, zlen_app.
  pose proof (zlen_nonneg (concat (drop i (take j contents)))). lia.
Qed.

Section Sources.
Context (segs : list compositeSegment) (contents : list (list Z)).
Context (Hlaid : laid_out 0 segs) (Hsrc : sources segs contents).

Definition csize_is : Z := zlen (concat contents).

Lemma segs_length : length segs = length contents.
Proof. by apply Forall2_length in Hsrc. Qed.

Lemma seg_end i s :
  segs !! i = Some s -> start s + size s = zlen (concat (take (S i) contents)).
Proof.
  intros Hi. destruct (laid_out_lookup _ _ _ _ _ Hlaid Hsrc Hi) as (c & Hc & Hlen & _ & ->).
  rewrite (take_S_r _ _ _ Hc), concat_app, zlen_app. simpl. rewrite app_nil_r. lia.
Qed.

Definition stream_inv (f : compositeFileStream) : Prop :=
  copen f = true /\ segments f = segs /\ csize f = csize_is /\ 0 <= offset f <= csize f /\
  forall cur, current f = Some cur ->
    exists i s c, currentIndex f = Z.of_nat i /\ segs !! i = Some s /\
      contents !! i = Some c /\ FileStream.stream_ok bkio c cur /\
      FileStream.cursor cur = offset f - start s /\
      start s <= offset f < start s + size s.

Lemma segmentAt_spec f :
  stream_inv f -> offset f < csize f ->
  exists i s, segmentAt f (offset f) = Z.of_nat i /\ segs !! i = Some s /\
    start s <= offset f < start s + size s.
Proof.
  intros (_ & Hsegs & Hsize & Hoff & _) Hlt. unfold segmentAt. rewrite Hsegs.
  set (p := fun i : Z => _).
  destruct (sort_Search_spec (zlen segs) p) as (Hr & Hlow & Hhigh); [apply zlen_nonneg| |].
  { intros a b Hab Hb. subst p. simpl.
    destruct (segs !! Z.to_nat a) as [sa|] eqn:Ea; [|done].
    destruct (lookup_lt_is_Some_2 segs (Z.to_nat b)) as [sb Eb]; [unfold zlen in Hb; lia|].
    rewrite Eb. rewrite !Z.ltb_lt, (seg_end _ _ Ea), (seg_end _ _ Eb).
    pose proof (concat_take_mono contents (S (Z.to_nat a)) (S (Z.to_nat b)) ltac:(lia)). lia. }
  set (r := sort_Search _ _) in *.
  destruct (Z.eqb_spec r (zlen segs)) as [Hend|Hne].
  - exfalso. assert (0 < length segs)%nat as Hnil.
    { destruct (decide (length segs = 0%nat)) as [E|]; [exfalso|lia].
      rewrite segs_length in E. apply nil_length_inv in E.
      unfold csize_is in Hsize. rewrite E in Hsize. unfold zlen in Hsize. simpl in Hsize. lia. }
    destruct (lookup_lt_is_Some_2 segs (length segs - 1)) as [s Es]; [lia|].
    assert (p (Z.of_nat (length segs - 1)) = false) as Hp.
    { apply Hlow. rewrite Hend. unfold zlen. lia. }
    subst p. simpl in Hp. rewrite Nat2Z.id, Es in Hp. apply Z.ltb_ge in Hp.
    rewrite (seg_end _ _ Es) in Hp. rewrite take_ge in Hp.
    + unfold csize_is in Hsize. lia.
    + rewrite <- segs_length. lia.
  - exists (Z.to_nat r). specialize (Hhigh ltac:(lia)). subst p. simpl in Hhigh.
    destruct (segs !! Z.to_nat r) as [s|] eqn:Es; [|done]. exists s.
    split; [lia|]. split; [done|]. apply Z.ltb_lt in Hhigh. split; [|done].
    destruct (laid_out_lookup _ _ _ _ _ Hlaid Hsrc Es) as (c & _ & _ & _ & ->).
    destruct (Z.to_nat r) as [|k] eqn:Ek; [simpl; unfold zlen; simpl; lia|].
    destruct (lookup_lt_is_Some_2 segs k) as [s' Es'].
    { apply lookup_lt_Some in Es. lia. }
    assert ((fun i : Z => match segs !! Z.to_nat i with
      | Some segment => offset f <? start segment + size segment | None => false end)
      (Z.of_nat k) = false) as Hk by (apply Hlow; lia).
    simpl in Hk. rewrite Nat2Z.id, Es' in Hk. apply Z.ltb_ge in Hk.
    rewrite (seg_end _ _ Es') in Hk. lia.
Qed.

(** Whether a block reader is open inside the current source. *)
Definition has_tmp (f : compositeFileStream) : Z :=
  match current f with
  | Some cur => if FileStream.tmpReader cur then 1 else 0
  | None => 0
  end.

Lemma closeCurrent_inv f : stream_inv f -> stream_inv (closeCurrent f).
Proof. unfold stream_inv, closeCurrent; simpl. naive_solver. Qed.

Lemma set_current_inv f i s c cur off :
  stream_inv f -> segs !! i = Some s -> contents !! i = Some c ->
  FileStream.stream_ok bkio c cur -> FileStream.cursor cur = off - start s ->
  0 <= off <= csize f -> start s <= off < start s + size s ->
  stream_inv (set_current f (Some cur) (Z.of_nat i) off).
Proof.
  intros (? & ? & ? & ? & _) Hs Hc Hcur Hpos Hoff Hrange. unfold stream_inv; simpl.
  split_and!; try done; try lia. intros cur' [= <-]. by exists i, s, c.
Qed.

(** A fresh reader of a source, moved to the stream's position in it. *)
Lemma open_source_ok c sz position :
  zlen c = sz -> 0 <= position <= sz ->
  let r := FileStream.newFileStream sz in
  exists cur, FileStream.stream_ok bkio c cur /\ FileStream.tmpReader cur = None /\
    FileStream.cursor cur = position /\
    (position = 0 -> cur = r) /\
    (FileStream.Seek r position SeekStart).1.2 = None /\
    (FileStream.Seek r position SeekStart).2 = cur.
Proof.
  intros <- Hpos r. pose proof (FileStream.Seek_ok bkio c r position SeekStart
    (FileStream.newFileStream_ok bkio c)) as Hseek. subst r.
  change (FileStream.calcOffset _ _ _) with position in Hseek.
  destruct (FileStream.Seek _ _ _) as [[pos [e|]] cur] eqn:E.
  { destruct Hseek as (_ & _ & _ & [[_ ?]|[_ ?]]); simpl in *; lia. }
  destruct Hseek as (Hok & Hnone & -> & _ & Hc). exists cur. split_and!; try done.
  intros ->. unfold FileStream.Seek in E. simpl in E.
  change (FileStream.calcOffset _ 0 SeekStart) with 0 in E. simpl in E.
  destruct (Z.ltb_spec (zlen c) 0); [simplify_eq|]. by simplify_eq.
Qed.

Lemma openSegment_ok f i s c :
  stream_inv f -> segs !! i = Some s -> contents !! i = Some c ->
  start s <= offset f < start s + size s -> zlen c = size s ->
  exists f1 cur, openSegment f (Z.of_nat i) s = Ok f1 /\ stream_inv f1 /\
    current f1 = Some cur /\ currentIndex f1 = Z.of_nat i /\
    offset f1 = offset f /\ csize f1 = csize f /\ has_tmp f1 <= has_tmp f /\
    FileStream.stream_ok bkio c cur /\ FileStream.cursor cur = offset f - start s.
Proof.
  intros Hf Hs Hc Hrange Hlen. pose proof Hf as (_ & _ & _ & Hoff & Hcur).
  unfold openSegment.
  destruct (_ && _) eqn:E.
  - apply andb_true_iff in E as [Ec E]. destruct (current f) as [cur|] eqn:Ecur; [|done].
    apply Z.eqb_eq in E.
    destruct (Hcur _ eq_refl) as (i' & s' & c' & Hidx & Hs' & Hc' & Hok & Hpos & Hr).
    assert (i' = i) as -> by lia. simplify_eq. exists f, cur. by split_and!.
  - destruct (open_source_ok c (size s) (offset f - start s) Hlen ltac:(lia))
      as (cur & Hok & Hnone & Hpos & Hz & He & Hsk).
    exists (set_current (closeCurrent f) (Some cur) (Z.of_nat i) (offset f)), cur.
    split.
    + simpl. destruct (Z.eqb_spec (offset f - start s) 0) as [E0|]; cbn [negb].
      * by rewrite (Hz E0).
      * destruct (FileStream.Seek _ _ _) as [[p e] r]. simpl in He, Hsk. by subst.
    + split; [eapply set_current_inv; [by apply closeCurrent_inv|done..]|].
      split_and!; try done. unfold has_tmp; simpl. rewrite Hnone.
      repeat case_match; lia.
Qed.

(** What one call to [readSegment] achieves. *)
Definition segment_post (f : compositeFileStream) (n : Z)
    (r : list Z * option err * compositeFileStream) : Prop :=
  let '(bs, e, f') := r in
  e = None /\ stream_inv f' /\ zlen bs <= n /\ csize f' = csize f /\
  offset f' = offset f + zlen bs /\
  zdrop (offset f) (concat contents) = bs ++ zdrop (offset f') (concat contents) /\
  (bs <> [] \/ (has_tmp f = 1 /\ has_tmp f' = 0)).

Lemma advancePhysicalBoundary_ok f i s c cur :
  stream_inv f -> segs !! i = Some s -> contents !! i = Some c -> zlen c = size s ->
  FileStream.stored_file bkio (b2f (sourceFileID s)) c ->
  current f = Some cur -> currentIndex f = Z.of_nat i ->
  FileStream.stream_ok bkio c cur -> start s < offset f < start s + size s ->
  (offset f - start s) `mod` MaxFileSize bkio = 0 ->
  let '(e, f') := advancePhysicalBoundary f s in
  e = None /\ stream_inv f' /\ has_tmp f' = 0 /\ offset f' = offset f /\ csize f' = csize f.
Proof.
  intros Hf Hs Hc Hlen (_ & Hbs & _) Hcur Hidx Hok Hrange Hmod.
  unfold advancePhysicalBoundary. rewrite Hcur, Z.rem_mod_nonneg by lia.
  destruct (Z.leb_spec (MaxFileSize bkio) 0); [lia|].
  destruct (Z.leb_spec (offset f - start s) 0); [lia|]. rewrite Hmod. cbn [orb negb Z.eqb].
  pose proof (FileStream.Seek_ok bkio c cur (offset f - start s) SeekStart Hok) as Hseek.
  change (FileStream.calcOffset _ _ _) with (offset f - start s) in Hseek.
  destruct Hok as (_ & Hfs & _).
  destruct (FileStream.Seek _ _ _) as [[pos [e|]] cur'].
  { destruct Hseek as (_ & _ & _ & [[_ ?]|[_ ?]]); lia. }
  destruct Hseek as (Hok' & Hnone & -> & _ & Hpos).
  split_and!; try done.
  - rewrite Hidx. pose proof Hf as (_ & _ & _ & ? & _).
    eapply set_current_inv; try done; lia.
  - unfold has_tmp; simpl. by rewrite Hnone.
Qed.

Lemma readSegment_ok f i s n :
  0 < n -> stream_inv f -> segs !! i = Some s ->
  start s <= offset f < start s + size s ->
  segment_post f n (readSegment f (Z.of_nat i) n).
Proof.
  intros Hn Hf Hs Hrange.
  destruct (laid_out_lookup _ _ _ _ _ Hlaid Hsrc Hs) as (c & Hc & Hlen & Hst & Hstart).
  unfold readSegment. pose proof Hf as (_ & -> & _). rewrite Nat2Z.id, Hs.
  destruct (openSegment_ok f i s c Hf Hs Hc Hrange Hlen)
    as (f1 & cur & -> & Hf1 & Hc1 & Hidx & Hoff1 & Hcs1 & Htmp & Hok & Hpos).
  rewrite Hc1, Hoff1.
  set (req := Z.min n (start s + size s - offset f)).
  pose proof (FileStream.Read_ok bkio (b2f (sourceFileID s)) c Hst cur req ltac:(lia) Hok) as Hrd.
  destruct (FileStream.Read _ _ cur req) as [[bs e] cur'].
  destruct Hrd as (Hok' & Hlb & Hfs & Hcur' & Hcat & Hres).
  pose proof Hok as (_ & Hfsz & _). pose proof Hok' as (_ & _ & Hbound & _).
  destruct Hres as [(_ & _ & ?)|(-> & Hprog)]; [lia|]. unfold after_read. simpl.
  pose proof Hf as (_ & _ & Hcsz & Hoffb & _).
  assert (zdrop (offset f) (concat contents) =
    bs ++ zdrop (offset f + zlen bs) (concat contents)) as Hnext.
  { pose proof (concat_at contents i c (offset f - start s) Hc ltac:(lia)) as H1.
    pose proof (concat_at contents i c (offset f - start s + zlen bs) Hc ltac:(lia)) as H2.
    replace (zlen (concat (take i contents)) + (offset f - start s)) with (offset f) in H1 by lia.
    replace (zlen (concat (take i contents)) + (offset f - start s + zlen bs))
      with (offset f + zlen bs) in H2 by lia.
    rewrite H1, H2, <- Hpos, Hcat, Hcur', app_assoc. done. }
  assert (offset f + zlen bs <= csize f) as Hle.
  { apply (f_equal zlen) in Hnext. rewrite zlen_app, !zlen_zdrop in Hnext
      by (pose proof (zlen_nonneg bs); lia). unfold csize_is in Hcsz.
    pose proof (zlen_nonneg bs). lia. }
  assert (bs = [] \/ 0 < zlen bs) as [->|Hpb].
  { destruct bs; [by left|right; unfold zlen; simpl; lia]. }
  - change (zlen []) with 0 in *. rewrite Z.add_0_r in *. rewrite Z.eqb_refl.
    destruct (Z.ltb_spec (offset f) (start s + size s)); [|lia]. cbn [andb].
    destruct Hprog as [[]|(Ht & Hnone & [?|[Hp Hm]])]; [done|lia|].
    pose proof (advancePhysicalBoundary_ok
      (set_current f1 (Some cur') (currentIndex f1) (offset f)) i s c cur') as Hadv.
    destruct (advancePhysicalBoundary _ _) as [e f'].
    destruct Hadv as (-> & Hf' & Htmp' & Hoff' & Hcs'); try done; simpl.
    + rewrite Hidx. eapply set_current_inv; try done; lia.
    + lia.
    + by rewrite <- Hpos.
    + simpl in *. unfold segment_post. change (zlen []) with 0.
      rewrite Hoff', Hcs', Z.add_0_r. split_and!; try done; try lia. right. split; [|done].
      destruct Ht as [rc Ht]. unfold has_tmp in Htmp at 1. rewrite Hc1, Ht in Htmp.
      revert Htmp. unfold has_tmp. repeat case_match; lia.
  - destruct (Z.eqb_spec (zlen bs) 0); [lia|]. cbn [andb].
    assert (bs <> []) by (intros ->; unfold zlen in Hpb; simpl in Hpb; lia).
    destruct (Z.eqb_spec (offset f + zlen bs) (start s + size s)) as [Hend|Hmid].
    + unfold segment_post, stream_inv; simpl. pose proof Hf1 as (? & ? & ? & ? & _).
      split_and!; try done; try lia. by left.
    + unfold segment_post. simpl. rewrite Hidx. split_and!; try done; try lia.
      * eapply set_current_inv; try done; lia.
      * by left.
Qed.

Lemma Read_loop_ok fuel f n :
  0 <= n -> stream_inv f -> 2 * n + has_tmp f < Z.of_nat fuel ->
  let '(bs, e, f') := Read_loop fuel f n in
  e = None /\ bs = ztake n (zdrop (offset f) (concat contents)) /\
  stream_inv f' /\ csize f' = csize f /\ offset f' = Z.min (offset f + n) (csize f).
Proof.
  revert f n. induction fuel as [|fuel IH]; intros f n Hn Hf Hfuel; cbn [Read_loop].
  { unfold has_tmp in Hfuel. repeat case_match; lia. }
  pose proof Hf as (_ & _ & Hcsz & Hoff & _). unfold csize_is in Hcsz.
  destruct (Z.ltb_spec 0 n) as [Hpos|]; cbn [andb].
  2: { assert (n = 0) as -> by lia. split_and!; try done. lia. }
  destruct (Z.ltb_spec (offset f) (csize f)) as [Hlt|].
  2: { split; [done|]. split; [|split_and!; try done; lia].
       rewrite zdrop_ge by lia. unfold ztake. by rewrite take_nil. }
  destruct (segmentAt_spec f Hf Hlt) as (i & s & -> & Hs & Hrange).
  destruct (Z.ltb_spec (Z.of_nat i) 0); [lia|].
  pose proof (readSegment_ok f i s n Hpos Hf Hs Hrange) as Hseg.
  destruct (readSegment f (Z.of_nat i) n) as [[bs e] f1].
  destruct Hseg as (-> & Hf1 & Hbs & Hcs1 & Hoff1 & Hnext & Hprog).
  specialize (IH f1 (n - zlen bs) ltac:(lia) Hf1).
  destruct (Read_loop fuel f1 (n - zlen bs)) as [[rest e] f2].
  destruct IH as (-> & -> & Hf2 & Hcs2 & Hoff2).
  { assert (has_tmp f1 <= 1) by (unfold has_tmp; repeat case_match; lia).
    destruct Hprog as [Hne|[? ?]]; [|pose proof (zlen_nonneg bs); lia].
    assert (0 < zlen bs) by (destruct bs; [done|unfold zlen; simpl; lia]).
    assert (0 <= has_tmp f) by (unfold has_tmp; repeat case_match; lia). lia. }
  split_and!; try done; [|congruence|lia].
  rewrite Hnext. unfold ztake. rewrite take_app_ge by (unfold zlen in Hbs; lia).
  do 2 f_equal. unfold zlen. lia.
Qed.

Lemma compositeRead_ok f n :
  0 < n -> stream_inv f ->
  let '(bs, e, f') := Read f n in
  stream_inv f' /\ bs = ztake n (zdrop (offset f) (concat contents)) /\
  e = (if offset f =? csize f then Some EOF else None) /\
  offset f' = offset f + zlen bs.
Proof.
  intros Hn Hf. pose proof Hf as (Hopen & _ & Hcsz & Hoff & _). unfold Read.
  rewrite Hopen. cbn [negb]. destruct (Z.eqb_spec n 0); [lia|].
  unfold csize_is in Hcsz. destruct (Z.eqb_spec (offset f) (csize f)) as [E|E].
  - rewrite zdrop_ge by lia. unfold ztake. rewrite take_nil. unfold zlen; simpl.
    split_and!; try done. lia.
  - pose proof (Read_loop_ok (Z.to_nat (2 * n + 2)) f n ltac:(lia) Hf) as Hl.
    destruct (Read_loop _ f n) as [[bs e] f'].
    destruct Hl as (-> & -> & Hf' & _ & Hoff').
    { assert (has_tmp f <= 1) by (unfold has_tmp; repeat case_match; lia). lia. }
    split_and!; try done. rewrite Hoff', zlen_ztake, zlen_zdrop by lia. lia.
Qed.

Lemma compositeSeek_ok f off whence : stream_inv f -> stream_inv (Seek f off whence).2.
Proof.
  intros Hf. pose proof Hf as (Hopen & ? & ? & ? & _). unfold Seek. rewrite Hopen. cbn [negb].
  case_match; [|done]. destruct (Z.ltb_spec z 0); [done|].
  destruct (Z.ltb_spec (csize f) z); [done|]. unfold stream_inv; simpl.
  split_and!; try done; lia.
Qed.
End Sources.

(** ** Loading the manifest *)

Definition row_ok (k : Z) (r : manifest_row) : Prop :=
  r_index r = k /\ r_source r = Some (r_segmentSize r, FileStateReady, 1) /\
  0 <= r_segmentSize r.

Fixpoint rows_ok (k : Z) (rows : list manifest_row) : Prop :=
  match rows with
  | [] => True
  | r :: rows => row_ok k r /\ rows_ok (k + 1) rows
  end.

Fixpoint segments_of (total : Z) (rows : list manifest_row) : list compositeSegment :=
  match rows with
  | [] => []
  | r :: rows =>
      {| index := r_index r; sourceFileID := r_sourceFileID r;
         size := r_segmentSize r; start := total |} ::
      segments_of (total + r_segmentSize r) rows
  end.

Definition rows_size (rows : list manifest_row) : Z := sumZ (r_segmentSize <$> rows).

Lemma rows_size_cons r rows : rows_size (r :: rows) = r_segmentSize r + rows_size rows.
Proof. done. Qed.

Lemma rows_size_nonneg k rows : rows_ok k rows -> 0 <= rows_size rows.
Proof.
  revert k. induction rows as [|r rows IH]; intros k; [done|]. rewrite rows_size_cons.
  intros [(_ & _ & ?) Hr]. specialize (IH _ Hr). lia.
Qed.

Lemma validateCompositeSegment_ok idx k sz source total fileSize :
  validateCompositeSegment idx k sz source total fileSize = Ok tt <->
  idx = k /\ source = Some (sz, FileStateReady, 1) /\ 0 <= sz /\ total + sz <= fileSize.
Proof.
  unfold validateCompositeSegment.
  destruct (Z.eqb_spec idx k); simpl; [|naive_solver].
  destruct source as [[[a b] c]|]; [|naive_solver].
  destruct (Z.eqb_spec b FileStateReady); simpl; [|naive_solver].
  destruct (Z.eqb_spec c 1); simpl; [|naive_solver].
  destruct (Z.eqb_spec a sz); simpl; [|naive_solver].
  destruct (Z.ltb_spec sz 0), (Z.ltb_spec (fileSize - sz) total); simpl; split;
    try done; try lia; intros; split_and!; naive_solver lia.
Qed.

Lemma manifest_loop_ok rows fileSize segs total segs' total' :
  manifest_loop rows fileSize segs total = Ok (segs', total') <->
  rows_ok (zlen segs) rows /\ (rows = [] \/ total + rows_size rows <= fileSize) /\
  segs' = segs ++ segments_of total rows /\ total' = total + rows_size rows.
Proof.
  revert segs total. induction rows as [|r rows IH]; intros segs total; simpl.
  { change (rows_size []) with 0. rewrite app_nil_r, Z.add_0_r. naive_solver. }
  rewrite rows_size_cons.
  destruct (validateCompositeSegment _ _ _ _ _ _) as [[]|e] eqn:Ev; simpl.
  - apply validateCompositeSegment_ok in Ev as (Hi & Hs & Hsz & Htot).
    rewrite IH, zlen_app, <- app_assoc. change (zlen [_]) with 1. simpl.
    rewrite Z.add_assoc. unfold row_ok. split.
    + intros (Hr & Hle & ? & ?). split_and!; try done. right.
      destruct Hle as [->|?]; [change (rows_size []) with 0|]; lia.
    + intros ((_ & Hr) & [?|Hle] & ? & ?); [done|]. split_and!; try done. by right.
  - split; [done|]. intros (((Hi & Hs & Hsz) & Hr) & [?|Hle] & _); [done|].
    assert (validateCompositeSegment (r_index r) (zlen segs) (r_segmentSize r)
      (r_source r) total fileSize = Ok tt) as Hok; [|congruence].
    apply validateCompositeSegment_ok. apply rows_size_nonneg in Hr. split_and!; try done. lia.
Qed.

Lemma segments_of_laid_out k total rows :
  rows_ok k rows -> laid_out total (segments_of total rows).
Proof.
  revert k total. induction rows as [|r rows IH]; intros k total; simpl; [done|].
  intros [(_ & _ & ?) Hr]. split_and!; eauto.
Qed.

Lemma segments_of_sizes total rows :
  sumZ (size <$> segments_of total rows) = rows_size rows.
Proof.
  revert total. induction rows as [|r rows IH]; intros total; [done|].
  rewrite rows_size_cons, <- (IH (total + r_segmentSize r)). done.
Qed.

(** The manifest is accepted exactly when it is not empty, its rows are
    numbered 0, 1, 2, ..., every source exists, is ready, is a physical file of
    the segment's size, and the sizes add up to the size of the object. *)
Theorem loadCompositeManifest_accepts_iff rows fileSize :
  (exists segs, loadCompositeManifest rows fileSize = Ok segs) <->
  rows <> [] /\ rows_ok 0 rows /\ rows_size rows = fileSize.
Proof.
  unfold loadCompositeManifest. destruct (manifest_loop rows fileSize [] 0) as [[segs total]|e] eqn:E.
  - apply manifest_loop_ok in E as (Hr & _ & -> & ->). simpl.
    destruct (Z.eqb_spec (zlen (segments_of 0 rows)) 0) as [Hz|Hz].
    { split; [naive_solver|]. intros [Hne _]. by destruct rows. }
    assert (rows <> []) by (by intros ->). rewrite Z.add_0_l.
    destruct (Z.eqb_spec (rows_size rows) fileSize); simpl; naive_solver.
  - split; [naive_solver|]. intros (Hne & Hr & Hs).
    assert (manifest_loop rows fileSize [] 0 = Ok (segments_of 0 rows, rows_size rows)) as Hok;
      [|congruence].
    apply manifest_loop_ok. split_and!; try done. right. lia.
Qed.

Lemma compositeIOStream_ok rows fileSize f contents :
  compositeIOStream rows fileSize = Ok f -> sources (segments f) contents ->
  laid_out 0 (segments f) /\ stream_inv (segments f) contents f /\ csize f = fileSize.
Proof.
  unfold compositeIOStream, loadCompositeManifest.
  destruct (manifest_loop rows fileSize [] 0) as [[segs total]|e] eqn:E; [|done].
  apply manifest_loop_ok in E as (Hr & _ & -> & ->).
  cbn [mbind outcome_bind]. case_match; [done|]. case_match eqn:Et; [done|].
  intros [= <-]. simpl. intros Hsrc.
  apply negb_false_iff, Z.eqb_eq in Et. rewrite Z.add_0_l in Et.
  assert (csize_is contents = fileSize) as Hsz.
  { rewrite <- Et, <- (segments_of_sizes 0 rows). unfold csize_is.
    clear -Hsrc. induction Hsrc as [|s c segs contents [Hc _] _ IH]; [done|].
    simpl concat. rewrite zlen_app, IH, Hc. done. }
  split; [by eapply segments_of_laid_out|]. split; [|done].
  pose proof (rows_size_nonneg _ _ Hr). unfold stream_inv; simpl.
  split_and!; done || lia.
Qed.

(** The streams a client can reach from a freshly opened one. *)
Inductive used (f0 : compositeFileStream) : compositeFileStream -> Prop :=
  | used_open : used f0 f0
  | used_read f n : used f0 f -> 0 < n -> used f0 (Read f n).2
  | used_seek f off whence : used f0 f -> used f0 (Seek f off whence).2.

(** C34: However a composite file has been read and seeked before, a read of [n]
    bytes delivers exactly the next [n] bytes of the concatenated sources (fewer
    only at the end of the file), moves the offset past them, and announces
    [io.EOF] exactly at the end. *)
Theorem composite_read_exact rows fileSize f0 contents f n :
  compositeIOStream rows fileSize = Ok f0 -> sources (segments f0) contents ->
  used f0 f -> 0 < n ->
  let '(bs, e, f') := Read f n in
  zlen (concat contents) = fileSize /\
  bs = ztake n (zdrop (offset f) (concat contents)) /\
  e = (if offset f =? fileSize then Some EOF else None) /\
  offset f' = offset f + zlen bs.
Proof.
  intros Hopen Hsrc Hused Hn.
  destruct (compositeIOStream_ok _ _ _ _ Hopen Hsrc) as (Hlaid & Hinv0 & Hsz).
  assert (stream_inv (segments f0) contents f) as Hinv.
  { induction Hused as [|f n' _ IH Hn'|f off whence _ IH]; [done| |by apply compositeSeek_ok].
    pose proof (compositeRead_ok _ _ Hlaid Hsrc f n' Hn' IH) as Hr.
    destruct (Read f n') as [[??]?]. by destruct Hr. }
  pose proof (compositeRead_ok _ _ Hlaid Hsrc f n Hn Hinv) as Hr.
  destruct Hinv0 as (_ & _ & Hc0 & _), Hinv as (_ & _ & Hc & _).
  destruct (Read f n) as [[bs e] f']. destruct Hr as (_ & -> & -> & ->).
  unfold csize_is in *. split_and!; try done; [congruence|].
  by rewrite Hc, <- Hc0, Hsz.
Qed.
End Stream.

(** ** A concrete composite file *)
Definition demo_rows : list manifest_row :=
  [{| r_index := 0; r_sourceFileID := 10; r_segmentSize := 6; r_source := Some (6, 2, 1) |};
   {| r_index := 1; r_sourceFileID := 11; r_segmentSize := 0; r_source := Some (0, 2, 1) |};
   {| r_index := 2; r_sourceFileID := 10; r_segmentSize := 6; r_source := Some (6, 2, 1) |}].
Definition demo_parts (fileid blk : Z) : outcome string :=
  if fileid =? 10 then FileStream.demo_keys blk else Err ErrFilePartNotFound.
Definition demo_stream : compositeFileStream :=
  {| segments := segments_of 0 demo_rows; csize := 12; offset := 0; current := None;
     currentIndex := -1; copen := true |}.

Lemma composite_read_exact_witness :
  let st := FileStream.demo_store [("k", [1; 2; 3; 4]); ("uk", [5; 6])] in
  let f := (Read st demo_parts demo_stream 5).2 in
  let '(bs, e, f') := Read st demo_parts f 4 in
  bs = [6; 1; 2; 3] /\ e = None /\ offset f' = 9.
Proof.
  cbv zeta. set (st := FileStream.demo_store [("k", [1; 2; 3; 4]); ("uk", [5; 6])]).
  pose proof (composite_read_exact st demo_parts demo_rows 12 demo_stream
    [[1; 2; 3; 4; 5; 6]; []; [1; 2; 3; 4; 5; 6]]
    (Read st demo_parts demo_stream 5).2 4 eq_refl) as H.
  assert (sources st demo_parts (segments demo_stream)
    [[1; 2; 3; 4; 5; 6]; []; [1; 2; 3; 4; 5; 6]]) as Hsrc.
  { assert (FileStream.stored_file st FileStream.demo_keys [1; 2; 3; 4; 5; 6]) as Hst.
    { split; [apply FileStream.demo_store_inv|]. split; [done|]. split; [done|].
      intros i Hi Hlt. change (MaxFileSize _) with 4 in *. change (zlen _) with 6 in Hlt.
      assert (i = 0 \/ i = 1) as [-> | ->] by lia; eexists; split; reflexivity. }
    constructor; [by split|]. constructor; [split; [done|]|constructor; [by split|constructor]].
    split; [apply FileStream.demo_store_inv|]. split; [done|]. split; [done|].
    intros i Hi Hlt. change (MaxFileSize _) with 4 in *. change (zlen _) with 0 in Hlt. lia. }
  specialize (H Hsrc 
    (used_read _ _ _ demo_stream 5 (used_open _ _ _) ltac:(lia)) ltac:(lia)).
  destruct (Read st demo_parts (Read st demo_parts demo_stream 5).2 4) as [[bs e] f'] eqn:E.
  destruct H as (_ & -> & -> & ->). vm_compute. repeat split.
Defined.
End Composite.
