(* ===== verification/Store.v ===== *)
(** * The database (src/migrations/, src/db/, src/constant/)

    The tables the modelled code reads and writes, with their UNIQUE and CHECK
    constraints, and the state every component runs on: the database, the clock
    and the id generator. A transaction that returns an error leaves the database
    as it was; what it took from the clock and the id generator stays taken. *)

From stdpp Require Import base strings list.
From S2P Require Import Prelude.

(** ** Rows *)

(** tg_file_tab *)
Record file_row := {
  f_id : Z; f_file_id : Z; f_size : Z; f_part_count : Z; f_state : Z;
  f_ctime : Z; f_mtime : Z; f_extinfo : string; f_layout : Z }.

(** tg_file_part_tab *)
Record part_row := {
  p_file_id : Z; p_part_id : Z; p_key : string; p_md5 : string; p_size : Z;
  p_ctime : Z; p_mtime : Z }.

(** tg_file_mapping_tab, as src/directory/model.go has it *)
Record directoryEntryTab := {
  Id_ : Z; EntryId_ : Z; ParentEntryId_ : Z; RefData_ : string; FileKind_ : Z;
  Ctime_ : Z; Mtime_ : Z; FileSize_ : Z; FileMode_ : Z; FileName_ : string }.

(** tg_file_part_delete_state_tab and its [delete_state] column *)
Inductive delete_state :=
  | DsLive | DsPending | DsDeleting | DsDeleted | DsExpired | DsFailed.
Record delete_row := {
  d_file_id : Z; d_part_id : Z; d_backend : string; d_ref : string;
  d_uploaded_at : Z; d_state : delete_state; d_attempts : Z; d_next_at : Z;
  d_lease : Z; d_last_attempt : Z; d_error : string; d_deleted_at : Z;
  d_ctime : Z; d_mtime : Z }.

(** tg_s3_file_segment_tab *)
Record segment_row := {
  sg_file_id : Z; sg_index : Z; sg_source : Z; sg_size : Z;
  sg_ctime : Z; sg_mtime : Z }.

(** tg_s3_completed_part_tab; [checksum_state] is true for 'available' *)
Record completed_row := {
  cp_file_id : Z; cp_number : Z; cp_size : Z; cp_available : bool;
  cp_algorithm : string; cp_value : string; cp_ctime : Z; cp_mtime : Z }.

(** tg_s3_object_metadata_tab *)
Record s3meta_row := {
  m_entry_id : Z; m_etag : string; m_sha256 : string; m_req_algorithm : string;
  m_req_value : string; m_checksum_type : string; m_content_type : string;
  m_cache_control : string; m_disposition : string; m_encoding : string;
  m_language : string; m_expires : string; m_user : string;
  m_ctime : Z; m_mtime : Z }.

(** tg_s3_multipart_upload_tab and tg_s3_multipart_part_tab; the states are TEXT
    columns with a CHECK, and the columns ctime and mtime of the uploads, which no
    statement reads, are left out *)
Inductive upload_state := UsActive | UsCompleting | UsCompleted | UsAborted.
Record upload_row := {
  u_upload_id : string; u_bucket : string; u_key : string; u_state : upload_state;
  u_content_type : string; u_cache_control : string; u_disposition : string;
  u_encoding : string; u_language : string; u_expires : string; u_user : string;
  u_algorithm : string; u_type : string; u_fingerprint : string; u_result_file : Z;
  u_result_etag : string; u_result_checksum : string; u_initiated_at : Z; u_expires_at : Z;
  u_completed_at : Z; u_cleanup_at : Z }.
Inductive mpart_state := PsActive | PsSelected | PsDiscarded.
Record mpart_row := {
  mp_upload_id : string; mp_number : Z; mp_state : mpart_state; mp_file_id : Z; mp_size : Z;
  mp_etag : string; mp_checksum : string; mp_uploaded_at : Z; mp_ctime : Z; mp_mtime : Z }.

#[global] Instance upload_state_eq_dec : EqDecision upload_state.
Proof. solve_decision. Defined.
#[global] Instance mpart_state_eq_dec : EqDecision mpart_state.
Proof. solve_decision. Defined.

Definition u_active (u : upload_row) : bool := bool_decide (u_state u = UsActive).
Definition mp_active (p : mpart_row) : bool := bool_decide (mp_state p = PsActive).

(** tg_webdav_property_tab, tg_webdav_change_tab, tg_backup_export_pin_tab *)
Record property_row := {
  pr_entry_id : Z; pr_ns : string; pr_name : string; pr_value : string;
  pr_ctime : Z; pr_mtime : Z }.
Inductive change_kind := CkCreated | CkUpdated | CkDeleted.
Record change_row := { ch_revision : Z; ch_path : string; ch_kind : change_kind; ch_at : Z }.
Record pin_row := { pin_job : string; pin_file_id : Z }.

(** tg_webdav_lock_tab *)
Record lock_row := {
  lk_token : string; lk_root_path : string; lk_root_entry_id : Z; lk_infinity : bool;
  lk_owner_xml : string; lk_principal : string; lk_created_at : Z; lk_expires_at : Z;
  lk_null : bool }.

(** tg_backup_job_tab and tg_backup_job_file_tab; the kinds, policies and states are
    TEXT columns with a CHECK, and the column error_code of the files, which no
    statement reads, is left out *)
Inductive job_kind := JkExport | JkImport.
Inductive job_state :=
  | JsReceiving | JsQueued | JsSnapshotting | JsBuilding | JsValidating | JsStaging
  | JsPublishing | JsCanceling | JsSucceeded | JsFailed | JsCanceled.
Record job_row := {
  j_job_id : string; j_kind : job_kind; j_owner : string; j_state : job_state; j_scope : string;
  j_dry_run : bool; j_conflict : string; j_idempotency_key : string; j_fingerprint : string;
  j_artifact_path : string; j_snapshot_path : string; j_report_path : string; j_artifact_size : Z;
  j_artifact_sha256 : string; j_files_total : Z; j_files_completed : Z; j_parts_total : Z;
  j_parts_completed : Z; j_bytes_total : Z; j_bytes_completed : Z; j_mappings_created : Z;
  j_mappings_replaced : Z; j_files_created : Z; j_error_code : string; j_error_message : string;
  j_cancel_requested : bool; j_created_at : Z; j_updated_at : Z; j_completed_at : Z;
  j_artifact_expires_at : Z }.
Inductive stage_state := SsQueued | SsUploading | SsVerifying | SsReady | SsFailed.
Record job_file_row := {
  jf_job_id : string; jf_file_ref : string; jf_source_file_id : string; jf_target_file_id : Z;
  jf_layout : Z; jf_stage : stage_state; jf_next_part : Z; jf_ctime : Z; jf_mtime : Z }.

#[global] Instance job_kind_eq_dec : EqDecision job_kind.
Proof. solve_decision. Defined.
#[global] Instance job_state_eq_dec : EqDecision job_state.
Proof. solve_decision. Defined.
#[global] Instance delete_state_eq_dec : EqDecision delete_state.
Proof. solve_decision. Defined.
#[global] Instance change_kind_eq_dec : EqDecision change_kind.
Proof. solve_decision. Defined.
#[global] Instance directoryEntryTab_eq_dec : EqDecision directoryEntryTab.
Proof. solve_decision. Defined.

(** ** The database *)
Record DB := {
  t_file : list file_row;
  t_part : list part_row;
  t_mapping : list directoryEntryTab;
  t_delete : list delete_row;
  t_segment : list segment_row;
  t_completed : list completed_row;
  t_s3meta : list s3meta_row;
  t_upload : list upload_row;
  t_mpart : list mpart_row;
  t_property : list property_row;
  t_change : list change_row;
  t_pin : list pin_row;
  t_lock : list lock_row;
  t_job : list job_row;
  t_job_file : list job_file_row;
  (** AUTOINCREMENT counters of the file, mapping and change tables *)
  seq_file : Z; seq_mapping : Z; seq_change : Z }.

Definition empty_db : DB :=
  {| t_file := []; t_part := []; t_mapping := []; t_delete := []; t_segment := [];
     t_completed := []; t_s3meta := []; t_upload := []; t_mpart := [];
     t_property := []; t_change := []; t_pin := []; t_lock := []; t_job := []; t_job_file := [];
     seq_file := 0; seq_mapping := 0; seq_change := 0 |}.

Record World := { db : DB; ticks : nat; ids : nat }.

(** [time.Now().UnixMilli()] and [idgen.NextId()], by call number. *)
Class Env := { clk : nat -> Z; idfn : nat -> Z }.

(** What idgen promises: positive ids that do not repeat. *)
Class GoodIds `{!Env} : Prop := {
  idfn_pos : forall n, 0 < idfn n;
  idfn_inj : forall n m, idfn n = idfn m -> n = m }.

Definition set_file f (d : DB) : DB :=
  {| t_file := f (t_file d); t_part := t_part d; t_mapping := t_mapping d;
     t_delete := t_delete d; t_segment := t_segment d; t_completed := t_completed d;
     t_s3meta := t_s3meta d; t_upload := t_upload d; t_mpart := t_mpart d;
     t_property := t_property d; t_change := t_change d; t_pin := t_pin d; t_lock := t_lock d; t_job := t_job d; t_job_file := t_job_file d;
     seq_file := seq_file d; seq_mapping := seq_mapping d; seq_change := seq_change d |}.
Definition set_part f (d : DB) : DB :=
  {| t_file := t_file d; t_part := f (t_part d); t_mapping := t_mapping d;
     t_delete := t_delete d; t_segment := t_segment d; t_completed := t_completed d;
     t_s3meta := t_s3meta d; t_upload := t_upload d; t_mpart := t_mpart d;
     t_property := t_property d; t_change := t_change d; t_pin := t_pin d; t_lock := t_lock d; t_job := t_job d; t_job_file := t_job_file d;
     seq_file := seq_file d; seq_mapping := seq_mapping d; seq_change := seq_change d |}.
Definition set_mapping f (d : DB) : DB :=
  {| t_file := t_file d; t_part := t_part d; t_mapping := f (t_mapping d);
     t_delete := t_delete d; t_segment := t_segment d; t_completed := t_completed d;
     t_s3meta := t_s3meta d; t_upload := t_upload d; t_mpart := t_mpart d;
     t_property := t_property d; t_change := t_change d; t_pin := t_pin d; t_lock := t_lock d; t_job := t_job d; t_job_file := t_job_file d;
     seq_file := seq_file d; seq_mapping := seq_mapping d; seq_change := seq_change d |}.
Definition set_delete f (d : DB) : DB :=
  {| t_file := t_file d; t_part := t_part d; t_mapping := t_mapping d;
     t_delete := f (t_delete d); t_segment := t_segment d; t_completed := t_completed d;
     t_s3meta := t_s3meta d; t_upload := t_upload d; t_mpart := t_mpart d;
     t_property := t_property d; t_change := t_change d; t_pin := t_pin d; t_lock := t_lock d; t_job := t_job d; t_job_file := t_job_file d;
     seq_file := seq_file d; seq_mapping := seq_mapping d; seq_change := seq_change d |}.
Definition set_s3meta f (d : DB) : DB :=
  {| t_file := t_file d; t_part := t_part d; t_mapping := t_mapping d;
     t_delete := t_delete d; t_segment := t_segment d; t_completed := t_completed d;
     t_s3meta := f (t_s3meta d); t_upload := t_upload d; t_mpart := t_mpart d;
     t_property := t_property d; t_change := t_change d; t_pin := t_pin d; t_lock := t_lock d; t_job := t_job d; t_job_file := t_job_file d;
     seq_file := seq_file d; seq_mapping := seq_mapping d; seq_change := seq_change d |}.
Definition set_property f (d : DB) : DB :=
  {| t_file := t_file d; t_part := t_part d; t_mapping := t_mapping d;
     t_delete := t_delete d; t_segment := t_segment d; t_completed := t_completed d;
     t_s3meta := t_s3meta d; t_upload := t_upload d; t_mpart := t_mpart d;
     t_property := f (t_property d); t_change := t_change d; t_pin := t_pin d; t_lock := t_lock d; t_job := t_job d; t_job_file := t_job_file d;
     seq_file := seq_file d; seq_mapping := seq_mapping d; seq_change := seq_change d |}.
Definition set_lock f (d : DB) : DB :=
  {| t_file := t_file d; t_part := t_part d; t_mapping := t_mapping d;
     t_delete := t_delete d; t_segment := t_segment d; t_completed := t_completed d;
     t_s3meta := t_s3meta d; t_upload := t_upload d; t_mpart := t_mpart d;
     t_property := t_property d; t_change := t_change d; t_pin := t_pin d; t_lock := f (t_lock d); t_job := t_job d; t_job_file := t_job_file d;
     seq_file := seq_file d; seq_mapping := seq_mapping d; seq_change := seq_change d |}.
Definition set_segment f (d : DB) : DB :=
  {| t_file := t_file d; t_part := t_part d; t_mapping := t_mapping d;
     t_delete := t_delete d; t_segment := f (t_segment d); t_completed := t_completed d;
     t_s3meta := t_s3meta d; t_upload := t_upload d; t_mpart := t_mpart d;
     t_property := t_property d; t_change := t_change d; t_pin := t_pin d; t_lock := t_lock d; t_job := t_job d; t_job_file := t_job_file d;
     seq_file := seq_file d; seq_mapping := seq_mapping d; seq_change := seq_change d |}.
Definition set_completed f (d : DB) : DB :=
  {| t_file := t_file d; t_part := t_part d; t_mapping := t_mapping d;
     t_delete := t_delete d; t_segment := t_segment d; t_completed := f (t_completed d);
     t_s3meta := t_s3meta d; t_upload := t_upload d; t_mpart := t_mpart d;
     t_property := t_property d; t_change := t_change d; t_pin := t_pin d; t_lock := t_lock d; t_job := t_job d; t_job_file := t_job_file d;
     seq_file := seq_file d; seq_mapping := seq_mapping d; seq_change := seq_change d |}.
Definition set_upload f (d : DB) : DB :=
  {| t_file := t_file d; t_part := t_part d; t_mapping := t_mapping d;
     t_delete := t_delete d; t_segment := t_segment d; t_completed := t_completed d;
     t_s3meta := t_s3meta d; t_upload := f (t_upload d); t_mpart := t_mpart d;
     t_property := t_property d; t_change := t_change d; t_pin := t_pin d; t_lock := t_lock d; t_job := t_job d; t_job_file := t_job_file d;
     seq_file := seq_file d; seq_mapping := seq_mapping d; seq_change := seq_change d |}.
Definition set_mpart f (d : DB) : DB :=
  {| t_file := t_file d; t_part := t_part d; t_mapping := t_mapping d;
     t_delete := t_delete d; t_segment := t_segment d; t_completed := t_completed d;
     t_s3meta := t_s3meta d; t_upload := t_upload d; t_mpart := f (t_mpart d);
     t_property := t_property d; t_change := t_change d; t_pin := t_pin d; t_lock := t_lock d; t_job := t_job d; t_job_file := t_job_file d;
     seq_file := seq_file d; seq_mapping := seq_mapping d; seq_change := seq_change d |}.
Definition set_pin f (d : DB) : DB :=
  {| t_file := t_file d; t_part := t_part d; t_mapping := t_mapping d;
     t_delete := t_delete d; t_segment := t_segment d; t_completed := t_completed d;
     t_s3meta := t_s3meta d; t_upload := t_upload d; t_mpart := t_mpart d;
     t_property := t_property d; t_change := t_change d; t_pin := f (t_pin d); t_lock := t_lock d; t_job := t_job d; t_job_file := t_job_file d;
     seq_file := seq_file d; seq_mapping := seq_mapping d; seq_change := seq_change d |}.
Definition set_job f (d : DB) : DB :=
  {| t_file := t_file d; t_part := t_part d; t_mapping := t_mapping d;
     t_delete := t_delete d; t_segment := t_segment d; t_completed := t_completed d;
     t_s3meta := t_s3meta d; t_upload := t_upload d; t_mpart := t_mpart d;
     t_property := t_property d; t_change := t_change d; t_pin := t_pin d; t_lock := t_lock d; t_job := f (t_job d); t_job_file := t_job_file d;
     seq_file := seq_file d; seq_mapping := seq_mapping d; seq_change := seq_change d |}.
Definition set_job_file f (d : DB) : DB :=
  {| t_file := t_file d; t_part := t_part d; t_mapping := t_mapping d;
     t_delete := t_delete d; t_segment := t_segment d; t_completed := t_completed d;
     t_s3meta := t_s3meta d; t_upload := t_upload d; t_mpart := t_mpart d;
     t_property := t_property d; t_change := t_change d; t_pin := t_pin d; t_lock := t_lock d; t_job := t_job d; t_job_file := f (t_job_file d);
     seq_file := seq_file d; seq_mapping := seq_mapping d; seq_change := seq_change d |}.
(** An insert that also takes the next AUTOINCREMENT value. *)
Definition add_file (mk : Z -> file_row) (d : DB) : DB :=
  let n := seq_file d + 1 in
  {| t_file := t_file d ++ [mk n]; t_part := t_part d; t_mapping := t_mapping d;
     t_delete := t_delete d; t_segment := t_segment d; t_completed := t_completed d;
     t_s3meta := t_s3meta d; t_upload := t_upload d; t_mpart := t_mpart d;
     t_property := t_property d; t_change := t_change d; t_pin := t_pin d; t_lock := t_lock d; t_job := t_job d; t_job_file := t_job_file d;
     seq_file := n; seq_mapping := seq_mapping d; seq_change := seq_change d |}.
Definition add_mapping (mk : Z -> directoryEntryTab) (d : DB) : DB :=
  let n := seq_mapping d + 1 in
  {| t_file := t_file d; t_part := t_part d; t_mapping := t_mapping d ++ [mk n];
     t_delete := t_delete d; t_segment := t_segment d; t_completed := t_completed d;
     t_s3meta := t_s3meta d; t_upload := t_upload d; t_mpart := t_mpart d;
     t_property := t_property d; t_change := t_change d; t_pin := t_pin d; t_lock := t_lock d; t_job := t_job d; t_job_file := t_job_file d;
     seq_file := seq_file d; seq_mapping := n; seq_change := seq_change d |}.
Definition add_change (mk : Z -> change_row) (d : DB) : DB :=
  let n := seq_change d + 1 in
  {| t_file := t_file d; t_part := t_part d; t_mapping := t_mapping d;
     t_delete := t_delete d; t_segment := t_segment d; t_completed := t_completed d;
     t_s3meta := t_s3meta d; t_upload := t_upload d; t_mpart := t_mpart d;
     t_property := t_property d; t_change := t_change d ++ [mk n]; t_pin := t_pin d; t_lock := t_lock d; t_job := t_job d; t_job_file := t_job_file d;
     seq_file := seq_file d; seq_mapping := seq_mapping d; seq_change := n |}.

(** ** Statements *)
Section Exec.
Context `{!Env}.

Definition upd (f : DB -> DB) : M World unit :=
  modify (fun w => {| db := f (db w); ticks := ticks w; ids := ids w |}).
Definition query {A} (f : DB -> A) : M World A := reads (fun w => f (db w)).

Definition now : M World Z := fun w =>
  (Ok (clk (ticks w)), {| db := db w; ticks := S (ticks w); ids := ids w |}).
Definition NextId : M World Z := fun w =>
  (Ok (idfn (ids w)), {| db := db w; ticks := ticks w; ids := S (ids w) |}).

(** [db.OnTransation]: commit on success, roll back on error. *)
Definition OnTransation {A} (m : M World A) : M World A := fun w =>
  match m w with
  | (Ok a, w') => (Ok a, w')
  | (Err e, w') => (Err e, {| db := db w; ticks := ticks w'; ids := ids w' |})
  end.

(** INSERT into the mapping table, with UNIQUE (parent_entry_id, file_name) and
    UNIQUE (entry_id). *)
Definition mapping_conflict (t : list directoryEntryTab) (eid pid : Z) (name : string) : bool :=
  sql_exists (fun r => (EntryId_ r =? eid) ||
                       ((ParentEntryId_ r =? pid) && bool_decide (FileName_ r = name))) t.

Definition insert_mapping (mk : Z -> directoryEntryTab) : M World unit :=
  d ← query id;
  let r := mk 0 in
  _ ← check (mapping_conflict (t_mapping d) (EntryId_ r) (ParentEntryId_ r) (FileName_ r))
        ErrUniqueConstraint;
  upd (add_mapping mk).

(** INSERT into the change table, with CHECK (path != ''). *)
Definition insert_change (path : string) (kind : change_kind) (at_ : Z) : M World unit :=
  _ ← check (bool_decide (path = "")) ErrCheckConstraint;
  upd (add_change (fun n =>
    {| ch_revision := n; ch_path := path; ch_kind := kind; ch_at := at_ |})).

Lemma OnTransation_ok {A} (m : M World A) w a w' :
  OnTransation m w = (Ok a, w') <-> m w = (Ok a, w').
Proof. unfold OnTransation. destruct (m w) as [[?|?] ?]; naive_solver. Qed.

Lemma OnTransation_err {A} (m : M World A) w e w' :
  OnTransation m w = (Err e, w') -> db w' = db w.
Proof. unfold OnTransation. destruct (m w) as [[?|?] ?]; naive_solver. Qed.

(** A transaction keeps a property of the database that its body re-establishes
    whenever it succeeds. *)
Lemma OnTransation_preserves {A} (I : World -> Prop) (m : M World A) :
  (forall w, I w -> forall a w', m w = (Ok a, w') -> I w') ->
  (forall w e w', I w -> m w = (Err e, w') ->
     I {| db := db w; ticks := ticks w'; ids := ids w' |}) ->
  preserves I (OnTransation m).
Proof.
  intros Hok Herr w Hw. unfold OnTransation.
  destruct (m w) as [[a|e] w'] eqn:E; simpl; eauto.
Qed.
End Exec.

(** ** The database next to a block store *)
Section Both.
Context {B : Type}.

Definition on_db {A} (m : M World A) : M (World * B) A := fun s =>
  let '(res, w) := m s.1 in (res, (w, s.2)).
Definition on_store {A} (f : B -> outcome A * B) : M (World * B) A := fun s =>
  let '(res, b) := f s.2 in (res, (s.1, b)).

Lemma on_db_eq {A} (m : M World A) w b : on_db m (w, b) = ((m w).1, ((m w).2, b)).
Proof. unfold on_db. simpl. by destruct (m w). Qed.
End Both.

(** ** Runs of a program, step by step *)

Lemma query_ok {A} (f : DB -> A) w a w' : query f w = (Ok a, w') -> w' = w /\ a = f (db w).
Proof. by intros [= <- <-]. Qed.
Lemma lift_ok {A} (o : outcome A) (w : World) a w' : lift o w = (Ok a, w') -> w' = w /\ o = Ok a.
Proof. by intros [= -> <-]. Qed.
Lemma check_ok b e (w : World) a w' : check b e w = (Ok a, w') -> w' = w /\ b = false.
Proof. unfold check. destruct b; [done|]. by intros [= _ <-]. Qed.

(** The first step of a successful run. *)
Ltac step_ok H :=
  let a := fresh "a" in let w := fresh "w" in let H1 := fresh H in
  apply bind_ok_inv in H as (a & w & H1 & H);
  first [apply query_ok in H1 as [-> ->] | apply lift_ok in H1 as [-> H1]
        | apply check_ok in H1 as [-> H1] | idtac].
