(* ===== verification/Directory.v ===== *)
(** * The directory tree (src/directory/)

    The virtual file tree that S3 keys, WebDAV paths and the admin browser share:
    rows of the mapping table that point to their parent's entry id. [dbDirectory]
    is modelled operation by operation over the database of Store.v; the
    recursive walks take fuel, one more than the number of rows, which
    DirOps.v and DirTheorems.v shows is never exhausted. *)

From stdpp Require Import base strings list.
From S2P Require Import Prelude GoStr Store.

Module Directory.

Definition defaultFileKindDir : Z := 1.
Definition defaultFileKindFile : Z := 2.
Definition defaultEntryFileMode : Z := 493.  (* 0o755 *)

Definition IsDir (e : directoryEntryTab) : bool := FileKind_ e =? defaultFileKindDir.

Record EntryCopy := { Source : directoryEntryTab; Destination : directoryEntryTab }.
Record PageCursor := { pcIsDir : bool; pcName : string; pcEntryID : Z }.
Record DirectoryPage := {
  ParentEntryID : Z; Entries : list directoryEntryTab; HasMore : bool }.

(** ** Paths *)

Definition isArrayEqual (origin ck : list string) : bool := bool_decide (origin = ck).

(** Despite its name, it tests for a prefix. *)
Fixpoint isArrayHasSuffix (origin prefix : list string) : bool :=
  match prefix, origin with
  | [], _ => true
  | _ :: _, [] => false
  | p :: prefix, o :: origin => String.eqb o p && isArrayHasSuffix origin prefix
  end.

Fixpoint rebuild_loop (items : list string) : outcome (list string) :=
  match items with
  | [] => Ok []
  | item :: items =>
      if String.eqb item "" || String.eqb item "." then rebuild_loop items
      else if String.eqb item ".." then Err ErrInvalidPath
      else rs ← rebuild_loop items; Ok (item :: rs)
  end.
Definition rebuildDirItems (dir : string) : outcome (list string) :=
  rs ← rebuild_loop (split_on slash dir); Ok ("/" :: rs).

Definition splitFilename (filename : string) : string * string * bool :=
  let filename := path_clean filename in
  if String.eqb filename "/" then ("", "/", true)
  else
    let filename := trim_slash filename in
    (path_dir filename, path_base filename, false).

(** [false]: source and destination are the same path, nothing to do. *)
Definition precheckMoveCopy (src dst : string) : outcome bool :=
  s ← rebuildDirItems src;
  d ← rebuildDirItems dst;
  if isArrayEqual s d then Ok false
  else if isArrayHasSuffix d s then Err ErrDestinationInsideSource
  else if isArrayHasSuffix s d then Err ErrDestinationInsideSource
  else Ok true.

(** ** Queries on the mapping table *)

Definition search_row (pid : Z) (name : string) (t : list directoryEntryTab)
    : option directoryEntryTab :=
  head (sql_select (fun r => (ParentEntryId_ r =? pid) && bool_decide (FileName_ r = name)) t).

Definition by_entry_id (a b : directoryEntryTab) : bool := EntryId_ a <=? EntryId_ b.

Definition list_rows (pid : Z) (offset limit : nat) (t : list directoryEntryTab)
    : list directoryEntryTab :=
  sql_limit offset limit
    (order_by by_entry_id (sql_select (fun r => ParentEntryId_ r =? pid) t)).

Definition list_rows_after (pid last : Z) (limit : nat) (t : list directoryEntryTab)
    : list directoryEntryTab :=
  sql_limit 0 limit
    (order_by by_entry_id
       (sql_select (fun r => (ParentEntryId_ r =? pid) && (last <? EntryId_ r)) t)).

(** The offset loop of [txListAllDir]. *)
Fixpoint list_all_loop (fuel : nat) (pid : Z) (offset : nat) (t : list directoryEntryTab)
    : list directoryEntryTab :=
  match fuel with
  | O => []
  | S fuel =>
      let ents := list_rows pid offset 128 t in
      if Nat.ltb (length ents) 128 then ents
      else ents ++ list_all_loop fuel pid (offset + 128) t
  end.

Section Directory.
Context `{!Env}.

Definition txSearchEntry (pid : Z) (name : string) : M World (option directoryEntryTab) :=
  query (fun d => search_row pid name (t_mapping d)).

Definition txIsEntryExist (pid : Z) (name : string) : M World bool :=
  r ← txSearchEntry pid name; mret (bool_decide (is_Some r)).

Definition txGetRoot : M World (option directoryEntryTab) := txSearchEntry 0 "/".

Definition txListDir (parentid : Z) (offset limit : nat) : M World (list directoryEntryTab) :=
  query (fun d => list_rows parentid offset limit (t_mapping d)).

Definition txListDirAfter (parentID lastEntryID : Z) (limit : nat)
    : M World (list directoryEntryTab) :=
  query (fun d => list_rows_after parentID lastEntryID limit (t_mapping d)).

(** Its statements run inside one transaction, on one state of the table. *)
Definition txListAllDir (parentid : Z) : M World (list directoryEntryTab) :=
  query (fun d => list_all_loop (S (length (t_mapping d))) parentid 0 (t_mapping d)).

(** Fuel for a walk down the tree. *)
Definition tree_fuel : M World nat := query (fun d => S (length (t_mapping d))).

(** ** Statements that write *)

Definition recordChange (entryPath : string) (kind : change_kind) : M World unit :=
  t ← now; insert_change (path_clean entryPath) kind t.

Definition with_mtime (mtime : Z) (r : directoryEntryTab) : directoryEntryTab :=
  {| Id_ := Id_ r; EntryId_ := EntryId_ r; ParentEntryId_ := ParentEntryId_ r;
     RefData_ := RefData_ r; FileKind_ := FileKind_ r; Ctime_ := Ctime_ r;
     Mtime_ := mtime; FileSize_ := FileSize_ r; FileMode_ := FileMode_ r;
     FileName_ := FileName_ r |}.

Definition touchEntryID (entryID mtime : Z) : M World unit :=
  upd (set_mapping (sql_update (fun r => EntryId_ r =? entryID) (with_mtime mtime))).

Definition txCreateEntry (pid : Z) (ent : directoryEntryTab) : M World Z :=
  eid ← NextId;
  _ ← insert_mapping (fun n =>
        {| Id_ := n; EntryId_ := eid; ParentEntryId_ := pid; RefData_ := RefData_ ent;
           FileKind_ := FileKind_ ent; Ctime_ := Ctime_ ent; Mtime_ := Mtime_ ent;
           FileSize_ := FileSize_ ent; FileMode_ := FileMode_ ent;
           FileName_ := FileName_ ent |});
  mret eid.

Definition txRemove (parentid : Z) (name : string) : M World unit :=
  upd (set_mapping (sql_delete (fun r =>
    (ParentEntryId_ r =? parentid) && bool_decide (FileName_ r = name)))).

Definition new_entry (pid : Z) (refdata : string) (kind now size mode : Z) (name : string)
    : directoryEntryTab :=
  {| Id_ := 0; EntryId_ := 0; ParentEntryId_ := pid; RefData_ := refdata;
     FileKind_ := kind; Ctime_ := now; Mtime_ := now; FileSize_ := size;
     FileMode_ := mode; FileName_ := name |}.

Definition txCreateDir (pid : Z) (name : string) : M World Z :=
  t ← now;
  txCreateEntry pid (new_entry pid "" defaultFileKindDir t 0 defaultEntryFileMode name).

Definition txCreateFile (pid : Z) (ent : directoryEntryTab) : M World Z :=
  txCreateEntry pid ent.

(** UPDATE of parent and name; UNIQUE (parent_entry_id, file_name) is checked
    against the other rows. *)
Definition reparent (pid : Z) (newname : option string) (r : directoryEntryTab)
    : directoryEntryTab :=
  {| Id_ := Id_ r; EntryId_ := EntryId_ r; ParentEntryId_ := pid;
     RefData_ := RefData_ r; FileKind_ := FileKind_ r; Ctime_ := Ctime_ r;
     Mtime_ := Mtime_ r; FileSize_ := FileSize_ r; FileMode_ := FileMode_ r;
     FileName_ := default (FileName_ r) newname |}.

Definition reparent_conflict (entryid pid : Z) (newname : option string)
    (t : list directoryEntryTab) : bool :=
  sql_exists (fun m => (EntryId_ m =? entryid) &&
    sql_exists (fun r => negb (EntryId_ r =? entryid) && (ParentEntryId_ r =? pid) &&
      bool_decide (FileName_ r = default (FileName_ m) newname)) t) t.

Definition txChangeParent (entryid parentid : Z) (newname : option string) : M World unit :=
  t ← query t_mapping;
  _ ← check (reparent_conflict entryid parentid newname t) ErrUniqueConstraint;
  _ ← upd (set_mapping (sql_update (fun r => EntryId_ r =? entryid)
                          (reparent parentid newname)));
  check (sql_count (fun r => EntryId_ r =? entryid) t =? 0) ErrNoRowsAffected.

(** ** Walking a path *)

Definition txSelectDirComponent (parentID : Z) (name componentPath : string)
    (allowCreate : bool) : M World directoryEntryTab :=
  entry ← txSearchEntry parentID name;
  match entry with
  | Some entry => mret entry
  | None =>
      if negb allowCreate then fail ErrNotExist
      else
        entryID ← txCreateDir parentID name;
        _ ← recordChange componentPath CkCreated;
        _ ← (if negb (parentID =? 0) then t ← now; touchEntryID parentID t else mret tt);
        mret {| Id_ := 0; EntryId_ := entryID; ParentEntryId_ := 0; RefData_ := "";
                FileKind_ := defaultFileKindDir; Ctime_ := 0; Mtime_ := 0;
                FileSize_ := 0; FileMode_ := 0; FileName_ := name |}
  end.

(** [seen] is [items[:idx]]. *)
Fixpoint select_loop (seen items : list string) (parentid : Z) (allowCreate : bool)
    : M World Z :=
  match items with
  | [] => mret parentid
  | item :: items =>
      let seen := seen ++ [item] in
      ent ← txSelectDirComponent parentid item (path_join seen) allowCreate;
      _ ← check (negb (FileKind_ ent =? defaultFileKindDir)) ErrPathComponentNotDirectory;
      select_loop seen items (EntryId_ ent) allowCreate
  end.

Definition txOnSelectDir {A} (dir : string) (allowCreate : bool) (cb : Z -> M World A)
    : M World A :=
  items ← lift (rebuildDirItems dir);
  parentid ← select_loop [] items 0 allowCreate;
  cb parentid.

(** The entry, and the parent's id that [exportLastParentID] receives. *)
Definition txGetEntryInfo (location : string) : M World (option directoryEntryTab * Z) :=
  let '(dir, name, isRoot) := splitFilename location in
  if isRoot then r ← txGetRoot; mret (r, 0)
  else txOnSelectDir dir false (fun parentid =>
         r ← txSearchEntry parentid name; mret (r, parentid)).

Definition touchParent (entryPath : string) (mtime : Z) : M World unit :=
  r ← attempt (txGetEntryInfo (path_dir (path_clean entryPath)));
  match r with
  | Err e => if decide (e = ErrNotExist) then mret tt else fail e
  | Ok (None, _) => mret tt
  | Ok (Some parent, _) => touchEntryID (EntryId_ parent) mtime
  end.

Fixpoint tree_changes (fuel : nat) (kind : change_kind) (entryPath : string)
    (current : directoryEntryTab) : M World unit :=
  match fuel with
  | O => fail Diverge
  | S fuel =>
      _ ← recordChange entryPath kind;
      if negb (FileKind_ current =? defaultFileKindDir) then mret tt
      else
        children ← txListAllDir (EntryId_ current);
        for_each (fun child =>
          tree_changes fuel kind (path_join [entryPath; FileName_ child]) child) children
  end.

Definition recordTreeChanges (root : string) (kind : change_kind) : M World unit :=
  r ← txGetEntryInfo root;
  match r.1 with
  | None => fail ErrNotExist
  | Some entry => fuel ← tree_fuel; tree_changes fuel kind (path_clean root) entry
  end.

Definition onSelectDir {A} (dir : string) (allowCreate : bool) (cb : Z -> M World A)
    : M World A := OnTransation (txOnSelectDir dir allowCreate cb).

Definition txCreateRoot : M World directoryEntryTab :=
  ent ← txGetRoot;
  match ent with
  | Some ent => mret ent
  | None =>
      t ← now;
      _ ← txCreateEntry 0 (new_entry 0 "" defaultFileKindDir t 0 defaultEntryFileMode "/");
      ent ← txGetRoot;
      match ent with Some ent => mret ent | None => fail ErrRootNotFoundAfterCreate end
  end.

End Directory.

(** ** directoryTransaction *)
Module Tx.
Section Tx.
Context `{!Env}.

Definition Stat (filename : string) : M World (option directoryEntryTab) :=
  r ← attempt (txGetEntryInfo filename);
  match r with
  | Err e => if decide (e = ErrNotExist) then mret None else fail e
  | Ok (entry, _) => mret entry
  end.

Definition Create (filename : string) (size : Z) (refdata : string)
    : M World directoryEntryTab :=
  let filename := trim_slash filename in
  let '(dir, name, isRoot) := splitFilename filename in
  if isRoot then fail ErrEntryMustNotBeRoot
  else
    created ← txOnSelectDir dir true (fun parentID =>
      exists_ ← txIsEntryExist parentID name;
      if (exists_ : bool) then fail ErrExist
      else
        t ← now;
        let entry := new_entry parentID refdata defaultFileKindFile t size
                       defaultEntryFileMode name in
        entryID ← txCreateFile parentID entry;
        mret {| Id_ := 0; EntryId_ := entryID; ParentEntryId_ := parentID;
                RefData_ := refdata; FileKind_ := defaultFileKindFile; Ctime_ := t;
                Mtime_ := t; FileSize_ := size; FileMode_ := defaultEntryFileMode;
                FileName_ := name |});
    _ ← recordChange filename CkCreated;
    t ← now;
    _ ← touchParent filename t;
    mret created.

Definition Mkdir (dirname : string) : M World directoryEntryTab :=
  let dirname := trim_slash dirname in
  let '(parent, name, isRoot) := splitFilename dirname in
  if isRoot then fail ErrEntryMustNotBeRoot
  else
    r ← attempt (txOnSelectDir parent false (fun parentID =>
      exists_ ← txIsEntryExist parentID name;
      if (exists_ : bool) then fail ErrExist
      else
        entryID ← txCreateDir parentID name;
        entry ← txSearchEntry parentID name;
        match entry with
        | None => fail ErrOther
        | Some entry =>
            mret {| Id_ := Id_ entry; EntryId_ := entryID;
                    ParentEntryId_ := ParentEntryId_ entry; RefData_ := RefData_ entry;
                    FileKind_ := FileKind_ entry; Ctime_ := Ctime_ entry;
                    Mtime_ := Mtime_ entry; FileSize_ := FileSize_ entry;
                    FileMode_ := FileMode_ entry; FileName_ := FileName_ entry |}
        end));
    match r with
    | Err e => fail (if decide (e = ErrNotExist) then ErrParentNotFound else e)
    | Ok created =>
        _ ← recordChange dirname CkCreated;
        t ← now;
        _ ← touchParent dirname t;
        mret created
    end.

Definition with_content (refdata : string) (size mtime : Z) (r : directoryEntryTab)
    : directoryEntryTab :=
  {| Id_ := Id_ r; EntryId_ := EntryId_ r; ParentEntryId_ := ParentEntryId_ r;
     RefData_ := refdata; FileKind_ := FileKind_ r; Ctime_ := Ctime_ r;
     Mtime_ := mtime; FileSize_ := size; FileMode_ := FileMode_ r;
     FileName_ := FileName_ r |}.

(** It returns the entry as it was before. *)
Definition Replace (filename : string) (size : Z) (refdata : string) (mtime : Z)
    : M World directoryEntryTab :=
  r ← txGetEntryInfo filename;
  match r.1 with
  | None => fail ErrNotExist
  | Some entry =>
      _ ← check (negb (FileKind_ entry =? defaultFileKindFile)) ErrEntryNotFile;
      _ ← upd (set_mapping (sql_update (fun r => EntryId_ r =? EntryId_ entry)
                              (with_content refdata size mtime)));
      _ ← recordChange filename CkUpdated;
      _ ← touchParent filename mtime;
      mret entry
  end.

Fixpoint collectAndRemove (fuel : nat) (entryPath : string) (entry : directoryEntryTab)
    (removed : list directoryEntryTab) : M World (list directoryEntryTab) :=
  match fuel with
  | O => fail Diverge
  | S fuel =>
      removed ← (if FileKind_ entry =? defaultFileKindDir then
        children ← txListAllDir (EntryId_ entry);
        fold_each (fun removed child =>
          collectAndRemove fuel (path_join [entryPath; FileName_ child]) child removed)
          removed children
      else mret removed);
      _ ← recordChange entryPath CkDeleted;
      _ ← txRemove (ParentEntryId_ entry) (FileName_ entry);
      mret (removed ++ [entry])
  end.

Definition Remove (filename : string) : M World (list directoryEntryTab) :=
  r ← txGetEntryInfo filename;
  match r.1 with
  | None => mret []
  | Some entry =>
      fuel ← tree_fuel;
      removed ← collectAndRemove fuel (path_clean filename) entry [];
      t ← now;
      _ ← touchParent filename t;
      mret removed
  end.

Definition Touch (filename : string) (mtime : Z) : M World unit :=
  r ← txGetEntryInfo filename;
  match r.1 with
  | None => fail ErrNotExist
  | Some entry =>
      _ ← touchEntryID (EntryId_ entry) mtime;
      recordChange filename CkUpdated
  end.

Fixpoint collectEntries (fuel : nat) (entry : directoryEntryTab)
    (entries : list directoryEntryTab) : M World (list directoryEntryTab) :=
  match fuel with
  | O => fail Diverge
  | S fuel =>
      entries ← (if FileKind_ entry =? defaultFileKindDir then
        children ← txListAllDir (EntryId_ entry);
        fold_each (fun entries child => collectEntries fuel child entries) entries children
      else mret entries);
      mret (entries ++ [entry])
  end.

Fixpoint collectCopyPairs (fuel : nat) (source destination : directoryEntryTab)
    (recursive : bool) (pairs : list EntryCopy) : M World (list EntryCopy) :=
  match fuel with
  | O => fail Diverge
  | S fuel =>
      let pairs := pairs ++ [{| Source := source; Destination := destination |}] in
      if (FileKind_ source =? defaultFileKindFile) || negb recursive then mret pairs
      else
        sourceChildren ← txListAllDir (EntryId_ source);
        fold_each (fun pairs sourceChild =>
          destinationChild ← txSearchEntry (EntryId_ destination) (FileName_ sourceChild);
          match destinationChild with
          | None => fail ErrOther
          | Some destinationChild =>
              collectCopyPairs fuel sourceChild destinationChild true pairs
          end) pairs sourceChildren
  end.
End Tx.
End Tx.

Section Transfer.
Context `{!Env}.

Fixpoint txDoIterAndCopy (fuel : nat) (srcinfo : directoryEntryTab) (dstparent : Z)
    (destination newname : string) (recursive : bool) : M World unit :=
  match fuel with
  | O => fail Diverge
  | S fuel =>
      t ← now;
      dstentid ← txCreateEntry dstparent
        (new_entry dstparent (RefData_ srcinfo) (FileKind_ srcinfo) t (FileSize_ srcinfo)
           (FileMode_ srcinfo) newname);
      _ ← recordChange destination CkCreated;
      if (FileKind_ srcinfo =? defaultFileKindFile) || negb recursive then mret tt
      else
        items ← txListAllDir (EntryId_ srcinfo);
        for_each (fun item =>
          txDoIterAndCopy fuel item dstentid (path_join [destination; FileName_ item])
            (FileName_ item) true) items
  end.

Definition txDoCopyDepth (src dst : string) (overwrite recursive : bool) : M World unit :=
  next ← lift (precheckMoveCopy src dst);
  if negb next then mret tt
  else
    sinfo ← txGetEntryInfo src;
    match sinfo.1 with
    | None => fail ErrSourceNotFound
    | Some sinfo =>
        let '(_, dname, isRoot) := splitFilename dst in
        if (isRoot : bool) then fail ErrDestinationMustNotBeRoot
        else
          dst_r ← txGetEntryInfo dst;
          _ ← match dst_r.1 with
              | None => mret tt
              | Some dinfo =>
                  if negb overwrite then fail ErrDestinationExists
                  else
                    fuel ← tree_fuel;
                    _ ← Tx.collectAndRemove fuel (path_clean dst) dinfo [];
                    mret tt
              end;
          fuel ← tree_fuel;
          _ ← txDoIterAndCopy fuel sinfo dst_r.2 (path_clean dst) dname recursive;
          t ← now;
          touchParent dst t
    end.

Definition txDoMove (src dst : string) (overwrite : bool) : M World unit :=
  next ← lift (precheckMoveCopy src dst);
  if negb next then mret tt
  else
    sinfo ← txGetEntryInfo src;
    match sinfo.1 with
    | None => fail ErrSourceNotFound
    | Some sinfo =>
        dst_r ← txGetEntryInfo dst;
        let '(_, dname, isRoot) := splitFilename dst in
        if (isRoot : bool) then fail ErrEntryMustNotBeRoot
        else match dst_r.1 with
        | None => txChangeParent (EntryId_ sinfo) dst_r.2 (Some dname)
        | Some dinfo =>
            if negb overwrite then fail ErrDestinationExists
            else
              fuel ← tree_fuel;
              _ ← Tx.collectAndRemove fuel (path_clean dst) dinfo [];
              txChangeParent (EntryId_ sinfo) dst_r.2 (Some dname)
        end
    end.

(** The entries under the destination, when it exists. *)
Definition overwritten_entries (destination : string) : M World (list directoryEntryTab) :=
  r ← attempt (txGetEntryInfo destination);
  match r with
  | Err e => if decide (e = ErrNotExist) then mret [] else fail e
  | Ok (None, _) => mret []
  | Ok (Some entry, _) => fuel ← tree_fuel; Tx.collectEntries fuel entry []
  end.

Definition CopyDepth (source destination : string) (overwrite recursive : bool)
    : M World (list EntryCopy * list directoryEntryTab) :=
  next ← lift (precheckMoveCopy source destination);
  if negb next then mret ([], [])
  else
    overwritten ← overwritten_entries destination;
    _ ← txDoCopyDepth source destination overwrite recursive;
    sourceEntry ← txGetEntryInfo source;
    match sourceEntry.1 with
    | None => fail ErrOther
    | Some sourceEntry =>
        copiedEntry ← txGetEntryInfo destination;
        match copiedEntry.1 with
        | None => fail ErrOther
        | Some copiedEntry =>
            fuel ← tree_fuel;
            pairs ← Tx.collectCopyPairs fuel sourceEntry copiedEntry recursive [];
            mret (pairs, overwritten)
        end
    end.

Definition Copy_tx (source destination : string) (overwrite : bool)
    : M World (list EntryCopy * list directoryEntryTab) :=
  CopyDepth source destination overwrite true.

Definition Move_tx (source destination : string) (overwrite : bool)
    : M World (list directoryEntryTab) :=
  next ← lift (precheckMoveCopy source destination);
  if negb next then mret []
  else
    overwritten ← overwritten_entries destination;
    _ ← recordTreeChanges source CkDeleted;
    _ ← txDoMove source destination overwrite;
    _ ← recordTreeChanges destination CkCreated;
    t ← now;
    _ ← touchParent source t;
    _ ← touchParent destination t;
    mret overwritten.

(** ** dbDirectory *)

Definition Mkdir (dir : string) : M World unit :=
  let '(pdir, name, isRoot) := splitFilename dir in
  if isRoot then _ ← txCreateRoot; mret tt
  else onSelectDir pdir true (fun parentid =>
    exist ← txIsEntryExist parentid name;
    if (exist : bool) then mret tt
    else
      _ ← txCreateDir parentid name;
      _ ← recordChange dir CkCreated;
      t ← now;
      touchEntryID parentid t).

Definition Copy (src dst : string) (overwrite : bool) : M World unit :=
  OnTransation (_ ← Copy_tx src dst overwrite; mret tt).
Definition Move (src dst : string) (overwrite : bool) : M World unit :=
  OnTransation (_ ← Move_tx src dst overwrite; mret tt).
Definition Remove (filename : string) : M World unit :=
  OnTransation (_ ← Tx.Remove filename; mret tt).
Definition Create (filename : string) (size : Z) (refdata : string) : M World unit :=
  OnTransation (_ ← Tx.Create filename size refdata; mret tt).

Definition Stat (filename : string) : M World directoryEntryTab :=
  let '(dir, name, isRoot) := splitFilename filename in
  if isRoot then
    ent ← txGetRoot;
    match ent with None => fail ErrNotExist | Some ent => mret ent end
  else onSelectDir dir false (fun parentid =>
    t ← txSearchEntry parentid name;
    match t with None => fail ErrNotExist | Some t => mret t end).

Definition List_ (dir : string) : M World (list directoryEntryTab) :=
  onSelectDir dir false txListAllDir.

(** file_kind ASC, file_name COLLATE BINARY ASC, entry_id ASC *)
Definition page_le (a b : directoryEntryTab) : bool :=
  (FileKind_ a <? FileKind_ b) ||
  ((FileKind_ a =? FileKind_ b) &&
   (String.ltb (FileName_ a) (FileName_ b) ||
    (String.eqb (FileName_ a) (FileName_ b) && (EntryId_ a <=? EntryId_ b)))).

Definition after_cursor (cursor : option PageCursor) (r : directoryEntryTab) : bool :=
  match cursor with
  | None => true
  | Some c =>
      let kind := if pcIsDir c then defaultFileKindDir else defaultFileKindFile in
      (kind <? FileKind_ r) ||
      ((FileKind_ r =? kind) && String.ltb (pcName c) (FileName_ r)) ||
      ((FileKind_ r =? kind) && String.eqb (FileName_ r) (pcName c) &&
       (pcEntryID c <? EntryId_ r))
  end.

Definition txListDirPage (parentID : Z) (cursor : option PageCursor) (limit : nat)
    : M World (list directoryEntryTab) :=
  query (fun d => sql_limit 0 limit (order_by page_le (sql_select (fun r =>
    (ParentEntryId_ r =? parentID) && after_cursor cursor r) (t_mapping d)))).

Definition ListPage (dir : string) (cursor : option PageCursor) (limit : Z)
    : M World DirectoryPage :=
  _ ← check ((limit =? 0) || (500 <? limit)) ErrInvalidPageLimit;
  _ ← check (match cursor with
             | Some c => String.eqb (pcName c) "" || (pcEntryID c =? 0)
             | None => false end) ErrInvalidPageCursor;
  onSelectDir dir false (fun parentID =>
    entries ← txListDirPage parentID cursor (Z.to_nat (limit + 1));
    mret (if limit <? zlen entries
          then {| ParentEntryID := parentID; Entries := ztake limit entries; HasMore := true |}
          else {| ParentEntryID := parentID; Entries := entries; HasMore := false |})).

(** Batches for a callback that may read and write the database itself; it
    returns whether to go on. *)
Section Batches.
Context {A : Type} (cb : A -> list directoryEntryTab -> M World (bool * A)).

Fixpoint iterate_loop (fuel : nat) (parentID lastEntryID : Z) (batch : nat) (acc : A)
    : M World A :=
  match fuel with
  | O => fail Diverge
  | S fuel =>
      items ← txListDirAfter parentID lastEntryID batch;
      r ← cb acc items;
      if negb r.1 || Nat.ltb (length items) batch then mret r.2
      else match last items with
           | None => fail Panic
           | Some item => iterate_loop fuel parentID (EntryId_ item) batch r.2
           end
  end.

Definition Iterate (dir : string) (batch : nat) (acc : A) : M World A :=
  _ ← check (Nat.eqb batch 0) ErrInvalidScanBatch;
  parentID ← onSelectDir dir false mret;
  fuel ← tree_fuel;
  iterate_loop fuel parentID 0 batch acc.

Definition innerScan (lastid : Z) (batch : nat) : M World (list directoryEntryTab * Z) :=
  rs ← query (fun d => sql_limit 0 batch
         (order_by (fun a b => Id_ a <=? Id_ b)
            (sql_select (fun r => lastid <? Id_ r) (t_mapping d))));
  mret (rs, match last rs with Some r => Id_ r | None => 0 end).

Definition Scan (batch : nat) (acc : A) : M World A :=
  _ ← check (Nat.eqb batch 0 || Nat.ltb (Z.to_nat 1000000) batch) ErrInvalidScanBatch;
  fuel ← tree_fuel;
  batch_loop (fun lastid => innerScan lastid batch) cb batch fuel 0 acc.
End Batches.
End Transfer.
End Directory.
