(* ===== verification/DirFrame.v ===== *)
(** * Directory: what the operations leave alone

    A property of the state that survives the statements the directory runs
    (touching, re-parenting and rewriting rows of the mapping table, deleting and
    inserting rows, appending to the change log), the clock, the id generator and
    rollback is kept by every operation of Directory.v. [okref] limits the content
    references that may be written; what a copy writes it has read from the table.
    Such properties: the other tables keep their rows, the id generator only moves
    forward, and no operation makes up a content reference. *)

From stdpp Require Import base strings list.
From S2P Require Import Prelude GoStr Store Directory.
Import Directory.

Definition with_db (w : World) (d : DB) : World := {| db := d; ticks := ticks w; ids := ids w |}.

(** The statements that change rows in place or delete them. *)
Inductive row_stmt (okref : string -> Prop) : (list directoryEntryTab -> list directoryEntryTab) -> Prop :=
  | stmt_touch p m : row_stmt okref (sql_update p (with_mtime m))
  | stmt_reparent p pid n : row_stmt okref (sql_update p (reparent pid n))
  | stmt_content p ref z m : okref ref -> row_stmt okref (sql_update p (Tx.with_content ref z m))
  | stmt_delete p : row_stmt okref (sql_delete p).
#[export] Hint Constructors row_stmt : dir.

Class DirStable (I : World -> Prop) (okref : string -> Prop) := {
  ds_empty : okref "";
  ds_row : forall w r, I w -> r ∈ t_mapping (db w) -> okref (RefData_ r);
  ds_mapping : forall w f, row_stmt okref f -> I w -> I (with_db w (set_mapping f (db w)));
  ds_insert : forall w mk, (forall n, okref (RefData_ (mk n))) -> I w ->
    I (with_db w (add_mapping mk (db w)));
  ds_change : forall w mk, I w -> I (with_db w (add_change mk (db w)));
  ds_now : forall w, I w -> I {| db := db w; ticks := S (ticks w); ids := ids w |};
  ds_id : forall w, I w -> I {| db := db w; ticks := ticks w; ids := S (ids w) |};
  ds_rollback : forall w w', I w -> I w' -> I {| db := db w; ticks := ticks w'; ids := ids w' |} }.

(** [m] keeps [I] and, where [I] holds, returns only values in [Q]. *)
Definition keeps {A} (I : World -> Prop) (m : M World A) (Q : A -> Prop) : Prop :=
  forall w, I w -> I (m w).2 /\ forall a, (m w).1 = Ok a -> Q a.

Lemma preserves_keeps_bind {A B} (I : World -> Prop) (m : M World A) Q (f : A -> M World B) :
  keeps I m Q -> (forall a, Q a -> preserves I (f a)) -> preserves I (m ≫= f).
Proof.
  intros Hm Hf w Hw. specialize (Hm w Hw) as [HI HQ]. unfold mbind, M_bind.
  destruct (m w) as [[a|e] w']; simpl in *; [|done]. apply Hf; [by apply HQ|done].
Qed.

Lemma preserves_for_each_in {A} (I : World -> Prop) (f : A -> M World unit) l :
  (forall a, a ∈ l -> preserves I (f a)) -> preserves I (for_each f l).
Proof.
  induction l as [|a l IH]; intros Hf; simpl; [apply preserves_ret|].
  apply preserves_bind; [apply Hf; left|]. intros _. apply IH. intros. apply Hf. by right.
Qed.

Lemma list_all_loop_elem fuel pid off t r : r ∈ list_all_loop fuel pid off t -> r ∈ t.
Proof.
  assert (forall o n, r ∈ list_rows pid o n t -> r ∈ t) as Hrow.
  { intros o n Hr. unfold list_rows, sql_limit in Hr.
    eapply elem_of_sublist in Hr; [|etrans; [apply sublist_take|apply sublist_drop]].
    apply order_by_elem, sql_select_elem in Hr. by destruct Hr. }
  revert off. induction fuel as [|fuel IH]; intros off; cbn [list_all_loop]; [by intros ?%elem_of_nil|].
  destruct (Nat.ltb _ _); [apply Hrow|]. intros [?|?]%elem_of_app; [by eapply Hrow|by eapply IH].
Qed.

Create HintDb dir.
#[export] Hint Resolve preserves_ret preserves_fail preserves_lift
  preserves_reads preserves_check preserves_for_each
  preserves_attempt preserves_fold_each : dir.

(** Goes through binds, conditionals and matches down to known operations. *)
Ltac dir_step :=
  lazymatch goal with
  | |- preserves _ ?m =>
      lazymatch m with
      | mbind _ _ => apply preserves_bind; [|intros ?]
      | for_each _ _ => apply preserves_for_each; intros ?
      | fold_each _ _ _ => apply preserves_fold_each; intros ? ?
      | attempt _ => apply preserves_attempt
      | let _ := _ in _ => cbv zeta
      | match ?x with _ => _ end => destruct x
      | _ => solve [auto with dir]
      end
  end.
Ltac dir_frame := repeat dir_step.

Section Frame.
Context `{!Env} (I : World -> Prop) {okref : string -> Prop} `{!DirStable I okref}.

Lemma ref_empty : okref "".
Proof using Type*. exact (ds_empty (I := I)). Qed.
Lemma preserves_mapping f : row_stmt okref f -> preserves I (upd (set_mapping f)).
Proof. intros Hf w Hw. by apply ds_mapping. Qed.
Lemma preserves_add_mapping mk :
  (forall n, okref (RefData_ (mk n))) -> preserves I (upd (add_mapping mk)).
Proof. intros Hmk w Hw. by apply ds_insert. Qed.
Lemma preserves_add_change mk : preserves I (upd (add_change mk)).
Proof. intros w Hw. by apply ds_change. Qed.
Lemma preserves_now : preserves I now.
Proof. intros w Hw. by apply ds_now. Qed.
Lemma preserves_NextId : preserves I NextId.
Proof. intros w Hw. by apply ds_id. Qed.
Lemma preserves_OnTransation {A} (m : M World A) :
  preserves I m -> preserves I (OnTransation m).
Proof.
  intros Hm w Hw. specialize (Hm w Hw). unfold OnTransation.
  destruct (m w) as [[a|e] w']; simpl in *; [done|by apply ds_rollback].
Qed.
Lemma preserves_query {A} (f : DB -> A) : preserves I (query f).
Proof. apply preserves_reads. Qed.
#[local] Hint Resolve preserves_mapping preserves_add_mapping preserves_add_change ref_empty
  preserves_now preserves_NextId preserves_OnTransation preserves_query : dir.

Lemma preserves_txSearchEntry pid name : preserves I (txSearchEntry pid name).
Proof. apply preserves_query. Qed.
Lemma preserves_txListAllDir pid : preserves I (txListAllDir pid).
Proof. apply preserves_query. Qed.
Lemma preserves_tree_fuel : preserves I tree_fuel.
Proof. apply preserves_query. Qed.
Lemma preserves_insert_mapping mk :
  (forall n, okref (RefData_ (mk n))) -> preserves I (insert_mapping mk).
Proof. intros Hmk. unfold insert_mapping. dir_frame. Qed.
Lemma preserves_recordChange p k : preserves I (recordChange p k).
Proof. unfold recordChange, insert_change. dir_frame. Qed.
Lemma preserves_touchEntryID e m : preserves I (touchEntryID e m).
Proof. apply preserves_mapping. constructor. Qed.
Lemma preserves_txRemove p n : preserves I (txRemove p n).
Proof. apply preserves_mapping. constructor. Qed.
#[local] Hint Resolve preserves_txSearchEntry preserves_txListAllDir preserves_tree_fuel
  preserves_insert_mapping preserves_recordChange preserves_touchEntryID preserves_txRemove : dir.

Lemma preserves_txCreateEntry p e : okref (RefData_ e) -> preserves I (txCreateEntry p e).
Proof. intros He. unfold txCreateEntry. dir_frame. Qed.
#[local] Hint Resolve preserves_txCreateEntry : dir.
Lemma preserves_txCreateDir p n : preserves I (txCreateDir p n).
Proof.
  unfold txCreateDir. apply preserves_bind; [auto with dir|]. intros t.
  apply preserves_txCreateEntry, ref_empty.
Qed.
Lemma preserves_txChangeParent e p n : preserves I (txChangeParent e p n).
Proof. unfold txChangeParent. dir_frame. Qed.
Lemma preserves_txIsEntryExist p n : preserves I (txIsEntryExist p n).
Proof. unfold txIsEntryExist. dir_frame. Qed.
#[local] Hint Resolve preserves_txCreateDir preserves_txChangeParent preserves_txIsEntryExist : dir.

Lemma preserves_select_loop seen items p b : preserves I (select_loop seen items p b).
Proof.
  revert seen p. induction items as [|i items IH]; intros seen p; cbn [select_loop];
    [dir_frame|]. unfold txSelectDirComponent. dir_frame.
Qed.
#[local] Hint Resolve preserves_select_loop : dir.
Lemma preserves_txOnSelectDir {A} d b (cb : Z -> M World A) :
  (forall p, preserves I (cb p)) -> preserves I (txOnSelectDir d b cb).
Proof. intros Hcb. unfold txOnSelectDir. dir_frame. Qed.
#[local] Hint Resolve preserves_txOnSelectDir : dir.
Lemma preserves_txGetEntryInfo s : preserves I (txGetEntryInfo s).
Proof.
  unfold txGetEntryInfo, txGetRoot. dir_frame; try (apply preserves_txOnSelectDir; intros; dir_frame).
Qed.
#[local] Hint Resolve preserves_txGetEntryInfo : dir.
Lemma preserves_touchParent s m : preserves I (touchParent s m).
Proof. unfold touchParent. dir_frame. Qed.
#[local] Hint Resolve preserves_touchParent : dir.
Lemma preserves_tree_changes fuel k p e : preserves I (tree_changes fuel k p e).
Proof. revert p e. induction fuel; intros; cbn [tree_changes]; dir_frame. Qed.
#[local] Hint Resolve preserves_tree_changes : dir.
Lemma preserves_recordTreeChanges s k : preserves I (recordTreeChanges s k).
Proof. unfold recordTreeChanges. dir_frame. Qed.
Lemma preserves_collectAndRemove fuel p e r : preserves I (Tx.collectAndRemove fuel p e r).
Proof. revert p e r. induction fuel; intros; cbn [Tx.collectAndRemove]; dir_frame. Qed.
Lemma preserves_collectEntries fuel e r : preserves I (Tx.collectEntries fuel e r).
Proof. revert e r. induction fuel; intros; cbn [Tx.collectEntries]; dir_frame. Qed.
Lemma preserves_collectCopyPairs fuel s d b r : preserves I (Tx.collectCopyPairs fuel s d b r).
Proof. revert s d b r. induction fuel; intros; cbn [Tx.collectCopyPairs]; dir_frame. Qed.
(** The rows the directory reads carry references of the table. *)
Lemma keeps_txSearchEntry pid name :
  keeps I (txSearchEntry pid name) (fun o => forall r, o = Some r -> okref (RefData_ r)).
Proof.
  intros w Hw. split; [done|]. intros o [= <-] r Hr. apply (ds_row w); [done|].
  unfold search_row in Hr. apply head_Some_elem_of, sql_select_elem in Hr. by destruct Hr.
Qed.
Lemma keeps_txGetEntryInfo s :
  keeps I (txGetEntryInfo s) (fun o => forall r, o.1 = Some r -> okref (RefData_ r)).
Proof.
  intros w Hw. split; [by apply preserves_txGetEntryInfo|].
  unfold txGetEntryInfo, txGetRoot, txOnSelectDir. destruct (splitFilename s) as [[dir name] isRoot].
  intros o Ho. destruct isRoot.
  - injection Ho as <-. intros r Hr. by apply (proj2 (keeps_txSearchEntry 0 "/" w Hw) _ eq_refl).
  - pose proof (preserves_select_loop [] (default [] (match rebuildDirItems dir with
      Ok l => Some l | Err _ => None end)) 0 false) as Hsel.
    unfold lift, mbind, M_bind in Ho. destruct (rebuildDirItems dir) as [items|]; [|done].
    specialize (Hsel w Hw). simpl in Hsel.
    destruct (select_loop [] items 0 false w) as [[pid|e] w']; [|done]. injection Ho as <-.
    intros r Hr. by apply (proj2 (keeps_txSearchEntry pid name w' Hsel) _ eq_refl).
Qed.
Lemma keeps_txListAllDir pid :
  keeps I (txListAllDir pid) (fun l => forall r, r ∈ l -> okref (RefData_ r)).
Proof.
  intros w Hw. split; [done|]. intros l Hl r Hr.
  apply (ds_row w); [done|].
  apply (list_all_loop_elem (S (length (t_mapping (db w)))) pid 0).
  replace (list_all_loop _ _ _ _) with l; [done|]. by injection Hl.
Qed.
Lemma preserves_txDoIterAndCopy fuel s p d n b :
  okref (RefData_ s) -> preserves I (txDoIterAndCopy fuel s p d n b).
Proof.
  revert s p d n b. induction fuel as [|fuel IH]; intros s p d n b Hs; cbn [txDoIterAndCopy];
    [dir_frame|].
  apply preserves_bind; [auto with dir|]. intros t.
  apply preserves_bind; [apply preserves_txCreateEntry; exact Hs|]. intros dst.
  apply preserves_bind; [auto with dir|]. intros _.
  case_match; [auto with dir|].
  eapply preserves_keeps_bind; [apply keeps_txListAllDir|]. intros items Hitems.
  apply preserves_for_each_in. intros item Hi. by apply IH, Hitems.
Qed.
#[local] Hint Resolve preserves_recordTreeChanges preserves_collectAndRemove
  preserves_collectEntries preserves_collectCopyPairs preserves_txDoIterAndCopy : dir.

Lemma preserves_Create s z r : okref r -> preserves I (Tx.Create s z r).
Proof.
  intros Hr. unfold Tx.Create, txCreateFile. dir_frame; try (apply preserves_txOnSelectDir; intros; dir_frame).
Qed.
Lemma preserves_Mkdir_tx s : preserves I (Tx.Mkdir s).
Proof. unfold Tx.Mkdir. dir_frame; try (apply preserves_txOnSelectDir; intros; dir_frame). Qed.
Lemma preserves_Replace s z r m : okref r -> preserves I (Tx.Replace s z r m).
Proof. intros Hr. unfold Tx.Replace. dir_frame. Qed.
Lemma preserves_Remove_tx s : preserves I (Tx.Remove s).
Proof. unfold Tx.Remove. dir_frame. Qed.
Lemma preserves_Touch s m : preserves I (Tx.Touch s m).
Proof. unfold Tx.Touch. dir_frame. Qed.
Lemma preserves_Stat_tx s : preserves I (Tx.Stat s).
Proof. unfold Tx.Stat. dir_frame. Qed.
Lemma preserves_overwritten s : preserves I (overwritten_entries s).
Proof. unfold overwritten_entries. dir_frame. Qed.
#[local] Hint Resolve preserves_overwritten : dir.
Lemma preserves_txDoCopyDepth s d o b : preserves I (txDoCopyDepth s d o b).
Proof.
  unfold txDoCopyDepth. apply preserves_bind; [auto with dir|]. intros [|]; cbn [negb]; [|auto with dir].
  eapply preserves_keeps_bind; [apply keeps_txGetEntryInfo|]. intros [[s'|] pid] Hs; [|dir_frame].
  specialize (Hs s' eq_refl). cbn [fst snd]. dir_frame.
Qed.
Lemma preserves_txDoMove s d o : preserves I (txDoMove s d o).
Proof. unfold txDoMove. dir_frame. Qed.
#[local] Hint Resolve preserves_txDoCopyDepth preserves_txDoMove : dir.
Lemma preserves_CopyDepth s d o b : preserves I (CopyDepth s d o b).
Proof. unfold CopyDepth. dir_frame. Qed.
Lemma preserves_Move_tx s d o : preserves I (Move_tx s d o).
Proof. unfold Move_tx. dir_frame. Qed.
Lemma preserves_Mkdir s : preserves I (Mkdir s).
Proof.
  unfold Mkdir, txCreateRoot, txGetRoot, onSelectDir. dir_frame;
    try (apply preserves_OnTransation, preserves_txOnSelectDir; intros; dir_frame).
Qed.
End Frame.

#[export] Hint Resolve preserves_mapping preserves_now preserves_NextId preserves_OnTransation
  preserves_query preserves_recordChange preserves_Create preserves_Mkdir_tx preserves_Replace
  preserves_Remove_tx preserves_Touch preserves_Stat_tx preserves_CopyDepth preserves_Move_tx
  preserves_Mkdir preserves_touchParent preserves_txGetEntryInfo : dir.

(** The tables the directory does not write. *)
Definition other_tables (d : DB) :=
  (t_file d, t_part d, t_delete d, t_segment d, t_completed d, t_s3meta d, t_upload d,
   t_mpart d, t_property d, t_pin d, t_lock d, seq_file d, t_job d, t_job_file d).

#[global] Instance other_tables_stable X :
  DirStable (fun w => other_tables (db w) = X) (fun _ => True).
Proof. by split. Qed.

#[global] Instance ids_stable k : DirStable (fun w => (k <= ids w)%nat) (fun _ => True).
Proof. split; simpl; intros; (done || lia). Qed.

(** All content references of the mapping table are in [R]. *)
Definition refs_in (R : string -> Prop) (w : World) : Prop :=
  forall r, r ∈ t_mapping (db w) -> R (RefData_ r).

Lemma refs_in_stable R : R "" -> DirStable (refs_in R) R.
Proof.
  intros HR. split; simpl; unfold refs_in; simpl; try done.
  - intros w r Hw Hr. by apply Hw.
  - intros w f Hf Hw r Hr. destruct Hf as [p m|p pid n|p ref z m Href|p].
    1-3: apply sql_update_elem in Hr as (r0 & Hr0 & ->); case_match; [|by apply Hw].
    + by apply (Hw r0).
    + by apply (Hw r0).
    + done.
    + apply sql_delete_elem in Hr as [Hr _]. by apply Hw.
  - intros w mk Hmk Hw r [Hr|Hr]%elem_of_app; [by apply Hw|].
    by apply list_elem_of_singleton in Hr as ->.
Qed.
