(* ===== verification/Tree.v ===== *)
(** * The mapping table as a tree

    The invariant of the mapping table, and the abstract view of it: a map from
    paths (lists of names) to nodes. The lemmas say how each SQL statement that
    the directory issues changes that map; they do not mention the code. *)

From stdpp Require Import base strings list sets gmap.
From S2P Require Import Prelude GoStr Store Directory.
Import Directory.

Notation row := directoryEntryTab.
Implicit Types (t : list row) (r p : row) (cs ds : list string).

(** Row [r] is found by walking the names [cs] down from the root. *)
Inductive at_path t : list string -> row -> Prop :=
  | at_root r : r ∈ t -> ParentEntryId_ r = 0 -> FileName_ r = "/" -> at_path t [] r
  | at_child cs p r :
      at_path t cs p -> IsDir p = true -> r ∈ t -> ParentEntryId_ r = EntryId_ p ->
      at_path t (cs ++ [FileName_ r]) r.

Definition key_of r : Z * string := (ParentEntryId_ r, FileName_ r).

Record wf_tree t : Prop := {
  wf_ids : NoDup (EntryId_ <$> t);
  wf_pos : forall r, r ∈ t -> 0 < EntryId_ r;
  wf_keys : NoDup (key_of <$> t);
  wf_kind : forall r, r ∈ t -> FileKind_ r = defaultFileKindDir \/ FileKind_ r = defaultFileKindFile;
  wf_path : forall r, r ∈ t -> exists cs, at_path t cs r }.

Lemma wf_empty : wf_tree [].
Proof. split; try apply NoDup_nil_2; by intros r ?%elem_of_nil. Qed.

Section Wf.
Context t (Hwf : wf_tree t).

Lemma id_inj r1 r2 : r1 ∈ t -> r2 ∈ t -> EntryId_ r1 = EntryId_ r2 -> r1 = r2.
Proof. apply NoDup_fmap_inj, Hwf. Qed.

Lemma key_inj r1 r2 :
  r1 ∈ t -> r2 ∈ t -> ParentEntryId_ r1 = ParentEntryId_ r2 ->
  FileName_ r1 = FileName_ r2 -> r1 = r2.
Proof.
  intros H1 H2 Hp Hn. eapply (NoDup_fmap_inj key_of); [apply Hwf|done..|].
  unfold key_of. congruence.
Qed.

Lemma at_path_elem cs r : at_path t cs r -> r ∈ t.
Proof. by destruct 1. Qed.

Lemma at_path_inj cs ds r : at_path t cs r -> at_path t ds r -> cs = ds.
Proof.
  intros H. revert ds. induction H as [r Hr Hp Hn|cs p r Hcs IH Hd Hr Hp];
    intros ds H'; inversion H' as [r' Hr' Hp' Hn'|ds' p' r' Hds' Hd' Hr' Hp']; subst; try done.
  - pose proof (wf_pos _ Hwf _ (at_path_elem _ _ Hds')). lia.
  - pose proof (wf_pos _ Hwf _ (at_path_elem _ _ Hcs)). lia.
  - assert (p = p') as <- by (apply id_inj; eauto using at_path_elem; congruence).
    by rewrite (IH ds').
Qed.

Lemma at_path_root_inv r : at_path t [] r -> ParentEntryId_ r = 0 /\ FileName_ r = "/".
Proof.
  inversion 1 as [|cs p r' ? ? ? ? E]; [done|]. by destruct cs.
Qed.

Lemma at_path_snoc_inv cs c r :
  at_path t (cs ++ [c]) r ->
  exists p, at_path t cs p /\ IsDir p = true /\ r ∈ t /\
    ParentEntryId_ r = EntryId_ p /\ FileName_ r = c.
Proof.
  inversion 1 as [r' ? ? ? E|cs' p r' Hcs Hd Hr Hp E]; [by destruct cs|].
  apply app_inj_tail in E as [-> Hc]. subst. by exists p.
Qed.

Lemma at_path_func cs r1 r2 : at_path t cs r1 -> at_path t cs r2 -> r1 = r2.
Proof.
  revert r1 r2. induction cs as [|c cs IH] using rev_ind; intros r1 r2 H1 H2.
  - pose proof (at_path_elem _ _ H1). pose proof (at_path_elem _ _ H2).
    apply at_path_root_inv in H1 as [? ?], H2 as [? ?]. apply key_inj; congruence.
  - apply at_path_snoc_inv in H1 as (p1 & Hp1 & _ & ? & ? & ?).
    apply at_path_snoc_inv in H2 as (p2 & Hp2 & _ & ? & ? & ?).
    rewrite (IH p1 p2) in * by done. apply key_inj; congruence.
Qed.

(** An ancestor of a row at [cs ++ ds] sits at [cs]. *)
Lemma at_path_app cs ds r :
  at_path t (cs ++ ds) r ->
  exists p, at_path t cs p /\ (ds <> [] -> IsDir p = true).
Proof.
  revert r. induction ds as [|d ds IH] using rev_ind; intros r H.
  - rewrite app_nil_r in H. by exists r.
  - rewrite app_assoc in H. apply at_path_snoc_inv in H as (p & Hp & Hd & _).
    destruct (IH p Hp) as (q & Hq & Hqd). exists q. split; [done|].
    intros _. destruct ds as [|d' ds]; [|by apply Hqd].
    rewrite app_nil_r in Hp. by rewrite (at_path_func _ _ _ Hq Hp).
Qed.

(** A path is shorter than the table: the rows on it are distinct. *)
Lemma at_path_rows cs r :
  at_path t cs r ->
  exists rs, length rs = S (length cs) /\ NoDup rs /\ rs ⊆ t /\
    (forall q, q ∈ rs -> exists ds, at_path t ds q /\ (length ds <= length cs)%nat).
Proof.
  induction 1 as [r Hr Hp Hn|cs p r Hcs IH Hd Hr Hp].
  - exists [r]. split_and!; [done|apply NoDup_singleton|set_solver|].
    intros q ->%list_elem_of_singleton. exists []. split; [by constructor|done].
  - destruct IH as (rs & Hlen & Hnd & Hsub & Hpaths). exists (r :: rs).
    assert (at_path t (cs ++ [FileName_ r]) r) as Hat by (by econstructor).
    split_and!.
    + simpl. rewrite Hlen, length_app. simpl. lia.
    + constructor; [|done]. intros (ds & Hds & Hl)%Hpaths.
      rewrite (at_path_inj _ _ _ Hds Hat), length_app in Hl. simpl in Hl. lia.
    + set_solver.
    + intros q [->|Hq]%elem_of_cons.
      * eexists. split; [done|]. done.
      * destruct (Hpaths q Hq) as (ds & ? & ?). exists ds. split; [done|].
        rewrite length_app. lia.
Qed.

Lemma at_path_length cs r : at_path t cs r -> (length cs < length t)%nat.
Proof.
  intros H. destruct (at_path_rows _ _ H) as (rs & Hlen & Hnd & Hsub & _).
  apply NoDup_submseteq in Hsub; [|done]. apply submseteq_length in Hsub. lia.
Qed.

(** ** Searching *)
Lemma search_row_spec pid name r :
  search_row pid name t = Some r <->
  r ∈ t /\ ParentEntryId_ r = pid /\ FileName_ r = name.
Proof.
  unfold search_row. set (p := fun r0 : row => _).
  assert (forall x, x ∈ sql_select p t <->
    x ∈ t /\ ParentEntryId_ x = pid /\ FileName_ x = name) as Hsel.
  { intros x. rewrite sql_select_elem. subst p. simpl.
    by rewrite andb_true_iff, Z.eqb_eq, bool_decide_eq_true. }
  destruct (sql_select p t) as [|x l] eqn:E; simpl.
  - split; [done|]. intros H%Hsel. by apply elem_of_nil in H.
  - assert (x ∈ t /\ ParentEntryId_ x = pid /\ FileName_ x = name) as Hx
      by (apply Hsel; left).
    split; [by intros [= <-]|]. intros Hr. f_equal.
    destruct Hx as (?&?&?), Hr as (?&?&?). apply key_inj; congruence.
Qed.

Lemma search_row_none pid name :
  search_row pid name t = None <->
  forall r, r ∈ t -> ParentEntryId_ r = pid -> FileName_ r <> name.
Proof.
  split.
  - intros H r Hr Hp Hn. assert (search_row pid name t = Some r) by
      (by apply search_row_spec). congruence.
  - intros H. destruct (search_row pid name t) as [r|] eqn:E; [|done].
    apply search_row_spec in E as (? & ? & ?). by exfalso; eapply H.
Qed.
End Wf.

(** ** The abstract view *)
Fixpoint find_from t (pid : Z) (c : string) cs : option row :=
  match search_row pid c t with
  | None => None
  | Some r =>
      match cs with
      | [] => Some r
      | c' :: cs' => if IsDir r then find_from t (EntryId_ r) c' cs' else None
      end
  end.
Definition find t cs : option row := find_from t 0 "/" cs.

Definition node_of r : Z * string * Z := (FileKind_ r, RefData_ r, FileSize_ r).
(** The node at a path: its kind, its reference and its size. *)
Definition abs t cs : option (Z * string * Z) := node_of <$> find t cs.

Lemma find_from_spec t (Hwf : wf_tree t) ds p c cs r :
  at_path t ds p -> IsDir p = true ->
  find_from t (EntryId_ p) c cs = Some r <-> at_path t (ds ++ c :: cs) r.
Proof.
  revert ds p c. induction cs as [|c' cs IH]; intros ds p c Hp Hd; cbn [find_from].
  - destruct (search_row (EntryId_ p) c t) as [x|] eqn:E.
    + apply search_row_spec in E as (Hx & Hpx & <-); [|done].
      assert (at_path t (ds ++ [FileName_ x]) x) as Hat by (by econstructor).
      split; [by intros [= <-]|]. intros Hr. f_equal. by eapply at_path_func.
    + split; [done|]. intros (q & Hq & _ & Hr & Hpr & Hn)%at_path_snoc_inv.
      rewrite (at_path_func _ Hwf _ _ _ Hp Hq) in E.
      rewrite search_row_none in E by done. by exfalso; eapply E.
  - destruct (search_row (EntryId_ p) c t) as [x|] eqn:E.
    + apply search_row_spec in E as (Hx & Hpx & <-); [|done].
      assert (at_path t (ds ++ [FileName_ x]) x) as Hat by (by econstructor).
      replace (ds ++ FileName_ x :: c' :: cs) with ((ds ++ [FileName_ x]) ++ c' :: cs)
        by (by rewrite <- app_assoc).
      destruct (IsDir x) eqn:Ex; [by apply IH|]. split; [done|].
      intros (q & Hq & Hqd)%at_path_app; [|done].
      rewrite (at_path_func _ Hwf _ _ _ Hq Hat) in Hqd. rewrite Hqd in Ex; done.
    + split; [done|]. intros H.
      replace (ds ++ c :: c' :: cs) with ((ds ++ [c]) ++ c' :: cs) in H
        by (by rewrite <- app_assoc).
      apply at_path_app in H as (q & Hq & _); [|done].
      apply at_path_snoc_inv in Hq as (q' & Hq' & _ & Hr & Hpr & Hn).
      rewrite (at_path_func _ Hwf _ _ _ Hp Hq') in E.
      rewrite search_row_none in E by done. by exfalso; eapply E.
Qed.

Lemma find_spec t cs r : wf_tree t -> find t cs = Some r <-> at_path t cs r.
Proof.
  intros Hwf. unfold find. destruct cs as [|c cs]; cbn [find_from].
  - destruct (search_row 0 "/" t) as [x|] eqn:E.
    + apply search_row_spec in E as (Hx & Hpx & Hn); [|done].
      assert (at_path t [] x) as Hat by (by constructor).
      split; [by intros [= <-]|]. intros Hr. f_equal. by eapply at_path_func.
    + split; [done|]. intros Hr. rewrite search_row_none in E by done.
      pose proof (at_path_elem _ _ _ Hr). apply at_path_root_inv in Hr as [? ?].
      by exfalso; eapply E.
  - destruct (search_row 0 "/" t) as [x|] eqn:E.
    + apply search_row_spec in E as (Hx & Hpx & Hn); [|done].
      assert (at_path t [] x) as Hat by (by constructor).
      destruct (IsDir x) eqn:Ex; [by apply (find_from_spec t Hwf [])|]. split; [done|].
      intros (q & Hq & Hqd)%(at_path_app t Hwf []).
      rewrite (at_path_func _ Hwf _ _ _ Hq Hat) in Hqd. rewrite Hqd in Ex; done.
    + split; [done|]. intros (q & Hq & _)%(at_path_app t Hwf []).
      rewrite search_row_none in E by done.
      pose proof (at_path_elem _ _ _ Hq). apply at_path_root_inv in Hq as [? ?].
      by exfalso; eapply E.
Qed.

Lemma find_none t cs : wf_tree t -> find t cs = None <-> forall r, ~ at_path t cs r.
Proof.
  intros Hwf. split.
  - intros H r Hr. apply find_spec in Hr; [|done]. congruence.
  - intros H. destruct (find t cs) as [r|] eqn:E; [|done].
    apply find_spec in E; [|done]. by apply H in E.
Qed.

(** ** UPDATE of columns that do not place a row *)
Definition keeps_place (f : row -> row) : Prop :=
  forall r, EntryId_ (f r) = EntryId_ r /\ ParentEntryId_ (f r) = ParentEntryId_ r /\
    FileName_ (f r) = FileName_ r /\ FileKind_ (f r) = FileKind_ r.

Section Update.
Context (f : row -> row) (Hf : keeps_place f).

Lemma search_row_map pid name t :
  search_row pid name (map f t) = f <$> search_row pid name t.
Proof.
  unfold search_row, sql_select. induction t as [|r t IH]; simpl; [done|].
  destruct (Hf r) as (_ & -> & -> & _). by destruct (_ && _).
Qed.

Lemma find_map t cs : find (map f t) cs = f <$> find t cs.
Proof.
  unfold find. generalize 0, "/". induction cs as [|c cs IH]; intros pid n; cbn [find_from];
    rewrite search_row_map; destruct (search_row pid n t) as [r|]; simpl; try done.
  unfold IsDir. destruct (Hf r) as (-> & _ & _ & ->). case_match; [apply IH|done].
Qed.

Lemma at_path_map t cs r : at_path t cs r -> at_path (map f t) cs (f r).
Proof.
  induction 1 as [r Hr Hp Hn|cs p r Hcs IH Hd Hr Hp].
  - destruct (Hf r) as (_ & Hfp & Hfn & _). constructor; [by apply list_elem_of_fmap_2|congruence..].
  - destruct (Hf r) as (_ & Hfp & <- & _), (Hf p) as (Hpi & _ & _ & Hpk).
    econstructor; [exact IH| |by apply list_elem_of_fmap_2|congruence].
    unfold IsDir in *. by rewrite Hpk.
Qed.

Lemma wf_map t : wf_tree t -> wf_tree (map f t).
Proof.
  intros Hwf. assert (forall B (g : row -> B), (forall r, g (f r) = g r) ->
    g <$> map f t = g <$> t) as Hcol.
  { intros B g Hg. change (map f t) with (f <$> t). rewrite <- list_fmap_compose.
    apply list_fmap_ext. intros ? r ?. apply Hg. }
  split.
  - rewrite Hcol; [apply Hwf|]. intros r. apply Hf.
  - intros r (r0 & -> & Hr0)%list_elem_of_fmap. destruct (Hf r0) as (-> & _).
    by apply (wf_pos t Hwf).
  - rewrite Hcol; [apply Hwf|]. intros r. unfold key_of. by destruct (Hf r) as (_ & -> & -> & _).
  - intros r (r0 & -> & Hr0)%list_elem_of_fmap. destruct (Hf r0) as (_ & _ & _ & ->).
    by apply (wf_kind t Hwf).
  - intros r (r0 & -> & Hr0)%list_elem_of_fmap.
    destruct (wf_path t Hwf r0 Hr0) as [cs Hcs]. eauto using at_path_map.
Qed.
End Update.

Lemma keeps_place_if (q : row -> bool) f :
  keeps_place f -> keeps_place (fun r => if q r then f r else r).
Proof. intros Hf r. case_match; [apply Hf|done]. Qed.

(** ** INSERT *)
Section Insert.
Context t (n : row) (Hwf : wf_tree t).
Context (Hid : forall r, r ∈ t -> EntryId_ r <> EntryId_ n) (Hpos : 0 < EntryId_ n).
Context (Hkey : forall r, r ∈ t -> ParentEntryId_ r = ParentEntryId_ n ->
                FileName_ r <> FileName_ n).
Context (Hkind : FileKind_ n = defaultFileKindDir \/ FileKind_ n = defaultFileKindFile).
(** Where the new row goes: the path of its parent with its name, or the root. *)
Definition new_path cs : Prop :=
  (cs = [] /\ ParentEntryId_ n = 0 /\ FileName_ n = "/") \/
  (exists ds p, cs = ds ++ [FileName_ n] /\ at_path t ds p /\ IsDir p = true /\
     ParentEntryId_ n = EntryId_ p).
Context (cs : list string) (Hnew : new_path cs).

Lemma insert_at_path_old ds r : at_path t ds r -> at_path (t ++ [n]) ds r.
Proof.
  induction 1 as [r Hr Hp Hn|ds p r Hds IH Hd Hr Hp];
    econstructor; eauto; apply elem_of_app; by left.
Qed.

Lemma insert_at_path_new : at_path (t ++ [n]) cs n.
Proof.
  destruct Hnew as [(-> & ? & ?)|(ds & p & -> & Hp & Hd & Hpn)].
  - constructor; try done. apply elem_of_app. right. by left.
  - econstructor; [by apply insert_at_path_old|done| |done].
    apply elem_of_app. right. by left.
Qed.

Lemma parent_known r : r ∈ t -> ParentEntryId_ r <> EntryId_ n.
Proof.
  intros Hr. destruct (wf_path t Hwf r Hr) as [ds Hds].
  inversion Hds as [|ds' p r' Hp Hd Hr' Hpr]; subst; [lia|].
  rewrite Hpr. by eapply Hid, at_path_elem.
Qed.

Lemma wf_insert : wf_tree (t ++ [n]).
Proof.
  split.
  - rewrite fmap_app. apply NoDup_app. split; [apply Hwf|]. split; [|apply NoDup_singleton].
    intros x (r & -> & Hr)%list_elem_of_fmap Hx%list_elem_of_singleton. by apply (Hid r Hr).
  - intros r [Hr| ->%list_elem_of_singleton]%elem_of_app; [by apply (wf_pos t Hwf)|done].
  - rewrite fmap_app. apply NoDup_app. split; [apply Hwf|]. split; [|apply NoDup_singleton].
    intros x (r & -> & Hr)%list_elem_of_fmap Hx%list_elem_of_singleton.
    injection Hx as ? ?. by eapply Hkey.
  - intros r [Hr| ->%list_elem_of_singleton]%elem_of_app; [by apply (wf_kind t Hwf)|done].
  - intros r [Hr| ->%list_elem_of_singleton]%elem_of_app.
    + destruct (wf_path t Hwf r Hr) as [ds Hds]. eauto using insert_at_path_old.
    + eauto using insert_at_path_new.
Qed.

Lemma insert_at_path ds r :
  at_path (t ++ [n]) ds r <-> at_path t ds r \/ (ds = cs /\ r = n).
Proof.
  split; [|intros [?|[-> ->]]; eauto using insert_at_path_old, insert_at_path_new].
  intros H. assert (r ∈ t ++ [n]) as Hr by (by eapply at_path_elem).
  apply elem_of_app in Hr as [Hr| ->%list_elem_of_singleton].
  - left. destruct (wf_path t Hwf r Hr) as [ds' Hds'].
    by rewrite (at_path_inj _ wf_insert _ _ _ H (insert_at_path_old _ _ Hds')).
  - right. split; [|done]. by eapply (at_path_inj _ wf_insert), insert_at_path_new.
Qed.

Lemma find_insert ds : find (t ++ [n]) ds = if decide (ds = cs) then Some n else find t ds.
Proof.
  case_decide as E.
  - subst. apply find_spec; [apply wf_insert|]. apply insert_at_path. by right.
  - destruct (find t ds) as [r|] eqn:Ef.
    + apply find_spec in Ef; [|done]. apply find_spec; [apply wf_insert|].
      apply insert_at_path. by left.
    + apply find_none; [apply wf_insert|]. intros r [H|[? _]]%insert_at_path; [|done].
      by eapply (proj1 (find_none t ds Hwf)).
Qed.
End Insert.

(** ** DELETE of a row and everything below it *)
Section Remove.
Context t t' cs (Hwf : wf_tree t) (Hsub : sublist t' t).
Context (Hmem : forall r, r ∈ t' <-> r ∈ t /\ ~ exists ds, at_path t (cs ++ ds) r).

Lemma remove_at_path_keep ds r :
  at_path t ds r -> ~ cs `prefix_of` ds -> at_path t' ds r.
Proof.
  assert (forall ds r, at_path t ds r -> ~ cs `prefix_of` ds -> r ∈ t') as Hin.
  { intros ds' r' H Hn. apply Hmem. split; [by eapply at_path_elem|].
    intros [e He]. apply Hn. exists e. by eapply at_path_inj. }
  intros H. induction H as [r Hr Hp Hn|ds p r Hds IH Hd Hr Hp]; intros Hpre.
  - constructor; try done. eapply Hin; [|done]. by constructor.
  - econstructor; [|done| |done].
    + apply IH. intros [e ->]. apply Hpre. rewrite <- app_assoc. by eexists.
    + eapply Hin; [|done]. by econstructor.
Qed.

Lemma remove_at_path_sub ds r : at_path t' ds r -> at_path t ds r.
Proof.
  induction 1 as [r Hr Hp Hn|ds p r Hds IH Hd Hr Hp];
    apply Hmem in Hr as [Hr _]; econstructor; eauto.
Qed.

Lemma remove_at_path ds r :
  at_path t' ds r <-> at_path t ds r /\ ~ cs `prefix_of` ds.
Proof.
  split; [|intros [? ?]; by apply remove_at_path_keep].
  intros H. pose proof (remove_at_path_sub _ _ H) as Ht. split; [done|].
  intros [e ->]. apply at_path_elem in H. apply Hmem in H as [_ H]. apply H. by exists e.
Qed.

Lemma wf_remove : wf_tree t'.
Proof.
  split.
  - eapply sublist_NoDup; [by apply (wf_ids t Hwf)|]. by apply (fmap_sublist EntryId_).
  - intros r [Hr _]%Hmem. by apply (wf_pos t Hwf).
  - eapply sublist_NoDup; [by apply (wf_keys t Hwf)|]. by apply (fmap_sublist key_of).
  - intros r [Hr _]%Hmem. by apply (wf_kind t Hwf).
  - intros r [Hr Hn]%Hmem. destruct (wf_path t Hwf r Hr) as [ds Hds]. exists ds.
    apply remove_at_path_keep; [done|]. intros [e ->]. apply Hn. by exists e.
Qed.

Lemma find_remove ds :
  find t' ds = if decide (cs `prefix_of` ds) then None else find t ds.
Proof.
  case_decide as Hd.
  - apply find_none; [apply wf_remove|]. by intros r [_ ?]%remove_at_path.
  - destruct (find t ds) as [r|] eqn:E.
    + apply find_spec in E; [|done]. apply find_spec; [apply wf_remove|].
      by apply remove_at_path.
    + apply find_none; [apply wf_remove|]. intros r [H _]%remove_at_path.
      by eapply (proj1 (find_none t ds Hwf)).
Qed.
End Remove.

(** ** UPDATE of a row's parent and name *)
Section Reparent.
Context t (ss : list string) (s : row) (ps : list string) (p : row) (name : string).
Context (Hwf : wf_tree t).
Context (Hs : at_path t ss s) (Hp : at_path t ps p) (Hdir : IsDir p = true).
Definition moved r : row :=
  if EntryId_ r =? EntryId_ s then reparent (EntryId_ p) (Some name) r else r.
Context (Hout : ~ ss `prefix_of` ps ++ [name]) (Hfree : find t (ps ++ [name]) = None).

Lemma moved_other r : r ∈ t -> r <> s -> moved r = r.
Proof.
  intros Hr Hne. unfold moved. destruct (Z.eqb_spec (EntryId_ r) (EntryId_ s)); [|done].
  exfalso. apply Hne. eapply id_inj; eauto using at_path_elem.
Qed.

Lemma moved_id r : EntryId_ (moved r) = EntryId_ r /\ FileKind_ (moved r) = FileKind_ r.
Proof. unfold moved. by case_match. Qed.

Lemma moved_self : ParentEntryId_ (moved s) = EntryId_ p /\ FileName_ (moved s) = name.
Proof. unfold moved. by rewrite Z.eqb_refl. Qed.

Lemma reparent_at_path_out ds r :
  at_path t ds r -> ~ ss `prefix_of` ds -> at_path (map moved t) ds r.
Proof.
  assert (forall ds r, at_path t ds r -> ~ ss `prefix_of` ds -> r ∈ map moved t) as Hin.
  { intros ds' r' H Hn. rewrite <- (moved_other r').
    - apply list_elem_of_fmap_2. by eapply at_path_elem.
    - by eapply at_path_elem.
    - intros ->. apply Hn. by rewrite (at_path_inj _ Hwf _ _ _ H Hs). }
  intros H. induction H as [r Hr Hpr Hn|ds q r Hds IH Hd Hr Hpr]; intros Hpre.
  - constructor; try done. eapply Hin; [|done]. by constructor.
  - econstructor; [|done| |done].
    + apply IH. intros [e ->]. apply Hpre. rewrite <- app_assoc. by eexists.
    + eapply Hin; [|done]. by econstructor.
Qed.

Lemma reparent_at_path_in ds r :
  at_path t (ss ++ ds) r -> at_path (map moved t) ((ps ++ [name]) ++ ds) (moved r).
Proof.
  revert r. induction ds as [|d ds IH] using rev_ind; intros r H.
  - rewrite app_nil_r in *. rewrite (at_path_func _ Hwf _ _ _ H Hs).
    destruct moved_self as [Hmp Hmn]. rewrite <- Hmn. econstructor; [| |
      apply list_elem_of_fmap_2; by eapply at_path_elem|exact Hmp]; [|done].
    apply reparent_at_path_out; [done|]. intros [e ->]. apply Hout.
    rewrite <- app_assoc. by eexists.
  - rewrite app_assoc in *. pose proof H as Hr.
    apply at_path_snoc_inv in H as (q & Hq & Hqd & Hin & Hpq & <-).
    assert (moved r = r) as ->.
    { apply moved_other; [done|]. intros ->. pose proof (at_path_inj _ Hwf _ _ _ Hr Hs) as E.
      rewrite <- app_assoc in E. apply (f_equal length) in E.
      rewrite !length_app in E. simpl in E. lia. }
    destruct (moved_id q) as [Hqi Hqk]. econstructor; [by apply IH| | |congruence].
    + unfold IsDir in *. by rewrite Hqk.
    + rewrite <- (moved_other r); [by apply list_elem_of_fmap_2|done|].
      intros ->. pose proof (at_path_inj _ Hwf _ _ _ Hr Hs) as E.
      rewrite <- app_assoc in E. apply (f_equal length) in E.
      rewrite !length_app in E. simpl in E. lia.
Qed.

Lemma moved_key_inj r1 r2 :
  r1 ∈ t -> r2 ∈ t -> key_of (moved r1) = key_of (moved r2) -> r1 = r2.
Proof.
  assert (forall r, r ∈ t -> r <> s -> key_of (moved s) <> key_of r) as Hs_new.
  { intros r Hr Hne E. unfold key_of in E. destruct moved_self as [Hmp Hmn].
    rewrite Hmp, Hmn in E. injection E as Ep En.
    apply (proj1 (find_none t _ Hwf) Hfree r). rewrite En. by econstructor. }
  intros H1 H2 E.
  destruct (decide (r1 = s)) as [->|N1], (decide (r2 = s)) as [->|N2]; [done|..].
  - rewrite (moved_other r2) in E by done. by apply Hs_new in E.
  - rewrite (moved_other r1) in E by done. symmetry in E. by apply Hs_new in E.
  - rewrite !moved_other in E by done. injection E as ? ?. by eapply key_inj.
Qed.

Lemma wf_reparent : wf_tree (map moved t).
Proof.
  assert (NoDup t) as Hnd by (apply (NoDup_fmap_1 EntryId_), Hwf).
  split.
  - change (map moved t) with (moved <$> t). rewrite <- list_fmap_compose.
    apply NoDup_fmap_2_strong; [|done]. simpl. intros r1 r2 H1 H2.
    rewrite (proj1 (moved_id r1)), (proj1 (moved_id r2)). by apply (id_inj t Hwf).
  - intros r (r0 & -> & Hr0)%list_elem_of_fmap. rewrite (proj1 (moved_id r0)).
    by apply (wf_pos t Hwf).
  - change (map moved t) with (moved <$> t). rewrite <- list_fmap_compose.
    apply NoDup_fmap_2_strong; [|done]. simpl. apply moved_key_inj.
  - intros r (r0 & -> & Hr0)%list_elem_of_fmap. rewrite (proj2 (moved_id r0)).
    by apply (wf_kind t Hwf).
  - intros r (r0 & -> & Hr0)%list_elem_of_fmap.
    destruct (wf_path t Hwf r0 Hr0) as [ds Hds].
    destruct (decide (ss `prefix_of` ds)) as [[e ->]|Hn].
    + eauto using reparent_at_path_in.
    + exists ds. rewrite moved_other; [by apply reparent_at_path_out|done|].
      intros ->. apply Hn. by rewrite (at_path_inj _ Hwf _ _ _ Hds Hs).
Qed.

(** Where a row of the new table was before. *)
Lemma reparent_at_path_inv ds r :
  at_path (map moved t) ds r ->
  exists r0, r = moved r0 /\
    ((exists e, ds = (ps ++ [name]) ++ e /\ at_path t (ss ++ e) r0) \/
     (at_path t ds r0 /\ ~ ss `prefix_of` ds /\ r0 = r)).
Proof.
  intros H. pose proof (at_path_elem _ _ _ H) as (r0 & -> & Hr0)%list_elem_of_fmap.
  exists r0. split; [done|]. destruct (wf_path t Hwf r0 Hr0) as [ds0 Hds0].
  destruct (decide (ss `prefix_of` ds0)) as [[e ->]|Hn].
  - left. exists e. split; [|done].
    eapply (at_path_inj _ wf_reparent); [exact H|]. by apply reparent_at_path_in.
  - right. assert (moved r0 = r0) as E.
    { apply moved_other; [done|]. intros ->. apply Hn.
      by rewrite (at_path_inj _ Hwf _ _ _ Hds0 Hs). }
    rewrite E in *. pose proof (reparent_at_path_out _ _ Hds0 Hn) as H'.
    by rewrite (at_path_inj _ wf_reparent _ _ _ H H').
Qed.

Lemma find_reparent_in e :
  find (map moved t) ((ps ++ [name]) ++ e) = moved <$> find t (ss ++ e).
Proof.
  destruct (find t (ss ++ e)) as [r|] eqn:E; simpl.
  - apply find_spec in E; [|done]. apply find_spec; [apply wf_reparent|].
    by apply reparent_at_path_in.
  - apply find_none; [apply wf_reparent|].
    intros r (r0 & -> & [(e' & Heq & H0)|(H0 & _ & _)])%reparent_at_path_inv.
    + apply app_inv_head in Heq as <-. exact (proj1 (find_none t _ Hwf) E _ H0).
    + apply at_path_app in H0 as (q & Hq & _); [|done].
      exact (proj1 (find_none t _ Hwf) Hfree q Hq).
Qed.

Lemma find_reparent_out ds :
  ~ ps ++ [name] `prefix_of` ds ->
  find (map moved t) ds = if decide (ss `prefix_of` ds) then None else find t ds.
Proof.
  intros Hnd. case_decide as Hss.
  - apply find_none; [apply wf_reparent|].
    intros r (r0 & -> & [(e' & -> & _)|(_ & Hn & _)])%reparent_at_path_inv; [|done].
    apply Hnd. by eexists.
  - destruct (find t ds) as [r|] eqn:E.
    + apply find_spec in E; [|done]. apply find_spec; [apply wf_reparent|].
      by apply reparent_at_path_out.
    + apply find_none; [apply wf_reparent|].
      intros r (r0 & -> & [(e' & -> & _)|(H0 & _ & _)])%reparent_at_path_inv.
      * apply Hnd. by eexists.
      * exact (proj1 (find_none t _ Hwf) E _ H0).
Qed.
End Reparent.
