(* ===== verification/DirWalk.v ===== *)
(** * Directory: paths, lookups and single statements

    How path strings denote lists of names, and what the lookups and the single
    statements of Directory.v do, in terms of the tree of Tree.v. *)

From stdpp Require Import base strings list sets gmap.
From S2P Require Import Prelude GoStr Store Directory Tree.
Import Directory.

(** ** Path strings *)

(** [s] denotes the names [cs] below the root. *)
Definition denotes (s : string) (cs : list string) : Prop :=
  ".." ∉ split_on slash s /\ List.filter keep (split_on slash s) = cs.

#[global] Instance denotes_dec s cs : Decision (denotes s cs).
Proof. apply _. Defined.

Lemma denotes_comps s cs : denotes s cs -> Forall comp cs.
Proof. intros [Hn <-]. by apply split_comps. Qed.

Lemma rebuild_loop_spec l :
  rebuild_loop l = if decide (".." ∈ l) then Err ErrInvalidPath else Ok (List.filter keep l).
Proof.
  induction l as [|c l IH]; simpl; [done|]. unfold keep at 1. rewrite IH.
  destruct (String.eqb c "" || String.eqb c ".") eqn:E; simpl.
  - assert (c <> "..") as Hc.
    { apply orb_true_iff in E as [?%String.eqb_eq|?%String.eqb_eq]; subst; done. }
    destruct (decide (".." ∈ l)), (decide (".." ∈ c :: l)); done || set_solver.
  - destruct (String.eqb_spec c "..") as [->|Hc].
    + rewrite decide_True by set_solver. done.
    + destruct (decide (".." ∈ l)), (decide (".." ∈ c :: l)); done || set_solver.
Qed.

Lemma rebuildDirItems_ok s items :
  rebuildDirItems s = Ok items <-> exists cs, items = "/" :: cs /\ denotes s cs.
Proof.
  unfold rebuildDirItems, denotes. rewrite rebuild_loop_spec.
  destruct (decide _); simpl; naive_solver.
Qed.

Lemma rebuildDirItems_denotes s cs : denotes s cs -> rebuildDirItems s = Ok ("/" :: cs).
Proof. intros H. apply rebuildDirItems_ok. by exists cs. Qed.

Lemma denotes_join cs : Forall comp cs -> denotes ("/" +:+ join_slash cs) cs.
Proof.
  intros H. destruct (decide (cs = [])) as [->|Hne].
  { split; [|done]. change (split_on slash _) with [""; ""]. set_solver. }
  apply split_clean_form; auto.
Qed.

Lemma denotes_join_rel cs : Forall comp cs -> cs <> [] -> denotes (join_slash cs) cs.
Proof. intros. apply split_clean_form; auto. Qed.

Lemma denotes_dot : denotes "." [].
Proof. split; [|done]. change (split_on slash ".") with ["."]. set_solver. Qed.

(** The cleaned form of a path. *)
Lemma denotes_clean s cs :
  denotes s cs ->
  path_clean s = if GoStr.rooted s then "/" +:+ join_slash cs
                 else match cs with [] => "." | _ => join_slash cs end.
Proof. intros [Hn <-]. unfold path_clean. by rewrite clean_comps_keep. Qed.

Lemma denotes_path_clean s cs : denotes s cs -> denotes (path_clean s) cs.
Proof.
  intros H. pose proof (denotes_comps _ _ H). rewrite (denotes_clean _ _ H).
  case_match; [by apply denotes_join|]. destruct cs; [apply denotes_dot|].
  by apply denotes_join_rel.
Qed.

Lemma string_app_assoc (a b c : string) : a +:+ (b +:+ c) = (a +:+ b) +:+ c.
Proof.
  induction a as [|x a IH]; [done|].
  change (String x (a +:+ (b +:+ c)) = String x ((a +:+ b) +:+ c)). by f_equal.
Qed.

Lemma join_slash_snoc cs c :
  join_slash (cs ++ [c]) = match cs with [] => c | _ => join_slash cs +:+ "/" +:+ c end.
Proof.
  induction cs as [|d cs IH]; [done|]. destruct cs as [|e cs]; [done|].
  change (join_slash ((d :: e :: cs) ++ [c])) with (d +:+ "/" +:+ join_slash ((e :: cs) ++ [c])).
  rewrite IH. change (join_slash (d :: e :: cs)) with (d +:+ "/" +:+ join_slash (e :: cs)).
  by rewrite !string_app_assoc.
Qed.

Lemma trim_slash_app pre c :
  c <> "" -> has_byte slash c = false -> trim_slash (pre +:+ c) = pre +:+ c.
Proof.
  intros Hne Hns. assert (trim_slash c = c) as Hc.
  { clear Hne pre. induction c as [|a c IH]; [done|]. simpl in Hns.
    apply orb_false_iff in Hns as [Ha Hc]. cbn [trim_slash]. rewrite Ha.
    destruct c; [done|]. by rewrite IH. }
  induction pre as [|a pre IH]; [done|].
  change (String a pre +:+ c) with (String a (pre +:+ c)). cbn [trim_slash].
  rewrite IH. destruct (pre +:+ c) eqn:E; [|done]. exfalso. by destruct pre.
Qed.

Lemma splitFilename_denotes s cs c :
  denotes s (cs ++ [c]) ->
  exists dir, splitFilename s = (dir, c, false) /\ denotes dir cs.
Proof.
  intros H. pose proof (denotes_comps _ _ H) as Hcomps. unfold splitFilename.
  set (f := path_clean s).
  assert (f = "/" +:+ join_slash (cs ++ [c]) \/ f = join_slash (cs ++ [c])) as Hf.
  { subst f. rewrite (denotes_clean _ _ H). case_match; [by left|]. right. by destruct cs. }
  pose proof Hcomps as [Hcs Hc]%Forall_app. apply Forall_cons in Hc as [(Hc0 & Hc1 & Hc2 & Hcs') _].
  assert (exists pre, f = pre +:+ c) as [pre Hpre].
  { destruct Hf as [-> | ->]; rewrite join_slash_snoc; destruct cs.
    - by exists "/".
    - eexists. by rewrite !string_app_assoc.
    - by exists "".
    - eexists. by rewrite !string_app_assoc. }
  assert (f <> "/") as Hne.
  { intros E. pose proof (denotes_path_clean _ _ H) as [_ Hk]. fold f in Hk. rewrite E in Hk.
    by destruct cs. }
  rewrite (proj2 (String.eqb_neq _ _) Hne).
  assert (trim_slash f = f) as -> by (rewrite Hpre; by apply trim_slash_app).
  exists (path_dir f). rewrite (path_base_clean f cs c) by done. split; [done|].
  rewrite (path_dir_comps f cs c) by done. case_match; [by apply denotes_join|].
  destruct cs; [apply denotes_dot|by apply denotes_join_rel].
Qed.

(** A path that denotes the root is the root when it is absolute. *)
Lemma splitFilename_root s :
  denotes s [] -> GoStr.rooted s = true -> splitFilename s = ("", "/", true).
Proof.
  intros H Hr. unfold splitFilename. rewrite (denotes_clean _ _ H), Hr. done.
Qed.

Lemma path_clean_ne s : path_clean s <> "".
Proof.
  assert (forall root l out, Forall (fun c => c <> "") out ->
    Forall (fun c => c <> "") (fold_left (clean_step root) l out)) as Hfold.
  { intros root l. induction l as [|c l IH]; intros out Hout; [done|]. cbn [fold_left].
    apply IH. unfold clean_step. destruct (decide (c = "" \/ c = ".")) as [|Hc]; [done|].
    destruct (decide (c = "..")) as [->|].
    - destruct out as [|w out]; [destruct root; by repeat constructor|].
      apply Forall_cons in Hout as [? ?]. case_decide; [|done]. by repeat constructor.
    - constructor; [|done]. intros ->. apply Hc. by left. }
  unfold path_clean. case_match; [done|].
  assert (Forall (fun c => c <> "") (clean_comps s)) as Hc.
  { unfold clean_comps. apply Forall_rev, Hfold. constructor. }
  destruct Hc as [|c cs Hc _]; [done|]. destruct cs; [done|]. by destruct c.
Qed.

(** ** Listing *)
Definition children (t : list row) (pid : Z) : list row :=
  order_by by_entry_id (sql_select (fun r => ParentEntryId_ r =? pid) t).

Lemma children_elem t pid r : r ∈ children t pid <-> r ∈ t /\ ParentEntryId_ r = pid.
Proof. unfold children. by rewrite order_by_elem, sql_select_elem, Z.eqb_eq. Qed.

Lemma children_NoDup t pid : NoDup t -> NoDup (children t pid).
Proof.
  intros H. unfold children. rewrite order_by_perm.
  eapply sublist_NoDup; [done|apply filter_sublist].
Qed.

(** The batches of [txListAllDir] make up one full listing. *)
Lemma list_all_loop_ok fuel pid off t :
  (length (children t pid) - off < 128 * fuel)%nat ->
  list_all_loop fuel pid off t = drop off (children t pid).
Proof.
  revert off. induction fuel as [|fuel IH]; intros off Hf; [lia|].
  cbn [list_all_loop]. unfold list_rows, sql_limit. fold (children t pid).
  set (l := children t pid) in *. destruct (Nat.ltb_spec (length (take 128 (drop off l))) 128) as [Hlt|Hge].
  - rewrite length_take, length_drop in Hlt. apply take_ge. rewrite length_drop. lia.
  - rewrite length_take, length_drop in Hge. rewrite IH by lia.
    rewrite <- drop_drop. by rewrite take_drop.
Qed.

Lemma children_length t pid : (length (children t pid) <= length t)%nat.
Proof.
  unfold children. rewrite (Permutation_length (order_by_perm _ _)).
  unfold sql_select. apply List.filter_length_le.
Qed.

(** ** Lookups *)
Notation T w := (t_mapping (db w)).

(** The walk of [txOnSelectDir] without creation, as a function of the table. *)
Fixpoint walk (t : list row) (pid : Z) (items : list string) : outcome Z :=
  match items with
  | [] => Ok pid
  | item :: items =>
      match search_row pid item t with
      | None => Err ErrNotExist
      | Some r => if IsDir r then walk t (EntryId_ r) items
                  else Err ErrPathComponentNotDirectory
      end
  end.

Definition get_info (t : list row) (s : string) : outcome (option row * Z) :=
  let '(dir, name, isRoot) := splitFilename s in
  if isRoot then Ok (search_row 0 "/" t, 0)
  else
    items ← rebuildDirItems dir;
    pid ← walk t 0 items;
    Ok (search_row pid name t, pid).

Section Walk.
Context t (Hwf : wf_tree t).

Lemma walk_from ds p cs pid :
  at_path t ds p -> IsDir p = true ->
  walk t (EntryId_ p) cs = Ok pid <->
  exists r, at_path t (ds ++ cs) r /\ IsDir r = true /\ pid = EntryId_ r.
Proof.
  revert ds p. induction cs as [|c cs IH]; intros ds p Hp Hd; cbn [walk].
  - rewrite app_nil_r. split; [intros [= <-]; by exists p|].
    intros (r & Hr & _ & ->). by rewrite (at_path_func _ Hwf _ _ _ Hr Hp).
  - replace (ds ++ c :: cs) with ((ds ++ [c]) ++ cs) by (by rewrite <- app_assoc).
    destruct (search_row (EntryId_ p) c t) as [x|] eqn:E.
    + apply search_row_spec in E as (Hx & Hpx & <-); [|done].
      assert (at_path t (ds ++ [FileName_ x]) x) as Hat by (by econstructor).
      destruct (IsDir x) eqn:Ex; [by apply IH|]. split; [done|].
      intros (r & Hr & Hrd & _). exfalso.
      destruct (at_path_app _ Hwf _ _ _ Hr) as (q & Hq & Hqd).
      rewrite (at_path_func _ Hwf _ _ _ Hq Hat) in Hqd.
      destruct cs; [|rewrite Hqd in Ex; done].
      rewrite app_nil_r in Hr. rewrite (at_path_func _ Hwf _ _ _ Hr Hat) in Hrd. congruence.
    + split; [done|]. intros (r & Hr & _ & _). exfalso.
      destruct (at_path_app _ Hwf _ _ _ Hr) as (q & Hq & _).
      apply at_path_snoc_inv in Hq as (q' & Hq' & _ & Hin & Hpq & Hn).
      rewrite (at_path_func _ Hwf _ _ _ Hp Hq') in E.
      rewrite search_row_none in E by done. by eapply E.
Qed.

Lemma walk_ok cs pid :
  walk t 0 ("/" :: cs) = Ok pid <->
  exists r, at_path t cs r /\ IsDir r = true /\ pid = EntryId_ r.
Proof.
  cbn [walk]. destruct (search_row 0 "/" t) as [x|] eqn:E.
  - apply search_row_spec in E as (Hx & Hpx & Hn); [|done].
    assert (at_path t [] x) as Hat by (by constructor).
    destruct (IsDir x) eqn:Ex; [by apply (walk_from [])|]. split; [done|].
    intros (r & Hr & Hrd & _). exfalso.
    destruct (at_path_app _ Hwf [] _ _ Hr) as (q & Hq & Hqd).
    rewrite (at_path_func _ Hwf _ _ _ Hq Hat) in Hqd.
    destruct cs; [|rewrite Hqd in Ex; done].
    rewrite (at_path_func _ Hwf _ _ _ Hr Hat) in Hrd. congruence.
  - split; [done|]. intros (r & Hr & _). exfalso.
    destruct (at_path_app _ Hwf [] _ _ Hr) as (q & Hq & _).
    pose proof (at_path_elem _ _ _ Hq). apply at_path_root_inv in Hq as [? ?].
    rewrite search_row_none in E by done. by eapply E.
Qed.

Lemma walk_err pid items e :
  walk t pid items = Err e -> e = ErrNotExist \/ e = ErrPathComponentNotDirectory.
Proof.
  revert pid. induction items as [|i items IH]; intros pid; cbn [walk]; [done|].
  destruct (search_row pid i t); [|naive_solver]. case_match; [apply IH|naive_solver].
Qed.

Lemma get_info_ok s cs c o pid :
  denotes s (cs ++ [c]) -> get_info t s = Ok (o, pid) ->
  o = find t (cs ++ [c]) /\
  exists p, at_path t cs p /\ IsDir p = true /\ pid = EntryId_ p.
Proof.
  intros (dir & Hsplit & Hdir)%splitFilename_denotes. unfold get_info. rewrite Hsplit.
  rewrite (rebuildDirItems_denotes _ _ Hdir). cbn [mbind outcome_bind].
  destruct (walk t 0 ("/" :: cs)) as [q|e] eqn:E; [|done]. intros [= <- <-].
  apply walk_ok in E as (p & Hp & Hd & ->). split; [|by exists p].
  destruct (search_row (EntryId_ p) c t) as [x|] eqn:E; symmetry.
  - apply search_row_spec in E as (Hx & Hpx & <-); [|done]. apply find_spec; [done|].
    by econstructor.
  - apply find_none; [done|]. intros r (q & Hq & _ & Hin & Hpr & Hn)%at_path_snoc_inv.
    rewrite (at_path_func _ Hwf _ _ _ Hp Hq) in E.
    rewrite search_row_none in E by done. by eapply E.
Qed.

Lemma get_info_err s cs c e :
  denotes s (cs ++ [c]) -> get_info t s = Err e ->
  find t (cs ++ [c]) = None /\ (e = ErrNotExist \/ e = ErrPathComponentNotDirectory) /\
  forall p, at_path t cs p -> IsDir p = false.
Proof.
  intros (dir & Hsplit & Hdir)%splitFilename_denotes. unfold get_info. rewrite Hsplit.
  rewrite (rebuildDirItems_denotes _ _ Hdir). cbn [mbind outcome_bind].
  destruct (walk t 0 ("/" :: cs)) as [q|e'] eqn:E; [done|]. intros [= ->].
  assert (forall p, at_path t cs p -> IsDir p = false) as Hno.
  { intros p Hp. destruct (IsDir p) eqn:Hd; [|done]. exfalso.
    assert (walk t 0 ("/" :: cs) = Ok (EntryId_ p)) as Hw by (apply walk_ok; eauto).
    rewrite E in Hw. done. }
  split_and!; [|by eapply walk_err|done]. apply find_none; [done|].
  intros r (q & Hq & Hd & _)%at_path_snoc_inv. rewrite Hno in Hd; done.
Qed.

(** Whatever the string, a found entry is a row of the table. *)
Lemma get_info_elem s r pid : get_info t s = Ok (Some r, pid) -> r ∈ t.
Proof.
  unfold get_info. destruct (splitFilename s) as [[dir name] isRoot]. destruct isRoot.
  - intros [= E _]. by apply search_row_spec in E as (? & _).
  - destruct (rebuildDirItems dir); [|done]. cbn [mbind outcome_bind].
    destruct (walk t 0 _); [|done]. cbn [mbind outcome_bind].
    intros [= E _]. by apply search_row_spec in E as (? & _).
Qed.
End Walk.

Section Lookup.
Context `{!Env}.

Lemma select_loop_walk seen items pid w :
  select_loop seen items pid false w = (walk (T w) pid items, w).
Proof.
  revert seen pid. induction items as [|i items IH]; intros seen pid; [done|].
  cbn [select_loop walk]. unfold txSelectDirComponent, txSearchEntry, query, reads.
  unfold mbind, M_bind. destruct (search_row pid i (T w)) as [r|]; [|done].
  cbn. unfold check. unfold IsDir. destruct (FileKind_ r =? defaultFileKindDir); [|done].
  cbn. apply IH.
Qed.

Lemma txGetEntryInfo_eq s w : txGetEntryInfo s w = (get_info (T w) s, w).
Proof.
  unfold txGetEntryInfo, get_info. destruct (splitFilename s) as [[dir name] [|]]; [done|].
  unfold txOnSelectDir, lift, mbind, M_bind.
  destruct (rebuildDirItems dir) as [items|e]; [|done]. cbn [outcome_bind].
  rewrite select_loop_walk. destruct (walk (T w) 0 items); done.
Qed.

Lemma txListAllDir_eq pid w : txListAllDir pid w = (Ok (children (T w) pid), w).
Proof.
  unfold txListAllDir, query, reads. rewrite list_all_loop_ok; [done|].
  pose proof (children_length (T w) pid). lia.
Qed.

(** ** Statements *)
Lemma recordChange_eq p k w : exists w',
  recordChange p k w = (Ok tt, w') /\ ids w' = ids w /\
  (exists mk, db w' = add_change mk (db w)).
Proof.
  unfold recordChange, now, insert_change, mbind, M_bind, check. cbn.
  rewrite bool_decide_eq_false_2 by apply path_clean_ne.
  eexists. split; [done|]. split; [done|]. by eexists.
Qed.

Lemma recordChange_tree p k w : exists w',
  recordChange p k w = (Ok tt, w') /\ ids w' = ids w /\ T w' = T w.
Proof.
  destruct (recordChange_eq p k w) as (w' & E & Hi & mk & Hdb). exists w'.
  split_and!; [done..|]. by rewrite Hdb.
Qed.
End Lookup.
