(* ===== verification/DirOps.v ===== *)
(** * Directory: the recursive operations

    What the walks of Directory.v do to the tree: every operation that changes
    the table is described by its effect on the abstract map of Tree.v, and no
    walk runs out of fuel on a well-formed table. *)

From stdpp Require Import base strings list sets gmap.
From S2P Require Import Prelude GoStr Store Directory Tree DirWalk.
Import Directory.

(** ** Changes of modification times *)
Definition retouched (t t' : list row) : Prop :=
  exists g, keeps_place g /\ (forall r, node_of (g r) = node_of r) /\ t' = map g t.

Lemma retouched_refl t : retouched t t.
Proof. exists id. split_and!; try done. by rewrite map_id. Qed.

Lemma retouched_trans t1 t2 t3 : retouched t1 t2 -> retouched t2 t3 -> retouched t1 t3.
Proof.
  intros (g & Hg & Hng & ->) (h & Hh & Hnh & ->). exists (h ∘ g). split_and!.
  - intros r. unfold compose. destruct (Hg r) as (?&?&?&?), (Hh (g r)) as (?&?&?&?).
    split_and!; congruence.
  - intros r. unfold compose. by rewrite Hnh, Hng.
  - by rewrite map_map.
Qed.

Lemma retouched_wf t t' : retouched t t' -> wf_tree t -> wf_tree t'.
Proof. intros (g & Hg & _ & ->). by apply wf_map. Qed.

Lemma retouched_find t t' cs r :
  retouched t t' -> find t cs = Some r ->
  exists r', find t' cs = Some r' /\ EntryId_ r' = EntryId_ r /\ FileKind_ r' = FileKind_ r /\
    node_of r' = node_of r.
Proof.
  intros (g & Hg & Hn & ->) Hr. exists (g r). rewrite find_map, Hr by done.
  destruct (Hg r) as (? & _ & _ & ?). by split_and!.
Qed.

Lemma retouched_abs t t' cs : retouched t t' -> abs t' cs = abs t cs.
Proof.
  intros (g & Hg & Hn & ->). unfold abs. rewrite find_map by done.
  destruct (find t cs); simpl; [by rewrite Hn|done].
Qed.

Lemma retouched_ids t t' r' : retouched t t' -> r' ∈ t' ->
  exists r, r ∈ t /\ EntryId_ r' = EntryId_ r.
Proof.
  intros (g & Hg & _ & ->) (r & -> & Hr)%list_elem_of_fmap. exists r.
  split; [done|]. apply Hg.
Qed.

Lemma retouched_update q mtime t : retouched t (sql_update q (with_mtime mtime) t).
Proof.
  exists (fun r => if q r then with_mtime mtime r else r). split_and!; [|by intros r; case_match|done].
  apply keeps_place_if. by intros r.
Qed.

Section Ops.
Context `{!Env} `{!GoodIds}.

(** ** The invariant of the state *)
Definition fresh (w : World) : Prop :=
  forall r n, r ∈ T w -> (ids w <= n)%nat -> EntryId_ r <> idfn n.
Definition wf_world (w : World) : Prop := wf_tree (T w) /\ fresh w.

Lemma wf_world_retouched w w' :
  wf_world w -> retouched (T w) (T w') -> ids w' = ids w -> wf_world w'.
Proof.
  intros [Hwf Hfr] Hre Hid. split; [by eapply retouched_wf|].
  intros r' n Hr' Hn. rewrite Hid in Hn. destruct (retouched_ids _ _ _ Hre Hr') as (r & Hr & ->).
  by apply Hfr.
Qed.

Lemma wf_world_same w w' : wf_world w -> T w' = T w -> ids w' = ids w -> wf_world w'.
Proof. intros Hw HT. apply wf_world_retouched; [done|]. rewrite HT. apply retouched_refl. Qed.

(** ** Single statements *)
Lemma touchEntryID_eq eid m w : exists w',
  touchEntryID eid m w = (Ok tt, w') /\ ids w' = ids w /\ retouched (T w) (T w').
Proof. eexists. split; [done|]. split; [done|]. apply retouched_update. Qed.

Lemma get_info_err_kind t s e :
  get_info t s = Err e ->
  e = ErrInvalidPath \/ e = ErrNotExist \/ e = ErrPathComponentNotDirectory.
Proof.
  unfold get_info. destruct (splitFilename s) as [[dir name] [|]]; [done|].
  unfold rebuildDirItems. rewrite rebuild_loop_spec. case_decide; cbn; [naive_solver|].
  case_match; [|naive_solver]. case_match; [|naive_solver].
  destruct (walk t _ _) eqn:E; cbn; [done|]. intros [= <-].
  apply walk_err in E. naive_solver.
Qed.

Lemma touchParent_eq s m w : exists res w',
  touchParent s m w = (res, w') /\ ids w' = ids w /\ retouched (T w) (T w') /\
  (forall e, res = Err e -> e = ErrInvalidPath \/ e = ErrPathComponentNotDirectory).
Proof.
  unfold touchParent, attempt, mbind, M_bind. rewrite txGetEntryInfo_eq. cbn.
  destruct (get_info (T w) (path_dir (path_clean s))) as [[[parent|] pid]|e] eqn:E.
  - destruct (touchEntryID_eq (EntryId_ parent) m w) as (w' & -> & ? & ?).
    exists (Ok tt), w'. by split_and!.
  - exists (Ok tt), w. split_and!; try done. apply retouched_refl.
  - apply get_info_err_kind in E. case_decide.
    + exists (Ok tt), w. split_and!; try done. apply retouched_refl.
    + exists (Err e), w. split_and!; try done; [apply retouched_refl|naive_solver].
Qed.

Definition entry_row (n eid pid : Z) (ent : row) : row :=
  {| Id_ := n; EntryId_ := eid; ParentEntryId_ := pid; RefData_ := RefData_ ent;
     FileKind_ := FileKind_ ent; Ctime_ := Ctime_ ent; Mtime_ := Mtime_ ent;
     FileSize_ := FileSize_ ent; FileMode_ := FileMode_ ent; FileName_ := FileName_ ent |}.

Lemma txCreateEntry_eq pid ent w :
  wf_world w ->
  (exists w' n, txCreateEntry pid ent w = (Ok (idfn (ids w)), w') /\ ids w' = S (ids w) /\
     T w' = T w ++ [entry_row n (idfn (ids w)) pid ent] /\
     forall r, r ∈ T w -> ParentEntryId_ r = pid -> FileName_ r <> FileName_ ent) \/
  (exists w' r, txCreateEntry pid ent w = (Err ErrUniqueConstraint, w') /\
     r ∈ T w /\ ParentEntryId_ r = pid /\ FileName_ r = FileName_ ent).
Proof.
  intros [Hwf Hfr]. unfold txCreateEntry, NextId, insert_mapping, query, reads, mbind, M_bind. cbn.
  unfold check. destruct (mapping_conflict _ _ _ _) eqn:E.
  - right. unfold mapping_conflict in E. apply sql_exists_true in E as (r & Hr & Hc).
    apply orb_true_iff in Hc as [Hc|Hc].
    + apply Z.eqb_eq in Hc. exfalso. by eapply (Hfr r (ids w)).
    + apply andb_true_iff in Hc as [Hp Hn]. apply Z.eqb_eq in Hp.
      apply bool_decide_eq_true in Hn. eexists _, r. by split_and!.
  - left. unfold mapping_conflict in E. rewrite sql_exists_false in E. cbn.
    eexists _, _. split_and!; try done. intros r Hr Hp Hn. specialize (E r Hr).
    apply orb_false_iff in E as [_ E]. rewrite Hp, Z.eqb_refl in E.
    rewrite bool_decide_eq_true_2 in E; done.
Qed.

(** Creating an entry below a directory, or the root. *)
Lemma txCreateEntry_ok pid ent w cs :
  wf_world w ->
  new_path (T w) (entry_row 0 0 pid ent) cs -> find (T w) cs = None ->
  FileKind_ ent = defaultFileKindDir \/ FileKind_ ent = defaultFileKindFile ->
  exists w' n, txCreateEntry pid ent w = (Ok (idfn (ids w)), w') /\ wf_world w' /\
    T w' = T w ++ [n] /\ n = entry_row (Id_ n) (idfn (ids w)) pid ent /\
    ids w' = S (ids w) /\
    forall ds, find (T w') ds = if decide (ds = cs) then Some n else find (T w) ds.
Proof.
  intros Hw Hnew Hfree Hkind. pose proof Hw as [Hwf Hfr].
  destruct (txCreateEntry_eq pid ent w Hw) as [(w' & k & E & Hid & HT & Hkey)|(w' & r & _ & Hr & Hp & Hn)].
  - set (n := entry_row k (idfn (ids w)) pid ent) in *.
    assert (new_path (T w) n cs) as Hnew' by done.
    assert (forall r, r ∈ T w -> EntryId_ r <> EntryId_ n) as Hidn by (intros r Hr; by apply Hfr).
    assert (0 < EntryId_ n) as Hpos by apply idfn_pos.
    exists w', n. split_and!; try done.
    + split; [rewrite HT; by eapply wf_insert|].
      intros r m Hr Hm. rewrite Hid in Hm. rewrite HT in Hr.
      apply elem_of_app in Hr as [Hr| ->%list_elem_of_singleton].
      * apply Hfr; [done|lia].
      * cbn. intros ?%idfn_inj. lia.
    + intros ds. rewrite HT. by apply find_insert.
  - exfalso. apply (proj1 (find_none (T w) cs Hwf) Hfree r).
    destruct Hnew as [(-> & Hp0 & Hn0)|(ds & p & -> & Hat & Hd & Hpe)]; cbn in *.
    + constructor; congruence.
    + rewrite <- Hn. econstructor; [done..|congruence].
Qed.

(** ** Removing a subtree *)

(** [L] lists the rows at or below [cs]. *)
Definition subtree_list (t : list row) (cs : list string) (L : list row) : Prop :=
  forall r, r ∈ L <-> exists e, at_path t (cs ++ e) r.

(** [t'] is [t] without the rows at or below [cs]. *)
Definition cut (t t' : list row) (cs : list string) : Prop :=
  sublist t' t /\ forall r, r ∈ t' <-> r ∈ t /\ ~ exists e, at_path t (cs ++ e) r.

Lemma wf_world_cut w w' cs :
  wf_world w -> cut (T w) (T w') cs -> ids w' = ids w -> wf_world w'.
Proof.
  intros [Hwf Hfr] [Hsub Hmem] Hid. split; [by eapply wf_remove|].
  intros r n Hr Hn. rewrite Hid in Hn. apply Hmem in Hr as [Hr _]. by apply Hfr.
Qed.

(** The fuel covers the height of the tree below [cs]. *)
Definition enough (t : list row) (cs : list string) (fuel : nat) : Prop :=
  forall e r, at_path t (cs ++ e) r -> (length e < fuel)%nat.

Lemma enough_top t cs : wf_tree t -> enough t cs (S (length t)).
Proof.
  intros Hwf e r Hr. pose proof (at_path_length _ Hwf _ _ Hr) as Hl.
  rewrite length_app in Hl. lia.
Qed.

Lemma enough_child t cs c fuel : enough t cs (S fuel) -> enough t (cs ++ [c]) fuel.
Proof.
  intros Hen e r Hr. rewrite <- app_assoc in Hr. apply Hen in Hr. simpl in Hr. lia.
Qed.

Lemma enough_pos t cs r fuel : at_path t cs r -> enough t cs fuel -> (0 < fuel)%nat.
Proof.
  intros Hr Hen. specialize (Hen [] r). rewrite app_nil_r in Hen. apply Hen in Hr. simpl in Hr. lia.
Qed.

Lemma child_path t cs e c :
  at_path t cs e -> IsDir e = true -> c ∈ children t (EntryId_ e) ->
  at_path t (cs ++ [FileName_ c]) c.
Proof. intros He Hd [Hc Hp]%children_elem. by econstructor. Qed.

Lemma children_names t cs e :
  wf_tree t -> at_path t cs e -> IsDir e = true -> NoDup (FileName_ <$> children t (EntryId_ e)).
Proof.
  intros Hwf He Hd. apply NoDup_fmap_2_strong.
  - intros x y Hx Hy E. apply children_elem in Hx as [? ?], Hy as [? ?].
    eapply key_inj; [done..|congruence|done].
  - apply children_NoDup, (NoDup_fmap_1 EntryId_), Hwf.
Qed.

(** Below a directory is the directory itself and what is below its children. *)
Lemma below_children t cs e x r :
  wf_tree t -> at_path t cs e ->
  at_path t (cs ++ x) r <->
  (x = [] /\ r = e) \/
  (exists c x', IsDir e = true /\ c ∈ children t (EntryId_ e) /\
     x = FileName_ c :: x' /\ at_path t ((cs ++ [FileName_ c]) ++ x') r).
Proof.
  intros Hwf He. split.
  - intros Hr. destruct x as [|n x].
    + left. rewrite app_nil_r in Hr. split; [done|]. by eapply at_path_func.
    + right. replace (cs ++ n :: x) with ((cs ++ [n]) ++ x) in Hr by (by rewrite <- app_assoc).
      destruct (at_path_app _ Hwf _ _ _ Hr) as (c & Hc & _). pose proof Hc as Hc'.
      apply at_path_snoc_inv in Hc as (e' & He' & Hd & Hin & Hp & <-).
      rewrite (at_path_func _ Hwf _ _ _ He' He) in *. exists c, x.
      split_and!; try done. by apply children_elem.
  - intros [[-> ->]|(c & x' & _ & _ & -> & Hr)]; [by rewrite app_nil_r|].
    by rewrite <- app_assoc in Hr.
Qed.

Lemma prefix_child_ne (cs : list string) a b x :
  a <> b -> ~ cs ++ [a] `prefix_of` (cs ++ [b]) ++ x.
Proof.
  intros Hne [y E]. rewrite <- !app_assoc in E. apply app_inv_head in E. simpl in E.
  by injection E as ->.
Qed.

Lemma prefix_child_self (cs : list string) a : ~ cs ++ [a] `prefix_of` cs.
Proof. intros Hp%prefix_length. rewrite length_app in Hp. simpl in Hp. lia. Qed.

Section CollectAndRemove.
Context (fuel : nat).
Hypothesis IH : forall path e removed w cs,
  wf_world w -> at_path (T w) cs e -> enough (T w) cs fuel ->
  exists w' L, Tx.collectAndRemove fuel path e removed w = (Ok (removed ++ L), w') /\
    ids w' = ids w /\ cut (T w) (T w') cs /\ subtree_list (T w) cs L /\ NoDup L.

(** What the loop over some of the children of [e] leaves and returns. *)
Definition cut_children (t t' : list row) (cs : list string) (l L : list row) : Prop :=
  sublist t' t /\
  (forall r, r ∈ t' <-> r ∈ t /\
     ~ exists c x, c ∈ l /\ at_path t ((cs ++ [FileName_ c]) ++ x) r) /\
  (forall r, r ∈ L <-> exists c x, c ∈ l /\ at_path t ((cs ++ [FileName_ c]) ++ x) r) /\
  NoDup L.

Lemma cut_other t t' cs c d x r :
  wf_tree t -> cut t t' (cs ++ [c]) -> d <> c ->
  at_path t' ((cs ++ [d]) ++ x) r <-> at_path t ((cs ++ [d]) ++ x) r.
Proof.
  intros Hwf [Hsub Hmem] Hne. rewrite (remove_at_path t t' _ Hwf Hmem).
  split; [by intros [? _]|]. intros Hx. split; [done|]. by apply prefix_child_ne, not_eq_sym.
Qed.

Lemma remove_children path cs e l removed w :
  wf_world w -> at_path (T w) cs e -> IsDir e = true ->
  NoDup (FileName_ <$> l) -> (forall c, c ∈ l -> c ∈ children (T w) (EntryId_ e)) ->
  enough (T w) cs (S fuel) ->
  exists w' L, fold_each (fun removed child =>
      Tx.collectAndRemove fuel (path_join [path; FileName_ child]) child removed) removed l w
      = (Ok (removed ++ L), w') /\
    ids w' = ids w /\ cut_children (T w) (T w') cs l L.
Proof.
  revert removed w. induction l as [|c l IHl]; intros removed w Hw He Hd Hnd Hl Hf.
  { exists w, []. rewrite app_nil_r. split_and!; try done. split_and!; try done.
    - intros r. split; [|by intros [? _]]. intros Hr. split; [done|].
      intros (c & x & Hc & _). by apply elem_of_nil in Hc.
    - intros r. split; [by intros ?%elem_of_nil|].
      intros (c & x & Hc & _). by apply elem_of_nil in Hc.
    - constructor. }
  apply NoDup_cons in Hnd as [Hc Hnd]. cbn [fold_each].
  assert (at_path (T w) (cs ++ [FileName_ c]) c) as Hcat.
  { eapply child_path; [done..|]. apply Hl. by left. }
  destruct (IH (path_join [path; FileName_ c]) c removed w (cs ++ [FileName_ c]))
    as (w1 & L1 & E1 & Hid1 & Hcut1 & HL1 & Hnd1); [done..|by apply enough_child|].
  unfold mbind at 1, M_bind. rewrite E1.
  assert (forall d, d ∈ l -> FileName_ d <> FileName_ c) as Hne.
  { intros d Hdl E. apply Hc. rewrite <- E. by apply list_elem_of_fmap_2. }
  pose proof Hcut1 as [Hsub1 Hmem1]. pose proof Hw as [Hwf _].
  pose proof (wf_world_cut _ _ _ Hw Hcut1 Hid1) as Hw1.
  assert (at_path (T w1) cs e) as He1.
  { apply (remove_at_path _ _ _ Hwf Hmem1). split; [done|]. apply prefix_child_self. }
  destruct (IHl (removed ++ L1) w1) as (w2 & L2 & E2 & Hid2 & Hsub2 & Hmem2 & HL2 & Hnd2);
    try done.
  { intros d Hdl. assert (d ∈ children (T w) (EntryId_ e)) as Hch by (apply Hl; by right).
    apply children_elem in Hch as [Hin Hp]. apply children_elem. split; [|done].
    apply (at_path_elem _ ((cs ++ [FileName_ d]) ++ [])).
    eapply (cut_other _ _ _ _ _ _ _ Hwf Hcut1); [by apply Hne|].
    rewrite app_nil_r. by econstructor. }
  { intros x r Hr. apply (remove_at_path _ _ _ Hwf Hmem1) in Hr as [Hr _]. by eapply Hf. }
  exists w2, (L1 ++ L2). rewrite app_assoc. split_and!; [done|congruence|].
  assert (forall r, (exists d x, d ∈ l /\ at_path (T w1) ((cs ++ [FileName_ d]) ++ x) r) <->
    (exists d x, d ∈ l /\ at_path (T w) ((cs ++ [FileName_ d]) ++ x) r)) as Heq.
  { intros r. split; intros (d & x & Hdl & Hx); exists d, x; (split; [done|]);
      eapply (cut_other _ _ _ _ _ _ _ Hwf Hcut1); eauto. }
  split_and!.
  - by etrans.
  - intros r. rewrite Hmem2, Hmem1, Heq. split.
    + intros [[Hr Hn1] Hn2]. split; [done|]. intros (d & x & [->|Hdl]%elem_of_cons & Hx); eauto.
    + intros [Hr Hn]. split_and!; [done| |].
      * intros [x Hx]. apply Hn. exists c, x. split; [by left|done].
      * intros (d & x & Hdl & Hx). apply Hn. exists d, x. split; [by right|done].
  - intros r. rewrite elem_of_app, HL2, (HL1 r), Heq. split.
    + intros [[x Hx]|(d & x & Hdl & Hx)]; [exists c, x|exists d, x]; (split; [|done]);
        [by left|by right].
    + intros (d & x & [->|Hdl]%elem_of_cons & Hx); eauto 6.
  - apply NoDup_app. split_and!; [done| |done]. intros r [x Hx]%HL1 Hr2.
    apply HL2, Heq in Hr2 as (d & y & Hdl & Hy).
    pose proof (at_path_inj _ Hwf _ _ _ Hx Hy) as E. 
    apply (prefix_child_ne cs (FileName_ c) (FileName_ d) y); [by apply not_eq_sym, Hne|].
    by exists x.
Qed.
End CollectAndRemove.

(** DELETE by (parent, name) removes exactly the one row. *)
Lemma txRemove_eq e w : exists w',
  txRemove (ParentEntryId_ e) (FileName_ e) w = (Ok tt, w') /\ ids w' = ids w /\
  sublist (T w') (T w) /\
  ((forall r, r ∈ T w -> ParentEntryId_ r = ParentEntryId_ e -> FileName_ r = FileName_ e ->
      r = e) ->
   forall r, r ∈ T w' <-> r ∈ T w /\ r <> e).
Proof.
  eexists. split; [done|]. split; [done|]. split; [apply filter_sublist|].
  intros Hkey r. cbn. rewrite sql_delete_elem. split; intros [Hr Hk]; (split; [done|]).
  - intros ->. rewrite Z.eqb_refl, bool_decide_eq_true_2 in Hk; done.
  - apply not_true_iff_false. intros [Hp%Z.eqb_eq Hn%bool_decide_eq_true]%andb_true_iff.
    by apply Hk, Hkey.
Qed.

Lemma IsDir_children t cs e :
  wf_tree t -> at_path t cs e -> IsDir e = false -> children t (EntryId_ e) = [].
Proof.
  intros Hwf He Hd. destruct (children t (EntryId_ e)) as [|c l] eqn:E; [done|].
  assert (c ∈ children t (EntryId_ e)) as Hc by (rewrite E; left).
  apply children_elem in Hc as [Hc Hp]. destruct (wf_path t Hwf c Hc) as [ds Hds].
  inversion Hds as [|ds' p c' Hp' Hd' ? Hpp]; subst.
  - pose proof (wf_pos t Hwf e (at_path_elem _ _ _ He)). lia.
  - assert (p = e) as ->; [|congruence].
    eapply id_inj; [done|by eapply at_path_elem|by eapply at_path_elem|congruence].
Qed.

Lemma collectAndRemove_ok fuel path e removed w cs :
  wf_world w -> at_path (T w) cs e -> enough (T w) cs fuel ->
  exists w' L, Tx.collectAndRemove fuel path e removed w = (Ok (removed ++ L), w') /\
    ids w' = ids w /\ cut (T w) (T w') cs /\ subtree_list (T w) cs L /\ NoDup L.
Proof.
  revert path e removed w cs. induction fuel as [|fuel IH]; intros path e removed w cs Hw He Hf.
  { pose proof (enough_pos _ _ _ _ He Hf). lia. }
  pose proof Hw as [Hwf _].
  assert (exists w1 L, (if FileKind_ e =? defaultFileKindDir then
      children ← txListAllDir (EntryId_ e);
      fold_each (fun removed child =>
        Tx.collectAndRemove fuel (path_join [path; FileName_ child]) child removed)
        removed children
    else mret removed) w = (Ok (removed ++ L), w1) /\ ids w1 = ids w /\
    cut_children (T w) (T w1) cs (children (T w) (EntryId_ e)) L) as (w1 & L & E1 & Hid1 & Hcut1).
  { destruct (FileKind_ e =? defaultFileKindDir) eqn:Hd.
    - unfold mbind, M_bind. rewrite txListAllDir_eq.
      apply (remove_children fuel IH _ _ e); try done. by eapply children_names.
    - exists w, []. rewrite app_nil_r, (IsDir_children (T w) cs e) by done.
      unfold cut_children. split_and!; try done.
      + intros r. split; [|by intros [? _]]. intros Hr. split; [done|].
        intros (c & x & Hc & _). by apply elem_of_nil in Hc.
      + intros r. split; [by intros ?%elem_of_nil|].
        intros (c & x & Hc & _). by apply elem_of_nil in Hc.
      + constructor. }
  cbn [Tx.collectAndRemove]. unfold mbind at 1, M_bind at 1. rewrite E1.
  destruct (recordChange_tree path CkDeleted w1) as (w2 & E2 & Hid2 & HT2).
  unfold mbind at 1, M_bind at 1. rewrite E2.
  destruct (txRemove_eq e w2) as (w3 & E3 & Hid3 & Hsub3 & Hmem3).
  unfold mbind, M_bind. rewrite E3.
  destruct Hcut1 as (Hsub1 & Hmem1 & HL & Hnd). rewrite HT2 in Hsub3, Hmem3.
  assert (~ exists c x, c ∈ children (T w) (EntryId_ e) /\
    at_path (T w) ((cs ++ [FileName_ c]) ++ x) e) as Hself.
  { intros (c & x & _ & Hx). pose proof (at_path_inj _ Hwf _ _ _ Hx He) as E.
    apply (f_equal length) in E. rewrite !length_app in E. simpl in E. lia. }
  assert (forall r, r ∈ T w3 <-> r ∈ T w1 /\ r <> e) as Hmem.
  { apply Hmem3. intros r [Hr _]%Hmem1 Hp Hn.
    eapply key_inj; [done..|by eapply at_path_elem|done|done]. }
  assert (forall r, (exists x, at_path (T w) (cs ++ x) r) <-> r = e \/
    exists c x, c ∈ children (T w) (EntryId_ e) /\
      at_path (T w) ((cs ++ [FileName_ c]) ++ x) r) as Hbelow.
  { intros r. setoid_rewrite (below_children (T w) cs e); [|done..]. split.
    - intros (x & [[-> ->]|(c & x' & _ & Hc & -> & Hx)]); eauto.
    - intros [->|(c & x & Hc & Hx)]; [exists []; by left|].
      exists (FileName_ c :: x). right. exists c, x. split_and!; try done.
      destruct (IsDir e) eqn:Hd; [done|]. rewrite (IsDir_children (T w) cs e) in Hc by done.
      by apply elem_of_nil in Hc. }
  exists w3, (L ++ [e]). rewrite app_assoc. split_and!; [done|congruence| | |].
  - split; [by etrans|]. intros r. rewrite Hmem, Hmem1, Hbelow. naive_solver.
  - intros r. rewrite elem_of_app, HL, list_elem_of_singleton, Hbelow. naive_solver.
  - apply NoDup_app. split_and!; [done| |apply NoDup_singleton].
    intros r Hr ->%list_elem_of_singleton. by apply HL in Hr.
Qed.

(** ** Reading a subtree *)
Lemma collectEntries_ok fuel e acc w cs :
  wf_tree (T w) -> at_path (T w) cs e -> enough (T w) cs fuel ->
  exists L, Tx.collectEntries fuel e acc w = (Ok (acc ++ L), w) /\ subtree_list (T w) cs L.
Proof.
  intros Hwf. revert e acc cs. induction fuel as [|fuel IH]; intros e acc cs He Hf.
  { pose proof (enough_pos _ _ _ _ He Hf). lia. }
  assert (forall l acc, (forall c, c ∈ l -> IsDir e = true /\ c ∈ children (T w) (EntryId_ e)) ->
    exists L, fold_each (fun entries child => Tx.collectEntries fuel child entries) acc l w
      = (Ok (acc ++ L), w) /\
      forall r, r ∈ L <-> exists c x, c ∈ l /\ at_path (T w) ((cs ++ [FileName_ c]) ++ x) r) as Hloop.
  { induction l as [|c l IHl]; intros acc' Hl; cbn [fold_each].
    - exists []. rewrite app_nil_r. split; [done|]. intros r.
      split; [by intros ?%elem_of_nil|]. intros (c & x & Hc & _). by apply elem_of_nil in Hc.
    - destruct (Hl c) as [Hd Hc]; [by left|].
      destruct (IH c acc' (cs ++ [FileName_ c])) as (L1 & E1 & HL1);
        [by eapply child_path|by apply enough_child|].
      unfold mbind, M_bind. rewrite E1.
      destruct (IHl (acc' ++ L1)) as (L2 & E2 & HL2); [intros d ?; apply Hl; by right|].
      unfold mbind, M_bind in E2. exists (L1 ++ L2). rewrite E2, app_assoc. split; [done|].
      intros r. rewrite elem_of_app, HL2, (HL1 r). split.
      + intros [[x Hx]|(d & x & Hdl & Hx)]; [exists c, x|exists d, x]; (split; [|done]);
          [by left|by right].
      + intros (d & x & [->|Hdl]%elem_of_cons & Hx); eauto 6. }
  destruct (Hloop (if IsDir e then children (T w) (EntryId_ e) else []) acc) as (L & E & HL).
  { intros c. destruct (IsDir e); [done|]. by intros ?%elem_of_nil. }
  exists (L ++ [e]). cbn [Tx.collectEntries]. split.
  - unfold IsDir in E. unfold mbind, M_bind. destruct (FileKind_ e =? defaultFileKindDir).
    + rewrite txListAllDir_eq, E. by rewrite app_assoc.
    + cbn in E. injection E as E. rewrite app_assoc, <- E. done.
  - intros r. rewrite elem_of_app, HL, list_elem_of_singleton.
    setoid_rewrite (below_children (T w) cs e); [|done..]. split.
    + intros [(c & x & Hc & Hx)| ->]; [|exists []; by left].
      exists (FileName_ c :: x). right. exists c, x.
      destruct (IsDir e); [by split_and!|by apply elem_of_nil in Hc].
    + intros (x & [[-> ->]|(c & x' & Hd & Hc & -> & Hx)]); [by right|].
      left. exists c, x'. by rewrite Hd.
Qed.

(** Recording the changes of a tree does not change it. *)
Lemma tree_changes_ok fuel kind path e w cs :
  wf_tree (T w) -> at_path (T w) cs e -> enough (T w) cs fuel ->
  exists w', tree_changes fuel kind path e w = (Ok tt, w') /\ ids w' = ids w /\ T w' = T w.
Proof.
  revert path e w cs. induction fuel as [|fuel IH]; intros path e w cs Hwf He Hf.
  { pose proof (enough_pos _ _ _ _ He Hf). lia. }
  cbn [tree_changes]. destruct (recordChange_tree path kind w) as (w1 & E1 & Hid1 & HT1).
  unfold mbind at 1, M_bind at 1. rewrite E1.
  destruct (FileKind_ e =? defaultFileKindDir) eqn:Hd; [|by exists w1].
  cbn [negb]. unfold mbind, M_bind. rewrite txListAllDir_eq.
  assert (forall l w1, T w1 = T w -> (forall c, c ∈ l -> c ∈ children (T w) (EntryId_ e)) ->
    exists w', for_each (fun child =>
      tree_changes fuel kind (path_join [path; FileName_ child]) child) l w1 = (Ok tt, w') /\
      ids w' = ids w1 /\ T w' = T w) as Hloop.
  { induction l as [|c l IHl]; intros w2 HT2 Hl; cbn [for_each]; [by exists w2|].
    destruct (IH (path_join [path; FileName_ c]) c w2 (cs ++ [FileName_ c])) as (w3 & E3 & Hid3 & HT3);
      rewrite ?HT2; try done.
    - eapply child_path; [done..|]. apply Hl. by left.
    - by apply enough_child.
    - unfold mbind, M_bind. rewrite E3. destruct (IHl w3) as (w' & E' & Hid' & HT').
      + congruence.
      + intros d ?. apply Hl. by right.
      + exists w'. split_and!; [done|congruence|done]. }
  destruct (Hloop (children (T w1) (EntryId_ e)) w1) as (w' & E' & Hid' & HT').
  - done.
  - by rewrite HT1.
  - exists w'. split_and!; [done|congruence|done].
Qed.

Lemma recordTreeChanges_eq s kind w :
  wf_tree (T w) -> exists res w', recordTreeChanges s kind w = (res, w') /\
    ids w' = ids w /\ T w' = T w /\ res <> Err Diverge /\
    (forall cs c, denotes s (cs ++ [c]) -> (exists r, at_path (T w) (cs ++ [c]) r) -> res = Ok tt).
Proof.
  intros Hwf. unfold recordTreeChanges. unfold mbind at 1, M_bind at 1. rewrite txGetEntryInfo_eq.
  destruct (get_info (T w) s) as [[[e|] pid]|err] eqn:E; cbn [fst].
  - pose proof (get_info_elem _ Hwf _ _ _ E) as He. destruct (wf_path _ Hwf e He) as [cs Hcs].
    unfold mbind, M_bind, tree_fuel, query, reads.
    destruct (tree_changes_ok (S (length (T w))) kind (path_clean s) e w cs)
      as (w' & E' & Hid & HT); [done..|by apply enough_top|].
    exists (Ok tt), w'. by split_and!.
  - exists (Err ErrNotExist), w. split_and!; try done. intros cs c Hd [r Hr].
    destruct (get_info_ok _ Hwf _ _ _ _ _ Hd E) as [Hf _].
    symmetry in Hf. rewrite find_none in Hf by done. by apply Hf in Hr.
  - exists (Err err), w. split_and!; try done.
    + apply get_info_err_kind in E. naive_solver.
    + intros cs c Hd [r Hr]. destruct (get_info_err _ Hwf _ _ _ _ Hd E) as [Hf _].
      rewrite find_none in Hf by done. by apply Hf in Hr.
Qed.

(** ** Copying a subtree *)

Lemma abs_find t cs ds : find t cs = find t ds -> abs t cs = abs t ds.
Proof. unfold abs. by intros ->. Qed.

Lemma find_below_none t cs e : wf_tree t -> find t cs = None -> find t (cs ++ e) = None.
Proof.
  intros Hwf. rewrite !find_none by done. intros Hn r Hr.
  destruct (at_path_app _ Hwf _ _ _ Hr) as (p & Hp & _). by apply (Hn p).
Qed.

Lemma find_below_file t cs r c e :
  wf_tree t -> at_path t cs r -> IsDir r = false -> find t (cs ++ c :: e) = None.
Proof.
  intros Hwf Hr Hd. apply find_none; [done|]. intros x Hx.
  apply (below_children _ _ r) in Hx; [|done..].
  destruct Hx as [[? _]|(? & ? & ? & _)]; congruence.
Qed.

Lemma prefix_snoc_inv (k l : list string) c : k `prefix_of` l ++ [c] -> k `prefix_of` l \/ k = l ++ [c].
Proof.
  intros [e E]. destruct e as [|x e] using rev_ind; [right; by rewrite app_nil_r in E|].
  left. rewrite app_assoc in E. apply app_inj_tail in E as [-> _]. by exists e.
Qed.

Definition disjoint_paths (ss D : list string) : Prop :=
  ~ ss `prefix_of` D /\ ~ D `prefix_of` ss.

Lemma disjoint_below ss D a b : disjoint_paths ss D -> ~ D ++ a `prefix_of` ss ++ b.
Proof.
  intros [H1 H2] Hp. destruct (prefix_weak_total D ss (ss ++ b)) as [?|?]; try done.
  - etrans; [|exact Hp]. by exists a.
  - by exists b.
Qed.

Lemma disjoint_child ss D c : disjoint_paths ss D -> disjoint_paths (ss ++ [c]) (D ++ [c]).
Proof.
  intros [Ha Hb]. split; by apply disjoint_below.
Qed.

(** What the copy of the subtree at [ss] to [D] makes of a table. *)
Definition copied (t t' : list row) (ss D : list string) (recursive : bool) : Prop :=
  (forall ds, ~ D `prefix_of` ds -> find t' ds = find t ds) /\
  (forall e, abs t' (D ++ e) =
     if recursive then abs t (ss ++ e) else if decide (e = []) then abs t ss else None).

Section Copy.
Context (fuel : nat).
Hypothesis IH : forall s pid path name w ss ps p,
  wf_world w -> at_path (T w) ss s -> at_path (T w) ps p -> IsDir p = true ->
  pid = EntryId_ p -> find (T w) (ps ++ [name]) = None ->
  disjoint_paths ss (ps ++ [name]) -> enough (T w) ss fuel ->
  exists w', txDoIterAndCopy fuel s pid path name true w = (Ok tt, w') /\ wf_world w' /\
    copied (T w) (T w') ss (ps ++ [name]) true.

Lemma copy_children path l w ss D n :
  wf_world w -> at_path (T w) D n -> IsDir n = true -> disjoint_paths ss D ->
  NoDup (FileName_ <$> l) ->
  (forall c, c ∈ l -> at_path (T w) (ss ++ [FileName_ c]) c) ->
  (forall c, c ∈ l -> find (T w) (D ++ [FileName_ c]) = None) ->
  enough (T w) ss (S fuel) ->
  exists w', for_each (fun item =>
      txDoIterAndCopy fuel item (EntryId_ n) (path_join [path; FileName_ item])
        (FileName_ item) true) l w = (Ok tt, w') /\ wf_world w' /\
    (forall ds, (forall c, c ∈ l -> ~ D ++ [FileName_ c] `prefix_of` ds) ->
       find (T w') ds = find (T w) ds) /\
    (forall c e, c ∈ l -> abs (T w') (D ++ FileName_ c :: e) = abs (T w) (ss ++ FileName_ c :: e)).
Proof.
  revert w. induction l as [|c l IHl]; intros w Hw Hn Hd Hdis Hnd Hl Hfree Hf; cbn [for_each].
  { exists w. split_and!; try done. intros c e Hc. by apply elem_of_nil in Hc. }
  apply NoDup_cons in Hnd as [Hc Hnd].
  assert (forall d, d ∈ l -> FileName_ d <> FileName_ c) as Hne.
  { intros d Hdl E. apply Hc. rewrite <- E. by apply list_elem_of_fmap_2. }
  destruct (IH c (EntryId_ n) (path_join [path; FileName_ c]) (FileName_ c) w
    (ss ++ [FileName_ c]) D n) as (w1 & E1 & Hw1 & Hout & Hin); try done.
  { apply Hl. by left. } { apply Hfree. by left. } { by apply disjoint_child. }
  { by apply enough_child. }
  pose proof Hw as [Hwf _]. pose proof Hw1 as [Hwf1 _].
  assert (forall x, find (T w1) (ss ++ x) = find (T w) (ss ++ x)) as Hsrc.
  { intros x. apply Hout. by apply disjoint_below. }
  assert (at_path (T w1) D n) as Hn1.
  { apply find_spec; [done|]. rewrite Hout by apply prefix_child_self. by apply find_spec. }
  assert (forall d x, d ∈ l -> find (T w1) (D ++ FileName_ d :: x) = find (T w) (D ++ FileName_ d :: x)) as Hoth.
  { intros d x Hdl. apply Hout. replace (D ++ FileName_ d :: x) with ((D ++ [FileName_ d]) ++ x)
      by (by rewrite <- app_assoc). apply prefix_child_ne, not_eq_sym, Hne, Hdl. }
  destruct (IHl w1) as (w2 & E2 & Hw2 & Hout2 & Hin2); try done.
  { intros d Hdl. apply find_spec; [done|]. rewrite Hsrc. apply find_spec; [done|].
    apply Hl. by right. }
  { intros d Hdl. rewrite Hoth by done. apply Hfree. by right. }
  { intros x r Hr. apply find_spec in Hr; [|done]. rewrite Hsrc in Hr.
    apply find_spec in Hr; [|done]. by eapply Hf. }
  exists w2. unfold mbind, M_bind. rewrite E1. split_and!; try done.
  - intros ds Hds. rewrite Hout2 by (intros d ?; apply Hds; by right).
    apply Hout. apply Hds. by left.
  - intros d e [->|Hdl]%elem_of_cons.
    + transitivity (abs (T w1) (D ++ FileName_ c :: e)).
      * unfold abs. rewrite Hout2; [done|]. intros d Hdl.
        replace (D ++ FileName_ c :: e) with ((D ++ [FileName_ c]) ++ e) by (by rewrite <- app_assoc).
        apply prefix_child_ne, Hne, Hdl.
      * specialize (Hin e). rewrite <- !app_assoc in Hin. exact Hin.
    + rewrite Hin2 by done. unfold abs. by rewrite Hsrc.
Qed.
End Copy.

Lemma not_root_prefix ss D : disjoint_paths ss D -> ss <> [] /\ D <> [].
Proof. intros [H1 H2]. split; intros ->; [apply H1|apply H2]; apply prefix_nil. Qed.

Lemma txDoIterAndCopy_ok fuel s pid path name recursive w ss ps p :
  wf_world w -> at_path (T w) ss s -> at_path (T w) ps p -> IsDir p = true ->
  pid = EntryId_ p -> find (T w) (ps ++ [name]) = None ->
  disjoint_paths ss (ps ++ [name]) -> enough (T w) ss fuel ->
  exists w', txDoIterAndCopy fuel s pid path name recursive w = (Ok tt, w') /\ wf_world w' /\
    copied (T w) (T w') ss (ps ++ [name]) recursive.
Proof.
  revert s pid path name recursive w ss ps p.
  induction fuel as [|fuel IH]; intros s pid path name recursive w ss ps p Hw Hs Hp Hd -> Hfree Hdis Hf.
  { pose proof (enough_pos _ _ _ _ Hs Hf). lia. }
  pose proof Hw as [Hwf _]. cbn [txDoIterAndCopy].
  set (w0 := {| db := db w; ticks := S (ticks w); ids := ids w |}).
  set (ent := new_entry (EntryId_ p) (RefData_ s) (FileKind_ s) (clk (ticks w)) (FileSize_ s)
    (FileMode_ s) name).
  rewrite (bind_ok now _ w (clk (ticks w)) w0 eq_refl). cbv beta.
  destruct (txCreateEntry_ok (EntryId_ p) ent w0 (ps ++ [name]))
    as (w1 & n & E1 & Hw1 & HT1 & Hn & _ & Hfind1); try done.
  { right. exists ps, p. by split_and!. }
  { exact (wf_kind _ Hwf s (at_path_elem _ _ _ Hs)). }
  rewrite (bind_ok _ _ _ _ _ E1).
  destruct (recordChange_tree path CkCreated w1) as (w2 & E2 & Hid2 & HT2).
  rewrite (bind_ok _ _ _ _ _ E2).
  pose proof (wf_world_same _ _ Hw1 HT2 Hid2) as Hw2. pose proof Hw2 as [Hwf2 _].
  change (T w0) with (T w) in *. set (D := ps ++ [name]) in *.
  assert (forall ds, find (T w2) ds = if decide (ds = D) then Some n else find (T w) ds) as Hfind
    by (intros ds; rewrite HT2; apply Hfind1).
  assert (node_of n = node_of s) as Hnode by (by rewrite Hn).
  assert (forall x, find (T w2) (ss ++ x) = find (T w) (ss ++ x)) as Hsrc.
  { intros x. rewrite Hfind. rewrite decide_False; [done|]. intros E.
    apply (disjoint_below ss D [] x Hdis). rewrite app_nil_r, E. by exists []; rewrite app_nil_r. }
  assert (forall ds, ~ D `prefix_of` ds -> find (T w2) ds = find (T w) ds) as Hout.
  { intros ds Hds. rewrite Hfind. rewrite decide_False; [done|]. intros ->. by apply Hds. }
  assert (abs (T w2) D = abs (T w) ss) as HD.
  { unfold abs. rewrite Hfind, decide_True by done.
    apply find_spec in Hs; [|done]. rewrite Hs. simpl. by rewrite Hnode. }
  assert (forall c e, find (T w2) (D ++ c :: e) = None) as Hbelow.
  { intros c e. rewrite Hfind. rewrite decide_False.
    - by apply find_below_none.
    - intros E. apply (f_equal length) in E. rewrite length_app in E. simpl in E. lia. }
  destruct ((FileKind_ s =? defaultFileKindFile) || negb recursive) eqn:Ek.
  - exists w2. unfold copied. split_and!; try done. intros e.
    destruct e as [|c e].
    + rewrite !app_nil_r. rewrite decide_True by done. by destruct recursive.
    + rewrite decide_False by done. unfold abs at 1. rewrite Hbelow. simpl.
      destruct recursive; [|done]. rewrite orb_false_r in Ek. apply Z.eqb_eq in Ek.
      unfold abs. erewrite find_below_file; try done. unfold IsDir. by rewrite Ek.
  - apply orb_false_iff in Ek as [Ek Hrec]. apply negb_false_iff in Hrec as ->.
    assert (IsDir s = true) as Hsd.
    { destruct (wf_kind _ Hwf s (at_path_elem _ _ _ Hs)) as [E|E]; [by unfold IsDir; rewrite E|].
      by rewrite E in Ek. }
    assert (at_path (T w2) D n) as Hnat.
    { apply find_spec; [done|]. by rewrite Hfind, decide_True. }
    assert (at_path (T w2) ss s) as Hs2.
    { apply find_spec; [done|]. rewrite <- (app_nil_r ss), Hsrc, app_nil_r. by apply find_spec. }
    assert (EntryId_ n = idfn (ids w0)) as Hnid by (by rewrite Hn).
    rewrite <- Hnid, (bind_ok _ _ _ _ _ (txListAllDir_eq _ _)).
    destruct (copy_children fuel (fun s pid path name => IH s pid path name true) path (children (T w2) (EntryId_ s)) w2 ss D n)
      as (w3 & E3 & Hw3 & Hout3 & Hin3); try done.
    + rewrite Hn. unfold IsDir in *. done.
    + by eapply children_names.
    + intros c Hc. by eapply child_path.
    + intros x r Hr. apply find_spec in Hr; [|done]. rewrite Hsrc in Hr.
      apply find_spec in Hr; [|done]. by eapply Hf.
    + exists w3. unfold copied. split_and!; try done.
      * intros ds Hds. rewrite Hout3; [by apply Hout|]. intros c _ Hpre. apply Hds.
        etrans; [|exact Hpre]. by eexists.
      * intros [|c e].
        -- rewrite !app_nil_r. rewrite <- HD. unfold abs. rewrite Hout3; [done|].
           intros c _. apply prefix_child_self.
        -- destruct (decide (c ∈ FileName_ <$> children (T w2) (EntryId_ s))) as [Hc|Hc].
           ++ apply list_elem_of_fmap in Hc as (x & -> & Hx). rewrite Hin3 by done.
              unfold abs. by rewrite Hsrc.
           ++ unfold abs. rewrite Hout3, Hbelow.
              ** rewrite <- Hsrc. destruct (find (T w2) (ss ++ c :: e)) as [r|] eqn:E; [|done].
                 exfalso. apply find_spec in E; [|done].
                 apply (below_children _ _ s) in E as [[? _]|(x & y & _ & Hx & [= -> ->] & _)]; try done.
                 apply Hc. by apply list_elem_of_fmap_2.
              ** intros x Hx [y E]. rewrite <- app_assoc in E. apply app_inv_head in E as [= -> ->].
                 apply Hc. by apply list_elem_of_fmap_2.
Qed.
End Ops.
