(* ===== verification/DirTx.v ===== *)
(** * Directory: creation and the effect of the public operations

    Creation of missing directories along a path, then [Create], [Mkdir],
    [Remove], [Move] and [Copy] as functions on the abstract map. *)

From stdpp Require Import base strings list sets gmap.
From S2P Require Import Prelude GoStr Store Directory DirFrame Tree DirWalk DirOps.
Import Directory.

(** ** Paths of the parent *)
Lemma trim_slash_cases s : trim_slash s = s \/ s = trim_slash s +:+ "/".
Proof.
  induction s as [|a s IH]; [by left|]. cbn [trim_slash].
  destruct s as [|b s]; [destruct (Ascii.eqb_spec a slash) as [->|]; [by right|by left]|].
  destruct IH as [->|IH]; [by left|right].
  change (String a (trim_slash (String b s)) +:+ "/")
    with (String a (trim_slash (String b s) +:+ "/")). by rewrite <- IH.
Qed.

Lemma denotes_trim s cs : denotes s cs -> denotes (trim_slash s) cs.
Proof.
  intros [Hn Hf]. destruct (trim_slash_cases s) as [->|E]; [done|].
  rewrite E, split_on_snoc_slash in Hn, Hf. unfold denotes.
  rewrite List.filter_app in Hf. change (List.filter keep [""]) with (@nil string) in Hf.
  rewrite app_nil_r in Hf. set_solver.
Qed.

Lemma path_dir_denotes s cs c :
  denotes s (cs ++ [c]) ->
  exists d, path_dir (path_clean s) = d /\ denotes d cs /\
    (cs = [] -> d = "/" \/ d = ".").
Proof.
  intros H. pose proof (denotes_comps _ _ H) as Hc.
  assert (path_clean s = "/" +:+ join_slash (cs ++ [c]) \/ path_clean s = join_slash (cs ++ [c])) as Hf.
  { rewrite (denotes_clean _ _ H). case_match; [by left|]. right. by destruct cs. }
  eexists. split; [done|]. rewrite (path_dir_comps _ cs c Hc Hf).
  apply Forall_app in Hc as [Hcs _]. split.
  - case_match; [by apply denotes_join|]. destruct cs; [apply denotes_dot|by apply denotes_join_rel].
  - intros ->. case_match; [by left|by right].
Qed.

(** The parent's lookup cannot fail when the parent exists. *)
Lemma get_info_parent t s cs c p :
  wf_tree t -> denotes s (cs ++ [c]) -> at_path t cs p -> IsDir p = true ->
  exists r, get_info t (path_dir (path_clean s)) = Ok r.
Proof.
  intros Hwf (d & -> & Hd & Hroot)%path_dir_denotes Hp Hpd.
  destruct cs as [|x cs _] using rev_ind.
  - destruct Hroot as [-> | ->]; [done|by eexists|].
    destruct (walk t 0 ["/"]) as [q|] eqn:E.
    + change (get_info t ".") with
        (pid ← walk t 0 ["/"]; Ok (search_row pid "." t, pid)). rewrite E. by eexists.
    + assert (walk t 0 ("/" :: []) = Ok (EntryId_ p)) as Hw by (apply walk_ok; eauto).
      rewrite E in Hw. done.
  - destruct (get_info t d) as [r|e] eqn:E; [by eexists|].
    destruct (get_info_err _ Hwf _ _ _ _ Hd E) as [Hn _].
    rewrite find_none in Hn by done. by apply Hn in Hp.
Qed.

Section Tx.
Context `{!Env} `{!GoodIds}.

Lemma touchParent_ok s cs c p m w :
  wf_tree (T w) -> denotes s (cs ++ [c]) -> at_path (T w) cs p -> IsDir p = true ->
  exists w', touchParent s m w = (Ok tt, w') /\ ids w' = ids w /\ retouched (T w) (T w').
Proof.
  intros Hwf Hd Hp Hpd. destruct (touchParent_eq s m w) as (res & w' & E & Hid & Hre & _).
  exists w'. split_and!; try done. rewrite E. f_equal.
  destruct (get_info_parent _ _ _ _ _ Hwf Hd Hp Hpd) as [[o pid] Hg].
  unfold touchParent, attempt, mbind, M_bind in E. rewrite txGetEntryInfo_eq, Hg in E.
  cbn in E. by destruct o; injection E as <- _.
Qed.

(** ** Creating the directories of a path *)
Definition dir_node : Z * string * Z := (defaultFileKindDir, "", 0).

(** The place of the entry [item] of directory [pid]. *)
Definition slot (t : list row) (pid : Z) (item : string) (cs : list string) : Prop :=
  (pid = 0 /\ item = "/" /\ cs = []) \/
  (exists ds p, at_path t ds p /\ IsDir p = true /\ pid = EntryId_ p /\ cs = ds ++ [item]).

Lemma slot_search t pid item cs :
  wf_tree t -> slot t pid item cs -> search_row pid item t = find t cs.
Proof.
  intros Hwf [(-> & -> & ->)|(ds & p & Hp & Hd & -> & ->)].
  - unfold find. cbn. by case_match.
  - symmetry. destruct (search_row (EntryId_ p) item t) as [r|] eqn:E.
    + apply search_row_spec in E as (Hr & Hpr & <-); [|done]. apply find_spec; [done|].
      by econstructor.
    + apply find_none; [done|]. intros r (q & Hq & _ & Hr & Hpr & Hn)%at_path_snoc_inv.
      rewrite (at_path_func _ Hwf _ _ _ Hp Hq) in E.
      rewrite search_row_none in E by done. by eapply E.
Qed.

Lemma slot_new_path t pid item cs ent :
  slot t pid item cs -> FileName_ ent = item -> new_path t (entry_row 0 0 pid ent) cs.
Proof.
  intros [(-> & -> & ->)|(ds & p & Hp & Hd & -> & ->)] E; [left|right].
  - by split_and!.
  - exists ds, p. cbn. rewrite E. by split_and!.
Qed.

(** One insertion of an entry that was not there. *)
Lemma create_slot pid ent w cs :
  wf_world w -> slot (T w) pid (FileName_ ent) cs -> find (T w) cs = None ->
  FileKind_ ent = defaultFileKindDir \/ FileKind_ ent = defaultFileKindFile ->
  exists w' n, txCreateEntry pid ent w = (Ok (EntryId_ n), w') /\ wf_world w' /\
    n = entry_row (Id_ n) (EntryId_ n) pid ent /\
    forall ds, find (T w') ds = if decide (ds = cs) then Some n else find (T w) ds.
Proof.
  intros Hw Hslot Hfree Hkind.
  destruct (txCreateEntry_ok pid ent w cs) as (w' & n & E & Hw' & _ & Hn & _ & Hf); try done.
  { by eapply slot_new_path. }
  exists w', n. assert (EntryId_ n = idfn (ids w)) as -> by (by rewrite Hn). by split_and!.
Qed.

Definition ensured (t : list row) (cs x : list string) : option (Z * string * Z) :=
  if decide (x `prefix_of` cs) then Some (default dir_node (abs t x)) else abs t x.

Lemma component_create pid item cp cs w :
  wf_world w -> slot (T w) pid item cs ->
  exists ent w' r, txSelectDirComponent pid item cp true w = (Ok ent, w') /\ wf_world w' /\
    at_path (T w') cs r /\ EntryId_ r = EntryId_ ent /\ FileKind_ r = FileKind_ ent /\
    forall x, abs (T w') x =
      if decide (x = cs) then Some (default dir_node (abs (T w) x)) else abs (T w) x.
Proof.
  intros Hw Hslot. pose proof Hw as [Hwf _]. unfold txSelectDirComponent.
  rewrite (bind_ok (txSearchEntry pid item) _ w (search_row pid item (T w)) w eq_refl).
  rewrite (slot_search _ _ _ _ Hwf Hslot).
  destruct (find (T w) cs) as [r|] eqn:Ef.
  - exists r, w, r. split_and!; try done; [by apply find_spec|]. intros x.
    case_decide as Ex; [|done]. subst. unfold abs. by rewrite Ef.
  - cbn [negb]. unfold txCreateDir. set (w0 := {| db := db w; ticks := S (ticks w); ids := ids w |}).
    destruct (create_slot pid (new_entry pid "" defaultFileKindDir (clk (ticks w)) 0
      defaultEntryFileMode item) w0 cs) as (w1 & n & E1 & Hw1 & Hn & Hfind); try done.
    { by left. }
    rewrite (bind_ok _ _ w (EntryId_ n) w1); [|by rewrite (bind_ok now _ w (clk (ticks w)) w0)].
    destruct (recordChange_tree cp CkCreated w1) as (w2 & E2 & Hid2 & HT2).
    rewrite (bind_ok _ _ _ _ _ E2).
    pose proof (wf_world_same _ _ Hw1 HT2 Hid2) as Hw2.
    assert (exists w3, (if negb (pid =? 0) then t ← now; touchEntryID pid t else mret tt) w2
      = (Ok tt, w3) /\ ids w3 = ids w2 /\ retouched (T w2) (T w3)) as (w3 & E3 & Hid3 & Hre).
    { destruct (negb (pid =? 0)).
      - destruct (touchEntryID_eq pid (clk (ticks w2))
          {| db := db w2; ticks := S (ticks w2); ids := ids w2 |}) as (w3 & E3 & ? & ?).
        exists w3. by rewrite (bind_ok now _ w2 (clk (ticks w2))
          {| db := db w2; ticks := S (ticks w2); ids := ids w2 |}).
      - exists w2. split_and!; try done. apply retouched_refl. }
    rewrite (bind_ok _ _ _ _ _ E3).
    pose proof (wf_world_retouched _ _ Hw2 Hre Hid3) as Hw3. pose proof Hw3 as [Hwf3 _].
    destruct (retouched_find _ _ cs n Hre) as (r & Hr & Hrid & Hrk & Hrn).
    { by rewrite HT2, Hfind, decide_True. }
    eexists _, w3, r. split_and!; try done; [by apply find_spec|cbn; by rewrite Hrk, Hn|].
    intros x. rewrite (retouched_abs _ _ _ Hre), HT2. unfold abs at 1. rewrite Hfind.
    case_decide as Ex; [subst|done]. unfold abs. rewrite Ef. simpl. by rewrite Hn.
Qed.

Lemma ensured_step t t1 cs0 cs x :
  cs0 `prefix_of` cs ->
  (forall y, abs t1 y = if decide (y = cs0) then Some (default dir_node (abs t y)) else abs t y) ->
  ensured t1 cs x = ensured t cs x.
Proof.
  intros Hpre Habs. unfold ensured. rewrite Habs. repeat case_decide; subst; done.
Qed.

(** The walk with creation to [cs]: it ends in a directory at [cs], every missing
    directory on the way made, or it meets a file on the way. *)
Definition select_post (w : World) (cs : list string) (run : outcome Z * World) : Prop :=
  (exists w' r, run = (Ok (EntryId_ r), w') /\ wf_world w' /\ at_path (T w') cs r /\
     IsDir r = true /\ forall x, abs (T w') x = ensured (T w) cs x) \/
  (exists w' k r, run = (Err ErrPathComponentNotDirectory, w') /\
     k `prefix_of` cs /\ find (T w) k = Some r /\ IsDir r = false).

Lemma select_step seen i items pid cs w :
  wf_world w -> slot (T w) pid i cs ->
  (forall w1 r, wf_world w1 -> at_path (T w1) cs r -> IsDir r = true ->
     select_post w1 (cs ++ items) (select_loop (seen ++ [i]) items (EntryId_ r) true w1)) ->
  select_post w (cs ++ items) (select_loop seen (i :: items) pid true w).
Proof.
  intros Hw Hslot Hrest. cbn [select_loop].
  destruct (component_create pid i (path_join (seen ++ [i])) cs w)
    as (ent & w1 & r & E1 & Hw1 & Hr & Hid & Hk & Habs); [done..|].
  rewrite (bind_ok _ _ _ _ _ E1).
  destruct (FileKind_ ent =? defaultFileKindDir) eqn:Ek.
  - assert (IsDir r = true) as Hrd by (unfold IsDir; congruence).
    rewrite (bind_ok _ _ w1 tt w1 eq_refl). rewrite <- Hid.
    destruct (Hrest w1 r Hw1 Hr Hrd)
      as [(w' & q & E & Hw' & Hq & Hqd & Hen)|(w' & k & q & E & Hpre & Hq & Hqd)].
    + left. exists w', q. split_and!; try done. intros x. rewrite Hen.
      apply (ensured_step _ _ cs); [by eexists|done].
    + right. exists w', k. pose proof (Habs k) as Hk'. unfold abs in Hk'.
      rewrite Hq in Hk'. simpl in Hk'. unfold IsDir in *.
      destruct (find (T w) k) as [q0|] eqn:Eq0.
      * exists q0. split_and!; try done. simpl in Hk'.
        case_decide; simpl in Hk'; injection Hk' as Hk' _ _; by rewrite <- Hk'.
      * exfalso. case_decide; simpl in Hk'; [|done]. injection Hk' as Hk' _ _.
        by rewrite Hk' in Hqd.
  - right. eexists _, cs. pose proof Hw1 as [Hwf1 _]. apply find_spec in Hr; [|done].
    pose proof (Habs cs) as Hk'. unfold abs in Hk'. rewrite Hr, decide_True in Hk' by done.
    destruct (find (T w) cs) as [q0|] eqn:Eq0; simpl in Hk'; injection Hk' as Hk' _ _.
    + exists q0. split_and!; [by rewrite (bind_err (check (negb false) ErrPathComponentNotDirectory)
        _ w1 ErrPathComponentNotDirectory w1 eq_refl)|by eexists|done|].
      unfold IsDir. rewrite <- Hk', Hk. done.
    + rewrite <- Hk, Hk' in Ek. done.
Qed.

Lemma select_create_from seen items ds p w :
  wf_world w -> at_path (T w) ds p -> IsDir p = true ->
  select_post w (ds ++ items) (select_loop seen items (EntryId_ p) true w).
Proof.
  revert seen ds p w. induction items as [|i items IH]; intros seen ds p w Hw Hp Hd.
  - left. exists w, p. rewrite app_nil_r. split_and!; try done. intros x. unfold ensured.
    case_decide as Hx; [|done]. destruct Hx as [e ->].
    pose proof Hw as [Hwf _]. destruct (at_path_app _ Hwf _ _ _ Hp) as (q & Hq & _).
    apply find_spec in Hq; [|done]. unfold abs. by rewrite Hq.
  - replace (ds ++ i :: items) with ((ds ++ [i]) ++ items) by (by rewrite <- app_assoc).
    apply select_step; [done|right; by exists ds, p|]. intros w1 r Hw1 Hr Hrd. by apply IH.
Qed.

Lemma select_create cs w :
  wf_world w -> select_post w cs (select_loop [] ("/" :: cs) 0 true w).
Proof.
  intros Hw. apply (select_step [] "/" cs 0 []); [done|by left|].
  intros w1 r Hw1 Hr Hrd. by apply (select_create_from ["/"] cs []).
Qed.

(** [txOnSelectDir] with creation, for a callback. *)
Lemma onSelectDir_create {A} dir cs (cb : Z -> M World A) w :
  wf_world w -> denotes dir cs ->
  (exists w1 p, txOnSelectDir dir true cb w = cb (EntryId_ p) w1 /\ wf_world w1 /\
     at_path (T w1) cs p /\ IsDir p = true /\
     forall x, abs (T w1) x = ensured (T w) cs x) \/
  (exists w' k r, txOnSelectDir dir true cb w = (Err ErrPathComponentNotDirectory, w') /\
     k `prefix_of` cs /\ find (T w) k = Some r /\ IsDir r = false).
Proof.
  intros Hw Hd. unfold txOnSelectDir. rewrite (rebuildDirItems_denotes _ _ Hd).
  rewrite (bind_ok _ _ w ("/" :: cs) w eq_refl).
  destruct (select_create cs w Hw) as [(w1 & p & E & Hw1 & Hp & Hpd & Hen)|(w' & k & r & E & Hrest)].
  - left. exists w1, p. split_and!; try done. by rewrite (bind_ok _ _ _ _ _ E).
  - right. exists w', k, r. split_and!; try by apply Hrest. by rewrite (bind_err _ _ _ _ _ E).
Qed.

(** ** Creating files and directories *)

(** A file on the way makes a path unusable. *)
Definition blocked (t : list row) (cs : list string) : Prop :=
  exists k r, k `prefix_of` cs /\ find t k = Some r /\ IsDir r = false.

Definition file_node (ref : string) (size : Z) : Z * string * Z := (defaultFileKindFile, ref, size).

Lemma ensured_below t cs c : ensured t cs (cs ++ [c]) = abs t (cs ++ [c]).
Proof. unfold ensured. rewrite decide_False; [done|]. apply prefix_child_self. Qed.

Lemma abs_none t cs : abs t cs = None <-> find t cs = None.
Proof. unfold abs. by rewrite fmap_None. Qed.

(** The callback of [Create]: a new file below [p]. *)
Lemma create_file_below p cs name ref size w :
  wf_world w -> at_path (T w) cs p -> IsDir p = true ->
  let run := (exists_ ← txIsEntryExist (EntryId_ p) name;
      if (exists_ : bool) then fail ErrExist
      else
        t ← now;
        let entry := new_entry (EntryId_ p) ref defaultFileKindFile t size
                       defaultEntryFileMode name in
        entryID ← txCreateFile (EntryId_ p) entry;
        mret {| Id_ := 0; EntryId_ := entryID; ParentEntryId_ := EntryId_ p;
                RefData_ := ref; FileKind_ := defaultFileKindFile; Ctime_ := t;
                Mtime_ := t; FileSize_ := size; FileMode_ := defaultEntryFileMode;
                FileName_ := name |}) w in
  (exists w', run = (Err ErrExist, w') /\ abs (T w) (cs ++ [name]) <> None) \/
  (exists ent w' r, run = (Ok ent, w') /\ wf_world w' /\ abs (T w) (cs ++ [name]) = None /\
     find (T w') (cs ++ [name]) = Some r /\
     (EntryId_ ent = EntryId_ r /\ node_of ent = file_node ref size) /\
     at_path (T w') cs p /\
     forall x, abs (T w') x =
       if decide (x = cs ++ [name]) then Some (file_node ref size) else abs (T w) x).
Proof.
  intros Hw Hp Hd run. pose proof Hw as [Hwf _].
  assert (slot (T w) (EntryId_ p) name (cs ++ [name])) as Hslot by (right; by exists cs, p).
  subst run. rewrite (bind_ok (txIsEntryExist (EntryId_ p) name) _ w
    (bool_decide (is_Some (search_row (EntryId_ p) name (T w)))) w eq_refl).
  rewrite (slot_search _ _ _ _ Hwf Hslot).
  destruct (find (T w) (cs ++ [name])) as [r|] eqn:Ef.
  { left. rewrite bool_decide_eq_true_2 by done. eexists. split; [done|]. unfold abs. by rewrite Ef. }
  right. rewrite bool_decide_eq_false_2 by (by intros [? ?]).
  set (w0 := {| db := db w; ticks := S (ticks w); ids := ids w |}).
  rewrite (bind_ok now _ w (clk (ticks w)) w0 eq_refl). cbv zeta beta.
  destruct (create_slot (EntryId_ p) (new_entry (EntryId_ p) ref defaultFileKindFile
    (clk (ticks w)) size defaultEntryFileMode name) w0 (cs ++ [name]))
    as (w' & n & E & Hw' & Hn & Hfind); try done. { by right. }
  unfold txCreateFile. rewrite (bind_ok _ _ _ _ _ E).
  change (T w0) with (T w) in Hfind. pose proof Hw' as [Hwf' _].
  eexists _, w', n. split_and!; try done.
  - by apply abs_none.
  - by rewrite Hfind, decide_True.
  - apply find_spec; [done|]. rewrite Hfind. rewrite decide_False; [by apply find_spec|].
    intros E'. apply (f_equal length) in E'. rewrite length_app in E'. simpl in E'. lia.
  - intros x. unfold abs. rewrite Hfind. case_decide; [|done]. simpl. by rewrite Hn.
Qed.

(** [Create] inside a transaction, for a path whose directory part denotes [cs]. *)
Lemma Create_run filename size ref dir name cs w :
  wf_world w -> splitFilename (trim_slash filename) = (dir, name, false) -> denotes dir cs ->
  let run := Tx.Create filename size ref w in
  (blocked (T w) cs /\ run.1 = Err ErrPathComponentNotDirectory) \/
  (abs (T w) (cs ++ [name]) <> None /\ run.1 = Err ErrExist) \/
  (abs (T w) (cs ++ [name]) = None /\
   (run.1 = Err ErrInvalidPath \/ run.1 = Err ErrPathComponentNotDirectory \/
    exists ent, run.1 = Ok ent) /\
   (denotes (trim_slash filename) (cs ++ [name]) -> exists ent, run.1 = Ok ent) /\
   wf_world run.2 /\
   (forall x, abs (T run.2) x =
     if decide (x = cs ++ [name]) then Some (file_node ref size) else ensured (T w) cs x) /\
   forall ent, run.1 = Ok ent -> node_of ent = file_node ref size /\
     exists r, find (T run.2) (cs ++ [name]) = Some r /\ EntryId_ r = EntryId_ ent).
Proof.
  intros Hw Hsplit Hdir. unfold Tx.Create. cbv zeta. rewrite Hsplit.
  set (cb := fun parentID : Z => _).
  destruct (onSelectDir_create dir cs cb w Hw Hdir)
    as [(w1 & p & E & Hw1 & Hp & Hpd & Hen)|(w' & k & r & E & Hk)].
  2: { left. split; [by exists k, r|]. by rewrite (bind_err _ _ _ _ _ E). }
  right. rewrite <- (ensured_below (T w)), <- Hen.
  destruct (create_file_below p cs name ref size w1 Hw1 Hp Hpd)
    as [(w' & Ecb & Hex)|(ent & w2 & r & Ecb & Hw2 & Hnone & Hr & [Hid Hnode] & Hp2 & Habs)].
  { left. split; [done|]. change (cb (EntryId_ p) w1 = (Err ErrExist, w')) in Ecb.
    rewrite Ecb in E. by rewrite (bind_err _ _ _ _ _ E). }
  right. split; [done|]. change (cb (EntryId_ p) w1 = (Ok ent, w2)) in Ecb.
  rewrite Ecb in E. rewrite (bind_ok _ _ _ _ _ E).
  destruct (recordChange_tree (trim_slash filename) CkCreated w2) as (w3 & E3 & Hid3 & HT3).
  rewrite (bind_ok _ _ _ _ _ E3).
  set (w4 := {| db := db w3; ticks := S (ticks w3); ids := ids w3 |}).
  rewrite (bind_ok now _ w3 (clk (ticks w3)) w4 eq_refl).
  assert (wf_world w4) as Hw4 by (by apply (wf_world_same w2)). pose proof Hw4 as [Hwf4 _].
  destruct (touchParent_eq (trim_slash filename) (clk (ticks w3)) w4)
    as (res & w5 & E5 & Hid5 & Hre & Herr).
  assert (forall x, abs (T w5) x =
     if decide (x = cs ++ [name]) then Some (file_node ref size) else ensured (T w) cs x) as Hfin.
  { intros x. rewrite (retouched_abs _ _ _ Hre). change (T w4) with (T w3).
    rewrite HT3, Habs. case_decide; [done|]. apply Hen. }
  pose proof (wf_world_retouched _ _ Hw4 Hre Hid5) as Hw5.
  destruct res as [[]|e].
  - rewrite (bind_ok _ _ _ _ _ E5). split_and!; try done; eauto. intros ent' [= <-]. split; [done|].
    assert (find (T w4) (cs ++ [name]) = Some r) as Hr4 by (change (T w4) with (T w3); by rewrite HT3).
    destruct (retouched_find _ _ _ _ Hre Hr4) as (r' & Hr' & E' & _). exists r'. split; [done|congruence].
  - rewrite (bind_err _ _ _ _ _ E5). split_and!; try done.
    + destruct (Herr e eq_refl) as [-> | ->]; auto.
    + intros Hden. exfalso.
      destruct (touchParent_ok (trim_slash filename) cs name p (clk (ticks w3)) w4)
        as (w' & E' & _); try done; [|congruence].
      change (T w4) with (T w3). by rewrite HT3.
Qed.

(** ** Rollback *)
Lemma wf_world_rollback w w' :
  wf_world w -> (ids w <= ids w')%nat ->
  wf_world {| db := db w; ticks := ticks w'; ids := ids w' |}.
Proof. intros [Hwf Hfr] Hid. split; [done|]. intros r n Hr Hn. apply Hfr; [done|simpl in Hn; lia]. Qed.

Lemma tx_preserves {A} (m : M World A) :
  (forall k, preserves (fun w => (k <= ids w)%nat) m) ->
  (forall w a w', wf_world w -> m w = (Ok a, w') -> wf_world w') ->
  preserves wf_world (OnTransation m).
Proof.
  intros Hids Hok. apply OnTransation_preserves; [by eauto|].
  intros w e w' Hw E. apply wf_world_rollback; [done|].
  specialize (Hids (ids w) w (le_n _)). by rewrite E in Hids.
Qed.

(** ** Removing *)
Definition without (t : list row) (cs x : list string) : option (Z * string * Z) :=
  if decide (cs `prefix_of` x) then None else abs t x.

Lemma cut_abs t t' cs x : wf_tree t -> cut t t' cs -> abs t' x = without t cs x.
Proof.
  intros Hwf [Hsub Hmem]. unfold abs, without. rewrite (find_remove t t' cs Hwf Hsub Hmem).
  by case_decide.
Qed.

Lemma Remove_run s w :
  wf_world w ->
  let run := Tx.Remove s w in
  match get_info (T w) s with
  | Err e => run = (Err e, w)
  | Ok (None, _) => run = (Ok [], w)
  | Ok (Some e, _) =>
      exists cs L w', at_path (T w) cs e /\ subtree_list (T w) cs L /\ wf_world w' /\
        (forall x, abs (T w') x = without (T w) cs x) /\
        (run = (Ok L, w') \/ run = (Err ErrInvalidPath, w') \/
         run = (Err ErrPathComponentNotDirectory, w')) /\
        (forall ds d, denotes s (ds ++ [d]) -> run = (Ok L, w'))
  end.
Proof.
  intros Hw run. pose proof Hw as [Hwf _]. subst run. unfold Tx.Remove.
  destruct (get_info (T w) s) as [[[e|] pid]|err] eqn:E.
  - rewrite (bind_ok _ _ w (Some e, pid) w) by (by rewrite txGetEntryInfo_eq, E). cbn [fst].
    pose proof (get_info_elem _ Hwf _ _ _ E) as He. destruct (wf_path _ Hwf e He) as [cs Hcs].
    rewrite (bind_ok tree_fuel _ w (S (length (T w))) w eq_refl).
    destruct (collectAndRemove_ok (S (length (T w))) (path_clean s) e [] w cs)
      as (w1 & L & E1 & Hid1 & Hcut & HL & _); [done..|by apply enough_top|].
    rewrite (bind_ok _ _ _ _ _ E1). cbn [app].
    set (w2 := {| db := db w1; ticks := S (ticks w1); ids := ids w1 |}).
    rewrite (bind_ok now _ w1 (clk (ticks w1)) w2 eq_refl).
    pose proof (wf_world_cut _ _ _ Hw Hcut Hid1) as Hw1.
    destruct (touchParent_eq s (clk (ticks w1)) w2) as (res & w3 & E3 & Hid3 & Hre & Herr).
    assert (wf_world w3) as Hw3 by (by apply (wf_world_retouched w2)).
    exists cs, L, w3. split_and!; try done.
    + intros x. rewrite (retouched_abs _ _ _ Hre). by apply cut_abs.
    + destruct res as [[]|er]; [left; by rewrite (bind_ok _ _ _ _ _ E3)|right].
      rewrite (bind_err _ _ _ _ _ E3). destruct (Herr er eq_refl) as [-> | ->]; auto.
    + intros ds d Hden. destruct (get_info_ok _ Hwf _ _ _ _ _ Hden E) as [Hf (p & Hp & Hpd & _)].
      symmetry in Hf. apply find_spec in Hf; [|done].
      assert (cs = ds ++ [d]) as -> by (by eapply at_path_inj).
      destruct (touchParent_ok s ds d p (clk (ticks w1)) w2) as (w' & E' & _); try done.
      { apply Hw1. }
      { apply (remove_at_path _ _ _ Hwf (proj2 Hcut)). split; [done|]. apply prefix_child_self. }
      rewrite E3 in E'. injection E' as -> ->. by rewrite (bind_ok _ _ _ _ _ E3).
  - by rewrite (bind_ok _ _ w (None, pid) w) by (by rewrite txGetEntryInfo_eq, E).
  - by rewrite (bind_err _ _ w err w) by (by rewrite txGetEntryInfo_eq, E).
Qed.

(** ** Moving *)
Lemma isArrayHasSuffix_prefix a b : isArrayHasSuffix a b = true <-> b `prefix_of` a.
Proof.
  revert a. induction b as [|y b IH]; intros a.
  - split; [intros _; apply prefix_nil|by destruct a].
  - destruct a as [|x a]; [split; [done|by intros ?%prefix_nil_not]|].
    simpl. rewrite andb_true_iff, String.eqb_eq, IH. split.
    + intros [-> ?]. by apply prefix_cons.
    + intros Hp. split; [by apply prefix_cons_inv_1 in Hp|by apply prefix_cons_inv_2 in Hp].
Qed.

Lemma precheck_spec src dst ss ds :
  denotes src ss -> denotes dst ds ->
  precheckMoveCopy src dst =
    if decide (ss = ds) then Ok false
    else if decide (disjoint_paths ss ds) then Ok true else Err ErrDestinationInsideSource.
Proof.
  intros Hs Hd. unfold precheckMoveCopy.
  rewrite (rebuildDirItems_denotes _ _ Hs), (rebuildDirItems_denotes _ _ Hd). cbn [mbind outcome_bind].
  assert (forall a b, isArrayHasSuffix ("/" :: a) ("/" :: b) = bool_decide (b `prefix_of` a)) as Hpre.
  { intros a b. apply eq_bool_prop_intro. rewrite !Is_true_true, isArrayHasSuffix_prefix, bool_decide_eq_true.
    split; [apply prefix_cons_inv_2|apply prefix_cons]. }
  rewrite !Hpre. unfold isArrayEqual. destruct (decide (ss = ds)) as [->|Hne].
  { by rewrite bool_decide_eq_true_2. }
  rewrite bool_decide_eq_false_2 by congruence. unfold disjoint_paths.
  repeat case_bool_decide; case_decide; naive_solver.
Qed.

Lemma precheck_ok src dst b :
  precheckMoveCopy src dst = Ok b ->
  exists ss ds, denotes src ss /\ denotes dst ds /\
    ((b = false /\ ss = ds) \/ (b = true /\ disjoint_paths ss ds)).
Proof.
  intros Hb. destruct (rebuildDirItems src) as [s|] eqn:Es.
  2: { unfold precheckMoveCopy in Hb. by rewrite Es in Hb. }
  destruct (rebuildDirItems dst) as [d|] eqn:Ed.
  2: { unfold precheckMoveCopy in Hb. by rewrite Es, Ed in Hb. }
  apply rebuildDirItems_ok in Es as (ss & _ & Hs), Ed as (ds & _ & Hd).
  rewrite (precheck_spec _ _ _ _ Hs Hd) in Hb. exists ss, ds. split_and!; try done.
  repeat case_decide; naive_solver.
Qed.

Lemma disjoint_snoc ss ds :
  disjoint_paths ss ds -> exists s0 sn d0 dn, ss = s0 ++ [sn] /\ ds = d0 ++ [dn].
Proof.
  intros [Hs Hd]%not_root_prefix. destruct ss as [|sn s0 _] using rev_ind; [done|].
  destruct ds as [|dn d0 _] using rev_ind; [done|]. by exists s0, sn, d0, dn.
Qed.

Lemma overwritten_run dst d0 dn w :
  wf_tree (T w) -> denotes dst (d0 ++ [dn]) ->
  (exists L, overwritten_entries dst w = (Ok L, w) /\ subtree_list (T w) (d0 ++ [dn]) L) \/
  (overwritten_entries dst w = (Err ErrPathComponentNotDirectory, w) /\
   forall p, at_path (T w) d0 p -> IsDir p = false).
Proof.
  intros Hwf Hd. unfold overwritten_entries.
  rewrite (bind_ok (attempt (txGetEntryInfo dst)) _ w (get_info (T w) dst) w)
    by (unfold attempt; by rewrite txGetEntryInfo_eq).
  assert (find (T w) (d0 ++ [dn]) = None -> subtree_list (T w) (d0 ++ [dn]) []) as Hempty.
  { intros Hn r. split; [by intros ?%elem_of_nil|]. intros [e He].
    pose proof (find_below_none _ _ e Hwf Hn) as Hb. rewrite find_none in Hb by done.
    by apply Hb in He. }
  destruct (get_info (T w) dst) as [[[e|] pid]|er] eqn:E.
  - destruct (get_info_ok _ Hwf _ _ _ _ _ Hd E) as [Hf _]. symmetry in Hf.
    apply find_spec in Hf; [|done].
    rewrite (bind_ok tree_fuel _ w (S (length (T w))) w eq_refl).
    destruct (collectEntries_ok (S (length (T w))) e [] w (d0 ++ [dn])) as (L & EL & HL);
      [done..|by apply enough_top|]. left. by exists L.
  - destruct (get_info_ok _ Hwf _ _ _ _ _ Hd E) as [Hf _]. left. exists []. auto.
  - destruct (get_info_err _ Hwf _ _ _ _ Hd E) as (Hf & [-> | ->] & Hno).
    + left. exists []. rewrite decide_True by done. auto.
    + right. by rewrite decide_False.
Qed.

Lemma txChangeParent_ok w ss s ps p name :
  wf_world w -> at_path (T w) ss s -> at_path (T w) ps p -> IsDir p = true ->
  ~ ss `prefix_of` ps ++ [name] -> find (T w) (ps ++ [name]) = None ->
  exists w', txChangeParent (EntryId_ s) (EntryId_ p) (Some name) w = (Ok tt, w') /\
    T w' = map (moved s p name) (T w) /\ ids w' = ids w /\ wf_world w'.
Proof.
  intros Hw Hs Hp Hd Hout Hfree. pose proof Hw as [Hwf Hfr]. unfold txChangeParent.
  rewrite (bind_ok (query t_mapping) _ w (T w) w eq_refl).
  assert (reparent_conflict (EntryId_ s) (EntryId_ p) (Some name) (T w) = false) as ->.
  { unfold reparent_conflict. apply sql_exists_false. intros m Hm.
    destruct (EntryId_ m =? EntryId_ s); [|done]. cbn [andb]. apply sql_exists_false.
    intros r Hr. apply not_true_iff_false.
    intros [[_ Hpr%Z.eqb_eq]%andb_true_iff Hn%bool_decide_eq_true]%andb_true_iff. simpl in Hn.
    apply (proj1 (find_none _ _ Hwf) Hfree r). rewrite <- Hn. by econstructor. }
  rewrite (bind_ok _ _ w tt w eq_refl).
  eexists. erewrite bind_ok by reflexivity.
  assert ((sql_count (fun r : row => EntryId_ r =? EntryId_ s) (T w) =? 0) = false) as ->.
  { apply Z.eqb_neq. intros Hz. rewrite sql_count_zero in Hz.
    specialize (Hz s (at_path_elem _ _ _ Hs)). by rewrite Z.eqb_refl in Hz. }
  split; [done|]. split; [done|]. split; [done|]. split; cbn.
  - by apply (wf_reparent _ ss s ps p).
  - intros r n (r0 & -> & Hr0)%list_elem_of_fmap Hn. cbn in Hn.
    destruct (moved_id s p name r0) as [E _]. unfold moved in E. rewrite E. by apply Hfr.
Qed.

(** The map after a move of [ss] to [ds]. *)
Definition moved_abs (t : list row) (ss ds x : list string) : option (Z * string * Z) :=
  if decide (ds `prefix_of` x) then abs t (ss ++ drop (length ds) x)
  else if decide (ss `prefix_of` x) then None else abs t x.

(** With the ids of the entries. *)
Definition tag (r : row) : Z * (Z * string * Z) := (EntryId_ r, node_of r).
Definition tagged (t : list row) (x : list string) : option (Z * (Z * string * Z)) := tag <$> find t x.
Definition moved_tagged (t : list row) (ss ds x : list string) : option (Z * (Z * string * Z)) :=
  if decide (ds `prefix_of` x) then tagged t (ss ++ drop (length ds) x)
  else if decide (ss `prefix_of` x) then None else tagged t x.

Lemma abs_tagged t x : abs t x = snd <$> tagged t x.
Proof. unfold abs, tagged. by destruct (find t x). Qed.
Lemma moved_abs_tagged t ss ds x : moved_abs t ss ds x = snd <$> moved_tagged t ss ds x.
Proof. unfold moved_abs, moved_tagged. repeat case_decide; [apply abs_tagged|done|apply abs_tagged]. Qed.
Lemma retouched_tagged t t' x : retouched t t' -> tagged t' x = tagged t x.
Proof.
  intros (g & Hg & Hn & ->). unfold tagged. rewrite find_map by done. destruct (find t x) as [r|]; [|done].
  cbn. unfold tag. rewrite Hn. f_equal. by rewrite (proj1 (Hg r)).
Qed.

Lemma moved_tag s p name r : tag (moved s p name r) = tag r.
Proof. unfold tag. rewrite (proj1 (moved_id s p name r)). unfold moved. by case_match. Qed.

Lemma reparent_tagged t ss s ps p name x :
  wf_tree t -> at_path t ss s -> at_path t ps p -> IsDir p = true ->
  ~ ss `prefix_of` ps ++ [name] -> find t (ps ++ [name]) = None ->
  tagged (map (moved s p name) t) x = moved_tagged t ss (ps ++ [name]) x.
Proof.
  intros Hwf Hs Hp Hd Hout Hfree. unfold moved_tagged, tagged. case_decide as Hx.
  - destruct Hx as [e ->]. rewrite (find_reparent_in t ss s ps p name) by done.
    rewrite drop_app_length. destruct (find t (ss ++ e)); cbn; [by rewrite moved_tag|done].
  - rewrite (find_reparent_out t ss s ps p name) by done. by case_decide.
Qed.

(** Moving over a removed destination is moving in the original tree. *)
Lemma moved_without t t1 ss ds x :
  disjoint_paths ss ds -> wf_tree t -> cut t t1 ds -> moved_tagged t1 ss ds x = moved_tagged t ss ds x.
Proof.
  intros Hdis Hwf [Hsub Hmem]. unfold moved_tagged, tagged. rewrite !(find_remove t t1 ds Hwf Hsub Hmem).
  case_decide as Hx.
  - rewrite decide_False; [done|]. rewrite <- (app_nil_r ds) at 1. by apply disjoint_below.
  - done.
Qed.

Definition can_move (t : list row) (ss d0 : list string) (dn : string) (overwrite : bool) : Prop :=
  find t ss <> None /\ (exists p, at_path t d0 p /\ IsDir p = true) /\
  (find t (d0 ++ [dn]) = None \/ overwrite = true).

Lemma txDoMove_run src dst ow s0 sn d0 dn w :
  wf_world w -> denotes src (s0 ++ [sn]) -> denotes dst (d0 ++ [dn]) ->
  disjoint_paths (s0 ++ [sn]) (d0 ++ [dn]) ->
  (exists w', txDoMove src dst ow w = (Ok tt, w') /\ wf_world w' /\
     can_move (T w) (s0 ++ [sn]) d0 dn ow /\
     forall x, tagged (T w') x = moved_tagged (T w) (s0 ++ [sn]) (d0 ++ [dn]) x) \/
  (exists e w', txDoMove src dst ow w = (Err e, w') /\ e <> Diverge /\
     ~ can_move (T w) (s0 ++ [sn]) d0 dn ow).
Proof.
  intros Hw Hsrc Hdst Hdis. pose proof Hw as [Hwf _]. unfold txDoMove.
  set (ss := s0 ++ [sn]) in *. set (ds := d0 ++ [dn]) in *.
  rewrite (precheck_spec _ _ _ _ Hsrc Hdst), decide_False, decide_True;
    [|done|intros E; apply (proj1 Hdis); by rewrite E].
  rewrite (bind_ok _ _ w true w eq_refl). cbn [negb].
  destruct (get_info (T w) src) as [[[s|] spid]|er] eqn:Es.
  2: { right. eexists _, w. rewrite (bind_ok _ _ w (None, spid) w) by (by rewrite txGetEntryInfo_eq, Es).
       split; [done|]. split; [done|]. intros (Hne & _). apply Hne.
       by destruct (get_info_ok _ Hwf _ _ _ _ _ Hsrc Es). }
  2: { right. exists er, w. rewrite (bind_err _ _ w er w) by (by rewrite txGetEntryInfo_eq, Es).
       destruct (get_info_err _ Hwf _ _ _ _ Hsrc Es) as (Hf & Her & _). split; [done|].
       split; [naive_solver|]. by intros (Hne & _). }
  rewrite (bind_ok _ _ w (Some s, spid) w) by (by rewrite txGetEntryInfo_eq, Es). cbn [fst].
  destruct (get_info_ok _ Hwf _ _ _ _ _ Hsrc Es) as [Hfs _]. symmetry in Hfs. fold ss in Hfs.
  pose proof Hfs as Hs. apply find_spec in Hs; [|done].
  destruct (splitFilename_denotes _ _ _ Hdst) as (dir & Hsplit & _).
  destruct (get_info (T w) dst) as [[o pid]|er] eqn:Ed.
  2: { right. exists er, w. rewrite (bind_err _ _ w er w) by (by rewrite txGetEntryInfo_eq, Ed).
       destruct (get_info_err _ Hwf _ _ _ _ Hdst Ed) as (Hf & Her & Hno). split; [done|].
       split; [naive_solver|]. intros (_ & (p & Hp & Hpd) & _). rewrite Hno in Hpd; done. }
  rewrite (bind_ok _ _ w (o, pid) w) by (by rewrite txGetEntryInfo_eq, Ed). rewrite Hsplit. cbn [fst snd].
  destruct (get_info_ok _ Hwf _ _ _ _ _ Hdst Ed) as [Hfd (p & Hp & Hpd & ->)]. fold ds in Hfd.
  destruct o as [d|].
  - symmetry in Hfd. pose proof Hfd as Hd. apply find_spec in Hd; [|done]. destruct ow; cbn [negb].
    2: { right. eexists _, w. split; [done|]. split; [done|]. intros (_ & _ & [Hn|?]); [|done].
         change (d0 ++ [dn]) with ds in Hn. congruence. }
    rewrite (bind_ok tree_fuel _ w (S (length (T w))) w eq_refl).
    destruct (collectAndRemove_ok (S (length (T w))) (path_clean dst) d [] w ds)
      as (w1 & L & E1 & Hid1 & Hcut & _); [done..|by apply enough_top|].
    rewrite (bind_ok _ _ _ _ _ E1). pose proof (wf_world_cut _ _ _ Hw Hcut Hid1) as Hw1.
    pose proof Hw1 as [Hwf1 _].
    assert (at_path (T w1) ss s) as Hs1.
    { apply (remove_at_path _ _ _ Hwf (proj2 Hcut)). split; [done|]. apply Hdis. }
    assert (at_path (T w1) d0 p) as Hp1.
    { apply (remove_at_path _ _ _ Hwf (proj2 Hcut)). split; [done|]. apply prefix_child_self. }
    assert (find (T w1) ds = None) as Hfree.
    { rewrite (find_remove _ _ _ Hwf (proj1 Hcut) (proj2 Hcut)). by rewrite decide_True. }
    destruct (txChangeParent_ok w1 ss s d0 p dn) as (w2 & E2 & HT2 & _ & Hw2); try done.
    { apply Hdis. }
    left. exists w2. split_and!; try done.
    + split_and!; [by rewrite Hfs|by exists p|by right].
    + intros x. rewrite HT2, (reparent_tagged _ ss s d0 p dn) by (try done; apply Hdis).
      by apply moved_without.
  - symmetry in Hfd. destruct (txChangeParent_ok w ss s d0 p dn) as (w2 & E2 & HT2 & _ & Hw2); try done.
    { apply Hdis. }
    left. exists w2. split_and!; try done.
    + split_and!; [by rewrite Hfs|by exists p|by left].
    + intros x. rewrite HT2. apply (reparent_tagged _ ss s d0 p dn); try done. apply Hdis.
Qed.
End Tx.
