(* ===== verification/DirTransfer.v ===== *)
(** * Directory: moves and copies inside a transaction

    [Move] and [CopyDepth] as functions on the abstract map, with what they
    return to their callers: the entries they overwrote and the pairs they
    copied. *)

From stdpp Require Import base strings list sets gmap.
From S2P Require Import Prelude GoStr Store Directory DirFrame Tree DirWalk DirOps DirTx.
Import Directory.

Lemma abs_dir t x ref size :
  wf_tree t -> abs t x = Some (defaultFileKindDir, ref, size) ->
  exists p, at_path t x p /\ IsDir p = true.
Proof.
  unfold abs. intros Hwf Ha. destruct (find t x) as [p|] eqn:E; [|done].
  apply find_spec in E; [|done]. exists p. split; [done|]. simpl in Ha. injection Ha as Hk _ _.
  unfold IsDir. by rewrite Hk.
Qed.

Lemma abs_of_dir t x p : wf_tree t -> at_path t x p -> IsDir p = true ->
  abs t x = Some (defaultFileKindDir, RefData_ p, FileSize_ p).
Proof.
  intros Hwf Hp Hd. apply find_spec in Hp; [|done]. unfold abs. rewrite Hp. simpl.
  unfold node_of. unfold IsDir in Hd. apply Z.eqb_eq in Hd. by rewrite Hd.
Qed.

(** A directory whose node is unchanged is still a directory. *)
Lemma abs_dir_keep t t' x p :
  wf_tree t -> wf_tree t' -> at_path t x p -> IsDir p = true -> abs t' x = abs t x ->
  exists p', at_path t' x p' /\ IsDir p' = true.
Proof.
  intros Hwf Hwf' Hp Hd E. rewrite (abs_of_dir t x p Hwf Hp Hd) in E. by eapply abs_dir.
Qed.

Section Transfer.
Context `{!Env} `{!GoodIds}.

Lemma moved_abs_out t ss ds x :
  ~ ds `prefix_of` x -> ~ ss `prefix_of` x -> moved_abs t ss ds x = abs t x.
Proof. intros H1 H2. unfold moved_abs. by rewrite !decide_False. Qed.

Lemma disjoint_parent ss d0 dn : disjoint_paths ss (d0 ++ [dn]) -> ~ ss `prefix_of` d0.
Proof. intros [Hs _] [e ->]. apply Hs. rewrite <- app_assoc. by eexists. Qed.

Lemma Move_tx_run src dst ow s0 sn d0 dn w :
  wf_world w -> denotes src (s0 ++ [sn]) -> denotes dst (d0 ++ [dn]) ->
  disjoint_paths (s0 ++ [sn]) (d0 ++ [dn]) ->
  (exists L w', Move_tx src dst ow w = (Ok L, w') /\ wf_world w' /\
     can_move (T w) (s0 ++ [sn]) d0 dn ow /\ subtree_list (T w) (d0 ++ [dn]) L /\
     forall x, tagged (T w') x = moved_tagged (T w) (s0 ++ [sn]) (d0 ++ [dn]) x) \/
  (exists e w', Move_tx src dst ow w = (Err e, w') /\ e <> Diverge /\
     ~ can_move (T w) (s0 ++ [sn]) d0 dn ow).
Proof.
  intros Hw Hsrc Hdst Hdis. pose proof Hw as [Hwf _]. unfold Move_tx.
  rewrite (precheck_spec _ _ _ _ Hsrc Hdst), decide_False, decide_True;
    [|done|intros E; apply (proj1 Hdis); by rewrite E].
  rewrite (bind_ok _ _ w true w eq_refl). cbn [negb].
  destruct (overwritten_run dst d0 dn w Hwf Hdst) as [(L & EL & HL)|[EL Hno]].
  2: { right. eexists _, w. rewrite (bind_err _ _ _ _ _ EL). split_and!; [done|done|].
       intros (_ & (p & Hp & Hpd) & _). rewrite Hno in Hpd; done. }
  rewrite (bind_ok _ _ _ _ _ EL).
  destruct (recordTreeChanges_eq src CkDeleted w Hwf) as (res & w1 & E1 & Hid1 & HT1 & Hdv & Hgood).
  destruct res as [[]|e].
  2: { right. exists e, w1. rewrite (bind_err _ _ _ _ _ E1). split_and!; [done|congruence|].
       intros (Hne & _). destruct (find (T w) (s0 ++ [sn])) as [s|] eqn:Es; [|done].
       apply find_spec in Es; [|done].
       by specialize (Hgood s0 sn Hsrc (ex_intro _ s Es)). }
  rewrite (bind_ok _ _ _ _ _ E1).
  assert (wf_world w1) as Hw1 by (by apply (wf_world_same w)).
  destruct (txDoMove_run src dst ow s0 sn d0 dn w1 Hw1 Hsrc Hdst Hdis)
    as [(w2 & E2 & Hw2 & Hcan & Htag)|(e & w2 & E2 & Hdv2 & Hcan)]; rewrite HT1 in *.
  2: { right. exists e, w2. by rewrite (bind_err _ _ _ _ _ E2). }
  rewrite (bind_ok _ _ _ _ _ E2). pose proof Hw2 as [Hwf2 _].
  assert (forall x, abs (T w2) x = moved_abs (T w) (s0 ++ [sn]) (d0 ++ [dn]) x) as Habs
    by (intros x; by rewrite abs_tagged, Htag, moved_abs_tagged).
  destruct Hcan as (Hne & (p & Hp & Hpd) & Hov).
  destruct (find (T w) (s0 ++ [sn])) as [s|] eqn:Es; [|done].
  destruct (recordTreeChanges_eq dst CkCreated w2 Hwf2) as (res & w3 & E3 & Hid3 & HT3 & _ & Hgood3).
  assert (res = Ok tt) as ->.
  { apply (Hgood3 d0 dn Hdst). specialize (Habs (d0 ++ [dn])). unfold moved_abs in Habs.
    rewrite decide_True, drop_all, app_nil_r in Habs by done. unfold abs in Habs.
    rewrite Es in Habs. destruct (find (T w2) (d0 ++ [dn])) as [r|] eqn:Er; [|done].
    exists r. by apply find_spec. }
  rewrite (bind_ok _ _ _ _ _ E3).
  set (w4 := {| db := db w3; ticks := S (ticks w3); ids := ids w3 |}).
  rewrite (bind_ok now _ w3 (clk (ticks w3)) w4 eq_refl).
  assert (wf_world w4) as Hw4 by (by apply (wf_world_same w2)). pose proof Hw4 as [Hwf4 _].
  assert (forall x, abs (T w4) x = moved_abs (T w) (s0 ++ [sn]) (d0 ++ [dn]) x) as Habs4
    by (intros x; change (T w4) with (T w3); by rewrite HT3).
  pose proof Es as Hs. apply find_spec in Hs; [|done].
  apply at_path_snoc_inv in Hs as (q & Hq & Hqd & _).
  destruct (abs_dir_keep (T w) (T w4) s0 q) as (q4 & Hq4 & Hqd4); try done.
  { rewrite Habs4. apply moved_abs_out; [|apply prefix_child_self].
    apply (disjoint_parent _ s0 sn). by split; apply Hdis. }
  destruct (abs_dir_keep (T w) (T w4) d0 p) as (p4 & Hp4 & Hpd4); try done.
  { rewrite Habs4. apply moved_abs_out; [apply prefix_child_self|]. by eapply disjoint_parent. }
  destruct (touchParent_ok src s0 sn q4 (clk (ticks w3)) w4) as (w5 & E5 & Hid5 & Hre5); try done.
  rewrite (bind_ok _ _ _ _ _ E5). pose proof (wf_world_retouched _ _ Hw4 Hre5 Hid5) as Hw5.
  pose proof Hw5 as [Hwf5 _].
  destruct (abs_dir_keep (T w4) (T w5) d0 p4) as (p5 & Hp5 & Hpd5); try done.
  { by apply retouched_abs. }
  destruct (touchParent_ok dst d0 dn p5 (clk (ticks w3)) w5) as (w6 & E6 & Hid6 & Hre6); try done.
  rewrite (bind_ok _ _ _ _ _ E6). left. exists L, w6. split_and!; try done.
  - by apply (wf_world_retouched w5).
  - split_and!; [by rewrite Es|by exists p|done].
  - intros x. rewrite (retouched_tagged _ _ _ Hre6), (retouched_tagged _ _ _ Hre5). change (T w4) with (T w3). by rewrite HT3.
Qed.

(** ** Copying *)
Definition copied_abs (t : list row) (ss ds : list string) (recursive : bool) (x : list string)
    : option (Z * string * Z) :=
  if decide (ds `prefix_of` x) then
    (if recursive then abs t (ss ++ drop (length ds) x)
     else if decide (x = ds) then abs t ss else None)
  else abs t x.

Lemma copied_copied_abs t t' ss ds recursive x :
  copied t t' ss ds recursive -> abs t' x = copied_abs t ss ds recursive x.
Proof.
  intros [Hout Hin]. unfold copied_abs. case_decide as Hx.
  - destruct Hx as [e ->]. rewrite Hin, drop_app_length. destruct recursive; [done|].
    destruct (decide (e = [])) as [->|He]; [by rewrite decide_True by apply app_nil_r|].
    rewrite decide_False; [done|]. intros E. apply He.
    by rewrite <- (app_nil_r ds) in E at 2; apply app_inv_head in E.
  - unfold abs. by rewrite Hout.
Qed.

Lemma copied_without t t1 ss ds recursive x :
  disjoint_paths ss ds -> (forall y, abs t1 y = without t ds y) ->
  copied_abs t1 ss ds recursive x = copied_abs t ss ds recursive x.
Proof.
  intros Hdis Hw. unfold copied_abs. rewrite !Hw. unfold without.
  assert (forall y, ~ ds `prefix_of` ss ++ y) as Hn.
  { intros y. rewrite <- (app_nil_r ds). by apply disjoint_below. }
  assert (~ ds `prefix_of` ss) as Hn0 by apply Hdis.
  case_decide as Hx; [|done].
  rewrite (decide_False (P := ds `prefix_of` ss ++ _)) by apply Hn.
  by rewrite (decide_False (P := ds `prefix_of` ss)).
Qed.

Lemma copied_abs_out t ss ds recursive x :
  ~ ds `prefix_of` x -> copied_abs t ss ds recursive x = abs t x.
Proof. intros Hx. unfold copied_abs. by rewrite decide_False. Qed.

Lemma txDoCopyDepth_run src dst ow recursive s0 sn d0 dn w :
  wf_world w -> denotes src (s0 ++ [sn]) -> denotes dst (d0 ++ [dn]) ->
  disjoint_paths (s0 ++ [sn]) (d0 ++ [dn]) ->
  (exists w', txDoCopyDepth src dst ow recursive w = (Ok tt, w') /\ wf_world w' /\
     can_move (T w) (s0 ++ [sn]) d0 dn ow /\
     forall x, abs (T w') x = copied_abs (T w) (s0 ++ [sn]) (d0 ++ [dn]) recursive x) \/
  (exists e w', txDoCopyDepth src dst ow recursive w = (Err e, w') /\ e <> Diverge /\
     ~ can_move (T w) (s0 ++ [sn]) d0 dn ow).
Proof.
  intros Hw Hsrc Hdst Hdis. pose proof Hw as [Hwf _]. unfold txDoCopyDepth.
  set (ss := s0 ++ [sn]) in *. set (ds := d0 ++ [dn]) in *.
  rewrite (precheck_spec _ _ _ _ Hsrc Hdst), decide_False, decide_True;
    [|done|intros E; apply (proj1 Hdis); by rewrite E].
  rewrite (bind_ok _ _ w true w eq_refl). cbn [negb].
  destruct (get_info (T w) src) as [[[s|] spid]|er] eqn:Es.
  2: { right. eexists _, w. rewrite (bind_ok _ _ w (None, spid) w) by (by rewrite txGetEntryInfo_eq, Es).
       split; [done|]. split; [done|]. intros (Hne & _). apply Hne.
       by destruct (get_info_ok _ Hwf _ _ _ _ _ Hsrc Es). }
  2: { right. exists er, w. rewrite (bind_err _ _ w er w) by (by rewrite txGetEntryInfo_eq, Es).
       destruct (get_info_err _ Hwf _ _ _ _ Hsrc Es) as (Hf & Her & _). split; [done|].
       split; [naive_solver|]. by intros (Hne & _). }
  rewrite (bind_ok _ _ w (Some s, spid) w) by (by rewrite txGetEntryInfo_eq, Es). cbn [fst].
  destruct (get_info_ok _ Hwf _ _ _ _ _ Hsrc Es) as [Hfs _]. symmetry in Hfs. fold ss in Hfs.
  pose proof Hfs as Hs. apply find_spec in Hs; [|done].
  destruct (splitFilename_denotes _ _ _ Hdst) as (dir & Hsplit & _). rewrite Hsplit.
  destruct (get_info (T w) dst) as [[o pid]|er] eqn:Ed.
  2: { right. exists er, w. rewrite (bind_err _ _ w er w) by (by rewrite txGetEntryInfo_eq, Ed).
       destruct (get_info_err _ Hwf _ _ _ _ Hdst Ed) as (Hf & Her & Hno). split; [done|].
       split; [naive_solver|]. intros (_ & (p & Hp & Hpd) & _). rewrite Hno in Hpd; done. }
  rewrite (bind_ok _ _ w (o, pid) w) by (by rewrite txGetEntryInfo_eq, Ed). cbn [fst snd].
  destruct (get_info_ok _ Hwf _ _ _ _ _ Hdst Ed) as [Hfd (p & Hp & Hpd & ->)]. fold ds in Hfd.
  symmetry in Hfd.
  assert (
    (exists w1, match o with
      | None => mret tt
      | Some dinfo => if negb ow then fail ErrDestinationExists
        else fuel ← tree_fuel; _ ← Tx.collectAndRemove fuel (path_clean dst) dinfo []; mret tt
      end w = (Ok tt, w1) /\ wf_world w1 /\ find (T w1) ds = None /\
      (forall y, ~ ds `prefix_of` y -> find (T w1) y = find (T w) y) /\
      (forall y, abs (T w1) y = without (T w) ds y) /\ (find (T w) ds = None \/ ow = true)) \/
    (match o with
      | None => mret tt
      | Some dinfo => if negb ow then fail ErrDestinationExists
        else fuel ← tree_fuel; _ ← Tx.collectAndRemove fuel (path_clean dst) dinfo []; mret tt
      end w = (Err ErrDestinationExists, w) /\ find (T w) ds <> None /\ ow = false)) as Hstep.
  { destruct o as [d|].
    - pose proof Hfd as Hd. apply find_spec in Hd; [|done]. destruct ow; cbn [negb].
      2: { right. by rewrite Hfd. }
      left. rewrite (bind_ok tree_fuel _ w (S (length (T w))) w eq_refl).
      destruct (collectAndRemove_ok (S (length (T w))) (path_clean dst) d [] w ds)
        as (w1 & L & E1 & Hid1 & Hcut & _); [done..|by apply enough_top|].
      rewrite (bind_ok _ _ _ _ _ E1). exists w1.
      pose proof (find_remove _ _ _ Hwf (proj1 Hcut) (proj2 Hcut)) as Hfr.
      split_and!; [done|by eapply wf_world_cut| | | |by right].
      + rewrite Hfr. by rewrite decide_True.
      + intros y Hy. rewrite Hfr. by rewrite decide_False.
      + intros y. by apply cut_abs.
    - left. exists w. split_and!; try done; [|by left]. intros y. unfold without.
      case_decide as Hy; [|done]. destruct Hy as [e ->]. unfold abs.
      by rewrite (find_below_none _ _ e Hwf Hfd). }
  destruct Hstep as [(w1 & E1 & Hw1 & Hfree & Hkeep & Hwo & Hov)|(E1 & Hne & ->)].
  2: { right. eexists _, w. rewrite (bind_err _ _ _ _ _ E1). split_and!; [done|done|].
       by intros (_ & _ & [?|?]). }
  rewrite (bind_ok _ _ _ _ _ E1). pose proof Hw1 as [Hwf1 _].
  assert (at_path (T w1) ss s) as Hs1.
  { apply find_spec; [done|]. rewrite Hkeep; [done|]. apply Hdis. }
  assert (at_path (T w1) d0 p) as Hp1.
  { apply find_spec; [done|]. rewrite Hkeep; [by apply find_spec|]. apply prefix_child_self. }
  rewrite (bind_ok tree_fuel _ w1 (S (length (T w1))) w1 eq_refl).
  destruct (txDoIterAndCopy_ok (S (length (T w1))) s (EntryId_ p) (path_clean dst) dn recursive
    w1 ss d0 p) as (w2 & E2 & Hw2 & Hcop); try done. { by apply enough_top. }
  rewrite (bind_ok _ _ _ _ _ E2). pose proof Hw2 as [Hwf2 _].
  assert (forall x, abs (T w2) x = copied_abs (T w) ss ds recursive x) as Habs.
  { intros x. rewrite (copied_copied_abs _ _ _ _ _ _ Hcop). by apply copied_without. }
  set (w3 := {| db := db w2; ticks := S (ticks w2); ids := ids w2 |}).
  rewrite (bind_ok now _ w2 (clk (ticks w2)) w3 eq_refl).
  destruct (abs_dir_keep (T w) (T w3) d0 p) as (p3 & Hp3 & Hpd3); try done.
  { change (T w3) with (T w2). rewrite Habs. apply copied_abs_out, prefix_child_self. }
  destruct (touchParent_ok dst d0 dn p3 (clk (ticks w2)) w3) as (w4 & E4 & Hid4 & Hre4); try done.
  left. exists w4. rewrite E4. split_and!; try done.
  - by apply (wf_world_retouched w3).
  - split_and!; [by rewrite Hfs|by exists p|done].
  - intros x. by rewrite (retouched_abs _ _ _ Hre4).
Qed.

(** The pairs of a copy: each source row below [ss] with the row at the same
    relative path below [ds]. *)
Definition copy_pairs (t : list row) (ss ds : list string) (P : list EntryCopy) : Prop :=
  (forall q, q ∈ P -> exists e, at_path t (ss ++ e) (Source q) /\ at_path t (ds ++ e) (Destination q)).

Definition covers (t : list row) (ss : list string) (P : list EntryCopy) : Prop :=
  forall e r, at_path t (ss ++ e) r -> exists q, q ∈ P /\ Source q = r.

Lemma collectCopyPairs_ok fuel s d recursive pairs w ss ds :
  wf_tree (T w) -> at_path (T w) ss s -> at_path (T w) ds d ->
  (recursive = true -> forall e, abs (T w) (ds ++ e) = abs (T w) (ss ++ e)) ->
  enough (T w) ss fuel ->
  exists P, Tx.collectCopyPairs fuel s d recursive pairs w = (Ok (pairs ++ P), w) /\
    copy_pairs (T w) ss ds P /\ (recursive = true -> covers (T w) ss P).
Proof.
  intros Hwf. revert s d recursive pairs ss ds.
  induction fuel as [|fuel IH]; intros s d recursive pairs ss ds Hs Hd Hsame Hf.
  { pose proof (enough_pos _ _ _ _ Hs Hf). lia. }
  cbn [Tx.collectCopyPairs]. set (q0 := {| Source := s; Destination := d |}).
  assert (copy_pairs (T w) ss ds [q0]) as Hq0.
  { intros q ->%list_elem_of_singleton. exists []. by rewrite !app_nil_r. }
  destruct ((FileKind_ s =? defaultFileKindFile) || negb recursive) eqn:Ek.
  - exists [q0]. split_and!; try done. intros -> e r Hr.
    apply (below_children _ _ s) in Hr as [[-> ->]|(c & x & Hsd & _)]; try done.
    + exists q0. split; [by left|done].
    + rewrite orb_false_r in Ek. apply Z.eqb_eq in Ek. unfold IsDir in Hsd. by rewrite Ek in Hsd.
  - apply orb_false_iff in Ek as [Ek Hrec]. apply negb_false_iff in Hrec as ->.
    assert (IsDir s = true) as Hsd.
    { destruct (wf_kind _ Hwf s (at_path_elem _ _ _ Hs)) as [E|E]; [by unfold IsDir; rewrite E|].
      by rewrite E in Ek. }
    assert (IsDir d = true) as Hdd.
    { specialize (Hsame eq_refl []). rewrite !app_nil_r in Hsame.
      rewrite (abs_of_dir (T w) ss s Hwf Hs Hsd) in Hsame. apply abs_dir in Hsame as (d' & Hd' & ?); [|done].
      by rewrite (at_path_func _ Hwf _ _ _ Hd Hd'). }
    rewrite (bind_ok _ _ _ _ _ (txListAllDir_eq _ _)).
    assert (forall l acc, (forall c, c ∈ l -> c ∈ children (T w) (EntryId_ s)) ->
      exists P, fold_each (fun pairs sourceChild =>
          destinationChild ← txSearchEntry (EntryId_ d) (FileName_ sourceChild);
          match destinationChild with
          | None => fail ErrOther
          | Some destinationChild =>
              Tx.collectCopyPairs fuel sourceChild destinationChild true pairs
          end) acc l w = (Ok (acc ++ P), w) /\ copy_pairs (T w) ss ds P /\
        forall c x r, c ∈ l -> at_path (T w) ((ss ++ [FileName_ c]) ++ x) r ->
          exists q, q ∈ P /\ Source q = r) as Hloop.
    { induction l as [|c l IHl]; intros acc Hl; cbn [fold_each].
      { exists []. rewrite app_nil_r. split_and!; try done.
        - by intros q ?%elem_of_nil.
        - by intros c x r ?%elem_of_nil. }
      assert (at_path (T w) (ss ++ [FileName_ c]) c) as Hc.
      { eapply child_path; [done..|]. apply Hl. by left. }
      assert (slot (T w) (EntryId_ d) (FileName_ c) (ds ++ [FileName_ c])) as Hslot
        by (right; by exists ds, d).
      specialize (Hsame eq_refl). pose proof (Hsame [FileName_ c]) as Hsc. unfold abs in Hsc.
      pose proof Hc as Hcf. apply find_spec in Hcf; [|done]. rewrite Hcf in Hsc.
      destruct (find (T w) (ds ++ [FileName_ c])) as [dc|] eqn:Edc; [|done].
      pose proof Edc as Hdc. apply find_spec in Hdc; [|done].
      destruct (IH c dc true acc (ss ++ [FileName_ c]) (ds ++ [FileName_ c]))
        as (P1 & E1 & HP1 & HC1); try done.
      { intros _ e. rewrite <- !app_assoc. apply Hsame. }
      { by apply enough_child. }
      destruct (IHl (acc ++ P1)) as (P2 & E2 & HP2 & HC2); [intros x ?; apply Hl; by right|].
      exists (P1 ++ P2). split_and!.
      - unfold mbind at 1, M_bind at 1. rewrite (bind_ok _ _ w (Some dc) w).
        2: { unfold txSearchEntry, query, reads. by rewrite (slot_search _ _ _ _ Hwf Hslot), Edc. }
        rewrite E1. rewrite app_assoc. exact E2.
      - intros q [Hq|Hq]%elem_of_app; [|by apply HP2].
        destruct (HP1 q Hq) as (e & He1 & He2). exists (FileName_ c :: e).
        by rewrite <- !app_assoc in *.
      - intros x y r [->|Hx]%elem_of_cons Hr.
        + destruct (HC1 eq_refl y r Hr) as (q & Hq & <-). exists q. split; [|done].
          apply elem_of_app. by left.
        + destruct (HC2 x y r Hx Hr) as (q & Hq & <-). exists q. split; [|done].
          apply elem_of_app. by right. }
    destruct (Hloop (children (T w) (EntryId_ s)) (pairs ++ [q0])) as (P & E & HP & HC); [done|].
    exists (q0 :: P). split_and!.
    + rewrite <- app_assoc in E. exact E.
    + intros q [->|Hq]%elem_of_cons; [apply Hq0; by left|by apply HP].
    + intros _ e r Hr. apply (below_children _ _ s) in Hr as [[-> ->]|(c & x & _ & Hc & -> & Hr)]; try done.
      * exists q0. split; [by left|done].
      * destruct (HC c x r Hc Hr) as (q & Hq & <-). exists q. split; [by right|done].
Qed.

Lemma CopyDepth_run src dst ow recursive s0 sn d0 dn w :
  wf_world w -> denotes src (s0 ++ [sn]) -> denotes dst (d0 ++ [dn]) ->
  disjoint_paths (s0 ++ [sn]) (d0 ++ [dn]) ->
  (exists P L w', CopyDepth src dst ow recursive w = (Ok (P, L), w') /\ wf_world w' /\
     can_move (T w) (s0 ++ [sn]) d0 dn ow /\ subtree_list (T w) (d0 ++ [dn]) L /\
     copy_pairs (T w') (s0 ++ [sn]) (d0 ++ [dn]) P /\
     (recursive = true -> covers (T w') (s0 ++ [sn]) P) /\
     forall x, abs (T w') x = copied_abs (T w) (s0 ++ [sn]) (d0 ++ [dn]) recursive x) \/
  (exists e w', CopyDepth src dst ow recursive w = (Err e, w') /\ e <> Diverge /\
     ~ can_move (T w) (s0 ++ [sn]) d0 dn ow).
Proof.
  intros Hw Hsrc Hdst Hdis. pose proof Hw as [Hwf _]. unfold CopyDepth.
  rewrite (precheck_spec _ _ _ _ Hsrc Hdst), decide_False, decide_True;
    [|done|intros E; apply (proj1 Hdis); by rewrite E].
  rewrite (bind_ok _ _ w true w eq_refl). cbn [negb].
  destruct (overwritten_run dst d0 dn w Hwf Hdst) as [(L & EL & HL)|[EL Hno]].
  2: { right. eexists _, w. rewrite (bind_err _ _ _ _ _ EL). split_and!; [done|done|].
       intros (_ & (p & Hp & Hpd) & _). rewrite Hno in Hpd; done. }
  rewrite (bind_ok _ _ _ _ _ EL).
  destruct (txDoCopyDepth_run src dst ow recursive s0 sn d0 dn w Hw Hsrc Hdst Hdis)
    as [(w1 & E1 & Hw1 & Hcan & Habs)|(e & w1 & E1 & Hdv & Hcan)].
  2: { right. exists e, w1. by rewrite (bind_err _ _ _ _ _ E1). }
  rewrite (bind_ok _ _ _ _ _ E1). pose proof Hw1 as [Hwf1 _]. left.
  set (ss := s0 ++ [sn]) in *. set (ds := d0 ++ [dn]) in *.
  assert (forall e, abs (T w1) (ss ++ e) = abs (T w) (ss ++ e)) as Hsrc1.
  { intros e. rewrite Habs. apply copied_abs_out. rewrite <- (app_nil_r ds). by apply disjoint_below. }
  assert (abs (T w1) ds = abs (T w) ss) as Hds1.
  { rewrite Habs. unfold copied_abs. rewrite decide_True, drop_all, app_nil_r by done.
    destruct recursive; [done|]. by rewrite decide_True. }
  destruct Hcan as (Hne & Hpar & Hov). destruct (find (T w) ss) as [s|] eqn:Es; [|done].
  assert (exists s1, find (T w1) ss = Some s1) as [s1 Hs1].
  { specialize (Hsrc1 []). rewrite !app_nil_r in Hsrc1. unfold abs in Hsrc1. rewrite Es in Hsrc1.
    destruct (find (T w1) ss); [by eexists|done]. }
  assert (exists d1, find (T w1) ds = Some d1) as [d1 Hd1].
  { unfold abs in Hds1. rewrite Es in Hds1. destruct (find (T w1) ds); [by eexists|done]. }
  assert (forall s cs c r, denotes s (cs ++ [c]) -> find (T w1) (cs ++ [c]) = Some r ->
    exists pid, txGetEntryInfo s w1 = (Ok (Some r, pid), w1)) as Hget.
  { intros s' cs c r Hden Hfr. rewrite txGetEntryInfo_eq.
    destruct (get_info (T w1) s') as [[o pid]|er] eqn:Eg.
    - destruct (get_info_ok _ Hwf1 _ _ _ _ _ Hden Eg) as [-> _]. rewrite Hfr. by exists pid.
    - destruct (get_info_err _ Hwf1 _ _ _ _ Hden Eg) as [Hn _]. congruence. }
  destruct (Hget src s0 sn s1 Hsrc Hs1) as [ps Eps]. rewrite (bind_ok _ _ _ _ _ Eps). cbn [fst].
  destruct (Hget dst d0 dn d1 Hdst Hd1) as [pd Epd]. rewrite (bind_ok _ _ _ _ _ Epd). cbn [fst].
  rewrite (bind_ok tree_fuel _ w1 (S (length (T w1))) w1 eq_refl).
  apply find_spec in Hs1, Hd1; [|done..].
  destruct (collectCopyPairs_ok (S (length (T w1))) s1 d1 recursive [] w1 ss ds)
    as (P & EP & HP & HC); try done.
  { intros -> e. rewrite Hsrc1, Habs. unfold copied_abs.
    rewrite decide_True by (by exists e). by rewrite drop_app_length. }
  { by apply enough_top. }
  rewrite (bind_ok _ _ _ _ _ EP). exists P, L, w1. split_and!; try done.
  split_and!; [by rewrite Es|done|done].
Qed.
End Transfer.
