(* ===== verification/DirTheorems.v ===== *)
(** * Directory: the theorems

    The public operations of src/directory/ refine a map from paths to nodes, keep
    the table a tree, and end. *)

From stdpp Require Import base strings list sets gmap.
From S2P Require Import Prelude GoStr Store Directory DirFrame Tree DirWalk DirOps DirTx.
From S2P Require Import DirTransfer.
Import Directory.

Section Theorems.
Context `{!Env} `{!GoodIds}.

(** ** The remaining operations *)

Lemma splitFilename_cases s :
  (exists name dir, splitFilename s = (dir, name, true)) \/
  (exists dir name, splitFilename s = (dir, name, false) /\
     ((exists cs, denotes dir cs) \/ rebuildDirItems dir = Err ErrInvalidPath)).
Proof.
  destruct (splitFilename s) as [[dir name] [|]]; [left; eauto|right].
  exists dir, name. split; [done|]. unfold rebuildDirItems, denotes. rewrite rebuild_loop_spec.
  destruct (decide _); [by right|left; eauto].
Qed.

Lemma find_ensured_prefix t x cs : find t cs <> None -> wf_tree t -> ensured t cs x = abs t x.
Proof.
  intros Hne Hwf. unfold ensured. case_decide as Hx; [|done]. destruct Hx as [e ->].
  unfold abs. destruct (find t x) eqn:E; [done|]. by rewrite (find_below_none _ _ e Hwf E) in Hne.
Qed.

Lemma ensured_snoc t cs name x :
  ensured t (cs ++ [name]) x =
  if decide (x = cs ++ [name]) then Some (default dir_node (abs t x)) else ensured t cs x.
Proof.
  unfold ensured. destruct (decide (x = cs ++ [name])) as [->|Hne].
  - by rewrite decide_True.
  - destruct (decide (x `prefix_of` cs ++ [name])) as [Hp|Hp],
      (decide (x `prefix_of` cs)) as [Hq|Hq]; try done.
    + by apply prefix_snoc_inv in Hp as [?|?].
    + exfalso. apply Hp. etrans; [exact Hq|]. by eexists.
Qed.

(** [Mkdir] for a path whose directory part denotes [cs]. *)
Lemma Mkdir_run s dir name cs w :
  wf_world w -> splitFilename s = (dir, name, false) -> denotes dir cs ->
  (blocked (T w) cs /\ exists w', Mkdir s w = (Err ErrPathComponentNotDirectory, w') /\ db w' = db w) \/
  (exists w', Mkdir s w = (Ok tt, w') /\ wf_world w' /\
     forall x, abs (T w') x = ensured (T w) (cs ++ [name]) x).
Proof.
  intros Hw Hsplit Hdir. unfold Mkdir. rewrite Hsplit. unfold onSelectDir.
  set (cb := fun parentid : Z => _).
  destruct (onSelectDir_create dir cs cb w Hw Hdir)
    as [(w1 & p & E & Hw1 & Hp & Hpd & Hen)|(w' & k & r & E & Hk)].
  2: { left. split; [by exists k, r|]. eexists. unfold OnTransation. by rewrite E. }
  right. pose proof Hw1 as [Hwf1 _].
  assert (slot (T w1) (EntryId_ p) name (cs ++ [name])) as Hslot by (right; by exists cs, p).
  cut (exists w', cb (EntryId_ p) w1 = (Ok tt, w') /\ wf_world w' /\
     forall x, abs (T w') x = ensured (T w) (cs ++ [name]) x).
  { intros (w' & Ecb & Hrest). exists w'. split; [|done]. apply OnTransation_ok. by rewrite E. }
  subst cb. cbv beta. rewrite (bind_ok (txIsEntryExist (EntryId_ p) name) _ w1
    (bool_decide (is_Some (search_row (EntryId_ p) name (T w1)))) w1 eq_refl).
  rewrite (slot_search _ _ _ _ Hwf1 Hslot).
  destruct (find (T w1) (cs ++ [name])) as [r|] eqn:Ef.
  - rewrite bool_decide_eq_true_2 by done. exists w1. split_and!; try done.
    intros x. rewrite ensured_snoc. case_decide as Hx; [|apply Hen]. subst.
    pose proof (Hen (cs ++ [name])) as Hx. rewrite ensured_below in Hx. rewrite <- Hx.
    unfold abs. by rewrite Ef.
  - rewrite bool_decide_eq_false_2 by (by intros [? ?]).
    set (w2 := {| db := db w1; ticks := S (ticks w1); ids := ids w1 |}). unfold txCreateDir.
    destruct (create_slot (EntryId_ p) (new_entry (EntryId_ p) "" defaultFileKindDir
      (clk (ticks w1)) 0 defaultEntryFileMode name) w2 (cs ++ [name]))
      as (w3 & n & E3 & Hw3 & Hn & Hfind); try done. { by left. }
    rewrite (bind_ok _ _ w1 (EntryId_ n) w3)
      by (by rewrite (bind_ok now _ w1 (clk (ticks w1)) w2 eq_refl)).
    destruct (recordChange_tree s CkCreated w3) as (w4 & E4 & Hid4 & HT4).
    rewrite (bind_ok _ _ _ _ _ E4).
    set (w5 := {| db := db w4; ticks := S (ticks w4); ids := ids w4 |}).
    rewrite (bind_ok now _ w4 (clk (ticks w4)) w5 eq_refl).
    destruct (touchEntryID_eq (EntryId_ p) (clk (ticks w4)) w5) as (w6 & E6 & Hid6 & Hre).
    exists w6. split_and!; [done| |].
    + apply (wf_world_retouched w5); [by apply (wf_world_same w3)|done..].
    + intros x. rewrite (retouched_abs _ _ _ Hre). change (T w5) with (T w4). rewrite HT4.
      rewrite ensured_snoc. unfold abs at 1. rewrite Hfind. case_decide as Hx; [|apply Hen].
      subst. pose proof (Hen (cs ++ [name])) as Hx. rewrite ensured_below in Hx.
      rewrite <- Hx. unfold abs. rewrite Ef. simpl. by rewrite Hn.
Qed.

Lemma Mkdir_root_run s dir name w :
  wf_world w -> splitFilename s = (dir, name, true) ->
  exists w', Mkdir s w = (Ok tt, w') /\ wf_world w' /\
    forall x, abs (T w') x = ensured (T w) [] x.
Proof.
  intros Hw Hsplit. pose proof Hw as [Hwf _]. unfold Mkdir. rewrite Hsplit.
  assert (slot (T w) 0 "/" []) as Hslot by (by left).
  assert (exists r w', txCreateRoot w = (Ok r, w') /\ wf_world w' /\
    forall x, abs (T w') x = ensured (T w) [] x) as (r & w' & E & Hrest).
  2: { exists w'. by rewrite (bind_ok _ _ _ _ _ E). }
  unfold txCreateRoot, txGetRoot.
  rewrite (bind_ok (txSearchEntry 0 "/") _ w (search_row 0 "/" (T w)) w eq_refl).
  rewrite (slot_search _ _ _ _ Hwf Hslot). destruct (find (T w) []) as [r|] eqn:Ef.
  - exists r, w. split_and!; try done. intros x. rewrite find_ensured_prefix; [done| |done].
    by rewrite Ef.
  - set (w1 := {| db := db w; ticks := S (ticks w); ids := ids w |}).
    rewrite (bind_ok now _ w (clk (ticks w)) w1 eq_refl).
    destruct (create_slot 0 (new_entry 0 "" defaultFileKindDir (clk (ticks w)) 0
      defaultEntryFileMode "/") w1 []) as (w2 & n & E2 & Hw2 & Hn & Hfind); try done. { by left. }
    rewrite (bind_ok _ _ _ _ _ E2). pose proof Hw2 as [Hwf2 _].
    rewrite (bind_ok (txSearchEntry 0 "/") _ w2 (search_row 0 "/" (T w2)) w2 eq_refl).
    rewrite (slot_search (T w2) 0 "/" []) by (done || by left).
    rewrite Hfind, decide_True by done. exists n, w2. split_and!; try done.
    intros x. unfold abs at 1. rewrite Hfind. unfold ensured.
    case_decide as Hx.
    + subst. rewrite decide_True by done. unfold abs. rewrite Ef. simpl. by rewrite Hn.
    + rewrite decide_False; [done|]. by intros ?%prefix_nil_inv.
Qed.

(** An UPDATE of columns that do not place a row. *)
Lemma wf_world_update w w' q f :
  wf_world w -> keeps_place f -> T w' = sql_update q f (T w) -> ids w' = ids w -> wf_world w'.
Proof.
  intros [Hwf Hfr] Hf HT Hid. pose proof (keeps_place_if q f Hf) as Hk. split.
  - rewrite HT. by apply (wf_map _ Hk).
  - intros r n Hr Hn. rewrite HT in Hr. apply sql_update_elem in Hr as (r0 & Hr0 & ->).
    rewrite Hid in Hn. destruct (Hk r0) as [-> _]. by apply Hfr.
Qed.

Lemma Replace_run s size ref mtime w :
  wf_world w ->
  let run := Tx.Replace s size ref mtime w in
  match get_info (T w) s with
  | Ok (Some e, _) =>
      if FileKind_ e =? defaultFileKindFile then
        exists w' cs, at_path (T w) cs e /\ wf_world w' /\
          (forall x, abs (T w') x =
             if decide (x = cs) then Some (file_node ref size) else abs (T w) x) /\
          (run = (Ok e, w') \/ run = (Err ErrInvalidPath, w') \/
           run = (Err ErrPathComponentNotDirectory, w')) /\
          (forall ds d, denotes s (ds ++ [d]) -> cs = ds ++ [d] /\ run = (Ok e, w'))
      else run = (Err ErrEntryNotFile, w)
  | Ok (None, _) => run = (Err ErrNotExist, w)
  | Err e => run = (Err e, w)
  end.
Proof.
  intros Hw run. pose proof Hw as [Hwf _]. subst run. unfold Tx.Replace.
  destruct (get_info (T w) s) as [[[e|] pid]|er] eqn:E.
  2: by rewrite (bind_ok _ _ w (None, pid) w) by (by rewrite txGetEntryInfo_eq, E).
  2: by rewrite (bind_err _ _ w er w) by (by rewrite txGetEntryInfo_eq, E).
  rewrite (bind_ok _ _ w (Some e, pid) w) by (by rewrite txGetEntryInfo_eq, E). cbn [fst].
  destruct (FileKind_ e =? defaultFileKindFile) eqn:Ek; [|done].
  rewrite (bind_ok _ _ w tt w eq_refl).
  pose proof (get_info_elem _ Hwf _ _ _ E) as He. destruct (wf_path _ Hwf e He) as [cs Hcs].
  set (w1 := with_db w (set_mapping (sql_update (fun r => EntryId_ r =? EntryId_ e)
    (Tx.with_content ref size mtime)) (db w))).
  rewrite (bind_ok (upd (set_mapping (sql_update (fun r => EntryId_ r =? EntryId_ e)
    (Tx.with_content ref size mtime)))) _ w tt w1 eq_refl).
  assert (keeps_place (Tx.with_content ref size mtime)) as Hkp by done.
  assert (wf_world w1) as Hw1 by (by eapply (wf_world_update w)).
  assert (forall x, abs (T w1) x =
    if decide (x = cs) then Some (file_node ref size) else abs (T w) x) as Habs1.
  { intros x. pose proof (find_map _ (keeps_place_if (fun r => EntryId_ r =? EntryId_ e) _ Hkp) (T w) x) as Hf.
    change (map _ (T w)) with (T w1) in Hf. unfold abs. rewrite Hf.
    case_decide as Hx.
    - subst. apply find_spec in Hcs; [|done]. rewrite Hcs. simpl. rewrite Z.eqb_refl.
      unfold node_of. simpl. apply Z.eqb_eq in Ek. by rewrite Ek.
    - destruct (find (T w) x) as [r|] eqn:Er; [|done]. simpl.
      destruct (Z.eqb_spec (EntryId_ r) (EntryId_ e)) as [Eid|]; [|done].
      exfalso. apply Hx. apply find_spec in Er; [|done].
      assert (r = e) as -> by (eapply id_inj; eauto using at_path_elem). by eapply at_path_inj. }
  destruct (recordChange_tree s CkUpdated w1) as (w2 & E2 & Hid2 & HT2).
  rewrite (bind_ok _ _ _ _ _ E2). pose proof (wf_world_same _ _ Hw1 HT2 Hid2) as Hw2.
  destruct (touchParent_eq s mtime w2) as (res & w3 & E3 & Hid3 & Hre & Herr).
  exists w3, cs. split_and!; try done.
  - by apply (wf_world_retouched w2).
  - intros x. by rewrite (retouched_abs _ _ _ Hre), HT2.
  - destruct res as [[]|er]; [left; by rewrite (bind_ok _ _ _ _ _ E3)|right].
    rewrite (bind_err _ _ _ _ _ E3). destruct (Herr er eq_refl) as [-> | ->]; auto.
  - intros ds d Hden. destruct (get_info_ok _ Hwf _ _ _ _ _ Hden E) as [Hf (p & Hp & Hpd & _)].
    symmetry in Hf. apply find_spec in Hf; [|done].
    assert (cs = ds ++ [d]) as -> by (by eapply at_path_inj). split; [done|].
    destruct (abs_dir_keep (T w) (T w2) ds p) as (p2 & Hp2 & Hpd2); try done; [apply Hw2| |].
    { rewrite HT2, Habs1. rewrite decide_False; [done|]. intros E'. apply (f_equal length) in E'.
      rewrite length_app in E'. simpl in E'. lia. }
    destruct (touchParent_ok s ds d p2 mtime w2) as (w' & E' & _); try done; [apply Hw2|].
    rewrite E3 in E'. injection E' as -> ->. by rewrite (bind_ok _ _ _ _ _ E3).
Qed.

Lemma Touch_run s mtime w :
  wf_world w -> (Tx.Touch s mtime w).1 <> Err Diverge /\ wf_world (Tx.Touch s mtime w).2 /\
    forall x, abs (T (Tx.Touch s mtime w).2) x = abs (T w) x.
Proof.
  intros Hw. pose proof Hw as [Hwf _]. unfold Tx.Touch.
  destruct (get_info (T w) s) as [[[e|] pid]|er] eqn:E.
  - rewrite (bind_ok _ _ w (Some e, pid) w) by (by rewrite txGetEntryInfo_eq, E). cbn [fst].
    destruct (touchEntryID_eq (EntryId_ e) mtime w) as (w1 & E1 & Hid1 & Hre).
    rewrite (bind_ok _ _ _ _ _ E1). pose proof (wf_world_retouched _ _ Hw Hre Hid1) as Hw1.
    destruct (recordChange_tree s CkUpdated w1) as (w2 & E2 & Hid2 & HT2). rewrite E2.
    split; [done|]. split; [by apply (wf_world_same w1)|]. intros x. cbn. rewrite HT2. by apply retouched_abs.
  - by rewrite (bind_ok _ _ w (None, pid) w) by (by rewrite txGetEntryInfo_eq, E).
  - rewrite (bind_err _ _ w er w) by (by rewrite txGetEntryInfo_eq, E).
    split; [|done]. apply get_info_err_kind in E. naive_solver.
Qed.

(** Directories came where nothing was. *)
Definition kept_or_dir (t t' : list row) (x : list string) : Prop :=
  abs t' x = abs t x \/ (abs t x = None /\ abs t' x = Some dir_node).
Definition adds_dirs (t t' : list row) : Prop := forall x, kept_or_dir t t' x.
Lemma kept_or_dir_trans t1 t2 t3 x : kept_or_dir t1 t2 x -> kept_or_dir t2 t3 x -> kept_or_dir t1 t3 x.
Proof.
  intros H12 [E|[E E']]; unfold kept_or_dir; [rewrite E; apply H12|]. destruct H12 as [E1|[E1 E2]]; [|congruence].
  right. split; [congruence|done].
Qed.
Lemma adds_dirs_same t t' : (forall x, abs t' x = abs t x) -> adds_dirs t t'.
Proof. intros Ha x. by left. Qed.
Lemma adds_dirs_trans t1 t2 t3 : adds_dirs t1 t2 -> adds_dirs t2 t3 -> adds_dirs t1 t3.
Proof. intros H12 H23 x. by eapply kept_or_dir_trans. Qed.

Lemma Mkdir_tx_run s w :
  wf_world w -> (Tx.Mkdir s w).1 <> Err Diverge /\
  forall r, (Tx.Mkdir s w).1 = Ok r -> wf_world (Tx.Mkdir s w).2 /\ adds_dirs (T w) (T (Tx.Mkdir s w).2).
Proof.
  intros Hw. pose proof Hw as [Hwf _]. unfold Tx.Mkdir. cbv zeta.
  set (d := trim_slash s).
  destruct (splitFilename_cases d) as [(name & dir & ->)|(dir & name & -> & Hdir)]; [done|].
  set (cb := fun parentID : Z => _).
  assert (exists o w1, attempt (txOnSelectDir dir false cb) w = (Ok o, w1) /\ o <> Err Diverge /\
    forall r, o = Ok r -> wf_world w1 /\ adds_dirs (T w) (T w1)) as (o & w1 & E1 & Hdv & Hok).
  { unfold attempt, txOnSelectDir. destruct Hdir as [[cs Hdir]|Hinv].
    2: { rewrite Hinv. by eexists _, _. }
    rewrite (rebuildDirItems_denotes _ _ Hdir), (bind_ok _ _ w ("/" :: cs) w eq_refl).
    destruct (walk (T w) 0 ("/" :: cs)) as [pid|e] eqn:Ew.
    2: { rewrite (bind_err _ _ w e w) by (by rewrite select_loop_walk, Ew).
         eexists _, _. split; [done|]. split; [|done]. apply walk_err in Ew. naive_solver. }
    rewrite (bind_ok _ _ w pid w) by (by rewrite select_loop_walk, Ew).
    apply walk_ok in Ew as (p & Hp & Hpd & ->); [|done].
    assert (slot (T w) (EntryId_ p) name (cs ++ [name])) as Hslot by (right; by exists cs, p).
    subst cb. cbv beta. rewrite (bind_ok (txIsEntryExist (EntryId_ p) name) _ w
      (bool_decide (is_Some (search_row (EntryId_ p) name (T w)))) w eq_refl).
    rewrite (slot_search _ _ _ _ Hwf Hslot). case_bool_decide as Hex.
    { by eexists _, _. }
    unfold txCreateDir. set (w2 := {| db := db w; ticks := S (ticks w); ids := ids w |}).
    destruct (create_slot (EntryId_ p) (new_entry (EntryId_ p) "" defaultFileKindDir
      (clk (ticks w)) 0 defaultEntryFileMode name) w2 (cs ++ [name]))
      as (w3 & n & E3 & Hw3 & Hn & Hfind); try done; [by apply eq_None_not_Some|by left|].
    apply eq_None_not_Some in Hex.
    assert (adds_dirs (T w) (T w3)) as Hadd.
    { intros x. unfold kept_or_dir, abs. rewrite Hfind. case_decide; [right|by left]. subst x.
      change (T w2) with (T w). rewrite Hex. split; [done|]. by rewrite Hn. }
    rewrite (bind_ok _ _ w (EntryId_ n) w3)
      by (by rewrite (bind_ok now _ w (clk (ticks w)) w2 eq_refl)).
    rewrite (bind_ok (txSearchEntry (EntryId_ p) name) _ w3 _ w3 eq_refl).
    eexists _, _. split; [done|]. by destruct (search_row _ _ _). }
  rewrite (bind_ok _ _ _ _ _ E1). destruct o as [r|e].
  2: { split; [|done]. cbn. case_decide; [done|congruence]. }
  destruct (Hok r eq_refl) as [Hok1 Hadd]. clear Hok.
  destruct (recordChange_tree d CkCreated w1) as (w2 & E2 & Hid2 & HT2).
  rewrite (bind_ok _ _ _ _ _ E2).
  set (w3 := {| db := db w2; ticks := S (ticks w2); ids := ids w2 |}).
  rewrite (bind_ok now _ w2 (clk (ticks w2)) w3 eq_refl).
  assert (wf_world w3) as Hw3 by (by apply (wf_world_same w1)).
  destruct (touchParent_eq d (clk (ticks w2)) w3) as (res & w4 & E4 & Hid4 & Hre & Herr).
  destruct res as [[]|er].
  - rewrite (bind_ok _ _ _ _ _ E4). split; [done|]. intros _ _. split; [by apply (wf_world_retouched w3)|].
    eapply adds_dirs_trans; [exact Hadd|]. apply adds_dirs_same. intros x.
    rewrite (retouched_abs _ _ _ Hre). change (T w3) with (T w2). by rewrite HT2.
  - rewrite (bind_err _ _ _ _ _ E4). split; [|done]. destruct (Herr er eq_refl) as [-> | ->]; done.
Qed.

(** ** Invariant and termination *)

(** The operations of [IDirectory] and, each in a transaction of its own, those of
    [ITransaction]. *)
Inductive dir_op :=
  | OpMkdir (dir : string)
  | OpCreate (filename : string) (size : Z) (refdata : string)
  | OpRemove (filename : string)
  | OpMove (src dst : string) (overwrite : bool)
  | OpCopy (src dst : string) (overwrite recursive : bool)
  | OpTxMkdir (dirname : string)
  | OpReplace (filename : string) (size : Z) (refdata : string) (mtime : Z)
  | OpTouch (filename : string) (mtime : Z).

Definition WithTransaction {A} (m : M World A) : M World unit :=
  OnTransation (_ ← m; mret tt).

Definition run_op (op : dir_op) : M World unit :=
  match op with
  | OpMkdir dir => Mkdir dir
  | OpCreate filename size refdata => Create filename size refdata
  | OpRemove filename => Remove filename
  | OpMove src dst overwrite => Move src dst overwrite
  | OpCopy src dst overwrite recursive => WithTransaction (CopyDepth src dst overwrite recursive)
  | OpTxMkdir dirname => WithTransaction (Tx.Mkdir dirname)
  | OpReplace filename size refdata mtime =>
      WithTransaction (Tx.Replace filename size refdata mtime)
  | OpTouch filename mtime => WithTransaction (Tx.Touch filename mtime)
  end.

Definition op_ok {A} (m : M World A) (w : World) : Prop :=
  (m w).1 <> Err Diverge /\ forall a, (m w).1 = Ok a -> wf_world (m w).2.

Lemma tx_op_ok {A} (m : M World A) w :
  (forall k, preserves (fun w => (k <= ids w)%nat) m) -> wf_world w -> op_ok m w ->
  wf_world (WithTransaction m w).2 /\ (WithTransaction m w).1 <> Err Diverge.
Proof.
  intros Hids Hw [Hdv Hok]. unfold WithTransaction, OnTransation, mbind, M_bind.
  specialize (Hids (ids w) w (le_n _)). destruct (m w) as [[a|e] w'] eqn:E; simpl in *.
  - split; [by eapply Hok|done].
  - split; [by apply wf_world_rollback|congruence].
Qed.

Lemma Create_op_ok s size ref w : wf_world w -> op_ok (Tx.Create s size ref) w.
Proof.
  intros Hw. destruct (splitFilename_cases (trim_slash s)) as [(name & dir & E)|(dir & name & E & Hd)].
  { unfold op_ok, Tx.Create. cbv zeta. rewrite E. done. }
  destruct Hd as [[cs Hd]|Hinv].
  - destruct (Create_run s size ref dir name cs w Hw E Hd)
      as [[_ H1]|[[_ H1]|(_ & H1 & _ & Hw' & _)]].
    + split; by rewrite H1.
    + split; by rewrite H1.
    + split; [|done]. destruct H1 as [H1|[H1|[ent H1]]]; by rewrite H1.
  - unfold op_ok, Tx.Create. cbv zeta. rewrite E. unfold txOnSelectDir. rewrite Hinv. done.
Qed.

Lemma Remove_op_ok s w : wf_world w -> op_ok (Tx.Remove s) w.
Proof.
  intros Hw. pose proof (Remove_run s w Hw) as Hr. unfold op_ok.
  destruct (get_info (T w) s) as [[[e|] pid]|er] eqn:E.
  - destruct Hr as (cs & L & w' & _ & _ & Hw' & _ & [-> |[-> | ->]] & _); by split.
  - by rewrite Hr.
  - rewrite Hr. split; [|done]. apply get_info_err_kind in E. naive_solver.
Qed.

Lemma transfer_cases src dst :
  (exists ss, denotes src ss /\ denotes dst ss) \/
  (exists s0 sn d0 dn, denotes src (s0 ++ [sn]) /\ denotes dst (d0 ++ [dn]) /\
     disjoint_paths (s0 ++ [sn]) (d0 ++ [dn])) \/
  (exists e, precheckMoveCopy src dst = Err e /\ e <> Diverge).
Proof.
  destruct (precheckMoveCopy src dst) as [b|e] eqn:E.
  - apply precheck_ok in E as (ss & ds & Hs & Hd & [[_ ->]|[_ Hdis]]); [left; eauto|].
    destruct (disjoint_snoc _ _ Hdis) as (s0 & sn & d0 & dn & -> & ->). right. left.
    by exists s0, sn, d0, dn.
  - right. right. exists e. split; [done|].
    assert (forall s e', rebuildDirItems s = Err e' -> e' = ErrInvalidPath) as Hinv.
    { intros s e'. unfold rebuildDirItems. rewrite rebuild_loop_spec.
      case_decide; cbn; [by intros [= <-]|done]. }
    unfold precheckMoveCopy in E.
    destruct (rebuildDirItems src) eqn:Es; cbn in E; [|by apply Hinv in Es as ->; injection E as <-].
    destruct (rebuildDirItems dst) eqn:Ed; cbn in E; [|by apply Hinv in Ed as ->; injection E as <-].
    intros ->. repeat case_match; done.
Qed.

Lemma Move_op_ok src dst ow w : wf_world w -> op_ok (Move_tx src dst ow) w.
Proof.
  intros Hw. unfold op_ok.
  destruct (transfer_cases src dst) as [(ss & Hs & Hd)|[(s0 & sn & d0 & dn & Hs & Hd & Hdis)|(e & E & He)]].
  - unfold Move_tx. rewrite (precheck_spec _ _ _ _ Hs Hd), decide_True by done. done.
  - destruct (Move_tx_run src dst ow s0 sn d0 dn w Hw Hs Hd Hdis)
      as [(L & w' & -> & Hw' & _)|(e & w' & -> & He & _)]; split; try done. simpl. congruence.
  - unfold Move_tx. rewrite E. split; [|done]. simpl. congruence.
Qed.

Lemma Copy_op_ok src dst ow b w : wf_world w -> op_ok (CopyDepth src dst ow b) w.
Proof.
  intros Hw. unfold op_ok.
  destruct (transfer_cases src dst) as [(ss & Hs & Hd)|[(s0 & sn & d0 & dn & Hs & Hd & Hdis)|(e & E & He)]].
  - unfold CopyDepth. rewrite (precheck_spec _ _ _ _ Hs Hd), decide_True by done. done.
  - destruct (CopyDepth_run src dst ow b s0 sn d0 dn w Hw Hs Hd Hdis)
      as [(P & L & w' & -> & Hw' & _)|(e & w' & -> & He & _)]; split; try done. simpl. congruence.
  - unfold CopyDepth. rewrite E. split; [|done]. simpl. congruence.
Qed.

Lemma Replace_op_ok s size ref m w : wf_world w -> op_ok (Tx.Replace s size ref m) w.
Proof.
  intros Hw. pose proof (Replace_run s size ref m w Hw) as Hr. unfold op_ok.
  destruct (get_info (T w) s) as [[[e|] pid]|er] eqn:E.
  - destruct (FileKind_ e =? defaultFileKindFile).
    + destruct Hr as (w' & cs & _ & Hw' & _ & [-> |[-> | ->]] & _); by split.
    + by rewrite Hr.
  - by rewrite Hr.
  - rewrite Hr. split; [|done]. apply get_info_err_kind in E. naive_solver.
Qed.

Lemma run_op_ok op w :
  wf_world w -> wf_world (run_op op w).2 /\ (run_op op w).1 <> Err Diverge.
Proof.
  intros Hw. destruct op; cbn [run_op]; try (apply tx_op_ok;
    [intros k; first [
          apply (preserves_Create _ (okref := fun _ => True))
        | apply (preserves_Remove_tx _ (okref := fun _ => True))
        | apply (preserves_Move_tx _ (okref := fun _ => True))
        | apply (preserves_CopyDepth _ (okref := fun _ => True))
        | apply (preserves_Mkdir_tx _ (okref := fun _ => True))
        | apply (preserves_Replace _ (okref := fun _ => True))
        | apply (preserves_Touch _ (okref := fun _ => True))];
      exact _ || done|done|]).
  - destruct (splitFilename_cases dir) as [(name & d & E)|(d & name & E & Hd)].
    { by destruct (Mkdir_root_run _ _ _ w Hw E) as (w' & -> & Hw' & _). }
    destruct Hd as [[cs Hd]|Hinv].
    + destruct (Mkdir_run dir d name cs w Hw E Hd) as [(_ & w' & Em & Hdb)|(w' & -> & Hw' & _)]; [|done].
      rewrite Em. split; [|done]. pose proof (preserves_Mkdir (fun w0 => (ids w <= ids w0)%nat) (okref := fun _ => True) dir w (le_n _)) as Hid.
      rewrite Em in Hid. simpl in Hid. pose proof (wf_world_rollback w w' Hw Hid) as Hr.
      destruct w' as [d' t' i']. simpl in *. by subst.
    + unfold Mkdir. rewrite E. unfold onSelectDir, OnTransation, txOnSelectDir. rewrite Hinv.
      split; [by apply wf_world_rollback|done].
  - by apply Create_op_ok.
  - by apply Remove_op_ok.
  - by apply Move_op_ok.
  - by apply Copy_op_ok.
  - destruct (Mkdir_tx_run dirname w Hw) as [? Hok]. split; [done|]. intros r Hr. by apply (Hok r).
  - by apply Replace_op_ok.
  - destruct (Touch_run filename mtime w Hw) as (? & ? & _). by split.
Qed.

Definition run_ops (ops : list dir_op) (w : World) : World :=
  foldl (fun w op => (run_op op w).2) w ops.

(** C18: The mapping table stays a tree (unique entry ids, unique names in a
    directory, every entry reachable from the root through directories) through
    every sequence of directory operations, whatever paths they are called with
    and whether they succeed or fail; and from any state so reached no operation
    recurses without end. *)
Theorem directory_stays_tree ops w :
  wf_world w ->
  wf_world (run_ops ops w) /\ forall op, (run_op op (run_ops ops w)).1 <> Err Diverge.
Proof.
  intros Hw. assert (wf_world (run_ops ops w)) as Hw'.
  { revert w Hw. induction ops as [|op ops IH]; intros w Hw; [done|].
    apply IH. by apply run_op_ok. }
  split; [done|]. intros op. by apply run_op_ok.
Qed.

(** ** The operations on the abstract map *)

Lemma Stat_lookup s cs w :
  wf_tree (T w) -> denotes s cs -> cs <> [] \/ GoStr.rooted s = true ->
  db (Stat s w).2 = db w /\
  match find (T w) cs with
  | Some r => (Stat s w).1 = Ok r
  | None => (Stat s w).1 = Err ErrNotExist \/ (Stat s w).1 = Err ErrPathComponentNotDirectory
  end.
Proof.
  intros Hwf Hd Hne. unfold Stat. destruct cs as [|c cs _] using rev_ind.
  - destruct Hne as [?|Hr]; [done|]. rewrite (splitFilename_root s Hd Hr).
    unfold txGetRoot. rewrite (bind_ok (txSearchEntry 0 "/") _ w (search_row 0 "/" (T w)) w eq_refl).
    rewrite (slot_search (T w) 0 "/" []) by (done || by left).
    destruct (find (T w) []); split; try done. by left.
  - destruct (splitFilename_denotes _ _ _ Hd) as (dir & -> & Hdir).
    unfold onSelectDir, OnTransation, txOnSelectDir. rewrite (rebuildDirItems_denotes _ _ Hdir).
    rewrite (bind_ok _ _ w ("/" :: cs) w eq_refl).
    destruct (walk (T w) 0 ("/" :: cs)) as [pid|e] eqn:E.
    + rewrite (bind_ok _ _ w pid w) by (by rewrite select_loop_walk, E).
      apply walk_ok in E as (p & Hp & Hpd & ->); [|done].
      rewrite (bind_ok (txSearchEntry (EntryId_ p) c) _ w (search_row (EntryId_ p) c (T w)) w eq_refl).
      rewrite (slot_search (T w) (EntryId_ p) c (cs ++ [c])) by (done || right; by exists cs, p).
      destruct (find (T w) (cs ++ [c])); split; try done. by left.
    + rewrite (bind_err _ _ w e w) by (by rewrite select_loop_walk, E).
      assert (find (T w) (cs ++ [c]) = None) as ->.
      { apply find_none; [done|]. intros r (p & Hp & Hpd & _)%at_path_snoc_inv.
        assert (walk (T w) 0 ("/" :: cs) = Ok (EntryId_ p)) as Hw by (apply walk_ok; eauto).
        rewrite E in Hw. done. }
      split; [done|]. apply walk_err in E as [-> | ->]; [by left|by right].
Qed.

(** [Stat] is the lookup in the abstract map: it finds exactly the row at the
    path, and reports a missing path or a path through a file otherwise. *)
Theorem Stat_finds s cs w :
  wf_tree (T w) -> denotes s cs -> cs <> [] \/ GoStr.rooted s = true ->
  db (Stat s w).2 = db w /\
  match find (T w) cs with
  | Some r => (Stat s w).1 = Ok r
  | None => (Stat s w).1 = Err ErrNotExist \/ (Stat s w).1 = Err ErrPathComponentNotDirectory
  end.
Proof. apply Stat_lookup. Qed.

(** [Create] adds exactly one file node with the given reference and size,
    and the missing directories above it; it fails, leaving the database as it
    was, exactly when the path is taken or leads through a file. *)
Theorem Create_spec s size ref cs c w :
  wf_world w -> denotes s (cs ++ [c]) ->
  (blocked (T w) cs -> exists w',
     Create s size ref w = (Err ErrPathComponentNotDirectory, w') /\ db w' = db w) /\
  (~ blocked (T w) cs -> abs (T w) (cs ++ [c]) <> None -> exists w',
     Create s size ref w = (Err ErrExist, w') /\ db w' = db w) /\
  (~ blocked (T w) cs -> abs (T w) (cs ++ [c]) = None -> exists w',
     Create s size ref w = (Ok tt, w') /\
     forall x, abs (T w') x =
       if decide (x = cs ++ [c]) then Some (file_node ref size) else ensured (T w) cs x).
Proof.
  intros Hw Hd. pose proof Hw as [Hwf _]. apply denotes_trim in Hd.
  destruct (splitFilename_denotes _ _ _ Hd) as (dir & Hsplit & Hdir).
  pose proof (Create_run s size ref dir c cs w Hw Hsplit Hdir) as Hrun. cbv zeta in Hrun.
  assert (blocked (T w) cs -> abs (T w) (cs ++ [c]) = None) as Hbl.
  { intros (k & r & [e ->] & Hr & Hrd). apply abs_none. apply find_spec in Hr; [|done].
    rewrite <- app_assoc. destruct (e ++ [c]) eqn:Ee; [by destruct e|].
    by eapply find_below_file. }
  unfold Create, OnTransation, mbind, M_bind.
  destruct (Tx.Create s size ref w) as [res w1] eqn:E. simpl in Hrun.
  destruct Hrun as [[Hb ->]|[[Ha ->]|(Ha & Hres & Hok & Hw1 & Habs & _)]].
  - split_and!; [intros _; by eexists|done|done].
  - split_and!; [intros ?%Hbl; done|intros _ _; by eexists|done].
  - destruct (Hok Hd) as [ent ->]. split_and!; [|done|intros _ _; by eexists].
    intros (k & r & Hk & Hr & Hrd). exfalso.
    (* the walk ended in a directory at [cs], so every prefix is one *)
    specialize (Habs (cs ++ [c])) as Hnew. rewrite decide_True in Hnew by done.
    pose proof Hw1 as [Hwf1 _]. unfold abs in Hnew.
    destruct (find (T w1) (cs ++ [c])) as [n|] eqn:En; [|done].
    apply find_spec in En; [|done]. destruct Hk as [e ->]. rewrite <- app_assoc in En.
    destruct (at_path_app _ Hwf1 _ _ _ En) as (q & Hq & Hqd).
    assert (IsDir q = true) as Hqd' by (apply Hqd; by destruct e).
    specialize (Habs k). rewrite decide_False in Habs.
    2: { intros Ek. apply (f_equal length) in Ek. rewrite !length_app in Ek. simpl in Ek. lia. }
    unfold ensured in Habs. rewrite decide_True in Habs by (by eexists).
    rewrite (abs_of_dir _ _ q Hwf1 Hq Hqd') in Habs. unfold abs in Habs. rewrite Hr in Habs.
    simpl in Habs. injection Habs as Hk _ _. unfold IsDir in Hrd. by rewrite <- Hk in Hrd.
Qed.

(** [Remove] takes out exactly the entry and everything below it, and reports
    success for a path that is not there; it fails, changing nothing, only when
    the parent directory cannot be reached. *)
Theorem Remove_spec s cs c w :
  wf_world w -> denotes s (cs ++ [c]) ->
  (forall w', Remove s w = (Ok tt, w') ->
     forall x, abs (T w') x = without (T w) (cs ++ [c]) x) /\
  (forall e w', Remove s w = (Err e, w') ->
     db w' = db w /\ forall p, at_path (T w) cs p -> IsDir p = false).
Proof.
  intros Hw Hd. pose proof Hw as [Hwf _]. pose proof (Remove_run s w Hw) as Hrun. cbv zeta in Hrun.
  unfold Remove, OnTransation, mbind, M_bind.
  destruct (get_info (T w) s) as [[[e|] pid]|er] eqn:E.
  - destruct Hrun as (ds & L & w1 & Hds & _ & _ & Habs & _ & Hok). rewrite (Hok _ _ Hd).
    destruct (get_info_ok _ Hwf _ _ _ _ _ Hd E) as [Hf _]. symmetry in Hf.
    apply find_spec in Hf; [|done]. assert (ds = cs ++ [c]) as -> by (by eapply at_path_inj).
    split; [|done]. by intros w' [= <-].
  - rewrite Hrun. split; [|done]. intros w' [= <-] x. unfold without. case_decide as Hx; [|done].
    destruct Hx as [y ->]. apply abs_none. apply find_below_none; [done|].
    by destruct (get_info_ok _ Hwf _ _ _ _ _ Hd E) as [<- _].
  - rewrite Hrun. split; [done|]. intros e w' [= <- <-]. split; [done|].
    by destruct (get_info_err _ Hwf _ _ _ _ Hd E) as (_ & _ & ?).
Qed.

(** C17: A move in a transaction, which answers with the entries it overwrote. To the path of
    the source itself it does nothing and overwrites nothing; to a path below the source or
    above it, it is refused and changes nothing. To any other path it succeeds exactly when
    the source exists, the directory of the destination exists, and the destination is free
    or may be overwritten: it answers with the rows that were at the destination and below
    it; the source and everything below it, the same entries with the same ids, are then
    found at and below the destination and nowhere else; and every other path is unchanged,
    with the id of its entry. A refused move changes nothing. *)
Theorem Move_spec src dst overwrite ss ds w :
  wf_world w -> denotes src ss -> denotes dst ds ->
  let move := OnTransation (Move_tx src dst overwrite) in
  (ss = ds -> move w = (Ok [], w)) /\
  (ss <> ds -> ss `prefix_of` ds \/ ds `prefix_of` ss -> move w = (Err ErrDestinationInsideSource, w)) /\
  (forall d0 dn, ds = d0 ++ [dn] -> disjoint_paths ss ds ->
    (can_move (T w) ss d0 dn overwrite -> exists overwritten w', move w = (Ok overwritten, w') /\
       subtree_list (T w) ds overwritten /\ forall x, tagged (T w') x = moved_tagged (T w) ss ds x) /\
    (~ can_move (T w) ss d0 dn overwrite -> exists e w', move w = (Err e, w') /\ db w' = db w)).
Proof.
  intros Hw Hs Hd move. pose proof (precheck_spec src dst ss ds Hs Hd) as Hpre. subst move. split_and!.
  - intros ->. unfold OnTransation, Move_tx. rewrite lift_bind, Hpre, decide_True by done. reflexivity.
  - intros Hne Hp. unfold OnTransation, Move_tx. rewrite lift_bind, Hpre, decide_False by done.
    rewrite decide_False by (unfold disjoint_paths; tauto). by destruct w.
  - intros d0 dn -> Hdis. destruct (disjoint_snoc _ _ Hdis) as (s0 & sn & ? & ? & -> & _). unfold OnTransation.
    destruct (Move_tx_run src dst overwrite s0 sn d0 dn w Hw Hs Hd Hdis)
      as [(L & w' & -> & _ & Hcan & HL & Htag)|(e & w' & -> & _ & Hcan)].
    + split; [|done]. intros _. by exists L, w'.
    + split; [done|]. intros _. by eexists _, _.
Qed.

(** C19: [Copy] under the same conditions makes the tree below the destination
    equal to the tree below the source (only the entry itself when it is not
    recursive) and changes no other path; a refused copy changes nothing. *)
Theorem Copy_spec src dst overwrite recursive ss d0 dn w :
  wf_world w -> denotes src ss -> denotes dst (d0 ++ [dn]) -> disjoint_paths ss (d0 ++ [dn]) ->
  (can_move (T w) ss d0 dn overwrite -> exists w',
     WithTransaction (CopyDepth src dst overwrite recursive) w = (Ok tt, w') /\
     forall x, abs (T w') x = copied_abs (T w) ss (d0 ++ [dn]) recursive x) /\
  (~ can_move (T w) ss d0 dn overwrite -> exists e w',
     WithTransaction (CopyDepth src dst overwrite recursive) w = (Err e, w') /\ db w' = db w).
Proof.
  intros Hw Hs Hd Hdis. destruct (disjoint_snoc _ _ Hdis) as (s0 & sn & ? & ? & -> & _).
  unfold WithTransaction, OnTransation, mbind, M_bind.
  destruct (CopyDepth_run src dst overwrite recursive s0 sn d0 dn w Hw Hs Hd Hdis)
    as [(P & L & w' & -> & _ & Hcan & _ & _ & _ & Habs)|(e & w' & -> & _ & Hcan)].
  - split; [|done]. intros _. by exists w'.
  - split; [done|]. intros _. by eexists _, _.
Qed.
End Theorems.

(** ** Runs on a concrete tree *)
Section Demo.
#[local] Instance demo_env : Env := {| clk n := Z.of_nat n; idfn n := Z.of_nat n + 1 |}.
#[local] Instance demo_ids : GoodIds.
Proof. split; simpl; intros; lia. Qed.

Definition demo_start : World := {| db := empty_db; ticks := 0; ids := 0 |}.
(** /a/b (a file), /a/c/d (a file) and /e (a directory) *)
Definition demo_setup : list dir_op :=
  [OpCreate "/a/b" 3 "77"; OpCreate "/a/c/d" 4 "78"; OpMkdir "/e"].
Definition demo_world : World := run_ops demo_setup demo_start.

Lemma demo_start_wf : wf_world demo_start.
Proof. split; [apply wf_empty|]. by intros r n ?%elem_of_nil. Qed.

Lemma demo_world_wf : wf_world demo_world.
Proof.
  unfold demo_world, run_ops, demo_setup. cbn [foldl].
  do 3 (apply (fun op w Hw => proj1 (run_op_ok op w Hw))). apply demo_start_wf.
Qed.

Lemma directory_stays_tree_witness :
  wf_world demo_world /\
  (run_op (OpCopy "/a" "/e/z" false true) demo_world).1 <> Err Diverge.
Proof.
  destruct (directory_stays_tree demo_setup demo_start demo_start_wf) as [Hw Hop].
  split; [exact Hw|apply Hop].
Defined.

Lemma Stat_finds_witness :
  exists r, (Stat "/a/./c//d" demo_world).1 = Ok r /\ RefData_ r = "78" /\ FileSize_ r = 4.
Proof.
  assert (denotes "/a/./c//d" ["a"; "c"; "d"]) as Hd by (by apply (bool_decide_unpack _)).
  destruct (Stat_finds "/a/./c//d" ["a"; "c"; "d"] demo_world (proj1 demo_world_wf) Hd
    (or_intror eq_refl)) as [_ H].
  destruct (find (T demo_world) ["a"; "c"; "d"]) as [r|] eqn:E; [|vm_compute in E; discriminate E].
  exists r. split; [exact H|]. vm_compute in E. injection E as <-. split; reflexivity.
Defined.

Lemma Create_spec_witness :
  exists w', Create "/e/f/g" 9 "99" demo_world = (Ok tt, w') /\
    abs (T w') ["e"; "f"; "g"] = Some (file_node "99" 9) /\
    abs (T w') ["e"; "f"] = Some dir_node /\
    abs (T w') ["a"; "b"] = Some (file_node "77" 3).
Proof.
  assert (denotes "/e/f/g" (["e"; "f"] ++ ["g"])) as Hd by (by apply (bool_decide_unpack _)).
  destruct (Create_spec "/e/f/g" 9 "99" ["e"; "f"] "g" demo_world demo_world_wf Hd)
    as (_ & _ & H).
  destruct H as (w' & Hrun & Habs).
  - intros (k & r & [e Hk] & Hr & Hrd). destruct k as [|k1 [|k2 [|k3 k]]]; [| |injection Hk; intros; subst|].
    + vm_compute in Hr. injection Hr as <-. discriminate Hrd.
    + injection Hk as <- _. vm_compute in Hr. injection Hr as <-. discriminate Hrd.
    + vm_compute in Hr. discriminate Hr.
    + discriminate Hk.
  - reflexivity.
  - exists w'. split; [exact Hrun|]. rewrite !Habs. vm_compute. repeat split.
Defined.

Lemma Remove_spec_witness :
  exists w', Remove "/a/c" demo_world = (Ok tt, w') /\
    abs (T w') ["a"; "c"; "d"] = None /\ abs (T w') ["a"; "b"] = Some (file_node "77" 3).
Proof.
  assert (denotes "/a/c" (["a"] ++ ["c"])) as Hd by (by apply (bool_decide_unpack _)).
  destruct (Remove_spec "/a/c" ["a"] "c" demo_world demo_world_wf Hd) as [H _].
  destruct (Remove "/a/c" demo_world) as [[[]|e] w'] eqn:E; [|vm_compute in E; discriminate E].
  specialize (H w' eq_refl). exists w'. rewrite !H. split; [reflexivity|]. vm_compute. repeat split.
Defined.

Lemma demo_can_move ow : can_move (T demo_world) ["a"] ["e"] "z" ow.
Proof.
  split; [intros H; vm_compute in H; discriminate H|]. split; [|left; vm_compute; reflexivity].
  destruct (find (T demo_world) ["e"]) as [p|] eqn:E; [|vm_compute in E; discriminate E].
  exists p. split; [apply find_spec; [apply demo_world_wf|exact E]|].
  vm_compute in E. injection E as <-. reflexivity.
Defined.

Lemma demo_disjoint : disjoint_paths ["a"] (["e"] ++ ["z"]).
Proof. split; intros [k Hk]; discriminate Hk. Defined.

Lemma Move_spec_witness :
  exists w', OnTransation (Move_tx "/a" "/e/z" false) demo_world = (Ok [], w') /\
    tagged (T w') ["e"; "z"; "c"; "d"] = tagged (T demo_world) ["a"; "c"; "d"] /\
    tagged (T w') ["a"; "b"] = None /\ OnTransation (Move_tx "/a" "/a" false) demo_world = (Ok [], demo_world).
Proof.
  assert (denotes "/a" ["a"]) as Hs by (by apply (bool_decide_unpack _)).
  assert (denotes "/e/z" (["e"] ++ ["z"])) as Hd by (by apply (bool_decide_unpack _)).
  destruct (Move_spec "/a" "/e/z" false ["a"] (["e"] ++ ["z"]) demo_world demo_world_wf Hs Hd) as (_ & _ & H).
  destruct (H ["e"] "z" eq_refl demo_disjoint) as [H' _].
  destruct (H' (demo_can_move false)) as (L & w' & Hrun & HL & Htag). exists w'. rewrite !Htag.
  assert (L = []) as E by (vm_compute in Hrun; by injection Hrun as <- _). rewrite E in Hrun.
  split; [exact Hrun|]. split; [vm_compute; reflexivity|]. split; [vm_compute; reflexivity|].
  by apply (Move_spec "/a" "/a" false ["a"] ["a"] demo_world demo_world_wf Hs Hs).
Defined.

Lemma Copy_spec_witness :
  exists w', WithTransaction (CopyDepth "/a" "/e/z" false true) demo_world = (Ok tt, w') /\
    abs (T w') ["e"; "z"; "c"; "d"] = Some (file_node "78" 4) /\
    abs (T w') ["a"; "b"] = Some (file_node "77" 3).
Proof.
  assert (denotes "/a" ["a"]) as Hs by (by apply (bool_decide_unpack _)).
  assert (denotes "/e/z" (["e"] ++ ["z"])) as Hd by (by apply (bool_decide_unpack _)).
  destruct (Copy_spec "/a" "/e/z" false true ["a"] ["e"] "z" demo_world demo_world_wf Hs Hd
    demo_disjoint) as [H _].
  destruct (H (demo_can_move false)) as (w' & Hrun & Habs). exists w'. rewrite !Habs.
  split; [exact Hrun|]. vm_compute. repeat split.
Defined.
End Demo.
