(* ===== verification/References.v ===== *)
(** * References to stored files (src/filemgr/references.go)

    Which files are still referenced (by a mapping, by a composite file that is
    mapped, by a running multipart upload or by a backup export), which may be
    linked again, and what happens to the blocks of a file that lost its last
    reference. *)

From stdpp Require Import base strings list.
From S2P Require Import Prelude GoStr Store.

Module References.

Record storedFileRecord := {
  fileID : Z; size : Z; partCount : Z; state : Z; layout : Z }.

(** The source columns come from a LEFT JOIN. *)
Record storedCompositeSegment := {
  index : Z; sourceFileID : Z; segSize : Z; source : option (Z * Z * Z) }.

(** ** The counts of the reference queries *)

Definition count_pins (d : DB) (f : Z) : Z := sql_count (fun p => pin_file_id p =? f) (t_pin d).

Definition count_mappings (d : DB) (f : Z) : Z :=
  sql_count (fun r => bool_decide (RefData_ r = FormatUint f)) (t_mapping d).

Definition count_composites (d : DB) (f : Z) : Z :=
  sumZ (map (fun s => count_mappings d (sg_file_id s))
            (sql_select (fun s => sg_source s =? f) (t_segment d))).

Definition count_multipart (d : DB) (f : Z) : Z :=
  sumZ (map (fun p => sql_count (fun u => bool_decide (u_upload_id u = mp_upload_id p) && u_active u)
                        (t_upload d))
            (sql_select (fun p => (mp_file_id p =? f) && mp_active p) (t_mpart d))).

Definition file_rows (d : DB) (f : Z) : list file_row :=
  sql_select (fun r => f_file_id r =? f) (t_file d).

Definition to_record (r : file_row) : storedFileRecord :=
  {| fileID := f_file_id r; size := f_size r; partCount := f_part_count r;
     state := f_state r; layout := f_layout r |}.

(** [a LEFT JOIN b] for one row of [a]: the rows of [b] it joins, or NULLs. *)
Definition left_join {A} (matches : list A) : list (option A) :=
  match matches with [] => [None] | _ => Some <$> matches end.

(** The rows of the manifest query of [ensureCompositeFileLive]. *)
Definition by_index (a b : segment_row) : bool := sg_index a <=? sg_index b.
Definition file_segments (d : DB) (f : Z) : list segment_row :=
  order_by by_index (sql_select (fun s => sg_file_id s =? f) (t_segment d)).
Definition manifest_rows (d : DB) (f : Z) : list storedCompositeSegment :=
  flat_map (fun s => map (fun src =>
      {| index := sg_index s; sourceFileID := sg_source s; segSize := sg_size s;
         source := (fun r => (f_size r, f_state r, f_layout r)) <$> src |})
    (left_join (file_rows d (sg_source s)))) (file_segments d f).

(** The row of the query of [ensurePhysicalFileDeletionRefsComplete]: the
    declared part count, the parts found, and those with a live delete state. *)
Definition deletion_refs_row (d : DB) (f : Z) : option (Z * Z * Z) :=
  match file_rows d f with
  | [] => None
  | file :: _ =>
      let joined := flat_map (fun p => left_join (sql_select (fun s =>
            (d_file_id s =? p_file_id p) && (d_part_id s =? p_part_id p) &&
            bool_decide (d_state s = DsLive)) (t_delete d)))
          (sql_select (fun p => p_file_id p =? f) (t_part d)) in
      Some (f_part_count file, zlen joined,
            zlen (List.filter (fun o => bool_decide (is_Some o)) joined))
  end.

Definition validStoredCompositeSegment (segment : storedCompositeSegment)
    (expectedIndex currentSize finalSize : Z) : bool :=
  (index segment =? expectedIndex) &&
  match source segment with
  | None => false
  | Some (sourceSize, sourceState, sourceLayout) =>
      (sourceState =? FileStateReady) && (sourceLayout =? 1) &&
      (sourceSize =? segSize segment) && (0 <=? segSize segment) &&
      (currentSize <=? finalSize - segSize segment)
  end.

(** The UPDATE of [markFileTreePendingIfUnreferenced]. *)
Definition set_pending (now : Z) (r : delete_row) : delete_row :=
  {| d_file_id := d_file_id r; d_part_id := d_part_id r; d_backend := d_backend r;
     d_ref := d_ref r; d_uploaded_at := d_uploaded_at r; d_state := DsPending;
     d_attempts := d_attempts r; d_next_at := now; d_lease := 0;
     d_last_attempt := d_last_attempt r; d_error := d_error r;
     d_deleted_at := d_deleted_at r; d_ctime := d_ctime r; d_mtime := now |}.

Section References.
Context `{!Env}.

Definition readStoredFile (f : Z) : M World (option storedFileRecord) :=
  query (fun d => to_record <$> head (file_rows d f)).

Definition fileHasLiveReference (f : Z) : M World bool :=
  count ← query (fun d => count_pins d f);
  if negb (count =? 0) then mret true
  else
    count ← query (fun d => count_mappings d f);
    if negb (count =? 0) then mret true
    else
      count ← query (fun d => count_composites d f);
      if negb (count =? 0) then mret true
      else
        count ← query (fun d => count_multipart d f);
        mret (negb (count =? 0)).

Definition ensurePhysicalFileLive (f : Z) : M World unit :=
  nonLive ← query (fun d => sql_count (fun r =>
    (d_file_id r =? f) && negb (bool_decide (d_state r = DsLive))) (t_delete d));
  check (negb (nonLive =? 0)) ErrS3ObjectConflict.

Definition ensurePhysicalFileDeletionRefsComplete (f : Z) : M World unit :=
  row ← query (fun d => deletion_refs_row d f);
  match row with
  | None => fail ErrS3ObjectConflict
  | Some (declaredParts, physicalParts, liveDeleteStates) =>
      check (negb (physicalParts =? declaredParts) || negb (liveDeleteStates =? declaredParts))
        ErrS3ObjectConflict
  end.

Definition ensureCompositeFileLive (record : storedFileRecord) : M World unit :=
  rows ← query (fun d => manifest_rows d (fileID record));
  r ← fold_each (fun (acc : Z * Z) segment =>
        let '(idx, total) := acc in
        _ ← check (negb (validStoredCompositeSegment segment idx total (size record)))
              ErrS3ObjectConflict;
        _ ← ensurePhysicalFileLive (sourceFileID segment);
        _ ← ensurePhysicalFileDeletionRefsComplete (sourceFileID segment);
        mret (idx + 1, total + segSize segment)) (0, 0) rows;
  let '(idx, total) := r in
  check ((idx =? 0) || negb (total =? size record)) ErrS3ObjectConflict.

Definition ensureFileTreeCanBeLinked (f : Z) : M World unit :=
  record ← readStoredFile f;
  match record with
  | None => fail ErrS3ObjectConflict
  | Some record =>
      if negb (state record =? FileStateReady) then fail ErrS3ObjectConflict
      else if layout record =? 1 then ensurePhysicalFileLive f
      else if layout record =? 2 then ensureCompositeFileLive record
      else fail ErrInvalidFileLayout
  end.

Definition compositeSourceFileIDs (f : Z) : M World (list Z) :=
  query (fun d => map sg_source (file_segments d f)).

Fixpoint markFileTree_loop (fuel : nat) (f now : Z) : M World unit :=
  match fuel with
  | O => fail Diverge
  | S fuel =>
      referenced ← fileHasLiveReference f;
      if (referenced : bool) then mret tt
      else
        record ← readStoredFile f;
        match record with
        | None => fail ErrS3ObjectConflict
        | Some record =>
            if layout record =? 1 then
              upd (set_delete (sql_update (fun r =>
                (d_file_id r =? f) && bool_decide (d_state r = DsLive)) (set_pending now)))
            else if layout record =? 2 then
              sources ← compositeSourceFileIDs f;
              for_each (fun src => markFileTree_loop fuel src now) sources
            else fail ErrInvalidFileLayout
        end
  end.

(** The recursion goes from a composite file to its sources; each level needs a
    file of its own unless the segments form a cycle. *)
Definition markFileTreePendingIfUnreferenced (f now : Z) : M World unit :=
  fuel ← query (fun d => S (S (length (t_file d))));
  markFileTree_loop fuel f now.

Definition DiscardUnpublishedFile (f : Z) : M World unit :=
  t ← now;
  OnTransation (markFileTreePendingIfUnreferenced f t).
End References.
End References.
Import References.

(** ** What the queries decide *)

Definition mapped (d : DB) (f : Z) : Prop :=
  exists r, r ∈ t_mapping d /\ RefData_ r = FormatUint f.

Inductive referenced (d : DB) (f : Z) : Prop :=
  | ref_pin p : p ∈ t_pin d -> pin_file_id p = f -> referenced d f
  | ref_mapping : mapped d f -> referenced d f
  | ref_composite s : s ∈ t_segment d -> sg_source s = f -> mapped d (sg_file_id s) -> referenced d f
  | ref_upload p u : p ∈ t_mpart d -> mp_file_id p = f -> mp_active p = true ->
      u ∈ t_upload d -> u_upload_id u = mp_upload_id p -> u_active u = true -> referenced d f.

Definition has_ref (d : DB) (f : Z) : bool :=
  negb (count_pins d f =? 0) || negb (count_mappings d f =? 0) ||
  negb (count_composites d f =? 0) || negb (count_multipart d f =? 0).

(** No block of the file is on its way out. *)
Definition live (d : DB) (f : Z) : Prop :=
  forall r, r ∈ t_delete d -> d_file_id r = f -> d_state r = DsLive.

Lemma sql_count_pos {R} (p : R -> bool) t :
  negb (sql_count p t =? 0) = true <-> exists r, r ∈ t /\ p r = true.
Proof.
  rewrite negb_true_iff, Z.eqb_neq, sql_count_zero, <- sql_exists_true.
  rewrite <- sql_exists_false. by destruct (sql_exists p t).
Qed.

Lemma sql_count_nonneg {R} (p : R -> bool) t : 0 <= sql_count p t.
Proof. unfold sql_count. lia. Qed.

Lemma sum_count_pos {A} (g : A -> Z) l :
  (forall a, 0 <= g a) ->
  negb (sumZ (map g l) =? 0) = true <-> exists a, a ∈ l /\ negb (g a =? 0) = true.
Proof.
  intros Hg. rewrite negb_true_iff, Z.eqb_neq.
  induction l as [|a l IH]; [split; [done|intros (? & ?%elem_of_nil & _); done]|].
  assert (0 <= sumZ (map g l)) as Hl.
  { apply sumZ_nonneg, Forall_fmap, Forall_true. intros; apply Hg. }
  change (sumZ (map g (a :: l))) with (g a + sumZ (map g l)). split.
  - intros Hne. destruct (decide (g a = 0)) as [E|E].
    + destruct (proj1 IH) as (b & Hb & ?); [lia|]. exists b. by split; [right|].
    + exists a. split; [left|]. by apply negb_true_iff, Z.eqb_neq.
  - intros (b & Hb & Hgb). apply negb_true_iff, Z.eqb_neq in Hgb. pose proof (Hg a).
    apply elem_of_cons in Hb as [-> |Hb]; [lia|].
    enough (sumZ (map g l) <> 0) by lia. apply IH. exists b. split; [done|].
    by apply negb_true_iff, Z.eqb_neq.
Qed.

Lemma count_mappings_spec d f : negb (count_mappings d f =? 0) = true <-> mapped d f.
Proof.
  unfold count_mappings, mapped. rewrite sql_count_pos. by setoid_rewrite bool_decide_eq_true.
Qed.

Lemma count_composites_spec d f :
  negb (count_composites d f =? 0) = true <->
  exists s, s ∈ t_segment d /\ sg_source s = f /\ mapped d (sg_file_id s).
Proof.
  unfold count_composites. rewrite sum_count_pos by (intros; apply sql_count_nonneg).
  split; intros (s & Hs); exists s; rewrite sql_select_elem, count_mappings_spec, Z.eqb_eq in *;
    tauto.
Qed.

Lemma count_multipart_spec d f :
  negb (count_multipart d f =? 0) = true <->
  exists p u, p ∈ t_mpart d /\ mp_file_id p = f /\ mp_active p = true /\
    u ∈ t_upload d /\ u_upload_id u = mp_upload_id p /\ u_active u = true.
Proof.
  unfold count_multipart. rewrite sum_count_pos by (intros; apply sql_count_nonneg). split.
  - intros (p & [Hp Ha]%sql_select_elem & (u & Hu & Hq)%sql_count_pos).
    apply andb_true_iff in Ha as [?%Z.eqb_eq ?]. apply andb_true_iff in Hq as [?%bool_decide_eq_true ?].
    by exists p, u.
  - intros (p & u & Hp & Hf & Ha & Hu & Hid & Hact). exists p.
    rewrite sql_select_elem, sql_count_pos, Ha, Hf, Z.eqb_refl. split; [done|].
    exists u. by rewrite Hact, bool_decide_eq_true_2.
Qed.

Lemma has_ref_spec d f : has_ref d f = true <-> referenced d f.
Proof.
  unfold has_ref. rewrite !orb_true_iff, count_mappings_spec, count_composites_spec,
    count_multipart_spec. unfold count_pins. rewrite sql_count_pos. split.
  - intros [[[(p & Hp & E%Z.eqb_eq)|?]|(s & ? & ? & ?)]|(p & u & ? & ? & ? & ? & ? & ?)];
      [by eapply ref_pin|by apply ref_mapping|by eapply ref_composite|by eapply ref_upload].
  - intros [p Hp E|Hm|s Hs E Hm|p u Hp E Ha Hu Ei Hact].
    + do 3 left. exists p. by rewrite Z.eqb_eq.
    + left. left. by right.
    + left. right. by exists s.
    + right. by exists p, u.
Qed.

Section Queries.
Context `{!Env}.

Lemma fileHasLiveReference_eq f w : fileHasLiveReference f w = (Ok (has_ref (db w) f), w).
Proof.
  unfold fileHasLiveReference, has_ref, query.
  rewrite (bind_ok (reads _) _ w (count_pins (db w) f) w eq_refl).
  destruct (negb (count_pins _ _ =? 0)); [done|].
  rewrite (bind_ok (reads _) _ w (count_mappings (db w) f) w eq_refl).
  destruct (negb (count_mappings _ _ =? 0)); [done|].
  rewrite (bind_ok (reads _) _ w (count_composites (db w) f) w eq_refl).
  by destruct (negb (count_composites _ _ =? 0)).
Qed.

Lemma live_count d f :
  sql_count (fun r => (d_file_id r =? f) && negb (bool_decide (d_state r = DsLive))) (t_delete d) = 0
  <-> live d f.
Proof.
  rewrite sql_count_zero. unfold live. split; intros Hl r Hr.
  - intros E. specialize (Hl r Hr). apply Z.eqb_eq in E. rewrite E in Hl. simpl in Hl.
    apply negb_false_iff, bool_decide_eq_true in Hl. done.
  - destruct (Z.eqb_spec (d_file_id r) f); [|done]. simpl.
    apply negb_false_iff, bool_decide_eq_true. by apply Hl.
Qed.

Lemma ensurePhysicalFileLive_eq f w :
  (live (db w) f /\ ensurePhysicalFileLive f w = (Ok tt, w)) \/
  (~ live (db w) f /\ ensurePhysicalFileLive f w = (Err ErrS3ObjectConflict, w)).
Proof.
  unfold ensurePhysicalFileLive, query, check.
  rewrite <- (live_count (db w) f).
  destruct (Z.eqb_spec (sql_count (fun r => (d_file_id r =? f) &&
    negb (bool_decide (d_state r = DsLive))) (t_delete (db w))) 0) as [E|E].
  - left. split; [done|]. unfold mbind, M_bind, reads. by rewrite E.
  - right. split; [done|]. unfold mbind, M_bind, reads. apply Z.eqb_neq in E. by rewrite E.
Qed.

Lemma deletionRefs_eq f w : exists res,
  ensurePhysicalFileDeletionRefsComplete f w = (res, w).
Proof.
  unfold ensurePhysicalFileDeletionRefsComplete, query, mbind, M_bind, reads.
  destruct (deletion_refs_row _ _) as [[[? ?] ?]|]; [|by eexists].
  unfold check. case_match; by eexists.
Qed.

(** The loop of [ensureCompositeFileLive] only reads, and an [Ok] result means
    that every row passed its tests. *)
Definition composite_body (record : storedFileRecord) (acc : Z * Z)
    (segment : storedCompositeSegment) : M World (Z * Z) :=
  let '(idx, total) := acc in
  _ ← check (negb (validStoredCompositeSegment segment idx total (size record)))
        ErrS3ObjectConflict;
  _ ← ensurePhysicalFileLive (sourceFileID segment);
  _ ← ensurePhysicalFileDeletionRefsComplete (sourceFileID segment);
  mret (idx + 1, total + segSize segment).

Lemma composite_body_ok record acc seg w a w' :
  composite_body record acc seg w = (Ok a, w') ->
  w' = w /\ live (db w) (sourceFileID seg) /\
  validStoredCompositeSegment seg acc.1 acc.2 (size record) = true /\
  a = (acc.1 + 1, acc.2 + segSize seg) /\
  ensurePhysicalFileDeletionRefsComplete (sourceFileID seg) w = (Ok tt, w).
Proof.
  destruct acc as [idx total]. unfold composite_body. intros Hrun.
  unfold check in Hrun. destruct (validStoredCompositeSegment _ _ _ _) eqn:Ev; [|done].
  cbn [negb] in Hrun. rewrite (bind_ok (mret tt) _ w tt w eq_refl) in Hrun.
  destruct (ensurePhysicalFileLive_eq (sourceFileID seg) w) as [[Hl E]|[_ E]].
  2: { by rewrite (bind_err _ _ _ _ _ E) in Hrun. }
  rewrite (bind_ok _ _ _ _ _ E) in Hrun.
  destruct (deletionRefs_eq (sourceFileID seg) w) as ([[]|e] & E2).
  2: { by rewrite (bind_err _ _ _ _ _ E2) in Hrun. }
  rewrite (bind_ok _ _ _ _ _ E2) in Hrun. by injection Hrun as <- <-.
Qed.

Lemma composite_loop_ok record rows acc w a w' :
  fold_each (composite_body record) acc rows w = (Ok a, w') ->
  w' = w /\ forall seg, seg ∈ rows ->
    live (db w) (sourceFileID seg) /\
    ensurePhysicalFileDeletionRefsComplete (sourceFileID seg) w = (Ok tt, w).
Proof.
  revert acc. induction rows as [|seg rows IH]; intros acc Hrun.
  { injection Hrun as _ <-. split; [done|]. intros seg Hseg. by apply elem_of_nil in Hseg. }
  cbn [fold_each] in Hrun. run_inv Hrun. apply composite_body_ok in Hrun0 as (-> & Hl & _ & _ & Hd).
  apply IH in Hrun as [-> Hall]. split; [done|].
  intros seg' [-> |Hin]%elem_of_cons; [done|by apply Hall].
Qed.
End Queries.
