(* ===== verification/RefInv.v ===== *)
(** * Referenced files keep their blocks: the invariant

    What must hold of the file, segment, mapping and delete-state tables so that
    no block of a referenced file is ever given to the block store for deletion,
    and how linking, unlinking and queueing for deletion keep it. *)

From stdpp Require Import base strings list.
From S2P Require Import Prelude GoStr Store Directory DirFrame References.
Import References.

(** Composite files have layout 2 and point to files of layout 1; only blocks of
    files of layout 1 are ever queued for deletion; file ids fit an INTEGER column;
    delete states belong to parts, the parts of multipart uploads to uploads, and the
    files of an import to files of their layout. *)
Record wf_files (d : DB) : Prop := {
  wf_file_ids : NoDup (f_file_id <$> t_file d);
  wf_file_range : forall r, r ∈ t_file d -> 0 < f_file_id r < 2 ^ 63;
  wf_segment_file : forall s, s ∈ t_segment d ->
    exists r, r ∈ t_file d /\ f_file_id r = sg_file_id s /\ f_layout r = 2;
  wf_segment_source : forall s, s ∈ t_segment d ->
    exists r, r ∈ t_file d /\ f_file_id r = sg_source s /\ f_layout r = 1;
  wf_delete_keys : NoDup ((fun q => (d_file_id q, d_part_id q)) <$> t_delete d);
  wf_queued : forall q, q ∈ t_delete d -> d_state q <> DsLive ->
    exists r, r ∈ t_file d /\ f_file_id r = d_file_id q /\ f_layout r = 1;
  wf_delete_part : forall q, q ∈ t_delete d ->
    exists p, p ∈ t_part d /\ p_file_id p = d_file_id q /\ p_part_id p = d_part_id q;
  wf_upload_ids : NoDup (u_upload_id <$> t_upload d);
  wf_mpart_upload : forall p, p ∈ t_mpart d ->
    exists u, u ∈ t_upload d /\ u_upload_id u = mp_upload_id p }.

Definition safe (d : DB) : Prop := forall f, referenced d f -> live d f.

Record file_inv (d : DB) : Prop := { inv_wf : wf_files d; inv_safe : safe d }.

Section Wf.
Context (d : DB) (Hwf : wf_files d).

Lemma file_row_inj r1 r2 :
  r1 ∈ t_file d -> r2 ∈ t_file d -> f_file_id r1 = f_file_id r2 -> r1 = r2.
Proof using Hwf. apply NoDup_fmap_inj, Hwf. Qed.

Lemma file_rows_head f r :
  head (file_rows d f) = Some r <-> r ∈ t_file d /\ f_file_id r = f.
Proof using Hwf.
  unfold file_rows. split.
  - intros Hr. apply head_Some_elem_of, sql_select_elem in Hr as [? ?%Z.eqb_eq]. done.
  - intros [Hr Hf]. assert (r ∈ sql_select (fun r => f_file_id r =? f) (t_file d)) as Hin.
    { apply sql_select_elem. by rewrite Z.eqb_eq. }
    destruct (sql_select _ _) as [|r' l] eqn:E; [by apply elem_of_nil in Hin|]. simpl. f_equal.
    assert (r' ∈ sql_select (fun r => f_file_id r =? f) (t_file d)) as Hin' by (rewrite E; left).
    apply sql_select_elem in Hin' as [? ?%Z.eqb_eq]. apply file_row_inj; [done..|congruence].
Qed.

Lemma file_layout_inj r1 r2 a b :
  r1 ∈ t_file d -> r2 ∈ t_file d -> f_file_id r1 = f_file_id r2 ->
  f_layout r1 = a -> f_layout r2 = b -> a = b.
Proof using Hwf. intros H1 H2 E <- <-. by rewrite (file_row_inj r1 r2). Qed.
End Wf.

(** ** What may be linked *)

(** Linking [f] references [f] and, when it is composite, its sources. *)
Definition linkable (d : DB) (f : Z) : Prop :=
  live d f /\ forall s, s ∈ t_segment d -> sg_file_id s = f -> live d (sg_source s).

Lemma manifest_rows_elem d f s :
  s ∈ t_segment d -> sg_file_id s = f ->
  exists m, m ∈ manifest_rows d f /\ sourceFileID m = sg_source s.
Proof.
  intros Hs Hf. unfold manifest_rows, left_join.
  destruct (file_rows d (sg_source s)) as [|r l] eqn:E;
    eexists; (split; [|reflexivity || idtac]).
  - apply list_elem_of_In, in_flat_map. exists s. split.
    { apply list_elem_of_In, order_by_elem, sql_select_elem. by rewrite Z.eqb_eq. }
    rewrite E. left. reflexivity.
  - done.
  - apply list_elem_of_In, in_flat_map. exists s. split.
    { apply list_elem_of_In, order_by_elem, sql_select_elem. by rewrite Z.eqb_eq. }
    rewrite E. left. reflexivity.
  - done.
Qed.

Section Ops.
Context `{!Env}.

Lemma readStoredFile_eq f w :
  readStoredFile f w = (Ok (to_record <$> head (file_rows (db w) f)), w).
Proof. done. Qed.

Lemma ensureFileTreeCanBeLinked_ok f w w' :
  wf_files (db w) -> ensureFileTreeCanBeLinked f w = (Ok tt, w') ->
  w' = w /\ linkable (db w) f /\ (exists r, r ∈ t_file (db w) /\ f_file_id r = f).
Proof.
  intros Hwf. unfold ensureFileTreeCanBeLinked.
  rewrite (bind_ok _ _ _ _ _ (readStoredFile_eq f w)).
  destruct (head (file_rows (db w) f)) as [r|] eqn:Er; [|done].
  apply file_rows_head in Er as [Hr Hf]; [|done]. cbn [fmap option_fmap option_map to_record state layout].
  destruct (negb _); [done|].
  destruct (Z.eqb_spec (f_layout r) 1) as [El|].
  { intros Hrun. destruct (ensurePhysicalFileLive_eq f w) as [[Hl E]|[_ E]]; rewrite E in Hrun; [|done].
    injection Hrun as <-. split; [done|]. split; [|by exists r]. split; [done|].
    intros s Hs Hsf. destruct (wf_segment_file _ Hwf s Hs) as (r2 & Hr2 & E2 & L2).
    pose proof (file_layout_inj _ Hwf r r2 1 2 Hr Hr2 ltac:(congruence) El L2). done. }
  destruct (Z.eqb_spec (f_layout r) 2) as [El|]; [|done]. intros Hrun.
  unfold ensureCompositeFileLive in Hrun.
  rewrite (bind_ok (query _) _ w _ w eq_refl) in Hrun. run_inv Hrun.
  apply (composite_loop_ok (to_record r)) in Hrun0 as [-> Hall]. destruct a as [idx total].
  unfold check in Hrun. case_match; [done|]. injection Hrun as <-.
  split; [done|]. split; [|by exists r]. split.
  - intros q Hq Hqf. destruct (decide (d_state q = DsLive)) as [|Hn]; [done|].
    destruct (wf_queued _ Hwf q Hq Hn) as (r2 & Hr2 & E2 & L2).
    pose proof (file_layout_inj _ Hwf r r2 2 1 Hr Hr2 ltac:(congruence) El L2). done.
  - intros s Hs Hsf. cbn [to_record fileID] in Hall. rewrite Hf in Hall.
    destruct (manifest_rows_elem (db w) f s Hs Hsf) as (m & Hm & <-). by apply Hall.
Qed.
End Ops.

(** ** Steps that keep the invariant *)

(** A change of the mapping table that writes no content references but those in
    [X] and those that were there. *)
Lemma referenced_refs (d d' : DB) (X : string -> Prop) f :
  other_tables d' = other_tables d ->
  (forall r, r ∈ t_mapping d' -> X (RefData_ r) \/ exists r0, r0 ∈ t_mapping d /\ RefData_ r0 = RefData_ r) ->
  referenced d' f ->
  referenced d f \/ X (FormatUint f) \/
  (exists s, s ∈ t_segment d /\ sg_source s = f /\ X (FormatUint (sg_file_id s))).
Proof.
  unfold other_tables. intros [= E1 E2 E3 E4 E5 E6 E7 E8 E9 E10 E11 E12 _ _] HX.
  assert (forall g, mapped d' g -> mapped d g \/ X (FormatUint g)) as Hmap.
  { intros g (r & Hr & Hg). destruct (HX r Hr) as [Hx|(r0 & Hr0 & E0)].
    - right. by rewrite <- Hg.
    - left. exists r0. split; [done|congruence]. }
  intros [p Hp E|Hm|s Hs E Hm|p u Hp E Ha Hu Ei Hact].
  - left. eapply ref_pin; [|done]. by rewrite <- E10.
  - destruct (Hmap f Hm); [left; by apply ref_mapping|right; by left].
  - rewrite E4 in Hs. destruct (Hmap _ Hm); [left; by eapply ref_composite|].
    right; right. by exists s.
  - left. rewrite E8 in Hp. rewrite E7 in Hu. by eapply ref_upload.
Qed.

Lemma wf_files_other d d' : other_tables d' = other_tables d -> wf_files d -> wf_files d'.
Proof.
  unfold other_tables. intros [= E1 E2 E3 E4 E5 E6 E7 E8 E9 E10 E11 E12 _ E14] [].
  split; rewrite ?E1, ?E2, ?E3, ?E4, ?E7, ?E8, ?E14; done.
Qed.

Lemma live_other d d' f : other_tables d' = other_tables d -> live d f -> live d' f.
Proof. unfold other_tables, live. intros [= _ _ E _ _ _ _ _ _ _ _ _ _ _]. by rewrite E. Qed.

(** To show a file live it is enough to look at files with queued blocks. *)
Lemma live_by_range d f :
  wf_files d -> (0 < f < 2 ^ 63 -> live d f) -> live d f.
Proof.
  intros Hwf Hl q Hq Hqf. destruct (decide (d_state q = DsLive)) as [|Hn]; [done|].
  destruct (wf_queued _ Hwf q Hq Hn) as (r & Hr & E & _).
  apply (Hl ltac:(rewrite <- Hqf, <- E; by apply Hwf) q Hq Hqf).
Qed.

Lemma file_id_inj n m : 0 < n < 2 ^ 63 -> 0 < m < 2 ^ 63 -> FormatUint n = FormatUint m -> n = m.
Proof. intros. apply FormatUint_inj; [lia..|done]. Qed.

Lemma FormatUint_ne n : FormatUint n <> "".
Proof. by apply format_digits_ne. Qed.

(** Writing references to one linkable file, and dropping references. *)
Lemma link_keeps_inv d d' f :
  file_inv d -> other_tables d' = other_tables d ->
  0 < f < 2 ^ 63 -> linkable d f ->
  (forall r, r ∈ t_mapping d' ->
     (RefData_ r = "" \/ RefData_ r = FormatUint f) \/
     exists r0, r0 ∈ t_mapping d /\ RefData_ r0 = RefData_ r) ->
  file_inv d'.
Proof.
  intros [Hwf Hsafe] Hother Hf [Hlive Hsrc] Hrefs. split; [by eapply wf_files_other|].
  intros g Hg. apply (live_other d); [done|].
  destruct (referenced_refs d d' (fun s => s = "" \/ s = FormatUint f) g Hother Hrefs Hg)
    as [Hr|[[Hx|Hx]|(s & Hs & Hsg & [Hx|Hx])]]; try (by apply FormatUint_ne in Hx).
  - by apply Hsafe.
  - apply live_by_range; [done|]. intros Hrg. by rewrite (file_id_inj g f Hrg Hf Hx).
  - destruct (wf_segment_file _ Hwf s Hs) as (r & Hr & E & _).
    rewrite <- Hsg. apply Hsrc; [done|]. apply file_id_inj; [|done|done].
    rewrite <- E. by apply Hwf.
Qed.

Lemma unlink_keeps_inv d d' :
  file_inv d -> other_tables d' = other_tables d ->
  (forall r, r ∈ t_mapping d' ->
     RefData_ r = "" \/ exists r0, r0 ∈ t_mapping d /\ RefData_ r0 = RefData_ r) ->
  file_inv d'.
Proof.
  intros [Hwf Hsafe] Hother Hrefs. split; [by eapply wf_files_other|].
  intros g Hg. apply (live_other d); [done|].
  destruct (referenced_refs d d' (fun s => s = "") g Hother Hrefs Hg)
    as [Hr|[Hx|(s & Hs & Hsg & Hx)]]; try (by apply FormatUint_ne in Hx). by apply Hsafe.
Qed.

(** ** Steps of the delete states *)

(** A row stays with its block; it leaves [live] only when its file is an
    unreferenced file of layout 1, and never comes back. *)
Definition delete_step (d : DB) (q q' : delete_row) : Prop :=
  d_file_id q' = d_file_id q /\ d_part_id q' = d_part_id q /\ d_ref q' = d_ref q /\
  (d_state q <> DsLive -> d_state q' <> DsLive) /\
  (d_state q = DsLive -> d_state q' <> DsLive ->
     ~ referenced d (d_file_id q) /\
     exists r, r ∈ t_file d /\ f_file_id r = d_file_id q /\ f_layout r = 1).

(** Only the delete states change, row by row. *)
Record delete_rel (d d' : DB) : Prop := {
  dr_tables : d' = set_delete (fun _ => t_delete d') d;
  dr_rows : Forall2 (delete_step d) (t_delete d) (t_delete d') }.

Lemma referenced_delete d f g : referenced (set_delete f d) g <-> referenced d g.
Proof. split; intros []; by econstructor. Qed.

Lemma delete_step_refl d q : delete_step d q q.
Proof. by split_and!. Qed.

Lemma delete_rel_refl d : delete_rel d d.
Proof.
  split; [by destruct d|]. apply Forall_Forall2_diag, Forall_true. apply delete_step_refl.
Qed.

Lemma Forall2_comp {A B C} (P : A -> B -> Prop) (Q : B -> C -> Prop) (R : A -> C -> Prop) l k m :
  (forall x y z, P x y -> Q y z -> R x z) -> Forall2 P l k -> Forall2 Q k m -> Forall2 R l m.
Proof.
  intros HPQ HP. revert m. induction HP; intros m HQ; inversion HQ; subst; constructor; eauto.
Qed.

Lemma delete_rel_trans d1 d2 d3 : delete_rel d1 d2 -> delete_rel d2 d3 -> delete_rel d1 d3.
Proof.
  intros [E1 H1] [E2 H2]. split.
  - rewrite E2. rewrite E1. done.
  - eapply Forall2_comp; [|exact H1|exact H2].
    intros q1 q2 q3 (Ef & Ep & Er & Hs & Hl) (Ef' & Ep' & Er' & Hs' & Hl').
    split_and!; [congruence..|by auto|]. intros Hq1 Hq3.
    destruct (decide (d_state q2 = DsLive)) as [Hq2|Hq2]; [|by apply Hl].
    destruct (Hl' Hq2 Hq3) as [Hnr Hex]. rewrite E1, Ef in Hnr. rewrite referenced_delete in Hnr.
    split; [done|]. rewrite E1, Ef in Hex. done.
Qed.

Lemma delete_rel_update d p f :
  (forall q, q ∈ t_delete d -> p q = true -> delete_step d q (f q)) ->
  delete_rel d (set_delete (sql_update p f) d).
Proof.
  intros Hf. split; [done|]. cbn [t_delete set_delete]. unfold sql_update.
  apply Forall2_fmap_r, Forall_Forall2_diag, Forall_forall. intros q Hq.
  change (delete_step d q (if p q then f q else q)). destruct (p q) eqn:E; [by apply Hf|apply delete_step_refl].
Qed.

Lemma delete_rows_keys d l l' : Forall2 (delete_step d) l l' ->
  (fun q => (d_file_id q, d_part_id q)) <$> l = (fun q => (d_file_id q, d_part_id q)) <$> l'.
Proof.
  induction 1 as [|q q' l l' (E1 & E2 & _) _ IH]; [done|]. by rewrite !fmap_cons, IH, E1, E2.
Qed.

Lemma delete_rel_row d d' q' :
  delete_rel d d' -> q' ∈ t_delete d' -> exists q, q ∈ t_delete d /\ delete_step d q q'.
Proof.
  intros [_ Hrows] Hq'. apply list_elem_of_lookup in Hq' as [i Hi].
  eapply Forall2_lookup_r in Hrows as (q & Hq & Hst); [|exact Hi].
  exists q. split; [by eapply list_elem_of_lookup_2|done].
Qed.

Lemma delete_rel_wf d d' : delete_rel d d' -> wf_files d -> wf_files d'.
Proof.
  intros Hrel Hwf. pose proof (delete_rel_row d d') as Hrow. destruct (Hrel) as [Et Hrows].
  destruct Hwf as [Hids Hrange Hsf Hss Hk Hq Hdp Hu Hmu].
  split; [rewrite Et; simpl; done..|by rewrite <- (delete_rows_keys _ _ _ Hrows)| | | |]; [| |by rewrite Et..].
  - intros q' Hq' Hn. destruct (Hrow q' Hrel Hq') as (q & Hqin & E & _ & _ & Hstay & Hleave).
    rewrite E. rewrite Et. simpl.
    destruct (decide (d_state q = DsLive)) as [El|]; [by apply Hleave|by apply Hq].
  - intros q' Hq'. destruct (Hrow q' Hrel Hq') as (q & Hqin & E & Ep & _).
    rewrite E, Ep, Et. by apply Hdp.
Qed.

Lemma delete_rel_inv d d' : delete_rel d d' -> file_inv d -> file_inv d'.
Proof.
  intros Hrel [Hwf Hsafe]. split; [by eapply delete_rel_wf|].
  intros g Hg q' Hq' <-.
  destruct (delete_rel_row d d' q' Hrel Hq') as (q & Hqin & E & _ & _ & Hstay & Hleave).
  rewrite (dr_tables _ _ Hrel), referenced_delete, E in Hg.
  destruct (decide (d_state q' = DsLive)) as [|Hn]; [done|].
  assert (d_state q = DsLive) as El by (by apply (Hsafe _ Hg)).
  by destruct (Hleave El Hn).
Qed.

(** A program whose effect on the database is such a step, whatever it returns. *)
Definition delete_only `{!Env} {A} (m : M World A) : Prop :=
  forall w, file_inv (db w) -> delete_rel (db w) (db (m w).2).

Section DeleteOnly.
Context `{!Env}.

Lemma delete_only_same {A} (m : M World A) : (forall w, db (m w).2 = db w) -> delete_only m.
Proof. intros Hm w Hw. rewrite Hm. apply delete_rel_refl. Qed.

Lemma delete_only_bind {A B} (m : M World A) (f : A -> M World B) :
  delete_only m -> (forall a, delete_only (f a)) -> delete_only (m ≫= f).
Proof.
  intros Hm Hf w Hw. specialize (Hm w Hw). unfold mbind, M_bind.
  destruct (m w) as [[a|e] w'] eqn:E; [|done].
  eapply delete_rel_trans; [exact Hm|]. apply Hf. by eapply delete_rel_inv.
Qed.

Lemma delete_only_for_each {A} (f : A -> M World unit) l :
  (forall a, delete_only (f a)) -> delete_only (for_each f l).
Proof.
  intros Hf. induction l; simpl; [by apply delete_only_same|]. by apply delete_only_bind.
Qed.

Lemma delete_only_fold_each {A B} (f : B -> A -> M World B) l acc :
  (forall b a, delete_only (f b a)) -> delete_only (fold_each f acc l).
Proof.
  intros Hf. revert acc. induction l; intros acc; simpl; [by apply delete_only_same|].
  by apply delete_only_bind.
Qed.

Lemma delete_only_tx {A} (m : M World A) : delete_only m -> delete_only (OnTransation m).
Proof.
  intros Hm w Hw. specialize (Hm w Hw). unfold OnTransation.
  destruct (m w) as [[a|e] w']; [done|apply delete_rel_refl].
Qed.

Lemma markFileTree_loop_delete fuel f t : delete_only (markFileTree_loop fuel f t).
Proof.
  revert f. induction fuel as [|fuel IH]; intros f; cbn [markFileTree_loop];
    [by apply delete_only_same|].
  intros w Hw. rewrite (bind_ok _ _ _ _ _ (fileHasLiveReference_eq f w)).
  destruct (has_ref (db w) f) eqn:Eref; [apply delete_rel_refl|].
  rewrite (bind_ok _ _ _ _ _ (readStoredFile_eq f w)).
  destruct (head (file_rows (db w) f)) as [r|] eqn:Er; [|apply delete_rel_refl].
  apply file_rows_head in Er as [Hr Hf]; [|apply Hw].
  cbn [fmap option_fmap option_map to_record layout].
  destruct (Z.eqb_spec (f_layout r) 1) as [El|].
  - apply delete_rel_update. intros q Hq [Eq _]%andb_true_iff. apply Z.eqb_eq in Eq.
    split_and!; try done. intros _ _. rewrite Eq. split; [|by exists r].
    rewrite <- has_ref_spec, Eref. done.
  - destruct (f_layout r =? 2); [|apply delete_rel_refl].
    rewrite (bind_ok (compositeSourceFileIDs f) _ w _ w eq_refl).
    by apply delete_only_for_each.
Qed.

Lemma mark_delete f t : delete_only (markFileTreePendingIfUnreferenced f t).
Proof.
  apply delete_only_bind; [by apply delete_only_same|]. intros. apply markFileTree_loop_delete.
Qed.

Lemma DiscardUnpublishedFile_delete f : delete_only (DiscardUnpublishedFile f).
Proof.
  apply delete_only_bind; [by apply delete_only_same|]. intros. apply delete_only_tx, mark_delete.
Qed.
End DeleteOnly.

(** ** What queueing a file for deletion does, exactly *)

(** The files whose blocks hold the content of [f]. *)
Definition leaves (d : DB) (f : Z) : list Z :=
  match head (file_rows d f) with
  | Some r => if f_layout r =? 1 then [f] else map sg_source (file_segments d f)
  | None => []
  end.

(** The block is live and belongs to one of [fs] that nothing references. *)
Definition to_queue (d : DB) (fs : list Z) (q : delete_row) : bool :=
  bool_decide (d_file_id q ∈ fs) && negb (has_ref d (d_file_id q)) && bool_decide (d_state q = DsLive).

Lemma sql_update_ext {R} (p p' : R -> bool) f t :
  (forall r, r ∈ t -> p r = p' r) -> sql_update p f t = sql_update p' f t.
Proof.
  unfold sql_update. induction t as [|r t IH]; intros Hp; [done|]. simpl.
  rewrite (Hp r) by left. f_equal. apply IH. intros. apply Hp. by right.
Qed.

Lemma sql_update_twice {R} (p p' : R -> bool) f t :
  (forall r, p r = true -> p' (f r) = false) ->
  sql_update p' f (sql_update p f t) = sql_update (fun r => p r || p' r) f t.
Proof.
  intros Hp. unfold sql_update. rewrite map_map. apply map_ext. intros r.
  destruct (p r) eqn:E; simpl; [by rewrite Hp|done].
Qed.

Lemma sql_update_none {R} (p : R -> bool) f t :
  (forall r, r ∈ t -> p r = false) -> sql_update p f t = t.
Proof.
  unfold sql_update. induction t as [|r t IH]; intros Hp; [done|]. simpl.
  rewrite (Hp r) by left. f_equal. apply IH. intros. apply Hp. by right.
Qed.

Lemma set_delete_twice d p p' (f : delete_row -> delete_row) :
  (forall r, p r = true -> p' (f r) = false) ->
  set_delete (sql_update p' f) (set_delete (sql_update p f) d) =
  set_delete (sql_update (fun r => p r || p' r) f) d.
Proof. intros Hp. unfold set_delete. f_equal. by apply sql_update_twice. Qed.

Lemma set_delete_ext d p p' (f : delete_row -> delete_row) :
  (forall q, q ∈ t_delete d -> p q = p' q) ->
  set_delete (sql_update p f) d = set_delete (sql_update p' f) d.
Proof. intros Hp. unfold set_delete. f_equal. by apply sql_update_ext. Qed.

(** An UPDATE of the delete states that matches nothing. *)
Lemma set_delete_none w p f :
  (forall q, q ∈ t_delete (db w) -> p q = false) -> with_db w (set_delete (sql_update p f) (db w)) = w.
Proof.
  intros Hp. unfold with_db, set_delete. rewrite sql_update_none by done.
  by destruct w as [[] ? ?].
Qed.

Lemma has_ref_delete d g f : has_ref (set_delete g d) f = has_ref d f.
Proof. done. Qed.

Section Mark.
Context `{!Env}.

Lemma mark_physical fuel f t w r :
  wf_files (db w) -> r ∈ t_file (db w) -> f_file_id r = f -> f_layout r = 1 ->
  markFileTree_loop (S fuel) f t w =
  (Ok tt, with_db w (set_delete (sql_update (to_queue (db w) [f]) (set_pending t)) (db w))).
Proof.
  intros Hwf Hr Hf El. cbn [markFileTree_loop].
  rewrite (bind_ok _ _ _ _ _ (fileHasLiveReference_eq f w)).
  destruct (has_ref (db w) f) eqn:Eref.
  { rewrite set_delete_none; [done|]. intros q _. unfold to_queue.
    destruct (bool_decide_reflect (d_file_id q ∈ [f])) as [E%list_elem_of_singleton|]; [|done].
    by rewrite E, Eref. }
  rewrite (bind_ok _ _ _ _ _ (readStoredFile_eq f w)).
  rewrite (proj2 (file_rows_head _ Hwf f r)) by done. cbn [fmap option_fmap option_map to_record layout].
  rewrite El. cbn [Z.eqb Pos.eqb]. unfold upd, modify, with_db. do 2 f_equal.
  unfold set_delete. f_equal. apply sql_update_ext. intros q _. unfold to_queue.
  destruct (Z.eqb_spec (d_file_id q) f) as [E|E].
  - rewrite (bool_decide_eq_true_2 (d_file_id q ∈ [f])) by (by apply list_elem_of_singleton).
    by rewrite E, Eref.
  - by rewrite (bool_decide_eq_false_2 (d_file_id q ∈ [f])) by (by rewrite list_elem_of_singleton).
Qed.

Lemma mark_sources fuel fs t w :
  wf_files (db w) ->
  (forall f, f ∈ fs -> exists r, r ∈ t_file (db w) /\ f_file_id r = f /\ f_layout r = 1) ->
  for_each (fun f => markFileTree_loop (S fuel) f t) fs w =
  (Ok tt, with_db w (set_delete (sql_update (to_queue (db w) fs) (set_pending t)) (db w))).
Proof.
  revert w. induction fs as [|f fs IH]; intros w Hwf Hfs.
  { rewrite set_delete_none; [done|]. by intros q _. }
  cbn [for_each]. destruct (Hfs f) as (r & Hr & Hf & El); [left|].
  rewrite (bind_ok _ _ _ _ _ (mark_physical fuel f t w r Hwf Hr Hf El)).
  rewrite IH.
  - f_equal. unfold with_db. cbn [db ticks ids]. f_equal. rewrite set_delete_twice.
    + apply set_delete_ext. intros q _. unfold to_queue. rewrite !has_ref_delete.
      destruct (decide (d_file_id q = f)) as [Eq|Eq].
      * rewrite (bool_decide_eq_true_2 (d_file_id q ∈ [f])) by (by apply list_elem_of_singleton).
        rewrite (bool_decide_eq_true_2 (d_file_id q ∈ f :: fs)) by (rewrite Eq; left).
        by destruct (bool_decide (d_file_id q ∈ fs)), (negb _), (bool_decide _).
      * rewrite (bool_decide_eq_false_2 (d_file_id q ∈ [f])) by (by rewrite list_elem_of_singleton).
        rewrite (bool_decide_ext (d_file_id q ∈ f :: fs) (d_file_id q ∈ fs)); [done|].
        rewrite elem_of_cons. naive_solver.
    + intros q _. unfold to_queue. cbn [d_state set_pending]. by rewrite andb_false_r.
  - apply (delete_rel_wf (db w)); [|done]. apply delete_rel_update. intros q Hq Hp.
    unfold to_queue in Hp. apply andb_true_iff in Hp as [[Hin Hnr]%andb_true_iff _].
    apply bool_decide_eq_true, list_elem_of_singleton in Hin. split_and!; try done.
    intros _ _. rewrite <- has_ref_spec. rewrite Hin in *. split; [|by exists r].
    by destruct (has_ref (db w) f).
  - intros g Hg. apply Hfs. by right.
Qed.

(** Layouts are 1 and 2, by a CHECK of the file table. *)
Lemma mark_eq f t w r :
  wf_files (db w) -> r ∈ t_file (db w) -> f_file_id r = f -> f_layout r = 1 \/ f_layout r = 2 ->
  markFileTreePendingIfUnreferenced f t w =
  (Ok tt, with_db w (set_delete (sql_update (fun q =>
     negb (has_ref (db w) f) && to_queue (db w) (leaves (db w) f) q) (set_pending t)) (db w))).
Proof.
  intros Hwf Hr Hf Hl. unfold markFileTreePendingIfUnreferenced, query.
  rewrite (bind_ok (reads _) _ w _ w eq_refl).
  set (fuel := S (length (t_file (db w)))).
  assert (leaves (db w) f = if f_layout r =? 1 then [f] else map sg_source (file_segments (db w) f)) as ->.
  { unfold leaves. by rewrite (proj2 (file_rows_head _ Hwf f r)). }
  destruct Hl as [El|El]; rewrite El; cbn [Z.eqb Pos.eqb].
  - rewrite (mark_physical _ f t w r Hwf Hr Hf El). do 2 f_equal. unfold set_delete. f_equal.
    apply sql_update_ext. intros q _. unfold to_queue.
    destruct (bool_decide (d_file_id q ∈ [f])) eqn:E; [|by rewrite andb_false_r].
    apply bool_decide_eq_true, list_elem_of_singleton in E. rewrite E.
    by destruct (has_ref (db w) f).
  - cbn [markFileTree_loop]. rewrite (bind_ok _ _ _ _ _ (fileHasLiveReference_eq f w)).
    destruct (has_ref (db w) f) eqn:Eref.
    { by rewrite set_delete_none by (by intros q _). }
    rewrite (bind_ok _ _ _ _ _ (readStoredFile_eq f w)).
    rewrite (proj2 (file_rows_head _ Hwf f r)) by done.
    cbn [fmap option_fmap option_map to_record layout]. rewrite El. cbn [Z.eqb Pos.eqb].
    rewrite (bind_ok (compositeSourceFileIDs f) _ w _ w eq_refl).
    apply mark_sources; [done|]. intros g Hg. apply list_elem_of_fmap in Hg as (s & -> & Hs).
    apply order_by_elem, sql_select_elem in Hs as [Hs _]. by apply Hwf.
Qed.
End Mark.
