(* ===== verification/DeleteWorker.v ===== *)
(** * The block delete worker (src/filemgr/block_delete_worker.go)

    Blocks queued for deletion are claimed in batches under a lease, deleted in
    the block store and their delete state is settled: deleted, retried later,
    failed, or expired when Telegram no longer lets the message be deleted. *)

From stdpp Require Import base strings list.
From S2P Require Import Prelude GoStr Store BlockIO References.
Import References.

(** What [errors.As] and [errors.Is] find in an error of [DeleteBlocks]. *)
Record DeleteFailure := { DeleteStatusCode : Z; DeleteRetryAfter : Z }.
Class ErrorView := {
  as_DeleteFailure : err -> option DeleteFailure;
  as_net_Error : err -> bool;
  is_context_error : err -> bool }.

Module DeleteWorker.

(** Durations and instants are nanoseconds, as in package time. *)
Definition Millisecond : Z := 1000000.
Definition Second : Z := 1000 * Millisecond.
Definition UnixMilli (t : Z) : Z := t / Millisecond.

Definition deleteLease : Z := 60 * Second.
Definition deleteDeadline : Z := 47 * 3600 * Second.
Definition deleteBatchSize : nat := 100.

Record blockDeleteWork := {
  fileID : Z; partID : Z; deleteRef : string; uploadedAt : Z; attemptCount : Z }.

(** The columns an UPDATE of the delete states sets. *)
Definition set_row (r : delete_row) (st : delete_state) (attempts next lease last : Z)
    (error : string) (deleted mtime : Z) : delete_row :=
  {| d_file_id := d_file_id r; d_part_id := d_part_id r; d_backend := d_backend r;
     d_ref := d_ref r; d_uploaded_at := d_uploaded_at r; d_state := st;
     d_attempts := attempts; d_next_at := next; d_lease := lease; d_last_attempt := last;
     d_error := error; d_deleted_at := deleted; d_ctime := d_ctime r; d_mtime := mtime |}.

Definition in_state (st : delete_state) (r : delete_row) : bool := bool_decide (d_state r = st).
Definition row_of (f p : Z) (r : delete_row) : bool := (d_file_id r =? f) && (d_part_id r =? p).

(** ORDER BY uploaded_at, file_id, file_part_id *)
Definition candidate_le (a b : delete_row) : bool :=
  (d_uploaded_at a <? d_uploaded_at b) ||
  ((d_uploaded_at a =? d_uploaded_at b) &&
   ((d_file_id a <? d_file_id b) ||
    ((d_file_id a =? d_file_id b) && (d_part_id a <=? d_part_id b)))).

Definition to_work (r : delete_row) : blockDeleteWork :=
  {| fileID := d_file_id r; partID := d_part_id r; deleteRef := d_ref r;
     uploadedAt := d_uploaded_at r; attemptCount := d_attempts r |}.

Definition attempted (w : blockDeleteWork) : blockDeleteWork :=
  {| fileID := fileID w; partID := partID w; deleteRef := deleteRef w;
     uploadedAt := uploadedAt w; attemptCount := attemptCount w + 1 |}.

Definition deleteBackoff (attempt : Z) : Z :=
  if attempt <=? 1 then Second
  else Z.min (Z.shiftl 1 (Z.min (attempt - 1) 4) * Second) (30 * Second).

Definition classifyDeleteFailure (failure : DeleteFailure) (attempt : Z) : string * bool * Z :=
  let status := DeleteStatusCode failure in
  if status =? 429 then
    let delay := DeleteRetryAfter failure in
    ("rate_limited", true, if delay <=? 0 then Second else delay)
  else if 500 <=? status then ("server", true, deleteBackoff attempt)
  else ("client", false, 0).

Section Worker.
Context `{!Env} {B : Type} `{!IBlockIO B} `{!ErrorView}.

Definition classifyBlockDeleteError (e : err) (attempt : Z) : string * bool * Z :=
  match as_DeleteFailure e with
  | Some failure => classifyDeleteFailure failure attempt
  | None =>
      if as_net_Error e then ("network", true, deleteBackoff attempt)
      else if is_context_error e then ("timeout", true, deleteBackoff attempt)
      else ("invalid_reference", false, 0)
  end.

Definition restoreExpiredDeleteLeases (backendKind : string) (nowMillis : Z) : M World unit :=
  upd (set_delete (sql_update
    (fun r => bool_decide (d_backend r = backendKind) && in_state DsDeleting r &&
              (d_lease r <=? nowMillis))
    (fun r => set_row r DsPending (d_attempts r) nowMillis 0 (d_last_attempt r) (d_error r)
                (d_deleted_at r) nowMillis))).

Definition queryPendingDeleteCandidates (backendKind : string) (nowMillis : Z)
    : M World (list blockDeleteWork) :=
  query (fun d => map to_work (sql_limit 0 deleteBatchSize (order_by candidate_le (sql_select
    (fun r => bool_decide (d_backend r = backendKind) && in_state DsPending r &&
              (d_next_at r <=? nowMillis)) (t_delete d))))).

Definition restoreFileDeleteState (f now : Z) : M World unit :=
  upd (set_delete (sql_update
    (fun r => (d_file_id r =? f) && (in_state DsPending r || in_state DsDeleting r))
    (fun r => set_row r DsLive (d_attempts r) 0 0 (d_last_attempt r) (d_error r)
                (d_deleted_at r) now))).

Definition expireBlockDelete (work : blockDeleteWork) (now : Z) : M World unit :=
  upd (set_delete (sql_update
    (fun r => row_of (fileID work) (partID work) r && (in_state DsPending r || in_state DsDeleting r))
    (fun r => set_row r DsExpired (d_attempts r) (d_next_at r) 0 (d_last_attempt r) "deadline"
                (d_deleted_at r) now))).

Definition claimDeleteCandidate (work : blockDeleteWork) (now : Z) : M World bool :=
  let nowMillis := UnixMilli now in
  referenced ← fileHasLiveReference (fileID work);
  if (referenced : bool) then
    _ ← restoreFileDeleteState (fileID work) nowMillis; mret false
  else if uploadedAt work + deleteDeadline / Millisecond <=? nowMillis then
    _ ← expireBlockDelete work nowMillis; mret false
  else
    let p := fun r => row_of (fileID work) (partID work) r && in_state DsPending r in
    count ← query (fun d => sql_count p (t_delete d));
    _ ← upd (set_delete (sql_update p (fun r =>
          set_row r DsDeleting (d_attempts r + 1) (d_next_at r) (UnixMilli (now + deleteLease))
            nowMillis (d_error r) (d_deleted_at r) nowMillis)));
    mret (count =? 1).

Definition claimBlockDeleteWork (backendKind : string) (now : Z) : M World (list blockDeleteWork) :=
  OnTransation (
    let nowMillis := UnixMilli now in
    _ ← restoreExpiredDeleteLeases backendKind nowMillis;
    candidates ← queryPendingDeleteCandidates backendKind nowMillis;
    fold_each (fun claimed work =>
      wasClaimed ← claimDeleteCandidate work now;
      mret (if (wasClaimed : bool) then claimed ++ [attempted work] else claimed)) [] candidates).

Definition finishBlockDeleteWork (works : list blockDeleteWork) (st : delete_state)
    (errorCode : string) (nextAttemptAt now : Z) : M World unit :=
  OnTransation (for_each (fun work =>
    let deletedAt := if decide (st = DsDeleted) then UnixMilli now else 0 in
    upd (set_delete (sql_update
      (fun r => row_of (fileID work) (partID work) r && in_state DsDeleting r)
      (fun r => set_row r st (d_attempts r) nextAttemptAt 0 (d_last_attempt r) errorCode
                  deletedAt (UnixMilli now))))) works).

(** What becomes of one work after a failure that is worth retrying. *)
Definition settle_retry (code : string) (next now : Z) (work : blockDeleteWork) : M World unit :=
  if next <? uploadedAt work * Millisecond + deleteDeadline
  then finishBlockDeleteWork [work] DsPending code (UnixMilli next) now
  else finishBlockDeleteWork [work] DsExpired "deadline" 0 now.

(** It calls itself once more, for one work at a time. *)
Fixpoint execute_loop (fuel : nat) (works : list blockDeleteWork) (now : Z)
    : M (World * B) unit :=
  match fuel with
  | O => fail Diverge
  | S fuel =>
      r ← attempt (on_store (DeleteBlocks (map deleteRef works)));
      match r with
      | Ok _ => on_db (finishBlockDeleteWork works DsDeleted "" 0 now)
      | Err e =>
          match works with
          | [] => fail Panic
          | first :: _ =>
              let '(code, retry, delay) := classifyBlockDeleteError e (attemptCount first) in
              if negb retry && Nat.ltb 1 (length works) then
                for_each (fun work => execute_loop fuel [work] now) works
              else if (retry : bool) then
                for_each (fun work => on_db (settle_retry code (now + delay) now work)) works
              else on_db (finishBlockDeleteWork works DsFailed code 0 now)
          end
      end
  end.
Definition executeBlockDeleteWork (works : list blockDeleteWork) (now : Z) : M (World * B) unit :=
  execute_loop 2 works now.

Definition processBlockDeleteBatch (now : Z) : M (World * B) unit :=
  backendKind ← reads (fun s => bio_name s.2);
  claimed ← on_db (claimBlockDeleteWork backendKind now);
  if bool_decide (claimed = []) then mret tt
  else executeBlockDeleteWork claimed now.

(** One batch per tick; errors are logged. *)
Definition RunBlockDeleteWorker (ticks : list Z) : M (World * B) unit :=
  for_each (fun now => _ ← attempt (processBlockDeleteBatch now); mret tt) ticks.
End Worker.
End DeleteWorker.
