(* ===== verification/WorkerProofs.v ===== *)
(** * The block delete worker: proofs

    The worker only moves delete states forward, claims only blocks nobody
    references, and settles every block it claimed. *)

From stdpp Require Import base sets strings list gmap.
From S2P Require Import Prelude GoStr Crc BlockIO FileStream Store Directory DirFrame.
From S2P Require Import DirTheorems References RefInv DeleteWorker.
Import References DeleteWorker.

(** ** Every statement is a step of the delete states *)
Section Steps.
Context `{!Env}.

Lemma update_delete_only (p : delete_row -> bool) (g : delete_row -> delete_row) :
  (forall r, p r = true -> d_state r <> DsLive) ->
  (forall r, d_file_id (g r) = d_file_id r /\ d_part_id (g r) = d_part_id r /\
             d_ref (g r) = d_ref r /\ d_state (g r) <> DsLive) ->
  delete_only (upd (set_delete (sql_update p g))).
Proof.
  intros Hp Hg w Hw. apply delete_rel_update. intros q Hq Hpq.
  destruct (Hg q) as (? & ? & ? & ?). split_and!; try done. intros Hl. by destruct (Hp q Hpq).
Qed.

Lemma in_state_eq st r : in_state st r = true <-> d_state r = st.
Proof. apply bool_decide_eq_true. Qed.

Lemma restoreExpired_delete k t : delete_only (restoreExpiredDeleteLeases k t).
Proof.
  apply update_delete_only; [|by intros; split_and!].
  intros r [[_ Hs%in_state_eq]%andb_true_iff _]%andb_true_iff. by rewrite Hs.
Qed.

Lemma expire_delete work t : delete_only (expireBlockDelete work t).
Proof.
  apply update_delete_only; [|by intros; split_and!].
  intros r [_ [Hs%in_state_eq|Hs%in_state_eq]%orb_true_iff]%andb_true_iff; by rewrite Hs.
Qed.

(** A referenced file has no queued blocks to restore. *)
Lemma restoreFile_delete f t w :
  file_inv (db w) -> referenced (db w) f -> delete_rel (db w) (db (restoreFileDeleteState f t w).2).
Proof.
  intros [Hwf Hsafe] Href. apply delete_rel_update.
  intros q Hq [Hf%Z.eqb_eq Hs]%andb_true_iff. specialize (Hsafe f Href q Hq Hf).
  apply orb_true_iff in Hs as [Hs%in_state_eq|Hs%in_state_eq]; congruence.
Qed.

Lemma claimDeleteCandidate_delete work t : delete_only (claimDeleteCandidate work t).
Proof.
  intros w Hw. unfold claimDeleteCandidate.
  rewrite (bind_ok _ _ _ _ _ (fileHasLiveReference_eq (fileID work) w)).
  destruct (has_ref (db w) (fileID work)) eqn:Eref.
  { apply has_ref_spec in Eref. by apply restoreFile_delete. }
  case_match; [by apply expire_delete|].
  apply delete_only_bind; [by apply delete_only_same| |done]. intros count.
  apply delete_only_bind; [|by intros; apply delete_only_same].
  apply update_delete_only; [|by intros; split_and!].
  intros r [_ Hs%in_state_eq]%andb_true_iff. by rewrite Hs.
Qed.

Lemma claim_delete k t : delete_only (claimBlockDeleteWork k t).
Proof.
  apply delete_only_tx, delete_only_bind; [apply restoreExpired_delete|]. intros _.
  apply delete_only_bind; [by apply delete_only_same|]. intros candidates.
  apply delete_only_fold_each. intros claimed work.
  apply delete_only_bind; [apply claimDeleteCandidate_delete|]. intros. by apply delete_only_same.
Qed.

Lemma finish_delete works st code next t :
  st <> DsLive -> delete_only (finishBlockDeleteWork works st code next t).
Proof.
  intros Hst. apply delete_only_tx, delete_only_for_each. intros work.
  apply update_delete_only; [|by intros; split_and!].
  intros r [_ Hs%in_state_eq]%andb_true_iff. by rewrite Hs.
Qed.

Lemma settle_retry_delete code next t work : delete_only (settle_retry code next t work).
Proof. unfold settle_retry. case_match; by apply finish_delete. Qed.
End Steps.

(** ** Claiming *)

Definition qkey (q : delete_row) : Z * Z := (d_file_id q, d_part_id q).
Definition wkey (c : blockDeleteWork) : Z * Z := (fileID c, partID c).

Lemma row_of_eq f p q : row_of f p q = true <-> qkey q = (f, p).
Proof.
  unfold row_of, qkey. rewrite andb_true_iff, !Z.eqb_eq. split; [by intros [-> ->]|by intros [= -> ->]].
Qed.

(** Before the deadline, and held by the worker under a lease. *)
Definition held (d : DB) (now : Z) (c : blockDeleteWork) : Prop :=
  ~ referenced d (fileID c) /\
  UnixMilli now < uploadedAt c + deleteDeadline / Millisecond /\
  exists q, q ∈ t_delete d /\ qkey q = wkey c /\ d_state q = DsDeleting /\
    d_ref q = deleteRef c /\ d_lease q = UnixMilli (now + deleteLease).

(** A row is the only one with its key. *)
Lemma count_key (l : list delete_row) :
  NoDup (qkey <$> l) -> forall q f p, q ∈ l -> qkey q = (f, p) ->
  row_of f p q && in_state DsPending q = true ->
  sql_count (fun r => row_of f p r && in_state DsPending r) l = 1.
Proof.
  intros Hnd q f p Hq Hk Hp. unfold sql_count.
  assert (forall r, r ∈ sql_select (fun r => row_of f p r && in_state DsPending r) l -> r = q) as Hall.
  { intros r [Hr [Hrk%row_of_eq _]%andb_true_iff]%sql_select_elem.
    apply (NoDup_fmap_inj qkey l); [done..|]. congruence. }
  assert (q ∈ sql_select (fun r => row_of f p r && in_state DsPending r) l) as Hin
    by (by apply sql_select_elem).
  assert (NoDup (sql_select (fun r => row_of f p r && in_state DsPending r) l)) as Hnds.
  { eapply sublist_NoDup; [by eapply NoDup_fmap_1|apply filter_sublist]. }
  destruct (sql_select _ l) as [|a [|b k]] eqn:E; [by apply elem_of_nil in Hin|done|].
  exfalso. apply NoDup_cons in Hnds as [Hn _]. apply Hn.
  rewrite (Hall a) by left. rewrite (Hall b) by (right; left). left.
Qed.

Section Claim.
Context `{!Env} (now : Z).

(** What one candidate does to the delete states: they change in place, rows
    other workers' claims hold stay as they are, and a claim holds its row. *)
Lemma claim_one c w : NoDup (qkey <$> t_delete (db w)) -> exists b g,
  claimDeleteCandidate c now w = (Ok b, with_db w (set_delete (map g) (db w))) /\
  (forall q, qkey (g q) = qkey q /\ d_ref (g q) = d_ref q) /\
  (forall q, d_state q = DsDeleting -> ~ referenced (db w) (d_file_id q) ->
     qkey q <> wkey c -> g q = q) /\
  (forall q, q ∈ t_delete (db w) -> d_state (g q) = DsDeleting ->
     g q = q \/ (b = true /\ qkey q = wkey c)) /\
  (b = true -> ~ referenced (db w) (fileID c) /\
     UnixMilli now < uploadedAt c + deleteDeadline / Millisecond /\
     exists q, q ∈ t_delete (db w) /\ qkey q = wkey c /\ d_state (g q) = DsDeleting /\
       d_lease (g q) = UnixMilli (now + deleteLease)).
Proof.
  intros Hnd.
  unfold claimDeleteCandidate. rewrite (bind_ok _ _ _ _ _ (fileHasLiveReference_eq (fileID c) w)).
  destruct (has_ref (db w) (fileID c)) eqn:Eref.
  { apply has_ref_spec in Eref. eexists false, _. split; [done|].
    split_and!; [intros q; cbv beta; case_match; done| |intros q _; cbv beta; case_match; [done|by left]|done].
    intros q Hq Hn Hk. cbv beta. destruct (Z.eqb_spec (d_file_id q) (fileID c)) as [E|]; [|done].
    by rewrite E in Hn. }
  assert (~ referenced (db w) (fileID c)) as Hnref.
  { rewrite <- has_ref_spec, Eref. done. }
  destruct (Z.leb_spec (uploadedAt c + deleteDeadline / Millisecond) (UnixMilli now)) as [|Hlt].
  { eexists false, _. split; [done|].
    split_and!; [intros q; cbv beta; case_match; done| |intros q _; cbv beta; case_match; [done|by left]|done].
    intros q Hq Hn Hk. cbv beta. destruct (row_of _ _ q) eqn:E; [|done].
    by apply row_of_eq in E. }
  eexists _, _. split; [reflexivity|].
  split_and!; [intros q; cbv beta; case_match; done| | |].
  - intros q Hq Hn Hk. cbv beta. destruct (row_of _ _ q) eqn:E; [|done]. by apply row_of_eq in E.
  - intros q Hq _. cbv beta. destruct (row_of _ _ q && _) eqn:E; [right|by left].
    apply andb_true_iff in E as E'. destruct E' as [Ek%row_of_eq _]. split; [|done].
    by apply Z.eqb_eq, (count_key _ Hnd q).
  - intros Hb%Z.eqb_eq. split; [done|]. split; [done|].
    assert (sql_count (fun r => row_of (fileID c) (partID c) r && in_state DsPending r)
      (t_delete (db w)) <> 0) as Hne by lia.
    apply Z.eqb_neq, negb_true_iff in Hne.
    apply sql_count_pos in Hne as (q & Hq & Hp). exists q. cbv beta. rewrite Hp.
    apply andb_true_iff in Hp as [Hk%row_of_eq _]. done.
Qed.

Lemma claim_loop cands claimed w :
  NoDup (qkey <$> t_delete (db w)) -> NoDup (wkey <$> cands) -> NoDup (wkey <$> claimed) ->
  (forall c, c ∈ claimed -> wkey c ∉ wkey <$> cands) ->
  (forall c q, c ∈ cands -> q ∈ t_delete (db w) -> qkey q = wkey c -> d_ref q = deleteRef c) ->
  (forall c, c ∈ claimed -> held (db w) now c) ->
  exists claimed' w',
    fold_each (fun claimed work =>
      wasClaimed ← claimDeleteCandidate work now;
      mret (if (wasClaimed : bool) then claimed ++ [attempted work] else claimed)) claimed cands w
      = (Ok claimed', w') /\
    (forall g, referenced (db w') g <-> referenced (db w) g) /\
    (length claimed' <= length claimed + length cands)%nat /\ NoDup (wkey <$> claimed') /\
    (forall c, c ∈ claimed -> c ∈ claimed') /\
    (forall c, c ∈ claimed' -> held (db w') now c) /\
    (forall q, q ∈ t_delete (db w') -> d_state q = DsDeleting ->
       q ∈ t_delete (db w) \/ qkey q ∈ wkey <$> claimed').
Proof.
  revert claimed w. induction cands as [|c cands IH]; intros claimed w Hkeys Hnd Hndc Hdis Href Hheld.
  { exists claimed, w. split; [done|]. split; [done|]. split; [simpl; lia|]. split; [done|].
    split; [done|]. split; [done|]. by left. }
  cbn [fold_each]. apply NoDup_cons in Hnd as [Hc Hnd].
  destruct (claim_one c w Hkeys) as (b & g & Hrun & Hg & Hkeep & Hnew & Hb).
  set (w1 := with_db w (set_delete (map g) (db w))) in *.
  rewrite (bind_ok _ _ w (if b then claimed ++ [attempted c] else claimed) w1).
  2: { by rewrite (bind_ok _ _ _ _ _ Hrun). }
  assert (forall f, referenced (db w1) f <-> referenced (db w) f) as Hsame
    by (intros; apply referenced_delete).
  assert (forall c', c' ∈ claimed -> held (db w1) now c') as Hheld1.
  { intros c' Hc'. destruct (Hheld c' Hc') as (Hnr & Hdl & q & Hq & Hk & Hs & Hr & Hl).
    split; [by rewrite Hsame|]. split; [done|]. exists q. split; [|done].
    cbn. rewrite <- (Hkeep q); [by apply list_elem_of_fmap_2|done| |].
    - unfold qkey, wkey in Hk. injection Hk as -> _. done.
    - rewrite Hk. intros E. apply (Hdis c' Hc'). rewrite E. left. }
  destruct (IH (if b then claimed ++ [attempted c] else claimed) w1) as (claimed' & w' & E & Hr' & Hlen & Hndc' & Hsub & Hh & Hdel).
  - change (NoDup (qkey <$> (g <$> t_delete (db w)))). rewrite <- list_fmap_compose.
    erewrite list_fmap_ext; [exact Hkeys|]. intros i q _. apply Hg.
  - done.
  - destruct b; [|done]. rewrite fmap_app. apply NoDup_app. split; [done|]. split; [|apply NoDup_singleton].
    intros k (c' & -> & Hc')%list_elem_of_fmap Hk%list_elem_of_singleton.
    apply (Hdis c' Hc'). rewrite Hk. by left.
  - intros c' Hc'. assert (c' ∈ claimed \/ c' = attempted c) as [Hin| ->].
    { destruct b; [|by left]. apply elem_of_app in Hc' as [?|?%list_elem_of_singleton]; auto. }
    + intros Hx. apply (Hdis c' Hin). by right.
    + done.
  - intros c' q' Hc' Hq' Hk'. cbn in Hq'. apply list_elem_of_fmap in Hq' as (q & -> & Hq).
    destruct (Hg q) as [Ek Er]. rewrite Ek in Hk'. rewrite Er. apply Href; [by right|done|done].
  - intros c' Hc'. destruct b; [|by apply Hheld1].
    apply elem_of_app in Hc' as [?|Hc'%list_elem_of_singleton]; [by apply Hheld1|]. subst c'.
    destruct (Hb eq_refl) as (Hnr & Hdl & q & Hq & Hk & Hs & Hl).
    split; [by rewrite Hsame|]. split; [done|]. exists (g q). destruct (Hg q) as [Ek Er].
    split; [by apply list_elem_of_fmap_2|]. split; [by rewrite Ek|]. split; [done|].
    split; [|done]. rewrite Er. apply (Href c); [left|done|done].
  - exists claimed', w'. split; [exact E|]. split; [intros f; by rewrite Hr', Hsame|].
    split; [simpl; destruct b; [rewrite length_app in Hlen; simpl in Hlen|]; lia|]. split; [done|].
    split; [intros c' Hc'; apply Hsub; destruct b; [apply elem_of_app; by left|done]|].
    split; [done|]. intros q Hq Hs. destruct (Hdel q Hq Hs) as [Hin|]; [|by right].
    cbn in Hin. apply list_elem_of_fmap in Hin as (q0 & -> & Hq0).
    destruct (Hnew q0 Hq0 Hs) as [E0|[-> Ek]]; [left; by rewrite E0|right].
    destruct (Hg q0) as [-> _]. rewrite Ek. change (wkey c) with (wkey (attempted c)).
    apply list_elem_of_fmap_2, Hsub, elem_of_app. right. by apply list_elem_of_singleton.
Qed.
End Claim.

Lemma candidates_keys k t d :
  NoDup (qkey <$> t_delete d) ->
  let l := sql_limit 0 deleteBatchSize (order_by candidate_le (sql_select
    (fun r => bool_decide (d_backend r = k) && in_state DsPending r && (d_next_at r <=? t)) (t_delete d))) in
  NoDup (wkey <$> map to_work l) /\ (length (map to_work l) <= 100)%nat /\
  (forall c q, c ∈ map to_work l -> q ∈ t_delete d -> qkey q = wkey c -> d_ref q = deleteRef c).
Proof.
  intros Hnd l.
  assert (sublist l (order_by candidate_le (sql_select (fun r => bool_decide (d_backend r = k) &&
    in_state DsPending r && (d_next_at r <=? t)) (t_delete d)))) as Hsub.
  { subst l. unfold sql_limit. rewrite drop_0. apply sublist_take. }
  assert (forall r, r ∈ l -> r ∈ t_delete d) as Hin.
  { intros r Hr. eapply elem_of_sublist in Hr; [|exact Hsub].
    apply order_by_elem, sql_select_elem in Hr. by destruct Hr. }
  split_and!.
  - change (NoDup (wkey <$> (to_work <$> l))). rewrite <- list_fmap_compose.
    change (wkey ∘ to_work) with qkey.
    eapply sublist_NoDup; [|apply (fmap_sublist qkey), Hsub].
    rewrite order_by_perm. eapply sublist_NoDup; [exact Hnd|]. apply fmap_sublist, filter_sublist.
  - rewrite length_map. subst l. unfold sql_limit, deleteBatchSize. rewrite length_take. lia.
  - intros c q Hc Hq Hk. apply list_elem_of_fmap in Hc as (r & -> & Hr).
    assert (q = r) as ->; [|done]. by apply (NoDup_fmap_inj qkey (t_delete d)); auto.
Qed.

Lemma claim_ok `{!Env} k now w :
  wf_files (db w) -> exists claimed w',
  claimBlockDeleteWork k now w = (Ok claimed, w') /\ (length claimed <= 100)%nat /\ NoDup (wkey <$> claimed) /\
  (forall c, c ∈ claimed -> held (db w') now c) /\
  (forall q, q ∈ t_delete (db w') -> d_state q = DsDeleting -> d_backend q = k ->
     UnixMilli now < d_lease q \/ qkey q ∈ wkey <$> claimed).
Proof.
  intros Hwf. unfold claimBlockDeleteWork, OnTransation. cbv zeta.
  destruct (restoreExpiredDeleteLeases k (UnixMilli now) w) as [o w1] eqn:E1.
  assert (o = Ok tt) as -> by (by injection E1).
  rewrite (bind_ok _ _ _ _ _ E1).
  assert (NoDup (qkey <$> t_delete (db w1))) as Hnd.
  { injection E1 as <-. cbn. unfold sql_update.
    change (map ?f ?l) with (f <$> l). rewrite <- list_fmap_compose.
    erewrite list_fmap_ext; [apply (wf_delete_keys _ Hwf)|].
    intros i q Hq. simpl. by case_match. }
  rewrite (bind_ok (queryPendingDeleteCandidates k (UnixMilli now)) _ w1 _ w1 eq_refl).
  destruct (candidates_keys k (UnixMilli now) (db w1) Hnd) as (Hc & Hlen & Href).
  destruct (claim_loop now _ [] w1 Hnd Hc) as (claimed & w' & Erun & _ & Hl & Hndc & _ & Hheld & Hdel);
    [apply NoDup_nil_2|by intros ? ?%elem_of_nil|done|by intros ? ?%elem_of_nil|].
  rewrite Erun. exists claimed, w'. split; [done|]. split; [simpl in Hl; lia|]. split; [done|].
  split; [done|]. intros q Hq Hs Hk. destruct (Hdel q Hq Hs) as [Hin|]; [left|by right].
  injection E1 as E1. rewrite <- E1 in Hin. cbn in Hin. apply sql_update_elem in Hin as (q0 & _ & ->).
  destruct (_ && _ && _) eqn:Ep; [done|]. rewrite (proj2 (in_state_eq _ _) Hs) in Ep.
  rewrite bool_decide_eq_true_2 in Ep by done. simpl in Ep. by apply Z.leb_gt in Ep.
Qed.

Lemma UnixMilli_add t ms : UnixMilli (t + ms * Millisecond) = UnixMilli t + ms.
Proof. unfold UnixMilli, Millisecond. by rewrite Z.div_add by lia. Qed.

(** ** Settling *)









Section Settle.
Context `{!Env}.





Context {B : Type} `{!IBlockIO B} `{!ErrorView}.












End Settle.


(** A claim never fails, takes at most a hundred blocks, and takes a block only
    if nothing references its file and its deletion deadline has not passed; the
    block is then held in state [deleting] for a minute under its own delete
    reference. No delete state of a referenced file moves, and none becomes live
    again. *)
Theorem claim_spec `{!Env} backend now w :
  file_inv (db w) ->
  exists claimed w', claimBlockDeleteWork backend now w = (Ok claimed, w') /\
    (length claimed <= 100)%nat /\ delete_rel (db w) (db w') /\ file_inv (db w') /\
    forall c, c ∈ claimed ->
      ~ referenced (db w) (fileID c) /\ UnixMilli now < uploadedAt c + 47 * 3600 * 1000 /\
      exists q, q ∈ t_delete (db w') /\ qkey q = wkey c /\ d_state q = DsDeleting /\
        d_ref q = deleteRef c /\ d_lease q = UnixMilli now + 60000.
Proof.
  intros Hinv. destruct (claim_ok backend now w (inv_wf _ Hinv)) as (claimed & w' & Hrun & Hlen & _ & Hheld & _).
  pose proof (claim_delete backend now w Hinv) as Hrel. rewrite Hrun in Hrel. cbn [snd] in Hrel.
  exists claimed, w'. split; [done|]. split; [done|]. split; [done|].
  split; [by eapply delete_rel_inv|]. intros c Hc.
  destruct (Hheld c Hc) as (Hn & Hd & q & Hq & Hk & Hs & Hr & Hl).
  rewrite (dr_tables _ _ Hrel), referenced_delete in Hn. split; [done|]. split; [exact Hd|].
  exists q. split; [done|]. split; [done|]. split; [done|]. split; [done|].
  rewrite Hl. unfold deleteLease, Second.
  replace (60 * (1000 * Millisecond)) with (60000 * Millisecond) by lia. apply UnixMilli_add.
Qed.


(** Queueing a file for deletion marks exactly the live blocks of the files that
    hold its content (the file itself, or the sources of a composite file) and that
    nothing references, and none if the file itself is still referenced; everything
    else in the database stays as it is. *)
Theorem mark_queues_unreferenced `{!Env} f now w r :
  wf_files (db w) -> r ∈ t_file (db w) -> f_file_id r = f -> f_layout r = 1 \/ f_layout r = 2 ->
  exists w', markFileTreePendingIfUnreferenced f now w = (Ok tt, w') /\
    db w' = set_delete (fun _ => t_delete (db w')) (db w) /\
    forall i q, t_delete (db w) !! i = Some q ->
      t_delete (db w') !! i = Some
        (if negb (has_ref (db w) f) && to_queue (db w) (leaves (db w) f) q
         then set_pending now q else q).
Proof.
  intros Hwf Hr Hf Hl. rewrite (mark_eq f now w r Hwf Hr Hf Hl). eexists. split; [reflexivity|].
  split; [done|]. intros i q Hq. cbn [t_delete set_delete db with_db]. unfold sql_update.
  change (map ?h ?l) with (h <$> l). by rewrite list_lookup_fmap, Hq.
Qed.

(** ** Runs *)
Section Demo.
#[local] Existing Instance DirTheorems.demo_env.
#[local] Instance demo_errors : ErrorView :=
  {| as_DeleteFailure _ := None; as_net_Error _ := false; is_context_error _ := false |}.

Definition demo_file (f layout : Z) : file_row :=
  {| f_id := f; f_file_id := f; f_size := 3; f_part_count := 1; f_state := FileStateReady;
     f_ctime := 0; f_mtime := 0; f_extinfo := "{}"; f_layout := layout |}.
Definition demo_delete (f : Z) (st : delete_state) : delete_row :=
  {| d_file_id := f; d_part_id := 0; d_backend := "mem"; d_ref := FileStream.FileStream.tag (Z.to_nat f);
     d_uploaded_at := 5000; d_state := st; d_attempts := 0; d_next_at := 0; d_lease := 0;
     d_last_attempt := 0; d_error := ""; d_deleted_at := 0; d_ctime := 0; d_mtime := 0 |}.
Definition demo_part_of (f : Z) : part_row :=
  {| p_file_id := f; p_part_id := 0; p_key := FileStream.FileStream.tag (Z.to_nat f); p_md5 := "m"; p_size := 3;
     p_ctime := 0; p_mtime := 0 |}.
Definition demo_segment (f src : Z) : segment_row :=
  {| sg_file_id := f; sg_index := 0; sg_source := src; sg_size := 3; sg_ctime := 0; sg_mtime := 0 |}.
Definition demo_link (f : Z) : directoryEntryTab :=
  Directory.Directory.new_entry 1 (FormatUint f) 2 0 3 493 "x".

(** Files 1 and 2, file 2 linked, file 3 composed of file 1. *)
Definition demo_db : DB :=
  {| t_file := [demo_file 1 1; demo_file 2 1; demo_file 3 2]; t_part := [demo_part_of 1; demo_part_of 2]; t_mapping := [demo_link 2];
     t_delete := [demo_delete 1 DsLive; demo_delete 2 DsLive]; t_segment := [demo_segment 3 1];
     t_completed := []; t_s3meta := []; t_upload := []; t_mpart := []; t_property := []; t_change := [];
     t_pin := []; t_lock := []; t_job := []; t_job_file := []; seq_file := 3; seq_mapping := 1; seq_change := 0 |}.
Definition demo_queued : DB :=
  set_delete (fun _ => [demo_delete 1 DsPending; demo_delete 2 DsLive]) demo_db.

Lemma demo_inv l : l = DsLive \/ l = DsPending ->
  file_inv (set_delete (fun _ => [demo_delete 1 l; demo_delete 2 DsLive]) demo_db).
Proof.
  intros Hl. split.
  - split; cbn.
    + apply (bool_decide_unpack _). reflexivity.
    + intros r Hr. repeat (apply elem_of_cons in Hr as [-> |Hr]; [cbn; lia|]). by apply elem_of_nil in Hr.
    + intros s Hs%list_elem_of_singleton. subst s. exists (demo_file 3 2). split; [|done]. right; right; left.
    + intros s Hs%list_elem_of_singleton. subst s. exists (demo_file 1 1). by split; [left|].
    + apply (bool_decide_unpack _). reflexivity.
    + intros q Hq Hn. apply elem_of_cons in Hq as [-> |Hq%list_elem_of_singleton]; [|by subst].
      exists (demo_file 1 1). by split; [left|].
    + intros q Hq. apply elem_of_cons in Hq as [-> |Hq%list_elem_of_singleton].
      * exists (demo_part_of 1). by split; [left|].
      * subst q. exists (demo_part_of 2). split; [right; left|done].
    + apply NoDup_nil_2.
    + by intros p ?%elem_of_nil.
  - intros f Hf q Hq <-. apply elem_of_cons in Hq as [-> |Hq%list_elem_of_singleton]; [|by subst].
    apply has_ref_spec in Hf. vm_compute in Hf. discriminate Hf.
Qed.

Definition demo_at (d : DB) : World := {| db := d; ticks := 0; ids := 0 |}.

Lemma claim_spec_witness : exists claimed w',
  claimBlockDeleteWork "mem" (10 * Second) (demo_at demo_queued) = (Ok claimed, w') /\
  map wkey claimed = [(1, 0)] /\ map d_state (t_delete (db w')) = [DsDeleting; DsLive] /\
  ~ referenced demo_queued 1.
Proof.
  destruct (claim_spec "mem" (10 * Second) (demo_at demo_queued) (demo_inv DsPending (or_intror eq_refl)))
    as (claimed & w' & Hrun & _ & _ & _ & Hc).
  exists claimed, w'. split; [exact Hrun|]. vm_compute in Hrun. injection Hrun as Ec Ew.
  split; [rewrite <- Ec; reflexivity|]. split; [rewrite <- Ew; reflexivity|].
  apply (Hc {| fileID := 1; partID := 0; deleteRef := FileStream.FileStream.tag 1; uploadedAt := 5000;
               attemptCount := 1 |}).
  rewrite <- Ec. by left.
Defined.


Lemma mark_queues_unreferenced_witness : exists w',
  markFileTreePendingIfUnreferenced 3 7 (demo_at demo_db) = (Ok tt, w') /\
  t_delete (db w') !! 0%nat = Some (set_pending 7 (demo_delete 1 DsLive)).
Proof.
  destruct (mark_queues_unreferenced 3 7 (demo_at demo_db) (demo_file 3 2)
    (inv_wf _ (demo_inv DsLive (or_introl eq_refl)))) as (w' & Hrun & _ & Hrows).
  - right; right; left.
  - reflexivity.
  - right. reflexivity.
  - exists w'. split; [exact Hrun|]. rewrite (Hrows 0%nat (demo_delete 1 DsLive) eq_refl).
    vm_compute. reflexivity.
Defined.
End Demo.
