(* ===== verification/Dao.v ===== *)
(** * Data access (src/dao/)

    The operations on the file and file part tables, and the file links on top of
    the directory. The read-through caches of src/dao/cache/ are in DaoCache. *)

From stdpp Require Import base strings list.
From S2P Require Import Prelude GoStr Store Directory.

(** ** Files (file_dao.go) *)
Module FileDao.
Section FileDao.
Context `{!Env}.

(** INSERT with UNIQUE (file_id); the driver refuses integers of 64 bits. *)
Definition insert_file (mk : Z -> file_row) : M World unit :=
  d ← query id;
  let r := mk 0 in
  _ ← check (2 ^ 63 <=? f_file_id r) ErrRange;
  _ ← check (sql_exists (fun r' => f_file_id r' =? f_file_id r) (t_file d)) ErrUniqueConstraint;
  upd (add_file mk).

Definition CreateFileDraft (fileSize filePartCount : Z) : M World Z :=
  fileid ← NextId;
  t ← now;
  _ ← insert_file (fun n =>
        {| f_id := n; f_file_id := fileid; f_size := fileSize; f_part_count := filePartCount;
           f_state := FileStateInit; f_ctime := t; f_mtime := t; f_extinfo := "{}";
           f_layout := 1 |});
  mret fileid.

Definition set_ready (t : Z) (extinfo : string) (r : file_row) : file_row :=
  {| f_id := f_id r; f_file_id := f_file_id r; f_size := f_size r;
     f_part_count := f_part_count r; f_state := FileStateReady; f_ctime := f_ctime r;
     f_mtime := t; f_extinfo := extinfo; f_layout := f_layout r |}.

Definition MarkFileReady (fileID : Z) (extinfo : string) : M World unit :=
  t ← now;
  upd (set_file (sql_update (fun r => f_file_id r =? fileID) (set_ready t extinfo))).

Definition GetFileInfo (fileIds : list Z) : M World (list file_row) :=
  query (fun d => sql_select (fun r => bool_decide (f_file_id r ∈ fileIds)) (t_file d)).

Definition innerScan (lastid : Z) (limit : nat) : M World (list file_row * Z) :=
  rs ← query (fun d => sql_limit 0 limit (order_by (fun a b => f_id a <=? f_id b)
         (sql_select (fun r => lastid <? f_id r) (t_file d))));
  mret (rs, match last rs with Some r => f_id r | None => 0 end).

Definition ScanFile {A} (batch : nat) (cb : A -> list file_row -> M World (bool * A)) (acc : A)
    : M World A :=
  _ ← check (Nat.eqb batch 0 || Nat.ltb (Z.to_nat 1000000) batch) ErrInvalidScanBatch;
  fuel ← query (fun d => S (length (t_file d)));
  batch_loop (fun lastid => innerScan lastid batch) cb batch fuel 0 acc.

Definition DeleteFile (fileIds : list Z) : M World unit :=
  upd (set_file (sql_delete (fun r => bool_decide (f_file_id r ∈ fileIds)))).
End FileDao.
End FileDao.

(** ** File parts (file_part_dao.go) *)
Module FilePartDao.
Section FilePartDao.
Context `{!Env}.

Record CreateFilePartRequest := {
  FileId : Z; FilePartId : Z; ReqFileKey : string; FilePartMd5 : string; FilePartSize : Z;
  BackendKind : string; ReqDeleteRef : string; ReqUploadedAt : Z }.

(** The two INSERTs of a part; both tables have the key (file_id, file_part_id). *)
Definition CreateFilePart (req : CreateFilePartRequest) : M World unit :=
  t ← now;
  OnTransation (
    d ← query id;
    _ ← check (sql_exists (fun r => (p_file_id r =? FileId req) && (p_part_id r =? FilePartId req))
                 (t_part d)) ErrUniqueConstraint;
    _ ← check (FilePartSize req <? -1) ErrCheckConstraint;
    _ ← upd (set_part (fun rows => rows ++
          [{| p_file_id := FileId req; p_part_id := FilePartId req; p_key := ReqFileKey req;
              p_md5 := FilePartMd5 req; p_size := FilePartSize req; p_ctime := t; p_mtime := t |}]));
    _ ← check (sql_exists (fun r => (d_file_id r =? FileId req) && (d_part_id r =? FilePartId req))
                 (t_delete d)) ErrUniqueConstraint;
    upd (set_delete (fun rows => rows ++
      [{| d_file_id := FileId req; d_part_id := FilePartId req; d_backend := BackendKind req;
          d_ref := ReqDeleteRef req; d_uploaded_at := ReqUploadedAt req; d_state := DsLive;
          d_attempts := 0; d_next_at := 0; d_lease := 0; d_last_attempt := 0; d_error := "";
          d_deleted_at := 0; d_ctime := t; d_mtime := t |}]))).

Definition GetFilePartInfo (fileId : Z) (partIds : list Z) : M World (list part_row) :=
  query (fun d => sql_select (fun r => (p_file_id r =? fileId) && bool_decide (p_part_id r ∈ partIds))
                    (t_part d)).

Definition DeleteFilePart (fileIds : list Z) : M World unit :=
  upd (set_part (sql_delete (fun r => bool_decide (p_file_id r ∈ fileIds)))).

Definition by_part_id (a b : part_row) : bool := p_part_id a <=? p_part_id b.

Definition ListFilePart (fileId : Z) : M World (list part_row) :=
  query (fun d => order_by by_part_id (sql_select (fun r => p_file_id r =? fileId) (t_part d))).
End FilePartDao.
End FilePartDao.

(** ** File links (file_mapping_dao.go) *)
Module FileMappingDao.

(** entity.FileLinkMeta *)
Record FileLinkMeta := {
  EntryID : Z; FileName : string; LinkFileId : Z; FileSize : Z; Mode : Z; Ctime : Z; Mtime : Z;
  IsDir : bool }.

Definition directoryEntryToFileMappingItem (item : directoryEntryTab) : outcome FileLinkMeta :=
  fid ← (if Directory.IsDir item then Ok 0 else ParseUint (RefData_ item));
  Ok {| EntryID := EntryId_ item; FileName := FileName_ item; LinkFileId := fid;
        FileSize := FileSize_ item; Mode := FileMode_ item; Ctime := Ctime_ item;
        Mtime := Mtime_ item; IsDir := Directory.IsDir item |}.

Section FileMappingDao.
Context `{!Env}.

Definition GetFileLinkMeta (fileName : string) : M World FileLinkMeta :=
  ent ← Directory.Stat fileName;
  lift (directoryEntryToFileMappingItem ent).

(** The COUNT query always returns a row. *)
Definition ensureMappingFileLinkable (fileID : Z) : M World unit :=
  count ← query (fun d => sql_count (fun r =>
    (d_file_id r =? fileID) && negb (bool_decide (d_state r = DsLive))) (t_delete d));
  check (negb (count =? 0)) ErrFileDeleteNotLive.

Definition CreateFileLink (fileName : string) (fileSize fileId : Z) (isDir : bool) : M World unit :=
  if isDir then Directory.Mkdir fileName
  else OnTransation (
    _ ← ensureMappingFileLinkable fileId;
    _ ← Directory.Tx.Create fileName fileSize (FormatUint fileId);
    mret tt).

Definition deleteEntryMetadata (entries : list directoryEntryTab) : M World unit :=
  for_each (fun entry =>
    upd (set_s3meta (sql_delete (fun m => m_entry_id m =? EntryId_ entry)))) entries.

(** INSERT ... SELECT of the metadata rows; [checksum_type] is not among the
    columns and takes its default. The primary key is the entry id. *)
Definition copyEntryMetadata (sourceEntryID destinationEntryID : Z) : M World unit :=
  d ← query id;
  let rows := sql_select (fun m => m_entry_id m =? sourceEntryID) (t_s3meta d) in
  _ ← check (negb (bool_decide (rows = [])) &&
             sql_exists (fun m => m_entry_id m =? destinationEntryID) (t_s3meta d))
        ErrUniqueConstraint;
  upd (set_s3meta (fun t => t ++ map (fun m =>
    {| m_entry_id := destinationEntryID; m_etag := m_etag m; m_sha256 := m_sha256 m;
       m_req_algorithm := m_req_algorithm m; m_req_value := m_req_value m;
       m_checksum_type := ""; m_content_type := m_content_type m;
       m_cache_control := m_cache_control m; m_disposition := m_disposition m;
       m_encoding := m_encoding m; m_language := m_language m; m_expires := m_expires m;
       m_user := m_user m; m_ctime := m_ctime m; m_mtime := m_mtime m |}) rows)).

Definition RemoveFileLink (link : string) : M World unit :=
  OnTransation (
    removed ← Directory.Tx.Remove link;
    deleteEntryMetadata removed).

Definition RenameFileLink (src dst : string) (isOverwrite : bool) : M World unit :=
  OnTransation (
    overwritten ← Directory.Move_tx src dst isOverwrite;
    deleteEntryMetadata overwritten).

Definition CopyFileLink (src dst : string) (isOverwrite : bool) : M World unit :=
  OnTransation (
    r ← Directory.Copy_tx src dst isOverwrite;
    let '(copies, overwritten) := r in
    let files := List.filter (fun c => negb (Directory.IsDir (Directory.Source c))) copies in
    _ ← for_each (fun c =>
          fileID ← lift (ParseUint (RefData_ (Directory.Source c)));
          ensureMappingFileLinkable fileID) files;
    _ ← deleteEntryMetadata overwritten;
    for_each (fun c => copyEntryMetadata (EntryId_ (Directory.Source c))
                         (EntryId_ (Directory.Destination c))) files).

(** Callbacks return whether to go on. *)
Fixpoint iter_items {A} (cb : A -> string -> FileLinkMeta -> M World (bool * A)) (prefix : string)
    (acc : A) (entries : list directoryEntryTab) : M World (bool * A) :=
  match entries with
  | [] => mret (true, acc)
  | item :: entries =>
      cbitem ← lift (directoryEntryToFileMappingItem item);
      r ← cb acc (path_join [prefix; FileName_ item]) cbitem;
      if negb r.1 then mret (false, r.2) else iter_items cb prefix r.2 entries
  end.

Definition IterFileLink {A} (prefix : string)
    (cb : A -> string -> FileLinkMeta -> M World (bool * A)) (acc : A) : M World A :=
  Directory.Iterate (fun acc entries => iter_items cb prefix acc entries) prefix 128 acc.

Fixpoint convert_items (entries : list directoryEntryTab) : outcome (list FileLinkMeta) :=
  match entries with
  | [] => Ok []
  | item :: entries =>
      cbitem ← directoryEntryToFileMappingItem item;
      rest ← convert_items entries;
      Ok (cbitem :: rest)
  end.

Definition ScanFileLink {A} (batch : nat) (cb : A -> list FileLinkMeta -> M World (bool * A))
    (acc : A) : M World A :=
  Directory.Scan (fun acc entries => items ← lift (convert_items entries); cb acc items) batch acc.
End FileMappingDao.
End FileMappingDao.
