(* ===== verification/Mutation.v ===== *)
(** * Changing links (src/filemgr/webdav_mutation.go, parts of webdav_protocol.go and
    file_manager_impl.go)

    Links are removed, moved and copied together with everything that hangs on their
    entries: S3 metadata, WebDAV properties and locks, and the blocks of files that
    lose their last reference. *)

From stdpp Require Import base strings list.
From S2P Require Import Prelude GoStr Store Directory References Dao.
Import References.

Module Mutation.
Section Mutation.
Context `{!Env}.

(** ** What hangs on an entry *)

Fixpoint file_ids_loop (seen : list Z) (entries : list directoryEntryTab) : outcome (list Z) :=
  match entries with
  | [] => Ok []
  | entry :: entries =>
      if Directory.IsDir entry then file_ids_loop seen entries
      else
        fileID ← ParseUint (RefData_ entry);
        if bool_decide (fileID ∈ seen) then file_ids_loop seen entries
        else rest ← file_ids_loop (fileID :: seen) entries; Ok (fileID :: rest)
  end.
Definition mappingEntryFileIDs (entries : list directoryEntryTab) : outcome (list Z) :=
  file_ids_loop [] entries.

Definition deleteMappingMetadata (entries : list directoryEntryTab) : M World unit :=
  for_each (fun entry =>
    upd (set_s3meta (sql_delete (fun m => m_entry_id m =? EntryId_ entry)))) entries.

Definition deleteWebDAVProperties (entries : list Z) : M World unit :=
  for_each (fun entry => upd (set_property (sql_delete (fun p => pr_entry_id p =? entry)))) entries.

Definition deleteWebDAVLocks (entries : list Z) : M World unit :=
  for_each (fun entry => upd (set_lock (sql_delete (fun l => lk_root_entry_id l =? entry)))) entries.

Definition markMappingFilesPending (fileIDs : list Z) : M World unit :=
  t ← now;
  for_each (fun fileID => markFileTreePendingIfUnreferenced fileID t) fileIDs.

Definition finalizeRemovedWebDAVEntries (entries : list directoryEntryTab) : M World unit :=
  fileIDs ← lift (mappingEntryFileIDs entries);
  _ ← deleteMappingMetadata entries;
  _ ← deleteWebDAVProperties (map EntryId_ entries);
  _ ← deleteWebDAVLocks (map EntryId_ entries);
  markMappingFilesPending fileIDs.

(** INSERT ... SELECT of the metadata of an entry; the key is the entry id. *)
Definition copyMappingMetadata (sourceEntryID destinationEntryID : Z) : M World unit :=
  d ← query id;
  let rows := sql_select (fun m => m_entry_id m =? sourceEntryID) (t_s3meta d) in
  _ ← check (negb (bool_decide (length rows = 0%nat)) &&
             sql_exists (fun m => m_entry_id m =? destinationEntryID) (t_s3meta d))
        ErrUniqueConstraint;
  upd (set_s3meta (fun t => t ++ map (fun m =>
    {| m_entry_id := destinationEntryID; m_etag := m_etag m; m_sha256 := m_sha256 m;
       m_req_algorithm := m_req_algorithm m; m_req_value := m_req_value m;
       m_checksum_type := m_checksum_type m; m_content_type := m_content_type m;
       m_cache_control := m_cache_control m; m_disposition := m_disposition m;
       m_encoding := m_encoding m; m_language := m_language m; m_expires := m_expires m;
       m_user := m_user m; m_ctime := m_ctime m; m_mtime := m_mtime m |}) rows)).

Definition is_file_copy (c : Directory.EntryCopy) : bool :=
  negb (Directory.IsDir (Directory.Source c)).

Definition copyWebDAVMetadata (copies : list Directory.EntryCopy) : M World unit :=
  for_each (fun c =>
    if is_file_copy c
    then copyMappingMetadata (EntryId_ (Directory.Source c)) (EntryId_ (Directory.Destination c))
    else mret tt) copies.

(** INSERT ... SELECT of the dead properties; the key is (entry, namespace, name). *)
Definition copyWebDAVProperties (copies : list (Z * Z)) : M World unit :=
  t ← now;
  for_each (fun c =>
    d ← query id;
    let rows := sql_select (fun p => pr_entry_id p =? c.1) (t_property d) in
    _ ← check (existsb (fun p => sql_exists (fun p' => (pr_entry_id p' =? c.2) &&
                 bool_decide (pr_ns p' = pr_ns p) && bool_decide (pr_name p' = pr_name p))
                 (t_property d)) rows) ErrUniqueConstraint;
    upd (set_property (fun tab => tab ++ map (fun p =>
      {| pr_entry_id := c.2; pr_ns := pr_ns p; pr_name := pr_name p; pr_value := pr_value p;
         pr_ctime := t; pr_mtime := t |}) rows))) copies.

Definition copy_ids (c : Directory.EntryCopy) : Z * Z :=
  (EntryId_ (Directory.Source c), EntryId_ (Directory.Destination c)).

Definition validateWebDAVCopies (copies : list Directory.EntryCopy) : M World unit :=
  for_each (fun c =>
    if is_file_copy c then
      fileID ← lift (ParseUint (RefData_ (Directory.Source c)));
      ensureFileTreeCanBeLinked fileID
    else mret tt) copies.

(** UPDATEs that move properties and locks to another entry; the keys of both
    tables must stay unique. *)
Definition rebindWebDAVProtocolState (sourceEntryID destinationEntryID : Z) (resourcePath : string)
    : M World unit :=
  d ← query id;
  _ ← check (negb (sourceEntryID =? destinationEntryID) &&
             sql_exists (fun p => (pr_entry_id p =? sourceEntryID) &&
               sql_exists (fun p' => (pr_entry_id p' =? destinationEntryID) &&
                 bool_decide (pr_ns p' = pr_ns p) && bool_decide (pr_name p' = pr_name p))
                 (t_property d)) (t_property d)) ErrUniqueConstraint;
  _ ← upd (set_property (sql_update (fun p => pr_entry_id p =? sourceEntryID) (fun p =>
        {| pr_entry_id := destinationEntryID; pr_ns := pr_ns p; pr_name := pr_name p;
           pr_value := pr_value p; pr_ctime := pr_ctime p; pr_mtime := pr_mtime p |})));
  let p := path_clean resourcePath in
  let mine := fun l => lk_root_entry_id l =? sourceEntryID in
  _ ← check ((1 <? sql_count mine (t_lock d)) ||
             (sql_exists mine (t_lock d) &&
              sql_exists (fun l => negb (mine l) && bool_decide (lk_root_path l = p)) (t_lock d)))
        ErrUniqueConstraint;
  upd (set_lock (sql_update mine (fun l =>
    {| lk_token := lk_token l; lk_root_path := p; lk_root_entry_id := destinationEntryID;
       lk_infinity := lk_infinity l; lk_owner_xml := lk_owner_xml l;
       lk_principal := lk_principal l; lk_created_at := lk_created_at l;
       lk_expires_at := lk_expires_at l; lk_null := lk_null l |}))).

(** ** Links *)

Definition CreateFileLink (link : string) (fileid size : Z) (isDir : bool) : M World unit :=
  if negb isDir then
    OnTransation (
      _ ← ensureFileTreeCanBeLinked fileid;
      _ ← Directory.Tx.Create link size (FormatUint fileid);
      mret tt)
  else FileMappingDao.CreateFileLink link size fileid isDir.

Definition removeWebDAVLink (link : string) : M World unit :=
  OnTransation (
    removed ← Directory.Tx.Remove link;
    finalizeRemovedWebDAVEntries removed).

Definition moveWebDAVLink (source destination : string) (overwrite : bool) : M World unit :=
  OnTransation (
    overwritten ← Directory.Move_tx source destination overwrite;
    finalizeRemovedWebDAVEntries overwritten).

Definition copyWebDAVLink (source destination : string) (overwrite : bool) : M World unit :=
  OnTransation (
    r ← Directory.Copy_tx source destination overwrite;
    let '(copies, overwritten) := r in
    _ ← validateWebDAVCopies copies;
    _ ← finalizeRemovedWebDAVEntries overwritten;
    _ ← copyWebDAVMetadata copies;
    copyWebDAVProperties (map copy_ids copies)).

Definition RemoveFileLink := removeWebDAVLink.
Definition RenameFileLink := moveWebDAVLink.
Definition CopyFileLink := copyWebDAVLink.
End Mutation.
End Mutation.
