(* ===== verification/S3Object.v ===== *)
(** * S3 objects (src/filemgr/s3_object.go)

    An object is a file link with a metadata row. Publishing, copying and deleting
    check the conditions of the request inside the transaction that changes the
    object. The listing of a bucket is in S3List. *)

From stdpp Require Import base strings list.
From Stdlib Require Import Ascii.
From S2P Require Import Prelude GoStr Store Directory References Dao Mutation.
Import References Mutation FileMappingDao.

(** Package mimetype: the content type for a file extension, with a default. *)
Class MimeTypes := LookupWithDefault : string -> string -> string.

Module S3Object.

Definition defaultS3CacheControl : string := "public, max-age=604800".

Record S3ObjectInfo := { Link : FileLinkMeta; Metadata : s3meta_row }.

(** Times are Unix nanoseconds. *)
Record S3Condition := {
  IfMatch : string; IfNoneMatch : string;
  IfModifiedSince : option Z; IfUnmodifiedSince : option Z }.

(** ** Strings *)

Definition is_space (c : ascii) : bool :=
  let n := N_of_ascii c in ((9 <=? n) && (n <=? 13) || (n =? 32))%N.

(** [strings.TrimSpace], for ASCII header values. *)
Fixpoint trim_left (s : string) : string :=
  match s with
  | String c s' => if is_space c then trim_left s' else s
  | "" => ""
  end.
Fixpoint trim_right (s : string) : string :=
  match s with
  | String c s' =>
      let r := trim_right s' in
      if is_space c && String.eqb r "" then "" else String c r
  | "" => ""
  end.
Definition TrimSpace (s : string) : string := trim_right (trim_left s).

Definition HasPrefix (s prefix : string) : bool := String.prefix prefix s.
Definition TrimPrefix (s prefix : string) : string :=
  if HasPrefix s prefix
  then String.substring (String.length prefix) (String.length s - String.length prefix) s
  else s.

(** From the last '.' on, or nothing. *)
Fixpoint extension (s : string) : string :=
  match s with
  | String c s' =>
      let r := extension s' in
      if negb (String.eqb r "") then r else if Ascii.eqb c "."%char then s else ""
  | "" => ""
  end.

Definition quoted (s : string) : string := String "034"%char (s +:+ String "034"%char "").

(** ** Conditions *)

Definition s3ETagListContains (value etag : string) (weak : bool) : bool :=
  let etag := if weak then TrimPrefix etag "W/" else etag in
  existsb (fun candidate =>
    let candidate := TrimSpace candidate in
    let candidate := if weak then TrimPrefix candidate "W/" else candidate in
    String.eqb candidate etag) (split_on ","%char value).

(** [metadata] is there when the object exists. *)
Definition s3IfMatchSatisfied (metadata : option s3meta_row) (value : string) : bool :=
  if String.eqb value "" then true
  else match metadata with
  | None => false
  | Some metadata =>
      if String.eqb value "*" then true
      else if HasPrefix (m_etag metadata) "W/" then false
      else s3ETagListContains value (m_etag metadata) false
  end.

Definition s3IfNoneMatchSatisfied (metadata : option s3meta_row) (value : string) : bool :=
  match metadata with
  | Some metadata =>
      String.eqb value "" ||
      (negb (String.eqb value "*") && negb (s3ETagListContains value (m_etag metadata) true))
  | None => true
  end.

(** Whole seconds of a time in milliseconds, and in nanoseconds. *)
Definition milli_seconds (ms : Z) : Z := ms / 1000.
Definition nano_seconds (ns : Z) : Z := ns / 1000000000.

Definition evaluateS3Condition (info : option S3ObjectInfo) (condition : option S3Condition)
    : outcome unit :=
  match condition with
  | None => Ok tt
  | Some c =>
      let metadata := Metadata <$> info in
      if negb (s3IfMatchSatisfied metadata (IfMatch c)) then Err ErrS3Precondition
      else if negb (s3IfNoneMatchSatisfied metadata (IfNoneMatch c)) then Err ErrS3Precondition
      else match info with
      | None => Ok tt
      | Some info =>
          let modifiedAt := milli_seconds (FileMappingDao.Mtime (Link info)) in
          if String.eqb (IfMatch c) "" &&
             match IfUnmodifiedSince c with
             | Some t => nano_seconds t <? modifiedAt
             | None => false
             end
          then Err ErrS3Precondition
          else if String.eqb (IfNoneMatch c) "" &&
             match IfModifiedSince c with
             | Some t => negb (nano_seconds t <? modifiedAt)
             | None => false
             end
          then Err ErrS3Precondition
          else Ok tt
      end
  end.

Section S3Object.
Context `{!Env} `{!MimeTypes}.

Definition directoryEntryToLink (objectPath : string) (entry : directoryEntryTab)
    : outcome FileLinkMeta :=
  fileID ← ParseUint (RefData_ entry);
  Ok {| EntryID := EntryId_ entry; FileName := objectPath; LinkFileId := fileID;
        FileMappingDao.FileSize := FileSize_ entry; Mode := FileMode_ entry;
        FileMappingDao.Ctime := Ctime_ entry; FileMappingDao.Mtime := Mtime_ entry; IsDir := false |}.

Definition legacyS3Metadata (link : FileLinkMeta) : s3meta_row :=
  {| m_entry_id := EntryID link; m_etag := "W/" +:+ quoted (FormatUint (LinkFileId link));
     m_sha256 := ""; m_req_algorithm := ""; m_req_value := ""; m_checksum_type := "";
     m_content_type := LookupWithDefault (extension (FileName link)) "application/octet-stream";
     m_cache_control := defaultS3CacheControl; m_disposition := ""; m_encoding := "";
     m_language := ""; m_expires := ""; m_user := "{}";
     m_ctime := FileMappingDao.Ctime link; m_mtime := FileMappingDao.Mtime link |}.

Definition readS3Metadata (entryID : Z) : M World (option s3meta_row) :=
  query (fun d => head (sql_select (fun m => m_entry_id m =? entryID) (t_s3meta d))).

(** INSERT with the entry id as primary key and a CHECK of the checksum type. *)
Definition insertS3Metadata (metadata : s3meta_row) : M World unit :=
  d ← query id;
  _ ← check (negb (bool_decide (m_checksum_type metadata ∈ [""; "FULL_OBJECT"; "COMPOSITE"])))
        ErrCheckConstraint;
  _ ← check (sql_exists (fun m => m_entry_id m =? m_entry_id metadata) (t_s3meta d))
        ErrUniqueConstraint;
  upd (set_s3meta (fun t => t ++ [metadata])).

Definition deleteS3Metadata (entryID : Z) : M World unit :=
  upd (set_s3meta (sql_delete (fun m => m_entry_id m =? entryID))).

(** A copy of the metadata for an entry, with its times. *)
Definition stored_metadata (metadata : s3meta_row) (entryID ctime mtime : Z) : s3meta_row :=
  {| m_entry_id := entryID; m_etag := m_etag metadata; m_sha256 := m_sha256 metadata;
     m_req_algorithm := m_req_algorithm metadata; m_req_value := m_req_value metadata;
     m_checksum_type := m_checksum_type metadata; m_content_type := m_content_type metadata;
     m_cache_control := m_cache_control metadata; m_disposition := m_disposition metadata;
     m_encoding := m_encoding metadata; m_language := m_language metadata;
     m_expires := m_expires metadata; m_user := m_user metadata;
     m_ctime := ctime; m_mtime := mtime |}.

Definition entry_info (objectPath : string) (entry : directoryEntryTab) : M World S3ObjectInfo :=
  link ← lift (directoryEntryToLink objectPath entry);
  metadata ← readS3Metadata (EntryId_ entry);
  mret {| Link := link; Metadata := default (legacyS3Metadata link) metadata |}.

Definition StatS3Object (objectPath : string) : M World S3ObjectInfo :=
  entry ← Directory.Stat objectPath;
  _ ← check (Directory.IsDir entry) ErrNotExist;
  entry_info objectPath entry.

Definition statS3ObjectTx (objectPath : string) : M World (option S3ObjectInfo) :=
  entry ← Directory.Tx.Stat objectPath;
  match entry with
  | None => mret None
  | Some entry =>
      if Directory.IsDir entry then mret None
      else info ← entry_info objectPath entry; mret (Some info)
  end.

Definition ensureFileCanBeLinked : Z -> M World unit := ensureFileTreeCanBeLinked.
Definition markFilePendingIfUnreferenced : Z -> Z -> M World unit := markFileTreePendingIfUnreferenced.

Definition removeReplacedS3Object (objectPath : string) (current : option S3ObjectInfo) : M World Z :=
  match current with
  | None => mret 0
  | Some current =>
      _ ← Directory.Tx.Remove objectPath;
      _ ← deleteS3Metadata (EntryID (Link current));
      mret (LinkFileId (Link current))
  end.

Definition publishS3ObjectTx (objectPath : string) (fileID size : Z) (metadata : s3meta_row)
    (condition : option S3Condition) : M World S3ObjectInfo :=
  current ← statS3ObjectTx objectPath;
  _ ← lift (evaluateS3Condition current condition);
  _ ← ensureFileCanBeLinked fileID;
  replacedFileID ← removeReplacedS3Object objectPath current;
  entry ← Directory.Tx.Create objectPath size (FormatUint fileID);
  _ ← match current with
      | Some current => rebindWebDAVProtocolState (EntryID (Link current)) (EntryId_ entry) objectPath
      | None => mret tt
      end;
  t ← now;
  let stored := stored_metadata metadata (EntryId_ entry) t t in
  _ ← insertS3Metadata stored;
  _ ← (if negb (replacedFileID =? 0) && negb (replacedFileID =? fileID)
       then markFilePendingIfUnreferenced replacedFileID t else mret tt);
  link ← lift (directoryEntryToLink objectPath entry);
  mret {| Link := link; Metadata := stored |}.

Definition PublishS3Object (objectPath : string) (fileID size : Z) (metadata : s3meta_row)
    (condition : option S3Condition) : M World S3ObjectInfo :=
  OnTransation (publishS3ObjectTx objectPath fileID size metadata condition).

(** The link with another modification time. *)
Definition link_mtime (link : FileLinkMeta) (t : Z) : FileLinkMeta :=
  {| EntryID := EntryID link; FileName := FileName link; LinkFileId := LinkFileId link;
     FileMappingDao.FileSize := FileMappingDao.FileSize link; Mode := Mode link;
     FileMappingDao.Ctime := FileMappingDao.Ctime link; FileMappingDao.Mtime := t;
     IsDir := IsDir link |}.

Definition copySameS3ObjectTx (source : string) (sourceInfo : S3ObjectInfo)
    (metadata : option s3meta_row) : M World S3ObjectInfo :=
  match metadata with
  | None => mret sourceInfo
  | Some metadata =>
      t ← now;
      let stored := stored_metadata metadata (EntryID (Link sourceInfo))
                      (m_ctime (Metadata sourceInfo)) t in
      _ ← deleteS3Metadata (m_entry_id stored);
      _ ← insertS3Metadata stored;
      _ ← Directory.Tx.Touch source t;
      mret {| Link := link_mtime (Link sourceInfo) t; Metadata := stored |}
  end.

Definition copyDifferentS3ObjectTx (destination : string) (sourceInfo : S3ObjectInfo)
    (destinationInfo : option S3ObjectInfo) (metadata : option s3meta_row) : M World S3ObjectInfo :=
  replacedFileID ← removeReplacedS3Object destination destinationInfo;
  _ ← match destinationInfo with
      | Some destinationInfo =>
          _ ← deleteWebDAVProperties [EntryID (Link destinationInfo)];
          deleteWebDAVLocks [EntryID (Link destinationInfo)]
      | None => mret tt
      end;
  _ ← ensureFileCanBeLinked (LinkFileId (Link sourceInfo));
  entry ← Directory.Tx.Create destination (FileMappingDao.FileSize (Link sourceInfo))
            (FormatUint (LinkFileId (Link sourceInfo)));
  t ← now;
  let stored := stored_metadata (default (Metadata sourceInfo) metadata) (EntryId_ entry) t t in
  _ ← insertS3Metadata stored;
  _ ← copyWebDAVProperties [(EntryID (Link sourceInfo), EntryId_ entry)];
  _ ← (if negb (replacedFileID =? 0) && negb (replacedFileID =? LinkFileId (Link sourceInfo))
       then markFilePendingIfUnreferenced replacedFileID t else mret tt);
  link ← lift (directoryEntryToLink destination entry);
  mret {| Link := link; Metadata := stored |}.

Definition copyS3ObjectTx (source destination : string) (metadata : option s3meta_row)
    (sourceCondition destinationCondition : option S3Condition) : M World S3ObjectInfo :=
  sourceInfo ← statS3ObjectTx source;
  match sourceInfo with
  | None => fail ErrNotExist
  | Some sourceInfo =>
      _ ← lift (evaluateS3Condition (Some sourceInfo) sourceCondition);
      destinationInfo ← statS3ObjectTx destination;
      _ ← lift (evaluateS3Condition destinationInfo destinationCondition);
      if String.eqb source destination then copySameS3ObjectTx source sourceInfo metadata
      else copyDifferentS3ObjectTx destination sourceInfo destinationInfo metadata
  end.

Definition CopyS3Object (source destination : string) (metadata : option s3meta_row)
    (sourceCondition destinationCondition : option S3Condition) : M World S3ObjectInfo :=
  OnTransation (copyS3ObjectTx source destination metadata sourceCondition destinationCondition).

(** Whether there was an object to delete. *)
Definition DeleteS3Object (objectPath : string) (condition : option S3Condition) : M World bool :=
  OnTransation (
    current ← statS3ObjectTx objectPath;
    _ ← lift (evaluateS3Condition current condition);
    match current with
    | None => mret false
    | Some current =>
        _ ← Directory.Tx.Remove objectPath;
        _ ← deleteS3Metadata (EntryID (Link current));
        _ ← deleteWebDAVProperties [EntryID (Link current)];
        _ ← deleteWebDAVLocks [EntryID (Link current)];
        t ← now;
        _ ← markFilePendingIfUnreferenced (LinkFileId (Link current)) t;
        mret true
    end).
End S3Object.
End S3Object.
