(* ===== verification/AdminBrowser.v ===== *)
(** * Paged listings (src/filemgr/admin_browser.go, src/directory/db_directory.go)

    The admin browser reads a directory in pages: directories first, then files,
    each by name. Following the cursors from the first page enumerates every entry
    of the directory once. *)

From stdpp Require Import base strings list sorting.
From S2P Require Import Prelude Paging GoStr Store Directory DirFrame Tree DirWalk DirOps.
From S2P Require Import DirTx DirTheorems Dao.
Import Directory FileMappingDao.

Module AdminBrowser.

Definition maxFileLinkPageSize : Z := 500.

Record FileLinkPageCursor := {
  cParentEntryID : Z; cIsDir : bool; cName : string; cEntryID : Z }.
Record FileLinkPageRequest := {
  rqPath : string; rqCursor : option FileLinkPageCursor; rqLimit : Z }.
Record FileLinkPageResult := {
  rsParentEntryID : Z; rsItems : list FileLinkMeta; rsNextCursor : option FileLinkPageCursor }.

Definition toDirectoryPageCursor (cursor : option FileLinkPageCursor) : option PageCursor :=
  match cursor with
  | None => None
  | Some c => Some {| pcIsDir := cIsDir c; pcName := cName c; pcEntryID := cEntryID c |}
  end.

Definition fileLinkFromDirectoryEntry (entry : directoryEntryTab) : outcome FileLinkMeta :=
  let item := fun fid =>
    {| EntryID := EntryId_ entry; FileName := FileName_ entry; LinkFileId := fid;
       FileSize := FileSize_ entry; Mode := FileMode_ entry; Ctime := Ctime_ entry;
       Mtime := Mtime_ entry; IsDir := Directory.IsDir entry |} in
  if Directory.IsDir entry then Ok (item 0)
  else fileID ← ParseUint (RefData_ entry); Ok (item fileID).

Fixpoint page_items (entries : list directoryEntryTab) : outcome (list FileLinkMeta) :=
  match entries with
  | [] => Ok []
  | entry :: entries =>
      item ← fileLinkFromDirectoryEntry entry;
      rest ← page_items entries;
      Ok (item :: rest)
  end.

Section AdminBrowser.
Context `{!Env}.

Definition ListFileLinksPage (request : FileLinkPageRequest) : M World FileLinkPageResult :=
  _ ← check (bool_decide (rqPath request = "") || (rqLimit request <? 1) ||
             (maxFileLinkPageSize <? rqLimit request)) ErrInvalidFileLinkPage;
  parent ← GetFileLinkMeta (rqPath request);
  _ ← check (negb (IsDir parent)) ErrNotDirectory;
  _ ← check (match rqCursor request with
             | Some c => negb (cParentEntryID c =? EntryID parent)
             | None => false end) ErrFileLinkCursorStale;
  page ← ListPage (rqPath request) (toDirectoryPageCursor (rqCursor request)) (rqLimit request);
  _ ← check (negb (ParentEntryID page =? EntryID parent)) ErrFileLinkCursorStale;
  items ← lift (page_items (Entries page));
  mret {| rsParentEntryID := ParentEntryID page; rsItems := items;
          rsNextCursor :=
            if HasMore page then
              match last items with
              | Some l => Some {| cParentEntryID := ParentEntryID page; cIsDir := IsDir l;
                                  cName := FileName l; cEntryID := EntryID l |}
              | None => None
              end
            else None |}.

(** A browser that asks for page after page. *)
Fixpoint browse (fuel : nat) (path : string) (cursor : option FileLinkPageCursor) (limit : Z)
    : M World (list FileLinkMeta) :=
  match fuel with
  | O => fail Diverge
  | S fuel =>
      page ← ListFileLinksPage {| rqPath := path; rqCursor := cursor; rqLimit := limit |};
      match rsNextCursor page with
      | None => mret (rsItems page)
      | Some c => rest ← browse fuel path (Some c) limit; mret (rsItems page ++ rest)
      end
  end.
End AdminBrowser.
End AdminBrowser.
Import AdminBrowser.

(** ** The order of the listing *)

(** Two rows of one directory in listing order, without equality. *)
Definition page_lt (a b : row) : bool :=
  (FileKind_ a <? FileKind_ b) ||
  ((FileKind_ a =? FileKind_ b) &&
   (String.ltb (FileName_ a) (FileName_ b) ||
    (String.eqb (FileName_ a) (FileName_ b) && (EntryId_ a <? EntryId_ b)))).

Definition row_cursor (r : row) : PageCursor :=
  {| pcIsDir := Directory.IsDir r; pcName := FileName_ r; pcEntryID := EntryId_ r |}.

Definition known_kind (r : row) : Prop :=
  FileKind_ r = defaultFileKindDir \/ FileKind_ r = defaultFileKindFile.

Lemma after_cursor_lt r r' : known_kind r -> after_cursor (Some (row_cursor r)) r' = page_lt r r'.
Proof.
  intros Hk. unfold after_cursor, row_cursor, page_lt, Directory.IsDir. cbn [pcIsDir pcName pcEntryID].
  assert ((if FileKind_ r =? defaultFileKindDir then defaultFileKindDir else defaultFileKindFile)
    = FileKind_ r) as -> by (by destruct Hk as [-> | ->]).
  rewrite (Z.eqb_sym (FileKind_ r')), (String.eqb_sym (FileName_ r')).
  destruct (FileKind_ r <? FileKind_ r'), (FileKind_ r =? FileKind_ r'),
    (String.ltb _ _), (String.eqb _ _), (EntryId_ r <? EntryId_ r'); done.
Qed.

Lemma page_le_trans a b c : page_le a b = true -> page_le b c = true -> page_le a c = true.
Proof.
  unfold page_le. rewrite !orb_true_iff, !andb_true_iff, !orb_true_iff, !andb_true_iff,
    !Z.ltb_lt, !Z.eqb_eq, !Z.leb_le, !String.eqb_eq.
  intros [H1|[E1 [H1|[N1 I1]]]] [H2|[E2 [H2|[N2 I2]]]]; try (left; lia); right; (split; [lia|]).
  - left. by eapply ltb_trans.
  - left. by rewrite <- N2.
  - left. by rewrite N1.
  - right. split; [congruence|lia].
Qed.

Lemma page_le_total a b : page_le a b = true \/ page_le b a = true.
Proof.
  unfold page_le. rewrite !orb_true_iff, !andb_true_iff, !orb_true_iff, !andb_true_iff,
    !Z.ltb_lt, !Z.eqb_eq, !Z.leb_le, !String.eqb_eq.
  destruct (Z.lt_trichotomy (FileKind_ a) (FileKind_ b)) as [?|[E|?]]; [by left; left| |by right; left].
  destruct (ltb_trichotomy (FileName_ a) (FileName_ b)) as [?|[N|?]].
  - left. right. split; [done|by left].
  - destruct (Z.le_ge_cases (EntryId_ a) (EntryId_ b)).
    + left. right. split; [done|right; done].
    + right. right. split; [done|]. right. by split.
  - right. right. split; [done|by left].
Qed.

Lemma page_lt_le a b : page_le a b = true -> EntryId_ a <> EntryId_ b -> page_lt a b = true.
Proof.
  unfold page_le, page_lt. rewrite !orb_true_iff, !andb_true_iff, !orb_true_iff, !andb_true_iff,
    !Z.ltb_lt, !Z.leb_le. intros [?|[? [?|[? ?]]]] Hne; [by left|right..]; (split; [done|]); [by left|].
  right. split; [done|lia].
Qed.

Lemma page_lt_asym a b : page_lt a b = true -> page_le b a = false.
Proof.
  intros Hlt. apply not_true_iff_false. revert Hlt. unfold page_le, page_lt.
  rewrite !orb_true_iff, !andb_true_iff, !orb_true_iff, !andb_true_iff,
    !Z.ltb_lt, !Z.eqb_eq, !Z.leb_le, !String.eqb_eq.
  intros [H1|[E1 [H1|[N1 I1]]]] [H2|[E2 [H2|[N2 I2]]]]; try lia.
  - pose proof (ltb_trans _ _ _ H1 H2) as Hx. by rewrite ltb_irrefl in Hx.
  - rewrite N2, ltb_irrefl in H1. done.
  - rewrite N1, ltb_irrefl in H2. done.
Qed.

(** ** Following the cursors *)

Definition listing (t : list row) (pid : Z) : list row :=
  order_by page_le (sql_select (fun r => ParentEntryId_ r =? pid) t).

(** The cursor behind the rows [l1]. *)
Definition cut_cursor (l1 : list row) : option PageCursor := row_cursor <$> last l1.

Section Browse.
Context `{!Env} (w : World) (Hwf : wf_tree (T w)).

Lemma Stat_found s cs r :
  denotes s cs -> rooted s = true -> find (T w) cs = Some r -> Stat s w = (Ok r, w).
Proof using Hwf.
  intros Hd Hr Hf. unfold Stat. destruct cs as [|c cs _] using rev_ind.
  - rewrite (splitFilename_root s Hd Hr). unfold txGetRoot.
    rewrite (bind_ok (txSearchEntry 0 "/") _ w (search_row 0 "/" (T w)) w eq_refl).
    rewrite (slot_search (T w) 0 "/" []) by (done || by left). by rewrite Hf.
  - destruct (splitFilename_denotes _ _ _ Hd) as (dir & -> & Hdir).
    unfold onSelectDir, OnTransation, txOnSelectDir. rewrite (rebuildDirItems_denotes _ _ Hdir).
    rewrite (bind_ok _ _ w ("/" :: cs) w eq_refl).
    pose proof (proj1 (find_spec _ _ _ Hwf) Hf) as (p & Hp & Hpd & _)%at_path_snoc_inv.
    assert (walk (T w) 0 ("/" :: cs) = Ok (EntryId_ p)) as Hw by (apply walk_ok; eauto).
    rewrite (bind_ok _ _ w (EntryId_ p) w) by (by rewrite select_loop_walk, Hw).
    rewrite (bind_ok (txSearchEntry (EntryId_ p) c) _ w (search_row (EntryId_ p) c (T w)) w eq_refl).
    rewrite (slot_search (T w) (EntryId_ p) c (cs ++ [c])) by (done || right; by exists cs, p).
    by rewrite Hf.
Qed.

Lemma onSelectDir_found {A} s cs p (cb : Z -> M World A) :
  denotes s cs -> find (T w) cs = Some p -> Directory.IsDir p = true ->
  onSelectDir s false cb w = OnTransation (cb (EntryId_ p)) w.
Proof using Hwf.
  intros Hd Hf Hp. unfold onSelectDir, OnTransation, txOnSelectDir.
  rewrite (rebuildDirItems_denotes _ _ Hd). rewrite (bind_ok _ _ w ("/" :: cs) w eq_refl).
  assert (walk (T w) 0 ("/" :: cs) = Ok (EntryId_ p)) as Hw.
  { apply walk_ok; [done|]. exists p. split; [by apply find_spec|done]. }
  by rewrite (bind_ok _ _ w (EntryId_ p) w) by (by rewrite select_loop_walk, Hw).
Qed.

(** The rows of a page, whatever comes before the cursor. *)
Lemma listing_rest pid l1 l2 :
  listing (T w) pid = l1 ++ l2 ->
  order_by page_le (sql_select (fun r => (ParentEntryId_ r =? pid) &&
    after_cursor (cut_cursor l1) r) (T w)) = l2.
Proof using Hwf.
  intros E.
  assert (forall r, r ∈ l1 ++ l2 -> r ∈ T w) as Hin.
  { intros r Hr. rewrite <- E in Hr. apply order_by_elem, sql_select_elem in Hr. by destruct Hr. }
  pose proof (order_by_sorted page_le page_le_trans page_le_total
    (sql_select (fun r => ParentEntryId_ r =? pid) (T w))) as Hs. fold (listing (T w) pid) in Hs.
  rewrite E in Hs.
  assert (NoDup (EntryId_ <$> l1 ++ l2)) as Hnd.
  { rewrite <- E. unfold listing. rewrite order_by_perm.
    eapply sublist_NoDup; [apply (wf_ids _ Hwf)|]. apply fmap_sublist, filter_sublist. }
  assert (forall a b, a ∈ T w -> b ∈ T w -> page_le a b = true -> page_le b a = true -> a = b) as Hanti.
  { intros a b Ha Hb H1 H2. destruct (decide (EntryId_ a = EntryId_ b)) as [Ei|Hne];
      [by apply (id_inj _ Hwf)|].
    pose proof (page_lt_asym a b (page_lt_le a b H1 Hne)). congruence. }
  eapply (keyset_rest page_le page_le_trans page_le_total (T w) Hanti); [exact E|..];
    intros r Hr; unfold cut_cursor; destruct (last l1) as [x|] eqn:Ex;
    [|by apply last_None in Ex; subst; apply elem_of_nil in Hr| |done];
    apply last_Some in Ex as [l ->]; cbn [fmap option_fmap option_map];
    (assert (x ∈ (l ++ [x]) ++ l2) as Hx by (apply elem_of_app; left; apply elem_of_app; right; by left));
    rewrite after_cursor_lt by (by apply (wf_kind _ Hwf), Hin).
  - apply not_true_iff_false. intros Hlt%page_lt_asym.
    apply elem_of_app in Hr as [Hr|Hr%list_elem_of_singleton].
    + rewrite <- app_assoc in Hs.
      pose proof (StronglySorted_app_1_elem_of (fun a b => page_le a b = true) _ _ r x Hs Hr ltac:(left)).
      congruence.
    + subst r. destruct (page_le_total x x); congruence.
  - apply page_lt_le.
    + eapply (StronglySorted_app_1_elem_of (fun a b => page_le a b = true)); [exact Hs| |done].
      apply elem_of_app. right. by left.
    + intros Ei. rewrite fmap_app in Hnd. apply NoDup_app in Hnd as (_ & Hdis & _).
      apply (Hdis (EntryId_ x)); [|rewrite Ei; by apply list_elem_of_fmap_2].
      apply list_elem_of_fmap_2, elem_of_app. right. by left.
Qed.

(** A row the browser can show: it has a name, and a file has a file id. *)
Definition showable (r : row) : Prop :=
  FileName_ r <> "" /\ (Directory.IsDir r = true \/ exists n, ParseUint (RefData_ r) = Ok n).

Lemma page_items_ok l :
  Forall showable l -> exists items, page_items l = Ok items /\
    Forall2 (fun r i => EntryID i = EntryId_ r /\ FileName i = FileName_ r /\
                        IsDir i = Directory.IsDir r) l items.
Proof.
  induction 1 as [|r l [_ Hr] _ (items & IH & Hitems)]; [by exists []|]. cbn [page_items].
  assert (exists i, fileLinkFromDirectoryEntry r = Ok i /\ EntryID i = EntryId_ r /\
    FileName i = FileName_ r /\ IsDir i = Directory.IsDir r) as (i & E & Hi).
  { unfold fileLinkFromDirectoryEntry. destruct (Directory.IsDir r) eqn:Ed; [by eexists|].
    destruct Hr as [?|[n Hn]]; [done|]. rewrite Hn. by eexists. }
  exists (i :: items). rewrite E. cbn [mbind outcome_bind]. rewrite IH. by split; [|constructor].
Qed.

Definition link_cursor (pid : Z) (l1 : list row) : option FileLinkPageCursor :=
  (fun r => {| cParentEntryID := pid; cIsDir := Directory.IsDir r; cName := FileName_ r;
               cEntryID := EntryId_ r |}) <$> last l1.

Lemma to_cursor pid l1 : toDirectoryPageCursor (link_cursor pid l1) = cut_cursor l1.
Proof. unfold link_cursor, cut_cursor. by destruct (last l1). Qed.

Lemma Forall2_last {A B} (P : A -> B -> Prop) l k x :
  Forall2 P l k -> last l = Some x -> exists y, last k = Some y /\ P x y.
Proof.
  intros HP [l0 ->]%last_Some. apply Forall2_app_inv_l in HP as (k1 & k2 & _ & H2 & ->).
  inversion H2 as [|? y ? ? Hxy H3]; subst. inversion H3; subst. exists y. by rewrite last_snoc.
Qed.

Context (path : string) (cs : list string) (p : row) (limit : Z).
Hypothesis (Hpath : denotes path cs) (Hroot : rooted path = true)
  (Hfind : find (T w) cs = Some p) (Hdir : Directory.IsDir p = true) (Hlimit : 1 <= limit <= 500)
  (Hshow : forall r, r ∈ T w -> ParentEntryId_ r = EntryId_ p -> showable r).

Lemma ListPage_at l1 l2 :
  listing (T w) (EntryId_ p) = l1 ++ l2 ->
  ListPage path (cut_cursor l1) limit w =
  (Ok {| ParentEntryID := EntryId_ p; Entries := take (Z.to_nat limit) l2;
         HasMore := limit <? zlen l2 |}, w).
Proof using Hwf Hpath Hfind Hdir Hlimit Hshow.
  intros E. unfold ListPage.
  assert ((limit =? 0) || (500 <? limit) = false) as -> by lia.
  rewrite (bind_ok (check false _) _ w tt w eq_refl).
  assert ((match cut_cursor l1 with
     | Some c => String.eqb (pcName c) "" || (pcEntryID c =? 0) | None => false end) = false) as ->.
  { unfold cut_cursor. destruct (last l1) as [x|] eqn:Ex; [|done]. cbn.
    assert (x ∈ T w /\ ParentEntryId_ x = EntryId_ p) as [Hx Hxp].
    { assert (x ∈ listing (T w) (EntryId_ p)) as Hx.
      { rewrite E. apply elem_of_app. left. by apply last_Some_elem_of. }
      apply order_by_elem, sql_select_elem in Hx as [? ?%Z.eqb_eq]. done. }
    destruct (Hshow x Hx Hxp) as [Hn _]. pose proof (wf_pos _ Hwf x Hx).
    apply orb_false_iff. split; [by apply String.eqb_neq|lia]. }
  rewrite (bind_ok (check false _) _ w tt w eq_refl).
  rewrite (onSelectDir_found path cs p _ Hpath Hfind Hdir). unfold OnTransation, txListDirPage, query.
  rewrite (bind_ok (reads _) _ w _ w eq_refl). rewrite (listing_rest (EntryId_ p) l1 l2 E).
  unfold sql_limit. rewrite drop_0. unfold zlen, ztake. rewrite length_take.
  destruct (Z.ltb_spec limit (Z.of_nat (length l2))).
  - rewrite (proj2 (Z.ltb_lt _ _)) by lia. rewrite take_take.
    by replace (Nat.min (Z.to_nat limit) (Z.to_nat (limit + 1))) with (Z.to_nat limit) by lia.
  - rewrite (proj2 (Z.ltb_ge _ _)) by lia. by rewrite !take_ge by lia.
Qed.

Lemma ListFileLinksPage_at l1 l2 :
  listing (T w) (EntryId_ p) = l1 ++ l2 ->
  exists items, page_items (take (Z.to_nat limit) l2) = Ok items /\
  (EntryID <$> items) = (EntryId_ <$> take (Z.to_nat limit) l2) /\
  ListFileLinksPage {| rqPath := path; rqCursor := link_cursor (EntryId_ p) l1; rqLimit := limit |} w =
  (Ok {| rsParentEntryID := EntryId_ p; rsItems := items;
         rsNextCursor := if limit <? zlen l2
           then link_cursor (EntryId_ p) (l1 ++ take (Z.to_nat limit) l2) else None |}, w).
Proof using Hwf Hpath Hroot Hfind Hdir Hlimit Hshow.
  intros E. destruct (page_items_ok (take (Z.to_nat limit) l2)) as (items & Hitems & Hrel).
  { apply Forall_forall. intros r Hr.
    assert (r ∈ listing (T w) (EntryId_ p)) as Hin.
    { rewrite E. apply elem_of_app. right. eapply elem_of_sublist; [exact Hr|apply sublist_take]. }
    apply order_by_elem, sql_select_elem in Hin as [Hin Hp%Z.eqb_eq]. by apply Hshow. }
  exists items. split; [done|]. split.
  { clear -Hrel. induction Hrel as [|r i l k (Ei & _) _ IH]; [done|]. by rewrite !fmap_cons, Ei, IH. }
  unfold ListFileLinksPage. cbn [rqPath rqCursor rqLimit].
  rewrite (bool_decide_eq_false_2 (path = "")) by (intros ->; done).
  assert (false || (limit <? 1) || (maxFileLinkPageSize <? limit) = false) as ->.
  { unfold maxFileLinkPageSize. lia. }
  rewrite (bind_ok (check false _) _ w tt w eq_refl).
  unfold GetFileLinkMeta. rewrite (bind_ok _ _ w
    {| EntryID := EntryId_ p; FileName := FileName_ p; LinkFileId := 0; FileSize := FileSize_ p;
       Mode := FileMode_ p; Ctime := Ctime_ p; Mtime := Mtime_ p; IsDir := Directory.IsDir p |} w).
  2: { rewrite (bind_ok _ _ _ _ _ (Stat_found path cs p Hpath Hroot Hfind)).
       unfold directoryEntryToFileMappingItem. by rewrite Hdir. }
  cbn [IsDir EntryID]. rewrite Hdir. cbn [negb]. rewrite (bind_ok (check false _) _ w tt w eq_refl).
  assert ((match link_cursor (EntryId_ p) l1 with
    | Some c => negb (cParentEntryID c =? EntryId_ p) | None => false end) = false) as ->.
  { unfold link_cursor. destruct (last l1); [|done]. cbn. by rewrite Z.eqb_refl. }
  rewrite (bind_ok (check false _) _ w tt w eq_refl).
  rewrite to_cursor. rewrite (bind_ok _ _ _ _ _ (ListPage_at l1 l2 E)).
  cbn [ParentEntryID Entries HasMore]. rewrite Z.eqb_refl. cbn [negb].
  rewrite (bind_ok (check false _) _ w tt w eq_refl). rewrite Hitems.
  rewrite (bind_ok (lift (Ok items)) _ w items w eq_refl). do 3 f_equal.
  destruct (Z.ltb_spec limit (zlen l2)) as [Hlt|]; [|done].
  unfold link_cursor. rewrite last_app.
  destruct (last (take (Z.to_nat limit) l2)) as [x|] eqn:Ex.
  - destruct (Forall2_last _ _ _ _ Hrel Ex) as (y & -> & E1 & E2 & E3). cbn. by rewrite E1, E2, E3.
  - exfalso. apply last_None in Ex. apply (f_equal length) in Ex. rewrite length_take in Ex.
    unfold zlen in Hlt. simpl in Ex. lia.
Qed.

Lemma browse_at fuel l1 l2 :
  listing (T w) (EntryId_ p) = l1 ++ l2 -> (length l2 < fuel)%nat ->
  exists items, browse fuel path (link_cursor (EntryId_ p) l1) limit w = (Ok items, w) /\
    (EntryID <$> items) = (EntryId_ <$> l2).
Proof using Hwf Hpath Hroot Hfind Hdir Hlimit Hshow.
  revert l1 l2. induction fuel as [|fuel IH]; intros l1 l2 E Hf; [lia|]. cbn [browse].
  destruct (ListFileLinksPage_at l1 l2 E) as (items & _ & Hids & Hrun).
  rewrite (bind_ok _ _ _ _ _ Hrun). cbn [rsNextCursor rsItems].
  destruct (Z.ltb_spec limit (zlen l2)) as [Hlt|Hge].
  - destruct (IH (l1 ++ take (Z.to_nat limit) l2) (drop (Z.to_nat limit) l2)) as (rest & Hrest & Hrids).
    { by rewrite E, <- app_assoc, take_drop. }
    { rewrite length_drop. unfold zlen in Hlt. lia. }
    destruct (link_cursor (EntryId_ p) (l1 ++ take (Z.to_nat limit) l2)) as [c|] eqn:Ec.
    + exists (items ++ rest). rewrite (bind_ok _ _ _ _ _ Hrest). split; [done|].
      by rewrite fmap_app, Hids, Hrids, <- fmap_app, take_drop.
    + exfalso. unfold link_cursor in Ec. apply fmap_None, last_None in Ec.
      apply app_eq_nil in Ec as [_ Ec]. apply (f_equal length) in Ec.
      rewrite length_take in Ec. unfold zlen in Hlt. simpl in Ec. lia.
  - exists items. split; [done|]. rewrite Hids. f_equal. apply take_ge. unfold zlen in Hge. lia.
Qed.
End Browse.

(** Asking for page after page, each from the cursor of the one before, lists
    every entry of the directory exactly once, directories before files and each
    by name, for every page size, and it ends. *)
Theorem browse_lists_directory `{!Env} path cs p limit w :
  wf_tree (T w) -> denotes path cs -> rooted path = true ->
  find (T w) cs = Some p -> Directory.IsDir p = true -> 1 <= limit <= 500 ->
  (forall r, r ∈ T w -> ParentEntryId_ r = EntryId_ p -> showable r) ->
  exists items, browse (S (length (T w))) path None limit w = (Ok items, w) /\
    (EntryID <$> items) = (EntryId_ <$> listing (T w) (EntryId_ p)) /\
    NoDup (EntryID <$> items) /\
    forall r, r ∈ T w -> (ParentEntryId_ r = EntryId_ p <-> EntryId_ r ∈ EntryID <$> items).
Proof.
  intros Hwf Hpath Hroot Hfind Hdir Hlimit Hshow.
  destruct (browse_at w Hwf path cs p limit Hpath Hroot Hfind Hdir Hlimit Hshow
    (S (length (T w))) [] (listing (T w) (EntryId_ p)) eq_refl) as (items & Hrun & Hids).
  { unfold listing. rewrite (Permutation_length (order_by_perm _ _)).
    pose proof (sublist_length _ _ (filter_sublist (fun r => ParentEntryId_ r =? EntryId_ p) (T w))).
    unfold sql_select. lia. }
  exists items. split; [done|]. split; [done|]. rewrite Hids. split.
  - unfold listing. rewrite order_by_perm. eapply sublist_NoDup; [apply (wf_ids _ Hwf)|].
    apply fmap_sublist, filter_sublist.
  - intros r Hr. rewrite list_elem_of_fmap. split.
    + intros Hp. exists r. split; [done|]. apply order_by_elem, sql_select_elem. by rewrite Z.eqb_eq.
    + intros (r' & Ei & Hr'). apply order_by_elem, sql_select_elem in Hr' as [Hr' Hp%Z.eqb_eq].
      by rewrite (id_inj _ Hwf r r' Hr Hr' Ei).
Qed.

Lemma browse_lists_directory_witness :
  exists items, @browse demo_env 7 "/a" None 1 demo_world = (Ok items, demo_world) /\
    map FileName items = ["c"; "b"] /\ NoDup (EntryID <$> items).
Proof.
  assert (denotes "/a" ["a"]) as Hd by (by apply (bool_decide_unpack _)).
  destruct (find (T demo_world) ["a"]) as [p|] eqn:Ep; [|vm_compute in Ep; discriminate Ep].
  destruct (@browse_lists_directory demo_env "/a" ["a"] p 1 demo_world (proj1 demo_world_wf) Hd
    eq_refl Ep) as (items & Hrun & _ & Hnd & _).
  - vm_compute in Ep. injection Ep as <-. reflexivity.
  - lia.
  - intros r Hr Hpar. vm_compute in Ep. injection Ep as <-. cbn [EntryId_] in Hpar.
    assert (T demo_world = ltac:(let x := eval vm_compute in (T demo_world) in exact x)) as Et
      by (vm_compute; reflexivity).
    rewrite Et in Hr. unfold showable.
    repeat (apply elem_of_cons in Hr as [-> |Hr];
      [first [discriminate Hpar
             |split; [discriminate|first [left; reflexivity|right; eexists; reflexivity]]]|]).
    apply elem_of_nil in Hr. destruct Hr.
  - exists items. split.
    + replace 7%nat with (S (length (T demo_world))); [exact Hrun|]. vm_compute. reflexivity.
    + split; [|exact Hnd]. vm_compute in Hrun. injection Hrun as <-. reflexivity.
Defined.
