(* ===== verification/FileManager.v ===== *)
(** * The file manager (src/filemgr/file_manager_impl.go)

    Files are drafts, then parts uploaded to the block store one after the other,
    then ready. Files are opened through the physical or the composite stream and
    purged when nothing refers to them. The I/O cache that stands in front of the
    streams and the caches of src/dao/cache/ are left out. *)

From stdpp Require Import base strings list gmap.
From S2P Require Import Prelude GoStr Crc BlockIO FileStream CompositeStream Store Directory.
From S2P Require Import References DeleteWorker Dao.

(** Packages crypto/md5 (with encoding/hex) and encoding/json, as far as file
    metadata uses them: the extension info of a file carries its digest. *)
Class FileCodec := {
  md5_hex : list Z -> string;
  marshal_ext : string -> string;
  unmarshal_ext : string -> option string;
  unmarshal_marshal_ext : forall s, unmarshal_ext (marshal_ext s) = Some s }.

Module FileManager.

Definition EmptyFileMD5Sum : string := "d41d8cd98f00b204e9800998ecf8427e".

Definition string_bytes (s : string) : list Z :=
  map (fun c => Z.of_N (Ascii.N_of_ascii c)) (String.list_ascii_of_string s).

(** entity.FileMeta *)
Record FileMeta := {
  fmFileId : Z; fmFileSize : Z; fmCtime : Z; fmMtime : Z; fmFileState : Z; fmMd5Sum : string;
  fmFilePartCount : Z; fmLayoutVersion : Z }.

Definition calculateFileBlockCount (size blockSize : Z) : outcome Z :=
  if size <? 0 then Err ErrInvalidFileSize
  else if blockSize <=? 0 then Err ErrInvalidBlockSize
  else if size =? 0 then Ok 0
  else
    let count := 1 + Z.quot (size - 1) blockSize in
    if FileStream.maxFilePartCount <? count then Err ErrTooManyFileParts else Ok count.

(** [io.LimitReader(r, n)]: it does not touch [r] again after [n] bytes. *)
Definition limit_source (src : source) (n : Z) : source :=
  if n <=? zlen (src_data src)
  then {| src_data := ztake n (src_data src); src_err := None |}
  else src.
Definition drop_source (src : source) (n : Z) : source :=
  {| src_data := zdrop n (src_data src); src_err := src_err src |}.

(** The streams [OpenFile] builds. *)
Inductive stream :=
  | Physical (f : FileStream.defaultFsIO)
  | CompositeFile (f : Composite.compositeFileStream).

Section FileManager.
Context `{!Env} {B : Type} `{!IBlockIO B} `{!FileCodec}.

Definition ToFileMeta (f : file_row) : FileMeta :=
  let md5 := if negb (bool_decide (f_extinfo f = "")) && negb (bool_decide (f_extinfo f = "{}"))
             then default "" (unmarshal_ext (f_extinfo f)) else "" in
  {| fmFileId := f_file_id f; fmFileSize := f_size f; fmCtime := f_ctime f; fmMtime := f_mtime f;
     fmFileState := f_state f;
     fmMd5Sum := if (f_size f =? 0) && bool_decide (md5 = "") then EmptyFileMD5Sum else md5;
     fmFilePartCount := f_part_count f; fmLayoutVersion := f_layout f |}.

(** ** Writing *)

Definition CreateFileDraft (size : Z) : M (World * B) (Z * Z) :=
  blockSize ← reads (fun s => MaxFileSize s.2);
  blockCount ← lift (calculateFileBlockCount size blockSize);
  fileid ← on_db (FileDao.CreateFileDraft size blockCount);
  mret (fileid, blockSize).

(** [bkio.Upload] of the counted reader: the result and the bytes it took. *)
Definition upload (src : source) : M (World * B) (UploadResult * Z) := fun s =>
  let '(res, n, b) := Upload src s.2 in
  (match res with Ok res => Ok (res, n) | Err e => Err e end, (s.1, b)).

(** It returns the count of the reader it was given. *)
Definition CreateFilePart (fileid partid : Z) (src : source) : M (World * B) Z :=
  _ ← check ((partid <? 0) || (FileStream.maxFilePartCount <? partid)) ErrInvalidFilePart;
  r ← upload src;
  let '(res, count) := r in
  _ ← check (bool_decide (FileKey res = "") || bool_decide (DeleteRef res = "") ||
             (UploadedAt res <=? 0)) ErrInvalidUploadDeleteReference;
  backend ← reads (fun s => bio_name s.2);
  created ← attempt (on_db (FilePartDao.CreateFilePart
    {| FilePartDao.FileId := fileid; FilePartDao.FilePartId := partid;
       FilePartDao.ReqFileKey := FileKey res;
       FilePartDao.FilePartMd5 := md5_hex (ztake count (src_data src));
       FilePartDao.FilePartSize := count; FilePartDao.BackendKind := backend;
       FilePartDao.ReqDeleteRef := DeleteRef res; FilePartDao.ReqUploadedAt := UploadedAt res |}));
  match created with
  | Ok _ => mret count
  | Err e =>
      _ ← attempt (on_store (DeleteBlocks [DeleteRef res]));
      fail e
  end.

Definition file_md5 (parts : list part_row) : string :=
  match parts with
  | [] => EmptyFileMD5Sum
  | [p] => p_md5 p
  | _ => md5_hex (concat (map (fun p => string_bytes (p_md5 p)) parts))
  end.

Definition FinishFileCreate (fileid : Z) : M World unit :=
  fps ← FilePartDao.ListFilePart fileid;
  FileDao.MarkFileReady fileid (marshal_ext (file_md5 fps)).

(** The loop of [createFile]; [n] parts are left. *)
Fixpoint create_parts (n : nat) (fileid blksize size partID uploadedSize : Z) (src : source)
    : M (World * B) unit :=
  match n with
  | O => mret tt
  | S n =>
      let partSize := Z.min blksize (size - uploadedSize) in
      count ← CreateFilePart fileid partID (limit_source src partSize);
      _ ← check (negb (count =? partSize)) ErrFileShortRead;
      create_parts n fileid blksize size (partID + 1) (uploadedSize + count) (drop_source src count)
  end.

(** The file id comes back with the error once the draft exists. *)
Definition createFile (size : Z) (src : source) : M (World * B) (Z * option err) :=
  draft ← attempt (CreateFileDraft size);
  match draft with
  | Err e => mret (0, Some e)
  | Ok (fileid, blksize) =>
      r ← attempt (
        blockCount ← lift (calculateFileBlockCount size blksize);
        _ ← create_parts (Z.to_nat blockCount) fileid blksize size 0 0 src;
        on_db (FinishFileCreate fileid));
      mret (fileid, match r with Ok _ => None | Err e => Some e end)
  end.

Definition CreateFile (size : Z) (src : source) : M (World * B) Z :=
  r ← createFile size src;
  match r with
  | (fileID, None) => mret fileID
  | (fileID, Some e) =>
      if fileID =? 0 then fail e
      else
        _ ← attempt (on_db (References.DiscardUnpublishedFile fileID));
        fail e
  end.

(** ** Reading *)

Definition internalGetFileInfo (fileid : Z) : M World (option file_row) :=
  rs ← FileDao.GetFileInfo [fileid]; mret (head rs).

Definition internalGetFilePartInfo (fileid partid : Z) : M World (option part_row) :=
  rs ← FilePartDao.GetFilePartInfo fileid [partid]; mret (head rs).

(** The block lookup that [lowlevelIOStream] hands to the stream. *)
Definition block_key (w : World) (fileid blkid : Z) : outcome string :=
  match (internalGetFilePartInfo fileid blkid w).1 with
  | Err e => Err e
  | Ok None => Err ErrFilePartNotFound
  | Ok (Some pinfo) => Ok (p_key pinfo)
  end.

Definition lowlevelIOStream (filesize : Z) : FileStream.defaultFsIO :=
  FileStream.newFileStream filesize.

Definition StatFile (fileid : Z) : M World FileMeta :=
  finfo ← internalGetFileInfo fileid;
  match finfo with
  | None => fail ErrNotExist
  | Some finfo => mret (ToFileMeta finfo)
  end.

(** The rows of the manifest query in [loadCompositeManifest]. *)
Definition manifest_of (d : DB) (fileid : Z) : list Composite.manifest_row :=
  map (fun s => {| Composite.r_index := References.index s;
                   Composite.r_sourceFileID := References.sourceFileID s;
                   Composite.r_segmentSize := References.segSize s;
                   Composite.r_source := References.source s |})
      (References.manifest_rows d fileid).

Definition OpenFile (fileid : Z) : M World stream :=
  finfo ← internalGetFileInfo fileid;
  match finfo with
  | None => fail ErrNotExist
  | Some finfo =>
      if f_layout finfo =? 1 then mret (Physical (lowlevelIOStream (f_size finfo)))
      else if f_layout finfo =? 2 then
        rows ← query (fun d => manifest_of d fileid);
        f ← lift (Composite.compositeIOStream rows (f_size finfo));
        mret (CompositeFile f)
      else fail ErrInvalidFileLayout
  end.

(** ** Purging *)

Definition fileHasDeleteState (f : Z) : M World bool :=
  count ← query (fun d => sql_count (fun r => d_file_id r =? f) (t_delete d));
  mret (negb (count =? 0)).

Definition cleanUnRefFileIdList (fidlist : list Z) : M World Z :=
  fold_each (fun cleaned fid =>
    hasDeleteState ← fileHasDeleteState fid;
    if (hasDeleteState : bool) then mret cleaned
    else
      _ ← FilePartDao.DeleteFilePart [fid];
      _ ← FileDao.DeleteFile [fid];
      mret (cleaned + 1)) 0 fidlist.

(** The three queries for files that segments and running uploads protect. *)
Definition protected_ids (d : DB) : list (list Z) :=
  [map sg_file_id (t_segment d); map sg_source (t_segment d);
   map mp_file_id (sql_select (fun p => mp_active p &&
     sql_exists (fun u => bool_decide (u_upload_id u = mp_upload_id p) && u_active u) (t_upload d))
     (t_mpart d))].

(** The order of the result is that of a Go map: none. *)
Definition readUnRefFileIdList (limitMtime : Z) : M World (list Z) :=
  fidMap ← FileDao.ScanFile (A := gset Z) 2000 (fun fidMap res =>
             mret (true, foldl (fun acc item =>
               if limitMtime <=? f_mtime item then acc else {[f_file_id item]} ∪ acc) fidMap res)) ∅;
  if bool_decide (fidMap = ∅) then mret []
  else
    fidMap ← FileMappingDao.ScanFileLink (A := gset Z) 2000 (fun fidMap res =>
               mret (true, foldl (fun acc item => acc ∖ {[FileMappingDao.LinkFileId item]}) fidMap res))
               fidMap;
    if bool_decide (fidMap = ∅) then mret []
    else
      protected ← query protected_ids;
      mret (elements (foldl (fun acc ids => acc ∖ list_to_set ids) fidMap protected)).

(** [before], or one day ago. *)
Definition PurgeFile (before : option Z) : M World Z :=
  t ← now;
  let limitMtime := default (t - 24 * 3600 * 1000) before in
  fidList ← readUnRefFileIdList limitMtime;
  cleanUnRefFileIdList fidList.
End FileManager.
End FileManager.
