(* ===== verification/DaoCache.v ===== *)
(** * The caches of rows (src/cacheapi, src/dao/cache)

    Reads of file and part rows go through caches in memory (expirable LRU caches, which
    may drop a row at any time); writes drop the rows they change. *)

From stdpp Require Import base strings list gmap.
From S2P Require Import Prelude GoStr Store Directory Dao.

(** What the LRU cache keeps after its [n]-th access: fewer rows, never others. *)
Class Lru (K V : Type) `{Countable K} := {
  lru_keep : nat -> gmap K V -> gmap K V;
  lru_drops : forall n m, lru_keep n m ⊆ m }.

(** ** cacheapi *)
Module CacheApi.
Section CacheApi.
Context {K V : Type} `{Countable K} `{!Lru K V}.

(** The database, the cache and the number of accesses to it. *)
Record cached := { cw : World; store : gmap K V; accesses : nat }.
Definition in_world {A} (m : M World A) : M cached A := fun s =>
  let '(r, w) := m (cw s) in (r, {| cw := w; store := store s; accesses := accesses s |}).
Definition access (f : gmap K V -> gmap K V) : M cached unit :=
  modify (fun s => {| cw := cw s; store := lru_keep (accesses s) (f (store s)); accesses := S (accesses s) |}).

(** The adaptor of the LRU cache; [None] is [ErrCacheKeyNotExist]. *)
Definition Get (k : K) : M cached (option V) :=
  _ ← access id;
  reads (fun s => store s !! k).
Definition Set_ (k : K) (v : V) : M cached unit := access (<[k := v]>).
Definition Del (k : K) : M cached unit := access (delete k).

Fixpoint get_loop (ks : list K) (m : gmap K V) (miss : list K) : M cached (gmap K V * list K) :=
  match ks with
  | [] => mret (m, miss)
  | k :: ks =>
      v ← Get k;
      match v with
      | None => get_loop ks m (miss ++ [k])
      | Some v => get_loop ks (<[k := v]> m) miss
      end
  end.
Definition LoadMany (ks : list K) (cb : list K -> M cached (gmap K V)) : M cached (gmap K V) :=
  r ← get_loop ks ∅ [];
  let '(m, miss) := r in
  match miss with
  | [] => mret m
  | _ =>
      rs ← cb miss;
      _ ← for_each (fun e : K * V => Set_ e.1 e.2) (map_to_list rs);
      mret (rs ∪ m)
  end.
Definition Load (k : K) (cb : list K -> M cached (gmap K V)) : M cached (option V) :=
  rs ← LoadMany [k] cb;
  mret (rs !! k).

(** [rs[key(item)] = item] for every item. *)
Definition by_key (key : V -> K) (items : list V) : gmap K V :=
  fold_left (fun m item => <[key item := item]> m) items ∅.
(** The rows of the keys, through the cache. *)
Definition load_rows (key : V -> K) (fetch : list K -> M World (list V)) (ks : list K) : M cached (list V) :=
  m ← LoadMany ks (fun miss => rows ← in_world (fetch miss); mret (by_key key rows));
  mret (omap (fun k => m !! k) ks).
(** A write; the deferred calls drop the rows, whether it fails or not. *)
Definition write_through {A} (m : M World A) (ks : list K) : M cached A :=
  r ← attempt (in_world m);
  _ ← for_each Del ks;
  lift r.
End CacheApi.
Arguments cached K V {_ _}.
End CacheApi.
Import CacheApi.

(** ** cache.fileDao *)
Module FileCache.
Section FileCache.
Context `{!Env} `{!Lru Z file_row}.
Definition GetFileInfo (fileIds : list Z) : M (cached Z file_row) (list file_row) :=
  load_rows f_file_id FileDao.GetFileInfo fileIds.
Definition MarkFileReady (fileID : Z) (extinfo : string) : M (cached Z file_row) unit :=
  write_through (FileDao.MarkFileReady fileID extinfo) [fileID].
Definition DeleteFile (fileIds : list Z) : M (cached Z file_row) unit :=
  write_through (FileDao.DeleteFile fileIds) fileIds.
Definition CreateFileDraft (fileSize filePartCount : Z) : M (cached Z file_row) Z :=
  in_world (FileDao.CreateFileDraft fileSize filePartCount).
End FileCache.
End FileCache.

(** ** cache.filePartDao *)
Module PartCache.
Section PartCache.
Context `{!Env} `{!Lru (Z * Z) part_row}.
Definition part_key (r : part_row) : Z * Z := (p_file_id r, p_part_id r).
(** The parts of the file of the first key. *)
Definition fetch_parts (miss : list (Z * Z)) : M World (list part_row) :=
  match miss with
  | [] => fail Panic
  | k :: _ => FilePartDao.GetFilePartInfo k.1 miss.*2
  end.
Definition GetFilePartInfo (fileId : Z) (partIds : list Z) : M (cached (Z * Z) part_row) (list part_row) :=
  load_rows part_key fetch_parts (map (fun p => (fileId, p)) partIds).
Definition CreateFilePart (req : FilePartDao.CreateFilePartRequest) : M (cached (Z * Z) part_row) unit :=
  write_through (FilePartDao.CreateFilePart req) [(FilePartDao.FileId req, FilePartDao.FilePartId req)].
(** The cache has no method of its own for these. *)
Definition DeleteFilePart (fileIds : list Z) : M (cached (Z * Z) part_row) unit :=
  in_world (FilePartDao.DeleteFilePart fileIds).
Definition ListFilePart (fileId : Z) : M (cached (Z * Z) part_row) (list part_row) :=
  in_world (FilePartDao.ListFilePart fileId).
End PartCache.
End PartCache.
