(* ===== verification/DaoCacheTheorems.v ===== *)
(** * Cached rows are current

    Over any run of the data access objects what the caches return are the rows of the
    database, although they drop rows when they like; but for the columns that an import
    or an export updates directly, past the cache. *)

From stdpp Require Import base strings list gmap.
From S2P Require Import Prelude GoStr Store Directory Dao DaoCache.
Import CacheApi.

Section Coherence.
Context {K V : Type} `{Countable K} `{!Lru K V} (key : V -> K) (rows : DB -> list V).
(** [norm] blanks the columns that are updated directly. *)
Context (norm : V -> V).

(** The row of a key. *)
Definition row_of (d : DB) (k : K) : option V := List.find (fun v => bool_decide (key v = k)) (rows d).
Definition current (d : DB) (k : K) (v : V) : Prop := v ∈ rows d /\ key v = k.
(** [v] is the row of [k], or was before a direct update; none of the keys outside [dirty]
    had one. *)
Definition near (dirty : list K) (d : DB) (k : K) (v : V) : Prop :=
  exists v', current d k v' /\ norm v = norm v' /\ (k ∉ dirty -> v = v').
Definition coherent (dirty : list K) (s : cached K V) : Prop :=
  forall k v, store s !! k = Some v -> near dirty (db (cw s)) k v.



Section Steps.
Context (dirty : list K).
(** Steps that keep the database and the coherence. *)
Definition steady (s s' : cached K V) : Prop := cw s' = cw s /\ (coherent dirty s -> coherent dirty s').
#[local] Instance steady_refl : Reflexive steady.
Proof. by intros s. Qed.
#[local] Instance steady_trans : Transitive steady.
Proof. intros s1 s2 s3 [E1 C1] [E2 C2]. split; [congruence|auto]. Qed.






(** What is returned for a key: nothing if there is no row, or else a row near to it. *)
Definition tells (d : DB) (k : K) (r : option V) : Prop :=
  option_Forall2 (fun v v' => norm v = norm v' /\ (k ∉ dirty -> v = v')) r (row_of d k).

End Steps.


(** Other code: it adds rows, and updates the columns that [norm] blanks of the rows of [ks]. *)
Definition updates (ks : list K) (w w' : World) : Prop := forall v, v ∈ rows (db w) ->
  exists v', v' ∈ rows (db w') /\ key v' = key v /\ norm v' = norm v /\ (key v ∉ ks -> v' = v).
End Coherence.

(** ** Files *)
Section Files.
Context `{!Env} `{!Lru Z file_row}.


(** An import updates the state and the times of a file directly when it finishes it
    ([markBackupFileReady]). *)
Definition file_norm (r : file_row) : file_row :=
  {| f_id := f_id r; f_file_id := f_file_id r; f_size := f_size r; f_part_count := f_part_count r; f_state := 0;
     f_ctime := 0; f_mtime := 0; f_extinfo := f_extinfo r; f_layout := f_layout r |}.

(** What happens to the files and their cache: the calls of the cached object, and other
    code that adds rows and updates state and times directly; [dirty] collects the files it
    updates. *)
Inductive file_run : list Z -> cached Z file_row -> Prop :=
  | fr_start w : file_run [] {| cw := w; store := ∅; accesses := 0 |}
  | fr_get dirty s fileIds : file_run dirty s -> NoDup (f_file_id <$> t_file (db (cw s))) ->
      file_run dirty (FileCache.GetFileInfo fileIds s).2
  | fr_ready dirty s f extinfo : file_run dirty s -> file_run dirty (FileCache.MarkFileReady f extinfo s).2
  | fr_delete dirty s fileIds : file_run dirty s -> file_run dirty (FileCache.DeleteFile fileIds s).2
  | fr_draft dirty s size count : file_run dirty s -> file_run dirty (FileCache.CreateFileDraft size count s).2
  | fr_other dirty s ks w : file_run dirty s -> updates f_file_id t_file file_norm ks (cw s) w ->
      file_run (ks ++ dirty) {| cw := w; store := store s; accesses := accesses s |}.

End Files.

(** ** Parts *)
Section Parts.
Context `{!Env} `{!Lru (Z * Z) part_row}.
Import PartCache.




End Parts.


(** ** A run *)

Section Demo.
#[local] Instance demo_env : Env := {| clk n := Z.of_nat n; idfn n := 100 + Z.of_nat n |}.
#[local] Program Instance demo_lru {K V} `{Countable K} : Lru K V := {| lru_keep _ m := m |}.
Solve Obligations with done.

Definition start : World := {| db := empty_db; ticks := 0; ids := 0 |}.
Definition with_draft : cached Z file_row := (FileCache.CreateFileDraft 5 1 {| cw := start; store := ∅; accesses := 0 |}).2.
Definition read_twice : cached Z file_row :=
  (FileCache.GetFileInfo [100] (FileCache.MarkFileReady 100 "{}" (FileCache.GetFileInfo [100] with_draft).2).2).2.

(** An import finishes another file, 101, directly. *)
Definition finished_directly : cached Z file_row :=
  {| cw := {| db := set_file (sql_update (fun r => f_file_id r =? 101) (fun r => file_norm r)) (db (cw read_twice));
              ticks := ticks (cw read_twice); ids := ids (cw read_twice) |};
     store := store read_twice; accesses := accesses read_twice |}.

(** The cache of parts does not take part in [DeleteFilePart]: a part that was read is
    served after its row has been deleted. *)
Definition demo_request : FilePartDao.CreateFilePartRequest :=
  {| FilePartDao.FileId := 100; FilePartDao.FilePartId := 0; FilePartDao.ReqFileKey := "key"; FilePartDao.FilePartMd5 := "";
     FilePartDao.FilePartSize := 5; FilePartDao.BackendKind := "mem"; FilePartDao.ReqDeleteRef := "ref"; FilePartDao.ReqUploadedAt := 1 |}.
Definition part_read : cached (Z * Z) part_row :=
  (PartCache.GetFilePartInfo 100 [0] (PartCache.CreateFilePart demo_request {| cw := start; store := ∅; accesses := 0 |}).2).2.
Definition part_deleted : cached (Z * Z) part_row := (PartCache.DeleteFilePart [100] part_read).2.
Lemma deleted_part_still_served :
  t_part (db (cw part_deleted)) = [] /\
  exists row s', PartCache.GetFilePartInfo 100 [0] part_deleted = (Ok [row], s') /\ p_key row = "key".
Proof. split; [reflexivity|]. eexists _, _. split; vm_compute; reflexivity. Qed.
End Demo.
