(* ===== verification/Multipart.v ===== *)
(** * S3 multipart uploads (src/filemgr/s3_multipart.go)

    An upload is a control row (active, completing, completed or aborted) with parts
    (active, selected or discarded), each a stored file of its own. Completing makes
    a composite file of the selected parts and publishes it as an object; parts that
    lose their last reference are queued for deletion.

    Times are milliseconds and durations whole milliseconds. Requests are never nil.
    [blockSize] is the block size of the backend, [d.bkio.MaxFileSize()]. *)

From stdpp Require Import base strings list.
From Stdlib Require Import Ascii.
From S2P Require Import Prelude GoStr Crc Base64 Checksum BlockIO FileStream Store Directory.
From S2P Require Import References Dao Mutation S3Object FileManager.
Import References.

(** Packages crypto/sha1 and crypto/sha256. *)
Class Sha := { sha1 : list Z -> list Z; sha256 : list Z -> list Z }.

Module Multipart.

Definition maxS3MultipartParts : Z := 10000.
Definition maxS3MultipartPartSize : Z := 5 * 1024 * 1024 * 1024.
Definition minS3MultipartPartSize : Z := 5 * 1024 * 1024.
Definition hour : Z := 3600 * 1000.
Definition defaultMultipartExpiry : Z := 24 * hour.
Definition multipartControlRetention : Z := 24 * hour.
Definition multipartCleanupBatchSize : nat := 100.
Definition md5_Size : nat := 16.
Definition MaxInt64 : Z := 2 ^ 63 - 1.

Record CreateMultipartRequest := {
  cmBucket : string; cmKey : string; cmMetadata : option s3meta_row; cmExpireAfter : Z;
  cmAlgorithm : string; cmChecksumType : string }.
Record MultipartUpload := {
  muUploadID : string; muBucket : string; muKey : string; muInitiated : Z; muExpiresAt : Z;
  muAlgorithm : string; muChecksumType : string }.
Record MultipartChecksumSpec := { Algorithm : string; ChecksumType : string; Legacy : bool }.
Record PutMultipartPartRequest := {
  ppUploadID : string; ppBucket : string; ppKey : string; ppPartNumber : Z; ppFileID : Z;
  ppSize : Z; ppETag : string; ppChecksumValue : string; ppMaxObjectSize : Z }.
Record MultipartPart := {
  PartNumber : Z; FileID : Z; Size : Z; ETag : string; ChecksumValue : string; LastModified : Z }.
Record CompleteMultipartPart := {
  cpPartNumber : Z; cpETag : string; cpAlgorithm : string; cpChecksumValue : string }.
Record CompleteMultipartRequest := {
  crUploadID : string; crBucket : string; crKey : string; crParts : list CompleteMultipartPart;
  crMaxObjectSize : Z; crCondition : option S3Object.S3Condition; crFinalAlgorithm : string;
  crFinalChecksum : string; crChecksumType : string; crExpectedSize : option Z }.
Record CompleteMultipartResult := {
  resFileID : Z; resSize : Z; resETag : string; resAlgorithm : string; resChecksumType : string;
  resChecksumValue : string }.
Record replacedMultipartPart := { rpFileID : Z; rpSize : Z; rpPartCount : Z }.
Record completionPartRecord := {
  part : MultipartPart; fileState : Z; fileLayout : Z; filePartCount : Z }.

(** [strings.ToLower], on ASCII. *)
Fixpoint ToLower (s : string) : string :=
  match s with
  | String c s' => String (Checksum.lower_ascii c) (ToLower s')
  | "" => ""
  end.

(** The ETag of a part: 32 lower-case hexadecimal digits. *)
Definition part_etag_ok (etag : string) : bool :=
  match Base64.hex_decode etag with Ok _ => true | Err _ => false end && String.eqb etag (ToLower etag).

Definition multipartObjectSizeLimit (configured blockSize : Z) : Z :=
  if 0 <? configured then configured
  else if (blockSize <=? 0) || (MaxInt64 / FileStream.maxFilePartCount <? blockSize) then MaxInt64
  else blockSize * FileStream.maxFilePartCount.

Definition resolveCreateMultipartChecksum (request : CreateMultipartRequest)
    : outcome (string * string) :=
  match Checksum.ResolveMultipart (cmAlgorithm request) (cmChecksumType request) with
  | Err _ => Err ErrInvalidMultipartRequest
  | Ok r => Ok r
  end.

(** [random]: what [crypto/rand] delivers for the 24 bytes after the time. *)
Definition generateMultipartUploadID (now : Z) (random : outcome (list Z)) : outcome string :=
  raw ← random;
  Ok (Base64.hex_encode (Base64.put_be 8 now ++ raw)).

Definition matchingMultipartUpload (upload : option upload_row) (bucket key : string)
    : option upload_row :=
  match upload with
  | Some u => if String.eqb (u_bucket u) bucket && String.eqb (u_key u) key then Some u else None
  | None => None
  end.

Definition conflict {A} (o : outcome A) : outcome A :=
  match o with Err _ => Err ErrMultipartConflict | Ok a => Ok a end.

Definition multipartChecksumSpec (upload : upload_row) : outcome MultipartChecksumSpec :=
  if String.eqb (u_algorithm upload) "" && String.eqb (u_type upload) "" then
    Ok {| Algorithm := ""; ChecksumType := ""; Legacy := true |}
  else
    algorithm ← conflict (Checksum.ParseAlgorithm (u_algorithm upload));
    checksumType ← conflict (Checksum.ParseType (u_type upload));
    _ ← conflict (Checksum.ValidateCombination algorithm checksumType);
    Ok {| Algorithm := algorithm; ChecksumType := checksumType; Legacy := false |}.

(** ** The columns an UPDATE sets *)

Definition upload_in (st : upload_state) (u : upload_row) (fingerprint : string) (file : Z)
    (etag checksum : string) (completed cleanup : Z) : upload_row :=
  {| u_upload_id := u_upload_id u; u_bucket := u_bucket u; u_key := u_key u; u_state := st;
     u_content_type := u_content_type u; u_cache_control := u_cache_control u;
     u_disposition := u_disposition u; u_encoding := u_encoding u; u_language := u_language u;
     u_expires := u_expires u; u_user := u_user u; u_algorithm := u_algorithm u;
     u_type := u_type u; u_fingerprint := fingerprint; u_result_file := file;
     u_result_etag := etag; u_result_checksum := checksum; u_initiated_at := u_initiated_at u;
     u_expires_at := u_expires_at u; u_completed_at := completed; u_cleanup_at := cleanup |}.

Definition part_in (st : mpart_state) (now : Z) (p : mpart_row) : mpart_row :=
  {| mp_upload_id := mp_upload_id p; mp_number := mp_number p; mp_state := st;
     mp_file_id := mp_file_id p; mp_size := mp_size p; mp_etag := mp_etag p;
     mp_checksum := mp_checksum p; mp_uploaded_at := mp_uploaded_at p; mp_ctime := mp_ctime p;
     mp_mtime := now |}.

Definition part_of_upload (uploadID : string) (p : mpart_row) : bool :=
  bool_decide (mp_upload_id p = uploadID).
Definition active_part (uploadID : string) (p : mpart_row) : bool :=
  part_of_upload uploadID p && mp_active p.
Definition by_number (a b : mpart_row) : bool := mp_number a <=? mp_number b.

(** The active parts joined with their files. *)
Definition parts_join (d : DB) (p : mpart_row -> bool) : list (mpart_row * file_row) :=
  flat_map (fun r => map (fun f => (r, f)) (file_rows d (mp_file_id r)))
    (sql_select p (t_mpart d)).

(** One row per part and delete state of a file, as in a LEFT JOIN. *)
Definition part_states (d : DB) (f : Z) : list (option delete_row) :=
  flat_map (fun p => left_join (sql_select (fun s =>
      (d_file_id s =? p_file_id p) && (d_part_id s =? p_part_id p)) (t_delete d)))
    (sql_select (fun p => p_file_id p =? f) (t_part d)).

Section Multipart.
Context `{!Env} `{!S3Object.MimeTypes} `{!FileCodec} `{!Sha}.

(** ** Starting an upload *)

(** INSERT with the upload id as key and the CHECKs of the table. *)
Definition insert_upload (r : upload_row) : M World unit :=
  d ← query id;
  _ ← check (negb (Nat.eqb (String.length (u_upload_id r)) 64) || String.eqb (u_key r) "" ||
             negb (bool_decide (u_algorithm r ∈ ["" : string; "CRC32"; "CRC32C"; "CRC64NVME"; "SHA1"; "SHA256"])) ||
             negb (bool_decide (u_type r ∈ ["" : string; "FULL_OBJECT"; "COMPOSITE"]))) ErrCheckConstraint;
  _ ← check (sql_exists (fun u => bool_decide (u_upload_id u = u_upload_id r)) (t_upload d))
        ErrUniqueConstraint;
  upd (set_upload (fun t => t ++ [r])).

Definition new_upload (uploadID : string) (request : CreateMultipartRequest) (metadata : s3meta_row)
    (algorithm checksumType : string) (now expiresAt : Z) : upload_row :=
  {| u_upload_id := uploadID; u_bucket := cmBucket request; u_key := cmKey request;
     u_state := UsActive; u_content_type := m_content_type metadata;
     u_cache_control := m_cache_control metadata; u_disposition := m_disposition metadata;
     u_encoding := m_encoding metadata; u_language := m_language metadata;
     u_expires := m_expires metadata; u_user := m_user metadata; u_algorithm := algorithm;
     u_type := checksumType; u_fingerprint := ""; u_result_file := 0; u_result_etag := "";
     u_result_checksum := ""; u_initiated_at := now; u_expires_at := expiresAt;
     u_completed_at := 0; u_cleanup_at := 0 |}.

(** [randoms]: one answer of [crypto/rand] per attempt, three at most. *)
Fixpoint create_attempts (randoms : list (outcome (list Z))) (request : CreateMultipartRequest)
    (metadata : s3meta_row) (algorithm checksumType : string) (now expiresAt : Z)
    : M World MultipartUpload :=
  match randoms with
  | [] => fail ErrMultipartConflict
  | random :: randoms =>
      uploadID ← lift (generateMultipartUploadID now random);
      inserted ← attempt (insert_upload
        (new_upload uploadID request metadata algorithm checksumType now expiresAt));
      match inserted with
      | Ok _ => mret {| muUploadID := uploadID; muBucket := cmBucket request;
          muKey := cmKey request; muInitiated := now; muExpiresAt := expiresAt;
          muAlgorithm := algorithm; muChecksumType := checksumType |}
      | Err e =>
          if decide (e = ErrUniqueConstraint)
          then create_attempts randoms request metadata algorithm checksumType now expiresAt
          else fail e
      end
  end.

Definition CreateMultipartUpload (randoms : nat -> outcome (list Z))
    (request : CreateMultipartRequest) : M World MultipartUpload :=
  match cmMetadata request with
  | None => fail ErrInvalidMultipartRequest
  | Some metadata =>
      _ ← check (String.eqb (cmBucket request) "" || String.eqb (cmKey request) "")
            ErrInvalidMultipartRequest;
      resolved ← lift (resolveCreateMultipartChecksum request);
      let '(algorithm, checksumType) := resolved in
      let expiry := if cmExpireAfter request =? 0 then defaultMultipartExpiry
                    else cmExpireAfter request in
      _ ← check ((expiry <? hour) || (defaultMultipartExpiry <? expiry)) ErrInvalidMultipartRequest;
      t ← now;
      create_attempts (map randoms (seq 0 3)) request metadata algorithm checksumType t (t + expiry)
  end.

Definition readMultipartUpload (uploadID : string) : M World (option upload_row) :=
  query (fun d => head (sql_select (fun u => bool_decide (u_upload_id u = uploadID)) (t_upload d))).

(** ** Ending an upload *)

Definition listMultipartPartFileIDs (uploadID : string) : M World (list Z) :=
  query (fun d => map mp_file_id (order_by by_number (sql_select (active_part uploadID) (t_mpart d)))).

Definition discard_active (uploadID : string) (now : Z) : M World unit :=
  upd (set_mpart (sql_update (active_part uploadID) (part_in PsDiscarded now))).

Definition mark_files (files : list Z) (now : Z) : M World unit :=
  for_each (fun f => markFileTreePendingIfUnreferenced f now) files.

Definition abortMultipartUploadTx (upload : upload_row) (now : Z) : M World unit :=
  fileIDs ← listMultipartPartFileIDs (u_upload_id upload);
  let p := fun u => bool_decide (u_upload_id u = u_upload_id upload) && u_active u in
  affected ← query (fun d => sql_count p (t_upload d));
  _ ← upd (set_upload (sql_update p (fun u =>
        upload_in UsAborted u (u_fingerprint u) (u_result_file u) (u_result_etag u)
          (u_result_checksum u) (u_completed_at u) (now + multipartControlRetention))));
  _ ← check (negb (affected =? 1)) ErrMultipartConflict;
  _ ← discard_active (u_upload_id upload) now;
  mark_files fileIDs now.

Definition AbortMultipartUpload (uploadID bucket key : string) : M World unit :=
  _ ← check (String.eqb uploadID "" || String.eqb bucket "" || String.eqb key "")
        ErrInvalidMultipartRequest;
  OnTransation (
    upload ← readMultipartUpload uploadID;
    match matchingMultipartUpload upload bucket key with
    | None => fail ErrNoSuchUpload
    | Some upload =>
        match u_state upload with
        | UsAborted => mret tt
        | UsCompleted => fail ErrNoSuchUpload
        | UsActive => t ← now; abortMultipartUploadTx upload t
        | UsCompleting => fail ErrMultipartConflict
        end
    end).

(** The upload and whether it had expired and was aborted. *)
Definition ensureActiveMultipartUpload (uploadID bucket key : string) (now : Z)
    : M World (upload_row * bool) :=
  upload ← readMultipartUpload uploadID;
  match matchingMultipartUpload upload bucket key with
  | None => fail ErrNoSuchUpload
  | Some upload =>
      if negb (u_active upload) then fail ErrNoSuchUpload
      else if now <? u_expires_at upload then mret (upload, false)
      else _ ← abortMultipartUploadTx upload now; mret (upload, true)
  end.

Definition PrepareMultipartPart (uploadID bucket key : string) : M World MultipartChecksumSpec :=
  _ ← check (String.eqb uploadID "" || String.eqb bucket "" || String.eqb key "")
        ErrInvalidMultipartRequest;
  r ← OnTransation (t ← now; ensureActiveMultipartUpload uploadID bucket key t);
  let '(upload, expired) := r in
  _ ← check expired ErrNoSuchUpload;
  lift (multipartChecksumSpec upload).

(** ** Parts *)

Definition validatePutMultipartPartRequest (r : PutMultipartPartRequest) : outcome unit :=
  if String.eqb (ppUploadID r) "" || String.eqb (ppBucket r) "" || String.eqb (ppKey r) "" ||
     (ppPartNumber r <? 1) || (maxS3MultipartParts <? ppPartNumber r) ||
     (ppSize r <? 0) || (maxS3MultipartPartSize <? ppSize r) ||
     negb (Nat.eqb (String.length (ppETag r)) (md5_Size * 2))
  then Err ErrInvalidMultipartRequest
  else if part_etag_ok (ppETag r) then Ok tt else Err ErrInvalidMultipartRequest.

Definition validateStoredMultipartPartChecksum (upload : upload_row) (value : string) : outcome unit :=
  spec ← multipartChecksumSpec upload;
  if Legacy spec then
    if String.eqb value "" then Ok tt else Err ErrInvalidMultipartRequest
  else if String.eqb value "" then Err ErrInvalidMultipartRequest
  else match Checksum.Decode sha1 sha256 (Algorithm spec) value with
       | Ok _ => Ok tt
       | Err _ => Err ErrInvalidMultipartRequest
       end.

Definition ensureMultipartStagingFileLive (file : storedFileRecord) : M World unit :=
  rows ← query (fun d => part_states d (fileID file));
  let physicalParts := zlen rows in
  let deleteStates := zlen (List.filter (fun o => bool_decide (is_Some o)) rows) in
  let nonLive := zlen (List.filter (fun o => match o with
    | Some s => negb (bool_decide (d_state s = DsLive)) | None => false end) rows) in
  check (negb (physicalParts =? partCount file) || negb (deleteStates =? partCount file) ||
         negb (nonLive =? 0)) ErrInvalidMultipartPart.

Definition validateMultipartStagingFile (f sz : Z) : M World storedFileRecord :=
  file ← readStoredFile f;
  match file with
  | None => fail ErrInvalidMultipartPart
  | Some file =>
      _ ← check (negb (state file =? FileStateReady) || negb (layout file =? 1) ||
                 negb (size file =? sz)) ErrInvalidMultipartPart;
      _ ← ensureMultipartStagingFileLive file;
      mappingCount ← query (fun d => count_mappings d f);
      _ ← check (negb (mappingCount =? 0)) ErrInvalidMultipartPart;
      mret file
  end.

Definition numbered (uploadID : string) (n : Z) (p : mpart_row) : bool :=
  active_part uploadID p && (mp_number p =? n).

Definition readReplacedMultipartPart (uploadID : string) (partNumber : Z) : M World replacedMultipartPart :=
  query (fun d => match head (parts_join d (numbered uploadID partNumber)) with
    | Some (p, f) => {| rpFileID := mp_file_id p; rpSize := mp_size p; rpPartCount := f_part_count f |}
    | None => {| rpFileID := 0; rpSize := 0; rpPartCount := 0 |}
    end).

Definition validateMultipartStagingTotals (blockSize : Z) (request : PutMultipartPartRequest)
    (file : storedFileRecord) (previous : replacedMultipartPart) : M World unit :=
  rows ← query (fun d => parts_join d (active_part (ppUploadID request)));
  let totalSize := sumZ (map (fun r => mp_size r.1) rows) - rpSize previous + ppSize request in
  let totalPartCount := sumZ (map (fun r => f_part_count r.2) rows) - rpPartCount previous + partCount file in
  _ ← check (multipartObjectSizeLimit (ppMaxObjectSize request) blockSize <? totalSize)
        ErrMultipartEntityTooLarge;
  check (FileStream.maxFilePartCount <? totalPartCount) ErrTooManyFileParts.

Definition mpart_checks (n sz : Z) (etag : string) : bool :=
  (1 <=? n) && (n <=? 10000) && (0 <=? sz) && (sz <=? 5368709120) &&
  Nat.eqb (String.length etag) 32.

(** INSERT with the keys (upload_id, part_number) and (file_id) and the CHECKs. *)
Definition insertMultipartPart (r : PutMultipartPartRequest) (now : Z) : M World unit :=
  d ← query id;
  _ ← check (negb (mpart_checks (ppPartNumber r) (ppSize r) (ppETag r))) ErrCheckConstraint;
  _ ← check (sql_exists (fun p => (part_of_upload (ppUploadID r) p && (mp_number p =? ppPartNumber r)) ||
                                  (mp_file_id p =? ppFileID r)) (t_mpart d)) ErrUniqueConstraint;
  upd (set_mpart (fun t => t ++
    [{| mp_upload_id := ppUploadID r; mp_number := ppPartNumber r; mp_state := PsActive;
        mp_file_id := ppFileID r; mp_size := ppSize r; mp_etag := ppETag r;
        mp_checksum := ppChecksumValue r; mp_uploaded_at := now; mp_ctime := now; mp_mtime := now |}])).

Definition replaced_part (r : PutMultipartPartRequest) (now : Z) (p : mpart_row) : mpart_row :=
  {| mp_upload_id := mp_upload_id p; mp_number := mp_number p; mp_state := mp_state p;
     mp_file_id := ppFileID r; mp_size := ppSize r; mp_etag := ppETag r;
     mp_checksum := ppChecksumValue r; mp_uploaded_at := now; mp_ctime := mp_ctime p; mp_mtime := now |}.

Definition upsertMultipartPart (r : PutMultipartPartRequest) (previousFileID now : Z) : M World unit :=
  if previousFileID =? 0 then insertMultipartPart r now
  else
    d ← query id;
    let p := numbered (ppUploadID r) (ppPartNumber r) in
    _ ← check (sql_exists p (t_mpart d) && negb (mpart_checks (ppPartNumber r) (ppSize r) (ppETag r)))
          ErrCheckConstraint;
    _ ← check (sql_exists p (t_mpart d) &&
               sql_exists (fun q => negb (p q) && (mp_file_id q =? ppFileID r)) (t_mpart d))
          ErrUniqueConstraint;
    _ ← upd (set_mpart (sql_update p (replaced_part r now)));
    check (negb (sql_count p (t_mpart d) =? 1)) ErrMultipartConflict.

Definition putMultipartPartTx (blockSize : Z) (request : PutMultipartPartRequest) (now : Z)
    : M World bool :=
  r ← ensureActiveMultipartUpload (ppUploadID request) (ppBucket request) (ppKey request) now;
  let '(upload, expired) := r in
  if (expired : bool) then mret true
  else
    _ ← lift (validateStoredMultipartPartChecksum upload (ppChecksumValue request));
    file ← validateMultipartStagingFile (ppFileID request) (ppSize request);
    previous ← readReplacedMultipartPart (ppUploadID request) (ppPartNumber request);
    _ ← validateMultipartStagingTotals blockSize request file previous;
    _ ← upsertMultipartPart request (rpFileID previous) now;
    _ ← (if negb (rpFileID previous =? 0) && negb (rpFileID previous =? ppFileID request)
         then markFileTreePendingIfUnreferenced (rpFileID previous) now else mret tt);
    mret false.

Definition PutMultipartPart (blockSize : Z) (request : PutMultipartPartRequest) : M World MultipartPart :=
  _ ← lift (validatePutMultipartPartRequest request);
  t ← now;
  expired ← OnTransation (putMultipartPartTx blockSize request t);
  _ ← check expired ErrNoSuchUpload;
  mret {| PartNumber := ppPartNumber request; FileID := ppFileID request; Size := ppSize request;
          ETag := ppETag request; ChecksumValue := ppChecksumValue request; LastModified := t |}.

(** ** Listing *)

Record MultipartPartPage := {
  pgParts : list MultipartPart; pgIsTruncated : bool; pgNextPartNumberMarker : Z;
  pgSpec : MultipartChecksumSpec }.

Definition to_part (p : mpart_row) : MultipartPart :=
  {| PartNumber := mp_number p; FileID := mp_file_id p; Size := mp_size p; ETag := mp_etag p;
     ChecksumValue := mp_checksum p; LastModified := mp_uploaded_at p |}.

(** The parts, whether there are more, and the marker for the rest. *)
Definition readMultipartPartPage (uploadID : string) (marker : Z) (maxParts : nat)
    : M World (list MultipartPart * bool * Z) :=
  rows ← query (fun d => sql_limit 0 (S maxParts) (order_by by_number (sql_select (fun p =>
           active_part uploadID p && (marker <? mp_number p)) (t_mpart d))));
  let parts := map to_part (take maxParts rows) in
  let truncated := Nat.ltb maxParts (length rows) in
  mret (parts, truncated,
        if truncated then match last parts with Some p => PartNumber p | None => 0 end else 0).

Definition ListMultipartParts (uploadID bucket key : string) (marker maxParts : Z)
    : M World MultipartPartPage :=
  _ ← check (String.eqb uploadID "" || String.eqb bucket "" || String.eqb key "" ||
             (marker <? 0) || (maxS3MultipartParts <? marker) || (maxParts <? 0) || (1000 <? maxParts))
        ErrInvalidMultipartRequest;
  r ← OnTransation (
    t ← now;
    r ← ensureActiveMultipartUpload uploadID bucket key t;
    let '(upload, expired) := r in
    if (expired : bool) || (maxParts =? 0) then mret (upload, expired, ([], false, 0))
    else page ← readMultipartPartPage uploadID marker (Z.to_nat maxParts);
         mret (upload, false, page));
  let '(upload, expired, (parts, truncated, next)) := r in
  _ ← check expired ErrNoSuchUpload;
  spec ← lift (multipartChecksumSpec upload);
  mret {| pgParts := parts; pgIsTruncated := truncated; pgNextPartNumberMarker := next; pgSpec := spec |}.

(** ** Completing: the request *)

Fixpoint validate_parts (previous : Z) (parts : list CompleteMultipartPart) : outcome unit :=
  match parts with
  | [] => Ok tt
  | part :: parts =>
      if cpPartNumber part <=? previous then Err ErrInvalidPartOrder
      else if (cpPartNumber part <? 1) || (maxS3MultipartParts <? cpPartNumber part) ||
              negb (Nat.eqb (String.length (cpETag part)) (md5_Size * 2))
      then Err ErrInvalidMultipartPart
      else match Base64.hex_decode (cpETag part) with
           | Err _ => Err ErrInvalidMultipartPart
           | Ok decoded =>
               if negb (Nat.eqb (length decoded) md5_Size) ||
                  negb (String.eqb (cpETag part) (ToLower (cpETag part)))
               then Err ErrInvalidMultipartPart
               else validate_parts (cpPartNumber part) parts
           end
  end.

Definition validateCompleteMultipartRequest (r : CompleteMultipartRequest) : outcome unit :=
  if String.eqb (crUploadID r) "" || String.eqb (crBucket r) "" || String.eqb (crKey r) "" ||
     Nat.eqb (length (crParts r)) 0 || (maxS3MultipartParts <? zlen (crParts r))
  then Err ErrInvalidMultipartRequest
  else validate_parts 0 (crParts r).

Definition newline : string := String "010"%char "".

Definition multipartCompletionFingerprint (parts : list CompleteMultipartPart) : string :=
  Base64.hex_encode (sha256 (FileManager.string_bytes (String.concat ""
    (map (fun p => FormatUint (cpPartNumber p) +:+ ":" +:+ cpETag p +:+ newline) parts)))).

Definition nonempty (s : string) : bool := negb (String.eqb s "").

Definition validateLegacyCompleteChecksumRequest (r : CompleteMultipartRequest) : outcome unit :=
  if nonempty (crFinalAlgorithm r) || nonempty (crFinalChecksum r) || nonempty (crChecksumType r) ||
     bool_decide (is_Some (crExpectedSize r))
  then Err ErrInvalidMultipartRequest
  else if existsb (fun p => nonempty (cpAlgorithm p) || nonempty (cpChecksumValue p)) (crParts r)
  then Err ErrInvalidMultipartRequest
  else Ok tt.

Definition decodes (algorithm value : string) : bool :=
  match Checksum.Decode sha1 sha256 algorithm value with Ok _ => true | Err _ => false end.

Definition validateCompleteChecksumHeaders (spec : MultipartChecksumSpec) (r : CompleteMultipartRequest)
    : outcome unit :=
  if nonempty (crFinalAlgorithm r) && negb (String.eqb (crFinalAlgorithm r) (Algorithm spec))
  then Err ErrInvalidMultipartRequest
  else if nonempty (crChecksumType r) && negb (String.eqb (crChecksumType r) (ChecksumType spec))
  then Err ErrMultipartChecksumType
  else if nonempty (crFinalChecksum r) && negb (decodes (Algorithm spec) (crFinalChecksum r))
  then Err ErrInvalidMultipartRequest
  else match crExpectedSize r with
       | Some n => if n <? 0 then Err ErrInvalidMultipartRequest else Ok tt
       | None => Ok tt
       end.

Fixpoint part_checksums_loop (spec : MultipartChecksumSpec) (index : Z)
    (parts : list CompleteMultipartPart) : outcome unit :=
  match parts with
  | [] => Ok tt
  | part :: parts =>
      let composite := String.eqb (ChecksumType spec) Checksum.TypeComposite in
      if nonempty (cpAlgorithm part) && negb (String.eqb (cpAlgorithm part) (Algorithm spec))
      then Err ErrInvalidMultipartPart
      else if composite && negb (cpPartNumber part =? index + 1) then Err ErrInvalidPartOrder
      else if composite && negb (nonempty (cpChecksumValue part)) then Err ErrInvalidMultipartPart
      else if nonempty (cpChecksumValue part) && negb (decodes (Algorithm spec) (cpChecksumValue part))
      then Err ErrInvalidMultipartPart
      else part_checksums_loop spec (index + 1) parts
  end.
Definition validateCompletePartChecksums (spec : MultipartChecksumSpec) (parts : list CompleteMultipartPart)
    : outcome unit := part_checksums_loop spec 0 parts.

Definition validateCompleteChecksumRequest (upload : upload_row) (r : CompleteMultipartRequest)
    : outcome unit :=
  spec ← multipartChecksumSpec upload;
  if Legacy spec then validateLegacyCompleteChecksumRequest r
  else
    _ ← validateCompleteChecksumHeaders spec r;
    validateCompletePartChecksums spec (crParts r).

Definition validateFinalChecksum (upload : upload_row) (r : CompleteMultipartRequest) (storedValue : string)
    : outcome unit :=
  if String.eqb (crFinalChecksum r) "" then Ok tt
  else
    spec ← multipartChecksumSpec upload;
    expected ← (if String.eqb (ChecksumType spec) Checksum.TypeComposite
                then conflict (Checksum.ParseCompositeStored sha1 sha256 (Algorithm spec) storedValue
                                 (zlen (crParts r)))
                else Ok storedValue);
    if String.eqb (crFinalChecksum r) expected then Ok tt else Err ErrMultipartChecksum.

(** ** Completing again *)

Definition validateCompletedPartChecksums (upload : upload_row) (r : CompleteMultipartRequest)
    : M World unit :=
  spec ← lift (multipartChecksumSpec upload);
  if Legacy spec then mret tt
  else for_each (fun requested =>
    row ← query (fun d => head (sql_select (fun p => part_of_upload (crUploadID r) p &&
            (mp_number p =? cpPartNumber requested) && bool_decide (mp_state p = PsSelected)) (t_mpart d)));
    match row with
    | None => fail ErrMultipartConflict
    | Some p =>
        check (negb (String.eqb (mp_etag p) (cpETag requested)) ||
               (nonempty (cpChecksumValue requested) &&
                negb (String.eqb (cpChecksumValue requested) (mp_checksum p)))) ErrInvalidMultipartPart
    end) (crParts r).

Definition readCompletedMultipartResult (upload : upload_row) (r : CompleteMultipartRequest)
    (fingerprint : string) : M World CompleteMultipartResult :=
  _ ← check (negb (String.eqb (u_fingerprint upload) fingerprint)) ErrNoSuchUpload;
  file ← readStoredFile (u_result_file upload);
  match file with
  | None => fail ErrMultipartConflict
  | Some file =>
      _ ← lift (validateCompleteChecksumRequest upload r);
      _ ← check match crExpectedSize r with Some n => negb (n =? size file) | None => false end
            ErrMultipartObjectSize;
      _ ← validateCompletedPartChecksums upload r;
      _ ← lift (validateFinalChecksum upload r (u_result_checksum upload));
      spec ← lift (multipartChecksumSpec upload);
      mret {| resFileID := u_result_file upload; resSize := size file; resETag := u_result_etag upload;
              resAlgorithm := Algorithm spec; resChecksumType := ChecksumType spec;
              resChecksumValue := u_result_checksum upload |}
  end.

(** ** Completing: the selected parts *)

Definition readCompletionPart (uploadID : string) (partNumber : Z) : M World completionPartRecord :=
  row ← query (fun d => head (parts_join d (numbered uploadID partNumber)));
  match row with
  | None => fail ErrInvalidMultipartPart
  | Some (p, f) =>
      mret {| part := {| PartNumber := mp_number p; FileID := mp_file_id p; Size := mp_size p;
                         ETag := mp_etag p; ChecksumValue := mp_checksum p; LastModified := 0 |};
              fileState := f_state f; fileLayout := f_layout f; filePartCount := f_part_count f |}
  end.

Definition validateCompletionPart (spec : MultipartChecksumSpec) (requested : CompleteMultipartPart)
    (record : completionPartRecord) (isLast : bool) : M World unit :=
  let p := part record in
  _ ← check (negb (String.eqb (ETag p) (cpETag requested))) ErrInvalidMultipartPart;
  _ ← check (negb (Legacy spec) && String.eqb (ChecksumValue p) "") ErrMultipartConflict;
  _ ← check (negb (Legacy spec) && nonempty (cpChecksumValue requested) &&
             negb (String.eqb (cpChecksumValue requested) (ChecksumValue p))) ErrInvalidMultipartPart;
  _ ← check (negb (fileState record =? FileStateReady) || negb (fileLayout record =? 1))
        ErrInvalidMultipartPart;
  _ ← check (negb isLast && (Size p <? minS3MultipartPartSize)) ErrMultipartPartTooSmall;
  _ ← ensureMultipartStagingFileLive {| fileID := FileID p; size := 0;
        partCount := filePartCount record; state := 0; layout := 0 |};
  mappingCount ← query (fun d => count_mappings d (FileID p));
  check (negb (mappingCount =? 0)) ErrInvalidMultipartPart.

(** The parts in order, their total size and their number of blocks. *)
Fixpoint completion_loop (spec : MultipartChecksumSpec) (uploadID : string)
    (requests : list CompleteMultipartPart) (selected : list MultipartPart)
    (totalSize totalPartCount : Z) : M World (list MultipartPart * Z * Z) :=
  match requests with
  | [] => mret (selected, totalSize, totalPartCount)
  | requested :: requests =>
      record ← readCompletionPart uploadID (cpPartNumber requested);
      _ ← validateCompletionPart spec requested record (bool_decide (length requests = 0%nat));
      _ ← check (maxS3MultipartPartSize * maxS3MultipartParts - Size (part record) <? totalSize)
            ErrInvalidMultipartPart;
      completion_loop spec uploadID requests (selected ++ [part record])
        (totalSize + Size (part record)) (totalPartCount + filePartCount record)
  end.
Definition loadCompletionParts (r : CompleteMultipartRequest) (upload : upload_row)
    : M World (list MultipartPart * Z * Z) :=
  spec ← lift (multipartChecksumSpec upload);
  completion_loop spec (crUploadID r) (crParts r) [] 0 0.

Definition calculateMultipartChecksum (upload : upload_row) (parts : list MultipartPart) : outcome string :=
  spec ← multipartChecksumSpec upload;
  if Legacy spec then Ok ""
  else if String.eqb (ChecksumType spec) Checksum.TypeFullObject then
    Checksum.FullObject sha1 sha256 (Algorithm spec)
      (map (fun p => {| Checksum.pc_value := ChecksumValue p; Checksum.pc_size := Size p |}) parts)
  else
    r ← Checksum.Composite sha1 sha256 (Algorithm spec) (map ChecksumValue parts);
    Ok r.2.

Fixpoint etag_bytes (parts : list MultipartPart) : outcome (list Z) :=
  match parts with
  | [] => Ok []
  | p :: parts =>
      match Base64.hex_decode (ETag p) with
      | Err _ => Err ErrInvalidMultipartPart
      | Ok raw =>
          if negb (Nat.eqb (length raw) md5_Size) then Err ErrInvalidMultipartPart
          else rest ← etag_bytes parts; Ok (raw ++ rest)
      end
  end.
Definition multipartETag (parts : list MultipartPart) : outcome string :=
  raw ← etag_bytes parts;
  Ok (S3Object.quoted (md5_hex raw +:+ "-" +:+ FormatUint (zlen parts))).

(** ** Completing: the final file *)

(** INSERT with the keys (file_id, segment_index) and (source_file_id). *)
Definition insert_segment (s : segment_row) : M World unit :=
  d ← query id;
  _ ← check ((sg_index s <? 0) || (sg_size s <? 0)) ErrCheckConstraint;
  _ ← check (sql_exists (fun s' => ((sg_file_id s' =? sg_file_id s) && (sg_index s' =? sg_index s)) ||
                                   (sg_source s' =? sg_source s)) (t_segment d)) ErrUniqueConstraint;
  upd (set_segment (fun t => t ++ [s])).

(** [for index, part := range selected] *)
Definition indexed {A} (l : list A) : list (Z * A) := imap (fun i a => (Z.of_nat i, a)) l.

Definition insertCompositeFile (finalFileID : Z) (selected : list MultipartPart)
    (totalSize totalPartCount now : Z) : M World unit :=
  _ ← FileDao.insert_file (fun n =>
        {| f_id := n; f_file_id := finalFileID; f_size := totalSize; f_part_count := totalPartCount;
           f_state := FileStateReady; f_ctime := now; f_mtime := now; f_extinfo := "{}"; f_layout := 2 |});
  for_each (fun ip => insert_segment
    {| sg_file_id := finalFileID; sg_index := ip.1; sg_source := FileID ip.2; sg_size := Size ip.2;
       sg_ctime := now; sg_mtime := now |}) (indexed selected).

(** INSERT with the key (file_id, part_number) and the CHECKs of the table. *)
Definition insert_completed (c : completed_row) : M World unit :=
  d ← query id;
  _ ← check ((cp_file_id c <? 1) || (cp_number c <? 1) || (10000 <? cp_number c) ||
             (cp_size c <? 0) || (5368709120 <? cp_size c) ||
             negb (if cp_available c then nonempty (cp_algorithm c) && nonempty (cp_value c)
                   else negb (nonempty (cp_algorithm c)) && negb (nonempty (cp_value c))))
        ErrCheckConstraint;
  _ ← check (sql_exists (fun c' => (cp_file_id c' =? cp_file_id c) && (cp_number c' =? cp_number c))
               (t_completed d)) ErrUniqueConstraint;
  upd (set_completed (fun t => t ++ [c])).

Definition insertCompletedPartManifest (finalFileID : Z) (upload : upload_row)
    (selected : list MultipartPart) (now : Z) : M World unit :=
  let available := nonempty (u_algorithm upload) in
  for_each (fun ip => insert_completed
    {| cp_file_id := finalFileID; cp_number := ip.1 + 1; cp_size := Size ip.2; cp_available := available;
       cp_algorithm := if available then u_algorithm upload else "";
       cp_value := if available then ChecksumValue ip.2 else ""; cp_ctime := now; cp_mtime := now |})
    (indexed selected).

Definition multipartObjectMetadata (upload : upload_row) (etag checksumValue : string) : s3meta_row :=
  {| m_entry_id := 0; m_etag := etag; m_sha256 := ""; m_req_algorithm := u_algorithm upload;
     m_req_value := checksumValue; m_checksum_type := u_type upload;
     m_content_type := u_content_type upload; m_cache_control := u_cache_control upload;
     m_disposition := u_disposition upload; m_encoding := u_encoding upload;
     m_language := u_language upload; m_expires := u_expires upload; m_user := u_user upload;
     m_ctime := 0; m_mtime := 0 |}.

Definition selectCompletedMultipartParts (uploadID : string) (selected : list MultipartPart) (now : Z)
    : M World (list Z) :=
  _ ← for_each (fun part =>
        let p := fun q => part_of_upload uploadID q && (mp_number q =? PartNumber part) &&
                          (mp_file_id q =? FileID part) && bool_decide (mp_state q = PsDiscarded) in
        affected ← query (fun d => sql_count p (t_mpart d));
        _ ← upd (set_mpart (sql_update p (part_in PsSelected now)));
        check (negb (affected =? 1)) ErrMultipartConflict) selected;
  mret (map FileID selected).

Definition finalizeMultipartParts (uploadID : string) (selected : list MultipartPart) (now : Z)
    : M World unit :=
  allParts ← listMultipartPartFileIDs uploadID;
  _ ← discard_active uploadID now;
  selectedSet ← selectCompletedMultipartParts uploadID selected now;
  mark_files (List.filter (fun f => negb (bool_decide (f ∈ selectedSet))) allParts) now.

Definition finishMultipartControl (uploadID fingerprint : string) (finalFileID : Z)
    (etag checksumValue : string) (now : Z) : M World unit :=
  let p := fun u => bool_decide (u_upload_id u = uploadID) && bool_decide (u_state u = UsCompleting) in
  affected ← query (fun d => sql_count p (t_upload d));
  _ ← upd (set_upload (sql_update p (fun u => upload_in UsCompleted u fingerprint finalFileID etag
        checksumValue now (now + multipartControlRetention))));
  check (negb (affected =? 1)) ErrMultipartConflict.

Definition persistCompletedMultipart (r : CompleteMultipartRequest) (upload : upload_row)
    (selected : list MultipartPart) (finalFileID totalSize : Z)
    (etag checksumValue fingerprint : string) (now : Z) : M World unit :=
  _ ← S3Object.publishS3ObjectTx ("/" +:+ crBucket r +:+ "/" +:+ crKey r) finalFileID totalSize
        (multipartObjectMetadata upload etag checksumValue) (crCondition r);
  _ ← finalizeMultipartParts (crUploadID r) selected now;
  finishMultipartControl (crUploadID r) fingerprint finalFileID etag checksumValue now.

Definition completedMultipartResult (upload : upload_row) (finalFileID totalSize : Z)
    (etag checksumValue : string) : outcome CompleteMultipartResult :=
  spec ← multipartChecksumSpec upload;
  Ok {| resFileID := finalFileID; resSize := totalSize; resETag := etag;
        resAlgorithm := Algorithm spec; resChecksumType := ChecksumType spec;
        resChecksumValue := checksumValue |}.

Definition completeActiveMultipart (blockSize : Z) (r : CompleteMultipartRequest) (upload : upload_row)
    (fingerprint : string) (now : Z) : M World CompleteMultipartResult :=
  loaded ← loadCompletionParts r upload;
  let '(selected, totalSize, totalPartCount) := loaded in
  _ ← check match crExpectedSize r with Some n => negb (n =? totalSize) | None => false end
        ErrMultipartObjectSize;
  _ ← check (multipartObjectSizeLimit (crMaxObjectSize r) blockSize <? totalSize) ErrMultipartEntityTooLarge;
  _ ← check (FileStream.maxFilePartCount <? totalPartCount) ErrTooManyFileParts;
  finalFileID ← NextId;
  _ ← insertCompositeFile finalFileID selected totalSize totalPartCount now;
  _ ← insertCompletedPartManifest finalFileID upload selected now;
  etag ← lift (multipartETag selected);
  checksumValue ← lift (calculateMultipartChecksum upload selected);
  _ ← lift (validateFinalChecksum upload r checksumValue);
  _ ← persistCompletedMultipart r upload selected finalFileID totalSize etag checksumValue fingerprint now;
  lift (completedMultipartResult upload finalFileID totalSize etag checksumValue).

Definition claimMultipartCompletion (uploadID : string) (now : Z) : M World unit :=
  let p := fun u => bool_decide (u_upload_id u = uploadID) && u_active u && (now <? u_expires_at u) in
  affected ← query (fun d => sql_count p (t_upload d));
  _ ← upd (set_upload (sql_update p (fun u => upload_in UsCompleting u (u_fingerprint u)
        (u_result_file u) (u_result_etag u) (u_result_checksum u) (u_completed_at u) (u_cleanup_at u))));
  check (negb (affected =? 1)) ErrMultipartConflict.

(** No result when the upload had expired and was aborted. *)
Definition completeMultipartUploadTx (blockSize : Z) (r : CompleteMultipartRequest) (fingerprint : string)
    : M World (option CompleteMultipartResult) :=
  upload ← readMultipartUpload (crUploadID r);
  match matchingMultipartUpload upload (crBucket r) (crKey r) with
  | None => fail ErrNoSuchUpload
  | Some upload =>
      if bool_decide (u_state upload = UsCompleted) then
        result ← readCompletedMultipartResult upload r fingerprint; mret (Some result)
      else if negb (u_active upload) then fail ErrNoSuchUpload
      else
        t ← now;
        if u_expires_at upload <=? t then
          _ ← abortMultipartUploadTx upload t; mret None
        else
          _ ← lift (validateCompleteChecksumRequest upload r);
          _ ← claimMultipartCompletion (crUploadID r) t;
          result ← completeActiveMultipart blockSize r upload fingerprint t;
          mret (Some result)
  end.

Definition CompleteMultipartUpload (blockSize : Z) (r : CompleteMultipartRequest)
    : M World CompleteMultipartResult :=
  _ ← lift (validateCompleteMultipartRequest r);
  let fingerprint := multipartCompletionFingerprint (crParts r) in
  completed ← OnTransation (completeMultipartUploadTx blockSize r fingerprint);
  match completed with
  | None => fail ErrNoSuchUpload
  | Some result => mret result
  end.

(** ** Cleaning up *)

Definition processExpiredMultipartUploads (now : Z) (limit : nat) : M World unit :=
  OnTransation (
    uploadIDs ← query (fun d => map u_upload_id (sql_limit 0 limit
      (order_by (fun a b => u_expires_at a <=? u_expires_at b)
        (sql_select (fun u => u_active u && (u_expires_at u <=? now)) (t_upload d)))));
    for_each (fun uploadID =>
      upload ← readMultipartUpload uploadID;
      match upload with
      | Some upload => if u_active upload then abortMultipartUploadTx upload now else mret tt
      | None => mret tt
      end) uploadIDs).

Definition terminal (u : upload_row) : bool :=
  bool_decide (u_state u = UsCompleted) || bool_decide (u_state u = UsAborted).

Definition purgeMultipartControlRows (now : Z) (limit : nat) : M World unit :=
  OnTransation (
    uploadIDs ← query (fun d => map u_upload_id (sql_limit 0 limit
      (order_by (fun a b => u_cleanup_at a <=? u_cleanup_at b)
        (sql_select (fun u => terminal u && (0 <? u_cleanup_at u) && (u_cleanup_at u <=? now))
          (t_upload d)))));
    for_each (fun uploadID =>
      _ ← upd (set_mpart (sql_delete (part_of_upload uploadID)));
      upd (set_upload (sql_delete (fun u => bool_decide (u_upload_id u = uploadID) && terminal u))))
      uploadIDs).

(** Errors are logged. *)
Definition runMultipartCleanupPass : M World unit :=
  t ← now;
  _ ← attempt (processExpiredMultipartUploads t multipartCleanupBatchSize);
  _ ← attempt (purgeMultipartControlRows t multipartCleanupBatchSize);
  mret tt.
End Multipart.
End Multipart.
