(* ===== verification/DiskCache.v ===== *)
(** * The cache of file contents on disk (src/filemgr/file_io_cache_disk.go)

    Contents are files below a directory of the cache's own, named after the key, a
    generation, the size and the digest. An index in memory, ordered by use, keeps their
    cost within a budget; entries that are taken out while a reader has them open are
    removed by the last reader. The file system is a map from paths to files; any call on
    it may fail. Each section under the mutex is one step of the functions here. *)

From stdpp Require Import base strings list gmap.
From Stdlib Require Import Ascii.
From S2P Require Import Prelude GoStr Base64 Checksum BlockIO Multipart.

(** ** strings *)

(** [strings.CutSuffix] *)
Fixpoint CutSuffix (s suffix : string) : option string :=
  if String.eqb s suffix then Some ""
  else match s with
       | EmptyString => None
       | String c s' => String c <$> CutSuffix s' suffix
       end.
Definition HasSuffix (s suffix : string) : bool :=
  match CutSuffix s suffix with Some _ => true | None => false end.
(** [strings.Cut] at a byte *)
Fixpoint Cut (c : ascii) (s : string) : option (string * string) :=
  match s with
  | EmptyString => None
  | String d s' =>
      if Ascii.eqb d c then Some ("", s')
      else match Cut c s' with Some (a, b) => Some (String d a, b) | None => None end
  end.

(** ** Outside src/ *)

Record diskCacheManifest := { dm_Version : Z; dm_StorageBinding : string }.

(** UUIDs by call number and the canonical form of what [uuid.Parse] accepts, the strict
    decoding of a manifest and its encoding, the calls of the file system that fail, the
    clock of the file system, and what ristretto keeps after an access. *)
Class CacheLib := {
  NewString : nat -> string;
  uuid_Parse : string -> option string;
  decode_manifest : list Z -> option diskCacheManifest;
  encode_manifest : diskCacheManifest -> list Z;
  disk_fault : nat -> bool;
  file_time : nat -> Z;
  l1_policy : nat -> gmap (list Z) (list Z) -> gmap (list Z) (list Z) }.

Module DiskCache.
Local Notation slen s := (Z.of_nat (String.length s)).

(** ** State *)

(** A regular file: its bytes, its identity and when it was last written. *)
Record cfile := { cf_data : list Z; cf_ino : nat; cf_mtime : Z }.

Record diskEntry := {
  e_key : list Z; e_generation : string; e_path : string; e_size : Z; e_cost : Z; e_digest : list Z;
  e_modTime : Z; e_fileInfo : option nat; e_refs : Z; e_retired : bool }.

(** Entries are shared by the index and the readers: [dc_heap] holds them, pointers are
    positions in it. [dc_lru] has the most recent entry in front. Paths are relative to the
    base directory. [dc_calls], [dc_uuids] and [dc_inodes] count what was used up. *)
Record diskCache := {
  dc_files : gmap string cfile; dc_heap : list diskEntry; dc_entries : gmap (list Z) nat; dc_lru : list nat;
  dc_usedCost : Z; dc_closing : bool; dc_closed : bool; dc_orphans : gset string; dc_readers : Z;
  dc_calls : nat; dc_uuids : nat; dc_inodes : nat }.

Definition upd_files (f : gmap string cfile -> gmap string cfile) (d : diskCache) : diskCache :=
  {| dc_files := f (dc_files d); dc_heap := dc_heap d; dc_entries := dc_entries d; dc_lru := dc_lru d;
     dc_usedCost := dc_usedCost d; dc_closing := dc_closing d; dc_closed := dc_closed d;
     dc_orphans := dc_orphans d; dc_readers := dc_readers d; dc_calls := dc_calls d; dc_uuids := dc_uuids d;
     dc_inodes := dc_inodes d |}.
Definition upd_heap (f : list diskEntry -> list diskEntry) (d : diskCache) : diskCache :=
  {| dc_files := dc_files d; dc_heap := f (dc_heap d); dc_entries := dc_entries d; dc_lru := dc_lru d;
     dc_usedCost := dc_usedCost d; dc_closing := dc_closing d; dc_closed := dc_closed d;
     dc_orphans := dc_orphans d; dc_readers := dc_readers d; dc_calls := dc_calls d; dc_uuids := dc_uuids d;
     dc_inodes := dc_inodes d |}.
Definition upd_entries (f : gmap (list Z) nat -> gmap (list Z) nat) (d : diskCache) : diskCache :=
  {| dc_files := dc_files d; dc_heap := dc_heap d; dc_entries := f (dc_entries d); dc_lru := dc_lru d;
     dc_usedCost := dc_usedCost d; dc_closing := dc_closing d; dc_closed := dc_closed d;
     dc_orphans := dc_orphans d; dc_readers := dc_readers d; dc_calls := dc_calls d; dc_uuids := dc_uuids d;
     dc_inodes := dc_inodes d |}.
Definition upd_lru (f : list nat -> list nat) (d : diskCache) : diskCache :=
  {| dc_files := dc_files d; dc_heap := dc_heap d; dc_entries := dc_entries d; dc_lru := f (dc_lru d);
     dc_usedCost := dc_usedCost d; dc_closing := dc_closing d; dc_closed := dc_closed d;
     dc_orphans := dc_orphans d; dc_readers := dc_readers d; dc_calls := dc_calls d; dc_uuids := dc_uuids d;
     dc_inodes := dc_inodes d |}.
Definition upd_usedCost (f : Z -> Z) (d : diskCache) : diskCache :=
  {| dc_files := dc_files d; dc_heap := dc_heap d; dc_entries := dc_entries d; dc_lru := dc_lru d;
     dc_usedCost := f (dc_usedCost d); dc_closing := dc_closing d; dc_closed := dc_closed d;
     dc_orphans := dc_orphans d; dc_readers := dc_readers d; dc_calls := dc_calls d; dc_uuids := dc_uuids d;
     dc_inodes := dc_inodes d |}.
Definition upd_orphans (f : gset string -> gset string) (d : diskCache) : diskCache :=
  {| dc_files := dc_files d; dc_heap := dc_heap d; dc_entries := dc_entries d; dc_lru := dc_lru d;
     dc_usedCost := dc_usedCost d; dc_closing := dc_closing d; dc_closed := dc_closed d;
     dc_orphans := f (dc_orphans d); dc_readers := dc_readers d; dc_calls := dc_calls d;
     dc_uuids := dc_uuids d; dc_inodes := dc_inodes d |}.
Definition upd_readers (f : Z -> Z) (d : diskCache) : diskCache :=
  {| dc_files := dc_files d; dc_heap := dc_heap d; dc_entries := dc_entries d; dc_lru := dc_lru d;
     dc_usedCost := dc_usedCost d; dc_closing := dc_closing d; dc_closed := dc_closed d;
     dc_orphans := dc_orphans d; dc_readers := f (dc_readers d); dc_calls := dc_calls d;
     dc_uuids := dc_uuids d; dc_inodes := dc_inodes d |}.
Definition upd_calls (f : nat -> nat) (d : diskCache) : diskCache :=
  {| dc_files := dc_files d; dc_heap := dc_heap d; dc_entries := dc_entries d; dc_lru := dc_lru d;
     dc_usedCost := dc_usedCost d; dc_closing := dc_closing d; dc_closed := dc_closed d;
     dc_orphans := dc_orphans d; dc_readers := dc_readers d; dc_calls := f (dc_calls d);
     dc_uuids := dc_uuids d; dc_inodes := dc_inodes d |}.
Definition upd_uuids (f : nat -> nat) (d : diskCache) : diskCache :=
  {| dc_files := dc_files d; dc_heap := dc_heap d; dc_entries := dc_entries d; dc_lru := dc_lru d;
     dc_usedCost := dc_usedCost d; dc_closing := dc_closing d; dc_closed := dc_closed d;
     dc_orphans := dc_orphans d; dc_readers := dc_readers d; dc_calls := dc_calls d;
     dc_uuids := f (dc_uuids d); dc_inodes := dc_inodes d |}.
Definition upd_inodes (f : nat -> nat) (d : diskCache) : diskCache :=
  {| dc_files := dc_files d; dc_heap := dc_heap d; dc_entries := dc_entries d; dc_lru := dc_lru d;
     dc_usedCost := dc_usedCost d; dc_closing := dc_closing d; dc_closed := dc_closed d;
     dc_orphans := dc_orphans d; dc_readers := dc_readers d; dc_calls := dc_calls d; dc_uuids := dc_uuids d;
     dc_inodes := f (dc_inodes d) |}.
Definition set_refs (refs : Z) (e : diskEntry) : diskEntry :=
  {| e_key := e_key e; e_generation := e_generation e; e_path := e_path e; e_size := e_size e;
     e_cost := e_cost e; e_digest := e_digest e; e_modTime := e_modTime e; e_fileInfo := e_fileInfo e;
     e_refs := refs; e_retired := e_retired e |}.
Definition set_retired  (e : diskEntry) : diskEntry :=
  {| e_key := e_key e; e_generation := e_generation e; e_path := e_path e; e_size := e_size e;
     e_cost := e_cost e; e_digest := e_digest e; e_modTime := e_modTime e; e_fileInfo := e_fileInfo e;
     e_refs := e_refs e; e_retired := true |}.
Definition set_info (t : Z) (ino : nat) (e : diskEntry) : diskEntry :=
  {| e_key := e_key e; e_generation := e_generation e; e_path := e_path e; e_size := e_size e;
     e_cost := e_cost e; e_digest := e_digest e; e_modTime := t; e_fileInfo := Some ino; e_refs := e_refs e;
     e_retired := e_retired e |}.

Definition diskCacheFormatVersion : Z := 2.
Definition root : string := "v2/".
Definition manifestPath : string := "v2/.manifest".
Definition diskCacheFileSuffix : string := ".cache".
Definition diskCacheTempSuffix : string := ".temp".
Definition diskCopyBufferSize : Z := 64 * 1024.
Definition diskCacheAllocationUnit : Z := 4 * 1024.

Definition hex (key : list Z) : string := Base64.hex_encode key.
Definition shard_of (key : list Z) : string := String.substring 0 2 (hex key).

Definition diskCacheEntryCost (size maxCost : Z) : Z :=
  if (size <? 0) || (maxCost <=? 0) then 0
  else if maxCost <=? diskCacheAllocationUnit then maxCost
  else
    let logical := Z.max size 1 in
    let remainder := Z.rem logical diskCacheAllocationUnit in
    if remainder =? 0 then logical
    else
      let increment := diskCacheAllocationUnit - remainder in
      if (2 ^ 63 - 1) - increment <? logical then 0 else logical + increment.

(** *** Names *)

Definition isHexPrefix (value : string) : bool :=
  (slen value =? 2) && match Base64.hex_decode value with Ok _ => String.eqb (Multipart.ToLower value) value | Err _ => false end.

Definition isLegacyCacheFileName `{!CacheLib} (name : string) : bool :=
  let candidate :=
    match CutSuffix name diskCacheTempSuffix with
    | None => Some name
    | Some trimmed =>
        match Checksum.split_last "."%char trimmed with
        | None => None
        | Some (before, after) => match uuid_Parse after with Some _ => Some before | None => None end
        end
    end in
  match candidate with
  | None => false
  | Some candidate =>
      match CutSuffix candidate diskCacheFileSuffix with
      | None => false
      | Some base =>
          match Cut "#"%char base with
          | None => false
          | Some (sizeText, fileIDText) =>
              match Checksum.Atoi sizeText, ParseUint fileIDText with
              | Ok size, Ok _ => 0 <=? size
              | _, _ => false
              end
          end
      end
  end.

Definition file_name (key : list Z) (generation : string) (size : Z) (digest : list Z) : string :=
  hex key +:+ "." +:+ generation +:+ "." +:+ FormatUint size +:+ "." +:+ hex digest +:+ diskCacheFileSuffix.

Definition new_entry (key : list Z) (generation : string) (size : Z) (digest : list Z) : diskEntry :=
  {| e_key := key; e_generation := generation; e_path := ""; e_size := size; e_cost := 0; e_digest := digest;
     e_modTime := 0; e_fileInfo := None; e_refs := 0; e_retired := false |}.
Definition with_file (e : diskEntry) (path : string) (cost modTime : Z) (ino : nat) : diskEntry :=
  {| e_key := e_key e; e_generation := e_generation e; e_path := path; e_size := e_size e; e_cost := cost;
     e_digest := e_digest e; e_modTime := modTime; e_fileInfo := Some ino; e_refs := 0; e_retired := false |}.

Definition parseDiskCacheFileName `{!CacheLib} (name : string) : outcome diskEntry :=
  match CutSuffix name diskCacheFileSuffix with
  | None => Err ErrInvalidCachePath
  | Some base =>
      match split_on "."%char base with
      | [keyText; generation; sizeText; digestText] =>
          if negb (slen keyText =? 64) || negb (slen digestText =? 64) then Err ErrInvalidCachePath
          else
            match Base64.hex_decode keyText, uuid_Parse generation, Checksum.Atoi sizeText, Base64.hex_decode digestText with
            | Ok key, Some canonical, Ok size, Ok digest =>
                if String.eqb (hex key) keyText && String.eqb canonical generation && (0 <=? size) &&
                   String.eqb (hex digest) digestText
                then Ok (new_entry key generation size digest)
                else Err ErrInvalidCachePath
            | _, _, _, _ => Err ErrInvalidCachePath
            end
      | _ => Err ErrInvalidCachePath
      end
  end.

(** [relative] is the path below the managed directory. *)
Definition parsePersistedEntryLocation `{!CacheLib} (relative name : string) : outcome diskEntry :=
  match split_on slash relative with
  | [shard; _] =>
      if negb (isHexPrefix shard) then Err ErrInvalidCachePath
      else
        entry ← parseDiskCacheFileName name;
        if String.eqb shard (shard_of (e_key entry)) then Ok entry else Err ErrInvalidCachePath
  | _ => Err ErrInvalidCachePath
  end.

(** ** Operations *)

Section Disk.
Context `{!Sha} `{!CacheLib} (maxCost keyLimit minSize : Z).
Notation MD := (M diskCache).

(** A call on the file system. *)
Definition syscall : MD unit :=
  n ← reads dc_calls;
  _ ← modify (upd_calls S);
  check (disk_fault n) ErrCacheLocalIO.
Definition newUUID : MD string :=
  n ← reads dc_uuids;
  _ ← modify (upd_uuids S);
  mret (NewString n).
Definition stat_file (path : string) : MD (option cfile) := reads (fun d => dc_files d !! path).
Definition pointer (id : nat) : MD diskEntry :=
  e ← reads (fun d => dc_heap d !! id);
  match e with Some e => mret e | None => fail Panic end.
Definition set_entry (id : nat) (f : diskEntry -> diskEntry) : MD unit := modify (upd_heap (alter f id)).

(** [O_WRONLY|O_CREATE|O_EXCL] *)
Definition create_file (path : string) : MD unit :=
  _ ← syscall;
  old ← stat_file path;
  _ ← check (bool_decide (is_Some old)) ErrCacheLocalIO;
  n ← reads dc_calls;
  ino ← reads dc_inodes;
  _ ← modify (upd_inodes S);
  modify (upd_files (<[path := {| cf_data := []; cf_ino := ino; cf_mtime := file_time n |}]>)).
Definition append_file (path : string) (data : list Z) : MD unit :=
  n ← reads dc_calls;
  modify (upd_files (alter (fun f => {| cf_data := cf_data f ++ data; cf_ino := cf_ino f; cf_mtime := file_time n |}) path)).
Definition rename_file (from to : string) : MD unit :=
  modify (upd_files (fun m => match m !! from with Some f => <[to := f]> (delete from m) | None => m end)).

Definition removeManagedFile (path : string) : MD unit :=
  _ ← syscall; modify (upd_files (delete path)).

(** The path to remember and the error. *)
Definition removeOwnedPath (path : string) : MD (string * option err) :=
  if negb (String.prefix root path) then mret (path, Some ErrInvalidCachePath)
  else if negb (HasSuffix path diskCacheFileSuffix) then
    r ← attempt (removeManagedFile path);
    mret (path, match r with Ok _ => None | Err e => Some e end)
  else
    u ← newUUID;
    let retiredPath := path +:+ "." +:+ u +:+ diskCacheTempSuffix in
    file ← stat_file path;
    moved ← attempt syscall;
    match moved, file with
    | Err e, _ => mret (path, Some e)
    | Ok _, None => mret (path, None)
    | Ok _, Some _ =>
        _ ← rename_file path retiredPath;
        r ← attempt (removeManagedFile retiredPath);
        mret (retiredPath, match r with Ok _ => None | Err e => Some e end)
    end.

Definition cleanupPaths (paths : list string) : MD unit :=
  for_each (fun path =>
    r ← removeOwnedPath path;
    match r.2 with
    | None => mret tt
    | Some _ => modify (upd_orphans (fun o => {[r.1]} ∪ o))
    end) paths.

Definition retireLocked (id : nat) : MD (list string) :=
  entry ← pointer id;
  current ← reads (fun d => dc_entries d !! e_key entry);
  _ ← (if bool_decide (current = Some id) then
         _ ← modify (upd_entries (delete (e_key entry)));
         _ ← modify (upd_lru (List.filter (fun i => negb (Nat.eqb i id))));
         modify (upd_usedCost (fun c => c - e_cost entry))
       else mret tt);
  _ ← set_entry id set_retired;
  mret (if e_refs entry =? 0 then [e_path entry] else []).

(** The loop that makes room; each round takes the oldest entry off the list. *)
Fixpoint make_room (fuel : nat) (cost : Z) (cleanup : list string) : MD (list string) :=
  match fuel with
  | O => fail Diverge
  | S fuel =>
      used ← reads dc_usedCost;
      if negb (maxCost - used <? cost) then mret cleanup
      else
        l ← reads dc_lru;
        match last l with
        | None => mret cleanup
        | Some oldest => paths ← retireLocked oldest; make_room fuel cost (cleanup ++ paths)
        end
  end.

Definition inadmissible (entry : diskEntry) : bool :=
  (e_size entry <? 0) || (e_size entry <=? minSize) || (keyLimit <? e_size entry) || (maxCost <? e_size entry).

Definition admit_entry (entry : diskEntry) : MD bool :=
  closing ← reads dc_closing;
  if closing || inadmissible entry || (e_cost entry <=? 0) || (maxCost <? e_cost entry) then mret false
  else
    existing ← reads (fun d => dc_entries d !! e_key entry);
    cleanup ← match existing with Some id => retireLocked id | None => mret [] end;
    fuel ← reads (fun d => S (length (dc_lru d)));
    cleanup ← make_room fuel (e_cost entry) cleanup;
    id ← reads (fun d => length (dc_heap d));
    _ ← modify (upd_heap (fun h => h ++ [entry]));
    _ ← modify (upd_lru (cons id));
    _ ← modify (upd_entries (<[e_key entry := id]>));
    _ ← modify (upd_usedCost (fun c => c + e_cost entry));
    _ ← cleanupPaths cleanup;
    mret true.

Definition invalidate (id : nat) : MD unit :=
  entry ← pointer id;
  current ← reads (fun d => dc_entries d !! e_key entry);
  cleanup ← (if bool_decide (current = Some id) then retireLocked id
             else if negb (e_retired entry) then
               _ ← set_entry id set_retired;
               mret (if e_refs entry =? 0 then [e_path entry] else [])
             else mret []);
  cleanupPaths cleanup.

Definition release (id : nat) : MD unit :=
  entry ← pointer id;
  let refs := if e_refs entry - 1 <? 0 then 0 else e_refs entry - 1 in
  _ ← set_entry id (set_refs refs);
  _ ← modify (upd_readers (fun n => n - 1));
  cleanupPaths (if e_retired entry && (refs =? 0) then [e_path entry] else []).

(** Opening takes two calls. *)
Definition openDiskEntryFile (path : string) (expectedSize : Z) : MD cfile :=
  _ ← syscall;
  file ← stat_file path;
  match file with
  | None => fail ErrCacheLocalIO
  | Some file =>
      _ ← syscall;
      _ ← check (negb (zlen (cf_data file) =? expectedSize)) ErrCacheLocalIO;
      mret file
  end.

Definition validateChangedEntry (id : nat) (file : cfile) : MD bool :=
  entry ← pointer id;
  if bool_decide (e_fileInfo entry = Some (cf_ino file)) && (cf_mtime file =? e_modTime entry) then mret true
  else
    read ← attempt syscall;
    match read with
    | Err _ => mret false
    | Ok _ =>
        if negb (bool_decide (sha256 (cf_data file) = e_digest entry)) then mret false
        else _ ← set_entry id (set_info (cf_mtime file) (cf_ino file)); mret true
    end.

(** The entry with its content, for a [diskCacheReader]. *)
Definition open (key : list Z) (expectedSize : Z) : MD (option (nat * list Z)) :=
  element ← reads (fun d => dc_entries d !! key);
  closing ← reads dc_closing;
  match element with
  | None => mret None
  | Some id =>
      if closing : bool then mret None
      else
        entry ← pointer id;
        if negb (e_size entry =? expectedSize) then
          cleanup ← retireLocked id; _ ← cleanupPaths cleanup; mret None
        else
          _ ← set_entry id (set_refs (e_refs entry + 1));
          _ ← modify (upd_readers (fun n => n + 1));
          _ ← modify (upd_lru (fun l => id :: List.filter (fun i => negb (Nat.eqb i id)) l));
          opened ← attempt (openDiskEntryFile (e_path entry) (e_size entry));
          match opened with
          | Err _ => _ ← invalidate id; _ ← release id; mret None
          | Ok file =>
              valid ← validateChangedEntry id file;
              if (valid : bool) then mret (Some (id, cf_data file))
              else _ ← invalidate id; _ ← release id; mret None
          end
  end.

(** *** Writing *)

Fixpoint copy_chunks (fuel : nat) (path : string) (data : list Z) (error : option err) (remaining : Z) : MD unit :=
  match fuel with
  | O => fail Diverge
  | S fuel =>
      if remaining <=? 0 then
        (* verifyCacheSourceTrailer *)
        check (negb (zlen data =? 0) || negb (bool_decide (default EOF error = EOF))) ErrCacheSourceRead
      else
        let want := Z.min diskCopyBufferSize remaining in
        let chunk := ztake want data in
        _ ← (if zlen chunk =? 0 then mret tt else _ ← syscall; append_file path chunk);
        _ ← check (zlen chunk <? want) ErrCacheSourceRead;
        copy_chunks fuel path (zdrop want data) error (remaining - want)
  end.

(** The digest of the bytes; an error of the source is [ErrCacheSourceRead]. *)
Definition copyExactToFile (path : string) (src : source) (expected : Z) : MD (list Z) :=
  _ ← copy_chunks (Z.to_nat (expected / diskCopyBufferSize + 2)) path (src_data src) (src_err src) expected;
  mret (sha256 (ztake expected (src_data src))).

(** [writeCandidate] up to the rename: the digest and the path to publish under. *)
Definition fillTemporary (shard temporary generation : string) (key : list Z) (size : Z) (src : source)
    : MD (list Z * string) :=
  digest ← copyExactToFile temporary src size;
  _ ← syscall;
  _ ← syscall;
  let location := shard +:+ "/" +:+ file_name key generation size digest in
  _ ← syscall;
  taken ← stat_file location;
  _ ← check (bool_decide (is_Some taken)) ErrCacheLocalIO;
  _ ← syscall;
  mret (digest, location).

Definition writeCandidate (key : list Z) (size : Z) (src : source) : MD diskEntry :=
  let shard := root +:+ shard_of key in
  _ ← syscall;
  generation ← newUUID;
  let temporary := shard +:+ "/." +:+ generation +:+ diskCacheTempSuffix in
  _ ← create_file temporary;
  written ← attempt (fillTemporary shard temporary generation key size src);
  match written with
  | Err e => _ ← attempt (removeManagedFile temporary); fail e
  | Ok (digest, location) =>
      _ ← rename_file temporary location;
      published ← attempt syscall;
      file ← stat_file location;
      match published, file with
      | Ok _, Some file =>
          if zlen (cf_data file) =? size
          then mret (with_file (new_entry key generation size digest) location (diskCacheEntryCost size maxCost)
                       (cf_mtime file) (cf_ino file))
          else _ ← attempt (removeManagedFile location); fail ErrCacheLocalIO
      | _, _ => _ ← attempt (removeManagedFile location); fail ErrCacheLocalIO
      end
  end.

(** *** Starting *)

(** The files below a directory. *)
Definition below (prefix : string) (d : diskCache) : list string :=
  order_by String.leb (List.filter (String.prefix prefix) (map fst (map_to_list (dc_files d)))).
Definition relative_to (prefix path : string) : string :=
  String.substring (String.length prefix) (String.length path - String.length prefix) path.

Definition readDiskCacheManifest : MD diskCacheManifest :=
  _ ← syscall;
  file ← stat_file manifestPath;
  match file with
  | None => fail ErrNotExist
  | Some file =>
      _ ← check (4096 <? zlen (cf_data file)) ErrInvalidCachePath;
      _ ← syscall;
      _ ← syscall;
      match decode_manifest (cf_data file) with
      | None => fail ErrMalformedJSON
      | Some manifest =>
          _ ← check (negb (dm_Version manifest =? diskCacheFormatVersion) ||
                     negb (slen (dm_StorageBinding manifest) =? 64)) ErrInvalidCachePath;
          _ ← lift (Base64.hex_decode (dm_StorageBinding manifest));
          mret manifest
      end
  end.

(** Creating, writing, syncing and closing, then [os.Remove] and [os.Rename]. *)
Definition writeDiskCacheManifest (manifest : diskCacheManifest) : MD unit :=
  u ← newUUID;
  let temporary := manifestPath +:+ "." +:+ u +:+ diskCacheTempSuffix in
  _ ← create_file temporary;
  written ← attempt (
    _ ← syscall;
    _ ← append_file temporary (encode_manifest manifest);
    _ ← syscall;
    _ ← syscall;
    _ ← removeManagedFile manifestPath;
    syscall);
  match written with
  | Err e => _ ← attempt (removeManagedFile temporary); fail e
  | Ok _ => rename_file temporary manifestPath
  end.

Definition removeManagedEntries : MD unit :=
  paths ← reads (below root);
  for_each (fun path =>
    if HasSuffix path diskCacheFileSuffix || HasSuffix path diskCacheTempSuffix
    then removeManagedFile path else mret tt) paths.

Definition reconcileManifest (binding : list Z) : MD unit :=
  let expected := {| dm_Version := diskCacheFormatVersion; dm_StorageBinding := hex binding |} in
  current ← attempt readDiskCacheManifest;
  if match current with
     | Ok m => (dm_Version m =? dm_Version expected) && String.eqb (dm_StorageBinding m) (dm_StorageBinding expected)
     | Err _ => false
     end
  then mret tt
  else _ ← removeManagedEntries; writeDiskCacheManifest expected.

(** Entries of an older format lay in shards of the base directory itself. *)
Definition removeLegacyEntries : MD unit :=
  _ ← syscall;
  paths ← reads (below "");
  for_each (fun path =>
    match split_on slash path with
    | [shard; name] =>
        if isHexPrefix shard && isLegacyCacheFileName name then removeManagedFile path else mret tt
    | _ => mret tt
    end) paths.

Definition validatePersistedEntry (path : string) : MD diskEntry :=
  entry ← lift (parsePersistedEntryLocation (relative_to root path) (path_base path));
  _ ← check (inadmissible entry) ErrInvalidCache;
  _ ← syscall;
  file ← stat_file path;
  match file with
  | None => fail ErrNotExist
  | Some file =>
      _ ← check (negb (zlen (cf_data file) =? e_size entry)) ErrInvalidCachePath;
      _ ← syscall;
      _ ← syscall;
      _ ← syscall;
      _ ← check (negb (bool_decide (sha256 (cf_data file) = e_digest entry))) ErrInvalidCachePath;
      mret (with_file entry path (diskCacheEntryCost (e_size entry) maxCost) (cf_mtime file) (cf_ino file))
  end.

Definition updateRecoveryWinner (winners : gmap (list Z) diskEntry) (entry : diskEntry)
    : MD (gmap (list Z) diskEntry) :=
  match winners !! e_key entry with
  | None => mret (<[e_key entry := entry]> winners)
  | Some previous =>
      if String.leb (e_generation entry) (e_generation previous)
      then _ ← removeManagedFile (e_path entry); mret winners
      else _ ← removeManagedFile (e_path previous); mret (<[e_key entry := entry]> winners)
  end.

Definition recoverPath (winners : gmap (list Z) diskEntry) (path : string) : MD (gmap (list Z) diskEntry) :=
  if HasSuffix path diskCacheTempSuffix then _ ← removeManagedFile path; mret winners
  else if negb (HasSuffix path diskCacheFileSuffix) then mret winners
  else
    entry ← attempt (validatePersistedEntry path);
    match entry with
    | Err _ => _ ← removeManagedFile path; mret winners
    | Ok entry => updateRecoveryWinner winners entry
    end.

Definition by_age (a b : diskEntry) : bool :=
  if e_modTime a =? e_modTime b then String.leb (e_generation a) (e_generation b) else e_modTime a <? e_modTime b.

(** The walk goes by name; what it finds does not depend on that. *)
Definition recoverEntries : MD unit :=
  paths ← reads (below root);
  winners ← fold_each recoverPath ∅ paths;
  for_each (fun entry =>
    admitted ← admit_entry entry;
    if (admitted : bool) then mret tt else removeManagedFile (e_path entry))
    (order_by by_age (map snd (map_to_list winners))).

(** [newDiskCache]: the index starts empty, the files are those of the last run. *)
Definition blank (files : gmap string cfile) (calls uuids inodes : nat) : diskCache :=
  {| dc_files := files; dc_heap := []; dc_entries := ∅; dc_lru := []; dc_usedCost := 0; dc_closing := false;
     dc_closed := false; dc_orphans := ∅; dc_readers := 0; dc_calls := calls; dc_uuids := uuids; dc_inodes := inodes |}.
Definition newDiskCache (binding : list Z) : MD unit :=
  _ ← syscall;
  _ ← syscall;
  _ ← reconcileManifest binding;
  _ ← removeLegacyEntries;
  recoverEntries.

(** It waits for the readers, and gives up when its context ends before. *)
Definition set_closing (closed : bool) (d : diskCache) : diskCache :=
  {| dc_files := dc_files d; dc_heap := dc_heap d; dc_entries := dc_entries d; dc_lru := dc_lru d;
     dc_usedCost := dc_usedCost d; dc_closing := true; dc_closed := closed; dc_orphans := dc_orphans d;
     dc_readers := dc_readers d; dc_calls := dc_calls d; dc_uuids := dc_uuids d; dc_inodes := dc_inodes d |}.
Definition close : MD unit :=
  closed ← reads dc_closed;
  if closed : bool then mret tt
  else
    _ ← modify (set_closing false);
    readers ← reads dc_readers;
    _ ← check (negb (readers =? 0)) ErrOther;
    orphans ← reads (fun d => elements (dc_orphans d));
    _ ← modify (upd_orphans (fun _ => ∅));
    _ ← modify (upd_entries (fun _ => ∅));
    _ ← modify (upd_lru (fun _ => []));
    _ ← modify (upd_usedCost (fun _ => 0));
    _ ← cleanupPaths orphans;
    lock ← attempt syscall;
    _ ← modify (set_closing true);
    lift lock.
End Disk.
End DiskCache.
