(* ===== verification/IOCache.v ===== *)
(** * The cache of file contents (src/filemgr/file_io_cache.go)

    Small files are kept in memory (ristretto), larger ones on disk (DiskCache), the
    largest not at all. A miss reads the file from its source, once for all that wait for
    it; a disk that fails must not keep a file from being read. *)

From stdpp Require Import base strings list gmap.
From S2P Require Import Prelude GoStr Base64 BlockIO Multipart DiskCache.
Import DiskCache.

Module IOCache.

(** ** Data *)

Record FileCacheIdentity := {
  StorageBinding : list Z; FileID : Z; Size : Z; PartCount : Z; State : Z; LayoutVersion : Z; Ctime : Z;
  Mtime : Z; ExtInfo : string }.

Record FileIOCacheConfig := {
  DisableL1Cache : bool; L1CacheSize : Z; L1KeySizeLimit : Z; DisableL2Cache : bool; L2CacheSize : Z;
  L2KeySizeLimit : Z; L2CacheDir : string; ConfigBinding : list Z }.

Definition fileCacheKeyFormatVersion : Z := 2.

(** [filepath.Abs] is left to the caller. *)
Definition normalizeFileIOCacheConfig (c : FileIOCacheConfig) : FileIOCacheConfig :=
  if negb (DisableL1Cache c) && negb (DisableL2Cache c) && (L2KeySizeLimit c <=? L1KeySizeLimit c)
  then {| DisableL1Cache := DisableL1Cache c; L1CacheSize := L1CacheSize c; L1KeySizeLimit := L1KeySizeLimit c;
          DisableL2Cache := true; L2CacheSize := L2CacheSize c; L2KeySizeLimit := L2KeySizeLimit c;
          L2CacheDir := L2CacheDir c; ConfigBinding := ConfigBinding c |}
  else c.
Definition l2MinimumFileSize (c : FileIOCacheConfig) : Z :=
  if DisableL1Cache c then -1 else L1KeySizeLimit c.
Definition inconsistent (size limit : Z) : bool := (size <=? 0) || (limit <=? 0) || (size <? limit).
Definition validateFileIOCacheConfig (c : FileIOCacheConfig) : outcome FileIOCacheConfig :=
  if negb (DisableL1Cache c) && inconsistent (L1CacheSize c) (L1KeySizeLimit c) then Err ErrInvalidCache
  else if DisableL2Cache c then Ok c
  else if inconsistent (L2CacheSize c) (L2KeySizeLimit c) then Err ErrInvalidCache
  else
    let c := normalizeFileIOCacheConfig c in
    if DisableL2Cache c then Ok c
    else if String.eqb (L2CacheDir c) "" then Err ErrInvalidCache
    else Ok c.

Definition string_bytes (s : string) : list Z := map (fun c => Z.of_N (Ascii.N_of_ascii c)) (String.list_ascii_of_string s).
(** What is hashed: integers in big endian, at their width, the text with its length. *)
Definition key_bytes (i : FileCacheIdentity) : list Z :=
  Base64.put_be 4 fileCacheKeyFormatVersion ++ StorageBinding i ++ Base64.put_be 8 (FileID i) ++
  Base64.put_be 8 (Size i) ++ Base64.put_be 4 (PartCount i) ++ Base64.put_be 4 (State i) ++
  Base64.put_be 4 (LayoutVersion i) ++ Base64.put_be 8 (Ctime i) ++ Base64.put_be 8 (Mtime i) ++
  Base64.put_be 8 (Z.of_nat (String.length (ExtInfo i))) ++ string_bytes (ExtInfo i).

(** A stream that a loader returned: what it delivers, whether it can be rewound, and what
    closing it returns. *)
Record stream := { st_source : source; st_seek : bool; st_close : option err }.
(** What [Load] returns: a [bytesStream], a [diskCacheReader] with its entry, a
    [removeOnCloseFile] with its path, or the loader's own stream. *)
Inductive reader :=
  | BytesReader (raw : list Z)
  | DiskReader (id : nat) (data : list Z)
  | RemoveReader (location : string) (data : list Z)
  | SourceReader (s : stream).

(** ** State *)

(** Memory, disk and the fills under way. [l1_calls] counts the accesses to the memory. *)
Record fileIOCacheImpl := {
  l1 : gmap (list Z) (list Z); l1_calls : nat; l2 : diskCache; fills : gset (list Z);
  closing : bool; closed : bool }.

Definition with_l1 (f : gmap (list Z) (list Z) -> gmap (list Z) (list Z)) (c : fileIOCacheImpl) : fileIOCacheImpl :=
  {| l1 := f (l1 c); l1_calls := l1_calls c; l2 := l2 c; fills := fills c; closing := closing c; closed := closed c |}.
Definition with_l2 (d : diskCache) (c : fileIOCacheImpl) : fileIOCacheImpl :=
  {| l1 := l1 c; l1_calls := l1_calls c; l2 := d; fills := fills c; closing := closing c; closed := closed c |}.
Definition with_fills (f : gset (list Z) -> gset (list Z)) (c : fileIOCacheImpl) : fileIOCacheImpl :=
  {| l1 := l1 c; l1_calls := l1_calls c; l2 := l2 c; fills := f (fills c); closing := closing c; closed := closed c |}.
Definition with_closing (done : bool) (c : fileIOCacheImpl) : fileIOCacheImpl :=
  {| l1 := l1 c; l1_calls := l1_calls c; l2 := l2 c; fills := fills c; closing := true; closed := done |}.

Section Cache.
Context `{!Sha} `{!CacheLib} (c : FileIOCacheConfig).
Notation MC := (M fileIOCacheImpl).
Notation max_cost := (L2CacheSize c).

Definition buildFileCacheKey (i : FileCacheIdentity) : list Z := sha256 (key_bytes i).

Definition on_disk {A} (m : M diskCache A) : MC A := fun s =>
  let '(r, d) := m (l2 s) in (r, with_l2 d s).

(** *** Memory *)

(** ristretto drops entries when it likes, at the latest with the access. *)
Definition touch_l1 : MC unit :=
  modify (fun s => {| l1 := l1_policy (l1_calls s) (l1 s); l1_calls := S (l1_calls s); l2 := l2 s; fills := fills s;
                      closing := closing s; closed := closed s |}).
Definition readL1 (key : list Z) (expectedSize : Z) : MC (option (list Z)) :=
  if DisableL1Cache c then mret None
  else
    _ ← touch_l1;
    value ← reads (fun s => l1 s !! key);
    match value with
    | None => mret None
    | Some value =>
        if negb (zlen value =? expectedSize) then _ ← modify (with_l1 (delete key)); mret None
        else mret (Some value)
    end.
Definition writeL1 (key raw : list Z) : MC unit :=
  if DisableL1Cache c then mret tt
  else _ ← modify (with_l1 (<[key := raw]>)); touch_l1.

(** *** Sources *)

Definition source_end (src : source) : err := default EOF (src_err src).

(** [io.ReadFull] of the expected size, then of one byte more. *)
Definition readExactBytes (src : source) (expected : Z) : outcome (list Z) :=
  if expected <? 0 then Err ErrInvalidFileSize
  else if zlen (src_data src) <? expected then
    Err match source_end src with EOF => ErrUnexpectedEOF | e => e end
  else if expected <? zlen (src_data src) then Err ErrCacheSourceSizeMismatch
  else match source_end src with EOF => Ok (src_data src) | e => Err e end.

(** The [n]-th call of the loader; a stream is never nil. *)
Definition loader := nat -> outcome stream.

(** [f.l2.open], then the rest of the source's stream. *)
Definition reloadWithoutCache (load : loader) : MC reader :=
  st ← lift (load 1%nat); mret (SourceReader st).
Definition fallbackSource (st : stream) (load : loader) : MC reader :=
  if st_seek st then mret (SourceReader st) else reloadWithoutCache load.

(** *** Filling *)

Definition fillBuffered (key : list Z) (size : Z) (load : loader) : MC reader :=
  st ← lift (load O);
  raw ← lift (readExactBytes (st_source st) size);
  _ ← match st_close st with Some e => fail e | None => mret tt end;
  _ ← writeL1 key raw;
  mret (BytesReader raw).

Definition open_l2 (key : list Z) (size : Z) : MC (option reader) :=
  r ← on_disk (open key size);
  mret ((fun x : nat * list Z => DiskReader x.1 x.2) <$> r).

Definition fillDisk (key : list Z) (size : Z) (load : loader) : MC reader :=
  st ← lift (load O);
  candidate ← attempt (on_disk (writeCandidate max_cost key size (st_source st)));
  match candidate with
  | Err e => if bool_decide (e = ErrCacheSourceRead) then fail e else fallbackSource st load
  | Ok candidate =>
      _ ← match st_close st with
          | Some e => _ ← on_disk (cleanupPaths [e_path candidate]); fail e
          | None => mret tt
          end;
      admitted ← on_disk (admit_entry max_cost (L2KeySizeLimit c) (l2MinimumFileSize c) candidate);
      if (admitted : bool) then
        r ← open_l2 key size;
        match r with
        | Some r => mret r
        | None => reloadWithoutCache load
        end
      else
        opened ← on_disk (attempt (_ ← syscall; stat_file (e_path candidate)));
        match opened with
        | Ok (Some file) => mret (RemoveReader (e_path candidate) (cf_data file))
        | _ => _ ← on_disk (cleanupPaths [e_path candidate]); reloadWithoutCache load
        end
  end.

Definition fill (key : list Z) (size : Z) (l1Eligible : bool) (load : loader) : MC reader :=
  if l1Eligible then fillBuffered key size load else fillDisk key size load.

(** *** Loading *)

Definition lookup_cache (key : list Z) (size : Z) (l1Eligible l2Eligible : bool) : MC (option reader) :=
  hit ← (if l1Eligible then readL1 key size else mret None);
  match hit with
  | Some raw => mret (Some (BytesReader raw))
  | None => if negb l2Eligible then mret None else open_l2 key size
  end.

(** Whether this call leads the fill. *)
Definition beginFill (key : list Z) : MC bool :=
  s ← reads id;
  _ ← check (closed s) ErrCacheClosed;
  if bool_decide (key ∈ fills s) then mret false
  else _ ← modify (with_fills (fun f => {[key]} ∪ f)); mret true.
Definition finishFill (key : list Z) : MC unit := modify (with_fills (fun f => f ∖ {[key]})).

Definition runFillLeader (key : list Z) (size : Z) (l1Eligible l2Eligible : bool) (load : loader) : MC reader :=
  r ← attempt (
    found ← lookup_cache key size l1Eligible l2Eligible;
    match found with Some r => mret r | None => fill key size l1Eligible load end);
  _ ← finishFill key;
  lift r.

(** A call that does not lead waits for the one that does; nothing else runs here, so that
    it would wait for ever. *)
Definition loadCacheable (key : list Z) (size : Z) (l1Eligible l2Eligible : bool) (load : loader) : MC reader :=
  found ← lookup_cache key size l1Eligible l2Eligible;
  match found with
  | Some r => mret r
  | None =>
      leader ← beginFill key;
      if (leader : bool) then runFillLeader key size l1Eligible l2Eligible load else fail Diverge
  end.

Definition loadUncacheable (load : loader) : MC reader := st ← lift (load O); mret (SourceReader st).

Definition with_binding (i : FileCacheIdentity) (binding : list Z) : FileCacheIdentity :=
  {| StorageBinding := binding; FileID := FileID i; Size := Size i; PartCount := PartCount i; State := State i;
     LayoutVersion := LayoutVersion i; Ctime := Ctime i; Mtime := Mtime i; ExtInfo := ExtInfo i |}.

Definition beginLoad : MC unit := s ← reads id; check (closing s || closed s) ErrCacheClosed.

Definition Load (identity : FileCacheIdentity) (load : loader) : MC reader :=
  _ ← check (Size identity <? 0) ErrInvalidFileSize;
  _ ← beginLoad;
  let l1Eligible := negb (DisableL1Cache c) && (Size identity <=? L1KeySizeLimit c) in
  let l2Eligible := negb l1Eligible && negb (DisableL2Cache c) && (Size identity <=? L2KeySizeLimit c) in
  if negb l1Eligible && negb l2Eligible then loadUncacheable load
  else
    let identity := with_binding identity (ConfigBinding c) in
    loadCacheable (buildFileCacheKey identity) (Size identity) l1Eligible l2Eligible load.

(** [Close] of what [Load] returned. *)
Definition close_reader (r : reader) : MC unit :=
  match r with
  | BytesReader _ | SourceReader _ => mret tt
  | DiskReader id _ => on_disk (release id)
  | RemoveReader location _ => on_disk (cleanupPaths [location])
  end.

Definition Close : MC unit :=
  s ← reads id;
  if closed s then mret tt
  else
    _ ← modify (with_closing false);
    _ ← (if DisableL2Cache c then mret tt else on_disk DiskCache.close);
    modify (with_closing true).

End Cache.

(** [NewFileIOCacheWithContext] over the files of the last run: the configuration in force
    and the cache. *)
Definition empty_cache (d : diskCache) : fileIOCacheImpl :=
  {| l1 := ∅; l1_calls := 0; l2 := d; fills := ∅; closing := false; closed := false |}.
Definition NewFileIOCacheWithContext `{!Sha} `{!CacheLib} (config : FileIOCacheConfig)
    : M diskCache (FileIOCacheConfig * fileIOCacheImpl) :=
  copied ← lift (validateFileIOCacheConfig config);
  _ ← (if DisableL2Cache copied then mret tt
       else
         _ ← modify (fun d => blank (dc_files d) (dc_calls d) (dc_uuids d) (dc_inodes d));
         newDiskCache (L2CacheSize copied) (L2KeySizeLimit copied) (l2MinimumFileSize copied) (ConfigBinding copied));
  cache ← reads empty_cache;
  mret (copied, cache).
End IOCache.
