(* ===== verification/IOCacheProofs.v ===== *)
(** * The disk cache keeps its index and its files in order

    The invariant of [DiskCache]: the index lists each entry once, within the budget, and
    what an entry says about its file is true: a file that is the one the entry remembers
    has the digest of the entry, which is that of the content of its key. *)

From stdpp Require Import base strings list gmap.
From Stdlib Require Import Ascii.
From S2P Require Import Prelude GoStr SqlText Base64 Checksum BlockIO Multipart DiskCache IOCache.
Import DiskCache.

(** ** Suffixes *)

Lemma CutSuffix_app s suffix base : CutSuffix s suffix = Some base -> s = base +:+ suffix.
Proof.
  revert base. induction s as [|c s IH]; intros base; cbn [CutSuffix].
  - destruct (String.eqb "" suffix) eqn:E; [|done]. intros [= <-]. by apply String.eqb_eq in E.
  - destruct (String.eqb (String c s) suffix) eqn:E.
    + intros [= <-]. by apply String.eqb_eq in E.
    + intros Hc. destruct (CutSuffix s suffix) as [b|]; [|done]. injection Hc as <-.
      change (String c b +:+ suffix) with (String c (b +:+ suffix)). f_equal. by apply IH.
Qed.

(** The last byte of a text. *)
Fixpoint last_byte (s : string) : option ascii :=
  match s with
  | EmptyString => None
  | String c EmptyString => Some c
  | String _ s' => last_byte s'
  end.
Lemma last_byte_app a b : b <> "" -> last_byte (a +:+ b) = last_byte b.
Proof.
  intros Hb. induction a as [|c a IH]; [done|]. change (String c a +:+ b) with (String c (a +:+ b)).
  cbn [last_byte]. destruct (a +:+ b) eqn:E; [|done]. destruct a; [by cbn in E; subst|done].
Qed.
Lemma temp_no_cache a : HasSuffix (a +:+ diskCacheTempSuffix) diskCacheFileSuffix = false.
Proof.
  unfold HasSuffix. destruct (CutSuffix _ _) as [b|] eqn:E; [|done]. apply CutSuffix_app in E.
  apply (f_equal last_byte) in E. rewrite !last_byte_app in E by done. done.
Qed.
Lemma cache_suffix a : HasSuffix (a +:+ diskCacheFileSuffix) diskCacheFileSuffix = true.
Proof.
  unfold HasSuffix. induction a as [|c a IH]; [done|].
  change (String c a +:+ diskCacheFileSuffix) with (String c (a +:+ diskCacheFileSuffix)). cbn [CutSuffix].
  destruct (String.eqb _ _); [done|]. by destruct (CutSuffix (a +:+ diskCacheFileSuffix) diskCacheFileSuffix).
Qed.

Section Files.
Context `{!Sha} `{!CacheLib} (content : list Z -> list Z).

(** ** Files *)

(** The names of the files say what the files of their keys hold. *)
Definition names_true (d : diskCache) : Prop := forall p f e,
  dc_files d !! p = Some f -> HasSuffix p diskCacheFileSuffix = true ->
  parsePersistedEntryLocation (relative_to root p) (path_base p) = Ok e -> e_digest e = sha256 (content (e_key e)).
Definition inodes_ok (d : diskCache) : Prop := forall p f, dc_files d !! p = Some f -> (cf_ino f < dc_inodes d)%nat.

(** From [d] to [d'] the index is as it was, and files of the cache have gone or are new. *)
Record quiet_step (d d' : diskCache) : Prop := {
  qs_heap : dc_heap d' = dc_heap d; qs_entries : dc_entries d' = dc_entries d; qs_lru : dc_lru d' = dc_lru d;
  qs_used : dc_usedCost d' = dc_usedCost d; qs_closing : dc_closing d' = dc_closing d;
  qs_fresh : (dc_inodes d <= dc_inodes d')%nat;
  qs_files : forall p f, HasSuffix p diskCacheFileSuffix = true -> dc_files d' !! p = Some f ->
    dc_files d !! p = Some f \/ (dc_inodes d <= cf_ino f)%nat;
  qs_inodes : inodes_ok d -> inodes_ok d';
  qs_names : names_true d -> names_true d' }.

#[export] Instance quiet_refl : Reflexive quiet_step.
Proof. intros d. split; auto. Qed.
#[export] Instance quiet_trans : Transitive quiet_step.
Proof.
  intros d1 d2 d3 [] []. split; try congruence; try lia; auto. intros p f Hp Hf.
  destruct (qs_files1 p f Hp Hf) as [Hf2|]; [by apply qs_files0|right; lia].
Qed.

(** [m] leaves the index alone, whatever happens. *)
Definition quiet {A} (m : M diskCache A) : Prop := forall d, quiet_step d (m d).2.

Lemma quiet_bind {A B} (m : M diskCache A) (f : A -> M diskCache B) :
  quiet m -> (forall a, quiet (f a)) -> quiet (m ≫= f).
Proof.
  intros Hm Hf d. specialize (Hm d). unfold mbind, M_bind. destruct (m d) as [[a|e] d']; [|done].
  etransitivity; [exact Hm|apply Hf].
Qed.
Lemma quiet_ret {A} (a : A) : quiet (mret a).
Proof. by intros d. Qed.
Lemma quiet_fail {A} e : quiet (fail (A := A) e).
Proof. by intros d. Qed.
Lemma quiet_reads {A} (f : diskCache -> A) : quiet (reads f).
Proof. by intros d. Qed.
Lemma quiet_check b e : quiet (check b e).
Proof. intros d. unfold check. by destruct b. Qed.
Lemma quiet_lift {A} (o : outcome A) : quiet (lift o).
Proof. by intros d. Qed.
Lemma quiet_attempt {A} (m : M diskCache A) : quiet m -> quiet (attempt m).
Proof. intros Hm d. apply Hm. Qed.
Lemma quiet_for_each {A} (f : A -> M diskCache unit) l : (forall a, quiet (f a)) -> quiet (for_each f l).
Proof. intros Hf. induction l; [apply quiet_ret|]. cbn. by apply quiet_bind. Qed.
Lemma quiet_fold_each {A B} (f : B -> A -> M diskCache B) l b : (forall b a, quiet (f b a)) -> quiet (fold_each f b l).
Proof. intros Hf. revert b. induction l; intros b; [apply quiet_ret|]. cbn. by apply quiet_bind. Qed.

(** Counters only. *)
Lemma quiet_counts f :
  (forall d, dc_heap (f d) = dc_heap d /\ dc_entries (f d) = dc_entries d /\ dc_lru (f d) = dc_lru d /\
     dc_usedCost (f d) = dc_usedCost d /\ dc_closing (f d) = dc_closing d /\ dc_inodes (f d) = dc_inodes d /\
     dc_files (f d) = dc_files d) -> quiet (modify f).
Proof.
  intros Hf d. destruct (Hf d) as (E1 & E2 & E3 & E4 & E5 & E6 & E7). cbn.
  split; try congruence; unfold names_true, inodes_ok; rewrite ?E6, ?E7; auto.
Qed.
Lemma quiet_syscall : quiet syscall.
Proof.
  unfold syscall. apply quiet_bind; [apply quiet_reads|]. intros n. apply quiet_bind; [by apply quiet_counts|].
  intros _. apply quiet_check.
Qed.
Lemma quiet_newUUID : quiet newUUID.
Proof.
  unfold newUUID. apply quiet_bind; [apply quiet_reads|]. intros n. apply quiet_bind; [by apply quiet_counts|].
  intros _. apply quiet_ret.
Qed.
Lemma quiet_orphans f : quiet (modify (upd_orphans f)).
Proof. by apply quiet_counts. Qed.

(** A change of the files that only takes files away below cache names. *)
Lemma quiet_files f :
  (forall m p x, HasSuffix p diskCacheFileSuffix = true -> f m !! p = Some x -> m !! p = Some x) ->
  (forall m p x, f m !! p = Some x -> exists p', m !! p' = Some x) -> quiet (modify (upd_files f)).
Proof.
  intros Hc Hp d. cbn. split; try done; unfold names_true, inodes_ok; cbn.
  - intros p x Hs Hx. left. by eapply Hc.
  - intros Hi p x Hx. apply Hp in Hx as [p' Hx]. by eapply Hi.
  - intros Hn p x e Hx Hs. by eapply Hn; [eapply Hc|].
Qed.
Lemma quiet_delete path : quiet (modify (upd_files (delete path))).
Proof.
  apply quiet_files.
  - intros m p x _ Hx. apply lookup_delete_Some in Hx. by destruct Hx.
  - intros m p x Hx. exists p. apply lookup_delete_Some in Hx. by destruct Hx.
Qed.
Lemma quiet_rename from to : HasSuffix to diskCacheFileSuffix = false -> quiet (rename_file from to).
Proof.
  intros Hto. apply quiet_files.
  - intros m p x Hs Hx. destruct (m !! from) as [f|]; [|done]. apply lookup_insert_Some in Hx as [[<- _]|[_ Hx]]; [congruence|].
    apply lookup_delete_Some in Hx. by destruct Hx.
  - intros m p x Hx. destruct (m !! from) as [f|] eqn:E; [|by exists p].
    apply lookup_insert_Some in Hx as [[<- <-]|[_ Hx]]; [by exists from|].
    apply lookup_delete_Some in Hx. exists p. by destruct Hx.
Qed.
Lemma quiet_remove path : quiet (removeManagedFile path).
Proof. unfold removeManagedFile. apply quiet_bind; [apply quiet_syscall|intros; apply quiet_delete]. Qed.
End Files.

Create HintDb quiet.
#[export] Hint Resolve quiet_ret quiet_fail quiet_reads quiet_check quiet_lift quiet_syscall quiet_newUUID quiet_orphans
  quiet_delete quiet_remove : quiet.
Ltac quiet_step :=
  lazymatch goal with
  | |- quiet _ ?m =>
      lazymatch m with
      | mbind _ _ => apply quiet_bind; [|intros ?]
      | for_each _ _ => apply quiet_for_each; intros ?
      | fold_each _ _ _ => apply quiet_fold_each; intros ? ?
      | attempt _ => apply quiet_attempt
      | let _ := _ in _ => cbv zeta
      | match ?x with _ => _ end => destruct x
      | _ => solve [eauto with quiet]
      end
  end.
Ltac quiet := repeat quiet_step.

Section Quiet.
Context `{!Sha} `{!CacheLib} (content : list Z -> list Z).

Lemma quiet_removeOwned path : quiet content (removeOwnedPath path).
Proof.
  unfold removeOwnedPath, stat_file. quiet. apply quiet_rename.
  rewrite <- !string_append_assoc. apply temp_no_cache.
Qed.
Lemma quiet_cleanup paths : quiet content (cleanupPaths paths).
Proof. unfold cleanupPaths. pose proof quiet_removeOwned. quiet. Qed.
End Quiet.

(** ** The index *)
Section Index.
Context `{!Sha} `{!CacheLib} (content : list Z -> list Z) (maxCost : Z).

Definition cost_at (h : list diskEntry) (id : nat) : Z :=
  match h !! id with Some e => e_cost e | None => 0 end.

Record index_ok (d : diskCache) : Prop := {
  ix_nodup : NoDup (dc_lru d);
  ix_listed : forall id, id ∈ dc_lru d -> exists e, dc_heap d !! id = Some e /\ dc_entries d !! e_key e = Some id /\
    0 < e_cost e /\ e_size e <= e_cost e;
  ix_keys : forall k id, dc_entries d !! k = Some id -> id ∈ dc_lru d /\ exists e, dc_heap d !! id = Some e /\ e_key e = k;
  ix_used : dc_usedCost d = sumZ (map (cost_at (dc_heap d)) (dc_lru d));
  ix_budget : dc_usedCost d <= maxCost }.

(** What an entry remembers of its file is the content of its key. *)
Record trusted (d : diskCache) (e : diskEntry) : Prop := {
  tr_digest : e_digest e = sha256 (content (e_key e));
  tr_cost : e_cost e = diskCacheEntryCost (e_size e) maxCost;
  tr_suffix : HasSuffix (e_path e) diskCacheFileSuffix = true;
  tr_inode : forall i, e_fileInfo e = Some i -> (i < dc_inodes d)%nat;
  tr_file : forall f, dc_files d !! e_path e = Some f -> e_fileInfo e = Some (cf_ino f) -> e_modTime e = cf_mtime f ->
    sha256 (cf_data f) = e_digest e }.

Record good (d : diskCache) : Prop := {
  g_index : index_ok d;
  g_trust : forall id e, dc_heap d !! id = Some e -> trusted d e;
  g_inodes : inodes_ok d;
  g_names : names_true content d }.

Lemma trusted_quiet d d' e : quiet_step content d d' -> trusted d e -> trusted d' e.
Proof.
  intros [] []. split; auto.
  - intros i Hi. specialize (tr_inode0 i Hi). lia.
  - intros f Hf Hi Ht. destruct (qs_files0 _ f tr_suffix0 Hf) as [|]; [by apply tr_file0|].
    specialize (tr_inode0 _ Hi). lia.
Qed.
Lemma good_quiet d d' : quiet_step content d d' -> good d -> good d'.
Proof.
  intros Hq [[] Ht Hi Hn]. pose proof Hq as []. split; auto.
  - split; unfold cost_at in *; rewrite ?qs_heap0, ?qs_entries0, ?qs_lru0, ?qs_used0; auto.
  - intros id e He. rewrite qs_heap0 in He. eapply trusted_quiet; [done|]. by eapply Ht.
Qed.
Lemma good_after {A} (m : M diskCache A) d : quiet content m -> good d -> good (m d).2.
Proof. intros Hm. apply good_quiet, Hm. Qed.

(** Entries may be retired, referenced, or checked again. *)
Definition same_entry (f : diskEntry -> diskEntry) : Prop := forall e,
  e_key (f e) = e_key e /\ e_path (f e) = e_path e /\ e_cost (f e) = e_cost e /\ e_size (f e) = e_size e /\
  e_digest (f e) = e_digest e /\
  e_modTime (f e) = e_modTime e /\ e_fileInfo (f e) = e_fileInfo e.

Lemma alter_lookup (h : list diskEntry) f id i e' :
  alter f id h !! i = Some e' -> exists e, h !! i = Some e /\ (e' = e \/ (i = id /\ e' = f e)).
Proof.
  destruct (decide (i = id)) as [->|Hne].
  - rewrite list_lookup_alter_eq. destruct (h !! id) as [e|]; [|done]. intros [= <-]. exists e. auto.
  - rewrite list_lookup_alter_ne by done. intros He. exists e'. auto.
Qed.

Lemma cost_alter h f id i : (forall e, e_cost (f e) = e_cost e) -> cost_at (alter f id h) i = cost_at h i.
Proof.
  intros Hf. unfold cost_at. destruct (decide (i = id)) as [->|Hne].
  - rewrite list_lookup_alter_eq. destruct (h !! id); cbn; [apply Hf|done].
  - by rewrite list_lookup_alter_ne.
Qed.

Lemma index_alter d f id :
  (forall e, e_key (f e) = e_key e /\ e_cost (f e) = e_cost e /\ e_size (f e) = e_size e) -> index_ok d ->
  index_ok (upd_heap (alter f id) d).
Proof.
  intros Hf [Hn Hl Hk Hu Hb]. split; cbn; auto.
  - intros i Hi. destruct (Hl i Hi) as (e & He & Hke & Hce & Hse). destruct (decide (i = id)) as [->|Hne].
    + exists (f e). rewrite list_lookup_alter_eq, He. destruct (Hf e) as (-> & -> & ->). by split_and!.
    + exists e. by rewrite list_lookup_alter_ne.
  - intros k i Hi. destruct (Hk k i Hi) as (Hin & e & He & Hke). split; [done|]. destruct (decide (i = id)) as [->|Hne].
    + exists (f e). rewrite list_lookup_alter_eq, He. destruct (Hf e) as [-> _]. by split_and!.
    + exists e. by rewrite list_lookup_alter_ne.
  - rewrite Hu. f_equal. apply map_ext. intros i. symmetry. apply cost_alter. intros e. apply Hf.
Qed.

Lemma trusted_same d d' e : dc_files d' = dc_files d -> dc_inodes d' = dc_inodes d -> trusted d e -> trusted d' e.
Proof. intros Ef Ei []. split; rewrite ?Ef, ?Ei; auto. Qed.

Lemma good_alter d f id : same_entry f -> good d -> good (upd_heap (alter f id) d).
Proof.
  intros Hf [Hix Ht Hi Hn]. split; auto.
  - apply index_alter; [|done]. intros e. destruct (Hf e) as (? & _ & ? & ? & _). done.
  - intros i e' (e & He & [->|[_ ->]])%alter_lookup; [by eapply trusted_same; [..|eapply Ht]|].
    destruct (Ht i e He). destruct (Hf e) as (E1 & E2 & E3 & E4 & E5 & E6 & E7).
    split; cbn; rewrite ?E1, ?E2, ?E3, ?E4, ?E5, ?E6, ?E7; auto.
Qed.

(** Taking an entry out of the index. *)
Definition dropped (d : diskCache) (e : diskEntry) (id : nat) : diskCache :=
  upd_usedCost (fun c => c - e_cost e)
    (upd_lru (List.filter (fun i => negb (Nat.eqb i id))) (upd_entries (delete (e_key e)) d)).

Lemma filter_out (id : nat) l : NoDup l -> id ∈ l ->
  l ≡ₚ id :: List.filter (fun i => negb (Nat.eqb i id)) l.
Proof.
  induction l as [|i l IH]; intros Hn Hin; [by apply elem_of_nil in Hin|].
  apply NoDup_cons in Hn as [Hni Hn]. cbn. destruct (Nat.eqb i id) eqn:E; cbn.
  - apply Nat.eqb_eq in E as ->. f_equiv. rewrite List.filter_ext_in with (g := fun _ => true).
    + clear. induction l; [done|]. cbn. by rewrite <- IHl.
    + intros x Hx. apply list_elem_of_In in Hx. rewrite negb_true_iff. apply Nat.eqb_neq. intros ->. done.
  - apply Nat.eqb_neq in E. apply elem_of_cons in Hin as [->|Hin]; [done|]. rewrite (IH Hn Hin) at 1. apply Permutation.perm_swap.
Qed.
Lemma sum_cons x (l : list Z) : sumZ (x :: l) = x + sumZ l.
Proof. done. Qed.
Lemma sum_perm (l l' : list Z) : l ≡ₚ l' -> sumZ l = sumZ l'.
Proof. unfold sumZ. induction 1; cbn in *; lia. Qed.
Lemma elem_filter_out (id i : nat) l : i ∈ List.filter (fun i => negb (Nat.eqb i id)) l <-> i ∈ l /\ i <> id.
Proof. rewrite !list_elem_of_In, filter_In, negb_true_iff, Nat.eqb_neq. done. Qed.

Lemma index_dropped d e id :
  index_ok d -> dc_heap d !! id = Some e -> dc_entries d !! e_key e = Some id -> index_ok (dropped d e id).
Proof.
  intros [Hn Hl Hk Hu Hb] He Hent. destruct (Hk _ _ Hent) as [Hin _].
  destruct (Hl id Hin) as (e0 & He0 & _ & Hcost). rewrite He in He0. injection He0 as <-.
  assert (dc_usedCost d - e_cost e = sumZ (map (cost_at (dc_heap d)) (List.filter (fun i => negb (Nat.eqb i id)) (dc_lru d)))) as Hsum.
  { rewrite Hu, (sum_perm _ _ (Permutation_map (cost_at (dc_heap d)) (filter_out id _ Hn Hin))).
    assert (cost_at (dc_heap d) id = e_cost e) as <- by (unfold cost_at; by rewrite He).
    rewrite map_cons, sum_cons. lia. }
  split; cbn.
  - eapply sublist_NoDup; [exact Hn|]. apply filter_sublist.
  - intros i [Hi Hne]%elem_filter_out. destruct (Hl i Hi) as (e' & He' & Hk' & Hc'). exists e'. split; [done|]. split; [|done].
    apply lookup_delete_Some. split; [|done]. intros E. rewrite <- E in Hk'. congruence.
  - intros k i [Hne Hi]%lookup_delete_Some. destruct (Hk k i Hi) as (Hin' & e' & He' & Hk'). split; [|by exists e'].
    apply elem_filter_out. split; [done|]. intros ->. rewrite He in He'. congruence.
  - exact Hsum.
  - lia.
Qed.


Lemma pointer_eq d id e : dc_heap d !! id = Some e -> pointer id d = (Ok e, d).
Proof. intros He. unfold pointer, mbind, M_bind, reads. cbn. by rewrite He. Qed.

(** Taking an entry out changes neither files nor the entries other keys have. *)
Lemma retire_run d id e :
  good d -> dc_heap d !! id = Some e ->
  exists paths d', retireLocked id d = (Ok paths, d') /\ good d' /\ dc_files d' = dc_files d /\
    dc_closing d' = dc_closing d /\ dc_inodes d' = dc_inodes d /\ length (dc_heap d') = length (dc_heap d) /\
    (dc_entries d !! e_key e = Some id ->
       dc_entries d' = delete (e_key e) (dc_entries d) /\ dc_lru d' = List.filter (fun i => negb (Nat.eqb i id)) (dc_lru d) /\
       dc_usedCost d' = dc_usedCost d - e_cost e) /\
    (forall k, dc_entries d !! k = None -> dc_entries d' !! k = None).
Proof.
  intros Hg He. unfold retireLocked. rewrite (bind_ok _ _ _ _ _ (pointer_eq d id e He)).
  rewrite reads_bind.
  destruct (bool_decide (dc_entries d !! e_key e = Some id)) eqn:Eb.
  - apply bool_decide_eq_true in Eb. eexists _, (upd_heap (alter set_retired id) (dropped d e id)). split; [reflexivity|].
    assert (good (dropped d e id)) as Hg'.
    { destruct Hg as [Hix Ht Hi Hn]. split; [by apply index_dropped| |done..].
      intros i e' He'. apply (trusted_same d); [done..|]. by eapply Ht. }
    split_and!; try done.
    + by apply good_alter.
    + cbn. by rewrite length_alter.
    + intros k Hk. cbn. rewrite lookup_delete_None. by right.
  - apply bool_decide_eq_false in Eb. eexists _, (upd_heap (alter set_retired id) d). split; [reflexivity|].
    split_and!; try done.
    + by apply good_alter.
    + cbn. by rewrite length_alter.
Qed.

(** Programs that always return. *)
Definition total {A} (m : M diskCache A) : Prop := forall d, exists a d', m d = (Ok a, d').
Lemma total_bind {A B} (m : M diskCache A) (f : A -> M diskCache B) : total m -> (forall a, total (f a)) -> total (m ≫= f).
Proof.
  intros Hm Hf d. destruct (Hm d) as (a & d1 & E1). destruct (Hf a d1) as (b & d2 & E2). exists b, d2.
  by rewrite (bind_ok _ _ _ _ _ E1).
Qed.
Lemma total_attempt {A} (m : M diskCache A) : total (attempt m).
Proof. intros d. unfold attempt. destruct (m d) as [r d']. by exists r, d'. Qed.
Lemma total_ret {A} (a : A) : total (mret a).
Proof. intros d. by exists a, d. Qed.
Lemma total_reads {A} (f : diskCache -> A) : total (reads f).
Proof. intros d. by eexists _, d. Qed.
Lemma total_modify f : total (modify f).
Proof. intros d. by eexists _, _. Qed.
Lemma total_cleanup paths : total (cleanupPaths paths).
Proof.
  unfold cleanupPaths. induction paths as [|p paths IH]; [apply total_ret|]. cbn. apply total_bind; [|done].
  unfold removeOwnedPath, newUUID, stat_file, rename_file.
  repeat lazymatch goal with
  | |- total (mbind _ _) => apply total_bind; [|intros ?]
  | |- total (attempt _) => apply total_attempt
  | |- total (mret _) => apply total_ret
  | |- total (reads _) => apply total_reads
  | |- total (modify _) => apply total_modify
  | |- total (match ?x with _ => _ end) => destruct x
  end.
Qed.
Lemma cleanup_run paths d : exists d', cleanupPaths paths d = (Ok tt, d') /\ quiet_step content d d'.
Proof.
  pose proof (quiet_cleanup content paths d) as Hq. destruct (total_cleanup paths d) as ([] & d' & E).
  exists d'. by rewrite E in Hq.
Qed.
Lemma cleanup_good paths d : good d -> exists d', cleanupPaths paths d = (Ok tt, d') /\ good d' /\ quiet_step content d d'.
Proof.
  intros Hg. destruct (cleanup_run paths d) as (d' & E & Hq). exists d'. split_and!; [done|by eapply good_quiet|done].
Qed.

Lemma filter_out_length (id : nat) l : NoDup l -> id ∈ l -> S (length (List.filter (fun i => negb (Nat.eqb i id)) l)) = length l.
Proof. intros Hn Hin. by rewrite (filter_out id l Hn Hin) at 2. Qed.

Lemma make_room_run fuel cost cleanup d :
  good d -> (length (dc_lru d) < fuel)%nat -> cost <= maxCost ->
  exists paths d', make_room maxCost fuel cost cleanup d = (Ok paths, d') /\ good d' /\ dc_files d' = dc_files d /\
    dc_closing d' = dc_closing d /\ dc_inodes d' = dc_inodes d /\ length (dc_heap d') = length (dc_heap d) /\
    cost <= maxCost - dc_usedCost d' /\ (forall k, dc_entries d !! k = None -> dc_entries d' !! k = None).
Proof.
  revert cleanup d. induction fuel as [|fuel IH]; intros cleanup d Hg Hf Hcost; [lia|].
  cbn [make_room]. rewrite reads_bind.
  destruct (maxCost - dc_usedCost d <? cost) eqn:Eroom; cbn [negb].
  2: { apply Z.ltb_ge in Eroom. eexists _, d. by split_and!. }
  rewrite reads_bind.
  destruct (last (dc_lru d)) as [oldest|] eqn:El.
  - assert (oldest ∈ dc_lru d) as Hin by (by apply last_Some_elem_of).
    destruct (ix_listed _ (g_index _ Hg) oldest Hin) as (e & He & Hke & _).
    destruct (retire_run d oldest e Hg He) as (paths & d1 & E1 & Hg1 & Ef1 & Ec1 & Ei1 & Eh1 & Hdrop & Hnone).
    rewrite (bind_ok _ _ _ _ _ E1). destruct (Hdrop Hke) as (_ & Hl & _).
    destruct (IH (cleanup ++ paths) d1 Hg1) as (p2 & d2 & E2 & Hg2 & Ef2 & Ec2 & Ei2 & Eh2 & Hc2 & Hn2); [|done|].
    { rewrite Hl. pose proof (filter_out_length oldest _ (ix_nodup _ (g_index _ Hg)) Hin). lia. }
    exists p2, d2. split_and!; [done..|congruence|congruence|congruence|congruence|done|auto].
  - apply last_None in El. eexists _, d. split_and!; try done. rewrite (ix_used _ (g_index _ Hg)), El. cbn. lia.
Qed.

(** Adding an entry whose key the index does not have. *)
Definition added (d : diskCache) (e : diskEntry) : diskCache :=
  upd_usedCost (fun c => c + e_cost e) (upd_entries (<[e_key e := length (dc_heap d)]>)
    (upd_lru (cons (length (dc_heap d))) (upd_heap (fun h => h ++ [e]) d))).

Lemma cost_snoc h e i : (i < length h)%nat -> cost_at (h ++ [e]) i = cost_at h i.
Proof. intros Hi. unfold cost_at. by rewrite lookup_app_l. Qed.

Lemma index_added d e :
  index_ok d -> dc_entries d !! e_key e = None -> 0 < e_cost e -> e_size e <= e_cost e ->
  e_cost e <= maxCost - dc_usedCost d -> index_ok (added d e).
Proof.
  intros [Hn Hl Hk Hu Hb] Hnew Hpos Hsize Hroom.
  assert (forall i, i ∈ dc_lru d -> (i < length (dc_heap d))%nat) as Hlt.
  { intros i Hi. destruct (Hl i Hi) as (e' & He' & _). by apply lookup_lt_Some in He'. }
  split; cbn.
  - apply NoDup_cons. split; [|done]. intros Hi. apply Hlt in Hi. lia.
  - intros i [->|Hi]%elem_of_cons.
    + exists e. rewrite lookup_app_r, Nat.sub_diag by lia. split_and!; [done|apply lookup_insert_eq|done..].
    + destruct (Hl i Hi) as (e' & He' & Hk' & Hc'). exists e'. split; [by apply lookup_app_l_Some|]. split; [|done].
      rewrite lookup_insert_ne; [done|]. congruence.
  - intros k i [[<- <-]|[Hne Hi]]%lookup_insert_Some.
    + split; [left|]. exists e. by rewrite lookup_app_r, Nat.sub_diag by lia.
    + destruct (Hk k i Hi) as (Hin & e' & He' & Hk'). split; [by right|]. exists e'. split; [by apply lookup_app_l_Some|done].
  - change (dc_usedCost d + e_cost e = sumZ (cost_at (dc_heap d ++ [e]) (length (dc_heap d)) ::
      map (cost_at (dc_heap d ++ [e])) (dc_lru d))).
    rewrite sum_cons, Hu. assert (cost_at (dc_heap d ++ [e]) (length (dc_heap d)) = e_cost e) as ->.
    { unfold cost_at. by rewrite lookup_app_r, Nat.sub_diag by lia. }
    rewrite (map_ext_in (cost_at (dc_heap d ++ [e])) (cost_at (dc_heap d)));
      [rewrite Z.add_comm; reflexivity|]. intros i Hi. apply cost_snoc, Hlt. by apply list_elem_of_In.
  - lia.
Qed.

Lemma good_added d e :
  good d -> trusted d e -> dc_entries d !! e_key e = None -> 0 < e_cost e -> e_size e <= e_cost e ->
  e_cost e <= maxCost - dc_usedCost d -> good (added d e).
Proof.
  intros [Hix Ht Hi Hn] He Hnew Hpos Hsize Hroom. split; [by apply index_added| |done..].
  intros i e' He'. apply (trusted_same d); [done..|]. cbn in He'.
  apply lookup_snoc_Some in He' as [[_ He']|[_ <-]]; [by eapply Ht|done].
Qed.

(** The cost covers the size. *)
Lemma admissible_cost entry keyLimit minSize :
  inadmissible maxCost keyLimit minSize entry = false -> (e_cost entry <=? 0) = false ->
  e_cost entry = diskCacheEntryCost (e_size entry) maxCost -> e_size entry <= e_cost entry.
Proof.
  unfold inadmissible. intros Hin Hpos Hc. apply Z.leb_gt in Hpos. repeat (apply orb_false_iff in Hin as [Hin ?Hx]).
  apply Z.ltb_ge in Hx. rewrite Hc in *. unfold diskCacheEntryCost in *.
  pose proof (Z.rem_bound_pos (Z.max (e_size entry) 1) diskCacheAllocationUnit ltac:(lia) ltac:(done)).
  repeat case_match; lia.
Qed.

Lemma admit_run keyLimit minSize entry d :
  good d -> trusted d entry ->
  exists b d', admit_entry maxCost keyLimit minSize entry d = (Ok b, d') /\ good d' /\ (b = false -> d' = d) /\
    (forall e, trusted d e -> trusted d' e).
Proof.
  intros Hg Ht. unfold admit_entry. rewrite reads_bind. destruct (_ || _) eqn:Ecan; [by eexists _, d|].
  apply orb_false_iff in Ecan as [Ecan Emax]. apply orb_false_iff in Ecan as [Ecan Epos].
  apply orb_false_iff in Ecan as [_ Ein]. pose proof (admissible_cost entry keyLimit minSize Ein Epos (tr_cost _ _ Ht)) as Hsize.
  apply Z.leb_gt in Epos. apply Z.ltb_ge in Emax. rewrite reads_bind.
  assert (exists paths d1, match dc_entries d !! e_key entry with Some id => retireLocked id | None => mret [] end d =
    (Ok paths, d1) /\ good d1 /\ dc_files d1 = dc_files d /\ dc_inodes d1 = dc_inodes d /\
    dc_entries d1 !! e_key entry = None) as (paths1 & d1 & E1 & Hg1 & Ef1 & Ei1 & Hnew1).
  { destruct (dc_entries d !! e_key entry) as [id|] eqn:Ee; [|by eexists _, d].
    destruct (ix_keys _ (g_index _ Hg) _ _ Ee) as (_ & e & He & Hke).
    destruct (retire_run d id e Hg He) as (paths & d1 & E1 & Hg1 & Ef1 & _ & Ei1 & _ & Hdrop & _). rewrite <- Hke in Ee.
    destruct (Hdrop Ee) as (Hdel & _). exists paths, d1. split_and!; [done..|]. rewrite Hdel, Hke. apply lookup_delete_eq. }
  rewrite (bind_ok _ _ _ _ _ E1), reads_bind.
  destruct (make_room_run (S (length (dc_lru d1))) (e_cost entry) paths1 d1 Hg1) as
    (paths2 & d2 & E2 & Hg2 & Ef2 & _ & Ei2 & _ & Hroom & Hnone); [lia|done|].
  rewrite (bind_ok _ _ _ _ _ E2), reads_bind, !modify_bind.
  assert (good (added d2 entry)) as Hg3.
  { apply good_added; [done| |by apply Hnone|done..]. apply (trusted_same d); congruence. }
  destruct (cleanup_good paths2 (added d2 entry) Hg3) as (d3 & E3 & Hg4 & Hq).
  exists true, d3. split_and!; [|done..|].
  - by rewrite (bind_ok _ _ _ _ _ (E3 : cleanupPaths paths2 _ = _)).
  - intros e He. apply (trusted_quiet _ _ _ Hq), (trusted_same d); [cbn; congruence..|done].
Qed.

Lemma invalidate_run id e d : good d -> dc_heap d !! id = Some e -> exists d', invalidate id d = (Ok tt, d') /\ good d' /\
  length (dc_heap d') = length (dc_heap d).
Proof.
  intros Hg He. unfold invalidate. rewrite (bind_ok _ _ _ _ _ (pointer_eq d id e He)), reads_bind.
  match goal with |- exists d', (?m ≫= _) d = _ /\ _ => assert (exists paths d1, m d = (Ok paths, d1) /\ good d1 /\
    length (dc_heap d1) = length (dc_heap d)) as (paths & d1 & E1 & Hg1 & Eh1) end.
  { destruct (bool_decide _).
    - destruct (retire_run d id e Hg He) as (paths & d1 & E1 & Hg1 & _ & _ & _ & Eh1 & _). by exists paths, d1.
    - destruct (negb _); [|by eexists _, d]. eexists _, (upd_heap (alter set_retired id) d). split; [reflexivity|].
      split; [by apply good_alter|]. cbn. by rewrite length_alter. }
  rewrite (bind_ok _ _ _ _ _ E1). destruct (cleanup_good paths d1 Hg1) as (d2 & E2 & Hg2 & Hq). exists d2.
  split_and!; [done..|]. by rewrite (qs_heap _ _ _ Hq).
Qed.

Lemma release_run id e d : good d -> dc_heap d !! id = Some e -> exists d', release id d = (Ok tt, d') /\ good d'.
Proof.
  intros Hg He. unfold release. rewrite (bind_ok _ _ _ _ _ (pointer_eq d id e He)).
  set (refs := if e_refs e - 1 <? 0 then 0 else e_refs e - 1). unfold set_entry. rewrite !modify_bind.
  set (d1 := upd_readers _ _).
  assert (good d1) as Hg1.
  { apply (good_quiet (upd_heap (alter (set_refs refs) id) d)); [|by apply good_alter].
    by apply (quiet_counts content (upd_readers (fun n => n - 1))). }
  destruct (cleanup_good (if e_retired e && (refs =? 0) then [e_path e] else []) d1 Hg1) as (d2 & E2 & Hg2 & _).
  by exists d2.
Qed.

Lemma syscall_eq d : syscall d = (if disk_fault (dc_calls d) then Err ErrCacheLocalIO else Ok tt, upd_calls S d).
Proof. unfold syscall. rewrite reads_bind, modify_bind. unfold check. by destruct (disk_fault _). Qed.

Lemma openFile_run path size d :
  exists r d', attempt (openDiskEntryFile path size) d = (Ok r, d') /\ quiet_step content d d' /\ dc_files d' = dc_files d /\
    (forall file, r = Ok file -> dc_files d !! path = Some file /\ zlen (cf_data file) = size).
Proof.
  assert (quiet content (attempt (openDiskEntryFile path size))) as Hq by (unfold openDiskEntryFile, stat_file; quiet).
  specialize (Hq d). destruct (attempt (openDiskEntryFile path size) d) as [r' d'] eqn:E. unfold attempt in E.
  destruct (openDiskEntryFile path size d) as [r d1] eqn:E1. injection E as <- <-. exists r, d1. split; [done|]. split; [done|].
  unfold openDiskEntryFile, mbind, M_bind, stat_file, reads, check in E1. rewrite syscall_eq in E1.
  destruct (disk_fault _); [by injection E1 as <- <-|]. cbn in E1.
  destruct (dc_files d !! path) as [file|] eqn:Ef; [|by injection E1 as <- <-]. rewrite syscall_eq in E1.
  destruct (disk_fault _); [by injection E1 as <- <-|]. cbn in E1.
  destruct (zlen (cf_data file) =? size) eqn:Es; cbn in E1; injection E1 as <- <-; [|done].
  split; [done|]. intros f [= <-]. apply Z.eqb_eq in Es. done.
Qed.

Lemma good_info d id e file :
  good d -> dc_heap d !! id = Some e -> dc_files d !! e_path e = Some file -> sha256 (cf_data file) = e_digest e ->
  good (upd_heap (alter (set_info (cf_mtime file) (cf_ino file)) id) d).
Proof.
  intros [Hix Ht Hi Hn] He Hfile Hsha. split; auto; [by apply index_alter|].
  intros i e' (e0 & He0 & [->|[-> ->]])%alter_lookup.
  - apply (trusted_same d); [done..|]. by eapply Ht.
  - rewrite He in He0. injection He0 as <-. destruct (Ht id e He). split; cbn; auto.
    + intros j [= <-]. by eapply Hi.
    + intros f Hf _ _. congruence.
Qed.

Lemma validate_run id e file d :
  good d -> dc_heap d !! id = Some e -> dc_files d !! e_path e = Some file ->
  exists b d', validateChangedEntry id file d = (Ok b, d') /\ good d' /\ length (dc_heap d') = length (dc_heap d) /\
    (b = true -> sha256 (cf_data file) = e_digest e).
Proof.
  intros Hg He Hfile. unfold validateChangedEntry. rewrite (bind_ok _ _ _ _ _ (pointer_eq d id e He)).
  destruct (_ && _) eqn:Esame.
  { apply andb_true_iff in Esame as [Ei Et]. apply bool_decide_eq_true in Ei. apply Z.eqb_eq in Et.
    exists true, d. split_and!; [done..|]. intros _. by apply (tr_file _ _ (g_trust _ Hg id e He)). }
  unfold attempt at 1. unfold mbind at 1, M_bind at 1. rewrite syscall_eq.
  assert (good (upd_calls S d)) as Hg1 by (eapply good_quiet; [|exact Hg]; by apply (quiet_counts content (upd_calls S))).
  destruct (disk_fault _); [by exists false, (upd_calls S d)|].
  destruct (bool_decide (sha256 (cf_data file) = e_digest e)) eqn:Ed; cbn [negb].
  - apply bool_decide_eq_true in Ed. eexists true, _. split; [reflexivity|]. split_and!; [by apply (good_info _ _ e)| |done].
    cbn. by rewrite length_alter.
  - by exists false, (upd_calls S d).
Qed.

Lemma index_front d id :
  index_ok d -> id ∈ dc_lru d -> index_ok (upd_lru (fun l => id :: List.filter (fun i => negb (Nat.eqb i id)) l) d).
Proof.
  intros [Hn Hl Hk Hu Hb] Hin. pose proof (filter_out id _ Hn Hin) as Hp. split; cbn; auto.
  - by rewrite <- Hp.
  - intros i Hi. rewrite <- Hp in Hi. auto.
  - intros k i Hi. destruct (Hk k i Hi) as [Hi' He]. split; [|done]. by rewrite <- Hp.
  - rewrite Hu. exact (sum_perm _ _ (Permutation_map (cost_at (dc_heap d)) Hp)).
Qed.

(** An entry that cannot be served is taken out. *)
Lemma discard_run id d :
  good d -> (id < length (dc_heap d))%nat ->
  exists d', (_ ← invalidate id; _ ← release id; mret (None : option (nat * list Z))) d = (Ok None, d') /\ good d'.
Proof.
  intros Hg Hid. apply lookup_lt_is_Some in Hid as [e He].
  destruct (invalidate_run id e d Hg He) as (d1 & E1 & Hg1 & Eh). rewrite (bind_ok _ _ _ _ _ E1).
  assert (is_Some (dc_heap d1 !! id)) as [e1 He1].
  { apply lookup_lt_is_Some. rewrite Eh. by apply lookup_lt_Some in He. }
  destruct (release_run id e1 d1 Hg1 He1) as (d2 & E2 & Hg2). rewrite (bind_ok _ _ _ _ _ E2). by exists d2.
Qed.

(** What is opened has the digest of the content. *)
Lemma open_run key size d :
  good d -> exists r d', open key size d = (Ok r, d') /\ good d' /\
    (forall id data, r = Some (id, data) -> sha256 data = sha256 (content key) /\ zlen data = size).
Proof.
  intros Hg. unfold open. rewrite !reads_bind. destruct (dc_entries d !! key) as [id|] eqn:Ee; [|by exists None, d].
  destruct (dc_closing d); [by exists None, d|].
  destruct (ix_keys _ (g_index _ Hg) _ _ Ee) as (Hin & e & He & Hke). rewrite (bind_ok _ _ _ _ _ (pointer_eq d id e He)).
  destruct (e_size e =? size) eqn:Es; cbn [negb].
  2: { destruct (retire_run d id e Hg He) as (paths & d1 & E1 & Hg1 & _). rewrite (bind_ok _ _ _ _ _ E1).
       destruct (cleanup_good paths d1 Hg1) as (d2 & E2 & Hg2 & _). rewrite (bind_ok _ _ _ _ _ E2). by exists None, d2. }
  apply Z.eqb_eq in Es. unfold set_entry. rewrite !modify_bind. set (d1 := upd_lru _ _).
  assert (good d1) as Hg1.
  { assert (good (upd_readers (fun n => n + 1) (upd_heap (alter (set_refs (e_refs e + 1)) id) d))) as Hg0.
    { eapply good_quiet; [by apply (quiet_counts content (upd_readers (fun n => n + 1)))|]. by apply good_alter. }
    destruct Hg0 as [Hix Ht Hi Hn]. split; [by apply index_front| |done..].
    intros i e' He'. apply (trusted_same (upd_heap (alter (set_refs (e_refs e + 1)) id) d)); [done..|].
    apply (trusted_same (upd_readers (fun n => n + 1) (upd_heap (alter (set_refs (e_refs e + 1)) id) d))); [done..|]. by eapply Ht. }
  assert (dc_heap d1 !! id = Some (set_refs (e_refs e + 1) e)) as He1 by (cbn; by rewrite list_lookup_alter_eq, He).
  destruct (openFile_run (e_path e) (e_size e) d1) as (r & d2 & E2 & Hq2 & Ef2 & Hfile).
  rewrite (bind_ok _ _ _ _ _ E2). pose proof (good_quiet _ _ Hq2 Hg1) as Hg2.
  assert (dc_heap d2 !! id = Some (set_refs (e_refs e + 1) e)) as He2 by (by rewrite (qs_heap _ _ _ Hq2)).
  destruct r as [file|err].
  - destruct (Hfile file eq_refl) as [Hf Hsz].
    destruct (validate_run id _ file d2 Hg2 He2) as (b & d3 & E3 & Hg3 & Eh3 & Hsha); [cbn; by rewrite Ef2|].
    rewrite (bind_ok _ _ _ _ _ E3). destruct b.
    + exists (Some (id, cf_data file)), d3. split_and!; [done..|]. intros i data [= <- <-]. split; [|congruence].
      rewrite (Hsha eq_refl). cbn. rewrite (tr_digest _ _ (g_trust _ Hg id e He)). by rewrite Hke.
    + destruct (discard_run id d3 Hg3) as (d4 & E4 & Hg4); [|by exists None, d4].
      rewrite Eh3. by apply lookup_lt_Some in He2.
  - destruct (discard_run id d2 Hg2) as (d4 & E4 & Hg4); [|by exists None, d4]. by apply lookup_lt_Some in He2.
Qed.
End Index.
