(* ===== verification/IOCacheNames.v ===== *)
(** * The names of cache files

    A name that the cache gives to a file is parsed to the entry it stands for, so that a
    restart finds what was written. *)

From stdpp Require Import base strings list gmap.
From Stdlib Require Import Ascii.
From S2P Require Import Prelude GoStr SqlText Crc Base64 Checksum BlockIO Multipart DiskCache IOCache IOCacheProofs.
Import DiskCache.

(** What the code relies on: digests of 32 bytes; UUIDs in their canonical form, without
    dots and slashes; and a memory cache that only ever drops entries. *)
Class CacheLaws `{!Sha} `{!CacheLib} : Prop := {
  digest_bytes : forall data, Forall is_byte (sha256 data);
  digest_size : forall data, length (sha256 data) = 32%nat;
  uuid_canonical : forall n, uuid_Parse (NewString n) = Some (NewString n);
  uuid_dots : forall n, has_byte "."%char (NewString n) = false;
  uuid_slashes : forall n, has_byte slash (NewString n) = false;
  policy_drops : forall n m, l1_policy n m ⊆ m }.

Lemma hex_no_byte c l : Forall is_byte l -> Base64.hexval c = None -> has_byte c (Base64.hex_encode l) = false.
Proof.
  intros Hl Hc. unfold Base64.hex_encode.
  assert (forall v, 0 <= v < 16 -> Ascii.eqb (Base64.hexdigit v) c = false) as Hd.
  { intros v Hv. apply Ascii.eqb_neq. intros E. pose proof (Base64.hexval_digit v Hv) as Hx. rewrite E in Hx. congruence. }
  induction Hl as [|b l Hb _ IH]; [done|]. unfold is_byte in Hb.
  cbn [map concat app String.string_of_list_ascii has_byte].
  rewrite !Hd; [exact IH|pose proof (Z.mod_pos_bound b 16); lia|].
  split; [apply Z.div_pos; lia|]. apply Z.div_lt_upper_bound; lia.
Qed.
Lemma hex_length l : String.length (Base64.hex_encode l) = (2 * length l)%nat.
Proof.
  unfold Base64.hex_encode. induction l as [|b l IH]; [done|].
  cbn [map concat app String.string_of_list_ascii String.length length]. rewrite IH. lia.
Qed.

Lemma format_no_byte c fuel n acc :
  0 <= n -> is_digit c = false -> has_byte c acc = false -> has_byte c (format_digits fuel n acc) = false.
Proof.
  intros Hn Hc. revert n acc Hn. induction fuel as [|fuel IH]; intros n acc Hn Hacc; [done|]. cbn [format_digits].
  assert (has_byte c (String (digit (n `mod` 10)) acc) = false) as Hd.
  { cbn. rewrite Hacc, orb_false_r. apply Ascii.eqb_neq. intros E.
    assert (is_digit (digit (n `mod` 10)) = true) as Hdig by (apply is_digit_digit, Z.mod_pos_bound; lia). congruence. }
  case_match; [done|]. apply IH; [apply Z.div_pos; lia|done].
Qed.

Lemma CutSuffix_exact base suffix : suffix <> "" -> CutSuffix (base +:+ suffix) suffix = Some base.
Proof.
  intros Hs. induction base as [|c base IH].
  - change ("" +:+ suffix) with suffix. destruct suffix; [done|]. cbn [CutSuffix]. by rewrite String.eqb_refl.
  - change (String c base +:+ suffix) with (String c (base +:+ suffix)). cbn [CutSuffix].
    destruct (String.eqb _ _) eqn:E; [|by rewrite IH]. apply String.eqb_eq, (f_equal String.length) in E.
    cbn in E. rewrite append_length in E. lia.
Qed.

Lemma split_dot w s : has_byte "."%char w = false -> split_on "."%char (w +:+ "." +:+ s) = w :: split_on "."%char s.
Proof. exact (split_on_app_sep "."%char w s). Qed.

Section Names.
Context `{!Sha} `{!CacheLib} `{!CacheLaws}.

Lemma file_name_parts key n size digest :
  0 <= size < 2 ^ 63 -> Forall is_byte key -> Forall is_byte digest ->
  split_on "."%char (hex key +:+ "." +:+ NewString n +:+ "." +:+ FormatUint size +:+ "." +:+ hex digest) =
  [hex key; NewString n; FormatUint size; hex digest].
Proof.
  intros Hs Hk Hd.
  rewrite split_dot by (by apply hex_no_byte). f_equal.
  rewrite split_dot by apply uuid_dots. f_equal.
  rewrite split_dot by (apply format_no_byte; [lia|done..]). f_equal.
  apply split_on_word. by apply hex_no_byte.
Qed.

Lemma parse_file_name key n size digest :
  0 <= size < 2 ^ 63 -> Forall is_byte key -> Forall is_byte digest -> length key = 32%nat -> length digest = 32%nat ->
  parseDiskCacheFileName (file_name key (NewString n) size digest) = Ok (new_entry key (NewString n) size digest).
Proof.
  intros Hs Hk Hd Lk Ld. unfold parseDiskCacheFileName, file_name. rewrite <- !string_append_assoc.
  rewrite CutSuffix_exact by done. rewrite !string_append_assoc, file_name_parts by done.
  unfold hex. rewrite !hex_length, Lk, Ld. cbn [Z.of_nat Nat.mul Z.eqb negb orb].
  rewrite !Base64.hex_decode_encode by done. rewrite uuid_canonical, Checksum.Atoi_FormatUint by done.
  rewrite !String.eqb_refl. rewrite (proj2 (Z.leb_le _ _)) by lia. done.
Qed.

Lemma base_no_slash a b : has_byte slash b = false -> b <> "" -> path_base (a +:+ "/" +:+ b) = b.
Proof.
  intros Hb Hne. unfold path_base. rewrite decide_False.
  2: { intros E. apply (f_equal String.length) in E. rewrite !append_length in E. cbn in E. lia. }
  assert (exists l, split_on slash (a +:+ "/" +:+ b) = l ++ [b]) as [l ->].
  { clear Hne. induction a as [|c a [l IH]].
    - exists [""]. change ("" +:+ "/" +:+ b) with (String slash b). cbn. by rewrite split_on_word.
    - change (String c a +:+ "/" +:+ b) with (String c (a +:+ "/" +:+ b)). cbn. rewrite IH.
      destruct (Ascii.eqb c slash); [by exists ("" :: l)|]. destruct l as [|w l]; [|by exists (String c w :: l)].
      exfalso. cbn in IH. apply (f_equal length) in IH. clear -IH.
      assert (1 < length (split_on slash (a +:+ "/" +:+ b)))%nat; [|rewrite IH in *; cbn in *; lia].
      clear IH. induction a as [|c a IHa].
      + change ("" +:+ "/" +:+ b) with (String slash b). cbn. pose proof (split_on_nonempty slash b). destruct (split_on slash b); [done|cbn; lia].
      + change (String c a +:+ "/" +:+ b) with (String c (a +:+ "/" +:+ b)). cbn.
        destruct (Ascii.eqb c slash); [cbn; lia|]. destruct (split_on slash (a +:+ "/" +:+ b)); cbn in *; lia. }
  by rewrite drop_empty_last.
Qed.

Lemma name_no_slash key n size digest :
  0 <= size -> Forall is_byte key -> Forall is_byte digest ->
  has_byte slash (file_name key (NewString n) size digest) = false.
Proof.
  intros Hs Hk Hd. unfold file_name. rewrite !has_byte_app. unfold hex.
  rewrite !hex_no_byte, uuid_slashes by done. unfold FormatUint. by rewrite format_no_byte.
Qed.
End Names.
