(* ===== verification/IOCacheWrite.v ===== *)
(** * Writing to the disk cache, and recovering it

    A candidate is published under its name only when all of the source was copied; what a
    restart admits was checked against the digest in its name. Both keep the invariant of
    IOCacheProofs. *)

From stdpp Require Import base strings list gmap.
From Stdlib Require Import Ascii.
From S2P Require Import Prelude GoStr SqlText Crc Base64 Checksum BlockIO Multipart DiskCache IOCache IOCacheProofs IOCacheNames.
Import DiskCache.

(** A source that ends well delivers the content. *)
Definition complete (src : source) : Prop := default EOF (src_err src) = EOF.

Section Writing.
Context `{!Sha} `{!CacheLib} `{!CacheLaws} (content : list Z -> list Z) (maxCost : Z).

Lemma quiet_create path : HasSuffix path diskCacheFileSuffix = false -> quiet content (create_file path).
Proof.
  intros Hp. unfold create_file, stat_file. do 3 (apply quiet_bind; [solve [quiet]|intros ?]).
  intros d. unfold mbind, M_bind, modify, reads. cbn. split; cbn; try done; try lia; unfold names_true, inodes_ok; cbn.
  - intros p f Hs Hf. left. apply lookup_insert_Some in Hf as [[<- _]|[_ Hf]]; [congruence|done].
  - intros Hi p f Hf. apply lookup_insert_Some in Hf as [[_ <-]|[_ Hf]]; cbn; [lia|]. specialize (Hi _ _ Hf). lia.
  - intros Hn p f e Hf Hs. apply lookup_insert_Some in Hf as [[<- _]|[_ Hf]]; [congruence|]. by eapply Hn.
Qed.
Lemma quiet_append path data : HasSuffix path diskCacheFileSuffix = false -> quiet content (append_file path data).
Proof.
  intros Hp. unfold append_file. apply quiet_bind; [quiet|]. intros n d. cbn.
  split; cbn; try done; unfold names_true, inodes_ok; cbn.
  - intros p f Hs Hf. left. rewrite lookup_alter_ne in Hf; [done|congruence].
  - intros Hi p f Hf. apply lookup_alter_Some in Hf as [(<- & f0 & Hf & ->)|[_ Hf]]; cbn; by eapply Hi.
  - intros Hn p f e Hf Hs. rewrite lookup_alter_ne in Hf by congruence. by eapply Hn.
Qed.

Lemma quiet_copy fuel path data error remaining :
  HasSuffix path diskCacheFileSuffix = false -> quiet content (copy_chunks fuel path data error remaining).
Proof.
  intros Hp. revert data remaining. induction fuel as [|fuel IH]; intros data remaining; [apply quiet_fail|].
  cbn [copy_chunks]. pose proof (quiet_append path) as Ha. quiet; auto.
Qed.

(** Chunk by chunk the file grows by what the source delivers. *)
Lemma copy_run fuel path data error remaining d f :
  0 <= remaining -> (remaining + diskCopyBufferSize - 1) / diskCopyBufferSize < Z.of_nat fuel -> dc_files d !! path = Some f ->
  exists r d' f', copy_chunks fuel path data error remaining d = (r, d') /\ dc_files d' !! path = Some f' /\
    cf_ino f' = cf_ino f /\
    match r with
    | Ok _ => cf_data f' = cf_data f ++ data /\ zlen data = remaining /\ default EOF error = EOF
    | Err e => e = ErrCacheLocalIO \/ (e = ErrCacheSourceRead /\ ~ (zlen data = remaining /\ default EOF error = EOF))
    end.
Proof.
  revert data remaining d f. induction fuel as [|fuel IH]; intros data remaining d f Hr Hfuel Hf.
  { pose proof (Z.div_pos (remaining + diskCopyBufferSize - 1) diskCopyBufferSize ltac:(unfold diskCopyBufferSize; lia) ltac:(done)). lia. }
  cbn [copy_chunks]. destruct (remaining <=? 0) eqn:E0.
  { apply Z.leb_le in E0. unfold check. destruct (zlen data =? 0) eqn:El; [apply Z.eqb_eq in El|apply Z.eqb_neq in El]; cbn [negb orb].
    - destruct (bool_decide (default EOF error = EOF)) eqn:Ee; cbn [negb].
      + apply bool_decide_eq_true in Ee. exists (Ok tt), d, f. split_and!; try done; [by rewrite (zlen_nil_inv _ El), app_nil_r|lia].
      + apply bool_decide_eq_false in Ee. eexists _, d, f. split_and!; try done. right. split; [done|]. by intros [_ ?].
    - eexists _, d, f. split_and!; try done. right. split; [done|]. intros [? _]. lia. }
  apply Z.leb_gt in E0. set (want := Z.min diskCopyBufferSize remaining).
  assert (0 < want <= remaining) as Hw by (unfold want, diskCopyBufferSize; lia).
  pose proof (zlen_nonneg data) as Hlen. pose proof (zlen_ztake want data ltac:(lia)) as Hchunk.
  destruct (zlen (ztake want data) =? 0) eqn:Ec.
  { apply Z.eqb_eq in Ec. rewrite ret_bind. unfold check, mbind, M_bind. rewrite (proj2 (Z.ltb_lt _ _)) by lia.
    eexists _, d, f. split_and!; try done. right. split; [done|]. intros [? _]. lia. }
  rewrite bind_assoc. unfold mbind at 1, M_bind at 1. rewrite syscall_eq. destruct (disk_fault _).
  { eexists _, _, f. split_and!; try done. by left. }
  unfold append_file. rewrite bind_assoc, reads_bind, modify_bind.
  set (f1 := {| cf_data := cf_data f ++ ztake want data; cf_ino := cf_ino f; cf_mtime := file_time (dc_calls (upd_calls S d)) |}).
  set (d1 := upd_files _ _).
  assert (dc_files d1 !! path = Some f1) as Hf1 by (cbn; by rewrite lookup_alter_eq, Hf).
  unfold check. destruct (zlen (ztake want data) <? want) eqn:Es.
  { apply Z.ltb_lt in Es. eexists _, d1, f1. split_and!; try done. right. split; [done|]. intros [? _]. lia. }
  apply Z.ltb_ge in Es. rewrite ret_bind.
  destruct (IH (zdrop want data) (remaining - want) d1 f1) as (r & d' & f' & E & Hf' & Hino & Hres); [lia| |done|].
  { pose proof (Z.div_str_pos (remaining + diskCopyBufferSize - 1) diskCopyBufferSize ltac:(unfold diskCopyBufferSize in *; lia)).
    destruct (Z.le_gt_cases remaining diskCopyBufferSize).
    - replace (remaining - want) with 0 by lia. rewrite (Z.div_small (0 + diskCopyBufferSize - 1)) by done. lia.
    - replace (remaining - want + diskCopyBufferSize - 1) with (remaining + diskCopyBufferSize - 1 + (-1) * diskCopyBufferSize) by lia.
      rewrite Z.div_add by done. lia. }
  exists r, d', f'. split_and!; [done..|].
  rewrite zlen_zdrop in Hres by lia. destruct r as [u|e].
  - destruct Hres as (Hd & Hz & He). split_and!; [|lia|done]. rewrite Hd. cbn. rewrite <- app_assoc. unfold ztake, zdrop. by rewrite take_drop.
  - destruct Hres as [|[-> Hno]]; [by left|right]. split; [done|]. intros [? ?]. apply Hno. split; [lia|done].
Qed.

Lemma quiet_fill shard temporary generation key size src :
  HasSuffix temporary diskCacheFileSuffix = false -> quiet content (fillTemporary shard temporary generation key size src).
Proof.
  intros Hp. unfold fillTemporary, copyExactToFile, stat_file. pose proof quiet_copy as Hc. quiet.
Qed.

(** [m] fails with an error of the disk, or goes on with the same files. *)
Lemma syscall_then {A} (m : M diskCache A) d (P : outcome A -> diskCache -> Prop) :
  (forall d', dc_files d' = dc_files d -> P (m d').1 (m d').2) -> (forall d', P (Err ErrCacheLocalIO) d') ->
  P ((_ ← syscall; m) d).1 ((_ ← syscall; m) d).2.
Proof.
  intros Hok Herr. unfold mbind, M_bind. rewrite syscall_eq. destruct (disk_fault _); [apply Herr|by apply Hok].
Qed.

Definition copied (shard temporary generation : string) (key : list Z) (size : Z) (src : source) (f : cfile)
    (r : outcome (list Z * string)) (d' : diskCache) : Prop :=
  match r with
  | Ok (digest, location) =>
      (exists f', dc_files d' !! temporary = Some f' /\ cf_ino f' = cf_ino f /\ cf_data f' = src_data src) /\
      zlen (src_data src) = size /\ complete src /\ digest = sha256 (src_data src) /\
      location = shard +:+ "/" +:+ file_name key generation size digest
  | Err e => e = ErrCacheLocalIO \/ (e = ErrCacheSourceRead /\ ~ (zlen (src_data src) = size /\ complete src))
  end.

Lemma fill_run shard temporary generation key size src d f :
  0 <= size -> dc_files d !! temporary = Some f -> cf_data f = [] ->
  copied shard temporary generation key size src f
    (fillTemporary shard temporary generation key size src d).1 (fillTemporary shard temporary generation key size src d).2.
Proof.
  intros Hsize Hf Hempty. unfold fillTemporary, copyExactToFile. rewrite bind_assoc.
  destruct (copy_run (Z.to_nat (size / diskCopyBufferSize + 2)) temporary (src_data src) (src_err src) size d f) as
    (r & d1 & f1 & E & Hf1 & Hino & Hres); [done| |done|].
  { pose proof (Z.div_pos size diskCopyBufferSize Hsize ltac:(done)).
    rewrite Z2Nat.id by lia. replace (size + diskCopyBufferSize - 1) with (size - 1 + 1 * diskCopyBufferSize) by lia.
    rewrite Z.div_add by done. pose proof (Z.div_le_mono (size - 1) size diskCopyBufferSize ltac:(done) ltac:(lia)). lia. }
  destruct r as [u|e]; [|unfold mbind, M_bind; rewrite E; exact Hres]. rewrite (bind_ok _ _ _ _ _ E), ret_bind.
  destruct Hres as (Hd & Hz & He). rewrite Hempty in Hd. cbn [app] in Hd. rewrite (ztake_ge size) by lia.
  apply syscall_then; [intros d2 E2|by left]. apply syscall_then; [intros d3 E3|by left].
  apply syscall_then; [intros d4 E4|by left]. unfold stat_file. rewrite reads_bind.
  unfold check. destruct (bool_decide _); [by left|]. rewrite ret_bind.
  apply syscall_then; [intros d5 E5|by left]. cbn. split_and!; [|done..].
  exists f1. split_and!; [congruence|done|congruence].
Qed.

(** ** Publishing *)

(** The path of a published file, and what its name says. *)
Definition published (key : list Z) (n : nat) (size : Z) (digest : list Z) : string :=
  (root +:+ shard_of key) +:+ "/" +:+ file_name key (NewString n) size digest.
Lemma published_suffix key n size digest : HasSuffix (published key n size digest) diskCacheFileSuffix = true.
Proof. unfold published, file_name. rewrite <- !string_append_assoc. apply cache_suffix. Qed.
Lemma published_parse key n size digest relative e :
  0 <= size < 2 ^ 63 -> Forall is_byte key -> length key = 32%nat -> Forall is_byte digest -> length digest = 32%nat ->
  parsePersistedEntryLocation relative (path_base (published key n size digest)) = Ok e ->
  e = new_entry key (NewString n) size digest.
Proof.
  intros Hs Hk Lk Hd Ld. unfold published. rewrite base_no_slash; [|by apply name_no_slash; [lia|..]|].
  2: { unfold file_name. intros E. apply (f_equal String.length) in E. rewrite append_length in E.
       unfold hex in E. rewrite hex_length, Lk in E. cbn in E. lia. }
  unfold parsePersistedEntryLocation. rewrite parse_file_name by done. cbn. repeat case_match; naive_solver.
Qed.

Lemma quiet_publish d0 d from f key n size :
  0 <= size < 2 ^ 63 -> Forall is_byte key -> length key = 32%nat ->
  quiet_step content d0 d -> dc_files d !! from = Some f -> (dc_inodes d0 <= cf_ino f)%nat ->
  quiet_step content d0 (rename_file from (published key n size (sha256 (content key))) d).2.
Proof.
  intros Hs Hk Lk Hq Hf Hino. set (to := published _ _ _ _).
  assert (forall p x, <[to := f]> (delete from (dc_files d)) !! p = Some x -> p = to /\ x = f \/ dc_files d !! p = Some x) as Hin.
  { intros p x [[<- <-]|[_ Hx]]%lookup_insert_Some; [by left|right]. apply lookup_delete_Some in Hx. by destruct Hx. }
  pose proof Hq as []. cbn. split; cbn; try done; rewrite ?Hf; unfold names_true, inodes_ok; cbn; rewrite ?Hf.
  - intros p x Hp [[-> ->]|Hx]%Hin; [by right|]. by apply qs_files.
  - intros Hi p x [[-> ->]|Hx]%Hin; by eapply qs_inodes.
  - intros Hn p x e [[-> ->]|Hx]%Hin Hp Hparse; [|by eapply qs_names].
    apply published_parse in Hparse as ->; [done..|apply digest_bytes|apply digest_size].
Qed.

Lemma create_run path d :
  match create_file path d with
  | (Ok _, d') => exists f, dc_files d' !! path = Some f /\ cf_data f = [] /\ cf_ino f = dc_inodes d
  | (Err e, _) => e = ErrCacheLocalIO
  end.
Proof.
  unfold create_file, mbind, M_bind, stat_file, reads, check. rewrite syscall_eq. destruct (disk_fault _); [done|].
  cbn. destruct (bool_decide _); cbn; [done|]. eexists. by rewrite lookup_insert_eq.
Qed.

(** What [writeCandidate] returns can be trusted, and its file is there. *)
Definition written (key : list Z) (d : diskCache) (r : outcome diskEntry) (d' : diskCache) : Prop :=
  quiet_step content d d' /\
  match r with
  | Ok e => trusted content maxCost d' e /\ e_key e = key /\ exists f, dc_files d' !! e_path e = Some f /\ cf_data f = content key
  | Err e => e = ErrCacheLocalIO \/ e = ErrCacheSourceRead
  end.

Section Candidate.
Context (key : list Z) (size : Z) (src : source) (d : diskCache).
Context (size_int64 : 0 <= size < 2 ^ 63) (key_bytes : Forall is_byte key) (key_size : length key = 32%nat).
Context (ino_ok : inodes_ok d) (honest : complete src -> src_data src = content key).

Definition outcome_ok (r : outcome diskEntry) (d' : diskCache) : Prop :=
  written key d r d' /\ (complete src -> zlen (content key) = size -> r <> Err ErrCacheSourceRead).

Lemma local_failure d' : quiet_step content d d' -> outcome_ok (Err ErrCacheLocalIO) d'.
Proof. intros Hq. split; [split; [done|by left]|done]. Qed.
Lemma remove_then {A} path e d' : quiet_step content d d' ->
  exists d'', (_ ← attempt (removeManagedFile path); fail (A := A) e) d' = (Err e, d'') /\ quiet_step content d d''.
Proof.
  intros Hq. destruct (total_attempt (removeManagedFile path) d') as (r & d2 & E). exists d2.
  rewrite (bind_ok _ _ _ _ _ E). split; [done|]. etransitivity; [exact Hq|].
  pose proof (quiet_attempt content _ (quiet_remove content path) d') as Hr. by rewrite E in Hr.
Qed.

(** After the copy. *)
Lemma candidate_published d1 temporary f n :
  quiet_step content d d1 -> dc_files d1 !! temporary = Some f -> (dc_inodes d <= cf_ino f)%nat -> cf_data f = content key ->
  zlen (content key) = size ->
  let location := published key n size (sha256 (content key)) in
  let m := (_ ← rename_file temporary location;
      published ← attempt syscall;
      file ← stat_file location;
      match published, file with
      | Ok _, Some file =>
          if zlen (cf_data file) =? size
          then mret (with_file (new_entry key (NewString n) size (sha256 (content key))) location (diskCacheEntryCost size maxCost)
                       (cf_mtime file) (cf_ino file))
          else _ ← attempt (removeManagedFile location); fail ErrCacheLocalIO
      | _, _ => _ ← attempt (removeManagedFile location); fail ErrCacheLocalIO
      end) in
  outcome_ok (m d1).1 (m d1).2.
Proof.
  intros Hq Hf Hino Hdata Hz location m.
  assert (quiet_step content d (rename_file temporary location d1).2) as Hq2 by (by eapply quiet_publish).
  subst m. unfold rename_file at 1 2. rewrite modify_bind. set (d2 := upd_files _ d1).
  change (quiet_step content d d2) in Hq2.
  assert (dc_files d2 !! location = Some f) as Hf2 by (cbn; rewrite Hf; apply lookup_insert_eq).
  assert (attempt syscall d2 = (Ok (if disk_fault (dc_calls d2) then Err ErrCacheLocalIO else Ok tt), upd_calls S d2)) as E
    by (unfold attempt; by rewrite syscall_eq).
  assert (quiet_step content d (upd_calls S d2)) as Hq3.
  { etransitivity; [exact Hq2|]. by apply (quiet_counts content (upd_calls S)). }
  rewrite (bind_ok _ _ _ _ _ E). unfold stat_file. rewrite reads_bind.
  change (dc_files (upd_calls S d2)) with (dc_files d2). rewrite Hf2. destruct (disk_fault _).
  { destruct (remove_then (A := diskEntry) location ErrCacheLocalIO _ Hq3) as (d' & -> & Hq'). by apply local_failure. }
  rewrite Hdata, Hz, Z.eqb_refl. split; [|done]. split; [done|]. cbn [fst snd]. split_and!; [|done|by exists f].
  split; cbn [with_file new_entry e_digest e_key e_path e_fileInfo e_modTime e_cost e_size]; [done..|apply published_suffix| |].
  - intros i [= <-]. exact (qs_inodes _ _ _ Hq3 ino_ok _ _ Hf2).
  - intros x Hx _ _. assert (Some f = Some x) as [= <-] by (by rewrite <- Hf2, <- Hx). by rewrite Hdata.
Qed.

Lemma writeCandidate_run :
  outcome_ok (writeCandidate maxCost key size src d).1 (writeCandidate maxCost key size src d).2.
Proof.
  destruct (writeCandidate maxCost key size src d) as [r d'] eqn:E. revert E. unfold writeCandidate, newUUID.
  unfold mbind at 1, M_bind at 1. rewrite syscall_eq.
  assert (quiet_step content d (upd_calls S d)) as Hq0 by by apply (quiet_counts content (upd_calls S)).
  destruct (disk_fault _); [intros [= <- <-]; by apply local_failure|].
  rewrite !bind_assoc, !reads_bind, !bind_assoc, !modify_bind, !ret_bind.
  set (n := dc_uuids _). set (d1 := upd_uuids S _). set (shard := root +:+ shard_of key).
  set (temporary := shard +:+ "/." +:+ NewString n +:+ diskCacheTempSuffix).
  assert (HasSuffix temporary diskCacheFileSuffix = false) as Htemp.
  { unfold temporary. rewrite <- !string_append_assoc. apply temp_no_cache. }
  assert (quiet_step content d d1) as Hq1.
  { etransitivity; [exact Hq0|]. by apply (quiet_counts content (upd_uuids S)). }
  pose proof (create_run temporary d1) as Hc. pose proof (quiet_create temporary Htemp d1) as Hqc.
  destruct (create_file temporary d1) as [[u|e] d2] eqn:Ec.
  2: { rewrite (bind_err _ _ _ _ _ Ec), Hc. intros [= <- <-]. apply local_failure. by etransitivity. }
  destruct Hc as (f & Hf & Hempty & Hino). rewrite (bind_ok _ _ _ _ _ Ec).
  pose proof (fill_run shard temporary (NewString n) key size src d2 f ltac:(lia) Hf Hempty) as Hfill.
  pose proof (quiet_fill shard temporary (NewString n) key size src Htemp d2) as Hqf.
  destruct (fillTemporary shard temporary (NewString n) key size src d2) as [w d3] eqn:Ef.
  assert (quiet_step content d d3) as Hq3 by (etransitivity; [exact Hq1|]; by etransitivity).
  rewrite (bind_ok (attempt _) _ d2 w d3) by (unfold attempt; by rewrite Ef).
  destruct w as [[digest location]|e]; cbn [fst snd copied] in Hfill.
  - destruct Hfill as ((f' & Hf' & Hi' & Hd') & Hz & Hcomp & -> & ->). rewrite (honest Hcomp) in *. intros E.
    assert (dc_inodes d <= cf_ino f')%nat as Hino' by (rewrite Hi', Hino; apply (qs_fresh _ _ _ Hq1)).
    pose proof (candidate_published d3 temporary f' n Hq3 Hf' Hino' Hd' Hz) as Hp. cbv zeta in Hp.
    unfold published in Hp. fold shard in Hp. by rewrite E in Hp.
  - destruct (remove_then (A := diskEntry) temporary e d3 Hq3) as (d4 & E4 & Hq4). rewrite E4. intros [= <- <-].
    split; [split; [done|]; cbn; destruct Hfill as [->|[-> _]]; auto|]. intros Hcomp Hsz [= ->].
    destruct Hfill as [|[_ Hno]]; [done|]. apply Hno. by rewrite (honest Hcomp).
Qed.
End Candidate.
End Writing.

(** ** Recovery *)

Section Recovery.
Context `{!Sha} `{!CacheLib} `{!CacheLaws} (content : list Z -> list Z) (maxCost keyLimit minSize : Z).
Notation good := (good content maxCost).

Lemma quiet_manifest binding : quiet content (reconcileManifest binding).
Proof.
  unfold reconcileManifest, readDiskCacheManifest, removeManagedEntries, writeDiskCacheManifest, stat_file, newUUID.
  assert (forall u, HasSuffix (manifestPath +:+ "." +:+ u +:+ diskCacheTempSuffix) diskCacheFileSuffix = false) as Ht.
  { intros u. rewrite <- !string_append_assoc. apply temp_no_cache. }
  pose proof (fun u => quiet_create content _ (Ht u)) as Hc. pose proof (fun u => quiet_append content _ [] (Ht u)) as Ha.
  pose proof (fun u data => quiet_append content _ data (Ht u)) as Ha'.
  pose proof (fun from => quiet_rename content from manifestPath eq_refl) as Hr. quiet; auto; by apply quiet_counts.
Qed.
Lemma quiet_legacy : quiet content removeLegacyEntries.
Proof. unfold removeLegacyEntries. quiet. Qed.

Lemma quiet_validate path : quiet content (validatePersistedEntry maxCost keyLimit minSize path).
Proof. unfold validatePersistedEntry, stat_file. quiet. Qed.

(** What a restart takes over is what its name says. *)
Lemma validate_trusted path e d d' :
  good d -> HasSuffix path diskCacheFileSuffix = true ->
  validatePersistedEntry maxCost keyLimit minSize path d = (Ok e, d') -> trusted content maxCost d' e.
Proof.
  intros Hg Hp E. pose proof (quiet_validate path d) as Hq. rewrite E in Hq. eapply trusted_quiet; [exact Hq|].
  assert ((validatePersistedEntry maxCost keyLimit minSize path d).1 = Ok e) as E1 by (by rewrite E). revert E1. clear E Hq d'.
  unfold validatePersistedEntry. destruct (parsePersistedEntryLocation _ _) as [e0|] eqn:Ep; [|done].
  change (lift (Ok e0)) with (mret (M := M diskCache) e0). rewrite ret_bind. unfold check.
  destruct (inadmissible _ _ _ _); [done|]. rewrite ret_bind.
  apply (syscall_then _ d (fun r _ => r = Ok e -> trusted content maxCost d e)); [intros d1 E1|done].
  unfold stat_file. rewrite reads_bind, E1. destruct (dc_files d !! path) as [file|] eqn:Ef; [|done].
  destruct (negb (_ =? _)); [done|]. rewrite ret_bind.
  apply (syscall_then _ d1 (fun r _ => r = Ok e -> trusted content maxCost d e)); [intros d2 _|done].
  apply (syscall_then _ d2 (fun r _ => r = Ok e -> trusted content maxCost d e)); [intros d3 _|done].
  apply (syscall_then _ d3 (fun r _ => r = Ok e -> trusted content maxCost d e)); [intros d4 _|done].
  destruct (bool_decide (sha256 (cf_data file) = e_digest e0)) eqn:Ed; [|done]. apply bool_decide_eq_true in Ed.
  cbn. intros [= <-]. split; cbn.
  - by eapply (g_names _ _ _ Hg).
  - done.
  - done.
  - intros i [= <-]. by eapply (g_inodes _ _ _ Hg).
  - intros f Hf _ _. congruence.
Qed.

(** The winners of the walk are as good as what it found. *)
Definition winners_ok (d : diskCache) (winners : gmap (list Z) diskEntry) : Prop :=
  forall k e, winners !! k = Some e -> trusted content maxCost d e.
Lemma winners_quiet d d' winners : quiet_step content d d' -> winners_ok d winners -> winners_ok d' winners.
Proof. intros Hq Hw k e He. eapply trusted_quiet; [exact Hq|]. by eapply Hw. Qed.
Lemma quiet_winner winners e : quiet content (updateRecoveryWinner winners e).
Proof. unfold updateRecoveryWinner. quiet. Qed.
Lemma quiet_recoverPath winners path : quiet content (recoverPath maxCost keyLimit minSize winners path).
Proof. unfold recoverPath. pose proof quiet_winner. pose proof quiet_validate. quiet. Qed.

Lemma winner_ok d winners e w d' :
  winners_ok d winners -> trusted content maxCost d e -> updateRecoveryWinner winners e d = (Ok w, d') -> winners_ok d' w.
Proof.
  intros Hw He E. pose proof (quiet_winner winners e d) as Hq. rewrite E in Hq. eapply winners_quiet; [exact Hq|].
  assert (winners_ok d (<[e_key e := e]> winners)) as Hin.
  { intros k x [[_ <-]|[_ Hx]]%lookup_insert_Some; [done|]. by eapply Hw. }
  revert E. unfold updateRecoveryWinner. destruct (winners !! e_key e); [|by intros [= <- <-]].
  destruct (String.leb _ _); intros (u & d1 & _ & [= <- <-])%bind_ok_inv; done.
Qed.

Lemma recoverPath_ok d winners path w d' :
  good d -> winners_ok d winners -> recoverPath maxCost keyLimit minSize winners path d = (Ok w, d') -> winners_ok d' w.
Proof.
  intros Hg Hw E. pose proof (quiet_recoverPath winners path d) as Hq. rewrite E in Hq. cbn in Hq. revert E. unfold recoverPath.
  destruct (HasSuffix path diskCacheTempSuffix).
  { intros (u & d1 & _ & [= -> ->])%bind_ok_inv. by eapply winners_quiet. }
  destruct (HasSuffix path diskCacheFileSuffix) eqn:Ep; [|by intros [= <- <-]]. cbn [negb].
  intros (r & d1 & E1 & E2)%bind_ok_inv. unfold attempt in E1.
  destruct (validatePersistedEntry _ _ _ path d) as [r' d1'] eqn:Ev. injection E1 as -> ->. destruct r as [e|].
  - eapply winner_ok; [|by eapply validate_trusted|exact E2]. eapply winners_quiet; [|exact Hw].
    pose proof (quiet_validate path d) as Hv. by rewrite Ev in Hv.
  - apply bind_ok_inv in E2 as (u & d2 & _ & [= -> ->]). by eapply winners_quiet.
Qed.

Lemma recovery_walk_ok paths winners d w d' :
  good d -> winners_ok d winners -> fold_each (recoverPath maxCost keyLimit minSize) winners paths d = (Ok w, d') ->
  winners_ok d' w.
Proof.
  revert winners d. induction paths as [|p paths IH]; intros winners d Hg Hw; [by intros [= <- <-]|].
  cbn [fold_each]. intros (w1 & d1 & E1 & E2)%bind_ok_inv. eapply IH; [| |exact E2].
  - eapply good_quiet; [|exact Hg]. pose proof (quiet_recoverPath winners p d) as Hq. by rewrite E1 in Hq.
  - by eapply recoverPath_ok.
Qed.

Lemma readmit_ok entries d :
  good d -> Forall (trusted content maxCost d) entries ->
  good (for_each (fun entry => admitted ← admit_entry maxCost keyLimit minSize entry;
                    if (admitted : bool) then mret tt else removeManagedFile (e_path entry)) entries d).2.
Proof.
  revert d. induction entries as [|e entries IH]; intros d Hg Ht; [done|]. apply Forall_cons in Ht as [He Ht].
  destruct (admit_run content maxCost keyLimit minSize e d Hg He) as (b & d1 & E1 & Hg1 & _ & Hkeep).
  cbn [for_each]. rewrite bind_assoc, (bind_ok _ _ _ _ _ E1). destruct b.
  { rewrite ret_bind. apply IH; [done|]. eapply Forall_impl; [exact Ht|]. auto. }
  pose proof (quiet_remove content (e_path e) d1) as Hq. unfold mbind at 1, M_bind at 1.
  destruct (removeManagedFile (e_path e) d1) as [[u|x] d2]; cbn in *; [|by eapply good_quiet].
  apply IH; [by eapply good_quiet|]. eapply Forall_impl; [exact Ht|]. intros x Hx. eapply trusted_quiet; [exact Hq|auto].
Qed.

Lemma recover_good d : good d -> good (recoverEntries maxCost keyLimit minSize d).2.
Proof.
  intros Hg. unfold recoverEntries. rewrite reads_bind. unfold mbind at 1, M_bind at 1.
  set (walk := fold_each _ _ _). assert (quiet content walk) as Hq by (subst walk; pose proof quiet_recoverPath; quiet).
  specialize (Hq d). destruct (walk d) as [[w|x] d1] eqn:E; cbn [snd] in *; [|by eapply good_quiet].
  apply readmit_ok; [by eapply good_quiet|]. apply Forall_forall. intros e He.
  assert (winners_ok d1 w) as Hw by (eapply recovery_walk_ok; [exact Hg| |exact E]; by intros k x Hx%lookup_empty_Some).
  assert (e ∈ map snd (map_to_list w)) as Hin.
  { by apply order_by_elem in He. }
  apply list_elem_of_In, in_map_iff in Hin as ([k x] & <- & Hin%list_elem_of_In). apply elem_of_map_to_list in Hin. by eapply Hw.
Qed.

Lemma good_then {A B} (m : M diskCache A) (k : A -> M diskCache B) d :
  quiet content m -> (forall a d, good d -> good (k a d).2) -> good d -> good ((m ≫= k) d).2.
Proof.
  intros Hm Hk Hg. specialize (Hm d). unfold mbind, M_bind. destruct (m d) as [[a|e] d1]; cbn in *; [apply Hk|];
    by eapply good_quiet.
Qed.

(** A start over files whose names are true. *)
Lemma start_good binding files calls uuids inodes :
  0 <= maxCost -> names_true content (blank files calls uuids inodes) -> inodes_ok (blank files calls uuids inodes) ->
  good (newDiskCache maxCost keyLimit minSize binding (blank files calls uuids inodes)).2.
Proof.
  intros Hc Hn Hi. unfold newDiskCache.
  apply good_then; [quiet|intros _ d1 G1|]. 1: apply good_then; [quiet|intros _ d2 G2|done].
  - apply good_then; [apply quiet_manifest|intros _ d3 G3|done].
    apply good_then; [apply quiet_legacy|intros _ d4 G4|done]. by apply recover_good.
  - split; [|by intros id e He|done..]. split; cbn; try done; [apply NoDup_nil_2|..].
    by intros id Hid%elem_of_nil.
Qed.
End Recovery.
