(* ===== verification/IOCacheTheorems.v ===== *)
(** * The cache is transparent

    Over any run of the cache (loads, readers that are closed, files that are corrupted or
    lost, restarts under other configurations) what is read through it is the content of
    the file, a disk that fails does not keep a file from being read, and the disk stays
    within its budget. Calls run one after the other. *)

From stdpp Require Import base strings list gmap.
From Stdlib Require Import Ascii.
From S2P Require Import Prelude GoStr SqlText Crc Base64 Checksum BlockIO Multipart DiskCache IOCache IOCacheProofs IOCacheNames IOCacheWrite.
Import DiskCache IOCache.

Section Run.
Context `{!Sha} `{!CacheLib} `{!CacheLaws} (content : list Z -> list Z).

(** The digest tells the content of a file from all other data. *)
Definition no_collision : Prop := forall k data, sha256 data = sha256 (content k) -> data = content k.
(** A stream of the loader that ends well delivers [data]. *)
Definition honest (data : list Z) (load : loader) : Prop := forall n st,
  load n = Ok st -> complete (st_source st) -> src_data (st_source st) = data.
(** The loader always delivers. *)
Definition reliable (load : loader) : Prop := forall n, exists st,
  load n = Ok st /\ complete (st_source st) /\ st_close st = None.
(** What a reader delivers: data, or a stream of the loader. *)
Definition serves (load : loader) (data : list Z) (r : reader) : Prop :=
  match r with
  | BytesReader raw | DiskReader _ raw | RemoveReader _ raw => raw = data
  | SourceReader st => exists n, load n = Ok st
  end.

(** ** The invariant *)

Record inv (c : FileIOCacheConfig) (s : fileIOCacheImpl) : Prop := {
  iv_names : names_true content (l2 s); iv_inodes : inodes_ok (l2 s);
  iv_disk : DisableL2Cache c = false -> good content (L2CacheSize c) (l2 s);
  iv_memory : forall k raw, l1 s !! k = Some raw -> raw = content k;
  iv_fills : fills s = ∅ }.

Definition key_of (c : FileIOCacheConfig) (i : FileCacheIdentity) : list Z :=
  buildFileCacheKey (with_binding i (ConfigBinding c)).

Section Loading.
Context (c : FileIOCacheConfig) (key : list Z) (size : Z) (load : loader).
Context (collision : no_collision) (honest_load : honest (content key) load).
Context (size_int64 : 0 <= size < 2 ^ 63) (bytes : Forall is_byte key) (digest : length key = 32%nat).

(** [m] keeps the invariant, with [fills] as they are, and gives [R]; it fails only when the
    loader is to blame. *)
Definition blameless : Prop := reliable load /\ zlen (content key) = size.
Record same (s s' : fileIOCacheImpl) : Prop := {
  sm_inv : inv c (with_fills (fun _ => ∅) s) -> inv c (with_fills (fun _ => ∅) s');
  sm_fills : fills s' = fills s; sm_closing : closing s' = closing s; sm_closed : closed s' = closed s }.
Definition post {A} (R : A -> Prop) (m : M fileIOCacheImpl A) : Prop := forall s,
  inv c (with_fills (fun _ => ∅) s) ->
  same s (m s).2 /\ match (m s).1 with Ok a => R a | Err _ => ~ blameless end.

#[local] Instance same_trans : Transitive same.
Proof. intros s1 s2 s3 [] []. split; [auto|congruence..]. Qed.
#[local] Instance same_refl : Reflexive same.
Proof. intros s. by split. Qed.

Lemma post_bind {A B} (R1 : A -> Prop) (R : B -> Prop) m (f : A -> M fileIOCacheImpl B) :
  post R1 m -> (forall a, R1 a -> post R (f a)) -> post R (m ≫= f).
Proof.
  intros Hm Hf s Hs. destruct (Hm s Hs) as [Hsame Hr]. unfold mbind, M_bind. destruct (m s) as [[a|e] s1]; cbn in *; [|done].
  destruct (Hf a Hr s1) as [Hsame2 Hr2]; [by apply (sm_inv _ _ Hsame)|]. split; [by etransitivity|done].
Qed.
Lemma post_ret {A} (R : A -> Prop) a : R a -> post R (mret a).
Proof. intros Ha s Hs. by split. Qed.
Lemma post_load n : post (fun st => load n = Ok st) (lift (load n)).
Proof.
  intros s Hs. split; [done|]. unfold lift. cbn. destruct (load n) eqn:E; [done|]. intros [Hr _].
  destruct (Hr n) as (st & Hst & _). congruence.
Qed.

(** ** Memory *)

Lemma inv_memory s m' n :
  (forall k raw, m' !! k = Some raw -> raw = content k) ->
  same s {| l1 := m'; l1_calls := n; l2 := l2 s; fills := fills s; closing := closing s; closed := closed s |}.
Proof. intros Hm. split; [|done..]. intros []. by split. Qed.

Lemma readL1_post : post (fun r => forall raw, r = Some raw -> raw = content key) (readL1 c key size).
Proof.
  unfold readL1. destruct (DisableL1Cache c); [by apply post_ret|]. intros s Hs.
  unfold touch_l1. rewrite modify_bind, reads_bind. cbn [l1].
  pose proof (fun k raw H => iv_memory _ _ Hs k raw (lookup_weaken _ _ _ _ H (policy_drops (l1_calls s) (l1 s)))) as Hl.
  cbn in Hl. destruct (_ !! key) as [raw|] eqn:E; [|split; [by apply (inv_memory s)|done]].
  destruct (negb _).
  - rewrite modify_bind. split; [|done]. apply (inv_memory s). intros k raw' Hk. apply lookup_delete_Some in Hk as [_ Hk]. by eapply Hl.
  - split; [by apply (inv_memory s)|]. intros raw' [= <-]. by eapply Hl.
Qed.
Lemma writeL1_post : post (fun _ => True) (writeL1 c key (content key)).
Proof.
  unfold writeL1. destruct (DisableL1Cache c); [by apply post_ret|]. intros s Hs. unfold touch_l1. rewrite modify_bind.
  split; [|done]. cbn. apply (inv_memory s). intros k raw Hk.
  pose proof (lookup_weaken _ _ _ _ Hk (policy_drops _ _)) as Hk'. cbn in Hk'.
  apply lookup_insert_Some in Hk' as [[<- <-]|[_ Hk']]; [done|]. by eapply (iv_memory _ _ Hs).
Qed.

Lemma readExact_content st raw :
  load 0%nat = Ok st -> readExactBytes (st_source st) size = Ok raw -> raw = content key.
Proof.
  intros Hl. unfold readExactBytes, source_end. repeat case_match; try done. intros [= <-]. by eapply honest_load.
Qed.
Lemma fillBuffered_post : post (serves load (content key)) (fillBuffered c key size load).
Proof.
  unfold fillBuffered. eapply post_bind; [apply post_load|]. intros st Hst.
  eapply (post_bind (fun raw => raw = content key)).
  { intros s Hs. split; [done|]. cbn. destruct (readExactBytes _ _) as [raw|e] eqn:E; [exact (readExact_content st raw Hst E)|].
    intros [Hr Hz]. destruct (Hr 0%nat) as (st' & Hst' & Hc & _). rewrite Hst in Hst'. injection Hst' as <-.
    pose proof (honest_load _ _ Hst Hc) as Hd. revert E. unfold readExactBytes, source_end. rewrite Hd, Hz, Hc, Z.ltb_irrefl.
    by rewrite (proj2 (Z.ltb_ge _ _)) by lia. }
  intros raw ->. eapply (post_bind (fun _ => True)).
  { destruct (st_close st) as [e|] eqn:Ec; [|by apply post_ret]. intros s Hs. split; [done|]. cbn. intros [Hr _].
    destruct (Hr 0%nat) as (st' & Hst' & _ & Hc). congruence. }
  intros _ _. eapply post_bind; [apply writeL1_post|]. intros _ _. by apply post_ret.
Qed.

(** ** Disk *)

Section Disk.
Context (l2_on : DisableL2Cache c = false).

Definition post_at {A} (R : A -> Prop) (s : fileIOCacheImpl) (x : outcome A * fileIOCacheImpl) : Prop :=
  same s x.2 /\ match x.1 with Ok a => R a | Err _ => ~ blameless end.
Lemma post_from {A} (R : A -> Prop) m s s1 :
  inv c (with_fills (fun _ => ∅) s) -> same s s1 -> post R m -> post_at R s (m s1).
Proof.
  intros Hs Hsame Hm. destruct (Hm s1) as [Hs1 Hr]; [by apply (sm_inv _ _ Hsame)|]. split; [by etransitivity|done].
Qed.

Lemma on_disk_bind {A B} (m : M diskCache A) (f : A -> M fileIOCacheImpl B) s a d :
  m (l2 s) = (Ok a, d) -> (on_disk m ≫= f) s = f a (with_l2 d s).
Proof. intros E. unfold mbind, M_bind, on_disk. by rewrite E. Qed.

Lemma same_disk s d : good content (L2CacheSize c) d -> same s (with_l2 d s).
Proof. intros Hg. split; [|done..]. intros []. split; cbn; try done; apply Hg. Qed.
Lemma disk_good s : inv c (with_fills (fun _ => ∅) s) -> good content (L2CacheSize c) (l2 s).
Proof. intros Hs. exact (iv_disk _ _ Hs l2_on). Qed.

Lemma post_disk {A} (R : A -> Prop) m :
  (forall d, good content (L2CacheSize c) d -> exists a d', m d = (Ok a, d') /\ good content (L2CacheSize c) d' /\ R a) ->
  post R (on_disk m).
Proof.
  intros Hm s Hs. unfold on_disk. destruct (Hm _ (disk_good s Hs)) as (a & d & E & Hg & Ha). rewrite E.
  split; [by apply same_disk|done].
Qed.
Lemma cleanup_post paths : post (fun _ => True) (on_disk (cleanupPaths paths)).
Proof.
  apply post_disk. intros d Hg. destruct (cleanup_good content _ paths d Hg) as (d' & E & Hg' & _). by exists tt, d'.
Qed.
Lemma open_post : post (fun r => forall rd, r = Some rd -> serves load (content key) rd) (open_l2 key size).
Proof.
  unfold open_l2. eapply (post_bind (fun r => forall id data, r = Some (id, data) -> data = content key)).
  - apply post_disk. intros d Hg. destruct (open_run content _ key size d Hg) as (r & d' & E & Hg' & Hr).
    exists r, d'. split_and!; [done..|]. intros id data Hd. destruct (Hr id data Hd) as [Hsha _]. by apply collision.
  - intros [[id data]|] Hr; apply post_ret; intros rd [= <-]. exact (Hr id data eq_refl).
Qed.
Lemma reload_post : post (serves load (content key)) (reloadWithoutCache load).
Proof. unfold reloadWithoutCache. eapply post_bind; [apply post_load|]. intros st Hst. apply post_ret. by exists 1%nat. Qed.
Lemma fallback_post st : load 0%nat = Ok st -> post (serves load (content key)) (fallbackSource st load).
Proof.
  intros Hst. unfold fallbackSource. destruct (st_seek st); [|apply reload_post]. apply post_ret. by exists 0%nat.
Qed.

(** A candidate that was written: closing the source, admitting it, opening it. *)
Lemma candidate_post st e s :
  load 0%nat = Ok st -> inv c (with_fills (fun _ => ∅) s) -> trusted content (L2CacheSize c) (l2 s) e -> e_key e = key ->
  (exists f, dc_files (l2 s) !! e_path e = Some f /\ cf_data f = content key) ->
  post_at (serves load (content key)) s
    ((_ ← match st_close st with
          | Some x => _ ← on_disk (cleanupPaths [e_path e]); fail x
          | None => mret tt
          end;
      admitted ← on_disk (admit_entry (L2CacheSize c) (L2KeySizeLimit c) (l2MinimumFileSize c) e);
      if (admitted : bool) then
        r ← open_l2 key size;
        match r with
        | Some r => mret r
        | None => reloadWithoutCache load
        end
      else
        opened ← on_disk (attempt (_ ← syscall; stat_file (e_path e)));
        match opened with
        | Ok (Some file) => mret (RemoveReader (e_path e) (cf_data file))
        | _ => _ ← on_disk (cleanupPaths [e_path e]); reloadWithoutCache load
        end) s).
Proof.
  intros Hst Hs Ht Hk (f & Hf & Hd).
  destruct (st_close st) as [x|] eqn:Ec.
  { apply post_from; [done..|]. eapply (post_bind (fun _ => False)); [|by intros _ []]. eapply post_bind; [apply cleanup_post|]. intros _ _ s' Hs'.
    split; [done|]. intros [Hr _]. destruct (Hr 0%nat) as (st' & Hst' & _ & Hc). congruence. }
  rewrite ret_bind.
  destruct (admit_run content (L2CacheSize c) (L2KeySizeLimit c) (l2MinimumFileSize c) e (l2 s) (disk_good s Hs) Ht)
    as (b & d1 & E1 & Hg1 & Hno & _).
  rewrite (on_disk_bind _ _ _ _ _ E1). destruct b.
  { apply post_from; [done|by apply same_disk|]. eapply post_bind; [apply open_post|]. intros [rd|] Hr;
      [apply post_ret; by apply Hr|apply reload_post]. }
  rewrite (Hno eq_refl) in *.
  assert (quiet_step content (l2 s) (upd_calls S (l2 s))) as Hq by by apply (quiet_counts content (upd_calls S)).
  assert (same s (with_l2 (upd_calls S (l2 s)) (with_l2 (l2 s) s))) as Hsame.
  { etransitivity; [apply (same_disk s (l2 s)); done|]. apply same_disk. by eapply good_quiet. }
  rewrite (on_disk_bind _ _ (with_l2 (l2 s) s) (if disk_fault (dc_calls (l2 s)) then Err ErrCacheLocalIO else Ok (Some f))
    (upd_calls S (l2 s))).
  2: { unfold attempt, mbind, M_bind. cbn [l2 with_l2]. rewrite syscall_eq. destruct (disk_fault _); [done|].
       cbn. by rewrite Hf. }
  destruct (disk_fault _); [|by split].
  apply post_from; [done..|]. eapply post_bind; [apply cleanup_post|]. intros _ _. apply reload_post.
Qed.

Lemma fillDisk_post : post (serves load (content key)) (fillDisk c key size load).
Proof.
  unfold fillDisk. eapply post_bind; [apply post_load|]. intros st Hst s Hs. cbn beta in Hst.
  pose proof (disk_good s Hs) as Hg.
  destruct (writeCandidate_run content (L2CacheSize c) key size (st_source st) (l2 s)) as [[Hq Hw] Hne];
    [done..|apply Hg|exact (honest_load _ _ Hst)|].
  destruct (writeCandidate _ _ _ _ (l2 s)) as [r d1] eqn:Er. cbn [fst snd] in *.
  rewrite (bind_ok (attempt _) _ s r (with_l2 d1 s)) by (unfold attempt, on_disk; by rewrite Er).
  pose proof (good_quiet _ _ _ _ Hq Hg) as Hg1. pose proof (same_disk s d1 Hg1) as Hs1. destruct r as [e|x].
  - destruct Hw as (Ht & Hk & Hfile).
    destruct (candidate_post st e (with_l2 d1 s) Hst) as [Hsame Hr]; [by apply (sm_inv _ _ Hs1)|done..|].
    split; [by etransitivity|done].
  - case_bool_decide as Ex; [|by apply post_from; [| |apply fallback_post]]. split; [done|]. intros [Hr Hz]. subst x.
    destruct (Hr 0%nat) as (st' & Hst' & Hc & _). rewrite Hst in Hst'. injection Hst' as <-. by apply Hne.
Qed.
End Disk.

(** ** Loading *)

Lemma lookup_post l1Eligible l2Eligible : (l2Eligible = true -> DisableL2Cache c = false) ->
  post (fun r => forall rd, r = Some rd -> serves load (content key) rd) (lookup_cache c key size l1Eligible l2Eligible).
Proof.
  intros Hon. unfold lookup_cache. eapply (post_bind (fun r => forall raw, r = Some raw -> raw = content key)).
  { destruct l1Eligible; [apply readL1_post|by apply post_ret]. }
  intros [raw|] Hr; [apply post_ret; intros rd [= <-]; by apply Hr|].
  destruct l2Eligible; [by apply open_post, Hon|]. by apply post_ret.
Qed.

Lemma inv_fills c' s : inv c' s <-> inv c' (with_fills (fun _ => ∅) s) /\ fills s = ∅.
Proof.
  split; [intros []; split; [by split|done]|]. intros [[] Hf]. by split.
Qed.

Lemma beginFill_eq s : fills s = ∅ ->
  beginFill key s = if closed s then (Err ErrCacheClosed, s) else (Ok true, with_fills (fun f => {[key]} ∪ f) s).
Proof.
  intros Hf. unfold beginFill, check. rewrite reads_bind. unfold id. destruct (closed s); [done|]. rewrite ret_bind, Hf.
  by rewrite bool_decide_eq_false_2 by set_solver.
Qed.

Lemma loadCacheable_run s l1Eligible l2Eligible :
  (l1Eligible = false -> l2Eligible = true) -> (l2Eligible = true -> DisableL2Cache c = false) -> inv c s ->
  let x := loadCacheable c key size l1Eligible l2Eligible load s in
  inv c x.2 /\ match x.1 with Ok rd => serves load (content key) rd | Err _ => closed s = true \/ ~ blameless end.
Proof.
  intros Hone Hon [Hi Hf]%inv_fills. cbv zeta. unfold loadCacheable. pose proof (lookup_post l1Eligible l2Eligible Hon) as Hl.
  destruct (Hl s Hi) as [Hs1 Hr1]. destruct (lookup_cache c key size l1Eligible l2Eligible s) as [[found|e] s1] eqn:E1; cbn [fst snd] in *.
  2: { rewrite (bind_err _ _ _ _ _ E1). cbn [fst snd]. split; [|by right]. apply inv_fills. split; [by apply Hs1|]. by rewrite (sm_fills _ _ Hs1). }
  rewrite (bind_ok _ _ _ _ _ E1). assert (inv c s1) as Hi1.
  { apply inv_fills. split; [by apply Hs1|]. by rewrite (sm_fills _ _ Hs1). }
  destruct found as [rd|]; [split; [done|]; by apply Hr1|].
  pose proof (beginFill_eq s1 (iv_fills _ _ Hi1)) as Eb. destruct (closed s1) eqn:Ecl.
  { rewrite (bind_err _ _ _ _ _ Eb). split; [done|]. left. by rewrite <- (sm_closed _ _ Hs1). }
  rewrite (bind_ok _ _ _ _ _ Eb). set (s2 := with_fills _ s1). unfold runFillLeader.
  match goal with |- context [attempt ?x] => set (m := x) end. assert (post (serves load (content key)) m) as Hm.
  { subst m. eapply post_bind; [exact Hl|]. intros [rd|] Hrd; [by apply post_ret, Hrd|]. unfold fill.
    destruct l1Eligible; [apply fillBuffered_post|]. by apply fillDisk_post, Hon, Hone. }
  destruct (Hm s2) as [Hs2 Hr2]; [by apply inv_fills in Hi1 as [Hi1 _]|]. destruct (m s2) as [r s3] eqn:E3. cbn [fst snd] in *.
  rewrite (bind_ok (attempt m) _ s2 r s3) by (unfold attempt; by rewrite E3). unfold finishFill. rewrite modify_bind.
  split; [|destruct r; [done|by right]]. apply inv_fills. split.
  - cbn. assert (inv c (with_fills (fun _ => ∅) s3)) as Hi3 by (apply Hs2; by apply inv_fills in Hi1 as [Hi1 _]). by destruct Hi3.
  - cbn. rewrite (sm_fills _ _ Hs2). cbn. rewrite (iv_fills _ _ Hi1). set_solver.
Qed.
End Loading.

Lemma Load_run c i load s :
  no_collision -> Size i < 2 ^ 63 -> honest (content (key_of c i)) load -> inv c s ->
  let x := Load c i load s in
  inv c x.2 /\
  match x.1 with
  | Ok rd => serves load (content (key_of c i)) rd
  | Err _ => Size i < 0 \/ closing s = true \/ closed s = true \/ ~ blameless (key_of c i) (Size i) load
  end.
Proof.
  intros Hnc Hsz Hh Hi. cbv zeta. unfold Load. rewrite check_bind. destruct (Size i <? 0) eqn:Es.
  { split; [done|]. left. by apply Z.ltb_lt in Es. }
  apply Z.ltb_ge in Es. unfold beginLoad. rewrite bind_assoc, reads_bind, check_bind. unfold id.
  destruct (closing s || closed s) eqn:Ecl.
  { split; [done|]. cbn. apply orb_true_iff in Ecl. tauto. }
 set (l1E := negb (DisableL1Cache c) && _). set (l2E := negb l1E && _ && _).
  destruct (negb l1E && negb l2E) eqn:Eu.
  { unfold loadUncacheable. unfold mbind, M_bind, lift. destruct (load 0%nat) as [st|e] eqn:El; cbn.
    - split; [done|]. by exists 0%nat.
    - split; [done|]. do 3 right. intros [Hr _]. destruct (Hr 0%nat) as (st & Hst & _). congruence. }
  destruct (loadCacheable_run c (key_of c i) (Size i) load Hnc Hh ltac:(lia) (digest_bytes _) (digest_size _) s l1E l2E)
    as [Hi' Hr]; [|subst l2E|done|].
  - intros ->. by destruct l2E.
  - intros E. apply andb_true_iff in E as [E _]. apply andb_true_iff in E as [_ E]. by apply negb_true_iff in E.
  - split; [exact Hi'|]. unfold key_of in Hr |- *. cbn [Size with_binding]. destruct (loadCacheable _ _ _ _ _ _ _).1; [done|tauto].
Qed.

(** ** Runs *)

(** Someone else puts another file in the place of one, leaves one that no entry could
    have, or removes one. *)
Definition put_file (path : string) (data : list Z) (t : Z) (d : diskCache) : diskCache :=
  upd_inodes S (upd_files (<[path := {| cf_data := data; cf_ino := dc_inodes d; cf_mtime := t |}]>) d).
Lemma quiet_put path data t d :
  is_Some (dc_files d !! path) \/ HasSuffix path diskCacheFileSuffix = false -> quiet_step content d (put_file path data t d).
Proof.
  intros Hp. split; cbn; try done; try lia; unfold names_true, inodes_ok; cbn.
  - intros p f Hs [[<- <-]|[_ Hf]]%lookup_insert_Some; [right; cbn; lia|by left].
  - intros Hi p f [[<- <-]|[_ Hf]]%lookup_insert_Some; cbn; [lia|]. specialize (Hi _ _ Hf). lia.
  - intros Hn p f e [[<- <-]|[_ Hf]]%lookup_insert_Some Hs; [|by eapply Hn].
    destruct Hp as [[f Hf]|Hp]; [by eapply Hn|congruence].
Qed.

(** The readers a caller may close. *)
Definition opened (c : FileIOCacheConfig) (s : fileIOCacheImpl) (r : reader) : Prop :=
  match r with
  | BytesReader _ | SourceReader _ => True
  | DiskReader id _ => DisableL2Cache c = false /\ is_Some (dc_heap (l2 s) !! id)
  | RemoveReader _ _ => DisableL2Cache c = false
  end.

(** What may happen to a cache: the configuration in force and the state. A process that
    ends at any point leaves files that no entry could have, and a start follows. *)
Inductive runs : FileIOCacheConfig -> fileIOCacheImpl -> Prop :=
  | run_first config d c s d' : names_true content d -> inodes_ok d ->
      NewFileIOCacheWithContext config d = (Ok (c, s), d') -> runs c s
  | run_load c s i load : runs c s -> Size i < 2 ^ 63 -> honest (content (key_of c i)) load -> runs c (Load c i load s).2
  | run_release c s r : runs c s -> opened c s r -> runs c (close_reader r s).2
  | run_put c s path data t : runs c s ->
      is_Some (dc_files (l2 s) !! path) \/ HasSuffix path diskCacheFileSuffix = false ->
      runs c (with_l2 (put_file path data t (l2 s)) s)
  | run_lost c s path : runs c s -> runs c (with_l2 (upd_files (delete path) (l2 s)) s)
  | run_close c s : runs c s -> runs c (Close c s).2
  | run_restart c s config c' s' d' : runs c s ->
      NewFileIOCacheWithContext config (l2 s) = (Ok (c', s'), d') -> runs c' s'
  | run_failed c s config c' e d' : runs c s -> validateFileIOCacheConfig config = Ok c' ->
      NewFileIOCacheWithContext config (l2 s) = (Err e, d') -> runs c' (with_closing true (empty_cache d')).

Lemma validate_size config c :
  validateFileIOCacheConfig config = Ok c -> DisableL2Cache c = false -> 0 <= L2CacheSize c.
Proof.
  unfold validateFileIOCacheConfig, normalizeFileIOCacheConfig, inconsistent. repeat case_match; intros [= <-] Hl2; cbn in *; try congruence.
  all: repeat match goal with Hx : _ || _ = false |- _ => apply orb_false_iff in Hx as [? ?] end; lia.
Qed.

(** A start, whether it succeeds or not. *)
Lemma start_inv config c d :
  validateFileIOCacheConfig config = Ok c -> names_true content d -> inodes_ok d ->
  inv c (empty_cache (NewFileIOCacheWithContext config d).2) /\
  forall c' s d', NewFileIOCacheWithContext config d = (Ok (c', s), d') -> c' = c /\ s = empty_cache d'.
Proof.
  intros Hv Hn Hi. unfold NewFileIOCacheWithContext. rewrite Hv. change (lift (Ok c)) with (mret (M := M diskCache) c). rewrite ret_bind.
  destruct (DisableL2Cache c) eqn:El.
  { rewrite ret_bind, reads_bind. split; [|by intros c' s d' [= <- <- <-]]. split; cbn; try done. congruence. }
  rewrite bind_assoc, modify_bind. set (b := blank _ _ _ _).
  pose proof (start_good content (L2CacheSize c) (L2KeySizeLimit c) (l2MinimumFileSize c) (ConfigBinding c)
    (dc_files d) (dc_calls d) (dc_uuids d) (dc_inodes d) (validate_size _ _ Hv El) Hn Hi) as Hg. fold b in Hg.
  unfold mbind, M_bind. destruct (newDiskCache _ _ _ _ b) as [[u|e] d1]; cbn in *.
  - split; [|by intros c' s d' [= <- <- <-]]. split; cbn; try done; apply Hg.
  - split; [|done]. split; cbn; try done; apply Hg.
Qed.
Lemma start_ok config c s d d' :
  names_true content d -> inodes_ok d -> NewFileIOCacheWithContext config d = (Ok (c, s), d') -> inv c s.
Proof.
  intros Hn Hi E. destruct (validateFileIOCacheConfig config) as [c0|e] eqn:Hv.
  2: { unfold NewFileIOCacheWithContext in E. by rewrite Hv in E. }
  destruct (start_inv config c0 d Hv Hn Hi) as [Hinv He]. rewrite E in Hinv. by destruct (He _ _ _ E) as [-> ->].
Qed.

Lemma inv_disk c s d : inv c s -> quiet_step content (l2 s) d -> inv c (with_l2 d s).
Proof.
  intros [] Hq. split; cbn; try done; [by apply (qs_names _ _ _ Hq)|by apply (qs_inodes _ _ _ Hq)|].
  intros Hl. eapply good_quiet; [exact Hq|auto].
Qed.
Lemma inv_good c s d : inv c s -> good content (L2CacheSize c) d -> inv c (with_l2 d s).
Proof. intros [] Hg. split; cbn; try done; apply Hg. Qed.

Lemma release_inv c s r : inv c s -> opened c s r -> inv c (close_reader r s).2.
Proof.
  intros Hi Ho. destruct r as [raw|id data|location data|st]; try done; cbn [opened close_reader] in Ho |- *; unfold on_disk.
  - destruct Ho as [Hl [e He]]. destruct (release_run content _ id e (l2 s) (iv_disk _ _ Hi Hl) He) as (d & -> & Hg).
    by apply inv_good.
  - destruct (cleanup_good content _ [location] (l2 s) (iv_disk _ _ Hi Ho)) as (d & -> & Hg & _). by apply inv_good.
Qed.

Lemma good_used maxCost d : good content maxCost d -> 0 <= dc_usedCost d <= maxCost.
Proof.
  intros [[Hn Hl Hk Hu Hb] _ _ _]. split; [|done]. rewrite Hu. apply sumZ_nonneg, Forall_map, Forall_forall.
  intros id Hid. destruct (Hl id Hid) as (e & He & _ & Hc & _). unfold cost_at. rewrite He. lia.
Qed.

Lemma close_good maxCost d : good content maxCost d -> good content maxCost (DiskCache.close d).2.
Proof.
  intros Hg. unfold close. rewrite reads_bind. destruct (dc_closed d); [done|]. rewrite modify_bind, reads_bind.
  assert (forall b d, good content maxCost d -> good content maxCost (set_closing b d)) as Hclosing.
  { intros b d0 [[] Ht Hi Hn]. split; [by split| |done..]. intros id e He. eapply (trusted_same _ _ d0); [done..|]. by eapply Ht. }
  rewrite check_bind. destruct (negb _); [by apply Hclosing|]. rewrite reads_bind, !modify_bind.
  match goal with |- good _ _ ((cleanupPaths ?o ≫= _) ?x).2 =>
    destruct (cleanup_good content maxCost o x) as (d1 & E1 & Hg1 & _); [|rewrite (bind_ok _ _ _ _ _ E1)] end.
  { pose proof (good_used _ _ Hg) as Hused. destruct Hg as [_ Ht Hi Hn]. split; [|intros id e He; eapply (trusted_same _ _ d); [done..|]; by eapply Ht|done..].
    split; cbn; try done; [apply NoDup_nil_2|by intros id Hid%elem_of_nil|lia]. }
  unfold attempt, mbind, M_bind. rewrite syscall_eq. cbn. apply Hclosing. eapply good_quiet; [|exact Hg1].
  by apply (quiet_counts content (upd_calls S)).
Qed.
Lemma close_inv c s : inv c s -> inv c (Close c s).2.
Proof.
  intros Hi. unfold Close. rewrite reads_bind. unfold id. destruct (closed s); [done|]. rewrite modify_bind.
  assert (forall b s, inv c s -> inv c (with_closing b s)) as Hc by (intros b s0 []; by split).
  destruct (DisableL2Cache c) eqn:El; [rewrite ret_bind; by apply Hc, Hc|].
  unfold on_disk, mbind, M_bind. cbn [l2 with_closing].
  pose proof (close_good _ _ (iv_disk _ _ Hi El)) as Hg. destruct (DiskCache.close (l2 s)) as [[u|e] d]; cbn in *;
    [apply Hc|]; apply inv_good, Hg; by apply Hc.
Qed.

Lemma runs_inv c s : no_collision -> runs c s -> inv c s.
Proof.
  intros Hnc. induction 1 as [config d c s d' Hn Hi E|c s i load _ IH Hsz Hh|c s r _ IH Ho|c s path data t _ IH Hp|c s path _ IH|
    c s _ IH|c s config c' s' d' _ IH E|c s config c' e d' _ IH Hv E].
  - by eapply start_ok.
  - by apply (Load_run c i load s).
  - by apply release_inv.
  - apply inv_disk; [done|]. by apply quiet_put.
  - apply inv_disk; [done|]. apply (quiet_delete content path).
  - by apply close_inv.
  - eapply start_ok; [..|exact E]; apply IH.
  - destruct (start_inv config c' (l2 s) Hv (iv_names _ _ IH) (iv_inodes _ _ IH)) as [Hi _]. rewrite E in Hi. destruct Hi. by split.
Qed.
End Run.

(** What a reader delivers. *)
Definition reader_data (r : reader) : list Z :=
  match r with
  | BytesReader raw | DiskReader _ raw | RemoveReader _ raw => raw
  | SourceReader st => src_data (st_source st)
  end.

Definition size_at (h : list diskEntry) (id : nat) : Z :=
  match h !! id with Some e => e_size e | None => 0 end.

(** ** Keys

    The key of a file is the digest of its identity, from which the identity can be read
    back: all fields are written at their width, the text with its length. *)

Record wf_identity (i : FileCacheIdentity) : Prop := {
  wi_binding : length (StorageBinding i) = 32%nat;
  wi_file : 0 <= FileID i < 2 ^ 64;
  wi_size : - 2 ^ 63 <= Size i < 2 ^ 63;
  wi_parts : - 2 ^ 31 <= PartCount i < 2 ^ 31;
  wi_state : 0 <= State i < 2 ^ 32;
  wi_layout : - 2 ^ 31 <= LayoutVersion i < 2 ^ 31;
  wi_ctime : - 2 ^ 63 <= Ctime i < 2 ^ 63;
  wi_mtime : - 2 ^ 63 <= Mtime i < 2 ^ 63 }.

Lemma put_be_mod n v w : Base64.put_be n v = Base64.put_be n w -> v mod 256 ^ Z.of_nat n = w mod 256 ^ Z.of_nat n.
Proof.
  induction n as [|n IH]; cbn [Base64.put_be]; [by rewrite !Z.mod_1_r|]. intros [= E En].
  rewrite Nat2Z.inj_succ, Z.pow_succ_r, (Z.mul_comm 256) by lia. rewrite !Z.rem_mul_r by lia.
  by rewrite E, (IH En).
Qed.
Lemma mod_range_inj lo m v w : lo <= v < lo + m -> lo <= w < lo + m -> v mod m = w mod m -> v = w.
Proof.
  intros Hv Hw E. assert (0 < m) by lia. pose proof (Z.div_mod v m ltac:(lia)). pose proof (Z.div_mod w m ltac:(lia)).
  assert (v / m = w / m) by nia. nia.
Qed.
Lemma put_be_inj n lo v w : lo <= v < lo + 256 ^ Z.of_nat n -> lo <= w < lo + 256 ^ Z.of_nat n ->
  Base64.put_be n v = Base64.put_be n w -> v = w.
Proof. intros Hv Hw E%put_be_mod. by eapply mod_range_inj. Qed.

Lemma string_bytes_inj s t : string_bytes s = string_bytes t -> s = t.
Proof.
  unfold string_bytes. revert t. induction s as [|c s IH]; intros [|d t]; cbn; try done.
  intros [= Ec Et]. f_equal; [|by apply IH]. apply N2Z.inj in Ec. rewrite <- (ascii_N_embedding c), <- (ascii_N_embedding d). by rewrite Ec.
Qed.

Lemma key_bytes_inj i j : wf_identity i -> wf_identity j -> key_bytes i = key_bytes j -> i = j.
Proof.
  intros [] [] E. unfold key_bytes in E. apply app_inv_head in E.
  apply app_inj_1 in E as [Eb E]; [|congruence].
  do 7 (apply app_inj_1 in E as [?E E]; [|by rewrite !Base64.put_be_length]).
  apply app_inj_1 in E as [_ E]; [|by rewrite !Base64.put_be_length].
  apply string_bytes_inj in E.
  destruct i as [b1 f1 z1 p1 s1 l1 c1 m1 x1], j as [b2 f2 z2 p2 s2 l2 c2 m2 x2].
  cbn [StorageBinding FileID Size PartCount State LayoutVersion Ctime Mtime ExtInfo] in *.
  f_equal; try done.
  all: first [eapply (put_be_inj _ 0); [| |eassumption]; cbn; lia | eapply (put_be_inj 4 (- 2 ^ 31)); [| |eassumption]; cbn; lia
    | eapply (put_be_inj 8 (- 2 ^ 63)); [| |eassumption]; cbn; lia].
Qed.

(** ** Files

    What the service stores: [file] gives the bytes of every identity that is ever in use,
    of which [used] lists all. *)
Section Files.
Context `{!Sha} `{!CacheLib} `{!CacheLaws} (file : FileCacheIdentity -> list Z) (used : list FileCacheIdentity).

Definition bound (c : FileIOCacheConfig) (i : FileCacheIdentity) : FileCacheIdentity := with_binding i (ConfigBinding c).

(** The digest tells the identities in use from each other, and their files from all data. *)
Record sha_tells : Prop := {
  st_keys : forall i j, i ∈ used -> j ∈ used -> sha256 (key_bytes i) = sha256 (key_bytes j) -> key_bytes i = key_bytes j;
  st_files : forall i data, i ∈ used -> sha256 data = sha256 (file i) -> data = file i }.

(** A file that an earlier process left under a name of the cache has the name of a file in
    use; its content may be anything. *)
Definition names_of_used (d : diskCache) : Prop := forall p f e,
  dc_files d !! p = Some f -> HasSuffix p diskCacheFileSuffix = true ->
  parsePersistedEntryLocation (relative_to root p) (path_base p) = Ok e ->
  exists j, j ∈ used /\ buildFileCacheKey j = e_key e /\ e_digest e = sha256 (file j).

(** As [runs], with what is loaded told by identities. *)
Inductive file_runs : FileIOCacheConfig -> fileIOCacheImpl -> Prop :=
  | file_first config d c s d' : names_of_used d -> inodes_ok d ->
      NewFileIOCacheWithContext config d = (Ok (c, s), d') -> file_runs c s
  | file_load c s i load : file_runs c s -> bound c i ∈ used -> honest (file (bound c i)) load ->
      file_runs c (Load c i load s).2
  | file_release c s r : file_runs c s -> opened c s r -> file_runs c (close_reader r s).2
  | file_put c s path data t : file_runs c s ->
      is_Some (dc_files (l2 s) !! path) \/ HasSuffix path diskCacheFileSuffix = false ->
      file_runs c (with_l2 (put_file path data t (l2 s)) s)
  | file_lost c s path : file_runs c s -> file_runs c (with_l2 (upd_files (delete path) (l2 s)) s)
  | file_close c s : file_runs c s -> file_runs c (Close c s).2
  | file_restart c s config c' s' d' : file_runs c s ->
      NewFileIOCacheWithContext config (l2 s) = (Ok (c', s'), d') -> file_runs c' s'
  | file_failed c s config c' e d' : file_runs c s -> validateFileIOCacheConfig config = Ok c' ->
      NewFileIOCacheWithContext config (l2 s) = (Err e, d') -> file_runs c' (with_closing true (empty_cache d')).

Context (Hwf : forall i, i ∈ used -> wf_identity i) (Htell : sha_tells) (i0 : FileCacheIdentity) (Hi0 : i0 ∈ used).

(** The content that belongs to a key. *)
Definition content_of (k : list Z) : list Z :=
  match List.find (fun j => bool_decide (buildFileCacheKey j = k)) used with Some j => file j | None => file i0 end.

Lemma content_used k : exists j, j ∈ used /\ content_of k = file j.
Proof using Hi0.
  unfold content_of. destruct (List.find _ used) as [j|] eqn:E; [|by exists i0].
  apply List.find_some in E as [Hj _]. exists j. by rewrite list_elem_of_In.
Qed.
Lemma content_key j : j ∈ used -> content_of (buildFileCacheKey j) = file j.
Proof using Hwf Htell.
  intros Hj. unfold content_of. destruct (List.find _ used) as [x|] eqn:E.
  - apply List.find_some in E as [Hx Ek%bool_decide_eq_true]. apply list_elem_of_In in Hx.
    f_equal. apply key_bytes_inj; [by apply Hwf..|]. by apply (st_keys Htell).
  - apply list_elem_of_In in Hj. pose proof (List.find_none _ _ E j Hj) as Hn. cbn in Hn. by apply bool_decide_eq_false in Hn.
Qed.
Lemma content_collision : no_collision content_of.
Proof using Htell Hi0.
  intros k data. destruct (content_used k) as (j & Hj & ->). by apply (st_files Htell).
Qed.

Lemma file_runs_runs c s : file_runs c s -> runs content_of c s.
Proof using Hwf Htell.
  induction 1 as [config d c s d' Hn Hi E|c s i load _ IH Hu Hh|c s r _ IH Ho|c s path data t _ IH Hp|c s path _ IH|
    c s _ IH|c s config c' s' d' _ IH E|c s config c' e d' _ IH Hv E].
  - eapply run_first; [|exact Hi|exact E]. intros p f e Hf Hs Hp.
    destruct (Hn p f e Hf Hs Hp) as (j & Hj & <- & ->). by rewrite content_key.
  - apply run_load; [done|apply (wi_size _ (Hwf _ Hu))|]. unfold key_of. fold (bound c i). by rewrite content_key.
  - by apply run_release.
  - by apply run_put.
  - by apply run_lost.
  - by apply run_close.
  - by eapply run_restart.
  - by eapply run_failed.
Qed.
End Files.

(** C13: Let every identity that is loaded be one of [used], with fields in their ranges,
    and let SHA-256 have no collision among the keys of these and with their files. Then,
    over any run of the I/O cache for any number of files, with files on disk replaced, lost
    or left behind, calls on the file system that fail, restarts under other configurations
    and a memory cache that drops what it likes: what [Load] returns for an identity delivers
    the content of that very file (under the storage binding of the configuration), never of
    another one or of another state of it, or is a stream of the loader itself; and when the
    loader delivers the file, [Load] succeeds and its reader delivers the content, whatever
    the disk does. Calls run one after the other. *)
Theorem cache_transparent `{!Sha} `{!CacheLib} `{!CacheLaws} file used c s i load :
  (forall i, i ∈ used -> wf_identity i) -> sha_tells file used -> file_runs file used c s ->
  bound c i ∈ used -> honest (file (bound c i)) load ->
  (forall rd s', Load c i load s = (Ok rd, s') -> serves load (file (bound c i)) rd) /\
  (0 <= Size i -> closing s = false -> closed s = false -> reliable load -> zlen (file (bound c i)) = Size i ->
   exists rd s', Load c i load s = (Ok rd, s') /\ reader_data rd = file (bound c i)).
Proof.
  intros Hwf Htell Hruns Hu Hh. set (content := content_of file used (bound c i)).
  assert (content (key_of c i) = file (bound c i)) as E by (by apply content_key).
  pose proof (content_collision file used Htell (bound c i) Hu) as Hnc.
  pose proof (file_runs_runs file used Hwf Htell (bound c i) c s Hruns) as Hr. fold content in Hnc, Hr. rewrite <- E in Hh |- *.
  destruct (Load_run content c i load s Hnc (proj2 (wi_size _ (Hwf _ Hu))) Hh (runs_inv content c s Hnc Hr)) as [_ Hl].
  destruct (Load c i load s) as [r s1]. cbn [fst snd] in Hl. split; [by intros rd s' [= -> ->]|].
  intros Hpos Hc1 Hc2 Hrel Hz. destruct r as [rd|e].
  - exists rd, s1. split; [done|]. destruct rd as [raw|id data|location data|st]; try done. destruct Hl as [n Hst].
    destruct (Hrel n) as (st' & Hst' & Hcomp & _). rewrite Hst in Hst'. injection Hst' as <-. by eapply Hh.
  - exfalso. destruct Hl as [|[|[|Hb]]]; [lia|congruence..|]. by apply Hb.
Qed.

(** C14: over the same runs the index of the disk cache lists no entry twice, its account of
    the costs is their sum and within the configured size, and so are the files it lists. *)
Theorem cache_within_budget `{!Sha} `{!CacheLib} `{!CacheLaws} content c s :
  no_collision content -> runs content c s -> DisableL2Cache c = false ->
  let d := l2 s in
  NoDup (dc_lru d) /\ dc_usedCost d = sumZ (map (cost_at (dc_heap d)) (dc_lru d)) /\
  0 <= dc_usedCost d <= L2CacheSize c /\ sumZ (map (size_at (dc_heap d)) (dc_lru d)) <= L2CacheSize c.
Proof.
  intros Hnc Hruns Hl d. pose proof (iv_disk _ _ _ (runs_inv content c s Hnc Hruns) Hl) as Hg.
  pose proof (good_used content _ _ Hg) as Hused. destruct Hg as [[Hn Hlist Hk Hu Hb] _ _ _].
  fold d in Hn, Hu, Hlist, Hused. split_and!; [done|done|lia|lia|]. transitivity (dc_usedCost d); [|lia]. rewrite Hu. clear - Hlist.
  assert (forall id, id ∈ dc_lru d -> size_at (dc_heap d) id <= cost_at (dc_heap d) id) as Hle.
  { intros id Hid. destruct (Hlist id Hid) as (e & He & _ & _ & Hs). unfold size_at, cost_at. by rewrite He. }
  clear Hlist. induction (dc_lru d) as [|id l IH]; [done|]. rewrite !map_cons, !sum_cons.
  pose proof (Hle id ltac:(by left)). specialize (IH ltac:(intros; apply Hle; by right)). lia.
Qed.

(** ** Witnesses *)

(** A digest that tells two contents and the keys of two identities from the rest; UUIDs that count; a disk whose fifteenth
    call fails; a memory cache that keeps everything. *)
Definition demo_data : list Z := [7; 7; 7].
Definition other_data : list Z := [8; 8; 8].
Definition demo_identity : FileCacheIdentity :=
  {| StorageBinding := replicate 32 0; FileID := 1; Size := 3; PartCount := 1; State := 2; LayoutVersion := 1; Ctime := 10;
     Mtime := 11; ExtInfo := "" |}.
(** The file as it was before it was written again. *)
Definition other_identity : FileCacheIdentity :=
  {| StorageBinding := replicate 32 0; FileID := 1; Size := 3; PartCount := 1; State := 2; LayoutVersion := 1; Ctime := 10;
     Mtime := 12; ExtInfo := "" |}.
Definition demo_file (i : FileCacheIdentity) : list Z := if Mtime i =? 12 then other_data else demo_data.
#[local] Instance demo_sha : Sha :=
  {| sha1 _ := replicate 20 0;
     sha256 d := if bool_decide (d = demo_data) then replicate 32 1 else if bool_decide (d = other_data) then replicate 32 3
                 else if bool_decide (d = key_bytes other_identity) then replicate 32 4 else replicate 32 2 |}.
#[local] Instance demo_lib : CacheLib :=
  {| NewString n := FormatUint (Z.of_nat n); uuid_Parse s := Some s; decode_manifest _ := None; encode_manifest _ := [];
     disk_fault n := Nat.eqb n 29; file_time n := Z.of_nat n; l1_policy _ m := m |}.
#[local] Instance demo_laws : CacheLaws.
Proof.
  split.
  - intros data. cbn [sha256 demo_sha]. repeat case_bool_decide; apply Forall_replicate; unfold is_byte; lia.
  - intros data. cbn [sha256 demo_sha]. by repeat case_bool_decide.
  - done.
  - intros n. by apply format_no_byte; [lia|..].
  - intros n. by apply format_no_byte; [lia|..].
  - done.
Qed.
Lemma demo_no_collision : no_collision (fun _ => demo_data).
Proof.
  intros k data. cbn [sha256 demo_sha]. case_bool_decide as E; [done|]. rewrite (bool_decide_eq_true_2 (demo_data = demo_data)) by done.
  by repeat case_bool_decide.
Qed.
Lemma demo_tells : sha_tells demo_file [demo_identity; other_identity].
Proof.
  split.
  - intros i j Hi Hj.
    repeat (apply elem_of_cons in Hi as [->|Hi]); repeat (apply elem_of_cons in Hj as [->|Hj]); try (by apply elem_of_nil in Hi);
      try (by apply elem_of_nil in Hj); try done; intros E; vm_compute in E; discriminate E.
  - intros i data Hi. repeat (apply elem_of_cons in Hi as [->|Hi]); [..|by apply elem_of_nil in Hi]; cbn [demo_file Mtime demo_identity other_identity];
      cbn [sha256 demo_sha]; repeat case_bool_decide; try done; congruence.
Qed.
Lemma demo_wf i : i ∈ [demo_identity; other_identity] -> wf_identity i.
Proof. intros Hi. repeat (apply elem_of_cons in Hi as [->|Hi]); [..|by apply elem_of_nil in Hi]; split; cbn; lia || done. Qed.

Definition demo_config : FileIOCacheConfig :=
  {| DisableL1Cache := true; L1CacheSize := 0; L1KeySizeLimit := 0; DisableL2Cache := false; L2CacheSize := 8192;
     L2KeySizeLimit := 4096; L2CacheDir := "/cache"; ConfigBinding := replicate 32 0 |}.
Definition demo_load : loader := fun _ =>
  Ok {| st_source := {| src_data := demo_data; src_err := None |}; st_seek := true; st_close := None |}.

Definition demo_started : fileIOCacheImpl :=
  match NewFileIOCacheWithContext demo_config (blank ∅ 0 0 0) with (Ok (_, s), _) => s | (_, d) => empty_cache d end.
Definition demo_filled : fileIOCacheImpl := (Load demo_config demo_identity demo_load demo_started).2.
(** The file of the entry is replaced by another one of the same size. *)
Definition demo_path : string :=
  match dc_heap (l2 demo_filled) with e :: _ => e_path e | [] => "" end.
Definition demo_replaced : fileIOCacheImpl := with_l2 (put_file demo_path [9; 9; 9] 5 (l2 demo_filled)) demo_filled.

Lemma demo_runs : runs (fun _ => demo_data) demo_config demo_filled.
Proof.
  unfold demo_filled. apply run_load; [|by vm_compute|by intros n st [= <-]].
  refine (run_first (fun _ => demo_data) demo_config (blank ∅ 0 0 0) demo_config demo_started
    (NewFileIOCacheWithContext demo_config (blank ∅ 0 0 0)).2 _ _ _).
  - intros p f e Hf. cbn in Hf. by apply lookup_empty_Some in Hf.
  - intros p f Hf. cbn in Hf. by apply lookup_empty_Some in Hf.
  - vm_compute. reflexivity.
Qed.
Lemma demo_file_runs : file_runs demo_file [demo_identity; other_identity] demo_config demo_filled.
Proof.
  unfold demo_filled. apply file_load; [|left|by intros n st [= <-]].
  refine (file_first _ _ demo_config (blank ∅ 0 0 0) demo_config demo_started
    (NewFileIOCacheWithContext demo_config (blank ∅ 0 0 0)).2 _ _ _).
  - intros p f e Hf. cbn in Hf. by apply lookup_empty_Some in Hf.
  - intros p f Hf. cbn in Hf. by apply lookup_empty_Some in Hf.
  - vm_compute. reflexivity.
Qed.
Definition other_load : loader := fun _ =>
  Ok {| st_source := {| src_data := other_data; src_err := None |}; st_seek := true; st_close := None |}.

(** With the file cached and its copy on disk replaced, the file as it was written later is
    loaded. *)
Lemma cache_transparent_witness :
  file_runs demo_file [demo_identity; other_identity] demo_config demo_replaced /\
  dc_files (l2 demo_replaced) !! demo_path = Some {| cf_data := [9; 9; 9]; cf_ino := 2; cf_mtime := 5 |} /\
  (exists rd s', Load demo_config demo_identity demo_load demo_replaced = (Ok rd, s') /\ reader_data rd = demo_data) /\
  exists rd s', Load demo_config other_identity other_load demo_replaced = (Ok rd, s') /\ reader_data rd = other_data.
Proof.
  assert (file_runs demo_file [demo_identity; other_identity] demo_config demo_replaced) as Hruns.
  { apply file_put; [exact demo_file_runs|]. left. vm_compute. by eexists. }
  split; [exact Hruns|]. split; [vm_compute; reflexivity|]. split.
  - apply (cache_transparent demo_file [demo_identity; other_identity] demo_config demo_replaced demo_identity demo_load);
      [exact demo_wf|exact demo_tells|exact Hruns|left|by intros n st [= <-]|done|vm_compute; reflexivity|vm_compute; reflexivity
      |by intros n; eexists|done].
  - apply (cache_transparent demo_file [demo_identity; other_identity] demo_config demo_replaced other_identity other_load);
      [exact demo_wf|exact demo_tells|exact Hruns|right; left|by intros n st [= <-]|done|vm_compute; reflexivity|vm_compute; reflexivity
      |by intros n; eexists|done].
Defined.

Lemma cache_within_budget_witness :
  dc_usedCost (l2 demo_filled) = 4096 /\ dc_usedCost (l2 demo_filled) <= L2CacheSize demo_config.
Proof.
  split; [vm_compute; reflexivity|].
  apply (cache_within_budget (fun _ => demo_data) demo_config demo_filled demo_no_collision demo_runs eq_refl).
Defined.
