(* ===== verification/BackupFmt.v ===== *)
(** * The backup format (src/backupfmt: model.go, validate.go, strictjson.go)

    A backup archive holds a manifest: files with their parts or segments, directories,
    mappings from paths to files, S3 metadata and WebDAV properties. [ValidateManifest]
    decides which manifests are accepted, both when an archive is written and when one is
    read. What encoding/json, encoding/xml and package time do is a parameter: the events
    their decoders report. *)

From stdpp Require Import base strings list gmap.
From Stdlib Require Import Ascii.
From S2P Require Import Prelude GoStr Base64 Checksum Store S3Object FileManager Multipart.

Module BackupFmt.
Import S3Object (TrimSpace, HasPrefix).
Import FileManager (string_bytes).
Import Multipart (MaxInt64, indexed).

(** ** model.go *)

Definition FormatName : string := "tgfile-logical-backup".
Definition FormatVersion : Z := 2.
Definition FormatEntry : string := "format.json".
Definition ManifestEntry : string := "manifest.json".

Record FormatHeader := { fh_Format : string; fh_Version : Z }.
Record Source := { so_SchemaVersion : Z; so_BlockIOKind : string; so_MaxPartSize : Z }.
Record Summary := {
  sum_MappingCount : Z; sum_DirectoryCount : Z; sum_FileCount : Z; sum_PartCount : Z;
  sum_PhysicalBytes : Z }.
Record RequiredBucket := { rb_Name : string; rb_ACL : string }.
Record Part := { part_Index : Z; part_Size : Z; part_MD5 : string; part_SHA256 : string; part_Entry : string }.
Record Segment := { seg_Index : Z; seg_SourceRef : string; seg_Size : Z }.
Record CompletedPart := {
  cpt_PartNumber : Z; cpt_PartSize : Z; cpt_ChecksumState : string; cpt_ChecksumAlgorithm : string;
  cpt_ChecksumValue : string; cpt_Ctime : Z; cpt_Mtime : Z }.
Record File := {
  file_Ref : string; file_SourceFileID : string; file_LayoutVersion : Z; file_Size : Z;
  file_CompatibilityMD5 : string; file_Ctime : Z; file_Mtime : Z; file_Parts : list Part;
  file_Segments : list Segment; file_CompletedParts : list CompletedPart }.
Record Directory := { dir_Path : string; dir_Mode : Z; dir_Ctime : Z; dir_Mtime : Z }.
Record Mapping := {
  map_Path : string; map_FileRef : string; map_Size : Z; map_Mode : Z; map_Ctime : Z; map_Mtime : Z }.
Record S3Object := {
  obj_Path : string; obj_ETag : string; obj_ChecksumSHA256 : string;
  obj_RequestChecksumAlgorithm : string; obj_RequestChecksumValue : string; obj_ChecksumType : string;
  obj_ContentType : string; obj_CacheControl : string; obj_ContentDisposition : string;
  obj_ContentEncoding : string; obj_ContentLanguage : string; obj_Expires : string;
  obj_UserMetadata : string; obj_Ctime : Z; obj_Mtime : Z }.
Record WebDAVProperty := {
  prop_Path : string; prop_NamespaceURI : string; prop_LocalName : string; prop_ValueXML : string;
  prop_Ctime : Z; prop_Mtime : Z }.
Record Manifest := {
  mf_Format : string; mf_Version : Z; mf_CreatedAt : string; mf_Scope : string; mf_Source : Source;
  mf_Limits : Summary; mf_RequiredBuckets : list RequiredBucket; mf_Files : list File;
  mf_Directories : list Directory; mf_Mappings : list Mapping; mf_S3Objects : list S3Object;
  mf_WebDAVProperties : list WebDAVProperty }.
Record Limits := {
  lim_MaxArchiveBytes : Z; lim_MaxExpandedBytes : Z; lim_MaxMappingCount : Z; lim_MaxFileCount : Z;
  lim_MaxPartCount : Z; lim_MaxPathBytes : Z; lim_MaxManifestBytes : Z; lim_MaxPropertyBytes : Z;
  lim_MaxUserMetaBytes : Z }.
Record Report := { rep_ArtifactSHA256 : string; rep_ArtifactBytes : Z; rep_Summary : Summary }.

#[global] Instance Summary_eq_dec : EqDecision Summary.
Proof. solve_decision. Defined.

Definition DefaultLimits : Limits :=
  {| lim_MaxArchiveBytes := 100 * 1024 * 1024 * 1024; lim_MaxExpandedBytes := 1024 * 1024 * 1024 * 1024;
     lim_MaxMappingCount := 100000; lim_MaxFileCount := 100000; lim_MaxPartCount := 1000000;
     lim_MaxPathBytes := 1024; lim_MaxManifestBytes := 256 * 1024 * 1024;
     lim_MaxPropertyBytes := 1024 * 1024; lim_MaxUserMetaBytes := 8 * 1024 |}.

(** ** Text *)

(** [len(s)] *)
Definition slen (s : string) : Z := Z.of_nat (String.length s).

(** [utf8.Valid] *)
Definition in_range (lo hi b : Z) : bool := (lo <=? b) && (b <=? hi).
Definition tail_byte (b : Z) : bool := in_range 0x80 0xBF b.
Fixpoint utf8_Valid (l : list Z) : bool :=
  match l with
  | [] => true
  | b :: l1 =>
      if b <? 0x80 then utf8_Valid l1
      else
        match l1 with
        | [] => false
        | b1 :: l2 =>
            if in_range 0xC2 0xDF b then tail_byte b1 && utf8_Valid l2
            else
              match l2 with
              | [] => false
              | b2 :: l3 =>
                  if in_range 0xE0 0xEF b then
                    in_range (if b =? 0xE0 then 0xA0 else 0x80) (if b =? 0xED then 0x9F else 0xBF) b1 &&
                    tail_byte b2 && utf8_Valid l3
                  else
                    match l3 with
                    | [] => false
                    | b3 :: l4 =>
                        in_range 0xF0 0xF4 b &&
                        in_range (if b =? 0xF0 then 0x90 else 0x80) (if b =? 0xF4 then 0x8F else 0xBF) b1 &&
                        tail_byte b2 && tail_byte b3 && utf8_Valid l4
                    end
              end
        end
  end.

(** [for _, character := range value]: a character below 0x80 is a byte of its own, in
    valid text and in invalid text. *)
Definition is_control (b : Z) : bool := (b <? 0x20) || (b =? 0x7f).
Definition containsControl (value : string) : bool := existsb is_control (string_bytes value).

(** [strings.Contains] *)
Fixpoint Contains (s sub : string) : bool :=
  String.prefix sub s || match s with String _ s' => Contains s' sub | EmptyString => false end.

(** [fmt.Sprintf("%08d", n)] *)
Fixpoint pad_zeros (n : nat) (s : string) : string :=
  match n with O => s | S n => String "0"%char (pad_zeros n s) end.
Definition format08 (n : Z) : string :=
  let s := FormatUint n in pad_zeros (8 - String.length s) s.

Definition all_chars (p : ascii -> bool) (s : string) : bool := forallb p (String.list_ascii_of_string s).

(** [^f[0-9]{8}$] *)
Definition fileRefPattern (s : string) : bool :=
  match s with
  | String c rest => Ascii.eqb c "f"%char && (slen rest =? 8) && all_chars is_digit rest
  | EmptyString => false
  end.

(** [^[a-z0-9][a-z0-9.-]{1,61}[a-z0-9]$] *)
Definition is_alnum (c : ascii) : bool := is_digit c || in_range 97 122 (Z.of_N (N_of_ascii c)).
Definition bucketNamePattern (s : string) : bool :=
  let l := String.list_ascii_of_string s in
  in_range 3 63 (zlen l) &&
  forallb (fun c => is_alnum c || Ascii.eqb c "."%char || Ascii.eqb c "-"%char) l &&
  match head l with Some c => is_alnum c | None => false end &&
  match last l with Some c => is_alnum c | None => false end.

Definition isHex (value : string) (bytes : Z) : bool :=
  (slen value =? bytes * 2) && String.eqb value (Multipart.ToLower value) &&
  match Base64.hex_decode value with Ok decoded => zlen decoded =? bytes | Err _ => false end.

(** ** strictjson.go *)

(** What [json.Decoder] reports: tokens, and then nothing more or an error. *)
Inductive json_token := JOpenObject | JCloseObject | JOpenArray | JCloseArray | JString (s : string) | JScalar.
Inductive json_event := JToken (t : json_token) | JBad.

(** [decoder.More()] *)
Definition More (evs : list json_event) : bool :=
  match evs with
  | [] | JToken JCloseObject :: _ | JToken JCloseArray :: _ => false
  | _ => true
  end.

(** Each returns the events that are left. *)
Fixpoint consumeJSONValue (fuel : nat) (evs : list json_event) : outcome (list json_event) :=
  match fuel with
  | O => Err Diverge
  | S fuel =>
      match evs with
      | [] => Err EOF
      | JBad :: _ => Err ErrOther
      | JToken JOpenObject :: evs => consumeJSONObject fuel ∅ evs
      | JToken JOpenArray :: evs => consumeJSONArray fuel evs
      | JToken JCloseObject :: _ | JToken JCloseArray :: _ => Err ErrMalformedJSON
      | JToken _ :: evs => Ok evs
      end
  end
with consumeJSONObject (fuel : nat) (fields : gset string) (evs : list json_event) : outcome (list json_event) :=
  match fuel with
  | O => Err Diverge
  | S fuel =>
      if More evs then
        match evs with
        | JToken (JString name) :: evs =>
            if decide (name ∈ fields) then Err ErrMalformedJSON
            else
              evs ← consumeJSONValue fuel evs;
              consumeJSONObject fuel ({[name]} ∪ fields) evs
        | JToken _ :: _ => Err ErrMalformedJSON
        | _ => Err ErrOther
        end
      else
        match evs with
        | JToken JCloseObject :: evs => Ok evs
        | JToken _ :: _ => Err ErrMalformedJSON
        | _ => Err EOF
        end
  end
with consumeJSONArray (fuel : nat) (evs : list json_event) : outcome (list json_event) :=
  match fuel with
  | O => Err Diverge
  | S fuel =>
      if More evs then
        evs ← consumeJSONValue fuel evs;
        consumeJSONArray fuel evs
      else
        match evs with
        | JToken JCloseArray :: evs => Ok evs
        | JToken _ :: _ => Err ErrMalformedJSON
        | _ => Err EOF
        end
  end.

Definition rejectDuplicateJSONFields (evs : list json_event) : outcome unit :=
  rest ← consumeJSONValue (S (length evs)) evs;
  match rest with [] => Ok tt | _ => Err ErrOther end.

(** What [xml.Decoder] reports. *)
Inductive xml_event := XStart (space local : string) | XEnd (space local : string) | XText | XBad.

(** Packages encoding/json, encoding/xml, time and net/http: whether a text is a time; the
    events of a text; and the value of a JSON text for each type the code decodes, with
    unknown fields refused. *)
Class ArchiveLib := {
  parse_RFC3339 : string -> bool;
  parse_http_time : string -> bool;
  json_events : list Z -> list json_event;
  json_string_map : list Z -> option (list (string * string));
  json_format : list Z -> option FormatHeader;
  json_manifest : list Z -> option Manifest;
  marshal_format : FormatHeader -> list Z;
  marshal_manifest : Manifest -> list Z;
  xml_events : string -> list xml_event }.

Section Validate.
Context `{!ArchiveLib} `{!FileCodec} `{!Sha}.

(** The second [Decode], which expects the end, repeats what
    [rejectDuplicateJSONFields] has found. *)
Definition decodeStrictJSON {T} (decode : list Z -> option T) (raw : list Z) : outcome T :=
  if negb (utf8_Valid raw) then Err ErrMalformedJSON
  else
    _ ← rejectDuplicateJSONFields (json_events raw);
    match decode raw with None => Err ErrOther | Some v => Ok v end.

(** ** validate.go *)

Definition emptyMD5 : string := "d41d8cd98f00b204e9800998ecf8427e".

(** [if b { return e }] *)
Definition refuse (b : bool) (e : err) : outcome unit := if b then Err e else Ok tt.
Fixpoint all_ok {A} (f : A -> outcome unit) (l : list A) : outcome unit :=
  match l with [] => Ok tt | a :: l => _ ← f a; all_ok f l end.

Definition validatePath (value : string) (maxBytes : Z) (allowRoot : bool) : outcome unit :=
  if String.eqb value "" || (maxBytes <? slen value) || negb (utf8_Valid (string_bytes value))
  then Err ErrInvalidArchive
  else if negb (HasPrefix value "/") || negb (String.eqb (path_clean value) value) || Contains value "\"
  then Err ErrInvalidArchive
  else if String.eqb value "/" && negb allowRoot then Err ErrInvalidArchive
  else refuse (containsControl value) ErrInvalidArchive.

Definition validateCounts (manifest : Manifest) (limits : Limits) : outcome unit :=
  if lim_MaxMappingCount limits <? zlen (mf_Mappings manifest) then Err ErrLimitExceeded
  else if lim_MaxFileCount limits <? zlen (mf_Files manifest) then Err ErrLimitExceeded
  else refuse (lim_MaxMappingCount limits <? zlen (mf_Directories manifest)) ErrLimitExceeded.

Definition validateManifestHeader (manifest : Manifest) (limits : Limits) : outcome unit :=
  if negb (String.eqb (mf_Format manifest) FormatName) || negb (mf_Version manifest =? FormatVersion)
  then Err ErrInvalidArchive
  else if negb (parse_RFC3339 (mf_CreatedAt manifest)) then Err ErrInvalidArchive
  else
    _ ← validatePath (mf_Scope manifest) (lim_MaxPathBytes limits) true;
    let source := mf_Source manifest in
    if (so_SchemaVersion source <? 1) || String.eqb (so_BlockIOKind source) "" || (so_MaxPartSize source <? 1)
    then Err ErrInvalidArchive
    else validateCounts manifest limits.

(** *** Files *)

Definition compatibilityMD5 (file : File) : string :=
  match file_Parts file with
  | [] => "d41d8cd98f00b204e9800998ecf8427e"
  | [part] => part_MD5 part
  | parts => md5_hex (concat (map (fun part => string_bytes (part_MD5 part)) parts))
  end.

Definition part_entry (fileRef : string) (index : Z) : string :=
  "parts/" +:+ fileRef +:+ "/" +:+ format08 index +:+ ".bin".

Definition validatePhysicalPart (fileRef : string) (part : Part) (index targetMaxPartSize currentSize : Z)
    : outcome unit :=
  if negb (part_Index part =? index) || (part_Size part <=? 0) || (targetMaxPartSize <? part_Size part) ||
     negb (isHex (part_MD5 part) 16) || negb (isHex (part_SHA256 part) 32) ||
     negb (String.eqb (part_Entry part) (part_entry fileRef index))
  then Err ErrInvalidArchive
  else refuse (MaxInt64 - part_Size part <? currentSize) ErrLimitExceeded.

(** The loop over the parts, with [total]. *)
Fixpoint physical_parts_loop (fileRef : string) (targetMaxPartSize : Z) (parts : list (Z * Part)) (total : Z)
    : outcome Z :=
  match parts with
  | [] => Ok total
  | (index, part) :: parts =>
      _ ← validatePhysicalPart fileRef part index targetMaxPartSize total;
      physical_parts_loop fileRef targetMaxPartSize parts (total + part_Size part)
  end.

Definition validatePhysicalFile (file : File) (targetMaxPartSize : Z) : outcome unit :=
  if negb (bool_decide (length (file_Segments file) = 0%nat)) ||
     negb (bool_decide (length (file_CompletedParts file) = 0%nat))
  then Err ErrInvalidArchive
  else if file_Size file =? 0 then
    refuse (negb (bool_decide (length (file_Parts file) = 0%nat)) ||
            negb (String.eqb (file_CompatibilityMD5 file) emptyMD5)) ErrInvalidArchive
  else if bool_decide (length (file_Parts file) = 0%nat) then Err ErrInvalidArchive
  else
    total ← physical_parts_loop (file_Ref file) targetMaxPartSize (indexed (file_Parts file)) 0;
    if negb (total =? file_Size file) then Err ErrInvalidArchive
    else refuse (negb (String.eqb (compatibilityMD5 file) (file_CompatibilityMD5 file))) ErrChecksum.

Definition validateCompletedChecksum (part : CompletedPart) : outcome unit :=
  if String.eqb (cpt_ChecksumState part) "unavailable" then
    refuse (negb (String.eqb (cpt_ChecksumAlgorithm part) "") ||
            negb (String.eqb (cpt_ChecksumValue part) "")) ErrInvalidArchive
  else if String.eqb (cpt_ChecksumState part) "available" then
    match Checksum.ParseAlgorithm (cpt_ChecksumAlgorithm part) with
    | Err _ => Err ErrInvalidArchive
    | Ok algorithm =>
        if String.eqb (cpt_ChecksumValue part) "" then Err ErrInvalidArchive
        else
          match Checksum.Decode sha1 sha256 algorithm (cpt_ChecksumValue part) with
          | Err _ => Err ErrInvalidArchive
          | Ok _ => Ok tt
          end
    end
  else Err ErrInvalidArchive.

Fixpoint segments_loop (segments : list (Z * Segment)) (total : Z) : outcome Z :=
  match segments with
  | [] => Ok total
  | (index, segment) :: segments =>
      if negb (seg_Index segment =? index) || negb (fileRefPattern (seg_SourceRef segment)) ||
         (seg_Size segment <? 0)
      then Err ErrInvalidArchive
      else if MaxInt64 - seg_Size segment <? total then Err ErrLimitExceeded
      else segments_loop segments (total + seg_Size segment)
  end.

(** [file.Segments[index]] is there: the lists are equally long. *)
Fixpoint completed_loop (parts : list (Z * (CompletedPart * Segment))) (completedSize : Z) : outcome Z :=
  match parts with
  | [] => Ok completedSize
  | (index, (part, segment)) :: parts =>
      if negb (cpt_PartNumber part =? index + 1) || negb (cpt_PartSize part =? seg_Size segment)
      then Err ErrInvalidArchive
      else
        _ ← validateCompletedChecksum part;
        completed_loop parts (completedSize + cpt_PartSize part)
  end.

Definition validateCompositeShape (file : File) : outcome unit :=
  if negb (bool_decide (length (file_Parts file) = 0%nat)) || bool_decide (length (file_Segments file) = 0%nat)
  then Err ErrInvalidArchive
  else
    total ← segments_loop (indexed (file_Segments file)) 0;
    if negb (total =? file_Size file) then Err ErrInvalidArchive
    else if negb (bool_decide (length (file_CompletedParts file) = length (file_Segments file)))
    then Err ErrInvalidArchive
    else
      completedSize ← completed_loop (indexed (zip (file_CompletedParts file) (file_Segments file))) 0;
      refuse (negb (completedSize =? file_Size file)) ErrInvalidArchive.

Definition validateFileRecord (file : File) (existing : gmap string File) (targetMaxPartSize : Z) : outcome unit :=
  if negb (fileRefPattern (file_Ref file)) then Err ErrInvalidArchive
  else if bool_decide (is_Some (existing !! file_Ref file)) then Err ErrInvalidArchive
  else
    let sourceID := match ParseUint (file_SourceFileID file) with Ok id => id | Err _ => 0 end in
    if (sourceID =? 0) || (file_Size file <? 0) || negb (isHex (file_CompatibilityMD5 file) 16)
    then Err ErrInvalidArchive
    else if file_LayoutVersion file =? 1 then validatePhysicalFile file targetMaxPartSize
    else if file_LayoutVersion file =? 2 then validateCompositeShape file
    else Err ErrInvalidArchive.

Fixpoint addPhysicalParts (parts : list Part) (partCount physicalBytes : Z) (limits : Limits) : outcome (Z * Z) :=
  match parts with
  | [] => Ok (partCount, physicalBytes)
  | part :: parts =>
      if (partCount =? MaxInt64) || (MaxInt64 - part_Size part <? physicalBytes) then Err ErrLimitExceeded
      else
        let partCount := partCount + 1 in
        let physicalBytes := physicalBytes + part_Size part in
        if lim_MaxPartCount limits <? partCount then Err ErrLimitExceeded
        else if lim_MaxExpandedBytes limits <? physicalBytes then Err ErrLimitExceeded
        else addPhysicalParts parts partCount physicalBytes limits
  end.

Definition validateCompositeSegment (fileByRef : gmap string File) (seenSources : gset string) (segment : Segment)
    : outcome (gset string) :=
  match fileByRef !! seg_SourceRef segment with
  | None => Err ErrInvalidArchive
  | Some source =>
      if negb (file_LayoutVersion source =? 1) || negb (file_Size source =? seg_Size segment)
      then Err ErrInvalidArchive
      else if decide (seg_SourceRef segment ∈ seenSources) then Err ErrInvalidArchive
      else Ok ({[seg_SourceRef segment]} ∪ seenSources)
  end.
Fixpoint sources_loop (fileByRef : gmap string File) (segments : list Segment) (seenSources : gset string)
    : outcome unit :=
  match segments with
  | [] => Ok tt
  | segment :: segments =>
      seenSources ← validateCompositeSegment fileByRef seenSources segment;
      sources_loop fileByRef segments seenSources
  end.

Definition validateCompositeReferences (files : list File) (fileByRef : gmap string File) : outcome unit :=
  all_ok (fun file =>
    if negb (file_LayoutVersion file =? 2) then Ok tt
    else sources_loop fileByRef (file_Segments file) ∅) files.

Fixpoint files_loop (files : list File) (limits : Limits) (targetMaxPartSize : Z) (fileByRef : gmap string File)
    (partCount physicalBytes : Z) (lastRef : string) : outcome (gmap string File * Z * Z) :=
  match files with
  | [] => Ok (fileByRef, partCount, physicalBytes)
  | file :: files =>
      if String.leb (file_Ref file) lastRef then Err ErrInvalidArchive
      else
        _ ← validateFileRecord file fileByRef targetMaxPartSize;
        r ← addPhysicalParts (file_Parts file) partCount physicalBytes limits;
        files_loop files limits targetMaxPartSize (<[file_Ref file := file]> fileByRef) r.1 r.2 (file_Ref file)
  end.

Definition validateFiles (files : list File) (limits : Limits) (targetMaxPartSize : Z)
    : outcome (gmap string File * Z * Z) :=
  r ← files_loop files limits targetMaxPartSize ∅ 0 0 "";
  _ ← validateCompositeReferences files r.1.1;
  Ok r.
(** *** Paths *)

(** The loops keep the paths seen and the last one. *)
Fixpoint directories_loop (items : list Directory) (limits : Limits) (directories : gset string) (lastPath : string)
    : outcome (gset string) :=
  match items with
  | [] => Ok directories
  | item :: items =>
      if String.eqb (dir_Path item) "/" then Err ErrInvalidArchive
      else
        _ ← validatePath (dir_Path item) (lim_MaxPathBytes limits) true;
        if decide (dir_Path item ∈ directories) then Err ErrInvalidArchive
        else if String.leb (dir_Path item) lastPath || (511 <? dir_Mode item) then Err ErrInvalidArchive
        else directories_loop items limits ({[dir_Path item]} ∪ directories) (dir_Path item)
  end.

(** The parent of a path is the root or a stored directory. *)
Definition parent_stored (directories : gset string) (value : string) : bool :=
  let parent := path_dir value in
  String.eqb parent "/" || bool_decide (parent ∈ directories).

Definition validateDirectories (items : list Directory) (limits : Limits) : outcome (gset string) :=
  directories ← directories_loop items limits ∅ "";
  if forallb (parent_stored directories) (elements directories) then Ok directories
  else Err ErrInvalidArchive.

Fixpoint mappings_loop (items : list Mapping) (files : gmap string File) (directories : gset string)
    (limits : Limits) (mappings : gset string) (lastPath : string) : outcome (gset string) :=
  match items with
  | [] => Ok mappings
  | item :: items =>
      _ ← validatePath (map_Path item) (lim_MaxPathBytes limits) false;
      if match files !! map_FileRef item with
         | Some file => negb (file_Size file =? map_Size item)
         | None => true
         end
      then Err ErrInvalidArchive
      else if decide (map_Path item ∈ mappings) then Err ErrInvalidArchive
      else if String.leb (map_Path item) lastPath || (511 <? map_Mode item) then Err ErrInvalidArchive
      else if decide (map_Path item ∈ directories) then Err ErrInvalidArchive
      else if negb (parent_stored directories (map_Path item)) then Err ErrInvalidArchive
      else mappings_loop items files directories limits ({[map_Path item]} ∪ mappings) (map_Path item)
  end.

Definition validateMappings (items : list Mapping) (files : gmap string File) (directories : gset string)
    (limits : Limits) : outcome (gset string) := mappings_loop items files directories limits ∅ "".

Definition pathWithinScope (value scope : string) : bool :=
  String.eqb scope "/" || String.eqb value scope || HasPrefix value (scope +:+ "/").

Definition validateScopeContents (scope : string) (directories : list Directory) (mappings : list Mapping)
    : outcome unit :=
  _ ← all_ok (fun item => refuse (negb (pathWithinScope (map_Path item) scope)) ErrInvalidArchive) mappings;
  all_ok (fun item => refuse (negb (pathWithinScope (dir_Path item) scope) &&
                              negb (pathWithinScope scope (dir_Path item))) ErrInvalidArchive) directories.

(** *** Protocol metadata *)

Fixpoint buckets_loop (items : list RequiredBucket) (seen : gset string) (lastName : string) : outcome unit :=
  match items with
  | [] => Ok tt
  | item :: items =>
      if negb (bucketNamePattern (rb_Name item)) || Contains (rb_Name item) ".." ||
         (negb (String.eqb (rb_ACL item) "private") && negb (String.eqb (rb_ACL item) "public-read"))
      then Err ErrInvalidArchive
      else if decide (rb_Name item ∈ seen) then Err ErrInvalidArchive
      else if String.leb (rb_Name item) lastName then Err ErrInvalidArchive
      else buckets_loop items ({[rb_Name item]} ∪ seen) (rb_Name item)
  end.
Definition validateBuckets (items : list RequiredBucket) : outcome unit := buckets_loop items ∅ "".

Definition pathUsesBucket (value : string) (buckets : list RequiredBucket) : bool :=
  existsb (fun bucket => HasPrefix value ("/" +:+ rb_Name bucket +:+ "/")) buckets.

Definition validateS3ResponseMetadata (item : S3Object) : outcome unit :=
  if existsb containsControl
       [obj_ContentType item; obj_CacheControl item; obj_ContentDisposition item; obj_ContentEncoding item;
        obj_ContentLanguage item; obj_Expires item]
  then Err ErrInvalidArchive
  else if negb (String.eqb (obj_Expires item) "") && negb (parse_http_time (obj_Expires item))
  then Err ErrInvalidArchive
  else if negb (String.eqb (obj_ChecksumSHA256 item) "") then
    match Checksum.Decode sha1 sha256 Checksum.AlgorithmSHA256 (obj_ChecksumSHA256 item) with
    | Err _ => Err ErrInvalidArchive
    | Ok _ => Ok tt
    end
  else Ok tt.

Definition validateS3RequestChecksum (item : S3Object) : outcome unit :=
  if String.eqb (obj_RequestChecksumAlgorithm item) "" && String.eqb (obj_RequestChecksumValue item) "" &&
     String.eqb (obj_ChecksumType item) ""
  then Ok tt
  else if String.eqb (obj_RequestChecksumAlgorithm item) "" || String.eqb (obj_RequestChecksumValue item) "" ||
          String.eqb (obj_ChecksumType item) ""
  then Err ErrInvalidArchive
  else
    match Checksum.ParseAlgorithm (obj_RequestChecksumAlgorithm item) with
    | Err _ => Err ErrInvalidArchive
    | Ok algorithm =>
        match Checksum.Decode sha1 sha256 algorithm (obj_RequestChecksumValue item) with
        | Err _ => Err ErrInvalidArchive
        | Ok _ =>
            match Checksum.ParseType (obj_ChecksumType item) with
            | Err _ => Err ErrInvalidArchive
            | Ok checksumType =>
                if String.eqb checksumType Checksum.TypeComposite then
                  match Checksum.ValidateCombination algorithm checksumType with
                  | Err _ => Err ErrInvalidArchive
                  | Ok _ => Ok tt
                  end
                else Ok tt
            end
        end
    end.

Definition bad_user_entry (kv : string * string) : bool :=
  String.eqb kv.1 "" || (128 <? slen kv.1) || (2 * 1024 <? slen kv.2) ||
  containsControl kv.1 || containsControl kv.2.

Definition validateS3UserMetadata (raw : string) (limits : Limits) : outcome unit :=
  if lim_MaxUserMetaBytes limits <? slen raw then Err ErrLimitExceeded
  else
    match decodeStrictJSON json_string_map (string_bytes raw) with
    | Err _ => Err ErrInvalidArchive
    | Ok metadata =>
        if existsb bad_user_entry metadata then Err ErrInvalidArchive
        else refuse (lim_MaxUserMetaBytes limits <? sumZ ((fun kv => slen kv.1 + slen kv.2) <$> metadata))
               ErrLimitExceeded
    end.

Definition validateS3Metadata (item : S3Object) (limits : Limits) : outcome unit :=
  if String.eqb (obj_ETag item) "" || containsControl (obj_ETag item) then Err ErrInvalidArchive
  else
    _ ← validateS3ResponseMetadata item;
    _ ← validateS3RequestChecksum item;
    validateS3UserMetadata (obj_UserMetadata item) limits.

Fixpoint objects_loop (items : list S3Object) (mappings required : gset string) (limits : Limits)
    (seen : gset string) (lastPath : string) : outcome (gset string) :=
  match items with
  | [] => Ok seen
  | item :: items =>
      if decide (obj_Path item ∉ mappings) then Err ErrInvalidArchive
      else if decide (obj_Path item ∉ required) then Err ErrInvalidArchive
      else if decide (obj_Path item ∈ seen) then Err ErrInvalidArchive
      else if String.leb (obj_Path item) lastPath then Err ErrInvalidArchive
      else
        _ ← validateS3Metadata item limits;
        objects_loop items mappings required limits ({[obj_Path item]} ∪ seen) (obj_Path item)
  end.

Definition validateS3Objects (items : list S3Object) (mappings : gset string) (buckets : list RequiredBucket)
    (limits : Limits) : outcome unit :=
  let required := filter (fun p => pathUsesBucket p buckets = true) mappings in
  seen ← objects_loop items mappings required limits ∅ "";
  refuse (negb (bool_decide (size seen = size required))) ErrInvalidArchive.

(** [validateXMLFragment] and [validXMLLocalName] read the tokens to the end. *)
Definition validateXMLFragment (value : string) : outcome unit :=
  refuse (existsb (fun e => match e with XBad => true | _ => false end)
            (xml_events ("<wrapper>" +:+ value +:+ "</wrapper>"))) ErrOther.

Definition validXMLLocalName (value : string) : bool :=
  match xml_events ("<" +:+ value +:+ "></" +:+ value +:+ ">") with
  | [XStart space local; XEnd space' local'] =>
      String.eqb space "" && String.eqb local value && String.eqb space' space && String.eqb local' local
  | _ => false
  end.

Definition property_key (item : WebDAVProperty) : string :=
  prop_Path item +:+ String "000"%char (prop_NamespaceURI item +:+ String "000"%char (prop_LocalName item)).

Fixpoint properties_loop (items : list WebDAVProperty) (mappings directories : gset string) (limits : Limits)
    (seen : gset string) (lastKey : string) : outcome unit :=
  match items with
  | [] => Ok tt
  | item :: items =>
      if decide (prop_Path item ∉ mappings /\ prop_Path item ∉ directories) then Err ErrInvalidArchive
      else if String.eqb (prop_NamespaceURI item) "DAV:" || String.eqb (TrimSpace (prop_LocalName item)) "" ||
              negb (validXMLLocalName (prop_LocalName item))
      then Err ErrInvalidArchive
      else if containsControl (prop_NamespaceURI item) || containsControl (prop_LocalName item)
      then Err ErrInvalidArchive
      else if lim_MaxPropertyBytes limits <? slen (prop_ValueXML item) then Err ErrLimitExceeded
      else if match validateXMLFragment (prop_ValueXML item) with Ok _ => false | Err _ => true end
      then Err ErrInvalidArchive
      else if decide (property_key item ∈ seen) then Err ErrInvalidArchive
      else if String.leb (property_key item) lastKey then Err ErrInvalidArchive
      else properties_loop items mappings directories limits ({[property_key item]} ∪ seen) (property_key item)
  end.
Definition validateWebDAVProperties (items : list WebDAVProperty) (mappings directories : gset string)
    (limits : Limits) : outcome unit := properties_loop items mappings directories limits ∅ "".

Definition validateProtocolMetadata (manifest : Manifest) (mappings directories : gset string) (limits : Limits)
    : outcome unit :=
  _ ← validateBuckets (mf_RequiredBuckets manifest);
  _ ← validateS3Objects (mf_S3Objects manifest) mappings (mf_RequiredBuckets manifest) limits;
  validateWebDAVProperties (mf_WebDAVProperties manifest) mappings directories limits.

(** *** The manifest *)

Definition validateManifestSummary (manifest : Manifest) (partCount physicalBytes : Z) : outcome unit :=
  let actual := {| sum_MappingCount := zlen (mf_Mappings manifest);
                   sum_DirectoryCount := zlen (mf_Directories manifest);
                   sum_FileCount := zlen (mf_Files manifest);
                   sum_PartCount := partCount; sum_PhysicalBytes := physicalBytes |} in
  refuse (negb (bool_decide (mf_Limits manifest = actual))) ErrInvalidArchive.

Definition validateManifestRecords (manifest : Manifest) (limits : Limits) (targetMaxPartSize : Z) : outcome unit :=
  let maxPartSize := Z.min targetMaxPartSize (so_MaxPartSize (mf_Source manifest)) in
  r ← validateFiles (mf_Files manifest) limits maxPartSize;
  let '(fileByRef, partCount, physicalBytes) := r in
  directories ← validateDirectories (mf_Directories manifest) limits;
  mappings ← validateMappings (mf_Mappings manifest) fileByRef directories limits;
  _ ← validateScopeContents (mf_Scope manifest) (mf_Directories manifest) (mf_Mappings manifest);
  _ ← validateProtocolMetadata manifest mappings directories limits;
  validateManifestSummary manifest partCount physicalBytes.

Definition ValidateManifest (manifest : Manifest) (limits : Limits) (targetMaxPartSize : Z) : outcome unit :=
  _ ← validateManifestHeader manifest limits;
  let targetMaxPartSize := if targetMaxPartSize <=? 0 then MaxInt64 else targetMaxPartSize in
  validateManifestRecords manifest limits targetMaxPartSize.
End Validate.
End BackupFmt.
