(* ===== verification/Archive.v ===== *)
(** * Backup archives (src/backupfmt/archive.go, and the content checks of validate.go)

    An archive is a compressed tar stream: a format header, the parts in canonical order,
    the manifest. [Build] writes one, [InspectFile] and [VerifyFile] read one back, and
    [WalkParts] hands its parts to an importer. The tar and gzip layers are those of the Go
    library: an archive is the list of tar entries they carry. *)

From stdpp Require Import base strings list gmap.
From Stdlib Require Import Ascii.
From S2P Require Import Prelude GoStr Base64 Checksum BlockIO Store S3Object FileManager Multipart BackupFmt.

Module Archive.
Import BackupFmt.
Import FileManager (string_bytes, limit_source).

(** ** Entries *)

(** [tar.Header] and what follows it: [te_data] is shorter than [te_Size] in a truncated
    stream. *)
Record tar_entry := {
  te_Name : string; te_Size : Z; te_regular : bool; te_ustar : bool; te_pax : nat; te_data : list Z }.
(** The entries up to the end, or up to one that cannot be read. *)
Record tar_stream := { ts_entries : list tar_entry; ts_corrupt : bool }.

(** A file on disk as [readFile] sees it: the tar stream when gzip opens it, how many bytes
    follow in the gzip member or [None] when it is damaged, and whether more data follows. *)
Record archive_file := {
  af_bytes : list Z; af_stream : option tar_stream; af_trailing : option Z; af_more : bool }.

(** [^parts/(f[0-9]{8})/([0-9]{8})\.bin$], with its groups *)
Definition partEntryPattern (name : string) : option (string * string) :=
  match split_on slash name with
  | [dir; ref; entry] =>
      let index := String.substring 0 8 entry in
      if String.eqb dir "parts" && fileRefPattern ref && (slen index =? 8) && all_chars is_digit index &&
         String.eqb entry (index +:+ ".bin")
      then Some (ref, index) else None
  | _ => None
  end.

Section Archive.
Context `{!ArchiveLib} `{!FileCodec} `{!Sha}.

Definition sha256_hex (data : list Z) : string := Base64.hex_encode (sha256 data).

(** ** Writing *)

(** [WriteHeader] of a USTAR entry refuses a size that needs more than 33 bits. *)
Definition write_entry (name : string) (size : Z) (data : list Z) : outcome tar_entry :=
  if (size <? 0) || (2 ^ 33 <=? size) then Err ErrOther
  else Ok {| te_Name := name; te_Size := size; te_regular := true; te_ustar := true; te_pax := 0; te_data := data |}.

Definition writeTarBytes (name : string) (raw : list Z) : outcome tar_entry := write_entry name (zlen raw) raw.

(** A part's stream, and what [Close] returns. *)
Record part_stream := { ps_source : source; ps_close : option err }.

(** The entry, and the part with its digests. *)
Definition writePart (part : Part) (stream : part_stream) : outcome (tar_entry * Part) :=
  let size := part_Size part in
  let data := ztake size (src_data (ps_source stream)) in
  entry ← write_entry (part_Entry part) size data;
  if zlen (src_data (ps_source stream)) <? size
  then Err (default EOF (src_err (ps_source stream)))
  else if (size <? zlen (src_data (ps_source stream))) || bool_decide (is_Some (src_err (ps_source stream)))
  then Err ErrInvalidArchive
  else
    let md5Value := md5_hex data in
    if negb (String.eqb (part_MD5 part) "") && negb (String.eqb md5Value (part_MD5 part)) then Err ErrChecksum
    else
      let shaValue := sha256_hex data in
      if negb (String.eqb (part_SHA256 part) "") && negb (String.eqb (part_SHA256 part) shaValue)
      then Err ErrChecksum
      else Ok (entry, {| part_Index := part_Index part; part_Size := size; part_MD5 := md5Value;
                         part_SHA256 := shaValue; part_Entry := part_Entry part |}).

Definition with_parts (file : File) (parts : list Part) (md5 : string) : File :=
  {| file_Ref := file_Ref file; file_SourceFileID := file_SourceFileID file;
     file_LayoutVersion := file_LayoutVersion file; file_Size := file_Size file;
     file_CompatibilityMD5 := md5; file_Ctime := file_Ctime file; file_Mtime := file_Mtime file;
     file_Parts := parts; file_Segments := file_Segments file;
     file_CompletedParts := file_CompletedParts file |}.
Definition with_files (m : Manifest) (files : list File) : Manifest :=
  {| mf_Format := mf_Format m; mf_Version := mf_Version m; mf_CreatedAt := mf_CreatedAt m;
     mf_Scope := mf_Scope m; mf_Source := mf_Source m; mf_Limits := mf_Limits m;
     mf_RequiredBuckets := mf_RequiredBuckets m; mf_Files := files; mf_Directories := mf_Directories m;
     mf_Mappings := mf_Mappings m; mf_S3Objects := mf_S3Objects m;
     mf_WebDAVProperties := mf_WebDAVProperties m |}.

Fixpoint write_parts (openPart : string -> Z -> outcome part_stream) (ref : string) (parts : list Part)
    : outcome (list tar_entry * list Part) :=
  match parts with
  | [] => Ok ([], [])
  | part :: parts =>
      stream ← openPart ref (part_Index part);
      written ← writePart part stream;
      _ ← match ps_close stream with Some e => Err e | None => Ok tt end;
      rest ← write_parts openPart ref parts;
      Ok (written.1 :: rest.1, written.2 :: rest.2)
  end.

Definition writeArchiveFile (openPart : string -> Z -> outcome part_stream) (file : File)
    : outcome (list tar_entry * File) :=
  r ← write_parts openPart (file_Ref file) (file_Parts file);
  let file := with_parts file r.2 (file_CompatibilityMD5 file) in
  if negb (file_LayoutVersion file =? 1) then Ok (r.1, file)
  else
    let computed := compatibilityMD5 file in
    if negb (String.eqb (file_CompatibilityMD5 file) "") && negb (String.eqb (file_CompatibilityMD5 file) computed)
    then Err ErrChecksum
    else Ok (r.1, with_parts file r.2 computed).

Fixpoint writeArchiveParts (openPart : string -> Z -> outcome part_stream) (files : list File)
    : outcome (list tar_entry * list File) :=
  match files with
  | [] => Ok ([], [])
  | file :: files =>
      r ← writeArchiveFile openPart file;
      rest ← writeArchiveParts openPart files;
      Ok (r.1 ++ rest.1, r.2 :: rest.2)
  end.

(** [strings.Repeat("0", n)] *)
Definition zero_text (n : nat) : string := pad_zeros n "".

(** The copy that is validated before anything is read: missing digests are filled in. *)
Definition fill_part (part : Part) : Part :=
  {| part_Index := part_Index part; part_Size := part_Size part;
     part_MD5 := if String.eqb (part_MD5 part) "" then zero_text 32 else part_MD5 part;
     part_SHA256 := if String.eqb (part_SHA256 part) "" then zero_text 64 else part_SHA256 part;
     part_Entry := part_Entry part |}.
Definition fill_file (file : File) : File :=
  let file := with_parts file (map fill_part (file_Parts file)) (file_CompatibilityMD5 file) in
  if String.eqb (file_CompatibilityMD5 file) "" then
    with_parts file (file_Parts file)
      (if file_LayoutVersion file =? 1 then compatibilityMD5 file else zero_text 32)
  else file.

Definition validateManifestForBuild (manifest : Manifest) (limits : Limits) : outcome unit :=
  ValidateManifest (with_files manifest (map fill_file (mf_Files manifest))) limits
    (so_MaxPartSize (mf_Source manifest)).

(** The entries, and the manifest with the digests it was written with. *)
Definition Build (manifest : Manifest) (limits : Limits) (openPart : string -> Z -> outcome part_stream)
    : outcome (list tar_entry * Manifest) :=
  _ ← validateManifestForBuild manifest limits;
  format ← writeTarBytes FormatEntry (marshal_format {| fh_Format := FormatName; fh_Version := FormatVersion |});
  r ← writeArchiveParts openPart (mf_Files manifest);
  let manifest := with_files manifest r.2 in
  _ ← ValidateManifest manifest limits (so_MaxPartSize (mf_Source manifest));
  let manifestRaw := marshal_manifest manifest in
  if lim_MaxManifestBytes limits <? zlen manifestRaw then Err ErrLimitExceeded
  else
    last ← writeTarBytes ManifestEntry manifestRaw;
    Ok (format :: r.1 ++ [last], manifest).

(** ** Reading *)

(** The digests are there when the content is verified. *)
Record observedPart := { op_size : Z; op_md5 : string; op_sha256 : string }.
Record fileContentDigest := { fd_md5 : string; fd_checksums : gmap string string }.

(** [fileDigest] is the file being read and its bytes so far. *)
Record tarReadState := {
  observed : gmap string observedPart; contentDigest : gmap string fileContentDigest;
  fileDigest : option (string * list Z); state_manifest : option Manifest; entryIndex : Z; expanded : Z;
  lastPart : string }.

Definition supportedContentDigestAlgorithms : list string := Checksum.supported.

Definition accumulatedFileDigest (data : list Z) : fileContentDigest :=
  {| fd_md5 := md5_hex data;
     fd_checksums := list_to_map (omap (fun algorithm =>
       match Checksum.NewHash sha1 sha256 algorithm with
       | Ok hasher => Some (algorithm, Checksum.SumBase64 hasher data)
       | Err _ => None
       end) supportedContentDigestAlgorithms) |}.

Definition finishFileDigest (s : tarReadState) : tarReadState :=
  match fileDigest s with
  | None => s
  | Some (ref, data) =>
      {| observed := observed s; contentDigest := <[ref := accumulatedFileDigest data]> (contentDigest s);
         fileDigest := None; state_manifest := state_manifest s; entryIndex := entryIndex s;
         expanded := expanded s; lastPart := lastPart s |}
  end.

(** [fileContentWriter], then the bytes of the part. *)
Definition add_content (s : tarReadState) (ref : string) (data : list Z) : tarReadState :=
  let with_digest (s : tarReadState) (d : string * list Z) :=
    {| observed := observed s; contentDigest := contentDigest s; fileDigest := Some d;
       state_manifest := state_manifest s; entryIndex := entryIndex s; expanded := expanded s;
       lastPart := lastPart s |} in
  match fileDigest s with
  | Some (ref', sofar) =>
      if String.eqb ref' ref then with_digest s (ref, sofar ++ data)
      else with_digest (finishFileDigest s) (ref, data)
  | None => with_digest s (ref, data)
  end.

Definition readExactEntry (entry : tar_entry) : outcome (list Z) :=
  if zlen (te_data entry) <? te_Size entry then Err ErrUnexpectedEOF else Ok (ztake (te_Size entry) (te_data entry)).

Definition consumeFormat (s : tarReadState) (entry : tar_entry) : outcome tarReadState :=
  if negb (String.eqb (te_Name entry) FormatEntry) || (te_Size entry <? 1) || (1024 <? te_Size entry)
  then Err ErrInvalidArchive
  else
    raw ← readExactEntry entry;
    match decodeStrictJSON json_format raw with
    | Ok format =>
        if String.eqb (fh_Format format) FormatName && (fh_Version format =? FormatVersion) then Ok s
        else Err ErrInvalidArchive
    | Err _ => Err ErrInvalidArchive
    end.

Definition consumeManifest (s : tarReadState) (entry : tar_entry) (limits : Limits) : outcome tarReadState :=
  let s := finishFileDigest s in
  if (te_Size entry <? 1) || (lim_MaxManifestBytes limits <? te_Size entry) then Err ErrLimitExceeded
  else
    raw ← readExactEntry entry;
    match decodeStrictJSON json_manifest raw with
    | Err _ => Err ErrInvalidArchive
    | Ok decoded =>
        Ok {| observed := observed s; contentDigest := contentDigest s; fileDigest := fileDigest s;
              state_manifest := Some decoded; entryIndex := entryIndex s; expanded := expanded s;
              lastPart := lastPart s |}
    end.

Definition observePart (entry : tar_entry) (verify : bool) : outcome observedPart :=
  let size := te_Size entry in
  if zlen (te_data entry) <? size then Err ErrInvalidArchive
  else
    let data := ztake size (te_data entry) in
    Ok (if verify then {| op_size := size; op_md5 := md5_hex data; op_sha256 := sha256_hex data |}
        else {| op_size := size; op_md5 := ""; op_sha256 := "" |}).

Definition consumePart (s : tarReadState) (entry : tar_entry) (limits : Limits) (verifyContent : bool)
    : outcome tarReadState :=
  match partEntryPattern (te_Name entry) with
  | None => Err ErrInvalidArchive
  | Some (ref, _) =>
      if String.leb (te_Name entry) (lastPart s) then Err ErrInvalidArchive
      else if bool_decide (is_Some (observed s !! te_Name entry)) then Err ErrInvalidArchive
      else if (te_Size entry <? 0) || (lim_MaxExpandedBytes limits <? te_Size entry) then Err ErrLimitExceeded
      else
        part ← observePart entry verifyContent;
        let s := if verifyContent then add_content s ref (ztake (te_Size entry) (te_data entry)) else s in
        let observed := <[te_Name entry := part]> (observed s) in
        if lim_MaxPartCount limits <? Z.of_nat (size observed) then Err ErrLimitExceeded
        else Ok {| observed := observed; contentDigest := contentDigest s; fileDigest := fileDigest s;
                   state_manifest := state_manifest s; entryIndex := entryIndex s; expanded := expanded s;
                   lastPart := te_Name entry |}
  end.

Definition consume (s : tarReadState) (entry : tar_entry) (limits : Limits) (verifyContent : bool)
    : outcome tarReadState :=
  if negb (te_regular entry) || negb (te_ustar entry) || negb (bool_decide (te_pax entry = 0%nat))
  then Err ErrInvalidArchive
  else if (te_Size entry <? 0) || (lim_MaxExpandedBytes limits - te_Size entry <? expanded s)
  then Err ErrLimitExceeded
  else
    let s := {| observed := observed s; contentDigest := contentDigest s; fileDigest := fileDigest s;
                state_manifest := state_manifest s; entryIndex := entryIndex s;
                expanded := expanded s + te_Size entry; lastPart := lastPart s |} in
    if bool_decide (is_Some (state_manifest s)) then Err ErrInvalidArchive
    else
      s ← (if entryIndex s =? 0 then consumeFormat s entry
           else if String.eqb (te_Name entry) ManifestEntry then consumeManifest s entry limits
           else consumePart s entry limits verifyContent);
      Ok {| observed := observed s; contentDigest := contentDigest s; fileDigest := fileDigest s;
            state_manifest := state_manifest s; entryIndex := entryIndex s + 1; expanded := expanded s;
            lastPart := lastPart s |}.

Fixpoint consume_all (s : tarReadState) (entries : list tar_entry) (limits : Limits) (verifyContent : bool)
    : outcome tarReadState :=
  match entries with
  | [] => Ok s
  | entry :: entries =>
      s ← consume s entry limits verifyContent;
      consume_all s entries limits verifyContent
  end.

Definition new_state : tarReadState :=
  {| observed := ∅; contentDigest := ∅; fileDigest := None; state_manifest := None; entryIndex := 0;
     expanded := 0; lastPart := "" |}.

Definition readTar (stream : tar_stream) (limits : Limits) (verifyContent : bool)
    : outcome (Manifest * gmap string observedPart * gmap string fileContentDigest) :=
  s ← consume_all new_state (ts_entries stream) limits verifyContent;
  if ts_corrupt stream then Err ErrInvalidArchive
  else
    match state_manifest s with
    | None => Err ErrInvalidArchive
    | Some manifest =>
        if entryIndex s =? 0 then Err ErrInvalidArchive
        else
          let s := finishFileDigest s in
          Ok (manifest, observed s, contentDigest s)
    end.

(** ** Checking *)

(** The number of parts in the manifest that were found. *)
Fixpoint compare_parts (parts : list Part) (observed : gmap string observedPart) (verifyContent : bool)
    : outcome unit :=
  match parts with
  | [] => Ok tt
  | part :: parts =>
      match observed !! part_Entry part with
      | None => Err ErrInvalidArchive
      | Some actual =>
          if negb (op_size actual =? part_Size part) then Err ErrInvalidArchive
          else if verifyContent && (negb (String.eqb (op_md5 actual) (part_MD5 part)) ||
                                    negb (String.eqb (op_sha256 actual) (part_SHA256 part)))
          then Err ErrChecksum
          else compare_parts parts observed verifyContent
      end
  end.

Definition all_parts (manifest : Manifest) : list Part := mf_Files manifest ≫= file_Parts.

Definition compareObservedParts (manifest : Manifest) (observed : gmap string observedPart) (verifyContent : bool)
    : outcome unit :=
  _ ← compare_parts (all_parts manifest) observed verifyContent;
  refuse (negb (bool_decide (size observed = length (all_parts manifest)))) ErrInvalidArchive.

Definition checksum_at (digests : gmap string fileContentDigest) (ref algorithm : string) : string :=
  match digests !! ref with Some d => default "" (fd_checksums d !! algorithm) | None => "" end.

(** Every physical file has a digest; the empty ones get theirs here. *)
Fixpoint physical_digests (files : list File) (digests : gmap string fileContentDigest)
    : outcome (gmap string fileContentDigest) :=
  match files with
  | [] => Ok digests
  | file :: files =>
      if negb (file_LayoutVersion file =? 1) then physical_digests files digests
      else if file_Size file =? 0 then physical_digests files (<[file_Ref file := accumulatedFileDigest []]> digests)
      else if bool_decide (is_Some (digests !! file_Ref file)) then physical_digests files digests
      else Err ErrInvalidArchive
  end.

Definition validateCompletedPartContent (files : list File) (digests : gmap string fileContentDigest)
    : outcome unit :=
  all_ok (fun file =>
    if negb (file_LayoutVersion file =? 2) then Ok tt
    else
      all_ok (fun ps : CompletedPart * option Segment =>
        if negb (String.eqb (cpt_ChecksumState ps.1) "available") then Ok tt
        else
          match Checksum.ParseAlgorithm (cpt_ChecksumAlgorithm ps.1), ps.2 with
          | Err _, _ => Err ErrInvalidArchive
          | Ok _, None => Err Panic
          | Ok algorithm, Some segment =>
              refuse (negb (bool_decide (is_Some (digests !! seg_SourceRef segment))) ||
                      negb (String.eqb (checksum_at digests (seg_SourceRef segment) algorithm)
                              (cpt_ChecksumValue ps.1))) ErrChecksum
          end)
        (imap (fun i part => (part, file_Segments file !! i)) (file_CompletedParts file))) files.

Definition compositeObjectChecksum (file : File) (algorithm checksumType : string) : outcome string :=
  if existsb (fun c => negb (String.eqb (cpt_ChecksumState c) "available") ||
                       negb (String.eqb (cpt_ChecksumAlgorithm c) algorithm)) (file_CompletedParts file)
  then Err ErrInvalidArchive
  else if String.eqb checksumType Checksum.TypeFullObject then
    match Checksum.FullObject sha1 sha256 algorithm
            (map (fun c => {| Checksum.pc_value := cpt_ChecksumValue c; Checksum.pc_size := cpt_PartSize c |})
               (file_CompletedParts file)) with
    | Ok value => Ok value
    | Err _ => Err ErrInvalidArchive
    end
  else if String.eqb checksumType Checksum.TypeComposite then
    match Checksum.Composite sha1 sha256 algorithm (map cpt_ChecksumValue (file_CompletedParts file)) with
    | Ok (_, stored) => Ok stored
    | Err _ => Err ErrInvalidArchive
    end
  else Err ErrInvalidArchive.

(** [file] is the zero value when the object has no mapping. *)
Definition validateS3ObjectContent (object : S3Object) (file : option File)
    (digests : gmap string fileContentDigest) : outcome unit :=
  if String.eqb (obj_RequestChecksumAlgorithm object) "" then Ok tt
  else
    match Checksum.ParseAlgorithm (obj_RequestChecksumAlgorithm object) with
    | Err _ => Err ErrInvalidArchive
    | Ok algorithm =>
        expected ← match file with
          | None => Err ErrInvalidArchive
          | Some file =>
              if file_LayoutVersion file =? 1 then
                if negb (String.eqb (obj_ChecksumType object) Checksum.TypeFullObject) then Err ErrInvalidArchive
                else Ok (checksum_at digests (file_Ref file) algorithm)
              else if file_LayoutVersion file =? 2 then
                compositeObjectChecksum file algorithm (obj_ChecksumType object)
              else Err ErrInvalidArchive
          end;
        refuse (negb (String.eqb expected (obj_RequestChecksumValue object))) ErrChecksum
    end.

(** The maps [files] and [mappingRefs]: of equal keys the last one counts. *)
Definition file_of_path (manifest : Manifest) (p : string) : option File :=
  let ref := match last (List.filter (fun m => String.eqb (map_Path m) p) (mf_Mappings manifest)) with
             | Some m => map_FileRef m | None => "" end in
  last (List.filter (fun f => String.eqb (file_Ref f) ref) (mf_Files manifest)).

Definition validateContentMetadata (manifest : Manifest) (digests : gmap string fileContentDigest) : outcome unit :=
  digests ← physical_digests (mf_Files manifest) digests;
  _ ← validateCompletedPartContent (mf_Files manifest) digests;
  all_ok (fun object => validateS3ObjectContent object (file_of_path manifest (obj_Path object)) digests)
    (mf_S3Objects manifest).

(** ** Files *)

Definition readArchiveStream (file : archive_file) (limits : Limits) (verifyContent : bool)
    : outcome (Manifest * gmap string observedPart * gmap string fileContentDigest) :=
  match af_stream file with
  | None => Err ErrInvalidArchive
  | Some stream =>
      r ← readTar stream limits verifyContent;
      match af_trailing file with
      | None => Err ErrInvalidArchive
      | Some trailingBytes =>
          if lim_MaxExpandedBytes limits <? trailingBytes then Err ErrLimitExceeded
          else if af_more file then Err ErrInvalidArchive
          else Ok r
      end
  end.

Definition readFile (file : archive_file) (limits : Limits) (targetMaxPartSize : Z) (verifyContent : bool)
    : outcome (Manifest * Report) :=
  let bytes := zlen (af_bytes file) in
  if (bytes <? 1) || (lim_MaxArchiveBytes limits <? bytes) then Err ErrLimitExceeded
  else
    let artifactHash := sha256_hex (af_bytes file) in
    r ← readArchiveStream file limits verifyContent;
    let '(manifest, observed, contentDigests) := r in
    _ ← ValidateManifest manifest limits targetMaxPartSize;
    _ ← compareObservedParts manifest observed verifyContent;
    _ ← (if verifyContent then validateContentMetadata manifest contentDigests else Ok tt);
    Ok (manifest, {| rep_ArtifactSHA256 := artifactHash; rep_ArtifactBytes := bytes;
                     rep_Summary := mf_Limits manifest |}).

Definition InspectFile (file : archive_file) (limits : Limits) (targetMaxPartSize : Z)
    : outcome (Manifest * Report) := readFile file limits targetMaxPartSize false.

(** The file as the two passes find it. *)
Definition VerifyFile (first second : archive_file) (limits : Limits) (targetMaxPartSize : Z)
    : outcome (Manifest * Report) :=
  r1 ← readFile first limits targetMaxPartSize false;
  r2 ← readFile second limits targetMaxPartSize true;
  if negb (rep_ArtifactBytes r2.2 =? rep_ArtifactBytes r1.2) ||
     negb (String.eqb (rep_ArtifactSHA256 r2.2) (rep_ArtifactSHA256 r1.2))
  then Err ErrChecksum
  else Ok r2.

(** [nextWalkPart] on an entry: a part, the end, or the header to skip. *)
Inductive walk_step := WalkPart (part : Part) | WalkDone | WalkSkip.

Definition nextWalkPart (seenFormat : bool) (entry : tar_entry) : outcome walk_step :=
  if negb seenFormat then
    if negb (String.eqb (te_Name entry) FormatEntry) then Err ErrInvalidArchive else Ok WalkSkip
  else if String.eqb (te_Name entry) ManifestEntry then Ok WalkDone
  else
    match partEntryPattern (te_Name entry) with
    | None => Err ErrInvalidArchive
    | Some (_, digits) =>
        match Checksum.Atoi digits with
        | Err _ => Err ErrInvalidArchive
        | Ok index => Ok (WalkPart {| part_Index := index; part_Size := te_Size entry; part_MD5 := "";
                                      part_SHA256 := ""; part_Entry := te_Name entry |})
        end
    end.

(** The rest of the entry as a reader: a truncated one ends with an error. *)
Definition entry_source (entry : tar_entry) : source :=
  limit_source {| src_data := te_data entry; src_err := Some ErrUnexpectedEOF |} (te_Size entry).

Fixpoint walk_entries {S} (seenFormat : bool) (entries : list tar_entry) (corrupt : bool)
    (visit : Part -> source -> M S unit) : M S unit :=
  match entries with
  | [] => if corrupt then fail ErrInvalidArchive else mret tt
  | entry :: entries =>
      next ← lift (nextWalkPart seenFormat entry);
      match next with
      | WalkDone => mret tt
      | WalkSkip => walk_entries true entries corrupt visit
      | WalkPart part => _ ← visit part (entry_source entry); walk_entries true entries corrupt visit
      end
  end.

Definition WalkParts {S} (file : archive_file) (limits : Limits) (visit : Part -> source -> M S unit) : M S unit :=
  let bytes := zlen (af_bytes file) in
  if (bytes <? 1) || (lim_MaxArchiveBytes limits <? bytes) then fail ErrLimitExceeded
  else
    match af_stream file with
    | None => fail ErrInvalidArchive
    | Some stream => walk_entries false (ts_entries stream) (ts_corrupt stream) visit
    end.
End Archive.
End Archive.
