(* ===== verification/BackupExport.v ===== *)
(** * Backup snapshots (src/filemgr/backup.go: export)

    A snapshot reads, in one transaction, the directories and files of a scope, the parts,
    segments and metadata they need, and pins every file so that its blocks stay while the
    archive is built. [OpenBackupPart] delivers the parts, [ReleaseBackupSnapshot] drops the
    pins. *)

From stdpp Require Import base strings list gmap.
From S2P Require Import Prelude GoStr BlockIO FileStream CompositeStream Store Directory References Dao.
From S2P Require Import Mutation S3Object FileManager Multipart BackupFmt Archive.
Import References.

(** [time.Now().UTC().Format(time.RFC3339Nano)], from the clock. *)
Class TimeText := format_time : Z -> string.

Module BackupExport.
Import BackupFmt.
Import S3Object (HasPrefix).
Import Archive (with_files, with_parts).

Record BackupSnapshotRequest := {
  rq_JobID : string; rq_Scope : string; rq_SchemaVersion : Z; rq_RequiredBuckets : list RequiredBucket }.

(** A row of the mapping table, with its path. *)
Record backupMappingRow := { mrow : directoryEntryTab; fullPath : string }.
Record snapshotFile := { sf_id : Z; sf_item : File; segmentSourceID : list Z }.

(** ** Paths of the mapping table *)

Definition row_of (rows : list directoryEntryTab) (entryID : Z) : option directoryEntryTab :=
  head (sql_select (fun r => EntryId_ r =? entryID) rows).

(** [visiting] holds the entries below; each is one of [rows], so that many levels and one
    more end the recursion. *)
Fixpoint resolve (fuel : nat) (rows : list directoryEntryTab) (visiting : list Z) (entryID : Z) : outcome string :=
  match fuel with
  | O => Err Diverge
  | S fuel =>
      match row_of rows entryID with
      | None => Err ErrBackupState
      | Some row =>
          if decide (entryID ∈ visiting) then Err ErrBackupState
          else if ParentEntryId_ row =? 0 then
            if String.eqb (FileName_ row) "/" then Ok "/" else Err ErrBackupState
          else
            parentPath ← resolve fuel rows (entryID :: visiting) (ParentEntryId_ row);
            Ok (path_join [parentPath; FileName_ row])
      end
  end.

Fixpoint resolve_all (rows todo : list directoryEntryTab) : outcome (list backupMappingRow) :=
  match todo with
  | [] => Ok []
  | row :: todo =>
      p ← resolve (S (S (length rows))) rows [] (EntryId_ row);
      rest ← resolve_all rows todo;
      Ok ({| mrow := row; fullPath := p |} :: rest)
  end.

Definition by_entry_id (a b : directoryEntryTab) : bool := EntryId_ a <=? EntryId_ b.

(** The rows by entry id; those of a Go map have no order. *)
Definition backup_rows (d : DB) : outcome (list backupMappingRow) :=
  let rows := order_by by_entry_id (t_mapping d) in resolve_all rows rows.

Definition pathInBackupScope (value scope : string) : bool :=
  String.eqb scope "/" || String.eqb value scope || HasPrefix value (scope +:+ "/").

(** [for parent := path.Dir(p); parent != "/"; parent = path.Dir(parent)] of a rooted path:
    each is shorter than the one before. *)
Fixpoint parents_loop (fuel : nat) (p : string) : list string :=
  match fuel with
  | O => []
  | S fuel =>
      let parent := path_dir p in
      if String.eqb parent "/" then [] else parent :: parents_loop fuel parent
  end.
Definition parents (p : string) : list string := parents_loop (String.length p) p.

Definition by_path (a b : backupMappingRow) : bool := String.leb (fullPath a) (fullPath b).
Definition is_dir_row (row : backupMappingRow) : bool := FileKind_ (mrow row) =? 1.

Definition selectBackupMappings (rows : list backupMappingRow) (scope : string)
    : outcome (list backupMappingRow * list backupMappingRow) :=
  let selected := List.filter (fun row => negb (is_dir_row row) && pathInBackupScope (fullPath row) scope) rows in
  let requiredDirs := parents scope ++ flat_map (fun row => parents (fullPath row)) selected in
  let scopeExists := String.eqb scope "/" ||
    existsb (fun row => String.eqb (fullPath row) scope || HasPrefix (fullPath row) (scope +:+ "/")) rows in
  if negb scopeExists then Err ErrNotExist
  else
    let directories := List.filter (fun row => is_dir_row row &&
        (pathInBackupScope (fullPath row) scope || bool_decide (fullPath row ∈ requiredDirs)) &&
        negb (String.eqb (fullPath row) "/")) rows in
    Ok (order_by by_path selected, order_by by_path directories).

(** ** Buckets and metadata *)

(** A bucket right after one of the same name that was taken is skipped by the test of the
    last result. *)
Fixpoint used_loop (mappings directories : list backupMappingRow) (configured result : list RequiredBucket)
    : list RequiredBucket :=
  match configured with
  | [] => result
  | bucket :: configured =>
      let prefix := "/" +:+ rb_Name bucket +:+ "/" in
      let result := if existsb (fun m => HasPrefix (fullPath m) prefix) mappings then result ++ [bucket] else result in
      let taken := match last result with Some b => String.eqb (rb_Name b) (rb_Name bucket) | None => false end in
      used_loop mappings directories configured
        (if taken then result
         else if existsb (fun d => String.eqb (fullPath d) ("/" +:+ rb_Name bucket) ||
                                   HasPrefix (fullPath d) prefix) directories
         then result ++ [bucket] else result)
  end.
Definition usedBackupBuckets (mappings directories : list backupMappingRow) (configured : list RequiredBucket)
    : list RequiredBucket := used_loop mappings directories configured [].

Definition backupPathUsesS3Bucket (value : string) (buckets : list RequiredBucket) : bool :=
  existsb (fun bucket => HasPrefix value ("/" +:+ rb_Name bucket +:+ "/")) buckets.

Definition backupS3Object (path : string) (m : s3meta_row) : S3Object :=
  {| obj_Path := path; obj_ETag := m_etag m; obj_ChecksumSHA256 := m_sha256 m;
     obj_RequestChecksumAlgorithm := m_req_algorithm m; obj_RequestChecksumValue := m_req_value m;
     obj_ChecksumType := m_checksum_type m; obj_ContentType := m_content_type m;
     obj_CacheControl := m_cache_control m; obj_ContentDisposition := m_disposition m;
     obj_ContentEncoding := m_encoding m; obj_ContentLanguage := m_language m;
     obj_Expires := m_expires m; obj_UserMetadata := m_user m; obj_Ctime := m_ctime m;
     obj_Mtime := m_mtime m |}.

(** ** Files *)

Definition inferredLegacyPartSize (size count index maxPart : Z) : Z :=
  if (count =? 0) && (size =? 0) then 0
  else if (count <=? 0) || (index <? 0) || (count <=? index) || (maxPart <=? 0) then -1
  else if index <? count - 1 then maxPart
  else wrap64 (size - wrap64 ((count - 1) * maxPart)).

(** The rows of the join in [ensureBackupPhysicalFileExportable]. *)
Definition part_states (d : DB) (fileID : Z) : list (option delete_row) :=
  flat_map (fun p => left_join (sql_select (fun s => (d_file_id s =? p_file_id p) && (d_part_id s =? p_part_id p))
      (t_delete d)))
    (sql_select (fun p => p_file_id p =? fileID) (t_part d)).
Definition bad_state (o : option delete_row) : bool :=
  match o with
  | None => false
  | Some s => negb (bool_decide (d_state s = DsLive)) || String.eqb (d_ref s) "" || (d_uploaded_at s <=? 0)
  end.

Definition with_size (size : Z) (p : part_row) : part_row :=
  {| p_file_id := p_file_id p; p_part_id := p_part_id p; p_key := p_key p; p_md5 := p_md5 p; p_size := size;
     p_ctime := p_ctime p; p_mtime := p_mtime p |}.

Definition file_with (f : File) (parts : list Part) (segments : list Segment) (completed : list CompletedPart) : File :=
  {| file_Ref := file_Ref f; file_SourceFileID := file_SourceFileID f; file_LayoutVersion := file_LayoutVersion f;
     file_Size := file_Size f; file_CompatibilityMD5 := file_CompatibilityMD5 f; file_Ctime := file_Ctime f;
     file_Mtime := file_Mtime f; file_Parts := parts; file_Segments := segments;
     file_CompletedParts := completed |}.

Section Snapshot.
Context `{!Env} `{!S3Object.MimeTypes} `{!FileCodec} `{!TimeText}.

Definition readBackupMappings : M World (list backupMappingRow) :=
  rows ← query backup_rows; lift rows.

Definition readBackupFileSnapshot (fileID : Z) : M World (snapshotFile * Z) :=
  row ← query (fun d => head (file_rows d fileID));
  match row with
  | None => fail ErrBackupState
  | Some row =>
      _ ← check (negb (f_state row =? FileStateReady)) ErrBackupState;
      mret ({| sf_id := fileID;
               sf_item := {| file_Ref := ""; file_SourceFileID := FormatUint fileID;
                             file_LayoutVersion := f_layout row; file_Size := f_size row;
                             file_CompatibilityMD5 := default "" (unmarshal_ext (f_extinfo row));
                             file_Ctime := f_ctime row; file_Mtime := f_mtime row; file_Parts := [];
                             file_Segments := []; file_CompletedParts := [] |};
               segmentSourceID := [] |}, f_part_count row)
  end.

Definition ensureBackupPhysicalFileExportable (fileID : Z) : M World unit :=
  rows ← query (fun d => part_states d fileID);
  let deleteStateCount := zlen (List.filter (fun o => bool_decide (is_Some o)) rows) in
  if deleteStateCount =? 0 then mret tt
  else
    _ ← check (negb (deleteStateCount =? zlen rows)) ErrBackupState;
    check (negb (zlen (List.filter bad_state rows) =? 0)) ErrBackupState.

(** [index] is the number of parts read so far. *)
Definition scanBackupPhysicalPart (maxPart : Z) (snapshot : snapshotFile) (partCount index : Z) (row : part_row)
    : M World Part :=
  _ ← check (negb (p_part_id row =? index)) ErrBackupState;
  partSize ← (if p_size row <? 0 then
      let partSize := inferredLegacyPartSize (file_Size (sf_item snapshot)) partCount index maxPart in
      _ ← check (partSize <? 0) ErrBackupState;
      _ ← upd (set_part (sql_update (fun r => (p_file_id r =? sf_id snapshot) && (p_part_id r =? index))
                (with_size partSize)));
      mret partSize
    else mret (p_size row));
  mret {| part_Index := index; part_Size := partSize; part_MD5 := p_md5 row; part_SHA256 := "";
          part_Entry := "parts/placeholder/" +:+ format08 index +:+ ".bin" |}.

Definition loadBackupPhysicalFile (maxPart : Z) (snapshot : snapshotFile) (partCount : Z) : M World snapshotFile :=
  _ ← ensureBackupPhysicalFileExportable (sf_id snapshot);
  rows ← FilePartDao.ListFilePart (sf_id snapshot);
  parts ← fold_each (fun parts row =>
      part ← scanBackupPhysicalPart maxPart snapshot partCount (zlen parts) row;
      mret (parts ++ [part])) [] rows;
  let total := foldl (fun total part => wrap64 (total + part_Size part)) 0 parts in
  _ ← check (negb (zlen parts =? partCount) || negb (total =? file_Size (sf_item snapshot))) ErrBackupState;
  mret {| sf_id := sf_id snapshot; sf_item := file_with (sf_item snapshot) parts [] []; segmentSourceID := [] |}.

Definition readBackupSegments (snapshot : snapshotFile) : M World snapshotFile :=
  rows ← query (fun d => file_segments d (sf_id snapshot));
  _ ← lift (all_ok (fun ir => refuse (negb (sg_index ir.2 =? ir.1)) ErrBackupState) (Multipart.indexed rows));
  mret {| sf_id := sf_id snapshot;
          sf_item := file_with (sf_item snapshot) []
            (map (fun s => {| seg_Index := sg_index s; seg_SourceRef := ""; seg_Size := sg_size s |}) rows) [];
          segmentSourceID := map sg_source rows |}.

Definition by_number (a b : completed_row) : bool := cp_number a <=? cp_number b.

Definition readBackupCompletedParts (fileID : Z) : M World (list CompletedPart) :=
  rows ← query (fun d => order_by by_number (sql_select (fun c => cp_file_id c =? fileID) (t_completed d)));
  mret (map (fun c =>
    {| cpt_PartNumber := cp_number c; cpt_PartSize := cp_size c;
       cpt_ChecksumState := if cp_available c then "available" else "unavailable";
       cpt_ChecksumAlgorithm := cp_algorithm c; cpt_ChecksumValue := cp_value c;
       cpt_Ctime := cp_ctime c; cpt_Mtime := cp_mtime c |}) rows).

(** [result] is the map of the files found so far. *)
Fixpoint load_tree (fuel : nat) (maxPart fileID : Z) (result : gmap Z snapshotFile) : M World (gmap Z snapshotFile) :=
  match fuel with
  | O => fail Diverge
  | S fuel =>
      if decide (is_Some (result !! fileID)) then mret result
      else
        r ← readBackupFileSnapshot fileID;
        let '(snapshot, partCount) := r in
        let result := <[fileID := snapshot]> result in
        let layout := file_LayoutVersion (sf_item snapshot) in
        if layout =? 1 then
          snapshot ← loadBackupPhysicalFile maxPart snapshot partCount;
          mret (<[fileID := snapshot]> result)
        else if layout =? 2 then
          snapshot ← readBackupSegments snapshot;
          result ← fold_each (fun result sourceID => load_tree fuel maxPart sourceID result)
                     (<[fileID := snapshot]> result) (segmentSourceID snapshot);
          completed ← readBackupCompletedParts fileID;
          mret (<[fileID := {| sf_id := fileID;
                   sf_item := file_with (sf_item snapshot) [] (file_Segments (sf_item snapshot)) completed;
                   segmentSourceID := segmentSourceID snapshot |}]> result)
        else fail ErrInvalidFileLayout
  end.

(** Every level adds a file. *)
Definition loadBackupFileTree (maxPart fileID : Z) (result : gmap Z snapshotFile) : M World (gmap Z snapshotFile) :=
  fuel ← query (fun d => S (S (length (t_file d))));
  load_tree fuel maxPart fileID result.

Definition loadSelectedBackupFiles (maxPart : Z) (selected : list backupMappingRow)
    : M World (gmap Z snapshotFile) :=
  fold_each (fun snapshots row =>
    match ParseUint (RefData_ (mrow row)) with
    | Err _ => fail ErrBackupState
    | Ok fileID =>
        _ ← check (fileID =? 0) ErrBackupState;
        loadBackupFileTree maxPart fileID snapshots
    end) ∅ selected.

(** INSERT with the key (job_id, file_id). *)
Definition insert_pin (jobID : string) (fileID : Z) : M World unit :=
  _ ← now;
  d ← query id;
  _ ← check (fileID <=? 0) ErrCheckConstraint;
  _ ← check (sql_exists (fun p => String.eqb (pin_job p) jobID && (pin_file_id p =? fileID)) (t_pin d))
        ErrUniqueConstraint;
  upd (set_pin (fun t => t ++ [{| pin_job := jobID; pin_file_id := fileID |}])).

Definition set_refs (refByID : gmap Z string) (ref : string) (s : snapshotFile) : File :=
  let f := sf_item s in
  {| file_Ref := ref; file_SourceFileID := file_SourceFileID f; file_LayoutVersion := file_LayoutVersion f;
     file_Size := file_Size f; file_CompatibilityMD5 := file_CompatibilityMD5 f; file_Ctime := file_Ctime f;
     file_Mtime := file_Mtime f; file_Parts := file_Parts f;
     file_Segments := zip_with (fun g sourceID =>
       {| seg_Index := seg_Index g; seg_SourceRef := default "" (refByID !! sourceID); seg_Size := seg_Size g |})
       (file_Segments f) (segmentSourceID s);
     file_CompletedParts := file_CompletedParts f |}.

(** The ids in ascending order, each with its reference. *)
Definition backup_refs (snapshots : gmap Z snapshotFile) : list (Z * string) :=
  imap (fun index fileID => (fileID, "f" +:+ format08 (Z.of_nat index + 1)))
    (order_by Z.leb (map fst (map_to_list snapshots))).

Definition appendBackupFilesAndPins (jobID : string) (snapshots : gmap Z snapshotFile)
    : M World (gmap Z string * list File) :=
  let refs := backup_refs snapshots in
  let refByID : gmap Z string := list_to_map refs in
  files ← fold_each (fun files (ir : Z * string) =>
      _ ← insert_pin jobID ir.1;
      mret (files ++ match snapshots !! ir.1 with Some s => [set_refs refByID ir.2 s] | None => [] end)) [] refs;
  mret (refByID, files).

Definition appendBackupDirectories (directories : list backupMappingRow) : list Directory :=
  map (fun row => {| dir_Path := fullPath row; dir_Mode := Z.land (FileMode_ (mrow row)) 511;
                     dir_Ctime := Ctime_ (mrow row); dir_Mtime := Mtime_ (mrow row) |}) directories.

(** The file id of a selected row; it has been parsed before. *)
Definition row_file (row : backupMappingRow) : Z :=
  match ParseUint (RefData_ (mrow row)) with Ok fileID => fileID | Err _ => 0 end.

Definition appendBackupMappings (selected : list backupMappingRow) (refByID : gmap Z string)
    (buckets : list RequiredBucket) : M World (list Mapping * list S3Object) :=
  fold_each (fun (acc : list Mapping * list S3Object) row =>
    let r := mrow row in
    let fileID := row_file row in
    let mappings := acc.1 ++ [{| map_Path := fullPath row; map_FileRef := default "" (refByID !! fileID);
                                 map_Size := FileSize_ r; map_Mode := Z.land (FileMode_ r) 511;
                                 map_Ctime := Ctime_ r; map_Mtime := Mtime_ r |}] in
    if negb (backupPathUsesS3Bucket (fullPath row) buckets) then mret (mappings, acc.2)
    else
      metadata ← S3Object.readS3Metadata (EntryId_ r);
      let metadata := default (S3Object.legacyS3Metadata
        {| FileMappingDao.EntryID := EntryId_ r; FileMappingDao.FileName := fullPath row;
           FileMappingDao.LinkFileId := fileID; FileMappingDao.FileSize := FileSize_ r;
           FileMappingDao.Mode := FileMode_ r; FileMappingDao.Ctime := Ctime_ r;
           FileMappingDao.Mtime := Mtime_ r; FileMappingDao.IsDir := false |}) metadata in
      mret (mappings, acc.2 ++ [backupS3Object (fullPath row) metadata])) ([], []) selected.

(** The map from entry ids to paths, in the order it is filled. *)
Definition backupIncludedEntries (selected directories : list backupMappingRow) : list (Z * string) :=
  map (fun row => (EntryId_ (mrow row), fullPath row)) (selected ++ directories).

Definition by_property_name (a b : property_row) : bool :=
  if String.eqb (pr_ns a) (pr_ns b) then String.leb (pr_name a) (pr_name b) else String.leb (pr_ns a) (pr_ns b).

Definition readBackupEntryWebDAVProperties (entryID : Z) (entryPath : string) : M World (list WebDAVProperty) :=
  rows ← query (fun d => order_by by_property_name (sql_select (fun p => pr_entry_id p =? entryID) (t_property d)));
  mret (map (fun p =>
    {| prop_Path := entryPath; prop_NamespaceURI := pr_ns p; prop_LocalName := pr_name p;
       prop_ValueXML := pr_value p; prop_Ctime := pr_ctime p; prop_Mtime := pr_mtime p |}) rows).

Definition readBackupWebDAVProperties (entries : list (Z * string)) : M World (list WebDAVProperty) :=
  fold_each (fun result (entry : Z * string) =>
    properties ← readBackupEntryWebDAVProperties entry.1 entry.2;
    mret (result ++ properties)) [] entries.

Definition newBackupManifest (request : BackupSnapshotRequest) (scope backendName created : string) (maxPartSize : Z)
    : Manifest :=
  {| mf_Format := FormatName; mf_Version := FormatVersion; mf_CreatedAt := created; mf_Scope := scope;
     mf_Source := {| so_SchemaVersion := rq_SchemaVersion request; so_BlockIOKind := backendName;
                     so_MaxPartSize := maxPartSize |};
     mf_Limits := {| sum_MappingCount := 0; sum_DirectoryCount := 0; sum_FileCount := 0; sum_PartCount := 0;
                     sum_PhysicalBytes := 0 |};
     mf_RequiredBuckets := rq_RequiredBuckets request; mf_Files := []; mf_Directories := []; mf_Mappings := [];
     mf_S3Objects := []; mf_WebDAVProperties := [] |}.

Definition populateBackupSnapshotTx (maxPart : Z) (request : BackupSnapshotRequest) (manifest : Manifest)
    : M World Manifest :=
  rows ← readBackupMappings;
  sd ← lift (selectBackupMappings rows (mf_Scope manifest));
  let '(selected, directories) := sd in
  let buckets := usedBackupBuckets selected directories (rq_RequiredBuckets request) in
  snapshots ← loadSelectedBackupFiles maxPart selected;
  rf ← appendBackupFilesAndPins (rq_JobID request) snapshots;
  mo ← appendBackupMappings selected rf.1 (rq_RequiredBuckets request);
  properties ← readBackupWebDAVProperties (backupIncludedEntries selected directories);
  mret {| mf_Format := mf_Format manifest; mf_Version := mf_Version manifest;
          mf_CreatedAt := mf_CreatedAt manifest; mf_Scope := mf_Scope manifest; mf_Source := mf_Source manifest;
          mf_Limits := mf_Limits manifest; mf_RequiredBuckets := buckets; mf_Files := rf.2;
          mf_Directories := appendBackupDirectories directories; mf_Mappings := mo.1; mf_S3Objects := mo.2;
          mf_WebDAVProperties := properties |}.

Definition ReleaseBackupSnapshot (jobID : string) : M World unit :=
  upd (set_pin (sql_delete (fun p => String.eqb (pin_job p) jobID))).

(** ** The finished manifest *)

Definition by_key {A} (key : A -> string) (a b : A) : bool := String.leb (key a) (key b).
Definition by_property (a b : WebDAVProperty) : bool :=
  if negb (String.eqb (prop_Path a) (prop_Path b)) then String.leb (prop_Path a) (prop_Path b)
  else if negb (String.eqb (prop_NamespaceURI a) (prop_NamespaceURI b))
  then String.leb (prop_NamespaceURI a) (prop_NamespaceURI b)
  else String.leb (prop_LocalName a) (prop_LocalName b).

Definition name_parts (f : File) : File :=
  file_with f (imap (fun i p =>
    {| part_Index := part_Index p; part_Size := part_Size p; part_MD5 := part_MD5 p; part_SHA256 := part_SHA256 p;
       part_Entry := part_entry (file_Ref f) (Z.of_nat i) |}) (file_Parts f)) (file_Segments f) (file_CompletedParts f).

Definition sortBackupManifest (m : Manifest) : Manifest :=
  {| mf_Format := mf_Format m; mf_Version := mf_Version m; mf_CreatedAt := mf_CreatedAt m; mf_Scope := mf_Scope m;
     mf_Source := mf_Source m; mf_Limits := mf_Limits m;
     mf_RequiredBuckets := order_by (by_key rb_Name) (mf_RequiredBuckets m);
     mf_Files := map name_parts (mf_Files m); mf_Directories := order_by (by_key dir_Path) (mf_Directories m);
     mf_Mappings := order_by (by_key map_Path) (mf_Mappings m);
     mf_S3Objects := order_by (by_key obj_Path) (mf_S3Objects m);
     mf_WebDAVProperties := order_by by_property (mf_WebDAVProperties m) |}.

Definition fillBackupSummary (m : Manifest) : Manifest :=
  {| mf_Format := mf_Format m; mf_Version := mf_Version m; mf_CreatedAt := mf_CreatedAt m; mf_Scope := mf_Scope m;
     mf_Source := mf_Source m;
     mf_Limits := {| sum_MappingCount := zlen (mf_Mappings m); sum_DirectoryCount := zlen (mf_Directories m);
       sum_FileCount := zlen (mf_Files m);
       sum_PartCount := foldl (fun n f => n + zlen (file_Parts f)) (sum_PartCount (mf_Limits m)) (mf_Files m);
       sum_PhysicalBytes := foldl (fun n f => foldl (fun n p => wrap64 (n + part_Size p)) n (file_Parts f))
         (sum_PhysicalBytes (mf_Limits m)) (mf_Files m) |};
     mf_RequiredBuckets := mf_RequiredBuckets m; mf_Files := mf_Files m; mf_Directories := mf_Directories m;
     mf_Mappings := mf_Mappings m; mf_S3Objects := mf_S3Objects m; mf_WebDAVProperties := mf_WebDAVProperties m |}.

(** ** With the block store *)
Context {B : Type} `{!IBlockIO B} `{!RetryLib}.

(** [io.Copy] of a stream: calls with a buffer of 32 KiB until the end. *)
Definition copy_buffer : Z := 32768.
Fixpoint copy_composite (fuel : nat) (b : B) (keys : Z -> Z -> outcome string) (f : Composite.compositeFileStream)
    : outcome (list Z) :=
  match fuel with
  | O => Err Diverge
  | S fuel =>
      match Composite.Read b keys f copy_buffer with
      | (bs, Some EOF, _) => Ok bs
      | (_, Some e, _) => Err e
      | (bs, None, f') => rest ← copy_composite fuel b keys f'; Ok (bs ++ rest)
      end
  end.

(** A call delivers a byte, or ends a block reader and the next one delivers one; a stream
    that does neither for ever keeps [io.Copy] from returning. *)
Definition copy_stream (b : B) (w : World) (fileID : Z) (stream : FileManager.stream) : outcome (list Z) :=
  match stream with
  | FileManager.Physical f =>
      FileStream.ReadAll b (FileManager.block_key w fileID) (Z.to_nat (2 * FileStream.fsize f + 3))
        (fun _ => copy_buffer) f
  | FileManager.CompositeFile f =>
      copy_composite (Z.to_nat (Composite.csize f + 2)) b (FileManager.block_key w) f
  end.

Definition calculateBackupFileMD5 (sourceFileID : string) : M (World * B) string :=
  fileID ← lift (ParseUint sourceFileID);
  stream ← on_db (FileManager.OpenFile fileID);
  s ← reads id;
  data ← lift (copy_stream s.2 s.1 fileID stream);
  mret (md5_hex data).

Definition fillCompositeBackupDigests (jobID : string) (files : list File) : M (World * B) (list File) :=
  fold_each (fun done file =>
    if negb (file_LayoutVersion file =? 2) || negb (String.eqb (file_CompatibilityMD5 file) "")
    then mret (done ++ [file])
    else
      value ← attempt (calculateBackupFileMD5 (file_SourceFileID file));
      match value with
      | Ok value => mret (done ++ [with_parts file (file_Parts file) value])
      | Err e => _ ← attempt (on_db (ReleaseBackupSnapshot jobID)); fail e
      end) [] files.

Definition BackupMaxPartSize : M (World * B) Z := reads (fun s => MaxFileSize s.2).

Definition CreateBackupSnapshot (request : BackupSnapshotRequest) : M (World * B) Manifest :=
  let scope := path_clean (rq_Scope request) in
  _ ← check (String.eqb (rq_JobID request) "" || negb (HasPrefix scope "/")) ErrBackupState;
  t ← on_db now;
  bkio ← reads snd;
  let manifest := newBackupManifest request scope (bio_name bkio) (format_time t) (MaxFileSize bkio) in
  manifest ← on_db (OnTransation (populateBackupSnapshotTx (MaxFileSize bkio) request manifest));
  files ← fillCompositeBackupDigests (rq_JobID request) (mf_Files manifest);
  mret (fillBackupSummary (sortBackupManifest (with_files manifest files))).

Definition OpenBackupPart (sourceFileID : string) (partIndex : Z) : M (World * B) readcloser :=
  match ParseUint sourceFileID with
  | Err _ => fail ErrBackupState
  | Ok fileID =>
      _ ← check (partIndex <? 0) ErrBackupState;
      row ← on_db (query (fun d =>
        head (sql_select (fun p => (p_file_id p =? fileID) && (p_part_id p =? partIndex)) (t_part d))));
      match row with
      | None => fail ErrNoRows
      | Some row => bkio ← reads snd; lift (Download (p_key row) 0 bkio)
      end
  end.
End Snapshot.
End BackupExport.
