(* ===== verification/BackupImport.v ===== *)
(** * Restoring backups (src/filemgr/backup.go: import)

    An import makes a draft for every file of the archive, stages the parts one after the
    other (uploaded, recorded, read back, and only then counted), finishes the files and
    publishes directories, links and metadata in one transaction. Whatever fails leaves the
    uploaded blocks recorded, so that they can be deleted. *)

From stdpp Require Import base strings list gmap.
From S2P Require Import Prelude GoStr Checksum BlockIO FileStream CompositeStream Store Directory References Dao.
From S2P Require Import Mutation S3Object FileManager Multipart BackupFmt Archive.
Import References (DiscardUnpublishedFile, ensureFileTreeCanBeLinked, markFileTreePendingIfUnreferenced).

Module BackupImport.
Import BackupFmt.
Import Archive (sha256_hex).

Record stagedBackupPart := {
  st_targetID : Z; st_fileRef : string; st_index : Z; st_size : Z; st_md5 : string; st_sha256 : string;
  st_fileKey : string; st_deleteRef : string; st_uploaded : Z }.

Record BackupPublishResult := { MappingsCreated : Z; MappingsReplaced : Z; FilesCreated : Z }.

(** ** Drafts *)
Section Import.
Context `{!Env} `{!FileCodec} `{!Sha}.

Definition job_file_is (jobID ref : string) (j : job_file_row) : bool :=
  String.eqb (jf_job_id j) jobID && String.eqb (jf_file_ref j) ref.

(** INSERT with the key (job_id, file_ref) and the CHECKs of the table. *)
Definition insert_job_file (j : job_file_row) : M World unit :=
  d ← query id;
  _ ← check (negb (slen (jf_file_ref j) =? 9) || negb (bool_decide (jf_layout j ∈ [1; 2])) || (jf_next_part j <? 0))
        ErrCheckConstraint;
  _ ← check (sql_exists (job_file_is (jf_job_id j) (jf_file_ref j)) (t_job_file d)) ErrUniqueConstraint;
  upd (set_job_file (fun t => t ++ [j])).

Definition begin_file (jobID : string) (t : Z) (file : File) : M World unit :=
  existing ← query (fun d => sql_count (job_file_is jobID (file_Ref file)) (t_job_file d));
  if negb (existing =? 0) then mret tt
  else
    targetID ← NextId;
    _ ← check (negb (bool_decide (file_LayoutVersion file ∈ [1; 2]))) ErrCheckConstraint;
    _ ← FileDao.insert_file (fun n =>
          {| f_id := n; f_file_id := targetID; f_size := file_Size file; f_part_count := zlen (file_Parts file);
             f_state := FileStateInit; f_ctime := file_Ctime file; f_mtime := file_Mtime file;
             f_extinfo := marshal_ext (file_CompatibilityMD5 file); f_layout := file_LayoutVersion file |});
    insert_job_file
      {| jf_job_id := jobID; jf_file_ref := file_Ref file; jf_source_file_id := file_SourceFileID file;
         jf_target_file_id := targetID; jf_layout := file_LayoutVersion file; jf_stage := SsQueued;
         jf_next_part := 0; jf_ctime := t; jf_mtime := t |}.

Definition BeginBackupImport (jobID : string) (manifest : Manifest) : M World unit :=
  _ ← check (String.eqb jobID "") ErrBackupState;
  t ← now;
  OnTransation (for_each (begin_file jobID t) (mf_Files manifest)).

(** The transaction reads only. *)
Definition ValidateBackupImport (manifest : Manifest) (conflictPolicy : string) : M World unit :=
  _ ← check (negb (String.eqb conflictPolicy "fail") && negb (String.eqb conflictPolicy "replace")) ErrBackupState;
  OnTransation (
    _ ← for_each (fun item =>
          entry ← Directory.Tx.Stat (dir_Path item);
          match entry with
          | Some entry => check (negb (Directory.IsDir entry)) ErrBackupConflict
          | None => mret tt
          end) (mf_Directories manifest);
    for_each (fun item =>
      entry ← Directory.Tx.Stat (map_Path item);
      match entry with
      | Some entry => check (Directory.IsDir entry || String.eqb conflictPolicy "fail") ErrBackupConflict
      | None => mret tt
      end) (mf_Mappings manifest)).

(** ** Staging *)

Definition backupPartFileRef (entry : string) : outcome string :=
  match split_on slash entry with
  | [dir; ref; _] => if String.eqb dir "parts" && (slen ref =? 9) then Ok ref else Err ErrBackupState
  | _ => Err ErrBackupState
  end.

Definition readBackupStageTarget (jobID entry : string) : M World (Z * string * Z) :=
  fileRef ← lift (backupPartFileRef entry);
  row ← query (fun d => head (sql_select (fun j => job_file_is jobID fileRef j && (jf_layout j =? 1)) (t_job_file d)));
  match row with
  | None => fail ErrNoRows
  | Some j => mret (jf_target_file_id j, fileRef, jf_next_part j)
  end.

(** The two INSERTs of a part, with the state of its block. *)
Definition insert_staged (backend : string) (staged : stagedBackupPart) (t : Z) (state : delete_state) (next : Z)
    : M World unit :=
  d ← query id;
  _ ← check (sql_exists (fun r => (p_file_id r =? st_targetID staged) && (p_part_id r =? st_index staged)) (t_part d))
        ErrUniqueConstraint;
  _ ← check (st_size staged <? -1) ErrCheckConstraint;
  _ ← upd (set_part (fun rows => rows ++
        [{| p_file_id := st_targetID staged; p_part_id := st_index staged; p_key := st_fileKey staged;
            p_md5 := st_md5 staged; p_size := st_size staged; p_ctime := t; p_mtime := t |}]));
  _ ← check (sql_exists (fun r => (d_file_id r =? st_targetID staged) && (d_part_id r =? st_index staged)) (t_delete d))
        ErrUniqueConstraint;
  upd (set_delete (fun rows => rows ++
    [{| d_file_id := st_targetID staged; d_part_id := st_index staged; d_backend := backend;
        d_ref := st_deleteRef staged; d_uploaded_at := st_uploaded staged; d_state := state; d_attempts := 0;
        d_next_at := next; d_lease := 0; d_last_attempt := 0; d_error := ""; d_deleted_at := 0;
        d_ctime := t; d_mtime := t |}])).

Definition at_stage (jobID ref : string) (index : Z) (j : job_file_row) : bool :=
  job_file_is jobID ref j && (jf_next_part j =? index).
Definition set_stage (stage : stage_state) (next t : Z) (j : job_file_row) : job_file_row :=
  {| jf_job_id := jf_job_id j; jf_file_ref := jf_file_ref j; jf_source_file_id := jf_source_file_id j;
     jf_target_file_id := jf_target_file_id j; jf_layout := jf_layout j; jf_stage := stage; jf_next_part := next;
     jf_ctime := jf_ctime j; jf_mtime := t |}.

(** UPDATE of the one row that waits for this part. *)
Definition move_stage (jobID ref : string) (index : Z) (f : job_file_row -> job_file_row) : M World unit :=
  affected ← query (fun d => sql_count (at_stage jobID ref index) (t_job_file d));
  _ ← upd (set_job_file (sql_update (at_stage jobID ref index) f));
  check (negb (affected =? 1)) ErrBackupState.

Definition persistBackupPart (backend jobID : string) (staged : stagedBackupPart) : M World unit :=
  t ← now;
  OnTransation (
    _ ← insert_staged backend staged t DsLive 0;
    move_stage jobID (st_fileRef staged) (st_index staged)
      (fun j => set_stage SsVerifying (jf_next_part j) t j)).

Definition persistBackupCompensationRecord (backend : string) (staged : stagedBackupPart) : M World unit :=
  t ← now;
  OnTransation (insert_staged backend staged t DsPending t).

Definition advanceBackupPartCursor (jobID : string) (staged : stagedBackupPart) : M World unit :=
  t ← now;
  move_stage jobID (st_fileRef staged) (st_index staged) (set_stage SsUploading (st_index staged + 1) t).

(** ** With the block store *)
Context {B : Type} `{!IBlockIO B}.

(** [io.Copy] of a block: what it delivers, and the error it ends with. *)
Fixpoint rc_copy (fuel : nat) (rc : readcloser) : list Z * option err :=
  match fuel with
  | O => ([], Some Diverge)
  | S fuel =>
      match rc_read rc 32768 with
      | (bs, Some EOF, _) => (bs, None)
      | (bs, Some e, _) => (bs, Some e)
      | (bs, None, rc') => let '(rest, e) := rc_copy fuel rc' in (bs ++ rest, e)
      end
  end.
Fixpoint rc_chunks (rc : readcloser) : list (list Z) :=
  match rc with RcChunks r => chunks r | RcRotate rc _ => rc_chunks rc end.
(** Each call takes a chunk or some bytes of it. *)
Definition copy_fuel (rc : readcloser) : nat := S (length (rc_chunks rc) + length (concat (rc_chunks rc))).

(** The staged part comes back, with the error when it is not what the archive says, once
    there is a block. *)
Definition uploadBackupPart (targetID : Z) (fileRef : string) (part : Part) (src : source)
    : M (World * B) (stagedBackupPart * option err) :=
  r ← attempt (FileManager.upload src);
  match r with
  | Err _ => fail ErrBackupBackendUpload
  | Ok (res, count) =>
      _ ← check (bool_decide (FileKey res = "") || bool_decide (DeleteRef res = "") || (UploadedAt res <=? 0))
            ErrInvalidUploadDeleteReference;
      let data := ztake count (src_data src) in
      mret ({| st_targetID := targetID; st_fileRef := fileRef; st_index := part_Index part;
               st_size := part_Size part; st_md5 := part_MD5 part; st_sha256 := part_SHA256 part;
               st_fileKey := FileKey res; st_deleteRef := DeleteRef res; st_uploaded := UploadedAt res |},
            if negb (count =? part_Size part) || negb (String.eqb (md5_hex data) (part_MD5 part)) ||
               negb (String.eqb (sha256_hex data) (part_SHA256 part))
            then Some ErrChecksum else None)
  end.

Definition verifyBackupPartReadback (staged : stagedBackupPart) : M (World * B) unit :=
  bkio ← reads snd;
  match Download (st_fileKey staged) 0 bkio with
  | Err _ => fail ErrBackupBackendReadback
  | Ok rc =>
      let '(data, e) := rc_copy (copy_fuel rc) rc in
      _ ← check (bool_decide (is_Some e)) ErrBackupBackendReadback;
      check (negb (zlen data =? st_size staged) || negb (String.eqb (sha256_hex data) (st_sha256 staged)))
        ErrBackupBackendReadback
  end.

(** [errors.Join]: one error stands for all of them, the one that callers look for first. *)
Definition discardFailedBackupPart {A} (fileID : Z) (cause : err) : M (World * B) A :=
  _ ← attempt (on_db (DiscardUnpublishedFile fileID));
  fail cause.

Definition deleteUnpersistedBackupPart (staged : stagedBackupPart) : M (World * B) unit :=
  backend ← reads (fun s => bio_name s.2);
  r ← attempt (on_db (persistBackupCompensationRecord backend staged));
  match r with
  | Ok _ => mret tt
  | Err _ =>
      d ← attempt (on_store (DeleteBlocks [st_deleteRef staged]));
      match d with Ok _ => mret tt | Err _ => fail ErrBackupCompensation end
  end.

Definition StageBackupPart (jobID : string) (part : Part) (src : source) : M (World * B) unit :=
  r ← on_db (readBackupStageTarget jobID (part_Entry part));
  let '(targetID, fileRef, nextPart) := r in
  if part_Index part <? nextPart then
    check (zlen (src_data src) <? part_Size part) (default EOF (src_err src))
  else
    _ ← check (negb (nextPart =? part_Index part)) ErrBackupState;
    up ← uploadBackupPart targetID fileRef part src;
    let '(staged, err) := up in
    backend ← reads (fun s => bio_name s.2);
    persisted ← attempt (on_db (persistBackupPart backend jobID staged));
    match persisted with
    | Err e =>
        compensated ← attempt (deleteUnpersistedBackupPart staged);
        fail match compensated with Err c => c | Ok _ => default e err end
    | Ok _ =>
        match err with
        | Some e => discardFailedBackupPart (st_targetID staged) e
        | None =>
            verified ← attempt (verifyBackupPartReadback staged);
            match verified with
            | Err e => discardFailedBackupPart (st_targetID staged) e
            | Ok _ =>
                advanced ← attempt (on_db (advanceBackupPartCursor jobID staged));
                match advanced with
                | Err e => discardFailedBackupPart (st_targetID staged) e
                | Ok _ => mret tt
                end
            end
        end
    end.

(** ** Finishing *)

Definition by_ref (a b : job_file_row) : bool := String.leb (jf_file_ref a) (jf_file_ref b).

Definition job_targets (d : DB) (jobID : string) : list (string * Z) :=
  map (fun j => (jf_file_ref j, jf_target_file_id j))
    (order_by by_ref (sql_select (fun j => String.eqb (jf_job_id j) jobID) (t_job_file d))).

(** [map[string]uint64]; a missing key reads as 0. *)
Definition readBackupTargets (jobID : string) : M World (gmap string Z) :=
  query (fun d => list_to_map (job_targets d jobID)).
Definition target_of (targets : gmap string Z) (ref : string) : Z := default 0 (targets !! ref).

Definition finish_row (ctime mtime : Z) (r : file_row) : file_row :=
  {| f_id := f_id r; f_file_id := f_file_id r; f_size := f_size r; f_part_count := f_part_count r;
     f_state := FileStateReady; f_ctime := ctime; f_mtime := mtime; f_extinfo := f_extinfo r; f_layout := f_layout r |}.

Definition markBackupFileReady (jobID : string) (file : File) (targetID : Z) : M World unit :=
  _ ← upd (set_file (sql_update (fun r => (f_file_id r =? targetID) && (f_state r =? FileStateInit))
            (finish_row (file_Ctime file) (file_Mtime file))));
  t ← now;
  upd (set_job_file (sql_update (job_file_is jobID (file_Ref file)) (fun j => set_stage SsReady (jf_next_part j) t j))).

Definition finishBackupPhysicalFiles (jobID : string) (manifest : Manifest) (targets : gmap string Z) : M World unit :=
  for_each (fun file =>
    if negb (file_LayoutVersion file =? 1) then mret tt
    else
      let targetID := target_of targets (file_Ref file) in
      parts ← query (fun d => sql_select (fun p => p_file_id p =? targetID) (t_part d));
      _ ← check (negb (zlen parts =? zlen (file_Parts file)) || negb (sumZ (map p_size parts) =? file_Size file))
            ErrBackupState;
      markBackupFileReady jobID file targetID) (mf_Files manifest).

Definition backupFileIsReady (fileID : Z) : M World bool :=
  row ← query (fun d => head (References.file_rows d fileID));
  match row with
  | None => fail ErrNoRows
  | Some r => mret (f_state r =? FileStateReady)
  end.

Definition insertBackupSegments (file : File) (targetID : Z) (targets : gmap string Z) : M World unit :=
  for_each (fun segment => Multipart.insert_segment
    {| sg_file_id := targetID; sg_index := seg_Index segment; sg_source := target_of targets (seg_SourceRef segment);
       sg_size := seg_Size segment; sg_ctime := file_Ctime file; sg_mtime := file_Mtime file |}) (file_Segments file).

(** The algorithms that the table takes. *)
Definition stored_algorithms : list string := "" :: Checksum.supported ++ Checksum.unsupportedAlgorithms.

Definition insertBackupCompletedParts (file : File) (targetID : Z) : M World unit :=
  for_each (fun part =>
    _ ← check (negb (bool_decide (cpt_ChecksumState part ∈ ["available"; "unavailable"])) ||
               negb (bool_decide (cpt_ChecksumAlgorithm part ∈ stored_algorithms))) ErrCheckConstraint;
    Multipart.insert_completed
      {| cp_file_id := targetID; cp_number := cpt_PartNumber part; cp_size := cpt_PartSize part;
         cp_available := String.eqb (cpt_ChecksumState part) "available"; cp_algorithm := cpt_ChecksumAlgorithm part;
         cp_value := cpt_ChecksumValue part; cp_ctime := cpt_Ctime part; cp_mtime := cpt_Mtime part |})
    (file_CompletedParts file).

Definition finishBackupCompositeFiles (jobID : string) (manifest : Manifest) (targets : gmap string Z) : M World unit :=
  for_each (fun file =>
    if negb (file_LayoutVersion file =? 2) then mret tt
    else
      let targetID := target_of targets (file_Ref file) in
      ready ← backupFileIsReady targetID;
      if (ready : bool) then mret tt
      else
        _ ← insertBackupSegments file targetID targets;
        _ ← insertBackupCompletedParts file targetID;
        markBackupFileReady jobID file targetID) (mf_Files manifest).

Definition FinishBackupImportFiles (jobID : string) (manifest : Manifest) : M World unit :=
  OnTransation (
    targets ← readBackupTargets jobID;
    _ ← finishBackupPhysicalFiles jobID manifest targets;
    finishBackupCompositeFiles jobID manifest targets).

(** ** Publishing *)

(** The fields of [backupImportPublisher] that change. *)
Record publisher := {
  pb_created : Z; pb_replaced : Z; entryByPath : gmap string directoryEntryTab; replacedIDs : list Z }.

Definition with_times (mode ctime mtime : Z) (r : directoryEntryTab) : directoryEntryTab :=
  {| Id_ := Id_ r; EntryId_ := EntryId_ r; ParentEntryId_ := ParentEntryId_ r; RefData_ := RefData_ r;
     FileKind_ := FileKind_ r; Ctime_ := ctime; Mtime_ := mtime; FileSize_ := FileSize_ r; FileMode_ := mode;
     FileName_ := FileName_ r |}.

Definition updateBackupEntryMetadata (entryID mode ctime mtime : Z) : M World unit :=
  upd (set_mapping (sql_update (fun r => EntryId_ r =? entryID) (with_times mode ctime mtime))).

Definition restoreS3Metadata (entryID : Z) (o : S3Object) : s3meta_row :=
  {| m_entry_id := entryID; m_etag := obj_ETag o; m_sha256 := obj_ChecksumSHA256 o;
     m_req_algorithm := obj_RequestChecksumAlgorithm o; m_req_value := obj_RequestChecksumValue o;
     m_checksum_type := obj_ChecksumType o; m_content_type := obj_ContentType o;
     m_cache_control := obj_CacheControl o; m_disposition := obj_ContentDisposition o;
     m_encoding := obj_ContentEncoding o; m_language := obj_ContentLanguage o; m_expires := obj_Expires o;
     m_user := obj_UserMetadata o; m_ctime := obj_Ctime o; m_mtime := obj_Mtime o |}.

Definition remember (p : publisher) (path : string) (entry : directoryEntryTab) : publisher :=
  {| pb_created := pb_created p; pb_replaced := pb_replaced p; entryByPath := <[path := entry]> (entryByPath p);
     replacedIDs := replacedIDs p |}.

Definition publishDirectories (manifest : Manifest) (p : publisher) : M World publisher :=
  fold_each (fun p item =>
    found ← Directory.Tx.Stat (dir_Path item);
    _ ← match found with
        | Some entry => check (negb (Directory.IsDir entry)) ErrBackupConflict
        | None => mret tt
        end;
    entry ← match found with Some entry => mret entry | None => Directory.Tx.Mkdir (dir_Path item) end;
    _ ← updateBackupEntryMetadata (EntryId_ entry) (dir_Mode item) (dir_Ctime item) (dir_Mtime item);
    _ ← (if bool_decide (is_Some found) then Directory.Tx.Touch (dir_Path item) (dir_Mtime item) else mret tt);
    mret (remember p (dir_Path item) entry)) p (mf_Directories manifest).

Definition replaceMapping (conflictPolicy : string) (item : Mapping) (targetID : Z) (current : directoryEntryTab)
    (p : publisher) : M World (directoryEntryTab * publisher) :=
  _ ← check (negb (String.eqb conflictPolicy "replace") || Directory.IsDir current) ErrBackupConflict;
  oldID ← lift (ParseUint (RefData_ current));
  _ ← S3Object.deleteS3Metadata (EntryId_ current);
  _ ← upd (set_property (sql_delete (fun q => pr_entry_id q =? EntryId_ current)));
  entry ← Directory.Tx.Replace (map_Path item) (map_Size item) (FormatUint targetID) (map_Mtime item);
  mret (entry, {| pb_created := pb_created p; pb_replaced := pb_replaced p + 1; entryByPath := entryByPath p;
                  replacedIDs := replacedIDs p ++ [oldID] |}).

Definition publishMapping (conflictPolicy : string) (item : Mapping) (targetID : Z) (p : publisher)
    : M World (directoryEntryTab * publisher) :=
  current ← Directory.Tx.Stat (map_Path item);
  match current with
  | None =>
      entry ← Directory.Tx.Create (map_Path item) (map_Size item) (FormatUint targetID);
      mret (entry, {| pb_created := pb_created p + 1; pb_replaced := pb_replaced p; entryByPath := entryByPath p;
                      replacedIDs := replacedIDs p |})
  | Some current => replaceMapping conflictPolicy item targetID current p
  end.

(** [s3ByPath]: of equal paths the last one counts. *)
Definition object_at (manifest : Manifest) (path : string) : option S3Object :=
  last (List.filter (fun o => String.eqb (obj_Path o) path) (mf_S3Objects manifest)).

Definition publish_item (manifest : Manifest) (conflictPolicy : string) (targets : gmap string Z) (p : publisher)
    (item : Mapping) : M World publisher :=
  let targetID := target_of targets (map_FileRef item) in
  _ ← ensureFileTreeCanBeLinked targetID;
  r ← publishMapping conflictPolicy item targetID p;
  let '(entry, p) := r in
  _ ← updateBackupEntryMetadata (EntryId_ entry) (map_Mode item) (map_Ctime item) (map_Mtime item);
  _ ← match object_at manifest (map_Path item) with
      | Some metadata => S3Object.insertS3Metadata (restoreS3Metadata (EntryId_ entry) metadata)
      | None => mret tt
      end;
  mret (remember p (map_Path item) entry).

Definition publishMappings (manifest : Manifest) (conflictPolicy : string) (targets : gmap string Z) (p : publisher)
    : M World publisher :=
  fold_each (publish_item manifest conflictPolicy targets) p (mf_Mappings manifest).

Definition property_key_is (entryID : Z) (q : WebDAVProperty) (r : property_row) : bool :=
  (pr_entry_id r =? entryID) && String.eqb (pr_ns r) (prop_NamespaceURI q) && String.eqb (pr_name r) (prop_LocalName q).

(** INSERT ... ON CONFLICT DO UPDATE *)
Definition upsert_backup_property (entryID : Z) (q : WebDAVProperty) (t : list property_row) : list property_row :=
  let row := {| pr_entry_id := entryID; pr_ns := prop_NamespaceURI q; pr_name := prop_LocalName q;
                pr_value := prop_ValueXML q; pr_ctime := prop_Ctime q; pr_mtime := prop_Mtime q |} in
  if sql_exists (property_key_is entryID q) t then sql_update (property_key_is entryID q) (fun _ => row) t
  else t ++ [row].

(** The map [changedPaths]: each path once, with the last time; the order of a Go map is
    none, here that of the manifest. *)
Definition changed_paths (manifest : Manifest) : list (string * Z) :=
  foldl (fun acc q =>
    if existsb (fun pm => String.eqb (fst pm) (prop_Path q)) acc
    then map (fun pm => if String.eqb (fst pm) (prop_Path q) then (fst pm, prop_Mtime q) else pm) acc
    else acc ++ [(prop_Path q, prop_Mtime q)]) [] (mf_WebDAVProperties manifest).

Definition publishWebDAVProperties (manifest : Manifest) (p : publisher) : M World unit :=
  _ ← for_each (fun q =>
        match entryByPath p !! prop_Path q with
        | None => fail ErrBackupState
        | Some entry => upd (set_property (upsert_backup_property (EntryId_ entry) q))
        end) (mf_WebDAVProperties manifest);
  for_each (fun pm : string * Z => Directory.Tx.Touch pm.1 pm.2) (changed_paths manifest).

Definition publishing (jobID : string) (j : job_row) : bool :=
  String.eqb (j_job_id j) jobID && bool_decide (j_kind j = JkImport) && bool_decide (j_state j = JsPublishing).

Definition complete_job (created replaced files t : Z) (j : job_row) : job_row :=
  {| j_job_id := j_job_id j; j_kind := j_kind j; j_owner := j_owner j; j_state := JsSucceeded; j_scope := j_scope j;
     j_dry_run := j_dry_run j; j_conflict := j_conflict j; j_idempotency_key := j_idempotency_key j;
     j_fingerprint := j_fingerprint j; j_artifact_path := j_artifact_path j; j_snapshot_path := j_snapshot_path j;
     j_report_path := j_report_path j; j_artifact_size := j_artifact_size j;
     j_artifact_sha256 := j_artifact_sha256 j; j_files_total := j_files_total j;
     j_files_completed := j_files_total j; j_parts_total := j_parts_total j; j_parts_completed := j_parts_total j;
     j_bytes_total := j_bytes_total j; j_bytes_completed := j_bytes_total j; j_mappings_created := created;
     j_mappings_replaced := replaced; j_files_created := files; j_error_code := j_error_code j;
     j_error_message := j_error_message j; j_cancel_requested := j_cancel_requested j;
     j_created_at := j_created_at j; j_updated_at := t; j_completed_at := t;
     j_artifact_expires_at := j_artifact_expires_at j |}.

Definition complete (jobID : string) (filesCreated : Z) (p : publisher) : M World unit :=
  t ← now;
  _ ← for_each (fun fileID => markFileTreePendingIfUnreferenced fileID t) (replacedIDs p);
  affected ← query (fun d => sql_count (publishing jobID) (t_job d));
  _ ← upd (set_job (sql_update (publishing jobID) (complete_job (pb_created p) (pb_replaced p) filesCreated t)));
  check (negb (affected =? 1)) ErrBackupState.

Definition publish (jobID : string) (manifest : Manifest) (conflictPolicy : string) : M World BackupPublishResult :=
  job ← query (fun d => head (sql_select (fun j =>
          String.eqb (j_job_id j) jobID && bool_decide (j_kind j = JkImport)) (t_job d)));
  _ ← match job with
      | None => fail ErrNoRows
      | Some j => check (negb (bool_decide (j_state j = JsPublishing))) ErrBackupState
      end;
  targets ← readBackupTargets jobID;
  _ ← check (negb (bool_decide (size targets = length (mf_Files manifest)))) ErrBackupState;
  p ← publishDirectories manifest {| pb_created := 0; pb_replaced := 0; entryByPath := ∅; replacedIDs := [] |};
  p ← publishMappings manifest conflictPolicy targets p;
  _ ← publishWebDAVProperties manifest p;
  let files := zlen (mf_Files manifest) in
  _ ← complete jobID files p;
  mret {| MappingsCreated := pb_created p; MappingsReplaced := pb_replaced p; FilesCreated := files |}.

Definition PublishBackupImport (jobID : string) (manifest : Manifest) (conflictPolicy : string)
    : M World BackupPublishResult :=
  _ ← check (negb (String.eqb conflictPolicy "fail") && negb (String.eqb conflictPolicy "replace")) ErrBackupState;
  _ ← Directory.Mkdir "/";
  r ← attempt (OnTransation (publish jobID manifest conflictPolicy));
  match r with
  | Ok result => mret result
  | Err _ => fail ErrBackupPublish
  end.

(** The files of a Go map have no order; here it is that of the references. *)
Definition DiscardBackupImport (jobID : string) : M World unit :=
  targets ← query (fun d => job_targets d jobID);
  t ← now;
  OnTransation (for_each (fun rt : string * Z => markFileTreePendingIfUnreferenced rt.2 t) targets).
End Import.
End BackupImport.
