(* ===== verification/JobRow.v ===== *)
(** * The columns of a backup job that one UPDATE sets

    The SET clauses of src/backupmgr/manager.go on tg_backup_job_tab, one definition for
    each: the columns they do not name keep their values. *)

From stdpp Require Import base strings.
From S2P Require Import Prelude Store.

Definition with_state (state : job_state) (t : Z) (j : job_row) : job_row :=
  {| j_job_id := j_job_id j; j_kind := j_kind j; j_owner := j_owner j; j_state := state; j_scope := j_scope j;
     j_dry_run := j_dry_run j; j_conflict := j_conflict j; j_idempotency_key := j_idempotency_key j;
     j_fingerprint := j_fingerprint j; j_artifact_path := j_artifact_path j;
     j_snapshot_path := j_snapshot_path j; j_report_path := j_report_path j;
     j_artifact_size := j_artifact_size j; j_artifact_sha256 := j_artifact_sha256 j;
     j_files_total := j_files_total j; j_files_completed := j_files_completed j;
     j_parts_total := j_parts_total j; j_parts_completed := j_parts_completed j;
     j_bytes_total := j_bytes_total j; j_bytes_completed := j_bytes_completed j;
     j_mappings_created := j_mappings_created j; j_mappings_replaced := j_mappings_replaced j;
     j_files_created := j_files_created j; j_error_code := j_error_code j;
     j_error_message := j_error_message j; j_cancel_requested := j_cancel_requested j;
     j_created_at := j_created_at j; j_updated_at := t; j_completed_at := j_completed_at j;
     j_artifact_expires_at := j_artifact_expires_at j |}.

Definition with_received (path sha256 : string) (size t : Z) (j : job_row) : job_row :=
  {| j_job_id := j_job_id j; j_kind := j_kind j; j_owner := j_owner j; j_state := JsQueued;
     j_scope := j_scope j; j_dry_run := j_dry_run j; j_conflict := j_conflict j;
     j_idempotency_key := j_idempotency_key j; j_fingerprint := j_fingerprint j; j_artifact_path := path;
     j_snapshot_path := j_snapshot_path j; j_report_path := j_report_path j; j_artifact_size := size;
     j_artifact_sha256 := sha256; j_files_total := j_files_total j; j_files_completed := j_files_completed j;
     j_parts_total := j_parts_total j; j_parts_completed := j_parts_completed j;
     j_bytes_total := j_bytes_total j; j_bytes_completed := j_bytes_completed j;
     j_mappings_created := j_mappings_created j; j_mappings_replaced := j_mappings_replaced j;
     j_files_created := j_files_created j; j_error_code := j_error_code j;
     j_error_message := j_error_message j; j_cancel_requested := j_cancel_requested j;
     j_created_at := j_created_at j; j_updated_at := t; j_completed_at := j_completed_at j;
     j_artifact_expires_at := j_artifact_expires_at j |}.

Definition with_cancel (t : Z) (j : job_row) : job_row :=
  {| j_job_id := j_job_id j; j_kind := j_kind j; j_owner := j_owner j; j_state := JsCanceling;
     j_scope := j_scope j; j_dry_run := j_dry_run j; j_conflict := j_conflict j;
     j_idempotency_key := j_idempotency_key j; j_fingerprint := j_fingerprint j;
     j_artifact_path := j_artifact_path j; j_snapshot_path := j_snapshot_path j;
     j_report_path := j_report_path j; j_artifact_size := j_artifact_size j;
     j_artifact_sha256 := j_artifact_sha256 j; j_files_total := j_files_total j;
     j_files_completed := j_files_completed j; j_parts_total := j_parts_total j;
     j_parts_completed := j_parts_completed j; j_bytes_total := j_bytes_total j;
     j_bytes_completed := j_bytes_completed j; j_mappings_created := j_mappings_created j;
     j_mappings_replaced := j_mappings_replaced j; j_files_created := j_files_created j;
     j_error_code := j_error_code j; j_error_message := j_error_message j; j_cancel_requested := true;
     j_created_at := j_created_at j; j_updated_at := t; j_completed_at := j_completed_at j;
     j_artifact_expires_at := j_artifact_expires_at j |}.

Definition with_snapshot (path : string) (files parts bytes t : Z) (j : job_row) : job_row :=
  {| j_job_id := j_job_id j; j_kind := j_kind j; j_owner := j_owner j; j_state := JsBuilding;
     j_scope := j_scope j; j_dry_run := j_dry_run j; j_conflict := j_conflict j;
     j_idempotency_key := j_idempotency_key j; j_fingerprint := j_fingerprint j;
     j_artifact_path := j_artifact_path j; j_snapshot_path := path; j_report_path := j_report_path j;
     j_artifact_size := j_artifact_size j; j_artifact_sha256 := j_artifact_sha256 j; j_files_total := files;
     j_files_completed := j_files_completed j; j_parts_total := parts;
     j_parts_completed := j_parts_completed j; j_bytes_total := bytes;
     j_bytes_completed := j_bytes_completed j; j_mappings_created := j_mappings_created j;
     j_mappings_replaced := j_mappings_replaced j; j_files_created := j_files_created j;
     j_error_code := j_error_code j; j_error_message := j_error_message j;
     j_cancel_requested := j_cancel_requested j; j_created_at := j_created_at j; j_updated_at := t;
     j_completed_at := j_completed_at j; j_artifact_expires_at := j_artifact_expires_at j |}.

Definition without_snapshot  (j : job_row) : job_row :=
  {| j_job_id := j_job_id j; j_kind := j_kind j; j_owner := j_owner j; j_state := j_state j;
     j_scope := j_scope j; j_dry_run := j_dry_run j; j_conflict := j_conflict j;
     j_idempotency_key := j_idempotency_key j; j_fingerprint := j_fingerprint j;
     j_artifact_path := j_artifact_path j; j_snapshot_path := ""; j_report_path := j_report_path j;
     j_artifact_size := j_artifact_size j; j_artifact_sha256 := j_artifact_sha256 j;
     j_files_total := j_files_total j; j_files_completed := j_files_completed j;
     j_parts_total := j_parts_total j; j_parts_completed := j_parts_completed j;
     j_bytes_total := j_bytes_total j; j_bytes_completed := j_bytes_completed j;
     j_mappings_created := j_mappings_created j; j_mappings_replaced := j_mappings_replaced j;
     j_files_created := j_files_created j; j_error_code := j_error_code j;
     j_error_message := j_error_message j; j_cancel_requested := j_cancel_requested j;
     j_created_at := j_created_at j; j_updated_at := j_updated_at j; j_completed_at := j_completed_at j;
     j_artifact_expires_at := j_artifact_expires_at j |}.

Definition with_export (path sha256 : string) (size t expires : Z) (j : job_row) : job_row :=
  {| j_job_id := j_job_id j; j_kind := j_kind j; j_owner := j_owner j; j_state := JsSucceeded;
     j_scope := j_scope j; j_dry_run := j_dry_run j; j_conflict := j_conflict j;
     j_idempotency_key := j_idempotency_key j; j_fingerprint := j_fingerprint j; j_artifact_path := path;
     j_snapshot_path := ""; j_report_path := j_report_path j; j_artifact_size := size;
     j_artifact_sha256 := sha256; j_files_total := j_files_total j; j_files_completed := j_files_total j;
     j_parts_total := j_parts_total j; j_parts_completed := j_parts_total j; j_bytes_total := j_bytes_total j;
     j_bytes_completed := j_bytes_total j; j_mappings_created := j_mappings_created j;
     j_mappings_replaced := j_mappings_replaced j; j_files_created := j_files_created j;
     j_error_code := j_error_code j; j_error_message := j_error_message j;
     j_cancel_requested := j_cancel_requested j; j_created_at := j_created_at j; j_updated_at := t;
     j_completed_at := t; j_artifact_expires_at := expires |}.

Definition with_totals (files parts bytes t : Z) (j : job_row) : job_row :=
  {| j_job_id := j_job_id j; j_kind := j_kind j; j_owner := j_owner j; j_state := j_state j;
     j_scope := j_scope j; j_dry_run := j_dry_run j; j_conflict := j_conflict j;
     j_idempotency_key := j_idempotency_key j; j_fingerprint := j_fingerprint j;
     j_artifact_path := j_artifact_path j; j_snapshot_path := j_snapshot_path j;
     j_report_path := j_report_path j; j_artifact_size := j_artifact_size j;
     j_artifact_sha256 := j_artifact_sha256 j; j_files_total := files;
     j_files_completed := j_files_completed j; j_parts_total := parts;
     j_parts_completed := j_parts_completed j; j_bytes_total := bytes;
     j_bytes_completed := j_bytes_completed j; j_mappings_created := j_mappings_created j;
     j_mappings_replaced := j_mappings_replaced j; j_files_created := j_files_created j;
     j_error_code := j_error_code j; j_error_message := j_error_message j;
     j_cancel_requested := j_cancel_requested j; j_created_at := j_created_at j; j_updated_at := t;
     j_completed_at := j_completed_at j; j_artifact_expires_at := j_artifact_expires_at j |}.

Definition with_progress (size t : Z) (j : job_row) : job_row :=
  {| j_job_id := j_job_id j; j_kind := j_kind j; j_owner := j_owner j; j_state := j_state j;
     j_scope := j_scope j; j_dry_run := j_dry_run j; j_conflict := j_conflict j;
     j_idempotency_key := j_idempotency_key j; j_fingerprint := j_fingerprint j;
     j_artifact_path := j_artifact_path j; j_snapshot_path := j_snapshot_path j;
     j_report_path := j_report_path j; j_artifact_size := j_artifact_size j;
     j_artifact_sha256 := j_artifact_sha256 j; j_files_total := j_files_total j;
     j_files_completed := j_files_completed j; j_parts_total := j_parts_total j;
     j_parts_completed := j_parts_completed j + 1; j_bytes_total := j_bytes_total j;
     j_bytes_completed := j_bytes_completed j + size; j_mappings_created := j_mappings_created j;
     j_mappings_replaced := j_mappings_replaced j; j_files_created := j_files_created j;
     j_error_code := j_error_code j; j_error_message := j_error_message j;
     j_cancel_requested := j_cancel_requested j; j_created_at := j_created_at j; j_updated_at := t;
     j_completed_at := j_completed_at j; j_artifact_expires_at := j_artifact_expires_at j |}.

Definition with_finish (state : job_state) (code message : string) (t : Z) (j : job_row) : job_row :=
  {| j_job_id := j_job_id j; j_kind := j_kind j; j_owner := j_owner j; j_state := state; j_scope := j_scope j;
     j_dry_run := j_dry_run j; j_conflict := j_conflict j; j_idempotency_key := j_idempotency_key j;
     j_fingerprint := j_fingerprint j; j_artifact_path := j_artifact_path j;
     j_snapshot_path := j_snapshot_path j; j_report_path := j_report_path j;
     j_artifact_size := j_artifact_size j; j_artifact_sha256 := j_artifact_sha256 j;
     j_files_total := j_files_total j; j_files_completed := j_files_completed j;
     j_parts_total := j_parts_total j; j_parts_completed := j_parts_completed j;
     j_bytes_total := j_bytes_total j; j_bytes_completed := j_bytes_completed j;
     j_mappings_created := j_mappings_created j; j_mappings_replaced := j_mappings_replaced j;
     j_files_created := j_files_created j; j_error_code := code; j_error_message := message;
     j_cancel_requested := bool_decide (state = JsCanceled) || j_cancel_requested j;
     j_created_at := j_created_at j; j_updated_at := t; j_completed_at := t;
     j_artifact_expires_at := j_artifact_expires_at j |}.

Definition with_success (t : Z) (j : job_row) : job_row :=
  {| j_job_id := j_job_id j; j_kind := j_kind j; j_owner := j_owner j; j_state := JsSucceeded;
     j_scope := j_scope j; j_dry_run := j_dry_run j; j_conflict := j_conflict j;
     j_idempotency_key := j_idempotency_key j; j_fingerprint := j_fingerprint j;
     j_artifact_path := j_artifact_path j; j_snapshot_path := j_snapshot_path j;
     j_report_path := j_report_path j; j_artifact_size := j_artifact_size j;
     j_artifact_sha256 := j_artifact_sha256 j; j_files_total := j_files_total j;
     j_files_completed := j_files_completed j; j_parts_total := j_parts_total j;
     j_parts_completed := j_parts_completed j; j_bytes_total := j_bytes_total j;
     j_bytes_completed := j_bytes_completed j; j_mappings_created := j_mappings_created j;
     j_mappings_replaced := j_mappings_replaced j; j_files_created := j_files_created j; j_error_code := "";
     j_error_message := ""; j_cancel_requested := j_cancel_requested j; j_created_at := j_created_at j;
     j_updated_at := t; j_completed_at := t; j_artifact_expires_at := j_artifact_expires_at j |}.

Definition with_restart (t : Z) (j : job_row) : job_row :=
  {| j_job_id := j_job_id j; j_kind := j_kind j; j_owner := j_owner j; j_state := JsQueued;
     j_scope := j_scope j; j_dry_run := j_dry_run j; j_conflict := j_conflict j;
     j_idempotency_key := j_idempotency_key j; j_fingerprint := j_fingerprint j;
     j_artifact_path := j_artifact_path j; j_snapshot_path := j_snapshot_path j;
     j_report_path := j_report_path j; j_artifact_size := j_artifact_size j;
     j_artifact_sha256 := j_artifact_sha256 j; j_files_total := j_files_total j;
     j_files_completed := j_files_completed j; j_parts_total := j_parts_total j; j_parts_completed := 0;
     j_bytes_total := j_bytes_total j; j_bytes_completed := 0; j_mappings_created := j_mappings_created j;
     j_mappings_replaced := j_mappings_replaced j; j_files_created := j_files_created j;
     j_error_code := j_error_code j; j_error_message := j_error_message j;
     j_cancel_requested := j_cancel_requested j; j_created_at := j_created_at j; j_updated_at := t;
     j_completed_at := j_completed_at j; j_artifact_expires_at := j_artifact_expires_at j |}.

Definition without_artifact (t : Z) (j : job_row) : job_row :=
  {| j_job_id := j_job_id j; j_kind := j_kind j; j_owner := j_owner j; j_state := j_state j;
     j_scope := j_scope j; j_dry_run := j_dry_run j; j_conflict := j_conflict j;
     j_idempotency_key := j_idempotency_key j; j_fingerprint := j_fingerprint j; j_artifact_path := "";
     j_snapshot_path := j_snapshot_path j; j_report_path := j_report_path j; j_artifact_size := 0;
     j_artifact_sha256 := j_artifact_sha256 j; j_files_total := j_files_total j;
     j_files_completed := j_files_completed j; j_parts_total := j_parts_total j;
     j_parts_completed := j_parts_completed j; j_bytes_total := j_bytes_total j;
     j_bytes_completed := j_bytes_completed j; j_mappings_created := j_mappings_created j;
     j_mappings_replaced := j_mappings_replaced j; j_files_created := j_files_created j;
     j_error_code := j_error_code j; j_error_message := j_error_message j;
     j_cancel_requested := j_cancel_requested j; j_created_at := j_created_at j; j_updated_at := t;
     j_completed_at := j_completed_at j; j_artifact_expires_at := j_artifact_expires_at j |}.

Definition with_report (path : string) (j : job_row) : job_row :=
  {| j_job_id := j_job_id j; j_kind := j_kind j; j_owner := j_owner j; j_state := j_state j;
     j_scope := j_scope j; j_dry_run := j_dry_run j; j_conflict := j_conflict j;
     j_idempotency_key := j_idempotency_key j; j_fingerprint := j_fingerprint j;
     j_artifact_path := j_artifact_path j; j_snapshot_path := j_snapshot_path j; j_report_path := path;
     j_artifact_size := j_artifact_size j; j_artifact_sha256 := j_artifact_sha256 j;
     j_files_total := j_files_total j; j_files_completed := j_files_completed j;
     j_parts_total := j_parts_total j; j_parts_completed := j_parts_completed j;
     j_bytes_total := j_bytes_total j; j_bytes_completed := j_bytes_completed j;
     j_mappings_created := j_mappings_created j; j_mappings_replaced := j_mappings_replaced j;
     j_files_created := j_files_created j; j_error_code := j_error_code j;
     j_error_message := j_error_message j; j_cancel_requested := j_cancel_requested j;
     j_created_at := j_created_at j; j_updated_at := j_updated_at j; j_completed_at := j_completed_at j;
     j_artifact_expires_at := j_artifact_expires_at j |}.

