(* ===== verification/BackupJobs.v ===== *)
(** * Backup jobs (src/backupmgr/manager.go, disk_space.go)

    Exports and imports are jobs: rows that a request creates, a worker claims and carries
    through its states, and a client may cancel. A restart puts the unfinished ones back
    into the queue. The manager works on the database, the file manager (the class
    [BackupFiles]) and a directory of its own, a map from names to contents. *)

From stdpp Require Import base strings list gmap.
From Stdlib Require Import Ascii.
From S2P Require Import Prelude GoStr Base64 BlockIO Store Multipart FileManager BackupFmt Archive.
From S2P Require Import BackupExport BackupImport JobRow.
Import BackupFmt Archive.
Import Multipart (ToLower).
Import BackupExport (BackupSnapshotRequest, rq_JobID).

(** What a failed job leaves in the work directory. *)
Record failureReport := {
  fr_Kind : job_kind; fr_State : string; fr_Code : string; fr_Message : string; fr_FailedAt : Z;
  fr_Retryable : bool }.

(** Outside src/: the free space of the disk and the random bytes by call number, where a
    copy into the work directory is cut short (the disk fills up, or the request ends),
    gzip and tar over an archive, and encoding/json. *)
Class BackupLib := {
  filesystemFreeBytes : nat -> outcome Z;
  random_bytes : nat -> outcome (list Z);
  interrupted : nat -> option (Z * err);
  pack : list tar_entry -> list Z;
  open_archive : list Z -> archive_file;
  marshal_report : failureReport -> list Z }.

(** The part of [filemgr.IFileManager] that the manager calls, on the database and the rest
    [B] of the file manager's state. *)
Class BackupFiles (B : Type) := {
  CreateBackupSnapshot : BackupSnapshotRequest -> M (World * B) Manifest;
  ReleaseBackupSnapshot : string -> M (World * B) unit;
  OpenBackupPart : string -> Z -> M (World * B) readcloser;
  ValidateBackupImport : Manifest -> string -> M (World * B) unit;
  BeginBackupImport : string -> Manifest -> M (World * B) unit;
  StageBackupPart : string -> Part -> source -> M (World * B) unit;
  FinishBackupImportFiles : string -> Manifest -> M (World * B) unit;
  PublishBackupImport : string -> Manifest -> string -> M (World * B) BackupImport.BackupPublishResult;
  DiscardBackupImport : string -> M (World * B) unit }.

Module BackupJobs.

(** ** Data *)

Record Options := {
  o_Limits : Limits; o_RequiredBuckets : list RequiredBucket; o_SchemaVersion : Z;
  o_MaxPartSize : Z; o_ArtifactRetention : Z; o_JobRetention : Z }.

Record CreateExportRequest := { ce_Owner : string; ce_IdempotencyKey : string; ce_Scope : string }.
(** [ExpectedSHA256] is empty for [CreateImportUpload]; [Body] is nil in [None]. *)
Record importReceiveRequest := {
  ir_Owner : string; ir_IdempotencyKey : string; ir_ConflictPolicy : string; ir_DryRun : bool;
  ir_ContentLength : Z; ir_ExpectedSHA256 : string; ir_Body : option source }.

Record Job := { row : job_row; ArtifactAvailable : bool }.
Definition JobID (job : Job) : string := j_job_id (row job).

Record JobCursor := { jc_CreatedAt : Z; jc_JobID : string }.
(** The strings [Kind] and [State] are empty in [None]; one that names no kind or state is refused. *)
Record ListJobsRequest := {
  lj_Owner : string; lj_Kind : option job_kind; lj_State : option job_state; lj_Cursor : option JobCursor;
  lj_Limit : Z }.
Record JobPage := { jp_Jobs : list Job; jp_NextCursor : option JobCursor }.

Definition validHex (value : string) : bool :=
  match Base64.hex_decode value with Ok _ => true | Err _ => false end.
Definition validJobID (value : string) : bool :=
  (slen value =? 64) && String.eqb (ToLower value) value && validHex value.
Definition validSHA256 (value : string) : bool :=
  (slen value =? 64) && String.eqb (ToLower value) value && validHex value.
Definition validIdempotencyKey (value : string) : bool :=
  negb ((slen value <? 1) || (256 <? slen value)) && negb (containsControl value).
Definition validOwner (value : string) : bool :=
  negb ((slen value <? 1) || (256 <? slen value)) && negb (containsControl value).
Definition validScope (value : string) (maxBytes : Z) : bool :=
  negb (String.eqb value "" || (maxBytes <? slen value) || negb (rooted value) ||
        negb (String.eqb (path_clean value) value) || has_byte "092"%char value) &&
  negb (containsControl value).

Definition isTerminal (state : job_state) : bool :=
  bool_decide (state = JsSucceeded) || bool_decide (state = JsFailed) || bool_decide (state = JsCanceled).

(** ** Free space *)

Definition gib : Z := 1024 * 1024 * 1024.
Definition maxInt64 : Z := 2 ^ 63 - 1.

Definition saturatingFilesystemBytes (blocks blockSize : Z) : Z :=
  if (blocks =? 0) || (blockSize =? 0) then 0
  else let product := blocks * blockSize in if maxInt64 <? product then maxInt64 else product.

(** The bytes a payload needs; int64 arithmetic is written out. *)
Definition required_space (payloadBytes : Z) : outcome Z :=
  if payloadBytes <? 0 then Err ErrInvalidRequest
  else
    let margin := Z.quot payloadBytes 20 in
    let margin := if margin <? gib then gib else margin in
    if wrap64 (maxInt64 - margin) <? payloadBytes then Err ErrLimitExceeded
    else Ok (wrap64 (payloadBytes + margin)).

(** ** Errors *)

Definition classifyError (e : err) : string :=
  match e with
  | ENOSPC => "insufficient_storage"
  | ErrSourceUnreadable => "source_unreadable"
  | ErrBackupBackendUpload => "backend_upload_failed"
  | ErrBackupBackendReadback => "backend_readback_failed"
  | ErrBackupPublish => "publish_failed"
  | ErrInvalidArchive => "invalid_archive"
  | ErrChecksum => "archive_checksum_mismatch"
  | ErrLimitExceeded => "archive_limit_exceeded"
  | ErrBackupConflict => "path_conflict"
  | ErrBackupState => "target_incompatible"
  | _ => "internal"
  end.

Definition safeErrorMessage (e : err) : string :=
  match e with
  | ErrInvalidArchive => "backup archive is invalid"
  | ErrChecksum => "backup archive checksum validation failed"
  | ErrLimitExceeded => "backup archive exceeds configured limits"
  | ENOSPC => "backup work directory has insufficient free space"
  | ErrSourceUnreadable => "backup source data could not be read"
  | ErrBackupBackendUpload => "backup data could not be uploaded to the backend"
  | ErrBackupBackendReadback => "uploaded backup data failed readback verification"
  | ErrBackupPublish => "backup data could not be published atomically"
  | ErrBackupConflict => "backup paths conflict with existing data"
  | ErrBackupState => "backup is incompatible with the target configuration"
  | _ => "backup operation failed"
  end.

(** ** State *)

Section Jobs.
Context `{!Env} `{!ArchiveLib} `{!FileCodec} `{!Sha} `{!BackupLib} {B : Type} `{!BackupFiles B}.
Context (options : Options).

(** The work directory, and how often the disk, the random source and a copy were used. *)
Record Work := { dir : gmap string (list Z); disk_calls : nat; rand_calls : nat; copies : nat }.
Notation St := ((World * B) * Work)%type.

Definition on_fm {A} (m : M (World * B) A) : M St A := fun s =>
  let '(r, wb) := m s.1 in (r, (wb, s.2)).
Definition on_jobs {A} (m : M World A) : M St A := on_fm (on_db m).

Definition set_dir (f : gmap string (list Z) -> gmap string (list Z)) : M St unit :=
  modify (fun s => (s.1, {| dir := f (dir s.2); disk_calls := disk_calls s.2; rand_calls := rand_calls s.2;
                            copies := copies s.2 |})).

(** [O_CREATE|O_EXCL] and the writes, [os.Rename], [os.Remove] (a missing file is no error). *)
Definition create_file (name : string) (data : list Z) : M St unit :=
  d ← reads (fun s => dir s.2);
  _ ← check (bool_decide (is_Some (d !! name))) ErrExist;
  set_dir (<[name := data]>).
Definition write_file (name : string) (data : list Z) : M St unit := set_dir (<[name := data]>).
Definition rename_file (from to : string) : M St unit :=
  d ← reads (fun s => dir s.2);
  match d !! from with
  | None => fail ErrNotExist
  | Some data => set_dir (fun d => <[to := data]> (delete from d))
  end.
Definition remove_file (name : string) : M St unit := set_dir (delete name).

Definition ensureFreeSpace (payloadBytes : Z) : M St unit :=
  _ ← check (payloadBytes <? 0) ErrInvalidRequest;
  n ← reads (fun s => disk_calls s.2);
  _ ← modify (fun s => (s.1, {| dir := dir s.2; disk_calls := S (disk_calls s.2); rand_calls := rand_calls s.2;
                                copies := copies s.2 |}));
  available ← lift (filesystemFreeBytes n);
  required ← lift (required_space payloadBytes);
  check (available <? required) ENOSPC.

(** The reader or writer of a copy, with its periodic checks. *)
Definition space_checked (src : source) : M St source :=
  n ← reads (fun s => copies s.2);
  _ ← modify (fun s => (s.1, {| dir := dir s.2; disk_calls := disk_calls s.2; rand_calls := rand_calls s.2;
                                copies := S (copies s.2) |}));
  mret match interrupted n with
       | Some (k, e) => {| src_data := ztake k (src_data src); src_err := Some e |}
       | None => src
       end.

Definition randomJobID : M St string :=
  n ← reads (fun s => rand_calls s.2);
  _ ← modify (fun s => (s.1, {| dir := dir s.2; disk_calls := disk_calls s.2; rand_calls := S (rand_calls s.2);
                                copies := copies s.2 |}));
  raw ← lift (random_bytes n);
  mret (Base64.hex_encode raw).

(** ** Fingerprints *)

(** Each value with its length in front. *)
Definition fingerprint_text (values : list string) : string :=
  foldr (fun value rest => FormatUint (slen value) +:+ ":" +:+ value +:+ rest) "" values.
Definition requestFingerprint (values : list string) : string :=
  Archive.sha256_hex (FileManager.string_bytes (fingerprint_text values)).

(** ** Reading jobs *)

Definition is_job (jobID : string) (j : job_row) : bool := String.eqb (j_job_id j) jobID.

Definition plain_name (name : string) : bool := String.eqb (path_base name) name.

(** The clock is read only when the row has an expiry. *)
Definition setArtifactAvailability (j : job_row) : M St Job :=
  if bool_decide (j_state j = JsSucceeded) && bool_decide (j_kind j = JkExport) &&
     negb (String.eqb (j_artifact_path j) "") && plain_name (j_artifact_path j)
  then
    alive ← (if j_artifact_expires_at j =? 0 then mret true
             else t ← on_jobs now; mret (t <? j_artifact_expires_at j));
    d ← reads (fun s => dir s.2);
    mret {| row := j; ArtifactAvailable := (alive : bool) && bool_decide (is_Some (d !! j_artifact_path j)) |}
  else mret {| row := j; ArtifactAvailable := false |}.

Definition GetJob (jobID : string) : M St Job :=
  _ ← check (negb (validJobID jobID)) ErrJobNotFound;
  job ← on_jobs (query (fun d => head (sql_select (is_job jobID) (t_job d))));
  match job with
  | None => fail ErrJobNotFound
  | Some j => setArtifactAvailability j
  end.

Definition isCanceled (jobID : string) : M St bool :=
  job ← on_jobs (query (fun d => head (sql_select (is_job jobID) (t_job d))));
  match job with
  | None => fail ErrNoRows
  | Some j => mret (j_cancel_requested j)
  end.

Definition validListJobsRequest (request : ListJobsRequest) : bool :=
  negb ((lj_Limit request <? 1) || (200 <? lj_Limit request)) &&
  (String.eqb (lj_Owner request) "" || validOwner (lj_Owner request)) &&
  match lj_Cursor request with
  | None => true
  | Some c => (1 <=? jc_CreatedAt c) && validJobID (jc_JobID c)
  end.

(** The rows of [queryJobPage] before ORDER BY created_at DESC, job_id DESC. *)
Definition job_matches (request : ListJobsRequest) (createdAt : Z) (jobID : string) (j : job_row) : bool :=
  (String.eqb (lj_Owner request) "" || String.eqb (j_owner j) (lj_Owner request)) &&
  match lj_Kind request with None => true | Some k => bool_decide (j_kind j = k) end &&
  match lj_State request with None => true | Some s => bool_decide (j_state j = s) end &&
  ((createdAt =? 0) || (j_created_at j <? createdAt) ||
   ((j_created_at j =? createdAt) && String.ltb (j_job_id j) jobID)).
Definition newest_first (a b : job_row) : bool :=
  (j_created_at b <? j_created_at a) ||
  ((j_created_at a =? j_created_at b) && String.leb (j_job_id b) (j_job_id a)).

Definition queryJobPage (request : ListJobsRequest) (createdAt : Z) (jobID : string) (limit : Z)
    : M World (list job_row) :=
  query (fun d => sql_limit 0 (Z.to_nat limit)
    (order_by newest_first (sql_select (job_matches request createdAt jobID) (t_job d)))).

Definition ListJobs (request : ListJobsRequest) : M St JobPage :=
  _ ← check (negb (validListJobsRequest request)) ErrInvalidRequest;
  let '(createdAt, jobID) := match lj_Cursor request with
                             | Some c => (jc_CreatedAt c, jc_JobID c)
                             | None => (0, "") end in
  rows ← on_jobs (queryJobPage request createdAt jobID (lj_Limit request + 1));
  jobs ← fold_each (fun acc j => job ← setArtifactAvailability j; mret (acc ++ [job])) [] rows;
  if lj_Limit request <? zlen jobs then
    let jobs := ztake (lj_Limit request) jobs in
    mret {| jp_Jobs := jobs;
            jp_NextCursor := (fun l => {| jc_CreatedAt := j_created_at (row l); jc_JobID := JobID l |}) <$> last jobs |}
  else mret {| jp_Jobs := jobs; jp_NextCursor := None |}.

(** ** Creating jobs *)

Definition new_job (jobID : string) (kind : job_kind) (owner key fingerprint scope : string) (dryRun : bool)
    (conflict : string) (state : job_state) (t : Z) : job_row :=
  {| j_job_id := jobID; j_kind := kind; j_owner := owner; j_state := state; j_scope := scope;
     j_dry_run := dryRun; j_conflict := conflict; j_idempotency_key := key; j_fingerprint := fingerprint;
     j_artifact_path := ""; j_snapshot_path := ""; j_report_path := ""; j_artifact_size := 0;
     j_artifact_sha256 := ""; j_files_total := 0; j_files_completed := 0; j_parts_total := 0;
     j_parts_completed := 0; j_bytes_total := 0; j_bytes_completed := 0; j_mappings_created := 0;
     j_mappings_replaced := 0; j_files_created := 0; j_error_code := ""; j_error_message := "";
     j_cancel_requested := false; j_created_at := t; j_updated_at := t; j_completed_at := 0;
     j_artifact_expires_at := 0 |}.

Definition same_request (owner : string) (kind : job_kind) (key : string) (j : job_row) : bool :=
  String.eqb (j_owner j) owner && bool_decide (j_kind j = kind) && String.eqb (j_idempotency_key j) key.

(** INSERT with the primary key, UNIQUE (owner, job_kind, idempotency_key) and the CHECKs. *)
Definition insert_job (j : job_row) : M World unit :=
  d ← query id;
  _ ← check (negb (slen (j_job_id j) =? 64) || String.eqb (j_owner j) "" ||
             negb (bool_decide (j_conflict j ∈ ["fail"; "replace"]))) ErrCheckConstraint;
  _ ← check (sql_exists (fun r => is_job (j_job_id j) r ||
                                  same_request (j_owner j) (j_kind j) (j_idempotency_key j) r) (t_job d))
        ErrUniqueConstraint;
  upd (set_job (fun t => t ++ [j])).

Definition getJobByIdempotency (owner : string) (kind : job_kind) (key : string) : M St Job :=
  found ← on_jobs (query (fun d => head (sql_select (same_request owner kind key) (t_job d))));
  match found with
  | None => fail ErrNoRows
  | Some j => GetJob (j_job_id j)
  end.

(** The job, and whether it is a new one. *)
Definition insertJob (kind : job_kind) (owner key fingerprint scope : string) (dryRun : bool)
    (conflict : string) (state : job_state) : M St (Job * bool) :=
  jobID ← randomJobID;
  t ← on_jobs now;
  inserted ← attempt (on_jobs (insert_job (new_job jobID kind owner key fingerprint scope dryRun conflict state t)));
  match inserted with
  | Ok _ => job ← GetJob jobID; mret (job, true)
  | Err e =>
      existing ← attempt (getJobByIdempotency owner kind key);
      match existing with
      | Err _ => fail e
      | Ok existing =>
          if negb (String.eqb (j_fingerprint (row existing)) fingerprint) then fail ErrIdempotencyConflict
          else mret (existing, false)
      end
  end.

Definition createQueuedJob (kind : job_kind) (owner key fingerprint scope : string) (dryRun : bool)
    (conflict : string) : M St Job :=
  r ← insertJob kind owner key fingerprint scope dryRun conflict JsQueued; mret r.1.

Definition CreateExport (request : CreateExportRequest) : M St Job :=
  let scope := if String.eqb (ce_Scope request) "" then "/" else path_clean (ce_Scope request) in
  _ ← check (String.eqb (ce_Owner request) "" || negb (validIdempotencyKey (ce_IdempotencyKey request)) ||
             negb (validScope scope (lim_MaxPathBytes (o_Limits options))) ||
             (negb (String.eqb scope (ce_Scope request)) && negb (String.eqb (ce_Scope request) "")))
        ErrInvalidRequest;
  createQueuedJob JkExport (ce_Owner request) (ce_IdempotencyKey request)
    (requestFingerprint ["export"; scope]) scope false "fail".

Definition bool_text (b : bool) : string := if b then "true" else "false".

(** It fills in the policy of the request. *)
Definition prepareImportRequest (request : importReceiveRequest) : M St (string * string) :=
  let policy := if String.eqb (ir_ConflictPolicy request) "" then "fail" else ir_ConflictPolicy request in
  _ ← check (lim_MaxArchiveBytes (o_Limits options) <? ir_ContentLength request) ErrLimitExceeded;
  _ ← check (String.eqb (ir_Owner request) "" || negb (validIdempotencyKey (ir_IdempotencyKey request)))
        ErrInvalidRequest;
  _ ← check (negb (String.eqb policy "fail") && negb (String.eqb policy "replace")) ErrInvalidRequest;
  _ ← check ((ir_ContentLength request <? 1) || negb (bool_decide (is_Some (ir_Body request)))) ErrInvalidRequest;
  _ ← ensureFreeSpace (ir_ContentLength request);
  mret (policy, requestFingerprint
    (["import"; policy; bool_text (ir_DryRun request); FormatUint (ir_ContentLength request)] ++
     (if String.eqb (ir_ExpectedSHA256 request) "" then [] else [ir_ExpectedSHA256 request]))).

(** The digest of the bytes; what was written stays behind when it fails. *)
Definition receiveArtifact (partialName artifactName : string) (contentLength : Z) (body : source)
    (expectedSHA256 : string) : M St string :=
  _ ← create_file partialName [];
  src ← space_checked body;
  let data := ztake contentLength (src_data src) in
  _ ← write_file partialName data;
  let sum := Archive.sha256_hex data in
  _ ← check (zlen data <? contentLength) (default EOF (src_err src));
  _ ← (if (zlen (src_data src) =? contentLength)
       then match src_err src with Some e => fail e | None => mret tt end else mret tt);
  _ ← check (negb (String.eqb expectedSHA256 "") && negb (String.eqb sum expectedSHA256)) ErrChecksum;
  _ ← check (contentLength <? zlen (src_data src)) ErrChecksum;
  _ ← rename_file partialName artifactName;
  mret sum.

(** *** Finishing *)

Definition finishJob (jobID : string) (state : job_state) (code message : string) : M St unit :=
  t ← on_jobs now;
  on_jobs (upd (set_job (sql_update (is_job jobID) (with_finish state code message t)))).

(** A conditional UPDATE, and the number of rows it changed. *)
Definition update_jobs (p : job_row -> bool) (f : job_row -> job_row) : M World Z :=
  affected ← query (fun d => sql_count p (t_job d));
  _ ← upd (set_job (sql_update p f));
  mret affected.

Definition receiveAndQueueImport (job : Job) (request : importReceiveRequest) (body : source) : M St unit :=
  let partialName := JobID job +:+ ".receive.partial" in
  let artifactName := JobID job +:+ ".tgfb" in
  received ← attempt (receiveArtifact partialName artifactName (ir_ContentLength request) body
                        (ir_ExpectedSHA256 request));
  match received with
  | Err e =>
      _ ← remove_file partialName;
      _ ← remove_file artifactName;
      _ ← attempt (finishJob (JobID job) JsCanceled "canceled" "artifact receive failed");
      fail e
  | Ok artifactSHA256 =>
      t ← on_jobs now;
      affected ← on_jobs (update_jobs (fun j => is_job (JobID job) j && bool_decide (j_state j = JsReceiving))
                            (with_received artifactName artifactSHA256 (ir_ContentLength request) t));
      if negb (affected =? 1) then
        _ ← remove_file artifactName;
        _ ← attempt (finishJob (JobID job) JsCanceled "canceled" "artifact queue state changed");
        fail ErrJobClaimed
      else mret tt
  end.

Definition createImport (request : importReceiveRequest) : M St Job :=
  prepared ← prepareImportRequest request;
  let '(policy, fingerprint) := prepared in
  r ← insertJob JkImport (ir_Owner request) (ir_IdempotencyKey request) fingerprint "/" (ir_DryRun request)
        policy JsReceiving;
  let '(job, created) := r in
  if negb (created : bool) then mret job
  else
    _ ← receiveAndQueueImport job request (default {| src_data := []; src_err := None |} (ir_Body request));
    GetJob (JobID job).

(** [CreateImport]; [CreateImportUpload] is [createImport] without a digest. *)
Definition CreateImport (request : importReceiveRequest) : M St Job :=
  _ ← check (negb (validSHA256 (ir_ExpectedSHA256 request))) ErrInvalidRequest;
  createImport request.
Definition CreateImportUpload (request : importReceiveRequest) : M St Job :=
  createImport {| ir_Owner := ir_Owner request; ir_IdempotencyKey := ir_IdempotencyKey request;
                  ir_ConflictPolicy := ir_ConflictPolicy request; ir_DryRun := ir_DryRun request;
                  ir_ContentLength := ir_ContentLength request; ir_ExpectedSHA256 := ""; ir_Body := ir_Body request |}.

Definition Cancel (jobID : string) : M St Job :=
  job ← GetJob jobID;
  _ ← check (isTerminal (j_state (row job)) || bool_decide (j_state (row job) = JsPublishing)) ErrJobNotCancelable;
  t ← on_jobs now;
  affected ← on_jobs (update_jobs (fun j => is_job jobID j && (j_completed_at j =? 0) &&
                                            negb (bool_decide (j_state j = JsPublishing))) (with_cancel t));
  _ ← check (negb (affected =? 1)) ErrJobNotCancelable;
  GetJob jobID.

(** The name of the artifact in the work directory. *)
Definition Artifact (jobID : string) : M St string :=
  job ← GetJob jobID;
  _ ← check (negb (bool_decide (j_kind (row job) = JkExport)) ||
             negb (bool_decide (j_state (row job) = JsSucceeded)) || negb (ArtifactAvailable job))
        ErrArtifactUnavailable;
  _ ← check (negb (plain_name (j_artifact_path (row job)))) ErrArtifactUnavailable;
  mret (j_artifact_path (row job)).

(** *** States *)

Definition transitionState (jobID : string) (from to : job_state) : M St unit :=
  t ← on_jobs now;
  affected ← on_jobs (update_jobs (fun j => is_job jobID j && bool_decide (j_state j = from) &&
                                            (j_completed_at j =? 0) && negb (j_cancel_requested j))
                        (with_state to t));
  if negb (affected =? 1) then
    canceled ← attempt (isCanceled jobID);
    match canceled with
    | Ok true => fail ErrJobCanceled
    | _ => fail ErrJobClaimed
    end
  else mret tt.

Definition resetState (jobID : string) (state : job_state) : M St unit :=
  t ← on_jobs now;
  on_jobs (upd (set_job (sql_update (fun j => is_job jobID j && (j_completed_at j =? 0)) (with_state state t)))).

Definition finishSuccessfulJob (jobID : string) : M St unit :=
  t ← on_jobs now;
  affected ← on_jobs (update_jobs (fun j => is_job jobID j && (j_completed_at j =? 0) &&
                                            negb (j_cancel_requested j)) (with_success t));
  check (negb (affected =? 1)) ErrJobCanceled.

(** ** Exports *)

Definition read_file (name : string) : M St (list Z) :=
  d ← reads (fun s => dir s.2);
  match d !! name with None => fail ErrNotExist | Some data => mret data end.

Definition prepareExportSnapshot (job : Job) : M St Manifest :=
  _ ← transitionState (JobID job) JsQueued JsSnapshotting;
  manifest ← on_fm (CreateBackupSnapshot
    {| BackupExport.rq_JobID := JobID job; BackupExport.rq_Scope := j_scope (row job);
       BackupExport.rq_SchemaVersion := o_SchemaVersion options;
       BackupExport.rq_RequiredBuckets := o_RequiredBuckets options |});
  _ ← ensureFreeSpace (sum_PhysicalBytes (mf_Limits manifest));
  let snapshotName := JobID job +:+ ".snapshot.json" in
  _ ← create_file snapshotName (marshal_manifest manifest);
  t ← on_jobs now;
  _ ← on_jobs (upd (set_job (sql_update (is_job (JobID job))
        (with_snapshot snapshotName (sum_FileCount (mf_Limits manifest)) (sum_PartCount (mf_Limits manifest))
           (sum_PhysicalBytes (mf_Limits manifest)) t))));
  mret manifest.

(** The last file with a reference counts, as in a Go map. *)
Definition source_id (manifest : Manifest) (ref : string) : string :=
  match last (List.filter (fun f => String.eqb (file_Ref f) ref) (mf_Files manifest)) with
  | Some f => file_SourceFileID f
  | None => ""
  end.

(** The sentinel that [classifyError] finds first. *)
Definition unreadable (e : err) : err := match e with ENOSPC => ENOSPC | _ => ErrSourceUnreadable end.

(** The callback that opens a part: it reads only. *)
Definition open_part (jobID : string) (manifest : Manifest) (s : St) (ref : string) (index : Z)
    : outcome part_stream :=
  match (isCanceled jobID s).1 with
  | Err e => Err e
  | Ok true => Err ErrJobCanceled
  | Ok false =>
      match (OpenBackupPart (source_id manifest ref) index s.1).1 with
      | Err e => Err (unreadable e)
      | Ok rc =>
          let '(data, e) := BackupImport.rc_copy (BackupImport.copy_fuel rc) rc in
          Ok {| ps_source := {| src_data := data; src_err := e |}; ps_close := None |}
      end
  end.

Definition verify_name (name : string) : M St (Manifest * Report) :=
  data ← read_file name;
  lift (VerifyFile (open_archive data) (open_archive data) (o_Limits options) (o_MaxPartSize options)).

(** What a failed build has written so far is not kept track of. *)
Definition buildExportArtifact (jobID : string) (manifest : Manifest) : M St (string * Report) :=
  let partialName := jobID +:+ ".partial" in
  _ ← create_file partialName [];
  s ← reads id;
  built ← lift (Build manifest (o_Limits options) (open_part jobID manifest s));
  written ← space_checked {| src_data := pack built.1; src_err := None |};
  _ ← write_file partialName (src_data written);
  _ ← match src_err written with Some e => fail e | None => mret tt end;
  r ← verify_name partialName;
  let artifactName := jobID +:+ ".tgfb" in
  _ ← rename_file partialName artifactName;
  mret (artifactName, r.2).

Definition completeExport (jobID artifactName : string) (report : Report) : M St unit :=
  _ ← remove_file (jobID +:+ ".snapshot.json");
  t ← on_jobs now;
  on_jobs (OnTransation (
    affected ← update_jobs (fun j => is_job jobID j && bool_decide (j_state j = JsBuilding) &&
                                     negb (j_cancel_requested j))
      (with_export artifactName (rep_ArtifactSHA256 report) (rep_ArtifactBytes report) t
         (t + o_ArtifactRetention options));
    _ ← check (negb (affected =? 1)) ErrJobCanceled;
    upd (set_pin (sql_delete (fun p => String.eqb (pin_job p) jobID))))).

Definition processExport (job : Job) : M St unit :=
  manifest ← prepareExportSnapshot job;
  r ← buildExportArtifact (JobID job) manifest;
  completeExport (JobID job) r.1 r.2.

(** ** Imports *)

Definition ensureImportNotCanceled (jobID : string) : M St unit :=
  canceled ← isCanceled jobID;
  check canceled ErrJobCanceled.

Definition publishImport (job : Job) (manifest : Manifest) : M St unit :=
  _ ← on_fm (PublishBackupImport (JobID job) manifest (j_conflict (row job)));
  mret tt.

Definition resumeImportPublish (job : Job) (artifact : string) : M St unit :=
  r ← verify_name artifact;
  _ ← check (negb (String.eqb (rep_ArtifactSHA256 r.2) (j_artifact_sha256 (row job)))) ErrChecksum;
  publishImport job r.1.

(** Of two configured buckets of one name the last counts; a bucket that is not configured
    has the empty ACL. *)
Definition configured_acl (name : string) : string :=
  match last (List.filter (fun b => String.eqb (rb_Name b) name) (o_RequiredBuckets options)) with
  | Some b => rb_ACL b
  | None => ""
  end.
Definition validateBuckets (required : list RequiredBucket) : outcome unit :=
  if forallb (fun b => String.eqb (configured_acl (rb_Name b)) (rb_ACL b)) required then Ok tt
  else Err ErrBackupState.

Definition validateImportArtifact (job : Job) (artifact : string) : M St Manifest :=
  r ← verify_name artifact;
  let '(manifest, report) := r in
  _ ← check (negb (String.eqb (rep_ArtifactSHA256 report) (j_artifact_sha256 (row job)))) ErrChecksum;
  _ ← ensureFreeSpace (sum_PhysicalBytes (mf_Limits manifest));
  _ ← lift (validateBuckets (mf_RequiredBuckets manifest));
  _ ← on_fm (ValidateBackupImport manifest (j_conflict (row job)));
  t ← on_jobs now;
  _ ← on_jobs (upd (set_job (sql_update (is_job (JobID job))
        (with_totals (sum_FileCount (mf_Limits manifest)) (sum_PartCount (mf_Limits manifest))
           (sum_PhysicalBytes (mf_Limits manifest)) t))));
  mret manifest.

Definition indexManifestParts (manifest : Manifest) (entry : string) : Part :=
  default {| part_Index := 0; part_Size := 0; part_MD5 := ""; part_SHA256 := ""; part_Entry := "" |}
    (last (List.filter (fun p => String.eqb (part_Entry p) entry) (all_parts manifest))).

Definition stage_part (job : Job) (manifest : Manifest) (observed : Part) (reader : source) : M St unit :=
  _ ← ensureImportNotCanceled (JobID job);
  let part := indexManifestParts manifest (part_Entry observed) in
  _ ← on_fm (StageBackupPart (JobID job) part reader);
  t ← on_jobs now;
  on_jobs (upd (set_job (sql_update (is_job (JobID job)) (with_progress (part_Size part) t)))).

Definition stageImport (job : Job) (artifact : string) (manifest : Manifest) : M St unit :=
  _ ← transitionState (JobID job) JsValidating JsStaging;
  _ ← on_fm (BeginBackupImport (JobID job) manifest);
  data ← read_file artifact;
  _ ← WalkParts (open_archive data) (o_Limits options) (stage_part job manifest);
  on_fm (FinishBackupImportFiles (JobID job) manifest).

Definition processImport (job : Job) : M St unit :=
  let artifact := j_artifact_path (row job) in
  _ ← check (String.eqb artifact "" || negb (plain_name artifact)) ErrBackupState;
  if bool_decide (j_state (row job) = JsPublishing) then resumeImportPublish job artifact
  else
    _ ← transitionState (JobID job) JsQueued JsValidating;
    manifest ← validateImportArtifact job artifact;
    if j_dry_run (row job) then finishSuccessfulJob (JobID job)
    else
      _ ← stageImport job artifact manifest;
      _ ← ensureImportNotCanceled (JobID job);
      _ ← transitionState (JobID job) JsStaging JsPublishing;
      publishImport job manifest.

(** ** Carrying out a job *)

Definition releaseImportArtifact (jobID artifact : string) : M St unit :=
  if String.eqb artifact "" || negb (plain_name artifact) then mret tt
  else
    _ ← remove_file artifact;
    t ← on_jobs now;
    on_jobs (upd (set_job (sql_update (is_job jobID) (without_artifact t)))).

Definition remove_export_files (jobID : string) : M St unit :=
  _ ← remove_file (jobID +:+ ".partial");
  _ ← remove_file (jobID +:+ ".snapshot.json");
  remove_file (jobID +:+ ".tgfb").

Definition cancelJob (job : Job) : M St unit :=
  _ ← (if bool_decide (j_kind (row job) = JkExport) then
         _ ← on_fm (ReleaseBackupSnapshot (JobID job));
         remove_export_files (JobID job)
       else
         _ ← on_fm (DiscardBackupImport (JobID job));
         _ ← remove_file (JobID job +:+ ".receive.partial");
         _ ← attempt (releaseImportArtifact (JobID job) (j_artifact_path (row job)));
         mret tt);
  finishJob (JobID job) JsCanceled "canceled" "backup job canceled".

Definition cleanupFailedJob (job : Job) : M St unit :=
  if bool_decide (j_kind (row job) = JkExport) then
    _ ← on_fm (ReleaseBackupSnapshot (JobID job));
    remove_export_files (JobID job)
  else
    _ ← on_fm (DiscardBackupImport (JobID job));
    _ ← attempt (releaseImportArtifact (JobID job) (j_artifact_path (row job)));
    mret tt.

(** The report is written next to its name and renamed. *)
Definition writeFailureReport (job : Job) (code message : string) : M St unit :=
  t ← on_jobs now;
  let reportName := JobID job +:+ ".report.json" in
  _ ← write_file reportName (marshal_report
        {| fr_Kind := j_kind (row job); fr_State := "failed"; fr_Code := code; fr_Message := message;
           fr_FailedAt := t; fr_Retryable := false |});
  on_jobs (upd (set_job (sql_update (is_job (JobID job)) (with_report reportName)))).

Definition executeJob (job : Job) : M St unit :=
  match j_kind (row job) with JkExport => processExport job | JkImport => processImport job end.

Definition handleJobFailure (job : Job) (e : err) : M St unit :=
  if bool_decide (e = ErrJobClaimed) then fail e
  else if bool_decide (e = ErrJobCanceled) then cancelJob job
  else if bool_decide (e = ErrBackupCompensation) then fail e
  else
    current ← attempt (GetJob (JobID job));
    if match current with Ok current => isTerminal (j_state (row current)) | Err _ => false end then mret tt
    else
      cleaned ← attempt (cleanupFailedJob job);
      match cleaned with
      | Err _ => fail e
      | Ok _ =>
          let code := classifyError e in
          _ ← attempt (writeFailureReport job code (safeErrorMessage e));
          finished ← attempt (finishJob (JobID job) JsFailed code (safeErrorMessage e));
          match finished with Err _ => fail e | Ok _ => mret tt end
      end.

Definition processJob (job : Job) : M St unit :=
  if bool_decide (j_state (row job) = JsCanceling) || j_cancel_requested (row job) then cancelJob job
  else
    done ← attempt (executeJob job);
    match done with
    | Ok _ =>
        if bool_decide (j_kind (row job) = JkImport) then
          _ ← attempt (releaseImportArtifact (JobID job) (j_artifact_path (row job))); mret tt
        else mret tt
    | Err e => handleJobFailure job e
    end.

Definition claimable (kind : job_kind) (j : job_row) : bool :=
  bool_decide (j_kind j = kind) &&
  bool_decide (j_state j ∈ [JsQueued; JsCanceling; JsPublishing]).
Definition oldest_first (a b : job_row) : bool := j_created_at a <=? j_created_at b.

(** Whether there was a job. *)
Definition processNext (kind : job_kind) : M St bool :=
  next ← on_jobs (query (fun d => head (order_by oldest_first (sql_select (claimable kind) (t_job d)))));
  match next with
  | None => mret false
  | Some j =>
      job ← GetJob (j_job_id j);
      processed ← attempt (processJob job);
      match processed with
      | Ok _ => mret true
      | Err e => if bool_decide (e = ErrJobClaimed) then mret true else fail e
      end
  end.

Definition terminalJobResult (job : Job) : outcome Job :=
  if bool_decide (j_state (row job) = JsSucceeded) then Ok job else Err ErrJobFailed.

(** It waits while another worker has the job. *)
Fixpoint ProcessUntilTerminal (fuel : nat) (jobID : string) : M St Job :=
  match fuel with
  | O => fail Diverge
  | S fuel =>
      job ← GetJob jobID;
      if isTerminal (j_state (row job)) then lift (terminalJobResult job)
      else
        processed ← attempt (processJob job);
        match processed with
        | Ok _ => ProcessUntilTerminal fuel jobID
        | Err e => if bool_decide (e = ErrJobClaimed) then ProcessUntilTerminal fuel jobID else fail e
        end
  end.

(** ** Recovery *)

Definition readRecoverableJobs : M World (list job_row) :=
  query (fun d => order_by oldest_first (sql_select (fun j => j_completed_at j =? 0) (t_job d))).

Definition resetStagedImport (jobID : string) : M St unit :=
  _ ← on_fm (DiscardBackupImport jobID);
  _ ← on_jobs (upd (set_job_file (sql_delete (fun f => String.eqb (jf_job_id f) jobID))));
  t ← on_jobs now;
  on_jobs (upd (set_job (sql_update (is_job jobID) (with_restart t)))).

Definition recoverJob (item : job_row) : M St unit :=
  let id := j_job_id item in
  if bool_decide (j_state item = JsReceiving) then
    _ ← remove_file (id +:+ ".receive.partial");
    finishJob id JsCanceled "canceled" "interrupted artifact receive"
  else if bool_decide (j_kind item = JkExport) then
    _ ← on_fm (ReleaseBackupSnapshot id);
    _ ← remove_export_files id;
    _ ← on_jobs (upd (set_job (sql_update (is_job id) without_snapshot)));
    resetState id JsQueued
  else if bool_decide (j_state item = JsPublishing) then mret tt
  else if bool_decide (j_state item = JsStaging) then resetStagedImport id
  else resetState id JsQueued.

Definition recover : M St unit :=
  items ← on_jobs readRecoverableJobs;
  _ ← for_each recoverJob items;
  on_jobs (upd (fun d => set_pin (sql_delete (fun p => negb (sql_exists (fun j =>
    is_job (pin_job p) j && bool_decide (j_kind j = JkExport) && (j_completed_at j =? 0)) (t_job d)))) d)).

(** ** Cleaning up *)

Definition cleanupCompletedImportArtifacts : M St unit :=
  jobs ← on_jobs (query (fun d => sql_select (fun j =>
           bool_decide (j_kind j = JkImport) && (0 <? j_completed_at j) && negb (String.eqb (j_artifact_path j) ""))
           (t_job d)));
  for_each (fun j => releaseImportArtifact (j_job_id j) (j_artifact_path j)) jobs.

Definition readExpiredArtifacts (t : Z) : M World (list (string * string)) :=
  query (fun d => map (fun j => (j_job_id j, j_artifact_path j)) (sql_select (fun j =>
    negb (String.eqb (j_artifact_path j) "") && (0 <? j_artifact_expires_at j) && (j_artifact_expires_at j <=? t))
    (t_job d))).

Definition expireArtifacts (t : Z) (expired : list (string * string)) : M St unit :=
  for_each (fun item : string * string =>
    if negb (plain_name item.2) then mret tt
    else
      _ ← remove_file item.2;
      on_jobs (upd (set_job (sql_update (is_job item.1) (without_artifact t))))) expired.

Definition retained_out (cutoff : Z) (j : job_row) : bool :=
  (0 <? j_completed_at j) && (j_completed_at j <? cutoff) && String.eqb (j_artifact_path j) "".

Definition cleanupRetainedJobFiles (cutoff : Z) : M St unit :=
  filenames ← on_jobs (query (fun d =>
    flat_map (fun j => [j_report_path j; j_snapshot_path j]) (sql_select (retained_out cutoff) (t_job d))));
  for_each (fun filename =>
    if String.eqb filename "" || negb (plain_name filename) then mret tt else remove_file filename) filenames.

Definition cleanupRetainedJobs : M St unit :=
  if o_JobRetention options <=? 0 then mret tt
  else
    t ← on_jobs now;
    let cutoff := t - o_JobRetention options in
    _ ← cleanupRetainedJobFiles cutoff;
    on_jobs (OnTransation (
      _ ← upd (fun d => set_job_file (sql_delete (fun f =>
            sql_exists (fun j => is_job (jf_job_id f) j && retained_out cutoff j) (t_job d))) d);
      upd (set_job (sql_delete (retained_out cutoff))))).

Definition cleanup : M St unit :=
  _ ← cleanupCompletedImportArtifacts;
  t ← on_jobs now;
  expired ← on_jobs (readExpiredArtifacts t);
  _ ← expireArtifacts t expired;
  cleanupRetainedJobs.
End Jobs.
End BackupJobs.
