(* ===== verification/Config.v ===== *)
(** * The configuration (src/config/config.go)

    [Validate] checks a configuration and fills in defaults, in the order of the code; the
    functions of src/cmd/serve.go hand its parts to the I/O cache and to the backup
    manager. *)

From stdpp Require Import base strings list gmap.
From Stdlib Require Import Ascii.
From S2P Require Import Prelude Authz GoStr Checksum Store S3Object FileStream Multipart DiskCache IOCache BackupFmt BackupJobs.
Import S3Object BackupFmt IOCache.

(** What [url.Parse] returns, with [Hostname] and [Port]. *)
Record URL := {
  Scheme : string; Host : string; Hostname : string; Port : string; has_User : bool; Path : string;
  RawQuery : string; Fragment : string }.

Record BotConfig := { Chatid : Z; Token : string; UploadMinIntervalMS : Z }.

(** Packages net and url, JSON values and their decoding, Unicode case, the working
    directory and symbolic links. *)
Class ConfigLib := {
  json_value : Type;
  decode_bot : json_value -> option BotConfig;
  decode_local : json_value -> option (string * string);
  url_Parse : string -> option URL;
  host_lower : string -> string;
  equal_fold : string -> string -> bool;
  IsLoopback : string -> bool;
  Getwd : option string;
  EvalSymlinks : string -> outcome string }.

Module Config.

Record S3BucketConfig := { b_Name : string; b_ACL : string }.
Record S3Config := {
  s3_Enable : bool; s3_Buckets : list S3BucketConfig; s3_MaxObjectSize : Z; s3_MultipartExpireHours : Z }.
Record WebdavConfig := {
  wd_Enable : bool; wd_Root : string; wd_MaxUploadSize : Z; wd_UploadTempDir : string; wd_QuotaBytes : Z;
  wd_MaxMutationEntries : Z; wd_SyncPageSize : Z }.
Record IOCacheConfig := {
  EnableL1Cache : bool; io_L1CacheSize : Z; io_L1KeySizeLimit : Z; EnableL2Cache : bool; io_L2CacheSize : Z;
  io_L2KeySizeLimit : Z; io_L2CacheDir : string }.
Record BackupConfig := {
  bk_Enable : bool; bk_WorkDir : string; bk_MaxArchiveBytes : Z; bk_MaxExpandedBytes : Z; bk_MaxMappingCount : Z;
  bk_MaxFileCount : Z; bk_MaxPartCount : Z; bk_MaxPathBytes : Z; bk_ArtifactRetentionHours : Z;
  bk_JobRetentionDays : Z }.
Record AdminConfig := {
  ad_Enable : bool; ad_SessionIdleMinutes : Z; ad_SessionMaxHours : Z; ad_MaxUploadSize : Z }.

(** Without the address, the log and the rotation of streams, which are not checked. *)
Record Config `{!ConfigLib} := {
  DBFile : string; BotKind : string; BotInfo : json_value; UserInfo : gmap string string;
  UserPermission : gmap string (list string); ExternalOrigins : list string; S3 : S3Config; Webdav : WebdavConfig;
  IOCache : IOCacheConfig; Backup : BackupConfig; Admin : AdminConfig }.

Definition defaultTelegramUploadIntervalMS : Z := 1000.
Definition maxFilePartCount : Z := 100000.
Definition telegramBlockSize : Z := 20 * 1024 * 1024.
Definition defaultWebDAVMaxUploadSize : Z := 5 * 1024 * 1024 * 1024.
Definition defaultWebDAVMutationEntries : Z := 100000.
Definition defaultWebDAVSyncPageSize : Z := 1000.
Definition defaultBackupMaxArchiveBytes : Z := 100 * 1024 * 1024 * 1024.
Definition defaultBackupMaxExpandedBytes : Z := 1024 * 1024 * 1024 * 1024.
Definition defaultBackupMaxMappingCount : Z := 100000.
Definition defaultBackupMaxFileCount : Z := 100000.
Definition defaultBackupMaxPartCount : Z := 1000000.
Definition defaultBackupMaxPathBytes : Z := 1024.
Definition defaultArtifactRetentionHours : Z := 24.
Definition defaultBackupJobRetentionDays : Z := 30.
Definition defaultAdminSessionIdleMinutes : Z := 30.
Definition defaultAdminSessionMaxHours : Z := 12.
Definition defaultAdminMaxUploadSize : Z := 5 * 1024 * 1024 * 1024.
Definition maxExternalOrigins : Z := 32.
Definition maxAdminUploadSize : Z := 10 * 1024 * 1024 * 1024 * 1024.
Definition maxBackupArchiveBytes : Z := 10 * 1024 * 1024 * 1024 * 1024.
Definition maxBackupExpandedBytes : Z := 100 * 1024 * 1024 * 1024 * 1024.
Definition reservedBuckets : list string := ["backup"; "file"; "webdav"].

Section Validation.
Context `{!ConfigLib}.
Notation MV := (M Config).

Definition set_origins (origins : list string) (c : Config) : Config :=
  {| DBFile := DBFile c; BotKind := BotKind c; BotInfo := BotInfo c; UserInfo := UserInfo c;
     UserPermission := UserPermission c; ExternalOrigins := origins; S3 := S3 c; Webdav := Webdav c;
     IOCache := IOCache c; Backup := Backup c; Admin := Admin c |}.
Definition set_S3 (f : S3Config -> S3Config) (c : Config) : Config :=
  {| DBFile := DBFile c; BotKind := BotKind c; BotInfo := BotInfo c; UserInfo := UserInfo c;
     UserPermission := UserPermission c; ExternalOrigins := ExternalOrigins c; S3 := f (S3 c); Webdav := Webdav c;
     IOCache := IOCache c; Backup := Backup c; Admin := Admin c |}.
Definition set_Webdav (f : WebdavConfig -> WebdavConfig) (c : Config) : Config :=
  {| DBFile := DBFile c; BotKind := BotKind c; BotInfo := BotInfo c; UserInfo := UserInfo c;
     UserPermission := UserPermission c; ExternalOrigins := ExternalOrigins c; S3 := S3 c; Webdav := f (Webdav c);
     IOCache := IOCache c; Backup := Backup c; Admin := Admin c |}.
Definition set_IOCache (f : IOCacheConfig -> IOCacheConfig) (c : Config) : Config :=
  {| DBFile := DBFile c; BotKind := BotKind c; BotInfo := BotInfo c; UserInfo := UserInfo c;
     UserPermission := UserPermission c; ExternalOrigins := ExternalOrigins c; S3 := S3 c; Webdav := Webdav c;
     IOCache := f (IOCache c); Backup := Backup c; Admin := Admin c |}.
Definition set_Backup (f : BackupConfig -> BackupConfig) (c : Config) : Config :=
  {| DBFile := DBFile c; BotKind := BotKind c; BotInfo := BotInfo c; UserInfo := UserInfo c;
     UserPermission := UserPermission c; ExternalOrigins := ExternalOrigins c; S3 := S3 c; Webdav := Webdav c;
     IOCache := IOCache c; Backup := f (Backup c); Admin := Admin c |}.
Definition set_Admin (f : AdminConfig -> AdminConfig) (c : Config) : Config :=
  {| DBFile := DBFile c; BotKind := BotKind c; BotInfo := BotInfo c; UserInfo := UserInfo c;
     UserPermission := UserPermission c; ExternalOrigins := ExternalOrigins c; S3 := S3 c; Webdav := Webdav c;
     IOCache := IOCache c; Backup := Backup c; Admin := f (Admin c) |}.

(** ** Paths *)

Definition blank_text (s : string) : bool := String.eqb (TrimSpace s) "".
(** [filepath.Abs] *)
Definition Abs (path : string) : outcome string :=
  if rooted path then Ok (path_clean path)
  else match Getwd with Some wd => Ok (path_join [wd; path]) | None => Err ErrInvalidConfig end.

(** Up to the first ancestor that exists; every round goes one component up. *)
Fixpoint canonical_loop (fuel : nat) (absolute current : string) (remaining : list string) : outcome string :=
  match fuel with
  | O => Err Diverge
  | S fuel =>
      match EvalSymlinks current with
      | Ok resolved => Ok (path_clean (path_join (resolved :: remaining)))
      | Err e =>
          if negb (bool_decide (e = ErrNotExist)) then Err ErrInvalidConfig
          else
            let parent := path_dir current in
            if String.eqb parent current then Ok (path_clean absolute)
            else canonical_loop fuel absolute parent (path_base current :: remaining)
      end
  end.
Definition canonicalPath (path : string) : outcome string :=
  absolute ← Abs path;
  canonical_loop (S (S (length (clean_comps absolute)))) absolute (path_clean absolute) [].

(** [filepath.Rel]. *)
Fixpoint strip_common (base targ : list string) : list string * list string :=
  match base, targ with
  | b :: base', t :: targ' => if String.eqb b t then strip_common base' targ' else (base, targ)
  | _, _ => (base, targ)
  end.
Definition rel_elements (s : string) : list string :=
  List.filter (fun w => negb (String.eqb w "")) (split_on slash s).
Definition Rel (basepath targpath : string) : option string :=
  let base := path_clean basepath in
  let targ := path_clean targpath in
  if String.eqb targ base then Some "."
  else
    let base := if String.eqb base "." then "" else base in
    if negb (Bool.eqb (rooted base) (rooted targ)) then None
    else
      let '(up, down) := strip_common (rel_elements base) (rel_elements targ) in
      if bool_decide (head up = Some "..") then None
      else Some (join_slash (map (fun _ => "..") up ++ down)).

Definition goes_up (relative : string) : bool := String.eqb relative ".." || HasPrefix relative "../".
Definition pathsOverlap (left right : string) : bool :=
  match Rel left right, Rel right left with
  | Some leftToRight, Some rightToLeft =>
      String.eqb leftToRight "." || String.eqb rightToLeft "." || negb (goes_up leftToRight) || negb (goes_up rightToLeft)
  | _, _ => false
  end.

(** ** Users *)

Definition isControlCharacter (c : ascii) : bool :=
  let v := Z.of_N (N_of_ascii c) in (v <? 32) || (v =? 127).
Definition invalid_user (permissions : gmap string (list string)) (entry : string * string) : bool :=
  let '(username, password) := entry in
  String.eqb username "" || (256 <? slen username) || existsb isControlCharacter (String.list_ascii_of_string username) ||
  String.eqb password "" || (4096 <? slen password) ||
  match permissions !! username with None => true | Some l => bool_decide (l = []) end.
Definition validateUsers : MV (option Authz.Authorizer) :=
  c ← reads id;
  _ ← check (negb (Nat.eqb (size (UserInfo c)) (size (UserPermission c)))) ErrInvalidConfig;
  _ ← check (existsb (invalid_user (UserPermission c)) (map_to_list (UserInfo c))) ErrInvalidConfig;
  _ ← check (existsb (fun e : string * list string => bool_decide (UserInfo c !! e.1 = None)) (map_to_list (UserPermission c)))
        ErrInvalidConfig;
  match Authz.New (UserPermission c) with
  | Ok authorizer => mret (Some authorizer)
  | Err _ => fail ErrInvalidConfig
  end.

(** ** Origins *)

Definition validExternalOriginPort (port : string) : bool :=
  if String.eqb port "" then true
  else match Checksum.Atoi port with Ok value => (1 <=? value) && (value <=? 65535) | Err _ => false end.
Definition validExternalOriginShape (origin : URL) : bool :=
  if negb (String.eqb (Scheme origin) "http") && negb (String.eqb (Scheme origin) "https") then false
  else if String.eqb (Host origin) "" || String.eqb (Hostname origin) "" || has_User origin ||
          negb (validExternalOriginPort (Port origin)) then false
  else if negb (String.eqb (Path origin) "") && negb (String.eqb (Path origin) "/") then false
  else String.eqb (RawQuery origin) "" && String.eqb (Fragment origin) "".
Definition canonicalExternalOriginPort (scheme port : string) : string :=
  if String.eqb scheme "http" && String.eqb port "80" then ""
  else if String.eqb scheme "https" && String.eqb port "443" then ""
  else port.
(** With [net.JoinHostPort]. *)
Definition canonicalExternalOriginHost (hostname port : string) : string :=
  let host := if has_byte ":"%char hostname then "[" +:+ hostname +:+ "]" else hostname in
  if negb (String.eqb port "") then host +:+ ":" +:+ port else host.
Definition isLoopbackHostname (hostname : string) : bool :=
  equal_fold hostname "localhost" || IsLoopback hostname.
Definition normalizeExternalOrigin (value : string) : outcome string :=
  match url_Parse (TrimSpace value) with
  | None => Err ErrInvalidConfig
  | Some origin =>
      if negb (validExternalOriginShape origin) then Err ErrInvalidConfig
      else
        let hostname := host_lower (Hostname origin) in
        let port := canonicalExternalOriginPort (Scheme origin) (Port origin) in
        if String.eqb (Scheme origin) "http" && negb (isLoopbackHostname hostname) then Err ErrInvalidConfig
        else Ok (Scheme origin +:+ "://" +:+ canonicalExternalOriginHost hostname port)
  end.
Fixpoint origins_loop (values : list string) (scheme : string) (seen : list string) : outcome (list string) :=
  match values with
  | [] => Ok (rev seen)
  | value :: values =>
      canonical ← normalizeExternalOrigin value;
      match url_Parse canonical with
      | None => Err ErrInvalidConfig
      | Some origin =>
          if negb (String.eqb scheme "") && negb (String.eqb (Scheme origin) scheme) then Err ErrInvalidConfig
          else if bool_decide (canonical ∈ seen) then Err ErrInvalidConfig
          else origins_loop values (if String.eqb scheme "" then Scheme origin else scheme) (canonical :: seen)
      end
  end.
Definition normalizeExternalOrigins (values : list string) : outcome (list string) :=
  if (zlen values =? 0) || (maxExternalOrigins <? zlen values) then Err ErrInvalidConfig else origins_loop values "" [].
Definition validateExternalOrigins : MV unit :=
  c ← reads id;
  if zlen (ExternalOrigins c) =? 0 then check (ad_Enable (Admin c)) ErrInvalidConfig
  else
    origins ← lift (normalizeExternalOrigins (ExternalOrigins c));
    modify (set_origins origins).

(** ** Services *)

Definition with_expire (hours : Z) (x : S3Config) : S3Config :=
  {| s3_Enable := s3_Enable x; s3_Buckets := s3_Buckets x; s3_MaxObjectSize := s3_MaxObjectSize x;
     s3_MultipartExpireHours := hours |}.
Fixpoint buckets_ok (buckets : list S3BucketConfig) (seen : list string) : bool :=
  match buckets with
  | [] => true
  | bucket :: rest =>
      bucketNamePattern (b_Name bucket) && negb (Contains (b_Name bucket) "..") &&
      negb (bool_decide (b_Name bucket ∈ reservedBuckets)) && negb (bool_decide (b_Name bucket ∈ seen)) &&
      (String.eqb (b_ACL bucket) "private" || String.eqb (b_ACL bucket) "public-read") &&
      buckets_ok rest (b_Name bucket :: seen)
  end.
Definition validateS3 : MV unit :=
  s3 ← reads S3;
  _ ← check (s3_MaxObjectSize s3 <? 0) ErrInvalidConfig;
  let hours := if s3_MultipartExpireHours s3 =? 0 then 24 else s3_MultipartExpireHours s3 in
  _ ← modify (set_S3 (with_expire hours));
  _ ← check ((hours <? 1) || (24 <? hours)) ErrInvalidConfig;
  _ ← check (s3_Enable s3 && (zlen (s3_Buckets s3) =? 0)) ErrInvalidConfig;
  check (negb (buckets_ok (s3_Buckets s3) [])) ErrInvalidConfig.

Definition or_default (value default : Z) : Z := if value =? 0 then default else value.
Definition with_upload (root : string) (max : Z) (temp : string) (w : WebdavConfig) : WebdavConfig :=
  {| wd_Enable := wd_Enable w; wd_Root := root; wd_MaxUploadSize := max; wd_UploadTempDir := temp;
     wd_QuotaBytes := wd_QuotaBytes w; wd_MaxMutationEntries := wd_MaxMutationEntries w;
     wd_SyncPageSize := wd_SyncPageSize w |}.
Definition with_entries (n : Z) (w : WebdavConfig) : WebdavConfig :=
  {| wd_Enable := wd_Enable w; wd_Root := wd_Root w; wd_MaxUploadSize := wd_MaxUploadSize w;
     wd_UploadTempDir := wd_UploadTempDir w; wd_QuotaBytes := wd_QuotaBytes w; wd_MaxMutationEntries := n;
     wd_SyncPageSize := wd_SyncPageSize w |}.
Definition with_page (n : Z) (w : WebdavConfig) : WebdavConfig :=
  {| wd_Enable := wd_Enable w; wd_Root := wd_Root w; wd_MaxUploadSize := wd_MaxUploadSize w;
     wd_UploadTempDir := wd_UploadTempDir w; wd_QuotaBytes := wd_QuotaBytes w;
     wd_MaxMutationEntries := wd_MaxMutationEntries w; wd_SyncPageSize := n |}.
Definition too_large_for_telegram (kind : string) (size : Z) : bool :=
  String.eqb kind "telegram" && (maxFilePartCount * telegramBlockSize <? size).
Definition validateWebDAVPathAndUpload : MV unit :=
  c ← reads id;
  let root := if blank_text (wd_Root (Webdav c)) then "/" else wd_Root (Webdav c) in
  _ ← modify (set_Webdav (fun w => with_upload root (wd_MaxUploadSize w) (wd_UploadTempDir w) w));
  _ ← check (negb (HasPrefix root "/")) ErrInvalidConfig;
  let max := or_default (wd_MaxUploadSize (Webdav c)) (or_default (s3_MaxObjectSize (S3 c)) defaultWebDAVMaxUploadSize) in
  _ ← modify (set_Webdav (fun w => with_upload root max (wd_UploadTempDir w) w));
  _ ← check (max <? 0) ErrInvalidConfig;
  _ ← check (too_large_for_telegram (BotKind c) max) ErrInvalidConfig;
  let temp := if blank_text (wd_UploadTempDir (Webdav c)) then path_join [path_dir (DBFile c); "webdav-upload"]
              else wd_UploadTempDir (Webdav c) in
  modify (set_Webdav (with_upload root max temp)).
Definition validateWebDAVLimits : MV unit :=
  w ← reads Webdav;
  _ ← check (wd_QuotaBytes w <? 0) ErrInvalidConfig;
  let entries := or_default (wd_MaxMutationEntries w) defaultWebDAVMutationEntries in
  _ ← modify (set_Webdav (with_entries entries));
  _ ← check (entries <? 1) ErrInvalidConfig;
  let page := or_default (wd_SyncPageSize w) defaultWebDAVSyncPageSize in
  _ ← modify (set_Webdav (with_page page));
  check ((page <? 1) || (10000 <? page)) ErrInvalidConfig.
Definition validateWebDAV (authorizer : option Authz.Authorizer) : MV unit :=
  w ← reads Webdav;
  if negb (wd_Enable w) then mret tt
  else
    _ ← validateWebDAVPathAndUpload;
    _ ← validateWebDAVLimits;
    check (negb (Authz.Any authorizer Authz.WebDAVRead)) ErrInvalidConfig.

Definition without_l2 (x : IOCacheConfig) : IOCacheConfig :=
  {| EnableL1Cache := EnableL1Cache x; io_L1CacheSize := io_L1CacheSize x; io_L1KeySizeLimit := io_L1KeySizeLimit x;
     EnableL2Cache := false; io_L2CacheSize := io_L2CacheSize x; io_L2KeySizeLimit := io_L2KeySizeLimit x;
     io_L2CacheDir := io_L2CacheDir x |}.
Definition with_dir (dir : string) (x : IOCacheConfig) : IOCacheConfig :=
  {| EnableL1Cache := EnableL1Cache x; io_L1CacheSize := io_L1CacheSize x; io_L1KeySizeLimit := io_L1KeySizeLimit x;
     EnableL2Cache := EnableL2Cache x; io_L2CacheSize := io_L2CacheSize x; io_L2KeySizeLimit := io_L2KeySizeLimit x;
     io_L2CacheDir := dir |}.
Definition inconsistent (size limit : Z) : bool := (size <=? 0) || (limit <=? 0) || (size <? limit).
Definition validateIOCache : MV unit :=
  x ← reads IOCache;
  _ ← check (EnableL1Cache x && inconsistent (io_L1CacheSize x) (io_L1KeySizeLimit x)) ErrInvalidConfig;
  if negb (EnableL2Cache x) then mret tt
  else
    _ ← check (inconsistent (io_L2CacheSize x) (io_L2KeySizeLimit x)) ErrInvalidConfig;
    if EnableL1Cache x && (io_L2KeySizeLimit x <=? io_L1KeySizeLimit x) then modify (set_IOCache without_l2)
    else
      _ ← check (blank_text (io_L2CacheDir x)) ErrInvalidConfig;
      absolute ← lift (Abs (io_L2CacheDir x));
      canonical ← lift (canonicalPath absolute);
      modify (set_IOCache (with_dir canonical)).

Definition with_work_dir (dir : string) (b : BackupConfig) : BackupConfig :=
  {| bk_Enable := bk_Enable b; bk_WorkDir := dir; bk_MaxArchiveBytes := bk_MaxArchiveBytes b;
     bk_MaxExpandedBytes := bk_MaxExpandedBytes b; bk_MaxMappingCount := bk_MaxMappingCount b;
     bk_MaxFileCount := bk_MaxFileCount b; bk_MaxPartCount := bk_MaxPartCount b; bk_MaxPathBytes := bk_MaxPathBytes b;
     bk_ArtifactRetentionHours := bk_ArtifactRetentionHours b; bk_JobRetentionDays := bk_JobRetentionDays b |}.
Definition with_limits (b : BackupConfig) : BackupConfig :=
  {| bk_Enable := bk_Enable b; bk_WorkDir := bk_WorkDir b;
     bk_MaxArchiveBytes := or_default (bk_MaxArchiveBytes b) defaultBackupMaxArchiveBytes;
     bk_MaxExpandedBytes := or_default (bk_MaxExpandedBytes b) defaultBackupMaxExpandedBytes;
     bk_MaxMappingCount := or_default (bk_MaxMappingCount b) defaultBackupMaxMappingCount;
     bk_MaxFileCount := or_default (bk_MaxFileCount b) defaultBackupMaxFileCount;
     bk_MaxPartCount := or_default (bk_MaxPartCount b) defaultBackupMaxPartCount;
     bk_MaxPathBytes := or_default (bk_MaxPathBytes b) defaultBackupMaxPathBytes;
     bk_ArtifactRetentionHours := or_default (bk_ArtifactRetentionHours b) defaultArtifactRetentionHours;
     bk_JobRetentionDays := or_default (bk_JobRetentionDays b) defaultBackupJobRetentionDays |}.
Definition applyBackupDefaults : MV unit :=
  c ← reads id;
  _ ← (if blank_text (bk_WorkDir (Backup c)) then
         workDir ← lift (Abs (path_join [path_dir (DBFile c); "backup-work"]));
         modify (set_Backup (with_work_dir workDir))
       else mret tt);
  modify (set_Backup with_limits).
Definition validateBackupPath : MV string :=
  c ← reads id;
  _ ← check (negb (rooted (bk_WorkDir (Backup c)))) ErrInvalidConfig;
  let workDir := path_clean (bk_WorkDir (Backup c)) in
  _ ← check (String.eqb workDir (path_clean (DBFile c)) ||
             (negb (String.eqb (io_L2CacheDir (IOCache c)) "") && String.eqb workDir (path_clean (io_L2CacheDir (IOCache c)))) ||
             (negb (String.eqb (wd_UploadTempDir (Webdav c)) "") &&
              String.eqb workDir (path_clean (wd_UploadTempDir (Webdav c))))) ErrInvalidConfig;
  mret workDir.
Definition validateBackupLimits : MV unit :=
  b ← reads Backup;
  let limits := [(bk_MaxArchiveBytes b, 1, maxBackupArchiveBytes);
                 (bk_MaxExpandedBytes b, bk_MaxArchiveBytes b, maxBackupExpandedBytes);
                 (bk_MaxMappingCount b, 1, 1000000); (bk_MaxFileCount b, 1, 1000000);
                 (bk_MaxPartCount b, 1, 10000000); (bk_MaxPathBytes b, 1, 4096);
                 (bk_ArtifactRetentionHours b, 1, 168); (bk_JobRetentionDays b, 1, 365)] in
  check (negb (forallb (fun '(value, minimum, maximum) => (minimum <=? value) && (value <=? maximum)) limits)) ErrInvalidConfig.
Definition validateBackup (authorizer : option Authz.Authorizer) : MV unit :=
  _ ← applyBackupDefaults;
  workDir ← validateBackupPath;
  _ ← validateBackupLimits;
  b ← reads Backup;
  _ ← check (bk_Enable b && negb (Authz.Any authorizer Authz.BackupRead)) ErrInvalidConfig;
  modify (set_Backup (with_work_dir workDir)).

Definition with_session (idle max : Z) (a : AdminConfig) : AdminConfig :=
  {| ad_Enable := ad_Enable a; ad_SessionIdleMinutes := idle; ad_SessionMaxHours := max;
     ad_MaxUploadSize := ad_MaxUploadSize a |}.
Definition with_admin_upload (size : Z) (a : AdminConfig) : AdminConfig :=
  {| ad_Enable := ad_Enable a; ad_SessionIdleMinutes := ad_SessionIdleMinutes a;
     ad_SessionMaxHours := ad_SessionMaxHours a; ad_MaxUploadSize := size |}.
Definition validateAdminSession : MV unit :=
  a ← reads Admin;
  let idle := or_default (ad_SessionIdleMinutes a) defaultAdminSessionIdleMinutes in
  _ ← modify (set_Admin (with_session idle (ad_SessionMaxHours a)));
  _ ← check ((idle <? 5) || (120 <? idle)) ErrInvalidConfig;
  let max := or_default (ad_SessionMaxHours a) defaultAdminSessionMaxHours in
  _ ← modify (set_Admin (with_session idle max));
  check ((max <? 1) || (24 <? max) || (max * 60 <=? idle)) ErrInvalidConfig.
Definition validateAdminUploadSize : MV unit :=
  c ← reads id;
  let size := or_default (ad_MaxUploadSize (Admin c)) (or_default (s3_MaxObjectSize (S3 c)) defaultAdminMaxUploadSize) in
  _ ← modify (set_Admin (with_admin_upload size));
  _ ← check ((size <? 1) || (maxAdminUploadSize <? size)) ErrInvalidConfig;
  check (too_large_for_telegram (BotKind c) size) ErrInvalidConfig.
Definition validateAdmin (authorizer : option Authz.Authorizer) : MV unit :=
  a ← reads Admin;
  if negb (ad_Enable a) then mret tt
  else
    _ ← check (negb (Authz.Any authorizer Authz.AdminRead)) ErrInvalidConfig;
    _ ← validateAdminSession;
    validateAdminUploadSize.

Definition validateBlockIO : MV unit :=
  c ← reads id;
  if negb (String.eqb (BotKind c) "telegram") then mret tt
  else
    match decode_bot (BotInfo c) with
    | None => fail ErrInvalidConfig
    | Some bot =>
        _ ← check (Chatid bot =? 0) ErrInvalidConfig;
        _ ← check (blank_text (Token bot)) ErrInvalidConfig;
        _ ← check (or_default (UploadMinIntervalMS bot) defaultTelegramUploadIntervalMS <? defaultTelegramUploadIntervalMS)
              ErrInvalidConfig;
        check (maxFilePartCount * telegramBlockSize <? s3_MaxObjectSize (S3 c)) ErrInvalidConfig
    end.

(** The other directories and files of the service. *)
Definition data_paths (c : Config) : outcome (list string) :=
  let paths := [DBFile c; bk_WorkDir (Backup c); wd_UploadTempDir (Webdav c)] in
  if String.eqb (BotKind c) "localfile" then
    match decode_local (BotInfo c) with
    | None => Err ErrInvalidConfig
    | Some (dir, storageDir) => Ok (paths ++ [if String.eqb dir "" then storageDir else dir])
    end
  else Ok paths.
Definition validateIOCachePathConflicts : MV unit :=
  c ← reads id;
  if negb (EnableL2Cache (IOCache c)) then mret tt
  else
    cacheDir ← lift (canonicalPath (io_L2CacheDir (IOCache c)));
    paths ← lift (data_paths c);
    for_each (fun path =>
      if String.eqb path "" then mret tt
      else
        absolute ← lift (Abs path);
        canonical ← lift (canonicalPath absolute);
        check (pathsOverlap cacheDir canonical) ErrInvalidConfig) paths.

Definition Validate : MV unit :=
  authorizer ← validateUsers;
  _ ← validateExternalOrigins;
  _ ← validateS3;
  _ ← validateWebDAV authorizer;
  _ ← validateIOCache;
  _ ← validateBackup authorizer;
  _ ← validateAdmin authorizer;
  _ ← validateBlockIO;
  validateIOCachePathConflicts.

(** ** What the service makes of it (src/cmd/serve.go) *)

Definition cache_config (c : Config) (binding : list Z) : FileIOCacheConfig :=
  {| DisableL1Cache := negb (EnableL1Cache (IOCache c)); L1CacheSize := io_L1CacheSize (IOCache c);
     L1KeySizeLimit := io_L1KeySizeLimit (IOCache c); DisableL2Cache := negb (EnableL2Cache (IOCache c));
     L2CacheSize := io_L2CacheSize (IOCache c); L2KeySizeLimit := io_L2KeySizeLimit (IOCache c);
     L2CacheDir := io_L2CacheDir (IOCache c); ConfigBinding := binding |}.
Definition toBackupManagerOptions (c : Config) (maxPartSize : Z) : BackupJobs.Options :=
  {| BackupJobs.o_Limits :=
       {| lim_MaxArchiveBytes := bk_MaxArchiveBytes (Backup c); lim_MaxExpandedBytes := bk_MaxExpandedBytes (Backup c);
          lim_MaxMappingCount := bk_MaxMappingCount (Backup c); lim_MaxFileCount := bk_MaxFileCount (Backup c);
          lim_MaxPartCount := bk_MaxPartCount (Backup c); lim_MaxPathBytes := bk_MaxPathBytes (Backup c);
          lim_MaxManifestBytes := lim_MaxManifestBytes DefaultLimits; lim_MaxPropertyBytes := lim_MaxPropertyBytes DefaultLimits;
          lim_MaxUserMetaBytes := lim_MaxUserMetaBytes DefaultLimits |};
     BackupJobs.o_RequiredBuckets :=
       map (fun bucket => {| rb_Name := b_Name bucket; rb_ACL := b_ACL bucket |}) (s3_Buckets (S3 c));
     BackupJobs.o_SchemaVersion := 13; BackupJobs.o_MaxPartSize := maxPartSize;
     BackupJobs.o_ArtifactRetention := bk_ArtifactRetentionHours (Backup c) * 3600000;
     BackupJobs.o_JobRetention := bk_JobRetentionDays (Backup c) * 24 * 3600000 |}.
End Validation.
End Config.
