(* ===== verification/ManifestSpec.v ===== *)
(** * What a valid manifest is

    The checks of validate.go as one declarative specification: records in canonical
    order, files made of consecutive parts or of physical files, directories closed under
    parents, every path inside the scope, metadata for exactly the objects of the buckets,
    totals within the limits. [ValidateManifest] accepts exactly the manifests that meet
    it. *)

From stdpp Require Import base strings list gmap sorting.
From Stdlib Require Import Ascii.
From S2P Require Import Prelude GoStr Base64 Checksum BlockIO Store S3Object FileManager Multipart BackupFmt Archive.
Import BackupFmt.
Import S3Object (TrimSpace, HasPrefix).
Import FileManager (string_bytes).
Import Multipart (MaxInt64, indexed).

Definition slt (a b : string) : Prop := String.ltb a b = true.
#[global] Instance slt_trans : Transitive slt.
Proof. intros a b c. apply ltb_trans. Qed.
Lemma slt_irrefl a : ~ slt a a.
Proof. unfold slt. by rewrite ltb_irrefl. Qed.

(** Strictly increasing keys, all above [last]. *)
Definition canonical (last : string) (keys : list string) : Prop := Sorted slt (last :: keys).

Lemma canonical_cons last k ks : canonical last (k :: ks) <-> slt last k /\ canonical k ks.
Proof.
  unfold canonical. split.
  - intros [H1 H2]%Sorted_inv. split; [by apply HdRel_inv in H2|done].
  - intros [H1 H2]. constructor; [done|by constructor].
Qed.

Lemma canonical_elem last keys k : canonical last keys -> k ∈ keys -> slt last k.
Proof.
  intros Hc Hk. apply Sorted_StronglySorted in Hc; [|apply _].
  apply StronglySorted_inv in Hc as [_ Hc]. by eapply Forall_forall in Hc.
Qed.

Lemma canonical_NoDup last keys : canonical last keys -> NoDup keys.
Proof.
  revert last. induction keys as [|k keys IH]; intros last Hc; [apply NoDup_nil_2|].
  apply canonical_cons in Hc as [_ Hc]. apply NoDup_cons. split; [|by eapply IH].
  intros Hk. by apply (slt_irrefl k), (canonical_elem k keys).
Qed.

(** The keys seen so far are those up to the last one. *)
Definition up_to (last k : string) : Prop := k = last \/ slt k last.
Lemma up_to_below last k : slt last k -> ~ up_to last k.
Proof. intros Hl [->|Hk]; [by apply (slt_irrefl last)|]. apply (slt_irrefl last). by trans k. Qed.
Lemma up_to_step last k x : slt last k -> up_to last x -> up_to k x.
Proof. intros Hl [->|Hx]; right; [done|]. by trans last. Qed.

(** ** Outcomes *)

Lemma obind_ok {A B} (o : outcome A) (f : A -> outcome B) b :
  (a ← o; f a) = Ok b <-> exists a, o = Ok a /\ f a = Ok b.
Proof. destruct o as [a|e]; cbn; [naive_solver|]. split; [done|]. by intros (a & ? & _). Qed.
Lemma refuse_ok b e : refuse b e = Ok tt <-> b = false.
Proof. by destruct b. Qed.
Lemma all_ok_forall {A} (f : A -> outcome unit) l : all_ok f l = Ok tt <-> Forall (fun a => f a = Ok tt) l.
Proof.
  induction l as [|a l IH]; cbn [all_ok]; [by rewrite Forall_nil|]. rewrite obind_ok, Forall_cons, <- IH.
  split; [by intros ([] & ? & ?)|]. intros [? ?]. by exists tt.
Qed.
Lemma then_ok {B} (o : outcome unit) (k : outcome B) b : (_ ← o; k) = Ok b <-> o = Ok tt /\ k = Ok b.
Proof. destruct o as [[]|e]; cbn; naive_solver. Qed.

Section Spec.
Context `{!ArchiveLib} `{!FileCodec} `{!Sha}.

(** ** Paths *)

Record path_ok (maxBytes : Z) (value : string) : Prop := {
  pk_rooted : HasPrefix value "/" = true; pk_clean : path_clean value = value;
  pk_length : slen value <= maxBytes; pk_text : utf8_Valid (string_bytes value) = true;
  pk_plain : containsControl value = false /\ Contains value "\" = false }.

Lemma validatePath_ok value n root :
  validatePath value n root = Ok tt <-> path_ok n value /\ (root = true \/ value <> "/").
Proof.
  unfold validatePath. split.
  - destruct (String.eqb_spec value "") as [->|Hne]; [done|].
    destruct (Z.ltb_spec n (slen value)); [done|]. destruct (utf8_Valid _) eqn:E1; [|done].
    destruct (HasPrefix value "/") eqn:E2; [|done].
    destruct (String.eqb_spec (path_clean value) value); [|done].
    destruct (Contains value "\") eqn:E3; [done|]. cbn [orb negb].
    destruct (String.eqb_spec value "/") as [->|]; destruct root; cbn [andb negb]; try done;
      rewrite refuse_ok; intros E4; (split; [by split|]); auto.
  - intros [[E1 E2 E3 E4 [E5 E6]] Hroot]. destruct (String.eqb_spec value "") as [->|]; [done|].
    destruct (Z.ltb_spec n (slen value)); [lia|]. rewrite E1, E4, E6, E2, String.eqb_refl. cbn [orb negb].
    destruct (String.eqb_spec value "/"); destruct root; cbn [andb negb]; try (by rewrite refuse_ok).
    by destruct Hroot.
Qed.

(** ** Files *)

Definition part_ok (ref : string) (max : Z) (ip : Z * Part) : Prop :=
  part_Index ip.2 = ip.1 /\ 0 < part_Size ip.2 <= max /\ part_Entry ip.2 = part_entry ref ip.1 /\
  isHex (part_MD5 ip.2) 16 = true /\ isHex (part_SHA256 ip.2) 32 = true.

Lemma physicalPart_ok ref part i max cur :
  validatePhysicalPart ref part i max cur = Ok tt <->
  part_ok ref max (i, part) /\ cur + part_Size part <= MaxInt64.
Proof.
  unfold validatePhysicalPart, part_ok. cbn [fst snd].
  destruct (Z.eqb_spec (part_Index part) i); cbn [negb orb]; [|naive_solver].
  destruct (Z.leb_spec (part_Size part) 0); cbn [orb]; [split; [done|]; naive_solver lia|].
  destruct (Z.ltb_spec max (part_Size part)); cbn [orb]; [split; [done|]; naive_solver lia|].
  destruct (isHex (part_MD5 part) 16); cbn [negb orb]; [|naive_solver].
  destruct (isHex (part_SHA256 part) 32); cbn [negb orb]; [|naive_solver].
  destruct (String.eqb_spec (part_Entry part) (part_entry ref i)); cbn [negb]; [|naive_solver].
  rewrite refuse_ok, Z.ltb_ge. naive_solver lia.
Qed.

Lemma parts_positive ref max parts : Forall (part_ok ref max) parts -> Forall (fun ip => 0 < part_Size ip.2) parts.
Proof. intros Hp. eapply Forall_impl; [exact Hp|]. by intros ip (_ & [? _] & _). Qed.

Definition sizes (parts : list (Z * Part)) : Z := sumZ ((fun ip => part_Size ip.2) <$> parts).
Lemma sizes_nonneg parts : Forall (fun ip => 0 < part_Size ip.2) parts -> 0 <= sizes parts.
Proof. intros Hp. apply sumZ_nonneg, Forall_fmap; eapply Forall_impl; [exact Hp|]. cbn. lia. Qed.

Lemma sizes_cons i p parts : sizes ((i, p) :: parts) = part_Size p + sizes parts.
Proof. done. Qed.

Lemma physical_loop_ok ref max parts total t :
  total <= MaxInt64 ->
  physical_parts_loop ref max parts total = Ok t <->
  Forall (part_ok ref max) parts /\ t = total + sizes parts /\ t <= MaxInt64.
Proof.
  revert total. induction parts as [|[i p] parts IH]; intros total Ht; cbn [physical_parts_loop].
  { rewrite Forall_nil. change (sizes []) with 0. rewrite Z.add_0_r. naive_solver. }
  rewrite obind_ok, Forall_cons, sizes_cons. split.
  - intros ([] & [Hp Hb]%physicalPart_ok & Hl). apply IH in Hl as (Hf & -> & Hm); [|done].
    split; [done|]. lia.
  - intros ([Hp Hf] & -> & Hm). pose proof (sizes_nonneg _ (parts_positive _ _ _ Hf)) as Hn.
    exists tt. rewrite physicalPart_ok. split; [split; [done|lia]|].
    apply IH; [lia|]. split; [done|]. lia.
Qed.

(** A physical file: consecutive parts that add up to its size. *)
Record physical_ok (max : Z) (file : File) : Prop := {
  ph_only : file_Segments file = [] /\ file_CompletedParts file = [];
  ph_parts : Forall (part_ok (file_Ref file) max) (indexed (file_Parts file));
  ph_size : sizes (indexed (file_Parts file)) = file_Size file /\ file_Size file <= MaxInt64;
  ph_md5 : compatibilityMD5 file = file_CompatibilityMD5 file }.

Lemma length_zero {A} (l : list A) : bool_decide (length l = 0%nat) = bool_decide (l = []).
Proof. apply bool_decide_ext. apply length_zero_iff_nil. Qed.

Lemma indexed_nil {A} (l : list A) : indexed l = [] -> l = [].
Proof. by destruct l. Qed.

Lemma no_bytes_no_parts max file :
  Forall (part_ok (file_Ref file) max) (indexed (file_Parts file)) ->
  sizes (indexed (file_Parts file)) = 0 -> file_Parts file = [].
Proof.
  intros Hp Hz. apply indexed_nil. apply parts_positive in Hp.
  destruct (indexed (file_Parts file)) as [|[i p] l]; [done|].
  apply Forall_cons in Hp as [Hp Hl]. apply sizes_nonneg in Hl. rewrite sizes_cons in Hz. cbn in Hp. lia.
Qed.

Lemma validatePhysicalFile_ok max file : validatePhysicalFile file max = Ok tt <-> physical_ok max file.
Proof.
  unfold validatePhysicalFile. rewrite !length_zero.
  destruct (bool_decide_reflect (file_Segments file = [])) as [E1|E1]; cbn [negb orb].
  2: { split; [done|]. by intros [[? _] _ _ _]. }
  destruct (bool_decide_reflect (file_CompletedParts file = [])) as [E2|E2]; cbn [negb].
  2: { split; [done|]. by intros [[_ ?] _ _ _]. }
  destruct (Z.eqb_spec (file_Size file) 0) as [Ez|Ez].
  - rewrite refuse_ok, orb_false_iff, !negb_false_iff, bool_decide_eq_true, String.eqb_eq. split.
    + intros [E3 E4]. split; rewrite ?E3; [done|by constructor|split; [by rewrite Ez|by rewrite Ez]|].
      unfold compatibilityMD5. by rewrite E3, E4.
    + intros [_ Hp [Hs _] Hm]. rewrite Ez in Hs. pose proof (no_bytes_no_parts _ _ Hp Hs) as E3.
      split; [done|]. rewrite <- Hm. unfold compatibilityMD5. by rewrite E3.
  - destruct (bool_decide_reflect (file_Parts file = [])) as [E3|E3].
    { split; [done|]. intros [_ _ [Hs _] _]. rewrite E3 in Hs. by rewrite <- Hs in Ez. }
    rewrite obind_ok. split.
    + intros (t & Hl & Hrest). apply physical_loop_ok in Hl as (Hp & -> & Hm); [|done].
      destruct (Z.eqb_spec (0 + sizes (indexed (file_Parts file))) (file_Size file)) as [Es|]; [|done].
      cbn [negb] in Hrest. rewrite refuse_ok, negb_false_iff, String.eqb_eq in Hrest. by split; [|..|split; lia|].
    + intros [_ Hp [Hs Hm] He]. exists (file_Size file). split; [by apply physical_loop_ok|].
      rewrite Z.eqb_refl. cbn [negb]. by rewrite refuse_ok, negb_false_iff, String.eqb_eq.
Qed.

(** A composite file: segments that add up to its size, each a completed part. *)
Definition segment_ok (ix : Z * Segment) : Prop :=
  seg_Index ix.2 = ix.1 /\ fileRefPattern (seg_SourceRef ix.2) = true /\ 0 <= seg_Size ix.2.
Definition segment_sizes (l : list (Z * Segment)) : Z := sumZ ((fun ix => seg_Size ix.2) <$> l).

Definition is_checksum (algorithm value : string) : Prop :=
  exists a raw, Checksum.ParseAlgorithm algorithm = Ok a /\ Checksum.Decode sha1 sha256 a value = Ok raw.

Definition completed_checksum_ok (c : CompletedPart) : Prop :=
  (cpt_ChecksumState c = "unavailable" /\ cpt_ChecksumAlgorithm c = "" /\ cpt_ChecksumValue c = "") \/
  (cpt_ChecksumState c = "available" /\ cpt_ChecksumValue c <> "" /\
   is_checksum (cpt_ChecksumAlgorithm c) (cpt_ChecksumValue c)).

Definition completed_ok (x : Z * (CompletedPart * Segment)) : Prop :=
  cpt_PartNumber x.2.1 = x.1 + 1 /\ cpt_PartSize x.2.1 = seg_Size x.2.2 /\ completed_checksum_ok x.2.1.

Record composite_ok (file : File) : Prop := {
  co_only : file_Parts file = [] /\ file_Segments file <> [];
  co_segments : Forall segment_ok (indexed (file_Segments file));
  co_size : segment_sizes (indexed (file_Segments file)) = file_Size file /\ file_Size file <= MaxInt64;
  co_length : length (file_CompletedParts file) = length (file_Segments file);
  co_completed : Forall completed_ok (indexed (zip (file_CompletedParts file) (file_Segments file))) }.

Lemma segment_sizes_nonneg l : Forall segment_ok l -> 0 <= segment_sizes l.
Proof.
  intros Hl. apply sumZ_nonneg, Forall_fmap. eapply Forall_impl; [exact Hl|]. by intros ix (_ & _ & ?).
Qed.
Lemma segment_sizes_cons i g l : segment_sizes ((i, g) :: l) = seg_Size g + segment_sizes l.
Proof. done. Qed.

Lemma segments_loop_ok l total t :
  total <= MaxInt64 ->
  segments_loop l total = Ok t <-> Forall segment_ok l /\ t = total + segment_sizes l /\ t <= MaxInt64.
Proof.
  revert total. induction l as [|[i g] l IH]; intros total Ht; cbn [segments_loop].
  { rewrite Forall_nil. change (segment_sizes []) with 0. rewrite Z.add_0_r. naive_solver. }
  rewrite Forall_cons, segment_sizes_cons. unfold segment_ok at 1. cbn [fst snd].
  destruct (Z.eqb_spec (seg_Index g) i); cbn [negb orb]; [|naive_solver].
  destruct (fileRefPattern (seg_SourceRef g)); cbn [negb orb]; [|naive_solver].
  destruct (Z.ltb_spec (seg_Size g) 0); [naive_solver lia|].
  destruct (Z.ltb_spec (MaxInt64 - seg_Size g) total).
  - split; [done|]. intros ([_ Hl] & -> & Hm). apply segment_sizes_nonneg in Hl. lia.
  - rewrite IH by lia. naive_solver lia.
Qed.

Lemma checksum_ok c : validateCompletedChecksum c = Ok tt <-> completed_checksum_ok c.
Proof.
  unfold validateCompletedChecksum, completed_checksum_ok, is_checksum.
  destruct (String.eqb_spec (cpt_ChecksumState c) "unavailable") as [->|Hu].
  { rewrite refuse_ok, orb_false_iff, !negb_false_iff, !String.eqb_eq. naive_solver. }
  destruct (String.eqb_spec (cpt_ChecksumState c) "available") as [->|Ha]; [|naive_solver].
  destruct (Checksum.ParseAlgorithm _) as [a|e]; [|naive_solver].
  destruct (String.eqb_spec (cpt_ChecksumValue c) "") as [Ev|Ev]; [naive_solver|].
  destruct (Checksum.Decode _ _ a _) as [raw|e] eqn:E; naive_solver congruence.
Qed.

Lemma completed_loop_ok l total t :
  completed_loop l total = Ok t <->
  Forall completed_ok l /\ t = total + sumZ ((fun x => seg_Size x.2.2) <$> l).
Proof.
  revert total. induction l as [|[i [c g]] l IH]; intros total; cbn [completed_loop].
  { rewrite Forall_nil. cbn. rewrite Z.add_0_r. naive_solver. }
  rewrite Forall_cons. unfold completed_ok at 1. cbn [fst snd].
  change (sumZ _) with (seg_Size g + sumZ ((fun x => seg_Size x.2.2) <$> l)).
  destruct (Z.eqb_spec (cpt_PartNumber c) (i + 1)); cbn [negb orb]; [|naive_solver].
  destruct (Z.eqb_spec (cpt_PartSize c) (seg_Size g)) as [Es|]; cbn [negb]; [|naive_solver].
  rewrite obind_ok. split.
  - intros ([] & Hc%checksum_ok & Hl). apply IH in Hl as [Hf ->]. split; [done|]. lia.
  - intros ([(_ & _ & Hc) Hf] & ->). exists tt. rewrite checksum_ok. split; [done|]. apply IH. split; [done|]. lia.
Qed.

Lemma imap_snd {A B} (f : A -> B) (l : list A) : (fun x => f x.2) <$> indexed l = f <$> l.
Proof. unfold indexed. rewrite fmap_imap. apply list_eq. intros i. rewrite list_lookup_imap, list_lookup_fmap. by destruct (l !! i). Qed.

Lemma completed_sizes file :
  length (file_CompletedParts file) = length (file_Segments file) ->
  sumZ ((fun x => seg_Size x.2.2) <$> indexed (zip (file_CompletedParts file) (file_Segments file))) =
  segment_sizes (indexed (file_Segments file)).
Proof.
  intros El. unfold segment_sizes. rewrite (imap_snd (fun y => seg_Size y.2)), (imap_snd seg_Size).
  f_equal. change ((fun y => seg_Size y.2) <$> ?l) with (seg_Size ∘ snd <$> l).
  rewrite list_fmap_compose. by rewrite snd_zip by lia.
Qed.

Lemma validateCompositeShape_ok file : validateCompositeShape file = Ok tt <-> composite_ok file.
Proof.
  unfold validateCompositeShape. rewrite !length_zero.
  destruct (bool_decide_reflect (file_Parts file = [])) as [E1|E1]; cbn [negb orb].
  2: { split; [done|]. by intros [[? _] _ _ _ _]. }
  destruct (bool_decide_reflect (file_Segments file = [])) as [E2|E2].
  { split; [done|]. by intros [[_ ?] _ _ _ _]. }
  rewrite obind_ok. split.
  - intros (t & Hl & Hrest). apply segments_loop_ok in Hl as (Hs & -> & Hm); [|done].
    destruct (Z.eqb_spec (0 + segment_sizes (indexed (file_Segments file))) (file_Size file)); [|done].
    cbn [negb] in Hrest. case_bool_decide as El; [|done]. cbn [negb] in Hrest.
    apply obind_ok in Hrest as (t & Hc%completed_loop_ok & _). destruct Hc as [Hc _].
    by split; [|..|split; lia| |].
  - intros [_ Hs [Hz Hm] El Hc]. exists (file_Size file). split; [by apply segments_loop_ok|].
    rewrite Z.eqb_refl, (bool_decide_eq_true_2 _ El). cbn [negb]. rewrite obind_ok. exists (file_Size file).
    split; [apply completed_loop_ok; by rewrite completed_sizes, Hz by done|]. by rewrite Z.eqb_refl.
Qed.

Record file_ok (max : Z) (file : File) : Prop := {
  fo_ref : fileRefPattern (file_Ref file) = true;
  fo_source : exists id, ParseUint (file_SourceFileID file) = Ok id /\ id <> 0;
  fo_size : 0 <= file_Size file;
  fo_md5 : isHex (file_CompatibilityMD5 file) 16 = true;
  fo_layout : (file_LayoutVersion file = 1 /\ physical_ok max file) \/
              (file_LayoutVersion file = 2 /\ composite_ok file) }.

Lemma validateFileRecord_ok file existing max :
  validateFileRecord file existing max = Ok tt <-> existing !! file_Ref file = None /\ file_ok max file.
Proof.
  unfold validateFileRecord. destruct (fileRefPattern (file_Ref file)) eqn:E1; cbn [negb].
  2: { split; [done|]. intros [_ []]. congruence. }
  destruct (existing !! file_Ref file) as [f|]; [rewrite bool_decide_true by eauto|rewrite bool_decide_false by (by intros [])];
    [naive_solver|].
  transitivity (file_ok max file); [|naive_solver].
  destruct (ParseUint (file_SourceFileID file)) as [id|e] eqn:E2.
  2: { split; [done|]. intros [_ (id & E & _) _ _ _]. congruence. }
  destruct (Z.eqb_spec id 0) as [->|Hid]; cbn [orb].
  { split; [done|]. intros [_ (id & E & ?) _ _ _]. congruence. }
  destruct (Z.ltb_spec (file_Size file) 0); cbn [orb]; [split; [done|]; intros []; lia|].
  destruct (isHex (file_CompatibilityMD5 file) 16) eqn:E3; cbn [negb].
  2: { split; [done|]. intros []. congruence. }
  destruct (Z.eqb_spec (file_LayoutVersion file) 1) as [L1|L1].
  { rewrite validatePhysicalFile_ok. split.
    - intros Hp. split; eauto.
    - intros [_ _ _ _ [[_ ?]|[L2 _]]]; [done|]. congruence. }
  destruct (Z.eqb_spec (file_LayoutVersion file) 2) as [L2|L2].
  { rewrite validateCompositeShape_ok. split.
    - intros Hp. split; eauto.
    - intros [_ _ _ _ [[? _]|[_ ?]]]; [congruence|done]. }
  split; [done|]. intros [_ _ _ _ [[? _]|[? _]]]; congruence.
Qed.

(** ** The files of a manifest *)

Definition bytes_of (parts : list Part) : Z := sumZ (part_Size <$> parts).
Definition within (limits : Limits) (count bytes : Z) : Prop :=
  count <= lim_MaxPartCount limits /\ count <= MaxInt64 /\ bytes <= lim_MaxExpandedBytes limits /\ bytes <= MaxInt64.
Definition positive_parts (parts : list Part) : Prop := Forall (fun p => 0 < part_Size p) parts.

Lemma bytes_nonneg parts : positive_parts parts -> 0 <= bytes_of parts.
Proof. intros Hp. apply sumZ_nonneg, Forall_fmap. eapply Forall_impl; [exact Hp|]. cbn. lia. Qed.
Lemma bytes_cons p parts : bytes_of (p :: parts) = part_Size p + bytes_of parts.
Proof. done. Qed.
Lemma bytes_app l1 l2 : bytes_of (l1 ++ l2) = bytes_of l1 + bytes_of l2.
Proof. unfold bytes_of. by rewrite fmap_app, sumZ_app. Qed.

Lemma addParts_ok parts c b limits r :
  positive_parts parts -> c <= MaxInt64 ->
  addPhysicalParts parts c b limits = Ok r <->
  r = (c + zlen parts, b + bytes_of parts) /\ (parts = [] \/ within limits (c + zlen parts) (b + bytes_of parts)).
Proof.
  revert c b. induction parts as [|p parts IH]; intros c b Hpos Hc; cbn [addPhysicalParts].
  { change (zlen []) with 0. change (bytes_of []) with 0. rewrite !Z.add_0_r. naive_solver. }
  apply Forall_cons in Hpos as [Hp Hpos]. pose proof (bytes_nonneg _ Hpos) as Hb. pose proof (zlen_nonneg parts) as Hz.
  rewrite bytes_cons. assert (zlen (p :: parts) = 1 + zlen parts) as -> by (unfold zlen; cbn [length]; lia).
  unfold within. destruct (Z.eqb_spec c MaxInt64); cbn [orb]; [naive_solver lia|].
  destruct (Z.ltb_spec (MaxInt64 - part_Size p) b); [naive_solver lia|].
  destruct (Z.ltb_spec (lim_MaxPartCount limits) (c + 1)); [naive_solver lia|].
  destruct (Z.ltb_spec (lim_MaxExpandedBytes limits) (b + part_Size p)); [naive_solver lia|].
  rewrite IH by (done || lia). rewrite !Z.add_assoc. unfold within. split.
  - intros [-> Hw]. split; [done|]. right. destruct Hw as [->|Hw]; [|lia].
    change (zlen []) with 0. change (bytes_of []) with 0. lia.
  - intros [-> [Hn|Hw]]; [done|]. split; [done|]. right. lia.
Qed.

Lemma indexed_parts_positive ref max parts :
  Forall (part_ok ref max) (indexed parts) -> positive_parts parts.
Proof.
  intros Hp. apply parts_positive in Hp. apply Forall_lookup. intros i p Hi.
  eapply (Forall_lookup_1 _ _ i (Z.of_nat i, p)) in Hp; [done|].
  unfold indexed. by rewrite list_lookup_imap, Hi.
Qed.

Lemma file_parts_positive max file : file_ok max file -> positive_parts (file_Parts file).
Proof.
  intros [_ _ _ _ [[_ [_ Hp _ _]]|[_ [[-> _] _ _ _ _]]]]; [by eapply indexed_parts_positive|]. by constructor.
Qed.

Definition parts_of (files : list File) : list Part := files ≫= file_Parts.
Lemma parts_of_positive max files : Forall (file_ok max) files -> positive_parts (parts_of files).
Proof.
  induction 1 as [|f files Hf _ IH]; [by constructor|]. apply Forall_app. split; [by eapply file_parts_positive|done].
Qed.

Definition add_files (m : gmap string File) (files : list File) : gmap string File :=
  foldl (fun m f => <[file_Ref f := f]> m) m files.

Lemma add_files_lookup m files r f :
  NoDup (file_Ref <$> files) -> (forall x, x ∈ files -> m !! file_Ref x = None) ->
  add_files m files !! r = Some f <-> m !! r = Some f \/ (f ∈ files /\ file_Ref f = r).
Proof.
  unfold add_files. revert m. induction files as [|x files IH]; intros m Hnd Hm; cbn [foldl].
  { split; [by left|]. by intros [|[?%elem_of_nil _]]. }
  rewrite fmap_cons in Hnd. apply NoDup_cons in Hnd as [Hx Hnd]. rewrite IH; [|done|].
  - rewrite elem_of_cons. destruct (decide (file_Ref x = r)) as [<-|Hne].
    + rewrite lookup_insert_eq. rewrite (Hm x) by left. split.
      * intros [[= <-]|[? ?]]; [by right; split; [left|]|]. right. by split; [right|].
      * intros [|[[-> |Hf] E]]; [done|by left|]. right. done.
    + rewrite lookup_insert_ne by done. naive_solver.
  - intros y Hy. rewrite lookup_insert_ne; [apply Hm; by right|]. intros E. apply Hx. rewrite E.
    by apply list_elem_of_fmap_2.
Qed.

Lemma files_loop_ok files limits max m c b last r :
  (forall k, is_Some (m !! k) -> up_to last k) -> c <= MaxInt64 ->
  files_loop files limits max m c b last = Ok r <->
  canonical last (file_Ref <$> files) /\ Forall (file_ok max) files /\
  (parts_of files = [] \/ within limits (c + zlen (parts_of files)) (b + bytes_of (parts_of files))) /\
  r = (add_files m files, c + zlen (parts_of files), b + bytes_of (parts_of files)).
Proof.
  revert m c b last. induction files as [|f files IH]; intros m c b last Hm Hc; cbn [files_loop].
  { change (zlen (parts_of [])) with 0. change (bytes_of (parts_of [])) with 0. rewrite !Z.add_0_r.
    split; [intros [= <-]|by intros (_ & _ & _ & ->)]. split_and!; [by constructor|by constructor|by left|done]. }
  rewrite fmap_cons, canonical_cons, Forall_cons.
  change (parts_of (f :: files)) with (file_Parts f ++ parts_of files). rewrite zlen_app, bytes_app, !Z.add_assoc.
  destruct (String.leb (file_Ref f) last) eqn:El.
  { split; [done|]. intros ([Hlt _] & _). apply leb_ltb in Hlt. congruence. }
  apply leb_ltb in El. fold (slt last (file_Ref f)) in El.
  assert (m !! file_Ref f = None) as Hnone.
  { destruct (m !! file_Ref f) eqn:E; [|done]. destruct (up_to_below _ _ El); eauto. }
  rewrite obind_ok. split.
  - intros ([] & [_ Hf]%validateFileRecord_ok & Hrest). apply obind_ok in Hrest as (r1 & Hadd & Hrest).
    pose proof (file_parts_positive _ _ Hf) as Hpos. apply addParts_ok in Hadd as [-> Hw]; [|done|done].
    cbn [fst snd] in Hrest.
    assert (c + zlen (file_Parts f) <= MaxInt64) as Hc'.
    { destruct Hw as [->|(_ & ? & _)]; [|done]. change (zlen []) with 0. lia. }
    apply IH in Hrest as (Hcan & Hfs & Hw' & ->); [| |done].
    2: { intros k. destruct (decide (k = file_Ref f)) as [->|Hk]; [by left|].
         rewrite lookup_insert_ne by done. intros Hs. by apply (up_to_step last), Hm. }
    split; [done|]. split; [done|]. split; [|done].
    destruct Hw' as [E|]; [|by right]. rewrite E, app_nil_r. change (zlen []) with 0. change (bytes_of []) with 0.
    by rewrite !Z.add_0_r.
  - intros ([_ Hcan] & [Hf Hfs] & Hw & ->). exists tt. rewrite validateFileRecord_ok. split; [done|].
    pose proof (file_parts_positive _ _ Hf) as Hpos. pose proof (parts_of_positive _ _ Hfs) as Hpos'.
    pose proof (bytes_nonneg _ Hpos'). pose proof (zlen_nonneg (parts_of files)).
    assert (file_Parts f = [] \/ within limits (c + zlen (file_Parts f)) (b + bytes_of (file_Parts f))) as Hw1.
    { destruct Hw as [[-> _]%app_eq_nil|Hw]; [by left|]. right. unfold within in *. lia. }
    rewrite obind_ok. eexists. rewrite addParts_ok by done. split; [by split|]. cbn [fst snd].
    apply IH; [| |split; [done|]; split; [done|]; split; [|done]].
    + intros k. destruct (decide (k = file_Ref f)) as [->|Hk]; [by left|].
      rewrite lookup_insert_ne by done. intros Hs. by apply (up_to_step last), Hm.
    + destruct Hw1 as [->|(_ & ? & _)]; [|done]. change (zlen []) with 0. lia.
    + destruct Hw as [[_ ->]%app_eq_nil|Hw]; [by left|by right].
Qed.

(** The segments of a composite file are distinct physical files of their sizes. *)
Definition segment_source (files : list File) (g : Segment) : Prop :=
  exists f, f ∈ files /\ file_Ref f = seg_SourceRef g /\ file_LayoutVersion f = 1 /\ file_Size f = seg_Size g.
Definition sources_ok (files : list File) (file : File) : Prop :=
  file_LayoutVersion file = 2 ->
  Forall (segment_source files) (file_Segments file) /\ NoDup (seg_SourceRef <$> file_Segments file).

Section Sources.
Context (m : gmap string File) (files : list File).
Hypothesis Hm : forall r f, m !! r = Some f <-> f ∈ files /\ file_Ref f = r.

Lemma source_segment_ok seen g r :
  validateCompositeSegment m seen g = Ok r <->
  segment_source files g /\ seg_SourceRef g ∉ seen /\ r = {[seg_SourceRef g]} ∪ seen.
Proof using Hm.
  unfold validateCompositeSegment. destruct (m !! seg_SourceRef g) as [f|] eqn:E.
  2: { split; [done|]. intros ((f & Hf & Er & _) & _). assert (m !! seg_SourceRef g = Some f) by (by apply Hm). congruence. }
  assert (segment_source files g <-> file_LayoutVersion f = 1 /\ file_Size f = seg_Size g) as ->.
  { split.
    - intros (f' & Hf & Er & ?). assert (m !! seg_SourceRef g = Some f') as E' by (by apply Hm). congruence.
    - apply Hm in E as [? ?]. intros [? ?]. by exists f. }
  destruct (Z.eqb_spec (file_LayoutVersion f) 1); cbn [negb orb]; [|naive_solver].
  destruct (Z.eqb_spec (file_Size f) (seg_Size g)); cbn [negb]; [|naive_solver].
  destruct (decide (seg_SourceRef g ∈ seen)); naive_solver.
Qed.

Lemma sources_loop_ok l seen :
  sources_loop m l seen = Ok tt <->
  Forall (segment_source files) l /\ NoDup (seg_SourceRef <$> l) /\ (forall g, g ∈ l -> seg_SourceRef g ∉ seen).
Proof using Hm.
  revert seen. induction l as [|g l IH]; intros seen; cbn [sources_loop].
  { split; [|done]. intros _. split_and!; [by constructor|apply NoDup_nil_2|by intros ? ?%elem_of_nil]. }
  rewrite obind_ok, Forall_cons, fmap_cons, NoDup_cons. split.
  - intros (r & (Hg & Hn & ->)%source_segment_ok & (Hl & Hnd & Hs)%IH). split_and!; [done|done| |done|].
    + intros (g' & E & Hg')%list_elem_of_fmap. apply (Hs g' Hg'). rewrite <- E. set_solver.
    + intros g' [->|Hg']%elem_of_cons; [done|]. specialize (Hs g' Hg'). set_solver.
  - intros ([Hg Hl] & [Hn Hnd] & Hs). eexists. rewrite source_segment_ok. split; [split; [done|]; split; [apply Hs; left|done]|].
    apply IH. split_and!; [done|done|]. intros g' Hg'. rewrite elem_of_union, elem_of_singleton.
    intros [E|Hin]; [apply Hn; rewrite <- E; by apply list_elem_of_fmap_2|]. by apply (Hs g'); [right|].
Qed.

Lemma compositeReferences_ok l : validateCompositeReferences l m = Ok tt <-> Forall (sources_ok files) l.
Proof using Hm.
  unfold validateCompositeReferences. rewrite all_ok_forall. apply Forall_proper; [|done].
  intros f. unfold sources_ok. destruct (Z.eqb_spec (file_LayoutVersion f) 2); cbn [negb]; [|naive_solver].
  rewrite sources_loop_ok. split; [naive_solver|]. intros Hs. destruct (Hs ltac:(done)) as [? ?].
  split_and!; [done|done|]. intros g _. apply not_elem_of_empty.
Qed.
End Sources.

(** All the files: in canonical order, well formed, within the limits. *)
Record files_ok (limits : Limits) (max : Z) (files : list File) : Prop := {
  fs_order : canonical "" (file_Ref <$> files);
  fs_files : Forall (file_ok max) files;
  fs_sources : Forall (sources_ok files) files;
  fs_limits : parts_of files = [] \/ within limits (zlen (parts_of files)) (bytes_of (parts_of files)) }.

Lemma add_files_empty files r f :
  canonical "" (file_Ref <$> files) -> add_files ∅ files !! r = Some f <-> f ∈ files /\ file_Ref f = r.
Proof.
  intros Hc. rewrite add_files_lookup; [|by eapply canonical_NoDup|done].
  rewrite lookup_empty. naive_solver.
Qed.

Lemma validateFiles_ok files limits max r :
  validateFiles files limits max = Ok r <->
  files_ok limits max files /\ r = (add_files ∅ files, zlen (parts_of files), bytes_of (parts_of files)).
Proof.
  unfold validateFiles. rewrite obind_ok. split.
  - intros (r1 & Hl & Hrest). apply files_loop_ok in Hl as (Hc & Hf & Hw & ->); [|by intros k [? ?]|done].
    apply obind_ok in Hrest as ([] & Hs & [= <-]). cbn [fst] in Hs.
    apply (compositeReferences_ok _ files) in Hs; [|intros; by apply add_files_empty]. by split; [split|].
  - intros [[Hc Hf Hs Hw] ->]. eexists. rewrite files_loop_ok; [|by intros k [? ?]|done].
    split; [by split_and!|]. rewrite obind_ok. exists tt. cbn [fst]. split; [|done].
    apply (compositeReferences_ok _ files); [|done]. intros. by apply add_files_empty.
Qed.

(** ** Directories and mappings *)

Definition parent_in (paths : gset string) (p : string) : Prop := path_dir p = "/" \/ path_dir p ∈ paths.
Lemma parent_stored_ok paths p : parent_stored paths p = true <-> parent_in paths p.
Proof. unfold parent_stored, parent_in. by rewrite orb_true_iff, String.eqb_eq, bool_decide_eq_true. Qed.

Definition directory_ok (limits : Limits) (item : Directory) : Prop :=
  dir_Path item <> "/" /\ path_ok (lim_MaxPathBytes limits) (dir_Path item) /\ dir_Mode item <= 511.

Definition paths_of {A} (path : A -> string) (items : list A) : gset string := list_to_set (path <$> items).
Lemma paths_of_elem {A} (path : A -> string) items k : k ∈ paths_of path items <-> exists i, i ∈ items /\ path i = k.
Proof.
  unfold paths_of. rewrite elem_of_list_to_set, list_elem_of_fmap. naive_solver.
Qed.
Lemma paths_of_cons {A} (path : A -> string) i items (seen : gset string) :
  {[path i]} ∪ seen ∪ paths_of path items = seen ∪ paths_of path (i :: items).
Proof. unfold paths_of. rewrite fmap_cons, list_to_set_cons. set_solver. Qed.

Lemma up_to_add (seen : gset string) last k :
  slt last k -> (forall x, x ∈ seen -> up_to last x) -> forall x, x ∈ {[k]} ∪ seen -> up_to k x.
Proof.
  intros Hlt Hs x [->%elem_of_singleton|Hx]%elem_of_union; [by left|]. eapply up_to_step; [done|by apply Hs].
Qed.

Lemma directories_loop_ok items limits seen last r :
  (forall k, k ∈ seen -> up_to last k) ->
  directories_loop items limits seen last = Ok r <->
  canonical last (dir_Path <$> items) /\ Forall (directory_ok limits) items /\ r = seen ∪ paths_of dir_Path items.
Proof.
  revert seen last. induction items as [|i items IH]; intros seen last Hs; cbn [directories_loop].
  { unfold paths_of. cbn. split; [intros [= <-]|intros (_ & _ & ->)]; [|f_equal; set_solver].
    split_and!; [by constructor|by constructor|set_solver]. }
  rewrite fmap_cons, canonical_cons, Forall_cons. unfold directory_ok at 1.
  destruct (String.eqb_spec (dir_Path i) "/"); [naive_solver|]. rewrite then_ok, validatePath_ok.
  destruct (decide (dir_Path i ∈ seen)) as [Hin|Hnin].
  { split; [naive_solver|]. intros ([Hlt _] & _). destruct (up_to_below _ _ Hlt); auto. }
  destruct (String.leb (dir_Path i) last) eqn:El; cbn [orb].
  { split; [naive_solver|]. intros ([Hlt%leb_ltb _] & _). congruence. }
  apply leb_ltb in El. destruct (Z.ltb_spec 511 (dir_Mode i)); [naive_solver lia|].
  rewrite (IH _ _ (up_to_add seen last _ El Hs)), paths_of_cons. split; [naive_solver|].
  naive_solver.
Qed.

Definition directories_ok (limits : Limits) (items : list Directory) : Prop :=
  canonical "" (dir_Path <$> items) /\ Forall (directory_ok limits) items /\
  Forall (fun i => parent_in (paths_of dir_Path items) (dir_Path i)) items.

Lemma validateDirectories_ok items limits r :
  validateDirectories items limits = Ok r <-> directories_ok limits items /\ r = paths_of dir_Path items.
Proof.
  unfold validateDirectories, directories_ok. rewrite obind_ok.
  assert (forall s, forallb (parent_stored s) (elements (paths_of dir_Path items)) = true <->
    Forall (fun i => parent_in s (dir_Path i)) items) as Hall.
  { intros s. rewrite forallb_forall, Forall_forall. setoid_rewrite parent_stored_ok.
    setoid_rewrite <- list_elem_of_In. setoid_rewrite elem_of_elements. setoid_rewrite paths_of_elem. naive_solver. }
  split.
  - intros (r1 & Hl & Hrest). apply directories_loop_ok in Hl as (Hc & Hf & ->); [|set_solver].
    rewrite (left_id_L ∅ (∪)) in Hrest. destruct (forallb _ _) eqn:E; [|done]. apply Hall in E. naive_solver.
  - intros [(Hc & Hf & Hp) ->]. eexists. rewrite directories_loop_ok by set_solver. split; [done|].
    rewrite (left_id_L ∅ (∪)). by rewrite (proj2 (Hall _)).
Qed.

(** A mapping leads to a file of its size, below a stored directory. *)
Record mapping_ok (limits : Limits) (files : list File) (directories : gset string) (item : Mapping) : Prop := {
  mo_path : path_ok (lim_MaxPathBytes limits) (map_Path item) /\ map_Path item <> "/";
  mo_file : exists f, f ∈ files /\ file_Ref f = map_FileRef item /\ file_Size f = map_Size item;
  mo_mode : map_Mode item <= 511;
  mo_apart : map_Path item ∉ directories;
  mo_parent : parent_in directories (map_Path item) }.

Lemma mappings_loop_ok items files dirs limits seen last r :
  canonical "" (file_Ref <$> files) -> (forall k, k ∈ seen -> up_to last k) ->
  mappings_loop items (add_files ∅ files) dirs limits seen last = Ok r <->
  canonical last (map_Path <$> items) /\ Forall (mapping_ok limits files dirs) items /\
  r = seen ∪ paths_of map_Path items.
Proof.
  intros Hcf. revert seen last. induction items as [|i items IH]; intros seen last Hs; cbn [mappings_loop].
  { unfold paths_of. cbn. split; [intros [= <-]|intros (_ & _ & ->)]; [|f_equal; set_solver].
    split_and!; [by constructor|by constructor|set_solver]. }
  rewrite fmap_cons, canonical_cons, Forall_cons, then_ok, validatePath_ok.
  set (bad := match add_files ∅ files !! map_FileRef i with Some f => _ | None => _ end).
  assert (bad = false <-> exists f, f ∈ files /\ file_Ref f = map_FileRef i /\ file_Size f = map_Size i) as Hbad.
  { unfold bad. destruct (_ !! _) as [f|] eqn:E.
    - pose proof E as E'. apply add_files_empty in E' as [Hf Er]; [|done]. rewrite negb_false_iff, Z.eqb_eq.
      split; [by exists f|]. intros (f' & Hf' & Er' & ?).
      assert (add_files ∅ files !! map_FileRef i = Some f') by (by apply add_files_empty). congruence.
    - split; [done|]. intros (f & Hf & Er & _).
      assert (add_files ∅ files !! map_FileRef i = Some f) by (by apply add_files_empty). congruence. }
  destruct bad.
  { split; [naive_solver|]. intros (_ & [Hm _] & _). destruct Hm as [_ Hf _ _ _]. by apply Hbad in Hf. }
  destruct (decide (map_Path i ∈ seen)) as [Hin|Hnin].
  { split; [naive_solver|]. intros ([Hlt _] & _). destruct (up_to_below _ _ Hlt); auto. }
  destruct (String.leb (map_Path i) last) eqn:El; cbn [orb].
  { split; [naive_solver|]. intros ([Hlt%leb_ltb _] & _). congruence. }
  apply leb_ltb in El. destruct (Z.ltb_spec 511 (map_Mode i)).
  { split; [naive_solver|]. intros (_ & [[] _] & _). lia. }
  destruct (decide (map_Path i ∈ dirs)) as [Hd|Hd].
  { split; [naive_solver|]. by intros (_ & [[] _] & _). }
  destruct (parent_stored dirs (map_Path i)) eqn:Ep; cbn [negb].
  2: { split; [naive_solver|]. intros (_ & [[] _] & _). apply not_true_iff_false in Ep. by rewrite parent_stored_ok in Ep. }
  apply parent_stored_ok in Ep. rewrite (IH _ _ (up_to_add seen last _ El Hs)), paths_of_cons. split.
  - intros ([Hp [|Hr]] & Hc & Hf & ->); [done|]. split; [done|]. split; [|done]. split; [|done].
    split; [done|by apply Hbad|lia|done|done].
  - intros ([_ Hc] & [[Hp _ _ _ _] Hf] & ->). naive_solver.
Qed.

Definition in_scope (scope : string) (dirs : list Directory) (maps : list Mapping) : Prop :=
  Forall (fun i => pathWithinScope (map_Path i) scope = true) maps /\
  Forall (fun i => pathWithinScope (dir_Path i) scope = true \/ pathWithinScope scope (dir_Path i) = true) dirs.

Lemma validateScope_ok scope dirs maps : validateScopeContents scope dirs maps = Ok tt <-> in_scope scope dirs maps.
Proof.
  unfold validateScopeContents, in_scope. rewrite then_ok, !all_ok_forall.
  setoid_rewrite refuse_ok. setoid_rewrite andb_false_iff. by setoid_rewrite negb_false_iff.
Qed.

(** ** Buckets, objects and properties *)

Definition bucket_ok (b : RequiredBucket) : Prop :=
  bucketNamePattern (rb_Name b) = true /\ Contains (rb_Name b) ".." = false /\
  (rb_ACL b = "private" \/ rb_ACL b = "public-read").

Lemma buckets_loop_ok items seen last :
  (forall k, k ∈ seen -> up_to last k) ->
  buckets_loop items seen last = Ok tt <-> canonical last (rb_Name <$> items) /\ Forall bucket_ok items.
Proof.
  revert seen last. induction items as [|i items IH]; intros seen last Hs; cbn [buckets_loop].
  { split; [|done]. intros _. split; by constructor. }
  rewrite fmap_cons, canonical_cons, Forall_cons. unfold bucket_ok at 1.
  destruct (bucketNamePattern (rb_Name i)); cbn [negb orb]; [|naive_solver].
  destruct (Contains (rb_Name i) ".."); cbn [orb]; [naive_solver|].
  destruct (String.eqb_spec (rb_ACL i) "private") as [Ea|Ea], (String.eqb_spec (rb_ACL i) "public-read") as [Eb|Eb];
    cbn [negb andb]; [| | |naive_solver].
  all: destruct (decide (rb_Name i ∈ seen)) as [Hin|Hnin];
    [split; [done|]; intros ([Hlt _] & _); destruct (up_to_below _ _ Hlt); auto|].
  all: destruct (String.leb (rb_Name i) last) eqn:El;
    [split; [done|]; intros ([Hlt%leb_ltb _] & _); congruence|].
  all: apply leb_ltb in El; rewrite (IH _ _ (up_to_add seen last _ El Hs)); naive_solver.
Qed.

(** What an S3 object carries. *)
Definition request_checksum_ok (o : S3Object) : Prop :=
  (obj_RequestChecksumAlgorithm o = "" /\ obj_RequestChecksumValue o = "" /\ obj_ChecksumType o = "") \/
  (obj_RequestChecksumValue o <> "" /\ is_checksum (obj_RequestChecksumAlgorithm o) (obj_RequestChecksumValue o) /\
   (obj_ChecksumType o = Checksum.TypeFullObject \/
    (obj_ChecksumType o = Checksum.TypeComposite /\
     exists a, Checksum.ParseAlgorithm (obj_RequestChecksumAlgorithm o) = Ok a /\
       Checksum.ValidateCombination a Checksum.TypeComposite = Ok tt))).

Lemma ParseType_ok t r : Checksum.ParseType t = Ok r <->
  r = t /\ (t = Checksum.TypeFullObject \/ t = Checksum.TypeComposite).
Proof.
  unfold Checksum.ParseType, Checksum.parseTypeWithDefault.
  destruct (decide (t = "")) as [->|]; [naive_solver|].
  destruct (decide _); naive_solver.
Qed.

Lemma requestChecksum_ok o : validateS3RequestChecksum o = Ok tt <-> request_checksum_ok o.
Proof.
  unfold validateS3RequestChecksum, request_checksum_ok, is_checksum.
  destruct (String.eqb_spec (obj_RequestChecksumAlgorithm o) "") as [Ea|Ea].
  { rewrite Ea. destruct (String.eqb_spec (obj_RequestChecksumValue o) ""), (String.eqb_spec (obj_ChecksumType o) "");
      cbn; naive_solver. }
  destruct (String.eqb_spec (obj_RequestChecksumValue o) "") as [Ev|Ev]; [cbn; naive_solver|].
  destruct (String.eqb_spec (obj_ChecksumType o) "") as [Et|Et]; [rewrite Et; cbn; naive_solver|]. cbn [andb orb].
  destruct (Checksum.ParseAlgorithm _) as [a|e]; [|naive_solver].
  destruct (Checksum.Decode _ _ a _) as [raw|e] eqn:Ed; [|naive_solver congruence].
  destruct (Checksum.ParseType (obj_ChecksumType o)) as [t|e] eqn:Ep.
  - apply ParseType_ok in Ep as [-> Ht]. destruct (String.eqb_spec (obj_ChecksumType o) Checksum.TypeComposite) as [Ec|Ec].
    + rewrite Ec. destruct (Checksum.ValidateCombination a _) as [[]|e] eqn:Evc; naive_solver congruence.
    + naive_solver.
  - assert (forall r, Checksum.ParseType (obj_ChecksumType o) <> Ok r) as Hno by (intros r; congruence).
    setoid_rewrite ParseType_ok in Hno. naive_solver.
Qed.

Definition user_metadata_ok (limits : Limits) (raw : string) : Prop :=
  slen raw <= lim_MaxUserMetaBytes limits /\
  exists kvs, decodeStrictJSON json_string_map (string_bytes raw) = Ok kvs /\
    Forall (fun kv => bad_user_entry kv = false) kvs /\
    sumZ ((fun kv => slen kv.1 + slen kv.2) <$> kvs) <= lim_MaxUserMetaBytes limits.

Lemma existsb_false {A} (p : A -> bool) l : existsb p l = false <-> Forall (fun a => p a = false) l.
Proof.
  induction l as [|a l IH]; cbn; [by rewrite Forall_nil|]. by rewrite orb_false_iff, Forall_cons, IH.
Qed.

Lemma userMetadata_ok raw limits : validateS3UserMetadata raw limits = Ok tt <-> user_metadata_ok limits raw.
Proof.
  unfold validateS3UserMetadata, user_metadata_ok.
  destruct (Z.ltb_spec (lim_MaxUserMetaBytes limits) (slen raw)); [naive_solver lia|].
  destruct (decodeStrictJSON _ _) as [kvs|e]; [|naive_solver].
  destruct (existsb bad_user_entry kvs) eqn:E.
  - split; [done|]. intros (_ & kvs' & [= <-] & Hf & _). apply existsb_false in Hf. congruence.
  - apply existsb_false in E. rewrite refuse_ok, Z.ltb_ge. naive_solver.
Qed.

Record object_ok (limits : Limits) (o : S3Object) : Prop := {
  ob_etag : obj_ETag o <> "" /\ containsControl (obj_ETag o) = false;
  ob_response : Forall (fun v => containsControl v = false)
    [obj_ContentType o; obj_CacheControl o; obj_ContentDisposition o; obj_ContentEncoding o;
     obj_ContentLanguage o; obj_Expires o];
  ob_expires : obj_Expires o = "" \/ parse_http_time (obj_Expires o) = true;
  ob_sha256 : obj_ChecksumSHA256 o = "" \/
    exists raw, Checksum.Decode sha1 sha256 Checksum.AlgorithmSHA256 (obj_ChecksumSHA256 o) = Ok raw;
  ob_checksum : request_checksum_ok o;
  ob_user : user_metadata_ok limits (obj_UserMetadata o) }.

Lemma responseMetadata_ok o :
  validateS3ResponseMetadata o = Ok tt <->
  Forall (fun v => containsControl v = false)
    [obj_ContentType o; obj_CacheControl o; obj_ContentDisposition o; obj_ContentEncoding o;
     obj_ContentLanguage o; obj_Expires o] /\
  (obj_Expires o = "" \/ parse_http_time (obj_Expires o) = true) /\
  (obj_ChecksumSHA256 o = "" \/
   exists raw, Checksum.Decode sha1 sha256 Checksum.AlgorithmSHA256 (obj_ChecksumSHA256 o) = Ok raw).
Proof.
  unfold validateS3ResponseMetadata. rewrite <- existsb_false. destruct (existsb _ _); [naive_solver|].
  destruct (String.eqb_spec (obj_Expires o) ""), (parse_http_time (obj_Expires o)); cbn [negb andb]; try naive_solver.
  all: destruct (String.eqb_spec (obj_ChecksumSHA256 o) ""); cbn [negb]; [naive_solver|].
  all: destruct (Checksum.Decode _ _ _ _); naive_solver.
Qed.

Lemma validateS3Metadata_ok o limits : validateS3Metadata o limits = Ok tt <-> object_ok limits o.
Proof.
  unfold validateS3Metadata. destruct (String.eqb_spec (obj_ETag o) "") as [E|E]; cbn [orb].
  { split; [done|]. by intros [[? _] _ _ _ _ _]. }
  destruct (containsControl (obj_ETag o)) eqn:Ec.
  { split; [done|]. intros [[_ ?] _ _ _ _ _]. congruence. }
  rewrite !then_ok, responseMetadata_ok, requestChecksum_ok, userMetadata_ok. split.
  - intros ((? & ? & ?) & ? & ?). by split.
  - by intros [].
Qed.

Lemma objects_loop_ok items maps required limits seen last r :
  (forall k, k ∈ seen -> up_to last k) -> required ⊆ maps ->
  objects_loop items maps required limits seen last = Ok r <->
  canonical last (obj_Path <$> items) /\ Forall (fun o => obj_Path o ∈ required /\ object_ok limits o) items /\
  r = seen ∪ paths_of obj_Path items.
Proof.
  intros Hs Hsub. revert seen last Hs. induction items as [|i items IH]; intros seen last Hs; cbn [objects_loop].
  { unfold paths_of. cbn. split; [intros [= <-]|intros (_ & _ & ->)]; [|f_equal; set_solver].
    split_and!; [by constructor|by constructor|set_solver]. }
  rewrite fmap_cons, canonical_cons, Forall_cons.
  destruct (decide (obj_Path i ∉ maps)) as [Hm|Hm]; [split; [done|]; intros (_ & [[? _] _] & _); by destruct Hm; auto|].
  destruct (decide (obj_Path i ∉ required)) as [Hq|Hq]; [split; [done|]; by intros (_ & [[? _] _] & _)|].
  apply dec_stable in Hq.
  destruct (decide (obj_Path i ∈ seen)) as [Hin|Hnin].
  { split; [done|]. intros ([Hlt _] & _). destruct (up_to_below _ _ Hlt); auto. }
  destruct (String.leb (obj_Path i) last) eqn:El.
  { split; [done|]. intros ([Hlt%leb_ltb _] & _). congruence. }
  apply leb_ltb in El.
  rewrite then_ok, validateS3Metadata_ok, (IH _ _ (up_to_add seen last _ El Hs)), paths_of_cons. naive_solver.
Qed.

(** Exactly the mappings of the buckets have metadata. *)
Definition objects_ok (limits : Limits) (maps : list Mapping) (buckets : list RequiredBucket)
    (items : list S3Object) : Prop :=
  canonical "" (obj_Path <$> items) /\ Forall (object_ok limits) items /\
  forall p, (exists o, o ∈ items /\ obj_Path o = p) <->
    (exists m, m ∈ maps /\ map_Path m = p) /\ pathUsesBucket p buckets = true.

Lemma validateS3Objects_ok items maps buckets limits :
  validateS3Objects items (paths_of map_Path maps) buckets limits = Ok tt <-> objects_ok limits maps buckets items.
Proof.
  unfold validateS3Objects, objects_ok. set (required := filter _ _). cbv zeta.
  assert (forall p, p ∈ required <-> (exists m, m ∈ maps /\ map_Path m = p) /\ pathUsesBucket p buckets = true) as Hreq.
  { intros p. unfold required. rewrite elem_of_filter, paths_of_elem. naive_solver. }
  assert (required ⊆ paths_of map_Path maps) as Hsub by (unfold required; set_solver).
  rewrite obind_ok. setoid_rewrite refuse_ok. setoid_rewrite negb_false_iff. setoid_rewrite bool_decide_eq_true.
  setoid_rewrite <- Hreq. setoid_rewrite <- (paths_of_elem obj_Path). split.
  - intros (r & Hl & Hsz). apply objects_loop_ok in Hl as (Hc & Hf & ->); [|set_solver|done].
    rewrite (left_id_L ∅ (∪)) in Hsz. split; [done|]. split; [eapply Forall_impl; [exact Hf|]; by intros ? []|].
    assert (paths_of obj_Path items ⊆ required) as Hi.
    { intros p (o & Ho & <-)%paths_of_elem. by eapply Forall_forall in Hf as [? _]. }
    assert (paths_of obj_Path items = required) as -> by (apply set_subseteq_size_eq; [done|lia]). done.
  - intros (Hc & Hf & Hp). eexists. rewrite objects_loop_ok by set_solver. rewrite (left_id_L ∅ (∪)).
    split; [split; [done|]; split; [|done]|].
    + apply Forall_forall. intros o Ho. split; [apply Hp, paths_of_elem; by exists o|]. by eapply Forall_forall in Hf.
    + f_equal. by apply set_eq.
Qed.

Record property_ok (limits : Limits) (resources : gset string) (p : WebDAVProperty) : Prop := {
  po_path : prop_Path p ∈ resources;
  po_name : prop_NamespaceURI p <> "DAV:" /\ TrimSpace (prop_LocalName p) <> "" /\
    validXMLLocalName (prop_LocalName p) = true;
  po_plain : containsControl (prop_NamespaceURI p) = false /\ containsControl (prop_LocalName p) = false;
  po_value : slen (prop_ValueXML p) <= lim_MaxPropertyBytes limits /\ validateXMLFragment (prop_ValueXML p) = Ok tt }.

Lemma properties_loop_ok items maps dirs limits seen last :
  (forall k, k ∈ seen -> up_to last k) ->
  properties_loop items maps dirs limits seen last = Ok tt <->
  canonical last (property_key <$> items) /\ Forall (property_ok limits (maps ∪ dirs)) items.
Proof.
  revert seen last. induction items as [|i items IH]; intros seen last Hs; cbn [properties_loop].
  { split; [|done]. intros _. split; by constructor. }
  rewrite fmap_cons, canonical_cons, Forall_cons.
  destruct (decide (prop_Path i ∉ maps /\ prop_Path i ∉ dirs)) as [Hp|Hp].
  { split; [done|]. intros (_ & [[Hin _ _ _] _]). set_solver. }
  assert (prop_Path i ∈ maps ∪ dirs) as Hin.
  { destruct (decide (prop_Path i ∈ maps)), (decide (prop_Path i ∈ dirs)); set_solver. }
  destruct (String.eqb_spec (prop_NamespaceURI i) "DAV:"); cbn [orb].
  { split; [done|]. by intros (_ & [[_ (? & _) _ _] _]). }
  destruct (String.eqb_spec (TrimSpace (prop_LocalName i)) ""); cbn [orb].
  { split; [done|]. by intros (_ & [[_ (_ & ? & _) _ _] _]). }
  destruct (validXMLLocalName (prop_LocalName i)) eqn:E1; cbn [negb].
  2: { split; [done|]. intros (_ & [[_ (_ & _ & ?) _ _] _]). congruence. }
  destruct (containsControl (prop_NamespaceURI i)) eqn:E2; cbn [orb].
  { split; [done|]. intros (_ & [[_ _ [? _] _] _]). congruence. }
  destruct (containsControl (prop_LocalName i)) eqn:E3.
  { split; [done|]. intros (_ & [[_ _ [_ ?] _] _]). congruence. }
  destruct (Z.ltb_spec (lim_MaxPropertyBytes limits) (slen (prop_ValueXML i))).
  { split; [done|]. intros (_ & [[_ _ _ [? _]] _]). lia. }
  destruct (validateXMLFragment (prop_ValueXML i)) as [[]|e] eqn:E4.
  2: { split; [done|]. intros (_ & [[_ _ _ [_ ?]] _]). congruence. }
  destruct (decide (property_key i ∈ seen)) as [Hk|Hk].
  { split; [done|]. intros ([Hlt _] & _). destruct (up_to_below _ _ Hlt); auto. }
  destruct (String.leb (property_key i) last) eqn:El.
  { split; [done|]. intros ([Hlt%leb_ltb _] & _). congruence. }
  apply leb_ltb in El. rewrite (IH _ _ (up_to_add seen last _ El Hs)).
  assert (property_ok limits (maps ∪ dirs) i) by (by split). naive_solver.
Qed.

(** ** The manifest *)

(** The part size that holds: the target's, unless it has none, and the source's. *)
Definition part_limit (m : Manifest) (target : Z) : Z :=
  Z.min (if target <=? 0 then MaxInt64 else target) (so_MaxPartSize (mf_Source m)).

Record manifest_ok (limits : Limits) (target : Z) (m : Manifest) : Prop := {
  mk_format : mf_Format m = FormatName /\ mf_Version m = FormatVersion;
  mk_created : parse_RFC3339 (mf_CreatedAt m) = true;
  mk_scope : path_ok (lim_MaxPathBytes limits) (mf_Scope m);
  mk_source : 1 <= so_SchemaVersion (mf_Source m) /\ so_BlockIOKind (mf_Source m) <> "" /\
    1 <= so_MaxPartSize (mf_Source m);
  mk_counts : zlen (mf_Mappings m) <= lim_MaxMappingCount limits /\
    zlen (mf_Files m) <= lim_MaxFileCount limits /\ zlen (mf_Directories m) <= lim_MaxMappingCount limits;
  mk_files : files_ok limits (part_limit m target) (mf_Files m);
  mk_directories : directories_ok limits (mf_Directories m);
  mk_mappings : canonical "" (map_Path <$> mf_Mappings m) /\
    Forall (mapping_ok limits (mf_Files m) (paths_of dir_Path (mf_Directories m))) (mf_Mappings m);
  mk_inside : in_scope (mf_Scope m) (mf_Directories m) (mf_Mappings m);
  mk_buckets : canonical "" (rb_Name <$> mf_RequiredBuckets m) /\ Forall bucket_ok (mf_RequiredBuckets m);
  mk_objects : objects_ok limits (mf_Mappings m) (mf_RequiredBuckets m) (mf_S3Objects m);
  mk_properties : canonical "" (property_key <$> mf_WebDAVProperties m) /\
    Forall (property_ok limits (paths_of map_Path (mf_Mappings m) ∪ paths_of dir_Path (mf_Directories m)))
      (mf_WebDAVProperties m);
  mk_summary : mf_Limits m =
    {| sum_MappingCount := zlen (mf_Mappings m); sum_DirectoryCount := zlen (mf_Directories m);
       sum_FileCount := zlen (mf_Files m); sum_PartCount := zlen (parts_of (mf_Files m));
       sum_PhysicalBytes := bytes_of (parts_of (mf_Files m)) |} }.

Lemma validateCounts_ok m limits :
  validateCounts m limits = Ok tt <->
  zlen (mf_Mappings m) <= lim_MaxMappingCount limits /\
  zlen (mf_Files m) <= lim_MaxFileCount limits /\ zlen (mf_Directories m) <= lim_MaxMappingCount limits.
Proof.
  unfold validateCounts. destruct (Z.ltb_spec (lim_MaxMappingCount limits) (zlen (mf_Mappings m))); [naive_solver lia|].
  destruct (Z.ltb_spec (lim_MaxFileCount limits) (zlen (mf_Files m))); [naive_solver lia|].
  rewrite refuse_ok, Z.ltb_ge. naive_solver.
Qed.

Lemma validateHeader_ok m limits :
  validateManifestHeader m limits = Ok tt <->
  (mf_Format m = FormatName /\ mf_Version m = FormatVersion) /\ parse_RFC3339 (mf_CreatedAt m) = true /\
  path_ok (lim_MaxPathBytes limits) (mf_Scope m) /\
  (1 <= so_SchemaVersion (mf_Source m) /\ so_BlockIOKind (mf_Source m) <> "" /\ 1 <= so_MaxPartSize (mf_Source m)) /\
  validateCounts m limits = Ok tt.
Proof.
  unfold validateManifestHeader. destruct (String.eqb_spec (mf_Format m) FormatName); cbn [negb orb]; [|naive_solver].
  destruct (Z.eqb_spec (mf_Version m) FormatVersion); cbn [negb]; [|naive_solver].
  destruct (parse_RFC3339 _); cbn [negb]; [|naive_solver].
  rewrite then_ok, validatePath_ok. cbv zeta.
  destruct (Z.ltb_spec (so_SchemaVersion (mf_Source m)) 1); cbn [orb]; [naive_solver lia|].
  destruct (String.eqb_spec (so_BlockIOKind (mf_Source m)) ""); cbn [orb]; [naive_solver|].
  destruct (Z.ltb_spec (so_MaxPartSize (mf_Source m)) 1); naive_solver lia.
Qed.

Lemma validateSummary_ok m c b :
  validateManifestSummary m c b = Ok tt <->
  mf_Limits m = {| sum_MappingCount := zlen (mf_Mappings m); sum_DirectoryCount := zlen (mf_Directories m);
    sum_FileCount := zlen (mf_Files m); sum_PartCount := c; sum_PhysicalBytes := b |}.
Proof. unfold validateManifestSummary. by rewrite refuse_ok, negb_false_iff, bool_decide_eq_true. Qed.

Lemma validateProtocol_ok m limits :
  validateProtocolMetadata m (paths_of map_Path (mf_Mappings m)) (paths_of dir_Path (mf_Directories m)) limits = Ok tt <->
  (canonical "" (rb_Name <$> mf_RequiredBuckets m) /\ Forall bucket_ok (mf_RequiredBuckets m)) /\
  objects_ok limits (mf_Mappings m) (mf_RequiredBuckets m) (mf_S3Objects m) /\
  (canonical "" (property_key <$> mf_WebDAVProperties m) /\
   Forall (property_ok limits (paths_of map_Path (mf_Mappings m) ∪ paths_of dir_Path (mf_Directories m)))
     (mf_WebDAVProperties m)).
Proof.
  unfold validateProtocolMetadata, validateBuckets, validateWebDAVProperties.
  by rewrite !then_ok, validateS3Objects_ok, buckets_loop_ok, properties_loop_ok by set_solver.
Qed.

Lemma validateManifest_ok m limits target :
  ValidateManifest m limits target = Ok tt <-> manifest_ok limits target m.
Proof.
  unfold ValidateManifest, validateManifestRecords, validateMappings.
  rewrite then_ok, validateHeader_ok, validateCounts_ok. cbv zeta. fold (part_limit m target).
  rewrite obind_ok. split.
  - intros ((Hfm & Hcr & Hsc & Hso & Hct) & [[mp c] b] & Hf & Hrest).
    apply validateFiles_ok in Hf as [Hf [= -> -> ->]].
    apply obind_ok in Hrest as (dirs & [Hd ->]%validateDirectories_ok & Hrest).
    apply obind_ok in Hrest as (maps & Hm & Hrest).
    apply mappings_loop_ok in Hm as (Hmc & Hm & ->); [|apply Hf|set_solver].
    rewrite (left_id_L ∅ (∪)), !then_ok, validateProtocol_ok in Hrest.
    destruct Hrest as (Hs%validateScope_ok & (Hb & Ho & Hp) & Hsum%validateSummary_ok). by split.
  - intros [Hfm Hcr Hsc Hso Hct Hf Hd [Hmc Hm] Hs Hb Ho Hp Hsum]. split; [done|].
    eexists. rewrite validateFiles_ok. split; [by split|]. cbv beta iota. rewrite obind_ok. eexists.
    rewrite validateDirectories_ok. split; [by split|]. rewrite obind_ok. eexists.
    rewrite mappings_loop_ok; [|apply Hf|set_solver]. split; [by split_and!|].
    rewrite (left_id_L ∅ (∪)), !then_ok, validateProtocol_ok, validateScope_ok, validateSummary_ok. done.
Qed.

(** C24: [ValidateManifest] accepts exactly the well-formed manifests: records in canonical
    order, every file made of consecutive parts or of distinct physical files whose sizes
    add up without overflow, every directory and mapping below a stored directory and
    inside the scope, every mapping a file of its size, S3 metadata for exactly the mappings
    of the required buckets, and totals that match the summary and the limits. *)
Theorem ValidateManifest_accepts_iff m limits target :
  ValidateManifest m limits target = Ok tt <-> manifest_ok limits target m.
Proof. apply validateManifest_ok. Qed.
End Spec.
