(* ===== verification/ConfigTheorems.v ===== *)
(** * A validated configuration fits the service

    What [Validate] accepts is accepted by the components that get it: the I/O cache, the
    block count of files, the buckets of a backup; the directory of the cache is apart from
    the other data; every enabled service has a user who may use it. *)

From stdpp Require Import base strings list gmap.
From Stdlib Require Import Ascii.
From S2P Require Import Prelude Authz GoStr Checksum Store S3Object FileStream FileManager Multipart DiskCache IOCache.
From S2P Require Import BackupFmt BackupJobs ManifestSpec Config.
Import S3Object BackupFmt IOCache Config.

(** ** Paths *)

(** The components of a rooted path are plain names. *)
Lemma rooted_comps s : rooted s = true -> Forall comp (clean_comps s).
Proof.
  intros Hr. unfold clean_comps. rewrite Hr. apply Forall_rev.
  assert (forall l out, Forall (fun w => has_byte slash w = false) l -> Forall comp out ->
    Forall comp (fold_left (clean_step true) l out)) as Hfold.
  { induction l as [|w l IH]; intros out Hl Ho; [done|]. apply Forall_cons in Hl as [Hw Hl]. cbn. apply IH; [done|].
    unfold clean_step. destruct (decide (w = "" \/ w = ".")) as [|Hn]; [done|].
    destruct (decide (w = "..")) as [->|Hdd].
    - destruct out as [|x out]; [done|]. apply Forall_cons in Ho as [Hx Ho]. destruct (decide (x = "..")) as [->|]; [|done].
      by destruct Hx as (_ & _ & Hx & _).
    - apply Forall_cons. split; [|done]. split_and!; [by intros ->; apply Hn; left|by intros ->; apply Hn; right|done|done]. }
  apply Hfold; [apply split_on_no_sep|done].
Qed.

Lemma rel_elements_clean s : rooted s = true -> rel_elements (path_clean s) = clean_comps s.
Proof.
  intros Hr. pose proof (rooted_comps s Hr) as Hc. unfold rel_elements, path_clean. rewrite Hr.
  change ("/" +:+ join_slash (clean_comps s)) with (String slash (join_slash (clean_comps s))).
  rewrite split_on_root. cbn [List.filter negb String.eqb]. destruct (clean_comps s) as [|w ws] eqn:E; [done|].
  rewrite split_join; [|done|by apply comps_no_slash]. clear E. induction Hc as [|x l (Hx & _) _ IH]; [done|]. cbn.
  destruct (String.eqb x "") eqn:Ex; [by apply String.eqb_eq in Ex|]. cbn. by rewrite IH.
Qed.
Lemma strip_prefix (l k : list string) : strip_common l (l ++ k) = ([], k).
Proof. induction l as [|w l IH]; [by destruct k|]. cbn. by rewrite String.eqb_refl. Qed.
Lemma strip_prefix_r (l k : list string) : strip_common (l ++ k) l = (k, []).
Proof. induction l as [|w l IH]; [by destruct k|]. cbn. by rewrite String.eqb_refl. Qed.

Lemma HasPrefix_split p s : HasPrefix s p = true -> exists rest, s = p +:+ rest.
Proof.
  unfold HasPrefix. revert s. induction p as [|c p IH]; intros s; [by exists s|]. destruct s as [|d s]; cbn; [done|].
  destruct (ascii_dec c d) as [->|]; [|done]. intros [rest ->]%IH. by exists rest.
Qed.
Lemma comps_go_down cs : cs <> [] -> Forall comp cs -> goes_up (join_slash cs) = false.
Proof.
  intros Hne Hc. pose proof (split_join cs Hne (comps_no_slash _ Hc)) as Hs. pose proof (comps_no_dotdot _ Hc) as Hd.
  unfold goes_up. apply orb_false_iff. split.
  - apply String.eqb_neq. intros E. rewrite E in Hs. apply Hd. rewrite <- Hs. by left.
  - destruct (HasPrefix (join_slash cs) "../") eqn:E; [|done]. exfalso. apply HasPrefix_split in E as [rest E]. rewrite E in Hs. apply Hd. rewrite <- Hs.
    change ("../" +:+ rest) with (".." +:+ String slash rest). rewrite split_on_app_sep by done. by left.
Qed.

Lemma Rel_rooted a b :
  rooted a = true -> rooted b = true ->
  Rel a b = if String.eqb (path_clean b) (path_clean a) then Some "."
            else let '(up, down) := strip_common (clean_comps a) (clean_comps b) in
                 if bool_decide (head up = Some "..") then None else Some (join_slash (map (fun _ => "..") up ++ down)).
Proof.
  intros Ha Hb. unfold Rel. rewrite <- (rel_elements_clean a Ha), <- (rel_elements_clean b Hb).
  assert (forall s, rooted s = true -> rooted (path_clean s) = true /\ String.eqb (path_clean s) "." = false) as Hr.
  { intros s Hs. unfold path_clean. rewrite Hs. done. }
  destruct (Hr a Ha) as [Ra ->], (Hr b Hb) as [Rb _]. by rewrite Ra, Rb.
Qed.

(** Neither directory is inside the other. *)
Definition apart (a b : string) : Prop :=
  ~ clean_comps a `prefix_of` clean_comps b /\ ~ clean_comps b `prefix_of` clean_comps a.
Lemma inside_overlaps a b :
  rooted a = true -> rooted b = true -> clean_comps a `prefix_of` clean_comps b ->
  pathsOverlap a b = true /\ pathsOverlap b a = true.
Proof.
  intros Ha Hb [k Hk]. unfold pathsOverlap. rewrite !Rel_rooted by done. rewrite (String.eqb_sym (path_clean a)).
  destruct (String.eqb (path_clean b) (path_clean a)) eqn:E; [done|].
  pose proof (rooted_comps b Hb) as Hc. rewrite Hk in Hc |- *. rewrite strip_prefix, strip_prefix_r.
  apply Forall_app in Hc as [_ Hc]. assert (k <> []) as Hne.
  { intros ->. rewrite app_nil_r in Hk. apply String.eqb_neq in E. apply E. unfold path_clean. by rewrite Ha, Hb, Hk. }
  rewrite bool_decide_eq_false_2 by done.
  rewrite bool_decide_eq_false_2 by (destruct Hc as [|w l (_ & _ & Hw & _) _]; [done|]; cbn; congruence).
  cbn [map app]. rewrite (comps_go_down k Hne Hc). cbn. rewrite !orb_true_r. by destruct (negb _).
Qed.
Lemma no_overlap_apart a b : rooted a = true -> rooted b = true -> pathsOverlap a b = false -> apart a b.
Proof.
  intros Ha Hb Ho. split; intros Hp.
  - destruct (inside_overlaps a b Ha Hb Hp). congruence.
  - destruct (inside_overlaps b a Hb Ha Hp). congruence.
Qed.

(** What the code relies on: the working directory is absolute, and so is an absolute path
    with its links resolved. *)
Class ConfigLaws `{!ConfigLib} : Prop := {
  wd_rooted : forall wd, Getwd = Some wd -> rooted wd = true;
  links_rooted : forall p q, rooted p = true -> EvalSymlinks p = Ok q -> rooted q = true }.

Lemma rooted_clean s : rooted s = true -> rooted (path_clean s) = true.
Proof. intros Hs. unfold path_clean. by rewrite Hs. Qed.
Lemma rooted_join s l : rooted s = true -> rooted (path_join (s :: l)) = true.
Proof.
  intros Hs. unfold path_join. cbn [List.filter]. destruct s as [|c s]; [done|]. cbn [String.eqb negb].
  apply rooted_clean. by destruct (List.filter _ l).
Qed.

Section Canonical.
Context `{!ConfigLib} `{!ConfigLaws}.

Lemma Abs_rooted p a : Abs p = Ok a -> rooted a = true.
Proof.
  unfold Abs. destruct (rooted p) eqn:Ep; [intros [= <-]; by apply rooted_clean|].
  destruct Getwd as [wd|] eqn:Ew; [|done]. intros [= <-]. by apply rooted_join, wd_rooted.
Qed.

(** The loop ends at an ancestor or at the root. *)
Lemma canonical_run fuel absolute cs remaining :
  rooted absolute = true -> Forall comp cs -> (length cs < fuel)%nat ->
  match canonical_loop fuel absolute ("/" +:+ join_slash cs) remaining with
  | Ok q => rooted q = true
  | Err e => e = ErrInvalidConfig
  end.
Proof.
  intros Ha. revert cs remaining. induction fuel as [|fuel IH]; intros cs remaining Hc Hf; [lia|]. cbn [canonical_loop].
  destruct (EvalSymlinks _) as [q|e] eqn:Eq.
  { apply rooted_clean, rooted_join. by eapply links_rooted, Eq. }
  destruct (negb _); [done|]. destruct cs as [|c0 cs0] using rev_ind; [by apply rooted_clean|]. clear IHcs0.
  rewrite (path_dir_comps _ cs0 c0 Hc) by (by left). cbn [rooted Ascii.eqb Bool.eqb].
  destruct (String.eqb _ _); [by apply rooted_clean|]. apply IH; [by apply Forall_app in Hc as [? _]|].
  rewrite length_app in Hf. cbn in Hf. lia.
Qed.
Lemma canonical_spec p :
  match canonicalPath p with Ok q => rooted q = true | Err e => e = ErrInvalidConfig end.
Proof.
  unfold canonicalPath. destruct (Abs p) as [a|e] eqn:Ea; cbn [mbind outcome_bind].
  - pose proof (Abs_rooted _ _ Ea) as Hr.
    assert (path_clean a = "/" +:+ join_slash (clean_comps a)) as -> by (unfold path_clean; by rewrite Hr).
    apply (canonical_run (S (S (length (clean_comps a)))) a (clean_comps a) []); [done|by apply rooted_comps|lia].
  - unfold Abs in Ea. destruct (rooted p); [done|]. destruct Getwd; [done|]. by injection Ea.
Qed.
End Canonical.

(** ** Stages *)

Section Stages.
Context `{!ConfigLib} `{!ConfigLaws}.

Definition cache_fits (x : IOCacheConfig) : Prop :=
  (EnableL1Cache x = true -> inconsistent (io_L1CacheSize x) (io_L1KeySizeLimit x) = false) /\
  (EnableL2Cache x = true -> inconsistent (io_L2CacheSize x) (io_L2KeySizeLimit x) = false /\
     EnableL1Cache x && (io_L2KeySizeLimit x <=? io_L1KeySizeLimit x) = false /\ io_L2CacheDir x <> "").

Lemma validateIOCache_ok c c' : validateIOCache c = (Ok tt, c') ->
  exists f, c' = set_IOCache f c /\ cache_fits (f (IOCache c)).
Proof.
  unfold validateIOCache. rewrite reads_bind, check_bind. set (x := IOCache c).
  destruct (EnableL1Cache x && inconsistent _ _) eqn:E1; [done|].
  assert (EnableL1Cache x = true -> inconsistent (io_L1CacheSize x) (io_L1KeySizeLimit x) = false) as H1'.
  { intros E. by rewrite E in E1. }
  destruct (EnableL2Cache x) eqn:E2; cbn [negb].
  2: { intros [= <-]. exists id. split; [by destruct c|]. split; [done|]. unfold id. congruence. }
  rewrite check_bind. destruct (inconsistent (io_L2CacheSize x) _) eqn:E3; [done|].
  destruct (EnableL1Cache x && (_ <=? _)) eqn:E4.
  { intros [= <-]. exists without_l2. by split. }
  rewrite check_bind. destruct (blank_text _); [done|]. rewrite lift_bind. destruct (Abs _) as [a|]; [|done].
  rewrite lift_bind. pose proof (canonical_spec a) as Hq. destruct (canonicalPath a) as [q|]; [|done]. intros [= <-].
  exists (with_dir q). split; [done|]. split; [done|]. intros _. split_and!; [done..|]. cbn. intros ->. done.
Qed.
Lemma cache_accepted c binding : cache_fits (IOCache c) ->
  validateFileIOCacheConfig (cache_config c binding) = Ok (cache_config c binding).
Proof.
  intros [H1' H2']. unfold validateFileIOCacheConfig, cache_config. cbn. rewrite !negb_involutive.
  destruct (EnableL1Cache (IOCache c)) eqn:E1; cbn [andb].
  - unfold IOCache.inconsistent. unfold inconsistent in H1'. rewrite H1' by done.
    destruct (EnableL2Cache (IOCache c)) eqn:E2; cbn [negb]; [|done]. destruct (H2' eq_refl) as (Ha & Hb & Hc).
    unfold inconsistent in Ha. rewrite Ha. unfold normalizeFileIOCacheConfig. cbn. cbn in Hb. rewrite Hb. cbn.
    by destruct (String.eqb (io_L2CacheDir (IOCache c)) "") eqn:Ed; [apply String.eqb_eq in Ed|].
  - destruct (EnableL2Cache (IOCache c)) eqn:E2; cbn [negb]; [|done]. destruct (H2' eq_refl) as (Ha & Hb & Hc).
    unfold inconsistent in Ha. unfold IOCache.inconsistent. rewrite Ha. unfold normalizeFileIOCacheConfig. cbn.
    by destruct (String.eqb (io_L2CacheDir (IOCache c)) "") eqn:Ed; [apply String.eqb_eq in Ed|].
Qed.

Lemma validateUsers_ok c a c' : validateUsers c = (Ok a, c') ->
  c' = c /\ exists x, a = Some x /\ Authz.New (UserPermission c) = Ok x /\
    forall u, is_Some (UserPermission c !! u) -> exists password, UserInfo c !! u = Some password /\ password <> "".
Proof.
  unfold validateUsers. rewrite reads_bind, check_bind. unfold id. destruct (negb _); [done|].
  rewrite check_bind. destruct (existsb (invalid_user _) _) eqn:E1; [done|]. rewrite check_bind.
  destruct (existsb _ (map_to_list (UserPermission c))) eqn:E2; [done|].
  destruct (Authz.New _) as [x|] eqn:En; [|done]. intros [= <- <-]. split; [done|]. exists x. split_and!; [done..|].
  intros u [l Hl]. destruct (UserInfo c !! u) as [password|] eqn:Eu.
  - exists password. split; [done|]. intros ->. apply not_true_iff_false in E1. apply E1, existsb_exists. exists (u, "").
    split; [by apply list_elem_of_In, elem_of_map_to_list|]. cbn. by rewrite orb_true_r.
  - exfalso. apply not_true_iff_false in E2. apply E2, existsb_exists. exists (u, l).
    split; [by apply list_elem_of_In, elem_of_map_to_list|]. by apply bool_decide_eq_true.
Qed.

Lemma origins_NoDup values scheme seen l : NoDup seen -> origins_loop values scheme seen = Ok l -> NoDup l.
Proof.
  revert scheme seen. induction values as [|v values IH]; intros scheme seen Hs; cbn.
  - intros [= <-]. by rewrite <- Permutation_rev.
  - destruct (normalizeExternalOrigin v) as [o|]; [|done]. cbn. destruct (url_Parse o); [|done]. destruct (_ && _); [done|].
    destruct (bool_decide (o ∈ seen)) eqn:E; [done|]. apply bool_decide_eq_false in E. apply IH. by apply NoDup_cons.
Qed.
Lemma validateExternalOrigins_ok c c' : validateExternalOrigins c = (Ok tt, c') ->
  exists l, c' = set_origins l c /\ NoDup l.
Proof.
  unfold validateExternalOrigins. rewrite reads_bind. unfold id. destruct (zlen _ =? 0) eqn:E.
  - rewrite check_eq. destruct (ad_Enable _); [done|]. intros [= <-]. exists (ExternalOrigins c). split; [by destruct c|].
    apply Z.eqb_eq, zlen_nil_inv in E as ->. apply NoDup_nil_2.
  - rewrite lift_bind. destruct (normalizeExternalOrigins _) as [l|] eqn:En; [|done]. intros [= <-]. exists l. split; [done|].
    unfold normalizeExternalOrigins in En. destruct (_ || _); [done|]. eapply origins_NoDup; [|exact En]. apply NoDup_nil_2.
Qed.

Lemma validateS3_ok c c' : validateS3 c = (Ok tt, c') ->
  exists h, c' = set_S3 (with_expire h) c /\ 0 <= s3_MaxObjectSize (S3 c) /\ 1 <= h <= 24 /\
    (s3_Enable (S3 c) = true -> s3_Buckets (S3 c) <> []) /\ buckets_ok (s3_Buckets (S3 c)) [] = true.
Proof.
  unfold validateS3. rewrite reads_bind, check_bind. destruct (_ <? 0) eqn:E0; [done|]. apply Z.ltb_ge in E0.
  set (h := if s3_MultipartExpireHours _ =? 0 then 24 else _). rewrite modify_bind, check_bind. destruct (_ || _) eqn:Eh; [done|].
  apply orb_false_iff in Eh as [Eh1 Eh2]. rewrite check_bind. destruct (_ && _) eqn:Ee; [done|]. rewrite check_eq.
  destruct (buckets_ok _ _) eqn:Eb; [|done]. intros [= <-]. exists h. split_and!; [done..|lia|lia| |done].
  intros Hen Enil. by rewrite Hen, Enil in Ee.
Qed.

Definition fits_telegram (kind : string) (size : Z) : Prop :=
  kind = "telegram" -> size <= maxFilePartCount * telegramBlockSize.
Lemma telegram_size kind size : too_large_for_telegram kind size = false -> fits_telegram kind size.
Proof. unfold too_large_for_telegram. intros E ->. cbn [String.eqb andb Ascii.eqb Bool.eqb] in E. by apply Z.ltb_ge in E. Qed.

Lemma webdav_upload_ok c c' : validateWebDAVPathAndUpload c = (Ok tt, c') ->
  exists root max temp, c' = set_Webdav (with_upload root max temp) c /\ 0 <= max /\ fits_telegram (BotKind c) max.
Proof.
  unfold validateWebDAVPathAndUpload. rewrite reads_bind. cbv zeta. unfold id. rewrite modify_bind, check_bind. destruct (negb _); [done|].
  set (max := or_default _ _). rewrite modify_bind, check_bind. destruct (max <? 0) eqn:E; [done|]. apply Z.ltb_ge in E.
  rewrite check_bind. destruct (too_large_for_telegram _ _) eqn:Et; [done|]. intros [= <-]. eexists _, max, _.
  split; [reflexivity|]. split; [done|]. by apply telegram_size.
Qed.
Lemma webdav_limits_ok c c' : validateWebDAVLimits c = (Ok tt, c') ->
  exists entries page, c' = set_Webdav (fun w => with_page page (with_entries entries w)) c /\ 0 <= wd_QuotaBytes (Webdav c) /\
    1 <= entries /\ 1 <= page <= 10000.
Proof.
  unfold validateWebDAVLimits. rewrite reads_bind, check_bind. destruct (_ <? 0) eqn:E0; [done|]. cbv zeta. rewrite modify_bind, check_bind.
  destruct (_ <? 1) eqn:E1; [done|]. rewrite modify_bind, check_eq. destruct (_ || _) eqn:E2; [done|].
  apply orb_false_iff in E2 as [E2 E3]. intros [= <-]. eexists _, _. split; [reflexivity|]. lia.
Qed.
Definition webdav_fits (kind : string) (a : option Authz.Authorizer) (w : WebdavConfig) : Prop :=
  wd_Enable w = true -> 0 <= wd_MaxUploadSize w /\ fits_telegram kind (wd_MaxUploadSize w) /\ 0 <= wd_QuotaBytes w /\
    1 <= wd_MaxMutationEntries w /\ 1 <= wd_SyncPageSize w <= 10000 /\ Authz.Any a Authz.WebDAVRead = true.
Lemma validateWebDAV_ok a c c' : validateWebDAV a c = (Ok tt, c') ->
  exists f, c' = set_Webdav f c /\ webdav_fits (BotKind c) a (f (Webdav c)).
Proof.
  unfold validateWebDAV. rewrite reads_bind. destruct (wd_Enable (Webdav c)) eqn:E; cbn [negb].
  2: { intros [= <-]. exists id. split; [by destruct c|]. unfold webdav_fits, id. congruence. }
  intros ([] & c1 & E1 & E2)%bind_ok_inv. apply bind_ok_inv in E2 as ([] & c2 & E2 & E3).
  apply webdav_upload_ok in E1 as (root & max & temp & -> & Hmax & Ht). apply webdav_limits_ok in E2 as (n & page & -> & Hq & Hn & Hp).
  rewrite check_eq in E3. destruct (Authz.Any _ _) eqn:Ea; [|done]. injection E3 as <-.
  exists (fun w => with_page page (with_entries n (with_upload root max temp w))). split; [done|]. by intros _.
Qed.

Definition limits_fit (b : BackupConfig) : Prop :=
  1 <= bk_MaxArchiveBytes b <= maxBackupArchiveBytes /\
  bk_MaxArchiveBytes b <= bk_MaxExpandedBytes b <= maxBackupExpandedBytes /\
  1 <= bk_MaxMappingCount b <= 1000000 /\ 1 <= bk_MaxFileCount b <= 1000000 /\ 1 <= bk_MaxPartCount b <= 10000000 /\
  1 <= bk_MaxPathBytes b <= 4096 /\ 1 <= bk_ArtifactRetentionHours b <= 168 /\ 1 <= bk_JobRetentionDays b <= 365.
Lemma backup_limits_ok c c' : validateBackupLimits c = (Ok tt, c') -> c' = c /\ limits_fit (Backup c).
Proof.
  unfold validateBackupLimits. rewrite reads_bind. cbv zeta. rewrite check_eq. destruct (forallb _ _) eqn:E; [|done].
  intros [= <-]. split; [done|]. cbn [forallb] in E. rewrite !andb_true_iff in E. unfold limits_fit. lia.
Qed.
Lemma backup_defaults_ok c c' : applyBackupDefaults c = (Ok tt, c') -> exists f, c' = set_Backup f c /\
  forall b, bk_Enable (f b) = bk_Enable b.
Proof.
  unfold applyBackupDefaults. rewrite reads_bind. unfold id. destruct (blank_text _).
  - rewrite bind_assoc, lift_bind. destruct (Abs _) as [a|]; [|done]. rewrite modify_bind. intros [= <-].
    by exists (fun b => with_limits (with_work_dir a b)).
  - rewrite ret_bind. intros [= <-]. by exists with_limits.
Qed.
Definition backup_fits (a : option Authz.Authorizer) (b : BackupConfig) : Prop :=
  limits_fit b /\ rooted (bk_WorkDir b) = true /\ (bk_Enable b = true -> Authz.Any a Authz.BackupRead = true).
Lemma validateBackup_ok a c c' : validateBackup a c = (Ok tt, c') ->
  exists f, c' = set_Backup f c /\ backup_fits a (f (Backup c)).
Proof.
  unfold validateBackup. intros ([] & c1 & E1 & E2)%bind_ok_inv. apply backup_defaults_ok in E1 as (f & -> & Hf).
  revert E2. unfold validateBackupPath. rewrite bind_assoc, reads_bind, bind_assoc, check_bind. unfold id at 1.
  destruct (rooted _) eqn:Er; cbn [negb]; [|done]. rewrite bind_assoc, check_bind. destruct (_ || _); [done|]. rewrite ret_bind.
  set (dir := path_clean _). intros ([] & c2 & E2 & E3)%bind_ok_inv. apply backup_limits_ok in E2 as [-> Hl].
  revert E3. rewrite reads_bind, check_bind. destruct (_ && _) eqn:Ea; [done|]. intros [= <-].
  exists (fun b => with_work_dir dir (f b)). split; [done|]. split; [exact Hl|]. split; [by apply rooted_clean|].
  intros Hen. cbn in Hen, Ea. rewrite Hen in Ea. by apply negb_false_iff in Ea.
Qed.

Definition session_fits (idle max : Z) : Prop := 5 <= idle <= 120 /\ 1 <= max <= 24 /\ idle < max * 60.
Definition admin_fits (kind : string) (a : option Authz.Authorizer) (x : AdminConfig) : Prop :=
  ad_Enable x = true -> Authz.Any a Authz.AdminRead = true /\ session_fits (ad_SessionIdleMinutes x) (ad_SessionMaxHours x) /\
    1 <= ad_MaxUploadSize x <= maxAdminUploadSize /\ fits_telegram kind (ad_MaxUploadSize x).
Lemma admin_session_ok c c' : validateAdminSession c = (Ok tt, c') ->
  exists idle max, c' = set_Admin (with_session idle max) c /\ session_fits idle max.
Proof.
  unfold validateAdminSession. rewrite reads_bind. cbv zeta. rewrite modify_bind, check_bind. destruct (_ || _) eqn:E1; [done|].
  apply orb_false_iff in E1 as [E1 E1']. rewrite modify_bind, check_eq. destruct (_ || _) eqn:E2; [done|]. intros [= <-].
  rewrite !orb_false_iff in E2. eexists _, _. split; [reflexivity|]. unfold session_fits. lia.
Qed.
Lemma validateAdmin_ok a c c' : validateAdmin a c = (Ok tt, c') ->
  exists f, c' = set_Admin f c /\ admin_fits (BotKind c) a (f (Admin c)).
Proof.
  unfold validateAdmin. rewrite reads_bind. destruct (ad_Enable (Admin c)) eqn:E; cbn [negb].
  2: { intros [= <-]. exists id. split; [by destruct c|]. unfold admin_fits, id. congruence. }
  rewrite check_bind. destruct (Authz.Any _ _) eqn:Ea; [|done]. intros ([] & c1 & E1 & E2)%bind_ok_inv.
  apply admin_session_ok in E1 as (idle & max & -> & Hs). revert E2. unfold validateAdminUploadSize. rewrite reads_bind.
  cbv zeta. unfold id. set (size := or_default _ _). rewrite modify_bind, check_bind. destruct (_ || _) eqn:E2; [done|].
  apply orb_false_iff in E2 as [E2 E3]. rewrite check_eq. destruct (too_large_for_telegram _ _) eqn:Et; [done|]. intros [= <-].
  exists (fun x => with_admin_upload size (with_session idle max x)). split; [done|]. intros _. cbn. split_and!; [done|apply Hs..|lia|lia|].
  by apply telegram_size.
Qed.

Lemma validateBlockIO_ok c c' : validateBlockIO c = (Ok tt, c') -> c' = c /\ fits_telegram (BotKind c) (s3_MaxObjectSize (S3 c)).
Proof.
  unfold validateBlockIO. rewrite reads_bind. unfold id. destruct (String.eqb _ _) eqn:E; cbn [negb].
  2: { intros [= <-]. split; [done|]. intros Ek. by rewrite Ek in E. }
  destruct (decode_bot _); [|done]. rewrite !check_bind. repeat (destruct (_ =? 0); [done|]). destruct (blank_text _); [done|].
  destruct (or_default _ _ <? _); [done|]. rewrite check_eq. destruct (_ <? _) eqn:El; [done|]. intros [= <-]. split; [done|].
  intros _. by apply Z.ltb_ge in El.
Qed.

(** The directory of the cache is apart from the other data. *)
Definition cache_apart (c : Config) : Prop :=
  EnableL2Cache (IOCache c) = true -> exists dir paths,
    canonicalPath (io_L2CacheDir (IOCache c)) = Ok dir /\ data_paths c = Ok paths /\
    forall p, p ∈ paths -> p <> "" -> exists a q, Abs p = Ok a /\ canonicalPath a = Ok q /\ apart dir q.
Lemma conflicts_ok c c' : validateIOCachePathConflicts c = (Ok tt, c') -> c' = c /\ cache_apart c.
Proof.
  unfold validateIOCachePathConflicts. rewrite reads_bind. unfold id. unfold cache_apart.
  destruct (EnableL2Cache _); cbn [negb]; [|by intros [= <-]]. rewrite lift_bind.
  pose proof (canonical_spec (io_L2CacheDir (IOCache c))) as Hdir. destruct (canonicalPath _) as [dir|]; [|done].
  rewrite lift_bind. destruct (data_paths c) as [paths|]; [|done]. intros E.
  enough (c' = c /\ forall p, p ∈ paths -> p <> "" -> exists a q, Abs p = Ok a /\ canonicalPath a = Ok q /\ apart dir q) as [-> Hp].
  { split; [done|]. intros _. by exists dir, paths. }
  revert E. induction paths as [|p paths IH]; cbn [for_each].
  { intros [= <-]. split; [done|]. by intros p Hp%elem_of_nil. }
  destruct (String.eqb p "") eqn:Ep.
  { rewrite ret_bind. intros [-> Hrest]%IH. split; [done|]. intros x [->|Hx]%elem_of_cons Hne; [by apply String.eqb_eq in Ep|].
    by apply Hrest. }
  rewrite bind_assoc, lift_bind. destruct (Abs p) as [a|] eqn:Ea; [|done]. rewrite bind_assoc, lift_bind.
  pose proof (canonical_spec a) as Hq. destruct (canonicalPath a) as [q|] eqn:Eq; [|done]. rewrite check_bind.
  destruct (pathsOverlap dir q) eqn:Eo; [done|]. intros [-> Hrest]%IH. split; [done|].
  intros x [->|Hx]%elem_of_cons Hne; [|by apply Hrest]. exists a, q. split_and!; [done..|]. by apply no_overlap_apart.
Qed.
End Stages.

(** ** The service *)

Section Service.
Context `{!ConfigLib} `{!ConfigLaws}.

(** Somebody with a password has the permission. *)
Definition someone_may (c : Config) (permission : string) : Prop := exists u password x,
  UserInfo c !! u = Some password /\ password <> "" /\ Authz.New (UserPermission c) = Ok x /\
  Authz.Has (Some x) u permission = true.

Record fits (c : Config) : Prop := {
  ft_cache : forall binding, validateFileIOCacheConfig (cache_config c binding) = Ok (cache_config c binding);
  ft_apart : cache_apart c;
  ft_blocks : BotKind c = "telegram" -> forall size, 0 <= size ->
    size <= s3_MaxObjectSize (S3 c) \/ (wd_Enable (Webdav c) = true /\ size <= wd_MaxUploadSize (Webdav c)) \/
    (ad_Enable (Admin c) = true /\ size <= ad_MaxUploadSize (Admin c)) ->
    exists n, FileManager.calculateFileBlockCount size telegramBlockSize = Ok n;
  ft_buckets : forall l maxPartSize,
    (forall b, b ∈ l -> b ∈ BackupJobs.o_RequiredBuckets (toBackupManagerOptions c maxPartSize)) ->
    canonical "" (rb_Name <$> l) -> BackupFmt.validateBuckets l = Ok tt;
  ft_limits : limits_fit (Backup c) /\ rooted (bk_WorkDir (Backup c)) = true;
  ft_s3 : 0 <= s3_MaxObjectSize (S3 c) /\ 1 <= s3_MultipartExpireHours (S3 c) <= 24 /\
    (s3_Enable (S3 c) = true -> s3_Buckets (S3 c) <> []);
  ft_webdav : wd_Enable (Webdav c) = true -> 0 <= wd_MaxUploadSize (Webdav c) /\ 0 <= wd_QuotaBytes (Webdav c) /\
    1 <= wd_MaxMutationEntries (Webdav c) /\ 1 <= wd_SyncPageSize (Webdav c) <= 10000;
  ft_admin : ad_Enable (Admin c) = true ->
    session_fits (ad_SessionIdleMinutes (Admin c)) (ad_SessionMaxHours (Admin c)) /\
    1 <= ad_MaxUploadSize (Admin c) <= maxAdminUploadSize;
  ft_origins : NoDup (ExternalOrigins c);
  ft_users : (wd_Enable (Webdav c) = true -> someone_may c Authz.WebDAVRead) /\
    (bk_Enable (Backup c) = true -> someone_may c Authz.BackupRead) /\
    (ad_Enable (Admin c) = true -> someone_may c Authz.AdminRead) }.

Lemma buckets_ok_elem buckets seen b : buckets_ok buckets seen = true -> b ∈ buckets ->
  bucket_ok {| rb_Name := b_Name b; rb_ACL := b_ACL b |}.
Proof.
  revert seen. induction buckets as [|b0 buckets IH]; intros seen; [by intros _ Hb%elem_of_nil|].
  cbn [buckets_ok]. rewrite !andb_true_iff, orb_true_iff, !String.eqb_eq, !negb_true_iff.
  intros (((((Hn & Hd) & _) & _) & Ha) & Hrest) [->|Hb]%elem_of_cons; [|by eapply IH]. by split_and!.
Qed.

Lemma fits_block_count size : 0 <= size <= maxFilePartCount * telegramBlockSize ->
  exists n, FileManager.calculateFileBlockCount size telegramBlockSize = Ok n.
Proof.
  intros Hs. unfold FileManager.calculateFileBlockCount. rewrite (proj2 (Z.ltb_ge _ _)) by lia.
  change (telegramBlockSize <=? 0) with false. cbv iota. destruct (size =? 0) eqn:E; [by eexists|]. apply Z.eqb_neq in E.
  rewrite (proj2 (Z.ltb_ge _ _)); [by eexists|]. unfold FileStream.maxFilePartCount. unfold maxFilePartCount in Hs.
  rewrite Z.quot_div_nonneg by (unfold telegramBlockSize; lia).
  assert ((size - 1) / telegramBlockSize < 100000); [|lia]. apply Z.div_lt_upper_bound; unfold telegramBlockSize in *; lia.
Qed.

Lemma any_someone c x permission :
  (forall u, is_Some (UserPermission c !! u) -> exists password, UserInfo c !! u = Some password /\ password <> "") ->
  Authz.New (UserPermission c) = Ok x -> Authz.Any (Some x) permission = true -> someone_may c permission.
Proof.
  intros Hu Hx Ha. cbn in Ha. apply existsb_exists in Ha as (u & Hin & Hh).
  apply list_elem_of_In, list_elem_of_fmap in Hin as ([u' g] & -> & Hin). apply elem_of_map_to_list in Hin.
  rewrite (Authz.New_grants _ _ u' Hx) in Hin. destruct (UserPermission c !! u') as [l|] eqn:El; [|done].
  destruct (Hu u') as (password & Hp & Hne); [by exists l|]. by exists u', password, x.
Qed.

(** C15: a configuration that [Validate] accepts, with the defaults it fills in, fits the
    service: the I/O cache accepts its part as it is, and the directory of the cache neither
    holds nor lies in the database, the work directories or the local store; on Telegram
    every size up to a limit for uploads that is set has a block count (a limit of zero for S3
    sets none); any of its buckets, in order, pass the validation of a backup; S3, when it is
    enabled, has a bucket, and multipart uploads expire within a day; the limits of backups,
    their retention, the limits of WebDAV and of the admin service and the times of its
    sessions are between the bounds of [fits]; origins are distinct; and WebDAV, the backup
    and the admin service, when enabled, each have a user with a password who may read it. *)
Theorem validated_configuration_fits c c' : Validate c = (Ok tt, c') -> fits c'.
Proof.
  unfold Validate. intros (a & c1 & E1 & E)%bind_ok_inv. apply validateUsers_ok in E1 as (-> & x & -> & Hx & Husers).
  apply bind_ok_inv in E as ([] & c2 & E2 & E). apply validateExternalOrigins_ok in E2 as (origins & -> & Horigins).
  apply bind_ok_inv in E as ([] & c3 & E3 & E). apply validateS3_ok in E3 as (h & -> & Hmax & Hh & Hsome & Hbuckets).
  apply bind_ok_inv in E as ([] & c4 & E4 & E). apply validateWebDAV_ok in E4 as (fw & -> & Hwebdav).
  apply bind_ok_inv in E as ([] & c5 & E5 & E). apply validateIOCache_ok in E5 as (fc & -> & Hcache).
  apply bind_ok_inv in E as ([] & c6 & E6 & E). apply validateBackup_ok in E6 as (fb & -> & Hlimits & Hdir & Hbackup).
  apply bind_ok_inv in E as ([] & c7 & E7 & E). apply validateAdmin_ok in E7 as (fa & -> & Hadmin).
  apply bind_ok_inv in E as ([] & c8 & E8 & E). apply validateBlockIO_ok in E8 as [-> Hblocks].
  apply conflicts_ok in E as [-> Hapart].
  assert (forall permission, Authz.Any (Some x) permission = true ->
    someone_may (set_Admin fa (set_Backup fb (set_IOCache fc (set_Webdav fw (set_S3 (with_expire h) (set_origins origins c)))))) permission)
    as Hany by (intros permission; by apply any_someone).
  split; cbn in *; auto.
  - intros binding. by apply cache_accepted.
  - intros Hk size Hs Hwhich. apply fits_block_count. split; [done|].
    destruct Hwhich as [Hle|[[Hen Hle]|[Hen Hle]]].
    + specialize (Hblocks Hk). lia.
    + destruct (Hwebdav Hen) as (_ & Ht & _). specialize (Ht Hk). lia.
    + destruct (Hadmin Hen) as (_ & _ & _ & Ht). specialize (Ht Hk). lia.
  - intros l _ Hl Hc. unfold BackupFmt.validateBuckets. apply buckets_loop_ok; [set_solver|]. split; [done|].
    apply Forall_forall. intros b Hb. apply Hl, list_elem_of_fmap in Hb as (b0 & -> & Hb0). by eapply buckets_ok_elem.
  - intros Hen. destruct (Hwebdav Hen) as (? & _ & ? & ? & ? & _). tauto.
  - intros Hen. destruct (Hadmin Hen) as (_ & ? & ? & _). by split.
  - split_and!; intros Hen; apply Hany; [by apply Hwebdav|by apply Hbackup|by apply Hadmin].
Qed.
End Service.

(** ** Witness *)

#[local] Instance demo_config_lib : ConfigLib := {|
  json_value := unit;
  decode_bot _ := Some {| Chatid := 1; Token := "token"; UploadMinIntervalMS := 0 |};
  decode_local _ := None;
  url_Parse s := Some {| Scheme := "https"; Host := s; Hostname := "files.example"; Port := "443"; has_User := false; Path := "/";
                         RawQuery := ""; Fragment := "" |};
  host_lower s := s; equal_fold := String.eqb; IsLoopback _ := false; Getwd := Some "/srv";
  EvalSymlinks p := if String.eqb p "/" then Ok "/" else Err ErrNotExist |}.
#[local] Instance demo_config_laws : ConfigLaws.
Proof.
  split; [by intros wd [= <-]|]. intros p q _. cbn. destruct (String.eqb p "/"); [|done]. by intros [= <-].
Qed.
Definition demo_service : Config :=
  {| DBFile := "data/tgfile.db"; BotKind := "telegram"; BotInfo := tt; UserInfo := {["alice" := "secret"]};
     UserPermission := {["alice" := ["all:read"]]}; ExternalOrigins := ["https://files.example"];
     S3 := {| s3_Enable := true; s3_Buckets := [{| b_Name := "photos"; b_ACL := "private" |}]; s3_MaxObjectSize := 0;
              s3_MultipartExpireHours := 0 |};
     Webdav := {| wd_Enable := true; wd_Root := ""; wd_MaxUploadSize := 0; wd_UploadTempDir := ""; wd_QuotaBytes := 0;
                  wd_MaxMutationEntries := 0; wd_SyncPageSize := 0 |};
     IOCache := {| EnableL1Cache := true; io_L1CacheSize := 65536; io_L1KeySizeLimit := 4096; EnableL2Cache := true;
                   io_L2CacheSize := 1048576; io_L2KeySizeLimit := 65536; io_L2CacheDir := "cache/../cache" |};
     Backup := {| bk_Enable := true; bk_WorkDir := ""; bk_MaxArchiveBytes := 0; bk_MaxExpandedBytes := 0;
                  bk_MaxMappingCount := 0; bk_MaxFileCount := 0; bk_MaxPartCount := 0; bk_MaxPathBytes := 0;
                  bk_ArtifactRetentionHours := 0; bk_JobRetentionDays := 0 |};
     Admin := {| ad_Enable := true; ad_SessionIdleMinutes := 0; ad_SessionMaxHours := 0; ad_MaxUploadSize := 0 |} |}.
Definition demo_validated : Config := (Validate demo_service).2.

Lemma validated_configuration_fits_witness :
  fits demo_validated /\ io_L2CacheDir (IOCache demo_validated) = "/srv/cache" /\
  bk_WorkDir (Backup demo_validated) = "/srv/data/backup-work" /\ EnableL2Cache (IOCache demo_validated) = true /\
  wd_MaxUploadSize (Webdav demo_validated) = 5368709120 /\ ExternalOrigins demo_validated = ["https://files.example"].
Proof.
  split; [|vm_compute; by split_and!].
  apply (validated_configuration_fits demo_service demo_validated). vm_compute. reflexivity.
Defined.
