(* ===== verification/ArchiveNames.v ===== *)
(** * Names of archive entries

    A part is stored under [parts/<file>/<index>.bin] with eight digits each: the reader's
    pattern takes exactly these names, and the order of the names is the order of the files
    and of their parts. *)

From stdpp Require Import base strings list gmap sorting.
From Stdlib Require Import Ascii.
From S2P Require Import Prelude GoStr SqlText Crc Base64 Checksum BlockIO Store S3Object FileManager Multipart.
From S2P Require Import BackupFmt Archive ManifestSpec.
Import BackupFmt Archive.

(** ** Zero-padded numbers *)

(** The last [k] decimal digits of [n]. *)
Fixpoint dec (k : nat) (n : Z) : string :=
  match k with O => "" | S k => dec k (n / 10) +:+ String (digit (n `mod` 10)) "" end.

Lemma dec_length k n : String.length (dec k n) = k.
Proof. revert n. induction k as [|k IH]; intros n; [done|]. cbn [dec]. rewrite append_length, IH. cbn. lia. Qed.

Lemma format_digits_acc fuel n acc : format_digits fuel n acc = format_digits fuel n "" +:+ acc.
Proof.
  revert n acc. induction fuel as [|fuel IH]; intros n acc; [done|]. cbn [format_digits].
  destruct (n / 10 =? 0); [done|]. rewrite (IH _ (String _ acc)), (IH _ (String _ "")), string_append_assoc. done.
Qed.

Lemma pad_zeros_app k s t : pad_zeros k (s +:+ t) = pad_zeros k s +:+ t.
Proof. induction k as [|k IH]; [done|]. cbn [pad_zeros]. by rewrite IH. Qed.

Lemma dec_zero k : dec k 0 = pad_zeros k "".
Proof.
  induction k as [|k IH]; [done|]. cbn [dec]. change (0 / 10) with 0. rewrite IH. clear IH.
  induction k as [|k IH]; [done|]. cbn [pad_zeros]. rewrite string_app_cons, IH. done.
Qed.

Lemma pad_format fuel k n :
  0 <= n < 10 ^ Z.of_nat k -> (0 < k <= fuel)%nat ->
  pad_zeros (k - String.length (format_digits fuel n "")) (format_digits fuel n "") = dec k n.
Proof.
  revert k n. induction fuel as [|fuel IH]; intros k n Hn Hk; [lia|]. destruct k as [|k]; [lia|].
  cbn [format_digits dec]. destruct (Z.eqb_spec (n / 10) 0) as [E|E].
  - rewrite E, dec_zero, <- pad_zeros_app. cbn [String.length]. f_equal. lia.
  - assert (0 <= n / 10 < 10 ^ Z.of_nat k) as Hd.
    { split; [apply Z.div_pos; lia|]. apply Z.div_lt_upper_bound; [lia|].
      rewrite <- Z.pow_succ_r by lia. replace (Z.succ (Z.of_nat k)) with (Z.of_nat (S k)) by lia. apply Hn. }
    rewrite format_digits_acc, pad_zeros_app, append_length. cbn [String.length].
    replace (S k - (String.length (format_digits fuel (n / 10) "") + 1))%nat
      with (k - String.length (format_digits fuel (n / 10) ""))%nat by lia.
    rewrite IH; [done|done|]. destruct k; [|lia]. cbn in Hd. lia.
Qed.

Lemma format08_dec n : 0 <= n < 10 ^ 8 -> format08 n = dec 8 n.
Proof. intros Hn. unfold format08, FormatUint. rewrite pad_format; [done| |lia]. exact Hn. Qed.

Lemma compare_app_lt a b s t :
  String.length a = String.length b -> slt a b -> slt (a +:+ s) (b +:+ t).
Proof.
  unfold slt. rewrite !ltb_lt. revert b. induction a as [|c a IH]; intros [|d b] Hl; try done.
  rewrite !string_app_cons. cbn [String.compare]. destruct (Ascii.compare c d); [|done|done].
  apply IH. cbn in Hl. lia.
Qed.
Lemma compare_app_same a s t : slt s t -> slt (a +:+ s) (a +:+ t).
Proof.
  unfold slt. rewrite !ltb_lt. intros Hs. induction a as [|c a IH]; [done|]. rewrite !string_app_cons. cbn [String.compare].
  by rewrite (proj2 (ascii_compare_eq c c) eq_refl).
Qed.

Lemma dec_lt k a b : 0 <= a < b -> b < 10 ^ Z.of_nat k -> slt (dec k a) (dec k b).
Proof.
  revert a b. induction k as [|k IH]; intros a b Hab Hb; [change (10 ^ Z.of_nat 0) with 1 in Hb; lia|].
  cbn [dec]. assert (b / 10 < 10 ^ Z.of_nat k) as Hb'.
  { apply Z.div_lt_upper_bound; [lia|]. rewrite <- Z.pow_succ_r by lia.
    by replace (Z.succ (Z.of_nat k)) with (Z.of_nat (S k)) by lia. }
  destruct (Z.eq_dec (a / 10) (b / 10)) as [E|E].
  - rewrite E. apply compare_app_same. unfold slt. rewrite ltb_lt. cbn [String.compare].
    assert (a `mod` 10 < b `mod` 10) as Hm by (Z.to_euclidean_division_equations; lia).
    assert (Ascii.compare (digit (a `mod` 10)) (digit (b `mod` 10)) = Lt) as ->; [|done].
    unfold Ascii.compare. apply N.compare_lt_iff, N2Z.inj_lt.
    rewrite !digit_value by (Z.to_euclidean_division_equations; lia). lia.
  - apply compare_app_lt; [by rewrite !dec_length|]. apply IH; [|done].
    Z.to_euclidean_division_equations; lia.
Qed.

Lemma list_ascii_app a b :
  String.list_ascii_of_string (a +:+ b) = String.list_ascii_of_string a ++ String.list_ascii_of_string b.
Proof.
  induction a as [|c a IH]; [done|]. rewrite string_app_cons. cbn [String.list_ascii_of_string app]. by rewrite IH.
Qed.

Lemma dec_digits k n : all_chars is_digit (dec k n) = true.
Proof.
  revert n. unfold all_chars. induction k as [|k IH]; intros n; [done|]. cbn [dec].
  rewrite list_ascii_app, forallb_app, IH. cbn [forallb String.list_ascii_of_string].
  rewrite is_digit_digit; [done|]. apply Z.mod_pos_bound. lia.
Qed.

Lemma no_digit_byte c s : is_digit c = false -> all_chars is_digit s = true -> has_byte c s = false.
Proof.
  intros Hc. unfold all_chars. rewrite Base64.has_byte_list, forallb_forall. intros Hs. apply not_true_iff_false.
  rewrite existsb_exists. intros (d & Hd & ->%Ascii.eqb_eq). rewrite (Hs c Hd) in Hc. done.
Qed.

(** ** Names of parts *)

Lemma fileRef_no_slash ref : fileRefPattern ref = true -> has_byte slash ref = false.
Proof.
  destruct ref as [|c ref]; [done|]. cbn [fileRefPattern]. rewrite !andb_true_iff, Ascii.eqb_eq.
  intros [[-> _] Hd]. cbn [has_byte]. by apply no_digit_byte.
Qed.
Lemma fileRef_length ref : fileRefPattern ref = true -> String.length ref = 9%nat.
Proof.
  destruct ref as [|c ref]; [done|]. cbn [fileRefPattern]. rewrite !andb_true_iff, Z.eqb_eq.
  intros [[_ Hl] _]. unfold slen in Hl. cbn [String.length]. lia.
Qed.

Lemma substring_app a b : String.substring 0 (String.length a) (a +:+ b) = a.
Proof. induction a as [|c a IH]; [by destruct b|]. rewrite string_app_cons. cbn [String.length String.substring]. by rewrite IH. Qed.

Lemma part_entry_pattern ref i :
  fileRefPattern ref = true -> 0 <= i < 10 ^ 8 -> partEntryPattern (part_entry ref i) = Some (ref, format08 i).
Proof.
  intros Hr Hi. unfold partEntryPattern, part_entry. rewrite (format08_dec i Hi).
  assert (has_byte slash (dec 8 i +:+ ".bin") = false) as Hb.
  { rewrite has_byte_app, (no_digit_byte slash _ eq_refl (dec_digits 8 i)). done. }
  assert (split_on slash ("parts/" +:+ ref +:+ "/" +:+ dec 8 i +:+ ".bin") = ["parts"; ref; dec 8 i +:+ ".bin"]) as ->.
  { change ("parts/" +:+ ?x) with ("parts" +:+ String slash x). rewrite split_on_app_sep by done. f_equal.
    change ("/" +:+ ?x) with (String slash x). rewrite split_on_app_sep by (by apply fileRef_no_slash). f_equal.
    by apply split_on_word. }
  assert (String.substring 0 8 (dec 8 i +:+ ".bin") = dec 8 i) as ->.
  { rewrite <- (dec_length 8 i) at 1. apply substring_app. }
  unfold slen. by rewrite Hr, dec_length, dec_digits, !String.eqb_refl.
Qed.

Lemma part_entry_lt ref1 ref2 i j :
  fileRefPattern ref1 = true -> fileRefPattern ref2 = true -> slt ref1 ref2 -> slt (part_entry ref1 i) (part_entry ref2 j).
Proof.
  intros H1 H2 Hlt. unfold part_entry. apply compare_app_same, compare_app_lt; [|done].
  by rewrite !fileRef_length.
Qed.
Lemma part_entry_next ref i j : 0 <= i < j -> j < 10 ^ 8 -> slt (part_entry ref i) (part_entry ref j).
Proof.
  intros Hij Hj. unfold part_entry. do 3 apply compare_app_same. rewrite !format08_dec by lia.
  apply compare_app_lt; [by rewrite !dec_length|]. by apply dec_lt.
Qed.

Lemma canonical_snoc a l k : canonical a (l ++ [k]) <-> canonical a l /\ slt (default a (last l)) k.
Proof.
  revert a. induction l as [|x l IH]; intros a; cbn [app].
  { rewrite canonical_cons. cbn. split; [intros [? _]; split; [by constructor|done]|]. intros [_ ?]. split; [done|by constructor]. }
  rewrite !canonical_cons, IH. assert (default a (last (x :: l)) = default x (last l)) as ->; [|tauto].
  rewrite last_cons. by destruct (last l).
Qed.

Lemma canonical_app a l1 l2 x y : canonical a (l1 ++ l2) -> x ∈ l1 -> y ∈ l2 -> slt x y.
Proof.
  intros Hc Hx Hy. unfold canonical in Hc. apply Sorted_StronglySorted in Hc; [|apply _].
  apply StronglySorted_inv in Hc as [Hc _]. by eapply StronglySorted_app_1_elem_of.
Qed.

Lemma string_trichotomy a b : slt a b \/ a = b \/ slt b a.
Proof.
  unfold slt. rewrite !ltb_lt. destruct (String.compare a b) eqn:E; [|by left|].
  - right. left. by apply String.compare_eq_iff.
  - right. right. rewrite String.compare_antisym, E. done.
Qed.

Lemma join_split s : join_slash (split_on slash s) = s.
Proof.
  induction s as [|c s IH]; [done|]. cbn [split_on]. pose proof (split_on_nonempty slash s) as Hne.
  destruct (Ascii.eqb_spec c slash) as [->|_].
  - destruct (split_on slash s) as [|w ws]; [done|]. by rewrite <- IH.
  - destruct (split_on slash s) as [|w ws]; [done|]. rewrite <- IH. by destruct ws.
Qed.

Lemma pattern_inv name ref idx :
  partEntryPattern name = Some (ref, idx) ->
  fileRefPattern ref = true /\ String.length idx = 8%nat /\ name = "parts/" +:+ ref +:+ "/" +:+ idx +:+ ".bin".
Proof.
  unfold partEntryPattern. destruct (split_on slash name) as [|d [|r [|e [|]]]] eqn:E; try done.
  destruct (_ && _) eqn:Ec; [|done]. intros [= <- <-]. rewrite !andb_true_iff in Ec.
  destruct Ec as [[[[Hd Hr] Hl] _] He]. apply String.eqb_eq in Hd, He. apply Z.eqb_eq in Hl. unfold slen in Hl.
  subst d. split; [done|]. split; [lia|]. rewrite <- He. rewrite <- (join_split name), E. done.
Qed.

(** Names in order have their files in order. *)
Lemma pattern_mono n1 n2 r1 r2 i1 i2 :
  partEntryPattern n1 = Some (r1, i1) -> partEntryPattern n2 = Some (r2, i2) -> slt n1 n2 -> r1 = r2 \/ slt r1 r2.
Proof.
  intros (H1 & _ & ->)%pattern_inv (H2 & _ & ->)%pattern_inv Hlt.
  destruct (string_trichotomy r1 r2) as [?|[?|Hgt]]; [by right|by left|]. exfalso.
  apply (slt_irrefl ("parts/" +:+ r1 +:+ "/" +:+ i1 +:+ ".bin")). etrans; [exact Hlt|].
  apply compare_app_same, compare_app_lt; [|done]. by rewrite !fileRef_length.
Qed.

Lemma digits_long fuel k n : 10 ^ Z.of_nat k <= n -> (k < fuel)%nat -> (k < String.length (format_digits fuel n ""))%nat.
Proof.
  revert k n. induction fuel as [|fuel IH]; intros k n Hn Hk; [lia|]. cbn [format_digits].
  destruct (Z.eqb_spec (n / 10) 0) as [E|E].
  - destruct k as [|k]; [cbn; lia|]. rewrite Nat2Z.inj_succ, Z.pow_succ_r in Hn by lia.
    assert (0 < 10 ^ Z.of_nat k) by lia. Z.to_euclidean_division_equations; lia.
  - rewrite format_digits_acc, append_length. cbn [String.length]. destruct k as [|k].
    + lia.
    + rewrite Nat2Z.inj_succ, Z.pow_succ_r in Hn by lia. enough (k < String.length (format_digits fuel (n / 10) ""))%nat by lia.
      apply IH; [|lia]. apply Z.div_le_lower_bound; lia.
Qed.

Lemma part_index_small ref i r :
  fileRefPattern ref = true -> partEntryPattern (part_entry ref i) = Some r -> i < 10 ^ 8.
Proof.
  destruct r as [r idx]. intros Hr (Hr' & Hl & E)%pattern_inv. apply (f_equal String.length) in E. unfold part_entry in E.
  rewrite !append_length, (fileRef_length _ Hr), (fileRef_length _ Hr'), Hl in E. cbn [String.length] in E.
  destruct (Z.lt_ge_cases i (10 ^ 8)) as [|Hge]; [done|]. exfalso.
  pose proof (digits_long 20 8 i Hge ltac:(lia)) as Hlong. unfold format08, FormatUint in E.
  replace (8 - String.length (format_digits 20 i ""))%nat with O in E by lia. cbn [pad_zeros] in E. lia.
Qed.
