(* ===== verification/ArchiveReader.v ===== *)
(** * What the archive reader has read

    The state of [readTar] after the header and a list of parts: which parts it has
    observed, the order of their names, and the digest of every file so far. Each entry
    takes one such state to the next, and the manifest ends it. *)

From stdpp Require Import base strings list gmap sorting.
From Stdlib Require Import Ascii.
From S2P Require Import Prelude GoStr Crc Base64 Checksum BlockIO Store S3Object FileManager Multipart.
From S2P Require Import BackupFmt Archive ManifestSpec ArchiveNames.
Import BackupFmt Archive.

Section Reader.
Context `{!ArchiveLib} `{!FileCodec} `{!Sha}.

Definition plain (e : tar_entry) : Prop := te_regular e = true /\ te_ustar e = true /\ te_pax e = 0%nat.
Definition contents (e : tar_entry) : list Z := ztake (te_Size e) (te_data e).
Definition ref_of (e : tar_entry) : string :=
  match partEntryPattern (te_Name e) with Some (ref, _) => ref | None => "" end.
Definition observation (v : bool) (e : tar_entry) : observedPart :=
  if v then {| op_size := te_Size e; op_md5 := md5_hex (contents e); op_sha256 := sha256_hex (contents e) |}
  else {| op_size := te_Size e; op_md5 := ""; op_sha256 := "" |}.

(** An entry that can be a part. *)
Record entry_ok (e : tar_entry) : Prop := {
  ek_plain : plain e; ek_name : is_Some (partEntryPattern (te_Name e));
  ek_size : 0 <= te_Size e <= zlen (te_data e) }.

Lemma plain_check e :
  negb (te_regular e) || negb (te_ustar e) || negb (bool_decide (te_pax e = 0%nat)) = false <-> plain e.
Proof.
  unfold plain. rewrite !orb_false_iff, !negb_false_iff, bool_decide_eq_true. tauto.
Qed.

Lemma pattern_not_manifest e : is_Some (partEntryPattern (te_Name e)) -> String.eqb (te_Name e) ManifestEntry = false.
Proof. intros [r Hr]. destruct (String.eqb_spec (te_Name e) ManifestEntry) as [E|]; [|done]. by rewrite E in Hr. Qed.

(** The bytes of file [r] in the parts read so far. *)
Definition content_of (r : string) (parts : list tar_entry) : list Z :=
  concat (contents <$> filter (fun e => ref_of e = r) parts).

(** The file being read is the last one, and every finished file has its digest. *)
Record digests_of (s : tarReadState) (parts : list tar_entry) : Prop := {
  dg_current : fileDigest s = (fun e => (ref_of e, content_of (ref_of e) parts)) <$> last parts;
  dg_done : forall r, contentDigest (finishFileDigest s) !! r =
    if decide (r ∈ ref_of <$> parts) then Some (accumulatedFileDigest (content_of r parts)) else None }.

Record reading (v : bool) (header : tar_entry) (s : tarReadState) (parts : list tar_entry) : Prop := {
  rd_index : 0 < entryIndex s;
  rd_open : state_manifest s = None;
  rd_expanded : expanded s = te_Size header + sumZ (te_Size <$> parts);
  rd_observed : observed s = list_to_map ((fun e => (te_Name e, observation v e)) <$> parts);
  rd_last : lastPart s = default "" (te_Name <$> last parts);
  rd_names : canonical "" (te_Name <$> parts);
  rd_entries : Forall entry_ok parts;
  rd_digests : v = true -> digests_of s parts }.

Lemma reading_lookup v h s parts k o :
  reading v h s parts -> observed s !! k = Some o <-> exists e, e ∈ parts /\ te_Name e = k /\ observation v e = o.
Proof.
  intros Hr. rewrite (rd_observed _ _ _ _ Hr), <- elem_of_list_to_map.
  - rewrite list_elem_of_fmap. naive_solver.
  - rewrite <- list_fmap_compose. exact (canonical_NoDup _ _ (rd_names _ _ _ _ Hr)).
Qed.

Lemma reading_size v h s parts : reading v h s parts -> size (observed s) = length parts.
Proof.
  intros Hr. rewrite (rd_observed _ _ _ _ Hr). assert (NoDup (te_Name <$> parts)) as Hnd.
  { eapply canonical_NoDup, (rd_names _ _ _ _ Hr). }
  clear Hr. induction parts as [|e parts IH]; [apply map_size_empty|]. rewrite fmap_cons in *.
  apply NoDup_cons in Hnd as [Hn Hnd]. cbn [list_to_map foldr fst snd curry uncurry]. cbn.
  rewrite map_size_insert_None; [cbn; by rewrite IH|]. apply not_elem_of_list_to_map_1.
  rewrite <- list_fmap_compose. exact Hn.
Qed.

(** ** Digests *)

Lemma content_snoc r parts e :
  content_of r (parts ++ [e]) = content_of r parts ++ (if decide (ref_of e = r) then contents e else []).
Proof.
  unfold content_of. rewrite filter_app, fmap_app, concat_app. f_equal.
  rewrite filter_cons, filter_nil. case_decide; [|done]. cbn. by rewrite app_nil_r.
Qed.
Lemma content_none r parts : r ∉ ref_of <$> parts -> content_of r parts = [].
Proof.
  induction parts as [|e parts IH]; [done|]. rewrite fmap_cons, not_elem_of_cons. intros [Hne Hn].
  unfold content_of. rewrite filter_cons_False by done. by apply IH.
Qed.

(** A file that is not the last one does not come again. *)
Lemma new_ref parts l e :
  canonical "" (te_Name <$> (parts ++ [l]) ++ [e]) -> Forall entry_ok ((parts ++ [l]) ++ [e]) ->
  ref_of l <> ref_of e -> ref_of e ∉ ref_of <$> parts ++ [l].
Proof.
  intros Hc He Hne (x & Ex & Hx)%list_elem_of_fmap. apply elem_of_app in Hx as [Hx|Hx].
  2: { apply list_elem_of_singleton in Hx. congruence. }
  rewrite !fmap_app in Hc. assert (slt (te_Name l) (te_Name e)) as Hl by (eapply canonical_app; [exact Hc|set_solver..]).
  rewrite <- app_assoc in Hc.
  assert (slt (te_Name x) (te_Name l)) as Hxl by (eapply canonical_app; [exact Hc|set_solver..]).
  rewrite Forall_app, Forall_app, !Forall_singleton in He. destruct He as [[He1 He2] He3].
  eapply Forall_forall in He1; [|exact Hx].
  destruct (ek_name _ He1) as [[r1 i1] E1], (ek_name _ He2) as [[r2 i2] E2], (ek_name _ He3) as [[r3 i3] E3].
  unfold ref_of in *. rewrite E1, E2, E3 in *. subst r3.
  pose proof (pattern_mono _ _ _ _ _ _ E1 E2 Hxl) as [->|H12]; [done|].
  pose proof (pattern_mono _ _ _ _ _ _ E2 E3 Hl) as [->|H23]; [done|].
  apply (slt_irrefl r1). by trans r2.
Qed.

Lemma finish_digest s s' :
  fileDigest s' = fileDigest s -> contentDigest s' = contentDigest s ->
  contentDigest (finishFileDigest s') = contentDigest (finishFileDigest s).
Proof. unfold finishFileDigest. intros -> E. destruct (fileDigest s) as [[r d]|]; [cbn|done]. by rewrite E. Qed.

(** What [add_content] makes of the file being read. *)
Lemma add_content_digest s ref data :
  let sofar := match fileDigest s with Some (r, d) => if String.eqb r ref then d else [] | None => [] end in
  fileDigest (add_content s ref data) = Some (ref, sofar ++ data) /\
  contentDigest (finishFileDigest (add_content s ref data)) =
    <[ref := accumulatedFileDigest (sofar ++ data)]> (contentDigest (finishFileDigest s)).
Proof.
  unfold add_content. destruct (fileDigest s) as [[r d]|] eqn:E; [|by unfold finishFileDigest; rewrite E].
  destruct (String.eqb_spec r ref) as [->|Hne]; [|by unfold finishFileDigest; rewrite E].
  split; [done|]. unfold finishFileDigest at 1 2. rewrite E. cbn. by rewrite insert_insert_eq.
Qed.

Lemma digests_snoc s s' parts e :
  digests_of s parts -> canonical "" (te_Name <$> parts ++ [e]) -> Forall entry_ok (parts ++ [e]) ->
  fileDigest s' = fileDigest (add_content s (ref_of e) (contents e)) ->
  contentDigest s' = contentDigest (add_content s (ref_of e) (contents e)) -> digests_of s' (parts ++ [e]).
Proof.
  intros [Hcur Hdone] Hc He E1 E2. destruct (add_content_digest s (ref_of e) (contents e)) as [Hf Hd].
  set (sofar := match fileDigest s with Some (r, d) => if String.eqb r (ref_of e) then d else [] | None => [] end) in *.
  assert (sofar = content_of (ref_of e) parts) as Es.
  { subst sofar. rewrite Hcur. destruct parts as [|l parts _] using rev_ind; [done|]. rewrite last_snoc. cbn.
    destruct (String.eqb_spec (ref_of l) (ref_of e)) as [->|Hne]; [done|]. symmetry. apply content_none. by eapply new_ref. }
  assert (content_of (ref_of e) (parts ++ [e]) = sofar ++ contents e) as Ec.
  { rewrite content_snoc, Es. by case_decide. }
  split.
  - rewrite last_snoc. cbn. by rewrite E1, Hf, Ec.
  - intros r. rewrite (finish_digest _ _ E1 E2), Hd, <- Ec, fmap_app.
    destruct (decide (r = ref_of e)) as [->|Hne].
    + rewrite lookup_insert_eq, decide_True by set_solver. done.
    + rewrite lookup_insert_ne, Hdone, content_snoc by done. rewrite (decide_False (P := ref_of e = r)) by done.
      rewrite app_nil_r. by destruct (decide (r ∈ ref_of <$> parts)), (decide (r ∈ (ref_of <$> parts) ++ _)); set_solver.
Qed.

(** ** One entry *)

Lemma observe_ok e v o : observePart e v = Ok o <-> te_Size e <= zlen (te_data e) /\ o = observation v e.
Proof.
  unfold observePart, observation, contents. destruct (Z.ltb_spec (zlen (te_data e)) (te_Size e)); [split; [done|lia]|].
  split; [by intros [= <-]|]. by intros [_ ->].
Qed.

Lemma add_content_rest s ref data :
  observed (add_content s ref data) = observed s /\ state_manifest (add_content s ref data) = state_manifest s /\
  entryIndex (add_content s ref data) = entryIndex s /\ expanded (add_content s ref data) = expanded s.
Proof.
  unfold add_content, finishFileDigest. destruct (fileDigest s) as [[r d]|]; [|done]. by destruct (String.eqb r ref).
Qed.

Lemma add_content_frame s s0 ref data :
  fileDigest s0 = fileDigest s -> contentDigest s0 = contentDigest s ->
  fileDigest (add_content s0 ref data) = fileDigest (add_content s ref data) /\
  contentDigest (add_content s0 ref data) = contentDigest (add_content s ref data).
Proof.
  unfold add_content, finishFileDigest. intros -> E. destruct (fileDigest s) as [[r d]|]; [|done].
  destruct (String.eqb r ref); cbn; by rewrite ?E.
Qed.

Definition after_part (v : bool) (s : tarReadState) (e : tar_entry) : tarReadState :=
  let c := if v then add_content s (ref_of e) (contents e) else s in
  {| observed := <[te_Name e := observation v e]> (observed s); contentDigest := contentDigest c;
     fileDigest := fileDigest c; state_manifest := state_manifest s; entryIndex := entryIndex s + 1;
     expanded := expanded s + te_Size e; lastPart := te_Name e |}.

(** A part is taken when it fits the limits and follows the last one. *)
Definition part_next (limits : Limits) (s : tarReadState) (e : tar_entry) : Prop :=
  entry_ok e /\ slt (lastPart s) (te_Name e) /\ observed s !! te_Name e = None /\
  te_Size e <= lim_MaxExpandedBytes limits /\ Z.of_nat (size (observed s)) + 1 <= lim_MaxPartCount limits.
Definition part_fits (limits : Limits) (s : tarReadState) (e : tar_entry) : Prop :=
  part_next limits s e /\ expanded s + te_Size e <= lim_MaxExpandedBytes limits.

Lemma consumePart_ok limits v s e s' :
  plain e -> consumePart s e limits v = Ok s' <->
  part_next limits s e /\ s' = {|
    observed := observed (after_part v s e); contentDigest := contentDigest (after_part v s e);
    fileDigest := fileDigest (after_part v s e); state_manifest := state_manifest s; entryIndex := entryIndex s;
    expanded := expanded s; lastPart := te_Name e |}.
Proof.
  intros Hp. unfold consumePart, part_next. destruct (partEntryPattern (te_Name e)) as [[ref idx]|] eqn:Epat.
  2: { split; [done|]. intros [[[_ [? E] _] _] _]. congruence. }
  assert (ref_of e = ref) as <- by (unfold ref_of; by rewrite Epat).
  destruct (String.leb (te_Name e) (lastPart s)) eqn:El.
  { split; [done|]. intros [(_ & Hlt%leb_ltb & _) _]. congruence. }
  apply leb_ltb in El. fold (slt (lastPart s) (te_Name e)) in El.
  destruct (observed s !! te_Name e) as [o|] eqn:Eo; [rewrite bool_decide_true by eauto; naive_solver|].
  rewrite bool_decide_false by (by intros []).
  destruct (Z.ltb_spec (te_Size e) 0); cbn [orb]; [split; [done|]; intros [[[_ _ ?] _] _]; lia|].
  destruct (Z.ltb_spec (lim_MaxExpandedBytes limits) (te_Size e)); [split; [done|]; naive_solver lia|].
  rewrite obind_ok. destruct (add_content_rest s (ref_of e) (contents e)) as (Ro & Rm & Ri & Rx).
  fold (contents e).
  assert (size (<[te_Name e := observation v e]> (observed s)) = S (size (observed s))) as Esz
    by (by apply map_size_insert_None).
  assert (observed (if v then add_content s (ref_of e) (contents e) else s) = observed s) as Ev by (by destruct v).
  split.
  - intros (o & [Hd ->]%observe_ok & Hr). rewrite Ev, Esz in Hr.
    destruct (Z.ltb_spec (lim_MaxPartCount limits) (Z.of_nat (S (size (observed s))))); [done|].
    injection Hr as <-. split; [split_and!; [split; eauto|done..|lia]|]. unfold after_part. destruct v; cbn; [|done].
    by rewrite Rm, Ri, Rx.
  - intros [([_ _ [_ Hd]] & _ & _ & _ & Hn) ->]. exists (observation v e). rewrite observe_ok. split; [done|].
    rewrite Ev, Esz. destruct (Z.ltb_spec (lim_MaxPartCount limits) (Z.of_nat (S (size (observed s))))); [lia|].
    unfold after_part. destruct v; cbn; [|done]. by rewrite Rm, Ri, Rx.
Qed.

Lemma consume_part limits v h s parts e s' :
  reading v h s parts -> String.eqb (te_Name e) ManifestEntry = false ->
  consume s e limits v = Ok s' <-> part_fits limits s e /\ s' = after_part v s e.
Proof.
  intros [Hi Ho _ _ _ _ _ _] Hne. unfold consume.
  destruct (_ || negb (bool_decide _)) eqn:Ep.
  { split; [done|]. intros [[[[Hp%plain_check _ _] _] _] _]. congruence. }
  apply plain_check in Ep. destruct (Z.ltb_spec (te_Size e) 0); cbn [orb].
  { split; [done|]. intros [[[[_ _ ?] _] _] _]. lia. }
  destruct (Z.ltb_spec (lim_MaxExpandedBytes limits - te_Size e) (expanded s)).
  { split; [done|]. intros [[_ ?] _]. lia. }
  cbn [state_manifest entryIndex]. rewrite Ho, bool_decide_false by (by intros []).
  destruct (Z.eqb_spec (entryIndex s) 0); [lia|]. rewrite Hne, obind_ok. unfold part_fits, after_part. split.
  - intros (s1 & [Hn ->]%consumePart_ok & [= <-]); [|done]. split; [split; [done|lia]|].
    rewrite Ho. cbn. f_equal; destruct v; try done; by apply add_content_frame.
  - intros [[Hn _] ->]. eexists. rewrite consumePart_ok by done. split; [by split|]. rewrite Ho. cbn.
    do 2 f_equal; destruct v; try done; by apply add_content_frame.
Qed.

(** The state goes on, with one more part. *)
Lemma reading_snoc limits v h s parts e :
  reading v h s parts -> part_fits limits s e -> reading v h (after_part v s e) (parts ++ [e]).
Proof.
  intros [Hi Ho Hx Hobs Hl Hn He Hd] [(Hok & Hlt & Hnone & _) _].
  assert (canonical "" (te_Name <$> parts ++ [e])) as Hn'.
  { rewrite fmap_app. apply canonical_snoc. split; [done|]. rewrite fmap_last. by rewrite Hl in Hlt. }
  assert (Forall entry_ok (parts ++ [e])) as He' by (apply Forall_app; by rewrite Forall_singleton).
  split; cbn.
  - lia.
  - done.
  - rewrite Hx, fmap_app, sumZ_app. cbn. lia.
  - rewrite fmap_app, Hobs. cbn. rewrite list_to_map_app. cbn. rewrite insert_empty, map_union_comm.
    + by rewrite <- insert_union_singleton_l.
    + apply map_disjoint_singleton_r. by rewrite <- Hobs.
  - by rewrite last_snoc.
  - done.
  - done.
  - intros ->. by eapply digests_snoc; [apply Hd|..].
Qed.

(** ** The header and the manifest *)

Definition entry_fits (max : Z) (e : tar_entry) : Prop := plain e /\ 1 <= te_Size e <= max /\ te_Size e <= zlen (te_data e).

Lemma readExact_ok e raw : readExactEntry e = Ok raw <-> te_Size e <= zlen (te_data e) /\ raw = contents e.
Proof.
  unfold readExactEntry, contents. destruct (Z.ltb_spec (zlen (te_data e)) (te_Size e)); [split; [done|lia]|].
  split; [by intros [= <-]|]. by intros [_ ->].
Qed.

Definition header_ok (e : tar_entry) : Prop :=
  te_Name e = FormatEntry /\ entry_fits 1024 e /\
  decodeStrictJSON json_format (contents e) = Ok {| fh_Format := FormatName; fh_Version := FormatVersion |}.

Definition started (e : tar_entry) : tarReadState :=
  {| observed := ∅; contentDigest := ∅; fileDigest := None; state_manifest := None; entryIndex := 1;
     expanded := te_Size e; lastPart := "" |}.

Lemma consume_header limits v e s :
  consume new_state e limits v = Ok s <->
  header_ok e /\ te_Size e <= lim_MaxExpandedBytes limits /\ s = started e.
Proof.
  unfold consume, header_ok, entry_fits. destruct (_ || negb (bool_decide _)) eqn:Ep.
  { split; [done|]. intros [(_ & [Hp%plain_check _] & _) _]. congruence. }
  apply plain_check in Ep. destruct (Z.ltb_spec (te_Size e) 0); cbn [orb]; [split; [done|]; intros [(_ & [_ ?] & _) _]; lia|].
  cbn [expanded new_state state_manifest entryIndex].
  destruct (Z.ltb_spec (lim_MaxExpandedBytes limits - te_Size e) 0); [split; [done|]; intros [_ [? _]]; lia|].
  rewrite bool_decide_false by (by intros []). rewrite Z.eqb_refl, obind_ok. unfold consumeFormat.
  destruct (String.eqb_spec (te_Name e) FormatEntry); cbn [negb orb]; [|naive_solver].
  destruct (Z.ltb_spec (te_Size e) 1); cbn [orb]; [naive_solver lia|].
  destruct (Z.ltb_spec 1024 (te_Size e)); [naive_solver lia|]. split.
  - intros (s1 & (raw & [Hl ->]%readExact_ok & Hd)%obind_ok & [= <-]).
    destruct (decodeStrictJSON _ _) as [f|] eqn:E; [|done]. destruct (_ && _) eqn:Ef; [|done]. injection Hd as <-.
    apply andb_true_iff in Ef as [E1%String.eqb_eq E2%Z.eqb_eq]. destruct f as [fm fv]. cbn in E1, E2. subst.
    split; [done|]. split; [lia|done].
  - intros [(_ & (_ & _ & Hl) & Hd) [_ ->]]. eexists. rewrite obind_ok. split.
    + eexists. rewrite readExact_ok. split; [by split|]. rewrite Hd. cbn. done.
    + done.
Qed.

Lemma started_reading v e : reading v e (started e) [].
Proof.
  split; cbn; [lia|done|lia|done|done|by constructor|by constructor|]. intros _. split; [done|]. intros r.
  by rewrite decide_False by set_solver.
Qed.

Lemma consume_manifest limits v h s parts e s' :
  reading v h s parts -> te_Name e = ManifestEntry ->
  consume s e limits v = Ok s' <->
  entry_fits (lim_MaxManifestBytes limits) e /\ expanded s + te_Size e <= lim_MaxExpandedBytes limits /\
  exists m, decodeStrictJSON json_manifest (contents e) = Ok m /\
    s' = let d := finishFileDigest s in
         {| observed := observed s; contentDigest := contentDigest d; fileDigest := None;
            state_manifest := Some m; entryIndex := entryIndex s + 1; expanded := expanded s + te_Size e;
            lastPart := lastPart s |}.
Proof.
  intros [Hi Ho _ _ _ _ _ _] Hn. unfold consume, entry_fits.
  destruct (_ || negb (bool_decide _)) eqn:Ep.
  { split; [done|]. intros [[Hp%plain_check _] _]. congruence. }
  apply plain_check in Ep. destruct (Z.ltb_spec (te_Size e) 0); cbn [orb]; [split; [done|]; naive_solver lia|].
  destruct (Z.ltb_spec (lim_MaxExpandedBytes limits - te_Size e) (expanded s)); [split; [done|]; naive_solver lia|].
  cbn [state_manifest entryIndex]. rewrite Ho, bool_decide_false by (by intros []).
  destruct (Z.eqb_spec (entryIndex s) 0); [lia|]. rewrite Hn, String.eqb_refl, obind_ok. unfold consumeManifest.
  destruct (Z.ltb_spec (te_Size e) 1); cbn [orb]; [naive_solver lia|].
  destruct (Z.ltb_spec (lim_MaxManifestBytes limits) (te_Size e)); [naive_solver lia|].
  unfold finishFileDigest. cbn [fileDigest]. split.
  - intros (s1 & (raw & [Hl ->]%readExact_ok & Hd)%obind_ok & [= <-]). split; [done|]. split; [lia|].
    destruct (decodeStrictJSON _ _) as [m|]; [|done]. exists m. split; [done|]. injection Hd as <-.
    by destruct (fileDigest s) as [[r d]|] eqn:Ed; cbn; rewrite ?Ed.
  - intros ((_ & _ & Hl) & _ & m & Hd & ->). eexists. rewrite obind_ok. split.
    + eexists. rewrite readExact_ok. split; [by split|]. by rewrite Hd.
    + by destruct (fileDigest s) as [[r d]|] eqn:Ed; cbn; rewrite ?Ed.
Qed.

Lemma closed_no_more s e limits v s' : is_Some (state_manifest s) -> consume s e limits v <> Ok s'.
Proof.
  intros Hs. unfold consume. destruct (_ || negb (bool_decide _)); [done|]. destruct (_ || _); [done|].
  cbn [state_manifest]. by rewrite bool_decide_true.
Qed.

(** ** The whole stream *)

Lemma parts_then_manifest limits v h s parts entries s' m :
  reading v h s parts -> consume_all s entries limits v = Ok s' -> state_manifest s' = Some m ->
  exists more last s1, entries = more ++ [last] /\ reading v h s1 (parts ++ more) /\ te_Name last = ManifestEntry /\
    decodeStrictJSON json_manifest (contents last) = Ok m /\
    observed s' = observed s1 /\ contentDigest (finishFileDigest s') = contentDigest (finishFileDigest s1).
Proof.
  revert s parts. induction entries as [|e entries IH]; intros s parts Hr Hall Hm; cbn [consume_all] in Hall.
  { injection Hall as <-. rewrite (rd_open _ _ _ _ Hr) in Hm. done. }
  apply obind_ok in Hall as (s2 & Hc & Hall). destruct (String.eqb_spec (te_Name e) ManifestEntry) as [E|E].
  - pose proof Hc as Hc'. apply (consume_manifest _ _ _ _ _ _ _ Hr E) in Hc' as (_ & _ & m' & Hd & ->).
    destruct entries as [|e' entries].
    2: { cbn [consume_all] in Hall. apply obind_ok in Hall as (s3 & Hbad & _). by apply closed_no_more in Hbad. }
    injection Hall as <-. injection Hm as ->. exists [], e, s. rewrite app_nil_r. split_and!; try done.
  - apply String.eqb_neq in E. apply (consume_part _ _ _ _ _ _ _ Hr E) in Hc as [Hf ->].
    eapply IH in Hall as (more & last & s1 & -> & Hr1 & Hrest); [|by eapply reading_snoc|done].
    exists (e :: more), last, s1. split; [done|]. by rewrite <- app_assoc in Hr1.
Qed.

Lemma readTar_ok stream limits v m obs dig :
  readTar stream limits v = Ok (m, obs, dig) ->
  exists header parts last s, ts_entries stream = header :: parts ++ [last] /\
    header_ok header /\ te_Name last = ManifestEntry /\ decodeStrictJSON json_manifest (contents last) = Ok m /\
    reading v header s parts /\ obs = observed s /\ dig = contentDigest (finishFileDigest s).
Proof.
  unfold readTar. intros (s' & Hall & Hr)%obind_ok. destruct (ts_corrupt stream); [done|].
  destruct (state_manifest s') as [m'|] eqn:Em; [|done]. destruct (_ =? 0); [done|].
  destruct (ts_entries stream) as [|h entries]; [injection Hall as <-; done|]. cbn [consume_all] in Hall.
  apply obind_ok in Hall as (s1 & (Hh & _ & ->)%consume_header & Hall).
  eapply parts_then_manifest in Hall as (parts & last & s2 & -> & Hrd & Hn & Hd & Eo & Ec); [|by apply started_reading|exact Em].
  cbn [app] in Hrd. exists h, parts, last, s2.
  assert (observed (finishFileDigest s') = observed s') as Ef.
  { unfold finishFileDigest. by destruct (fileDigest s') as [[? ?]|]. }
  injection Hr as -> <- <-. rewrite Ef. split_and!; done.
Qed.

(** ** Streams that are read to the end *)

Lemma parts_run limits v h s parts more :
  reading v h s parts -> Forall entry_ok more -> canonical (default "" (te_Name <$> last parts)) (te_Name <$> more) ->
  expanded s + sumZ (te_Size <$> more) <= lim_MaxExpandedBytes limits ->
  0 <= expanded s -> more = [] \/ zlen parts + zlen more <= lim_MaxPartCount limits ->
  exists s', consume_all s more limits v = Ok s' /\ reading v h s' (parts ++ more).
Proof.
  revert s parts. induction more as [|e more IH]; intros s parts Hr He Hc Hx Hx0 Hn.
  { exists s. by rewrite app_nil_r. }
  destruct Hn as [?|Hn]; [done|]. apply Forall_cons in He as [He Hes]. rewrite fmap_cons, canonical_cons in Hc. destruct Hc as [Hlt Hc].
  change (sumZ (te_Size <$> e :: more)) with (te_Size e + sumZ (te_Size <$> more)) in Hx. pose proof (ek_size _ He) as Hsz. assert (0 <= sumZ (te_Size <$> more)) as Hs.
  { apply sumZ_nonneg, Forall_fmap. eapply Forall_impl; [exact Hes|]. intros x [_ _ ?]. cbn. lia. }
  assert (part_fits limits s e) as Hfit.
  { assert (slt (lastPart s) (te_Name e)) as Hl by (by rewrite (rd_last _ _ _ _ Hr)).
    split; [|lia]. split_and!; [done|done| |lia|].
    - destruct (observed s !! te_Name e) as [o|] eqn:Eo; [|done].
      apply (reading_lookup _ _ _ _ _ _ Hr) in Eo as (x & Hin & En & _).
      destruct (slt_irrefl (te_Name e)). rewrite <- En at 1.
      pose proof (rd_names _ _ _ _ Hr) as Hcan.
      assert (canonical "" ((te_Name <$> parts) ++ [te_Name e])) as Hc2 by (apply canonical_snoc; by rewrite fmap_last).
      eapply canonical_app; [exact Hc2|by apply list_elem_of_fmap_2|by apply list_elem_of_singleton].
    - rewrite (reading_size _ _ _ _ Hr). unfold zlen in Hn. cbn [length] in Hn. lia. }
  pose proof (reading_snoc _ _ _ _ _ _ Hr Hfit) as Hr'.
  assert (String.eqb (te_Name e) ManifestEntry = false) as Hne by (apply pattern_not_manifest, He).
  destruct (IH (after_part v s e) (parts ++ [e])) as (s' & Hall & Hrd); [done|done| |cbn; lia|cbn; lia| |].
  - by rewrite last_snoc.
  - right. rewrite zlen_app. unfold zlen in Hn |- *. cbn [length] in *. lia.
  - exists s'. rewrite <- app_assoc in Hrd. split; [|done]. cbn [consume_all].
    by rewrite (proj2 (consume_part _ _ _ _ _ _ _ Hr Hne) (conj Hfit eq_refl)).
Qed.

Lemma consume_all_app s l1 l2 limits v :
  consume_all s (l1 ++ l2) limits v = (s1 ← consume_all s l1 limits v; consume_all s1 l2 limits v).
Proof.
  revert s. induction l1 as [|e l1 IH]; intros s; [done|]. cbn [app consume_all].
  destruct (consume s e limits v); cbn; [apply IH|done].
Qed.

Lemma readTar_reads limits v header parts last m :
  header_ok header -> Forall entry_ok parts -> canonical "" (te_Name <$> parts) ->
  te_Name last = ManifestEntry -> entry_fits (lim_MaxManifestBytes limits) last ->
  decodeStrictJSON json_manifest (contents last) = Ok m ->
  te_Size header + sumZ (te_Size <$> parts) + te_Size last <= lim_MaxExpandedBytes limits ->
  parts = [] \/ zlen parts <= lim_MaxPartCount limits ->
  exists s, readTar {| ts_entries := header :: parts ++ [last]; ts_corrupt := false |} limits v =
      Ok (m, observed s, contentDigest (finishFileDigest s)) /\ reading v header s parts.
Proof.
  intros Hh Hp Hc Hn Hl Hd Hx Hcount. pose proof Hh as (_ & (_ & Hhs & _) & _). pose proof Hl as (_ & Hls & _).
  assert (0 <= sumZ (te_Size <$> parts)) as Hs.
  { apply sumZ_nonneg, Forall_fmap. eapply Forall_impl; [exact Hp|]. intros x [_ _ ?]. cbn. lia. }
  destruct (parts_run limits v header (started header) [] parts) as (s & Hall & Hr);
    [apply started_reading|done|done|cbn [expanded started]; lia|cbn [expanded started]; lia|by rewrite Z.add_0_l|]. cbn [app] in Hr.
  exists s. split; [|done]. unfold readTar. cbn [ts_entries ts_corrupt consume_all].
  rewrite (proj2 (consume_header limits v header _)) by (split_and!; [done..|lia|done]). cbn [mbind outcome_bind].
  rewrite consume_all_app, Hall. cbn [mbind outcome_bind consume_all].
  erewrite (proj2 (consume_manifest limits v header s parts last _ Hr Hn)).
  2: { split; [done|]. split; [rewrite (rd_expanded _ _ _ _ Hr); lia|]. exists m. by split. }
  pose proof (rd_index _ _ _ _ Hr). cbn. destruct (Z.eqb_spec (entryIndex s + 1) 0); [lia|]. done.
Qed.
End Reader.
