(* ===== verification/ArchiveTheorems.v ===== *)
(** * Archives: theorems

    What [Build] writes, the reader takes back; what the reader accepts is what the
    manifest declares; and an object with a composite checksum keeps an archive from being
    written and from being read. *)

From stdpp Require Import base strings list gmap sorting.
From Stdlib Require Import Ascii.
From S2P Require Import Prelude GoStr Crc Base64 Checksum BlockIO Store S3Object FileManager Multipart.
From S2P Require Import BackupFmt Archive ManifestSpec ArchiveNames ArchiveReader.
Import BackupFmt Archive.
Import FileManager (string_bytes).
Import Multipart (MaxInt64, indexed).

Section Theorems.
Context `{!ArchiveLib} `{!FileCodec} `{!Sha}.

(** ** Parts and entries *)

Definition matches (v : bool) (p : Part) (e : tar_entry) : Prop :=
  te_Name e = part_Entry p /\ te_Size e = part_Size p /\
  (v = true -> md5_hex (contents e) = part_MD5 p /\ sha256_hex (contents e) = part_SHA256 p).

Definition observed_as (v : bool) (obs : gmap string observedPart) (p : Part) : Prop :=
  exists a, obs !! part_Entry p = Some a /\ op_size a = part_Size p /\
    (v = true -> op_md5 a = part_MD5 p /\ op_sha256 a = part_SHA256 p).

Lemma compare_parts_ok v obs parts : compare_parts parts obs v = Ok tt <-> Forall (observed_as v obs) parts.
Proof.
  induction parts as [|p parts IH]; cbn [compare_parts]; [by rewrite Forall_nil|]. rewrite Forall_cons, <- IH.
  unfold observed_as at 1. destruct (obs !! part_Entry p) as [a|]; [|naive_solver].
  destruct (Z.eqb_spec (op_size a) (part_Size p)); cbn [negb]; [|naive_solver]. destruct v; cbn [andb].
  - destruct (String.eqb_spec (op_md5 a) (part_MD5 p)); cbn [negb orb]; [|naive_solver].
    destruct (String.eqb_spec (op_sha256 a) (part_SHA256 p)); cbn [negb]; naive_solver.
  - naive_solver.
Qed.

Lemma sorted_by_index (l : list string) :
  (forall i j x y, (i < j)%nat -> l !! i = Some x -> l !! j = Some y -> slt x y) -> StronglySorted slt l.
Proof.
  induction l as [|x l IH]; intros Hl; [constructor|]. constructor.
  - apply IH. intros i j a b Hij Ha Hb. apply (Hl (S i) (S j)); [lia|done..].
  - apply Forall_lookup. intros i y Hy. apply (Hl O (S i)); [lia|done..].
Qed.

Lemma file_part_at max f i p :
  file_ok max f -> file_Parts f !! i = Some p -> part_ok (file_Ref f) max (Z.of_nat i, p).
Proof.
  intros [_ _ _ _ [[_ [_ Hp _ _]]|[_ [[E _] _ _ _ _]]]] Hi; [|by rewrite E in Hi].
  eapply Forall_lookup in Hp; [exact Hp|]. unfold indexed. by rewrite list_lookup_imap, Hi.
Qed.

(** Parts whose names have eight digits are stored in the order of their names. *)
Lemma part_names_sorted max files :
  Forall (file_ok max) files -> canonical "" (file_Ref <$> files) ->
  (forall p, p ∈ parts_of files -> is_Some (partEntryPattern (part_Entry p))) ->
  StronglySorted slt (part_Entry <$> parts_of files).
Proof.
  assert (forall f i p, file_ok max f -> file_Parts f !! i = Some p -> is_Some (partEntryPattern (part_Entry p)) ->
    part_Entry p = part_entry (file_Ref f) (Z.of_nat i) /\ Z.of_nat i < 10 ^ 8) as Hidx.
  { intros f i p Hf Hi [r Hr]. destruct (file_part_at _ _ _ _ Hf Hi) as (_ & _ & E & _). cbn in E.
    split; [done|]. rewrite E in Hr. eapply part_index_small; [apply Hf|exact Hr]. }
  generalize "". induction files as [|f files IH]; intros last Hf Hc Hp; [constructor|].
  apply Forall_cons in Hf as [Hf Hfs]. rewrite fmap_cons, canonical_cons in Hc. destruct Hc as [_ Hc].
  change (parts_of (f :: files)) with (file_Parts f ++ parts_of files) in *. rewrite fmap_app.
  apply StronglySorted_app. split_and!.
  - intros x y (p & -> & Hx)%list_elem_of_fmap (q & -> & Hy)%list_elem_of_fmap.
    apply list_elem_of_lookup in Hx as [i Hi].
    destruct (Hidx f i p Hf Hi) as [-> _]; [apply Hp, elem_of_app; left; by eapply list_elem_of_lookup_2|].
    pose proof Hy as Hq. apply list_elem_of_bind in Hy as (g & Hj & Hg). apply list_elem_of_lookup in Hj as [j Hj].
    assert (file_ok max g) as Hg' by (by eapply Forall_forall in Hfs).
    destruct (Hidx g j q Hg' Hj) as [-> _]; [apply Hp, elem_of_app; by right|].
    apply part_entry_lt; [apply Hf|apply Hg'|]. eapply canonical_elem; [exact Hc|]. by apply list_elem_of_fmap_2.
  - apply sorted_by_index. intros i j x y Hij. rewrite !list_lookup_fmap.
    destruct (file_Parts f !! i) as [p|] eqn:Ei; [|done]. destruct (file_Parts f !! j) as [q|] eqn:Ej; [|done].
    intros [= <-] [= <-].
    destruct (Hidx f i p Hf Ei) as [-> _]; [apply Hp, elem_of_app; left; by eapply list_elem_of_lookup_2|].
    destruct (Hidx f j q Hf Ej) as [-> ?]; [apply Hp, elem_of_app; left; by eapply list_elem_of_lookup_2|].
    apply part_entry_next; lia.
  - eapply IH; [done|exact Hc|]. intros p Hx. apply Hp, elem_of_app. by right.
Qed.

(** The parts of a stream that agrees with a manifest are those of the manifest, in order. *)
Lemma parts_match v h s parts max files :
  reading v h s parts -> Forall (file_ok max) files -> canonical "" (file_Ref <$> files) ->
  Forall (observed_as v (observed s)) (parts_of files) -> size (observed s) = length (parts_of files) ->
  Forall2 (matches v) (parts_of files) parts.
Proof.
  intros Hr Hf Hc Ho Hsz. rewrite (reading_size _ _ _ _ Hr) in Hsz.
  assert (forall p, p ∈ parts_of files -> exists e, e ∈ parts /\ te_Name e = part_Entry p) as Hfind.
  { intros p Hp. eapply Forall_forall in Ho as (a & Ha & _); [|exact Hp].
    apply (reading_lookup _ _ _ _ _ _ Hr) in Ha as (e & He & En & _). by exists e. }
  assert (StronglySorted slt (part_Entry <$> parts_of files)) as Hs1.
  { eapply part_names_sorted; [exact Hf|exact Hc|]. intros p (e & He & <-)%Hfind.
    eapply Forall_forall in He; [|apply (rd_entries _ _ _ _ Hr)]. apply He. }
  assert (StronglySorted slt (te_Name <$> parts)) as Hs2.
  { pose proof (rd_names _ _ _ _ Hr) as Hn. apply Sorted_StronglySorted in Hn; [|apply _].
    by apply StronglySorted_inv in Hn as [Hn _]. }
  assert (part_Entry <$> parts_of files = te_Name <$> parts) as En.
  { apply (StronglySorted_unique_strong slt); [|done|done|].
    - intros x y _ _ Hxy Hyx. destruct (slt_irrefl x). by trans y.
    - apply submseteq_length_Permutation; [|by rewrite !length_fmap, Hsz].
      apply NoDup_submseteq.
      + apply (canonical_NoDup ""). constructor; [by apply StronglySorted_Sorted|]. destruct (parts_of files) as [|p ps] eqn:E; [by constructor|].
        cbn. constructor. destruct (Hfind p) as (e & He & <-); [left|].
        eapply canonical_elem; [apply (rd_names _ _ _ _ Hr)|]. by apply list_elem_of_fmap_2.
      + intros x (p & -> & Hp)%list_elem_of_fmap. destruct (Hfind p Hp) as (e & He & <-). by apply list_elem_of_fmap_2. }
  apply Forall2_same_length_lookup_2; [done|]. intros i p e Hi Hj.
  assert (te_Name e = part_Entry p) as Ename.
  { apply (f_equal (.!! i)) in En. rewrite !list_lookup_fmap, Hi, Hj in En. cbn in En. congruence. }
  eapply Forall_lookup in Ho as (a & Ha & Hos & Hd); [|exact Hi].
  assert (observed s !! te_Name e = Some (observation v e)) as Hobs.
  { apply (reading_lookup _ _ _ _ _ _ Hr). exists e. split; [by eapply list_elem_of_lookup_2|done]. }
  rewrite Ename, Ha in Hobs. injection Hobs as ->. split; [done|].
  unfold observation in *. destruct v; [by split|]. by split.
Qed.

(** ** Contents *)

Lemma ParseAlgorithm_supported s a : Checksum.ParseAlgorithm s = Ok a -> a ∈ Checksum.supported.
Proof.
  unfold Checksum.ParseAlgorithm, Checksum.parseAlgorithmWithDefault. repeat case_decide; try done; congruence.
Qed.

Lemma supported_parses a : a ∈ Checksum.supported -> Checksum.ParseAlgorithm a = Ok a.
Proof. unfold Checksum.supported. rewrite !elem_of_cons, elem_of_nil. intros [->|[->|[->|[->|[->|[]]]]]]; by vm_compute. Qed.

Lemma checksum_digest a h data :
  a ∈ Checksum.supported -> Checksum.NewHash sha1 sha256 a = Ok h ->
  fd_checksums (accumulatedFileDigest data) !! a = Some (Checksum.SumBase64 h data).
Proof.
  intros Ha Hh. cbn [fd_checksums accumulatedFileDigest]. set (f := fun algorithm : string => _).
  assert (forall l, (omap f l).*1 `sublist_of` l) as Hsub.
  { induction l as [|b l IH]; [done|]. cbn [omap list_omap]. unfold f at 1.
    destruct (Checksum.NewHash sha1 sha256 b); cbn [fmap list_fmap fst]; by constructor. }
  apply elem_of_list_to_map_1.
  - eapply sublist_NoDup; [|apply Hsub]. apply (bool_decide_unpack (NoDup Checksum.supported)). by vm_compute.
  - apply list_elem_of_omap. exists a. split; [done|]. unfold f. by rewrite Hh.
Qed.

Lemma physical_digests_other files d d' r :
  physical_digests files d = Ok d' -> r ∉ file_Ref <$> files -> d' !! r = d !! r.
Proof.
  revert d. induction files as [|f files IH]; intros d; cbn [physical_digests]; [by intros [= ->]|].
  rewrite fmap_cons, not_elem_of_cons. intros Hd [Hne Hn]. destruct (negb _); [by apply IH|].
  destruct (file_Size f =? 0); [rewrite (IH _ Hd Hn), lookup_insert_ne by done; done|].
  destruct (bool_decide _); [by apply IH|done].
Qed.

Lemma physical_digests_ok files d d' f :
  physical_digests files d = Ok d' -> NoDup (file_Ref <$> files) -> f ∈ files -> file_LayoutVersion f = 1 ->
  d' !! file_Ref f = (if file_Size f =? 0 then Some (accumulatedFileDigest []) else d !! file_Ref f) /\
  is_Some (d' !! file_Ref f).
Proof.
  revert d. induction files as [|g files IH]; intros d Hd Hnd Hf Hl; [by apply elem_of_nil in Hf|].
  rewrite fmap_cons in Hnd. apply NoDup_cons in Hnd as [Hn Hnd]. cbn [physical_digests] in Hd.
  apply elem_of_cons in Hf as [->|Hf].
  - rewrite Hl in Hd. cbn in Hd. destruct (file_Size g =? 0).
    + rewrite (physical_digests_other _ _ _ _ Hd Hn), lookup_insert_eq. eauto.
    + destruct (bool_decide_reflect (is_Some (d !! file_Ref g))); [|done].
      by rewrite (physical_digests_other _ _ _ _ Hd Hn).
  - assert (file_Ref g <> file_Ref f) as Hne by (intros E; apply Hn; rewrite E; by apply list_elem_of_fmap_2).
    destruct (negb _); [by apply IH|]. destruct (file_Size g =? 0).
    + destruct (IH _ Hd Hnd Hf Hl) as [E Hs]. by rewrite lookup_insert_ne in E by done.
    + destruct (bool_decide _); [by apply IH|done].
Qed.

(** The entry of a part is named after the part's file. *)
Lemma entry_ref max f i p e :
  file_ok max f -> file_Parts f !! i = Some p -> te_Name e = part_Entry p -> entry_ok e -> ref_of e = file_Ref f.
Proof.
  intros Hf Hi En Hok. destruct (file_part_at _ _ _ _ Hf Hi) as (_ & _ & Ent & _). cbn in Ent. unfold ref_of.
  destruct (ek_name _ Hok) as [r Er]. rewrite En, Ent in *. rewrite part_entry_pattern; [done|apply Hf|].
  split; [lia|]. eapply part_index_small; [apply Hf|exact Er].
Qed.

(** Every entry belongs to a file with parts. *)
Lemma entry_file v h s parts max files e :
  reading v h s parts -> Forall (file_ok max) files -> Forall2 (matches v) (parts_of files) parts -> e ∈ parts ->
  exists f, f ∈ files /\ ref_of e = file_Ref f /\ file_Parts f <> [].
Proof.
  intros Hr Hf Hm He. pose proof He as Hok. eapply Forall_forall in Hok; [|apply (rd_entries _ _ _ _ Hr)].
  apply list_elem_of_lookup in He as [k Hk]. eapply Forall2_lookup_r in Hm as (p & Hp & En & _); [|exact Hk].
  apply list_elem_of_lookup_2, list_elem_of_bind in Hp as (f & Hp & Hff). apply list_elem_of_lookup in Hp as [i Hi].
  exists f. split; [done|]. split; [|intros E; by rewrite E in Hi].
  eapply Forall_forall in Hf; [|exact Hff]. by eapply entry_ref.
Qed.

(** The bytes of a file are as many as its parts declare. *)
Lemma content_of_app r l1 l2 : content_of r (l1 ++ l2) = content_of r l1 ++ content_of r l2.
Proof. unfold content_of. by rewrite filter_app, fmap_app, concat_app. Qed.

Lemma contents_size e : entry_ok e -> zlen (contents e) = te_Size e.
Proof.
  intros [_ _ ?]. unfold contents, ztake, zlen in *. rewrite length_firstn. lia.
Qed.

Lemma content_same r l : Forall (fun e => ref_of e = r) l -> content_of r l = concat (contents <$> l).
Proof.
  unfold content_of. induction 1 as [|e l He _ IH]; [done|]. rewrite filter_cons_True by done. cbn. by rewrite IH.
Qed.

Lemma content_size max files parts r :
  Forall (file_ok max) files -> Forall entry_ok parts -> Forall2 (matches true) (parts_of files) parts ->
  zlen (content_of r parts) = bytes_of (parts_of (filter (fun f => file_Ref f = r) files)).
Proof.
  intros Hf. revert parts. induction Hf as [|f files Hf _ IH]; intros parts Hok Hm.
  { by apply Forall2_nil_inv_l in Hm as ->. }
  change (parts_of (f :: files)) with (file_Parts f ++ parts_of files) in Hm.
  apply Forall2_app_inv_l in Hm as (l1 & l2 & Hl1 & Hl2 & ->). apply Forall_app in Hok as [Hok1 Hok2].
  rewrite content_of_app, zlen_app, (IH _ Hok2 Hl2). clear IH Hl2 Hok2.
  assert (Forall (fun e => ref_of e = file_Ref f) l1) as Href.
  { apply Forall_lookup. intros i e Hi. eapply Forall2_lookup_r in Hl1 as (p & Hp & En & _); [|exact Hi].
    eapply Forall_lookup in Hok1; [|exact Hi]. by eapply entry_ref. }
  rewrite filter_cons. destruct (decide (file_Ref f = r)) as [<-|Hne].
  - rewrite (content_same _ _ Href). change (parts_of (f :: ?l)) with (file_Parts f ++ parts_of l).
    rewrite bytes_app. f_equal. clear Href Hf. induction Hl1 as [|p e ps es (_ & Es & _) _ IH]; [done|].
    apply Forall_cons in Hok1 as [He Hok]. cbn [fmap list_fmap concat].
    by rewrite zlen_app, bytes_cons, (contents_size _ He), Es, IH.
  - rewrite content_none; [done|]. intros (e & -> & He)%list_elem_of_fmap. apply Hne.
    symmetry. by eapply Forall_forall in Href.
Qed.

Lemma filter_ref files f : NoDup (file_Ref <$> files) -> f ∈ files -> filter (fun g => file_Ref g = file_Ref f) files = [f].
Proof.
  induction files as [|g files IH]; intros Hnd Hf; [by apply elem_of_nil in Hf|].
  rewrite fmap_cons in Hnd. apply NoDup_cons in Hnd as [Hn Hnd]. rewrite filter_cons. apply elem_of_cons in Hf as [->|Hf].
  - rewrite decide_True by done. f_equal. destruct (filter _ files) as [|x l] eqn:E; [done|].
    assert (x ∈ filter (fun h => file_Ref h = file_Ref g) files) as [Ex Hx]%list_elem_of_filter by (rewrite E; left).
    exfalso. apply Hn. rewrite <- Ex. by apply list_elem_of_fmap_2.
  - rewrite decide_False; [by apply IH|]. intros E. apply Hn. rewrite E. by apply list_elem_of_fmap_2.
Qed.

Lemma physical_content_size max files parts f :
  Forall (file_ok max) files -> canonical "" (file_Ref <$> files) -> Forall entry_ok parts ->
  Forall2 (matches true) (parts_of files) parts -> f ∈ files -> file_LayoutVersion f = 1 ->
  zlen (content_of (file_Ref f) parts) = file_Size f.
Proof.
  intros Hf Hc Hok Hm Hin Hl. rewrite (content_size _ _ _ _ Hf Hok Hm).
  rewrite filter_ref by (by eauto using canonical_NoDup). unfold parts_of. cbn. rewrite app_nil_r.
  eapply Forall_forall in Hf; [|exact Hin]. destruct Hf as [_ _ _ _ [[_ [_ _ [Hs _] _]]|[L _]]]; [|congruence].
  rewrite <- Hs. unfold sizes, bytes_of. by rewrite (imap_snd part_Size).
Qed.

(** The digest of a physical file is that of its bytes in the stream. *)
Lemma file_digest h s parts max files d f :
  reading true h s parts -> Forall (file_ok max) files -> canonical "" (file_Ref <$> files) ->
  Forall2 (matches true) (parts_of files) parts ->
  physical_digests files (contentDigest (finishFileDigest s)) = Ok d -> f ∈ files -> file_LayoutVersion f = 1 ->
  d !! file_Ref f = Some (accumulatedFileDigest (content_of (file_Ref f) parts)).
Proof.
  intros Hr Hf Hc Hm Hd Hin Hl. pose proof (canonical_NoDup _ _ Hc) as Hnd.
  destruct (physical_digests_ok _ _ _ _ Hd Hnd Hin Hl) as [E [x Hx]]. rewrite E in *.
  destruct (Z.eqb_spec (file_Size f) 0) as [Ez|_].
  - rewrite content_none; [done|]. intros (e & Er & He)%list_elem_of_fmap.
    destruct (entry_file _ _ _ _ _ _ _ Hr Hf Hm He) as (g & Hg & Eg & Hp).
    assert (g = f) as ->.
    { rewrite <- Er in Eg. clear -Eg Hg Hin Hnd. apply list_elem_of_lookup in Hg as [i Hi], Hin as [j Hj].
      assert (i = j) as -> by (eapply (NoDup_lookup _ i j (file_Ref f)); [exact Hnd|rewrite list_lookup_fmap, Hi; cbn; by rewrite Eg|by rewrite list_lookup_fmap, Hj]).
      congruence. }
    apply Hp. eapply Forall_forall in Hf; [|exact Hin]. destruct Hf as [_ _ _ _ [[_ [_ Hps [Hsz _] _]]|[L _]]]; [|congruence].
    eapply no_bytes_no_parts; [exact Hps|]. by rewrite Hsz.
  - rewrite (dg_done _ _ (rd_digests _ _ _ _ Hr eq_refl)) in Hx |- *. by case_decide.
Qed.

(** ** Composite checksums *)

Lemma is_checksum_no_dash a v : is_checksum a v -> has_byte "-"%char v = false.
Proof.
  intros (alg & raw & _ & Hd). unfold Checksum.Decode in Hd.
  destruct (Base64.decode v) eqn:E; [|done]. by eapply Base64.decode_no_dash.
Qed.

Lemma stored_has_dash a values request stored :
  Checksum.Composite sha1 sha256 a values = Ok (request, stored) -> has_byte "-"%char stored = true.
Proof.
  unfold Checksum.Composite. case_decide; [done|]. intros Hc.
  apply obind_ok in Hc as (u & _ & Hc). apply obind_ok in Hc as (h & _ & Hc).
  apply obind_ok in Hc as (written & _ & Hc). injection Hc as _ <-.
  rewrite has_byte_app. apply orb_true_iff. by right.
Qed.

Lemma readFile_ok file limits target verify m rep :
  readFile file limits target verify = Ok (m, rep) ->
  exists stream observed digests, af_stream file = Some stream /\
    readTar stream limits verify = Ok (m, observed, digests) /\
    ValidateManifest m limits target = Ok tt /\ compareObservedParts m observed verify = Ok tt /\
    (verify = true -> validateContentMetadata m digests = Ok tt) /\
    rep = {| rep_ArtifactSHA256 := sha256_hex (af_bytes file); rep_ArtifactBytes := zlen (af_bytes file);
             rep_Summary := mf_Limits m |}.
Proof.
  unfold readFile, readArchiveStream. destruct (_ || _); [done|]. destruct (af_stream file) as [stream|]; [|done].
  intros Hr. apply obind_ok in Hr as ([[m' obs] dig] & Hs & Hr).
  apply obind_ok in Hs as (r & Htar & Hs). destruct (af_trailing file); [|done].
  destruct (_ <? _); [done|]. destruct (af_more file); [done|]. injection Hs as ->.
  apply then_ok in Hr as [Hv Hr]. apply then_ok in Hr as [Hc Hr]. apply then_ok in Hr as [Hm Hr].
  injection Hr as -> <-. exists stream, obs, dig. split_and!; try done. by intros ->.
Qed.

Lemma VerifyFile_ok first second limits target m rep :
  VerifyFile first second limits target = Ok (m, rep) -> readFile second limits target true = Ok (m, rep).
Proof.
  unfold VerifyFile. intros Hv. apply obind_ok in Hv as (r1 & _ & Hv). apply obind_ok in Hv as (r2 & Hr & Hv).
  destruct (_ || _); [done|]. congruence.
Qed.

Lemma composite_content_dash o file digests :
  obj_ChecksumType o = Checksum.TypeComposite -> obj_RequestChecksumAlgorithm o <> "" ->
  validateS3ObjectContent o file digests = Ok tt -> has_byte "-"%char (obj_RequestChecksumValue o) = true.
Proof.
  intros Ht Ha. unfold validateS3ObjectContent. destruct (String.eqb_spec (obj_RequestChecksumAlgorithm o) ""); [done|].
  destruct (Checksum.ParseAlgorithm _) as [a|]; [|done]. intros Hc. apply obind_ok in Hc as (v & Hv & Hc).
  rewrite refuse_ok, negb_false_iff, String.eqb_eq in Hc. subst v. destruct file as [f|]; [|done].
  destruct (file_LayoutVersion f =? 1); [by rewrite Ht in Hv|]. destruct (file_LayoutVersion f =? 2); [|done].
  unfold compositeObjectChecksum in Hv. destruct (existsb _ _); [done|]. rewrite Ht in Hv. cbn in Hv.
  destruct (Checksum.Composite _ _ _ _) as [[req st]|e] eqn:E; [|done]. injection Hv as <-. by eapply stored_has_dash.
Qed.

(** An accepted manifest has only checksums without a part count. *)
Lemma accepted_no_dash m limits target o :
  ValidateManifest m limits target = Ok tt -> o ∈ mf_S3Objects m ->
  request_checksum_ok o /\ has_byte "-"%char (obj_RequestChecksumValue o) = false.
Proof.
  intros Hv%validateManifest_ok Ho. destruct (mk_objects _ _ _ Hv) as (_ & Hf & _).
  eapply Forall_forall in Hf; [|exact Ho]. pose proof (ob_checksum _ _ Hf) as Hc. split; [done|].
  destruct Hc as [(_ & -> & _)|(_ & Hc & _)]; [done|]. by eapply is_checksum_no_dash.
Qed.

(** C27: A backup cannot hold an object whose checksum is COMPOSITE. The value that
    [CompleteMultipartUpload] stores ends in the number of parts, and [ValidateManifest]
    takes only values without it: [Build] fails for every manifest with such an object, and
    no archive that [VerifyFile] accepts has an object of type COMPOSITE. *)
Theorem composite_checksum_blocks_backup m limits openPart o algorithm values request :
  o ∈ mf_S3Objects m -> Checksum.Composite sha1 sha256 algorithm values = Ok (request, obj_RequestChecksumValue o) ->
  (exists e, Build m limits openPart = Err e) /\
  forall first second limits' target m' rep,
    VerifyFile first second limits' target = Ok (m', rep) ->
    Forall (fun o' => obj_ChecksumType o' <> Checksum.TypeComposite) (mf_S3Objects m').
Proof.
  intros Ho Hc. split.
  - apply stored_has_dash in Hc. unfold Build, validateManifestForBuild.
    destruct (ValidateManifest _ limits _) as [[]|e] eqn:E; [|by exists e].
    eapply accepted_no_dash in E as [_ Hn]; [|exact Ho]. congruence.
  - clear. intros first second limits target m rep Hv%VerifyFile_ok.
    apply readFile_ok in Hv as (stream & obs & dig & _ & _ & Hm & _ & Hcon & _). specialize (Hcon eq_refl).
    apply Forall_forall. intros o Ho Ht. destruct (accepted_no_dash _ _ _ _ Hm Ho) as [Hr Hn].
    unfold validateContentMetadata in Hcon. apply obind_ok in Hcon as (dig' & _ & Hcon).
    apply then_ok in Hcon as [_ Hcon]. rewrite all_ok_forall in Hcon. eapply Forall_forall in Hcon; [|exact Ho].
    apply composite_content_dash in Hcon; [congruence|done|].
    destruct Hr as [(_ & _ & E)|(_ & (a & raw & Ha & _) & _)]; [by rewrite Ht in E|]. by intros E; rewrite E in Ha.
Qed.

(** ** Reading *)

Lemma compareObserved_ok m obs v :
  compareObservedParts m obs v = Ok tt <->
  Forall (observed_as v obs) (parts_of (mf_Files m)) /\ size obs = length (parts_of (mf_Files m)).
Proof.
  unfold compareObservedParts. rewrite then_ok, compare_parts_ok, refuse_ok, negb_false_iff, bool_decide_eq_true. done.
Qed.

Lemma file_of_path_elem m p f : file_of_path m p = Some f -> f ∈ mf_Files m.
Proof.
  unfold file_of_path. intros Hl. apply last_Some_elem_of in Hl. apply list_elem_of_In, List.filter_In in Hl as [Hl _].
  by apply list_elem_of_In.
Qed.

(** The bytes of a file: those of its parts, or of the files that its segments name. *)
Definition file_content (f : File) (parts : list tar_entry) : list Z :=
  if file_LayoutVersion f =? 1 then content_of (file_Ref f) parts
  else concat ((fun g => content_of (seg_SourceRef g) parts) <$> file_Segments f).
Definition holds_bytes (file : archive_file) : Prop :=
  forall stream, af_stream file = Some stream -> Forall (fun e => Forall is_byte (te_data e)) (ts_entries stream).

(** What the checks of [validateContentMetadata] start from: the digests [d] are those of
    the physical files of [files] in [parts]. *)
Record verified (files : list File) (parts : list tar_entry) (d : gmap string fileContentDigest) : Prop := {
  vf_digest : forall f, f ∈ files -> file_LayoutVersion f = 1 ->
    d !! file_Ref f = Some (accumulatedFileDigest (content_of (file_Ref f) parts));
  vf_size : forall f, f ∈ files -> file_LayoutVersion f = 1 -> zlen (content_of (file_Ref f) parts) = file_Size f;
  vf_file : forall f, f ∈ files -> exists max, file_ok max f;
  vf_sources : Forall (sources_ok files) files;
  vf_bytes : Forall (fun e => Forall is_byte (te_data e)) parts }.

Section Verified.
Context (files : list File) (parts : list tar_entry) (d : gmap string fileContentDigest) (Hver : verified files parts d).

Lemma physical_checksum f a h :
  f ∈ files -> file_LayoutVersion f = 1 -> a ∈ Checksum.supported -> Checksum.NewHash sha1 sha256 a = Ok h ->
  checksum_at d (file_Ref f) a = Checksum.SumBase64 h (content_of (file_Ref f) parts).
Proof.
  intros Hf Hl Ha Hh. unfold checksum_at. rewrite (vf_digest _ _ _ Hver) by done. by rewrite (checksum_digest _ _ _ Ha Hh).
Qed.

Lemma segment_content f g :
  f ∈ files -> file_LayoutVersion f = 2 -> g ∈ file_Segments f ->
  exists src, src ∈ files /\ file_Ref src = seg_SourceRef g /\ file_LayoutVersion src = 1 /\ file_Size src = seg_Size g.
Proof.
  intros Hf Hl Hg. pose proof (vf_sources _ _ _ Hver) as Hs. eapply Forall_forall in Hs; [|exact Hf].
  destruct (Hs Hl) as [Hsrc _]. by eapply Forall_forall in Hsrc.
Qed.

Lemma completed_checksum f i c g a h :
  validateCompletedPartContent files d = Ok tt -> f ∈ files -> file_LayoutVersion f = 2 ->
  file_CompletedParts f !! i = Some c -> file_Segments f !! i = Some g -> cpt_ChecksumState c = "available" ->
  Checksum.ParseAlgorithm (cpt_ChecksumAlgorithm c) = Ok a -> Checksum.NewHash sha1 sha256 a = Ok h ->
  cpt_ChecksumValue c = Checksum.SumBase64 h (content_of (seg_SourceRef g) parts).
Proof.
  intros Hv Hf Hl Hi Hj Hs Ha Hh. unfold validateCompletedPartContent in Hv. rewrite all_ok_forall in Hv.
  eapply Forall_forall in Hv; [|exact Hf]. rewrite Hl in Hv. rewrite Z.eqb_refl in Hv. cbn [negb] in Hv. rewrite all_ok_forall in Hv.
  eapply (Forall_lookup_1 _ _ i (c, Some g)) in Hv; [|by rewrite list_lookup_imap, Hi; cbn; rewrite Hj].
  cbn [fst snd] in Hv. rewrite Hs, Ha in Hv. cbn [String.eqb Ascii.eqb Bool.eqb negb] in Hv.
  rewrite refuse_ok, orb_false_iff, !negb_false_iff, String.eqb_eq in Hv. destruct Hv as [_ <-].
  destruct (segment_content f g Hf Hl) as (src & Hsrc & <- & Hl1 & _); [by eapply list_elem_of_lookup_2|].
  eapply physical_checksum; eauto using ParseAlgorithm_supported.
Qed.

Lemma content_bytes r : Forall is_byte (content_of r parts).
Proof.
  unfold content_of, contents, ztake. apply Forall_concat, Forall_fmap, Forall_forall. intros e [_ He]%list_elem_of_filter. cbn.
  apply Forall_take. pose proof (vf_bytes _ _ _ Hver) as Hb. by eapply Forall_forall in Hb.
Qed.

(** The combined checksum of a composite file is that of its bytes. *)
Lemma composite_checksum f a h v :
  validateCompletedPartContent files d = Ok tt -> f ∈ files -> file_LayoutVersion f = 2 ->
  a ∈ Checksum.supported -> Checksum.NewHash sha1 sha256 a = Ok h ->
  compositeObjectChecksum f a Checksum.TypeFullObject = Ok v -> v = Checksum.SumBase64 h (file_content f parts).
Proof.
  intros Hv Hf Hl Ha Hh. unfold compositeObjectChecksum. destruct (existsb _ _) eqn:Ex; [done|].
  rewrite String.eqb_refl. destruct (vf_file _ _ _ Hver f Hf) as [max [_ _ _ _ [[L _]|[_ Hco]]]]; [congruence|].
  assert (map (fun c => {| Checksum.pc_value := cpt_ChecksumValue c; Checksum.pc_size := cpt_PartSize c |})
            (file_CompletedParts f) =
          map (Checksum.checksum_of h) ((fun g => content_of (seg_SourceRef g) parts) <$> file_Segments f)) as ->.
  { apply list_eq_same_length with (n := length (file_Segments f));
      [by rewrite length_map, length_fmap|by rewrite length_map, (co_length _ Hco)|].
    intros i x y _. rewrite !list_lookup_fmap. destruct (file_CompletedParts f !! i) as [c|] eqn:Ei; [|done].
    destruct (file_Segments f !! i) as [g|] eqn:Ej; [|done]. intros [= <-] [= <-].
    destruct (segment_content f g Hf Hl) as (src & Hsrc & Er & Hl1 & Es); [by eapply list_elem_of_lookup_2|].
    pose proof (Forall_lookup_1 _ _ i (Z.of_nat i, (c, g)) (co_completed _ Hco)) as (_ & Esz & _).
    { unfold indexed. rewrite list_lookup_imap, lookup_zip_with, Ei. cbn. by rewrite Ej. }
    rewrite existsb_false in Ex. eapply Forall_lookup_1 in Ex; [|exact Ei].
    rewrite orb_false_iff, !negb_false_iff, !String.eqb_eq in Ex. destruct Ex as [Est Eal].
    unfold Checksum.checksum_of. f_equal.
    - eapply (completed_checksum f i c g a); try done. rewrite Eal. by apply supported_parses.
    - cbn in Esz. rewrite Esz, <- Es, <- Er. symmetry. by apply (vf_size _ _ _ Hver). }
  destruct (Checksum.FullObject _ _ _ _) as [w|] eqn:Ew; [|done]. intros [= <-].
  assert (exists u, Checksum.ValidateCombination a Checksum.TypeFullObject = Ok u) as [[] Hcomb].
  { revert Ew. unfold Checksum.FullObject. case_decide; [done|]. intros (u & Hu & _)%obind_ok. by exists u. }
  rewrite (Checksum.FullObject_parts _ _ a h) in Ew; [|done|done|..].
  - injection Ew as <-. unfold file_content. by rewrite Hl.
  - intros E%fmap_nil_inv. by destruct (co_only _ Hco).
  - apply Forall_fmap, Forall_forall. intros g Hg. split; [apply content_bytes|]. cbn.
    destruct (segment_content f g Hf Hl Hg) as (src & Hsrc & <- & Hl1 & _). rewrite (vf_size _ _ _ Hver) by done.
    destruct (vf_file _ _ _ Hver src Hsrc) as [m [_ _ _ _ [[_ [_ _ [_ Hm] _]]|[L _]]]]; [|congruence].
    unfold MaxInt64 in Hm. lia.
Qed.

(** The declared checksum of an object is that of its file's bytes. *)
Lemma object_checksum o f a h :
  validateCompletedPartContent files d = Ok tt -> validateS3ObjectContent o (Some f) d = Ok tt ->
  request_checksum_ok o -> has_byte "-"%char (obj_RequestChecksumValue o) = false -> f ∈ files ->
  Checksum.ParseAlgorithm (obj_RequestChecksumAlgorithm o) = Ok a -> Checksum.NewHash sha1 sha256 a = Ok h ->
  obj_RequestChecksumValue o = Checksum.SumBase64 h (file_content f parts).
Proof.
  intros Hv Hc Hr Hd Hf Ha Hh. pose proof (ParseAlgorithm_supported _ _ Ha) as Hsup. revert Hc. unfold validateS3ObjectContent.
  destruct (String.eqb_spec (obj_RequestChecksumAlgorithm o) "") as [E|Hne]; [by rewrite E in Ha|]. rewrite Ha.
  intros (v & Hx & Hc)%obind_ok. rewrite refuse_ok, negb_false_iff, String.eqb_eq in Hc. subst v.
  destruct (Z.eqb_spec (file_LayoutVersion f) 1) as [Hl|Hl].
  { unfold file_content. rewrite Hl. destruct (negb _); [done|]. injection Hx as <-. cbn. by apply physical_checksum. }
  destruct (Z.eqb_spec (file_LayoutVersion f) 2) as [Hl2|]; [|done].
  destruct (String.eqb_spec (obj_ChecksumType o) Checksum.TypeFullObject) as [Et|Et].
  { rewrite Et in Hx. by eapply composite_checksum. }
  exfalso. revert Hx. unfold compositeObjectChecksum. destruct (existsb _ _); [done|].
  rewrite (proj2 (String.eqb_neq _ _) Et). destruct (String.eqb _ Checksum.TypeComposite); [|done].
  destruct (Checksum.Composite _ _ _ _) as [[req st]|] eqn:Ec; [|done]. intros [= E].
  apply stored_has_dash in Ec. congruence.
Qed.
End Verified.
(** C25: An archive that [VerifyFile] accepts is the one its manifest describes. The
    manifest is well formed; the stream is the header, the parts and the manifest, where
    the parts are those of the manifest in order, each with its name, size, MD5 and SHA-256;
    every completed part that declares a checksum has that of the bytes of its source file;
    and every object that declares a checksum has that of its bytes in the stream, be its
    file physical or composed of segments, whose part checksums are then combined. *)
Theorem verified_archive_sound first second limits target m rep :
  VerifyFile first second limits target = Ok (m, rep) -> holds_bytes second ->
  manifest_ok limits target m /\ rep_ArtifactSHA256 rep = sha256_hex (af_bytes second) /\
  exists stream header parts last, af_stream second = Some stream /\
    ts_entries stream = header :: parts ++ [last] /\ header_ok header /\
    te_Name last = ManifestEntry /\ decodeStrictJSON json_manifest (contents last) = Ok m /\
    Forall2 (matches true) (parts_of (mf_Files m)) parts /\
    (forall f i c g a h, f ∈ mf_Files m -> file_LayoutVersion f = 2 -> file_CompletedParts f !! i = Some c ->
      file_Segments f !! i = Some g -> cpt_ChecksumState c = "available" ->
      Checksum.ParseAlgorithm (cpt_ChecksumAlgorithm c) = Ok a -> Checksum.NewHash sha1 sha256 a = Ok h ->
      cpt_ChecksumValue c = Checksum.SumBase64 h (content_of (seg_SourceRef g) parts)) /\
    forall o f a h, o ∈ mf_S3Objects m -> file_of_path m (obj_Path o) = Some f ->
      Checksum.ParseAlgorithm (obj_RequestChecksumAlgorithm o) = Ok a -> Checksum.NewHash sha1 sha256 a = Ok h ->
      obj_RequestChecksumValue o = Checksum.SumBase64 h (file_content f parts).
Proof.
  intros Hv%VerifyFile_ok Hb. apply readFile_ok in Hv as (stream & obs & dig & Hs & Htar & Hval & Hc & Hcon & ->).
  pose proof Hval as Hm. apply validateManifest_ok in Hm. split; [done|]. split; [done|].
  apply readTar_ok in Htar as (header & parts & last & s & Es & Hh & Hn & Hd & Hr & -> & ->).
  apply compareObserved_ok in Hc as [Ho Hsz]. destruct (mk_files _ _ _ Hm) as [Hcan Hf Hsrc _].
  assert (Forall2 (matches true) (parts_of (mf_Files m)) parts) as Hma by (by eapply parts_match).
  specialize (Hcon eq_refl). unfold validateContentMetadata in Hcon. apply obind_ok in Hcon as (d & Hpd & Hcon).
  apply then_ok in Hcon as [Hparts Hobjects]. rewrite all_ok_forall in Hobjects.
  assert (verified (mf_Files m) parts d) as Hver.
  { split; [intros; by eapply file_digest| | |done|].
    - intros f Hin Hl. by eapply physical_content_size; [..|apply (rd_entries _ _ _ _ Hr)| | |].
    - intros f Hin. eexists. by eapply Forall_forall in Hf.
    - specialize (Hb _ Hs). rewrite Es in Hb. apply Forall_cons in Hb as [_ [Hb _]%Forall_app]. done. }
  exists stream, header, parts, last. split_and!; try done.
  - intros. by eapply (completed_checksum (mf_Files m) parts d Hver).
  - intros o f a h Hobj Hfp. destruct (accepted_no_dash _ _ _ _ Hval Hobj) as [Hreq Hdash].
    eapply Forall_forall in Hobjects; [|exact Hobj]. rewrite Hfp in Hobjects.
    eapply object_checksum; eauto using file_of_path_elem.
Qed.

(** ** Writing *)

Lemma write_entry_ok name sz data e :
  write_entry name sz data = Ok e ->
  0 <= sz /\ e = {| te_Name := name; te_Size := sz; te_regular := true; te_ustar := true; te_pax := 0; te_data := data |}.
Proof. unfold write_entry. destruct (Z.ltb_spec sz 0); [done|]. cbn [orb]. destruct (2 ^ 33 <=? sz); [done|]. by intros [= <-]. Qed.

(** The entry holds all the bytes of the stream, and the part has their digests. *)
Definition stored (openPart : string -> Z -> outcome part_stream) (ref : string) (p : Part) (e : tar_entry) : Prop :=
  plain e /\ te_Size e = zlen (te_data e) /\ matches true p e /\
  exists st, openPart ref (part_Index p) = Ok st /\ src_data (ps_source st) = te_data e /\ src_err (ps_source st) = None.

Lemma ztake_all {A} (l : list A) n : n = zlen l -> ztake n l = l.
Proof. intros ->. unfold ztake, zlen. rewrite Nat2Z.id. by rewrite firstn_all. Qed.

Lemma writePart_ok openPart ref part st e part' :
  openPart ref (part_Index part) = Ok st -> writePart part st = Ok (e, part') ->
  stored openPart ref part' e /\ part_Index part' = part_Index part.
Proof.
  intros Hst. unfold writePart. intros (e0 & [Hsz ->]%write_entry_ok & Hw)%obind_ok.
  destruct (Z.ltb_spec (zlen (src_data (ps_source st))) (part_Size part)); [done|].
  destruct (Z.ltb_spec (part_Size part) (zlen (src_data (ps_source st)))); [done|]. cbn [orb] in Hw.
  case_bool_decide as Herr; [done|]. destruct (_ && _); [done|]. destruct (_ && _); [done|]. injection Hw as <- <-.
  assert (ztake (part_Size part) (src_data (ps_source st)) = src_data (ps_source st)) as E by (apply ztake_all; lia).
  split; [|done]. rewrite E. split; [done|]. cbn. split; [lia|]. split.
  - split; [done|]. split; [done|]. intros _. cbn. unfold contents. cbn. by rewrite E.
  - exists st. split; [done|]. split; [done|]. by apply eq_None_not_Some.
Qed.

Lemma write_parts_ok openPart ref parts es parts' :
  write_parts openPart ref parts = Ok (es, parts') -> Forall2 (stored openPart ref) parts' es.
Proof.
  revert es parts'. induction parts as [|p parts IH]; intros es parts'; cbn [write_parts]; [intros [= <- <-]; constructor|].
  intros (st & Hst & Hw)%obind_ok. apply obind_ok in Hw as ([e p'] & Hp & Hw). apply then_ok in Hw as [_ Hw].
  apply obind_ok in Hw as ([es1 ps1] & Hrest & [= <- <-]). constructor; [|by apply IH].
  by eapply writePart_ok in Hp as [? _].
Qed.

Lemma writeArchiveFile_ok openPart f es f' :
  writeArchiveFile openPart f = Ok (es, f') ->
  file_Ref f' = file_Ref f /\ Forall2 (stored openPart (file_Ref f')) (file_Parts f') es.
Proof.
  unfold writeArchiveFile. intros ([es1 ps1] & Hw & Hf)%obind_ok. apply write_parts_ok in Hw. cbn in Hf.
  destruct (negb _); [injection Hf as <- <-; done|]. destruct (_ && _); [done|]. injection Hf as <- <-. done.
Qed.

(** Every part of a file, with the file it belongs to. *)
Definition parts_with_ref (files : list File) : list (string * Part) :=
  files ≫= fun f => (fun p => (file_Ref f, p)) <$> file_Parts f.
Definition stored_as (openPart : string -> Z -> outcome part_stream) (rp : string * Part) (e : tar_entry) : Prop :=
  stored openPart rp.1 rp.2 e.

Lemma writeArchiveParts_ok openPart files es files' :
  writeArchiveParts openPart files = Ok (es, files') -> Forall2 (stored_as openPart) (parts_with_ref files') es.
Proof.
  revert es files'. induction files as [|f files IH]; intros es files'; cbn [writeArchiveParts]; [intros [= <- <-]; constructor|].
  intros ([es1 f'] & [_ Hf]%writeArchiveFile_ok & Hw)%obind_ok. apply obind_ok in Hw as ([es2 fs] & Hrest & [= <- <-]).
  cbn. apply Forall2_app; [by apply Forall2_fmap_l|by apply IH].
Qed.

Lemma parts_with_ref_snd files : snd <$> parts_with_ref files = parts_of files.
Proof.
  unfold parts_with_ref, parts_of. induction files as [|f files IH]; [done|]. cbn. rewrite fmap_app. f_equal; [|exact IH].
  rewrite <- list_fmap_compose. apply list_fmap_id.
Qed.

Lemma Build_ok m limits openPart entries m' :
  Build m limits openPart = Ok (entries, m') ->
  exists header parts last, entries = header :: parts ++ [last] /\
    writeTarBytes FormatEntry (marshal_format {| fh_Format := FormatName; fh_Version := FormatVersion |}) = Ok header /\
    Forall2 (stored_as openPart) (parts_with_ref (mf_Files m')) parts /\
    writeTarBytes ManifestEntry (marshal_manifest m') = Ok last /\
    zlen (marshal_manifest m') <= lim_MaxManifestBytes limits /\
    manifest_ok limits (so_MaxPartSize (mf_Source m')) m'.
Proof.
  unfold Build. intros [_ (header & Hh & Hb)%obind_ok]%then_ok. apply obind_ok in Hb as ([es files] & Hw & Hb).
  apply then_ok in Hb as [Hv%validateManifest_ok Hb]. cbn [fst snd] in *. destruct (Z.ltb_spec (lim_MaxManifestBytes limits)
    (zlen (marshal_manifest (with_files m files)))); [done|].
  apply obind_ok in Hb as (last & Hl & [= <- <-]). exists header, es, last. split_and!; try done.
  by eapply writeArchiveParts_ok in Hw.
Qed.

(** Below 10^8 parts, what is stored for a manifest can be read as parts. *)
Lemma stored_entries openPart limits target m parts :
  manifest_ok limits target m -> lim_MaxPartCount limits <= 10 ^ 8 ->
  Forall2 (stored_as openPart) (parts_with_ref (mf_Files m)) parts ->
  Forall entry_ok parts /\ canonical "" (te_Name <$> parts) /\ Forall2 (matches true) (parts_of (mf_Files m)) parts.
Proof.
  intros Hm Hlim Hst. destruct (mk_files _ _ _ Hm) as [Hcan Hf _ Hw].
  assert (Forall2 (matches true) (parts_of (mf_Files m)) parts) as Hma.
  { rewrite <- parts_with_ref_snd. apply Forall2_fmap_l. eapply Forall2_impl; [exact Hst|]. by intros rp e (_ & _ & ? & _). }
  assert (forall p, p ∈ parts_of (mf_Files m) -> is_Some (partEntryPattern (part_Entry p))) as Hpat.
  { intros p Hp. pose proof Hp as Hin. apply list_elem_of_bind in Hp as (f & Hp & Hff).
    assert (file_ok (part_limit m target) f) as Hfo by (by eapply Forall_forall in Hf).
    apply list_elem_of_lookup in Hp as [i Hi]. destruct (file_part_at _ _ _ _ Hfo Hi) as (_ & _ & E & _). cbn in E.
    rewrite E, part_entry_pattern; [by eexists|apply Hfo|]. split; [lia|].
    apply lookup_lt_Some in Hi. destruct Hw as [E'|(Hc & _)]; [rewrite E' in Hin; by apply elem_of_nil in Hin|].
    enough (length (file_Parts f) <= length (parts_of (mf_Files m)))%nat by (unfold zlen in Hc; lia).
    apply list_elem_of_split in Hff as (l1 & l2 & ->). unfold parts_of. rewrite bind_app. cbn. rewrite !length_app. lia. }
  assert (te_Name <$> parts = part_Entry <$> parts_of (mf_Files m)) as En.
  { clear -Hma. induction Hma as [|p e ps es (E & _) _ IH]; [done|]. cbn. by rewrite E, IH. }
  split_and!; [|rewrite En|done].
  - apply Forall_lookup. intros i e Hi. pose proof Hst as Hst'. eapply Forall2_lookup_r in Hst' as (rp & _ & Hpl & Hsz & Hme & _); [|exact Hi].
    eapply Forall2_lookup_r in Hma as (p & Hp & E & _); [|exact Hi]. split; [done| |].
    + rewrite E. apply Hpat. by eapply list_elem_of_lookup_2.
    + pose proof (zlen_nonneg (te_data e)). lia.
  - constructor; [by apply StronglySorted_Sorted; eapply part_names_sorted|].
    destruct (parts_of (mf_Files m)) as [|p ps]; [by constructor|]. cbn. constructor.
    destruct (Hpat p) as [[r i] (_ & _ & ->)%pattern_inv]; [left|]. done.
Qed.

Lemma reading_observed v h s parts ps :
  reading v h s parts -> Forall2 (matches true) ps parts -> Forall (observed_as v (observed s)) ps.
Proof.
  intros Hr Hm. apply Forall_lookup. intros i p Hi. eapply Forall2_lookup_l in Hm as (e & He & En & Es & Hd); [|exact Hi].
  exists (observation v e). split.
  - apply (reading_lookup _ _ _ _ _ _ Hr). exists e. split; [by eapply list_elem_of_lookup_2|done].
  - unfold observation. destruct v; cbn; [|done]. by auto.
Qed.

(** A file on disk that holds these entries. *)
Definition holds (limits : Limits) (entries : list tar_entry) (file : archive_file) : Prop :=
  af_stream file = Some {| ts_entries := entries; ts_corrupt := false |} /\ af_trailing file = Some 0 /\
  af_more file = false /\ 1 <= zlen (af_bytes file) <= lim_MaxArchiveBytes limits /\
  sumZ (te_Size <$> entries) <= lim_MaxExpandedBytes limits.
(** A value that survives [json.Marshal] and the strict decoder. *)
Definition reads_back {T} (decode : list Z -> option T) (raw : list Z) (v : T) : Prop :=
  decodeStrictJSON decode raw = Ok v /\ 1 <= zlen raw.

Lemma readFile_reads limits target file v m obs dig stream :
  af_stream file = Some stream -> af_trailing file = Some 0 -> af_more file = false ->
  1 <= zlen (af_bytes file) <= lim_MaxArchiveBytes limits -> 0 <= lim_MaxExpandedBytes limits ->
  readTar stream limits v = Ok (m, obs, dig) -> ValidateManifest m limits target = Ok tt ->
  compareObservedParts m obs v = Ok tt -> (v = true -> validateContentMetadata m dig = Ok tt) ->
  readFile file limits target v = Ok (m, {| rep_ArtifactSHA256 := sha256_hex (af_bytes file);
    rep_ArtifactBytes := zlen (af_bytes file); rep_Summary := mf_Limits m |}).
Proof.
  intros Es Et Em Hb Hx Ht Hv Hc Hcon. unfold readFile, readArchiveStream. rewrite Es.
  destruct (Z.ltb_spec (zlen (af_bytes file)) 1); [lia|]. cbn [orb].
  destruct (Z.ltb_spec (lim_MaxArchiveBytes limits) (zlen (af_bytes file))); [lia|]. rewrite Ht. cbn [mbind outcome_bind].
  rewrite Et, Em. destruct (Z.ltb_spec (lim_MaxExpandedBytes limits) 0); [lia|]. cbn [mbind outcome_bind].
  rewrite Hv. cbn [mbind outcome_bind]. rewrite Hc. cbn [mbind outcome_bind]. destruct v; [|done]. by rewrite Hcon.
Qed.

(** C26: What [Build] writes is read back. The entries are the header, the bytes of every
    part exactly as [openPart] delivered them, in the order of the manifest, and the
    manifest with their digests; [InspectFile] takes the file and returns that manifest; all
    sizes and digests agree; and [VerifyFile] takes it too when the checksums that the
    metadata declares are right. *)
Theorem built_archive_reads_back m limits openPart entries m' file :
  Build m limits openPart = Ok (entries, m') -> holds limits entries file -> lim_MaxPartCount limits <= 10 ^ 8 ->
  reads_back json_format (marshal_format {| fh_Format := FormatName; fh_Version := FormatVersion |})
    {| fh_Format := FormatName; fh_Version := FormatVersion |} ->
  zlen (marshal_format {| fh_Format := FormatName; fh_Version := FormatVersion |}) <= 1024 ->
  reads_back json_manifest (marshal_manifest m') m' ->
  exists header parts last rep obs dig, entries = header :: parts ++ [last] /\
    Forall2 (stored_as openPart) (parts_with_ref (mf_Files m')) parts /\
    InspectFile file limits (so_MaxPartSize (mf_Source m')) = Ok (m', rep) /\
    readTar {| ts_entries := entries; ts_corrupt := false |} limits true = Ok (m', obs, dig) /\
    compareObservedParts m' obs true = Ok tt /\
    (validateContentMetadata m' dig = Ok tt ->
     VerifyFile file file limits (so_MaxPartSize (mf_Source m')) = Ok (m', rep)).
Proof.
  intros (header & parts & last & -> & Hh & Hst & Hl & Hmax & Hm)%Build_ok (Es & Et & Em & Hb & Hx) Hlim [Hjf Hfl] Hf1024 [Hjm Hml].
  unfold writeTarBytes in Hh, Hl. apply write_entry_ok in Hh as [_ ->], Hl as [_ ->].
  destruct (stored_entries _ _ _ _ _ Hm Hlim Hst) as (Hpok & Hcan & Hma).
  set (header := {| te_Name := FormatEntry |}) in *. set (last := {| te_Name := ManifestEntry |}) in *.
  rewrite fmap_cons, fmap_app in Hx. change (sumZ (?a :: ?l)) with (a + sumZ l) in Hx. rewrite sumZ_app in Hx.
  assert (sumZ (te_Size <$> [last]) = te_Size last) as El by (cbn; lia). rewrite El in Hx. clear El.
  assert (header_ok header) as Hhok.
  { split; [done|]. split; [split; [done|cbn; lia]|]. unfold contents. cbn. by rewrite ztake_all. }
  assert (entry_fits (lim_MaxManifestBytes limits) last) as Hlok by (split; [done|cbn; lia]).
  assert (decodeStrictJSON json_manifest (contents last) = Ok m') as Hld by (unfold contents; cbn; by rewrite ztake_all).
  assert (length (parts_of (mf_Files m')) = length parts) as Hlen by (by eapply Forall2_length).
  assert (parts = [] \/ zlen parts <= lim_MaxPartCount limits) as Hcount.
  { destruct (mk_files _ _ _ Hm) as [_ _ _ [E|(Hc & _)]]; unfold zlen in *; [left|right; lia].
    rewrite E in Hlen. by destruct parts. }
  assert (0 <= lim_MaxExpandedBytes limits) as Hx0.
  { assert (0 <= sumZ (te_Size <$> parts)); [|cbn in *; lia]. apply sumZ_nonneg, Forall_fmap.
    eapply Forall_impl; [exact Hpok|]. intros x [_ _ ?]. cbn. lia. }
  assert (forall v, exists s, readTar {| ts_entries := header :: parts ++ [last]; ts_corrupt := false |} limits v =
      Ok (m', observed s, contentDigest (finishFileDigest s)) /\ compareObservedParts m' (observed s) v = Ok tt) as Hread.
  { intros v. destruct (readTar_reads limits v header parts last m') as (s & Ht & Hr); try done; [lia|].
    exists s. split; [done|]. apply compareObserved_ok. rewrite (reading_size _ _ _ _ Hr). split; [|done].
    by eapply reading_observed. }
  destruct (Hread false) as (s0 & Ht0 & Hc0), (Hread true) as (s1 & Ht1 & Hc1).
  apply validateManifest_ok in Hm. do 6 eexists. split; [reflexivity|]. split; [exact Hst|].
  assert (InspectFile file limits (so_MaxPartSize (mf_Source m')) = Ok (m', _)) as Hins
    by (by eapply readFile_reads; [exact Es| |..|exact Ht0| | |]).
  split; [exact Hins|]. split; [exact Ht1|]. split; [exact Hc1|]. intros Hcon. unfold VerifyFile.
  unfold InspectFile in Hins. rewrite Hins. cbn [mbind outcome_bind].
  erewrite readFile_reads; try done. cbn. by rewrite Z.eqb_refl, String.eqb_refl.
Qed.
End Theorems.

(** ** An example *)

(** The backup of bucket [bkt] with an object of three bytes, stored as a file and as a
    composite file over it. The digests are those of
    [demo_codec] and [demo_sha]; the text of the manifest is abridged. *)
Module Demo.

Definition demo_md5 : string := "0cc175b9c0f1b6a831c399e269772661".
#[local] Instance demo_codec : FileCodec :=
  {| md5_hex _ := demo_md5; marshal_ext s := s; unmarshal_ext s := Some s;
     unmarshal_marshal_ext s := eq_refl |}.
#[local] Instance demo_sha : Sha := {| sha1 _ := replicate 20 0; sha256 _ := replicate 32 0 |}.

Definition demo_part (md5 sha : string) : Part :=
  {| part_Index := 0; part_Size := 3; part_MD5 := md5; part_SHA256 := sha; part_Entry := "parts/f00000001/00000000.bin" |}.
Definition demo_file (md5 sha : string) : File :=
  {| file_Ref := "f00000001"; file_SourceFileID := "7"; file_LayoutVersion := 1; file_Size := 3;
     file_CompatibilityMD5 := md5; file_Ctime := 1; file_Mtime := 1; file_Parts := [demo_part md5 sha];
     file_Segments := []; file_CompletedParts := [] |}.
(** A composite file whose only segment is that file. *)
Definition demo_composite (md5 : string) : File :=
  {| file_Ref := "f00000002"; file_SourceFileID := "8"; file_LayoutVersion := 2; file_Size := 3;
     file_CompatibilityMD5 := md5; file_Ctime := 1; file_Mtime := 1; file_Parts := [];
     file_Segments := [{| seg_Index := 0; seg_SourceRef := "f00000001"; seg_Size := 3 |}];
     file_CompletedParts := [{| cpt_PartNumber := 1; cpt_PartSize := 3;
       cpt_ChecksumState := "available"; cpt_ChecksumAlgorithm := Checksum.AlgorithmCRC32; cpt_ChecksumValue := "NSRBwg==";
       cpt_Ctime := 1; cpt_Mtime := 1 |}] |}.
Definition demo_object (path algorithm value kind : string) : S3Object :=
  {| obj_Path := path; obj_ETag := "e"; obj_ChecksumSHA256 := "";
     obj_RequestChecksumAlgorithm := algorithm; obj_RequestChecksumValue := value; obj_ChecksumType := kind;
     obj_ContentType := "text/plain"; obj_CacheControl := ""; obj_ContentDisposition := "";
     obj_ContentEncoding := ""; obj_ContentLanguage := ""; obj_Expires := ""; obj_UserMetadata := "{}";
     obj_Ctime := 1; obj_Mtime := 1 |}.
Definition demo_manifest (object : S3Object) (md5 sha : string) : Manifest :=
  {| mf_Format := FormatName; mf_Version := FormatVersion; mf_CreatedAt := "2026-01-01T00:00:00Z"; mf_Scope := "/bkt";
     mf_Source := {| so_SchemaVersion := 1; so_BlockIOKind := "localfile"; so_MaxPartSize := 1024 |};
     mf_Limits := {| sum_MappingCount := 2; sum_DirectoryCount := 1; sum_FileCount := 2; sum_PartCount := 1;
                     sum_PhysicalBytes := 3 |};
     mf_RequiredBuckets := [{| rb_Name := "bkt"; rb_ACL := "private" |}]; mf_Files := [demo_file md5 sha; demo_composite demo_md5];
     mf_Directories := [{| dir_Path := "/bkt"; dir_Mode := 493; dir_Ctime := 1; dir_Mtime := 1 |}];
     mf_Mappings := [{| map_Path := "/bkt/a"; map_FileRef := "f00000001"; map_Size := 3; map_Mode := 420;
                        map_Ctime := 1; map_Mtime := 1 |};
                     {| map_Path := "/bkt/b"; map_FileRef := "f00000002"; map_Size := 3; map_Mode := 420;
                        map_Ctime := 1; map_Mtime := 1 |}];
     mf_S3Objects := [object; demo_object "/bkt/b" Checksum.AlgorithmCRC32 "NSRBwg==" Checksum.TypeFullObject]; mf_WebDAVProperties := [] |}.
Definition full_object : S3Object := demo_object "/bkt/a" Checksum.AlgorithmCRC32 "NSRBwg==" Checksum.TypeFullObject.
Definition final_manifest : Manifest :=
  demo_manifest full_object demo_md5 (zero_text 64).

#[local] Instance demo_lib : ArchiveLib :=
  {| parse_RFC3339 _ := true; parse_http_time _ := true;
     json_events _ := [JToken JOpenObject; JToken JCloseObject]; json_string_map _ := Some [];
     json_format _ := Some {| fh_Format := FormatName; fh_Version := FormatVersion |};
     json_manifest _ := Some final_manifest;
     marshal_format _ := string_bytes "{}"; marshal_manifest _ := string_bytes "{}"; xml_events _ := [] |}.
Definition demo_open (ref : string) (index : Z) : outcome part_stream :=
  Ok {| ps_source := {| src_data := [97; 98; 99]; src_err := None |}; ps_close := None |}.

Definition demo_entries : list tar_entry :=
  match Build (demo_manifest full_object "" "") DefaultLimits demo_open with Ok r => r.1 | Err _ => [] end.
Definition demo_archive : archive_file :=
  {| af_bytes := [1]; af_stream := Some {| ts_entries := demo_entries; ts_corrupt := false |};
     af_trailing := Some 0; af_more := false |}.
Definition demo_report : Report :=
  {| rep_ArtifactSHA256 := zero_text 64; rep_ArtifactBytes := 1; rep_Summary := mf_Limits final_manifest |}.

Lemma built_archive_reads_back_witness :
  exists header parts last rep obs dig, demo_entries = header :: parts ++ [last] /\
    Forall2 (stored_as demo_open) (parts_with_ref (mf_Files final_manifest)) parts /\
    InspectFile demo_archive DefaultLimits 1024 = Ok (final_manifest, rep) /\
    readTar {| ts_entries := demo_entries; ts_corrupt := false |} DefaultLimits true = Ok (final_manifest, obs, dig) /\
    compareObservedParts final_manifest obs true = Ok tt /\
    (validateContentMetadata final_manifest dig = Ok tt ->
     VerifyFile demo_archive demo_archive DefaultLimits 1024 = Ok (final_manifest, rep)).
Proof.
  apply (built_archive_reads_back (demo_manifest full_object "" "") DefaultLimits demo_open demo_entries
           final_manifest demo_archive).
  - by vm_compute.
  - split_and!; by vm_compute.
  - by vm_compute.
  - split; by vm_compute.
  - by vm_compute.
  - split; by vm_compute.
Defined.

Lemma verified_archive_sound_witness :
  VerifyFile demo_archive demo_archive DefaultLimits 1024 = Ok (final_manifest, demo_report) /\
  rep_ArtifactSHA256 demo_report = sha256_hex [1].
Proof.
  assert (VerifyFile demo_archive demo_archive DefaultLimits 1024 = Ok (final_manifest, demo_report)) as E by (by vm_compute).
  assert (holds_bytes demo_archive) as Hb.
  { intros stream [= <-]. apply (bool_decide_unpack _). by vm_compute. }
  split; [exact E|].
  destruct (verified_archive_sound demo_archive demo_archive DefaultLimits 1024 final_manifest demo_report E Hb) as (_ & Hsha & _).
  exact Hsha.
Defined.

(** Two parts with SHA-1 checksums give the object of [CompleteMultipartUpload]. *)
Definition composite_object : S3Object :=
  demo_object "/bkt/a" Checksum.AlgorithmSHA1 "AAAAAAAAAAAAAAAAAAAAAAAAAAA=-2" Checksum.TypeComposite.

Lemma composite_checksum_blocks_backup_witness :
  exists e, Build (demo_manifest composite_object "" "") DefaultLimits demo_open = Err e.
Proof.
  apply (composite_checksum_blocks_backup (demo_manifest composite_object "" "") DefaultLimits demo_open composite_object
           Checksum.AlgorithmSHA1 ["AAAAAAAAAAAAAAAAAAAAAAAAAAA="; "AAAAAAAAAAAAAAAAAAAAAAAAAAA="]
           "AAAAAAAAAAAAAAAAAAAAAAAAAAA=").
  - left.
  - by vm_compute.
Defined.
End Demo.
