(* ===== verification/UploadProofs.v ===== *)
(** * Uploading files: proofs

    Drafts, parts and the ready mark keep the file tables well formed; an upload
    that succeeds can be read back, one that fails leaves its blocks queued for
    deletion. *)

From stdpp Require Import base strings list gmap.
From S2P Require Import Prelude Paging GoStr Crc BlockIO FileStream CompositeStream Store.
From S2P Require Import Directory DirFrame DirTheorems References RefInv DeleteWorker Dao.
From S2P Require Import FileManager.
Import References FileManager.

(** ** The statements *)

(** The part and delete rows of one [CreateFilePart]. *)
Definition new_part (req : FilePartDao.CreateFilePartRequest) (t : Z) : part_row :=
  {| p_file_id := FilePartDao.FileId req; p_part_id := FilePartDao.FilePartId req;
     p_key := FilePartDao.ReqFileKey req; p_md5 := FilePartDao.FilePartMd5 req;
     p_size := FilePartDao.FilePartSize req; p_ctime := t; p_mtime := t |}.
Definition new_delete (req : FilePartDao.CreateFilePartRequest) (t : Z) : delete_row :=
  {| d_file_id := FilePartDao.FileId req; d_part_id := FilePartDao.FilePartId req;
     d_backend := FilePartDao.BackendKind req; d_ref := FilePartDao.ReqDeleteRef req;
     d_uploaded_at := FilePartDao.ReqUploadedAt req; d_state := DsLive; d_attempts := 0;
     d_next_at := 0; d_lease := 0; d_last_attempt := 0; d_error := ""; d_deleted_at := 0;
     d_ctime := t; d_mtime := t |}.

Definition new_file (f size parts t n : Z) : file_row :=
  {| f_id := n; f_file_id := f; f_size := size; f_part_count := parts; f_state := FileStateInit;
     f_ctime := t; f_mtime := t; f_extinfo := "{}"; f_layout := 1 |}.

Definition part_taken (d : DB) (f p : Z) : bool :=
  sql_exists (fun r => (p_file_id r =? f) && (p_part_id r =? p)) (t_part d) ||
  sql_exists (fun r => (d_file_id r =? f) && (d_part_id r =? p)) (t_delete d).

Section Statements.
Context `{!Env}.

(** Both rows are written, or none. *)
Lemma CreateFilePart_dao_eq req w :
  let t := clk (ticks w) in
  let w1 := {| db := db w; ticks := S (ticks w); ids := ids w |} in
  if part_taken (db w) (FilePartDao.FileId req) (FilePartDao.FilePartId req) ||
     (FilePartDao.FilePartSize req <? -1)
  then exists e, FilePartDao.CreateFilePart req w = (Err e, w1)
  else FilePartDao.CreateFilePart req w = (Ok tt, with_db w1
    (set_delete (fun l => l ++ [new_delete req t]) (set_part (fun l => l ++ [new_part req t]) (db w)))).
Proof.
  cbv zeta. unfold FilePartDao.CreateFilePart.
  rewrite (bind_ok now _ w (clk (ticks w)) _ eq_refl).
  set (w1 := {| db := db w; ticks := S (ticks w); ids := ids w |}).
  unfold OnTransation. rewrite (bind_ok (query id) _ w1 (db w) w1 eq_refl).
  unfold part_taken. set (e1 := sql_exists _ (t_part (db w))). set (e2 := sql_exists _ (t_delete (db w))).
  clearbody e1 e2. destruct e1; simpl.
  { eexists. reflexivity. }
  destruct (FilePartDao.FilePartSize req <? -1); simpl.
  { rewrite orb_true_r. eexists. reflexivity. }
  rewrite orb_false_r. destruct e2; [eexists; reflexivity|reflexivity].
Qed.

Lemma CreateFileDraft_dao_eq size parts w :
  let f := idfn (ids w) in
  let w1 := {| db := db w; ticks := S (ticks w); ids := S (ids w) |} in
  if (2 ^ 63 <=? f) || sql_exists (fun r => f_file_id r =? f) (t_file (db w))
  then exists e, FileDao.CreateFileDraft size parts w = (Err e, w1)
  else FileDao.CreateFileDraft size parts w =
    (Ok f, with_db w1 (add_file (new_file f size parts (clk (ticks w))) (db w))).
Proof.
  cbv zeta. unfold FileDao.CreateFileDraft.
  set (w0 := {| db := db w; ticks := ticks w; ids := S (ids w) |}).
  rewrite (bind_ok NextId _ w (idfn (ids w)) w0 eq_refl).
  set (w1 := {| db := db w; ticks := S (ticks w); ids := S (ids w) |}).
  rewrite (bind_ok now _ w0 (clk (ticks w)) w1 eq_refl).
  unfold FileDao.insert_file.
  destruct (2 ^ 63 <=? idfn (ids w)) eqn:E1; cbn [orb].
  { eexists. unfold mbind, M_bind, query, reads, id. cbn [f_file_id]. rewrite E1. reflexivity. }
  destruct (sql_exists (fun r => f_file_id r =? idfn (ids w)) (t_file (db w))) eqn:E2.
  { eexists. unfold mbind, M_bind, query, reads, id. cbn [f_file_id]. rewrite E1.
    change (db w1) with (db w). cbn [check mret M_ret]. rewrite E2. reflexivity. }
  unfold mbind, M_bind, query, reads, id. cbn [f_file_id]. rewrite E1.
  change (db w1) with (db w). cbn [check mret M_ret]. rewrite E2. reflexivity.
Qed.

Lemma MarkFileReady_eq f ext w :
  FileDao.MarkFileReady f ext w =
  (Ok tt, with_db {| db := db w; ticks := S (ticks w); ids := ids w |}
     (set_file (sql_update (fun r => f_file_id r =? f) (FileDao.set_ready (clk (ticks w)) ext)) (db w))).
Proof. done. Qed.
End Statements.

(** ** The statements keep the invariant *)

Lemma referenced_same d d' f :
  t_pin d' = t_pin d -> t_mapping d' = t_mapping d -> t_segment d' = t_segment d ->
  t_mpart d' = t_mpart d -> t_upload d' = t_upload d -> referenced d' f <-> referenced d f.
Proof.
  intros E1 E2 E3 E4 E5. unfold iff. split; intros [p Hp E|(r & Hr & E)|s Hs E (r & Hr & Em)|p u Hp E Ha Hu Ei Hact].
  - eapply ref_pin; [|exact E]. by rewrite E1 in Hp.
  - apply ref_mapping. exists r. by rewrite E2 in Hr.
  - eapply ref_composite; [by rewrite E3 in Hs|exact E|]. exists r. by rewrite E2 in Hr.
  - eapply ref_upload; [by rewrite E4 in Hp|done|done|by rewrite E5 in Hu|done|done].
  - eapply ref_pin; [|exact E]. by rewrite E1.
  - apply ref_mapping. exists r. by rewrite E2.
  - eapply ref_composite; [by rewrite E3|exact E|]. exists r. by rewrite E2.
  - eapply ref_upload; [by rewrite E4|done|done|by rewrite E5|done|done].
Qed.

Lemma add_part_inv d (q : delete_row) p :
  file_inv d -> d_state q = DsLive -> p_file_id p = d_file_id q -> p_part_id p = d_part_id q ->
  (forall r, r ∈ t_delete d -> (d_file_id r, d_part_id r) <> (d_file_id q, d_part_id q)) ->
  file_inv (set_delete (fun l => l ++ [q]) (set_part (fun l => l ++ [p]) d)).
Proof.
  intros [[Hids Hrange Hsf Hss Hk Hq Hdp Hu Hmu] Hsafe] Hl Ef Ep Hnew. split.
  - split; try done; simpl.
    + rewrite fmap_app. apply NoDup_app. split; [done|]. split; [|apply NoDup_singleton].
      intros k (r & -> & Hr)%list_elem_of_fmap Hin%list_elem_of_singleton. by apply (Hnew r).
    + intros r [Hr|Hr%list_elem_of_singleton]%elem_of_app Hn; [by apply Hq|congruence].
    + intros r [Hr|Hr%list_elem_of_singleton]%elem_of_app.
      * destruct (Hdp r Hr) as (p' & Hp' & E). exists p'. split; [|done]. apply elem_of_app. by left.
      * subst r. exists p. split; [|done]. apply elem_of_app. right. by left.
  - intros f Hf r. simpl. intros [Hr|Hr%list_elem_of_singleton]%elem_of_app Efr; [|congruence].
    apply (Hsafe f); [|done|done]. revert Hf. by apply referenced_same.
Qed.

Lemma add_row_inv d mk f :
  file_inv d -> (forall n, f_file_id (mk n) = f) -> 0 < f < 2 ^ 63 ->
  (forall r, r ∈ t_file d -> f_file_id r <> f) -> file_inv (add_file mk d).
Proof.
  intros [[Hids Hrange Hsf Hss Hk Hq Hdp Hu Hmu] Hsafe] Hmk Hf Hnew. split.
  - split; simpl; try done.
    + rewrite fmap_app. apply NoDup_app. split; [done|]. split; [|apply NoDup_singleton].
      intros k (r & -> & Hr)%list_elem_of_fmap Hin%list_elem_of_singleton.
      apply (Hnew r Hr). by rewrite Hin, Hmk.
    + intros r [Hr|Hr%list_elem_of_singleton]%elem_of_app; [by apply Hrange|]. by rewrite Hr, Hmk.
    + intros s Hs. destruct (Hsf s Hs) as (r & Hr & E). exists r. split; [|done].
      apply elem_of_app. by left.
    + intros s Hs. destruct (Hss s Hs) as (r & Hr & E). exists r. split; [|done].
      apply elem_of_app. by left.
    + intros q Hqin Hn. destruct (Hq q Hqin Hn) as (r & Hr & E). exists r. split; [|done].
      apply elem_of_app. by left.
  - intros g Hg. apply (Hsafe g). revert Hg. by apply referenced_same.
Qed.

Lemma add_file_inv d f size parts t :
  file_inv d -> 0 < f < 2 ^ 63 -> (forall r, r ∈ t_file d -> f_file_id r <> f) ->
  file_inv (add_file (new_file f size parts t) d).
Proof. intros Hinv. by apply add_row_inv. Qed.

(** A change of the file rows but for ids and layouts. *)
Lemma file_update_inv d p g :
  (forall r, f_file_id (g r) = f_file_id r /\ f_layout (g r) = f_layout r) -> file_inv d ->
  file_inv (set_file (sql_update p g) d).
Proof.
  intros Hg. set (h := fun r => if p r then g r else r).
  assert (forall r, f_file_id (h r) = f_file_id r /\ f_layout (h r) = f_layout r) as Hh.
  { intros r. subst h. cbv beta. by case_match. }
  intros [[Hids Hrange Hsf Hss Hk Hq Hdp Hu Hmu] Hsafe].
  assert (forall id l, (exists r, r ∈ t_file d /\ f_file_id r = id /\ f_layout r = l) ->
    exists r, r ∈ map h (t_file d) /\ f_file_id r = id /\ f_layout r = l) as Hmap.
  { intros id l (r & Hr & Ei & El). exists (h r). destruct (Hh r) as [-> ->].
    split; [by apply list_elem_of_fmap_2|done]. }
  split.
  - split; simpl; try done; unfold sql_update; fold h.
    + change (map h (t_file d)) with (h <$> t_file d). rewrite <- list_fmap_compose.
      erewrite list_fmap_ext; [exact Hids|]. intros i r _. apply Hh.
    + intros r' (r & -> & Hr)%list_elem_of_fmap. destruct (Hh r) as [-> _]. by apply Hrange.
    + intros s Hs. by apply Hmap, Hsf.
    + intros s Hs. by apply Hmap, Hss.
    + intros q Hqin Hn. by apply Hmap, Hq.
  - intros f Hf. apply (Hsafe f). revert Hf. by apply referenced_same.
Qed.
Lemma ready_inv d f t ext :
  file_inv d ->
  file_inv (set_file (sql_update (fun r => f_file_id r =? f) (FileDao.set_ready t ext)) d).
Proof. by apply file_update_inv. Qed.

(** ** Uploads, whatever happens *)

(** A part and its delete state belong together. *)
Definition recorded_as (f : Z) (state : delete_state) (q : delete_row) (p : part_row) : Prop :=
  d_file_id q = f /\ p_file_id p = f /\ d_part_id q = p_part_id p /\ d_state q = state.

(** Parts of [f] were added, each with its live delete state; nothing else changed. *)
Record upload_rel (f : Z) (d d' : DB) : Prop := {
  ur_frame : exists l lp, d' = set_delete (fun _ => t_delete d ++ l) (set_part (fun _ => t_part d ++ lp) d) /\
    Forall2 (recorded_as f DsLive) l lp;
  ur_inv : file_inv d -> file_inv d' }.

Lemma upload_rel_refl f d : upload_rel f d d.
Proof. split; [|done]. exists [], []. rewrite !app_nil_r. by destruct d. Qed.

Lemma upload_rel_trans f d1 d2 d3 : upload_rel f d1 d2 -> upload_rel f d2 d3 -> upload_rel f d1 d3.
Proof.
  intros [(l1 & p1 & E1 & F1) I1] [(l2 & p2 & E2 & F2) I2]. split; [|auto]. exists (l1 ++ l2), (p1 ++ p2).
  rewrite E2, E1. cbn. rewrite <- !app_assoc. split; [done|by apply Forall2_app].
Qed.

Section Uploads.
Context `{!Env}.

Lemma upload_rel_part req w :
  upload_rel (FilePartDao.FileId req) (db w) (db (FilePartDao.CreateFilePart req w).2).
Proof.
  pose proof (CreateFilePart_dao_eq req w) as E. cbv zeta in E. destruct (_ || _) eqn:Et.
  { destruct E as [e ->]. apply upload_rel_refl. }
  rewrite E. apply orb_false_iff in Et as [Et _]. apply orb_false_iff in Et as [_ Hnew].
  split; cbn.
  - eexists _, _. split; [reflexivity|]. by repeat constructor.
  - intros Hinv. apply add_part_inv; [done..|]. intros r Hr Ek.
    rewrite sql_exists_false in Hnew. specialize (Hnew r Hr). injection Ek as E1 E2.
    apply andb_false_iff in Hnew as [Hn|Hn]; apply Z.eqb_neq in Hn; done.
Qed.

Context {B : Type} `{!IBlockIO B} `{!FileCodec}.

Lemma CreateFilePart_rel f p src (s : World * B) :
  upload_rel f (db s.1) (db (CreateFilePart f p src s).2.1).
Proof.
  unfold CreateFilePart. destruct (_ || _).
  { rewrite (bind_err (check true _) _ s _ s eq_refl). apply upload_rel_refl. }
  rewrite (bind_ok (check false _) _ s tt s eq_refl).
  unfold upload. destruct s as [w b]. cbn [fst snd].
  destruct (Upload src b) as [[[res|e] n] b'] eqn:Eu.
  2: { rewrite (bind_err _ _ (w, b) e (w, b')) by (cbn; by rewrite Eu). apply upload_rel_refl. }
  rewrite (bind_ok _ _ (w, b) (res, n) (w, b')) by (cbn; by rewrite Eu).
  destruct (_ || _).
  { rewrite (bind_err (check true _) _ (w, b') _ (w, b') eq_refl). apply upload_rel_refl. }
  rewrite (bind_ok (check false _) _ (w, b') tt (w, b') eq_refl).
  rewrite (bind_ok (reads _) _ (w, b') (bio_name b') (w, b') eq_refl).
  match goal with |- context [FilePartDao.CreateFilePart ?r] => set (req := r) end.
  pose proof (upload_rel_part req w) as Hrel.
  destruct (FilePartDao.CreateFilePart req w) as [o w1] eqn:Ec.
  rewrite (bind_ok _ _ (w, b') o (w1, b')).
  2: { unfold attempt, on_db. cbn. by rewrite Ec. }
  destruct o as [u|e]; [exact Hrel|].
  unfold attempt, on_store, mbind, M_bind. cbn. destruct (DeleteBlocks _ b'). exact Hrel.
Qed.

Lemma create_parts_rel n f blk size p up src (s : World * B) :
  upload_rel f (db s.1) (db (create_parts n f blk size p up src s).2.1).
Proof.
  revert p up src s. induction n as [|n IH]; intros p up src s; [apply upload_rel_refl|].
  cbn [create_parts]. cbv zeta.
  pose proof (CreateFilePart_rel f p (limit_source src (Z.min blk (size - up))) s) as H1.
  unfold mbind at 1, M_bind at 1. destruct (CreateFilePart _ _ _ s) as [[count|e] s1]; [|exact H1].
  cbn [snd] in H1. unfold check. destruct (negb _); [exact H1|].
  eapply upload_rel_trans; [exact H1|]. apply IH.
Qed.

(** The steps of an upload keep the invariant of the file tables. *)
Lemma CreateFileDraft_inv size parts w :
  0 < idfn (ids w) -> file_inv (db w) -> file_inv (db (FileDao.CreateFileDraft size parts w).2).
Proof.
  intros Hpos Hinv. pose proof (CreateFileDraft_dao_eq size parts w) as E. cbv zeta in E.
  destruct (_ || _) eqn:Et; [by destruct E as [e ->]|]. rewrite E.
  apply orb_false_iff in Et as [Hr Hn]. apply add_file_inv; [done|lia|].
  intros r Hin Ef. rewrite sql_exists_false in Hn. specialize (Hn r Hin). by apply Z.eqb_neq in Hn.
Qed.

Lemma CreateFileDraft_cases size w (b : B) :
  let f := idfn (ids w) in
  (exists e w1, CreateFileDraft size (w, b) = (Err e, (w1, b)) /\ db w1 = db w) \/
  (exists w1 cnt, CreateFileDraft size (w, b) = (Ok (f, MaxFileSize b), (w1, b)) /\
     calculateFileBlockCount size (MaxFileSize b) = Ok cnt /\ f < 2 ^ 63 /\
     (forall r, r ∈ t_file (db w) -> f_file_id r <> f) /\
     w1 = with_db {| db := db w; ticks := S (ticks w); ids := S (ids w) |}
            (add_file (new_file f size cnt (clk (ticks w))) (db w))).
Proof.
  cbv zeta. unfold CreateFileDraft. rewrite (bind_ok (reads _) _ (w, b) (MaxFileSize b) (w, b) eq_refl).
  destruct (calculateFileBlockCount size (MaxFileSize b)) as [cnt|e] eqn:Ec.
  2: { left. exists e, w. by rewrite (bind_err (lift (Err e)) _ (w, b) e (w, b) eq_refl). }
  rewrite (bind_ok (lift (Ok cnt)) _ (w, b) cnt (w, b) eq_refl).
  pose proof (CreateFileDraft_dao_eq size cnt w) as E. cbv zeta in E.
  destruct (_ || _) eqn:Et.
  - destruct E as [e E]. left. exists e, {| db := db w; ticks := S (ticks w); ids := S (ids w) |}. split; [|done].
    rewrite (bind_err _ _ _ _ _ (eq_trans (on_db_eq _ w b) (f_equal (fun x => (x.1, (x.2, b))) E))).
    reflexivity.
  - right. eexists _, cnt. split.
    { rewrite (bind_ok _ _ _ _ _ (eq_trans (on_db_eq _ w b) (f_equal (fun x => (x.1, (x.2, b))) E))).
      reflexivity. }
    apply orb_false_iff in Et as [Hr Hn]. split; [done|]. split; [lia|]. split; [|done].
    intros r Hin Ef. rewrite sql_exists_false in Hn. specialize (Hn r Hin). by apply Z.eqb_neq in Hn.
Qed.

Lemma createFile_fails size src w (b : B) fid e s' :
  createFile size src (w, b) = (Ok (fid, Some e), s') ->
  (fid = 0 /\ db s'.1 = db w) \/
  (fid = idfn (ids w) /\ fid < 2 ^ 63 /\ (forall r, r ∈ t_file (db w) -> f_file_id r <> fid) /\
   exists cnt t, upload_rel fid (add_file (new_file fid size cnt t) (db w)) (db s'.1)).
Proof.
  unfold createFile. destruct (CreateFileDraft_cases size w b)
    as [(e0 & w1 & Ed & Edb)|(w1 & cnt & Ed & Hcnt & Hr & Hn & Ew)].
  { rewrite (bind_ok _ _ (w, b) (Err e0) (w1, b)) by (unfold attempt; by rewrite Ed).
    intros [= <- <- <-]. by left. }
  rewrite (bind_ok _ _ (w, b) (Ok (idfn (ids w), MaxFileSize b)) (w1, b))
    by (unfold attempt; by rewrite Ed).
  rewrite Hcnt. intros Hrun. right. run_inv Hrun. injection Hrun as <- Ee <-.
  unfold attempt in Hrun0. injection Hrun0 as <- <-.
  split; [done|]. split; [done|]. split; [done|]. exists cnt, (clk (ticks w)).
  rewrite (bind_ok (lift (Ok cnt)) _ (w1, b) cnt (w1, b) eq_refl) in *.
  pose proof (create_parts_rel (Z.to_nat cnt) (idfn (ids w)) (MaxFileSize b) size 0 0 src (w1, b)) as Hrel.
  rewrite Ew in Hrel at 1. cbn [fst db with_db] in Hrel.
  destruct (create_parts _ _ _ _ _ _ _ (w1, b)) as [[u|e1] s1] eqn:Ep.
  - exfalso. rewrite (bind_ok _ _ _ _ _ Ep) in Ee. destruct s1 as [w2 b2].
    unfold FinishFileCreate, FilePartDao.ListFilePart, on_db, mbind, M_bind in Ee. simpl in Ee. done.
  - rewrite (bind_err _ _ _ _ _ Ep). exact Hrel.
Qed.

Lemma Discard_queues f w r :
  wf_files (db w) -> r ∈ t_file (db w) -> f_file_id r = f -> f_layout r = 1 ->
  ~ referenced (db w) f ->
  DiscardUnpublishedFile f w =
  (Ok tt, with_db {| db := db w; ticks := S (ticks w); ids := ids w |}
     (set_delete (sql_update (fun q => (d_file_id q =? f) && bool_decide (d_state q = DsLive))
        (set_pending (clk (ticks w)))) (db w))).
Proof.
  intros Hwf Hr Hf Hl Hn. unfold DiscardUnpublishedFile.
  rewrite (bind_ok now _ w (clk (ticks w)) _ eq_refl). unfold OnTransation.
  set (w1 := {| db := db w; ticks := S (ticks w); ids := ids w |}).
  rewrite (mark_eq f (clk (ticks w)) w1 r Hwf Hr Hf (or_introl Hl)).
  assert (has_ref (db w) f = false) as Eref.
  { apply not_true_iff_false. by rewrite has_ref_spec. }
  do 2 f_equal. apply set_delete_ext. intros q _. change (db w1) with (db w). rewrite Eref.
  assert (leaves (db w) f = [f]) as ->.
  { unfold leaves. rewrite (proj2 (file_rows_head _ Hwf f r)) by done. by rewrite Hl. }
  unfold to_queue. destruct (Z.eqb_spec (d_file_id q) f) as [E|E].
  - rewrite (bool_decide_eq_true_2 (d_file_id q ∈ [f])) by (by apply list_elem_of_singleton).
    by rewrite E, Eref.
  - by rewrite (bool_decide_eq_false_2 (d_file_id q ∈ [f])) by (by rewrite list_elem_of_singleton).
Qed.
End Uploads.

(** C21: An upload that fails, whether the backend refuses a block, the source ends early or
    the database rejects a row, leaves no live block behind: what it added to the database
    is at most the row of its draft, and a row of a part together with a delete state for
    each block it recorded, and all these delete states are pending, so the delete worker
    will remove what was uploaded; nothing else in the database has changed. *)
Theorem failed_upload_is_queued `{!Env} {B} `{!IBlockIO B} `{!FileCodec} size src w (b : B) e s' :
  file_inv (db w) -> 0 < idfn (ids w) -> ~ referenced (db w) (idfn (ids w)) ->
  (forall q, q ∈ t_delete (db w) -> d_file_id q <> idfn (ids w)) ->
  CreateFile size src (w, b) = (Err e, s') ->
  file_inv (db s'.1) /\
  (db s'.1 = db w \/
   exists count t l lp, db s'.1 = set_delete (fun _ => t_delete (db w) ++ l) (set_part (fun _ => t_part (db w) ++ lp)
       (add_file (new_file (idfn (ids w)) size count t) (db w))) /\
     Forall2 (recorded_as (idfn (ids w)) DsPending) l lp).
Proof.
  intros Hinv Hpos Hnref Hnew. unfold CreateFile.
  destruct (createFile size src (w, b)) as [[[fid oe]|e0] s1] eqn:Ec.
  2: { exfalso. unfold createFile in Ec. destruct (CreateFileDraft size (w, b)) as [o s0] eqn:Ed.
       rewrite (bind_ok _ _ (w, b) o s0) in Ec by (unfold attempt; by rewrite Ed).
       by destruct o as [[]|]. }
  rewrite (bind_ok _ _ _ _ _ Ec). destruct oe as [e1|]; [|done].
  apply createFile_fails in Ec as [[-> Edb]|(-> & Hr & Hn & cnt & t & Hrel)].
  { cbn [Z.eqb]. intros [= _ <-]. rewrite Edb. split; [done|by left]. }
  rewrite (proj2 (Z.eqb_neq _ _)) by lia. destruct s1 as [w1 b1]. cbn [fst] in Hrel.
  set (f := idfn (ids w)) in *. destruct Hrel as [(l & lp & Edb & Hl) Hkeep].
  specialize (Hkeep (add_file_inv _ f size cnt t Hinv (conj Hpos Hr) Hn)).
  assert (~ referenced (db w1) f) as Hnref1.
  { intros Hx. apply Hnref. revert Hx. rewrite Edb. by apply referenced_same. }
  pose proof (Discard_queues f w1 (new_file f size cnt t (seq_file (db w) + 1)) (inv_wf _ Hkeep)
    ltac:(rewrite Edb; apply elem_of_app; right; by left) eq_refl eq_refl Hnref1) as Ed.
  set (w2 := with_db _ _) in Ed.
  rewrite (bind_ok (attempt (on_db (DiscardUnpublishedFile f))) _ (w1, b1) (Ok tt) (w2, b1))
    by (unfold attempt; by rewrite on_db_eq, Ed).
  intros [= _ <-]. cbn [fst db with_db]. split.
  - pose proof (DiscardUnpublishedFile_delete f w1 Hkeep) as Hd.
    rewrite Ed in Hd. by eapply delete_rel_inv.
  - right. exists cnt, t, (sql_update (fun q => (d_file_id q =? f) && bool_decide (d_state q = DsLive))
      (set_pending (clk (ticks w1))) l), lp. split.
    + assert (sql_update (fun q => (d_file_id q =? f) && bool_decide (d_state q = DsLive)) (set_pending (clk (ticks w1)))
        (t_delete (db w)) = t_delete (db w)) as Hold.
      { apply sql_update_none. intros q Hq. rewrite (proj2 (Z.eqb_neq _ _)); [done|]. by apply Hnew. }
      subst w2. cbn [db with_db]. rewrite Edb. unfold sql_update, set_delete at 1. cbn. rewrite map_app.
      unfold sql_update in Hold. rewrite Hold. reflexivity.
    + apply Forall2_fmap_l. eapply Forall2_impl; [exact Hl|]. intros q p (Hq1 & Hq2 & Hq3 & Hq4).
      unfold compose, recorded_as. rewrite Hq1, Z.eqb_refl, Hq4. done.
Qed.

(** ** Uploads that succeed *)

(** A backend that takes every block it is given and names it properly. *)
Class ReliableStore (B : Type) `{!IBlockIO B} `{!BlockStore B} : Prop :=
  rs_upload : forall src (b : B),
    bs_inv b -> Forall is_byte (src_data src) -> src_err src = None ->
    exists res n b', Upload src b = (Ok res, n, b') /\
      FileKey res <> "" /\ DeleteRef res <> "" /\ 0 < UploadedAt res.

(** The lookup of a part's key in the part table. *)
Definition part_key (t : list part_row) (f j : Z) : outcome string :=
  match head (sql_select (fun r => (p_file_id r =? f) && bool_decide (p_part_id r ∈ [j])) t) with
  | None => Err ErrFilePartNotFound
  | Some p => Ok (p_key p)
  end.

Lemma part_key_old t p f j key : part_key t f j = Ok key -> part_key (t ++ [p]) f j = Ok key.
Proof.
  unfold part_key, sql_select. rewrite List.filter_app.
  by destruct (List.filter _ t).
Qed.

Lemma part_key_new t p :
  (forall r, r ∈ t -> p_file_id r = p_file_id p -> p_part_id r <> p_part_id p) ->
  part_key (t ++ [p]) (p_file_id p) (p_part_id p) = Ok (p_key p).
Proof.
  intros Hn. unfold part_key, sql_select. rewrite List.filter_app.
  rewrite filter_none.
  - simpl. rewrite Z.eqb_refl. by rewrite bool_decide_eq_true_2 by (by left).
  - intros r Hr. destruct (Z.eqb_spec (p_file_id r) (p_file_id p)); [|done].
    apply bool_decide_eq_false_2. rewrite list_elem_of_singleton. by apply Hn.
Qed.

Section Success.
Context `{!Env} {B : Type} `{!IBlockIO B} `{!BlockStore B} `{!ReliableStore B} `{!FileCodec}.

Lemma block_key_eq w f j : block_key w f j = part_key (t_part (db w)) f j.
Proof.
  unfold block_key, internalGetFilePartInfo, FilePartDao.GetFilePartInfo, part_key, query, reads,
    mbind, M_bind. simpl. by destruct (head _).
Qed.

Lemma CreateFilePart_ok f p src w (b : B) :
  0 <= p <= FileStream.maxFilePartCount -> bs_inv b -> Forall is_byte (src_data src) ->
  src_err src = None ->
  (forall r, r ∈ t_part (db w) -> p_file_id r = f -> p_part_id r <> p) ->
  (forall q, q ∈ t_delete (db w) -> d_file_id q = f -> d_part_id q <> p) ->
  exists w' b' key, CreateFilePart f p src (w, b) = (Ok (zlen (src_data src)), (w', b')) /\
    bs_inv b' /\ MaxFileSize b' = MaxFileSize b /\
    (forall k, is_Some (bs_block b k) -> bs_block b' k = bs_block b k) /\
    bs_block b' key = Some (src_data src) /\
    part_key (t_part (db w')) f p = Ok key /\
    (forall g j k, part_key (t_part (db w)) g j = Ok k -> part_key (t_part (db w')) g j = Ok k) /\
    (forall r, r ∈ t_part (db w') -> r ∈ t_part (db w) \/ p_part_id r = p) /\
    (forall q, q ∈ t_delete (db w') -> q ∈ t_delete (db w) \/ d_part_id q = p) /\
    t_file (db w') = t_file (db w).
Proof.
  intros Hp Hinv Hbytes Herr Hpart Hdel. unfold CreateFilePart.
  rewrite (proj2 (Z.ltb_ge p 0)), (proj2 (Z.ltb_ge FileStream.maxFilePartCount p)) by lia.
  cbn [orb]. rewrite (bind_ok (check false _) _ (w, b) tt (w, b) eq_refl).
  destruct (rs_upload src b Hinv Hbytes Herr) as (res & n & b' & Eu & Hk & Hr & Ht).
  rewrite (bind_ok (upload src) _ (w, b) (res, n) (w, b')) by (unfold upload; cbn; by rewrite Eu).
  pose proof (bs_upload _ _ _ _ _ Hinv Hbytes Eu)
    as (Hinv' & Hmax & _ & _ & -> & _ & _ & Hnone & _ & Hblk).
  rewrite (bool_decide_eq_false_2 (FileKey res = "")), (bool_decide_eq_false_2 (DeleteRef res = ""))
    by done. rewrite (proj2 (Z.leb_gt (UploadedAt res) 0)) by done.
  cbn [orb]. rewrite (bind_ok (check false _) _ (w, b') tt (w, b') eq_refl).
  rewrite (bind_ok (reads _) _ (w, b') (bio_name b') (w, b') eq_refl).
  match goal with |- context [FilePartDao.CreateFilePart ?r] => set (req := r) end.
  pose proof (CreateFilePart_dao_eq req w) as E. cbv zeta in E.
  assert (part_taken (db w) f p || (zlen (src_data src) <? -1) = false) as Et.
  { pose proof (zlen_nonneg (src_data src)). unfold part_taken.
    rewrite (proj2 (Z.ltb_ge _ _)) by lia. rewrite orb_false_r. apply orb_false_iff.
    split; apply sql_exists_false; intros r Hin; apply andb_false_iff.
    - destruct (Z.eqb_spec (p_file_id r) f); [right|by left]. apply Z.eqb_neq. by apply Hpart.
    - destruct (Z.eqb_spec (d_file_id r) f); [right|by left]. apply Z.eqb_neq. by apply Hdel. }
  change (FilePartDao.FileId req) with f in E. change (FilePartDao.FilePartId req) with p in E.
  change (FilePartDao.FilePartSize req) with (zlen (src_data src)) in E. rewrite Et in E.
  set (w' := with_db _ _) in E.
  rewrite (bind_ok _ _ (w, b') (Ok tt) (w', b')) by (unfold attempt; by rewrite on_db_eq, E).
  exists w', b', (FileKey res). split; [done|]. split; [done|]. split; [done|].
  assert (t_part (db w') = t_part (db w) ++ [new_part req (clk (ticks w))]) as Ep by done.
  assert (t_delete (db w') = t_delete (db w) ++ [new_delete req (clk (ticks w))]) as Ed by done.
  split_and!.
  - intros k [d Hd]. rewrite Hblk. case_decide as Ek; [|done]. subst k. congruence.
  - rewrite Hblk. by rewrite decide_True.
  - rewrite Ep. apply (part_key_new _ (new_part req (clk (ticks w)))). intros r Hin Ef. by apply Hpart.
  - intros g j k Hg. rewrite Ep. by apply part_key_old.
  - intros r Hin. rewrite Ep in Hin. apply elem_of_app in Hin as [?|Hin%list_elem_of_singleton]; [by left|].
    right. by subst.
  - intros q Hin. rewrite Ed in Hin. apply elem_of_app in Hin as [?|Hin%list_elem_of_singleton]; [by left|].
    right. by subst.
  - done.
Qed.

(** Block [j] of the content, as the file layout cuts it. *)
Definition block_at (bs : Z) (content : list Z) (j : Z) : list Z := ztake bs (zdrop (j * bs) content).

Lemma block_count size bs cnt :
  0 < bs -> calculateFileBlockCount size bs = Ok cnt ->
  0 <= size /\ 0 <= cnt <= FileStream.maxFilePartCount /\
  (forall j, 0 <= j -> (j < cnt <-> j * bs < size)).
Proof.
  intros Hbs. unfold calculateFileBlockCount.
  destruct (Z.ltb_spec size 0); [done|]. destruct (Z.leb_spec bs 0); [lia|].
  destruct (Z.eqb_spec size 0) as [->|].
  { intros [= <-]. split; [lia|]. split; [done|]. intros j Hj. nia. }
  destruct (Z.ltb_spec FileStream.maxFilePartCount (1 + Z.quot (size - 1) bs)); [done|].
  intros [= <-]. rewrite Z.quot_div_nonneg in * by lia.
  pose proof (Z.div_pos (size - 1) bs ltac:(lia) Hbs). split; [lia|]. split; [lia|].
  intros j Hj. split.
  - intros Hlt. pose proof (Z.mul_div_le (size - 1) bs Hbs).
    assert (j * bs <= ((size - 1) / bs) * bs) by nia. lia.
  - intros Hlt. pose proof (Z.div_le_lower_bound (size - 1) bs j Hbs ltac:(lia)). lia.
Qed.

Lemma ztake_zdrop_ztake bs (data : list Z) size k :
  0 <= k <= size -> 0 <= bs ->
  ztake bs (zdrop k (ztake size data)) = ztake (Z.min bs (size - k)) (zdrop k data).
Proof.
  intros Hk Hbs. unfold ztake, zdrop. rewrite skipn_firstn_comm, take_take. f_equal. lia.
Qed.

Section Loop.
Context (f bs size cnt : Z) (data : list Z).
Hypothesis (Hbs : 0 < bs) (Hcnt : calculateFileBlockCount size bs = Ok cnt)
  (Hsize : size <= zlen data) (Hbytes : Forall is_byte data).

Definition stored_parts (w : World) (b : B) (i : Z) : Prop :=
  forall j, 0 <= j < i -> exists key, part_key (t_part (db w)) f j = Ok key /\
    bs_block b key = Some (block_at bs (ztake size data) j).

Lemma create_parts_ok n i up src w (b : B) :
  0 <= i -> i + Z.of_nat n = cnt -> bs_inv b -> MaxFileSize b = bs ->
  ((0 < n)%nat -> up = i * bs /\ src_data src = zdrop (i * bs) data) ->
  (forall r, r ∈ t_part (db w) -> p_file_id r = f -> p_part_id r < i) ->
  (forall q, q ∈ t_delete (db w) -> d_file_id q = f -> d_part_id q < i) ->
  stored_parts w b i ->
  exists w' b', create_parts n f bs size i up src (w, b) = (Ok tt, (w', b')) /\
    bs_inv b' /\ MaxFileSize b' = bs /\
    (forall k, is_Some (bs_block b k) -> bs_block b' k = bs_block b k) /\
    t_file (db w') = t_file (db w) /\ stored_parts w' b' cnt.
Proof using Hbs Hcnt Hsize Hbytes ReliableStore0.
  revert i up src w b. induction n as [|n IH]; intros i up src w b Hi Hn Hinv Hmax Hsrc Hpart Hdel Hst.
  { exists w, b. replace cnt with i by lia. by split_and!. }
  cbn [create_parts]. cbv zeta. destruct Hsrc as [-> Hdata]; [lia|].
  destruct (block_count size bs cnt Hbs Hcnt) as (Hs0 & Hc & Hblocks).
  assert (i * bs < size) as Hlt by (apply Hblocks; lia).
  set (ps := Z.min bs (size - i * bs)).
  assert (0 < ps) by lia. assert (0 <= i * bs) by nia.
  assert (zlen (src_data src) = zlen data - i * bs) as Hlen.
  { rewrite Hdata, zlen_zdrop by lia. lia. }
  assert (limit_source src ps = {| src_data := ztake ps (src_data src); src_err := None |}) as El.
  { unfold limit_source. by rewrite (proj2 (Z.leb_le _ _)) by lia. }
  rewrite El. set (part := {| src_data := ztake ps (src_data src); src_err := None |}).
  assert (Forall is_byte (src_data part)) as Hpb.
  { subst part. cbn [src_data]. rewrite Hdata. by apply Forall_take, Forall_drop. }
  destruct (CreateFilePart_ok f i part w b) as (w1 & b1 & key & Hrun & Hinv1 & Hmax1 & Hkeep & Hnew &
    Hkey & Hold & Hparts & Hdels & Hfile); [lia|done|done|done| | |].
  { intros r Hr Ef. specialize (Hpart r Hr Ef). lia. }
  { intros q Hq Ef. specialize (Hdel q Hq Ef). lia. }
  rewrite (bind_ok _ _ _ _ _ Hrun).
  assert (zlen (src_data part) = ps) as Hps.
  { subst part. cbn [src_data]. rewrite zlen_ztake by lia. lia. }
  rewrite Hps, Z.eqb_refl. cbn [negb]. rewrite (bind_ok (check false _) _ (w1, b1) tt (w1, b1) eq_refl).
  destruct (IH (i + 1) (i * bs + ps) (drop_source src ps) w1 b1)
    as (w' & b' & Hrun' & Hinv' & Hmax' & Hkeep' & Hfile' & Hst'); [lia|lia|done|congruence| | | | |].
  - intros Hn0. assert ((i + 1) * bs < size) by (apply Hblocks; lia).
    assert (ps = bs) as Eps by lia. split; [lia|]. unfold drop_source. cbn [src_data].
    rewrite Hdata, zdrop_zdrop by lia. f_equal. lia.
  - intros r Hr Ef. destruct (Hparts r Hr) as [Hin|E]; [specialize (Hpart r Hin Ef)|]; lia.
  - intros q Hq Ef. destruct (Hdels q Hq) as [Hin|E]; [specialize (Hdel q Hin Ef)|]; lia.
  - intros j Hj. destruct (decide (j = i)) as [->|].
    + exists key. split; [done|]. rewrite Hnew. subst part. cbn [src_data]. rewrite Hdata.
      unfold block_at. f_equal. symmetry. apply ztake_zdrop_ztake; lia.
    + destruct (Hst j) as (k & Hk & Hb); [lia|]. exists k. split; [by apply Hold|].
      by rewrite Hkeep by (by eexists).
  - exists w', b'. split; [exact Hrun'|]. split; [done|]. split; [done|]. split; [|split; [congruence|done]].
    intros k Hk. rewrite Hkeep'; [by apply Hkeep|]. by rewrite Hkeep.
Qed.
End Loop.

Lemma CreateFile_ok size src w (b : B) :
  bs_inv b -> 0 < MaxFileSize b ->
  0 <= size <= FileStream.maxFilePartCount * MaxFileSize b ->
  size <= zlen (src_data src) -> Forall is_byte (src_data src) ->
  0 < idfn (ids w) < 2 ^ 63 ->
  (forall r, r ∈ t_file (db w) -> f_file_id r <> idfn (ids w)) ->
  (forall r, r ∈ t_part (db w) -> p_file_id r <> idfn (ids w)) ->
  (forall q, q ∈ t_delete (db w) -> d_file_id q <> idfn (ids w)) ->
  exists w' b', CreateFile size src (w, b) = (Ok (idfn (ids w)), (w', b')) /\
    (forall k, is_Some (bs_block b k) -> bs_block b' k = bs_block b k) /\
    FileStream.stored_file b' (block_key w' (idfn (ids w))) (ztake size (src_data src)) /\
    exists r, head (file_rows (db w') (idfn (ids w))) = Some r /\ f_size r = size /\
      f_state r = FileStateReady /\ f_layout r = 1.
Proof using ReliableStore0.
  intros Hinv Hbs Hsz Hdata Hbytes Hid Hfile Hpart Hdel. set (f := idfn (ids w)) in *.
  unfold CreateFile, createFile.
  destruct (CreateFileDraft_cases size w b) as [(e & w1 & Ed & _)|(w1 & cnt & Ed & Hcnt & _ & _ & Ew)].
  { exfalso. revert Ed. unfold CreateFileDraft.
    rewrite (bind_ok (reads _) _ (w, b) (MaxFileSize b) (w, b) eq_refl).
    destruct (calculateFileBlockCount size (MaxFileSize b)) as [cnt|e0] eqn:Ec.
    - rewrite (bind_ok (lift (Ok cnt)) _ (w, b) cnt (w, b) eq_refl).
      pose proof (CreateFileDraft_dao_eq size cnt w) as E. cbv zeta in E.
      rewrite (proj2 (Z.leb_gt (2 ^ 63) (idfn (ids w)))) in E by lia. cbn [orb] in E.
      rewrite (proj2 (sql_exists_false _ _)) in E by (intros r Hr; by apply Z.eqb_neq, Hfile).
      unfold mbind, M_bind. rewrite on_db_eq, E. done.
    - unfold calculateFileBlockCount in Ec. rewrite (proj2 (Z.ltb_ge _ _)) in Ec by lia.
      rewrite (proj2 (Z.leb_gt _ _)) in Ec by lia. destruct (Z.eqb_spec size 0); [done|].
      rewrite Z.quot_div_nonneg in Ec by lia.
      assert ((size - 1) / MaxFileSize b < FileStream.maxFilePartCount)
        by (apply Z.div_lt_upper_bound; lia).
      rewrite (proj2 (Z.ltb_ge _ _)) in Ec by lia. done. }
  destruct (block_count size (MaxFileSize b) cnt Hbs Hcnt) as (_ & Hc & Hblocks).
  assert (t_part (db w1) = t_part (db w) /\ t_delete (db w1) = t_delete (db w)) as [Ep1 Ed1]
    by (by rewrite Ew).
  destruct (create_parts_ok f (MaxFileSize b) size cnt (src_data src) Hbs Hcnt Hdata Hbytes
    (Z.to_nat cnt) 0 0 src w1 b) as (w2 & b2 & Hrun & Hinv2 & Hmax2 & Hkeep & Hfile2 & Hst);
    [lia|lia|done|done| | | | |].
  { intros _. by split. }
  { intros r Hr Ef. rewrite Ep1 in Hr. by destruct (Hpart r Hr). }
  { intros q Hq Ef. rewrite Ed1 in Hq. by destruct (Hdel q Hq). }
  { intros j Hj. lia. }
  set (ext := marshal_ext (file_md5 (order_by FilePartDao.by_part_id
    (sql_select (fun r => p_file_id r =? f) (t_part (db w2)))))).
  set (w3 := with_db {| db := db w2; ticks := S (ticks w2); ids := ids w2 |}
    (set_file (sql_update (fun r => f_file_id r =? f) (FileDao.set_ready (clk (ticks w2)) ext)) (db w2))).
  assert (createFile size src (w, b) = (Ok (f, None), (w3, b2))) as Hcreate.
  { unfold createFile.
    rewrite (bind_ok _ _ (w, b) (Ok (f, MaxFileSize b)) (w1, b)) by (unfold attempt; by rewrite Ed).
    rewrite (bind_ok _ _ (w1, b) (Ok tt) (w3, b2)); [done|]. unfold attempt. rewrite Hcnt.
    rewrite (bind_ok (lift (Ok cnt)) _ (w1, b) cnt (w1, b) eq_refl).
    by rewrite (bind_ok _ _ _ _ _ Hrun). }
  unfold createFile in Hcreate. rewrite (bind_ok _ _ _ _ _ Hcreate).
  exists w3, b2. split; [done|]. split; [done|]. split.
  - split; [done|]. rewrite Hmax2. split; [done|].
    assert (zlen (ztake size (src_data src)) = size) as Hlen by (rewrite zlen_ztake by lia; lia).
    rewrite Hlen. split; [lia|]. intros i Hi Hlt.
    destruct (Hst i) as (key & Hkey & Hb); [split; [done|by apply Hblocks]|].
    exists key. rewrite block_key_eq. done.
  - exists (FileDao.set_ready (clk (ticks w2)) ext (new_file f size cnt (clk (ticks w)) (seq_file (db w) + 1))).
    split; [|done]. unfold file_rows, w3. cbn [db with_db t_file set_file]. rewrite Hfile2, Ew.
    cbn [db with_db t_file add_file]. unfold sql_select, sql_update. rewrite map_app, List.filter_app.
    rewrite filter_none; [cbn; by rewrite !Z.eqb_refl|].
    intros r' (r & -> & Hr)%list_elem_of_fmap. apply Z.eqb_neq. case_match; cbn; by apply Hfile.
Qed.
End Success.

(** The next id is free: no file, part or delete state carries it. *)
Record free_id `{!Env} (w : World) : Prop := {
  fi_range : 0 < idfn (ids w) < 2 ^ 63;
  fi_file : forall r, r ∈ t_file (db w) -> f_file_id r <> idfn (ids w);
  fi_part : forall r, r ∈ t_part (db w) -> p_file_id r <> idfn (ids w);
  fi_delete : forall q, q ∈ t_delete (db w) -> d_file_id q <> idfn (ids w) }.

(** C20: A file uploaded with [CreateFile] through any block store that keeps the
    contract, and accepts its blocks, opens as a physical stream of the declared
    size from which every reader gets exactly the first [size] bytes of the source,
    cut at block boundaries or not; no block that was there before is touched. *)
Theorem upload_then_read `{!Env} {B} `{!IBlockIO B} `{!BlockStore B} `{!ReliableStore B}
    `{!FileCodec} `{!RetryLib} size src w (b : B) :
  bs_inv b -> 0 < MaxFileSize b -> 0 <= size <= FileStream.maxFilePartCount * MaxFileSize b ->
  size <= zlen (src_data src) -> Forall is_byte (src_data src) -> free_id w ->
  exists w' b', CreateFile size src (w, b) = (Ok (idfn (ids w)), (w', b')) /\
    OpenFile (idfn (ids w)) w' = (Ok (Physical (FileStream.newFileStream size)), w') /\
    (forall fuel sizes, (forall i, 0 < sizes i) -> 2 * size < Z.of_nat fuel ->
       FileStream.ReadAll b' (block_key w' (idfn (ids w))) fuel sizes (FileStream.newFileStream size)
       = Ok (ztake size (src_data src))) /\
    (forall k, is_Some (bs_block b k) -> bs_block b' k = bs_block b k).
Proof.
  intros Hinv Hbs Hsz Hdata Hbytes [Hid Hfile Hpart Hdel].
  destruct (CreateFile_ok size src w b Hinv Hbs Hsz Hdata Hbytes Hid Hfile Hpart Hdel)
    as (w' & b' & Hrun & Hkeep & Hst & r & Hr & Hrs & _ & Hl).
  exists w', b'. split; [exact Hrun|]. split; [|split; [|exact Hkeep]].
  - unfold OpenFile, internalGetFileInfo, FileDao.GetFileInfo, query.
    rewrite (bind_ok _ _ w' (Some r) w').
    + by rewrite Hl, Hrs.
    + unfold mbind, M_bind, reads, mret, M_ret. do 2 f_equal. rewrite <- Hr. unfold file_rows, sql_select.
      f_equal. apply filter_ext. intros x. destruct (Z.eqb_spec (f_file_id x) (idfn (ids w))) as [E|E].
      * apply bool_decide_eq_true_2. rewrite E. by left.
      * apply bool_decide_eq_false_2. by rewrite list_elem_of_singleton.
  - intros fuel sizes Hsizes Hfuel.
    assert (zlen (ztake size (src_data src)) = size) as Hlen by (rewrite zlen_ztake by lia; lia).
    pose proof (FileStream.read_stored b' (block_key w' (idfn (ids w))) (ztake size (src_data src))
      sizes fuel Hst Hsizes) as Hread. rewrite Hlen in Hread. by apply Hread.
Qed.

(** ** Runs *)
Section Demo.
#[local] Existing Instance demo_env.
#[local] Instance demo_codec : FileCodec :=
  {| md5_hex _ := "0cc175b9c0f1b6a831c399e269772661"; marshal_ext s := s; unmarshal_ext s := Some s;
     unmarshal_marshal_ext s := eq_refl |}.

#[local] Instance demo_reliable : ReliableStore Mem.memBlockIO.
Proof.
  intros src b _ _ He. eexists _, _, _. unfold Upload, FileStream.demo_blockio, Mem.mem_blockio, Mem.upload.
  rewrite He. split; [reflexivity|]. cbn. split_and!; [by destruct (Mem.calls b)..|lia].
Qed.

Definition empty_store : Mem.memBlockIO := Mem.New 4.
Definition demo_source (n : nat) : BlockIO.source := {| src_data := map Z.of_nat (seq 0 n); src_err := None |}.

Lemma empty_free : @free_id demo_env demo_start.
Proof. split; [done|by intros ? ?%elem_of_nil..]. Qed.

Lemma upload_then_read_witness : exists w' b',
  CreateFile 10 (demo_source 12) (demo_start, empty_store) = (Ok 1, (w', b')) /\
  FileStream.ReadAll b' (block_key w' 1) 30 (fun _ => 3) (FileStream.newFileStream 10)
  = Ok [0; 1; 2; 3; 4; 5; 6; 7; 8; 9].
Proof.
  destruct (@upload_then_read demo_env _ _ _ _ _ _ 10 (demo_source 12) demo_start empty_store)
    as (w' & b' & Hrun & _ & Hread & _).
  - intros k [d Hd]. discriminate Hd.
  - reflexivity.
  - split; [lia|]. vm_compute. discriminate.
  - vm_compute. discriminate.
  - apply (bool_decide_unpack _). vm_compute. exact Logic.I.
  - apply empty_free.
  - exists w', b'. split; [exact Hrun|]. apply (Hread 30%nat (fun _ => 3)); [intros; lia|lia].
Defined.

Lemma failed_upload_is_queued_witness : exists s',
  CreateFile 10 (demo_source 6) (demo_start, empty_store) = (Err ErrFileShortRead, s') /\
  map (fun q => (d_file_id q, d_part_id q, d_state q)) (t_delete (db s'.1))
  = [(1, 0, DsPending); (1, 1, DsPending)] /\ t_mapping (db s'.1) = [].
Proof.
  assert (file_inv (db demo_start)) as Hinv.
  { split; [split; try (by intros ? ?%elem_of_nil); apply NoDup_nil_2|].
    by intros f _ q ?%elem_of_nil. }
  destruct (CreateFile 10 (demo_source 6) (demo_start, empty_store)) as [o s'] eqn:E.
  assert (o = Err ErrFileShortRead) as -> by (vm_compute in E; by injection E).
  destruct (@failed_upload_is_queued demo_env _ _ _ 10 (demo_source 6) demo_start empty_store ErrFileShortRead s' Hinv)
    as [_ Hadded].
  - reflexivity.
  - intros [p Hp%elem_of_nil|(r & Hr%elem_of_nil & _)|s Hs%elem_of_nil|p u Hp%elem_of_nil]; done.
  - by intros ? ?%elem_of_nil.
  - exact E.
  - exists s'. split; [reflexivity|]. destruct Hadded as [Edb|(count & t & l & lp & Edb & _)].
    + exfalso. vm_compute in E. injection E as <-. vm_compute in Edb. discriminate Edb.
    + split; [vm_compute in E; injection E as <-; reflexivity|]. by rewrite Edb.
Defined.
End Demo.
