(* ===== verification/LinkSafety.v ===== *)
(** * Links and blocks: every operation keeps referenced blocks

    The operations on links and S3 objects keep the invariant of RefInv.v: what they
    link has live blocks, and what they queue for deletion nobody references. *)

From stdpp Require Import base strings list.
From S2P Require Import Prelude GoStr Store Directory DirFrame Tree DirWalk DirTheorems.
From S2P Require Import References RefInv Dao Mutation S3Object.
Import References Mutation S3Object.

(** [m] keeps [P] of the database whenever it succeeds. *)
Definition ok_keeps {A} (P : DB -> Prop) (m : M World A) : Prop :=
  forall w a w', P (db w) -> m w = (Ok a, w') -> P (db w').

(** The files, segments and parts are those of [d0], and so are the delete states,
    but for rows that were queued or moved on in the queue: none comes back to life. *)
Definition row_kept (q q' : delete_row) : Prop :=
  d_file_id q' = d_file_id q /\ d_part_id q' = d_part_id q /\ d_ref q' = d_ref q /\
  (d_state q <> DsLive -> d_state q' <> DsLive).
Definition same_parts (d0 d : DB) : Prop :=
  t_part d = t_part d0 /\ Forall2 row_kept (t_delete d0) (t_delete d) /\
  t_file d = t_file d0 /\ t_segment d = t_segment d0.

(** Or there are new files and segments, and no file changed its size or layout. *)
Definition file_shape (r : file_row) : Z * Z * Z := (f_file_id r, f_size r, f_layout r).
Definition shapes (d : DB) : list (Z * Z * Z) := file_shape <$> t_file d.
(** Of a part only the size may be filled in. *)
Definition part_shape (p : part_row) : Z * Z * string := (p_file_id p, p_part_id p, p_key p).
Definition part_shapes (d : DB) : list (Z * Z * string) := part_shape <$> t_part d.
Definition grown (d0 d : DB) : Prop :=
  part_shapes d = part_shapes d0 /\ Forall2 row_kept (t_delete d0) (t_delete d) /\ shapes d0 `prefix_of` shapes d.

Lemma row_kept_refl l : Forall2 row_kept l l.
Proof. apply Forall_Forall2_diag, Forall_true. by intros q. Qed.

Lemma same_parts_refl d : same_parts d d.
Proof. split; [done|]. split; [apply row_kept_refl|done]. Qed.

Lemma same_parts_delete d0 d d' : same_parts d0 d -> delete_rel d d' -> same_parts d0 d'.
Proof.
  intros (Ep & Hq & Hf & Hs) [Et Hr]. split; [by rewrite Et|]. split; [|by rewrite Et].
  eapply Forall2_comp; [|exact Hq|exact Hr].
  intros q1 q2 q3 (? & ? & ? & ?) (? & ? & ? & ? & _). split_and!; [congruence..|auto].
Qed.

Lemma grown_tables d d' :
  t_part d' = t_part d -> t_delete d' = t_delete d -> shapes d `prefix_of` shapes d' -> grown d d'.
Proof.
  intros E1 E2 E3. split; [unfold part_shapes; by rewrite E1|]. split; [|done]. rewrite E2. apply row_kept_refl.
Qed.

Lemma same_grown d0 d : same_parts d0 d -> grown d0 d.
Proof.
  intros (E1 & Hq & E2 & _). split; [unfold part_shapes; by rewrite E1|]. split; [done|]. unfold shapes. by rewrite E2.
Qed.

Lemma grown_trans d1 d2 d3 : grown d1 d2 -> grown d2 d3 -> grown d1 d3.
Proof.
  intros (E1 & F1 & S1) (E2 & F2 & S2). split; [congruence|]. split; [|by etrans].
  eapply Forall2_comp; [|exact F1|exact F2].
  intros q1 q2 q3 (? & ? & ? & ?) (? & ? & ? & ?). split_and!; [congruence..|auto].
Qed.

(** What the operations keep, from [d0] on. *)
Definition kept_inv (d0 d : DB) : Prop := file_inv d /\ same_parts d0 d.
Definition grown_inv (d0 d : DB) : Prop := file_inv d /\ grown d0 d.

Lemma kept_refl d : file_inv d -> kept_inv d d.
Proof. split; [done|apply same_parts_refl]. Qed.
Lemma kept_grown d0 d : kept_inv d0 d -> grown_inv d0 d.
Proof. intros [Hi Hs]. split; [done|by apply same_grown]. Qed.

(** What the invariant looks at. *)
Definition file_view (d : DB) :=
  (t_file d, t_mapping d, t_delete d, t_segment d, t_pin d, t_mpart d, t_upload d, t_part d, t_job_file d).

Lemma file_inv_view d d' : file_view d' = file_view d -> file_inv d -> file_inv d'.
Proof.
  unfold file_view. intros [= E1 E2 E3 E4 E5 E6 E7 E8 E9] [[] Hsafe].
  split; [split; rewrite ?E1, ?E3, ?E4, ?E6, ?E7, ?E8, ?E9; done|].
  intros f Hf. unfold live. rewrite E3. apply (Hsafe f).
  destruct Hf as [p Hp E|(r & Hr & E)|s Hs E (r & Hr & Em)|p u Hp E Ha Hu Ei Hact].
  - eapply ref_pin; [|exact E]. by rewrite <- E5.
  - apply ref_mapping. exists r. by rewrite <- E2.
  - eapply ref_composite; [by rewrite <- E4|exact E|]. exists r. by rewrite <- E2.
  - eapply ref_upload; [by rewrite <- E6|done|done|by rewrite <- E7|done|done].
Qed.

(** A file that may be linked, next to the invariant. *)
Definition link_inv (d0 : DB) (f : Z) (d : DB) : Prop :=
  kept_inv d0 d /\ linkable d f /\ 0 < f < 2 ^ 63.

Lemma linkable_other d d' f : t_delete d' = t_delete d -> t_segment d' = t_segment d ->
  linkable d f -> linkable d' f.
Proof. intros E1 E2. unfold linkable, live. by rewrite E1, E2. Qed.

Create HintDb safe.

Section Keeps.
Context `{!Env}.

Lemma ok_keeps_bind {A B} P (m : M World A) (f : A -> M World B) :
  ok_keeps P m -> (forall a, ok_keeps P (f a)) -> ok_keeps P (m ≫= f).
Proof.
  intros Hm Hf w b w'' HP Hrun. apply bind_ok_inv in Hrun as (a & w' & H1 & H2).
  exact (Hf a w' b w'' (Hm w a w' HP H1) H2).
Qed.

Lemma ok_keeps_same {A} P (m : M World A) : (forall w, db (m w).2 = db w) -> ok_keeps P m.
Proof. intros Hm w a w' HP Hrun. specialize (Hm w). rewrite Hrun in Hm. simpl in Hm. by rewrite Hm. Qed.

Lemma ok_keeps_ret {A} P (a : A) : ok_keeps P (mret a).
Proof. by apply ok_keeps_same. Qed.
Lemma ok_keeps_fail {A} P e : ok_keeps P (fail e : M World A).
Proof. by apply ok_keeps_same. Qed.
Lemma ok_keeps_lift {A} P (o : outcome A) : ok_keeps P (lift o).
Proof. by apply ok_keeps_same. Qed.
Lemma ok_keeps_check P b e : ok_keeps P (check b e).
Proof. apply ok_keeps_same. by destruct b. Qed.
Lemma ok_keeps_now P : ok_keeps P now.
Proof. by apply ok_keeps_same. Qed.
Lemma ok_keeps_query {A} P (f : DB -> A) : ok_keeps P (query f).
Proof. by apply ok_keeps_same. Qed.

Lemma ok_keeps_for_each {A} P (f : A -> M World unit) l :
  (forall a, ok_keeps P (f a)) -> ok_keeps P (for_each f l).
Proof.
  intros Hf. induction l; simpl; [apply ok_keeps_ret|]. by apply ok_keeps_bind.
Qed.

Lemma ok_keeps_fold {A C} P (f : C -> A -> M World C) acc l :
  (forall c a, ok_keeps P (f c a)) -> ok_keeps P (fold_each f acc l).
Proof.
  intros Hf. revert acc. induction l; intros acc; simpl; [apply ok_keeps_ret|]. by apply ok_keeps_bind.
Qed.

(** A transaction keeps [P] on both ways out. *)
Lemma ok_keeps_tx {A} P (m : M World A) w : ok_keeps P m -> P (db w) -> P (db (OnTransation m w).2).
Proof.
  intros Hm HP. unfold OnTransation. destruct (m w) as [[a|e] w'] eqn:E; simpl; [|done].
  by eapply Hm.
Qed.

(** ** Statements on other tables *)

Class ViewStable (P : DB -> Prop) : Prop :=
  view_stable : forall d d', file_view d' = file_view d -> P d -> P d'.

#[export] Instance kept_inv_stable d0 : ViewStable (kept_inv d0).
Proof.
  intros d d' E (Hinv & Hp & Hq & Hf & Hs). split; [by eapply file_inv_view|].
  unfold file_view in E. injection E as E1 _ E3 E4 _ _ _ E8 _. split_and!; congruence.
Qed.
#[export] Instance link_inv_stable d0 f : ViewStable (link_inv d0 f).
Proof.
  intros d d' E (Hinv & Hl & Hr). split; [by eapply kept_inv_stable|]. split; [|done].
  unfold file_view in E. injection E as _ _ E3 E4 _ _ _ _ _. by eapply linkable_other.
Qed.

Context (P : DB -> Prop) `{!ViewStable P}.

Lemma ok_keeps_s3meta f : ok_keeps P (upd (set_s3meta f)).
Proof. intros w a w' HP [= _ <-]. by eapply view_stable; [|exact HP]. Qed.
Lemma ok_keeps_property f : ok_keeps P (upd (set_property f)).
Proof. intros w a w' HP [= _ <-]. by eapply view_stable; [|exact HP]. Qed.
Lemma ok_keeps_lock f : ok_keeps P (upd (set_lock f)).
Proof. intros w a w' HP [= _ <-]. by eapply view_stable; [|exact HP]. Qed.

Lemma ok_keeps_job f : ok_keeps P (upd (set_job f)).
Proof. intros w a w' HP [= _ <-]. by eapply view_stable; [|exact HP]. Qed.

Lemma Stat_tx_same s w : (Directory.Tx.Stat s w).2 = w.
Proof.
  unfold Directory.Tx.Stat, mbind, M_bind, attempt. rewrite txGetEntryInfo_eq. simpl.
  destruct (get_info _ s) as [[? ?]|e]; [done|]. by destruct (decide _).
Qed.
Lemma ok_keeps_Stat_tx s : ok_keeps P (Directory.Tx.Stat s).
Proof. apply ok_keeps_same. intros w. by rewrite Stat_tx_same. Qed.
End Keeps.

#[export] Hint Resolve ok_keeps_ret ok_keeps_fail ok_keeps_lift ok_keeps_check ok_keeps_now
  ok_keeps_query ok_keeps_s3meta ok_keeps_property ok_keeps_lock ok_keeps_job ok_keeps_Stat_tx : safe.

(** Goes through binds, loops and conditionals down to known operations. *)
Ltac keep_step :=
  lazymatch goal with
  | |- ok_keeps _ ?m =>
      lazymatch m with
      | mbind _ _ => apply ok_keeps_bind; [|intros ?]
      | for_each _ _ => apply ok_keeps_for_each; intros ?
      | fold_each _ _ _ => apply ok_keeps_fold; intros ? ?
      | let _ := _ in _ => cbv zeta
      | match ?x with _ => _ end => destruct x
      | _ => solve [eauto with safe typeclass_instances]
      end
  end.
Ltac keeps := repeat keep_step.

Section Ops.
Context `{!Env} (P : DB -> Prop) `{!ViewStable P}.

Lemma ok_keeps_deleteMappingMetadata l : ok_keeps P (deleteMappingMetadata l).
Proof. unfold deleteMappingMetadata. keeps. Qed.
Lemma ok_keeps_deleteProperties l : ok_keeps P (deleteWebDAVProperties l).
Proof. unfold deleteWebDAVProperties. keeps. Qed.
Lemma ok_keeps_deleteLocks l : ok_keeps P (deleteWebDAVLocks l).
Proof. unfold deleteWebDAVLocks. keeps. Qed.
Lemma ok_keeps_copyMetadata l : ok_keeps P (copyWebDAVMetadata l).
Proof. unfold copyWebDAVMetadata, copyMappingMetadata. keeps. Qed.
Lemma ok_keeps_copyProperties l : ok_keeps P (copyWebDAVProperties l).
Proof. unfold copyWebDAVProperties. keeps. Qed.
Lemma ok_keeps_rebind a b s : ok_keeps P (rebindWebDAVProtocolState a b s).
Proof. unfold rebindWebDAVProtocolState. keeps. Qed.
Lemma ok_keeps_insertS3Metadata m : ok_keeps P (insertS3Metadata m).
Proof. unfold insertS3Metadata. keeps. Qed.
Lemma ok_keeps_deleteS3Metadata e : ok_keeps P (deleteS3Metadata e).
Proof. unfold deleteS3Metadata. keeps. Qed.
Lemma ok_keeps_statS3ObjectTx `{!MimeTypes} s : ok_keeps P (statS3ObjectTx s).
Proof. unfold statS3ObjectTx, entry_info, readS3Metadata. keeps. Qed.
End Ops.

#[export] Hint Resolve ok_keeps_deleteMappingMetadata ok_keeps_deleteProperties ok_keeps_deleteLocks
  ok_keeps_copyMetadata ok_keeps_copyProperties ok_keeps_rebind ok_keeps_insertS3Metadata
  ok_keeps_deleteS3Metadata ok_keeps_statS3ObjectTx : safe.

(** ** Operations of the directory *)

Section Dir.
Context `{!Env} (d0 : DB).

(** Any operation of the directory that is given at most the reference [ref]. *)
Definition dir_op {A} (ref : string) (m : M World A) : Prop :=
  forall (I : World -> Prop) okref, DirStable I okref -> okref ref -> preserves I m.

Lemma dir_op_effect {A} ref (m : M World A) w : dir_op ref m ->
  other_tables (db (m w).2) = other_tables (db w) /\
  forall r, r ∈ t_mapping (db (m w).2) ->
    (RefData_ r = "" \/ RefData_ r = ref) \/ exists r0, r0 ∈ t_mapping (db w) /\ RefData_ r0 = RefData_ r.
Proof.
  intros Hm. split.
  - by apply (Hm _ _ (other_tables_stable (other_tables (db w)))).
  - set (R := fun s => (s = "" \/ s = ref) \/ exists r0, r0 ∈ t_mapping (db w) /\ RefData_ r0 = s).
    assert (DirStable (refs_in R) R) as HR by (apply refs_in_stable; unfold R; auto).
    apply (Hm _ _ HR); [unfold R; auto|]. intros r Hr. right. by exists r.
Qed.

Lemma same_parts_other d d' : other_tables d' = other_tables d -> same_parts d0 d -> same_parts d0 d'.
Proof.
  unfold other_tables. intros [= E1 E2 E3 E4 _ _ _ _ _ _ _ _ _ _] (Hp & Hq & Hf & Hs).
  split_and!; congruence.
Qed.

Lemma dir_op_keeps {A} (m : M World A) w : dir_op "" m -> kept_inv d0 (db w) -> kept_inv d0 (db (m w).2).
Proof.
  intros Hm [Hinv Hsame]. destruct (dir_op_effect "" m w Hm) as [Ho Hr].
  split; [|by eapply same_parts_other]. eapply unlink_keeps_inv; [exact Hinv|exact Ho|].
  intros r Hin. destruct (Hr r Hin) as [[?|?]|?]; auto.
Qed.

Lemma dir_op_keeps_inv {A} (m : M World A) : dir_op "" m -> ok_keeps (kept_inv d0) m.
Proof.
  intros Hm w a w' Hinv Hrun. pose proof (dir_op_keeps m w Hm Hinv) as Hk. by rewrite Hrun in Hk.
Qed.

Lemma other_linkable d d' f : other_tables d' = other_tables d -> linkable d f -> linkable d' f.
Proof. unfold other_tables. intros [= _ _ E3 E4 _ _ _ _ _ _ _ _ _ _]. by apply linkable_other. Qed.

Lemma dir_op_keeps_link {A} f (m : M World A) : dir_op "" m -> ok_keeps (link_inv d0 f) m.
Proof.
  intros Hm w a w' (Hinv & Hl & Hr) Hrun. split; [by eapply dir_op_keeps_inv|]. split; [|done].
  destruct (dir_op_effect "" m w Hm) as [Ho _]. rewrite Hrun in Ho. by eapply other_linkable.
Qed.

(** Writing the reference of a file that may be linked. *)
Lemma dir_op_links {A} f (m : M World A) : dir_op (FormatUint f) m -> ok_keeps (link_inv d0 f) m.
Proof.
  intros Hm w a w' ([Hinv Hsame] & Hl & Hr) Hrun. destruct (dir_op_effect _ m w Hm) as [Ho Hrefs].
  rewrite Hrun in Ho, Hrefs. split; [split; [by eapply link_keeps_inv|by eapply same_parts_other]|].
  split; [|done]. by eapply other_linkable.
Qed.

Lemma dir_op_Remove s : dir_op "" (Directory.Tx.Remove s).
Proof. intros I okref HI _. by apply (preserves_Remove_tx I). Qed.
Lemma dir_op_Touch s t : dir_op "" (Directory.Tx.Touch s t).
Proof. intros I okref HI _. by apply (preserves_Touch I). Qed.
Lemma dir_op_Move s d o : dir_op "" (Directory.Move_tx s d o).
Proof. intros I okref HI _. by apply (preserves_Move_tx I). Qed.
Lemma dir_op_Mkdir_tx s : dir_op "" (Directory.Tx.Mkdir s).
Proof. intros I okref HI _. by apply (preserves_Mkdir_tx I). Qed.
Lemma dir_op_Mkdir s : dir_op "" (Directory.Mkdir s).
Proof. intros I okref HI _. by apply (preserves_Mkdir I). Qed.
Lemma dir_op_Copy s d o : dir_op "" (Directory.Copy_tx s d o).
Proof. intros I okref HI _. by apply (preserves_CopyDepth I). Qed.
Lemma dir_op_Create s z r : dir_op r (Directory.Tx.Create s z r).
Proof. intros I okref HI Hr. by apply (preserves_Create I). Qed.
End Dir.

#[export] Hint Resolve dir_op_keeps_inv dir_op_keeps_link dir_op_links dir_op_Remove dir_op_Touch
  dir_op_Move dir_op_Mkdir_tx dir_op_Mkdir dir_op_Copy dir_op_Create : safe.

(** ** Queueing for deletion *)

Section Marks.
Context `{!Env} (d0 : DB).

Lemma ok_keeps_delete_only {A} (m : M World A) : delete_only m -> ok_keeps (kept_inv d0) m.
Proof.
  intros Hm w a w' [Hinv Hsame] Hrun. specialize (Hm w Hinv). rewrite Hrun in Hm.
  split; [by eapply delete_rel_inv|by eapply same_parts_delete].
Qed.
Lemma ok_keeps_mark f t : ok_keeps (kept_inv d0) (markFileTreePendingIfUnreferenced f t).
Proof. apply ok_keeps_delete_only, mark_delete. Qed.
#[local] Hint Resolve ok_keeps_mark : safe.

Lemma ok_keeps_finalize l : ok_keeps (kept_inv d0) (finalizeRemovedWebDAVEntries l).
Proof. unfold finalizeRemovedWebDAVEntries, markMappingFilesPending. keeps. Qed.

Lemma ok_keeps_ensure f : ok_keeps (kept_inv d0) (ensureFileTreeCanBeLinked f).
Proof.
  intros w [] w' Hinv Hrun. apply ensureFileTreeCanBeLinked_ok in Hrun as [-> _]; [done|apply Hinv].
Qed.
#[local] Hint Resolve ok_keeps_ensure : safe.

Lemma ok_keeps_validate l : ok_keeps (kept_inv d0) (validateWebDAVCopies l).
Proof. unfold validateWebDAVCopies. keeps. Qed.

(** After the check a file may be linked; what follows may use that, then forget it. *)
Definition uses_link {A} (f : Z) (m : M World A) : Prop :=
  forall w a w', link_inv d0 f (db w) -> m w = (Ok a, w') -> kept_inv d0 (db w').

Lemma uses_link_bind {A B} f (m : M World A) (k : A -> M World B) :
  ok_keeps (link_inv d0 f) m -> (forall a, uses_link f (k a)) -> uses_link f (m ≫= k).
Proof.
  intros Hm Hk w b w'' HP Hrun. apply bind_ok_inv in Hrun as (a & w' & H1 & H2).
  exact (Hk a w' b w'' (Hm w a w' HP H1) H2).
Qed.
Lemma uses_link_forget {A} f (m : M World A) : ok_keeps (kept_inv d0) m -> uses_link f m.
Proof. intros Hm w a w' [Hinv _] Hrun. by eapply Hm. Qed.
Lemma ensure_link_bind {A} f (k : M World A) :
  uses_link f k -> ok_keeps (kept_inv d0) (_ ← ensureFileTreeCanBeLinked f; k).
Proof.
  intros Hk w a w'' Hinv Hrun. apply bind_ok_inv in Hrun as ([] & w' & H1 & H2).
  apply ensureFileTreeCanBeLinked_ok in H1 as (-> & Hl & r & Hr & <-); [|apply Hinv].
  apply (Hk w a w''); [|done]. split; [done|]. split; [done|]. by apply (inv_wf _ (proj1 Hinv)).
Qed.
End Marks.

#[export] Hint Resolve ok_keeps_mark ok_keeps_finalize ok_keeps_ensure ok_keeps_validate : safe.

(** ** The transactions *)

Section Transactions.
Context `{!Env} `{!MimeTypes}.

(** [m] leaves the invariant true, whether it succeeds or fails. *)
Definition inv_safe_op {A} (m : M World A) : Prop :=
  forall w, file_inv (db w) -> grown_inv (db w) (db (m w).2).

Lemma tx_safe {A} (m : M World A) : (forall d0, ok_keeps (kept_inv d0) m) -> inv_safe_op (OnTransation m).
Proof. intros Hm w Hw. apply kept_grown, ok_keeps_tx; [apply Hm|by apply kept_refl]. Qed.

Lemma dir_op_safe {A} (m : M World A) : dir_op "" m -> inv_safe_op m.
Proof. intros Hm w Hw. by apply kept_grown, dir_op_keeps, kept_refl. Qed.

Lemma CreateFileLink_safe link f z b : inv_safe_op (CreateFileLink link f z b).
Proof.
  unfold CreateFileLink, FileMappingDao.CreateFileLink. destruct b; cbn [negb].
  - apply dir_op_safe, dir_op_Mkdir.
  - apply tx_safe; intros d0; apply ensure_link_bind, uses_link_bind; [eauto with safe|intros e].
    apply uses_link_forget. keeps.
Qed.

Lemma removeWebDAVLink_safe link : inv_safe_op (removeWebDAVLink link).
Proof. apply tx_safe; intros d0. keeps. Qed.
Lemma moveWebDAVLink_safe s d o : inv_safe_op (moveWebDAVLink s d o).
Proof. apply tx_safe; intros d0. keeps. Qed.
Lemma copyWebDAVLink_safe s d o : inv_safe_op (copyWebDAVLink s d o).
Proof. apply tx_safe; intros d0. keeps. Qed.

Lemma ok_keeps_removeReplaced P `{!ViewStable P} s o :
  (forall s, ok_keeps P (Directory.Tx.Remove s)) -> ok_keeps P (removeReplacedS3Object s o).
Proof. intros HR. unfold removeReplacedS3Object. keeps. Qed.
#[local] Hint Resolve ok_keeps_removeReplaced : safe.

Lemma ok_keeps_publish d0 s f z m c : ok_keeps (kept_inv d0) (publishS3ObjectTx s f z m c).
Proof.
  unfold publishS3ObjectTx, ensureFileCanBeLinked, markFilePendingIfUnreferenced.
  apply ok_keeps_bind; [keeps|intros cur]. apply ok_keeps_bind; [keeps|intros _].
  apply ensure_link_bind.
  apply uses_link_bind; [eauto with safe typeclass_instances|intros rep].
  apply uses_link_bind; [eauto with safe|intros e].
  apply uses_link_forget. keeps.
Qed.
Lemma PublishS3Object_safe s f z m c : inv_safe_op (PublishS3Object s f z m c).
Proof. apply tx_safe. intros d0. apply ok_keeps_publish. Qed.

Lemma ok_keeps_copyDifferent d0 d si di m : ok_keeps (kept_inv d0) (copyDifferentS3ObjectTx d si di m).
Proof.
  unfold copyDifferentS3ObjectTx, ensureFileCanBeLinked, markFilePendingIfUnreferenced.
  apply ok_keeps_bind; [keeps|intros rep]. apply ok_keeps_bind; [keeps|intros _].
  apply ensure_link_bind, uses_link_bind; [eauto with safe|intros e].
  apply uses_link_forget. keeps.
Qed.
#[local] Hint Resolve ok_keeps_copyDifferent : safe.

Lemma CopyS3Object_safe s d m c1 c2 : inv_safe_op (CopyS3Object s d m c1 c2).
Proof. apply tx_safe; intros d0. unfold copyS3ObjectTx, copySameS3ObjectTx. keeps. Qed.

Lemma delete_only_safe {A} (m : M World A) : delete_only m -> inv_safe_op m.
Proof.
  intros Hm w Hw. specialize (Hm w Hw). apply kept_grown. split; [by eapply delete_rel_inv|].
  eapply same_parts_delete; [apply same_parts_refl|done].
Qed.

Lemma DeleteS3Object_safe s c : inv_safe_op (DeleteS3Object s c).
Proof. apply tx_safe; intros d0. unfold markFilePendingIfUnreferenced. keeps. Qed.
End Transactions.
