(* ===== verification/ObjectTheorems.v ===== *)
(** * S3 objects: theorems

    What is published at a path is what a stat of the path finds; deleting and copying
    change the tree exactly there. *)

From stdpp Require Import base strings list.
From S2P Require Import Prelude GoStr Store Directory DirFrame Tree DirWalk DirOps DirTx DirTheorems.
From S2P Require Import References RefInv Dao Mutation S3Object.
Import Directory References Mutation S3Object FileMappingDao.

(** What the directory and the object metadata depend on. *)
Definition object_view (w : World) : list directoryEntryTab * list s3meta_row * nat :=
  (T w, t_s3meta (db w), ids w).

(** What queueing files for deletion and moving WebDAV state leave alone. *)
Class QueueStable (I : World -> Prop) : Prop := {
  qs_time : forall w, I w -> I {| db := db w; ticks := S (ticks w); ids := ids w |};
  qs_delete : forall w f, I w -> I {| db := set_delete f (db w); ticks := ticks w; ids := ids w |};
  qs_property : forall w f, I w -> I {| db := set_property f (db w); ticks := ticks w; ids := ids w |};
  qs_lock : forall w f, I w -> I {| db := set_lock f (db w); ticks := ticks w; ids := ids w |} }.
#[export] Instance object_view_stable X : QueueStable (fun w => object_view w = X).
Proof. by split. Qed.

Section View.
Context `{!Env} `{!MimeTypes} (I : World -> Prop) `{!QueueStable I}.

Lemma view_query {A} (f : DB -> A) : preserves I (query f).
Proof. by intros w. Qed.
Lemma view_now : preserves I now.
Proof. intros w. apply qs_time. Qed.
Lemma view_delete f : preserves I (upd (set_delete f)).
Proof. intros w. apply qs_delete. Qed.
Lemma view_property f : preserves I (upd (set_property f)).
Proof. intros w. apply qs_property. Qed.
Lemma view_lock f : preserves I (upd (set_lock f)).
Proof. intros w. apply qs_lock. Qed.
Hint Resolve view_query view_now view_delete view_property view_lock : dir.

Lemma view_hasRef f : preserves I (fileHasLiveReference f).
Proof. unfold fileHasLiveReference. dir_frame. Qed.
Lemma view_readFile f : preserves I (readStoredFile f).
Proof. apply view_query. Qed.
Lemma view_sources f : preserves I (compositeSourceFileIDs f).
Proof. apply view_query. Qed.
Hint Resolve view_hasRef view_readFile view_sources : dir.

Lemma view_mark_loop fuel f t : preserves I (markFileTree_loop fuel f t).
Proof. revert f. induction fuel as [|fuel IH]; intros f; cbn [markFileTree_loop]; dir_frame. Qed.
Hint Resolve view_mark_loop : dir.
Lemma view_mark f t : preserves I (markFileTreePendingIfUnreferenced f t).
Proof. unfold markFileTreePendingIfUnreferenced. dir_frame. Qed.

Lemma view_rebind a b p : preserves I (rebindWebDAVProtocolState a b p).
Proof. unfold rebindWebDAVProtocolState. dir_frame. Qed.
Lemma view_ensure f : preserves I (ensureFileTreeCanBeLinked f).
Proof.
  unfold ensureFileTreeCanBeLinked, ensureCompositeFileLive, ensurePhysicalFileLive,
    ensurePhysicalFileDeletionRefsComplete. dir_frame.
Qed.
Lemma view_deleteProperties l : preserves I (deleteWebDAVProperties l).
Proof. unfold deleteWebDAVProperties. dir_frame. Qed.
Lemma view_deleteLocks l : preserves I (deleteWebDAVLocks l).
Proof. unfold deleteWebDAVLocks. dir_frame. Qed.
Lemma view_copyProperties l : preserves I (copyWebDAVProperties l).
Proof. unfold copyWebDAVProperties. dir_frame. Qed.
End View.

Section Objects.
Context `{!Env} `{!GoodIds} `{!MimeTypes}.

Lemma view_wf w w' : object_view w' = object_view w -> wf_world w -> wf_world w'.
Proof. intros [= ET _ Ei] Hw. by apply (wf_world_same w). Qed.

Lemma view_step {A} (m : M World A) w a w' :
  (forall X, preserves (fun w => object_view w = X) m) -> m w = (Ok a, w') ->
  object_view w' = object_view w.
Proof. intros Hm Hrun. specialize (Hm (object_view w) w eq_refl). by rewrite Hrun in Hm. Qed.

(** The object at a path, as the directory and its metadata tell. *)
Definition object_at (w : World) (p : list string) (info : S3ObjectInfo) : Prop :=
  exists e, find (T w) p = Some e /\ Directory.IsDir e = false /\ EntryId_ e = EntryID (Link info) /\
    ParseUint (RefData_ e) = Ok (LinkFileId (Link info)) /\
    FileSize_ e = FileSize (Link info) /\
    Metadata info = default (legacyS3Metadata (Link info))
      (head (sql_select (fun m => m_entry_id m =? EntryId_ e) (t_s3meta (db w)))).

Lemma entry_info_ok path e w info w' :
  entry_info path e w = (Ok info, w') ->
  w' = w /\ directoryEntryToLink path e = Ok (Link info) /\
  Metadata info = default (legacyS3Metadata (Link info))
    (head (sql_select (fun m => m_entry_id m =? EntryId_ e) (t_s3meta (db w)))).
Proof.
  unfold entry_info. intros Hrun. step_ok Hrun. step_ok Hrun. by injection Hrun as <- <-.
Qed.

Lemma toLink_ok path e link :
  directoryEntryToLink path e = Ok link ->
  EntryId_ e = EntryID link /\ ParseUint (RefData_ e) = Ok (LinkFileId link) /\ FileSize_ e = FileSize link.
Proof. unfold directoryEntryToLink. destruct (ParseUint (RefData_ e)); [|done]. by intros [= <-]. Qed.

Lemma statTx_ok path cs c w o w' :
  wf_tree (T w) -> denotes path (cs ++ [c]) -> statS3ObjectTx path w = (Ok o, w') ->
  w' = w /\ match o with
            | Some info => object_at w (cs ++ [c]) info
            | None => forall e, find (T w) (cs ++ [c]) = Some e -> Directory.IsDir e = true
            end.
Proof.
  intros Hwf Hd Hrun. unfold statS3ObjectTx in Hrun.
  apply bind_ok_inv in Hrun as (entry & w1 & R1 & Hrun).
  assert (w1 = w /\ entry = find (T w) (cs ++ [c])) as [-> ->].
  { unfold Tx.Stat in R1. apply bind_ok_inv in R1 as (r & w2 & R2 & R1).
    unfold attempt in R2. rewrite txGetEntryInfo_eq in R2. injection R2 as <- <-.
    destruct (get_info (T w) path) as [[e pid]|err] eqn:Eg.
    - injection R1 as <- <-. split; [done|]. by eapply get_info_ok.
    - destruct (decide _); [|done]. injection R1 as <- <-. split; [done|].
      symmetry. by eapply get_info_err. }
  destruct (find (T w) (cs ++ [c])) as [e|] eqn:Ef; [|by injection Hrun as <- <-].
  destruct (Directory.IsDir e) eqn:Edir; [injection Hrun as <- <-; split; [done|]; by intros e' [= <-]|].
  apply bind_ok_inv in Hrun as (info & w1 & R2 & Hrun). injection Hrun as <- <-.
  apply entry_info_ok in R2 as (-> & Hl & Hm). split; [done|].
  apply toLink_ok in Hl as (E1 & E2 & E3). by exists e.
Qed.

(** Removing a file takes nothing else away. *)
Lemma ensured_without t t' cs c e x :
  wf_tree t -> find t (cs ++ [c]) = Some e -> Directory.IsDir e = false ->
  (forall y, abs t' y = without t (cs ++ [c]) y) -> x <> cs ++ [c] ->
  ensured t' cs x = ensured t cs x.
Proof.
  intros Hwf He Hdir Habs Hx. unfold ensured. rewrite Habs. unfold without.
  destruct (decide (cs ++ [c] `prefix_of` x)) as [[k ->]|]; [|done].
  assert (~ (cs ++ [c]) ++ k `prefix_of` cs) as Hlong.
  { intros Hp%prefix_length. rewrite !length_app in Hp. simpl in Hp. lia. }
  rewrite !decide_False by done. destruct k as [|k0 k]; [by rewrite app_nil_r in Hx|]. symmetry. apply abs_none.
  apply (find_below_file t (cs ++ [c]) e k0 k); [done|by apply find_spec|done].
Qed.

Definition current_ok (w : World) (p : list string) (o : option S3ObjectInfo) : Prop :=
  match o with
  | Some info => object_at w p info
  | None => forall e, find (T w) p = Some e -> Directory.IsDir e = true
  end.

(** Removing the file at a path. *)
Lemma remove_file_ok path cs c e w L w' :
  wf_world w -> denotes path (cs ++ [c]) -> find (T w) (cs ++ [c]) = Some e ->
  Tx.Remove path w = (Ok L, w') ->
  wf_world w' /\ forall x, abs (T w') x = without (T w) (cs ++ [c]) x.
Proof.
  intros Hw Hd He R1. pose proof Hw as [Hwf _].
  pose proof (Remove_run path w Hw) as Hrem. cbv zeta in Hrem.
  destruct (get_info (T w) path) as [[o pid]|err] eqn:Eg.
  - destruct (get_info_ok _ Hwf _ _ _ _ _ Hd Eg) as [-> _]. rewrite He in Hrem.
    destruct Hrem as (cs' & L' & w2 & Hat & _ & Hw2 & Habs & _ & Hden).
    rewrite (Hden _ _ Hd) in R1. injection R1 as <- <-.
    assert (cs' = cs ++ [c]) as ->; [|done].
    eapply at_path_inj; [exact Hwf|exact Hat|]. by apply find_spec.
  - destruct (get_info_err _ Hwf _ _ _ _ Hd Eg) as [Hn _]. congruence.
Qed.

Lemma removeReplaced_ok path cs c o w f w' :
  wf_world w -> denotes path (cs ++ [c]) -> current_ok w (cs ++ [c]) o ->
  removeReplacedS3Object path o w = (Ok f, w') ->
  wf_world w' /\ (forall x, x <> cs ++ [c] -> ensured (T w') cs x = ensured (T w) cs x).
Proof.
  intros Hw Hd Ho Hrun. pose proof Hw as [Hwf _]. destruct o as [info|]; [|by injection Hrun as _ <-].
  destruct Ho as (e & He & Hdir & _). unfold removeReplacedS3Object in Hrun.
  apply bind_ok_inv in Hrun as (L & w1 & R1 & Hrun). apply bind_ok_inv in Hrun as ([] & w2 & R2 & Hrun).
  injection Hrun as _ <-. injection R2 as <-.
  destruct (remove_file_ok _ _ _ _ _ _ _ Hw Hd He R1) as [Hw1 Habs].
  split; [exact Hw1|]. intros x Hx. by eapply ensured_without.
Qed.

(** The entry a successful [Create] makes. *)
Lemma created_ok path size ref cs c w ent w' :
  wf_world w -> denotes path (cs ++ [c]) -> Tx.Create path size ref w = (Ok ent, w') ->
  wf_world w' /\ node_of ent = file_node ref size /\ find (T w) (cs ++ [c]) = None /\
  (forall x, abs (T w') x = if decide (x = cs ++ [c]) then Some (file_node ref size) else ensured (T w) cs x) /\
  exists r, find (T w') (cs ++ [c]) = Some r /\ EntryId_ r = EntryId_ ent.
Proof.
  intros Hw Hd Hrun. apply denotes_trim in Hd.
  destruct (splitFilename_denotes _ _ _ Hd) as (dir & Hsplit & Hdir).
  pose proof (Create_run path size ref dir c cs w Hw Hsplit Hdir) as Hc. cbv zeta in Hc.
  rewrite Hrun in Hc. cbn [fst snd] in Hc.
  destruct Hc as [[_ ?]|[[_ ?]|(Hn & _ & _ & Hw' & Habs & Hent)]]; [done..|].
  destruct (Hent ent eq_refl) as [Hnode Hr]. apply abs_none in Hn. done.
Qed.

Lemma insertMeta_ok m w w' :
  insertS3Metadata m w = (Ok tt, w') ->
  T w' = T w /\ ids w' = ids w /\
  head (sql_select (fun x => m_entry_id x =? m_entry_id m) (t_s3meta (db w'))) = Some m.
Proof.
  unfold insertS3Metadata. intros Hrun. step_ok Hrun. step_ok Hrun. step_ok Hrun. injection Hrun as <-.
  split; [done|]. split; [done|]. cbn. unfold sql_select. rewrite List.filter_app. cbn. rewrite Z.eqb_refl.
  rewrite sql_exists_false in Hrun1.
  assert (List.filter (fun x => m_entry_id x =? m_entry_id m) (t_s3meta (db w)) = []) as ->; [|done].
  destruct (List.filter _ _) as [|x l] eqn:E; [done|]. exfalso.
  assert (x ∈ sql_select (fun x => m_entry_id x =? m_entry_id m) (t_s3meta (db w))) as Hin
    by (unfold sql_select; rewrite E; left).
  apply sql_select_elem in Hin as [Hx Hx2]. by rewrite Hrun1 in Hx2.
Qed.

(** The object [info] of file [f] is at path [p], and the tree is otherwise that of [w]
    with the directories above [p]. *)
Definition placed (w w' : World) (cs : list string) (c : string) (f size : Z) (info : S3ObjectInfo) : Prop :=
  wf_world w' /\ object_at w' (cs ++ [c]) info /\ LinkFileId (Link info) = f /\
  FileSize (Link info) = size /\
  head (sql_select (fun m => m_entry_id m =? EntryID (Link info)) (t_s3meta (db w'))) = Some (Metadata info) /\
  forall x, abs (T w') x =
    if decide (x = cs ++ [c]) then Some (file_node (FormatUint f) size) else ensured (T w) cs x.

(** From the entry on, publishing and copying end alike. *)
Lemma placed_intro w w1 w2 w' path cs c f size ent m link :
  0 <= f < 2 ^ 64 -> wf_world w1 ->
  (forall x, x <> cs ++ [c] -> ensured (T w1) cs x = ensured (T w) cs x) ->
  denotes path (cs ++ [c]) -> Tx.Create path size (FormatUint f) w1 = (Ok ent, w2) ->
  T w' = T w2 -> ids w' = ids w2 -> m_entry_id m = EntryId_ ent ->
  head (sql_select (fun x => m_entry_id x =? m_entry_id m) (t_s3meta (db w'))) = Some m ->
  directoryEntryToLink path ent = Ok link ->
  placed w w' cs c f size {| Link := link; Metadata := m |}.
Proof.
  intros Hf Hw1 Hens Hd Hrun HT Hids Hid Hm Hlink.
  apply (created_ok _ _ _ cs c) in Hrun as (Hw2 & Hnode & _ & Habs & r & Hr & Er); [|done..].
  assert (node_of r = file_node (FormatUint f) size) as Hnr.
  { specialize (Habs (cs ++ [c])). unfold abs in Habs. rewrite Hr, decide_True in Habs by done.
    cbn [fmap option_fmap option_map] in Habs. congruence. }
  unfold node_of, file_node in Hnode, Hnr. injection Hnode as Ek Eref Esz. injection Hnr as Ekr Erefr Eszr.
  apply toLink_ok in Hlink as (E1 & E2 & E3).
  assert (LinkFileId link = f) as Ef.
  { rewrite Eref, ParseUint_FormatUint in E2 by done. by injection E2. }
  split; [by apply (wf_world_same w2)|]. split; [|split; [done|split; [cbn; congruence|split]]].
  - exists r. rewrite HT. cbn. split_and!; [done| |congruence| |congruence|].
    + unfold Directory.IsDir. by rewrite Ekr.
    + congruence.
    + rewrite Er, <- Hid, Hm. done.
  - cbn [Link Metadata]. by rewrite <- E1, <- Hid.
  - intros x. rewrite HT, Habs. case_decide as Hx; [done|]. by apply Hens.
Qed.

Lemma publish_run path f size meta cond cs c w info w' :
  wf_world w -> denotes path (cs ++ [c]) -> 0 <= f < 2 ^ 64 ->
  publishS3ObjectTx path f size meta cond w = (Ok info, w') ->
  placed w w' cs c f size info /\
  (exists current, current_ok w (cs ++ [c]) current /\ evaluateS3Condition current cond = Ok tt /\
     (current = None -> find (T w) (cs ++ [c]) = None)) /\
  exists t, Metadata info = stored_metadata meta (EntryID (Link info)) t t.
Proof.
  intros Hw Hd Hf Hrun. unfold publishS3ObjectTx in Hrun.
  apply bind_ok_inv in Hrun as (current & w1 & R1 & Hrun).
  apply (statTx_ok _ cs c) in R1 as [-> Hcur]; [|apply Hw|done]. step_ok Hrun. destruct a.
  apply bind_ok_inv in Hrun as ([] & w1 & R1 & Hrun). apply view_step in R1; [|intros; apply view_ensure; apply _].
  pose proof (view_wf _ _ R1 Hw) as Hw1. injection R1 as ET1 Em1 _.
  apply bind_ok_inv in Hrun as (old & w2 & R2 & Hrun).
  assert (current_ok w1 (cs ++ [c]) current) as Hcur1.
  { destruct current; unfold current_ok, object_at in *; by rewrite ?ET1, ?Em1. }
  assert (current = None -> w2 = w1) as Hnone by (by intros ->; injection R2).
  apply (removeReplaced_ok _ cs c) in R2 as [Hw2 Hens]; [|done..].
  apply bind_ok_inv in Hrun as (ent & w3 & R3 & Hrun).
  pose proof (created_ok _ _ _ _ _ _ _ _ Hw2 Hd R3) as (_ & _ & Hfree & _).
  apply bind_ok_inv in Hrun as ([] & w4 & R4 & Hrun).
  assert (object_view w4 = object_view w3) as [= ET4 _ Ei4].
  { destruct current; [|by injection R4 as <-]. apply view_step in R4; [exact R4|intros; apply view_rebind; apply _]. }
  apply bind_ok_inv in Hrun as (t & w5 & R5 & Hrun). injection R5 as _ <-. cbv zeta in Hrun.
  apply bind_ok_inv in Hrun as ([] & w6 & R6 & Hrun). apply insertMeta_ok in R6 as (ET6 & Ei6 & Hm).
  apply bind_ok_inv in Hrun as ([] & w7 & R7 & Hrun).
  assert (object_view w7 = object_view w6) as [= ET7 Em7 Ei7].
  { destruct (_ && _); [|by injection R7 as <-]. apply view_step in R7; [exact R7|intros; apply view_mark; apply _]. }
  step_ok Hrun. injection Hrun as <- <-. split.
  - eapply (placed_intro w w2 w3); try done.
    + intros x Hx. by rewrite Hens, ET1.
    + rewrite ET7, ET6. exact ET4.
    + rewrite Ei7, Ei6. exact Ei4.
    + cbn [m_entry_id stored_metadata]. rewrite Em7. exact Hm.
  - split; [exists current; split_and!; [done..|]; intros ->; by rewrite Hnone, ET1 in Hfree|].
    exists t. cbn [Link Metadata]. apply toLink_ok in Hrun1 as (<- & _). done.
Qed.

(** ** Stat *)

Definition same_object (a b : S3ObjectInfo) : Prop :=
  EntryID (Link a) = EntryID (Link b) /\ LinkFileId (Link a) = LinkFileId (Link b) /\
  FileSize (Link a) = FileSize (Link b) /\ Metadata a = Metadata b.

Lemma stat_placed w0 path cs c f size info w :
  denotes path (cs ++ [c]) -> placed w0 w cs c f size info ->
  exists info' w', StatS3Object path w = (Ok info', w') /\ db w' = db w /\ same_object info' info.
Proof.
  intros Hd ([Hwf _] & (e & He & Hdir & E1 & E2 & E3 & _) & _ & _ & Hm & _).
  destruct (Stat_lookup path (cs ++ [c]) w Hwf Hd) as [Hdb Hst]; [left; by destruct cs|].
  rewrite He in Hst. unfold StatS3Object. destruct (Stat path w) as [o w1] eqn:Es. cbn in Hdb, Hst. subst o.
  rewrite (bind_ok _ _ _ _ _ Es), Hdir. rewrite (bind_ok (check false _) _ w1 tt w1 eq_refl).
  unfold entry_info, directoryEntryToLink. rewrite E2. cbn [mbind outcome_bind].
  rewrite (bind_ok (lift (Ok _)) _ w1 _ w1 eq_refl).
  rewrite (bind_ok (readS3Metadata (EntryId_ e)) _ w1 _ w1 eq_refl).
  eexists _, w1. split; [reflexivity|]. split; [done|]. cbn [Link EntryID LinkFileId FileSize].
  split_and!; [done..|]. cbn [Metadata]. by rewrite Hdb, E1, Hm.
Qed.

Lemma stat_absent path cs c w :
  wf_tree (T w) -> denotes path (cs ++ [c]) -> find (T w) (cs ++ [c]) = None ->
  (StatS3Object path w).1 = Err ErrNotExist \/ (StatS3Object path w).1 = Err ErrPathComponentNotDirectory.
Proof.
  intros Hwf Hd Hn. destruct (Stat_lookup path (cs ++ [c]) w Hwf Hd) as [_ Hst]; [left; by destruct cs|].
  rewrite Hn in Hst. unfold StatS3Object. destruct (Stat path w) as [o w1] eqn:Es. cbn in Hst.
  destruct Hst as [-> | ->]; rewrite (bind_err _ _ _ _ _ Es); auto.
Qed.

(** ** Theorems *)

(** C12: After an object is published at a path, a stat of the path finds it: its file,
    its size and the metadata it was published with. Nothing else in the tree changes
    but that missing directories above the path are made. With [If-None-Match: *] no
    object was there before. *)
Theorem publish_then_stat path f size meta cond cs c w info w' :
  wf_world w -> denotes path (cs ++ [c]) -> 0 <= f < 2 ^ 64 ->
  PublishS3Object path f size meta cond w = (Ok info, w') ->
  (exists info' w'', StatS3Object path w' = (Ok info', w'') /\ same_object info' info) /\
  LinkFileId (Link info) = f /\ FileSize (Link info) = size /\
  (exists t, Metadata info = stored_metadata meta (EntryID (Link info)) t t) /\
  (forall x, x <> cs ++ [c] -> abs (T w') x = ensured (T w) cs x) /\
  (forall co, cond = Some co -> IfNoneMatch co = "*" -> abs (T w) (cs ++ [c]) = None).
Proof.
  intros Hw Hd Hf Hrun. unfold PublishS3Object in Hrun. rewrite OnTransation_ok in Hrun.
  apply (publish_run _ _ _ _ _ cs c) in Hrun as (Hpl & (cur & Hcur & Hcond & Hfree) & Hmeta); [|done..].
  destruct (stat_placed _ _ _ _ _ _ _ _ Hd Hpl) as (info' & w2 & Hst & _ & Hsame).
  pose proof Hpl as (_ & _ & E1 & E2 & _ & Habs). split_and!; [by exists info', w2|done..| |].
  - intros x Hx. by rewrite Habs, decide_False.
  - intros co -> Hstar.
    apply abs_none, Hfree. destruct cur as [info0|]; [|done]. exfalso.
    unfold evaluateS3Condition in Hcond. rewrite Hstar in Hcond.
    destruct (negb (s3IfMatchSatisfied _ _)); done.
Qed.

(** Deleting an object takes the file at its path out of the tree and nothing
    else, after which the path is not found; when there is no object the database
    stays as it is. *)
Theorem delete_object_spec path cond cs c w existed w' :
  wf_world w -> denotes path (cs ++ [c]) -> DeleteS3Object path cond w = (Ok existed, w') ->
  if existed
  then (exists e, find (T w) (cs ++ [c]) = Some e /\ Directory.IsDir e = false) /\
       (forall x, x <> cs ++ [c] -> abs (T w') x = abs (T w) x) /\
       abs (T w') (cs ++ [c]) = None /\
       ((StatS3Object path w').1 = Err ErrNotExist \/
        (StatS3Object path w').1 = Err ErrPathComponentNotDirectory)
  else db w' = db w /\ forall e, find (T w) (cs ++ [c]) = Some e -> Directory.IsDir e = true.
Proof.
  intros Hw Hd Hrun. pose proof Hw as [Hwf _]. unfold DeleteS3Object in Hrun. rewrite OnTransation_ok in Hrun.
  apply bind_ok_inv in Hrun as (current & w1 & R1 & Hrun).
  apply (statTx_ok _ cs c) in R1 as [-> Hcur]; [|done..]. step_ok Hrun.
  destruct current as [info|]; [|by injection Hrun as <- <-]. destruct Hcur as (e & He & Hdir & _).
  apply bind_ok_inv in Hrun as (L & w1 & R1 & Hrun).
  destruct (remove_file_ok _ _ _ _ _ _ _ Hw Hd He R1) as [Hw1 Habs].
  apply bind_ok_inv in Hrun as ([] & w2 & R2 & Hrun). injection R2 as <-.
  assert (existed = true /\ T w' = T w1) as [-> ET].
  { apply bind_ok_inv in Hrun as ([] & w3 & R3 & Hrun). apply bind_ok_inv in Hrun as ([] & w4 & R4 & Hrun).
    apply bind_ok_inv in Hrun as (t & w5 & R5 & Hrun). injection R5 as _ <-.
    apply bind_ok_inv in Hrun as ([] & w6 & R6 & Hrun). injection Hrun as <- <-.
    apply view_step in R3; [|intros; apply view_deleteProperties; apply _].
    apply view_step in R4; [|intros; apply view_deleteLocks; apply _].
    apply view_step in R6; [|intros; apply view_mark; apply _].
    split; [done|]. injection R3 as E3 _ _. injection R4 as E4 _ _. injection R6 as E6 _ _.
    cbn in E3, E6. congruence. }
  rewrite ET. assert (find (T w1) (cs ++ [c]) = None) as Hn.
  { apply abs_none. rewrite Habs. unfold without. by rewrite decide_True. }
  split_and!; [by exists e| |by apply abs_none|].
  - intros x Hx. rewrite Habs. unfold without. destruct (decide _) as [[k ->]|]; [|done].
    destruct k as [|k0 k]; [by rewrite app_nil_r in Hx|]. symmetry. apply abs_none.
    apply (find_below_file _ _ e); [done|by apply find_spec|done].
  - apply (stat_absent _ cs c); [rewrite ET; apply Hw1|done|by rewrite ET].
Qed.

(** Copying an object to another path puts an object of the same file and size
    there, with the metadata given or else the source's; a stat of the path finds it,
    and nothing else in the tree changes but missing directories above the path. *)
Theorem copy_object_spec source destination meta scond dcond ss s cs c w info w' :
  wf_world w -> denotes source (ss ++ [s]) -> denotes destination (cs ++ [c]) ->
  source <> destination ->
  CopyS3Object source destination meta scond dcond w = (Ok info, w') ->
  exists sinfo, object_at w (ss ++ [s]) sinfo /\
    evaluateS3Condition (Some sinfo) scond = Ok tt /\
    LinkFileId (Link info) = LinkFileId (Link sinfo) /\ FileSize (Link info) = FileSize (Link sinfo) /\
    (exists t, Metadata info = stored_metadata (default (Metadata sinfo) meta) (EntryID (Link info)) t t) /\
    (exists info' w'', StatS3Object destination w' = (Ok info', w'') /\ same_object info' info) /\
    forall x, x <> cs ++ [c] -> abs (T w') x = ensured (T w) cs x.
Proof.
  intros Hw Hs Hd Hne Hrun. unfold CopyS3Object in Hrun. rewrite OnTransation_ok in Hrun.
  apply bind_ok_inv in Hrun as ([sinfo|] & w1 & R1 & Hrun); [|done].
  apply (statTx_ok _ ss s) in R1 as [-> Hsrc]; [|apply Hw|done]. step_ok Hrun. destruct a.
  apply bind_ok_inv in Hrun as (dinfo & w1 & R1 & Hrun).
  apply (statTx_ok _ cs c) in R1 as [-> Hdst]; [|apply Hw|done]. step_ok Hrun.
  rewrite (proj2 (String.eqb_neq _ _) Hne) in Hrun. exists sinfo.
  assert (0 <= LinkFileId (Link sinfo) < 2 ^ 64) as Hf.
  { destruct Hsrc as (e & _ & _ & _ & E & _). by eapply ParseUint_range. }
  enough (placed w w' cs c (LinkFileId (Link sinfo)) (FileSize (Link sinfo)) info /\
    exists t, Metadata info = stored_metadata (default (Metadata sinfo) meta) (EntryID (Link info)) t t)
    as [Hpl Hmeta].
  { destruct (stat_placed _ _ _ _ _ _ _ _ Hd Hpl) as (info' & w2 & Hst & _ & Hsame).
    destruct Hpl as (_ & _ & E1 & E2 & _ & Habs). split_and!; try done; [by exists info', w2|].
    intros x Hx. by rewrite Habs, decide_False. }
  unfold copyDifferentS3ObjectTx in Hrun. apply bind_ok_inv in Hrun as (old & w2 & R2 & Hrun).
  apply (removeReplaced_ok _ cs c) in R2 as [Hw2 Hens]; [|done..].
  apply bind_ok_inv in Hrun as ([] & w3 & R3 & Hrun).
  assert (object_view w3 = object_view w2) as V3.
  { destruct dinfo; [|by injection R3 as <-].
    apply bind_ok_inv in R3 as ([] & w4 & R4 & R3).
    apply view_step in R4; [|intros; apply view_deleteProperties; apply _].
    apply view_step in R3; [|intros; apply view_deleteLocks; apply _]. congruence. }
  apply bind_ok_inv in Hrun as ([] & w4 & R4 & Hrun). apply view_step in R4; [|intros; apply view_ensure; apply _].
  rewrite V3 in R4. pose proof (view_wf _ _ R4 Hw2) as Hw4. injection R4 as ET4 _ _.
  apply bind_ok_inv in Hrun as (ent & w5 & R5 & Hrun).
  apply bind_ok_inv in Hrun as (t & w6 & R6 & Hrun). injection R6 as _ <-. cbv zeta in Hrun.
  apply bind_ok_inv in Hrun as ([] & w7 & R7 & Hrun). apply insertMeta_ok in R7 as (ET7 & Ei7 & Hm).
  apply bind_ok_inv in Hrun as ([] & w8 & R8 & Hrun). apply view_step in R8; [|intros; apply view_copyProperties; apply _].
  apply bind_ok_inv in Hrun as ([] & w9 & R9 & Hrun).
  assert (object_view w9 = object_view w7) as V9.
  { rewrite <- R8. destruct (_ && _); [|by injection R9 as <-].
    apply view_step in R9; [exact R9|intros; apply view_mark; apply _]. }
  injection V9 as ET9 Em9 Ei9.
  step_ok Hrun. injection Hrun as <- <-. split.
  - eapply (placed_intro w w4 w5); try done.
    + intros x Hx. by rewrite ET4, Hens.
    + by rewrite ET9, ET7.
    + by rewrite Ei9, Ei7.
    + cbn [m_entry_id stored_metadata]. rewrite Em9. exact Hm.
  - exists t. cbn [Link Metadata]. apply toLink_ok in Hrun2 as (<- & _). done.
Qed.
End Objects.

(** ** Runs on a concrete tree *)
Section Demo.
#[local] Existing Instances demo_env demo_ids.
#[local] Instance demo_mime : MimeTypes := fun _ d => d.

Definition with_files (rows : list file_row) (w : World) : World :=
  {| db := set_file (fun _ => rows) (db w); ticks := ticks w; ids := ids w |}.
Lemma with_files_wf rows w : wf_world w -> wf_world (with_files rows w).
Proof. intros Hw. by apply (wf_world_same w). Qed.

(** The tree of the directory's demo, with the ready file 77 in the file table. *)
Definition objects_world : World := with_files
  [{| f_id := 1; f_file_id := 77; f_size := 3; f_part_count := 0; f_state := FileStateReady;
      f_ctime := 0; f_mtime := 0; f_extinfo := "{}"; f_layout := 1 |}] demo_world.
Definition demo_meta : s3meta_row := legacyS3Metadata
  {| EntryID := 0; FileName := "x"; LinkFileId := 77; FileSize := 3; Mode := 0; Ctime := 0; Mtime := 0;
     IsDir := false |}.
Definition create_only : S3Condition :=
  {| IfMatch := ""; IfNoneMatch := "*"; IfUnmodifiedSince := None; IfModifiedSince := None |}.

Lemma objects_wf : wf_world objects_world.
Proof. apply with_files_wf, demo_world_wf. Qed.

Definition is_ok {A} (r : outcome A * World) : bool := match r.1 with Ok _ => true | Err _ => false end.
Lemma is_ok_run {A} (r : outcome A * World) : is_ok r = true -> exists a w, r = (Ok a, w).
Proof. destruct r as [[a|e] w]; [by exists a, w|done]. Qed.

Lemma published_ok : exists info w',
  PublishS3Object "/e/f/g" 77 3 demo_meta (Some create_only) objects_world = (Ok info, w').
Proof. apply is_ok_run. vm_compute. reflexivity. Qed.

Lemma publish_then_stat_witness : exists info w' info' w'',
  PublishS3Object "/e/f/g" 77 3 demo_meta (Some create_only) objects_world = (Ok info, w') /\
  StatS3Object "/e/f/g" w' = (Ok info', w'') /\ LinkFileId (Link info') = 77 /\
  abs (T w') ["a"; "b"] = ensured (T objects_world) ["e"; "f"] ["a"; "b"].
Proof.
  destruct published_ok as (info & w' & Hok). pose proof objects_wf as Hw.
  revert Hok Hw. generalize objects_world. intros w Hok Hw. exists info, w'.
  assert (denotes "/e/f/g" (["e"; "f"] ++ ["g"])) as Hd by (by apply (bool_decide_unpack _)).
  destruct (publish_then_stat "/e/f/g" 77 3 demo_meta (Some create_only) ["e"; "f"] "g" w info w'
    Hw Hd ltac:(lia) Hok) as ((info' & w'' & Hst & _ & E2 & _) & E3 & _ & _ & Habs & _).
  exists info', w''. split; [exact Hok|]. split; [exact Hst|]. split; [congruence|].
  apply Habs. discriminate.
Defined.

Lemma deleted_ok : exists w', DeleteS3Object "/a/b" None objects_world = (Ok true, w').
Proof.
  assert ((DeleteS3Object "/a/b" None objects_world).1 = Ok true) as E by (vm_compute; reflexivity).
  revert E. generalize objects_world. intros w E. exists (DeleteS3Object "/a/b" None w).2.
  destruct (DeleteS3Object "/a/b" None w). simpl in E. by subst.
Qed.

Lemma delete_object_spec_witness : exists w',
  DeleteS3Object "/a/b" None objects_world = (Ok true, w') /\ abs (T w') ["a"; "b"] = None /\
  abs (T w') ["a"; "c"; "d"] = abs (T objects_world) ["a"; "c"; "d"].
Proof.
  destruct deleted_ok as (w' & Hok). pose proof objects_wf as Hw.
  revert Hok Hw. generalize objects_world. intros w Hok Hw. exists w'.
  assert (denotes "/a/b" (["a"] ++ ["b"])) as Hd by (by apply (bool_decide_unpack _)).
  destruct (delete_object_spec "/a/b" None ["a"] "b" w true w' Hw Hd Hok) as (_ & Habs & Hn & _).
  split; [exact Hok|]. split; [exact Hn|]. apply Habs. discriminate.
Defined.

Lemma copied_ok : exists info w',
  CopyS3Object "/a/b" "/e/z" None None None objects_world = (Ok info, w').
Proof. apply is_ok_run. vm_compute. reflexivity. Qed.

Lemma copy_object_spec_witness : exists info w' info' w'',
  CopyS3Object "/a/b" "/e/z" None None None objects_world = (Ok info, w') /\
  StatS3Object "/e/z" w' = (Ok info', w'') /\ LinkFileId (Link info') = LinkFileId (Link info).
Proof.
  destruct copied_ok as (info & w' & Hok). pose proof objects_wf as Hw.
  revert Hok Hw. generalize objects_world. intros w Hok Hw. exists info, w'.
  assert (denotes "/a/b" (["a"] ++ ["b"])) as Hs by (by apply (bool_decide_unpack _)).
  assert (denotes "/e/z" (["e"] ++ ["z"])) as Hd by (by apply (bool_decide_unpack _)).
  destruct (copy_object_spec "/a/b" "/e/z" None None None ["a"] "b" ["e"] "z" w info w' Hw Hs Hd
    ltac:(discriminate) Hok)
    as (sinfo & _ & _ & _ & _ & _ & (info' & w'' & Hst & _ & E2 & _) & _).
  exists info', w''. split; [exact Hok|]. split; [exact Hst|exact E2].
Defined.
End Demo.
