(* ===== verification/CompletedPart.v ===== *)
(** * The parts of completed uploads (src/filemgr/s3_completed_part.go)

    A GET or HEAD with a part number reads one part of a finished multipart object
    out of the manifest of its composite file; a listing pages through them. The
    reader of a part is cut at the size of the part. *)

From stdpp Require Import base strings list sorting.
From S2P Require Import Prelude Paging GoStr Base64 Checksum BlockIO FileStream CompositeStream Store.
From S2P Require Import References RefInv Dao FileManager Multipart.

(** ** The reader of a part *)

(** [io.ReadSeekCloser]: [rs_read s n] is [Read] with a buffer of [n] bytes. *)
Class ReadSeekCloser (S : Type) := {
  rs_read : S -> Z -> list Z * option err * S;
  rs_seek : S -> Z -> Z -> Z * option err * S;
  rs_close : S -> option err * S }.

Module PartReader.
Section Reader.
Context {S : Type} `{!ReadSeekCloser S}.

Record boundedPartReader := { source : S; size : Z; offset : Z; open : bool }.

Definition openPart (source : S) (size : Z) : boundedPartReader :=
  {| source := source; size := size; offset := 0; open := true |}.

(** The loop of [Read]; [more] attempts are left. *)
Fixpoint read_attempts (more : nat) (r : boundedPartReader) (n : Z)
    : list Z * option err * boundedPartReader :=
  match more with
  | O => ([], Some ErrUnexpectedEOF, r)
  | Datatypes.S more =>
      let '(bs, e, s) := rs_read (source r) n in
      let r := {| source := s; size := size r; offset := wrap64 (offset r + zlen bs); open := open r |} in
      match e with
      | Some EOF =>
          if offset r =? size r then (bs, None, r)
          else if negb (zlen bs =? 0) then (bs, None, r)
          else read_attempts more r n
      | Some e => (bs, Some e, r)
      | None =>
          if (zlen bs =? 0) && (offset r <? size r) then read_attempts more r n
          else (bs, None, r)
      end
  end.

Definition Read (r : boundedPartReader) (n : Z) : list Z * option err * boundedPartReader :=
  if negb (open r) then ([], Some ErrFileNotOpen, r)
  else if n =? 0 then ([], None, r)
  else if offset r =? size r then ([], Some EOF, r)
  else
    let remaining := wrap64 (size r - offset r) in
    if remaining <? n then
      if remaining <? 0 then ([], Some Panic, r) else read_attempts 2 r remaining
    else read_attempts 2 r n.

(** The rest of [Seek], once the target is known. *)
Definition seek_to (r : boundedPartReader) (target : Z) : Z * option err * boundedPartReader :=
  if target <? 0 then (offset r, Some ErrInvalidOffset, r)
  else if size r <? target then (offset r, Some ErrSeekPastEnd, r)
  else
    let '(actual, e, s) := rs_seek (source r) target SeekStart in
    let r := {| source := s; size := size r; offset := offset r; open := open r |} in
    match e with
    | Some e => (offset r, Some e, r)
    | None =>
        if negb (actual =? target) then (offset r, Some ErrInvalidS3Part, r)
        else (target, None, {| source := s; size := size r; offset := target; open := open r |})
    end.

Definition Seek (r : boundedPartReader) (off whence : Z) : Z * option err * boundedPartReader :=
  if negb (open r) then (0, Some ErrFileNotOpen, r)
  else if whence =? SeekStart then seek_to r off
  else if whence =? SeekCurrent then seek_to r (wrap64 (offset r + off))
  else if whence =? SeekEnd then seek_to r (wrap64 (size r + off))
  else (offset r, Some ErrInvalidOffset, r).

Definition Close (r : boundedPartReader) : option err * boundedPartReader :=
  if negb (open r) then (None, r)
  else
    let '(e, s) := rs_close (source r) in
    (e, {| source := s; size := size r; offset := offset r; open := false |}).

(** [io.ReadAll] on the part, as the handlers copy it. *)
Fixpoint ReadAll (fuel : nat) (sizes : nat -> Z) (r : boundedPartReader) : outcome (list Z) :=
  match fuel with
  | O => Err Diverge
  | Datatypes.S fuel =>
      match Read r (sizes fuel) with
      | (bs, Some EOF, _) => Ok bs
      | (_, Some e, _) => Err e
      | (bs, None, r') => rest ← ReadAll fuel sizes r'; Ok (bs ++ rest)
      end
  end.
End Reader.
Arguments boundedPartReader S : clear implicits.
End PartReader.

(** ** What the reader needs of its source *)

(** [serves c p s]: the source stands at position [p] of the content [c]. A source
    that [may_stall] can answer a call with no bytes and no error, once. *)
Class ServesContent (S : Type) `{!ReadSeekCloser S} := {
  serves : list Z -> Z -> S -> Prop;
  may_stall : S -> bool;
  serves_read : forall c p s n, 0 < n -> serves c p s -> 0 <= p <= zlen c ->
    let '(bs, e, s') := rs_read s n in
    serves c (p + zlen bs) s' /\ zlen bs <= n /\ (exists rest, zdrop p c = bs ++ rest) /\
    (e = None \/ e = Some EOF /\ p + zlen bs = zlen c) /\
    (bs = [] -> p < zlen c -> may_stall s = true /\ may_stall s' = false);
  serves_seek : forall c p s target, serves c p s -> 0 <= target <= zlen c ->
    exists s', rs_seek s target SeekStart = (target, None, s') /\ serves c target s' }.

(** The stream of a physical file is such a source. *)
Section Physical.
Context {B : Type} `{!IBlockIO B} `{!RetryLib} (bkio : B) (b2f : Z -> outcome string).

#[global] Instance physical_reader : ReadSeekCloser FileStream.defaultFsIO :=
  {| rs_read := FileStream.Read bkio b2f; rs_seek := FileStream.Seek;
     rs_close f := (None, FileStream.Close f) |}.

Context `{!BlockStore B}.

Lemma physical_read c p f n :
  0 < n -> FileStream.stored_file bkio b2f c /\ FileStream.stream_ok bkio c f /\ FileStream.cursor f = p ->
  0 <= p <= zlen c ->
  let '(bs, e, f') := rs_read f n in
  (FileStream.stored_file bkio b2f c /\ FileStream.stream_ok bkio c f' /\ FileStream.cursor f' = p + zlen bs) /\
  zlen bs <= n /\ (exists rest, zdrop p c = bs ++ rest) /\
  (e = None \/ e = Some EOF /\ p + zlen bs = zlen c) /\
  (bs = [] -> p < zlen c ->
   (if FileStream.tmpReader f then true else false) = true /\
   (if FileStream.tmpReader f' then true else false) = false).
Proof.
  intros Hn (Hst & Hok & <-) Hp. pose proof (FileStream.Read_ok bkio b2f c Hst f n Hn Hok) as Hpost.
  cbn [rs_read physical_reader]. destruct (FileStream.Read bkio b2f f n) as [[bs e] f'].
  destruct Hpost as (Hok' & Hle & Hs & Hc & Hcat & Hres). destruct Hok as (_ & Hsz & _).
  split_and!; [done..|by eexists| |].
  - destruct Hres as [(-> & -> & Heq)|[-> _]]; [right|by left]. split; [done|].
    unfold zlen at 1. simpl. lia.
  - intros -> Hlt. destruct Hres as [(_ & _ & Heq)|(_ & [Hne|([rc ->] & -> & _)])]; [lia|done|done].
Qed.

#[global] Instance physical_serves : ServesContent FileStream.defaultFsIO.
Proof.
  refine {| serves c p f := FileStream.stored_file bkio b2f c /\ FileStream.stream_ok bkio c f /\
                            FileStream.cursor f = p;
            may_stall f := if FileStream.tmpReader f then true else false |}.
  - apply physical_read.
  - intros c p f target (Hst & Hok & _) Ht.
    pose proof (FileStream.Seek_ok bkio c f target SeekStart Hok) as Hseek.
    change (FileStream.calcOffset f target SeekStart) with target in Hseek.
    cbn [rs_seek physical_reader]. destruct Hok as (_ & Hsz & _).
    destruct (FileStream.Seek f target SeekStart) as [[pos [e|]] f'].
    { destruct Hseek as (_ & _ & _ & [[_ ?]|[_ ?]]); lia. }
    destruct Hseek as (Hok' & _ & -> & _ & Hc). eauto.
Defined.
End Physical.

(** ** Reading a part *)
Module PartReaderFacts.
Import PartReader.
Section Facts.
Context {S : Type} `{!ReadSeekCloser S} `{!ServesContent S}.

(** The reader stands inside its part; the content of the source may go on after
    the part. *)
Record reader_ok (c : list Z) (r : boundedPartReader S) : Prop := {
  ok_open : open r = true;
  ok_size : size r <= zlen c < 2 ^ 63;
  ok_offset : 0 <= offset r <= size r;
  ok_source : serves c (offset r) (source r) }.

Lemma openPart_ok c s sz : serves c 0 s -> 0 <= sz <= zlen c -> zlen c < 2 ^ 63 -> reader_ok c (openPart s sz).
Proof. intros. split; simpl; try done; lia. Qed.

Definition part_of (c : list Z) (r : boundedPartReader S) : list Z := ztake (size r) c.

(** What a read of [n] bytes gives while the part is not exhausted. *)
Definition read_post (c : list Z) (r : boundedPartReader S) (n : Z)
    (res : list Z * option err * boundedPartReader S) : Prop :=
  let '(bs, e, r') := res in
  reader_ok c r' /\ size r' = size r /\ offset r' = offset r + zlen bs /\ e = None /\
  bs <> [] /\ zlen bs <= Z.min n (size r - offset r) /\
  zdrop (offset r) (part_of c r) = bs ++ zdrop (offset r') (part_of c r).

Lemma prefix_of_part (c bs rest : list Z) p sz :
  0 <= p -> p + zlen bs <= sz -> sz <= zlen c -> zdrop p c = bs ++ rest ->
  zdrop p (ztake sz c) = bs ++ zdrop (p + zlen bs) (ztake sz c).
Proof.
  intros Hp Hle Hsz Hcat.
  assert (zdrop p (ztake sz c) = ztake (sz - p) (zdrop p c)) as E.
  { unfold zdrop, ztake. rewrite skipn_firstn_comm. f_equal. lia. }
  assert (zdrop p (ztake sz c) = bs ++ ztake (sz - p - zlen bs) rest) as Hx.
  { rewrite E, Hcat. unfold ztake, zlen in *. rewrite take_app_ge by lia. do 2 f_equal. lia. }
  rewrite Hx at 1. f_equal. eapply zdrop_prefix; [done|exact Hx].
Qed.

Lemma read_attempts_ok more c r n :
  reader_ok c r -> offset r < size r -> 0 < n <= size r - offset r ->
  (more = 2%nat \/ more = 1%nat /\ may_stall (source r) = false) ->
  read_post c r n (read_attempts more r n).
Proof.
  revert r. induction more as [|more IH]; intros r Hok Hlt Hn Hleft; [lia|].
  destruct Hok as [Ho Hs Hoff Hsrc]. cbn [read_attempts].
  pose proof (serves_read c (offset r) (source r) n ltac:(lia) Hsrc ltac:(lia)) as Hread.
  destruct (rs_read (source r) n) as [[bs e] s].
  destruct Hread as (Hsrc' & Hle & [rest Hcat] & He & Hstall).
  pose proof (zlen_nonneg bs) as Hbs. cbn [offset size].
  assert (wrap64 (offset r + zlen bs) = offset r + zlen bs) as -> by (apply wrap64_id; unfold int64; lia).
  set (r' := {| source := s; size := size r; offset := offset r + zlen bs; open := open r |}).
  assert (reader_ok c r') as Hok' by (split; simpl; [done|lia|lia|done]).
  destruct (decide (bs = [])) as [->|Hne].
  { destruct (Hstall eq_refl ltac:(lia)) as [Hst Hst'].
    destruct Hleft as [[= ->]|[_ ?]]; [|congruence].
    assert (zlen (@nil Z) = 0) as Hz by done. destruct He as [->|[-> He]]; [|rewrite Hz in He; lia].
    rewrite Hz. cbn [Z.eqb andb]. destruct (Z.ltb_spec (offset r + 0) (size r)); [|lia].
    specialize (IH r'). unfold read_post in IH |- *.
    assert (offset r' = offset r) as E by (subst r'; simpl; rewrite Hz; lia).
    rewrite !E in IH. change (size r') with (size r) in IH.
    change (part_of c r') with (part_of c r) in IH. subst r'.
    apply IH; [done|lia|lia|by right; split; [lia|]]. }
  assert (0 < zlen bs) as Hpos by (destruct bs; [done|unfold zlen; simpl; lia]).
  assert (read_post c r n (bs, None, r')) as Hpost.
  { split_and!; try done; [lia|]. by eapply prefix_of_part; [lia|lia|lia|]. }
  destruct He as [->|[-> _]].
  - destruct (Z.eqb_spec (zlen bs) 0); [lia|]. done.
  - case_match; [done|]. destruct (Z.eqb_spec (zlen bs) 0); [lia|]. done.
Qed.

Lemma part_read_ok c r n :
  reader_ok c r -> 0 < n ->
  (offset r = size r /\ Read r n = ([], Some EOF, r)) \/
  (offset r < size r /\ read_post c r n (Read r n)).
Proof.
  intros Hok Hn. pose proof Hok as [Ho Hs Hoff Hsrc]. unfold Read. rewrite Ho. cbn [negb].
  destruct (Z.eqb_spec n 0); [lia|]. destruct (Z.eqb_spec (offset r) (size r)); [by left|right].
  split; [lia|]. rewrite wrap64_id by (unfold int64; lia).
  destruct (Z.ltb_spec (size r - offset r) n) as [Hcut|Hcut].
  - destruct (Z.ltb_spec (size r - offset r) 0); [lia|].
    pose proof (read_attempts_ok 2 c r (size r - offset r) Hok ltac:(lia) ltac:(lia) (or_introl eq_refl)) as Hr.
    unfold read_post in *. destruct (read_attempts _ _ _) as [[bs e] r'].
    destruct Hr as (? & ? & ? & ? & ? & ? & ?). split_and!; try done. lia.
  - apply read_attempts_ok; [done|lia|lia|by left].
Qed.

Lemma part_ReadAll_ok fuel sizes c r :
  reader_ok c r -> (forall i, 0 < sizes i) -> size r - offset r < Z.of_nat fuel ->
  ReadAll fuel sizes r = Ok (zdrop (offset r) (part_of c r)).
Proof.
  intros Hok Hsz. revert r Hok. induction fuel as [|fuel IH]; intros r Hok Hfuel.
  { destruct Hok. lia. }
  cbn [ReadAll]. destruct (part_read_ok c r (sizes fuel) Hok (Hsz fuel)) as [[He ->]|[Hlt Hr]].
  { destruct Hok. rewrite zdrop_ge; [done|]. unfold part_of. rewrite zlen_ztake by lia. lia. }
  destruct (Read r (sizes fuel)) as [[bs e] r'].
  destruct Hr as (Hok' & Es & Eo & -> & Hne & Hle & ->).
  assert (0 < zlen bs) by (destruct bs; [done|unfold zlen; simpl; lia]).
  rewrite (IH r' Hok') by lia. cbn. unfold part_of. by rewrite Es.
Qed.

Lemma part_seek_ok c r target :
  reader_ok c r -> 0 <= target <= size r ->
  exists r', Seek r target SeekStart = (target, None, r') /\ reader_ok c r' /\
    offset r' = target /\ size r' = size r.
Proof.
  intros [Ho Hs Hoff Hsrc] Ht. unfold Seek, seek_to. rewrite Ho. cbn.
  destruct (Z.ltb_spec target 0); [lia|]. destruct (Z.ltb_spec (size r) target); [lia|].
  destruct (serves_seek c (offset r) (source r) target Hsrc ltac:(lia)) as (s & -> & Hs').
  rewrite Z.eqb_refl. cbn. eexists. split; [reflexivity|]. split; [|done].
  split; simpl; [done|lia|lia|done].
Qed.

(** A part opened over a source of content [c] delivers, after a seek inside the
    part, exactly the bytes of the part from there on and then [io.EOF], whatever the
    buffer sizes, also when the source goes on after the part; a read that delivers
    nothing is retried, so at most one call per byte and one for the end are made. *)
Theorem part_reader_exact c s sz target sizes fuel :
  serves c 0 s -> 0 <= sz <= zlen c -> zlen c < 2 ^ 63 -> 0 <= target <= sz ->
  (forall i, 0 < sizes i) -> sz - target < Z.of_nat fuel ->
  let '(pos, e, r) := Seek (openPart s sz) target SeekStart in
  pos = target /\ e = None /\ ReadAll fuel sizes r = Ok (zdrop target (ztake sz c)).
Proof.
  intros Hs Hsz Hc Ht Hsizes Hfuel.
  destruct (part_seek_ok c (openPart s sz) target (openPart_ok c s sz Hs Hsz Hc) Ht)
    as (r & -> & Hok & Eo & Es). cbn [size openPart] in Es. split_and!; [done..|].
  rewrite (part_ReadAll_ok fuel sizes c) by (done || lia). unfold part_of. by rewrite Eo, Es.
Qed.
End Facts.

(** ** Any source *)
Section Bounds.
Context {S : Type} `{!ReadSeekCloser S}.

(** What [io.Reader] asks of a source: no more bytes than the buffer holds. *)
Definition honest : Prop := forall (s : S) n, 0 < n ->
  zlen (rs_read s n).1.1 <= n /\ (rs_read s n).1.2 <> Some Panic.

Definition inside (sz : Z) (r : boundedPartReader S) : Prop := size r = sz /\ 0 <= offset r <= sz.

Lemma read_attempts_inside (Hh : honest) sz more r n :
  sz < 2 ^ 63 -> inside sz r -> 0 < n <= sz - offset r ->
  let '(bs, e, r') := read_attempts more r n in
  inside sz r' /\ zlen bs <= n /\ e <> Some Panic.
Proof.
  intros Hsz. revert r. induction more as [|more IH]; intros r [Es Ho] Hn; cbn [read_attempts].
  { split_and!; [by split|unfold zlen; simpl; lia|done]. }
  destruct (Hh (source r) n ltac:(lia)) as [Hle Hp]. destruct (rs_read (source r) n) as [[bs e] s].
  cbn [fst snd] in Hle, Hp. cbn [offset size]. pose proof (zlen_nonneg bs).
  rewrite wrap64_id by (unfold int64; lia).
  assert (inside sz {| source := s; size := size r; offset := offset r + zlen bs; open := open r |}) as Hin
    by (split; simpl; lia).
  destruct e as [e|].
  - destruct (decide (e = EOF)) as [->|Hne].
    + destruct (Z.eqb_spec (offset r + zlen bs) (size r)); [by split_and!|].
      destruct (Z.eqb_spec (zlen bs) 0) as [Hz|]; [|by split_and!].
      apply (IH _ Hin). simpl. lia.
    + destruct e; try done; by split_and!.
  - destruct (Z.eqb_spec (zlen bs) 0) as [Hz|]; [|by split_and!]. cbn [andb].
    destruct (Z.ltb_spec (offset r + zlen bs) (size r)); [|by split_and!]. apply (IH _ Hin). simpl. lia.
Qed.

Lemma Read_inside (Hh : honest) sz r n :
  sz < 2 ^ 63 -> inside sz r -> 0 <= n ->
  let '(bs, e, r') := Read r n in
  inside sz r' /\ zlen bs <= Z.min n (sz - offset r) /\ e <> Some Panic.
Proof.
  intros Hsz [Es Ho] Hn. assert (zlen (@nil Z) <= Z.min n (sz - offset r)) as Hnil by (unfold zlen; simpl; lia).
  unfold Read. destruct (open r); cbn [negb]; [|by split_and!].
  destruct (Z.eqb_spec n 0); [by split_and!|]. destruct (Z.eqb_spec (offset r) (size r)); [by split_and!|].
  rewrite wrap64_id by (unfold int64; lia). rewrite Es.
  destruct (Z.ltb_spec (sz - offset r) n).
  - destruct (Z.ltb_spec (sz - offset r) 0); [lia|].
    pose proof (read_attempts_inside Hh sz 2 r (sz - offset r) Hsz (conj Es Ho) ltac:(lia)) as Hr.
    destruct (read_attempts _ _ _) as [[bs e] r']. rewrite Z.min_r by lia. done.
  - pose proof (read_attempts_inside Hh sz 2 r n Hsz (conj Es Ho) ltac:(lia)) as Hr.
    destruct (read_attempts _ _ _) as [[bs e] r']. by rewrite Z.min_l by lia.
Qed.

Lemma seek_to_inside sz r target : inside sz r -> inside sz (seek_to r target).2.
Proof.
  intros [Es Ho]. unfold seek_to. destruct (Z.ltb_spec target 0); [by split|].
  destruct (Z.ltb_spec (size r) target); [by split|].
  destruct (rs_seek _ _ _) as [[actual e] s]. destruct e; [by split|].
  destruct (negb _); split; simpl; lia.
Qed.

Lemma Seek_inside sz r off whence : inside sz r -> inside sz (Seek r off whence).2.
Proof.
  intros Hr. unfold Seek. destruct (open r); cbn [negb]; [|done].
  destruct (whence =? SeekStart); [by apply seek_to_inside|].
  destruct (whence =? SeekCurrent); [by apply seek_to_inside|].
  by destruct (whence =? SeekEnd); [apply seek_to_inside|].
Qed.

Lemma Close_inside sz r : inside sz r -> inside sz (Close r).2.
Proof. intros [Es Ho]. unfold Close. destruct (open r); [|by split]. by destruct (rs_close _); split. Qed.

(** The calls a client makes. *)
Inductive call := CallRead (n : Z) | CallSeek (off whence : Z) | CallClose.
Definition run_call (r : boundedPartReader S) (c : call) : boundedPartReader S :=
  match c with
  | CallRead n => (Read r n).2
  | CallSeek off whence => (Seek r off whence).2
  | CallClose => (Close r).2
  end.
Definition legal (c : call) : Prop := match c with CallRead n => 0 <= n | _ => True end.

(** Whatever a client calls and whatever an honest source answers, the reader of
    a part stays inside the part, a read never delivers more than is left of it, and
    cutting the buffer to the rest never panics. *)
Theorem part_reader_bounded sz s calls n :
  honest -> 0 <= sz < 2 ^ 63 -> Forall legal calls -> 0 <= n ->
  let r := foldl run_call (openPart s sz) calls in
  0 <= offset r <= sz /\
  zlen (Read r n).1.1 <= Z.min n (sz - offset r) /\ (Read r n).1.2 <> Some Panic.
Proof.
  intros Hh Hsz Hcalls Hn r. assert (inside sz r) as Hin.
  { subst r. assert (inside sz (openPart s sz)) as H0 by (split; simpl; lia). revert H0.
    generalize (openPart s sz). induction Hcalls as [|c calls Hc _ IH]; intros r H0; [done|].
    apply IH. destruct c; simpl.
    - pose proof (Read_inside Hh sz r n0 ltac:(lia) H0 Hc) as Hr. by destruct (Read r n0) as [[? ?] ?], Hr.
    - by apply Seek_inside.
    - by apply Close_inside. }
  pose proof (Read_inside Hh sz r n ltac:(lia) Hin Hn) as Hr. destruct (Read r n) as [[bs e] r'].
  destruct Hr as (_ & Hle & Hp). split; [apply Hin|done].
Qed.
End Bounds.

(** ** A run *)
Section Demo.
Notation st := (FileStream.demo_store [("k", [1; 2; 3; 4]); ("uk", [5; 6])]).
#[local] Instance demo_reader : ReadSeekCloser FileStream.defaultFsIO := physical_reader st FileStream.demo_keys.
#[local] Instance demo_serves : ServesContent FileStream.defaultFsIO := physical_serves st FileStream.demo_keys.

(** A part of five bytes over a file of six, in blocks of four. *)
Lemma part_reader_exact_witness :
  let '(pos, e, r) := Seek (openPart (FileStream.newFileStream 6) 5) 3 SeekStart in
  pos = 3 /\ e = None /\ ReadAll 9 (fun _ => 2) r = Ok [4; 5].
Proof.
  assert (FileStream.stored_file st FileStream.demo_keys [1; 2; 3; 4; 5; 6]) as Hst.
  { split; [apply FileStream.demo_store_inv|]. split; [done|]. split; [done|].
    intros i Hi Hlt. change (MaxFileSize _) with 4 in *. change (zlen _) with 6 in Hlt.
    assert (i = 0 \/ i = 1) as [-> | ->] by lia; eexists; split; reflexivity. }
  apply (part_reader_exact [1; 2; 3; 4; 5; 6] (FileStream.newFileStream 6) 5 3 (fun _ => 2) 9).
  - split; [exact Hst|]. split; [exact (FileStream.newFileStream_ok st [1; 2; 3; 4; 5; 6])|reflexivity].
  - split; [lia|vm_compute; discriminate].
  - vm_compute. reflexivity.
  - lia.
  - intros i. lia.
  - lia.
Defined.

(** A source that ignores its buffer's end is not honest; one that fills it is. *)
#[local] Instance endless : ReadSeekCloser unit :=
  {| rs_read _ n := (replicate (Z.to_nat n) 7, None, tt); rs_seek _ off _ := (off, None, tt); rs_close _ := (None, tt) |}.

Lemma part_reader_bounded_witness :
  let r := foldl run_call (openPart tt 5) [CallRead 3; CallSeek (-1) SeekEnd] in
  0 <= offset r <= 5 /\ zlen (Read r 8).1.1 <= Z.min 8 (5 - offset r) /\ (Read r 8).1.2 <> Some Panic.
Proof.
  apply (part_reader_bounded 5 tt [CallRead 3; CallSeek (-1) SeekEnd] 8).
  - intros s n Hn. split; [|discriminate]. unfold zlen. cbn. rewrite length_replicate. lia.
  - lia.
  - repeat constructor; cbn; lia.
  - lia.
Defined.
End Demo.
End PartReaderFacts.

(** ** The manifest *)
Module CompletedPart.
Import References Multipart.

Definition completedPartChecksumAvailable : string := "available".
Definition completedPartChecksumUnavailable : string := "unavailable".

Record completedManifestSummary := { isMultipart : bool; partsCount : Z }.

(** entity.S3CompletedPart *)
Record S3CompletedPart := {
  scFileID : Z; scPartNumber : Z; scPartSize : Z; scStartOffset : Z; scPartsCount : Z;
  scSourceFileID : Z; scIsMultipart : bool; scChecksumState : string;
  scChecksumAlgorithm : string; scChecksumValue : string }.

(** filemgr.S3ObjectPartPage *)
Record S3ObjectPartPage := {
  pgParts : list S3CompletedPart; pgPartsCount : Z; pgPartNumberMarker : Z;
  pgNextPartNumberMarker : Z; pgMaxParts : Z; pgIsTruncated : bool; pgIsMultipart : bool }.

Definition checksum_state (c : completed_row) : string :=
  if cp_available c then completedPartChecksumAvailable else completedPartChecksumUnavailable.

(** The completed parts that join a segment. *)
Definition completed_of (d : DB) (s : segment_row) : list completed_row :=
  sql_select (fun c => (cp_file_id c =? sg_file_id s) && (cp_number c =? sg_index s + 1)) (t_completed d).

(** [COALESCE((SELECT SUM(previous.segment_size) ...), 0)] *)
Definition previous_size (d : DB) (s : segment_row) : Z :=
  sumZ (sg_size <$> sql_select (fun p => (sg_file_id p =? sg_file_id s) && (sg_index p <? sg_index s))
                               (t_segment d)).

(** The segments with their completed parts: the inner join of the two queries. *)
Definition part_rows (d : DB) (segments : list segment_row) : list (segment_row * completed_row) :=
  flat_map (fun s => map (fun c => (s, c)) (completed_of d s)) segments.

Definition scan_part (d : DB) (fileID count : Z) (row : segment_row * completed_row) : S3CompletedPart :=
  {| scFileID := fileID; scPartNumber := sg_index row.1 + 1; scPartSize := sg_size row.1;
     scStartOffset := previous_size d row.1; scPartsCount := count; scSourceFileID := sg_source row.1;
     scIsMultipart := true; scChecksumState := checksum_state row.2;
     scChecksumAlgorithm := cp_algorithm row.2; scChecksumValue := cp_value row.2 |}.

(** The rows of the aggregate query of [validateCompositeCompletedManifest]. *)
Definition joined_rows (d : DB) (fileID : Z)
    : list (segment_row * option file_row * option completed_row) :=
  flat_map (fun s => flat_map (fun src => map (fun part => (s, src, part)) (left_join (completed_of d s)))
                              (left_join (file_rows d (sg_source s))))
           (sql_select (fun s => sg_file_id s =? fileID) (t_segment d)).

Definition invalid_row (row : segment_row * option file_row * option completed_row) : bool :=
  let '(s, src, part) := row in
  match src with
  | None => true
  | Some f => negb (f_state f =? FileStateReady) || negb (f_layout f =? 1) || negb (f_size f =? sg_size s)
  end ||
  match part with None => true | Some c => negb (cp_size c =? sg_size s) end.

(** [MIN] and [MAX] of a column, NULL on no row. *)
Definition sql_min (l : list Z) : option Z :=
  match l with [] => None | x :: l => Some (foldl Z.min x l) end.
Definition sql_max (l : list Z) : option Z :=
  match l with [] => None | x :: l => Some (foldl Z.max x l) end.

Lemma foldl_max_ge x l : x <= foldl Z.max x l /\ forall y, y ∈ l -> y <= foldl Z.max x l.
Proof.
  revert x. induction l as [|z l IH]; intros x; cbn; [split; [lia|by intros y ?%elem_of_nil]|].
  destruct (IH (Z.max x z)) as [H1 H2]. split; [lia|]. intros y [->|Hy]%elem_of_cons; [lia|by apply H2].
Qed.

Lemma sql_max_ge l m x : sql_max l = Some m -> x ∈ l -> x <= m.
Proof.
  destruct l as [|y l]; [done|]. intros [= <-]. destruct (foldl_max_ge y l).
  intros [->|Hx]%elem_of_cons; auto.
Qed.

Section CompletedPart.
Context `{!Env} `{!FileCodec} `{!Sha}.

Definition validateCompletedPartRecord (part : S3CompletedPart) (objectSize : Z) : outcome unit :=
  if (scPartNumber part <? 1) || (scPartsCount part <? scPartNumber part) ||
     (scSourceFileID part =? 0) || (scPartSize part <? 0) || (scStartOffset part <? 0) ||
     (wrap64 (objectSize - scPartSize part) <? scStartOffset part)
  then Err ErrInvalidS3Part
  else if String.eqb (scChecksumState part) completedPartChecksumUnavailable then
    if nonempty (scChecksumAlgorithm part) || nonempty (scChecksumValue part)
    then Err ErrInvalidS3Part else Ok tt
  else if String.eqb (scChecksumState part) completedPartChecksumAvailable then
    match Checksum.ParseAlgorithm (scChecksumAlgorithm part) with
    | Err _ => Err ErrInvalidS3Part
    | Ok algorithm =>
        match Checksum.Decode sha1 sha256 algorithm (scChecksumValue part) with
        | Err _ => Err ErrInvalidS3Part
        | Ok _ => Ok tt
        end
    end
  else Err ErrInvalidS3Part.

Definition validateCompositeCompletedManifest (fileID objectSize : Z)
    : M World completedManifestSummary :=
  d ← query id;
  let rows := joined_rows d fileID in
  let segments := (fun r => r.1.1) <$> rows in
  let segmentCount := zlen rows in
  let minimumIndex := sql_min (sg_index <$> segments) in
  let maximumIndex := sql_max (sg_index <$> segments) in
  let totalSize := sumZ (sg_size <$> segments) in
  let invalidRows := sql_count invalid_row rows in
  let completedCount := sql_count (fun c => cp_file_id c =? fileID) (t_completed d) in
  let orphanParts := sql_count (fun c => (cp_file_id c =? fileID) &&
        negb (sql_exists (fun s => (sg_file_id s =? cp_file_id c) && (sg_index s + 1 =? cp_number c))
                         (t_segment d))) (t_completed d) in
  if (segmentCount <? 1) || (maxS3MultipartParts <? segmentCount) ||
     negb (bool_decide (minimumIndex = Some 0)) ||
     negb (bool_decide (maximumIndex = Some (segmentCount - 1))) ||
     negb (totalSize =? objectSize) || negb (invalidRows =? 0) ||
     negb (completedCount =? segmentCount) || negb (orphanParts =? 0)
  then fail ErrInvalidS3Part
  else mret {| isMultipart := true; partsCount := segmentCount |}.

Definition validateCompletedManifest (fileID objectSize : Z) : M World completedManifestSummary :=
  file ← FileManager.internalGetFileInfo fileID;
  match file with
  | None => fail ErrInvalidS3Part
  | Some file =>
      if negb (f_state file =? FileStateReady) || negb (f_size file =? objectSize)
      then fail ErrInvalidS3Part
      else if f_layout file =? 1 then
        segmentCount ← query (fun d => sql_count (fun s => sg_file_id s =? fileID) (t_segment d));
        completedCount ← query (fun d => sql_count (fun c => cp_file_id c =? fileID) (t_completed d));
        if negb (segmentCount =? 0) || negb (completedCount =? 0) then fail ErrInvalidS3Part
        else mret {| isMultipart := false; partsCount := 1 |}
      else if f_layout file =? 2 then validateCompositeCompletedManifest fileID objectSize
      else fail ErrInvalidS3Part
  end.

Definition readCompletedPart (fileID objectSize partNumber count : Z) : M World S3CompletedPart :=
  d ← query id;
  let rows := part_rows d (sql_select (fun s => (sg_file_id s =? fileID) && (sg_index s =? partNumber - 1))
                                      (t_segment d)) in
  match head rows with
  | None => fail ErrInvalidS3Part
  | Some row =>
      let scanned := scan_part d fileID count row in
      let part := {| scFileID := fileID; scPartNumber := partNumber; scPartSize := scPartSize scanned;
                     scStartOffset := scStartOffset scanned; scPartsCount := count;
                     scSourceFileID := scSourceFileID scanned; scIsMultipart := true;
                     scChecksumState := scChecksumState scanned;
                     scChecksumAlgorithm := scChecksumAlgorithm scanned;
                     scChecksumValue := scChecksumValue scanned |} in
      _ ← lift (validateCompletedPartRecord part objectSize);
      mret part
  end.

Definition StatS3ObjectPart (fileID objectSize partNumber : Z) : M World S3CompletedPart :=
  _ ← check ((partNumber <? 1) || (maxS3MultipartParts <? partNumber)) ErrInvalidS3Part;
  summary ← validateCompletedManifest fileID objectSize;
  _ ← check (partsCount summary <? partNumber) ErrS3PartNotFound;
  if negb (isMultipart summary) then
    mret {| scFileID := fileID; scPartNumber := 1; scPartSize := objectSize; scStartOffset := 0;
            scPartsCount := 1; scSourceFileID := fileID; scIsMultipart := false; scChecksumState := "";
            scChecksumAlgorithm := ""; scChecksumValue := "" |}
  else readCompletedPart fileID objectSize partNumber (partsCount summary).

(** The stream that is cut to the part, and the size it is cut to. *)
Definition OpenS3ObjectPart (part : option S3CompletedPart) : M World (FileManager.stream * Z) :=
  match part with
  | None => fail ErrInvalidS3Part
  | Some part =>
      _ ← check ((scSourceFileID part =? 0) || (scPartSize part <? 0)) ErrInvalidS3Part;
      source ← FileManager.OpenFile (scSourceFileID part);
      mret (source, scPartSize part)
  end.

Definition readCompletedPartPage (fileID objectSize count marker limit : Z)
    : M World (list S3CompletedPart) :=
  d ← query id;
  let rows := ztake limit (part_rows d (order_by by_index (sql_select (fun s =>
                (sg_file_id s =? fileID) && (marker <? sg_index s + 1)) (t_segment d)))) in
  fold_each (fun parts row =>
    let part := scan_part d fileID count row in
    _ ← lift (validateCompletedPartRecord part objectSize);
    mret (parts ++ [part])) [] rows.

Definition ListS3ObjectParts (fileID objectSize marker maxParts : Z) : M World S3ObjectPartPage :=
  _ ← check ((marker <? 0) || (maxS3MultipartParts <? marker) || (maxParts <? 0) || (1000 <? maxParts))
        ErrInvalidS3Part;
  summary ← validateCompletedManifest fileID objectSize;
  let page parts next truncated :=
    {| pgParts := parts; pgPartsCount := partsCount summary; pgPartNumberMarker := marker;
       pgNextPartNumberMarker := next; pgMaxParts := maxParts; pgIsTruncated := truncated;
       pgIsMultipart := isMultipart summary |} in
  if negb (isMultipart summary) || (maxParts =? 0) then mret (page [] 0 false)
  else
    parts ← readCompletedPartPage fileID objectSize (partsCount summary) marker (maxParts + 1);
    if maxParts <? zlen parts then
      let parts := ztake maxParts parts in
      match last parts with
      | None => fail Panic
      | Some p => mret (page parts (scPartNumber p) true)
      end
    else mret (page parts 0 false).
End CompletedPart.
End CompletedPart.
