(* ===== verification/WebDAV.v ===== *)
(** * The WebDAV protocol (src/filemgr/webdav_protocol.go)

    Conditional requests, locks, dead properties, quotas and the change journal on top
    of the directory tree. Every mutation first removes expired locks, in a transaction
    of its own, and then runs in one transaction that checks conditions and locks before
    it writes. The recursive queries walk the tree level by level, as SQLite does, with
    fuel for one level per row. *)

From stdpp Require Import base strings list.
From Stdlib Require Import Ascii.
From S2P Require Import Prelude GoStr SqlText BlockIO Store Directory References Dao Mutation S3Object.
From S2P Require Import CompletedPart FileManager.
Import References Mutation FileMappingDao.

Module WebDAV.
Import S3Object (TrimSpace, TrimPrefix, HasPrefix, quoted, extension, milli_seconds, nano_seconds,
  defaultS3CacheControl, insertS3Metadata, deleteS3Metadata).

Definition webDAVLockDepthZero : string := "0".
Definition webDAVLockDepthInfinity : string := "infinity".
Definition maxWebDAVPropertySize : Z := 1048576.

(** ** Requests *)
Record WebDAVIfTerm := { Not_ : bool; LockToken : string; TermETag : string }.
Record WebDAVIfList := { Resource : string; Terms : list WebDAVIfTerm }.

(** Times are Unix nanoseconds; [IfHeader] is [WebDAVIfHeader.Lists]. *)
Record WebDAVCondition := {
  IfMatch : string; IfNoneMatch : string;
  IfModifiedSince : option Z; IfUnmodifiedSince : option Z;
  IfHeader : option (list WebDAVIfList); RequestPath : string }.

Record WebDAVMutationOptions := {
  Principal : string; Condition : option WebDAVCondition; MaxEntries : Z;
  QuotaRoot : string; QuotaBytes : Z }.

Record WebDAVProperty := { Namespace : string; LocalName : string; ValueXML : string }.
Record WebDAVPropertyPatch := { Set_ : bool; Property : WebDAVProperty }.

(** [Timeout] in milliseconds. *)
Record WebDAVLockRequest := {
  LockPath : string; Depth : string; OwnerXML : string; LockPrincipal : string; Timeout : Z }.

Record WebDAVChangePage := { Changes : list change_row; SyncRevision : Z; PageHasMore : bool }.

(** ** Conditions *)

(** [fmt.Sprintf("%d", n)] *)
Definition FormatInt (n : Z) : string := if n <? 0 then "-" +:+ FormatUint (- n) else FormatUint n.

Definition etag_of (fileID size : Z) : string := quoted (FormatUint fileID +:+ "-" +:+ FormatInt size).

Definition WebDAVETag (link : option FileLinkMeta) : string :=
  match link with
  | None => ""
  | Some link => if IsDir link then "" else etag_of (LinkFileId link) (FileMappingDao.FileSize link)
  end.

Definition webDAVETagListContains (value etag : string) (weak : bool) : bool :=
  if String.eqb value "*" then true
  else
    let etag := if weak then TrimPrefix etag "W/" else etag in
    existsb (fun candidate =>
      let candidate := TrimSpace candidate in
      let candidate := if weak then TrimPrefix candidate "W/" else candidate in
      String.eqb candidate etag) (split_on ","%char value).

Definition nonempty (s : string) : bool := negb (String.eqb s "").

Definition evaluateWebDAVETagCondition (etag : string) (exists_ : bool) (c : WebDAVCondition) : outcome unit :=
  if nonempty (IfMatch c) && (negb exists_ || negb (webDAVETagListContains (IfMatch c) etag false))
  then Err ErrWebDAVPrecondition
  else if nonempty (IfNoneMatch c) && exists_ &&
          (String.eqb (IfNoneMatch c) "*" || webDAVETagListContains (IfNoneMatch c) etag true)
  then Err ErrWebDAVPrecondition
  else Ok tt.

(** [link] is there when the resource exists. *)
Definition evaluateWebDAVTimeCondition (link : option FileLinkMeta) (c : WebDAVCondition) : outcome unit :=
  match link with
  | None => Ok tt
  | Some link =>
      let modified := milli_seconds (FileMappingDao.Mtime link) in
      if String.eqb (IfMatch c) "" &&
         match IfUnmodifiedSince c with Some t => nano_seconds t <? modified | None => false end
      then Err ErrWebDAVPrecondition
      else if String.eqb (IfNoneMatch c) "" &&
         match IfModifiedSince c with Some t => negb (nano_seconds t <? modified) | None => false end
      then Err ErrWebDAVPrecondition
      else Ok tt
  end.

Definition evaluateWebDAVCondition (link : option FileLinkMeta) (condition : option WebDAVCondition)
    : outcome unit :=
  match condition with
  | None => Ok tt
  | Some c =>
      _ ← evaluateWebDAVETagCondition (WebDAVETag link) (bool_decide (is_Some link)) c;
      evaluateWebDAVTimeCondition link c
  end.

Definition webDAVEntryToLink (resourcePath : string) (entry : directoryEntryTab) : outcome FileLinkMeta :=
  fileID ← (if Directory.IsDir entry then Ok 0 else ParseUint (RefData_ entry));
  Ok {| EntryID := EntryId_ entry; FileName := path_base resourcePath; LinkFileId := fileID;
        FileMappingDao.FileSize := FileSize_ entry; Mode := FileMode_ entry;
        FileMappingDao.Ctime := Ctime_ entry; FileMappingDao.Mtime := Mtime_ entry;
        IsDir := Directory.IsDir entry |}.

(** ** The If header *)

Definition webDAVIfTermSatisfied (term : WebDAVIfTerm) (etag : string) (locks : list lock_row) : bool :=
  let satisfied :=
    if nonempty (LockToken term) then existsb (fun l => String.eqb (lk_token l) (LockToken term)) locks
    else if nonempty (TermETag term) then webDAVETagListContains (TermETag term) etag true
    else false in
  if Not_ term then negb satisfied else satisfied.

Definition webDAVIfListSatisfied (l : WebDAVIfList) (etag : string) (locks : list lock_row) : bool :=
  forallb (fun term => webDAVIfTermSatisfied term etag locks) (Terms l).

Definition webDAVIfListApplies (l : WebDAVIfList) (requestPath resourcePath : string) : bool :=
  let target := if nonempty (Resource l) then path_clean (Resource l) else requestPath in
  String.eqb target resourcePath.

Definition webDAVIfHeaderAllows (condition : option WebDAVCondition) (resourcePath etag : string)
    (locks : list lock_row) : bool :=
  match condition with
  | None => false
  | Some c =>
      match IfHeader c with
      | None => false
      | Some lists =>
          existsb (fun l => webDAVIfListApplies l (path_clean (RequestPath c)) (path_clean resourcePath) &&
                            webDAVIfListSatisfied l etag locks) lists
      end
  end.

Definition hasApplicableWebDAVIfList (condition : option WebDAVCondition) (resourcePath : string) : bool :=
  match condition with
  | None => false
  | Some c =>
      match IfHeader c with
      | None => false
      | Some lists =>
          existsb (fun l => webDAVIfListApplies l (path_clean (RequestPath c)) (path_clean resourcePath)) lists
      end
  end.

(** ** Recursive queries *)

(** [full_path] of a child. *)
Definition child_path (parent name : string) : string :=
  if String.eqb parent "/" then "/" +:+ name else parent +:+ "/" +:+ name.

(** The rows below a level of rows, with their paths; a cycle would not end. *)
Fixpoint walk_levels (fuel : nat) (t : list directoryEntryTab) (level : list (directoryEntryTab * string))
    : outcome (list (directoryEntryTab * string)) :=
  match level with
  | [] => Ok []
  | _ =>
      match fuel with
      | O => Err Diverge
      | S fuel =>
          rest ← walk_levels fuel t (flat_map (fun rp => map (fun c => (c, child_path rp.2 (FileName_ c)))
                   (sql_select (fun c => ParentEntryId_ c =? EntryId_ rp.1) t)) level);
          Ok (level ++ rest)
      end
  end.

Definition tree_from (d : DB) (start : directoryEntryTab -> bool) : outcome (list (directoryEntryTab * string)) :=
  walk_levels (S (length (t_mapping d))) (t_mapping d)
    (map (fun r => (r, "/")) (sql_select start (t_mapping d))).

Definition is_root_row (r : directoryEntryTab) : bool :=
  (ParentEntryId_ r =? 0) && String.eqb (FileName_ r) "/".

(** The row with a full path. *)
Definition row_by_path (d : DB) (p : string) : outcome (option directoryEntryTab) :=
  rows ← tree_from d is_root_row;
  Ok (head (map fst (List.filter (fun rp => String.eqb rp.2 p) rows))).

Definition subtree (d : DB) (entryID : Z) : outcome (list directoryEntryTab) :=
  rows ← tree_from d (fun r => EntryId_ r =? entryID); Ok (map fst rows).

Section WebDAV.
Context `{!Env} `{!S3Object.MimeTypes}.

Definition queryWebDAVETagByPath (resourcePath : string) : M World string :=
  d ← query id;
  row ← lift (row_by_path d (path_clean resourcePath));
  match row with
  | None => mret ""
  | Some r =>
      if negb (FileKind_ r =? 2) then mret ""
      else fileID ← lift (ParseUint (RefData_ r)); mret (etag_of fileID (FileSize_ r))
  end.

(** ** Queries on locks *)

Definition by_root (a b : lock_row) : bool := String.leb (lk_root_path a) (lk_root_path b).

(** The locks on a path or, with infinite depth, on a path above it. *)
Definition applicable (p : string) (l : lock_row) : bool :=
  String.eqb (lk_root_path l) p ||
  (lk_infinity l && ((String.eqb (lk_root_path l) "/" && like None "/%" p) ||
                     like None (lk_root_path l +:+ "/%") p)).

(** Those, and the locks below the path. *)
Definition overlapping (p : string) (l : lock_row) : bool :=
  applicable p l || like (Some backslash) (escapeSQLiteLike (p +:+ "/") +:+ "%") (lk_root_path l).

Definition queryApplicableWebDAVLocks (resourcePath : string) : M World (list lock_row) :=
  t ← now;
  query (fun d => order_by by_root (sql_select (fun l =>
    (t <? lk_expires_at l) && applicable (path_clean resourcePath) l) (t_lock d))).

Definition queryOverlappingWebDAVLocks (resourcePath : string) : M World (list lock_row) :=
  t ← now;
  query (fun d => order_by by_root (sql_select (fun l =>
    (t <? lk_expires_at l) && overlapping (path_clean resourcePath) l) (t_lock d))).

Definition queryWebDAVLockByToken (token : string) : M World (option lock_row) :=
  t ← now;
  query (fun d => head (sql_select (fun l => String.eqb (lk_token l) token && (t <? lk_expires_at l)) (t_lock d))).

Definition assertWebDAVLocksTx (paths : list string) (condition : option WebDAVCondition) : M World unit :=
  for_each (fun resourcePath =>
    locks ← queryApplicableWebDAVLocks resourcePath;
    match locks with
    | [] =>
        if negb (hasApplicableWebDAVIfList condition resourcePath) then mret tt
        else
          etag ← queryWebDAVETagByPath resourcePath;
          check (negb (webDAVIfHeaderAllows condition resourcePath etag [])) ErrWebDAVPrecondition
    | _ =>
        etag ← queryWebDAVETagByPath resourcePath;
        for_each (fun lock =>
          check (negb (webDAVIfHeaderAllows condition resourcePath etag [lock])) ErrWebDAVLocked) locks
    end) paths.

Definition assertWebDAVTreeLocksTx (paths : list string) (condition : option WebDAVCondition) : M World unit :=
  for_each (fun resourcePath =>
    locks ← queryOverlappingWebDAVLocks resourcePath;
    etag ← queryWebDAVETagByPath resourcePath;
    _ ← for_each (fun lock =>
          check (negb (webDAVIfHeaderAllows condition resourcePath etag [lock])) ErrWebDAVLocked) locks;
    check (bool_decide (locks = []) && hasApplicableWebDAVIfList condition resourcePath &&
           negb (webDAVIfHeaderAllows condition resourcePath etag [])) ErrWebDAVPrecondition) paths.

Definition assertNoConflictingWebDAVLockTx (resourcePath depth : string) : M World unit :=
  locks ← (if String.eqb depth webDAVLockDepthInfinity then queryOverlappingWebDAVLocks resourcePath
           else queryApplicableWebDAVLocks resourcePath);
  check (negb (bool_decide (locks = []))) ErrWebDAVLocked.

Definition link_of (resourcePath : string) (entry : option directoryEntryTab) : outcome (option FileLinkMeta) :=
  match entry with
  | None => Ok None
  | Some entry => link ← webDAVEntryToLink resourcePath entry; Ok (Some link)
  end.

Definition evaluateFirstWebDAVConditionTx (paths : list string) (condition : option WebDAVCondition)
    : M World unit :=
  match paths with
  | [] => mret tt
  | p :: _ =>
      entry ← Directory.Tx.Stat p;
      link ← lift (link_of p entry);
      lift (evaluateWebDAVCondition link condition)
  end.

Definition assertWebDAVConditionsTx (paths : list string) (condition : option WebDAVCondition) : M World unit :=
  _ ← evaluateFirstWebDAVConditionTx paths condition;
  assertWebDAVLocksTx paths condition.

Definition ensureWebDAVParentTx (resourcePath : string) : M World unit :=
  parent ← Directory.Tx.Stat (path_dir (path_clean resourcePath));
  match parent with
  | None => fail ErrParentNotFound
  | Some parent => check (negb (Directory.IsDir parent)) ErrPathComponentNotDirectory
  end.

(** ** Expired locks *)

Definition delete_lock (token : string) : M World unit :=
  upd (set_lock (sql_delete (fun l => String.eqb (lk_token l) token))).

Definition cleanupExpiredWebDAVLocks : M World unit :=
  OnTransation (
    t ← now;
    expired ← query (fun d => order_by (fun a b => lk_expires_at a <=? lk_expires_at b)
                (sql_select (fun l => lk_expires_at l <=? t) (t_lock d)));
    for_each (fun lock =>
      _ ← delete_lock (lk_token lock);
      if negb (lk_null lock) then mret tt
      else
        entry ← Directory.Tx.Stat (lk_root_path lock);
        match entry with
        | None => mret tt
        | Some entry =>
            if negb (EntryId_ entry =? lk_root_entry_id lock) then mret tt
            else
              removed ← Directory.Tx.Remove (lk_root_path lock);
              finalizeRemovedWebDAVEntries removed
        end) expired).

(** ** Limits *)

Definition enforceWebDAVMutationLimitTx (rootEntryID limit : Z) : M World unit :=
  if limit <=? 0 then mret tt
  else
    d ← query id;
    rows ← lift (subtree d rootEntryID);
    check (limit <? zlen rows) ErrWebDAVTooManyItems.

Definition queryWebDAVRootEntryID (root : string) : M World Z :=
  let root := path_clean root in
  d ← query id;
  row ← (if String.eqb root "/" then mret (head (sql_select is_root_row (t_mapping d)))
         else lift (row_by_path d root));
  match row with None => fail ErrNotExist | Some r => mret (EntryId_ r) end.

Definition is_file_row (r : directoryEntryTab) : bool := FileKind_ r =? 2.

(** [SELECT ref_data, MAX(file_size) ... GROUP BY ref_data], and its sum. *)
Definition largest (ref : string) (rows : list directoryEntryTab) : Z :=
  default 0 (CompletedPart.sql_max (FileSize_ <$> List.filter (fun r => String.eqb (RefData_ r) ref) rows)).
Definition unique_size (rows : list directoryEntryTab) : Z :=
  let files := List.filter is_file_row rows in
  sumZ ((fun ref => largest ref files) <$> remove_dups (RefData_ <$> files)).

Definition queryWebDAVQuotaUsed (root : string) : M World Z :=
  entryID ← queryWebDAVRootEntryID root;
  d ← query id;
  rows ← lift (subtree d entryID);
  mret (unique_size rows).

Definition webDAVFileReferenceCountUnderRoot (root : string) (fileID : Z) : M World Z :=
  entryID ← queryWebDAVRootEntryID root;
  d ← query id;
  rows ← lift (subtree d entryID);
  mret (sql_count (fun r => is_file_row r && String.eqb (RefData_ r) (FormatUint fileID)) rows).

Definition webDAVFileReferencedUnderRoot (root : string) (fileID : Z) : M World bool :=
  count ← webDAVFileReferenceCountUnderRoot root fileID; mret (negb (count =? 0)).

Definition enforceWebDAVQuotaTx (root : string) (limit : Z) (current : option FileLinkMeta)
    (newFileID newSize : Z) : M World unit :=
  if limit <=? 0 then mret tt
  else
    used ← queryWebDAVQuotaUsed root;
    newReferenced ← webDAVFileReferencedUnderRoot root newFileID;
    let projected := if (newReferenced : bool) then used else wrap64 (used + newSize) in
    projected ← match current with
      | Some current =>
          if negb (IsDir current) && negb (LinkFileId current =? newFileID) then
            oldReferenceCount ← webDAVFileReferenceCountUnderRoot root (LinkFileId current);
            mret (if oldReferenceCount =? 1 then wrap64 (projected - FileMappingDao.FileSize current) else projected)
          else mret projected
      | None => mret projected
      end;
    check (limit <? projected) ErrWebDAVQuota.

Definition WebDAVQuota (root : string) (limit : Z) : M World (Z * Z) :=
  used ← queryWebDAVQuotaUsed root;
  mret (used, Z.max 0 (wrap64 (limit - used))).

(** ** Creating and publishing *)

Definition createWebDAVCollectionTx (resourcePath : string) (options : WebDAVMutationOptions) : M World bool :=
  _ ← assertWebDAVConditionsTx [resourcePath] (Condition options);
  entry ← Directory.Tx.Stat resourcePath;
  _ ← check (bool_decide (is_Some entry)) ErrExist;
  _ ← Directory.Tx.Mkdir resourcePath;
  mret true.

Definition CreateWebDAVCollection (resourcePath : string) (options : WebDAVMutationOptions) : M World bool :=
  _ ← cleanupExpiredWebDAVLocks;
  OnTransation (createWebDAVCollectionTx resourcePath options).

(** Whether the target exists. *)
Definition prepareWebDAVPublishTx (resourcePath : string) (fileID size : Z) (options : WebDAVMutationOptions)
    : M World bool :=
  currentEntry ← Directory.Tx.Stat resourcePath;
  currentLink ← lift (link_of resourcePath currentEntry);
  _ ← check (match currentEntry with Some e => Directory.IsDir e | None => false end) ErrEntryNotFile;
  _ ← lift (evaluateWebDAVCondition currentLink (Condition options));
  _ ← assertWebDAVLocksTx [resourcePath] (Condition options);
  _ ← enforceWebDAVQuotaTx (QuotaRoot options) (QuotaBytes options) currentLink fileID size;
  _ ← ensureFileTreeCanBeLinked fileID;
  mret (bool_decide (is_Some currentEntry)).

Definition replaceWebDAVMappingTx (resourcePath : string) (fileID size : Z) : M World directoryEntryTab :=
  t ← now;
  previous ← Directory.Tx.Replace resourcePath size (FormatUint fileID) t;
  entry ← Directory.Tx.Stat resourcePath;
  match entry with
  | None => fail ErrNotExist
  | Some entry =>
      _ ← deleteS3Metadata (EntryId_ entry);
      oldFileIDs ← lift (mappingEntryFileIDs [previous]);
      _ ← match oldFileIDs with
          | old :: _ => if negb (old =? fileID) then markMappingFilesPending oldFileIDs else mret tt
          | [] => mret tt
          end;
      mret entry
  end.

(** The entry, and whether it is new. *)
Definition storeWebDAVMappingTx (resourcePath : string) (fileID size : Z) (exists_ : bool)
    : M World (directoryEntryTab * bool) :=
  if negb exists_ then
    _ ← ensureWebDAVParentTx resourcePath;
    entry ← Directory.Tx.Create resourcePath size (FormatUint fileID);
    mret (entry, true)
  else
    entry ← replaceWebDAVMappingTx resourcePath fileID size;
    mret (entry, false).

Definition webDAVS3Metadata (link : FileLinkMeta) (t : Z) : s3meta_row :=
  {| m_entry_id := EntryID link; m_etag := WebDAVETag (Some link); m_sha256 := ""; m_req_algorithm := "";
     m_req_value := ""; m_checksum_type := "";
     m_content_type := S3Object.LookupWithDefault (extension (FileName link)) "application/octet-stream";
     m_cache_control := defaultS3CacheControl; m_disposition := ""; m_encoding := ""; m_language := "";
     m_expires := ""; m_user := "{}"; m_ctime := t; m_mtime := t |}.

Definition with_entry (entryID : Z) (l : lock_row) : lock_row :=
  {| lk_token := lk_token l; lk_root_path := lk_root_path l; lk_root_entry_id := entryID;
     lk_infinity := lk_infinity l; lk_owner_xml := lk_owner_xml l; lk_principal := lk_principal l;
     lk_created_at := lk_created_at l; lk_expires_at := lk_expires_at l; lk_null := false |}.

Definition publishWebDAVFileTx (resourcePath : string) (fileID size : Z) (options : WebDAVMutationOptions)
    : M World (FileLinkMeta * bool) :=
  exists_ ← prepareWebDAVPublishTx resourcePath fileID size options;
  stored ← storeWebDAVMappingTx resourcePath fileID size exists_;
  let '(entry, created) := stored in
  link ← lift (webDAVEntryToLink resourcePath entry);
  t ← now;
  _ ← insertS3Metadata (webDAVS3Metadata link t);
  _ ← upd (set_lock (sql_update (fun l => String.eqb (lk_root_path l) (path_clean resourcePath))
             (with_entry (EntryId_ entry))));
  mret (link, created).

Definition PublishWebDAVFile (resourcePath : string) (fileID size : Z) (options : WebDAVMutationOptions)
    : M World (FileLinkMeta * bool) :=
  _ ← cleanupExpiredWebDAVLocks;
  OnTransation (publishWebDAVFileTx resourcePath fileID size options).

(** ** Deleting, copying and moving *)

Definition deleteWebDAVResourceTx (resourcePath : string) (options : WebDAVMutationOptions) : M World unit :=
  entry ← Directory.Tx.Stat resourcePath;
  match entry with
  | None => fail ErrNotExist
  | Some entry =>
      link ← lift (webDAVEntryToLink resourcePath entry);
      _ ← lift (evaluateWebDAVCondition (Some link) (Condition options));
      _ ← enforceWebDAVMutationLimitTx (EntryId_ entry) (MaxEntries options);
      _ ← assertWebDAVTreeLocksTx [resourcePath] (Condition options);
      removed ← Directory.Tx.Remove resourcePath;
      finalizeRemovedWebDAVEntries removed
  end.

Definition DeleteWebDAVResource (resourcePath : string) (options : WebDAVMutationOptions) : M World unit :=
  _ ← cleanupExpiredWebDAVLocks;
  OnTransation (deleteWebDAVResourceTx resourcePath options).

(** Whether the destination exists. *)
Definition prepareWebDAVCopyDestinationTx (destination : string) (options : WebDAVMutationOptions)
    : M World bool :=
  _ ← ensureWebDAVParentTx destination;
  entry ← Directory.Tx.Stat destination;
  let destinationExists := bool_decide (is_Some entry) in
  _ ← (if destinationExists then assertWebDAVTreeLocksTx else assertWebDAVLocksTx)
        [destination] (Condition options);
  mret destinationExists.

Definition copyWebDAVResourceTx (source destination : string) (overwrite recursive : bool)
    (options : WebDAVMutationOptions) : M World bool :=
  sourceEntry ← Directory.Tx.Stat source;
  match sourceEntry with
  | None => fail ErrNotExist
  | Some sourceEntry =>
      sourceLink ← lift (webDAVEntryToLink source sourceEntry);
      _ ← lift (evaluateWebDAVCondition (Some sourceLink) (Condition options));
      _ ← (if recursive then enforceWebDAVMutationLimitTx (EntryId_ sourceEntry) (MaxEntries options)
           else mret tt);
      destinationExists ← prepareWebDAVCopyDestinationTx destination options;
      r ← Directory.CopyDepth source destination overwrite recursive;
      let '(copies, overwritten) := r in
      _ ← validateWebDAVCopies copies;
      _ ← finalizeRemovedWebDAVEntries overwritten;
      _ ← copyWebDAVMetadata copies;
      _ ← copyWebDAVProperties (map copy_ids copies);
      mret (negb destinationExists)
  end.

Definition CopyWebDAVResource (source destination : string) (overwrite recursive : bool)
    (options : WebDAVMutationOptions) : M World bool :=
  _ ← cleanupExpiredWebDAVLocks;
  OnTransation (copyWebDAVResourceTx source destination overwrite recursive options).

Definition with_root (root : string) (l : lock_row) : lock_row :=
  {| lk_token := lk_token l; lk_root_path := root; lk_root_entry_id := lk_root_entry_id l;
     lk_infinity := lk_infinity l; lk_owner_xml := lk_owner_xml l; lk_principal := lk_principal l;
     lk_created_at := lk_created_at l; lk_expires_at := lk_expires_at l; lk_null := lk_null l |}.

(** The UPDATE of the lock roots, row by row: root_path is UNIQUE. *)
Fixpoint move_roots (source destination : string) (done rest : list lock_row) : outcome (list lock_row) :=
  match rest with
  | [] => Ok done
  | l :: rest =>
      if String.eqb (lk_root_path l) source ||
         like (Some backslash) (escapeSQLiteLike (source +:+ "/") +:+ "%") (lk_root_path l)
      then
        let root := destination +:+ sql_substr (lk_root_path l) (Z.of_nat (String.length source) + 1) in
        if sql_exists (fun l' => String.eqb (lk_root_path l') root) (done ++ rest)
        then Err ErrUniqueConstraint
        else move_roots source destination (done ++ [with_root root l]) rest
      else move_roots source destination (done ++ [l]) rest
  end.

Definition moveLockRoots (source destination : string) : M World unit :=
  d ← query id;
  locks ← lift (move_roots source destination [] (t_lock d));
  upd (set_lock (fun _ => locks)).

Definition moveWebDAVResourceTx (source destination : string) (overwrite : bool)
    (options : WebDAVMutationOptions) : M World bool :=
  sourceEntry ← Directory.Tx.Stat source;
  match sourceEntry with
  | None => fail ErrNotExist
  | Some sourceEntry =>
      sourceLink ← lift (webDAVEntryToLink source sourceEntry);
      _ ← lift (evaluateWebDAVCondition (Some sourceLink) (Condition options));
      _ ← enforceWebDAVMutationLimitTx (EntryId_ sourceEntry) (MaxEntries options);
      _ ← assertWebDAVTreeLocksTx [source; destination] (Condition options);
      _ ← ensureWebDAVParentTx destination;
      entry ← Directory.Tx.Stat destination;
      overwritten ← Directory.Move_tx source destination overwrite;
      _ ← finalizeRemovedWebDAVEntries overwritten;
      _ ← moveLockRoots (path_clean source) (path_clean destination);
      mret (negb (bool_decide (is_Some entry)))
  end.

Definition MoveWebDAVResource (source destination : string) (overwrite : bool)
    (options : WebDAVMutationOptions) : M World bool :=
  _ ← cleanupExpiredWebDAVLocks;
  OnTransation (moveWebDAVResourceTx source destination overwrite options).

(** ** Properties *)

Definition property_of (r : property_row) : WebDAVProperty :=
  {| Namespace := pr_ns r; LocalName := pr_name r; ValueXML := pr_value r |}.

(** ORDER BY namespace_uri, local_name *)
Definition by_name (a b : property_row) : bool :=
  String.ltb (pr_ns a) (pr_ns b) ||
  (String.eqb (pr_ns a) (pr_ns b) && String.leb (pr_name a) (pr_name b)).

Definition ReadWebDAVProperties (entryID : Z) : M World (list WebDAVProperty) :=
  query (fun d => map property_of (order_by by_name (sql_select (fun r => pr_entry_id r =? entryID) (t_property d)))).

Definition validateWebDAVDeadProperty (p : WebDAVProperty) : outcome unit :=
  if String.eqb (Namespace p) "DAV:" || String.eqb (TrimSpace (LocalName p)) "" ||
     (maxWebDAVPropertySize <? Z.of_nat (String.length (ValueXML p)))
  then Err ErrWebDAVProperty else Ok tt.

Definition same_property (entryID : Z) (p : WebDAVProperty) (r : property_row) : bool :=
  (pr_entry_id r =? entryID) && String.eqb (pr_ns r) (Namespace p) && String.eqb (pr_name r) (LocalName p).

(** INSERT ... ON CONFLICT DO UPDATE, with CHECK (local_name != ''). *)
Definition set_value (value : string) (t : Z) (r : property_row) : property_row :=
  {| pr_entry_id := pr_entry_id r; pr_ns := pr_ns r; pr_name := pr_name r; pr_value := value;
     pr_ctime := pr_ctime r; pr_mtime := t |}.
Definition upsert_property (entryID : Z) (p : WebDAVProperty) (t : Z) : M World unit :=
  _ ← check (String.eqb (LocalName p) "") ErrCheckConstraint;
  upd (set_property (fun tab =>
    if sql_exists (same_property entryID p) tab
    then sql_update (same_property entryID p) (set_value (ValueXML p) t) tab
    else tab ++ [{| pr_entry_id := entryID; pr_ns := Namespace p; pr_name := LocalName p;
                    pr_value := ValueXML p; pr_ctime := t; pr_mtime := t |}])).

Definition patch_property (entryID t : Z) (patch : WebDAVPropertyPatch) : M World unit :=
  _ ← lift (validateWebDAVDeadProperty (Property patch));
  if Set_ patch then upsert_property entryID (Property patch) t
  else upd (set_property (sql_delete (same_property entryID (Property patch)))).

Definition patchWebDAVPropertiesTx (resourcePath : string) (patches : list WebDAVPropertyPatch)
    (options : WebDAVMutationOptions) : M World unit :=
  entry ← Directory.Tx.Stat resourcePath;
  match entry with
  | None => fail ErrNotExist
  | Some entry =>
      _ ← assertWebDAVConditionsTx [resourcePath] (Condition options);
      t ← now;
      _ ← for_each (patch_property (EntryId_ entry) t) patches;
      Directory.Tx.Touch resourcePath t
  end.

Definition PatchWebDAVProperties (resourcePath : string) (patches : list WebDAVPropertyPatch)
    (options : WebDAVMutationOptions) : M World unit :=
  _ ← cleanupExpiredWebDAVLocks;
  OnTransation (patchWebDAVPropertiesTx resourcePath patches options).

(** ** Locking *)

Definition ListWebDAVLocks (resourcePath : string) : M World (list lock_row) :=
  _ ← cleanupExpiredWebDAVLocks;
  queryApplicableWebDAVLocks resourcePath.

(** INSERT with the CHECKs of the table, its key and UNIQUE (root_path). *)
Definition insert_lock (l : lock_row) (depth : string) : M World unit :=
  d ← query id;
  _ ← check (negb (String.eqb depth webDAVLockDepthZero || String.eqb depth webDAVLockDepthInfinity) ||
             String.eqb (lk_token l) "" || String.eqb (lk_root_path l) "" || String.eqb (lk_principal l) "" ||
             (lk_expires_at l <=? lk_created_at l)) ErrCheckConstraint;
  _ ← check (sql_exists (fun l' => String.eqb (lk_token l') (lk_token l) ||
                                   String.eqb (lk_root_path l') (lk_root_path l)) (t_lock d)) ErrUniqueConstraint;
  upd (set_lock (fun t => t ++ [l])).

(** The locked entry, and whether it was made for the lock. *)
Definition ensureWebDAVLockTargetTx (request : WebDAVLockRequest) (unpublishedFileID : Z)
    : M World (directoryEntryTab * bool) :=
  entry ← Directory.Tx.Stat (LockPath request);
  match entry with
  | Some entry =>
      _ ← assertNoConflictingWebDAVLockTx (LockPath request) (Depth request);
      mret (entry, false)
  | None =>
      _ ← ensureWebDAVParentTx (LockPath request);
      _ ← check (unpublishedFileID =? 0) ErrOther;
      entry ← Directory.Tx.Create (LockPath request) 0 (FormatUint unpublishedFileID);
      mret (entry, true)
  end.

(** [uuid] is what [uuid.NewString] gives. *)
Definition lockWebDAVResourceTx (uuid : string) (request : WebDAVLockRequest) (unpublishedFileID : Z)
    : M World (lock_row * bool) :=
  r ← ensureWebDAVLockTargetTx request unpublishedFileID;
  let '(entry, created) := r in
  t ← now;
  let lock := {| lk_token := "opaquelocktoken:" +:+ uuid; lk_root_path := path_clean (LockPath request);
                 lk_root_entry_id := EntryId_ entry;
                 lk_infinity := String.eqb (Depth request) webDAVLockDepthInfinity;
                 lk_owner_xml := OwnerXML request; lk_principal := LockPrincipal request;
                 lk_created_at := t; lk_expires_at := wrap64 (t + Timeout request); lk_null := created |} in
  _ ← insert_lock lock (Depth request);
  mret (lock, created).

Section LockNull.
Context {B : Type} `{!IBlockIO B} `{!FileCodec}.

(** The id of an empty file for a resource that does not exist, or 0. *)
Definition prepareWebDAVLockNullFile (resourcePath : string) : M (World * B) Z :=
  r ← attempt (on_db (Directory.Stat resourcePath));
  match r with
  | Ok _ => mret 0
  | Err e =>
      if decide (e = ErrNotExist)
      then FileManager.CreateFile 0 {| src_data := []; src_err := None |}
      else fail e
  end.

Definition LockWebDAVResource (uuid : string) (request : WebDAVLockRequest)
    : M (World * B) (lock_row * bool) :=
  _ ← on_db cleanupExpiredWebDAVLocks;
  unpublishedFileID ← prepareWebDAVLockNullFile (LockPath request);
  let cleanup :=
    if unpublishedFileID =? 0 then mret (Ok tt)
    else attempt (on_db (DiscardUnpublishedFile unpublishedFileID)) in
  r ← attempt (on_db (OnTransation (lockWebDAVResourceTx uuid request unpublishedFileID)));
  match r with
  | Err e => _ ← cleanup; fail e
  | Ok (lock, created) => if (created : bool) then mret (lock, created) else _ ← cleanup; mret (lock, created)
  end.
End LockNull.

(** [timeout] in milliseconds. *)
Definition with_expiry (t : Z) (l : lock_row) : lock_row :=
  {| lk_token := lk_token l; lk_root_path := lk_root_path l; lk_root_entry_id := lk_root_entry_id l;
     lk_infinity := lk_infinity l; lk_owner_xml := lk_owner_xml l; lk_principal := lk_principal l;
     lk_created_at := lk_created_at l; lk_expires_at := t; lk_null := lk_null l |}.

Definition owns_lock (lock : option lock_row) (resourcePath principal : string) : option lock_row :=
  match lock with
  | Some l => if String.eqb (lk_root_path l) (path_clean resourcePath) && String.eqb (lk_principal l) principal
              then Some l else None
  | None => None
  end.

(** The UPDATE is checked against CHECK (expires_at > created_at). *)
Definition refreshWebDAVLockTx (resourcePath token principal : string) (timeout : Z)
    (ifHeader : option (list WebDAVIfList)) : M World lock_row :=
  found ← queryWebDAVLockByToken token;
  match owns_lock found resourcePath principal with
  | None => fail ErrWebDAVLockToken
  | Some lock =>
      let condition := Some {| IfMatch := ""; IfNoneMatch := ""; IfModifiedSince := None;
                               IfUnmodifiedSince := None; IfHeader := ifHeader;
                               RequestPath := path_clean resourcePath |} in
      _ ← check (negb (webDAVIfHeaderAllows condition resourcePath "" [lock])) ErrWebDAVPrecondition;
      t ← now;
      let refreshed := with_expiry (wrap64 (t + timeout)) lock in
      _ ← check (lk_expires_at refreshed <=? lk_created_at lock) ErrCheckConstraint;
      _ ← upd (set_lock (sql_update (fun l => String.eqb (lk_token l) (lk_token lock))
                 (with_expiry (lk_expires_at refreshed))));
      mret refreshed
  end.

Definition RefreshWebDAVLock (resourcePath token principal : string) (timeout : Z)
    (ifHeader : option (list WebDAVIfList)) : M World lock_row :=
  _ ← cleanupExpiredWebDAVLocks;
  OnTransation (refreshWebDAVLockTx resourcePath token principal timeout ifHeader).

Definition unlockWebDAVResourceTx (resourcePath token principal : string) : M World unit :=
  found ← queryWebDAVLockByToken token;
  match owns_lock found resourcePath principal with
  | None => fail ErrWebDAVLockToken
  | Some lock =>
      _ ← delete_lock token;
      if negb (lk_null lock) then mret tt
      else
        removed ← Directory.Tx.Remove resourcePath;
        finalizeRemovedWebDAVEntries removed
  end.

Definition UnlockWebDAVResource (resourcePath token principal : string) : M World unit :=
  _ ← cleanupExpiredWebDAVLocks;
  OnTransation (unlockWebDAVResourceTx resourcePath token principal).

(** ** The change journal *)

Definition webDAVChangeInScope (root changedPath depth : string) : bool :=
  let root := path_clean root in
  let changedPath := path_clean changedPath in
  if String.eqb changedPath root then true
  else if negb (String.eqb root "/") && negb (HasPrefix changedPath (root +:+ "/")) then false
  else if String.eqb root "/" && negb (HasPrefix changedPath "/") then false
  else if String.eqb depth webDAVLockDepthInfinity then true
  else
    let relative := TrimPrefix (TrimPrefix changedPath root) "/" in
    nonempty relative && negb (has_byte slash relative).

(** The WHERE clause of the query for changes. *)
Definition change_matches (root : string) (since : Z) (depth : string) (c : change_row) : bool :=
  let cleanRoot := path_clean root in
  (since <? ch_revision c) &&
  ((String.eqb cleanRoot "/" && like None "/%" (ch_path c)) ||
   String.eqb (ch_path c) cleanRoot ||
   like (Some backslash) (escapeSQLiteLike (trim_slash cleanRoot +:+ "/") +:+ "%") (ch_path c)) &&
  (String.eqb depth "infinity" || String.eqb (ch_path c) cleanRoot ||
   negb (has_byte slash (sql_substr (ch_path c) (Z.of_nat (String.length cleanRoot) + 2)))).

(** The last change of each path. *)
Definition latest (rows : list change_row) : list change_row :=
  sql_select (fun c => negb (sql_exists (fun c' => String.eqb (ch_path c') (ch_path c) &&
                               (ch_revision c <? ch_revision c')) rows)) rows.
Definition by_revision (a b : change_row) : bool := ch_revision a <=? ch_revision b.

Definition queryWebDAVChanges (root : string) (since : Z) (depth : string) (limit : Z) : M World (list change_row) :=
  query (fun d => ztake (limit + 1) (order_by by_revision
    (latest (sql_select (change_matches root since depth) (t_change d))))).

Definition currentWebDAVRevision : M World Z :=
  query (fun d => default 0 (CompletedPart.sql_max (ch_revision <$> t_change d))).

(** [changes] are the changes collected so far. *)
Fixpoint scanWebDAVChanges (rows : list change_row) (root depth : string) (limit current : Z)
    (changes : list change_row) : WebDAVChangePage :=
  match rows with
  | [] => {| Changes := changes; SyncRevision := current; PageHasMore := false |}
  | change :: rows =>
      if negb (webDAVChangeInScope root (ch_path change) depth)
      then scanWebDAVChanges rows root depth limit current changes
      else if zlen changes =? limit then
        {| Changes := changes; PageHasMore := true;
           SyncRevision := match last changes with Some c => ch_revision c | None => current end |}
      else scanWebDAVChanges rows root depth limit current (changes ++ [change])
  end.

Definition WebDAVChanges (root : string) (since : Z) (depth : string) (limit : Z) : M World WebDAVChangePage :=
  let limit := if limit <=? 0 then 1000 else limit in
  current ← currentWebDAVRevision;
  if since <? 0 then mret {| Changes := []; SyncRevision := current; PageHasMore := false |}
  else if current <? since then fail ErrWebDAVSyncToken
  else
    rows ← queryWebDAVChanges root since depth limit;
    mret (scanWebDAVChanges rows (path_clean root) depth limit current []).
End WebDAV.
End WebDAV.
