(* ===== verification/TreeQuery.v ===== *)
(** * What the recursive queries return

    The queries that walk the mapping table from the root (src/filemgr/s3_object.go,
    src/filemgr/webdav_protocol.go) visit every row of a tree once, with its path. *)

From stdpp Require Import base strings list.
From S2P Require Import Prelude GoStr SqlText Store Directory Tree DirOps Dao S3Object WebDAV.

(** The path of a row as the queries build it. *)
Definition full_path (cs : list string) : string := "/" +:+ join_slash cs.

Lemma NoDup_flat_map {A B} (f : A -> list B) l :
  NoDup l -> (forall x, x ∈ l -> NoDup (f x)) ->
  (forall x y z, x ∈ l -> y ∈ l -> z ∈ f x -> z ∈ f y -> x = y) -> NoDup (flat_map f l).
Proof.
  induction 1 as [|x l Hx Hl IH]; intros Hf Hd; simpl; [constructor|].
  apply NoDup_app. split_and!.
  - apply Hf. left.
  - intros z Hz (y & Hy & Hzy)%list_elem_of_In%in_flat_map. apply Hx.
    rewrite (Hd x y z); [by apply list_elem_of_In|left|right; by apply list_elem_of_In|done|
      by apply list_elem_of_In].
  - apply IH; [intros; apply Hf; by right|]. intros y y' z Hy Hy'. apply Hd; by right.
Qed.

Section Levels.
Context (t : list directoryEntryTab) (Hwf : wf_tree t).
(** Every row but the root has the name of a path component. *)
Hypothesis Hnames : forall r, r ∈ t -> ParentEntryId_ r <> 0 -> comp (FileName_ r).

Lemma at_path_comps cs r : at_path t cs r -> Forall comp cs.
Proof using Hwf Hnames.
  induction 1 as [|cs p r Hp IH Hd Hr Hpar]; [done|]. apply Forall_app. split; [done|].
  constructor; [|done]. apply Hnames; [done|].
  pose proof (wf_pos _ Hwf p (at_path_elem _ _ _ Hp)). lia.
Qed.

Lemma full_path_child cs p name :
  at_path t cs p -> WebDAV.child_path (full_path cs) name = full_path (cs ++ [name]).
Proof using Hwf Hnames.
  intros Hp%at_path_comps. unfold WebDAV.child_path, full_path.
  rewrite DirWalk.join_slash_snoc. destruct cs as [|c cs]; [done|].
  destruct (String.eqb_spec ("/" +:+ join_slash (c :: cs)) "/") as [E|_].
  - exfalso. apply (join_slash_ne (c :: cs)); [done..|]. by injection E.
  - by rewrite string_append_assoc.
Qed.

(** The rows [k] steps below the root. *)
Definition is_level (k : nat) (l : list (directoryEntryTab * string)) : Prop :=
  NoDup l /\ forall r p, (r, p) ∈ l <-> exists cs, length cs = k /\ at_path t cs r /\ p = full_path cs.

Lemma elem_below l r p :
  (r, p) ∈ flat_map (fun rp => map (fun c => (c, WebDAV.child_path rp.2 (FileName_ c)))
             (sql_select (fun c => ParentEntryId_ c =? EntryId_ rp.1) t)) l <->
  exists q pq, (q, pq) ∈ l /\ r ∈ t /\ ParentEntryId_ r = EntryId_ q /\
    p = WebDAV.child_path pq (FileName_ r).
Proof.
  rewrite list_elem_of_In, in_flat_map. split.
  - intros ([q pq] & Hq & (c & [= <- <-] & Hc)%in_map_iff).
    apply list_elem_of_In, sql_select_elem in Hc as [? ?%Z.eqb_eq].
    exists q, pq. by rewrite list_elem_of_In.
  - intros (q & pq & Hq & Hr & Hpar & ->). exists (q, pq). rewrite <- list_elem_of_In.
    split; [done|]. apply in_map_iff. exists r. split; [done|].
    apply list_elem_of_In, sql_select_elem. by rewrite Z.eqb_eq.
Qed.

Lemma level_below k l :
  is_level k l ->
  is_level (S k) (flat_map (fun rp => map (fun c => (c, WebDAV.child_path rp.2 (FileName_ c)))
                    (sql_select (fun c => ParentEntryId_ c =? EntryId_ rp.1) t)) l).
Proof using Hwf Hnames.
  intros [Hnd Hl]. split.
  - assert (forall q p, (q, p) ∈ l -> exists cs, at_path t cs q /\ p = full_path cs) as Hpath
      by (intros q p (cs & _ & ?)%Hl; eauto).
    apply NoDup_flat_map; [done|..].
    + intros [q p] _. apply (NoDup_fmap_2_strong _).
      * by intros c c' _ _ [= ->].
      * eapply sublist_NoDup; [|apply filter_sublist]. eapply NoDup_fmap_1, (wf_ids _ Hwf).
    + intros [q p] [q' p'] [z pz] Hq Hq' (c & [= -> _] & Hc)%list_elem_of_In%in_map_iff
        (c' & [= -> _] & Hc')%list_elem_of_In%in_map_iff.
      apply list_elem_of_In, sql_select_elem in Hc as [_ E%Z.eqb_eq].
      apply list_elem_of_In, sql_select_elem in Hc' as [_ E'%Z.eqb_eq]. cbn in *.
      destruct (Hpath _ _ Hq) as (cs & Hcs & ->), (Hpath _ _ Hq') as (cs' & Hcs' & ->).
      assert (q = q') as <- by (apply (id_inj _ Hwf); eauto using at_path_elem; congruence).
      by rewrite (at_path_inj _ Hwf _ _ _ Hcs Hcs').
  - intros r p. rewrite elem_below. split.
    + intros (q & pq & (cs & <- & Hcs & ->)%Hl & Hr & Hpar & ->).
      exists (cs ++ [FileName_ r]). rewrite length_app, (full_path_child _ _ _ Hcs). simpl.
      split_and!; [lia| |done].
      destruct (wf_path _ Hwf r Hr) as (ds & Hds).
      destruct ds as [|d ds _] using rev_ind.
      { apply (at_path_root_inv) in Hds as [H0 _].
        pose proof (wf_pos _ Hwf q (at_path_elem _ _ _ Hcs)). lia. }
      pose proof Hds as (q' & Hq' & Hd & _ & Hpar' & <-)%at_path_snoc_inv.
      assert (q' = q) as -> by (apply (id_inj _ Hwf); eauto using at_path_elem; congruence).
      by apply (at_child _ _ q).
    + intros (cs & Hlen & Hcs & ->). destruct cs as [|c cs _] using rev_ind; [done|].
      rewrite length_app in Hlen. simpl in Hlen.
      pose proof Hcs as (q & Hq & Hd & Hr & Hpar & <-)%at_path_snoc_inv.
      exists q, (full_path cs). split_and!; [|done..|by rewrite (full_path_child _ _ _ Hq)].
      apply Hl. exists cs. split_and!; [lia|done..].
Qed.

Lemma walk_levels_all fuel k l :
  is_level k l -> (length t < k + fuel)%nat ->
  exists rows, WebDAV.walk_levels fuel t l = Ok rows /\ NoDup rows /\
    forall r p, (r, p) ∈ rows <-> exists cs, (k <= length cs)%nat /\ at_path t cs r /\ p = full_path cs.
Proof using Hwf Hnames.
  revert k l. induction fuel as [|fuel IH]; intros k l Hl Hf.
  { destruct l as [|[r p] l]; cycle 1.
    { destruct (proj1 (proj2 Hl r p)) as (cs & <- & Hcs & _); [left|].
      pose proof (at_path_length _ Hwf _ _ Hcs). lia. }
    exists []. split_and!; [done|constructor|]. intros r p. split; [by intros ?%elem_of_nil|].
    intros (cs & Hk & Hcs & _). pose proof (at_path_length _ Hwf _ _ Hcs). lia. }
  destruct l as [|x l].
  { exists []. split_and!; [done|constructor|]. intros r p. split; [by intros ?%elem_of_nil|].
    intros (cs & Hk & Hcs & _). exfalso. rewrite <- (take_drop k cs) in Hcs.
    destruct (at_path_app _ Hwf _ _ _ Hcs) as (q & Hq & _).
    apply (elem_of_nil (q, full_path (take k cs))). apply (proj2 Hl).
    exists (take k cs). rewrite length_take. split_and!; [lia|done..]. }
  destruct (IH (S k) _ (level_below k (x :: l) Hl)) as (rest & E & Hnd & Hrest); [lia|].
  exists ((x :: l) ++ rest). cbn [WebDAV.walk_levels] in *. rewrite E. split; [done|]. split.
  - apply NoDup_app. split_and!; [apply Hl| |done]. intros [r p] (cs & <- & Hcs & _)%Hl
      (ds & Hlen & Hds & _)%Hrest. rewrite (at_path_inj _ Hwf _ _ _ Hcs Hds) in Hlen. lia.
  - intros r p. rewrite elem_of_app, Hrest, (proj2 Hl r p). split.
    + intros [(cs & <- & ?)|(cs & ? & ?)]; exists cs; (split; [lia|done]).
    + intros (cs & Hk & ?). destruct (decide (length cs = k)); [left|right]; exists cs; split; try done; lia.
Qed.

(** The walk from the root ends, and returns every row once with its path. *)
Lemma tree_rows d :
  t_mapping d = t ->
  exists rows, WebDAV.tree_from d WebDAV.is_root_row = Ok rows /\ NoDup rows /\
    forall r p, (r, p) ∈ rows <-> exists cs, at_path t cs r /\ p = full_path cs.
Proof using Hwf Hnames.
  intros E. unfold WebDAV.tree_from. rewrite E.
  destruct (walk_levels_all (S (length t)) 0
    (map (fun r => (r, "/")) (sql_select WebDAV.is_root_row t))) as (rows & Erows & Hnd & Hrows).
  - split.
    + apply (NoDup_fmap_2_strong _); [by intros ? ? _ _ [= ->]|].
      eapply sublist_NoDup; [|apply filter_sublist]. eapply NoDup_fmap_1, (wf_ids _ Hwf).
    + intros r p. rewrite list_elem_of_In, in_map_iff. split.
      * intros (x & [= -> <-] & Hx). apply list_elem_of_In, sql_select_elem in Hx as [Hx Hr].
        unfold WebDAV.is_root_row in Hr. apply andb_true_iff in Hr as [H0%Z.eqb_eq Hn%String.eqb_eq].
        exists []. split_and!; [done|by constructor|done].
      * intros (cs & Hlen & Hcs & ->). apply nil_length_inv in Hlen as ->. exists r. split; [done|].
        apply list_elem_of_In, sql_select_elem. split; [by eapply at_path_elem|].
        apply at_path_root_inv in Hcs as [H0 Hn]. unfold WebDAV.is_root_row. rewrite H0, Hn. done.
  - lia.
  - exists rows. split_and!; [done..|]. intros r p. rewrite Hrows. split.
    + intros (cs & _ & ?); eauto.
    + intros (cs & ?). exists cs. split; [lia|done].
Qed.
End Levels.
