(* ===== verification/S3List.v ===== *)
(** * Listings (src/filemgr/s3_object.go, src/filemgr/s3_multipart.go)

    [ListS3Objects] walks the mapping table below a bucket, folds the keys behind a
    delimiter into common prefixes and returns a page of the items after a key;
    [ListMultipartUploads] does the same for the running uploads of a bucket. *)

From stdpp Require Import base strings list sorting.
From Stdlib Require Import Ascii.
From S2P Require Import Prelude GoStr SqlText Store Directory References Dao Mutation S3Object Multipart WebDAV.
Import References FileMappingDao.

(** ** GROUP BY *)
Section Group.
Context {K R G : Type} `{!EqDecision K} (key : R -> K) (agg : K -> list R -> G).

(** One row for every value of [key]. *)
Definition group_by (t : list R) : list G :=
  map (fun k => agg k (List.filter (fun r => bool_decide (key r = k)) t)) (remove_dups (map key t)).
End Group.

(** [MIN] and [MAX] of a column of a group. *)
Definition min_Z (l : list Z) : Z := match l with [] => 0 | x :: l => foldl Z.min x l end.
Definition max_Z (l : list Z) : Z := match l with [] => 0 | x :: l => foldl Z.max x l end.
Definition min_string (l : list string) : string :=
  match l with [] => "" | x :: l => foldl (fun a b => if String.ltb b a then b else a) x l end.
Definition max_string (l : list string) : string :=
  match l with [] => "" | x :: l => foldl (fun a b => if String.ltb a b then b else a) x l end.

Module S3List.

Record S3ListRequest := {
  Bucket : string; Prefix : string; Delimiter : string; StartAfter : string;
  ContinuationToken : string; MaxKeys : Z; FetchOwner : bool }.
Record S3ListItem := {
  iKey : string; iSize : Z; iLastModified : Z; iETag : string;
  iChecksumAlgorithm : string; iChecksumType : string }.
Record S3ListResult := {
  Items : list S3ListItem; CommonPrefixes : list string; IsTruncated : bool; NextKey : string }.

Record s3ListPageEntry := {
  key : string; common : Z; entryID : Z; refData : string; ctime : Z; mtime : Z; fileSize : Z }.

(** The names of the query: [objects] with their keys, then the item an object falls under. *)
Definition objects (t : list (directoryEntryTab * string)) (request : S3ListRequest)
    : list (directoryEntryTab * string) :=
  let pathPrefix := "/" +:+ Bucket request +:+ "/" in
  let pattern := escapeSQLiteLike (pathPrefix +:+ Prefix request) +:+ "%" in
  map (fun rp => (rp.1, sql_substr rp.2 (Z.of_nat (String.length pathPrefix) + 1)))
      (List.filter (fun rp => (FileKind_ rp.1 =? 2) && like (Some backslash) pattern rp.2) t).

Definition delimiter_index (request : S3ListRequest) (object_key : string) : Z :=
  if String.eqb (Delimiter request) "/"
  then instr_slash (sql_substr object_key (sql_length (Prefix request) + 1))
  else 0.

Definition project (request : S3ListRequest) (o : directoryEntryTab * string) : s3ListPageEntry :=
  let index := delimiter_index request o.2 in
  {| key := if 0 <? index
            then Prefix request +:+
                 take_chars (Z.to_nat index) (sql_substr o.2 (sql_length (Prefix request) + 1))
            else o.2;
     common := if 0 <? index then 1 else 0;
     entryID := EntryId_ o.1; refData := RefData_ o.1; ctime := Ctime_ o.1; mtime := Mtime_ o.1;
     fileSize := FileSize_ o.1 |}.

Definition aggregate (item_key : string) (g : list s3ListPageEntry) : s3ListPageEntry :=
  {| key := item_key; common := max_Z (map common g); entryID := min_Z (map entryID g);
     refData := min_string (map refData g); ctime := min_Z (map ctime g);
     mtime := min_Z (map mtime g); fileSize := min_Z (map fileSize g) |}.

Definition deduplicated (request : S3ListRequest) (t : list (directoryEntryTab * string))
    : list s3ListPageEntry :=
  group_by key aggregate (map (project request) (objects t request)).

Definition by_item (a b : s3ListPageEntry) : bool := String.leb (key a) (key b).

Section S3List.
Context `{!Env} `{!S3Object.MimeTypes}.

Definition queryS3ListPage (request : S3ListRequest) (start : string)
    : M World (list s3ListPageEntry) :=
  d ← query id;
  t ← lift (WebDAV.tree_from d WebDAV.is_root_row);
  mret (sql_limit 0 (Z.to_nat (MaxKeys request + 1))
    (order_by by_item (sql_select (fun e => String.ltb start (key e)) (deduplicated request t)))).

Definition readS3ListPage (rows : list s3ListPageEntry) (maxKeys : Z)
    : list s3ListPageEntry * bool :=
  (ztake maxKeys rows, maxKeys <? zlen rows).

Definition appendS3ListEntry (request : S3ListRequest) (result : S3ListResult)
    (entry : s3ListPageEntry) : M World S3ListResult :=
  if negb (common entry =? 0) then
    mret {| Items := Items result; CommonPrefixes := CommonPrefixes result ++ [key entry];
            IsTruncated := IsTruncated result; NextKey := key entry |}
  else
    fileID ← lift (ParseUint (refData entry));
    let objectPath := "/" +:+ Bucket request +:+ "/" +:+ key entry in
    let link := {| EntryID := entryID entry; FileName := objectPath; LinkFileId := fileID;
                   FileSize := fileSize entry; Mode := 0; Ctime := ctime entry;
                   Mtime := mtime entry; IsDir := false |} in
    found ← S3Object.readS3Metadata (EntryID link);
    let metadata := match found with Some m => m | None => S3Object.legacyS3Metadata link end in
    mret {| Items := Items result ++
              [{| iKey := key entry; iSize := FileSize link; iLastModified := Mtime link;
                  iETag := m_etag metadata; iChecksumAlgorithm := m_req_algorithm metadata;
                  iChecksumType := m_checksum_type metadata |}];
            CommonPrefixes := CommonPrefixes result; IsTruncated := IsTruncated result;
            NextKey := key entry |}.

(** A negative capacity makes [make] panic. *)
Definition ListS3Objects (request : S3ListRequest) : M World S3ListResult :=
  _ ← check (MaxKeys request <? 0) Panic;
  let result := {| Items := []; CommonPrefixes := []; IsTruncated := false; NextKey := "" |} in
  if MaxKeys request =? 0 then mret result
  else
    let start := if negb (String.eqb (ContinuationToken request) "")
                 then ContinuationToken request else StartAfter request in
    rows ← queryS3ListPage request start;
    let '(page, truncated) := readS3ListPage rows (MaxKeys request) in
    fold_each (appendS3ListEntry request)
      {| Items := []; CommonPrefixes := []; IsTruncated := truncated; NextKey := "" |} page.

(** A client that asks for page after page, with the last key as the token of the next. *)
Fixpoint list_all (fuel : nat) (bucket prefix delimiter token : string) (maxKeys : Z)
    : M World (list S3ListItem * list string) :=
  match fuel with
  | O => fail Diverge
  | S fuel =>
      page ← ListS3Objects {| Bucket := bucket; Prefix := prefix; Delimiter := delimiter;
               StartAfter := ""; ContinuationToken := token; MaxKeys := maxKeys; FetchOwner := false |};
      if IsTruncated page then
        rest ← list_all fuel bucket prefix delimiter (NextKey page) maxKeys;
        mret (Items page ++ rest.1, CommonPrefixes page ++ rest.2)
      else mret (Items page, CommonPrefixes page)
  end.
End S3List.
End S3List.

Module UploadList.
Import Multipart.

Record ListMultipartUploadsRequest := {
  Bucket : string; Prefix : string; Delimiter : string; KeyMarker : string;
  UploadIDMarker : string; MaxUploads : Z }.
Record MultipartUploadListItem := {
  uKey : string; uUploadID : string; uInitiated : Z; uAlgorithm : string; uChecksumType : string }.
Record MultipartUploadPage := {
  Uploads : list MultipartUploadListItem; CommonPrefixes : list string; IsTruncated : bool;
  NextKeyMarker : string; NextUploadIDMarker : string }.

Record multipartListProjection := {
  key : string; uploadID : string; checksumAlgorithm : string; checksumType : string;
  initiated : Z; common : bool }.

(** The common tables of [multipartUploadProjectionSQL]. *)
Definition matching (request : ListMultipartUploadsRequest) (current_time : Z) (u : upload_row) : bool :=
  String.eqb (u_bucket u) (Bucket request) && u_active u && (current_time <? u_expires_at u) &&
  String.eqb (take_chars (Z.to_nat (sql_length (Prefix request))) (u_key u)) (Prefix request).

Definition project (request : ListMultipartUploadsRequest) (u : upload_row) : multipartListProjection :=
  let remainder := sql_substr (u_key u) (sql_length (Prefix request) + 1) in
  if String.eqb (Delimiter request) "/" && (0 <? instr_slash remainder)
  then {| key := Prefix request +:+ take_chars (Z.to_nat (instr_slash remainder)) remainder;
          uploadID := ""; checksumAlgorithm := ""; checksumType := ""; initiated := 0; common := true |}
  else {| key := u_key u; uploadID := u_upload_id u; checksumAlgorithm := u_algorithm u;
          checksumType := u_type u; initiated := u_initiated_at u; common := false |}.

Definition group_key (p : multipartListProjection) : string * string * bool :=
  (key p, uploadID p, common p).
Definition aggregate (k : string * string * bool) (g : list multipartListProjection)
    : multipartListProjection :=
  {| key := k.1.1; uploadID := k.1.2; common := k.2; initiated := max_Z (map initiated g);
     checksumAlgorithm := max_string (map checksumAlgorithm g);
     checksumType := max_string (map checksumType g) |}.

Definition after_marker (request : ListMultipartUploadsRequest) (p : multipartListProjection) : bool :=
  String.ltb (KeyMarker request) (key p) ||
  (String.eqb (key p) (KeyMarker request) && negb (String.eqb (UploadIDMarker request) "") &&
   String.ltb (UploadIDMarker request) (uploadID p)).

Definition by_upload (a b : multipartListProjection) : bool :=
  String.ltb (key a) (key b) ||
  (String.eqb (key a) (key b) && String.leb (uploadID a) (uploadID b)).

Definition deduplicated (d : DB) (request : ListMultipartUploadsRequest) (current_time : Z)
    : list multipartListProjection :=
  group_by group_key aggregate
    (map (project request) (sql_select (matching request current_time) (t_upload d))).

Definition item_of (p : multipartListProjection) : MultipartUploadListItem :=
  {| uKey := key p; uUploadID := uploadID p; uInitiated := initiated p;
     uAlgorithm := checksumAlgorithm p; uChecksumType := checksumType p |}.

Definition appendProjection (page : MultipartUploadPage) (p : multipartListProjection)
    : MultipartUploadPage :=
  {| Uploads := if common p then Uploads page else Uploads page ++ [item_of p];
     CommonPrefixes := if common p then CommonPrefixes page ++ [key p] else CommonPrefixes page;
     IsTruncated := IsTruncated page; NextKeyMarker := key p; NextUploadIDMarker := uploadID p |}.

Definition buildMultipartUploadPage (projections : list multipartListProjection) (maxUploads : Z)
    : MultipartUploadPage :=
  let truncated := maxUploads <? zlen projections in
  let projections := if truncated then ztake maxUploads projections else projections in
  let page := foldl appendProjection
    {| Uploads := []; CommonPrefixes := []; IsTruncated := truncated;
       NextKeyMarker := ""; NextUploadIDMarker := "" |} projections in
  if negb (IsTruncated page) then
    {| Uploads := Uploads page; CommonPrefixes := CommonPrefixes page; IsTruncated := false;
       NextKeyMarker := ""; NextUploadIDMarker := "" |}
  else page.

Section UploadList.
Context `{!Env}.

Definition readMultipartUploadProjections (request : ListMultipartUploadsRequest)
    : M World (list multipartListProjection) :=
  t ← now;
  query (fun d => sql_limit 0 (Z.to_nat (MaxUploads request + 1))
    (order_by by_upload (sql_select (after_marker request) (deduplicated d request t)))).

Definition ListMultipartUploads (request : ListMultipartUploadsRequest) : M World MultipartUploadPage :=
  _ ← check (String.eqb (Bucket request) "" || (MaxUploads request <? 0) ||
             (1000 <? MaxUploads request) ||
             (negb (String.eqb (Delimiter request) "") && negb (String.eqb (Delimiter request) "/")))
        ErrInvalidMultipartRequest;
  t ← now;
  _ ← processExpiredMultipartUploads t multipartCleanupBatchSize;
  if MaxUploads request =? 0
  then mret {| Uploads := []; CommonPrefixes := []; IsTruncated := false;
               NextKeyMarker := ""; NextUploadIDMarker := "" |}
  else
    projections ← readMultipartUploadProjections request;
    mret (buildMultipartUploadPage projections (MaxUploads request)).
End UploadList.
End UploadList.
