(* ===== verification/S3ListTheorems.v ===== *)
(** * Listing a bucket page by page

    Following the continuation tokens of [ListS3Objects] lists every object of the
    bucket behind the prefix once, in the order of the keys, or its common prefix. *)

From stdpp Require Import base strings list sorting.
From Stdlib Require Import Ascii.
From S2P Require Import Prelude Paging GoStr SqlText Store Directory Tree DirWalk DirOps DirTheorems.
From S2P Require Import Dao S3Object Multipart WebDAV TreeQuery S3List.

(** ** GROUP BY *)
Section GroupLemmas.
Context {K R G : Type} `{!EqDecision K} (key : R -> K) (agg : K -> list R -> G) (gkey : G -> K).
Hypothesis gkey_agg : forall k g, gkey (agg k g) = k.

Lemma group_keys t : map gkey (group_by key agg t) = remove_dups (map key t).
Proof using gkey_agg.
  unfold group_by. rewrite map_map. rewrite (map_ext _ id) by (intros k; apply gkey_agg). apply map_id.
Qed.

Lemma group_elem t e :
  e ∈ group_by key agg t <->
  gkey e ∈ map key t /\ e = agg (gkey e) (List.filter (fun r => bool_decide (key r = gkey e)) t).
Proof using gkey_agg.
  unfold group_by. rewrite list_elem_of_In, in_map_iff. split.
  - intros (k & <- & Hk). rewrite gkey_agg. split; [|done].
    by rewrite <- elem_of_remove_dups, list_elem_of_In.
  - intros [Hk He]. exists (gkey e). split; [done|]. by rewrite <- list_elem_of_In, elem_of_remove_dups.
Qed.

Lemma group_nodup t : NoDup (gkey <$> group_by key agg t).
Proof using gkey_agg.
  change (gkey <$> group_by key agg t) with (map gkey (group_by key agg t)). rewrite group_keys.
  apply NoDup_remove_dups.
Qed.

(** A row that shares its key with no other is a group of its own. *)
Lemma group_single t r :
  NoDup t -> r ∈ t -> (forall r', r' ∈ t -> key r' = key r -> r' = r) ->
  List.filter (fun r' => bool_decide (key r' = key r)) t = [r].
Proof.
  intros Hnd Hr Hinj. apply elem_of_Permutation in Hr as [t' E].
  assert (NoDup (List.filter (fun r' => bool_decide (key r' = key r)) t)) as Hndf
    by (eapply sublist_NoDup; [exact Hnd|apply filter_sublist]).
  assert (forall x, x ∈ List.filter (fun r' => bool_decide (key r' = key r)) t <-> x = r) as Hel.
  { intros x. rewrite list_elem_of_In, List.filter_In, <- list_elem_of_In, bool_decide_eq_true. split.
    - intros [Hx Hk]. by apply Hinj.
    - intros ->. split; [|done]. rewrite E. left. }
  destruct (List.filter _ t) as [|x [|y l]].
  - exfalso. apply (elem_of_nil r). by apply Hel.
  - f_equal. apply Hel. left.
  - exfalso. apply NoDup_cons in Hndf as [Hx _]. apply Hx.
    rewrite (proj1 (Hel x)) by left. rewrite (proj1 (Hel y)) by (right; left). left.
Qed.
End GroupLemmas.

Import S3List FileMappingDao.

(** ** Paging by the item key *)

Lemma leb_spec a b : String.leb a b = true <-> String.ltb a b = true \/ a = b.
Proof.
  rewrite <- not_false_iff_true, leb_ltb. split.
  - intros H. destruct (ltb_trichotomy a b) as [?|[?|?]]; auto; congruence.
  - intros [H| ->] H'; [|by rewrite ltb_irrefl in H'].
    pose proof (ltb_trans _ _ _ H H'). by rewrite ltb_irrefl in *.
Qed.

Definition text_lt (a b : string) : Prop := String.ltb a b = true.
Lemma text_irrefl a : ~ text_lt a a.
Proof. unfold text_lt. by rewrite ltb_irrefl. Qed.

Section Pages.
Context {R : Type} (k : R -> string) (t : list R) (Hnd : NoDup (k <$> t)).
Definition by_text (a b : R) : bool := String.leb (k a) (k b).

(** The key after which the scan goes on behind the rows [l1]. *)
Definition cut_text (l1 : list R) : string := match last l1 with Some r => k r | None => "" end.

Lemma by_text_sorted : StronglySorted (fun a b => text_lt (k a) (k b)) (order_by by_text t).
Proof using Hnd.
  apply (ordered_strict k text_lt by_text); [apply text_irrefl|apply ltb_trans|apply ltb_trichotomy| |done].
  intros. apply leb_spec.
Qed.

Lemma text_page l1 l2 :
  (forall r, r ∈ t -> k r <> "") -> order_by by_text t = l1 ++ l2 ->
  order_by by_text (sql_select (fun r => String.ltb (cut_text l1) (k r)) t) = l2.
Proof using Hnd.
  intros Hne. apply (strict_page k text_lt by_text);
    [apply text_irrefl|apply ltb_trans|apply ltb_trichotomy|intros; apply leb_spec|done|].
  intros r Hr. unfold cut_text. destruct (last l1) as [x|]; [done|].
  specialize (Hne r Hr). by destruct (k r).
Qed.
End Pages.

(** ** Running the pages *)
Section Run.
Context `{!Env} `{!S3Object.MimeTypes} (w : World) (bucket prefix delimiter : string) (maxKeys : Z).

Definition request (token : string) : S3ListRequest :=
  {| Bucket := bucket; Prefix := prefix; Delimiter := delimiter; StartAfter := "";
     ContinuationToken := token; MaxKeys := maxKeys; FetchOwner := false |}.

(** The item of an entry that is an object. *)
Definition entry_link (e : s3ListPageEntry) : FileLinkMeta :=
  {| EntryID := entryID e; FileName := "/" +:+ bucket +:+ "/" +:+ key e;
     LinkFileId := match ParseUint (refData e) with Ok n => n | Err _ => 0 end;
     FileSize := fileSize e; Mode := 0; Ctime := ctime e; Mtime := mtime e; IsDir := false |}.
Definition entry_metadata (e : s3ListPageEntry) : s3meta_row :=
  match head (sql_select (fun m => m_entry_id m =? entryID e) (t_s3meta (db w))) with
  | Some m => m
  | None => S3Object.legacyS3Metadata (entry_link e)
  end.
Definition entry_item (e : s3ListPageEntry) : S3ListItem :=
  {| iKey := key e; iSize := fileSize e; iLastModified := mtime e;
     iETag := m_etag (entry_metadata e); iChecksumAlgorithm := m_req_algorithm (entry_metadata e);
     iChecksumType := m_checksum_type (entry_metadata e) |}.

Definition is_object (e : s3ListPageEntry) : bool := common e =? 0.
Definition items_of (l : list s3ListPageEntry) : list S3ListItem := map entry_item (List.filter is_object l).
Definition prefixes_of (l : list s3ListPageEntry) : list string :=
  map key (List.filter (fun e => negb (is_object e)) l).

Definition readable (e : s3ListPageEntry) : Prop :=
  is_object e = true -> exists n, ParseUint (refData e) = Ok n.

Lemma items_app l1 l2 : items_of (l1 ++ l2) = items_of l1 ++ items_of l2.
Proof. unfold items_of. by rewrite List.filter_app, map_app. Qed.
Lemma prefixes_app l1 l2 : prefixes_of (l1 ++ l2) = prefixes_of l1 ++ prefixes_of l2.
Proof. unfold prefixes_of. by rewrite List.filter_app, map_app. Qed.

Lemma append_run token result e :
  readable e ->
  appendS3ListEntry (request token) result e w =
  (Ok {| Items := Items result ++ items_of [e]; CommonPrefixes := CommonPrefixes result ++ prefixes_of [e];
         IsTruncated := IsTruncated result; NextKey := key e |}, w).
Proof.
  intros Hr. unfold appendS3ListEntry, items_of, prefixes_of, readable, is_object in *. cbn [List.filter].
  destruct (common e =? 0) eqn:Ec; cbn [negb map]; [|by rewrite app_nil_r].
  destruct (Hr eq_refl) as [n En]. rewrite En. rewrite (bind_ok (lift (Ok n)) _ w n w eq_refl).
  rewrite (bind_ok (S3Object.readS3Metadata _) _ w _ w eq_refl). rewrite app_nil_r.
  cbn [EntryID FileSize Mtime]. do 3 f_equal.
  unfold entry_item, entry_metadata, entry_link. rewrite En. by destruct (head _).
Qed.

Lemma page_run token result l :
  Forall readable l ->
  fold_each (appendS3ListEntry (request token)) result l w =
  (Ok {| Items := Items result ++ items_of l; CommonPrefixes := CommonPrefixes result ++ prefixes_of l;
         IsTruncated := IsTruncated result;
         NextKey := match last l with Some e => key e | None => NextKey result end |}, w).
Proof.
  intros Hl. revert result. induction Hl as [|e l He Hl IH]; intros result; cbn [fold_each].
  { rewrite !app_nil_r. by destruct result. }
  rewrite (bind_ok _ _ _ _ _ (append_run token result e He)), IH. cbn [Items CommonPrefixes IsTruncated NextKey].
  change (e :: l) with ([e] ++ l). rewrite items_app, prefixes_app, <- !app_assoc. do 3 f_equal.
  rewrite last_app. by destruct (last l).
Qed.

Context (rows : list (directoryEntryTab * string)).
Hypothesis Hrows : WebDAV.tree_from (db w) WebDAV.is_root_row = Ok rows.
Definition entries : list s3ListPageEntry := deduplicated (request "") rows.
Definition ordered : list s3ListPageEntry := order_by by_item entries.
Hypothesis (Hkeys : forall e, e ∈ entries -> key e <> "")
  (Hread : forall e, e ∈ entries -> readable e) (Hmax : 0 < maxKeys).

Lemma entries_nodup : NoDup (key <$> entries).
Proof. exact (group_nodup key aggregate key (fun _ _ => eq_refl) _). Qed.

Lemma ListS3Objects_run l1 l2 :
  ordered = l1 ++ l2 ->
  let page := ztake maxKeys l2 in
  ListS3Objects (request (cut_text key l1)) w =
  (Ok {| Items := items_of page; CommonPrefixes := prefixes_of page; IsTruncated := maxKeys <? zlen l2;
         NextKey := cut_text key page |}, w).
Proof using Hrows Hkeys Hread Hmax.
  intros E page. unfold ListS3Objects. cbn [MaxKeys request].
  assert ((maxKeys <? 0) = false) as -> by lia. rewrite (bind_ok (check false _) _ w tt w eq_refl).
  assert ((maxKeys =? 0) = false) as -> by lia. cbn [ContinuationToken StartAfter request].
  replace (if negb (String.eqb (cut_text key l1) "") then cut_text key l1 else "") with (cut_text key l1).
  2: { destruct (String.eqb_spec (cut_text key l1) "") as [->|]; done. }
  unfold queryS3ListPage. rewrite (bind_ok _ _ w
    (sql_limit 0 (Z.to_nat (maxKeys + 1)) l2) w).
  2: { rewrite (bind_ok (query id) _ w (db w) w eq_refl), Hrows.
       rewrite (bind_ok (lift (Ok rows)) _ w rows w eq_refl).
       rewrite <- (text_page key entries entries_nodup l1 l2 Hkeys E). reflexivity. }
  unfold sql_limit. rewrite drop_0. unfold readS3ListPage.
  replace (ztake maxKeys (take (Z.to_nat (maxKeys + 1)) l2)) with page.
  2: { unfold page, ztake. rewrite take_take. f_equal. lia. }
  replace (maxKeys <? zlen (take (Z.to_nat (maxKeys + 1)) l2)) with (maxKeys <? zlen l2).
  2: { unfold zlen. rewrite length_take.
       destruct (Z.ltb_spec maxKeys (Z.of_nat (length l2))); symmetry; [apply Z.ltb_lt|apply Z.ltb_ge]; lia. }
  rewrite page_run; [done|]. apply Forall_forall. intros e He. apply Hread.
  apply (order_by_elem by_item). fold ordered. rewrite E. apply elem_of_app. right.
  eapply elem_of_sublist; [exact He|apply sublist_take].
Qed.

Lemma list_all_run fuel l1 l2 :
  ordered = l1 ++ l2 -> (length l2 < fuel)%nat ->
  list_all fuel bucket prefix delimiter (cut_text key l1) maxKeys w =
  (Ok (items_of l2, prefixes_of l2), w).
Proof using Hrows Hkeys Hread Hmax.
  revert l1 l2. induction fuel as [|fuel IH]; intros l1 l2 E Hf; [lia|]. cbn [list_all].
  pose proof (ListS3Objects_run l1 l2 E) as Hrun. cbv zeta in Hrun. unfold request in Hrun.
  rewrite (bind_ok _ _ _ _ _ Hrun). cbn [IsTruncated NextKey Items CommonPrefixes]. clear Hrun.
  destruct (Z.ltb_spec maxKeys (zlen l2)) as [Hlt|Hge].
  2: { unfold ztake, zlen in *. by rewrite take_ge by lia. }
  assert (cut_text key (ztake maxKeys l2) = cut_text key (l1 ++ ztake maxKeys l2)) as ->.
  { unfold cut_text. rewrite last_app. destruct (last (ztake maxKeys l2)) eqn:El; [done|].
    apply last_None in El. apply (f_equal length) in El. unfold ztake, zlen in *.
    rewrite length_take in El. simpl in El. lia. }
  unfold ztake. rewrite (bind_ok _ _ w (items_of (drop (Z.to_nat maxKeys) l2),
    prefixes_of (drop (Z.to_nat maxKeys) l2)) w).
  - cbn [fst snd]. by rewrite <- items_app, <- prefixes_app, take_drop.
  - apply IH; [by rewrite E, <- app_assoc, take_drop|]. rewrite length_drop. unfold zlen in Hlt. lia.
Qed.
End Run.

(** ** The objects of a bucket *)

(** The file [r] is the object with key [k] of bucket [b]. *)
Definition object_at (t : list directoryEntryTab) (b k : string) (r : directoryEntryTab) : Prop :=
  exists cs, cs <> [] /\ at_path t (b :: cs) r /\ FileKind_ r = 2 /\ k = join_slash cs.

(** No other entry of the root has the name of the bucket in other case. *)
Definition no_alias (t : list directoryEntryTab) (b : string) : Prop :=
  forall c r, at_path t [c] r -> fold_equal b c = true -> c = b.

Lemma same_letter_slash d : same_letter slash d = true -> d = slash.
Proof. intros (_ & _ & _ & E)%same_letter_class. by apply Ascii.eqb_eq. Qed.

Lemma same_letter_slash_r d : same_letter d slash = true -> d = slash.
Proof. intros (_ & _ & _ & E)%same_letter_class. by apply Ascii.eqb_eq. Qed.

Lemma fold_prefix_common p q s : fold_prefix (p +:+ q) (p +:+ s) = fold_prefix q s.
Proof. induction p as [|c p IH]; [done|]. rewrite !string_app_cons. cbn. by rewrite same_letter_refl. Qed.

(** A name is matched up to its slash. *)
Lemma bucket_split b q c rest :
  has_byte slash b = false -> has_byte slash c = false ->
  (rest = "" \/ exists rest', rest = "/" +:+ rest') ->
  fold_prefix (b +:+ "/" +:+ q) (c +:+ rest) = true ->
  fold_equal b c = true /\ exists rest', rest = "/" +:+ rest' /\ fold_prefix q rest' = true.
Proof.
  intros Hb Hc Hrest. revert c Hc. induction b as [|x b IH]; intros c Hc H.
  - destruct c as [|d c].
    + split; [done|]. destruct Hrest as [-> |(rest' & ->)]; [done|]. exists rest'. split; [done|].
      cbn in H. done.
    + cbn in H. apply andb_true_iff in H as [->%same_letter_slash _]. done.
  - cbn in Hb. apply orb_false_iff in Hb as [Hx Hb]. rewrite string_app_cons in H. destruct c as [|d c].
    + exfalso. destruct Hrest as [-> |(rest' & ->)]; [done|].
      cbn in H. apply andb_true_iff in H as [->%same_letter_slash_r _]. done.
    + cbn in Hc. apply orb_false_iff in Hc as [_ Hc]. rewrite string_app_cons in H. cbn in H.
      apply andb_true_iff in H as [Hxd H]. destruct (IH Hb c Hc H) as [Heq ?]. split; [|done].
      revert Heq. unfold fold_equal. cbn. by rewrite Hxd.
Qed.

Section Objects.
Context `{!Env} `{!S3Object.MimeTypes} (w : World) (bucket prefix delimiter : string) (maxKeys : Z).
Hypothesis (Hwf : wf_tree (T w))
  (Hnames : forall r, r ∈ T w -> ParentEntryId_ r <> 0 -> comp (FileName_ r))
  (Hbucket : comp bucket) (Hascii : ascii_text bucket = true) (Halias : no_alias (T w) bucket).
Context (rows : list (directoryEntryTab * string)) (Hnd : NoDup rows)
  (Hrows : forall r p, (r, p) ∈ rows <-> exists cs, at_path (T w) cs r /\ p = full_path cs).
Notation req := (request bucket prefix delimiter maxKeys "").

Lemma object_comps k r : object_at (T w) bucket k r ->
  exists cs, cs <> [] /\ Forall comp cs /\ k = join_slash cs /\ at_path (T w) (bucket :: cs) r.
Proof using Hwf Hnames.
  intros (cs & Hne & Hcs & _ & ->). exists cs. split_and!; [done| |done..].
  apply (at_path_comps _ Hwf Hnames) in Hcs. by apply Forall_cons in Hcs as [_ ?].
Qed.

Lemma object_inj k r r' :
  object_at (T w) bucket k r -> object_at (T w) bucket k r' -> r = r'.
Proof using Hwf Hnames.
  intros (cs & Hne & Hcomp & -> & Hcs)%object_comps (cs' & Hne' & Hcomp' & E & Hcs')%object_comps.
  assert (cs = cs') as <-.
  { rewrite <- (split_join cs), <- (split_join cs') by eauto using comps_no_slash. by rewrite E. }
  by eapply at_path_func.
Qed.

Lemma object_key_fun k k' r :
  object_at (T w) bucket k r -> object_at (T w) bucket k' r -> k = k'.
Proof using Hwf Hnames.
  intros (cs & _ & Hcs & _ & ->) (cs' & _ & Hcs' & _ & ->).
  by injection (at_path_inj _ Hwf _ _ _ Hcs Hcs') as ->.
Qed.

Lemma full_path_bucket cs : cs <> [] -> full_path (bucket :: cs) = ("/" +:+ bucket +:+ "/") +:+ join_slash cs.
Proof.
  intros Hne. unfold full_path. destruct cs as [|c cs]; [done|].
  change (join_slash (bucket :: c :: cs)) with (bucket +:+ "/" +:+ join_slash (c :: cs)).
  by rewrite !string_append_assoc.
Qed.

Lemma bucket_substr cs :
  cs <> [] ->
  sql_substr (full_path (bucket :: cs)) (Z.of_nat (String.length ("/" +:+ bucket +:+ "/")) + 1) = join_slash cs.
Proof using Hascii.
  intros Hne. rewrite full_path_bucket by done. unfold sql_substr. rewrite Z.add_simpl_r, Nat2Z.id.
  apply skip_chars_ascii. by rewrite !ascii_app, Hascii.
Qed.

Lemma objects_spec r k :
  (r, k) ∈ objects rows req <-> object_at (T w) bucket k r /\ fold_prefix prefix k = true.
Proof using Hwf Hnames Hbucket Hascii Halias Hrows.
  unfold objects. cbn [Bucket Prefix request]. rewrite list_elem_of_In, in_map_iff.
  setoid_rewrite List.filter_In. split.
  - intros ([r' p] & [<- <-]%pair_equal_spec & Hin & Hp). apply list_elem_of_In, Hrows in Hin as (cs & Hcs & ->).
    cbn [fst snd] in *. apply andb_true_iff in Hp as [Hk%Z.eqb_eq Hlike]. rewrite like_escaped in Hlike.
    rewrite !string_append_assoc in Hlike. unfold full_path in Hlike. rewrite fold_prefix_common in Hlike.
    destruct cs as [|c cs].
    { exfalso. destruct bucket; [by destruct Hbucket|done]. }
    pose proof (at_path_comps _ Hwf Hnames _ _ Hcs) as [(? & ? & ? & Hc) Hcomps]%Forall_cons.
    destruct Hbucket as (? & ? & ? & Hb).
    destruct cs as [|c' cs].
    { exfalso. cbn [join_slash] in Hlike.
      destruct (bucket_split bucket prefix c "") as [_ (rest' & [=] & _)]; auto.
      by rewrite string_app_empty. }
    change (join_slash (c :: c' :: cs)) with (c +:+ "/" +:+ join_slash (c' :: cs)) in Hlike.
    destruct (bucket_split bucket prefix c _ Hb Hc (or_intror (ex_intro _ _ eq_refl)) Hlike)
      as [Heq (rest' & E & Hpre)].
    assert (rest' = join_slash (c' :: cs)) as -> by (by injection E).
    destruct (at_path_app _ Hwf [c] (c' :: cs) _ Hcs) as (top & Htop & _).
    rewrite (Halias c top Htop Heq) in *.
    rewrite bucket_substr by done. split; [|done]. by exists (c' :: cs).
  - intros [(cs & Hne & Hcs & Hk & ->) Hpre]. exists (r, full_path (bucket :: cs)). cbn [fst snd].
    split; [|split].
    + by rewrite bucket_substr.
    + apply list_elem_of_In, Hrows. eauto.
    + rewrite Hk, like_escaped, full_path_bucket, fold_prefix_common by done. done.
Qed.

Lemma objects_nodup : NoDup (objects rows req).
Proof using Hwf Hnd Hrows.
  unfold objects. apply (NoDup_fmap_2_strong _).
  - intros [r p] [r' p'] Hx Hy [= <- _].
    rewrite list_elem_of_In, List.filter_In, <- list_elem_of_In in Hx, Hy.
    destruct Hx as [(cs & Hcs & ->)%Hrows _], Hy as [(cs' & Hcs' & ->)%Hrows _].
    by rewrite (at_path_inj _ Hwf _ _ _ Hcs Hcs').
  - eapply sublist_NoDup; [exact Hnd|apply filter_sublist].
Qed.

(** What is left of a key behind the prefix, and whether the delimiter folds it. *)
Definition behind (k : string) : string := skip_bytes (String.length prefix) k.
Definition folded (k : string) : bool := String.eqb delimiter "/" && has_byte slash (behind k).
Definition common_prefix (k : string) : string := prefix +:+ up_to_slash (behind k).

Definition listed (k : string) (r : directoryEntryTab) : Prop :=
  object_at (T w) bucket k r /\ fold_prefix prefix k = true.
Hypothesis (Htext : forall k r, listed k r -> text (behind k) = true).

(** The entry of an object that is not folded. *)
Definition plain (r : directoryEntryTab) (k : string) : s3ListPageEntry :=
  {| key := k; common := 0; entryID := EntryId_ r; refData := RefData_ r; ctime := Ctime_ r;
     mtime := Mtime_ r; fileSize := FileSize_ r |}.

Lemma project_key r k :
  listed k r ->
  key (project req (r, k)) = (if folded k then common_prefix k else k) /\
  common (project req (r, k)) = (if folded k then 1 else 0) /\
  (folded k = false -> project req (r, k) = plain r k).
Proof using Htext.
  intros Hl. pose proof (Htext k r Hl) as Ht. destruct Hl as [_ Hp].
  destruct (fold_prefix_split _ _ Hp) as (q & E & Hq).
  assert (sql_substr k (sql_length prefix + 1) = behind k) as Hsub.
  { transitivity (sql_substr (q +:+ behind k) (sql_length prefix + 1)); [by rewrite E at 1|].
    apply skip_prefix; [done|by apply text_clean]. }
  assert ((0 <? delimiter_index req k) = folded k) as Hpos.
  { unfold delimiter_index, folded. cbn [Delimiter Prefix request]. rewrite Hsub.
    destruct (String.eqb delimiter "/"); [apply instr_pos|done]. }
  unfold project. cbn [fst snd]. rewrite Hpos. cbn [Prefix request key common].
  split; [|split]; [|done|by intros ->].
  destruct (folded k) eqn:Ef; [|done]. unfold common_prefix. f_equal.
  unfold folded in Ef. apply andb_true_iff in Ef as [Ed Hs].
  unfold delimiter_index. cbn [Delimiter Prefix request]. rewrite Ed, Hsub. by apply take_to_slash.
Qed.

Notation projected := (map (project req) (objects rows req)).

Lemma projected_elem e :
  e ∈ projected <-> exists r k, listed k r /\ e = project req (r, k).
Proof using Hwf Hnames Hbucket Hascii Halias Hrows.
  rewrite list_elem_of_In, in_map_iff. split.
  - intros ([r k] & <- & Hin%list_elem_of_In). apply objects_spec in Hin. by exists r, k.
  - intros (r & k & Hl & ->). exists (r, k). split; [done|]. by apply list_elem_of_In, objects_spec.
Qed.

Lemma projected_nodup : NoDup projected.
Proof using Hwf Hnames Hbucket Hascii Halias Hnd Hrows.
  apply (NoDup_fmap_2_strong _); [|apply objects_nodup].
  intros [r k] [r' k'] [Ho _]%objects_spec [Ho' _]%objects_spec E.
  assert (EntryId_ r = EntryId_ r') as Ei by (by injection E).
  assert (r = r') as <-.
  { destruct Ho as (? & _ & Hr & _), Ho' as (? & _ & Hr' & _).
    apply (id_inj _ Hwf); eauto using at_path_elem. }
  by rewrite (object_key_fun k k' r Ho Ho').
Qed.

(** No object key ends like a common prefix. *)
Lemma key_no_slash k r s : object_at (T w) bucket k r -> k <> s +:+ "/".
Proof using Hwf Hnames.
  intros (cs & Hne & Hcomp & -> & _)%object_comps E. apply (f_equal (split_on slash)) in E.
  rewrite split_on_snoc_slash, split_join in E by eauto using comps_no_slash. subst cs.
  apply Forall_app in Hcomp as [_ [(Hempty & _) _]%Forall_cons]. done.
Qed.

Lemma up_to_slash_ends s : has_byte slash s = true -> exists s', up_to_slash s = s' +:+ "/".
Proof.
  induction s as [|c s IH]; [done|]. cbn. destruct (Ascii.eqb_spec c slash) as [->|Hc].
  - intros _. by exists "".
  - cbn. intros Hs. destruct (IH Hs) as (s' & ->). by exists (String c s').
Qed.

Lemma common_prefix_ends k : folded k = true -> exists s, common_prefix k = s +:+ "/".
Proof.
  unfold folded, common_prefix. intros [_ (s & ->)%up_to_slash_ends]%andb_true_iff.
  exists (prefix +:+ s). by rewrite string_append_assoc.
Qed.

Lemma object_group r k :
  listed k r -> folded k = false ->
  aggregate k (List.filter (fun e => bool_decide (key e = k)) projected) = plain r k.
Proof using Hwf Hnames Hbucket Hascii Halias Hnd Hrows Htext.
  intros Hl Hf. destruct (project_key r k Hl) as (Ek & _ & Ep). rewrite Hf in Ek. specialize (Ep Hf).
  pose proof (group_single key projected (project req (r, k)) projected_nodup) as Hg. rewrite Ek in Hg.
  rewrite Hg, Ep; [done| |].
  - apply projected_elem. eauto.
  - intros e' (r' & k' & Hl' & ->)%projected_elem Ek'.
    destruct (project_key r' k' Hl') as (Ek2 & _ & _). rewrite Ek' in Ek2.
    destruct (folded k') eqn:Ef'.
    + destruct (common_prefix_ends k' Ef') as (s & Es). rewrite Es in Ek2.
      by apply (key_no_slash k r s) in Ek2; [|apply Hl].
    + subst k'. by rewrite (object_inj k r r' (proj1 Hl) (proj1 Hl')).
Qed.

Lemma common_group p :
  (exists r k, listed k r /\ folded k = true /\ p = common_prefix k) ->
  common (aggregate p (List.filter (fun e => bool_decide (key e = p)) projected)) = 1.
Proof using Hwf Hnames Hbucket Hascii Halias Hrows Htext.
  intros (r & k & Hl & Hf & ->). cbn [common aggregate].
  set (g := List.filter _ _).
  assert (forall e, e ∈ g -> common e = 1) as Hone.
  { intros e He. unfold g in He. rewrite list_elem_of_In, List.filter_In, <- list_elem_of_In, bool_decide_eq_true in He.
    destruct He as [(r' & k' & Hl' & ->)%projected_elem Ek].
    destruct (project_key r' k' Hl') as (Ek2 & -> & _). destruct (folded k'); [done|].
    exfalso. destruct (common_prefix_ends k Hf) as (s & Es).
    apply (key_no_slash k' r' s); [apply Hl'|congruence]. }
  assert (project req (r, k) ∈ g) as Hin.
  { unfold g. rewrite list_elem_of_In, List.filter_In, <- list_elem_of_In, bool_decide_eq_true.
    split; [apply projected_elem; eauto|]. destruct (project_key r k Hl) as (-> & _). by rewrite Hf. }
  clearbody g. destruct g as [|e g]; [by apply elem_of_nil in Hin|]. cbn [map max_Z].
  rewrite (Hone e) by left. assert (forall x, x ∈ g -> common x = 1) as Hg by (intros; apply Hone; by right).
  clear -Hg. induction g as [|x g IH]; [done|]. cbn. rewrite (Hg x) by left.
  apply IH. intros; apply Hg; by right.
Qed.

(** The entries of the listing: the objects that are not folded, and the common
    prefixes of the others. *)
Lemma entries_spec e :
  e ∈ entries bucket prefix delimiter maxKeys rows <->
  (exists r k, listed k r /\ folded k = false /\ e = plain r k) \/
  ((exists r k, listed k r /\ folded k = true /\ key e = common_prefix k) /\
   e = aggregate (key e) (List.filter (fun x => bool_decide (key x = key e)) projected)).
Proof using Hwf Hnames Hbucket Hascii Halias Hnd Hrows Htext.
  unfold entries, deduplicated. rewrite (group_elem key aggregate key (fun _ _ => eq_refl)).
  rewrite list_elem_of_In, in_map_iff. split.
  - intros [(x & Ex & (r & k & Hl & ->)%list_elem_of_In%projected_elem) He].
    destruct (project_key r k Hl) as (Ek & _). rewrite Ex in Ek. destruct (folded k) eqn:Ef.
    + right. split; [|done]. by exists r, k.
    + left. exists r, k. split_and!; [done..|]. rewrite He, Ek. by apply object_group.
  - intros [(r & k & Hl & Hf & ->)|[(r & k & Hl & Hf & Ek) He]]; (split; [|]).
    + exists (project req (r, k)). destruct (project_key r k Hl) as (-> & _). rewrite Hf.
      split; [done|]. apply list_elem_of_In, projected_elem. eauto.
    + cbn [key plain]. by rewrite (object_group r k).
    + exists (project req (r, k)). destruct (project_key r k Hl) as (-> & _). rewrite Hf.
      split; [done|]. apply list_elem_of_In, projected_elem. eauto.
    + exact He.
Qed.
End Objects.

(** ** The whole listing *)

Lemma remove_dups_length {A} `{!EqDecision A} (l : list A) : (length (remove_dups l) <= length l)%nat.
Proof. induction l as [|x l IH]; simpl; [done|]. case_decide; simpl; lia. Qed.

Section Whole.
Context `{!Env} `{!S3Object.MimeTypes} (w : World) (bucket prefix delimiter : string) (maxKeys : Z).
Hypothesis (Hwf : wf_tree (T w))
  (Hnames : forall r, r ∈ T w -> ParentEntryId_ r <> 0 -> comp (FileName_ r))
  (Hbucket : comp bucket) (Hascii : ascii_text bucket = true) (Halias : no_alias (T w) bucket)
  (Hmax : 0 < maxKeys)
  (Hobjects : forall k r, listed w bucket prefix k r ->
     text (behind prefix k) = true /\ exists n, ParseUint (RefData_ r) = Ok n).

(** What an item shows of its file. *)
Definition shows (i : S3ListItem) (r : directoryEntryTab) : Prop :=
  iSize i = FileSize_ r /\ iLastModified i = Mtime_ r /\
  match head (sql_select (fun m => m_entry_id m =? EntryId_ r) (t_s3meta (db w))) with
  | Some m => iETag i = m_etag m /\ iChecksumAlgorithm i = m_req_algorithm m /\
              iChecksumType i = m_checksum_type m
  | None => forall n, ParseUint (RefData_ r) = Ok n ->
              iETag i = "W/" +:+ S3Object.quoted (FormatUint n)
  end.

Lemma listed_key_ne k r : listed w bucket prefix k r -> k <> "".
Proof using Hwf Hnames.
  intros [(cs & Hne & Hcomp & -> & _)%(object_comps w bucket Hwf Hnames) _]. by apply join_slash_ne.
Qed.

Lemma plain_shows r k n :
  ParseUint (RefData_ r) = Ok n -> shows (entry_item w bucket (plain r k)) r.
Proof.
  intros En. unfold shows, entry_item, entry_metadata, entry_link, plain.
  cbn [iSize iLastModified iETag iChecksumAlgorithm iChecksumType fileSize mtime entryID refData ctime key].
  split_and!; [done..|]. destruct (head _); [done|]. intros n' E. rewrite E in *. simplify_eq. done.
Qed.

Lemma rows_bound (rows : list (directoryEntryTab * string)) :
  NoDup rows -> (forall r p, (r, p) ∈ rows <-> exists cs, at_path (T w) cs r /\ p = full_path cs) ->
  (length (ordered bucket prefix delimiter maxKeys rows) <= length (T w))%nat.
Proof using Hwf.
  intros Hnd Hrows. unfold ordered. rewrite (Permutation_length (order_by_perm _ _)).
  unfold entries, deduplicated, group_by. rewrite length_map.
  etransitivity; [apply remove_dups_length|]. rewrite !length_map. unfold objects. rewrite length_map.
  etransitivity; [apply sublist_length, filter_sublist|].
  rewrite <- (length_fmap fst rows). apply submseteq_length, NoDup_submseteq.
  - apply (NoDup_fmap_2_strong fst); [|done].
    intros [r p] [r' p'] (cs & Hcs & ->)%Hrows (cs' & Hcs' & ->)%Hrows E. cbn in E. subst r'.
    by rewrite (at_path_inj _ Hwf _ _ _ Hcs Hcs').
  - intros r ([r' p] & -> & (cs & Hcs & _)%Hrows)%list_elem_of_fmap. by eapply at_path_elem.
Qed.

Lemma whole_listing :
  exists items prefixes,
    list_all (S (length (T w))) bucket prefix delimiter "" maxKeys w = (Ok (items, prefixes), w) /\
    StronglySorted text_lt (map iKey items) /\
    StronglySorted text_lt prefixes /\
    (forall k, k ∈ map iKey items <->
       exists r, listed w bucket prefix k r /\ folded prefix delimiter k = false) /\
    (forall p, p ∈ prefixes <->
       exists k r, listed w bucket prefix k r /\ folded prefix delimiter k = true /\
         p = common_prefix prefix k) /\
    (forall i, i ∈ items -> exists r, listed w bucket prefix (iKey i) r /\ shows i r).
Proof using Hwf Hnames Hbucket Hascii Halias Hmax Hobjects.
  destruct (tree_rows (T w) Hwf Hnames (db w) eq_refl) as (rows & Erows & Hnd & Hrows).
  pose proof (entries_spec w bucket prefix delimiter maxKeys Hwf Hnames Hbucket Hascii Halias rows Hnd Hrows
    (fun k r Hl => proj1 (Hobjects k r Hl))) as Hentries.
  pose proof (common_group w bucket prefix delimiter maxKeys Hwf Hnames Hbucket Hascii Halias rows Hrows
    (fun k r Hl => proj1 (Hobjects k r Hl))) as Hcommon.
  set (D := entries bucket prefix delimiter maxKeys rows) in *.
  set (L := ordered bucket prefix delimiter maxKeys rows).
  assert (forall e, e ∈ L <-> e ∈ D) as HL by (intros; apply order_by_elem).
  assert (forall e, e ∈ D -> is_object e = true ->
    exists r k, listed w bucket prefix k r /\ folded prefix delimiter k = false /\ e = plain r k) as Hobj.
  { intros e [?|[Hex He]]%Hentries Hob; [done|]. exfalso. unfold is_object in Hob.
    rewrite He, Hcommon in Hob; [done|]. destruct Hex as (r & k & ?). eauto. }
  assert (StronglySorted (fun a b => text_lt (key a) (key b)) L) as Hsorted.
  { apply (by_text_sorted key D). apply entries_nodup. }
  exists (items_of w bucket L), (prefixes_of L). split.
  - refine (list_all_run w bucket prefix delimiter maxKeys rows Erows _ _ Hmax (S (length (T w)))
      [] L eq_refl _); fold D; [| |by apply le_n_S, rows_bound].
    + intros e [(r & k & Hl & _ & ->)|[(r & k & Hl & Hf & Ek) _]]%Hentries;
        [by apply (listed_key_ne k r)|].
      destruct (common_prefix_ends prefix delimiter k Hf) as (s & Es). rewrite Ek, Es.
      intros E. by destruct s.
    + intros e He Hob. destruct (Hobj e He Hob) as (r & k & Hl & _ & ->). apply (Hobjects k r Hl).
  - assert (map iKey (items_of w bucket L) = map key (List.filter is_object L)) as Ekeys
      by (unfold items_of; rewrite map_map; done).
    rewrite Ekeys. unfold prefixes_of. split; [by apply (sorted_filter_by text_lt)|]. split; [by apply (sorted_filter_by text_lt)|].
    split; [|split].
    + intros k. rewrite list_elem_of_In, in_map_iff. setoid_rewrite List.filter_In. split.
      * intros (e & <- & He%list_elem_of_In%HL & Hob).
        destruct (Hobj e He Hob) as (r & k & Hl & Hf & ->). eauto.
      * intros (r & Hl & Hf). exists (plain r k). rewrite <- list_elem_of_In, HL, Hentries.
        split_and!; [done| |done]. left. eauto.
    + intros p. rewrite list_elem_of_In, in_map_iff. setoid_rewrite List.filter_In. split.
      * intros (e & <- & He%list_elem_of_In%HL & Hob).
        apply Hentries in He as [(r & k & _ & _ & ->)|[(r & k & ?) _]]; [done|eauto].
      * intros (k & r & Hl & Hf & ->).
        set (R := request bucket prefix delimiter maxKeys "").
        exists (aggregate (common_prefix prefix k) (List.filter (fun e => bool_decide (key e = common_prefix prefix k))
          (map (project R) (objects rows R)))). rewrite <- list_elem_of_In, HL, Hentries.
        split_and!; [reflexivity| |].
        -- right. split; [by exists r, k|reflexivity].
        -- unfold is_object. rewrite Hcommon; [done|eauto].
    + intros i (e & <- & [He%list_elem_of_In%HL Hob]%List.filter_In)%list_elem_of_In%in_map_iff.
      destruct (Hobj e He Hob) as (r & k & Hl & _ & ->). exists r. split; [done|].
      destruct (Hobjects k r Hl) as [_ [n En]]. by apply (plain_shows r k n).
Qed.
End Whole.

(** C6: Let a bucket have an ASCII name, let no other entry of the root have that name in
    other case, let the names of the tree be path components, and let the keys to list go
    on after the prefix with whole characters and belong to files with numeric references.
    Then asking for page after page, each with the last key of the one before as its token,
    ends and lists exactly the objects of the bucket whose key starts with the prefix when
    the case of ASCII letters is ignored, as LIKE does it: each appears exactly once in the
    order of the keys, either as an item with its size, time and entity tag or, when the
    delimiter folds it, under its common prefix. Without the condition on the case of the
    bucket's name files of another directory are listed ([Demo.listing_crosses_case]). *)
Theorem s3_listing_complete `{!Env} `{!S3Object.MimeTypes} w bucket prefix delimiter maxKeys :
  wf_tree (T w) ->
  (forall r, r ∈ T w -> ParentEntryId_ r <> 0 -> comp (FileName_ r)) ->
  comp bucket -> ascii_text bucket = true -> no_alias (T w) bucket -> 0 < maxKeys ->
  (forall k r, listed w bucket prefix k r ->
     text (behind prefix k) = true /\ exists n, ParseUint (RefData_ r) = Ok n) ->
  exists items prefixes,
    list_all (S (length (T w))) bucket prefix delimiter "" maxKeys w = (Ok (items, prefixes), w) /\
    StronglySorted text_lt (map iKey items) /\
    StronglySorted text_lt prefixes /\
    (forall k, k ∈ map iKey items <->
       exists r, listed w bucket prefix k r /\ folded prefix delimiter k = false) /\
    (forall p, p ∈ prefixes <->
       exists k r, listed w bucket prefix k r /\ folded prefix delimiter k = true /\
         p = common_prefix prefix k) /\
    (forall i, i ∈ items -> exists r, listed w bucket prefix (iKey i) r /\ shows w i r).
Proof. intros. by apply whole_listing. Qed.

(** ** A bucket with /a/b and /a/c/d, next to a directory /e *)
Module Demo.
#[local] Existing Instance demo_env.
#[local] Instance demo_mime : S3Object.MimeTypes := fun _ d => d.

Definition demo_rows : list directoryEntryTab := Eval vm_compute in T demo_world.
Lemma demo_rows_eq : T demo_world = demo_rows.
Proof. vm_compute. reflexivity. Qed.

Lemma demo_names r : r ∈ T demo_world -> ParentEntryId_ r <> 0 -> comp (FileName_ r).
Proof.
  rewrite demo_rows_eq. intros Hr.
  repeat (apply elem_of_cons in Hr as [-> |Hr]; [intros Hp; first [by destruct (Hp eq_refl)
    |apply (bool_decide_unpack _); vm_compute; exact I]|]).
  by apply elem_of_nil in Hr.
Qed.

Definition demo_paths : list (directoryEntryTab * string) :=
  Eval vm_compute in
    match WebDAV.tree_from (db demo_world) WebDAV.is_root_row with Ok l => l | Err _ => [] end.

(** Every row of the tree with its path. *)
Lemma demo_path cs r : at_path (T demo_world) cs r -> (r, full_path cs) ∈ demo_paths.
Proof.
  intros Hcs. destruct (tree_rows _ (proj1 demo_world_wf) demo_names (db demo_world) eq_refl)
    as (rows & E & _ & Hrows).
  assert (WebDAV.tree_from (db demo_world) WebDAV.is_root_row = Ok demo_paths) as E' by (vm_compute; reflexivity).
  rewrite E' in E. injection E as <-. apply Hrows. eauto.
Qed.

Lemma demo_alias : no_alias (T demo_world) "a".
Proof.
  intros c r Hcs%demo_path Hc. unfold full_path in Hcs. cbn [join_slash] in Hcs.
  revert Hc. unfold demo_paths in Hcs.
  repeat (apply elem_of_cons in Hcs as [[_ E]%pair_equal_spec|Hcs];
    [apply (f_equal (skip_bytes 1)) in E; cbv [String.append skip_bytes] in E; subst c; first [done|intros Hc; vm_compute in Hc; discriminate Hc]|]).
  by apply elem_of_nil in Hcs.
Qed.

Lemma demo_listed k r : listed demo_world "a" "" k r ->
  text (behind "" k) = true /\ exists n, ParseUint (RefData_ r) = Ok n.
Proof.
  intros [(cs & Hne & Hcs & Hk & ->) _]. apply demo_path in Hcs. rewrite full_path_bucket in Hcs by done.
  unfold demo_paths in Hcs. revert Hk.
  repeat (apply elem_of_cons in Hcs as [[-> E]%pair_equal_spec|Hcs];
    [intros Hk; first [discriminate Hk|apply (f_equal (skip_bytes 3)) in E; cbv [String.append skip_bytes] in E;
      rewrite E; split; [vm_compute; reflexivity|eexists; vm_compute; reflexivity]]|]).
  by apply elem_of_nil in Hcs.
Qed.

Lemma s3_listing_complete_witness :
  exists items, list_all 7 "a" "" "/" "" 1 demo_world = (Ok (items, ["c/"]), demo_world) /\
    map iKey items = ["b"] /\ forall i, i ∈ items -> exists r, shows demo_world i r.
Proof.
  destruct (s3_listing_complete demo_world "a" "" "/" 1 (proj1 demo_world_wf) demo_names
    ltac:(by apply (bool_decide_unpack _)) eq_refl demo_alias ltac:(lia) demo_listed)
    as (items & prefixes & Hrun & _ & _ & _ & _ & Hshow).
  assert (S (length (T demo_world)) = 7%nat) as E by (vm_compute; reflexivity). rewrite E in Hrun.
  assert (prefixes = ["c/"] /\ map iKey items = ["b"]) as [-> Hkeys].
  { vm_compute in Hrun. injection Hrun as <- <-. split; reflexivity. }
  exists items. split; [exact Hrun|]. split; [exact Hkeys|].
  intros i Hi. destruct (Hshow i Hi) as (r & _ & Hr). exists r. exact Hr.
Defined.

(** A file that lies in the directory /A, which is no bucket, is listed as an object of
    the bucket "a", with a key under which the bucket has nothing. *)
Definition other_case : World := run_ops [OpCreate "/A/x" 3 "77"; OpMkdir "/a"] demo_start.
Lemma listing_crosses_case :
  (exists page, (ListS3Objects (request "a" "" "" 10 "") other_case).1 = Ok page /\
     map iKey (Items page) = ["x"]) /\
  (Directory.Stat "/a/x" other_case).1 = Err ErrNotExist.
Proof.
  split; [|vm_compute; reflexivity]. eexists. split; [vm_compute; reflexivity|reflexivity].
Qed.
End Demo.
