(* ===== verification/UploadListTheorems.v ===== *)
(** * Listing the running uploads of a bucket

    Following the markers of [ListMultipartUploads] lists every running upload of the
    bucket behind the prefix once, by key and upload id, or its common prefix. *)

From stdpp Require Import base strings list sorting.
From Stdlib Require Import Ascii.
From S2P Require Import Prelude Paging GoStr SqlText Store Multipart S3List S3ListTheorems.
Import Multipart UploadList.

(** A client that follows the markers. *)
Section Client.
Context `{!Env}.
Fixpoint list_uploads (fuel : nat) (bucket prefix delimiter keyMarker idMarker : string) (maxUploads : Z)
    : M World (list MultipartUploadListItem * list string) :=
  match fuel with
  | O => fail Diverge
  | S fuel =>
      page ← ListMultipartUploads {| Bucket := bucket; Prefix := prefix; Delimiter := delimiter;
        KeyMarker := keyMarker; UploadIDMarker := idMarker; MaxUploads := maxUploads |};
      if IsTruncated page then
        rest ← list_uploads fuel bucket prefix delimiter (NextKeyMarker page) (NextUploadIDMarker page)
                 maxUploads;
        mret (Uploads page ++ rest.1, CommonPrefixes page ++ rest.2)
      else mret (Uploads page, CommonPrefixes page)
  end.
End Client.

(** ** The order of the listing *)
Definition pair_lt (a b : string * string) : Prop :=
  text_lt a.1 b.1 \/ (a.1 = b.1 /\ text_lt a.2 b.2).

Lemma pair_irrefl a : ~ pair_lt a a.
Proof. intros [H|[_ H]]; by apply text_irrefl in H. Qed.

Lemma pair_trans a b c : pair_lt a b -> pair_lt b c -> pair_lt a c.
Proof.
  unfold pair_lt. destruct a as [a1 a2], b as [b1 b2], c as [c1 c2]. cbn.
  intros [H1|[-> H1]] [H2|[-> H2]]; [left; by eapply ltb_trans|by left|by left|].
  right. split; [done|]. by eapply ltb_trans.
Qed.

Lemma pair_cases a b : pair_lt a b \/ a = b \/ pair_lt b a.
Proof.
  unfold pair_lt. destruct a as [a1 a2], b as [b1 b2]. cbn.
  destruct (ltb_trichotomy a1 b1) as [?|[-> |?]]; [by auto| |by auto].
  destruct (ltb_trichotomy a2 b2) as [?|[-> |?]]; auto 6.
Qed.

Definition place (p : multipartListProjection) : string * string := (key p, uploadID p).

Lemma by_upload_spec a b : by_upload a b = true <-> pair_lt (place a) (place b) \/ place a = place b.
Proof.
  unfold by_upload, pair_lt, place. cbn.
  rewrite orb_true_iff, andb_true_iff, String.eqb_eq, leb_spec. unfold text_lt. split.
  - intros [?|[-> [?| ->]]]; auto.
  - intros [[?|[-> ?]]|[= -> ->]]; auto.
Qed.

(** ** A page *)
Definition uploads_of (l : list multipartListProjection) : list MultipartUploadListItem :=
  map item_of (List.filter (fun p => negb (common p)) l).
Definition commons_of (l : list multipartListProjection) : list string :=
  map key (List.filter common l).
Definition cut_place (l : list multipartListProjection) : string * string :=
  match last l with Some p => place p | None => ("", "") end.

Lemma uploads_app l1 l2 : uploads_of (l1 ++ l2) = uploads_of l1 ++ uploads_of l2.
Proof. unfold uploads_of. by rewrite List.filter_app, map_app. Qed.
Lemma commons_app l1 l2 : commons_of (l1 ++ l2) = commons_of l1 ++ commons_of l2.
Proof. unfold commons_of. by rewrite List.filter_app, map_app. Qed.

Lemma append_all page l :
  foldl appendProjection page l =
  {| Uploads := Uploads page ++ uploads_of l; CommonPrefixes := CommonPrefixes page ++ commons_of l;
     IsTruncated := IsTruncated page;
     NextKeyMarker := match last l with Some p => key p | None => NextKeyMarker page end;
     NextUploadIDMarker := match last l with Some p => uploadID p | None => NextUploadIDMarker page end |}.
Proof.
  revert page. induction l as [|p l IH]; intros page; cbn [foldl].
  { rewrite !app_nil_r. by destruct page. }
  rewrite IH. change (p :: l) with ([p] ++ l). rewrite uploads_app, commons_app, last_app.
  unfold appendProjection, uploads_of at 2, commons_of at 2. cbn.
  destruct (common p); cbn; rewrite ?app_nil_l, <- ?app_assoc; f_equal; by destruct (last l).
Qed.

Lemma build_page l2 maxUploads :
  0 < maxUploads ->
  let page := ztake maxUploads l2 in
  buildMultipartUploadPage (sql_limit 0 (Z.to_nat (maxUploads + 1)) l2) maxUploads =
  {| Uploads := uploads_of page; CommonPrefixes := commons_of page; IsTruncated := maxUploads <? zlen l2;
     NextKeyMarker := if maxUploads <? zlen l2 then (cut_place page).1 else "";
     NextUploadIDMarker := if maxUploads <? zlen l2 then (cut_place page).2 else "" |}.
Proof.
  intros Hmax page. unfold buildMultipartUploadPage, sql_limit. rewrite drop_0.
  assert ((maxUploads <? zlen (take (Z.to_nat (maxUploads + 1)) l2)) = (maxUploads <? zlen l2)) as ->.
  { unfold zlen. rewrite length_take.
    destruct (Z.ltb_spec maxUploads (Z.of_nat (length l2))); [apply Z.ltb_lt|apply Z.ltb_ge]; lia. }
  assert (page = if maxUploads <? zlen l2 then ztake maxUploads (take (Z.to_nat (maxUploads + 1)) l2)
                 else take (Z.to_nat (maxUploads + 1)) l2) as Hpage.
  { unfold page, ztake, zlen. destruct (Z.ltb_spec maxUploads (Z.of_nat (length l2))).
    - rewrite take_take. f_equal. lia.
    - by rewrite !take_ge by lia. }
  rewrite append_all, <- Hpage. cbn. unfold cut_place.
  destruct (maxUploads <? zlen l2) eqn:E; cbn; by destruct (last page).
Qed.

(** The common prefixes are ordered by themselves: no two share a key. *)
Lemma sorted_commons l :
  StronglySorted (fun a b => pair_lt (place a) (place b)) l ->
  (forall p x, p ∈ l -> x ∈ l -> common x = true -> key p = key x -> p = x) ->
  StronglySorted text_lt (commons_of l).
Proof.
  unfold commons_of. induction 1 as [|x l Hs IH Hx]; intros Hone; simpl; [constructor|].
  assert (StronglySorted text_lt (map key (List.filter common l))) as Hrest.
  { apply IH. intros p y Hp Hy. apply Hone; by right. }
  destruct (common x) eqn:Ex; [|done]. simpl. constructor; [done|]. apply Forall_forall.
  intros y (z & <- & [Hz Hc]%List.filter_In)%list_elem_of_In%in_map_iff.
  rewrite Forall_forall in Hx. apply list_elem_of_In in Hz. destruct (Hx z Hz) as [?|[Ek Hlt]]; [done|].
  cbn in *. rewrite (Hone x z ltac:(left) ltac:(by right) Hc Ek) in Hlt. by apply text_irrefl in Hlt.
Qed.

(** ** The projections *)
Section Listing.
Context `{!Env} (d : DB) (bucket prefix delimiter : string) (maxUploads : Z).

(** The running uploads of the listing. *)
Definition upload_listed (u : upload_row) : Prop :=
  u ∈ t_upload d /\ u_bucket u = bucket /\ u_active u = true /\
  u_key u = prefix +:+ behind prefix (u_key u).
Definition no_expiry : Prop :=
  forall u n, u ∈ t_upload d -> u_active u = true -> clk n < u_expires_at u.

Definition as_item (u : upload_row) : MultipartUploadListItem :=
  {| uKey := u_key u; uUploadID := u_upload_id u; uInitiated := u_initiated_at u;
     uAlgorithm := u_algorithm u; uChecksumType := u_type u |}.

Hypothesis (Hids : NoDup (u_upload_id <$> t_upload d))
  (Hne : forall u, u ∈ t_upload d -> u_upload_id u <> "" /\ u_key u <> "")
  (Hexp : no_expiry) (Hbucket : bucket <> "") (Hdelim : delimiter = "" \/ delimiter = "/")
  (Hmax : 1 <= maxUploads <= 1000)
  (Htext : forall u, u ∈ t_upload d -> u_bucket u = bucket -> text (behind prefix (u_key u)) = true).

Definition page_request (m : string * string) : ListMultipartUploadsRequest :=
  {| Bucket := bucket; Prefix := prefix; Delimiter := delimiter; KeyMarker := m.1;
     UploadIDMarker := m.2; MaxUploads := maxUploads |}.
Notation req := (page_request ("", "")).

Lemma matching_spec u n :
  u ∈ t_upload d -> matching req (clk n) u = true <-> upload_listed u.
Proof using Hexp Htext.
  intros Hu. unfold matching, upload_listed. cbn [Bucket Prefix page_request].
  rewrite !andb_true_iff, String.eqb_eq, Z.ltb_lt. split.
  - intros [[[Hb Ha] _] Hk]. split_and!; [done..|].
    apply take_prefix; [by apply text_clean, Htext|done].
  - intros (_ & Hb & Ha & Hk). split_and!; [done..|by apply Hexp|].
    apply take_prefix; [by apply text_clean, Htext|done].
Qed.

Lemma project_spec u :
  upload_listed u ->
  project req u =
  if folded prefix delimiter (u_key u)
  then {| key := common_prefix prefix (u_key u); uploadID := ""; checksumAlgorithm := "";
          checksumType := ""; initiated := 0; common := true |}
  else {| key := u_key u; uploadID := u_upload_id u; checksumAlgorithm := u_algorithm u;
          checksumType := u_type u; initiated := u_initiated_at u; common := false |}.
Proof using Htext.
  intros (Hu & Hb & _ & Hk). pose proof (Htext u Hu Hb) as Ht. unfold project. cbn [Delimiter Prefix page_request].
  assert (sql_substr (u_key u) (sql_length prefix + 1) = behind prefix (u_key u)) as ->.
  { rewrite Hk at 1. apply skip_prefix; [|by apply text_clean].
    unfold fold_equal. rewrite Nat.eqb_refl, andb_true_r.
    pose proof (fold_prefix_app prefix "") as Hp. by rewrite string_app_empty in Hp. }
  rewrite instr_pos. fold (folded prefix delimiter (u_key u)).
  destruct (folded prefix delimiter (u_key u)) eqn:Ef; [|done].
  unfold common_prefix. rewrite take_to_slash; [done..|].
  unfold folded in Ef. by apply andb_true_iff in Ef as [_ ?].
Qed.

Definition live : list multipartListProjection :=
  group_by group_key aggregate (map (project req) (sql_select (matching req (clk 0)) (t_upload d))).

Lemma dedup_live m n : deduplicated d (page_request m) (clk n) = live.
Proof using Hexp Htext.
  unfold deduplicated, live. do 2 f_equal. apply filter_ext_in. intros u Hu%list_elem_of_In.
  apply eq_true_iff_eq. change (matching (page_request m) (clk n) u) with (matching req (clk n) u).
  by rewrite !matching_spec.
Qed.

Lemma aggregate_same e g : g <> [] -> (forall x, x ∈ g -> x = e) -> aggregate (group_key e) g = e.
Proof.
  intros Hg He. destruct g as [|x g]; [done|]. rewrite (He x) by left.
  assert (forall x, x ∈ g -> x = e) as Hg' by (intros; apply He; by right). clear He Hg.
  assert (max_Z (map initiated (e :: g)) = initiated e /\
    max_string (map checksumAlgorithm (e :: g)) = checksumAlgorithm e /\
    max_string (map checksumType (e :: g)) = checksumType e) as (E1 & E2 & E3).
  { cbn [map max_Z max_string]. induction g as [|y g IH]; [done|]. cbn [map foldl].
    rewrite (Hg' y), !ltb_irrefl, Z.max_id by left. apply IH. intros; apply Hg'; by right. }
  unfold aggregate, group_key. rewrite E1, E2, E3. by destruct e.
Qed.

Lemma live_spec e : e ∈ live <-> exists u, upload_listed u /\ e = project req u.
Proof using Hids Hne Hexp Htext.
  assert (forall e, e ∈ map (project req) (sql_select (matching req (clk 0)) (t_upload d)) <->
    exists u, upload_listed u /\ e = project req u) as Hin.
  { intros x. rewrite list_elem_of_In, in_map_iff. split.
    - intros (u & <- & [Hu Hm]%list_elem_of_In%sql_select_elem). exists u. by rewrite <- matching_spec.
    - intros (u & Hl & ->). exists u. split; [done|]. apply list_elem_of_In, sql_select_elem.
      rewrite matching_spec by apply Hl. split; [apply Hl|done]. }
  assert (forall e, (exists u, upload_listed u /\ e = project req u) ->
    aggregate (group_key e) (List.filter (fun r => bool_decide (group_key r = group_key e))
      (map (project req) (sql_select (matching req (clk 0)) (t_upload d)))) = e) as Hsame.
  { intros x Hx. apply aggregate_same.
    - intros E. apply (elem_of_nil x). rewrite <- E.
      rewrite list_elem_of_In, List.filter_In, <- list_elem_of_In, Hin, bool_decide_eq_true. done.
    - intros y Hy. rewrite list_elem_of_In, List.filter_In, <- list_elem_of_In, Hin, bool_decide_eq_true in Hy.
      destruct Hy as [(v & Hv & ->) Ek], Hx as (u & Hu & ->). rewrite !project_spec in * by done.
      destruct (folded prefix delimiter (u_key u)), (folded prefix delimiter (u_key v));
        unfold group_key in Ek; cbn in Ek; [by injection Ek as ->|done|done|].
      assert (v = u) as ->; [|done]. apply (NoDup_fmap_inj u_upload_id (t_upload d)); [done|apply Hv|apply Hu|].
      by injection Ek. }
  unfold live. rewrite (group_elem group_key aggregate group_key (fun k g => ltac:(by destruct k as [[] ?]))).
  rewrite list_elem_of_In, in_map_iff. split.
  - intros [(x & Ex & Hx%list_elem_of_In%Hin) He]. rewrite He, <- Ex, Hsame by done. done.
  - intros He. split; [|by rewrite Hsame]. exists e. split; [done|]. by apply list_elem_of_In, Hin.
Qed.

(** Two entries at the same place are the same; one that shares its key with a common
    prefix is that common prefix. *)
Lemma common_alone p x :
  p ∈ live -> x ∈ live -> common x = true -> key p = key x -> p = x.
Proof using Hids Hne Hexp Htext.
  rewrite !live_spec. intros (u & Hu & ->) (v & Hv & ->). rewrite !project_spec by done.
  destruct (folded prefix delimiter (u_key v)) eqn:Fv; [|done]. intros _. cbn.
  destruct (folded prefix delimiter (u_key u)) eqn:Fu; cbn; [by intros ->|].
  intros Ek. exfalso. unfold folded in *. apply andb_true_iff in Fv as [Ed Hs]. rewrite Ed in Fu. cbn in Fu.
  unfold behind at 1 in Fu. rewrite Ek in Fu. unfold common_prefix in Fu. rewrite skip_bytes_app in Fu.
  destruct (up_to_slash_ends _ Hs) as (s & Es). rewrite Es, has_byte_app in Fu.
  by destruct (has_byte slash s).
Qed.

Lemma live_places : NoDup (place <$> live).
Proof using Hids Hne Hexp Htext.
  pose proof (group_nodup group_key aggregate group_key (fun k g => ltac:(by destruct k as [[] ?]))
    (map (project req) (sql_select (matching req (clk 0)) (t_upload d)))) as Hnd. fold live in Hnd.
  apply NoDup_fmap_2_strong; [|by eapply NoDup_fmap_1].
  intros p x Hp Hx [= Ek Ei]. destruct (common x) eqn:Ex; [by apply common_alone|].
  destruct (common p) eqn:Ep; [symmetry; by apply common_alone|].
  apply (NoDup_fmap_inj group_key live); [done..|]. unfold group_key. congruence.
Qed.

Lemma live_key_ne p : p ∈ live -> key p <> "".
Proof using Hids Hne Hexp Htext.
  rewrite live_spec. intros (u & Hu & ->). rewrite project_spec by done.
  destruct (folded prefix delimiter (u_key u)) eqn:Fu; cbn; [|by apply Hne, Hu].
  destruct (common_prefix_ends _ _ _ Fu) as (s & ->). intros E. by destruct s.
Qed.

Lemma common_id p : p ∈ live -> (uploadID p = "" <-> common p = true).
Proof using Hids Hne Hexp Htext.
  rewrite live_spec. intros (u & Hu & ->). rewrite project_spec by done.
  destruct (folded prefix delimiter (u_key u)); cbn; [done|].
  split; [|done]. intros E. by destruct (Hne u (proj1 Hu)).
Qed.

Lemma after_place l1 l2 r :
  order_by by_upload live = l1 ++ l2 -> r ∈ live ->
  after_marker (page_request (cut_place l1)) r = true <->
  match last l1 with Some x => pair_lt (place x) (place r) | None => True end.
Proof using Hids Hne Hexp Htext.
  intros E Hr. unfold after_marker, cut_place. cbn [KeyMarker UploadIDMarker page_request].
  rewrite orb_true_iff, !andb_true_iff, negb_true_iff, String.eqb_eq, String.eqb_neq.
  destruct (last l1) as [x|] eqn:Ex; cbn [fst snd place].
  - assert (x ∈ live) as Hx.
    { apply last_Some in Ex as [l ->]. apply (order_by_elem by_upload). rewrite E, !elem_of_app. left. right. left. }
    unfold pair_lt, text_lt. cbn [fst snd place]. split.
    + intros [?|[[? _] ?]]; auto.
    + intros [?|[Ek Hlt]]; [by auto|]. right. split_and!; [done| |done]. intros Ei.
      apply (common_id x Hx) in Ei. rewrite (common_alone r x Hr Hx Ei) in Hlt by done.
      by rewrite ltb_irrefl in Hlt.
  - split; [done|]. intros _. left. pose proof (live_key_ne r Hr). by destruct (key r).
Qed.

Lemma cleanup_nothing w n :
  db w = d -> processExpiredMultipartUploads (clk n) multipartCleanupBatchSize w = (Ok tt, w).
Proof using Hexp.
  intros Hd. unfold processExpiredMultipartUploads, OnTransation, query.
  rewrite (bind_ok (reads _) _ w [] w); [done|]. unfold reads. do 2 f_equal. rewrite Hd.
  assert (sql_select (fun u => u_active u && (u_expires_at u <=? clk n)) (t_upload d) = []) as ->; [|done].
  apply filter_none. intros u Hu. destruct (u_active u) eqn:Ea; [|done]. specialize (Hexp u n Hu Ea). cbn. lia.
Qed.

Lemma upload_page_run w l1 l2 :
  db w = d -> order_by by_upload live = l1 ++ l2 ->
  let page := ztake maxUploads l2 in
  exists w', db w' = d /\
  ListMultipartUploads (page_request (cut_place l1)) w =
  (Ok {| Uploads := uploads_of page; CommonPrefixes := commons_of page; IsTruncated := maxUploads <? zlen l2;
         NextKeyMarker := if maxUploads <? zlen l2 then (cut_place page).1 else "";
         NextUploadIDMarker := if maxUploads <? zlen l2 then (cut_place page).2 else "" |}, w').
Proof using Hids Hne Hexp Hbucket Hdelim Hmax Htext.
  intros Hd E page. unfold ListMultipartUploads. change (Bucket (page_request (cut_place l1))) with bucket.
  change (MaxUploads (page_request (cut_place l1))) with maxUploads.
  change (Delimiter (page_request (cut_place l1))) with delimiter.
  assert ((String.eqb bucket "" || (maxUploads <? 0) || (1000 <? maxUploads) ||
    (negb (String.eqb delimiter "") && negb (String.eqb delimiter "/"))) = false) as ->.
  { apply String.eqb_neq in Hbucket. rewrite Hbucket. destruct Hdelim as [-> | ->]; cbn; lia. }
  rewrite (bind_ok (check false _) _ w tt w eq_refl). rewrite (bind_ok now _ w _ _ eq_refl).
  set (w1 := {| db := db w; ticks := S (ticks w); ids := ids w |}).
  rewrite (bind_ok _ _ w1 tt w1 (cleanup_nothing w1 (ticks w) Hd)).
  assert ((maxUploads =? 0) = false) as -> by lia.
  exists {| db := db w; ticks := S (S (ticks w)); ids := ids w |}. split; [done|].
  unfold readMultipartUploadProjections. rewrite (bind_ok _ _ w1
    (sql_limit 0 (Z.to_nat (maxUploads + 1)) l2) {| db := db w; ticks := S (S (ticks w)); ids := ids w |}).
  - pose proof (build_page l2 maxUploads ltac:(lia)) as Hb. cbv zeta in Hb. by rewrite Hb.
  - rewrite (bind_ok now _ w1 _ _ eq_refl). unfold query, reads. cbn [db w1].
    change (MaxUploads (page_request (cut_place l1))) with maxUploads. rewrite Hd, dedup_live. do 3 f_equal. apply (strict_page place pair_lt by_upload pair_irrefl pair_trans
      pair_cases by_upload_spec live live_places _ l1 l2); [|done]. intros r Hr. by apply (after_place l1 l2).
Qed.

Lemma list_uploads_run fuel w l1 l2 :
  db w = d -> order_by by_upload live = l1 ++ l2 -> (length l2 < fuel)%nat ->
  exists w', db w' = d /\
    list_uploads fuel bucket prefix delimiter (cut_place l1).1 (cut_place l1).2 maxUploads w =
    (Ok (uploads_of l2, commons_of l2), w').
Proof using Hids Hne Hexp Hbucket Hdelim Hmax Htext.
  revert w l1 l2. induction fuel as [|fuel IH]; intros w l1 l2 Hd E Hf; [lia|]. cbn [list_uploads].
  destruct (upload_page_run w l1 l2 Hd E) as (w1 & Hd1 & Hrun). cbv zeta in Hrun. unfold page_request in Hrun.
  rewrite (bind_ok _ _ _ _ _ Hrun).
  cbn [IsTruncated NextKeyMarker NextUploadIDMarker Uploads CommonPrefixes]. clear Hrun.
  destruct (Z.ltb_spec maxUploads (zlen l2)) as [Hlt|Hge].
  2: { exists w1. split; [done|]. unfold ztake, zlen in *. by rewrite take_ge by lia. }
  assert (cut_place (ztake maxUploads l2) = cut_place (l1 ++ ztake maxUploads l2)) as ->.
  { unfold cut_place. rewrite last_app. destruct (last (ztake maxUploads l2)) eqn:El; [done|].
    apply last_None in El. apply (f_equal length) in El. unfold ztake, zlen in *.
    rewrite length_take in El. simpl in El. lia. }
  destruct (IH w1 (l1 ++ ztake maxUploads l2) (drop (Z.to_nat maxUploads) l2)) as (w2 & Hd2 & Hrest); [done|..].
  { unfold ztake. by rewrite E, <- app_assoc, take_drop. }
  { rewrite length_drop. unfold zlen in Hlt. lia. }
  exists w2. split; [done|]. rewrite (bind_ok _ _ _ _ _ Hrest). cbn [fst snd]. unfold ztake.
  by rewrite <- uploads_app, <- commons_app, take_drop.
Qed.
End Listing.

(** C38: While no upload expires, asking for page after page with the markers of the one
    before ends and lists the running uploads of the bucket: every upload whose key
    starts with the prefix appears exactly once, in the order of keys and upload ids,
    as an item of its own or, when the delimiter folds it, under its common prefix; and
    nothing else is listed. *)
Theorem upload_listing_complete `{!Env} w bucket prefix delimiter maxUploads :
  NoDup (u_upload_id <$> t_upload (db w)) ->
  (forall u, u ∈ t_upload (db w) -> u_upload_id u <> "" /\ u_key u <> "") ->
  no_expiry (db w) -> bucket <> "" -> delimiter = "" \/ delimiter = "/" -> 1 <= maxUploads <= 1000 ->
  (forall u, u ∈ t_upload (db w) -> u_bucket u = bucket -> text (behind prefix (u_key u)) = true) ->
  exists uploads prefixes w',
    list_uploads (S (length (t_upload (db w)))) bucket prefix delimiter "" "" maxUploads w =
      (Ok (uploads, prefixes), w') /\ db w' = db w /\
    StronglySorted pair_lt (map (fun i => (uKey i, uUploadID i)) uploads) /\
    StronglySorted text_lt prefixes /\
    (forall i, i ∈ uploads <-> exists u, upload_listed (db w) bucket prefix u /\
       folded prefix delimiter (u_key u) = false /\ i = as_item u) /\
    (forall p, p ∈ prefixes <-> exists u, upload_listed (db w) bucket prefix u /\
       folded prefix delimiter (u_key u) = true /\ p = common_prefix prefix (u_key u)).
Proof.
  intros Hids Hne Hexp Hbucket Hdelim Hmax Htext.
  set (L := order_by by_upload (live (db w) bucket prefix delimiter maxUploads)).
  destruct (list_uploads_run (db w) bucket prefix delimiter maxUploads Hids Hne Hexp Hbucket Hdelim Hmax Htext
    (S (length (t_upload (db w)))) w [] L eq_refl eq_refl) as (w' & Hd & Hrun).
  { apply le_n_S. unfold L. rewrite (Permutation_length (order_by_perm _ _)). unfold live, group_by.
    rewrite length_map. etransitivity; [apply remove_dups_length|]. rewrite !length_map.
    apply sublist_length, filter_sublist. }
  exists (uploads_of L), (commons_of L), w'. split; [exact Hrun|]. split; [done|].
  assert (forall e, e ∈ L <-> exists u, upload_listed (db w) bucket prefix u /\
    e = project (page_request bucket prefix delimiter maxUploads ("", "")) u) as HL.
  { intros e. unfold L. by rewrite order_by_elem, (live_spec _ _ _ _ _ Hids Hne Hexp Htext). }
  pose proof (fun u => project_spec (db w) bucket prefix delimiter maxUploads Htext u) as Hproj.
  assert (StronglySorted (fun a b => pair_lt (place a) (place b)) L) as Hs.
  { apply (ordered_strict place pair_lt by_upload pair_irrefl pair_trans pair_cases by_upload_spec).
    by apply live_places. }
  split_and!.
  - unfold uploads_of. rewrite map_map. by apply (sorted_filter_by pair_lt place).
  - apply (sorted_commons L Hs). intros p x Hp%order_by_elem Hx%order_by_elem.
    by apply (common_alone (db w) bucket prefix delimiter maxUploads).
  - intros i. unfold uploads_of. rewrite list_elem_of_In, in_map_iff. setoid_rewrite List.filter_In. split.
    + intros (p & <- & (u & Hu & ->)%list_elem_of_In%HL & Hc). rewrite (Hproj u Hu) in *.
      destruct (folded prefix delimiter (u_key u)) eqn:Ef; [done|]. by exists u.
    + intros (u & Hu & Hf & ->). eexists. rewrite <- list_elem_of_In, HL. split; [|split; [by exists u|]];
        rewrite (Hproj u Hu), Hf; done.
  - intros p. unfold commons_of. rewrite list_elem_of_In, in_map_iff. setoid_rewrite List.filter_In. split.
    + intros (x & <- & (u & Hu & ->)%list_elem_of_In%HL & Hc). rewrite (Hproj u Hu) in *.
      destruct (folded prefix delimiter (u_key u)) eqn:Ef; [|done]. by exists u.
    + intros (u & Hu & Hf & ->). eexists. rewrite <- list_elem_of_In, HL. split; [|split; [by exists u|]];
        rewrite (Hproj u Hu), Hf; done.
Qed.

(** ** A bucket with two uploads of one key and one behind a delimiter *)
Module UploadDemo.
#[local] Instance still_env : Env := {| clk := fun _ => 5; idfn := fun n => Z.of_nat n + 1 |}.
Definition running (id k : string) : upload_row :=
  {| u_upload_id := id; u_bucket := "b"; u_key := k; u_state := UsActive; u_content_type := "";
     u_cache_control := ""; u_disposition := ""; u_encoding := ""; u_language := ""; u_expires := "";
     u_user := "{}"; u_algorithm := "CRC32"; u_type := "COMPOSITE"; u_fingerprint := "";
     u_result_file := 0; u_result_etag := ""; u_result_checksum := ""; u_initiated_at := 1;
     u_expires_at := 9; u_completed_at := 0; u_cleanup_at := 0 |}.
Definition demo_uploads : list upload_row := [running "u2" "x"; running "u1" "x"; running "u3" "d/y"].
Definition upload_world : World :=
  {| db := set_upload (fun _ => demo_uploads) empty_db; ticks := 0; ids := 0 |}.

Lemma upload_listing_complete_witness :
  exists uploads w', list_uploads 4 "b" "" "/" "" "" 1 upload_world = (Ok (uploads, ["d/"]), w') /\
    map uUploadID uploads = ["u1"; "u2"] /\
    StronglySorted pair_lt (map (fun i => (uKey i, uUploadID i)) uploads).
Proof.
  assert (forall u, u ∈ demo_uploads -> u = running "u2" "x" \/ u = running "u1" "x" \/ u = running "u3" "d/y") as Hall.
  { intros u Hu. unfold demo_uploads in Hu. rewrite !elem_of_cons, elem_of_nil in Hu. tauto. }
  destruct (upload_listing_complete upload_world "b" "" "/" 1) as (uploads & prefixes & w' & Hrun & _ & Hs & _).
  - apply (bool_decide_unpack _). vm_compute. exact I.
  - intros u [-> |[-> | ->]]%Hall; done.
  - intros u n [-> |[-> | ->]]%Hall _; vm_compute; reflexivity.
  - discriminate.
  - right. reflexivity.
  - lia.
  - intros u [-> |[-> | ->]]%Hall _; reflexivity.
  - exists uploads, w'. vm_compute in Hrun. injection Hrun as <- <- <-.
    split; [vm_compute; reflexivity|]. split; [reflexivity|exact Hs].
Defined.
End UploadDemo.
