(* ===== verification/WebDAVTheorems.v ===== *)
(** * WebDAV: theorems

    Locks guard the paths a request writes; a lock on an existing resource is exclusive;
    properties read back as they were patched. *)

From stdpp Require Import base strings list sorting gmap.
From Stdlib Require Import Ascii.
From S2P Require Import Prelude Paging GoStr SqlText BlockIO FileStream Store Directory DirFrame Tree.
From S2P Require Import DirWalk DirOps DirTx DirTheorems References RefInv Dao Mutation S3Object FileManager.
From S2P Require Import UploadProofs LinkSafety ObjectTheorems WebDAV.
Import Directory References Mutation FileMappingDao WebDAV.

(** ** The clock only moves forward *)

Definition since_tick (k : nat) (w : World) : Prop := (k <= ticks w)%nat.

#[export] Instance since_tick_dir k : DirStable (since_tick k) (fun _ => True).
Proof. split; unfold since_tick; cbn; intros; try done; lia. Qed.
#[export] Instance since_tick_queue k : QueueStable (since_tick k).
Proof. split; unfold since_tick; cbn; intros; try done; lia. Qed.

Section Ticks.
Context `{!Env} `{!S3Object.MimeTypes} (k : nat).
Notation I := (since_tick k).

Lemma tick_now : preserves I now.
Proof. intros w. unfold since_tick. cbn. lia. Qed.
Lemma tick_upd f : preserves I (upd f).
Proof. by intros w. Qed.
Lemma tick_query {A} (f : DB -> A) : preserves I (query f).
Proof. by intros w. Qed.
Lemma tick_tx {A} (m : M World A) : preserves I m -> preserves I (OnTransation m).
Proof. intros Hm w Hw. specialize (Hm w Hw). unfold OnTransation. by destruct (m w) as [[a|e] w']. Qed.
Hint Resolve tick_now tick_upd tick_query tick_tx : dir.

Lemma tick_Stat p : preserves I (Tx.Stat p).
Proof. intros w. by rewrite Stat_tx_same. Qed.
Lemma tick_mark f t : preserves I (markFileTreePendingIfUnreferenced f t).
Proof. apply view_mark; apply _. Qed.
Lemma tick_ensure f : preserves I (ensureFileTreeCanBeLinked f).
Proof. apply view_ensure; apply _. Qed.
Hint Resolve tick_Stat tick_mark tick_ensure : dir.

Lemma tick_finalize l : preserves I (finalizeRemovedWebDAVEntries l).
Proof.
  unfold finalizeRemovedWebDAVEntries, deleteMappingMetadata, deleteWebDAVProperties, deleteWebDAVLocks,
    markMappingFilesPending. dir_frame.
Qed.
Lemma tick_applicable p : preserves I (queryApplicableWebDAVLocks p).
Proof. unfold queryApplicableWebDAVLocks. dir_frame. Qed.
Lemma tick_overlapping p : preserves I (queryOverlappingWebDAVLocks p).
Proof. unfold queryOverlappingWebDAVLocks. dir_frame. Qed.
Lemma tick_etag p : preserves I (queryWebDAVETagByPath p).
Proof. unfold queryWebDAVETagByPath. dir_frame. Qed.
Hint Resolve tick_finalize tick_applicable tick_overlapping tick_etag : dir.

Lemma tick_locks ps c : preserves I (assertWebDAVLocksTx ps c).
Proof. unfold assertWebDAVLocksTx. dir_frame. Qed.
Lemma tick_tree_locks ps c : preserves I (assertWebDAVTreeLocksTx ps c).
Proof. unfold assertWebDAVTreeLocksTx. dir_frame. Qed.
Lemma tick_parent p : preserves I (ensureWebDAVParentTx p).
Proof. unfold ensureWebDAVParentTx. dir_frame. Qed.
Lemma tick_limit e n : preserves I (enforceWebDAVMutationLimitTx e n).
Proof. unfold enforceWebDAVMutationLimitTx. dir_frame. Qed.
Lemma tick_quota r n l f z : preserves I (enforceWebDAVQuotaTx r n l f z).
Proof.
  unfold enforceWebDAVQuotaTx, webDAVFileReferencedUnderRoot, webDAVFileReferenceCountUnderRoot,
    queryWebDAVQuotaUsed, queryWebDAVRootEntryID. dir_frame.
Qed.
Hint Resolve tick_locks tick_tree_locks tick_parent tick_limit tick_quota : dir.
End Ticks.

(** ** What a lock covers *)

(** One path lies below another; below the root lies every other absolute path. *)
Definition below (p q : string) : Prop :=
  if decide (p = "/") then rooted q = true /\ q <> "/" else exists rest, q = p +:+ "/" +:+ rest.

(** The path itself and, at infinite depth, everything below it. *)
Definition covers (l : lock_row) (p : string) : Prop :=
  lk_root_path l = p \/ (lk_infinity l = true /\ below (lk_root_path l) p).

(** The lock covers the path or lies below it. *)
Definition touches (l : lock_row) (p : string) : Prop :=
  covers l p \/ below p (lk_root_path l).

Lemma covers_applicable l p : covers l p -> applicable p l = true.
Proof.
  unfold applicable, covers, below. intros [->|[-> Hb]]; [by rewrite String.eqb_refl|]. case_decide as Er.
  - destruct Hb as [Hr _]. rewrite Er. destruct p as [|c p]; [done|]. cbn in Hr. apply Ascii.eqb_eq in Hr as ->.
    assert (like None "/%" (String slash p) = true) as -> by apply (like_below "" p). apply orb_true_r.
  - destruct Hb as [rest ->]. rewrite like_below, !orb_true_r. done.
Qed.

Lemma covers_overlapping l p : covers l p -> overlapping p l = true.
Proof. intros Hc. unfold overlapping. by rewrite (covers_applicable l p Hc). Qed.

(** The pattern of the query is right for every path but the root. *)
Lemma touches_overlapping l p : p <> "/" -> touches l p -> overlapping p l = true.
Proof.
  intros Hp [Hc|Hb]; [by apply covers_overlapping|]. unfold below in Hb. rewrite decide_False in Hb by done.
  destruct Hb as [rest E]. unfold overlapping.
  rewrite like_escaped, E, <- string_append_assoc. by rewrite fold_prefix_app, orb_true_r.
Qed.

(** A term of the If header, of a lock and the resource's ETag. *)
Definition term_true (l : lock_row) (etag : string) (t : WebDAVIfTerm) : Prop :=
  if nonempty (LockToken t) then (if Not_ t then LockToken t <> lk_token l else LockToken t = lk_token l)
  else nonempty (TermETag t) && webDAVETagListContains (TermETag t) etag true = negb (Not_ t).

(** The If header is true of a lock: all terms of one list for the path are. *)
Definition if_true (c : option WebDAVCondition) (p etag : string) (l : lock_row) : Prop :=
  exists cond lists il, c = Some cond /\ IfHeader cond = Some lists /\ il ∈ lists /\
    webDAVIfListApplies il (path_clean (RequestPath cond)) (path_clean p) = true /\
    forall t, t ∈ Terms il -> term_true l etag t.

Lemma term_spec t etag l : webDAVIfTermSatisfied t etag [l] = true -> term_true l etag t.
Proof.
  unfold webDAVIfTermSatisfied, term_true. destruct (nonempty (LockToken t)).
  - cbn [existsb]. rewrite orb_false_r. destruct (Not_ t).
    + intros Ht%negb_true_iff%String.eqb_neq. congruence.
    + intros Ht%String.eqb_eq. congruence.
  - destruct (nonempty (TermETag t)), (Not_ t); cbn; try done. by intros ->%negb_true_iff.
Qed.

Lemma allows_true c p etag l : webDAVIfHeaderAllows c p etag [l] = true -> if_true c p etag l.
Proof.
  unfold webDAVIfHeaderAllows. destruct c as [cond|]; [|done]. destruct (IfHeader cond) as [lists|] eqn:Eh; [|done].
  intros (il & Hil & [Ha Hs]%andb_true_iff)%existsb_exists. exists cond, lists, il.
  split_and!; try done; [by apply list_elem_of_In|]. intros t Ht. unfold webDAVIfListSatisfied in Hs.
  rewrite forallb_forall in Hs. by apply term_spec, Hs, list_elem_of_In.
Qed.

(** So it is not, when every list for the path asks for a token that is not the lock's. *)
Lemma no_token_not_true c p etag l :
  (forall cond lists il, c = Some cond -> IfHeader cond = Some lists -> il ∈ lists ->
    webDAVIfListApplies il (path_clean (RequestPath cond)) (path_clean p) = true ->
    exists t, t ∈ Terms il /\ Not_ t = false /\ LockToken t <> "" /\ LockToken t <> lk_token l) ->
  ~ if_true c p etag l.
Proof.
  intros Hno (cond & lists & il & Hc & Hl & Hil & Ha & Ht). destruct (Hno cond lists il Hc Hl Hil Ha) as (t & Hin & Hn & Hne & Htok).
  specialize (Ht t Hin). unfold term_true, nonempty in Ht. rewrite Hn in Ht.
  destruct (String.eqb_spec (LockToken t) ""); [done|]. by apply Htok.
Qed.

(** ** The lock checks *)
Section Checks.
Context `{!Env} `{!S3Object.MimeTypes}.

(** The lock has not expired at any reading of the clock before tick [n]. *)
Definition alive_until (n : nat) (l : lock_row) : Prop := forall i, (i < n)%nat -> clk i < lk_expires_at l.

Lemma query_locks_ok (f : string -> lock_row -> bool) p w ls w' :
  (t ← now; query (fun d => order_by by_root (sql_select (fun l =>
     (t <? lk_expires_at l) && f (path_clean p) l) (t_lock d)))) w = (Ok ls, w') ->
  db w' = db w /\ ticks w' = S (ticks w) /\
  forall l, l ∈ t_lock (db w) -> clk (ticks w) < lk_expires_at l -> f (path_clean p) l = true -> l ∈ ls.
Proof.
  intros Hrun. apply bind_ok_inv in Hrun as (t & w1 & R1 & Hrun). injection R1 as <- <-.
  injection Hrun as <- <-. split_and!; try done. intros l Hl Ht Hf.
  apply order_by_elem, sql_select_elem. split; [done|]. rewrite Hf, andb_true_r. by apply Z.ltb_lt.
Qed.

Lemma queryETag_same p w : (queryWebDAVETagByPath p w).2 = w.
Proof.
  unfold queryWebDAVETagByPath. rewrite (bind_ok (query id) _ w (db w) w eq_refl).
  unfold mbind, M_bind, lift. destruct (row_by_path _ _) as [[r|]|e]; [|done..].
  destruct (negb _); [done|]. by destruct (ParseUint _).
Qed.

(** The ETag of the resource, which only depends on the database. *)
Definition etag_at (d : DB) (p : string) : outcome string :=
  row ← row_by_path d (path_clean p);
  match row with
  | Some r => if negb (FileKind_ r =? 2) then Ok "" else id ← ParseUint (RefData_ r); Ok (etag_of id (FileSize_ r))
  | None => Ok ""
  end.

Lemma queryETag_db p w etag w' : queryWebDAVETagByPath p w = (Ok etag, w') -> w' = w /\ etag_at (db w) p = Ok etag.
Proof.
  unfold queryWebDAVETagByPath, etag_at. intros Hrun. apply bind_ok_inv in Hrun as (d & w1 & R & Hrun). injection R as <- <-.
  apply bind_ok_inv in Hrun as (row & w1 & R & Hrun). apply lift_ok in R as [-> ->]. cbn [mbind outcome_bind].
  destruct row as [r|]; [|by injection Hrun as <- <-]. destruct (negb _); [by injection Hrun as <- <-|].
  apply bind_ok_inv in Hrun as (id & w1 & R & Hrun). apply lift_ok in R as [-> ->]. by injection Hrun as <- <-.
Qed.

(** What deleting or moving a path touches: the locks that cover it and, except for the
    root, those below it. *)
Definition above (l : lock_row) (p : string) : Prop := covers l p \/ (p <> "/" /\ below p (lk_root_path l)).

Lemma above_overlapping l p : above l p -> overlapping p l = true.
Proof. intros [Hc|[Hp Hb]]; [by apply covers_overlapping|]. apply touches_overlapping; [done|by right]. Qed.

(** The request passes the lock. *)
Definition passes (c : option WebDAVCondition) (p : string) (d : DB) (l : lock_row) : Prop :=
  exists etag, etag_at d p = Ok etag /\ if_true c p etag l.

Lemma check_all_ok c p etag ls (w : World) a w' :
  for_each (fun lock => check (negb (webDAVIfHeaderAllows c p etag [lock])) ErrWebDAVLocked) ls w = (Ok a, w') ->
  w' = w /\ forall l, l ∈ ls -> if_true c p etag l.
Proof.
  induction ls as [|l ls IH]; intros Hrun.
  { injection Hrun as _ <-. split; [done|]. by intros l ?%elem_of_nil. }
  cbn [for_each] in Hrun. step_ok Hrun. apply negb_false_iff, allows_true in Hrun0.
  apply IH in Hrun as [-> Hls]. split; [done|]. intros l' [->|Hl']%elem_of_cons; auto.
Qed.

Lemma assertLocks_ok ps c w a w' :
  assertWebDAVLocksTx ps c w = (Ok a, w') ->
  db w' = db w /\ forall p l, p ∈ ps -> l ∈ t_lock (db w) -> covers l (path_clean p) ->
    alive_until (ticks w') l -> passes c p (db w) l.
Proof.
  revert w. induction ps as [|p ps IH]; intros w Hrun.
  { injection Hrun as _ <-. split; [done|]. by intros p l ?%elem_of_nil. }
  unfold assertWebDAVLocksTx in Hrun. cbn [for_each] in Hrun. apply bind_ok_inv in Hrun as ([] & w2 & R & Hrun).
  apply bind_ok_inv in R as (ls & w1 & R1 & R). apply query_locks_ok in R1 as (E1 & T1 & Hls).
  assert (w2 = w1 /\ forall l, l ∈ ls -> passes c p (db w) l) as [-> Hshow].
  { destruct ls as [|l0 ls0].
    - split; [|by intros l ?%elem_of_nil]. destruct (negb _); [by injection R|].
      apply bind_ok_inv in R as (etag & w3 & R2 & R). apply queryETag_db in R2 as [-> _].
      by apply check_ok in R as [-> _].
    - apply bind_ok_inv in R as (etag & w3 & R2 & R). apply queryETag_db in R2 as [-> Ee].
      apply check_all_ok in R as [-> Hall]. split; [done|]. intros l Hl. exists etag. rewrite <- E1. auto. }
  change (for_each _ ps w1 = (Ok a, w')) with (assertWebDAVLocksTx ps c w1 = (Ok a, w')) in Hrun.
  pose proof (tick_locks (ticks w1) ps c w1 ltac:(unfold since_tick; lia)) as Ht. rewrite Hrun in Ht.
  apply IH in Hrun as [E2 Hrest]. rewrite E1 in *. split; [congruence|].
  intros p' l [->|Hp]%elem_of_cons Hl Hc Hal; [|by eapply Hrest].
  apply Hshow, Hls; [done| |by apply covers_applicable]. apply Hal. unfold since_tick in Ht. cbn in Ht. lia.
Qed.

Lemma assertTreeLocks_ok ps c w a w' :
  assertWebDAVTreeLocksTx ps c w = (Ok a, w') ->
  db w' = db w /\ forall p l, p ∈ ps -> l ∈ t_lock (db w) -> above l (path_clean p) ->
    alive_until (ticks w') l -> passes c p (db w) l.
Proof.
  revert w. induction ps as [|p ps IH]; intros w Hrun.
  { injection Hrun as _ <-. split; [done|]. by intros p l ?%elem_of_nil. }
  unfold assertWebDAVTreeLocksTx in Hrun. cbn [for_each] in Hrun. apply bind_ok_inv in Hrun as ([] & w2 & R & Hrun).
  apply bind_ok_inv in R as (ls & w1 & R1 & R). apply query_locks_ok in R1 as (E1 & T1 & Hls).
  apply bind_ok_inv in R as (etag & w3 & R2 & R). apply queryETag_db in R2 as [-> Ee].
  apply bind_ok_inv in R as ([] & w3 & R3 & R).
  apply check_all_ok in R3 as [-> Hshow]. apply check_ok in R as [-> _].
  change (for_each _ ps w1 = (Ok a, w')) with (assertWebDAVTreeLocksTx ps c w1 = (Ok a, w')) in Hrun.
  pose proof (tick_tree_locks (ticks w1) ps c w1 ltac:(unfold since_tick; lia)) as Ht. rewrite Hrun in Ht.
  apply IH in Hrun as [E2 Hrest]. rewrite E1 in *. split; [congruence|].
  intros p' l [->|Hp]%elem_of_cons Hl Hc Hal; [|by eapply Hrest].
  exists etag. split; [done|]. apply Hshow, Hls; [done| |by apply above_overlapping]. apply Hal. unfold since_tick in Ht. cbn in Ht. lia.
Qed.
End Checks.

(** ** The requests that write *)

Inductive mutation :=
  | MkCollection (p : string)
  | Publish (p : string) (fileID size : Z)
  | Patch (p : string) (patches : list WebDAVPropertyPatch)
  | Delete (p : string)
  | CopyTo (source destination : string) (overwrite recursive : bool)
  | MoveTo (source destination : string) (overwrite : bool).

(** The paths a request writes. *)
Definition writes (m : mutation) : list string :=
  match m with
  | MkCollection p | Publish p _ _ | Patch p _ | Delete p => [p]
  | CopyTo _ destination _ _ => [destination]
  | MoveTo source destination _ => [source; destination]
  end.

(** Deleting and moving write whole trees. *)
Definition guarded (m : mutation) (l : lock_row) (p : string) : Prop :=
  match m with Delete _ | MoveTo _ _ _ => above l p | _ => covers l p end.

Section Mutations.
Context `{!Env} `{!S3Object.MimeTypes}.

Definition run_mutation (m : mutation) (options : WebDAVMutationOptions) : M World unit :=
  match m with
  | MkCollection p => _ ← CreateWebDAVCollection p options; mret tt
  | Publish p fileID size => _ ← PublishWebDAVFile p fileID size options; mret tt
  | Patch p patches => PatchWebDAVProperties p patches options
  | Delete p => DeleteWebDAVResource p options
  | CopyTo source destination overwrite recursive =>
      _ ← CopyWebDAVResource source destination overwrite recursive options; mret tt
  | MoveTo source destination overwrite => _ ← MoveWebDAVResource source destination overwrite options; mret tt
  end.

(** What a transaction that starts with [w] and ends well has checked. *)
Definition locks_passed (ps : list string) (f : lock_row -> string -> Prop) (c : option WebDAVCondition)
    (w w' : World) : Prop :=
  forall p l, p ∈ ps -> l ∈ t_lock (db w) -> f l (path_clean p) -> alive_until (ticks w') l -> passes c p (db w) l.

Lemma locks_passed_later ps f c w w1 w' :
  (ticks w1 <= ticks w')%nat -> locks_passed ps f c w w1 -> locks_passed ps f c w w'.
Proof. intros Ht Hs p l Hp Hl Hf Ha. apply (Hs p l Hp Hl Hf). intros i Hi. apply Ha. lia. Qed.

Lemma later {A} (m : M World A) w a w' :
  (forall k, preserves (since_tick k) m) -> m w = (Ok a, w') -> (ticks w <= ticks w')%nat.
Proof. intros Hm Hrun. specialize (Hm (ticks w) w (Nat.le_refl _)). by rewrite Hrun in Hm. Qed.

Lemma Stat_inv p w e w' : Tx.Stat p w = (Ok e, w') -> w' = w.
Proof. intros Hrun. pose proof (Stat_tx_same p w) as E. by rewrite Hrun in E. Qed.

Lemma conditions_inv p c w a w' :
  assertWebDAVConditionsTx [p] c w = (Ok a, w') -> db w' = db w /\ locks_passed [p] covers c w w'.
Proof.
  intros Hrun. unfold assertWebDAVConditionsTx in Hrun. apply bind_ok_inv in Hrun as ([] & w1 & R1 & Hrun).
  unfold evaluateFirstWebDAVConditionTx in R1. apply bind_ok_inv in R1 as (e & w2 & R2 & R1).
  apply Stat_inv in R2 as ->. step_ok R1. apply lift_ok in R1 as [-> _]. by apply assertLocks_ok in Hrun.
Qed.

Hint Resolve tick_now tick_upd tick_query tick_tx tick_Stat tick_mark tick_ensure tick_finalize tick_locks
  tick_tree_locks tick_parent tick_limit tick_quota : dir.

Lemma tick_insertMetadata k m : preserves (since_tick k) (S3Object.insertS3Metadata m).
Proof. unfold S3Object.insertS3Metadata. dir_frame. Qed.
Lemma tick_deleteMetadata k e : preserves (since_tick k) (S3Object.deleteS3Metadata e).
Proof. apply tick_upd. Qed.
Lemma tick_Create k p z r : preserves (since_tick k) (Tx.Create p z r).
Proof. by apply (preserves_Create _ (okref := fun _ => True)). Qed.
Lemma tick_Replace k p z r t : preserves (since_tick k) (Tx.Replace p z r t).
Proof. by apply (preserves_Replace _ (okref := fun _ => True)). Qed.
Lemma tick_Remove k p : preserves (since_tick k) (Tx.Remove p).
Proof. apply (preserves_Remove_tx _ (okref := fun _ => True)). Qed.
Lemma tick_Mkdir k p : preserves (since_tick k) (Tx.Mkdir p).
Proof. apply (preserves_Mkdir_tx _ (okref := fun _ => True)). Qed.
Lemma tick_Touch k p t : preserves (since_tick k) (Tx.Touch p t).
Proof. apply (preserves_Touch _ (okref := fun _ => True)). Qed.
Lemma tick_Copy k s d o r : preserves (since_tick k) (CopyDepth s d o r).
Proof. apply (preserves_CopyDepth _ (okref := fun _ => True)). Qed.
Lemma tick_Move k s d o : preserves (since_tick k) (Move_tx s d o).
Proof. apply (preserves_Move_tx _ (okref := fun _ => True)). Qed.
Hint Resolve tick_insertMetadata tick_deleteMetadata tick_Create tick_Replace tick_Remove tick_Mkdir tick_Touch
  tick_Copy tick_Move : dir.

Lemma tick_store k p f z b : preserves (since_tick k) (storeWebDAVMappingTx p f z b).
Proof. unfold storeWebDAVMappingTx, replaceWebDAVMappingTx, markMappingFilesPending. dir_frame. Qed.
Lemma tick_copies k l : preserves (since_tick k) (validateWebDAVCopies l).
Proof. unfold validateWebDAVCopies. dir_frame. Qed.
Lemma tick_copyMetadata k l : preserves (since_tick k) (copyWebDAVMetadata l).
Proof. unfold copyWebDAVMetadata, copyMappingMetadata. dir_frame. Qed.
Lemma tick_copyProperties k l : preserves (since_tick k) (copyWebDAVProperties l).
Proof. unfold copyWebDAVProperties. dir_frame. Qed.
Lemma tick_moveRoots k s d : preserves (since_tick k) (moveLockRoots s d).
Proof. unfold moveLockRoots. dir_frame. Qed.
Lemma tick_patch k e t p : preserves (since_tick k) (patch_property e t p).
Proof. unfold patch_property, upsert_property. dir_frame. Qed.
Hint Resolve tick_store tick_copies tick_copyMetadata tick_copyProperties tick_moveRoots tick_patch : dir.

(** The transaction of a request, after the expired locks are gone. *)
Definition mutation_tx (m : mutation) (o : WebDAVMutationOptions) : M World unit :=
  match m with
  | MkCollection p => _ ← createWebDAVCollectionTx p o; mret tt
  | Publish p fileID size => _ ← publishWebDAVFileTx p fileID size o; mret tt
  | Patch p patches => patchWebDAVPropertiesTx p patches o
  | Delete p => deleteWebDAVResourceTx p o
  | CopyTo source destination overwrite recursive =>
      _ ← copyWebDAVResourceTx source destination overwrite recursive o; mret tt
  | MoveTo source destination overwrite => _ ← moveWebDAVResourceTx source destination overwrite o; mret tt
  end.

Lemma limit_same e n w : (enforceWebDAVMutationLimitTx e n w).2 = w.
Proof.
  unfold enforceWebDAVMutationLimitTx. destruct (n <=? 0); [done|].
  rewrite (bind_ok (query id) _ w (db w) w eq_refl). unfold mbind, M_bind, lift.
  destruct (subtree _ _); [|done]. unfold check. by destruct (n <? _).
Qed.
Lemma limit_inv e n w a w' : enforceWebDAVMutationLimitTx e n w = (Ok a, w') -> w' = w.
Proof. intros Hrun. pose proof (limit_same e n w) as E. by rewrite Hrun in E. Qed.

Lemma parent_inv p w a w' : ensureWebDAVParentTx p w = (Ok a, w') -> w' = w.
Proof.
  unfold ensureWebDAVParentTx. intros Hrun. apply bind_ok_inv in Hrun as (e & w1 & R1 & Hrun).
  apply Stat_inv in R1 as ->. destruct e; [|done]. by apply check_ok in Hrun as [-> _].
Qed.

Lemma publish_passes p f z o w a w' :
  publishWebDAVFileTx p f z o w = (Ok a, w') -> locks_passed [p] covers (Condition o) w w'.
Proof.
  intros Hrun. unfold publishWebDAVFileTx in Hrun. apply bind_ok_inv in Hrun as (b & w1 & R1 & Hrun).
  apply later in Hrun; [|intros k; dir_frame]. unfold prepareWebDAVPublishTx in R1.
  apply bind_ok_inv in R1 as (e & w2 & R2 & R1). apply Stat_inv in R2 as ->. do 3 step_ok R1.
  apply bind_ok_inv in R1 as ([] & w2 & Rl & R1). apply later in R1; [|intros k; dir_frame].
  apply assertLocks_ok in Rl as [_ Hs]. eapply locks_passed_later; [|exact Hs]. lia.
Qed.

Lemma copy_passes s d ov rec o w a w' :
  copyWebDAVResourceTx s d ov rec o w = (Ok a, w') -> locks_passed [d] covers (Condition o) w w'.
Proof.
  intros Hrun. unfold copyWebDAVResourceTx in Hrun. apply bind_ok_inv in Hrun as (e & w1 & R1 & Hrun).
  apply Stat_inv in R1 as ->. destruct e as [e|]; [|done]. do 2 step_ok Hrun.
  apply bind_ok_inv in Hrun as ([] & w1 & R1 & Hrun).
  assert (w1 = w) as -> by (destruct rec; [by apply limit_inv in R1|by injection R1]).
  apply bind_ok_inv in Hrun as (b & w1 & R2 & Hrun). apply later in Hrun; [|intros k; dir_frame].
  unfold prepareWebDAVCopyDestinationTx in R2. apply bind_ok_inv in R2 as ([] & w2 & R3 & R2).
  apply parent_inv in R3 as ->. apply bind_ok_inv in R2 as (e' & w2 & R3 & R2). apply Stat_inv in R3 as ->.
  cbv zeta in R2. apply bind_ok_inv in R2 as ([] & w2 & R3 & R2). injection R2 as _ <-.
  eapply locks_passed_later; [exact Hrun|]. destruct (bool_decide (is_Some e')).
  - apply assertTreeLocks_ok in R3 as [_ Hs]. intros p l Hp Hl Hc. apply (Hs p l Hp Hl). by left.
  - by apply assertLocks_ok in R3 as [_ Hs].
Qed.

Lemma move_passes s d ov o w a w' :
  moveWebDAVResourceTx s d ov o w = (Ok a, w') -> locks_passed [s; d] above (Condition o) w w'.
Proof.
  intros Hrun. unfold moveWebDAVResourceTx in Hrun. apply bind_ok_inv in Hrun as (e & w1 & R1 & Hrun).
  apply Stat_inv in R1 as ->. destruct e as [e|]; [|done]. do 2 step_ok Hrun.
  apply bind_ok_inv in Hrun as ([] & w1 & R1 & Hrun). apply limit_inv in R1 as ->.
  apply bind_ok_inv in Hrun as ([] & w1 & R1 & Hrun). apply later in Hrun; [|intros k; dir_frame].
  apply assertTreeLocks_ok in R1 as [_ Hs]. by eapply locks_passed_later.
Qed.

Lemma mutation_passes m o w w' :
  mutation_tx m o w = (Ok tt, w') -> locks_passed (writes m) (guarded m) (Condition o) w w'.
Proof.
  destruct m as [p|p f z|p ps|p|s d ov rec|s d ov]; cbn [mutation_tx writes guarded]; intros Hrun.
  - apply bind_ok_inv in Hrun as (r & w0 & R0 & Hrun). injection Hrun as <-.
    apply bind_ok_inv in R0 as ([] & w1 & R1 & Hrun). apply later in Hrun; [|intros k; dir_frame].
    apply conditions_inv in R1 as [_ Hs]. by eapply locks_passed_later.
  - apply bind_ok_inv in Hrun as (r & w1 & R1 & Hrun). injection Hrun as <-. by eapply publish_passes.
  - apply bind_ok_inv in Hrun as (e & w1 & R1 & Hrun). apply Stat_inv in R1 as ->. destruct e as [e|]; [|done].
    apply bind_ok_inv in Hrun as ([] & w1 & R1 & Hrun). apply later in Hrun; [|intros k; dir_frame].
    apply conditions_inv in R1 as [_ Hs]. by eapply locks_passed_later.
  - apply bind_ok_inv in Hrun as (e & w1 & R1 & Hrun). apply Stat_inv in R1 as ->. destruct e as [e|]; [|done].
    do 2 step_ok Hrun. apply bind_ok_inv in Hrun as ([] & w1 & R1 & Hrun). apply limit_inv in R1 as ->.
    apply bind_ok_inv in Hrun as ([] & w1 & R1 & Hrun). apply later in Hrun; [|intros k; dir_frame].
    apply assertTreeLocks_ok in R1 as [_ Hs]. by eapply locks_passed_later.
  - apply bind_ok_inv in Hrun as (r & w1 & R1 & Hrun). injection Hrun as <-. by eapply copy_passes.
  - apply bind_ok_inv in Hrun as (r & w1 & R1 & Hrun). injection Hrun as <-. by eapply move_passes.
Qed.

(** A request is the removal of the expired locks, then its transaction. *)
Lemma run_mutation_eq m o w :
  run_mutation m o w = match cleanupExpiredWebDAVLocks w with
                       | (Ok _, w1) => OnTransation (mutation_tx m o) w1
                       | (Err e, w1) => (Err e, w1)
                       end.
Proof.
  assert (forall A (t : M World A) w1, (_ ← OnTransation t; mret tt) w1 = OnTransation (_ ← t; mret tt) w1) as Htx.
  { intros A t w1. unfold mbind, M_bind, OnTransation. by destruct (t w1) as [[a|e] w2]. }
  assert (forall A (c : M World unit) (t : M World A),
    (_ ← (_ ← c; OnTransation t); mret tt) w =
    match c w with (Ok _, w1) => OnTransation (_ ← t; mret tt) w1 | (Err e, w1) => (Err e, w1) end) as Hboth.
  { intros A c t. unfold mbind at 1 2, M_bind at 1 2. destruct (c w) as [[[]|e] w1]; [|done].
    rewrite <- Htx. done. }
  destruct m as [p|p f z|p ps|p|s d ov rec|s d ov]; cbn [run_mutation mutation_tx].
  - unfold CreateWebDAVCollection. apply Hboth.
  - unfold PublishWebDAVFile. apply Hboth.
  - unfold PatchWebDAVProperties. unfold mbind at 1, M_bind at 1. by destruct (cleanupExpiredWebDAVLocks w) as [[[]|e] w1].
  - unfold DeleteWebDAVResource. unfold mbind at 1, M_bind at 1. by destruct (cleanupExpiredWebDAVLocks w) as [[[]|e] w1].
  - unfold CopyWebDAVResource. apply Hboth.
  - unfold MoveWebDAVResource. apply Hboth.
Qed.

(** C35: A lock guards what it covers. A request that writes a covered path, or deletes or
    moves a path other than the root with a locked one below it, is refused and changes
    nothing unless its If header is true of the lock: one of the lists for that path has
    only terms that hold, where a token must be the lock's, a negated token must not be, and
    an ETag is compared with the resource's. So a request without an If header is refused,
    and one whose lists for the path each ask for a token that is not the lock's; a list
    that asks for no token may be true and lets the request pass. The lock must not expire
    while the request runs. *)
Theorem locked_paths_refused m o w w1 p l :
  cleanupExpiredWebDAVLocks w = (Ok tt, w1) ->
  p ∈ writes m -> l ∈ t_lock (db w1) -> guarded m l (path_clean p) ->
  alive_until (ticks (run_mutation m o w).2) l -> (passes (Condition o) p (db w1) l -> False) ->
  exists e, (run_mutation m o w).1 = Err e /\ db (run_mutation m o w).2 = db w1.
Proof.
  intros Hclean Hp Hl Hg Hal Hno. rewrite run_mutation_eq, Hclean in *. unfold OnTransation in *.
  destruct (mutation_tx m o w1) as [[[]|e] w2] eqn:Hrun; [|by exists e].
  exfalso. by apply Hno, (mutation_passes m o w1 w2 Hrun p l Hp Hl Hg).
Qed.
End Mutations.

(** ** Locking *)
Section Locking.
Context `{!Env} `{!S3Object.MimeTypes}.

(** The locks of the database, whatever the directory does. *)
#[local] Instance same_locks_dir X : DirStable (fun w => t_lock (db w) = X) (fun _ => True).
Proof. by split. Qed.

Lemma no_conflict_inv p depth w a w' :
  assertNoConflictingWebDAVLockTx p depth w = (Ok a, w') ->
  db w' = db w /\ forall l, l ∈ t_lock (db w) -> alive_until (ticks w') l ->
    ~ covers l (path_clean p) /\
    (depth = webDAVLockDepthInfinity -> path_clean p <> "/" -> ~ touches l (path_clean p)).
Proof.
  intros Hrun. unfold assertNoConflictingWebDAVLockTx in Hrun.
  apply bind_ok_inv in Hrun as (ls & w1 & R1 & Hrun). apply check_ok in Hrun as [-> Hls].
  apply negb_false_iff, bool_decide_eq_true in Hls as ->.
  destruct (String.eqb_spec depth webDAVLockDepthInfinity) as [->|Hne];
    apply query_locks_ok in R1 as (E & Et & Hls); (split; [done|]); intros l Hl Hal;
    (assert (clk (ticks w) < lk_expires_at l) as Hlt by (apply Hal; lia)); split; intros Hc; try done.
  - by pose proof (Hls l Hl Hlt (covers_overlapping _ _ Hc)) as ?%elem_of_nil.
  - intros Hp Ht. by pose proof (Hls l Hl Hlt (touches_overlapping _ _ Hp Ht)) as ?%elem_of_nil.
  - by pose proof (Hls l Hl Hlt (covers_applicable _ _ Hc)) as ?%elem_of_nil.
Qed.

(** C36: Locking an existing resource is exclusive: it succeeds only when no unexpired
    lock covers the path and, for a lock of infinite depth on a path other than the root,
    when none lies below it; the new lock is then in the table, rooted at the cleaned path.
    On the root the code does not look below: [root_lock_overlaps]. *)
Theorem lock_is_exclusive uuid request unpublished w lock w' :
  lockWebDAVResourceTx uuid request unpublished w = (Ok (lock, false), w') ->
  t_lock (db w') = t_lock (db w) ++ [lock] /\ lk_root_path lock = path_clean (LockPath request) /\
  forall l, l ∈ t_lock (db w) -> alive_until (ticks w') l ->
    ~ covers l (lk_root_path lock) /\
    (lk_infinity lock = true -> lk_root_path lock <> "/" -> ~ touches l (lk_root_path lock)).
Proof.
  intros Hrun. unfold lockWebDAVResourceTx in Hrun. apply bind_ok_inv in Hrun as ([e b] & w1 & R1 & Hrun).
  apply bind_ok_inv in Hrun as (t & w2 & R2 & Hrun). injection R2 as <- <-. cbv zeta in Hrun.
  apply bind_ok_inv in Hrun as ([] & w3 & R2 & Hrun). injection Hrun as <- -> <-.
  unfold insert_lock in R2. do 3 step_ok R2. injection R2 as <-.
  unfold ensureWebDAVLockTargetTx in R1. apply bind_ok_inv in R1 as (o & w4 & R4 & R1). apply Stat_inv in R4 as ->.
  destruct o as [e0|].
  - apply bind_ok_inv in R1 as ([] & w4 & R4 & R1). injection R1 as _ <-. apply no_conflict_inv in R4 as [E Hno].
    cbn [lk_root_path lk_infinity db set_lock t_lock ticks]. rewrite E. split_and!; [done|done|].
    intros l Hl Hal. destruct (Hno l Hl) as [H1 H2]; [intros i Hi; apply Hal; cbn; lia|].
    split; [done|]. intros Ei%String.eqb_eq. auto.
  - apply bind_ok_inv in R1 as ([] & w4 & _ & R1). apply bind_ok_inv in R1 as ([] & w5 & _ & R1).
    apply bind_ok_inv in R1 as (e1 & w6 & _ & R1). by injection R1.
Qed.
End Locking.

(** ** Properties *)

Definition prop_key (r : property_row) : string * string := (pr_ns r, pr_name r).

(** The dead properties of an entry. *)
Definition properties (d : DB) (entryID : Z) : gmap (string * string) string :=
  list_to_map ((fun r => (prop_key r, pr_value r)) <$>
    sql_select (fun r => pr_entry_id r =? entryID) (t_property d)).

(** The primary key of the table. *)
Definition property_keys (d : DB) : Prop :=
  NoDup ((fun r => (pr_entry_id r, prop_key r)) <$> t_property d).

Definition apply_patch (m : gmap (string * string) string) (patch : WebDAVPropertyPatch)
    : gmap (string * string) string :=
  let k := (Namespace (Property patch), LocalName (Property patch)) in
  if Set_ patch then <[k := ValueXML (Property patch)]> m else delete k m.

Lemma entry_keys d e :
  property_keys d -> NoDup (((fun r => (prop_key r, pr_value r)) <$>
    sql_select (fun r => pr_entry_id r =? e) (t_property d)).*1).
Proof.
  intros Hd. rewrite <- list_fmap_compose. cbn.
  assert (NoDup ((fun r => (pr_entry_id r, prop_key r)) <$>
    sql_select (fun r => pr_entry_id r =? e) (t_property d))) as Hd'.
  { eapply sublist_NoDup; [exact Hd|]. apply fmap_sublist, filter_sublist. }
  apply NoDup_fmap_2_strong; [|by eapply NoDup_fmap_1].
  intros r1 r2 H1 H2 E. eapply NoDup_fmap_inj; [exact Hd'|done..|].
  apply sql_select_elem in H1 as [_ H1%Z.eqb_eq], H2 as [_ H2%Z.eqb_eq]. cbn in *. by rewrite H1, H2, E.
Qed.

Lemma properties_lookup d e k v :
  property_keys d ->
  properties d e !! k = Some v <-> exists r, r ∈ t_property d /\ pr_entry_id r = e /\ prop_key r = k /\ pr_value r = v.
Proof.
  intros Hd. unfold properties. rewrite <- elem_of_list_to_map by (by apply entry_keys).
  rewrite list_elem_of_fmap. split.
  - intros (r & [= -> ->] & [Hr He%Z.eqb_eq]%sql_select_elem). by exists r.
  - intros (r & Hr & He & <- & <-). exists r. split; [done|]. apply sql_select_elem. split; [done|]. by apply Z.eqb_eq.
Qed.

Lemma same_property_spec e p r :
  same_property e p r = true <-> pr_entry_id r = e /\ prop_key r = (Namespace p, LocalName p).
Proof.
  unfold same_property, prop_key. rewrite !andb_true_iff, Z.eqb_eq, !String.eqb_eq. split.
  - intros [[-> ->] ->]. done.
  - intros [-> E]. by injection E as -> ->.
Qed.

Section Patch.
Context `{!Env} `{!S3Object.MimeTypes}.

Lemma upsert_spec e p t tab :
  let tab' := if sql_exists (same_property e p) tab
    then sql_update (same_property e p) (set_value (ValueXML p) t) tab
    else tab ++ [{| pr_entry_id := e; pr_ns := Namespace p; pr_name := LocalName p;
                    pr_value := ValueXML p; pr_ctime := t; pr_mtime := t |}] in
  NoDup ((fun r => (pr_entry_id r, prop_key r)) <$> tab) ->
  NoDup ((fun r => (pr_entry_id r, prop_key r)) <$> tab') /\
  forall e' k v, (exists r, r ∈ tab' /\ pr_entry_id r = e' /\ prop_key r = k /\ pr_value r = v) <->
    if decide ((e', k) = (e, (Namespace p, LocalName p))) then v = ValueXML p
    else exists r, r ∈ tab /\ pr_entry_id r = e' /\ prop_key r = k /\ pr_value r = v.
Proof.
  intros tab' Hnd. subst tab'. destruct (sql_exists _ tab) eqn:Ex.
  - split.
    + unfold sql_update. change (map ?f ?l) with (f <$> l). rewrite <- list_fmap_compose.
      erewrite list_fmap_ext; [exact Hnd|]. intros i r _. cbn. by case_match.
    + intros e' k v. split.
      * intros (r & Hr & <- & <- & <-). apply sql_update_elem in Hr as (r0 & Hr0 & ->).
        destruct (same_property e p r0) eqn:Es.
        -- apply same_property_spec in Es as [E1 E2].
           rewrite decide_True; [done|]. unfold prop_key in *. cbn in *. congruence.
        -- rewrite decide_False; [by exists r0|]. intros [= E1 E2 E3].
           assert (same_property e p r0 = true); [|congruence]. apply same_property_spec. unfold prop_key. split; congruence.
      * destruct (decide _) as [[= -> ->]|Hne].
        -- intros ->. apply sql_exists_true in Ex as (r & Hr & Es). exists (set_value (ValueXML p) t r).
           split; [apply sql_update_elem; exists r; by rewrite Es|]. by apply same_property_spec in Es as [? ?].
        -- intros (r & Hr & <- & <- & <-). exists r. split; [|done]. apply sql_update_elem. exists r. split; [done|].
           destruct (same_property e p r) eqn:Es; [|done]. apply same_property_spec in Es as [E1 E2].
           exfalso. apply Hne. congruence.
  - rewrite sql_exists_false in Ex. split.
    + rewrite fmap_app. apply NoDup_app. split; [done|]. split; [|apply NoDup_singleton].
      intros x (r & -> & Hr)%list_elem_of_fmap Hx. apply list_elem_of_singleton in Hx. cbn in Hx. injection Hx as E1 E2 E3.
      assert (same_property e p r = true) as Es by (apply same_property_spec; unfold prop_key; split; congruence).
      by rewrite (Ex r Hr) in Es.
    + intros e' k v. split.
      * intros (r & [Hr| ->%list_elem_of_singleton]%elem_of_app & <- & <- & <-); [|by rewrite decide_True].
        rewrite decide_False; [by exists r|]. intros [= E1 E2 E3].
        assert (same_property e p r = true) as Es by (apply same_property_spec; unfold prop_key; split; congruence).
        by rewrite (Ex r Hr) in Es.
      * destruct (decide _) as [[= -> ->]|Hne].
        -- intros ->. eexists. split; [apply elem_of_app; right; by apply list_elem_of_singleton|done].
        -- intros (r & Hr & ?). exists r. split; [apply elem_of_app; by left|done].
Qed.

Lemma delete_spec e p (tab : list property_row) :
  NoDup ((fun r => (pr_entry_id r, prop_key r)) <$> tab) ->
  NoDup ((fun r => (pr_entry_id r, prop_key r)) <$> sql_delete (same_property e p) tab) /\
  forall e' k v, (exists r, r ∈ sql_delete (same_property e p) tab /\ pr_entry_id r = e' /\ prop_key r = k /\ pr_value r = v) <->
    (e', k) <> (e, (Namespace p, LocalName p)) /\
    exists r, r ∈ tab /\ pr_entry_id r = e' /\ prop_key r = k /\ pr_value r = v.
Proof.
  intros Hnd. split; [eapply sublist_NoDup; [exact Hnd|]; apply fmap_sublist, filter_sublist|].
  intros e' k v. split.
  - intros (r & [Hr Hn]%sql_delete_elem & <- & <- & <-). split; [|by exists r].
    intros [= E1 E2 E3]. assert (same_property e p r = true); [|congruence].
    apply same_property_spec. unfold prop_key. split; congruence.
  - intros [Hne (r & Hr & <- & <- & <-)]. exists r. split; [|done]. apply sql_delete_elem. split; [done|].
    destruct (same_property e p r) eqn:Es; [|done]. apply same_property_spec in Es as [E1 E2].
    exfalso. apply Hne. congruence.
Qed.

(** One patch, on the properties of every entry. *)
Definition patched (e : Z) (patch : WebDAVPropertyPatch) (d d' : DB) : Prop :=
  property_keys d' /\ forall e', properties d' e' =
    if decide (e' = e) then apply_patch (properties d e') patch else properties d e'.

Lemma patch_property_ok e t patch w a w' :
  property_keys (db w) -> patch_property e t patch w = (Ok a, w') ->
  patched e patch (db w) (db w').
Proof.
  intros Hk Hrun. unfold patch_property in Hrun. step_ok Hrun. unfold apply_patch, patched, apply_patch.
  destruct (Set_ patch).
  - unfold upsert_property in Hrun. step_ok Hrun. injection Hrun as _ <-.
    destruct (upsert_spec e (Property patch) t _ Hk) as [Hk' Hspec].
    match goal with |- property_keys ?d /\ _ => set (d' := d) end.
    assert (property_keys d') as Hd' by exact Hk'. split; [done|]. intros e'.
    apply map_eq. intros k. apply option_eq. intros v. rewrite (properties_lookup d' _ _ _ Hd').
    etrans; [apply Hspec|]. destruct (decide (e' = e)) as [->|Hne].
    + destruct (decide (k = (Namespace (Property patch), LocalName (Property patch)))) as [->|Hnk].
      * rewrite decide_True, lookup_insert_eq by done. split; congruence.
      * rewrite decide_False, lookup_insert_ne by congruence. by rewrite (properties_lookup (db w)) by done.
    + rewrite decide_False by congruence. by rewrite (properties_lookup (db w)) by done.
  - injection Hrun as _ <-. destruct (delete_spec e (Property patch) _ Hk) as [Hk' Hspec].
    match goal with |- property_keys ?d /\ _ => set (d' := d) end.
    assert (property_keys d') as Hd' by exact Hk'. split; [done|]. intros e'.
    apply map_eq. intros k. apply option_eq. intros v. rewrite (properties_lookup d' _ _ _ Hd').
    etrans; [apply Hspec|]. rewrite <- (properties_lookup (db w)) by done. destruct (decide (e' = e)) as [->|Hne].
    + rewrite lookup_delete_Some. split; intros [H1 H2]; split; congruence.
    + split; [by intros [_ ?]|]. intros Hv. split; congruence.
Qed.

Lemma patch_loop_ok e t patches w a w' :
  property_keys (db w) -> for_each (patch_property e t) patches w = (Ok a, w') ->
  property_keys (db w') /\ forall e', properties (db w') e' =
    if decide (e' = e) then foldl apply_patch (properties (db w) e') patches else properties (db w) e'.
Proof.
  revert w. induction patches as [|patch patches IH]; intros w Hk Hrun.
  { injection Hrun as _ <-. split; [done|]. intros e'. by case_decide. }
  cbn [for_each] in Hrun. apply bind_ok_inv in Hrun as ([] & w1 & R1 & Hrun).
  apply patch_property_ok in R1 as [Hk1 Hp1]; [|done]. apply IH in Hrun as [Hk2 Hp2]; [|done].
  split; [done|]. intros e'. rewrite Hp2, Hp1. by case_decide.
Qed.

#[local] Instance same_props_dir X : DirStable (fun w => t_property (db w) = X) (fun _ => True).
Proof. by split. Qed.

Lemma read_properties d e :
  property_keys d ->
  (fun p => ((Namespace p, LocalName p), ValueXML p)) <$>
    map property_of (order_by by_name (sql_select (fun r => pr_entry_id r =? e) (t_property d)))
  ≡ₚ map_to_list (properties d e).
Proof.
  intros Hk. change (map property_of ?l) with (property_of <$> l). rewrite <- list_fmap_compose.
  rewrite order_by_perm. unfold properties. by rewrite map_to_list_to_map by (by apply entry_keys).
Qed.

(** PROPPATCH then PROPFIND: when a patch succeeds, reading the properties of the
    resource gives exactly the old ones with the patches applied in order, each property
    once; the properties of every other resource are as before. *)
Theorem patch_then_read p patches o w w1 w' :
  cleanupExpiredWebDAVLocks w = (Ok tt, w1) -> property_keys (db w1) ->
  PatchWebDAVProperties p patches o w = (Ok tt, w') ->
  exists e props, Tx.Stat p w1 = (Ok (Some e), w1) /\
    ReadWebDAVProperties (EntryId_ e) w' = (Ok props, w') /\
    (fun q => ((Namespace q, LocalName q), ValueXML q)) <$> props ≡ₚ
      map_to_list (foldl apply_patch (properties (db w1) (EntryId_ e)) patches) /\
    forall e', e' <> EntryId_ e -> properties (db w') e' = properties (db w1) e'.
Proof.
  intros Hclean Hk Hrun. unfold PatchWebDAVProperties, patchWebDAVPropertiesTx in Hrun. rewrite (bind_ok _ _ _ _ _ Hclean) in Hrun.
  rewrite OnTransation_ok in Hrun. apply bind_ok_inv in Hrun as (e & w2 & R1 & Hrun). pose proof R1 as Hst.
  apply Stat_inv in R1 as ->. destruct e as [e|]; [|done].
  apply bind_ok_inv in Hrun as ([] & w2 & R1 & Hrun). apply conditions_inv in R1 as [E1 _].
  apply bind_ok_inv in Hrun as (t & w3 & R2 & Hrun). injection R2 as _ <-.
  apply bind_ok_inv in Hrun as ([] & w4 & R3 & Hrun). apply patch_loop_ok in R3 as [Hk4 Hp4]; [|cbn; congruence].
  pose proof (preserves_Touch _ (okref := fun _ => True) p t w4 (eq_refl (t_property (db w4)))) as Et.
  rewrite Hrun in Et. cbn [snd] in Et. assert (property_keys (db w')) as Hk' by (unfold property_keys; by rewrite Et).
  assert (forall x, properties (db w') x = properties (db w4) x) as Ep by (intros x; unfold properties; by rewrite Et).
  exists e, (map property_of (order_by by_name (sql_select (fun r => pr_entry_id r =? EntryId_ e) (t_property (db w'))))).
  split_and!; [done|done| |].
  - rewrite (read_properties _ _ Hk'), Ep, Hp4, decide_True by done. cbn. by rewrite E1.
  - intros e' Hne. rewrite Ep, Hp4, decide_False by done. cbn. by rewrite E1.
Qed.
End Patch.

(** ** Runs *)
Section Demo.
#[local] Existing Instances DirTheorems.demo_env UploadProofs.demo_codec.
#[local] Instance demo_mime : S3Object.MimeTypes := fun _ d => d.

Definition no_options : WebDAVMutationOptions :=
  {| Principal := "bob"; Condition := None; MaxEntries := 0; QuotaRoot := "/"; QuotaBytes := 0 |}.
Definition with_if (p : string) (terms : list WebDAVIfTerm) : WebDAVMutationOptions :=
  {| Principal := "bob"; MaxEntries := 0; QuotaRoot := "/"; QuotaBytes := 0;
     Condition := Some {| IfMatch := ""; IfNoneMatch := ""; IfModifiedSince := None; IfUnmodifiedSince := None;
       IfHeader := Some [{| Resource := ""; Terms := terms |}]; RequestPath := p |} |}.
Definition lock_request (p depth principal : string) : WebDAVLockRequest :=
  {| LockPath := p; Depth := depth; OwnerXML := ""; LockPrincipal := principal; Timeout := 100000 |}.
Definition token (uuid : string) : string := "opaquelocktoken:" +:+ uuid.

(** The directories /a and /b. *)
Definition two_dirs : World := (Directory.Mkdir "/b" (Directory.Mkdir "/a" DirTheorems.demo_start).2).2.
Definition lock (uuid p depth : string) (w : World) : World :=
  (lockWebDAVResourceTx uuid (lock_request p depth "alice") 0 w).2.
(** /a is locked at infinite depth. *)
Definition locked : World := lock "t1" "/a" "infinity" two_dirs.
Definition cleaned : World := (cleanupExpiredWebDAVLocks locked).2.
Definition alice_lock : lock_row :=
  {| lk_token := token "t1"; lk_root_path := "/a"; lk_root_entry_id := 2; lk_infinity := true;
     lk_owner_xml := ""; lk_principal := "alice"; lk_created_at := 9; lk_expires_at := 100009; lk_null := false |}.

(** A request that submits the token of another lock. *)
Definition wrong_token : WebDAVMutationOptions :=
  with_if "/a/x" [{| Not_ := false; LockToken := token "t9"; TermETag := "" |}].

Lemma locked_run : cleanupExpiredWebDAVLocks locked = (Ok tt, cleaned) /\ t_lock (db cleaned) = [alice_lock] /\
  ticks (run_mutation (MkCollection "/a/x") wrong_token locked).2 = 12%nat.
Proof. vm_compute. split_and!; reflexivity. Qed.

Lemma locked_paths_refused_witness : exists e,
  (run_mutation (MkCollection "/a/x") wrong_token locked).1 = Err e /\
  db (run_mutation (MkCollection "/a/x") wrong_token locked).2 = db cleaned.
Proof.
  destruct locked_run as (Hc & Hl & Ht).
  apply (locked_paths_refused (MkCollection "/a/x") wrong_token locked cleaned "/a/x" alice_lock Hc).
  - left.
  - rewrite Hl. left.
  - right. split; [reflexivity|]. exists "x". vm_compute. reflexivity.
  - rewrite Ht. intros i Hi. change (clk i) with (Z.of_nat i). change (lk_expires_at alice_lock) with 100009. lia.
  - intros (etag & _ & Hif). revert Hif. apply no_token_not_true.
    intros cond lists il [= <-] [= <-] ->%list_elem_of_singleton _. eexists. split; [left|].
    split; [reflexivity|]. split; discriminate.
Defined.

(** A request that names no token of the lock passes it: any true If list does, such as
    one that denies an unknown token. *)
Lemma if_header_bypasses_lock :
  (run_mutation (MkCollection "/a/x") (with_if "/a/x" [{| Not_ := true; LockToken := "DAV:no-lock"; TermETag := "" |}])
    locked).1 = Ok tt.
Proof. vm_compute. reflexivity. Qed.

(** The path of a lock is used as a pattern: a lock on /a_ also refuses writes below /ab. *)
Lemma lock_path_is_pattern :
  let w := (Directory.Mkdir "/ab" (Directory.Mkdir "/a_" DirTheorems.demo_start).2).2 in
  (run_mutation (MkCollection "/ab/x") no_options (lock "t1" "/a_" "infinity" w)).1 = Err ErrWebDAVLocked.
Proof. vm_compute. reflexivity. Qed.

(** A lock of infinite depth on the root does not see the locks below it. *)
Lemma root_lock_overlaps :
  (fun r => lk_root_path r.1) <$> match (lockWebDAVResourceTx "t2" (lock_request "/" "infinity" "bob") 0 locked).1 with
    | Ok r => Some r | Err _ => None end = Some "/".
Proof. vm_compute. reflexivity. Qed.

(** A resource that does not exist can be locked below another principal's lock. *)
Lemma lock_null_overlaps :
  (fun r => (lk_root_path r.1, lk_principal r.1)) <$>
    match (LockWebDAVResource (B := Mem.memBlockIO) "t2" (lock_request "/a/new" "0" "bob")
             (locked, FileStream.demo_store [])).1 with Ok r => Some r | Err _ => None end
  = Some ("/a/new", "bob").
Proof. vm_compute. reflexivity. Qed.

(** Moving a path of two bytes per character cuts the roots of the locks below it in
    the wrong place: the lock on the file comes to lie on another path. *)
Definition accent : string := String slash (String "195"%char (String "169"%char "")).
Definition accent_world : World :=
  let w := (Directory.Mkdir (accent +:+ "/f") DirTheorems.demo_start).2 in
  (lockWebDAVResourceTx "t1" (lock_request (accent +:+ "/f") "0" "alice") 0 w).2.
Lemma moved_lock_misplaced :
  lk_root_path <$> t_lock (db (run_mutation (MoveTo accent "/dest" false)
    (with_if accent [{| Not_ := false; LockToken := token "t1"; TermETag := "" |}]) accent_world).2) = ["/destf"] /\
  (Tx.Stat "/dest/f" (run_mutation (MoveTo accent "/dest" false)
    (with_if accent [{| Not_ := false; LockToken := token "t1"; TermETag := "" |}]) accent_world).2).1 <> Ok None.
Proof. vm_compute. split; [reflexivity|discriminate]. Qed.

Lemma exclusive_run : exists w', lockWebDAVResourceTx "t2" (lock_request "/b" "infinity" "bob") 0 locked =
  (Ok ({| lk_token := token "t2"; lk_root_path := "/b"; lk_root_entry_id := 3; lk_infinity := true;
          lk_owner_xml := ""; lk_principal := "bob"; lk_created_at := 11; lk_expires_at := 100011;
          lk_null := false |}, false), w') /\ t_lock (db locked) = [alice_lock] /\ ticks w' = 12%nat.
Proof. eexists. vm_compute. split_and!; reflexivity. Qed.

Lemma lock_is_exclusive_witness : exists w', t_lock (db w') = t_lock (db locked) ++
  [{| lk_token := token "t2"; lk_root_path := "/b"; lk_root_entry_id := 3; lk_infinity := true;
      lk_owner_xml := ""; lk_principal := "bob"; lk_created_at := 11; lk_expires_at := 100011;
      lk_null := false |}] /\ ~ touches alice_lock "/b".
Proof.
  destruct exclusive_run as (w' & Hrun & Hl & Ht). exists w'.
  destruct (lock_is_exclusive "t2" (lock_request "/b" "infinity" "bob") 0 locked _ w' Hrun) as (E & _ & Hno).
  split; [exact E|]. destruct (Hno alice_lock) as [_ Hx].
  - rewrite Hl. left.
  - rewrite Ht. intros i Hi. change (clk i) with (Z.of_nat i). change (lk_expires_at alice_lock) with 100009. lia.
  - apply Hx; [reflexivity|discriminate].
Defined.

Definition set_color (v : string) : WebDAVPropertyPatch :=
  {| Set_ := true; Property := {| Namespace := "urn:x"; LocalName := "color"; ValueXML := v |} |}.

Lemma patch_run : exists w', cleanupExpiredWebDAVLocks two_dirs = (Ok tt, (cleanupExpiredWebDAVLocks two_dirs).2) /\
  t_property (db (cleanupExpiredWebDAVLocks two_dirs).2) = [] /\
  PatchWebDAVProperties "/a" [set_color "red"; set_color "blue"] no_options two_dirs = (Ok tt, w').
Proof. eexists. vm_compute. split_and!; reflexivity. Qed.

Lemma patch_then_read_witness : exists w' e props,
  PatchWebDAVProperties "/a" [set_color "red"; set_color "blue"] no_options two_dirs = (Ok tt, w') /\
  ReadWebDAVProperties (EntryId_ e) w' = (Ok props, w') /\
  (fun q => ((Namespace q, LocalName q), ValueXML q)) <$> props ≡ₚ [(("urn:x", "color"), "blue")].
Proof.
  destruct patch_run as (w' & Hc & Hp & Hrun). exists w'.
  destruct (patch_then_read "/a" [set_color "red"; set_color "blue"] no_options two_dirs _ w' Hc)
    as (e & props & _ & Hread & Hprops & _).
  - unfold property_keys. rewrite Hp. constructor.
  - exact Hrun.
  - exists e, props. split; [exact Hrun|]. split; [exact Hread|].
    unfold properties in Hprops. rewrite Hp in Hprops. exact Hprops.
Defined.
End Demo.
