(* ===== verification/WebDAVSync.v ===== *)
(** * WebDAV sync reports

    A sync report pages through the change journal: the last change of every path in
    the scope of the request, in the order of their revisions. The SQL query selects a
    little more than the scope, since [LIKE] folds case and [substr] counts characters;
    the pages are complete when it selects nothing else. *)

From stdpp Require Import base strings list sorting sets.
From Stdlib Require Import Ascii.
From S2P Require Import Prelude Paging GoStr SqlText Store Directory S3Object CompletedPart WebDAV.
Import S3Object (HasPrefix, TrimPrefix).
Import WebDAV.

(** ** Prefixes *)

Lemma HasPrefix_app s p : HasPrefix s p = true -> exists rest, s = p +:+ rest.
Proof.
  unfold HasPrefix. revert s. induction p as [|c p IH]; intros s; cbn; [intros _; by exists s|].
  destruct s as [|d s]; [done|]. cbn. destruct (Ascii.ascii_dec c d) as [->|]; [|done].
  intros (rest & ->)%IH. by exists rest.
Qed.

Lemma prefix_app p s : HasPrefix (p +:+ s) p = true.
Proof.
  unfold HasPrefix. induction p as [|c p IH]; [by destruct s|]. rewrite string_app_cons. cbn.
  by destruct (Ascii.ascii_dec c c).
Qed.

Lemma substring_all s : String.substring 0 (String.length s) s = s.
Proof. induction s as [|c s IH]; [done|]. cbn. by rewrite IH. Qed.

Lemma TrimPrefix_app p s : TrimPrefix (p +:+ s) p = s.
Proof.
  unfold TrimPrefix. rewrite prefix_app. induction p as [|c p IH].
  - cbn. rewrite Nat.sub_0_r. apply substring_all.
  - rewrite string_app_cons. cbn. exact IH.
Qed.

(** ** Characters are at least as long as bytes *)

Lemma skip_continuations_suffix s : exists pre, s = pre +:+ skip_continuations s.
Proof.
  induction s as [|c s [pre E]]; [by exists ""|]. cbn. destruct (is_continuation c); [|by exists ""].
  exists (String c pre). rewrite string_app_cons. by rewrite <- E.
Qed.

Lemma after_char_suffix c s : exists pre, s = pre +:+ after_char c s.
Proof. unfold after_char. destruct (is_lead c); [apply skip_continuations_suffix|by exists ""]. Qed.

Lemma has_byte_suffix c pre s : has_byte c (pre +:+ s) = false -> has_byte c s = false.
Proof. rewrite has_byte_app. by intros [_ ?]%orb_false_iff. Qed.

(** What is left after as many characters as a prefix has bytes is a suffix of the rest. *)
Lemma skip_chars_rest n pre s b :
  (String.length pre <= n)%nat -> has_byte b s = false -> has_byte b (skip_chars n (pre +:+ s)) = false.
Proof.
  revert pre s. induction n as [|n IH]; intros pre s Hn Hs.
  { destruct pre; [done|cbn in Hn; lia]. }
  destruct pre as [|c pre].
  - cbn [skip_chars]. destruct s as [|c s]; [done|]. cbn [skip_chars].
    change (String.append "" ?x) with x. cbn in Hs. apply orb_false_iff in Hs as [_ Hs].
    destruct (after_char_suffix c s) as [p E]. rewrite E in Hs. apply has_byte_suffix in Hs.
    apply (IH "" _); [cbn; lia|done].
  - rewrite string_app_cons. cbn [skip_chars String.length] in *.
    destruct (is_lead c) eqn:El; unfold after_char; rewrite El; [|apply IH; [lia|done]].
    clear El. assert (String.length pre <= n)%nat as Hlen by lia. clear Hn.
    induction pre as [|d pre IHp].
    + destruct (skip_continuations_suffix s) as [p E]. rewrite E in Hs. apply has_byte_suffix in Hs.
      apply (IH "" _); [cbn; lia|done].
    + rewrite string_app_cons. cbn [skip_continuations]. cbn [String.length] in Hlen.
      destruct (is_continuation d); [apply IHp; lia|]. rewrite <- string_app_cons. apply IH; [cbn; lia|done].
Qed.

(** ** The query selects the scope *)

(** A cleaned path. *)
Definition clean_root (root : string) : Prop :=
  path_clean root = root /\ (root = "/" \/ trim_slash root = root).

(** The journal: revisions are its key, paths are recorded cleaned. *)
Record journal_ok (d : DB) : Prop := {
  jo_keys : NoDup (ch_revision <$> t_change d);
  jo_paths : forall c, c ∈ t_change d -> path_clean (ch_path c) = ch_path c }.

Definition in_scope (root : string) (since : Z) (depth : string) (c : change_row) : bool :=
  (since <? ch_revision c) && webDAVChangeInScope root (ch_path c) depth.

(** The changes in scope are selected. *)
Lemma scope_matches root since depth c :
  clean_root root -> path_clean (ch_path c) = ch_path c ->
  in_scope root since depth c = true -> change_matches root since depth c = true.
Proof.
  intros [Hr Htrim] Hq. unfold in_scope, change_matches, webDAVChangeInScope. rewrite Hr, Hq.
  generalize (ch_path c). clear Hq. intros q [-> Hs]%andb_true_iff. cbn [andb].
  change (String.eqb depth "infinity") with (String.eqb depth webDAVLockDepthInfinity).
  destruct (String.eqb_spec q root) as [Hq|Hne]; [by rewrite !orb_true_r|].
  rewrite !orb_false_r. apply andb_true_iff. destruct (String.eqb_spec root "/") as [->|Hroot]; cbn [negb andb] in Hs.
  - destruct (HasPrefix q "/") eqn:Ep; cbn [negb] in Hs; [|done].
    apply HasPrefix_app in Ep as [rel ->]. split.
    { apply orb_true_iff. left. exact (like_below "" rel). }
    destruct (String.eqb depth _); [done|]. cbn [orb]. apply negb_true_iff.
    rewrite TrimPrefix_app in Hs. apply andb_true_iff in Hs as [_ Hs%negb_true_iff].
    destruct (HasPrefix rel "/") eqn:Er.
    + apply HasPrefix_app in Er as [x ->]. rewrite TrimPrefix_app in Hs.
      apply (skip_chars_rest 2 "//" x); [cbn; lia|done].
    + assert (TrimPrefix rel "/" = rel) as E by (unfold TrimPrefix; by rewrite Er). rewrite E in Hs.
      apply (skip_chars_rest 2 "/" rel); [cbn; lia|done].
  - destruct (HasPrefix q (root +:+ "/")) eqn:Ep; cbn [negb] in Hs; [|done].
    apply HasPrefix_app in Ep as [rel Eq]. destruct Htrim as [|Htrim]; [done|].
    rewrite Htrim, like_escaped, Eq, fold_prefix_app. split; [done|].
    destruct (String.eqb depth _); [done|]. cbn [orb]. apply negb_true_iff.
    rewrite Eq, string_append_assoc, !TrimPrefix_app in Hs. apply andb_true_iff in Hs as [_ Hs%negb_true_iff].
    unfold sql_substr. apply skip_chars_rest; [|done].
    assert (String.length (root +:+ "/") = String.length root + 1)%nat as ->; [|lia].
    clear. induction root as [|c s IH]; [done|]. rewrite string_app_cons. cbn. by rewrite IH.
Qed.

(** ** The pages *)

(** What a report from [since] on has to tell: the last change of each path in scope. *)
Definition scoped_changes (d : DB) (root : string) (since : Z) (depth : string) : list change_row :=
  order_by by_revision (latest (sql_select (in_scope root since depth) (t_change d))).

Lemma scan_in_scope rows root depth limit current acc :
  (forall c, c ∈ rows -> webDAVChangeInScope root (ch_path c) depth = true) -> zlen acc <= limit ->
  scanWebDAVChanges rows root depth limit current acc =
  if limit <? zlen acc + zlen rows then
    let l := ztake limit (acc ++ rows) in
    {| Changes := l; PageHasMore := true;
       SyncRevision := match last l with Some c => ch_revision c | None => current end |}
  else {| Changes := acc ++ rows; SyncRevision := current; PageHasMore := false |}.
Proof.
  revert acc. induction rows as [|c rows IH]; intros acc Hs Hacc.
  { rewrite app_nil_r. cbn. change (zlen []) with 0. by rewrite (proj2 (Z.ltb_ge _ _)) by lia. }
  cbn [scanWebDAVChanges]. rewrite (Hs c) by left. cbn [negb].
  assert (zlen (c :: rows) = zlen rows + 1) as El by (unfold zlen; cbn; lia).
  pose proof (zlen_nonneg rows). destruct (Z.eqb_spec (zlen acc) limit) as [<-|Hne].
  - rewrite El, (proj2 (Z.ltb_lt _ _)) by lia. cbv zeta. rewrite ztake_app_le by lia.
    by rewrite ztake_ge by lia.
  - rewrite IH; [|intros; apply Hs; by right|rewrite zlen_app; unfold zlen at 2; cbn; lia].
    rewrite <- app_assoc, zlen_app, El. cbn [app]. change (zlen [c]) with 1.
    by replace (zlen acc + 1 + zlen rows) with (zlen acc + (zlen rows + 1)) by lia.
Qed.

Lemma latest_select root since depth (t : list change_row) :
  latest (sql_select (in_scope root since depth) t) =
  sql_select (fun c => in_scope root since depth c && negb (sql_exists (fun c' =>
    String.eqb (ch_path c') (ch_path c) && (ch_revision c <? ch_revision c'))
    (sql_select (in_scope root since depth) t))) t.
Proof. unfold latest at 1. symmetry. apply filter_andb. Qed.

(** A later report tells what an earlier one would have told after that revision. *)
Lemma scoped_later d root since since' depth :
  since <= since' ->
  latest (sql_select (in_scope root since' depth) (t_change d)) =
  sql_select (fun c => (in_scope root since depth c && negb (sql_exists (fun c' =>
    String.eqb (ch_path c') (ch_path c) && (ch_revision c <? ch_revision c'))
    (sql_select (in_scope root since depth) (t_change d)))) && (since' <? ch_revision c)) (t_change d).
Proof.
  intros Hle. rewrite latest_select. apply List.filter_ext. intros c. unfold in_scope at 1 3.
  destruct (Z.ltb_spec since' (ch_revision c)) as [Hlt|Hge]; [|by rewrite andb_false_r].
  rewrite (proj2 (Z.ltb_lt since _)), andb_true_r by lia. cbn [andb]. f_equal. f_equal.
  apply eq_bool_prop_intro. rewrite !Is_true_true, !sql_exists_true. split.
  - intros (c' & [Hc' [Hs%Z.ltb_lt Hsc]%andb_true_iff]%sql_select_elem & H). exists c'. split; [|done].
    apply sql_select_elem. split; [done|]. unfold in_scope. rewrite Hsc, andb_true_r. apply Z.ltb_lt. lia.
  - intros (c' & [Hc' [_ Hsc]%andb_true_iff]%sql_select_elem & H). exists c'. split; [|done].
    apply sql_select_elem. split; [done|]. unfold in_scope. rewrite Hsc, andb_true_r.
    apply andb_true_iff in H as [_ H%Z.ltb_lt]. apply Z.ltb_lt. lia.
Qed.

Lemma scoped_changes_elem d root since depth c :
  c ∈ scoped_changes d root since depth -> c ∈ t_change d /\ since < ch_revision c.
Proof.
  unfold scoped_changes, latest. intros [[Hc [Hs%Z.ltb_lt _]%andb_true_iff]%sql_select_elem _]%order_by_elem%sql_select_elem.
  done.
Qed.

(** Cutting a report after any change gives the report from that change on. *)
Lemma scoped_changes_cut d root since depth l1 c l2 :
  journal_ok d -> scoped_changes d root since depth = (l1 ++ [c]) ++ l2 ->
  scoped_changes d root (ch_revision c) depth = l2.
Proof.
  intros Hj E. assert (since < ch_revision c) as Hs.
  { apply (scoped_changes_elem d root since depth c). rewrite E, !elem_of_app. left. right. by apply list_elem_of_singleton. }
  unfold scoped_changes. rewrite (scoped_later d root since) by lia.
  pose proof (order_by_sorted by_revision) as Hsorted.
  assert (forall a b x, by_revision a b = true -> by_revision b x = true -> by_revision a x = true) as Htr
    by (unfold by_revision; intros *; rewrite !Z.leb_le; lia).
  assert (forall a b, by_revision a b = true \/ by_revision b a = true) as Htot
    by (unfold by_revision; intros *; rewrite !Z.leb_le; lia).
  specialize (Hsorted Htr Htot (latest (sql_select (in_scope root since depth) (t_change d)))).
  change (order_by by_revision _) with (scoped_changes d root since depth) in Hsorted. rewrite E in Hsorted.
  assert (forall x, x ∈ (l1 ++ [c]) ++ l2 -> x ∈ t_change d) as Hin.
  { intros x Hx. rewrite <- E in Hx. by apply scoped_changes_elem in Hx as [? _]. }
  apply (keyset_rest by_revision Htr Htot (t_change d)) with (l1 := l1 ++ [c]).
  - intros a b Ha Hb H1%Z.leb_le H2%Z.leb_le. apply (NoDup_fmap_inj ch_revision (t_change d)); [apply Hj|done..|lia].
  - rewrite <- E. unfold scoped_changes. by rewrite latest_select.
  - intros r [Hr| ->%list_elem_of_singleton]%elem_of_app; apply Z.ltb_ge; [|lia].
    rewrite <- app_assoc in Hsorted.
    assert (by_revision r c = true) as ?%Z.leb_le; [|done].
    eapply (StronglySorted_app_1_elem_of (fun a b => by_revision a b = true)); [exact Hsorted|done|left].
  - intros r Hr. apply Z.ltb_lt. assert (by_revision c r = true) as Hle%Z.leb_le.
    { eapply (StronglySorted_app_1_elem_of (fun a b => by_revision a b = true)); [exact Hsorted| |done].
      apply elem_of_app. right. by apply list_elem_of_singleton. }
    assert (ch_revision c <> ch_revision r); [|lia]. intros Er.
    assert (NoDup ((l1 ++ [c]) ++ l2)) as Hnd.
    { rewrite <- E. unfold scoped_changes, latest. rewrite order_by_perm.
      eapply sublist_NoDup; [by eapply NoDup_fmap_1, (jo_keys _ Hj)|]. etrans; apply filter_sublist. }
    apply NoDup_app in Hnd as (_ & Hdis & _). apply (Hdis c).
    + apply elem_of_app. right. by apply list_elem_of_singleton.
    + assert (c = r) as ->; [|done]. apply (NoDup_fmap_inj ch_revision (t_change d)); [apply Hj| | |done]; apply Hin.
      * apply elem_of_app. left. apply elem_of_app. right. by apply list_elem_of_singleton.
      * apply elem_of_app. by right.
Qed.

(** The token of a client that has seen everything. *)
Definition newest (d : DB) : Z := default 0 (CompletedPart.sql_max (ch_revision <$> t_change d)).

Lemma newest_ge d c : c ∈ t_change d -> ch_revision c <= newest d.
Proof.
  intros Hc. unfold newest. destruct (CompletedPart.sql_max (ch_revision <$> t_change d)) as [m|] eqn:Em.
  - by eapply CompletedPart.sql_max_ge; [exact Em|apply list_elem_of_fmap_2].
  - destruct (t_change d); [by apply elem_of_nil in Hc|done].
Qed.

Lemma report_accepted root since depth limit w :
  0 <= since <= newest (db w) -> exists page, WebDAVChanges root since depth limit w = (Ok page, w).
Proof.
  intros [Hs Hn]. unfold WebDAVChanges. cbv zeta.
  rewrite (bind_ok currentWebDAVRevision _ w (newest (db w)) w eq_refl).
  destruct (Z.ltb_spec since 0); [lia|]. destruct (Z.ltb_spec (newest (db w)) since); [lia|]. by eexists.
Qed.

Lemma nothing_newer d root depth : scoped_changes d root (newest d) depth = [].
Proof.
  destruct (scoped_changes d root (newest d) depth) as [|c l] eqn:E; [done|].
  assert (c ∈ scoped_changes d root (newest d) depth) as [Hc Hlt]%scoped_changes_elem by (rewrite E; left).
  apply newest_ge in Hc. lia.
Qed.

(** C37: Sync reports are complete when the query selects only paths in scope (LIKE folds
    case, so a journal may hold others: [sync_loses_case_variants] is what happens then).
    A page is the beginning of what there is to tell and says that there is more exactly
    when it was cut; the report from its token on is accepted and tells exactly the rest,
    which is nothing after the last page: following the tokens misses no change and repeats
    none. *)
Theorem sync_pages_complete root since depth limit w page w' :
  journal_ok (db w) -> clean_root root -> 0 <= since -> 0 < limit ->
  (forall c, c ∈ t_change (db w) -> change_matches root since depth c = true ->
     webDAVChangeInScope root (ch_path c) depth = true) ->
  WebDAVChanges root since depth limit w = (Ok page, w') ->
  w' = w /\ Changes page = ztake limit (scoped_changes (db w) root since depth) /\
  PageHasMore page = (limit <? zlen (scoped_changes (db w) root since depth)) /\
  scoped_changes (db w) root since depth =
    Changes page ++ scoped_changes (db w) root (SyncRevision page) depth /\
  exists next, WebDAVChanges root (SyncRevision page) depth limit w = (Ok next, w).
Proof.
  intros Hj Hroot Hs Hl Hexact Hrun. unfold WebDAVChanges in Hrun. cbv zeta in Hrun.
  destruct (Z.leb_spec limit 0); [lia|].
  rewrite (bind_ok currentWebDAVRevision _ w (newest (db w)) w eq_refl) in Hrun.
  destruct (Z.ltb_spec since 0); [lia|].
  destruct (Z.ltb_spec (newest (db w)) since); [done|]. step_ok Hrun. injection Hrun as <- <-. split; [done|].
  rewrite (proj1 Hroot).
  assert (sql_select (change_matches root since depth) (t_change (db w)) =
          sql_select (in_scope root since depth) (t_change (db w))) as ->.
  { apply filter_ext_in. intros c Hc. apply list_elem_of_In in Hc. apply eq_bool_prop_intro.
    rewrite !Is_true_true. split; [|by apply scope_matches, Hj]. intros Hmt. unfold in_scope.
    rewrite (Hexact c Hc Hmt), andb_true_r. unfold change_matches in Hmt.
    by apply andb_true_iff in Hmt as [[? _]%andb_true_iff _]. }
  fold (scoped_changes (db w) root since depth). set (L := scoped_changes (db w) root since depth).
  assert (forall c, c ∈ L -> webDAVChangeInScope root (ch_path c) depth = true) as HL.
  { unfold L, scoped_changes, latest.
    by intros c [[_ [_ ?]%andb_true_iff]%sql_select_elem _]%order_by_elem%sql_select_elem. }
  assert (zlen (ztake (limit + 1) L) = Z.min (limit + 1) (zlen L)) as Elen by (apply zlen_ztake; lia).
  assert (ztake limit (ztake (limit + 1) L) = ztake limit L) as Etake.
  { unfold ztake. rewrite take_take. f_equal. lia. }
  rewrite scan_in_scope; [| |unfold zlen; cbn; lia].
  2: { intros c Hc. apply HL. unfold ztake in Hc. rewrite <- (take_drop (Z.to_nat (limit + 1)) L).
       apply elem_of_app. by left. }
  change (zlen []) with 0. cbv zeta. cbn [app]. rewrite Z.add_0_l, Elen.
  destruct (Z.ltb_spec limit (zlen L)) as [Hlt|Hge].
  - rewrite (proj2 (Z.ltb_lt limit _)) by lia. cbn [Changes PageHasMore SyncRevision]. rewrite Etake.
    split; [done|]. split; [done|].
    destruct (last (ztake limit L)) as [c|] eqn:Elast.
    + apply last_Some in Elast as [l1 E1]. unfold ztake in E1. pose proof (take_drop (Z.to_nat limit) L) as EL.
      rewrite E1 in EL. unfold ztake. rewrite E1.
      rewrite (scoped_changes_cut (db w) root since depth l1 c (drop (Z.to_nat limit) L) Hj (eq_sym EL)). split; [done|].
      assert (c ∈ L) as [Hc Hsc]%scoped_changes_elem.
      { rewrite <- EL. apply elem_of_app. left. apply elem_of_app. right. by apply list_elem_of_singleton. }
      apply report_accepted. apply newest_ge in Hc. lia.
    + apply last_None in Elast. apply (f_equal zlen) in Elast. rewrite zlen_ztake in Elast by lia.
      change (zlen []) with 0 in Elast. lia.
  - rewrite (proj2 (Z.ltb_ge limit _)) by lia. cbn [Changes PageHasMore SyncRevision].
    rewrite !ztake_ge by lia. rewrite nothing_newer, app_nil_r. split_and!; [done..|].
    apply report_accepted. lia.
Qed.

(** ** A page that loses a change *)

Definition change (n : Z) (p : string) : change_row :=
  {| ch_revision := n; ch_path := p; ch_kind := CkCreated; ch_at := n |}.
Definition with_changes (l : list change_row) : World :=
  {| db := {| t_file := []; t_part := []; t_mapping := []; t_delete := []; t_segment := [];
     t_completed := []; t_s3meta := []; t_upload := []; t_mpart := [];
     t_property := []; t_change := l; t_pin := []; t_lock := []; t_job := []; t_job_file := [];
     seq_file := 0; seq_mapping := 0; seq_change := 3 |}; ticks := 0; ids := 0 |}.

(** The query counts the path /A/x, which is not below /a, against the limit: the page
    for /a holds /a/y only, says that there is no more and moves the token past /a/z. *)
Lemma sync_loses_case_variants :
  (WebDAVChanges "/a" 0 "infinity" 1 (with_changes [change 1 "/A/x"; change 2 "/a/y"; change 3 "/a/z"])).1 =
  Ok {| Changes := [change 2 "/a/y"]; SyncRevision := 3; PageHasMore := false |}.
Proof. reflexivity. Qed.

Lemma sync_pages_complete_witness :
  let w := with_changes [change 1 "/a/x"; change 2 "/b"; change 3 "/a/y"] in
  exists page, (WebDAVChanges "/a" 0 "infinity" 1 w).1 = Ok page /\
    Changes page = [change 1 "/a/x"] /\ PageHasMore page = true /\ SyncRevision page = 1.
Proof.
  intros w. destruct (WebDAVChanges "/a" 0 "infinity" 1 w) as [[page|e] w'] eqn:Hrun; [|discriminate].
  destruct (sync_pages_complete "/a" 0 "infinity" 1 w page w') as (_ & Hpage & Hmore & _).
  - split; [vm_compute; repeat constructor; set_solver|].
    intros c Hc. assert (c = change 1 "/a/x" \/ c = change 2 "/b" \/ c = change 3 "/a/y") as [-> | [-> | ->]] by set_solver;
      vm_compute; reflexivity.
  - split; [vm_compute; reflexivity|right; vm_compute; reflexivity].
  - lia.
  - lia.
  - intros c Hc. assert (c = change 1 "/a/x" \/ c = change 2 "/b" \/ c = change 3 "/a/y") as [-> | [-> | ->]] by set_solver;
      vm_compute; auto.
  - exact Hrun.
  - exists page. split; [reflexivity|]. split; [exact Hpage|]. split; [exact Hmore|].
    assert ((WebDAVChanges "/a" 0 "infinity" 1 w).1 = Ok page) as E by (by rewrite Hrun).
    vm_compute in E. injection E as <-. reflexivity.
Defined.
