(* ===== verification/WebDAVSafety.v ===== *)
(** * WebDAV requests and blocks

    Every transaction of the WebDAV protocol keeps the invariant of RefInv.v, like the
    transactions of LinkSafety.v. Only a lock on a missing resource links a file without
    asking whether it may be linked: it links the empty file it made for itself. *)

From stdpp Require Import base strings list.
From S2P Require Import Prelude GoStr SqlText BlockIO Store Directory DirFrame DirTheorems References RefInv.
From S2P Require Import Dao Mutation S3Object FileManager LinkSafety WebDAV.
Import References Mutation S3Object WebDAV.

Section Checks.
Context `{!Env} (P : DB -> Prop) `{!ViewStable P}.

Lemma ok_keeps_etag p : ok_keeps P (queryWebDAVETagByPath p).
Proof. unfold queryWebDAVETagByPath. keeps. Qed.
#[local] Hint Resolve ok_keeps_etag : safe.
Lemma ok_keeps_applicable p : ok_keeps P (queryApplicableWebDAVLocks p).
Proof. unfold queryApplicableWebDAVLocks. keeps. Qed.
Lemma ok_keeps_overlapping p : ok_keeps P (queryOverlappingWebDAVLocks p).
Proof. unfold queryOverlappingWebDAVLocks. keeps. Qed.
#[local] Hint Resolve ok_keeps_applicable ok_keeps_overlapping : safe.
Lemma ok_keeps_lockByToken t : ok_keeps P (queryWebDAVLockByToken t).
Proof. unfold queryWebDAVLockByToken. keeps. Qed.
Lemma ok_keeps_assertLocks l c : ok_keeps P (assertWebDAVLocksTx l c).
Proof. unfold assertWebDAVLocksTx. keeps. Qed.
#[local] Hint Resolve ok_keeps_assertLocks : safe.
Lemma ok_keeps_assertTreeLocks l c : ok_keeps P (assertWebDAVTreeLocksTx l c).
Proof. unfold assertWebDAVTreeLocksTx. keeps. Qed.
Lemma ok_keeps_noConflict p d : ok_keeps P (assertNoConflictingWebDAVLockTx p d).
Proof. unfold assertNoConflictingWebDAVLockTx. keeps. Qed.
Lemma ok_keeps_assertConditions l c : ok_keeps P (assertWebDAVConditionsTx l c).
Proof. unfold assertWebDAVConditionsTx, evaluateFirstWebDAVConditionTx. keeps. Qed.
Lemma ok_keeps_parent p : ok_keeps P (ensureWebDAVParentTx p).
Proof. unfold ensureWebDAVParentTx. keeps. Qed.
Lemma ok_keeps_limit e n : ok_keeps P (enforceWebDAVMutationLimitTx e n).
Proof. unfold enforceWebDAVMutationLimitTx. keeps. Qed.
Lemma ok_keeps_quota r n l f z : ok_keeps P (enforceWebDAVQuotaTx r n l f z).
Proof.
  unfold enforceWebDAVQuotaTx, webDAVFileReferencedUnderRoot, webDAVFileReferenceCountUnderRoot,
    queryWebDAVQuotaUsed, queryWebDAVRootEntryID. keeps.
Qed.
Lemma ok_keeps_deleteLock t : ok_keeps P (delete_lock t).
Proof. unfold delete_lock. keeps. Qed.
Lemma ok_keeps_insertLock l d : ok_keeps P (insert_lock l d).
Proof. unfold insert_lock. keeps. Qed.
Lemma ok_keeps_moveRoots s d : ok_keeps P (moveLockRoots s d).
Proof. unfold moveLockRoots. keeps. Qed.
Lemma ok_keeps_patchProperty e t p : ok_keeps P (patch_property e t p).
Proof. unfold patch_property, upsert_property. keeps. Qed.
End Checks.

#[export] Hint Resolve ok_keeps_etag ok_keeps_applicable ok_keeps_overlapping ok_keeps_lockByToken
  ok_keeps_assertLocks ok_keeps_assertTreeLocks ok_keeps_noConflict ok_keeps_assertConditions
  ok_keeps_parent ok_keeps_limit ok_keeps_quota ok_keeps_deleteLock ok_keeps_insertLock
  ok_keeps_moveRoots ok_keeps_patchProperty : safe.

Section Transactions.
Context `{!Env} `{!MimeTypes}.

Lemma dir_op_CopyDepth s d o r : dir_op "" (Directory.CopyDepth s d o r).
Proof. intros I okref HI _. by apply (preserves_CopyDepth I). Qed.
Lemma dir_op_Replace s z r t : dir_op r (Directory.Tx.Replace s z r t).
Proof. intros I okref HI Hr. by apply (preserves_Replace I). Qed.
#[local] Hint Resolve dir_op_CopyDepth dir_op_Replace : safe.

Lemma cleanupLocks_safe : inv_safe_op cleanupExpiredWebDAVLocks.
Proof. apply tx_safe. intros d0. keeps. Qed.
Lemma createCollection_safe p o : inv_safe_op (OnTransation (createWebDAVCollectionTx p o)).
Proof. apply tx_safe. intros d0. unfold createWebDAVCollectionTx. keeps. Qed.
Lemma deleteResource_safe p o : inv_safe_op (OnTransation (deleteWebDAVResourceTx p o)).
Proof. apply tx_safe. intros d0. unfold deleteWebDAVResourceTx. keeps. Qed.
Lemma ok_keeps_copyDestination d0 p o : ok_keeps (kept_inv d0) (prepareWebDAVCopyDestinationTx p o).
Proof.
  unfold prepareWebDAVCopyDestinationTx. keeps. destruct (bool_decide _); keeps.
Qed.
#[local] Hint Resolve ok_keeps_copyDestination : safe.
Lemma copyResource_safe s d ov r o : inv_safe_op (OnTransation (copyWebDAVResourceTx s d ov r o)).
Proof. apply tx_safe. intros d0. unfold copyWebDAVResourceTx. keeps. Qed.
Lemma moveResource_safe s d ov o : inv_safe_op (OnTransation (moveWebDAVResourceTx s d ov o)).
Proof. apply tx_safe. intros d0. unfold moveWebDAVResourceTx. keeps. Qed.
Lemma patchProperties_safe p l o : inv_safe_op (OnTransation (patchWebDAVPropertiesTx p l o)).
Proof. apply tx_safe. intros d0. unfold patchWebDAVPropertiesTx. keeps. Qed.
Lemma refreshLock_safe p t u n h : inv_safe_op (OnTransation (refreshWebDAVLockTx p t u n h)).
Proof. apply tx_safe. intros d0. unfold refreshWebDAVLockTx. keeps. Qed.
Lemma unlock_safe p t u : inv_safe_op (OnTransation (unlockWebDAVResourceTx p t u)).
Proof. apply tx_safe. intros d0. unfold unlockWebDAVResourceTx. keeps. Qed.

(** After [m] the file [f] may be linked. *)
Definition makes_link {A} d0 f (m : M World A) : Prop :=
  forall w a w', kept_inv d0 (db w) -> m w = (Ok a, w') -> link_inv d0 f (db w').

Lemma makes_link_bind {A B} d0 f (m : M World A) (k : A -> M World B) :
  ok_keeps (kept_inv d0) m -> (forall a, makes_link d0 f (k a)) -> makes_link d0 f (m ≫= k).
Proof.
  intros Hm Hk w b w'' HP Hrun. apply bind_ok_inv in Hrun as (a & w' & R1 & R2).
  exact (Hk a w' b w'' (Hm w a w' HP R1) R2).
Qed.
Lemma makes_link_ensure {A} d0 f (a : A) : makes_link d0 f (_ ← ensureFileTreeCanBeLinked f; mret a).
Proof.
  intros w b w' Hinv Hrun. apply bind_ok_inv in Hrun as ([] & w1 & R1 & Hrun). injection Hrun as _ <-.
  apply ensureFileTreeCanBeLinked_ok in R1 as (-> & Hl & r & Hr & <-); [|apply Hinv].
  split; [done|]. split; [done|]. by apply (inv_wf _ (proj1 Hinv)).
Qed.
Lemma makes_uses {A B} d0 f (m : M World A) (k : A -> M World B) :
  makes_link d0 f m -> (forall a, uses_link d0 f (k a)) -> ok_keeps (kept_inv d0) (m ≫= k).
Proof.
  intros Hm Hk w b w'' HP Hrun. apply bind_ok_inv in Hrun as (a & w' & R1 & R2).
  exact (Hk a w' b w'' (Hm w a w' HP R1) R2).
Qed.
Lemma uses_link_end {A B} d0 f (m : M World A) (k : A -> M World B) :
  uses_link d0 f m -> (forall a, ok_keeps (kept_inv d0) (k a)) -> uses_link d0 f (m ≫= k).
Proof.
  intros Hm Hk w b w'' HP Hrun. apply bind_ok_inv in Hrun as (a & w' & R1 & R2).
  exact (Hk a w' b w'' (Hm w a w' HP R1) R2).
Qed.

(** A PUT writes the reference of a file it has just checked. *)
Lemma makes_link_prepare d0 p f z o : makes_link d0 f (prepareWebDAVPublishTx p f z o).
Proof.
  unfold prepareWebDAVPublishTx. do 6 (apply makes_link_bind; [keeps|intros ?]). apply makes_link_ensure.
Qed.
Lemma uses_link_store d0 p f z b : uses_link d0 f (storeWebDAVMappingTx p f z b).
Proof.
  unfold storeWebDAVMappingTx, replaceWebDAVMappingTx, markMappingFilesPending. destruct b; cbn [negb].
  - apply uses_link_end; [|intros; keeps]. do 2 (apply uses_link_bind; [eauto with safe|intros ?]).
    apply uses_link_forget. keeps.
  - do 2 (apply uses_link_bind; [eauto with safe typeclass_instances|intros ?]). apply uses_link_forget. keeps.
Qed.
Lemma publishFile_safe p f z o : inv_safe_op (OnTransation (publishWebDAVFileTx p f z o)).
Proof.
  apply tx_safe. intros d0. unfold publishWebDAVFileTx.
  eapply makes_uses; [apply makes_link_prepare|intros b].
  apply uses_link_end; [apply uses_link_store|intros]. keeps.
Qed.

(** A LOCK of a missing resource links the file it was given; of one that is there, none. *)
Definition lock_file (d : DB) (f : Z) : Prop :=
  f = 0 \/ (exists r, r ∈ t_file d /\ f_file_id r = f) /\ linkable d f.

Lemma uses_link_lock d0 id rq f : uses_link d0 f (lockWebDAVResourceTx id rq f).
Proof.
  unfold lockWebDAVResourceTx, ensureWebDAVLockTargetTx. apply uses_link_end; [|intros; keeps].
  apply uses_link_bind; [eauto with safe typeclass_instances|]. intros [e|].
  - apply uses_link_forget. keeps.
  - do 3 (apply uses_link_bind; [eauto with safe typeclass_instances|intros ?]). apply uses_link_forget. keeps.
Qed.
Lemma lock_without_file d0 id rq : ok_keeps (kept_inv d0) (lockWebDAVResourceTx id rq 0).
Proof.
  unfold lockWebDAVResourceTx, ensureWebDAVLockTargetTx. apply ok_keeps_bind; [|intros; keeps].
  apply ok_keeps_bind; [keeps|]. intros [e|]; [keeps|]. apply ok_keeps_bind; [keeps|intros _].
  by intros w a w' _ Hrun.
Qed.
Lemma lockResource_safe id rq f w :
  lock_file (db w) f -> file_inv (db w) ->
  grown_inv (db w) (db (OnTransation (lockWebDAVResourceTx id rq f) w).2).
Proof.
  intros [->|[(r & Hr & <-) Hl]] Hinv; [by apply tx_safe; [intros; apply lock_without_file|]|].
  apply kept_grown. unfold OnTransation.
  destruct (lockWebDAVResourceTx id rq (f_file_id r) w) as [[a|e] w'] eqn:E; [|by apply kept_refl].
  eapply (uses_link_lock (db w)); [|exact E]. split; [by apply kept_refl|]. split; [done|].
  by apply (inv_wf _ Hinv).
Qed.
End Transactions.
