(* ===== verification/BackupSafety.v ===== *)
(** * Backups and blocks

    The transactions of backup.go keep the invariant of RefInv.v: a snapshot pins only files
    whose blocks are live, so that the pins protect them, and an import links only files it
    has checked. *)

From stdpp Require Import base strings list gmap.
From S2P Require Import Prelude GoStr BlockIO Store Directory DirFrame DirTheorems References RefInv.
From S2P Require Import Dao Mutation S3Object FileManager UploadProofs LinkSafety WebDAVSafety Multipart.
From S2P Require Import BackupFmt Archive BackupExport BackupImport.
Import References BackupFmt BackupExport BackupImport.

Lemma live_eq d d' f : t_delete d' = t_delete d -> live d f -> live d' f.
Proof. unfold live. by intros ->. Qed.

(** ** Snapshots *)

(** Only sizes of parts were filled in. *)
Definition sized (d0 d : DB) : Prop := d = set_part (fun _ => t_part d) d0 /\ part_shapes d = part_shapes d0.

Lemma sized_refl d : sized d d.
Proof. split; [by destruct d|done]. Qed.

Lemma sized_update d0 d f z :
  sized d0 d -> sized d0 (set_part (sql_update f (with_size z)) d).
Proof.
  intros [E Hs]. split.
  - rewrite E. done.
  - rewrite <- Hs. unfold part_shapes, sql_update. cbn. change (map ?g ?l) with (g <$> l).
    rewrite <- list_fmap_compose. apply list_fmap_ext. intros i p _. cbn. by case_match.
Qed.

Lemma sized_inv d0 d : sized d0 d -> file_inv d0 -> file_inv d.
Proof.
  intros [E Hs] [[] Hsafe]. rewrite E. split.
  - split; try done. cbn. intros q Hq. destruct (wf_delete_part q Hq) as (p & Hp & E1 & E2).
    assert (part_shape p ∈ part_shapes d) as Hin by (rewrite Hs; by apply list_elem_of_fmap_2).
    apply list_elem_of_fmap in Hin as (p' & Ep & Hp'). injection Ep as F1 F2 F3. exists p'. split; [done|]. split; congruence.
  - intros f Hf. apply (Hsafe f). by destruct Hf; econstructor.
Qed.

Section Snapshot.
Context `{!Env} `{!FileCodec} (d0 : DB) (Hinv : file_inv d0).

(** [m] fills in sizes at most, and its result satisfies [Q]. *)
Definition loads {A} (m : M World A) (Q : A -> Prop) : Prop :=
  forall w a w', sized d0 (db w) -> m w = (Ok a, w') -> sized d0 (db w') /\ Q a.

Lemma loads_bind {A C} (m : M World A) (k : A -> M World C) Q R :
  loads m Q -> (forall a, Q a -> loads (k a) R) -> loads (m ≫= k) R.
Proof.
  intros Hm Hk w c w'' Hs Hrun. apply bind_ok_inv in Hrun as (a & w' & R1 & R2).
  destruct (Hm w a w' Hs R1) as [Hs' HQ]. by apply (Hk a HQ w' c w'').
Qed.
Lemma loads_same {A} (m : M World A) : (forall w, db (m w).2 = db w) -> loads m (fun _ => True).
Proof. intros Hm w a w' Hs Hrun. specialize (Hm w). rewrite Hrun in Hm. cbn in Hm. by rewrite Hm. Qed.
Lemma loads_ret {A} (a : A) (Q : A -> Prop) : Q a -> loads (mret a) Q.
Proof. intros HQ w b w' Hs [= <- <-]. done. Qed.
Lemma loads_fail {A} e (Q : A -> Prop) : loads (fail e) Q.
Proof. by intros w a w' Hs. Qed.
Lemma loads_fold {A C} (f : C -> A -> M World C) l acc (Q : C -> Prop) :
  (forall c a, a ∈ l -> Q c -> loads (f c a) Q) -> Q acc -> loads (fold_each f acc l) Q.
Proof.
  revert acc. induction l as [|a l IH]; intros acc Hf HQ; cbn; [by apply loads_ret|].
  eapply loads_bind; [apply Hf; [by left|done]|]. intros c Hc. apply IH; [|done]. intros; apply Hf; [by right|done].
Qed.
Lemma loads_check b e : loads (check b e) (fun _ => b = false).
Proof. intros w a w' Hs Hrun. apply check_ok in Hrun as [-> Hb]. done. Qed.

Lemma sized_delete d : sized d0 d -> t_delete d = t_delete d0.
Proof. by intros [-> _]. Qed.

(** A file that may be exported has live blocks only. *)
Lemma exportable_live f : loads (ensureBackupPhysicalFileExportable f) (fun _ => live d0 f).
Proof using Hinv.
  intros w a w' Hs Hrun. unfold ensureBackupPhysicalFileExportable in Hrun. step_ok Hrun.
  pose proof (sized_inv _ _ Hs Hinv) as [Hwf _].
  assert (forall q, q ∈ t_delete (db w) -> d_file_id q = f -> Some q ∈ part_states (db w) f) as Hin.
  { intros q Hq Ef. destruct (wf_delete_part _ Hwf q Hq) as (p & Hp & E1 & E2).
    unfold part_states. apply list_elem_of_In, in_flat_map. exists p.
    rewrite <- !list_elem_of_In, sql_select_elem, Z.eqb_eq. split; [split; congruence|].
    unfold left_join. assert (q ∈ sql_select (fun s => (d_file_id s =? p_file_id p) && (d_part_id s =? p_part_id p)) (t_delete (db w))) as Hsel.
    { apply sql_select_elem. split; [done|]. by rewrite E1, E2, !Z.eqb_refl. }
    destruct (sql_select _ _) as [|x l] eqn:El; [by apply elem_of_nil in Hsel|]. rewrite <- El in *. by apply list_elem_of_fmap_2. }
  assert (w' = w /\ live (db w) f) as [-> Hl]; [|by split; [|eapply live_eq; [symmetry; by apply sized_delete|]]].
  assert (forall q, q ∈ t_delete (db w) -> d_file_id q = f ->
    forall g : option delete_row -> bool, zlen (List.filter g (part_states (db w) f)) = 0 -> g (Some q) = false) as Hnone.
  { intros q Hq Ef g Hz. destruct (g (Some q)) eqn:Eg; [|done]. exfalso.
    assert (Some q ∈ List.filter g (part_states (db w) f)) as Hf by (apply list_elem_of_In, filter_In; rewrite <- list_elem_of_In; auto).
    unfold zlen in Hz. destruct (List.filter g _); [by apply elem_of_nil in Hf|]. cbn in Hz. lia. }
  destruct (Z.eqb_spec (zlen (List.filter (fun o => bool_decide (is_Some o)) (part_states (db w) f))) 0) as [Ez|_].
  - injection Hrun as _ <-. split; [done|]. intros q Hq Ef. specialize (Hnone q Hq Ef _ Ez). cbn in Hnone.
    done.
  - step_ok Hrun. apply check_ok in Hrun as [-> Hz%negb_false_iff%Z.eqb_eq]. split; [done|]. intros q Hq Ef.
    specialize (Hnone q Hq Ef _ Hz). cbn in Hnone. rewrite !orb_false_iff, negb_false_iff, bool_decide_eq_true in Hnone. apply Hnone.
Qed.

(** A file as the manifest will have it: its id, and its parts by number. *)
Definition described (f : Z) (item : File) : Prop :=
  (file_SourceFileID item = FormatUint f /\ 0 < f < 2 ^ 63) /\
  forall i, 0 <= i < zlen (file_Parts item) -> exists key, (f, i, key) ∈ part_shapes d0.
Definition keys_live (r : gmap Z snapshotFile) : Prop :=
  forall f s, r !! f = Some s -> live d0 f /\ described f (sf_item s).

Lemma keys_live_insert f s r : live d0 f -> described f (sf_item s) -> keys_live r -> keys_live (<[f := s]> r).
Proof.
  intros Hf Hs Hr g s'. destruct (decide (g = f)) as [->|].
  - rewrite lookup_insert_eq. by intros [= <-].
  - rewrite lookup_insert_ne by done. apply Hr.
Qed.
Lemma described_other f item l c : described f item -> described f (file_with item [] l c).
Proof. intros [E _]. split; [done|]. cbn. unfold zlen. cbn. lia. Qed.

Lemma loads_query {A} (q : DB -> A) : loads (query q) (fun _ => True).
Proof. by apply loads_same. Qed.

(** What is read of a file, and that a file of layout 2 has no blocks to delete. *)
Lemma loads_file f : loads (readBackupFileSnapshot f)
  (fun r => sf_id r.1 = f /\ described f (sf_item r.1) /\ (file_LayoutVersion (sf_item r.1) = 2 -> live d0 f)).
Proof using Hinv.
  intros w [s n] w' Hs Hrun. unfold readBackupFileSnapshot in Hrun. step_ok Hrun.
  destruct (head _) as [r|] eqn:Er; [|done]. step_ok Hrun. injection Hrun as <- <- <-. split; [done|].
  pose proof (sized_inv _ _ Hs Hinv) as [Hwf _]. apply file_rows_head in Er as [Hr Ef]; [|done].
  split; [done|]. split; [split; [split; [done|rewrite <- Ef; by apply Hwf]|]; cbn; unfold zlen; cbn; lia|]. cbn. intros El.
  eapply live_eq; [symmetry; by apply sized_delete|]. intros q Hq Eq.
  destruct (decide (d_state q = DsLive)) as [|Hn]; [done|].
  destruct (wf_queued _ Hwf q Hq Hn) as (r' & Hr' & E' & L').
  assert (1 = 2) by (eapply file_layout_inj; [exact Hwf|exact Hr'|exact Hr|congruence|done|done]). done.
Qed.

Lemma loads_scan mp s n i row : loads (scanBackupPhysicalPart mp s n i row) (fun _ => p_part_id row = i).
Proof.
  unfold scanBackupPhysicalPart. eapply loads_bind; [apply loads_check|intros ? Hi%negb_false_iff%Z.eqb_eq].
  eapply (loads_bind _ _ (fun _ => True)); [|intros; by apply loads_ret]. destruct (p_size row <? 0); [|by apply loads_ret].
  cbv zeta. eapply loads_bind; [apply loads_check|intros _ _]. eapply (loads_bind _ _ (fun _ => True)); [|intros; by apply loads_ret].
  intros w x w' Hs [= _ <-]. split; [|done]. by apply sized_update.
Qed.

Lemma loads_parts f : loads (FilePartDao.ListFilePart f)
  (Forall (fun p => exists key, (f, p_part_id p, key) ∈ part_shapes d0)).
Proof.
  intros w rows w' Hs Hrun. apply query_ok in Hrun as [-> ->]. split; [done|]. apply Forall_forall. intros p Hp.
  apply order_by_elem, sql_select_elem in Hp as [Hp <-%Z.eqb_eq]. exists (p_key p). destruct Hs as [_ <-].
  by apply (list_elem_of_fmap_2 part_shape).
Qed.

Lemma loads_physical mp s n : described (sf_id s) (sf_item s) ->
  loads (loadBackupPhysicalFile mp s n) (fun r => live d0 (sf_id s) /\ described (sf_id s) (sf_item r)).
Proof using Hinv.
  intros [Es _]. unfold loadBackupPhysicalFile. eapply loads_bind; [apply exportable_live|intros ? Hl].
  eapply loads_bind; [apply loads_parts|intros rows Hrows]. rewrite Forall_forall in Hrows.
  eapply loads_bind; [apply (loads_fold _ _ _
    (fun parts : list Part => forall i, 0 <= i < zlen parts -> exists key, (sf_id s, i, key) ∈ part_shapes d0))|].
  - intros c row Hrow Hc. eapply loads_bind; [apply loads_scan|intros ? Ei]. apply loads_ret. cbn in Ei.
    intros i Hi. rewrite zlen_app in Hi. destruct (decide (i < zlen c)); [apply Hc; lia|].
    assert (i = p_part_id row) as -> by (unfold zlen in *; cbn in Hi; lia). by apply Hrows.
  - unfold zlen. cbn. lia.
  - intros parts Hp. cbv zeta. eapply loads_bind; [apply loads_check|intros _ _]. by apply loads_ret.
Qed.

Lemma loads_segments s : described (sf_id s) (sf_item s) ->
  loads (readBackupSegments s) (fun r => described (sf_id s) (sf_item r)).
Proof.
  intros Hd. unfold readBackupSegments. eapply loads_bind; [apply loads_query|intros rows _].
  eapply loads_bind; [by apply loads_same|intros _ _]. apply loads_ret. by apply described_other.
Qed.

Lemma loads_tree fuel mp f r : keys_live r -> loads (load_tree fuel mp f r) keys_live.
Proof using Hinv.
  revert f r. induction fuel as [|fuel IH]; intros f r Hr; cbn [load_tree]; [apply loads_fail|].
  case_decide; [by apply loads_ret|]. eapply loads_bind; [apply loads_file|]. intros [s n] (Es & Hd & H2). cbn in Es, Hd, H2.
  subst f. cbv zeta. destruct (Z.eqb_spec (file_LayoutVersion (sf_item s)) 1).
  { eapply loads_bind; [by apply loads_physical|]. intros s' [Hl Hd']. apply loads_ret. do 2 (apply keys_live_insert; [done..|]). done. }
  destruct (Z.eqb_spec (file_LayoutVersion (sf_item s)) 2); [|apply loads_fail].
  eapply loads_bind; [by apply loads_segments|intros s' Hd'].
  eapply loads_bind; [apply (loads_fold _ _ _ keys_live); [intros; by apply IH|]|].
  { do 2 (apply keys_live_insert; [by auto|done|]). done. }
  intros r' Hr'. unfold readBackupCompletedParts. eapply loads_bind; [eapply loads_bind; [apply loads_query|]|].
  { intros; by apply (loads_ret _ (fun _ => True)). }
  intros c _. apply loads_ret. apply keys_live_insert; [by auto| |done]. by apply described_other.
Qed.

Lemma loads_selected mp rows : loads (loadSelectedBackupFiles mp rows) keys_live.
Proof using Hinv.
  unfold loadSelectedBackupFiles. apply loads_fold.
  - intros r row _ Hr. destruct (ParseUint _) as [f|e]; [|apply loads_fail].
    eapply loads_bind; [apply loads_check|intros _ _]. unfold loadBackupFileTree.
    eapply loads_bind; [apply loads_query|intros fuel _]. by apply loads_tree.
  - intros f s Hs. by rewrite lookup_empty in Hs.
Qed.
End Snapshot.

(** ** Pins *)

(** Pins came, and sizes were filled in. *)
Definition pin_inv (d0 d : DB) : Prop :=
  file_inv d /\ t_delete d = t_delete d0 /\ part_shapes d = part_shapes d0 /\ t_file d = t_file d0.

Lemma sized_pin d0 d : file_inv d0 -> sized d0 d -> pin_inv d0 d.
Proof. intros Hinv Hs. split; [by eapply sized_inv|]. destruct Hs as [E Hp]. split; [by rewrite E|]. split; [done|by rewrite E]. Qed.
Lemma pin_grown d0 d : pin_inv d0 d -> grown_inv d0 d.
Proof.
  intros (Hi & E1 & E2 & E3). split; [done|]. split; [done|]. rewrite E1. split; [apply row_kept_refl|].
  unfold shapes. by rewrite E3.
Qed.

Lemma pins_inv d t :
  file_inv d -> (forall p, p ∈ t -> p ∈ t_pin d \/ live d (pin_file_id p)) -> file_inv (set_pin (fun _ => t) d).
Proof.
  intros [[] Hsafe] Ht. split; [by split|]. intros f Hf. change (live d f).
  destruct Hf as [p Hp <-|Hm|s Hs E Hm|p u Hp E Ha Hu Ei Hact].
  - destruct (Ht p Hp) as [Hin|]; [|done]. apply Hsafe. by eapply ref_pin.
  - apply Hsafe. by apply ref_mapping.
  - apply Hsafe. by eapply ref_composite.
  - apply Hsafe. by eapply ref_upload.
Qed.

Section Pins.
Context `{!Env} (d0 : DB).

Lemma insert_pin_ok job f w a w' :
  live d0 f -> pin_inv d0 (db w) -> insert_pin job f w = (Ok a, w') ->
  pin_inv d0 (db w') /\ t_pin (db w') = t_pin (db w) ++ [{| pin_job := job; pin_file_id := f |}].
Proof.
  intros Hl (Hinv & E1 & E2 & E3) Hrun. unfold insert_pin in Hrun. do 4 step_ok Hrun. injection Hrun as _ <-.
  split; [|done]. split; [|done]. apply (pins_inv _ (t_pin (db w) ++ [_])); [done|].
  intros p [Hp|Hp%list_elem_of_singleton]%elem_of_app; [by left|right]. subst p. cbn. by eapply live_eq.
Qed.

(** The files of the manifest, each with its pin. *)
Definition pinned (job : string) (d : DB) (file : File) : Prop :=
  exists f, described d0 f file /\ {| pin_job := job; pin_file_id := f |} ∈ t_pin d.

Lemma append_loop_ok job (snaps : gmap Z snapshotFile) m refs acc w files w' :
  keys_live d0 snaps -> pin_inv d0 (db w) -> (forall f ref, (f, ref) ∈ refs -> is_Some (snaps !! f)) ->
  Forall (pinned job (db w)) acc ->
  fold_each (fun files (ir : Z * string) => _ ← insert_pin job ir.1;
    mret (files ++ match snaps !! ir.1 with Some s => [set_refs m ir.2 s] | None => [] end)) acc refs w = (Ok files, w') ->
  pin_inv d0 (db w') /\ Forall (pinned job (db w')) files.
Proof.
  intros Hk. revert acc w. induction refs as [|[f ref] refs IH]; intros acc w Hpin Hrefs Hacc Hrun.
  { cbn in Hrun. by injection Hrun as <- <-. }
  cbn [fold_each] in Hrun. apply bind_ok_inv in Hrun as (acc' & w2 & Hstep & Hrun).
  apply bind_ok_inv in Hstep as ([] & w3 & Hins & Hret). injection Hret as <- <-. cbn [fst snd] in *.
  destruct (Hrefs f ref ltac:(left)) as [s Hs]. destruct (Hk f s Hs) as [Hl Hd].
  destruct (insert_pin_ok job f w tt w3 Hl Hpin Hins) as [Hpin' Et].
  eapply IH; [exact Hpin'| | |exact Hrun]; [intros; eapply Hrefs; by right|].
  rewrite Hs. apply Forall_app. split.
  - eapply Forall_impl; [exact Hacc|]. intros file (g & Hg & Hp). exists g. rewrite Et. split; [done|]. apply elem_of_app. by left.
  - constructor; [|constructor]. exists f. split; [done|]. rewrite Et. apply elem_of_app. right. by left.
Qed.

Lemma append_ok job (snaps : gmap Z snapshotFile) w rf w' :
  keys_live d0 snaps -> pin_inv d0 (db w) -> appendBackupFilesAndPins job snaps w = (Ok rf, w') ->
  pin_inv d0 (db w') /\ Forall (pinned job (db w')) rf.2.
Proof.
  intros Hk Hpin Hrun. unfold appendBackupFilesAndPins in Hrun. cbv zeta in Hrun.
  apply bind_ok_inv in Hrun as (files & w1 & Hrun & Hret). injection Hret as <- <-. cbn [snd].
  eapply append_loop_ok; [exact Hk|exact Hpin| |by constructor|exact Hrun].
  intros f ref Hin. unfold backup_refs in Hin. apply elem_of_lookup_imap in Hin as (i & x & [= -> _] & Hx).
  apply list_elem_of_lookup_2, order_by_elem, list_elem_of_fmap in Hx as ([k s] & -> & Hs).
  apply elem_of_map_to_list in Hs. by exists s.
Qed.
End Pins.

Section Populate.
Context `{!Env} `{!S3Object.MimeTypes} `{!FileCodec}.

Lemma mappings_same l refs buckets w : (appendBackupMappings l refs buckets w).2 = w.
Proof.
  unfold appendBackupMappings. generalize (@nil Mapping, @nil S3Object) as acc. induction l as [|x l IH]; intros acc; [done|].
  cbn [fold_each]. unfold mbind at 1, M_bind at 1. destruct (negb _); [apply IH|]. apply IH.
Qed.
Lemma properties_same l w : (readBackupWebDAVProperties l w).2 = w.
Proof.
  unfold readBackupWebDAVProperties. generalize (@nil WebDAVProperty) as acc. induction l as [|x l IH]; intros acc; [done|]. apply IH.
Qed.

(** A snapshot keeps the invariant, and every file of its manifest is pinned. *)
Lemma populate_ok mp rq m0 w m w' :
  file_inv (db w) -> populateBackupSnapshotTx mp rq m0 w = (Ok m, w') ->
  pin_inv (db w) (db w') /\ Forall (pinned (db w) (rq_JobID rq) (db w')) (mf_Files m).
Proof.
  intros Hinv Hrun. unfold populateBackupSnapshotTx in Hrun.
  apply bind_ok_inv in Hrun as (rows & w1 & R1 & Hrun).
  assert (w1 = w) as ->. { unfold readBackupMappings in R1. step_ok R1. by apply lift_ok in R1 as [-> _]. }
  step_ok Hrun. destruct a as [sel dirs]. apply bind_ok_inv in Hrun as (snaps & w2 & R2 & Hrun).
  destruct (loads_selected (db w) Hinv mp sel w snaps w2 (sized_refl _) R2) as [Hs Hk].
  apply bind_ok_inv in Hrun as (rf & w3 & R3 & Hrun).
  destruct (append_ok (db w) _ _ _ _ _ Hk (sized_pin _ _ Hinv Hs) R3) as [Hp Hf].
  apply bind_ok_inv in Hrun as (mo & w4 & R4 & Hrun).
  pose proof (mappings_same sel rf.1 (rq_RequiredBuckets rq) w3) as E4. rewrite R4 in E4. cbn in E4. subst w4.
  apply bind_ok_inv in Hrun as (ps & w5 & R5 & Hrun).
  pose proof (properties_same (backupIncludedEntries sel dirs) w3) as E5. rewrite R5 in E5. cbn in E5. subst w5.
  injection Hrun as <- <-. done.
Qed.

Lemma snapshot_safe mp rq m0 : inv_safe_op (OnTransation (populateBackupSnapshotTx mp rq m0)).
Proof.
  intros w Hinv. unfold OnTransation. destruct (populateBackupSnapshotTx _ _ _ w) as [[m|e] w'] eqn:E.
  - by apply pin_grown, (populate_ok _ _ _ _ _ _ Hinv E).
  - by apply kept_grown, kept_refl.
Qed.

Lemma release_safe job : inv_safe_op (ReleaseBackupSnapshot job).
Proof.
  intros w Hinv. apply pin_grown. split; [|done]. apply (pins_inv _ (sql_delete _ _)); [done|].
  intros p Hp. left. unfold sql_delete in Hp. rewrite list_elem_of_In, filter_In, <- list_elem_of_In in Hp. apply Hp.
Qed.
End Populate.

(** ** Drafts of an import *)

Lemma job_files_inv d t :
  file_inv d -> file_inv (set_job_file (fun _ => t) d).
Proof. intros [[] Hsafe]. split; [by split|]. intros f Hf. apply (Hsafe f). revert Hf. by apply referenced_same. Qed.

Lemma grown_inv_trans d1 d2 d3 : grown_inv d1 d2 -> file_inv d3 -> grown d2 d3 -> grown_inv d1 d3.
Proof. intros [_ G1] Hi G2. split; [done|by eapply grown_trans]. Qed.
Lemma grown_same d d' : t_part d' = t_part d -> t_delete d' = t_delete d -> t_file d' = t_file d -> grown d d'.
Proof. intros E1 E2 E3. apply grown_tables; [done..|]. unfold shapes. by rewrite E3. Qed.

Section Drafts.
Context `{!Env} `{!FileCodec} (d0 : DB).

Lemma ok_keeps_move_stage job ref i f : ok_keeps (grown_inv d0) (move_stage job ref i f).
Proof.
  intros w a w' Hinv Hrun. unfold move_stage in Hrun. do 2 step_ok Hrun. apply check_ok in Hrun as [-> _].
  eapply grown_inv_trans; [exact Hinv| |by apply grown_same]. apply job_files_inv, Hinv.
Qed.

Lemma insert_file_ok mk w a w' :
  (forall n, f_file_id (mk n) = f_file_id (mk 0)) -> 0 < f_file_id (mk 0) -> file_inv (db w) ->
  FileDao.insert_file mk w = (Ok a, w') ->
  w' = with_db w (add_file mk (db w)) /\ file_inv (add_file mk (db w)) /\ grown (db w) (add_file mk (db w)).
Proof.
  intros Hmk Hpos Hinv Hrun. unfold FileDao.insert_file in Hrun. step_ok Hrun. cbv zeta in Hrun.
  apply bind_ok_inv in Hrun as (? & w1 & R1 & Hrun). apply check_ok in R1 as [-> Hlt%Z.leb_gt].
  apply bind_ok_inv in Hrun as (? & w1 & R1 & Hrun). apply check_ok in R1 as [-> Hnew]. injection Hrun as _ <-.
  split; [done|]. split.
  - apply (add_row_inv _ mk (f_file_id (mk 0))); [done|done|lia|]. intros r Hr E.
    rewrite sql_exists_false in Hnew. specialize (Hnew r Hr). apply Z.eqb_neq in Hnew. done.
  - apply grown_tables; [done..|]. unfold shapes. cbn. rewrite fmap_app. by eexists.
Qed.

Lemma ok_keeps_begin_file job t file : (forall n, 0 < idfn n) -> ok_keeps (grown_inv d0) (begin_file job t file).
Proof.
  intros Hids w a w' Hinv Hrun. unfold begin_file in Hrun. step_ok Hrun. destruct (negb _); [by injection Hrun as _ <-|].
  apply bind_ok_inv in Hrun as (id & w1 & R1 & Hrun). unfold NextId in R1. injection R1 as <- <-.
  step_ok Hrun. apply bind_ok_inv in Hrun as ([] & w1 & R1 & Hrun).
  eapply insert_file_ok in R1 as (-> & Hd1 & G1); [|done|apply Hids|apply Hinv].
  unfold insert_job_file in Hrun. step_ok Hrun. do 2 step_ok Hrun. injection Hrun as _ <-. cbn [db with_db] in *.
  eapply grown_inv_trans; [eapply grown_inv_trans; [exact Hinv|exact Hd1|exact G1]| |by apply grown_same].
  exact (job_files_inv _ (t_job_file (db w) ++ [_]) Hd1).
Qed.

End Drafts.

Lemma begin_safe `{!Env} `{!FileCodec} job m w : (forall n, 0 < idfn n) -> file_inv (db w) -> grown_inv (db w) (db (BeginBackupImport job m w).2).
Proof.
  intros Hids Hinv. unfold BeginBackupImport. destruct (String.eqb job ""); [by apply kept_grown, kept_refl|].
  cbn [check]. unfold mbind, M_bind, mret, M_ret. cbn [now].
  apply (ok_keeps_tx (grown_inv (db w))); [|by apply kept_grown, kept_refl]. apply ok_keeps_for_each.
  intros f. by apply ok_keeps_begin_file.
Qed.

(** ** Publishing *)

Section Publish.
Context `{!Env} (d0 : DB).

(** Modes and times of an entry, and not its reference. *)
Lemma ok_keeps_metadata e mode c m : ok_keeps (kept_inv d0) (updateBackupEntryMetadata e mode c m).
Proof.
  intros w a w' [Hinv Hsame] [= _ <-]. split; [|by eapply same_parts_other]. eapply unlink_keeps_inv; [exact Hinv|done|].
  intros r Hr. right. cbn in Hr. apply sql_update_elem in Hr as (r0 & Hr0 & ->). exists r0. split; [done|]. by case_match.
Qed.
#[local] Hint Resolve ok_keeps_metadata dir_op_Replace : safe.

Lemma ok_keeps_directories m p : ok_keeps (kept_inv d0) (publishDirectories m p).
Proof. unfold publishDirectories. keeps. Qed.

Lemma uses_link_mapping policy item f p : uses_link d0 f (publishMapping policy item f p).
Proof.
  unfold publishMapping, replaceMapping. apply uses_link_bind; [eauto with safe typeclass_instances|]. intros [c|].
  - apply uses_link_bind; [eauto with safe|intros _]. apply uses_link_bind; [eauto with safe|intros old].
    do 3 (apply uses_link_bind; [eauto with safe typeclass_instances|intros ?]). apply uses_link_forget. keeps.
  - apply uses_link_bind; [eauto with safe|intros ?]. apply uses_link_forget. keeps.
Qed.
Lemma ok_keeps_item m policy targets p item : ok_keeps (kept_inv d0) (publish_item m policy targets p item).
Proof.
  unfold publish_item. cbv zeta. apply ensure_link_bind. apply uses_link_end; [apply uses_link_mapping|].
  intros [e p']. keeps.
Qed.
Lemma ok_keeps_properties m p : ok_keeps (kept_inv d0) (publishWebDAVProperties m p).
Proof. unfold publishWebDAVProperties. keeps. Qed.
Lemma ok_keeps_complete job n p : ok_keeps (kept_inv d0) (complete job n p).
Proof. unfold complete. keeps. Qed.
#[local] Hint Resolve ok_keeps_directories ok_keeps_item ok_keeps_properties ok_keeps_complete : safe.

Lemma ok_keeps_publish_import job m policy : ok_keeps (kept_inv d0) (publish job m policy).
Proof. unfold publish, publishMappings, readBackupTargets. keeps. Qed.
Lemma ok_keeps_discard_import t targets :
  ok_keeps (kept_inv d0) (for_each (fun rt : string * Z => markFileTreePendingIfUnreferenced rt.2 t) targets).
Proof. keeps. Qed.
End Publish.

Lemma publish_import_safe `{!Env} job m policy : inv_safe_op (OnTransation (publish job m policy)).
Proof. apply tx_safe. intros d0. apply ok_keeps_publish_import. Qed.
Lemma discard_import_safe `{!Env} job : inv_safe_op (DiscardBackupImport job).
Proof.
  intros w Hinv. unfold DiscardBackupImport. set (w1 := {| db := db w; ticks := S (ticks w); ids := ids w |}).
  rewrite (bind_ok (query _) _ w (job_targets (db w) job) w eq_refl), (bind_ok now _ w (clk (ticks w)) w1 eq_refl).
  apply (tx_safe _ (fun d0 => ok_keeps_discard_import d0 _ _) w1 Hinv).
Qed.

(** ** Finishing *)

(** What an import may count on: its files are there with their layouts, composite files
    join physical ones, and no entry links a composite file before it is finished. *)
Record import_of (d : DB) (job : string) (m : Manifest) : Prop := {
  im_rows : forall file, file ∈ mf_Files m ->
    exists r, r ∈ t_file d /\ f_file_id r = target_of (list_to_map (job_targets d job)) (file_Ref file) /\
      f_layout r = file_LayoutVersion file;
  im_sources : forall file g, file ∈ mf_Files m -> g ∈ file_Segments file ->
    exists source, source ∈ mf_Files m /\ file_Ref source = seg_SourceRef g /\ file_LayoutVersion source = 1;
  im_unlinked : forall r, r ∈ t_file d -> f_layout r = 2 -> f_state r <> FileStateReady -> ~ mapped d (f_file_id r) }.

Section Finish.
Context `{!Env} (d0 : DB) (job : string) (m : Manifest) (Hinv : file_inv d0) (Him : import_of d0 job m).

Let targets : gmap string Z := list_to_map (job_targets d0 job).

(** On the way: files only became ready. *)
Definition finish_inv (d : DB) : Prop :=
  file_inv d /\ grown d0 d /\ t_mapping d = t_mapping d0 /\ shapes d = shapes d0 /\
  forall r, r ∈ t_file d -> f_state r <> FileStateReady -> r ∈ t_file d0.

Lemma finish_row_of d file : finish_inv d -> file ∈ mf_Files m ->
  exists r, r ∈ t_file d /\ f_file_id r = target_of targets (file_Ref file) /\ f_layout r = file_LayoutVersion file.
Proof using Hinv Him.
  intros (_ & _ & _ & Es & _) Hf. destruct (im_rows _ _ _ Him file Hf) as (r & Hr & E1 & E2).
  assert (file_shape r ∈ shapes d) as Hin by (rewrite Es; by apply list_elem_of_fmap_2).
  apply list_elem_of_fmap in Hin as (r' & E & Hr'). injection E as F1 _ F3. exists r'. split; [done|]. split; [by rewrite <- F1|congruence].
Qed.

Lemma mark_ready_finish file t : ok_keeps finish_inv (markBackupFileReady job file t).
Proof.
  intros w a w' (Hi & Hg & Em & Es & Hst) Hrun. unfold markBackupFileReady in Hrun. do 2 step_ok Hrun. injection Hrun as _ <-.
  assert (shapes (set_file (sql_update (fun r => (f_file_id r =? t) && (f_state r =? FileStateInit))
    (finish_row (file_Ctime file) (file_Mtime file))) (db w)) = shapes (db w)) as Esh.
  { unfold shapes, sql_update. cbn. change (map ?g ?l) with (g <$> l). rewrite <- list_fmap_compose.
    apply list_fmap_ext. intros i r _. cbn. by case_match. }
  assert (file_inv (set_file (sql_update (fun r => (f_file_id r =? t) && (f_state r =? FileStateInit))
    (finish_row (file_Ctime file) (file_Mtime file))) (db w))) as Hi' by (by apply file_update_inv).
  split; [|split; [|split; [done|split]]].
  - apply job_files_inv, Hi'.
  - eapply grown_trans; [exact Hg|]. apply grown_tables; [done..|]. cbn. unfold shapes in *. cbn in *. by rewrite Esh.
  - rewrite <- Es. exact Esh.
  - cbn. intros r Hr Hn. apply sql_update_elem in Hr as (r0 & Hr0 & ->). destruct (_ && _); [done|by apply Hst].
Qed.

Lemma insert_segment_finish s : 
  (exists file, file ∈ mf_Files m /\ sg_file_id s = target_of targets (file_Ref file) /\ file_LayoutVersion file = 2) ->
  (exists file, file ∈ mf_Files m /\ sg_source s = target_of targets (file_Ref file) /\ file_LayoutVersion file = 1) ->
  ~ mapped d0 (sg_file_id s) -> ok_keeps finish_inv (Multipart.insert_segment s).
Proof using Hinv Him.
  intros (file & Hf & Ef & Lf) (src & Hsrc & Esrc & Lsrc) Hun w a w' Hfi Hrun.
  unfold Multipart.insert_segment in Hrun. do 3 step_ok Hrun. injection Hrun as _ <-.
  destruct (finish_row_of _ file Hfi Hf) as (r1 & Hr1 & E1 & L1).
  destruct (finish_row_of _ src Hfi Hsrc) as (r2 & Hr2 & E2 & L2).
  destruct Hfi as ([[Hids Hrange Hsf Hss Hk Hq Hdp Hu Hmu] Hsafe] & Hg & Em & Es & Hst).
  split; [|split; [|done]]; [split|].
  - split; try done; cbn; intros s' [Hs| ->%list_elem_of_singleton]%elem_of_app; [by apply Hsf| |by apply Hss|].
    + exists r1. split; [done|]. split; congruence.
    + exists r2. split; [done|]. split; congruence.
  - intros f [p Hp E|(r & Hr & E)|s' Hs E (r & Hr & Em')|p u Hp E Ha Hup Ei Hact].
    + apply (Hsafe f). by eapply ref_pin.
    + apply (Hsafe f). apply ref_mapping. by exists r.
    + cbn in Hs. apply elem_of_app in Hs as [Hs| ->%list_elem_of_singleton].
      * apply (Hsafe f). eapply ref_composite; [done|done|by exists r].
      * destruct Hun. cbn in Hr. rewrite Em in Hr. by exists r.
    + apply (Hsafe f). by eapply ref_upload.
  - eapply grown_trans; [exact Hg|]. by apply grown_same.
Qed.

Lemma ok_keeps_each_in {A} (f : A -> M World unit) l :
  (forall a, a ∈ l -> ok_keeps finish_inv (f a)) -> ok_keeps finish_inv (for_each f l).
Proof.
  induction l as [|a l IH]; intros Hf; cbn; [apply ok_keeps_ret|].
  apply ok_keeps_bind; [apply Hf; by left|intros _]. apply IH. intros; apply Hf; by right.
Qed.

Lemma physical_finish : ok_keeps finish_inv (finishBackupPhysicalFiles job m targets).
Proof.
  apply ok_keeps_each_in. intros file _. destruct (negb _); [apply ok_keeps_ret|]. cbv zeta.
  do 2 (apply ok_keeps_bind; [eauto with safe|intros ?]). apply mark_ready_finish.
Qed.

Lemma completed_finish file t : ok_keeps finish_inv (insertBackupCompletedParts file t).
Proof.
  apply ok_keeps_each_in. intros part _. apply ok_keeps_bind; [eauto with safe|intros _].
  unfold Multipart.insert_completed. do 3 (apply ok_keeps_bind; [eauto with safe|intros ?]).
  intros w x w' (Hi & Hg & Hrest) [= _ <-]. split; [by eapply file_inv_view; [|exact Hi]|]. split; [|done].
  eapply grown_trans; [exact Hg|]. by apply grown_same.
Qed.

Lemma composite_finish : ok_keeps finish_inv (finishBackupCompositeFiles job m targets).
Proof using Hinv Him.
  apply ok_keeps_each_in. intros file Hf. destruct (Z.eqb_spec (file_LayoutVersion file) 2) as [El|]; [|apply ok_keeps_ret].
  cbn [negb]. cbv zeta. intros w a w' Hfi Hrun. unfold backupFileIsReady in Hrun. apply bind_ok_inv in Hrun as (ready & w1 & R1 & Hrun).
  step_ok R1. destruct (head _) as [r|] eqn:Er; [|done]. injection R1 as <- <-.
  destruct (Z.eqb_spec (f_state r) FileStateReady) as [|Hn]; [by injection Hrun as _ <-|].
  apply file_rows_head in Er as [Hr Er]; [|apply Hfi].
  assert (~ mapped d0 (target_of targets (file_Ref file))) as Hun.
  { rewrite <- Er. apply (im_unlinked _ _ _ Him r); [by apply Hfi| |done].
    destruct (finish_row_of _ file Hfi Hf) as (r' & Hr' & E' & L').
    eapply file_layout_inj; [apply Hfi|exact Hr|exact Hr'|congruence|done|congruence]. }
  clear Hn Hr Er r. revert w a w' Hfi Hrun. apply ok_keeps_bind; [|intros _; apply ok_keeps_bind; [apply completed_finish|intros _; apply mark_ready_finish]].
  apply ok_keeps_each_in. intros g Hg. apply insert_segment_finish; [by exists file| |done].
  destruct (im_sources _ _ _ Him file g Hf Hg) as (src & Hsrc & Es & Ls). exists src. by rewrite Es.
Qed.

Lemma finish_import_ok w : db w = d0 -> grown_inv d0 (db (FinishBackupImportFiles job m w).2).
Proof using Hinv Him.
  intros Ew. assert (finish_inv (db w)) as Hw.
  { rewrite Ew. split; [done|]. split; [apply (same_grown _ _ (same_parts_refl _))|done]. }
  enough (finish_inv (db (FinishBackupImportFiles job m w).2)) as (? & ? & _) by done.
  unfold FinishBackupImportFiles, OnTransation, readBackupTargets.
  rewrite (bind_ok (query _) _ w targets w) by (unfold query, reads; by rewrite Ew).
  destruct ((_ ← finishBackupPhysicalFiles job m targets; finishBackupCompositeFiles job m targets) w)
    as [[a|e] w'] eqn:E; [|done]. cbn. revert Hw E. apply ok_keeps_bind; [apply physical_finish|].
  intros _. apply composite_finish.
Qed.
End Finish.

Lemma finish_import_safe `{!Env} job m w :
  file_inv (db w) -> import_of (db w) job m -> grown_inv (db w) (db (FinishBackupImportFiles job m w).2).
Proof. intros Hinv Him. by apply finish_import_ok. Qed.

(** ** Staged parts *)

Section Stage.
Context `{!Env}.

Lemma advance_safe job staged : inv_safe_op (advanceBackupPartCursor job staged).
Proof.
  intros w Hinv. unfold advanceBackupPartCursor. set (w1 := {| db := db w; ticks := S (ticks w); ids := ids w |}).
  rewrite (bind_ok now _ w (clk (ticks w)) w1 eq_refl). unfold move_stage.
  rewrite (bind_ok (query _) _ w1 _ w1 eq_refl).
  match goal with |- context [upd ?f ≫= ?k] => rewrite (bind_ok (upd f) k w1 tt (with_db w1 (f (db w1))) eq_refl) end.
  assert (forall b e w, (check (S := World) b e w).2 = w) as -> by (by intros []).
  apply (grown_inv_trans (db w) (db w)); [by apply kept_grown, kept_refl| |by apply grown_same].
  by apply job_files_inv.
Qed.

(** The rows of a staged part. *)
Definition staged_part (st : stagedBackupPart) (t : Z) : part_row :=
  {| p_file_id := st_targetID st; p_part_id := st_index st; p_key := st_fileKey st;
     p_md5 := st_md5 st; p_size := st_size st; p_ctime := t; p_mtime := t |}.
Definition staged_delete (backend : string) (st : stagedBackupPart) (t : Z) (state : delete_state) (next : Z) : delete_row :=
  {| d_file_id := st_targetID st; d_part_id := st_index st; d_backend := backend;
     d_ref := st_deleteRef st; d_uploaded_at := st_uploaded st; d_state := state; d_attempts := 0;
     d_next_at := next; d_lease := 0; d_last_attempt := 0; d_error := ""; d_deleted_at := 0;
     d_ctime := t; d_mtime := t |}.
Definition add_staged backend st t state next (d : DB) : DB :=
  set_delete (fun l => l ++ [staged_delete backend st t state next]) (set_part (fun l => l ++ [staged_part st t]) d).

Lemma insert_staged_ok backend st t state next w a w' :
  insert_staged backend st t state next w = (Ok a, w') ->
  w' = with_db w (add_staged backend st t state next (db w)) /\
  forall r, r ∈ t_delete (db w) -> (d_file_id r, d_part_id r) <> (st_targetID st, st_index st).
Proof.
  intros Hrun. unfold insert_staged in Hrun. step_ok Hrun. do 3 step_ok Hrun. 
  apply bind_ok_inv in Hrun as (? & w1 & R1 & Hrun). apply check_ok in R1 as [-> Hnew]. injection Hrun as _ <-. split; [done|].
  intros r Hr [= E1 E2]. rewrite sql_exists_false in Hnew. specialize (Hnew r Hr). by rewrite E1, E2, !Z.eqb_refl in Hnew.
Qed.

(** A part and its live delete state came, or, when it could not be recorded as such, with
    a state that is to be deleted: of a physical file that nobody references. *)
Definition part_added (d d' : DB) (key ref : string) : Prop := exists p q,
  t_part d' = t_part d ++ [p] /\ t_delete d' = t_delete d ++ [q] /\ t_file d' = t_file d /\
  p_key p = key /\ d_ref q = ref /\ d_file_id q = p_file_id p /\ d_part_id q = p_part_id p.

Lemma add_staged_added backend st t state next d :
  part_added d (add_staged backend st t state next d) (st_fileKey st) (st_deleteRef st).
Proof. by eexists (staged_part st t), (staged_delete backend st t state next). Qed.

Lemma persist_ok backend job st w a w' :
  file_inv (db w) -> persistBackupPart backend job st w = (Ok a, w') ->
  file_inv (db w') /\ part_added (db w) (db w') (st_fileKey st) (st_deleteRef st).
Proof.
  intros Hinv Hrun. unfold persistBackupPart in Hrun. step_ok Hrun. injection Hrun0 as <-. rewrite OnTransation_ok in Hrun.
  apply bind_ok_inv in Hrun as ([] & w1 & R1 & Hrun). apply insert_staged_ok in R1 as [-> Hnew].
  unfold move_stage in Hrun. do 2 step_ok Hrun. apply check_ok in Hrun as [-> _]. cbn [db with_db].
  assert (file_inv (add_staged backend st (clk (ticks w)) DsLive 0 (db w))) as Hd by (by apply add_part_inv).
  split; [|by eexists (staged_part st _), (staged_delete backend st _ DsLive 0)].
  exact (job_files_inv _ _ Hd).
Qed.

Lemma compensate_ok backend st w a w' :
  file_inv (db w) -> ~ referenced (db w) (st_targetID st) ->
  (exists r, r ∈ t_file (db w) /\ f_file_id r = st_targetID st /\ f_layout r = 1) ->
  persistBackupCompensationRecord backend st w = (Ok a, w') ->
  file_inv (db w') /\ part_added (db w) (db w') (st_fileKey st) (st_deleteRef st).
Proof.
  intros [[Hids Hrange Hsf Hss Hk Hq Hdp Hu Hmu] Hsafe] Hun Hrow Hrun.
  unfold persistBackupCompensationRecord in Hrun. step_ok Hrun. injection Hrun0 as <-. rewrite OnTransation_ok in Hrun.
  apply insert_staged_ok in Hrun as [-> Hnew]. cbn [db with_db] in *. split; [|apply add_staged_added]. split.
  - split; try done; simpl.
    + rewrite fmap_app. apply NoDup_app. split; [done|]. split; [|apply NoDup_singleton].
      intros k (r & -> & Hr)%list_elem_of_fmap Hin%list_elem_of_singleton. by apply (Hnew r).
    + intros r [Hr|Hr%list_elem_of_singleton]%elem_of_app Hn; [by apply Hq|]. by subst r.
    + intros r [Hr|Hr%list_elem_of_singleton]%elem_of_app.
      * destruct (Hdp r Hr) as (p' & Hp' & E). exists p'. split; [|done]. apply elem_of_app. by left.
      * subst r. exists (staged_part st (clk (ticks w))). split; [|done]. apply elem_of_app. right. by left.
  - intros f Hf r. simpl.
    assert (referenced (db w) f) as Hf' by (revert Hf; by apply referenced_same).
    intros [Hr|Hr%list_elem_of_singleton]%elem_of_app Efr; [by apply (Hsafe f)|]. subst r. cbn in Efr. by subst f.
Qed.

Lemma persist_err backend job st w e w' : persistBackupPart backend job st w = (Err e, w') -> db w' = db w.
Proof. by intros Hrun%OnTransation_err. Qed.
Lemma compensate_err backend st w e w' : persistBackupCompensationRecord backend st w = (Err e, w') -> db w' = db w.
Proof. by intros Hrun%OnTransation_err. Qed.
End Stage.
