(* ===== verification/MultipartSafety.v ===== *)
(** * Multipart uploads keep referenced blocks

    Starting, filling, completing, aborting and cleaning up multipart uploads keeps
    the invariant of RefInv.v: a part is registered, and a composite file built, only
    from files whose blocks are live. *)

From stdpp Require Import base strings list.
From S2P Require Import Prelude GoStr Store Directory DirFrame DirTheorems References RefInv.
From S2P Require Import Dao Mutation S3Object FileManager UploadProofs LinkSafety Multipart.
Import References Multipart.

(** ** Changes of the upload and part tables *)

Definition uploads_only (d d' : DB) : Prop :=
  t_file d' = t_file d /\ t_mapping d' = t_mapping d /\ t_delete d' = t_delete d /\
  t_segment d' = t_segment d /\ t_pin d' = t_pin d /\ t_part d' = t_part d /\
  t_job_file d' = t_job_file d.

(** Whatever a change of both tables makes referenced was referenced, or is live. *)
Lemma uploads_inv d0 d d' :
  uploads_only d d' -> kept_inv d0 d ->
  NoDup (u_upload_id <$> t_upload d') ->
  (forall p, p ∈ t_mpart d' -> exists u, u ∈ t_upload d' /\ u_upload_id u = mp_upload_id p) ->
  (forall p u, p ∈ t_mpart d' -> u ∈ t_upload d' -> u_upload_id u = mp_upload_id p ->
     mp_active p = true -> u_active u = true -> referenced d (mp_file_id p) \/ live d (mp_file_id p)) ->
  kept_inv d0 d'.
Proof.
  intros (E1 & E2 & E3 & E4 & E5 & E6 & E7) ([[] Hsafe] & Hp & Hq & Hf & Hs) Hids Hmp Hnew.
  split; [|split_and!; congruence].
  split; [split; rewrite ?E1, ?E3, ?E4, ?E6, ?E7; done|].
  intros f Hr. unfold live. rewrite E3.
  assert (referenced d f \/ live d f) as [Hd|Hl]; [|by apply Hsafe|done].
  destruct Hr as [p Hpin E|(r & Hr & E)|s Hsg E (r & Hr & Em)|p u Hpin E Ha Hu Ei Hact].
  - left. eapply ref_pin; [|exact E]. by rewrite <- E5.
  - left. apply ref_mapping. exists r. by rewrite <- E2.
  - left. eapply ref_composite; [by rewrite <- E4|exact E|]. exists r. by rewrite <- E2.
  - rewrite <- E. by apply (Hnew p u).
Qed.

Lemma ids_update (g : upload_row -> bool) h (l : list upload_row) :
  (forall u, u_upload_id (h u) = u_upload_id u) ->
  u_upload_id <$> sql_update g h l = u_upload_id <$> l.
Proof.
  intros Hh. unfold sql_update. change (map ?f ?l) with (f <$> l). rewrite <- list_fmap_compose.
  apply list_fmap_ext. intros i u _. cbn. by case_match.
Qed.

Section Keeps.
Context `{!Env} (d0 : DB).

(** No upload becomes active. *)
Lemma ok_keeps_upload_update g h :
  (forall u, u_upload_id (h u) = u_upload_id u) -> (forall u, g u = true -> u_active (h u) = false) ->
  ok_keeps (kept_inv d0) (upd (set_upload (sql_update g h))).
Proof.
  intros Hid Hact w a w' Hinv [= _ <-]. apply (uploads_inv d0 (db w)); [by repeat split|exact Hinv|..]; cbn.
  - rewrite ids_update by done. apply Hinv.
  - intros p Hp. destruct (wf_mpart_upload _ (inv_wf _ (proj1 Hinv)) p Hp) as (u & Hu & E).
    exists (if g u then h u else u). split; [by apply sql_update_elem; exists u|]. case_match; [by rewrite Hid|done].
  - intros p u' Hp Hu' E Hpa Hua. left. apply sql_update_elem in Hu' as (u & Hu & ->).
    destruct (g u) eqn:Eg; [by rewrite Hact in Hua|]. by eapply ref_upload.
Qed.

(** No part becomes active or changes its file. *)
Lemma ok_keeps_mpart_update g h :
  (forall p, mp_upload_id (h p) = mp_upload_id p) -> (forall p, g p = true -> mp_active (h p) = false) ->
  ok_keeps (kept_inv d0) (upd (set_mpart (sql_update g h))).
Proof.
  intros Hid Hact w a w' Hinv [= _ <-]. apply (uploads_inv d0 (db w)); [by repeat split|exact Hinv|apply Hinv|..]; cbn.
  - intros p' Hp'. apply sql_update_elem in Hp' as (p & Hp & ->).
    destruct (wf_mpart_upload _ (inv_wf _ (proj1 Hinv)) p Hp) as (u & Hu & E).
    exists u. split; [done|]. case_match; [by rewrite Hid|done].
  - intros p' u Hp' Hu E Hpa Hua. left. apply sql_update_elem in Hp' as (p & Hp & ->).
    destruct (g p) eqn:Eg; [by rewrite Hact in Hpa|]. by eapply ref_upload.
Qed.

Lemma ok_keeps_completed f : ok_keeps (kept_inv d0) (upd (set_completed f)).
Proof. intros w a w' HP [= _ <-]. by eapply kept_inv_stable; [|exact HP]. Qed.

Lemma ok_keeps_discard id t : ok_keeps (kept_inv d0) (discard_active id t).
Proof. by apply ok_keeps_mpart_update. Qed.
Lemma ok_keeps_mark_files l t : ok_keeps (kept_inv d0) (mark_files l t).
Proof. unfold mark_files. apply ok_keeps_for_each. intros f. apply ok_keeps_mark. Qed.
Lemma ok_keeps_listFiles id : ok_keeps (kept_inv d0) (listMultipartPartFileIDs id).
Proof. apply ok_keeps_query. Qed.
Lemma ok_keeps_readUpload id : ok_keeps (kept_inv d0) (readMultipartUpload id).
Proof. apply ok_keeps_query. Qed.
Hint Resolve ok_keeps_discard ok_keeps_mark_files ok_keeps_listFiles ok_keeps_readUpload : safe.

Lemma ok_keeps_abort u t : ok_keeps (kept_inv d0) (abortMultipartUploadTx u t).
Proof.
  unfold abortMultipartUploadTx. keeps. by apply ok_keeps_upload_update.
Qed.
Hint Resolve ok_keeps_abort : safe.

Lemma ok_keeps_ensureActive id b k t : ok_keeps (kept_inv d0) (ensureActiveMultipartUpload id b k t).
Proof. unfold ensureActiveMultipartUpload. keeps. Qed.
End Keeps.

#[export] Hint Resolve ok_keeps_discard ok_keeps_mark_files ok_keeps_listFiles ok_keeps_readUpload
  ok_keeps_abort ok_keeps_ensureActive ok_keeps_completed ok_keeps_publish : safe.

(** ** Reads *)

Section Reads.
Context `{!Env} `{!Sha} `{!FileCodec} `{!S3Object.MimeTypes}.

(** A file all of whose parts have live delete states has only live ones. *)
Lemma staging_live f w w' :
  wf_files (db w) -> ensureMultipartStagingFileLive f w = (Ok tt, w') -> w' = w /\ live (db w) (fileID f).
Proof.
  intros Hwf Hrun. unfold ensureMultipartStagingFileLive in Hrun. step_ok Hrun. cbv zeta in Hrun.
  apply check_ok in Hrun as [-> Hc]. split; [done|].
  apply orb_false_iff in Hc as [_ Hc%negb_false_iff%Z.eqb_eq]. intros q Hq Hf.
  destruct (wf_delete_part _ Hwf q Hq) as (p & Hp & Epf & Epp).
  destruct (decide (d_state q = DsLive)) as [|Hn]; [done|]. exfalso.
  assert (Some q ∈ List.filter (fun o => match o with
    | Some s => negb (bool_decide (d_state s = DsLive)) | None => false end) (part_states (db w) (fileID f))) as Hin.
  { apply list_elem_of_In, List.filter_In. split; [|by rewrite bool_decide_eq_false_2].
    apply in_flat_map. exists p. rewrite <- !list_elem_of_In. split.
    - apply sql_select_elem. split; [done|]. apply Z.eqb_eq. congruence.
    - assert (q ∈ sql_select (fun s => (d_file_id s =? p_file_id p) && (d_part_id s =? p_part_id p))
        (t_delete (db w))) as Hsel.
      { apply sql_select_elem. split; [done|]. rewrite Epf, Epp. by rewrite !Z.eqb_refl. }
      unfold left_join. destruct (sql_select _ _) as [|x l]; [by apply elem_of_nil in Hsel|].
      by apply list_elem_of_fmap_2. }
  unfold zlen in Hc. apply list_elem_of_In in Hin. destruct (List.filter _ _); [done|]. simpl in Hc. lia.
Qed.

Lemma readUpload_ok id w u w' :
  readMultipartUpload id w = (Ok (Some u), w') ->
  w' = w /\ u ∈ t_upload (db w) /\ u_upload_id u = id.
Proof.
  intros Hrun. apply query_ok in Hrun as [-> Hu]. split; [done|].
  symmetry in Hu. apply head_Some_elem_of, sql_select_elem in Hu as [Hin Hid].
  by apply bool_decide_eq_true in Hid.
Qed.

Lemma matching_some o b k u : matchingMultipartUpload o b k = Some u -> o = Some u.
Proof. unfold matchingMultipartUpload. destruct o; [|done]. by case_match. Qed.

(** An upload that is active and has not expired; the state is as before. *)
Lemma ensureActive_ok id b k t w u w' :
  ensureActiveMultipartUpload id b k t w = (Ok (u, false), w') ->
  w' = w /\ u ∈ t_upload (db w) /\ u_upload_id u = id /\ u_active u = true /\ t < u_expires_at u.
Proof.
  unfold ensureActiveMultipartUpload. intros Hrun. step_ok Hrun.
  destruct (matchingMultipartUpload _ b k) as [u0|] eqn:Em; [|done]. apply matching_some in Em.
  destruct (u_active u0) eqn:Ea; [|done]. cbn [negb] in Hrun.
  destruct (Z.ltb_spec t (u_expires_at u0)).
  - injection Hrun as -> ->.
    apply head_Some_elem_of, sql_select_elem in Em as [Hin Hid%bool_decide_eq_true]. done.
  - step_ok Hrun. by injection Hrun.
Qed.

Lemma stagingFile_ok f sz w r w' :
  wf_files (db w) -> validateMultipartStagingFile f sz w = (Ok r, w') -> w' = w /\ live (db w) f.
Proof.
  intros Hwf Hrun. unfold validateMultipartStagingFile in Hrun. step_ok Hrun.
  destruct (head (file_rows (db w) f)) as [row|] eqn:Er; [|done].
  apply file_rows_head in Er as [_ Ef]; [|done].
  cbn [fmap option_fmap option_map] in Hrun. step_ok Hrun. apply bind_ok_inv in Hrun as ([] & w1 & R1 & Hrun).
  apply staging_live in R1 as [-> Hl]; [|done]. cbn in Hl. rewrite Ef in Hl.
  step_ok Hrun. step_ok Hrun. by injection Hrun as _ <-.
Qed.
End Reads.

(** ** Registering parts *)

Section Put.
Context `{!Env} `{!Sha} `{!FileCodec} `{!S3Object.MimeTypes} (d0 : DB).

(** The part of an upload that exists, holding a live file. *)
Definition can_put (r : PutMultipartPartRequest) (d : DB) : Prop :=
  kept_inv d0 d /\ live d (ppFileID r) /\ exists u, u ∈ t_upload d /\ u_upload_id u = ppUploadID r.

Lemma insertPart_ok r t w a w' :
  can_put r (db w) -> insertMultipartPart r t w = (Ok a, w') -> kept_inv d0 (db w').
Proof.
  intros (Hinv & Hl & u & Hu & Eu) Hrun. unfold insertMultipartPart in Hrun.
  step_ok Hrun. step_ok Hrun. step_ok Hrun. injection Hrun as _ <-.
  apply (uploads_inv d0 (db w)); [by repeat split|done|apply Hinv|..]; cbn.
  - intros p [Hp|Hp]%elem_of_app; [by apply (inv_wf _ (proj1 Hinv))|].
    apply list_elem_of_singleton in Hp as ->. by exists u.
  - intros p u' [Hp|Hp]%elem_of_app Hu' E Hpa Hua; [left; by eapply ref_upload|].
    apply list_elem_of_singleton in Hp as ->. by right.
Qed.

Lemma upsert_ok r prev t w a w' :
  can_put r (db w) -> upsertMultipartPart r prev t w = (Ok a, w') -> kept_inv d0 (db w').
Proof.
  intros Hcan Hrun. unfold upsertMultipartPart in Hrun.
  destruct (prev =? 0); [by eapply insertPart_ok|]. destruct Hcan as (Hinv & Hl & u & Hu & Eu).
  step_ok Hrun. step_ok Hrun. step_ok Hrun. apply bind_ok_inv in Hrun as ([] & w1 & R1 & Hrun).
  apply check_ok in Hrun as [-> _]. injection R1 as <-.
  apply (uploads_inv d0 (db w)); [by repeat split|done|apply Hinv|..]; cbn.
  - intros p' Hp'. apply sql_update_elem in Hp' as (p & Hp & ->).
    destruct (wf_mpart_upload _ (inv_wf _ (proj1 Hinv)) p Hp) as (u' & Hu' & E).
    exists u'. split; [done|]. by case_match.
  - intros p' u' Hp' Hu' E Hpa Hua. apply sql_update_elem in Hp' as (p & Hp & ->).
    case_match; [by right|]. left. by eapply ref_upload.
Qed.

Lemma ok_keeps_put bs r t : ok_keeps (kept_inv d0) (putMultipartPartTx bs r t).
Proof.
  intros w a w' Hinv Hrun. unfold putMultipartPartTx in Hrun.
  apply bind_ok_inv in Hrun as ([u expired] & w1 & R1 & Hrun). destruct expired.
  { injection Hrun as _ <-. by eapply ok_keeps_ensureActive. }
  apply ensureActive_ok in R1 as (-> & Hu & Eu & _). step_ok Hrun.
  apply bind_ok_inv in Hrun as (file & w1 & R1 & Hrun).
  apply stagingFile_ok in R1 as [-> Hl]; [|apply Hinv]. step_ok Hrun.
  apply bind_ok_inv in Hrun as ([] & w1 & R1 & Hrun).
  assert (w1 = w) as ->.
  { unfold validateMultipartStagingTotals in R1. step_ok R1. step_ok R1. by apply check_ok in R1 as [-> _]. }
  apply bind_ok_inv in Hrun as ([] & w1 & R2 & Hrun).
  eapply upsert_ok in R2; [|split; [done|split; [done|by exists u]]].
  revert Hrun. match goal with |- ?m w1 = _ -> _ => assert (ok_keeps (kept_inv d0) m) as Hk end; [keeps|].
  by apply Hk.
Qed.
End Put.

(** ** Completing *)

Section Complete.
Context `{!Env} `{!Sha} `{!FileCodec} `{!S3Object.MimeTypes} (d0 : DB).

(** Files that may become the sources of a composite file. *)
Definition source_ok (d : DB) (f : Z) : Prop :=
  live d f /\ exists r, r ∈ t_file d /\ f_file_id r = f /\ f_layout r = 1.
Definition can_join (files : list Z) (d : DB) : Prop :=
  kept_inv d0 d /\ forall f, f ∈ files -> source_ok d f.

Lemma validateCompletionPart_ok spec rq rc b w a w' :
  wf_files (db w) -> validateCompletionPart spec rq rc b w = (Ok a, w') ->
  w' = w /\ live (db w) (FileID (part rc)) /\ fileLayout rc = 1.
Proof.
  intros Hwf Hrun. unfold validateCompletionPart in Hrun. cbv zeta in Hrun.
  do 5 step_ok Hrun. apply bind_ok_inv in Hrun as ([] & w1 & R1 & Hrun).
  apply staging_live in R1 as [-> Hl]; [|done]. step_ok Hrun. apply check_ok in Hrun as [-> _].
  split; [done|]. split; [done|]. apply orb_false_iff in Hrun3 as [_ Hlay].
  by apply negb_false_iff, Z.eqb_eq in Hlay.
Qed.

Lemma readCompletionPart_ok id n w rc w' :
  readCompletionPart id n w = (Ok rc, w') ->
  w' = w /\ exists r, r ∈ t_file (db w) /\ f_file_id r = FileID (part rc) /\ f_layout r = fileLayout rc.
Proof.
  unfold readCompletionPart. intros Hrun. step_ok Hrun.
  destruct (head _) as [[p f]|] eqn:Eh; [|done]. injection Hrun as <- <-. split; [done|].
  apply head_Some_elem_of in Eh. unfold parts_join in Eh.
  apply list_elem_of_In, in_flat_map in Eh as (p' & _ & Hf). apply in_map_iff in Hf as (f' & [= -> ->] & Hf').
  apply list_elem_of_In, sql_select_elem in Hf' as [Hin Hid%Z.eqb_eq]. by exists f.
Qed.

Lemma completion_ok spec id rqs sel sz pc w res w' :
  kept_inv d0 (db w) -> (forall f, f ∈ map FileID sel -> source_ok (db w) f) ->
  completion_loop spec id rqs sel sz pc w = (Ok res, w') ->
  w' = w /\ can_join (map FileID res.1.1) (db w).
Proof.
  intros Hinv. revert sel sz pc. induction rqs as [|rq rqs IH]; intros sel sz pc Hsel Hrun; cbn in Hrun.
  { injection Hrun as <- <-. by split. }
  apply bind_ok_inv in Hrun as (rc & w1 & R1 & Hrun). apply readCompletionPart_ok in R1 as (-> & r & Hr & Ef & El).
  apply bind_ok_inv in Hrun as ([] & w1 & R2 & Hrun).
  apply validateCompletionPart_ok in R2 as (-> & Hl & Hlay); [|apply Hinv]. step_ok Hrun.
  apply IH in Hrun; [done|]. intros f. rewrite map_app, elem_of_app. intros [Hf|Hf]; [by apply Hsel|].
  apply list_elem_of_singleton in Hf as ->. split; [done|]. exists r. split_and!; congruence.
Qed.

Lemma load_ok r u w res w' :
  kept_inv d0 (db w) -> loadCompletionParts r u w = (Ok res, w') ->
  w' = w /\ can_join (map FileID res.1.1) (db w).
Proof.
  intros Hinv Hrun. unfold loadCompletionParts in Hrun. step_ok Hrun.
  apply completion_ok in Hrun; [done|done|]. by intros f ?%elem_of_nil.
Qed.

(** A composite file whose row is there. *)
Definition can_compose (final : Z) (files : list Z) (d : DB) : Prop :=
  grown_inv d0 d /\ (forall f, f ∈ files -> source_ok d f) /\ exists r, r ∈ t_file d /\ f_file_id r = final /\ f_layout r = 2.

Lemma insert_segment_inv s final files w a w' :
  sg_file_id s = final -> sg_source s ∈ files -> can_compose final files (db w) ->
  insert_segment s w = (Ok a, w') -> can_compose final files (db w').
Proof.
  intros Efin Hsrc ([[[Hids Hrange Hsf Hss Hk Hq Hdp Hu Hmu] Hsafe] Hsame] & Hfiles & Hfin) Hrun.
  unfold insert_segment in Hrun. step_ok Hrun. step_ok Hrun. step_ok Hrun. injection Hrun as _ <-.
  split; [|done]. split; [|done]. split.
  - split; try done; cbn; intros s' [Hs| ->%list_elem_of_singleton]%elem_of_app; [by apply Hsf| |by apply Hss|].
    + by rewrite Efin.
    + by apply Hfiles.
  - intros f [p Hp E|(r & Hr & E)|s' Hs E (r & Hr & Em)|p u Hp E Ha Hup Ei Hact].
    + apply (Hsafe f). by eapply ref_pin.
    + apply (Hsafe f). apply ref_mapping. by exists r.
    + cbn in Hs. apply elem_of_app in Hs as [Hs| ->%list_elem_of_singleton].
      * apply (Hsafe f). eapply ref_composite; [done|done|by exists r].
      * rewrite <- E. by apply Hfiles.
    + apply (Hsafe f). by eapply ref_upload.
Qed.

Lemma insert_segments_inv final files (l : list (Z * MultipartPart)) t w a w' :
  (forall ip, ip ∈ l -> FileID ip.2 ∈ files) -> can_compose final files (db w) ->
  for_each (fun ip => insert_segment {| sg_file_id := final; sg_index := ip.1; sg_source := FileID ip.2;
    sg_size := Size ip.2; sg_ctime := t; sg_mtime := t |}) l w = (Ok a, w') ->
  can_compose final files (db w').
Proof.
  revert w. induction l as [|ip l IH]; intros w Hl Hc Hrun; [by injection Hrun as _ <-|].
  cbn in Hrun. apply bind_ok_inv in Hrun as ([] & w1 & R1 & Hrun).
  apply (IH w1); [intros; apply Hl; by right| |done].
  eapply insert_segment_inv; [| |exact Hc|exact R1]; [done|]. apply Hl. left.
Qed.

Lemma insert_file_inv mk f files w a w' :
  (forall n, f_file_id (mk n) = f) -> (forall n, f_layout (mk n) = 2) -> 0 < f -> can_join files (db w) ->
  FileDao.insert_file mk w = (Ok a, w') -> can_compose f files (db w').
Proof.
  intros Hmk Hlay Hpos [[Hinv Hsame] Hfiles] Hrun. unfold FileDao.insert_file in Hrun.
  step_ok Hrun. cbv zeta in Hrun. step_ok Hrun. step_ok Hrun. injection Hrun as _ <-.
  rewrite Hmk in *. apply Z.leb_gt in Hrun0. split; [split|split].
  - apply (add_row_inv _ mk f); [done..|lia|]. intros r Hr E.
    rewrite sql_exists_false in Hrun1. specialize (Hrun1 r Hr). by apply Z.eqb_neq in Hrun1.
  - destruct (same_grown _ _ Hsame) as (Ep & Hq & Hpre). split; [done|]. split; [done|]. etrans; [exact Hpre|].
    unfold shapes. cbn. rewrite fmap_app. by eexists.
  - intros g Hg. destruct (Hfiles g Hg) as (Hl & r & Hr & E). split; [done|]. exists r. split; [|done].
    apply elem_of_app. by left.
  - eexists. split; [apply elem_of_app; right; by left|]. by rewrite Hmk, Hlay.
Qed.

Lemma indexed_elem {A} (l : list A) ip : ip ∈ indexed l -> ip.2 ∈ l.
Proof.
  unfold indexed. intros Hip. apply elem_of_lookup_imap in Hip as (i & a & -> & Ha).
  by eapply list_elem_of_lookup_2.
Qed.

Lemma insertComposite_inv final sel sz pc t w a w' :
  0 < final -> can_join (map FileID sel) (db w) ->
  insertCompositeFile final sel sz pc t w = (Ok a, w') -> grown_inv d0 (db w').
Proof.
  intros Hpos Hj Hrun. unfold insertCompositeFile in Hrun.
  apply bind_ok_inv in Hrun as ([] & w1 & R1 & Hrun).
  assert (can_compose final (map FileID sel) (db w1)) as Hc by (by eapply insert_file_inv; [..|exact R1]).
  assert (forall ip, ip ∈ indexed sel -> FileID ip.2 ∈ map FileID sel) as Hin.
  { intros ip Hip. by apply list_elem_of_fmap_2, indexed_elem. }
  by destruct (insert_segments_inv _ _ _ _ _ _ _ Hin Hc Hrun) as [? _].
Qed.

Lemma ok_keeps_manifest f u l t : ok_keeps (kept_inv d0) (insertCompletedPartManifest f u l t).
Proof. unfold insertCompletedPartManifest, insert_completed. keeps. Qed.
Lemma ok_keeps_finalizeParts id sel t : ok_keeps (kept_inv d0) (finalizeMultipartParts id sel t).
Proof.
  unfold finalizeMultipartParts, selectCompletedMultipartParts. keeps. by apply ok_keeps_mpart_update.
Qed.
Lemma ok_keeps_finishControl id fp f e c t : ok_keeps (kept_inv d0) (finishMultipartControl id fp f e c t).
Proof. unfold finishMultipartControl. cbv zeta. keeps. by apply ok_keeps_upload_update. Qed.
Lemma ok_keeps_claimCompletion id t : ok_keeps (kept_inv d0) (claimMultipartCompletion id t).
Proof. unfold claimMultipartCompletion. cbv zeta. keeps. by apply ok_keeps_upload_update. Qed.
Lemma ok_keeps_readResult u r fp : ok_keeps (kept_inv d0) (readCompletedMultipartResult u r fp).
Proof. unfold readCompletedMultipartResult, readStoredFile, validateCompletedPartChecksums. keeps. Qed.
Hint Resolve ok_keeps_manifest ok_keeps_finalizeParts ok_keeps_finishControl ok_keeps_claimCompletion
  ok_keeps_readResult : safe.

Lemma ok_keeps_persist r u sel f sz e c fp t :
  ok_keeps (kept_inv d0) (persistCompletedMultipart r u sel f sz e c fp t).
Proof. unfold persistCompletedMultipart. keeps. Qed.
End Complete.

#[export] Hint Resolve ok_keeps_manifest ok_keeps_finalizeParts ok_keeps_finishControl
  ok_keeps_claimCompletion ok_keeps_readResult ok_keeps_persist : safe.

Section CompleteTx.
Context `{!Env} `{!Sha} `{!FileCodec} `{!S3Object.MimeTypes}.

Lemma kept_then d0 d1 d2 : grown_inv d0 d1 -> kept_inv d1 d2 -> grown_inv d0 d2.
Proof. intros [_ Hg] [Hi Hs]. split; [done|]. eapply grown_trans; [exact Hg|by apply same_grown]. Qed.

Lemma completeActive_grown d0 bs r u fp t w a w' : (forall n, 0 < idfn n) ->
  kept_inv d0 (db w) -> completeActiveMultipart bs r u fp t w = (Ok a, w') -> grown_inv d0 (db w').
Proof.
  intros Hids Hinv Hrun. unfold completeActiveMultipart in Hrun.
  apply bind_ok_inv in Hrun as ([[sel sz] pc] & w1 & R1 & Hrun). eapply load_ok in R1 as [-> Hj]; [|done].
  step_ok Hrun. step_ok Hrun. step_ok Hrun. apply bind_ok_inv in Hrun as (final & w1 & R1 & Hrun).
  injection R1 as <- <-. apply bind_ok_inv in Hrun as ([] & w2 & R2 & Hrun).
  eapply insertComposite_inv in R2; [|apply Hids|exact Hj].
  eapply kept_then; [exact R2|]. revert Hrun.
  match goal with |- ?m w2 = _ -> _ => assert (ok_keeps (kept_inv (db w2)) m) as Hk end; [keeps|].
  apply Hk, kept_refl, R2.
Qed.

Lemma completeTx_grown bs r fp w a w' : (forall n, 0 < idfn n) ->
  file_inv (db w) -> completeMultipartUploadTx bs r fp w = (Ok a, w') -> grown_inv (db w) (db w').
Proof.
  intros Hids Hinv Hrun. apply kept_refl in Hinv. unfold completeMultipartUploadTx in Hrun.
  step_ok Hrun. destruct (matchingMultipartUpload _ _ _) as [u|]; [|done].
  assert (forall (m : M World (option CompleteMultipartResult)) w1, ok_keeps (kept_inv (db w)) m ->
    db w1 = db w -> m w1 = (Ok a, w') -> grown_inv (db w) (db w')) as Hstrong.
  { intros m w1 Hm E Hr. apply kept_grown. eapply Hm; [|exact Hr]. by rewrite E. }
  case_bool_decide; [revert Hrun; apply Hstrong; [keeps|done]|].
  destruct (negb _); [done|]. apply bind_ok_inv in Hrun as (t & w1 & R1 & Hrun). injection R1 as _ <-.
  destruct (_ <=? _); [revert Hrun; apply Hstrong; [keeps|done]|].
  step_ok Hrun. apply bind_ok_inv in Hrun as ([] & w1 & R1 & Hrun).
  eapply ok_keeps_claimCompletion in R1; [|exact Hinv].
  apply bind_ok_inv in Hrun as (res & w2 & R2 & Hrun). injection Hrun as _ <-.
  by eapply completeActive_grown.
Qed.

Lemma tx_grown {A} (m : M World A) :
  (forall w a w', file_inv (db w) -> m w = (Ok a, w') -> grown_inv (db w) (db w')) ->
  inv_safe_op (OnTransation m).
Proof.
  intros Hm w Hw. unfold OnTransation. destruct (m w) as [[a|e] w'] eqn:E; cbn; [by eapply Hm|].
  by apply kept_grown, kept_refl.
Qed.
End CompleteTx.

(** ** The operations *)

Section Safe.
Context `{!Env} `{!Sha} `{!FileCodec} `{!S3Object.MimeTypes}.

Lemma safe_same {A} (m : M World A) : (forall w, db (m w).2 = db w) -> inv_safe_op m.
Proof. intros Hm w Hw. rewrite Hm. by apply kept_grown, kept_refl. Qed.
Lemma safe_bind {A B} (m : M World A) (k : A -> M World B) :
  inv_safe_op m -> (forall a, inv_safe_op (k a)) -> inv_safe_op (m ≫= k).
Proof.
  intros Hm Hk w Hw. destruct (Hm w Hw) as [Hw1 Hs]. unfold mbind, M_bind.
  destruct (m w) as [[a|e] w1]; [|done]. destruct (Hk a w1 Hw1) as [Hw2 Hs2].
  split; [done|]. by eapply grown_trans.
Qed.
Lemma safe_check b e : inv_safe_op (check b e).
Proof. apply safe_same. by destruct b. Qed.
Lemma safe_lift {A} (o : outcome A) : inv_safe_op (lift o).
Proof. by apply safe_same. Qed.
Lemma safe_now : inv_safe_op now.
Proof. by apply safe_same. Qed.
Lemma safe_ret {A} (a : A) : inv_safe_op (mret a).
Proof. by apply safe_same. Qed.
Lemma safe_fail {A} e : inv_safe_op (fail e : M World A).
Proof. by apply safe_same. Qed.
Lemma safe_attempt {A} (m : M World A) : inv_safe_op m -> inv_safe_op (attempt m).
Proof. intros Hm w Hw. exact (Hm w Hw). Qed.
Hint Resolve safe_check safe_lift safe_now safe_ret safe_fail : safe.

Ltac safe_step :=
  lazymatch goal with
  | |- inv_safe_op ?m =>
      lazymatch m with
      | mbind _ _ => apply safe_bind; [|intros ?]
      | attempt _ => apply safe_attempt
      | OnTransation _ => apply tx_safe; intros ?
      | let _ := _ in _ => cbv zeta
      | match ?x with _ => _ end => destruct x
      | _ => solve [eauto with safe]
      end
  end.

(** A new upload has no parts yet. *)
Lemma insert_upload_safe r : inv_safe_op (insert_upload r).
Proof.
  intros w Hw. unfold insert_upload. rewrite (bind_ok (query id) _ w (db w) w eq_refl).
  destruct (_ || _); [apply (safe_fail ErrCheckConstraint w Hw)|].
  rewrite (bind_ok (check false _) _ w tt w eq_refl).
  destruct (sql_exists _ _) eqn:Ex; [apply (safe_fail ErrUniqueConstraint w Hw)|].
  rewrite (bind_ok (check false _) _ w tt w eq_refl). cbn.
  assert (forall u, u ∈ t_upload (db w) -> u_upload_id u <> u_upload_id r) as Hnew.
  { intros u Hu E. rewrite sql_exists_false in Ex. specialize (Ex u Hu).
    by apply bool_decide_eq_false in Ex. }
  apply kept_grown, (uploads_inv _ (db w)); [by repeat split|by apply kept_refl|..]; cbn.
  - rewrite fmap_app. apply NoDup_app. split; [apply Hw|]. split; [|apply NoDup_singleton].
    intros k (u & -> & Hu)%list_elem_of_fmap Hin%list_elem_of_singleton. by apply (Hnew u).
  - intros p Hp. destruct (wf_mpart_upload _ (inv_wf _ Hw) p Hp) as (u & Hu & E).
    exists u. split; [|done]. apply elem_of_app. by left.
  - intros p u Hp [Hu|Hu%list_elem_of_singleton]%elem_of_app E Hpa Hua; [left; by eapply ref_upload|].
    subst u. destruct (wf_mpart_upload _ (inv_wf _ Hw) p Hp) as (u & Hu & E').
    destruct (Hnew u Hu). congruence.
Qed.

Lemma create_attempts_safe rs rq m a t now ex : inv_safe_op (create_attempts rs rq m a t now ex).
Proof.
  induction rs as [|r rs IH]; cbn [create_attempts]; repeat safe_step.
  apply insert_upload_safe.
Qed.

Lemma CreateMultipartUpload_safe rs rq : inv_safe_op (CreateMultipartUpload rs rq).
Proof. unfold CreateMultipartUpload. repeat safe_step. apply create_attempts_safe. Qed.

Lemma AbortMultipartUpload_safe id b k : inv_safe_op (AbortMultipartUpload id b k).
Proof. unfold AbortMultipartUpload. repeat safe_step. keeps. Qed.

Lemma PrepareMultipartPart_safe id b k : inv_safe_op (PrepareMultipartPart id b k).
Proof. unfold PrepareMultipartPart. repeat safe_step. keeps. Qed.

Lemma PutMultipartPart_safe bs r : inv_safe_op (PutMultipartPart bs r).
Proof. unfold PutMultipartPart. repeat safe_step. apply ok_keeps_put. Qed.

Lemma ListMultipartParts_safe id b k m n : inv_safe_op (ListMultipartParts id b k m n).
Proof. unfold ListMultipartParts, readMultipartPartPage. repeat safe_step. keeps. Qed.

Lemma CompleteMultipartUpload_safe bs r : (forall n, 0 < idfn n) -> inv_safe_op (CompleteMultipartUpload bs r).
Proof.
  intros Hids. unfold CompleteMultipartUpload.
  apply safe_bind; [auto with safe|intros _]. cbv zeta. apply safe_bind; [|intros ?; repeat safe_step].
  apply tx_grown. intros w a w'. by apply completeTx_grown.
Qed.

Lemma processExpired_safe t n : inv_safe_op (processExpiredMultipartUploads t n).
Proof. unfold processExpiredMultipartUploads. repeat safe_step. keeps. Qed.

(** With an upload that has ended, its parts go too. *)
Lemma ok_keeps_purge d0 id : ok_keeps (kept_inv d0)
  (_ ← upd (set_mpart (sql_delete (part_of_upload id)));
   upd (set_upload (sql_delete (fun u => bool_decide (u_upload_id u = id) && terminal u)))).
Proof.
  intros w a w' Hinv [= _ <-]. apply (uploads_inv d0 (db w)); [by repeat split|done|..]; cbn.
  - eapply sublist_NoDup; [apply (wf_upload_ids _ (inv_wf _ (proj1 Hinv)))|].
    apply fmap_sublist, filter_sublist.
  - intros p [Hp Hne]%sql_delete_elem.
    destruct (wf_mpart_upload _ (inv_wf _ (proj1 Hinv)) p Hp) as (u & Hu & E).
    exists u. split; [|done]. apply sql_delete_elem. split; [done|]. apply andb_false_iff. left.
    apply bool_decide_eq_false in Hne. apply bool_decide_eq_false_2. congruence.
  - intros p u [Hp _]%sql_delete_elem [Hu _]%sql_delete_elem E Hpa Hua. left. by eapply ref_upload.
Qed.

Lemma purge_safe t n : inv_safe_op (purgeMultipartControlRows t n).
Proof.
  unfold purgeMultipartControlRows. apply tx_safe. intros d0. apply ok_keeps_bind; [keeps|intros l].
  apply ok_keeps_for_each. intros id. apply ok_keeps_purge.
Qed.

Lemma runMultipartCleanupPass_safe : inv_safe_op runMultipartCleanupPass.
Proof. unfold runMultipartCleanupPass. repeat safe_step; [apply processExpired_safe|apply purge_safe]. Qed.
End Safe.
