(* ===== verification/MultipartTheorems.v ===== *)
(** * Multipart uploads: theorems

    What passes the link check opens; completing an upload builds the object of the
    chosen parts; completing it again gives the same answer. *)

From stdpp Require Import base strings list sorting.
From S2P Require Import Prelude Paging GoStr Base64 FileStream CompositeStream Store Directory.
From S2P Require Import References RefInv Dao Mutation S3Object FileManager UploadProofs.
From S2P Require Import LinkSafety DirFrame Tree DirWalk DirOps DirTx ObjectTheorems DirTheorems.
From S2P Require Import Multipart MultipartSafety.
Import References Multipart.

(** ** Files that may be linked open *)

Section Opens.
Context `{!Env} `{!S3Object.MimeTypes} `{!FileCodec} `{!Sha}.

Definition manifest_row_of (s : storedCompositeSegment) : Composite.manifest_row :=
  {| Composite.r_index := index s; Composite.r_sourceFileID := sourceFileID s;
     Composite.r_segmentSize := segSize s; Composite.r_source := source s |}.

(** The link check and the stream judge a segment alike. *)
Lemma segment_valid s idx total final :
  validStoredCompositeSegment s idx total final = true ->
  Composite.row_ok idx (manifest_row_of s) /\ total + segSize s <= final.
Proof.
  unfold validStoredCompositeSegment. intros [Hi%Z.eqb_eq Hs]%andb_true_iff.
  destruct (source s) as [[[sz st] l]|] eqn:Es; [|done].
  rewrite !andb_true_iff, !Z.eqb_eq, !Z.leb_le in Hs. destruct Hs as [[[[-> ->] ->] Hpos] Hle].
  split; [|lia]. split_and!; [done| |done]. exact Es.
Qed.

Definition seg_total (rows : list storedCompositeSegment) : Z := Composite.rows_size (manifest_row_of <$> rows).

Lemma composite_walk record rows idx total res w w' :
  fold_each (fun (acc : Z * Z) segment =>
    let '(idx, total) := acc in
    _ ← check (negb (validStoredCompositeSegment segment idx total (size record))) ErrS3ObjectConflict;
    _ ← ensurePhysicalFileLive (sourceFileID segment);
    _ ← ensurePhysicalFileDeletionRefsComplete (sourceFileID segment);
    mret (idx + 1, total + segSize segment)) (idx, total) rows w = (Ok res, w') ->
  Composite.rows_ok idx (manifest_row_of <$> rows) /\
  (rows = [] \/ total + seg_total rows <= size record) /\
  res = (idx + zlen rows, total + seg_total rows).
Proof.
  revert idx total w. induction rows as [|s rows IH]; intros idx total w Hrun.
  { injection Hrun as <- <-. split; [done|]. split; [by left|].
    unfold seg_total, zlen. cbn. f_equal; lia. }
  cbn in Hrun. apply bind_ok_inv in Hrun as ([i2 t2] & w2 & R1 & Hrun).
  step_ok R1. apply negb_false_iff, segment_valid in R0 as [Hrow Hle].
  apply bind_ok_inv in R1 as ([] & w3 & _ & R1). apply bind_ok_inv in R1 as ([] & w4 & _ & R1).
  injection R1 as <- <- <-. apply IH in Hrun as (Hok & Hsz & ->).
  split; [by split|]. assert (seg_total (s :: rows) = segSize s + seg_total rows) as -> by done.
  split.
  - right. destruct Hsz as [->|Hsz]; [change (seg_total []) with 0|]; lia.
  - unfold zlen. cbn [length]. f_equal; lia.
Qed.

Lemma manifest_of_eq d f : FileManager.manifest_of d f = manifest_row_of <$> manifest_rows d f.
Proof. done. Qed.

Lemma internalGetFileInfo_eq f w :
  FileManager.internalGetFileInfo f w = (Ok (head (file_rows (db w) f)), w).
Proof.
  unfold FileManager.internalGetFileInfo, FileDao.GetFileInfo.
  rewrite (bind_ok (query _) _ w _ w eq_refl).
  unfold mret, M_ret. do 3 f_equal. apply List.filter_ext. intros r.
  apply eq_bool_prop_intro. rewrite bool_decide_spec, Is_true_true, Z.eqb_eq, list_elem_of_singleton. done.
Qed.

(** What a linked file opens as. *)
Definition opens_as (d : DB) (f : Z) (st : FileManager.stream) : Prop :=
  exists r, head (file_rows d f) = Some r /\ f_state r = FileStateReady /\
  match st with
  | FileManager.Physical fs => f_layout r = 1 /\ fs = FileStream.newFileStream (f_size r)
  | FileManager.CompositeFile fs => f_layout r = 2 /\ Composite.csize fs = f_size r /\
      Composite.offset fs = 0 /\ Composite.segments fs <> [] /\
      Composite.segments fs = Composite.segments_of 0 (FileManager.manifest_of d f) /\
      sumZ (Composite.size <$> Composite.segments fs) = f_size r
  end.

Lemma compositeIOStream_opens rows sz :
  rows <> [] -> Composite.rows_ok 0 rows -> Composite.rows_size rows = sz ->
  exists fs, Composite.compositeIOStream rows sz = Ok fs /\ Composite.csize fs = sz /\
    Composite.offset fs = 0 /\ Composite.segments fs = Composite.segments_of 0 rows.
Proof.
  intros Hne Hok Hsz. unfold Composite.compositeIOStream, Composite.loadCompositeManifest.
  assert (Composite.manifest_loop rows sz [] 0 = Ok (Composite.segments_of 0 rows, sz)) as ->.
  { rewrite (Composite.manifest_loop_ok (fun _ _ => Err Panic)), Hsz. split; [done|]. split; [right; lia|]. by split. }
  cbn [mbind outcome_bind]. destruct (Z.eqb_spec (zlen (Composite.segments_of 0 rows)) 0) as [Hz|_].
  { by destruct rows. }
  rewrite Z.eqb_refl. by eexists.
Qed.

Lemma link_check_opens f w w' :
  ensureFileTreeCanBeLinked f w = (Ok tt, w') ->
  exists st, FileManager.OpenFile f w = (Ok st, w) /\ opens_as (db w) f st.
Proof.
  unfold ensureFileTreeCanBeLinked, FileManager.OpenFile. intros Hrun.
  rewrite (bind_ok _ _ _ _ _ (internalGetFileInfo_eq f w)).
  rewrite (bind_ok _ _ _ _ _ (readStoredFile_eq f w)) in Hrun.
  destruct (head (file_rows (db w) f)) as [r|] eqn:Er; [|done].
  cbn [fmap option_fmap option_map to_record state layout] in Hrun.
  destruct (Z.eqb_spec (f_state r) FileStateReady) as [Est|]; [|done]. cbn [negb] in Hrun.
  destruct (Z.eqb_spec (f_layout r) 1) as [El|Hn1].
  { eexists. split; [reflexivity|]. by exists r. }
  destruct (Z.eqb_spec (f_layout r) 2) as [El|]; [|done].
  unfold ensureCompositeFileLive in Hrun. step_ok Hrun.
  apply bind_ok_inv in Hrun as (res & w1 & R1 & Hrun). apply (composite_walk (to_record r)) in R1 as (Hok & Hle & ->).
  apply check_ok in Hrun as [_ Hc]. apply orb_false_iff in Hc as [Hne%Z.eqb_neq Hsz%negb_false_iff%Z.eqb_eq].
  assert (f_file_id r = f) as Ef.
  { apply head_Some_elem_of, sql_select_elem in Er as [_ E]. by apply Z.eqb_eq in E. }
  cbn [fileID to_record size] in *. rewrite Ef in *. rewrite Z.add_0_l in *.
  rewrite (bind_ok (query _) _ w (FileManager.manifest_of (db w) f) w eq_refl).
  destruct (compositeIOStream_opens (FileManager.manifest_of (db w) f) (f_size r)) as (fs & E & Ez & Eo & Es).
  - rewrite manifest_of_eq. by destruct (manifest_rows (db w) f).
  - exact Hok.
  - exact Hsz.
  - rewrite E. eexists. split; [reflexivity|]. exists r. split_and!; try done.
    + rewrite Es, manifest_of_eq. by destruct (manifest_rows (db w) f).
    + rewrite Es, Composite.segments_of_sizes. exact Hsz.
Qed.
End Opens.

(** ** The composite file *)

Lemma order_by_id {R} (le : R -> R -> bool) (l : list R) :
  StronglySorted (fun a b => le a b = true) l -> order_by le l = l.
Proof.
  induction 1 as [|x l _ IH Hx]; [done|]. cbn. rewrite IH.
  destruct Hx as [|y l Hxy _]; [done|]. cbn. by rewrite Hxy.
Qed.

(** The segment rows of a composite file. *)
Definition segment_of (final t : Z) (ip : Z * MultipartPart) : segment_row :=
  {| sg_file_id := final; sg_index := ip.1; sg_source := FileID ip.2; sg_size := Size ip.2;
     sg_ctime := t; sg_mtime := t |}.
Definition segment_rows (final t : Z) (parts : list MultipartPart) : list segment_row :=
  segment_of final t <$> indexed parts.

Lemma segment_rows_sorted final t parts :
  StronglySorted (fun a b => by_index a b = true) (segment_rows final t parts).
Proof.
  unfold segment_rows, indexed.
  assert (forall k (l : list MultipartPart), StronglySorted (fun a b => by_index a b = true)
    (segment_of final t <$> imap (fun i a => (Z.of_nat (k + i), a)) l)) as Hk; [|apply (Hk 0%nat)].
  intros k l. revert k. induction l as [|p l IH]; intros k; [constructor|]. cbn. constructor.
  - specialize (IH (S k)). erewrite imap_ext; [exact IH|]. intros i a _. cbn. f_equal. lia.
  - apply Forall_forall. intros s (ip & -> & Hip)%list_elem_of_fmap.
    apply elem_of_lookup_imap in Hip as (i & a & -> & _). cbn. apply Z.leb_le. cbn. lia.
Qed.

Lemma segment_rows_file final t parts s : s ∈ segment_rows final t parts -> sg_file_id s = final.
Proof. by intros (ip & -> & _)%list_elem_of_fmap. Qed.

Lemma segment_rows_parts final t parts :
  (fun s => (sg_source s, sg_size s)) <$> segment_rows final t parts = (fun p => (FileID p, Size p)) <$> parts.
Proof.
  unfold segment_rows, indexed. rewrite <- list_fmap_compose.
  rewrite fmap_imap. apply list_eq. intros i. rewrite list_lookup_imap, list_lookup_fmap.
  by destruct (parts !! i).
Qed.

Section Composite.
Context `{!Env} `{!S3Object.MimeTypes} `{!FileCodec} `{!Sha}.

(** Everything but the files and segments. *)
Definition no_files (w : World) :=
  (T w, t_upload (db w), t_mpart (db w), t_s3meta (db w), t_part (db w), t_delete (db w), ids w).

Lemma insert_segments_eq final t l w a w' :
  for_each (fun ip => insert_segment (segment_of final t ip)) l w = (Ok a, w') ->
  t_segment (db w') = t_segment (db w) ++ (segment_of final t <$> l) /\
  t_file (db w') = t_file (db w) /\ no_files w' = no_files w.
Proof.
  revert w. induction l as [|ip l IH]; intros w Hrun.
  { injection Hrun as _ <-. by rewrite app_nil_r. }
  cbn [for_each] in Hrun. apply bind_ok_inv in Hrun as ([] & w1 & R1 & Hrun).
  apply IH in Hrun as (E1 & E2 & E3). unfold insert_segment in R1.
  step_ok R1. step_ok R1. step_ok R1. injection R1 as <-. rewrite E1, E2, E3. cbn.
  by rewrite <- app_assoc.
Qed.

Lemma insertComposite_eq final sel sz pc t w a w' :
  insertCompositeFile final sel sz pc t w = (Ok a, w') ->
  t_segment (db w') = t_segment (db w) ++ segment_rows final t sel /\
  (exists r, t_file (db w') = t_file (db w) ++ [r] /\ f_file_id r = final /\ f_size r = sz /\
     f_part_count r = pc /\ f_state r = FileStateReady /\ f_layout r = 2) /\
  (forall r, r ∈ t_file (db w) -> f_file_id r <> final) /\ final < 2 ^ 63 /\ no_files w' = no_files w.
Proof.
  unfold insertCompositeFile. intros Hrun. apply bind_ok_inv in Hrun as ([] & w1 & R1 & Hrun).
  apply insert_segments_eq in Hrun as (E1 & E2 & E3). unfold FileDao.insert_file in R1.
  step_ok R1. cbv zeta in R1. step_ok R1. step_ok R1. injection R1 as <-.
  rewrite E1, E2, E3. split; [done|]. split; [by eexists|]. apply Z.leb_gt in R0. split; [|done].
  intros r Hr. rewrite sql_exists_false in R2. by apply Z.eqb_neq, R2.
Qed.

Lemma composite_segments d final t sel :
  wf_files d -> (forall r, r ∈ t_file d -> f_file_id r <> final) ->
  order_by by_index (sql_select (fun s => sg_file_id s =? final) (t_segment d ++ segment_rows final t sel))
  = segment_rows final t sel.
Proof.
  intros Hwf Hnew. unfold sql_select. rewrite List.filter_app, filter_none, filter_all.
  - apply order_by_id, segment_rows_sorted.
  - intros s Hs. apply Z.eqb_eq. by eapply segment_rows_file.
  - intros s Hs. apply Z.eqb_neq. destruct (wf_segment_file _ Hwf s Hs) as (r & Hr & E & _).
    rewrite <- E. by apply Hnew.
Qed.

(** One manifest row per segment. *)
Lemma manifest_sources d f :
  wf_files d ->
  (fun r => (Composite.r_sourceFileID r, Composite.r_segmentSize r)) <$> FileManager.manifest_of d f =
  (fun s => (sg_source s, sg_size s)) <$> file_segments d f.
Proof.
  intros Hwf. unfold FileManager.manifest_of, manifest_rows.
  assert (forall s, s ∈ file_segments d f -> exists r, file_rows d (sg_source s) = [r]) as Hone.
  { intros s Hs. apply order_by_elem, sql_select_elem in Hs as [Hs _].
    destruct (wf_segment_source _ Hwf s Hs) as (r & Hr & E & _).
    assert (head (file_rows d (sg_source s)) = Some r) as Hh by (by apply file_rows_head).
    exists r. destruct (file_rows d (sg_source s)) as [|r1 [|r2 l]] eqn:El; cbn in Hh; [done|congruence|].
    exfalso. assert (NoDup (f_file_id <$> file_rows d (sg_source s))) as Hnd.
    { eapply sublist_NoDup; [apply (wf_file_ids _ Hwf)|]. apply fmap_sublist, filter_sublist. }
    assert (forall x, x ∈ file_rows d (sg_source s) -> f_file_id x = sg_source s) as Hsame.
    { intros x Hx. apply sql_select_elem in Hx as [_ Hx]. by apply Z.eqb_eq in Hx. }
    rewrite El in Hnd, Hsame. cbn in Hnd. rewrite (Hsame r1), (Hsame r2) in Hnd by (repeat constructor).
    apply NoDup_cons in Hnd as [Hnd _]. apply Hnd. left. }
  induction (file_segments d f) as [|s l IH]; [done|]. cbn.
  destruct (Hone s) as [r ->]; [left|]. cbn. f_equal. apply IH. intros. apply Hone. by right.
Qed.

Lemma segments_of_parts total rows :
  (fun s => (Composite.sourceFileID s, Composite.size s)) <$> Composite.segments_of total rows =
  (fun r => (Composite.r_sourceFileID r, Composite.r_segmentSize r)) <$> rows.
Proof.
  revert total. induction rows as [|r rows IH]; intros total; [done|]. cbn. f_equal. apply IH.
Qed.

(** Opening looks at the files and segments only. *)
Lemma OpenFile_same f st w w' :
  t_file (db w') = t_file (db w) -> t_segment (db w') = t_segment (db w) ->
  FileManager.OpenFile f w = (Ok st, w) -> FileManager.OpenFile f w' = (Ok st, w').
Proof.
  intros E1 E2. unfold FileManager.OpenFile.
  rewrite !(bind_ok _ _ _ _ _ (internalGetFileInfo_eq _ _)).
  assert (FileManager.manifest_of (db w') f = FileManager.manifest_of (db w) f) as Em.
  { unfold FileManager.manifest_of, manifest_rows, file_segments, file_rows. by rewrite E1, E2. }
  unfold file_rows. rewrite E1. destruct (head _) as [r|]; [|done].
  destruct (f_layout r =? 1); [by intros [= <-]|]. destruct (f_layout r =? 2); [|done].
  rewrite !(bind_ok (query _) _ _ _ _ eq_refl), Em. unfold mbind, M_bind, lift.
  destruct (Composite.compositeIOStream _ _); [|done]. by intros [= <-].
Qed.
End Composite.

(** ** The selected parts *)

(** A part as completing reads it. *)
Definition stored_part (p : mpart_row) : MultipartPart :=
  {| PartNumber := mp_number p; FileID := mp_file_id p; Size := mp_size p; ETag := mp_etag p;
     ChecksumValue := mp_checksum p; LastModified := 0 |}.

(** The active part a request names. *)
Definition chosen (spec : MultipartChecksumSpec) (d : DB) (uploadID : string)
    (rq : CompleteMultipartPart) (p : mpart_row) : Prop :=
  p ∈ t_mpart d /\ active_part uploadID p = true /\ mp_number p = cpPartNumber rq /\
  mp_etag p = cpETag rq /\
  (Legacy spec = false -> cpChecksumValue rq = "" \/ cpChecksumValue rq = mp_checksum p).

Section Selected.
Context `{!Env} `{!S3Object.MimeTypes} `{!FileCodec} `{!Sha}.

Lemma readCompletionPart_row id n w rc w' :
  readCompletionPart id n w = (Ok rc, w') ->
  w' = w /\ exists p, p ∈ t_mpart (db w) /\ active_part id p = true /\ mp_number p = n /\ part rc = stored_part p.
Proof.
  unfold readCompletionPart. intros Hrun. step_ok Hrun.
  destruct (head _) as [[p f]|] eqn:Eh; [|done]. injection Hrun as <- <-. split; [done|].
  apply head_Some_elem_of in Eh. unfold parts_join in Eh.
  apply list_elem_of_In, in_flat_map in Eh as (p' & Hp & Hf). apply in_map_iff in Hf as (f' & [= -> ->] & _).
  apply list_elem_of_In, sql_select_elem in Hp as [Hin [Ha Hn%Z.eqb_eq]%andb_true_iff]. by exists p.
Qed.

Lemma validateCompletionPart_match spec rq rc b w a w' :
  validateCompletionPart spec rq rc b w = (Ok a, w') ->
  ETag (part rc) = cpETag rq /\
  (Legacy spec = false -> cpChecksumValue rq = "" \/ cpChecksumValue rq = ChecksumValue (part rc)).
Proof.
  intros Hrun. unfold validateCompletionPart in Hrun. cbv zeta in Hrun. do 3 step_ok Hrun.
  apply negb_false_iff, String.eqb_eq in Hrun0. split; [done|]. intros Hl.
  rewrite Hl in Hrun2. cbn [negb andb] in Hrun2. unfold nonempty in Hrun2.
  destruct (String.eqb_spec (cpChecksumValue rq) ""); [by left|].
  cbn [negb andb] in Hrun2. right. by apply negb_false_iff, String.eqb_eq in Hrun2.
Qed.

Lemma completion_rows spec id rqs sel sz pc w res w' :
  wf_files (db w) -> completion_loop spec id rqs sel sz pc w = (Ok res, w') ->
  w' = w /\ exists rows, Forall2 (chosen spec (db w) id) rqs rows /\
    res.1.1 = sel ++ (stored_part <$> rows) /\ res.1.2 = sz + sumZ (mp_size <$> rows).
Proof.
  intros Hwf. revert sel sz pc. induction rqs as [|rq rqs IH]; intros sel sz pc Hrun; cbn in Hrun.
  { injection Hrun as <- <-. split; [done|]. exists []. split; [done|]. cbn.
    rewrite app_nil_r. split; [done|lia]. }
  apply bind_ok_inv in Hrun as (rc & w1 & R1 & Hrun). apply readCompletionPart_row in R1 as (-> & p & Hp & Ha & En & Er).
  apply bind_ok_inv in Hrun as ([] & w1 & R2 & Hrun). pose proof R2 as R3.
  apply validateCompletionPart_ok in R3 as (-> & _ & _); [|done].
  apply validateCompletionPart_match in R2 as [Ee Ec]. rewrite Er in *. step_ok Hrun.
  apply IH in Hrun as (-> & rows & Hch & E1 & E2). split; [done|]. exists (p :: rows).
  split; [constructor; [by split_and!|done]|]. rewrite E1, E2, <- app_assoc. split; [done|].
  change (sumZ (mp_size <$> p :: rows)) with (mp_size p + sumZ (mp_size <$> rows)). cbn [stored_part Size]. lia.
Qed.
End Selected.

(** ** The control rows *)

Definition control (w : World) := (t_upload (db w), t_mpart (db w)).

#[export] Instance control_queue X : QueueStable (fun w => control w = X).
Proof. by split. Qed.
#[export] Instance control_dir `{!Env} X : DirStable (fun w => control w = X) (fun _ => True).
Proof. by split. Qed.

Section Control.
Context `{!Env} `{!S3Object.MimeTypes} `{!FileCodec} `{!Sha} (X : list upload_row * list mpart_row).
Notation same_control := (fun w => control w = X).

Lemma control_s3meta f : preserves same_control (upd (set_s3meta f)).
Proof. by intros w. Qed.
Lemma control_completed f : preserves same_control (upd (set_completed f)).
Proof. by intros w. Qed.
Hint Resolve control_s3meta control_completed : dir.

Lemma control_statTx p : preserves same_control (S3Object.statS3ObjectTx p).
Proof.
  unfold S3Object.statS3ObjectTx, S3Object.entry_info, S3Object.readS3Metadata.
  dir_frame; eauto with dir typeclass_instances.
Qed.
Hint Resolve control_statTx : dir.

Lemma control_publish path f sz m c : preserves same_control (S3Object.publishS3ObjectTx path f sz m c).
Proof.
  unfold S3Object.publishS3ObjectTx, S3Object.removeReplacedS3Object, S3Object.insertS3Metadata,
    S3Object.deleteS3Metadata, S3Object.ensureFileCanBeLinked, S3Object.markFilePendingIfUnreferenced.
  dir_frame; eauto using view_ensure, view_rebind, view_mark with dir typeclass_instances.
  by apply (preserves_Create _ (okref := fun _ => True)).
Qed.

Lemma control_manifest f u l t : preserves same_control (insertCompletedPartManifest f u l t).
Proof. unfold insertCompletedPartManifest, insert_completed. dir_frame; eauto with dir typeclass_instances. Qed.

Lemma control_mark_files l t : preserves same_control (mark_files l t).
Proof. unfold mark_files. dir_frame. apply view_mark, _. Qed.
End Control.

Section ControlSteps.
Context `{!Env} `{!S3Object.MimeTypes} `{!FileCodec} `{!Sha}.

Lemma control_step {A} (m : M World A) w a w' :
  (forall X, preserves (fun w => control w = X) m) -> m w = (Ok a, w') -> control w' = control w.
Proof. intros Hm Hrun. specialize (Hm (control w) w eq_refl). by rewrite Hrun in Hm. Qed.

(** A part row without its state and modification time. *)
Definition core (p : mpart_row) :=
  (mp_upload_id p, mp_number p, mp_file_id p, mp_size p, mp_etag p, mp_checksum p).
Definition mp_key (p : mpart_row) : string * Z := (mp_upload_id p, mp_number p).
Definition cores (w : World) := core <$> t_mpart (db w).

Lemma core_update g st t l : core <$> sql_update g (part_in st t) l = core <$> l.
Proof.
  unfold sql_update. change (map ?f ?l) with (f <$> l). rewrite <- list_fmap_compose.
  apply list_fmap_ext. intros i p _. cbn. by case_match.
Qed.

Definition selected_at (id : string) (n : Z) (q : mpart_row) : Prop :=
  part_of_upload id q = true /\ mp_number q = n /\ mp_state q = PsSelected.

Lemma select_loop_ok id sel t w a w' :
  for_each (fun part =>
    let p := fun q => part_of_upload id q && (mp_number q =? PartNumber part) &&
                      (mp_file_id q =? FileID part) && bool_decide (mp_state q = PsDiscarded) in
    affected ← query (fun d => sql_count p (t_mpart d));
    _ ← upd (set_mpart (sql_update p (part_in PsSelected t)));
    check (negb (affected =? 1)) ErrMultipartConflict) sel w = (Ok a, w') ->
  cores w' = cores w /\ t_upload (db w') = t_upload (db w) /\
  (forall q, q ∈ t_mpart (db w) -> mp_state q = PsSelected -> q ∈ t_mpart (db w')) /\
  forall part, part ∈ sel -> exists q, q ∈ t_mpart (db w') /\ selected_at id (PartNumber part) q.
Proof.
  revert w. induction sel as [|part sel IH]; intros w Hrun.
  { injection Hrun as _ <-. split_and!; try done. by intros ? ?%elem_of_nil. }
  cbn [for_each] in Hrun. apply bind_ok_inv in Hrun as ([] & w1 & R1 & Hrun). cbv zeta in R1.
  step_ok R1. apply bind_ok_inv in R1 as ([] & w2 & R2 & R1). apply check_ok in R1 as [-> Hc].
  injection R2 as <-. apply IH in Hrun as (E1 & E2 & Hkeep & Hsel). clear IH.
  set (p := fun q : mpart_row => _) in *. split_and!.
  - rewrite E1. unfold cores. cbn. apply core_update.
  - by rewrite E2.
  - intros q Hq Hs. apply Hkeep; [|done]. cbn. apply sql_update_elem. exists q. split; [done|].
    destruct (p q) eqn:Ep; [|done]. exfalso. subst p. cbn in Ep. apply andb_true_iff in Ep as [_ Ep].
    apply bool_decide_eq_true in Ep. congruence.
  - intros part' [->|Hp]%elem_of_cons; [|by apply Hsel].
    apply negb_false_iff, Z.eqb_eq in Hc. unfold sql_count in Hc.
    destruct (sql_select p (t_mpart (db w))) as [|q l] eqn:El; [done|].
    assert (q ∈ sql_select p (t_mpart (db w))) as Hq by (rewrite El; left).
    apply sql_select_elem in Hq as [Hq Ep]. exists (part_in PsSelected t q).
    assert (part_in PsSelected t q ∈ sql_update p (part_in PsSelected t) (t_mpart (db w))) as Hin.
    { apply sql_update_elem. exists q. by rewrite Ep. }
    split; [by apply Hkeep|]. subst p. cbn in Ep. rewrite !andb_true_iff in Ep.
    destruct Ep as [[[Eu En%Z.eqb_eq] _] _]. by split_and!.
Qed.

Lemma finalize_ok id sel t w a w' :
  finalizeMultipartParts id sel t w = (Ok a, w') ->
  cores w' = cores w /\ t_upload (db w') = t_upload (db w) /\
  forall part, part ∈ sel -> exists q, q ∈ t_mpart (db w') /\ selected_at id (PartNumber part) q.
Proof.
  unfold finalizeMultipartParts. intros Hrun. step_ok Hrun.
  apply bind_ok_inv in Hrun as ([] & w1 & R1 & Hrun). injection R1 as <-.
  apply bind_ok_inv in Hrun as (set_ & w2 & R2 & Hrun). unfold selectCompletedMultipartParts in R2.
  apply bind_ok_inv in R2 as ([] & w3 & R3 & R2). injection R2 as _ <-.
  apply select_loop_ok in R3 as (E1 & E2 & _ & Hsel).
  apply control_step in Hrun; [|intros; apply control_mark_files]. injection Hrun as Eu Em.
  split_and!.
  - unfold cores in *. rewrite Em, E1. cbn. apply core_update.
  - by rewrite Eu, E2.
  - intros part Hp. rewrite Em. by apply Hsel.
Qed.

Lemma finalize_view id sel t w a w' :
  finalizeMultipartParts id sel t w = (Ok a, w') -> object_view w' = object_view w.
Proof.
  assert (forall f X, preserves (fun w => object_view w = X) (upd (set_mpart f))) as Hm by (by intros f X w0).
  apply view_step. intros X.
  unfold finalizeMultipartParts, listMultipartPartFileIDs, discard_active, selectCompletedMultipartParts, mark_files.
  dir_frame; eauto with dir; apply view_mark, _.
Qed.

(** The upload with a given id, as [readMultipartUpload] finds it. *)
Definition upload_row_of (d : DB) (id : string) : option upload_row :=
  head (sql_select (fun u => bool_decide (u_upload_id u = id)) (t_upload d)).

Lemma upload_update d d' id p g :
  t_upload d' = sql_update p g (t_upload d) -> (forall u, u_upload_id (g u) = u_upload_id u) ->
  upload_row_of d' id = (fun u => if p u then g u else u) <$> upload_row_of d id.
Proof.
  intros E Hg. unfold upload_row_of. rewrite E. clear E. unfold sql_select, sql_update.
  induction (t_upload d) as [|u l IH]; [done|]. cbn.
  assert (bool_decide (u_upload_id (if p u then g u else u) = id) = bool_decide (u_upload_id u = id)) as ->.
  { case_match; [by rewrite Hg|done]. }
  case_bool_decide; [done|exact IH].
Qed.

Lemma claimCompletion_ok id t w a w' :
  claimMultipartCompletion id t w = (Ok a, w') ->
  T w' = T w /\ ids w' = ids w /\ t_mpart (db w') = t_mpart (db w) /\
  upload_row_of (db w') id = (fun u => if u_active u && (t <? u_expires_at u)
    then upload_in UsCompleting u (u_fingerprint u) (u_result_file u) (u_result_etag u)
           (u_result_checksum u) (u_completed_at u) (u_cleanup_at u) else u) <$> upload_row_of (db w) id.
Proof.
  unfold claimMultipartCompletion. cbv zeta. intros Hrun. step_ok Hrun.
  apply bind_ok_inv in Hrun as ([] & w1 & R1 & Hrun). apply check_ok in Hrun as [-> _]. injection R1 as <-.
  split_and!; [done..|]. erewrite upload_update; [|reflexivity|done].
  unfold upload_row_of. destruct (head _) as [u|] eqn:Eh; [|done].
  apply head_Some_elem_of, sql_select_elem in Eh as [_ Eu]. cbn. by rewrite Eu.
Qed.

Lemma finish_ok id fp f e c t w a w' :
  finishMultipartControl id fp f e c t w = (Ok a, w') ->
  T w' = T w /\ ids w' = ids w /\ t_file (db w') = t_file (db w) /\ t_mpart (db w') = t_mpart (db w) /\
  upload_row_of (db w') id = (fun u => if bool_decide (u_state u = UsCompleting)
    then upload_in UsCompleted u fp f e c t (t + multipartControlRetention) else u) <$> upload_row_of (db w) id.
Proof.
  unfold finishMultipartControl. cbv zeta. intros Hrun. step_ok Hrun.
  apply bind_ok_inv in Hrun as ([] & w1 & R1 & Hrun). apply check_ok in Hrun as [-> _]. injection R1 as <-.
  split_and!; [done..|]. erewrite upload_update; [|reflexivity|done].
  unfold upload_row_of. destruct (head _) as [u|] eqn:Eh; [|done].
  apply head_Some_elem_of, sql_select_elem in Eh as [_ Eu]. cbn. by rewrite Eu.
Qed.
End ControlSteps.

(** ** Completing *)

Section Completing.
Context `{!Env} `{!GoodIds} `{!S3Object.MimeTypes} `{!FileCodec} `{!Sha}.

Definition object_path (r : CompleteMultipartRequest) : string := "/" +:+ crBucket r +:+ "/" +:+ crKey r.

(** What completing upload [u] with the parts [rows] leaves behind. *)
Record built (r : CompleteMultipartRequest) (u : upload_row) (rows : list mpart_row)
    (res : CompleteMultipartResult) (w w' : World) : Prop := {
  built_opens : exists fs, FileManager.OpenFile (resFileID res) w' = (Ok (FileManager.CompositeFile fs), w') /\
    (fun s => (Composite.sourceFileID s, Composite.size s)) <$> Composite.segments fs =
      (fun p => (mp_file_id p, mp_size p)) <$> rows /\ Composite.csize fs = resSize res;
  built_size : resSize res = sumZ (mp_size <$> rows);
  built_expected : forall n, crExpectedSize r = Some n -> n = resSize res;
  built_etag : multipartETag (stored_part <$> rows) = Ok (resETag res);
  built_checksum : calculateMultipartChecksum u (stored_part <$> rows) = Ok (resChecksumValue res);
  built_final : validateFinalChecksum u r (resChecksumValue res) = Ok tt;
  built_result : completedMultipartResult u (resFileID res) (resSize res) (resETag res) (resChecksumValue res) = Ok res;
  built_file : exists f, head (file_rows (db w') (resFileID res)) = Some f /\ f_size f = resSize res;
  built_cores : cores w' = cores w;
  built_selected : forall p, p ∈ rows -> exists q, q ∈ t_mpart (db w') /\ selected_at (crUploadID r) (mp_number p) q }.

(** Publishing checks the file in the state it starts from. *)
Lemma publish_link_check path f sz m c w info w' :
  S3Object.publishS3ObjectTx path f sz m c w = (Ok info, w') ->
  exists w1, ensureFileTreeCanBeLinked f w = (Ok tt, w1).
Proof.
  unfold S3Object.publishS3ObjectTx, S3Object.statS3ObjectTx. intros Hrun.
  apply bind_ok_inv in Hrun as (cur & w1 & R1 & Hrun).
  apply bind_ok_inv in R1 as (e & w2 & R2 & R1).
  assert (w2 = w) as -> by (pose proof (Stat_tx_same path w) as E; by rewrite R2 in E).
  assert (w1 = w) as ->.
  { destruct e as [e|]; [|by injection R1]. destruct (Directory.IsDir e); [by injection R1|].
    apply bind_ok_inv in R1 as (i & w2 & R3 & R1). apply entry_info_ok in R3 as [-> _]. by injection R1. }
  step_ok Hrun. apply bind_ok_inv in Hrun as ([] & w1 & R3 & _). by exists w1.
Qed.

Lemma result_fields u f sz e c res :
  completedMultipartResult u f sz e c = Ok res ->
  resFileID res = f /\ resSize res = sz /\ resETag res = e /\ resChecksumValue res = c.
Proof. unfold completedMultipartResult. destruct (multipartChecksumSpec u); [|done]. by intros [= <-]. Qed.

(** After the composite file is inserted: publishing, then ending the upload. *)
Lemma persist_spec r u sel final sz etag cks fp t cs c w a w' :
  wf_world w -> file_inv (db w) -> denotes (object_path r) (cs ++ [c]) -> 0 <= final < 2 ^ 64 ->
  persistCompletedMultipart r u sel final sz etag cks fp t w = (Ok a, w') ->
  (exists st, FileManager.OpenFile final w = (Ok st, w) /\ opens_as (db w) final st /\
     FileManager.OpenFile final w' = (Ok st, w')) /\
  t_file (db w') = t_file (db w) /\ wf_world w' /\
  abs (T w') (cs ++ [c]) = Some (file_node (FormatUint final) sz) /\
  cores w' = cores w /\
  (forall part, part ∈ sel -> exists q, q ∈ t_mpart (db w') /\ selected_at (crUploadID r) (PartNumber part) q) /\
  upload_row_of (db w') (crUploadID r) = (fun u => if bool_decide (u_state u = UsCompleting)
    then upload_in UsCompleted u fp final etag cks t (t + multipartControlRetention) else u) <$>
      upload_row_of (db w) (crUploadID r).
Proof.
  intros Hw Hinv Hd Hfinal Hrun. pose proof (ok_keeps_persist (db w) _ _ _ _ _ _ _ _ _ _ _ _ (kept_refl _ Hinv) Hrun)
    as (_ & _ & _ & Ef & Es).
  unfold persistCompletedMultipart in Hrun. apply bind_ok_inv in Hrun as (info & w1 & R1 & Hrun).
  apply bind_ok_inv in Hrun as ([] & w2 & R2 & Hrun).
  destruct (publish_link_check _ _ _ _ _ _ _ _ R1) as [w0 Hlink]. apply link_check_opens in Hlink as (st & Hop & Has).
  pose proof (control_step _ _ _ _ (fun X => control_publish X _ _ _ _ _) R1) as Hctl. injection Hctl as Eu1 Em1.
  apply (publish_run _ _ _ _ _ cs c) in R1 as ((Hw1 & _ & _ & _ & _ & Habs) & _ & _); [|done..].
  apply finish_ok in Hrun as (ET & Ei & _ & Em & Eu).
  pose proof (finalize_ok _ _ _ _ _ _ R2) as (Ec & Eu2 & Hsel).
  assert (object_view w2 = object_view w1) as Hview by (by eapply finalize_view).
  injection Hview as ET2 _ Ei2. split_and!.
  - exists st. split; [done|]. split; [done|]. by eapply OpenFile_same.
  - done.
  - apply (wf_world_same w1); congruence.
  - rewrite ET, ET2, Habs. by rewrite decide_True.
  - unfold cores in *. by rewrite Em, Ec, Em1.
  - intros part Hp. rewrite Em. by apply Hsel.
  - rewrite Eu. unfold upload_row_of. by rewrite Eu2, Eu1.
Qed.

Lemma no_files_world w w' : no_files w' = no_files w -> wf_world w -> wf_world w'.
Proof. intros [= ET _ _ _ _ _ Ei] Hw. by apply (wf_world_same w). Qed.

(** The manifest of completed parts is a table of its own. *)
Lemma manifest_same f u l t w a w' :
  insertCompletedPartManifest f u l t w = (Ok a, w') ->
  t_file (db w') = t_file (db w) /\ t_segment (db w') = t_segment (db w) /\ no_files w' = no_files w.
Proof.
  assert (forall X, preserves (fun w => (t_file (db w), t_segment (db w), no_files w) = X)
    (insertCompletedPartManifest f u l t)) as Hp.
  { intros X. unfold insertCompletedPartManifest, insert_completed.
    assert (forall g, preserves (fun w => (t_file (db w), t_segment (db w), no_files w) = X) (upd (set_completed g)))
      as Hc by (by intros g w0).
    dir_frame; eauto with dir. }
  intros Hrun. specialize (Hp _ w eq_refl). rewrite Hrun in Hp. cbn [snd] in Hp.
  injection Hp as E1 E2 E3 E4 E5 E6 E7 E8 E9. unfold no_files. split_and!; congruence.
Qed.

Lemma completeActive_spec bs r u fp t cs c w res w' :
  wf_world w -> file_inv (db w) -> denotes (object_path r) (cs ++ [c]) ->
  completeActiveMultipart bs r u fp t w = (Ok res, w') ->
  exists spec rows, multipartChecksumSpec u = Ok spec /\
    Forall2 (chosen spec (db w) (crUploadID r)) (crParts r) rows /\ built r u rows res w w' /\
    abs (T w') (cs ++ [c]) = Some (file_node (FormatUint (resFileID res)) (resSize res)) /\
    upload_row_of (db w') (crUploadID r) = (fun u => if bool_decide (u_state u = UsCompleting)
      then upload_in UsCompleted u fp (resFileID res) (resETag res) (resChecksumValue res) t
             (t + multipartControlRetention) else u) <$> upload_row_of (db w) (crUploadID r).
Proof.
  intros Hw Hinv Hd Hrun. unfold completeActiveMultipart in Hrun.
  apply bind_ok_inv in Hrun as ([[sel sz] pc] & w1 & R1 & Hrun).
  pose proof (load_ok (db w) _ _ _ _ _ (kept_refl _ Hinv) R1) as [_ Hjoin].
  unfold loadCompletionParts in R1. step_ok R1. rename a into spec.
  apply completion_rows in R1 as (-> & rows & Hch & Esel & Esz); [|apply Hinv]. cbn in Esel, Esz. subst sel sz.
  do 3 step_ok Hrun.
  apply bind_ok_inv in Hrun as (final & w1 & R1 & Hrun). injection R1 as <- <-.
  set (w1 := {| db := db w; ticks := ticks w; ids := S (ids w) |}) in *.
  assert (wf_world w1) as Hw1.
  { destruct Hw as [Hwf Hfr]. split; [done|]. intros x n Hx Hn. apply Hfr; [done|]. cbn in Hn. lia. }
  apply bind_ok_inv in Hrun as ([] & w2 & R2 & Hrun).
  assert (grown_inv (db w) (db w2)) as [Hinv2 _]
    by (eapply insertComposite_inv; [| |exact R2]; [apply idfn_pos|exact Hjoin]).
  apply insertComposite_eq in R2 as (Eseg & (frow & Efile & Ef1 & Ef2 & _ & _ & Ef5) & Hnew & Hlt & Eno).
  apply bind_ok_inv in Hrun as ([] & w3 & R3 & Hrun).
  assert (file_inv (db w3)) as Hinv3 by (by apply (ok_keeps_manifest _ _ _ _ _ _ _ _ (kept_refl _ Hinv2) R3)).
  apply manifest_same in R3 as (Ef3 & Es3 & Eno3). rewrite Eno in Eno3.
  pose proof (no_files_world _ _ Eno3 Hw1) as Hw3. injection Eno3 as _ Eu3 Em3 _ _ _ _.
  do 2 step_ok Hrun. apply bind_ok_inv in Hrun as ([] & w4 & R4 & Hrun). apply lift_ok in R4 as [-> R4].
  apply bind_ok_inv in Hrun as ([] & w4 & R5 & Hrun). apply lift_ok in Hrun as [-> Hres].
  assert (0 <= idfn (ids w) < 2 ^ 64) as Hrange by (pose proof (idfn_pos (ids w)); lia).
  apply (persist_spec _ _ _ _ _ _ _ _ _ cs c) in R5
    as ((st & _ & (frow' & Hfr & _ & Hst) & Hop) & Ef4 & _ & Habs & Ec4 & Hsel & Eu4); [|done..].
  destruct (result_fields _ _ _ _ _ _ Hres) as (E1 & E2 & E3 & E4).
  assert (frow' = frow) as ->.
  { apply file_rows_head in Hfr as [Hin Hid]; [|apply Hinv3]. rewrite Ef3, Efile in Hin.
    apply elem_of_app in Hin as [Hin| ->%list_elem_of_singleton]; [|done]. by destruct (Hnew _ Hin). }
  exists spec, rows. split; [done|]. split; [done|]. split; [split|]; rewrite ?E1, ?E2, ?E3, ?E4; try done.
  - destruct st as [fs|fs]; [by destruct Hst; congruence|].
    destruct Hst as (_ & Hcs & _ & _ & Hseg & _). exists fs. split; [done|]. split; [|congruence].
    rewrite Hseg, segments_of_parts, manifest_sources by apply Hinv3.
    unfold file_segments. rewrite Es3, Eseg, composite_segments; [|apply Hinv|done].
    rewrite segment_rows_parts, <- list_fmap_compose. done.
  - intros n Hn. rewrite Hn in Hrun0. by apply negb_false_iff, Z.eqb_eq in Hrun0.
  - exists frow. split; [|done]. unfold file_rows in *. by rewrite Ef4.
  - unfold cores in *. rewrite Ec4, Em3. done.
  - intros p Hp. apply (Hsel (stored_part p)). by apply list_elem_of_fmap_2.
  - split; [done|]. rewrite Eu4. unfold upload_row_of. by rewrite Eu3.
Qed.

(** The control row of a completed upload. *)
Definition completed_row (r : CompleteMultipartRequest) (u : upload_row) (res : CompleteMultipartResult)
    (t : Z) : upload_row :=
  upload_in UsCompleted u (multipartCompletionFingerprint (crParts r)) (resFileID res) (resETag res)
    (resChecksumValue res) t (t + multipartControlRetention).

Lemma chosen_same spec d d' id rq p : t_mpart d' = t_mpart d -> chosen spec d' id rq p -> chosen spec d id rq p.
Proof. intros E. unfold chosen. by rewrite E. Qed.

Lemma built_claimed r u rows res w w1 w' :
  t_mpart (db w1) = t_mpart (db w) -> built r u rows res w1 w' -> built r u rows res w w'.
Proof. intros E [? ? ? ? ? ? ? ? Hc ?]. split; try done. rewrite Hc. unfold cores. by rewrite E. Qed.

Lemma complete_run bs r u cs c w res w' :
  wf_world w -> file_inv (db w) -> denotes (object_path r) (cs ++ [c]) ->
  upload_row_of (db w) (crUploadID r) = Some u -> u_active u = true ->
  CompleteMultipartUpload bs r w = (Ok res, w') ->
  exists spec rows t, multipartChecksumSpec u = Ok spec /\
    Forall2 (chosen spec (db w) (crUploadID r)) (crParts r) rows /\ built r u rows res w w' /\
    abs (T w') (cs ++ [c]) = Some (file_node (FormatUint (resFileID res)) (resSize res)) /\
    t < u_expires_at u /\ upload_row_of (db w') (crUploadID r) = Some (completed_row r u res t) /\
    matchingMultipartUpload (Some u) (crBucket r) (crKey r) = Some u /\
    validateCompleteMultipartRequest r = Ok tt /\ validateCompleteChecksumRequest u r = Ok tt.
Proof.
  intros Hw Hinv Hd Hu Hact Hrun. unfold CompleteMultipartUpload in Hrun.
  apply bind_ok_inv in Hrun as ([] & w1 & R0 & Hrun). apply lift_ok in R0 as [-> Hval]. cbv zeta in Hrun.
  apply bind_ok_inv in Hrun as ([res0|] & w1 & R1 & Hrun); [|done]. injection Hrun as <- <-.
  rewrite OnTransation_ok in R1. unfold completeMultipartUploadTx in R1. step_ok R1.
  change (head (sql_select _ _)) with (upload_row_of (db w) (crUploadID r)) in R1. rewrite Hu in R1.
  destruct (matchingMultipartUpload (Some u) _ _) as [u0|] eqn:Em; [|done].
  apply matching_some in Em as E; injection E as <-.
  unfold u_active in Hact. pose proof Hact as Hst%bool_decide_eq_true.
  rewrite Hst in R1. rewrite bool_decide_eq_false_2 in R1 by done. unfold u_active in R1. rewrite Hst in R1.
  cbn [negb bool_decide] in R1.
  apply bind_ok_inv in R1 as (t & w2 & R2 & R1). injection R2 as _ <-.
  destruct (Z.leb_spec (u_expires_at u) t) as [|Hexp]; [by apply bind_ok_inv in R1 as ([] & ? & _ & ?)|].
  apply bind_ok_inv in R1 as ([] & w3 & R2 & R1). apply lift_ok in R2 as [-> Hck].
  apply bind_ok_inv in R1 as ([] & w3 & R2 & R1).
  assert (file_inv (db w3)) as Hinv3.
  { eapply (ok_keeps_claimCompletion (db w)); [|exact R2]. by apply kept_refl. }
  apply claimCompletion_ok in R2 as (ET & Ei & Emp & Eu). cbn [db ticks ids] in *.
  assert (wf_world w3) as Hw3 by (by apply (wf_world_same w)).
  apply bind_ok_inv in R1 as (res1 & w4 & R2 & R1). injection R1 as <- <-.
  apply (completeActive_spec _ _ _ _ _ cs c) in R2 as (spec & rows & Hsp & Hch & Hb & Habs & Eu4); [|done..].
  exists spec, rows, t. split_and!; try done.
  - eapply Forall2_impl; [exact Hch|]. intros rq p. by apply chosen_same.
  - by eapply built_claimed.
  - rewrite Eu4, Eu, Hu. cbn. unfold u_active. rewrite Hst. cbn [bool_decide].
    destruct (Z.ltb_spec t (u_expires_at u)); [|lia]. done.
Qed.

(** C3: Completing an active upload builds the object of the parts the request names,
    in that order: the file it returns opens as the composite of exactly those parts'
    files, its size is the sum of theirs, the ETag and checksum are those of the parts,
    and the object's path leads to the file. The upload is then completed, with this
    result, and had not expired. *)
Theorem complete_builds_object bs r u cs c w res w' :
  wf_world w -> file_inv (db w) -> denotes (object_path r) (cs ++ [c]) ->
  upload_row_of (db w) (crUploadID r) = Some u -> u_active u = true ->
  CompleteMultipartUpload bs r w = (Ok res, w') ->
  exists rows, Forall2 (fun rq p => p ∈ t_mpart (db w) /\ active_part (crUploadID r) p = true /\
      mp_number p = cpPartNumber rq /\ mp_etag p = cpETag rq) (crParts r) rows /\
    (exists fs, FileManager.OpenFile (resFileID res) w' = (Ok (FileManager.CompositeFile fs), w') /\
      (fun s => (Composite.sourceFileID s, Composite.size s)) <$> Composite.segments fs =
        (fun p => (mp_file_id p, mp_size p)) <$> rows /\ Composite.csize fs = resSize res) /\
    resSize res = sumZ (mp_size <$> rows) /\
    multipartETag (stored_part <$> rows) = Ok (resETag res) /\
    calculateMultipartChecksum u (stored_part <$> rows) = Ok (resChecksumValue res) /\
    abs (T w') (cs ++ [c]) = Some (file_node (FormatUint (resFileID res)) (resSize res)) /\
    exists t, t < u_expires_at u /\
      upload_row_of (db w') (crUploadID r) = Some (completed_row r u res t).
Proof.
  intros Hw Hinv Hd Hu Hact Hrun.
  destruct (complete_run bs r u cs c w res w' Hw Hinv Hd Hu Hact Hrun)
    as (spec & rows & t & _ & Hch & Hb & Habs & Ht & Hrow & _). exists rows.
  split; [|split_and!; try apply Hb; [done|by exists t]].
  eapply Forall2_impl; [exact Hch|]. by intros rq p (? & ? & ? & ? & _).
Qed.

(** ** Completing again *)

(** The selected part a retry finds is the one that was chosen. *)
Lemma retry_part id spec d d' rq p q :
  NoDup (mp_key <$> t_mpart d) -> core <$> t_mpart d' = core <$> t_mpart d ->
  chosen spec d id rq p -> q ∈ t_mpart d' -> selected_at id (mp_number p) q -> core q = core p.
Proof.
  intros Hnd Hc (Hp & Hact & _) Hq (Hid & Hn & _).
  assert (core q ∈ core <$> t_mpart d) as Hin by (rewrite <- Hc; by apply list_elem_of_fmap_2).
  apply list_elem_of_fmap in Hin as (p' & E & Hp').
  assert (p' = p) as ->; [|done]. apply (NoDup_fmap_inj mp_key _ _ _ Hnd Hp' Hp).
  apply bool_decide_eq_true in Hid. apply andb_true_iff in Hact as [Hpid%bool_decide_eq_true _].
  unfold core in E. injection E as E1 E2 _ _ _ _. unfold mp_key. congruence.
Qed.

Lemma retry_checksums r u spec rows d w' :
  multipartChecksumSpec u = Ok spec -> NoDup (mp_key <$> t_mpart d) ->
  core <$> t_mpart (db w') = core <$> t_mpart d ->
  Forall2 (chosen spec d (crUploadID r)) (crParts r) rows ->
  (forall p, p ∈ rows -> exists q, q ∈ t_mpart (db w') /\ selected_at (crUploadID r) (mp_number p) q) ->
  validateCompletedPartChecksums u r w' = (Ok tt, w').
Proof.
  intros Hsp Hnd Hc Hch Hsel. unfold validateCompletedPartChecksums.
  rewrite Hsp, (bind_ok (lift (Ok spec)) _ w' spec w' eq_refl). destruct (Legacy spec) eqn:El; [done|].
  induction Hch as [|rq p rqs rows Hp _ IH]; [done|]. cbn [for_each].
  rewrite (bind_ok _ _ w' tt w'); [apply IH; intros; apply Hsel; by right|].
  rewrite (bind_ok (query _) _ w' _ w' eq_refl). destruct (Hsel p) as (q & Hq & Hqs); [left|].
  destruct (head _) as [q'|] eqn:Eh.
  - apply head_Some_elem_of, sql_select_elem in Eh as [Hq' Hc'].
    rewrite !andb_true_iff in Hc'. destruct Hc' as [[Eid En%Z.eqb_eq] Est%bool_decide_eq_true].
    destruct Hp as (Hpin & Hpa & Hpn & Hpe & Hpc).
    assert (core q' = core p) as E.
    { apply (retry_part (crUploadID r) spec d (db w') rq p q'); try done. split_and!; [done|congruence|done]. }
    unfold core in E. injection E as _ _ _ _ Ee Ec. unfold check.
    rewrite Ee, Hpe, String.eqb_refl, Ec. cbn [negb orb].
    destruct (Hpc El) as [->|Ecv]; [done|]. by rewrite Ecv, String.eqb_refl, andb_false_r.
  - exfalso. destruct Hqs as (Hid & Hn & Hst).
    assert (q ∈ sql_select (fun q => part_of_upload (crUploadID r) q && (mp_number q =? cpPartNumber rq) &&
      bool_decide (mp_state q = PsSelected)) (t_mpart (db w'))) as Hin.
    { apply sql_select_elem. split; [done|]. rewrite Hid, Hst. destruct Hp as (_ & _ & <- & _).
      by rewrite Hn, Z.eqb_refl. }
    destruct (sql_select _ _); [by apply elem_of_nil in Hin|done].
Qed.

(** C4: Completing is idempotent: when the same request arrives again, however much
    later, the answer is the same and the database does not change. *)
Theorem complete_retry bs bs' r u cs c w res w' w2 :
  wf_world w -> file_inv (db w) -> NoDup (mp_key <$> t_mpart (db w)) ->
  denotes (object_path r) (cs ++ [c]) ->
  upload_row_of (db w) (crUploadID r) = Some u -> u_active u = true ->
  CompleteMultipartUpload bs r w = (Ok res, w') -> db w2 = db w' ->
  exists w3, CompleteMultipartUpload bs' r w2 = (Ok res, w3) /\ db w3 = db w2.
Proof.
  intros Hw Hinv Hnd Hd Hu Hact Hrun Edb.
  destruct (complete_run bs r u cs c w res w' Hw Hinv Hd Hu Hact Hrun)
    as (spec & rows & t & Hsp & Hch & Hb & _ & _ & Hrow & Hmatch & Hval & Hck).
  exists w2. split; [|done]. unfold CompleteMultipartUpload. rewrite Hval.
  rewrite (bind_ok (lift (Ok tt)) _ w2 tt w2 eq_refl). cbv zeta.
  rewrite (bind_ok _ _ w2 (Some res) w2); [done|]. apply OnTransation_ok. unfold completeMultipartUploadTx.
  rewrite (bind_ok (readMultipartUpload _) _ w2 (upload_row_of (db w2) (crUploadID r)) w2 eq_refl).
  rewrite Edb, Hrow. unfold matchingMultipartUpload in Hmatch |- *. cbn [completed_row upload_in u_bucket u_key].
  destruct (_ && _); [|done]. cbn [u_state completed_row upload_in]. rewrite bool_decide_eq_true_2 by done.
  rewrite (bind_ok _ _ w2 res w2); [done|]. unfold readCompletedMultipartResult.
  cbn [u_fingerprint completed_row upload_in u_result_file u_result_checksum u_result_etag].
  rewrite String.eqb_refl, (bind_ok (check false _) _ w2 tt w2 eq_refl).
  rewrite (bind_ok _ _ _ _ _ (readStoredFile_eq _ w2)), Edb.
  destruct (built_file _ _ _ _ _ _ Hb) as (f & Hf & Esz). rewrite Hf. cbn [fmap option_fmap option_map to_record size].
  change (validateCompleteChecksumRequest (completed_row r u res t) r) with (validateCompleteChecksumRequest u r).
  rewrite Hck, (bind_ok (lift (Ok tt)) _ w2 tt w2 eq_refl).
  rewrite (bind_ok _ _ w2 tt w2).
  2: { destruct (crExpectedSize r) as [n|] eqn:En; [|done].
       rewrite (built_expected _ _ _ _ _ _ Hb n En), Esz, Z.eqb_refl. done. }
  change (validateCompletedPartChecksums (completed_row r u res t) r) with (validateCompletedPartChecksums u r).
  rewrite (bind_ok _ _ w2 tt w2).
  2: { eapply (retry_checksums r u spec rows (db w)); try done; rewrite Edb; apply Hb. }
  change (validateFinalChecksum (completed_row r u res t) r) with (validateFinalChecksum u r).
  rewrite (built_final _ _ _ _ _ _ Hb), (bind_ok (lift (Ok tt)) _ w2 tt w2 eq_refl).
  change (multipartChecksumSpec (completed_row r u res t)) with (multipartChecksumSpec u).
  pose proof (built_result _ _ _ _ _ _ Hb) as Hres. unfold completedMultipartResult in Hres.
  rewrite Hsp in Hres |- *. rewrite (bind_ok (lift (Ok spec)) _ w2 spec w2 eq_refl), Esz.
  injection Hres as Hres. unfold mret, M_ret. by rewrite Hres.
Qed.
End Completing.

(** A file that passes the check before it is linked opens: as a stream over its
    blocks, or over the segments of its manifest, which add up to its size. *)
Theorem linkable_opens `{!Env} f w w' :
  ensureFileTreeCanBeLinked f w = (Ok tt, w') ->
  exists st, FileManager.OpenFile f w = (Ok st, w) /\ opens_as (db w) f st.
Proof. apply link_check_opens. Qed.

(** ** Runs *)
Section Demo.
#[local] Existing Instances DirTheorems.demo_env DirTheorems.demo_ids demo_codec.
#[local] Instance demo_sha : Sha := {| sha1 _ := replicate 20 0; sha256 _ := replicate 32 0 |}.
#[local] Instance demo_mime : S3Object.MimeTypes := fun _ d => d.

(** Two files of one block each, of 5 MiB and of 4 bytes, become the parts of an
    upload. *)
Definition demo_part (f size : Z) (key : string) : FilePartDao.CreateFilePartRequest :=
  {| FilePartDao.FileId := f; FilePartDao.FilePartId := 0; FilePartDao.ReqFileKey := key;
     FilePartDao.FilePartMd5 := ""; FilePartDao.FilePartSize := size; FilePartDao.BackendKind := "mem";
     FilePartDao.ReqDeleteRef := key; FilePartDao.ReqUploadedAt := 1 |}.
Definition store_file (f size : Z) (key : string) (w : World) : World :=
  (FileManager.FinishFileCreate f
    (FilePartDao.CreateFilePart (demo_part f size key) (FileDao.CreateFileDraft size 1 w).2).2).2.
Definition demo_create : CreateMultipartRequest :=
  {| cmBucket := "b"; cmKey := "k"; cmExpireAfter := 0; cmAlgorithm := ""; cmChecksumType := "";
     cmMetadata := Some (multipartObjectMetadata (new_upload "" {| cmBucket := ""; cmKey := "";
       cmMetadata := None; cmExpireAfter := 0; cmAlgorithm := ""; cmChecksumType := "" |}
       demo_meta "" "" 0 0) "" "") |}.
Definition demo_id : string := Base64.hex_encode (Base64.put_be 8 6 ++ replicate 24 0).
Definition demo_etag : string := "00000000000000000000000000000000".
Definition demo_put (n f size : Z) : PutMultipartPartRequest :=
  {| ppUploadID := demo_id; ppBucket := "b"; ppKey := "k"; ppPartNumber := n; ppFileID := f; ppSize := size;
     ppETag := demo_etag; ppChecksumValue := "AAAAAAAAAAA="; ppMaxObjectSize := 0 |}.
Definition demo_request : CompleteMultipartRequest :=
  {| crUploadID := demo_id; crBucket := "b"; crKey := "k";
     crParts := [{| cpPartNumber := 1; cpETag := demo_etag; cpAlgorithm := ""; cpChecksumValue := "" |};
                 {| cpPartNumber := 2; cpETag := demo_etag; cpAlgorithm := ""; cpChecksumValue := "" |}];
     crMaxObjectSize := 0; crCondition := None; crFinalAlgorithm := ""; crFinalChecksum := "";
     crChecksumType := ""; crExpectedSize := Some 5242884 |}.

Definition put_parts (w : World) : World :=
  (PutMultipartPart 100 (demo_put 2 2 4) (PutMultipartPart 100 (demo_put 1 1 5242880)
    (CreateMultipartUpload (fun _ => Ok (replicate 24 0)) demo_create
      (store_file 2 4 "k2" (store_file 1 5242880 "k1" w))).2).2).2.
Definition demo_upload : World := put_parts DirTheorems.demo_start.

Lemma demo_run : exists res w', CompleteMultipartUpload 100 demo_request demo_upload = (Ok res, w').
Proof. apply is_ok_run. vm_compute. reflexivity. Qed.

Lemma store_file_inv f size key w : file_inv (db w) -> file_inv (db (store_file f size key w)).
Proof.
  intros Hw. unfold store_file.
  assert (forall w1, file_inv (db w1) -> file_inv (db (FileManager.FinishFileCreate f w1).2)) as Hfin.
  { intros w1 H1. by apply ready_inv. }
  apply Hfin, (ur_inv _ _ _ (upload_rel_part _ _)), CreateFileDraft_inv; [cbn; lia|done].
Qed.

Lemma put_parts_inv w : file_inv (db w) -> file_inv (db (put_parts w)).
Proof.
  intros Hw. unfold put_parts. do 2 (apply PutMultipartPart_safe). apply CreateMultipartUpload_safe.
  by do 2 (apply store_file_inv).
Qed.

Lemma empty_inv : file_inv (db DirTheorems.demo_start).
Proof.
  split; [split|]; try apply NoDup_nil_2; try (intros ? ?%elem_of_nil; done).
  by intros f _ q ?%elem_of_nil.
Qed.

Lemma demo_upload_inv : file_inv (db demo_upload).
Proof. apply put_parts_inv, empty_inv. Qed.

Lemma demo_upload_wf : wf_world demo_upload.
Proof.
  assert (T demo_upload = []) as E by (vm_compute; reflexivity).
  revert E. generalize demo_upload. intros w E. split; [rewrite E; apply wf_empty|].
  intros x n. rewrite E. by intros ?%elem_of_nil.
Qed.

Lemma demo_upload_row : exists u, upload_row_of (db demo_upload) demo_id = Some u /\ u_active u = true.
Proof.
  assert (u_active <$> upload_row_of (db demo_upload) demo_id = Some true) as E by (vm_compute; reflexivity).
  revert E. generalize demo_upload. intros w E. destruct (upload_row_of (db w) demo_id) as [u|]; [|done].
  exists u. split; [done|]. by injection E.
Qed.

Lemma demo_keys : NoDup (mp_key <$> t_mpart (db demo_upload)).
Proof.
  assert (mp_key <$> t_mpart (db demo_upload) = [(demo_id, 1); (demo_id, 2)]) as -> by (vm_compute; reflexivity).
  apply NoDup_cons. split; [|apply NoDup_singleton]. by intros ?%list_elem_of_singleton.
Qed.

Lemma complete_builds_object_witness : exists res w' rows,
  CompleteMultipartUpload 100 demo_request demo_upload = (Ok res, w') /\ length rows = 2%nat /\
  resSize res = sumZ (mp_size <$> rows) /\ abs (T w') ["b"; "k"] = Some (file_node (FormatUint (resFileID res)) (resSize res)).
Proof.
  destruct demo_run as (res & w' & Hrun). destruct demo_upload_row as (u & Hu & Hact).
  pose proof demo_upload_wf as Hw. pose proof demo_upload_inv as Hinv. revert Hrun Hu Hw Hinv.
  generalize demo_upload. intros w Hrun Hu Hw Hinv.
  assert (denotes (object_path demo_request) (["b"] ++ ["k"])) as Hd by (by apply (bool_decide_unpack _)).
  destruct (complete_builds_object 100 demo_request u ["b"] "k" w res w' Hw Hinv Hd Hu Hact Hrun)
    as (rows & Hch & _ & Hsz & _ & _ & Habs & _).
  exists res, w', rows. split; [exact Hrun|]. split; [symmetry; exact (Forall2_length _ _ _ Hch)|].
  split; [exact Hsz|exact Habs].
Defined.

Lemma complete_retry_witness : exists res w' w3,
  CompleteMultipartUpload 100 demo_request demo_upload = (Ok res, w') /\
  CompleteMultipartUpload 100 demo_request w' = (Ok res, w3) /\ db w3 = db w'.
Proof.
  destruct demo_run as (res & w' & Hrun). destruct demo_upload_row as (u & Hu & Hact).
  pose proof demo_upload_wf as Hw. pose proof demo_upload_inv as Hinv. pose proof demo_keys as Hk.
  revert Hrun Hu Hw Hinv Hk. generalize demo_upload. intros w Hrun Hu Hw Hinv Hk.
  assert (denotes (object_path demo_request) (["b"] ++ ["k"])) as Hd by (by apply (bool_decide_unpack _)).
  destruct (complete_retry 100 100 demo_request u ["b"] "k" w res w' w' Hw Hinv Hk Hd Hu Hact Hrun eq_refl)
    as (w3 & H3 & E3).
  exists res, w', w3. split; [exact Hrun|]. split; [exact H3|exact E3].
Defined.

Lemma demo_linkable : exists w', ensureFileTreeCanBeLinked 1 demo_upload = (Ok tt, w').
Proof.
  assert ((ensureFileTreeCanBeLinked 1 demo_upload).1 = Ok tt) as E by (vm_compute; reflexivity).
  revert E. generalize demo_upload. intros w E. exists (ensureFileTreeCanBeLinked 1 w).2.
  destruct (ensureFileTreeCanBeLinked 1 w). simpl in E. by subst.
Qed.

Lemma linkable_opens_witness : exists st, FileManager.OpenFile 1 demo_upload = (Ok st, demo_upload).
Proof.
  destruct demo_linkable as (w' & Hl). revert Hl. generalize demo_upload. intros w Hl.
  destruct (linkable_opens 1 w w' Hl) as (st & Hst & _). exists st. exact Hst.
Defined.
End Demo.
