(* ===== verification/PartTheorems.v ===== *)
(** * The parts of completed uploads: theorems

    The part interface and the stream of the whole object agree: part [k] is the
    [k]-th segment, at the offset where the stream has it. A listing pages through
    all the parts, each as a single lookup gives it. *)

From stdpp Require Import base strings list sorting.
From S2P Require Import Prelude Paging GoStr Base64 Checksum BlockIO FileStream CompositeStream Store.
From S2P Require Import References RefInv Dao FileManager Multipart CompletedPart MultipartTheorems.
Import References Multipart CompletedPart.

(** ** Lists *)

Lemma filter_key_le1 {R K} (k : R -> K) (x : K) (p : R -> bool) (t : list R) :
  NoDup (k <$> t) -> (forall r, p r = true -> k r = x) -> (length (List.filter p t) <= 1)%nat.
Proof.
  intros Hnd Hp. assert (NoDup (k <$> List.filter p t)) as Hf.
  { eapply sublist_NoDup; [exact Hnd|]. apply fmap_sublist, filter_sublist. }
  assert (forall r, r ∈ List.filter p t -> k r = x) as Hx.
  { intros r Hr. apply sql_select_elem in Hr as [_ Hr]. by apply Hp. }
  destruct (List.filter p t) as [|a [|b l]]; cbn; [lia..|]. exfalso. cbn in Hf.
  rewrite (Hx a), (Hx b) in Hf by (repeat constructor).
  apply NoDup_cons in Hf as [Hf _]. apply Hf. left.
Qed.

Lemma filter_key_single {R K} (k : R -> K) (p : R -> bool) (t : list R) r :
  NoDup (k <$> t) -> (forall r', p r' = true -> k r' = k r) -> r ∈ t -> p r = true ->
  List.filter p t = [r].
Proof.
  intros Hnd Hp Hr Hpr. pose proof (filter_key_le1 k (k r) p t Hnd Hp) as Hle.
  assert (r ∈ List.filter p t) as Hin by (by apply sql_select_elem).
  destruct (List.filter p t) as [|a [|b l]]; cbn in Hle; [by apply elem_of_nil in Hin| |lia].
  by apply list_elem_of_singleton in Hin as ->.
Qed.

Lemma left_join_le1 {A} (l : list A) : (length l <= 1)%nat -> left_join l = [head l].
Proof. destruct l as [|a [|b l]]; cbn; [done..|lia]. Qed.

Lemma seqZ_sorted a n : StronglySorted Z.le (seqZ a n).
Proof.
  destruct (Z.le_gt_cases 0 n) as [Hn|Hn]; [|by rewrite seqZ_nil by lia; constructor].
  revert a. pattern n. apply natlike_ind; [constructor| |done].
  intros m Hm IH a. rewrite seqZ_cons by lia. rewrite Z.pred_succ. constructor; [apply IH|].
  apply Forall_forall. intros x Hx%elem_of_seqZ. lia.
Qed.

(** Distinct numbers between 0 and their count, in order. *)
Lemma sorted_indices (l : list Z) :
  NoDup l -> (forall x, x ∈ l -> 0 <= x < zlen l) -> StronglySorted Z.le l -> l = seqZ 0 (zlen l).
Proof.
  intros Hnd Hb Hs. apply (StronglySorted_unique Z.le); [done|apply seqZ_sorted|].
  apply submseteq_length_Permutation.
  - apply NoDup_submseteq; [done|]. intros x Hx. apply elem_of_seqZ. apply Hb in Hx. lia.
  - rewrite length_seqZ. unfold zlen. lia.
Qed.

Lemma sumZ_perm l1 l2 : l1 ≡ₚ l2 -> sumZ l1 = sumZ l2.
Proof. unfold sumZ. induction 1; cbn; lia. Qed.

Lemma foldl_min_le x l : foldl Z.min x l <= x /\ forall y, y ∈ l -> foldl Z.min x l <= y.
Proof.
  revert x. induction l as [|z l IH]; intros x; cbn; [split; [lia|by intros y ?%elem_of_nil]|].
  destruct (IH (Z.min x z)) as [H1 H2]. split; [lia|]. intros y [->|Hy]%elem_of_cons; [lia|by apply H2].
Qed.

Lemma sql_min_le l m x : sql_min l = Some m -> x ∈ l -> m <= x.
Proof.
  destruct l as [|y l]; [done|]. intros [= <-]. destruct (foldl_min_le y l).
  intros [->|Hx]%elem_of_cons; auto.
Qed.

(** ** The constraints of the tables *)

(** PRIMARY KEY (file_id, segment_index) and (file_id, part_number), UNIQUE (file_id),
    CHECK (segment_size >= 0). *)
Record manifest_schema (d : DB) : Prop := {
  key_files : NoDup (f_file_id <$> t_file d);
  key_segments : NoDup ((fun s => (sg_file_id s, sg_index s)) <$> t_segment d);
  key_completed : NoDup ((fun c => (cp_file_id c, cp_number c)) <$> t_completed d);
  segment_sizes : forall s, s ∈ t_segment d -> 0 <= sg_size s }.

Section Manifest.
Context (d : DB) (Hd : manifest_schema d).

Lemma file_rows_le1 f : (length (file_rows d f) <= 1)%nat.
Proof using Hd. apply (filter_key_le1 f_file_id f); [apply Hd|]. by intros r Hr%Z.eqb_eq. Qed.

Lemma completed_of_le1 s : (length (completed_of d s) <= 1)%nat.
Proof using Hd.
  apply (filter_key_le1 (fun c => (cp_file_id c, cp_number c)) (sg_file_id s, sg_index s + 1)); [apply Hd|].
  intros c [H1%Z.eqb_eq H2%Z.eqb_eq]%andb_true_iff. by rewrite H1, H2.
Qed.

(** Every segment gives one row of the query. *)
Lemma joined_rows_eq f :
  joined_rows d f = (fun s => (s, head (file_rows d (sg_source s)), head (completed_of d s))) <$>
    sql_select (fun s => sg_file_id s =? f) (t_segment d).
Proof using Hd.
  unfold joined_rows. induction (sql_select _ _) as [|s l IH]; [done|]. cbn [flat_map fmap list_fmap].
  rewrite (left_join_le1 _ (file_rows_le1 _)), (left_join_le1 _ (completed_of_le1 _)). cbn. by f_equal.
Qed.

Lemma file_segments_nodup f : NoDup (sg_index <$> file_segments d f).
Proof using Hd.
  unfold file_segments. rewrite order_by_perm.
  pose proof (key_segments _ Hd) as Hk.
  eapply (sublist_NoDup _ ((fun s => (sg_file_id s, sg_index s)) <$> _)) in Hk; [|apply fmap_sublist, (filter_sublist (fun s => sg_file_id s =? f))].
  apply NoDup_fmap_2_strong; [|by eapply NoDup_fmap_1].
  intros s1 s2 H1 H2 E. eapply NoDup_fmap_inj; [exact Hk|done..|].
  apply sql_select_elem in H1 as [_ H1%Z.eqb_eq], H2 as [_ H2%Z.eqb_eq]. by rewrite H1, H2, E.
Qed.

Lemma file_segments_by_index f : StronglySorted (fun a b => by_index a b = true) (file_segments d f).
Proof. apply order_by_sorted; unfold by_index; intros *; rewrite !Z.leb_le; lia. Qed.

Lemma file_segments_sorted f : StronglySorted Z.le (sg_index <$> file_segments d f).
Proof.
  induction (file_segments_by_index f) as [|s l _ IH Hs]; [constructor|]. cbn. constructor; [done|].
  apply Forall_fmap. eapply Forall_impl; [exact Hs|]. cbn. unfold by_index. intros x. by rewrite Z.leb_le.
Qed.

(** ** What a validated manifest looks like *)
Record manifest_ok (f sz n : Z) : Prop := {
  mo_count : 1 <= n <= maxS3MultipartParts;
  mo_index : sg_index <$> file_segments d f = seqZ 0 n;
  mo_size : sumZ (sg_size <$> file_segments d f) = sz;
  mo_source : forall s, s ∈ file_segments d f -> exists r,
    head (file_rows d (sg_source s)) = Some r /\ f_state r = FileStateReady /\ f_layout r = 1 /\ f_size r = sg_size s;
  mo_part : forall s, s ∈ file_segments d f -> exists c, completed_of d s = [c] /\ cp_size c = sg_size s }.
End Manifest.

Section Validate.
Context `{!Env} `{!FileCodec} `{!Sha}.

Lemma validate_pure f sz w : exists o, validateCompletedManifest f sz w = (o, w).
Proof.
  unfold validateCompletedManifest. rewrite (bind_ok _ _ _ _ _ (internalGetFileInfo_eq f w)).
  destruct (head _) as [r|]; [|by eexists]. case_match; [by eexists|].
  case_match; [rewrite !(bind_ok (query _) _ w _ w eq_refl); case_match; by eexists|].
  case_match; [|by eexists]. unfold validateCompositeCompletedManifest.
  rewrite (bind_ok (query id) _ w (db w) w eq_refl). cbv zeta. case_match; by eexists.
Qed.

Lemma composite_valid f sz w sm w' :
  manifest_schema (db w) -> validateCompositeCompletedManifest f sz w = (Ok sm, w') ->
  isMultipart sm = true /\ manifest_ok (db w) f sz (partsCount sm).
Proof.
  intros Hd Hrun. unfold validateCompositeCompletedManifest in Hrun. step_ok Hrun.
  cbv zeta in Hrun. change (id (db w)) with (db w) in Hrun. set (d := db w) in *. case_match eqn:Hc; [done|]. injection Hrun as <- _. cbn [isMultipart partsCount].
  rewrite !orb_false_iff in Hc. destruct Hc as [[[[[[[Hc1 Hc2] Hmin] Hmax] Hsz] Hinv] _] _].
  apply Z.ltb_ge in Hc1, Hc2. apply negb_false_iff in Hmin, Hmax, Hsz, Hinv.
  apply bool_decide_eq_true in Hmin, Hmax. apply Z.eqb_eq in Hsz, Hinv.
  rewrite (joined_rows_eq d Hd) in *. set (S := sql_select _ _) in *.
  assert ((fun r : segment_row * option file_row * option Store.completed_row => r.1.1) <$>
    ((fun s => (s, head (file_rows d (sg_source s)), head (completed_of d s))) <$> S) = S) as ES.
  { rewrite <- list_fmap_compose. rewrite <- (list_fmap_id S) at 2. apply list_fmap_ext. done. }
  rewrite ES in Hmin, Hmax, Hsz.
  assert (file_segments d f ≡ₚ S) as Hperm by apply order_by_perm.
  assert (zlen (sg_index <$> file_segments d f) =
    zlen ((fun s => (s, head (file_rows d (sg_source s)), head (completed_of d s))) <$> S)) as Hlen.
  { unfold zlen. rewrite !length_fmap. by rewrite Hperm. }
  rewrite <- Hlen in *. split; [done|]. split; [done| | | |].
  - apply sorted_indices; [by apply file_segments_nodup| |].
    + intros x Hx. rewrite Hperm in Hx. pose proof (sql_min_le _ _ _ Hmin Hx).
      pose proof (sql_max_ge _ _ _ Hmax Hx). lia.
    + apply file_segments_sorted.
  - rewrite <- Hsz. apply sumZ_perm. by rewrite Hperm.
  - intros s Hs. rewrite Hperm in Hs. rewrite sql_count_zero in Hinv.
    specialize (Hinv _ (list_elem_of_fmap_2 _ _ _ Hs)). cbn in Hinv.
    apply orb_false_iff in Hinv as [Hinv _]. destruct (head (file_rows d (sg_source s))) as [r|]; [|done].
    rewrite !orb_false_iff, !negb_false_iff, !Z.eqb_eq in Hinv. naive_solver.
  - intros s Hs. rewrite Hperm in Hs. rewrite sql_count_zero in Hinv.
    specialize (Hinv _ (list_elem_of_fmap_2 _ _ _ Hs)). cbn in Hinv.
    apply orb_false_iff in Hinv as [_ Hinv]. pose proof (completed_of_le1 d Hd s) as Hle.
    destruct (completed_of d s) as [|c [|c' l]]; [done| |cbn in Hle; lia].
    cbn in Hinv. apply negb_false_iff, Z.eqb_eq in Hinv. eauto.
Qed.

(** The object's file, and its manifest when it is composite. *)
Lemma validate_ok f sz w sm w' :
  manifest_schema (db w) -> validateCompletedManifest f sz w = (Ok sm, w') ->
  w' = w /\ exists r, head (file_rows (db w) f) = Some r /\ f_state r = FileStateReady /\ f_size r = sz /\
  ((f_layout r = 1 /\ isMultipart sm = false /\ partsCount sm = 1) \/
   (f_layout r = 2 /\ isMultipart sm = true /\ manifest_ok (db w) f sz (partsCount sm))).
Proof.
  intros Hd Hrun. destruct (validate_pure f sz w) as [o Ho].
  assert (w' = w) as -> by congruence. split; [done|]. clear o Ho.
  unfold validateCompletedManifest in Hrun. rewrite (bind_ok _ _ _ _ _ (internalGetFileInfo_eq f w)) in Hrun.
  destruct (head _) as [r|]; [|done]. case_match eqn:Hc; [done|].
  apply orb_false_iff in Hc as [Hst%negb_false_iff%Z.eqb_eq Hs%negb_false_iff%Z.eqb_eq].
  exists r. split_and!; try done. destruct (Z.eqb_spec (f_layout r) 1) as [Hl|_].
  - left. step_ok Hrun. step_ok Hrun. case_match; [done|]. by injection Hrun as <-.
  - destruct (Z.eqb_spec (f_layout r) 2) as [Hl|_]; [|done]. right. split; [done|]. by eapply composite_valid.
Qed.
End Validate.

(** ** The rows of the parts *)
Section Rows.
Context (d : DB) (Hd : manifest_schema d) (f sz n : Z) (Hm : manifest_ok d f sz n).

Lemma segments_length : zlen (file_segments d f) = n.
Proof using Hm.
  pose proof (f_equal length (mo_index _ _ _ _ Hm)) as E. rewrite length_fmap, length_seqZ in E.
  pose proof (mo_count _ _ _ _ Hm). unfold zlen. lia.
Qed.

Lemma segment_index i s : file_segments d f !! i = Some s -> sg_index s = Z.of_nat i.
Proof using Hm.
  intros Hs. pose proof (f_equal (.!! i) (mo_index _ _ _ _ Hm)) as E. cbn in E.
  rewrite list_lookup_fmap, Hs in E. cbn in E. symmetry in E. apply lookup_seqZ in E. lia.
Qed.

Lemma segment_row_in s : s ∈ file_segments d f <-> s ∈ t_segment d /\ sg_file_id s = f.
Proof. unfold file_segments. by rewrite order_by_elem, sql_select_elem, Z.eqb_eq. Qed.

Lemma segment_order_anti a b :
  a ∈ t_segment d -> b ∈ t_segment d -> sg_file_id a = f -> sg_file_id b = f -> sg_index a = sg_index b -> a = b.
Proof using Hd.
  intros Ha Hb Fa Fb E. eapply NoDup_fmap_inj; [apply (key_segments _ Hd)|done..|]. cbn. by rewrite Fa, Fb, E.
Qed.

Lemma index_split (i : nat) (p : Z -> bool) :
  (forall j, 0 <= j < Z.of_nat i -> p j = false) -> (forall j, Z.of_nat i <= j -> p j = true) ->
  List.filter (fun s => p (sg_index s)) (file_segments d f) = drop i (file_segments d f) /\
  List.filter (fun s => negb (p (sg_index s))) (file_segments d f) = take i (file_segments d f).
Proof using Hm.
  intros H0 H1. assert (forall s, s ∈ take i (file_segments d f) -> p (sg_index s) = false) as Ht.
  { intros s (j & Hj)%list_elem_of_lookup. apply lookup_take_Some in Hj as [Hj Hlt].
    apply segment_index in Hj as ->. apply H0. lia. }
  assert (forall s, s ∈ drop i (file_segments d f) -> p (sg_index s) = true) as Hdr.
  { intros s (j & Hj)%list_elem_of_lookup. rewrite lookup_drop in Hj.
    apply segment_index in Hj as ->. apply H1. lia. }
  rewrite <- (take_drop i (file_segments d f)) at 1 3. rewrite !List.filter_app. split.
  - by rewrite (filter_none _ (take _ _)), filter_all.
  - rewrite (filter_all _ (take _ _)), (filter_none _ (drop _ _)); [by rewrite app_nil_r| |].
    + intros s Hs. by rewrite Hdr.
    + intros s Hs. by rewrite Ht.
Qed.

(** The offset of a part is the size of the segments before it. *)
Lemma previous_size_eq i s :
  file_segments d f !! i = Some s -> previous_size d s = sumZ (sg_size <$> take i (file_segments d f)).
Proof using Hd Hm.
  intros Hs. unfold previous_size. pose proof (segment_index _ _ Hs) as Hi.
  assert (sg_file_id s = f) as Hf by (by apply segment_row_in; apply list_elem_of_lookup_2 in Hs).
  apply sumZ_perm. rewrite Hf. unfold sql_select. rewrite filter_andb.
  rewrite (filter_perm _ _ (file_segments d f)) by (symmetry; apply order_by_perm).
  destruct (index_split i (fun j => negb (j <? sg_index s))) as [_ E].
  - intros j Hj. rewrite (proj2 (Z.ltb_lt _ _)); [done|lia].
  - intros j Hj. rewrite (proj2 (Z.ltb_ge _ _)); [done|lia].
  - rewrite <- E. erewrite List.filter_ext; [reflexivity|]. intros x. cbn. by rewrite negb_involutive.
Qed.

(** The segments after a marker. *)
Lemma segments_after marker :
  0 <= marker ->
  order_by by_index (sql_select (fun s => (sg_file_id s =? f) && (marker <? sg_index s + 1)) (t_segment d))
  = zdrop marker (file_segments d f).
Proof using Hd Hm.
  intros Hmk. set (p := fun s => sg_file_id s =? f).
  rewrite <- (order_by_perm_eq by_index) with (l1 := sql_select (fun s => p s && (marker <? sg_index s + 1)) (t_segment d)) (t := sql_select p (t_segment d)).
  - reflexivity.
  - unfold by_index. intros *. rewrite !Z.leb_le. lia.
  - unfold by_index. intros *. rewrite !Z.leb_le. lia.
  - intros a b [Ha Fa%Z.eqb_eq]%sql_select_elem [Hb Fb%Z.eqb_eq]%sql_select_elem H1%Z.leb_le H2%Z.leb_le.
    apply segment_order_anti; try done. lia.
  - intros r [Hr [Hp _]%andb_true_iff]%sql_select_elem. by apply sql_select_elem.
  - unfold sql_select. rewrite filter_andb.
    rewrite (filter_perm _ _ (file_segments d f)) by (symmetry; apply order_by_perm).
    destruct (index_split (Z.to_nat marker) (fun j => marker <? j + 1)) as [E _].
    + intros j Hj. apply Z.ltb_ge. lia.
    + intros j Hj. apply Z.ltb_lt. lia.
    + by rewrite E.
  - pose proof (file_segments_by_index d f) as Hs. rewrite <- (take_drop (Z.to_nat marker) (file_segments d f)) in Hs.
    by apply StronglySorted_app_1_r in Hs.
Qed.

(** The row of a single part. *)
Lemma segment_at i s :
  file_segments d f !! i = Some s ->
  sql_select (fun s' => (sg_file_id s' =? f) && (sg_index s' =? Z.of_nat i)) (t_segment d) = [s].
Proof using Hd Hm.
  intros Hs. pose proof (segment_index _ _ Hs) as Hi. apply list_elem_of_lookup_2, segment_row_in in Hs as [Hin Hf].
  apply (filter_key_single (fun s => (sg_file_id s, sg_index s))); [apply Hd| |done|].
  - intros r [H1%Z.eqb_eq H2%Z.eqb_eq]%andb_true_iff. cbn. by rewrite H1, H2, Hf, Hi.
  - by rewrite Hf, Hi, !Z.eqb_refl.
Qed.

Lemma part_rows_ok l :
  (forall s, s ∈ l -> s ∈ file_segments d f) ->
  (part_rows d l).*1 = l /\ forall row, row ∈ part_rows d l -> completed_of d row.1 = [row.2].
Proof using Hm.
  induction l as [|s l IH]; intros Hl; [split; [done|by intros ? ?%elem_of_nil]|].
  destruct (mo_part _ _ _ _ Hm s) as (c & Hc & _); [apply Hl; left|].
  destruct IH as [IH1 IH2]; [intros; apply Hl; by right|].
  unfold part_rows in *. cbn [flat_map]. rewrite Hc. cbn. split; [by f_equal|].
  intros row [->|Hr]%elem_of_cons; [done|by apply IH2].
Qed.
End Rows.

Section Parts.
Context `{!Env} `{!FileCodec} `{!Sha}.

Lemma read_part_eq w f sz n i s c :
  manifest_schema (db w) -> manifest_ok (db w) f sz n ->
  file_segments (db w) f !! i = Some s -> completed_of (db w) s = [c] ->
  readCompletedPart f sz (Z.of_nat i + 1) n w =
  match validateCompletedPartRecord (scan_part (db w) f n (s, c)) sz with
  | Ok _ => (Ok (scan_part (db w) f n (s, c)), w)
  | Err e => (Err e, w)
  end.
Proof.
  intros Hd Hm Hs Hc. unfold readCompletedPart. rewrite (bind_ok (query id) _ w (db w) w eq_refl).
  cbv zeta. rewrite Z.add_simpl_r, (segment_at _ Hd _ _ _ Hm _ _ Hs).
  unfold part_rows. cbn [flat_map]. rewrite Hc. cbn [map app head].
  assert (scan_part (db w) f n (s, c) =
    {| scFileID := f; scPartNumber := Z.of_nat i + 1; scPartSize := sg_size s;
       scStartOffset := previous_size (db w) s; scPartsCount := n; scSourceFileID := sg_source s;
       scIsMultipart := true; scChecksumState := checksum_state c;
       scChecksumAlgorithm := cp_algorithm c; scChecksumValue := cp_value c |}) as E.
  { unfold scan_part. cbn. by rewrite (segment_index _ _ _ _ Hm _ _ Hs). }
  rewrite !E. cbn [scPartSize scStartOffset scSourceFileID scChecksumState scChecksumAlgorithm scChecksumValue].
  unfold mbind, M_bind, lift. by destruct (validateCompletedPartRecord _ _).
Qed.

(** The run of a successful lookup of a part of a composite file. *)
Lemma stat_part_eq w f sz n sm i s c :
  manifest_schema (db w) -> validateCompletedManifest f sz w = (Ok sm, w) -> isMultipart sm = true ->
  partsCount sm = n -> manifest_ok (db w) f sz n ->
  file_segments (db w) f !! i = Some s -> completed_of (db w) s = [c] ->
  validateCompletedPartRecord (scan_part (db w) f n (s, c)) sz = Ok tt ->
  StatS3ObjectPart f sz (Z.of_nat i + 1) w = (Ok (scan_part (db w) f n (s, c)), w).
Proof.
  intros Hd Hv Hmp En Hm Hs Hc Hok. unfold StatS3ObjectPart.
  pose proof (lookup_lt_Some _ _ _ Hs) as Hlt. pose proof (segments_length _ _ _ _ Hm) as Hlen.
  pose proof (mo_count _ _ _ _ Hm). unfold zlen in Hlen.
  rewrite (bind_ok (check _ _) _ w tt w).
  2: { unfold check. destruct (Z.ltb_spec (Z.of_nat i + 1) 1); [lia|].
       destruct (Z.ltb_spec maxS3MultipartParts (Z.of_nat i + 1)); [lia|done]. }
  rewrite (bind_ok _ _ _ _ _ Hv), En. rewrite (bind_ok (check _ _) _ w tt w).
  2: { unfold check. destruct (Z.ltb_spec n (Z.of_nat i + 1)); [lia|done]. }
  rewrite Hmp. cbn [negb]. by rewrite (read_part_eq w f sz n i s c Hd Hm Hs Hc), Hok.
Qed.

Lemma stat_part_inv w f sz k part w' :
  manifest_schema (db w) -> StatS3ObjectPart f sz k w = (Ok part, w') -> scIsMultipart part = true ->
  w' = w /\ exists n s c, manifest_ok (db w) f sz n /\ 1 <= k <= n /\
    (exists r, head (file_rows (db w) f) = Some r /\ f_layout r = 2 /\ f_size r = sz) /\
    file_segments (db w) f !! Z.to_nat (k - 1) = Some s /\ completed_of (db w) s = [c] /\
    part = scan_part (db w) f n (s, c).
Proof.
  intros Hd Hrun Hmp. unfold StatS3ObjectPart in Hrun. step_ok Hrun.
  apply orb_false_iff in Hrun0 as [Hk%Z.ltb_ge _].
  apply bind_ok_inv in Hrun as (sm & w1 & R1 & Hrun).
  apply validate_ok in R1 as (-> & r & Hr & _ & Hsz & Hsm); [|done].
  step_ok Hrun. apply Z.ltb_ge in Hrun0. destruct Hsm as [(_ & Em & _)|(Hl & Em & Hm)]; rewrite Em in Hrun; cbn [negb] in Hrun.
  { injection Hrun as <- _. done. }
  destruct (lookup_lt_is_Some_2 (file_segments (db w) f) (Z.to_nat (k - 1))) as [s Hs].
  { pose proof (segments_length _ _ _ _ Hm) as Hlen. unfold zlen in Hlen. lia. }
  destruct (mo_part _ _ _ _ Hm s) as (c & Hc & _); [by apply list_elem_of_lookup_2 in Hs|].
  replace k with (Z.of_nat (Z.to_nat (k - 1)) + 1) in Hrun by lia.
  rewrite (read_part_eq w f sz _ _ s c Hd Hm Hs Hc) in Hrun.
  destruct (validateCompletedPartRecord _ _); [|done]. injection Hrun as <- <-. split; [done|].
  exists (partsCount sm), s, c. split_and!; try done. by exists r.
Qed.
End Parts.

(** ** The parts and the stream of the object *)

Lemma rows_ok_lookup k rows :
  (forall i r, rows !! i = Some r -> Composite.row_ok (k + Z.of_nat i) r) -> Composite.rows_ok k rows.
Proof.
  revert k. induction rows as [|r rows IH]; intros k H; [done|]. split.
  - specialize (H 0%nat r eq_refl). by rewrite Z.add_0_r in H.
  - apply IH. intros i r' Hr. specialize (H (Datatypes.S i) r' Hr). by replace (k + 1 + Z.of_nat i) with (k + Z.of_nat (Datatypes.S i)) by lia.
Qed.

Lemma segments_of_lookup total rows i r :
  rows !! i = Some r ->
  Composite.segments_of total rows !! i = Some
    {| Composite.index := Composite.r_index r; Composite.sourceFileID := Composite.r_sourceFileID r;
       Composite.size := Composite.r_segmentSize r;
       Composite.start := total + Composite.rows_size (take i rows) |}.
Proof.
  revert total i. induction rows as [|r' rows IH]; intros total [|i] Hr; [done..| |].
  - injection Hr as ->. cbn. unfold Composite.rows_size. cbn. do 2 f_equal. lia.
  - cbn [lookup list_lookup Composite.segments_of]. rewrite (IH _ _ Hr). cbn [take].
    rewrite Composite.rows_size_cons. do 2 f_equal. lia.
Qed.

(** A valid segment as a row of the manifest. *)
Definition valid_row (s : segment_row) : Composite.manifest_row :=
  {| Composite.r_index := sg_index s; Composite.r_sourceFileID := sg_source s;
     Composite.r_segmentSize := sg_size s; Composite.r_source := Some (sg_size s, FileStateReady, 1) |}.

Lemma manifest_of_valid d f sz n :
  manifest_schema d -> manifest_ok d f sz n -> FileManager.manifest_of d f = valid_row <$> file_segments d f.
Proof.
  intros Hd Hm. unfold FileManager.manifest_of, manifest_rows.
  assert (forall s, s ∈ file_segments d f -> exists r, left_join (file_rows d (sg_source s)) = [Some r] /\
    f_state r = FileStateReady /\ f_layout r = 1 /\ f_size r = sg_size s) as Hsrc.
  { intros s Hs. destruct (mo_source _ _ _ _ Hm s Hs) as (r & Hr & ?). exists r. split; [|done].
    by rewrite (left_join_le1 _ (file_rows_le1 d Hd _)), Hr. }
  induction (file_segments d f) as [|s l IH]; [done|]. cbn [flat_map].
  destruct (Hsrc s) as (r & -> & E1 & E2 & E3); [left|]. cbn. unfold valid_row at 1. rewrite E1, E2, E3.
  f_equal. apply IH. intros. apply Hsrc. by right.
Qed.

Lemma valid_rows_size l : Composite.rows_size (valid_row <$> l) = sumZ (sg_size <$> l).
Proof. unfold Composite.rows_size. by rewrite <- list_fmap_compose. Qed.

Section Range.
Context `{!Env} `{!FileCodec} `{!Sha}.

Lemma valid_opens w f sz n r :
  manifest_schema (db w) -> manifest_ok (db w) f sz n ->
  head (file_rows (db w) f) = Some r -> f_layout r = 2 -> f_size r = sz ->
  exists cs, FileManager.OpenFile f w = (Ok (FileManager.CompositeFile cs), w) /\
    Composite.segments cs = Composite.segments_of 0 (valid_row <$> file_segments (db w) f) /\
    Composite.laid_out 0 (Composite.segments cs).
Proof.
  intros Hd Hm Hr Hl Hsz. assert (Composite.rows_ok 0 (valid_row <$> file_segments (db w) f)) as Hok.
  { apply rows_ok_lookup. intros i row Hi. apply list_lookup_fmap_Some_1 in Hi as (s & -> & Hs).
    split_and!; [|done|].
    - cbn. by rewrite (segment_index _ _ _ _ Hm _ _ Hs).
    - apply (segment_sizes _ Hd). apply list_elem_of_lookup_2, segment_row_in in Hs as [? _]. done. }
  unfold FileManager.OpenFile. rewrite (bind_ok _ _ _ _ _ (internalGetFileInfo_eq f w)), Hr, Hl. cbn [Z.eqb Pos.eqb].
  rewrite (bind_ok (query _) _ w _ w eq_refl), (manifest_of_valid _ f sz n Hd Hm).
  destruct (compositeIOStream_opens (valid_row <$> file_segments (db w) f) (f_size r)) as (cs & E & _ & _ & Es).
  - pose proof (segments_length _ _ _ _ Hm) as Hlen. pose proof (mo_count _ _ _ _ Hm).
    destruct (file_segments (db w) f); [|done]. unfold zlen in Hlen. cbn in Hlen. lia.
  - done.
  - rewrite valid_rows_size, Hsz. apply Hm.
  - rewrite E. exists cs. split; [done|]. split; [done|]. rewrite Es. by eapply Composite.segments_of_laid_out.
Qed.

Context {B : Type} `{!IBlockIO B} `{!RetryLib} `{!BlockStore B} (bkio : B) (b2f : Z -> Z -> outcome string).

Lemma part_content segs contents i s :
  Composite.laid_out 0 segs -> Composite.sources bkio b2f segs contents -> segs !! i = Some s ->
  contents !! i = Some (ztake (Composite.size s) (zdrop (Composite.start s) (concat contents))).
Proof.
  intros Hl Hs Hi. destruct (Composite.laid_out_lookup bkio b2f _ _ _ _ _ Hl Hs Hi) as (c & Hc & Hz & _ & ->).
  rewrite Hc. f_equal. pose proof (Composite.concat_at contents i c 0 Hc) as E.
  rewrite Z.add_0_l. rewrite Z.add_0_r in E. rewrite E by (pose proof (zlen_nonneg c); lia).
  rewrite zdrop_0, ztake_app_le by lia. by rewrite ztake_ge by lia.
Qed.

(** C39: Part [k] of a finished multipart object is the [k]-th segment of the stream of
    the object: same source file, same size, same position, and the parts count is the
    number of segments. So the bytes of the part's source file are exactly the bytes of
    the object from [StartOffset] on, [PartSize] many. *)
Theorem stat_part_is_range f sz k w part w' :
  manifest_schema (db w) -> StatS3ObjectPart f sz k w = (Ok part, w') -> scIsMultipart part = true ->
  w' = w /\ exists cs seg, FileManager.OpenFile f w = (Ok (FileManager.CompositeFile cs), w) /\
    Composite.segments cs !! Z.to_nat (k - 1) = Some seg /\
    Composite.sourceFileID seg = scSourceFileID part /\ Composite.size seg = scPartSize part /\
    Composite.start seg = scStartOffset part /\ zlen (Composite.segments cs) = scPartsCount part /\
    forall contents, Composite.sources bkio b2f (Composite.segments cs) contents ->
      contents !! Z.to_nat (k - 1) = Some (ztake (scPartSize part) (zdrop (scStartOffset part) (concat contents))).
Proof.
  intros Hd Hrun Hmp.
  destruct (stat_part_inv w f sz k part w' Hd Hrun Hmp) as (-> & n & s & c & Hm & Hk & (r & Hr & Hl & Hsz) & Hs & _ & ->).
  split; [done|]. destruct (valid_opens w f sz n r Hd Hm Hr Hl Hsz) as (cs & Hopen & Es & Hlaid).
  exists cs. eexists. split; [exact Hopen|].
  assert ((valid_row <$> file_segments (db w) f) !! Z.to_nat (k - 1) = Some (valid_row s)) as Hrow
    by (by rewrite list_lookup_fmap, Hs).
  pose proof (segments_of_lookup 0 _ _ _ Hrow) as Hseg. rewrite <- fmap_take, valid_rows_size, Z.add_0_l in Hseg.
  rewrite <- (previous_size_eq _ Hd _ _ _ Hm _ _ Hs), <- Es in Hseg.
  split; [exact Hseg|]. cbn. split_and!; [done..| |].
  - rewrite Es. pose proof (f_equal zlen (segments_of_parts 0 (valid_row <$> file_segments (db w) f))) as E.
    unfold zlen in E. rewrite !length_fmap in E. rewrite <- (segments_length _ _ _ _ Hm). exact E.
  - intros contents Hsrc. exact (part_content _ _ _ _ Hlaid Hsrc Hseg).
Qed.
End Range.

(** ** Listing the parts *)
Section Listing.
Context `{!Env} `{!FileCodec} `{!Sha}.

Lemma scan_loop d f n sz rows acc (w : World) parts w' :
  fold_each (fun parts row =>
    let part := scan_part d f n row in
    _ ← lift (validateCompletedPartRecord part sz); mret (parts ++ [part])) acc rows w = (Ok parts, w') ->
  w' = w /\ parts = acc ++ (scan_part d f n <$> rows) /\
  forall row, row ∈ rows -> validateCompletedPartRecord (scan_part d f n row) sz = Ok tt.
Proof.
  revert acc. induction rows as [|row rows IH]; intros acc Hrun.
  { injection Hrun as <- <-. rewrite app_nil_r. split_and!; try done. by intros ? ?%elem_of_nil. }
  cbn in Hrun. apply bind_ok_inv in Hrun as (a & w1 & R1 & Hrun). step_ok R1. injection R1 as <- <-.
  apply IH in Hrun as (-> & -> & Hv). rewrite <- app_assoc. split_and!; try done.
  intros row' [->|Hr]%elem_of_cons; [by destruct a0|by apply Hv].
Qed.

Lemma seqZ_take a m k : 0 <= k -> ztake k (seqZ a m) = seqZ a (Z.min k m).
Proof.
  intros Hk. apply list_eq. intros i. unfold ztake. destruct (decide (i < Z.to_nat k)%nat).
  - rewrite lookup_take_lt by done. destruct (decide (Z.of_nat i < m)).
    + rewrite !lookup_seqZ_lt by lia. done.
    + rewrite !lookup_seqZ_ge by lia. done.
  - rewrite lookup_take_ge by lia. rewrite lookup_seqZ_ge by lia. done.
Qed.

Lemma segments_numbers d f sz n marker :
  manifest_ok d f sz n -> 0 <= marker ->
  (fun s => sg_index s + 1) <$> zdrop marker (file_segments d f) = seqZ (marker + 1) (n - marker).
Proof.
  intros Hm Hk. apply list_eq. intros i. unfold zdrop. rewrite list_lookup_fmap, lookup_drop.
  pose proof (segments_length _ _ _ _ Hm) as Hlen. unfold zlen in Hlen.
  destruct (file_segments d f !! (Z.to_nat marker + i)%nat) as [s|] eqn:Hs; cbn.
  - rewrite (segment_index _ _ _ _ Hm _ _ Hs). apply lookup_lt_Some in Hs.
    rewrite lookup_seqZ_lt by lia. f_equal. lia.
  - apply lookup_ge_None in Hs. by rewrite lookup_seqZ_ge by lia.
Qed.

(** The rows of a page, each as a single lookup reads it. *)
Lemma read_page_ok w f sz n sm marker limit parts w' :
  manifest_schema (db w) -> validateCompletedManifest f sz w = (Ok sm, w) -> isMultipart sm = true ->
  partsCount sm = n -> manifest_ok (db w) f sz n -> 0 <= marker -> 0 <= limit ->
  readCompletedPartPage f sz n marker limit w = (Ok parts, w') ->
  w' = w /\ scPartNumber <$> parts = seqZ (marker + 1) (Z.min limit (n - marker)) /\
  forall p, p ∈ parts -> StatS3ObjectPart f sz (scPartNumber p) w = (Ok p, w).
Proof.
  intros Hd Hv Hmp En Hm Hmk Hlim Hrun. unfold readCompletedPartPage in Hrun. step_ok Hrun.
  change (id (db w)) with (db w) in Hrun. cbv zeta in Hrun.
  rewrite (segments_after _ Hd f sz n Hm marker Hmk) in Hrun.
  destruct (part_rows_ok (db w) f sz n Hm (zdrop marker (file_segments (db w) f))) as [Hfst Hone].
  { intros s (i & Hi)%list_elem_of_lookup. unfold zdrop in Hi. rewrite lookup_drop in Hi.
    by apply list_elem_of_lookup_2 in Hi. }
  set (rows := part_rows _ _) in *. apply scan_loop in Hrun as (-> & -> & Hval). split; [done|]. split.
  - rewrite app_nil_l, <- list_fmap_compose. rewrite <- (seqZ_take _ _ limit) by done.
    rewrite <- (segments_numbers _ _ _ _ marker Hm Hmk), <- Hfst. unfold ztake.
    rewrite <- !fmap_take, <- list_fmap_compose. done.
  - intros p Hp. rewrite app_nil_l in Hp. apply list_elem_of_fmap in Hp as ([s c] & -> & Hrow).
    assert ((s, c) ∈ rows) as Hin.
    { apply list_elem_of_lookup in Hrow as [i Hi]. unfold ztake in Hi. apply lookup_take_Some in Hi as [Hi _].
      by apply list_elem_of_lookup_2 in Hi. }
    assert (s ∈ zdrop marker (file_segments (db w) f)) as Hs.
    { rewrite <- Hfst. change s with (s, c).1. by apply list_elem_of_fmap_2. }
    apply list_elem_of_lookup in Hs as [i Hi]. unfold zdrop in Hi. rewrite lookup_drop in Hi.
    change (scPartNumber (scan_part (db w) f n (s, c))) with (sg_index s + 1).
    rewrite (segment_index _ _ _ _ Hm _ _ Hi).
    apply (stat_part_eq w f sz n sm _ s c Hd Hv Hmp En Hm Hi (Hone _ Hin) (Hval _ Hrow)).
Qed.

Lemma last_number (l : list S3CompletedPart) a m p :
  scPartNumber <$> l = seqZ a m -> last l = Some p -> scPartNumber p = a + m - 1.
Proof.
  intros E [l' ->]%last_Some. rewrite fmap_app in E.
  pose proof (f_equal length E) as El. rewrite length_app, length_fmap, length_seqZ in El. cbn in El.
  pose proof (f_equal (.!! length l') E) as Ep. cbn in Ep.
  rewrite lookup_app_r in Ep by (by rewrite length_fmap).
  rewrite length_fmap, Nat.sub_diag, lookup_seqZ_lt in Ep by lia. injection Ep as ->. lia.
Qed.

(** A page of the parts of a multipart object holds the parts that follow the
    marker, in order and without a gap, [maxParts] of them or all that are left; it is
    truncated exactly when parts are left, and its next marker is then where the next
    page goes on; every part of it is what a lookup of that part number gives. *)
Theorem list_parts_page f sz marker maxParts w page w' :
  manifest_schema (db w) -> ListS3ObjectParts f sz marker maxParts w = (Ok page, w') ->
  pgIsMultipart page = true -> 0 < maxParts ->
  w' = w /\ let rest := pgPartsCount page - marker in
  scPartNumber <$> pgParts page = seqZ (marker + 1) (Z.min maxParts rest) /\
  pgIsTruncated page = (maxParts <? rest) /\
  pgNextPartNumberMarker page = (if maxParts <? rest then marker + maxParts else 0) /\
  forall p, p ∈ pgParts page -> StatS3ObjectPart f sz (scPartNumber p) w = (Ok p, w).
Proof.
  intros Hd Hrun Hmp Hmax. unfold ListS3ObjectParts in Hrun. step_ok Hrun.
  rewrite !orb_false_iff in Hrun0. destruct Hrun0 as [[[Hmk%Z.ltb_ge _] _] _].
  apply bind_ok_inv in Hrun as (sm & w1 & R1 & Hrun). pose proof R1 as R2.
  apply validate_ok in R2 as (-> & fr & _ & _ & _ & Hsm); [|done]. cbv zeta in Hrun.
  destruct (isMultipart sm) eqn:Em; cbn [negb orb] in Hrun.
  2: { injection Hrun as <- _. done. }
  destruct Hsm as [(_ & ? & _)|(_ & _ & Hm)]; [done|].
  destruct (Z.eqb_spec maxParts 0); [lia|].
  apply bind_ok_inv in Hrun as (parts & w1 & R3 & Hrun).
  apply (read_page_ok w f sz _ sm marker (maxParts + 1)) in R3 as (-> & Hnum & Hstat); try done; [|lia].
  assert (zlen parts = Z.max 0 (Z.min (maxParts + 1) (partsCount sm - marker))) as Hlen.
  { pose proof (f_equal length Hnum) as E. rewrite length_fmap, length_seqZ in E. unfold zlen. lia. }
  destruct (Z.ltb_spec maxParts (zlen parts)) as [Hlt|Hge].
  - destruct (last (ztake maxParts parts)) as [p|] eqn:Elast; [|done]. injection Hrun as <- <-. cbn.
    assert (scPartNumber <$> ztake maxParts parts = seqZ (marker + 1) maxParts) as Htake.
    { unfold ztake. rewrite fmap_take, Hnum. change (take (Z.to_nat maxParts)) with (@ztake Z maxParts).
      rewrite seqZ_take by lia. f_equal. lia. }
    rewrite (proj2 (Z.ltb_lt maxParts _)) by lia. rewrite Z.min_l by lia.
    rewrite (last_number _ _ _ _ Htake Elast). split_and!; try done; [lia|].
    intros q Hq. apply Hstat. unfold ztake in Hq. rewrite <- (take_drop (Z.to_nat maxParts) parts).
    apply elem_of_app. by left.
  - injection Hrun as <- <-. cbn. rewrite (proj2 (Z.ltb_ge maxParts _)) by lia.
    split_and!; try done. rewrite Hnum. f_equal. lia.
Qed.
End Listing.

(** ** Runs *)
Section Demo.
#[local] Existing Instances DirTheorems.demo_env DirTheorems.demo_ids UploadProofs.demo_codec.
#[local] Existing Instances MultipartTheorems.demo_sha MultipartTheorems.demo_mime.

Definition demo_done : World := (CompleteMultipartUpload 100 demo_request demo_upload).2.

Definition schema_check (d : DB) : bool :=
  bool_decide (NoDup (f_file_id <$> t_file d)) &&
  bool_decide (NoDup ((fun s => (sg_file_id s, sg_index s)) <$> t_segment d)) &&
  bool_decide (NoDup ((fun c => (cp_file_id c, cp_number c)) <$> t_completed d)) &&
  forallb (fun s => 0 <=? sg_size s) (t_segment d).

Lemma schema_check_ok d : schema_check d = true -> manifest_schema d.
Proof.
  unfold schema_check. rewrite !andb_true_iff, !bool_decide_eq_true. intros [[[H1 H2] H3] H4]. split; try done.
  intros s Hs. rewrite forallb_forall in H4. by apply Z.leb_le, H4, list_elem_of_In.
Qed.

Lemma demo_schema : manifest_schema (db demo_done).
Proof. apply schema_check_ok. vm_compute. reflexivity. Qed.

Lemma demo_stat : exists part w', StatS3ObjectPart 3 5242884 2 demo_done = (Ok part, w') /\
  scIsMultipart part = true /\ scStartOffset part = 5242880 /\ scPartSize part = 4.
Proof.
  assert ((fun p => (scIsMultipart p, scStartOffset p, scPartSize p)) <$>
    match (StatS3ObjectPart 3 5242884 2 demo_done).1 with Ok p => Some p | Err _ => None end =
    Some (true, 5242880, 4)) as E by (vm_compute; reflexivity).
  revert E. generalize demo_done. intros w E. destruct (StatS3ObjectPart 3 5242884 2 w) as [[part|e] w']; [|done].
  exists part, w'. cbn in E. injection E as E1 E2 E3. done.
Qed.

Lemma stat_part_is_range_witness : exists cs seg,
  FileManager.OpenFile 3 demo_done = (Ok (FileManager.CompositeFile cs), demo_done) /\
  Composite.segments cs !! 1%nat = Some seg /\ Composite.start seg = 5242880 /\ Composite.size seg = 4.
Proof.
  destruct demo_stat as (part & w' & Hrun & Hmp & E1 & E2). pose proof demo_schema as Hd.
  revert Hrun Hd. generalize demo_done. intros w Hrun Hd.
  destruct (stat_part_is_range (FileStream.demo_store []) (fun _ _ => Err ErrOther) 3 5242884 2 w part w' Hd Hrun Hmp)
    as (_ & cs & seg & Ho & Hs & _ & Ez & Est & _).
  exists cs, seg. split; [exact Ho|]. split; [exact Hs|]. split; [by rewrite Est|by rewrite Ez].
Defined.

Lemma demo_list : exists page w', ListS3ObjectParts 3 5242884 0 1 demo_done = (Ok page, w') /\
  pgIsMultipart page = true /\ pgPartsCount page = 2.
Proof.
  assert ((fun p => (pgIsMultipart p, pgPartsCount p)) <$>
    match (ListS3ObjectParts 3 5242884 0 1 demo_done).1 with Ok p => Some p | Err _ => None end =
    Some (true, 2)) as E by (vm_compute; reflexivity).
  revert E. generalize demo_done. intros w E. destruct (ListS3ObjectParts 3 5242884 0 1 w) as [[page|e] w']; [|done].
  exists page, w'. cbn in E. injection E as E1 E2. done.
Qed.

Lemma list_parts_page_witness : exists page,
  (ListS3ObjectParts 3 5242884 0 1 demo_done).1 = Ok page /\
  scPartNumber <$> pgParts page = [1] /\ pgIsTruncated page = true /\ pgNextPartNumberMarker page = 1.
Proof.
  destruct demo_list as (page & w' & Hrun & Hmp & En). pose proof demo_schema as Hd.
  revert Hrun Hd. generalize demo_done. intros w Hrun Hd.
  destruct (list_parts_page 3 5242884 0 1 w page w' Hd Hrun Hmp ltac:(lia)) as (_ & Hnum & Htr & Hnext & _).
  rewrite En in Hnum, Htr, Hnext. exists page. rewrite Hrun. split; [reflexivity|].
  split; [exact Hnum|]. split; [exact Htr|exact Hnext].
Defined.
End Demo.
