(* ===== verification/PurgeSafety.v ===== *)
(** * Purging unreferenced files

    [PurgeFile] removes rows of files and parts. It leaves every file that has a delete
    state, and so every file with a block, and every file of a composite; what is left of
    the tables keeps the invariant of RefInv.v. *)

From stdpp Require Import base strings list gmap.
From S2P Require Import Prelude GoStr Store Directory References RefInv Dao FileManager UploadProofs LinkSafety.
Import References.

Lemma preserves_batch_loop {S A R} (I : S -> Prop) (page : Z -> M S (list R * Z)) (cb : A -> list R -> M S (bool * A))
    batch fuel lastid acc :
  (forall i, preserves I (page i)) -> (forall a l, preserves I (cb a l)) ->
  preserves I (batch_loop page cb batch fuel lastid acc).
Proof.
  intros Hp Hc. revert lastid acc. induction fuel as [|fuel IH]; intros; cbn [batch_loop]; [apply preserves_fail|].
  apply preserves_bind; [apply Hp|intros rs]. apply preserves_bind; [apply Hc|intros r].
  destruct (negb r.1); [apply preserves_ret|]. destruct (Nat.ltb _ _); [apply preserves_ret|apply IH].
Qed.

(** Rows of files went, and nothing else: of files without delete states that are in no
    composite. *)
Record purged (d d' : DB) : Prop := {
  pg_tables : d' = set_file (fun _ => t_file d') d;
  pg_rows : sublist (t_file d') (t_file d);
  pg_gone : forall r, r ∈ t_file d -> r ∈ t_file d' \/
    (forall q, q ∈ t_delete d -> d_file_id q <> f_file_id r) /\
    (forall s, s ∈ t_segment d -> sg_file_id s <> f_file_id r /\ sg_source s <> f_file_id r) }.

Lemma purged_refl d : purged d d.
Proof. split; [by destruct d|done|by left]. Qed.

Lemma purged_inv d d' : purged d d' -> file_inv d -> file_inv d'.
Proof.
  intros [E Hsub Hgone] [[Hids Hrange Hsf Hss Hk Hq Hdp Hu Hmu] Hsafe]. rewrite E. split.
  - split; cbn; try done.
    + eapply sublist_NoDup; [exact Hids|by apply fmap_sublist].
    + intros r Hr. apply Hrange. by eapply elem_of_sublist.
    + intros s Hs. destruct (Hsf s Hs) as (r & Hr & Er & L). exists r. split; [|done].
      destruct (Hgone r Hr) as [|[_ Hn]]; [done|]. by destruct (Hn s Hs).
    + intros s Hs. destruct (Hss s Hs) as (r & Hr & Er & L). exists r. split; [|done].
      destruct (Hgone r Hr) as [|[_ Hn]]; [done|]. by destruct (Hn s Hs).
    + intros q Hqin Hn. destruct (Hq q Hqin Hn) as (r & Hr & Er & L). exists r. split; [|done].
      destruct (Hgone r Hr) as [|[Hnq _]]; [done|]. by destruct (Hnq q Hqin).
  - intros f Hf. apply (Hsafe f). revert Hf. by apply referenced_same.
Qed.

Section Purge.
Context `{!Env}.
Import FileManager.

(** The scan reads only, and what it finds is in no composite. *)
Lemma readUnRef_same limit d : preserves (fun w => db w = d) (readUnRefFileIdList limit).
Proof.
  unfold readUnRefFileIdList, FileDao.ScanFile, FileMappingDao.ScanFileLink, Directory.Scan.
  repeat (first [apply preserves_bind; [|intros ?] | apply preserves_batch_loop; [intros ?|intros ? ?]
    | apply preserves_ret | apply preserves_check | apply preserves_lift | apply preserves_fail
    | case_bool_decide | by intros w]).
Qed.

Lemma readUnRef_free limit w l w' f : readUnRefFileIdList limit w = (Ok l, w') -> f ∈ l ->
  forall s, s ∈ t_segment (db w) -> sg_file_id s <> f /\ sg_source s <> f.
Proof.
  assert (forall {A C} (m : M World A) (k : A -> M World C) w c w2,
    preserves (fun w' => db w' = db w) m -> (m ≫= k) w = (Ok c, w2) ->
    exists a w1, db w1 = db w /\ k a w1 = (Ok c, w2)) as Hskip.
  { intros A C m k w0 c w2 Hm Hrun. apply bind_ok_inv in Hrun as (a & w1 & R1 & R2). exists a, w1.
    specialize (Hm w0 eq_refl). rewrite R1 in Hm. done. }
  unfold readUnRefFileIdList, FileDao.ScanFile, FileMappingDao.ScanFileLink, Directory.Scan. intros Hrun Hf.
  apply Hskip in Hrun as (m1 & w1 & E1 & Hrun).
  2: { repeat (first [apply preserves_bind; [|intros ?] | apply preserves_batch_loop; [intros ?|intros ? ?]
        | apply preserves_ret | apply preserves_check | by intros ?]). }
  case_bool_decide; [injection Hrun as <- _; by apply elem_of_nil in Hf|].
  apply Hskip in Hrun as (m2 & w2 & E2 & Hrun).
  2: { repeat (first [apply preserves_bind; [|intros ?] | apply preserves_batch_loop; [intros ?|intros ? ?]
        | apply preserves_ret | apply preserves_check | apply preserves_lift | by intros ?]). }
  case_bool_decide; [injection Hrun as <- _; by apply elem_of_nil in Hf|].
  step_ok Hrun. injection Hrun as <- _. apply elem_of_elements in Hf.
  rewrite !elem_of_difference, !elem_of_list_to_set, E2, E1 in Hf. destruct Hf as [[[_ Hn1] Hn2] _].
  intros s Hs. split; intros <-; [apply Hn1|apply Hn2]; by apply list_elem_of_fmap_2.
Qed.

Lemma delete_none {R} (p : R -> bool) t : (forall r, r ∈ t -> p r = false) -> sql_delete p t = t.
Proof.
  intros Hp. unfold sql_delete. induction t as [|r t IH]; [done|]. cbn. rewrite (Hp r) by left. cbn.
  f_equal. apply IH. intros. apply Hp. by right.
Qed.

(** Every part has a delete state, as in every state of the system. *)
Definition parts_recorded (d : DB) : Prop :=
  forall p, p ∈ t_part d -> exists q, q ∈ t_delete d /\ d_file_id q = p_file_id p.

Lemma clean_purged l n d0 w :
  (forall f, f ∈ l -> forall s, s ∈ t_segment d0 -> sg_file_id s <> f /\ sg_source s <> f) ->
  parts_recorded d0 -> purged d0 (db w) ->
  purged d0 (db (fold_each (fun cleaned fid =>
    hasDeleteState ← fileHasDeleteState fid;
    if (hasDeleteState : bool) then mret cleaned
    else
      _ ← FilePartDao.DeleteFilePart [fid];
      _ ← FileDao.DeleteFile [fid];
      mret (cleaned + 1)) n l w).2).
Proof.
  intros Hl Hrec. revert n w. induction l as [|f l IH]; intros n w Hw; [done|]. cbn [fold_each].
  assert (forall f, f ∈ l -> forall s, s ∈ t_segment d0 -> sg_file_id s <> f /\ sg_source s <> f) as Hl'
    by (intros; apply Hl; [by right|done]).
  destruct (negb (sql_count (fun r => d_file_id r =? f) (t_delete (db w)) =? 0)) eqn:Ex.
  - erewrite bind_ok; [by apply IH|]. unfold fileHasDeleteState. rewrite bind_assoc.
    by rewrite (bind_ok (query _) _ w _ w eq_refl), ret_bind, Ex.
  - erewrite bind_ok; [apply (IH Hl')|].
    2: { unfold fileHasDeleteState. by rewrite bind_assoc, (bind_ok (query _) _ w _ w eq_refl), ret_bind, Ex. }
    destruct Hw as [E Hsub Hgone]. cbn [db set_file set_part].
    assert (forall q, q ∈ t_delete d0 -> d_file_id q <> f) as Hq.
    { intros q Hq. rewrite E in Ex. cbn in Ex. intros Ef. apply not_true_iff_false in Ex. apply Ex, sql_count_pos.
      exists q. by rewrite Z.eqb_eq. }
    assert (sql_delete (fun r => bool_decide (p_file_id r ∈ [f])) (t_part (db w)) = t_part (db w)) as Ep.
    { apply delete_none. intros p Hp. apply bool_decide_eq_false_2. intros Ef%list_elem_of_singleton.
      rewrite E in Hp. destruct (Hrec p Hp) as (q & Hin & Eq). by apply (Hq q Hin); rewrite Eq. }
    split; cbn.
    + unfold set_file, set_part. cbn. rewrite Ep. rewrite E at 1. by rewrite E.
    + etrans; [apply filter_sublist|done].
    + intros r Hr. destruct (Hgone r Hr) as [Hin|]; [|by right].
      destruct (decide (f_file_id r = f)) as [Ef|Hne].
      * right. rewrite Ef. split; [done|]. apply Hl. by left.
      * left. apply sql_delete_elem. split; [done|]. apply bool_decide_eq_false_2. by rewrite list_elem_of_singleton.
Qed.

Lemma PurgeFile_purged before w : parts_recorded (db w) -> purged (db w) (db (PurgeFile before w).2).
Proof.
  intros Hrec. unfold PurgeFile. set (w0 := {| db := db w; ticks := S (ticks w); ids := ids w |}).
  rewrite (bind_ok now _ w (clk (ticks w)) w0 eq_refl).
  set (limit := default _ before). pose proof (readUnRef_same limit (db w) w0 eq_refl) as E.
  unfold mbind, M_bind. destruct (readUnRefFileIdList limit w0) as [[l|e] w1] eqn:Hr; cbn in E; cbn [snd].
  - apply clean_purged; [|done|rewrite E; apply purged_refl].
    intros f Hf. by apply (readUnRef_free _ _ _ _ _ Hr Hf).
  - rewrite E. apply purged_refl.
Qed.
End Purge.
