(* ===== verification/System.v ===== *)
(** * The running system: clients, uploads and the delete worker interleaved

    Requests and the delete worker run at the same time over one database and one
    block store. Each transaction and each call of the block store is one step, and so is
    a purge of unreferenced files, which is no transaction; any number of uploads and claimed deletions may be under way between them. The code
    of FileManager.v and DeleteWorker.v runs as sequences of such steps. *)

From stdpp Require Import base strings list gmap relations.
From S2P Require Import Prelude GoStr Crc BlockIO FileStream CompositeStream Store Directory.
From S2P Require Import DirFrame DirTheorems References RefInv DeleteWorker WorkerProofs Dao.
From S2P Require Import Mutation S3Object FileManager UploadProofs LinkSafety WebDAV WebDAVSafety Multipart MultipartSafety.
From S2P Require Import BackupFmt BackupExport BackupImport BackupSafety PurgeSafety.
Import References.

(** The transactions of clients. *)
Inductive client_op :=
  | OpCreateFileLink (link : string) (fileid size : Z) (isDir : bool)
  | OpRemoveFileLink (link : string)
  | OpRenameFileLink (source destination : string) (overwrite : bool)
  | OpCopyFileLink (source destination : string) (overwrite : bool)
  | OpPublishS3Object (path : string) (fileid size : Z) (metadata : s3meta_row)
      (condition : option S3Object.S3Condition)
  | OpCopyS3Object (source destination : string) (metadata : option s3meta_row)
      (sourceCondition destinationCondition : option S3Object.S3Condition)
  | OpDeleteS3Object (path : string) (condition : option S3Object.S3Condition)
  | OpCreateFileDraft (size parts : Z)
  | OpFinishFileCreate (fileid : Z)
  | OpDiscardUnpublishedFile (fileid : Z)
  | OpCreateMultipartUpload (randoms : nat -> outcome (list Z)) (request : Multipart.CreateMultipartRequest)
  | OpPrepareMultipartPart (uploadID bucket key : string)
  | OpPutMultipartPart (blockSize : Z) (request : Multipart.PutMultipartPartRequest)
  | OpListMultipartParts (uploadID bucket key : string) (marker maxParts : Z)
  | OpCompleteMultipartUpload (blockSize : Z) (request : Multipart.CompleteMultipartRequest)
  | OpAbortMultipartUpload (uploadID bucket key : string)
  | OpMultipartCleanup
  | OpCleanupExpiredWebDAVLocks
  | OpCreateWebDAVCollection (path : string) (options : WebDAV.WebDAVMutationOptions)
  | OpPublishWebDAVFile (path : string) (fileid size : Z) (options : WebDAV.WebDAVMutationOptions)
  | OpDeleteWebDAVResource (path : string) (options : WebDAV.WebDAVMutationOptions)
  | OpCopyWebDAVResource (source destination : string) (overwrite recursive : bool)
      (options : WebDAV.WebDAVMutationOptions)
  | OpMoveWebDAVResource (source destination : string) (overwrite : bool)
      (options : WebDAV.WebDAVMutationOptions)
  | OpPatchWebDAVProperties (path : string) (patches : list WebDAV.WebDAVPropertyPatch)
      (options : WebDAV.WebDAVMutationOptions)
  | OpRefreshWebDAVLock (path token principal : string) (timeout : Z)
      (ifHeader : option (list WebDAV.WebDAVIfList))
  | OpUnlockWebDAVResource (path token principal : string)
  | OpCreateBackupSnapshot (maxPart : Z) (request : BackupExport.BackupSnapshotRequest) (manifest : BackupFmt.Manifest)
  | OpReleaseBackupSnapshot (jobID : string)
  | OpBeginBackupImport (jobID : string) (manifest : BackupFmt.Manifest)
  | OpAdvanceBackupPart (jobID : string) (staged : BackupImport.stagedBackupPart)
  | OpPublishBackupImport (jobID : string) (manifest : BackupFmt.Manifest) (conflictPolicy : string)
  | OpDiscardBackupImport (jobID : string).

(** The state: what is committed and stored, the blocks that are uploaded but not
    recorded yet, the references to give back because recording them failed, and
    every deletion claimed so far: a claimed deletion may be carried out at any
    later time, any number of times. *)
Record Sys (B : Type) := {
  sys_world : World; sys_store : B;
  sys_uploaded : list FilePartDao.CreateFilePartRequest;
  sys_dropped : list string;
  sys_claimed : list DeleteWorker.blockDeleteWork }.
Arguments sys_world {B}. Arguments sys_store {B}. Arguments sys_uploaded {B}.
Arguments sys_dropped {B}. Arguments sys_claimed {B}.

Section System.
Context `{!Env} `{!S3Object.MimeTypes} `{!FileCodec} `{!Sha} {B : Type} `{!IBlockIO B}.

Definition run_op (op : client_op) (w : World) : World :=
  match op with
  | OpCreateFileLink l f z b => (Mutation.CreateFileLink l f z b w).2
  | OpRemoveFileLink l => (Mutation.RemoveFileLink l w).2
  | OpRenameFileLink s d o => (Mutation.RenameFileLink s d o w).2
  | OpCopyFileLink s d o => (Mutation.CopyFileLink s d o w).2
  | OpPublishS3Object p f z m c => (S3Object.PublishS3Object p f z m c w).2
  | OpCopyS3Object s d m c1 c2 => (S3Object.CopyS3Object s d m c1 c2 w).2
  | OpDeleteS3Object p c => (S3Object.DeleteS3Object p c w).2
  | OpCreateFileDraft z n => (FileDao.CreateFileDraft z n w).2
  | OpFinishFileCreate f => (FileManager.FinishFileCreate f w).2
  | OpDiscardUnpublishedFile f => (DiscardUnpublishedFile f w).2
  | OpCreateMultipartUpload rs rq => (Multipart.CreateMultipartUpload rs rq w).2
  | OpPrepareMultipartPart id b k => (Multipart.PrepareMultipartPart id b k w).2
  | OpPutMultipartPart bs rq => (Multipart.PutMultipartPart bs rq w).2
  | OpListMultipartParts id b k m n => (Multipart.ListMultipartParts id b k m n w).2
  | OpCompleteMultipartUpload bs rq => (Multipart.CompleteMultipartUpload bs rq w).2
  | OpAbortMultipartUpload id b k => (Multipart.AbortMultipartUpload id b k w).2
  | OpMultipartCleanup => (Multipart.runMultipartCleanupPass w).2
  | OpCleanupExpiredWebDAVLocks => (WebDAV.cleanupExpiredWebDAVLocks w).2
  | OpCreateWebDAVCollection p o => (OnTransation (WebDAV.createWebDAVCollectionTx p o) w).2
  | OpPublishWebDAVFile p f z o => (OnTransation (WebDAV.publishWebDAVFileTx p f z o) w).2
  | OpDeleteWebDAVResource p o => (OnTransation (WebDAV.deleteWebDAVResourceTx p o) w).2
  | OpCopyWebDAVResource s d ov r o => (OnTransation (WebDAV.copyWebDAVResourceTx s d ov r o) w).2
  | OpMoveWebDAVResource s d ov o => (OnTransation (WebDAV.moveWebDAVResourceTx s d ov o) w).2
  | OpPatchWebDAVProperties p l o => (OnTransation (WebDAV.patchWebDAVPropertiesTx p l o) w).2
  | OpRefreshWebDAVLock p t u n h => (OnTransation (WebDAV.refreshWebDAVLockTx p t u n h) w).2
  | OpUnlockWebDAVResource p t u => (OnTransation (WebDAV.unlockWebDAVResourceTx p t u) w).2
  | OpCreateBackupSnapshot mp rq m => (OnTransation (BackupExport.populateBackupSnapshotTx mp rq m) w).2
  | OpReleaseBackupSnapshot j => (BackupExport.ReleaseBackupSnapshot j w).2
  | OpBeginBackupImport j m => (BackupImport.BeginBackupImport j m w).2
  | OpAdvanceBackupPart j st => (BackupImport.advanceBackupPartCursor j st w).2
  | OpPublishBackupImport j m c => (OnTransation (BackupImport.publish j m c) w).2
  | OpDiscardBackupImport j => (BackupImport.DiscardBackupImport j w).2
  end.

Inductive step : Sys B -> Sys B -> Prop :=
  (** a client's transaction, committed or rolled back *)
  | step_op op w b up dr cl : step
      {| sys_world := w; sys_store := b; sys_uploaded := up; sys_dropped := dr; sys_claimed := cl |}
      {| sys_world := run_op op w; sys_store := b; sys_uploaded := up; sys_dropped := dr; sys_claimed := cl |}
  (** files that nobody references are purged; nothing runs between the queries of a purge *)
  | step_purge before w b up dr cl : step
      {| sys_world := w; sys_store := b; sys_uploaded := up; sys_dropped := dr; sys_claimed := cl |}
      {| sys_world := (FileManager.PurgeFile before w).2; sys_store := b; sys_uploaded := up; sys_dropped := dr;
         sys_claimed := cl |}
  (** the transaction of a LOCK, with the file made for it or none *)
  | step_lock uuid request fileid w b up dr cl : lock_file (db w) fileid -> step
      {| sys_world := w; sys_store := b; sys_uploaded := up; sys_dropped := dr; sys_claimed := cl |}
      {| sys_world := (OnTransation (WebDAV.lockWebDAVResourceTx uuid request fileid) w).2; sys_store := b;
         sys_uploaded := up; sys_dropped := dr; sys_claimed := cl |}
  (** [Upload] in [CreateFilePart] succeeds; the block will be recorded as [req] *)
  | step_upload src res n req w b b' up dr cl :
      Forall is_byte (src_data src) -> Upload src b = (Ok res, n, b') ->
      FilePartDao.ReqFileKey req = FileKey res -> FilePartDao.ReqDeleteRef req = DeleteRef res -> step
      {| sys_world := w; sys_store := b; sys_uploaded := up; sys_dropped := dr; sys_claimed := cl |}
      {| sys_world := w; sys_store := b'; sys_uploaded := req :: up; sys_dropped := dr; sys_claimed := cl |}
  (** it fails *)
  | step_upload_err src e n w b b' up dr cl :
      Forall is_byte (src_data src) -> Upload src b = (Err e, n, b') -> step
      {| sys_world := w; sys_store := b; sys_uploaded := up; sys_dropped := dr; sys_claimed := cl |}
      {| sys_world := w; sys_store := b'; sys_uploaded := up; sys_dropped := dr; sys_claimed := cl |}
  (** the part is recorded *)
  | step_record req w w' b up1 up2 dr cl :
      FilePartDao.CreateFilePart req w = (Ok tt, w') -> step
      {| sys_world := w; sys_store := b; sys_uploaded := up1 ++ req :: up2; sys_dropped := dr; sys_claimed := cl |}
      {| sys_world := w'; sys_store := b; sys_uploaded := up1 ++ up2; sys_dropped := dr; sys_claimed := cl |}
  (** or the database refuses it, and the block will be given back *)
  | step_record_err req e w w' b up1 up2 dr cl :
      FilePartDao.CreateFilePart req w = (Err e, w') -> step
      {| sys_world := w; sys_store := b; sys_uploaded := up1 ++ req :: up2; sys_dropped := dr; sys_claimed := cl |}
      {| sys_world := w'; sys_store := b; sys_uploaded := up1 ++ up2;
         sys_dropped := FilePartDao.ReqDeleteRef req :: dr; sys_claimed := cl |}
  (** a part of an import is recorded *)
  | step_stage backend job staged req w w' b up1 up2 dr cl :
      FilePartDao.ReqFileKey req = BackupImport.st_fileKey staged ->
      FilePartDao.ReqDeleteRef req = BackupImport.st_deleteRef staged ->
      BackupImport.persistBackupPart backend job staged w = (Ok tt, w') -> step
      {| sys_world := w; sys_store := b; sys_uploaded := up1 ++ req :: up2; sys_dropped := dr; sys_claimed := cl |}
      {| sys_world := w'; sys_store := b; sys_uploaded := up1 ++ up2; sys_dropped := dr; sys_claimed := cl |}
  (** or refused, and nothing changes *)
  | step_stage_err backend job staged e w w' b up dr cl :
      BackupImport.persistBackupPart backend job staged w = (Err e, w') -> step
      {| sys_world := w; sys_store := b; sys_uploaded := up; sys_dropped := dr; sys_claimed := cl |}
      {| sys_world := w'; sys_store := b; sys_uploaded := up; sys_dropped := dr; sys_claimed := cl |}
  (** then it is recorded as a block to delete, of a physical draft that nobody references *)
  | step_compensate backend staged req w w' b up1 up2 dr cl :
      FilePartDao.ReqFileKey req = BackupImport.st_fileKey staged ->
      FilePartDao.ReqDeleteRef req = BackupImport.st_deleteRef staged ->
      ~ referenced (db w) (BackupImport.st_targetID staged) ->
      (exists r, r ∈ t_file (db w) /\ f_file_id r = BackupImport.st_targetID staged /\ f_layout r = 1) ->
      BackupImport.persistBackupCompensationRecord backend staged w = (Ok tt, w') -> step
      {| sys_world := w; sys_store := b; sys_uploaded := up1 ++ req :: up2; sys_dropped := dr; sys_claimed := cl |}
      {| sys_world := w'; sys_store := b; sys_uploaded := up1 ++ up2; sys_dropped := dr; sys_claimed := cl |}
  (** or given back *)
  | step_compensate_err backend staged req e w w' b up1 up2 dr cl :
      FilePartDao.ReqDeleteRef req = BackupImport.st_deleteRef staged ->
      BackupImport.persistBackupCompensationRecord backend staged w = (Err e, w') -> step
      {| sys_world := w; sys_store := b; sys_uploaded := up1 ++ req :: up2; sys_dropped := dr; sys_claimed := cl |}
      {| sys_world := w'; sys_store := b; sys_uploaded := up1 ++ up2;
         sys_dropped := FilePartDao.ReqDeleteRef req :: dr; sys_claimed := cl |}
  (** the files of an import are finished *)
  | step_finish_import job manifest w b up dr cl :
      import_of (db w) job manifest -> step
      {| sys_world := w; sys_store := b; sys_uploaded := up; sys_dropped := dr; sys_claimed := cl |}
      {| sys_world := (BackupImport.FinishBackupImportFiles job manifest w).2; sys_store := b; sys_uploaded := up;
         sys_dropped := dr; sys_claimed := cl |}
  | step_drop ref res w b b' up dr cl :
      ref ∈ dr -> DeleteBlocks [ref] b = (res, b') -> step
      {| sys_world := w; sys_store := b; sys_uploaded := up; sys_dropped := dr; sys_claimed := cl |}
      {| sys_world := w; sys_store := b'; sys_uploaded := up; sys_dropped := dr; sys_claimed := cl |}
  (** the worker claims blocks *)
  | step_claim backend now w w' res b up dr cl :
      DeleteWorker.claimBlockDeleteWork backend now w = (res, w') -> step
      {| sys_world := w; sys_store := b; sys_uploaded := up; sys_dropped := dr; sys_claimed := cl |}
      {| sys_world := w'; sys_store := b; sys_uploaded := up; sys_dropped := dr;
         sys_claimed := match res with Ok works => works | Err _ => [] end ++ cl |}
  (** deletes claimed blocks *)
  | step_delete works res w b b' up dr cl :
      works ⊆ cl -> DeleteBlocks (map DeleteWorker.deleteRef works) b = (res, b') -> step
      {| sys_world := w; sys_store := b; sys_uploaded := up; sys_dropped := dr; sys_claimed := cl |}
      {| sys_world := w; sys_store := b'; sys_uploaded := up; sys_dropped := dr; sys_claimed := cl |}
  (** and settles their states *)
  | step_finish works st code next now w b up dr cl :
      st <> DsLive -> step
      {| sys_world := w; sys_store := b; sys_uploaded := up; sys_dropped := dr; sys_claimed := cl |}
      {| sys_world := (DeleteWorker.finishBlockDeleteWork works st code next now w).2; sys_store := b;
         sys_uploaded := up; sys_dropped := dr; sys_claimed := cl |}.

Definition ids_positive : Prop := forall n, 0 < idfn n.

(** ** The invariant *)
Context `{!BlockStore B}.

Definition part_of (p : part_row) (q : delete_row) : Prop :=
  d_file_id q = p_file_id p /\ d_part_id q = p_part_id p.

Definition recorded (d : DB) (up : list FilePartDao.CreateFilePartRequest) : list string :=
  (d_ref <$> t_delete d) ++ (FilePartDao.ReqDeleteRef <$> up).

(** Every recorded or uploaded block has a delete reference of its own, which is
    neither about to be dropped nor, while the block is live, claimed for deletion. *)
Record sys_inv (s : Sys B) : Prop := {
  si_files : file_inv (db (sys_world s));
  si_store : bs_inv (sys_store s);
  si_inj : forall r1 r2 k, bs_ref_key (sys_store s) r1 = Some k ->
    bs_ref_key (sys_store s) r2 = Some k -> r1 = r2;
  si_nodup : NoDup (recorded (db (sys_world s)) (sys_uploaded s));
  si_issued : forall r, r ∈ recorded (db (sys_world s)) (sys_uploaded s) \/ r ∈ sys_dropped s ->
    is_Some (bs_ref_key (sys_store s) r);
  si_uploaded : forall req, req ∈ sys_uploaded s ->
    bs_ref_key (sys_store s) (FilePartDao.ReqDeleteRef req) = Some (FilePartDao.ReqFileKey req);
  si_parts : forall p, p ∈ t_part (db (sys_world s)) -> exists q,
    q ∈ t_delete (db (sys_world s)) /\ part_of p q /\
    bs_ref_key (sys_store s) (d_ref q) = Some (p_key p);
  si_dropped : forall r, r ∈ sys_dropped s -> r ∉ recorded (db (sys_world s)) (sys_uploaded s);
  si_claimed : forall c, c ∈ sys_claimed s -> exists q,
    q ∈ t_delete (db (sys_world s)) /\ d_ref q = DeleteWorker.deleteRef c /\ d_state q <> DsLive }.

(** What no step takes away: the parts, their delete states, the files that have such
    states, and the blocks of the states that stay live. *)
Record sys_kept (s s' : Sys B) : Prop := {
  sk_block_size : MaxFileSize (sys_store s') = MaxFileSize (sys_store s);
  sk_files : forall r q, r ∈ t_file (db (sys_world s)) -> q ∈ t_delete (db (sys_world s)) ->
    d_file_id q = f_file_id r -> file_shape r ∈ shapes (db (sys_world s'));
  sk_parts : part_shapes (db (sys_world s)) `prefix_of` part_shapes (db (sys_world s'));
  sk_rows : forall q, q ∈ t_delete (db (sys_world s)) -> exists q',
    q' ∈ t_delete (db (sys_world s')) /\ row_kept q q' /\
    bs_ref_key (sys_store s') (d_ref q) = bs_ref_key (sys_store s) (d_ref q) /\
    (d_state q' = DsLive -> forall k, bs_ref_key (sys_store s) (d_ref q) = Some k ->
       is_Some (bs_block (sys_store s) k) -> bs_block (sys_store s') k = bs_block (sys_store s) k) }.

Lemma sys_kept_refl s : sys_kept s s.
Proof.
  split; [done|by intros; apply list_elem_of_fmap_2|done|]. intros q Hq. by exists q.
Qed.

Lemma shapes_kept d d' r : shapes d `prefix_of` shapes d' -> r ∈ t_file d -> file_shape r ∈ shapes d'.
Proof. intros [l ->] Hr. apply elem_of_app. left. by apply list_elem_of_fmap_2. Qed.

Lemma sys_kept_trans s1 s2 s3 : sys_kept s1 s2 -> sys_kept s2 s3 -> sys_kept s1 s3.
Proof.
  intros [M1 F1 P1 K1] [M2 F2 P2 K2]. split; [congruence| |by etrans|].
  { intros r q Hr Hq E. destruct (K1 q Hq) as (q2 & Hq2 & (Ef & _) & _).
    pose proof (F1 r q Hr Hq E) as (r2 & Es & Hr2)%list_elem_of_fmap. rewrite Es. injection Es as Ei _ _.
    apply (F2 r2 q2 Hr2 Hq2). congruence. }
  intros q Hq. destruct (K1 q Hq) as (q2 & Hq2 & (Ef & Ep & Er & Hn) & Ek & Hb).
  destruct (K2 q2 Hq2) as (q3 & Hq3 & (Ef' & Ep' & Er' & Hn') & Ek' & Hb').
  exists q3. split; [done|]. split; [split_and!; [congruence..|auto]|].
  rewrite Er in *. split; [congruence|]. intros Hl k Hk Hsome.
  assert (d_state q2 = DsLive) as Hl2.
  { destruct (decide (d_state q2 = DsLive)); [done|]. by destruct (Hn' ltac:(done)). }
  rewrite <- (Hb Hl2 k Hk Hsome). apply Hb'; [done|congruence|]. by rewrite (Hb Hl2 k Hk Hsome).
Qed.

(** ** Steps of the database *)

Lemma grown_refs d d' : grown d d' -> d_ref <$> t_delete d' = d_ref <$> t_delete d.
Proof.
  intros (_ & Hq & _). induction Hq as [|q q' l l' (_ & _ & E & _) _ IH]; [done|].
  by rewrite !fmap_cons, E, IH.
Qed.

Lemma grown_row d d' q : grown d d' -> q ∈ t_delete d -> exists q', q' ∈ t_delete d' /\ row_kept q q'.
Proof.
  intros (_ & Hq & _) [i Hi]%list_elem_of_lookup.
  eapply Forall2_lookup_l in Hq as (q' & Hq' & Hk); [|exact Hi].
  exists q'. split; [by eapply list_elem_of_lookup_2|done].
Qed.

Lemma grown_part d d' p : grown d d' -> p ∈ t_part d' -> exists p0, p0 ∈ t_part d /\
  p_file_id p = p_file_id p0 /\ p_part_id p = p_part_id p0 /\ p_key p = p_key p0.
Proof.
  intros [Ep _] Hp. assert (part_shape p ∈ part_shapes d) as Hin by (rewrite <- Ep; by apply list_elem_of_fmap_2).
  apply list_elem_of_fmap in Hin as (p0 & E & Hp0). injection E as E1 E2 E3. by exists p0.
Qed.

Lemma db_step_inv w w' b up dr cl cl' :
  sys_inv {| sys_world := w; sys_store := b; sys_uploaded := up; sys_dropped := dr; sys_claimed := cl |} ->
  grown_inv (db w) (db w') ->
  (forall c, c ∈ cl' -> c ∈ cl \/ exists q, q ∈ t_delete (db w') /\
     d_ref q = DeleteWorker.deleteRef c /\ d_state q <> DsLive) ->
  let s := {| sys_world := w; sys_store := b; sys_uploaded := up; sys_dropped := dr; sys_claimed := cl |} in
  let s' := {| sys_world := w'; sys_store := b; sys_uploaded := up; sys_dropped := dr; sys_claimed := cl' |} in
  sys_inv s' /\ sys_kept s s'.
Proof.
  intros [Hf Hb Hinj Hnd His Hup Hpt Hdr Hcl] [Hinv Hsame] Hcl'. cbn in *.
  pose proof (grown_refs _ _ Hsame) as Erefs.
  assert (recorded (db w') up = recorded (db w) up) as Erec by (unfold recorded; by rewrite Erefs).
  split.
  - split; cbn; rewrite ?Erec; try done.
    + intros p Hp. destruct (grown_part _ _ p Hsame Hp) as (p0 & Hp0 & F1' & F2' & F3').
      destruct (Hpt p0 Hp0) as (q & Hq & [E1 E2] & Ek).
      destruct (grown_row _ _ q Hsame Hq) as (q' & Hq' & F1 & F2 & F3 & _).
      exists q'. rewrite F3, F3'. split; [done|]. split; [split; congruence|done].
    + intros c Hc. destruct (Hcl' c Hc) as [Hc0|Hex]; [|done].
      destruct (Hcl c Hc0) as (q & Hq & Er & Hn).
      destruct (grown_row _ _ q Hsame Hq) as (q' & Hq' & F1 & F2 & F3 & F4).
      exists q'. rewrite F3. auto.
  - split; cbn; [done| |by destruct Hsame as (-> & _)|].
    { intros r q Hr _ _. destruct Hsame as (_ & _ & Hs). by eapply shapes_kept. }
    intros q Hq. destruct (grown_row _ _ q Hsame Hq) as (q' & Hq' & Hk). by exists q'.
Qed.

(** ** Steps of the store *)

Lemma store_step_inv w b b' up dr cl (gone : string -> Prop) :
  sys_inv {| sys_world := w; sys_store := b; sys_uploaded := up; sys_dropped := dr; sys_claimed := cl |} ->
  bs_inv b' -> MaxFileSize b' = MaxFileSize b -> (forall r, bs_ref_key b' r = bs_ref_key b r) ->
  (forall k, (forall r, gone r -> bs_ref_key b r <> Some k) -> is_Some (bs_block b k) ->
     bs_block b' k = bs_block b k) ->
  (forall q, q ∈ t_delete (db w) -> d_state q = DsLive -> ~ gone (d_ref q)) ->
  let s := {| sys_world := w; sys_store := b; sys_uploaded := up; sys_dropped := dr; sys_claimed := cl |} in
  let s' := {| sys_world := w; sys_store := b'; sys_uploaded := up; sys_dropped := dr; sys_claimed := cl |} in
  sys_inv s' /\ sys_kept s s'.
Proof.
  intros [Hf Hb Hinj Hnd His Hup Hpt Hdr Hcl] Hb' Em Ek Hblk Hgone. cbn in *. split.
  - split; cbn; try done.
    + intros r1 r2 k. rewrite !Ek. by apply Hinj.
    + intros r Hr. rewrite Ek. by apply His.
    + intros req Hreq. rewrite Ek. by apply Hup.
    + intros p Hp. destruct (Hpt p Hp) as (q & ? & ? & ?). exists q. by rewrite Ek.
  - split; cbn; [done|by intros; apply list_elem_of_fmap_2|done|]. intros q Hq. exists q.
    split; [done|]. split; [done|]. split; [done|]. intros Hl k Hk Hsome. apply Hblk; [|done].
    intros r Hr Ekr. rewrite (Hinj r (d_ref q) k Ekr Hk) in Hr. by apply (Hgone q).
Qed.

Lemma recorded_live_inj w b up dr cl q q' :
  sys_inv {| sys_world := w; sys_store := b; sys_uploaded := up; sys_dropped := dr; sys_claimed := cl |} ->
  q ∈ t_delete (db w) -> q' ∈ t_delete (db w) -> d_ref q = d_ref q' -> q = q'.
Proof.
  intros Hs. pose proof (si_nodup _ Hs) as Hnd. unfold recorded in Hnd. cbn in Hnd.
  apply NoDup_app in Hnd as (Hnd & _ & _). by apply NoDup_fmap_inj.
Qed.

(** ** Steps of an upload *)

Lemma upload_step_inv src res n req w b b' up dr cl :
  let s := {| sys_world := w; sys_store := b; sys_uploaded := up; sys_dropped := dr; sys_claimed := cl |} in
  let s' := {| sys_world := w; sys_store := b'; sys_uploaded := req :: up; sys_dropped := dr; sys_claimed := cl |} in
  sys_inv s -> Forall is_byte (src_data src) -> Upload src b = (Ok res, n, b') ->
  FilePartDao.ReqFileKey req = FileKey res -> FilePartDao.ReqDeleteRef req = DeleteRef res ->
  sys_inv s' /\ sys_kept s s'.
Proof.
  intros s s' [Hf Hb Hinj Hnd His Hup Hpt Hdr Hcl] Hbytes Hu Ekey Eref. cbn in *.
  apply bs_upload in Hu as (Hb' & Hm & _ & _ & _ & Hfk & Hfr & Hfb & Erk & Eb); [|done|done].
  assert (forall r, is_Some (bs_ref_key b r) -> bs_ref_key b' r = bs_ref_key b r) as Hold.
  { intros r [k Hk]. rewrite Erk. case_decide as E; [|done]. congruence. }
  assert (DeleteRef res ∉ recorded (db w) up) as Hnew.
  { intros Hin. destruct (His _ (or_introl Hin)) as [k Hk]. congruence. }
  assert (recorded (db w) (req :: up) ≡ₚ DeleteRef res :: recorded (db w) up) as Hperm.
  { unfold recorded. rewrite fmap_cons, Eref. by rewrite Permutation_middle. }
  split.
  - split; cbn; try done.
    + intros r1 r2 k. rewrite !Erk. repeat case_decide; subst; intros E1 E2; try done;
        simplify_eq; try (by destruct (Hfk _ E1)); try (by destruct (Hfk _ E2)). by eapply Hinj.
    + rewrite Hperm. by apply NoDup_cons.
    + intros r Hr. rewrite Erk. case_decide as E; [done|]. apply His.
      destruct Hr as [Hr|]; [left|by right]. rewrite Hperm in Hr. by apply elem_of_cons in Hr as [|].
    + intros r [-> |Hr]%elem_of_cons.
      * rewrite Erk, Eref, decide_True by done. by rewrite Ekey.
      * rewrite Hold; [by apply Hup|]. by rewrite (Hup r Hr).
    + intros p Hp. destruct (Hpt p Hp) as (q & Hq & Hpq & Hk). exists q.
      rewrite Hold; [done|]. by rewrite Hk.
    + intros r Hr. rewrite Hperm. intros [-> |Hin]%elem_of_cons; [|by apply (Hdr r)].
      destruct (His _ (or_intror Hr)) as [k Hk]. congruence.
  - split; cbn; [done|by intros; apply list_elem_of_fmap_2|done|]. intros q Hq. exists q.
    assert (is_Some (bs_ref_key b (d_ref q))) as Hsq.
    { apply His. left. apply elem_of_app. left. by apply list_elem_of_fmap_2. }
    split; [done|]. split; [done|]. split; [by apply Hold|].
    intros _ k Hk _. rewrite Eb. case_decide as E; [|done]. subst. by destruct (Hfk _ Hk).
Qed.

Lemma recorded_middle d up1 req up2 :
  recorded d (up1 ++ req :: up2) ≡ₚ FilePartDao.ReqDeleteRef req :: recorded d (up1 ++ up2).
Proof. unfold recorded. by rewrite <- Permutation_middle, fmap_cons, Permutation_middle. Qed.

(** A part and its delete state are recorded. *)
Lemma added_step_inv req w w' b up1 up2 dr cl :
  let s := {| sys_world := w; sys_store := b; sys_uploaded := up1 ++ req :: up2; sys_dropped := dr; sys_claimed := cl |} in
  let s' := {| sys_world := w'; sys_store := b; sys_uploaded := up1 ++ up2; sys_dropped := dr; sys_claimed := cl |} in
  sys_inv s -> file_inv (db w') ->
  part_added (db w) (db w') (FilePartDao.ReqFileKey req) (FilePartDao.ReqDeleteRef req) -> sys_inv s' /\ sys_kept s s'.
Proof.
  intros s s' Hs Hinv (p0 & q0 & Ep & Eq & Ef & Ekey & Eref & F1 & F2).
  destruct Hs as [Hf Hb Hinj Hnd His Hup Hpt Hdr Hcl]. cbn in *.
  assert (recorded (db w') (up1 ++ up2) ≡ₚ recorded (db w) (up1 ++ req :: up2)) as Hperm.
  { rewrite recorded_middle. unfold recorded. rewrite Eq, fmap_app, <- app_assoc. cbn. rewrite Eref.
    symmetry. apply Permutation_middle. }
  assert (forall q, q ∈ t_delete (db w) -> q ∈ t_delete (db w')) as Hin.
  { intros q Hq. rewrite Eq. apply elem_of_app. by left. }
  split.
  - split; cbn; try done.
    + by rewrite Hperm.
    + intros r. rewrite Hperm. apply His.
    + intros r [Hr|Hr]%elem_of_app; apply Hup, elem_of_app; [by left|]. right. by right.
    + rewrite Ep. intros p [Hp|Hp]%elem_of_app.
      * destruct (Hpt p Hp) as (q & Hq & Hpq). exists q. split; [by apply Hin|done].
      * apply list_elem_of_singleton in Hp as ->. exists q0. rewrite Eq. split; [apply elem_of_app; right; by left|].
        split; [done|]. rewrite Eref, Ekey. apply Hup, elem_of_app. right. by left.
    + intros r Hr. rewrite Hperm. by apply Hdr.
    + intros c Hc. destruct (Hcl c Hc) as (q & Hq & ?). exists q. split; [by apply Hin|done].
  - split; cbn; [done|intros r q Hr _ _; unfold shapes; rewrite Ef; by apply list_elem_of_fmap_2|unfold part_shapes; rewrite Ep, fmap_app; by eexists|].
    intros q Hq. exists q. split; [by apply Hin|done].
Qed.

(** Or the record is refused. *)
Lemma refused_step_inv req w w' b up1 up2 dr cl :
  let s := {| sys_world := w; sys_store := b; sys_uploaded := up1 ++ req :: up2; sys_dropped := dr; sys_claimed := cl |} in
  let s' := {| sys_world := w'; sys_store := b; sys_uploaded := up1 ++ up2;
               sys_dropped := FilePartDao.ReqDeleteRef req :: dr; sys_claimed := cl |} in
  sys_inv s -> db w' = db w -> sys_inv s' /\ sys_kept s s'.
Proof.
  intros s s' [Hf Hb Hinj Hnd His Hup Hpt Hdr Hcl] E. cbn in *.
  rewrite recorded_middle in Hnd. apply NoDup_cons in Hnd as [Hnew Hnd].
  split.
  - split; cbn; rewrite ?E; try done.
    + intros r Hr. apply His. rewrite recorded_middle, elem_of_cons. rewrite elem_of_cons in Hr. tauto.
    + intros r [Hr|Hr]%elem_of_app; apply Hup, elem_of_app; [by left|]. right. by right.
    + intros r [-> |Hr]%elem_of_cons; [done|]. intros Hin. apply (Hdr r Hr).
      rewrite recorded_middle. by right.
  - split; cbn; rewrite ?E; [done|by intros; apply list_elem_of_fmap_2|done|]. intros q Hq. by exists q.
Qed.

Lemma record_step_inv req w w' b up1 up2 dr cl :
  let s := {| sys_world := w; sys_store := b; sys_uploaded := up1 ++ req :: up2; sys_dropped := dr; sys_claimed := cl |} in
  let s' := {| sys_world := w'; sys_store := b; sys_uploaded := up1 ++ up2; sys_dropped := dr; sys_claimed := cl |} in
  sys_inv s -> FilePartDao.CreateFilePart req w = (Ok tt, w') -> sys_inv s' /\ sys_kept s s'.
Proof.
  intros s s' Hs Hrun. pose proof (ur_inv _ _ _ (upload_rel_part req w) (si_files _ Hs)) as Hinv.
  rewrite Hrun in Hinv. cbn in Hinv. apply added_step_inv; [done|done|].
  pose proof (CreateFilePart_dao_eq req w) as E. cbv zeta in E. rewrite Hrun in E.
  destruct (_ || _); [by destruct E as [? [=]]|]. injection E as ->. by eexists _, _.
Qed.

Lemma record_err_step_inv req e w w' b up1 up2 dr cl :
  let s := {| sys_world := w; sys_store := b; sys_uploaded := up1 ++ req :: up2; sys_dropped := dr; sys_claimed := cl |} in
  let s' := {| sys_world := w'; sys_store := b; sys_uploaded := up1 ++ up2;
               sys_dropped := FilePartDao.ReqDeleteRef req :: dr; sys_claimed := cl |} in
  sys_inv s -> FilePartDao.CreateFilePart req w = (Err e, w') -> sys_inv s' /\ sys_kept s s'.
Proof.
  intros s s' Hs Hrun. apply refused_step_inv; [done|].
  pose proof (CreateFilePart_dao_eq req w) as E. cbv zeta in E. rewrite Hrun in E.
  destruct (_ || _); [|done]. by destruct E as [? [= _ ->]].
Qed.

(** ** Purges *)

Lemma purged_step_inv w w' b up dr cl :
  let s := {| sys_world := w; sys_store := b; sys_uploaded := up; sys_dropped := dr; sys_claimed := cl |} in
  let s' := {| sys_world := w'; sys_store := b; sys_uploaded := up; sys_dropped := dr; sys_claimed := cl |} in
  sys_inv s -> purged (db w) (db w') -> sys_inv s' /\ sys_kept s s'.
Proof.
  intros s s' Hs Hp. pose proof (purged_inv _ _ Hp (si_files _ Hs)) as Hinv. destruct Hp as [E Hsub Hgone].
  assert (t_part (db w') = t_part (db w) /\ t_delete (db w') = t_delete (db w)) as [Ep Ed] by (by rewrite E).
  clear E. destruct Hs as [Hf Hb Hinj Hnd His Hup Hpt Hdr Hcl]. subst s s'. unfold recorded in *. cbn in *. split.
  - split; unfold recorded; cbn; rewrite ?Ep, ?Ed; done.
  - split; cbn; [done| |unfold part_shapes; by rewrite Ep|].
    + intros r q Hr Hq Eq. apply list_elem_of_fmap_2. destruct (Hgone r Hr) as [|[Hn _]]; [done|]. by destruct (Hn q Hq).
    + intros q Hq. exists q. by rewrite Ed.
Qed.

Lemma purge_step_inv before w b up dr cl :
  let s := {| sys_world := w; sys_store := b; sys_uploaded := up; sys_dropped := dr; sys_claimed := cl |} in
  let s' := {| sys_world := (FileManager.PurgeFile before w).2; sys_store := b; sys_uploaded := up;
               sys_dropped := dr; sys_claimed := cl |} in
  sys_inv s -> sys_inv s' /\ sys_kept s s'.
Proof.
  intros s s' Hs. apply purged_step_inv; [done|]. apply PurgeFile_purged.
  intros p Hp. destruct (si_parts _ Hs p Hp) as (q & Hq & [E _] & _). by exists q.
Qed.

(** ** Every step *)

Lemma draft_kept size parts w :
  0 < idfn (ids w) -> file_inv (db w) -> grown_inv (db w) (db (FileDao.CreateFileDraft size parts w).2).
Proof.
  intros Hid Hinv. split; [by apply CreateFileDraft_inv|].
  pose proof (CreateFileDraft_dao_eq size parts w) as E. cbv zeta in E.
  destruct (_ || _); [destruct E as [e ->]; apply (same_grown _ _ (same_parts_refl _))|]. rewrite E.
  apply grown_tables; [done..|]. unfold shapes. cbn. rewrite fmap_app. by eexists.
Qed.

Lemma finish_kept f w : file_inv (db w) -> grown_inv (db w) (db (FileManager.FinishFileCreate f w).2).
Proof.
  intros Hinv. split; [by apply ready_inv|]. apply grown_tables; [done..|].
  exists []. rewrite app_nil_r. unfold shapes, FileManager.FinishFileCreate.
  rewrite (bind_ok (FilePartDao.ListFilePart f) _ w _ w eq_refl), MarkFileReady_eq.
  cbn. unfold sql_update.
  change (map ?g ?l) with (g <$> l). rewrite <- list_fmap_compose.
  apply list_fmap_ext. intros i r _. cbn. by case_match.
Qed.

Lemma run_op_kept op w : ids_positive -> file_inv (db w) -> grown_inv (db w) (db (run_op op w)).
Proof.
  intros Hids Hinv. destruct op; cbn [run_op].
  - by apply CreateFileLink_safe.
  - by apply removeWebDAVLink_safe.
  - by apply moveWebDAVLink_safe.
  - by apply copyWebDAVLink_safe.
  - by apply PublishS3Object_safe.
  - by apply CopyS3Object_safe.
  - by apply DeleteS3Object_safe.
  - by apply draft_kept.
  - by apply finish_kept.
  - apply delete_only_safe; [apply DiscardUnpublishedFile_delete|done].
  - by apply CreateMultipartUpload_safe.
  - by apply PrepareMultipartPart_safe.
  - by apply PutMultipartPart_safe.
  - by apply ListMultipartParts_safe.
  - by apply CompleteMultipartUpload_safe.
  - by apply AbortMultipartUpload_safe.
  - by apply runMultipartCleanupPass_safe.
  - by apply cleanupLocks_safe.
  - by apply createCollection_safe.
  - by apply publishFile_safe.
  - by apply deleteResource_safe.
  - by apply copyResource_safe.
  - by apply moveResource_safe.
  - by apply patchProperties_safe.
  - by apply refreshLock_safe.
  - by apply unlock_safe.
  - by apply snapshot_safe.
  - by apply release_safe.
  - by apply begin_safe.
  - by apply advance_safe.
  - by apply publish_import_safe.
  - by apply discard_import_safe.
Qed.

Lemma claimed_not_live w b up dr cl ref :
  let s := {| sys_world := w; sys_store := b; sys_uploaded := up; sys_dropped := dr; sys_claimed := cl |} in
  sys_inv s -> (exists c, c ∈ cl /\ DeleteWorker.deleteRef c = ref) ->
  forall q, q ∈ t_delete (db w) -> d_state q = DsLive -> d_ref q <> ref.
Proof.
  intros s Hs (c & Hc & <-) q Hq Hl E. destruct (si_claimed _ Hs c Hc) as (q' & Hq' & Er & Hn).
  assert (q = q') as -> by (eapply recorded_live_inj; [exact Hs|done|done|congruence]). done.
Qed.

Lemma step_inv s s' : ids_positive -> sys_inv s -> step s s' -> sys_inv s' /\ sys_kept s s'.
Proof.
  intros Hids Hs Hstep. destruct Hstep as [op w b up dr cl|before w b up dr cl|id rq f w b up dr cl Hf|src res n req w b b' up dr cl Hb Hu E1 E2
    |src e n w b b' up dr cl Hb Hu|req w w' b up1 up2 dr cl Hr|req e w w' b up1 up2 dr cl Hr
    |k job st req w w' b up1 up2 dr cl E1 E2 Hr|k job st e w w' b up dr cl Hr|k st req w w' b up1 up2 dr cl E1 E2 Hun Hrow Hr
    |k st req e w w' b up1 up2 dr cl E2 Hr|job m w b up dr cl Him
    |ref res w b b' up dr cl Hin Hd|k now w w' res b up dr cl Hc|works res w b b' up dr cl Hin Hd
    |works st code next now w b up dr cl Hst].
  - apply db_step_inv; [done| |by left]. apply run_op_kept; [done|apply Hs].
  - by apply purge_step_inv.
  - apply db_step_inv; [done| |by left]. apply lockResource_safe; [done|apply Hs].
  - by eapply upload_step_inv.
  - apply bs_upload_err in Hu as (Hb' & Em & _ & Ek & Hblk); [|apply Hs|done].
    eapply (store_step_inv _ _ _ _ _ _ (fun _ => False)); try done; [|tauto]. intros k _. apply Hblk.
  - by eapply record_step_inv.
  - by eapply record_err_step_inv.
  - destruct (persist_ok _ _ _ _ _ _ (si_files _ Hs) Hr) as [Hi Ha]. apply added_step_inv; [done|done|by rewrite E1, E2].
  - apply db_step_inv; [done| |by left]. apply persist_err in Hr as ->. by apply kept_grown, kept_refl, Hs.
  - destruct (compensate_ok _ _ _ _ _ (si_files _ Hs) Hun Hrow Hr) as [Hi Ha].
    apply added_step_inv; [done|done|by rewrite E1, E2].
  - apply refused_step_inv; [done|]. by eapply compensate_err.
  - apply db_step_inv; [done| |by left]. apply finish_import_safe; [apply Hs|done].
  - apply bs_delete in Hd as (Hb' & Em & _ & Ek & Hblk & _); [|apply Hs].
    apply (store_step_inv _ _ _ _ _ _ (fun r => r = ref)); try done.
    + intros k Hk _. apply Hblk. by intros r ->%list_elem_of_singleton; apply Hk.
    + intros q Hq _ <-. apply (si_dropped _ Hs _ Hin). apply elem_of_app. left.
      by apply list_elem_of_fmap_2.
  - destruct (claim_ok k now w (inv_wf _ (si_files _ Hs))) as (works' & w2 & Hrun & _ & _ & Hheld & _).
    rewrite Hc in Hrun. injection Hrun as -> <-.
    apply db_step_inv; [done| |].
    + pose proof (delete_only_safe _ (claim_delete k now) w (si_files _ Hs)) as Hk. by rewrite Hc in Hk.
    + intros c [Hw|]%elem_of_app; [right|by left].
      destruct (Hheld c Hw) as (_ & _ & q & Hq & _ & Hst & Href & _). exists q. by rewrite Hst.
  - apply bs_delete in Hd as (Hb' & Em & _ & Ek & Hblk & _); [|apply Hs].
    apply (store_step_inv _ _ _ _ _ _ (fun r => r ∈ map DeleteWorker.deleteRef works)); try done.
    + intros k Hk _. by apply Hblk.
    + intros q Hq Hl (c & E & Hc)%list_elem_of_fmap.
      eapply claimed_not_live; [exact Hs| |exact Hq|exact Hl|exact E]. exists c. auto.
  - apply db_step_inv; [done| |by left].
    apply delete_only_safe; [by apply finish_delete|apply Hs].
Qed.

Lemma steps_inv s s' : ids_positive -> sys_inv s -> rtc step s s' -> sys_inv s' /\ sys_kept s s'.
Proof.
  intros Hids Hs Hrun. induction Hrun as [s|s1 s2 s3 Hstep _ IH]; [split; [done|apply sys_kept_refl]|].
  destruct (step_inv s1 s2 Hids Hs Hstep) as [Hs2 Hk]. destruct (IH Hs2) as [Hs3 Hk2].
  split; [done|]. by eapply sys_kept_trans.
Qed.

(** ** What is referenced stays readable *)

Lemma part_key_row t f j key :
  part_key t f j = Ok key -> exists p, p ∈ t /\ p_file_id p = f /\ p_part_id p = j /\ p_key p = key.
Proof.
  unfold part_key. destruct (head _) as [p|] eqn:E; [|done]. intros [= <-].
  apply head_Some_elem_of, sql_select_elem in E as [Hp Hk]. apply andb_true_iff in Hk as [Hf Hj].
  apply bool_decide_eq_true in Hj. apply list_elem_of_singleton in Hj. exists p. by apply Z.eqb_eq in Hf.
Qed.

Lemma part_key_prefix t t' f j key :
  part_shape <$> t `prefix_of` part_shape <$> t' -> part_key t f j = Ok key -> part_key t' f j = Ok key.
Proof.
  unfold part_key, sql_select. revert t'. induction t as [|p t IH]; intros t' Hp Hk; [done|].
  destruct t' as [|p' t']; [by apply prefix_nil_inv in Hp|]. rewrite !fmap_cons in Hp.
  pose proof (prefix_cons_inv_1 _ _ _ _ Hp) as Ep. apply prefix_cons_inv_2 in Hp. injection Ep as E1 E2 E3.
  cbn [List.filter] in *. rewrite <- E1, <- E2. destruct (_ && _); [|by apply IH]. cbn in *. by rewrite <- E3.
Qed.

Lemma stored_survives s s' f content :
  sys_inv s -> sys_inv s' -> sys_kept s s' -> referenced (db (sys_world s')) f ->
  FileStream.stored_file (sys_store s) (FileManager.block_key (sys_world s) f) content ->
  FileStream.stored_file (sys_store s') (FileManager.block_key (sys_world s') f) content.
Proof.
  intros Hs Hs' [Em _ Hpre Hrows] Href (Hb & Hpos & Hmax & Hblk).
  split; [apply Hs'|]. rewrite Em. split; [done|]. split; [done|]. intros i Hi Hlt.
  destruct (Hblk i Hi Hlt) as (key & Hkey & Hdata). exists key.
  rewrite block_key_eq in *. split; [by eapply part_key_prefix|].
  destruct (part_key_row _ _ _ _ Hkey) as (p & Hp & Hpf & Hpj & <-).
  destruct (si_parts _ Hs p Hp) as (q & Hq & [Ef _] & Ek).
  destruct (Hrows q Hq) as (q' & Hq' & (Ef' & _) & _ & Hkeep).
  rewrite <- Hdata. apply Hkeep; [|done|by rewrite Hdata].
  apply (inv_safe _ (si_files _ Hs') f Href); [done|congruence].
Qed.

(** A file with a block opens as it did. *)
Lemma OpenFile_physical f size w w' :
  FileManager.OpenFile f w = (Ok (FileManager.Physical (FileStream.newFileStream size)), w') <->
  w' = w /\ exists r, head (sql_select (fun x => bool_decide (f_file_id x ∈ [f])) (t_file (db w))) = Some r /\
    f_layout r = 1 /\ f_size r = size.
Proof.
  unfold FileManager.OpenFile.
  rewrite (bind_ok (FileManager.internalGetFileInfo f) _ w _ w eq_refl). destruct (head _) as [r|].
  2: { split; [done|]. by intros (_ & r & ? & _). }
  unfold FileManager.lowlevelIOStream. destruct (Z.eqb_spec (f_layout r) 1) as [El|El].
  { split; [intros E; injection E as <- <-; split; [done|]; by exists r|].
    intros (-> & r' & [= <-] & _ & <-). done. }
  split; [|by intros (_ & r' & [= <-] & ? & _)].
  destruct (f_layout r =? 2); [|done]. unfold mbind, M_bind, lift, query, reads. by case_match.
Qed.

Lemma head_select_file d f r : NoDup (f_file_id <$> t_file d) ->
  head (sql_select (fun x => bool_decide (f_file_id x ∈ [f])) (t_file d)) = Some r <-> r ∈ t_file d /\ f_file_id r = f.
Proof.
  intros Hnd. split.
  - intros Hr%head_Some_elem_of%sql_select_elem. destruct Hr as [Hr Hf%bool_decide_eq_true].
    by apply list_elem_of_singleton in Hf.
  - intros [Hr Hf]. destruct (head _) as [r'|] eqn:E.
    + apply head_Some_elem_of, sql_select_elem in E as [Hr' Hf'%bool_decide_eq_true%list_elem_of_singleton].
      f_equal. apply (NoDup_fmap_inj f_file_id (t_file d)); [done..|congruence].
    + assert (r ∈ sql_select (fun x => bool_decide (f_file_id x ∈ [f])) (t_file d)) as Hin.
      { apply sql_select_elem. split; [done|]. apply bool_decide_eq_true. by apply list_elem_of_singleton. }
      destruct (sql_select _ _); [by apply elem_of_nil in Hin|done].
Qed.

Lemma opens_survives s s' f size :
  sys_inv s -> sys_inv s' -> sys_kept s s' -> (exists q, q ∈ t_delete (db (sys_world s)) /\ d_file_id q = f) ->
  FileManager.OpenFile f (sys_world s) =
    (Ok (FileManager.Physical (FileStream.newFileStream size)), sys_world s) ->
  FileManager.OpenFile f (sys_world s') =
    (Ok (FileManager.Physical (FileStream.newFileStream size)), sys_world s').
Proof.
  intros Hs Hs' Hk (q & Hq & Ef). rewrite !OpenFile_physical. intros (_ & r & Hr & Hl & Hz). split; [done|].
  apply head_select_file in Hr as [Hr Hrf]; [|apply (si_files _ Hs)].
  pose proof (sk_files _ _ Hk r q Hr Hq ltac:(congruence)) as (r' & Es & Hr')%list_elem_of_fmap.
  injection Es as E1 E2 E3. exists r'. split; [|split; congruence].
  apply head_select_file; [apply (si_files _ Hs')|]. split; [done|congruence].
Qed.

Lemma stored_has_delete s f content : content <> [] -> sys_inv s ->
  FileStream.stored_file (sys_store s) (FileManager.block_key (sys_world s) f) content ->
  exists q, q ∈ t_delete (db (sys_world s)) /\ d_file_id q = f.
Proof.
  intros Hne Hs (_ & Hpos & _ & Hblk). assert (0 < zlen content) as Hlen by (unfold zlen; destruct content; [done|cbn; lia]).
  destruct (Hblk 0) as (key & Hkey & _); [lia|lia|]. rewrite block_key_eq in Hkey.
  destruct (part_key_row _ _ _ _ Hkey) as (p & Hp & Hpf & _). destruct (si_parts _ Hs p Hp) as (q & Hq & [E _] & _).
  exists q. split; [done|congruence].
Qed.
End System.
