(* ===== verification/SystemTheorems.v ===== *)
(** * The running system: theorems

    In every interleaving of client transactions, uploads and delete batches, the
    blocks of referenced files stay in the block store and what was queued for
    deletion never comes back; and the code of the file manager and of the delete
    worker runs as sequences of the steps these theorems quantify over. *)

From stdpp Require Import base strings list gmap relations.
From S2P Require Import Prelude GoStr Crc BlockIO FileStream CompositeStream Store Directory.
From S2P Require Import DirFrame DirWalk DirTheorems References RefInv DeleteWorker WorkerProofs Dao.
From S2P Require Import Mutation S3Object FileManager UploadProofs LinkSafety WebDAV WebDAVSafety WebDAVTheorems.
From S2P Require Import Multipart MultipartSafety System.
Import References.

(** ** Programs as runs of the system *)

Section Runs.
Context `{!Env} `{!S3Object.MimeTypes} `{!FileCodec} `{!Sha} {B : Type} `{!IBlockIO B}.

Definition sys_of (s : World * B) up dr cl : Sys B :=
  {| sys_world := s.1; sys_store := s.2; sys_uploaded := up; sys_dropped := dr; sys_claimed := cl |}.

(** From any state in which [works] are claimed, [m] is a sequence of steps. *)
Definition runs {A} (works : list DeleteWorker.blockDeleteWork) (m : M (World * B) A) : Prop :=
  forall s up dr cl, works ⊆ cl ->
    exists up' dr' cl', cl ⊆ cl' /\ rtc step (sys_of s up dr cl) (sys_of (m s).2 up' dr' cl').

Lemma runs_same {A} works (m : M (World * B) A) : (forall s, (m s).2 = s) -> runs works m.
Proof. intros Hm s up dr cl _. exists up, dr, cl. rewrite Hm. by split. Qed.

Lemma runs_bind {A C} works (m : M (World * B) A) (k : A -> M (World * B) C) :
  runs works m -> (forall a, runs works (k a)) -> runs works (m ≫= k).
Proof.
  intros Hm Hk s up dr cl Hw. destruct (Hm s up dr cl Hw) as (up1 & dr1 & cl1 & Hcl & R1).
  unfold mbind, M_bind. destruct (m s) as [[a|e] s1]; [|by exists up1, dr1, cl1].
  destruct (Hk a s1 up1 dr1 cl1) as (up2 & dr2 & cl2 & Hcl2 & R2); [by etrans|].
  exists up2, dr2, cl2. split; [by etrans|]. by etrans.
Qed.

Lemma runs_attempt {A} works (m : M (World * B) A) : runs works m -> runs works (attempt m).
Proof.
  intros Hm s up dr cl Hw. destruct (Hm s up dr cl Hw) as (up1 & dr1 & cl1 & R).
  exists up1, dr1, cl1. unfold attempt. by destruct (m s).
Qed.

Lemma runs_for_each {A} works (f : A -> M (World * B) unit) l :
  (forall a, a ∈ l -> runs works (f a)) -> runs works (for_each f l).
Proof.
  induction l as [|a l IH]; intros Hf; simpl; [by apply runs_same|].
  apply runs_bind; [apply Hf; left|]. intros _. apply IH. intros. apply Hf. by right.
Qed.

Lemma runs_check works b e : runs works (check b e).
Proof. apply runs_same. by destruct b. Qed.

(** A transaction is one step. *)
Lemma runs_op {A} works op (m : M World A) : (forall w, (m w).2 = run_op op w) -> runs works (on_db m).
Proof.
  intros Hm [w b] up dr cl _. exists up, dr, cl. split; [done|]. apply rtc_once.
  rewrite on_db_eq. unfold sys_of. cbn. rewrite Hm. constructor.
Qed.

Lemma runs_finish works ws st code next t :
  st <> DsLive -> runs works (on_db (DeleteWorker.finishBlockDeleteWork ws st code next t)).
Proof.
  intros Hst [w b] up dr cl _. exists up, dr, cl. split; [done|]. apply rtc_once.
  rewrite on_db_eq. by constructor.
Qed.

Lemma runs_delete works ws :
  ws ⊆ works -> runs works (on_store (DeleteBlocks (map DeleteWorker.deleteRef ws))).
Proof.
  intros Hws [w b] up dr cl Hcl. exists up, dr, cl. split; [done|]. apply rtc_once. unfold on_store. cbn.
  destruct (DeleteBlocks _ b) as [res b'] eqn:E. eapply step_delete; [|exact E]. by etrans.
Qed.

(** ** Uploads *)

Lemma runs_CreateFilePart works f p src :
  Forall is_byte (src_data src) -> runs works (FileManager.CreateFilePart f p src).
Proof.
  intros Hbytes. unfold FileManager.CreateFilePart. apply runs_bind; [apply runs_check|intros _].
  intros [w b] up dr cl Hcl. unfold FileManager.upload.
  destruct (Upload src b) as [[[res|e] n] b'] eqn:Eu.
  2: { rewrite (bind_err _ _ (w, b) e (w, b')) by (cbn; by rewrite Eu).
       exists up, dr, cl. split; [done|]. apply rtc_once. by eapply step_upload_err. }
  rewrite (bind_ok _ _ (w, b) (res, n) (w, b')) by (cbn; by rewrite Eu).
  set (req := {| FilePartDao.FileId := f; FilePartDao.FilePartId := p;
       FilePartDao.ReqFileKey := FileKey res;
       FilePartDao.FilePartMd5 := md5_hex (ztake n (src_data src));
       FilePartDao.FilePartSize := n; FilePartDao.BackendKind := bio_name b';
       FilePartDao.ReqDeleteRef := DeleteRef res; FilePartDao.ReqUploadedAt := UploadedAt res |}).
  assert (step (sys_of (w, b) up dr cl) (sys_of (w, b') (req :: up) dr cl)) as Hup
    by (by eapply step_upload).
  destruct (_ || _).
  { rewrite (bind_err (check true _) _ (w, b') _ (w, b') eq_refl).
    exists (req :: up), dr, cl. split; [done|]. by apply rtc_once. }
  rewrite (bind_ok (check false _) _ (w, b') tt (w, b') eq_refl).
  rewrite (bind_ok (reads _) _ (w, b') (bio_name b') (w, b') eq_refl). fold req.
  destruct (FilePartDao.CreateFilePart req w) as [o w1] eqn:Ec.
  rewrite (bind_ok _ _ (w, b') o (w1, b')) by (unfold attempt; by rewrite on_db_eq, Ec).
  destruct o as [[]|e].
  { exists up, dr, cl. split; [done|]. eapply rtc_l; [exact Hup|]. apply rtc_once.
    by apply (step_record req w w1 b' [] up). }
  unfold attempt, on_store, mbind, M_bind. cbn [snd].
  destruct (DeleteBlocks [DeleteRef res] b') as [r2 b2] eqn:Ed.
  exists up, (DeleteRef res :: dr), cl. split; [done|]. eapply rtc_l; [exact Hup|].
  eapply rtc_l; [by apply (step_record_err req e w w1 b' [] up)|]. apply rtc_once.
  eapply step_drop; [|exact Ed]. left.
Qed.

Lemma bytes_limit src n : Forall is_byte (src_data src) ->
  Forall is_byte (src_data (FileManager.limit_source src n)).
Proof. intros Hb. unfold FileManager.limit_source. case_match; [|done]. by apply Forall_take. Qed.
Lemma bytes_drop src n : Forall is_byte (src_data src) ->
  Forall is_byte (src_data (FileManager.drop_source src n)).
Proof. intros Hb. by apply Forall_drop. Qed.

Lemma runs_create_parts works n f blk size p up src :
  Forall is_byte (src_data src) -> runs works (FileManager.create_parts n f blk size p up src).
Proof.
  revert p up src. induction n as [|n IH]; intros p up src Hb; cbn [FileManager.create_parts];
    [by apply runs_same|]. cbv zeta.
  apply runs_bind; [by apply runs_CreateFilePart, bytes_limit|intros count].
  apply runs_bind; [apply runs_check|intros _]. by apply IH, bytes_drop.
Qed.

Lemma runs_CreateFile works size src :
  Forall is_byte (src_data src) -> runs works (FileManager.CreateFile size src).
Proof.
  intros Hb. apply runs_bind; [|intros [f [e|]]].
  - apply runs_bind; [|intros [[f blk]|e]; [|by apply runs_same]].
    + apply runs_attempt, runs_bind; [by apply runs_same|intros blk].
      apply runs_bind; [by apply runs_same|intros cnt].
      apply runs_bind; [|by intros; apply runs_same].
      by apply (runs_op _ (OpCreateFileDraft size cnt)).
    + apply runs_bind; [|by intros; apply runs_same]. apply runs_attempt.
      apply runs_bind; [by apply runs_same|intros cnt].
      apply runs_bind; [by apply runs_create_parts|intros _].
      by apply (runs_op _ (OpFinishFileCreate f)).
  - destruct (f =? 0); [by apply runs_same|]. apply runs_bind; [|by intros; apply runs_same].
    by apply runs_attempt, (runs_op _ (OpDiscardUnpublishedFile f)).
  - by apply runs_same.
Qed.

(** ** Delete batches *)
Context `{!ErrorView}.

Lemma runs_execute works fuel ws now : ws ⊆ works -> runs works (DeleteWorker.execute_loop fuel ws now).
Proof.
  revert ws. induction fuel as [|fuel IH]; intros ws Hws; cbn [DeleteWorker.execute_loop];
    [by apply runs_same|].
  apply runs_bind; [by apply runs_attempt, runs_delete|]. intros [u|e]; [by apply runs_finish|].
  destruct ws as [|first ws]; [by apply runs_same|].
  destruct (DeleteWorker.classifyBlockDeleteError e _) as [[code retry] delay].
  case_match; [|destruct retry; [|by apply runs_finish]].
  - apply runs_for_each. intros c Hc. apply IH. intros c' ->%list_elem_of_singleton. by apply Hws.
  - apply runs_for_each. intros c Hc. unfold DeleteWorker.settle_retry. case_match; by apply runs_finish.
Qed.

Lemma runs_batch now : runs [] (DeleteWorker.processBlockDeleteBatch now).
Proof.
  intros [w b] up dr cl _. unfold DeleteWorker.processBlockDeleteBatch.
  rewrite (bind_ok (reads _) _ (w, b) (bio_name b) (w, b) eq_refl).
  destruct (DeleteWorker.claimBlockDeleteWork (bio_name b) now w) as [[works|e] w1] eqn:Ec.
  2: { rewrite (bind_err _ _ (w, b) e (w1, b)) by (by rewrite on_db_eq, Ec).
       exists up, dr, cl. split; [done|]. apply rtc_once. by apply (step_claim _ _ _ _ _ _ _ _ _ Ec). }
  rewrite (bind_ok _ _ (w, b) works (w1, b)) by (by rewrite on_db_eq, Ec).
  assert (step (sys_of (w, b) up dr cl) (sys_of (w1, b) up dr (works ++ cl))) as Hcl
    by exact (step_claim _ _ _ _ _ _ _ _ _ Ec).
  assert (cl ⊆ works ++ cl) as Hsub by (intros c Hc; apply elem_of_app; by right).
  case_bool_decide.
  { exists up, dr, (works ++ cl). split; [done|]. by apply rtc_once. }
  destruct (runs_execute works 2 works now ltac:(done) (w1, b) up dr (works ++ cl))
    as (up' & dr' & cl' & Hcl' & R); [intros c Hc; apply elem_of_app; by left|].
  exists up', dr', cl'. split; [by etrans|]. by eapply rtc_l.
Qed.
End Runs.

(** ** WebDAV requests *)

Section WebDAVRuns.
Context `{!Env} `{!S3Object.MimeTypes} `{!FileCodec} `{!Sha} {B : Type} `{!IBlockIO B}.

(** Each mutation is two steps: the expired locks, then its own transaction. *)
Definition mutation_op (m : mutation) (o : WebDAV.WebDAVMutationOptions) : client_op :=
  match m with
  | MkCollection p => OpCreateWebDAVCollection p o
  | Publish p f z => OpPublishWebDAVFile p f z o
  | Patch p l => OpPatchWebDAVProperties p l o
  | Delete p => OpDeleteWebDAVResource p o
  | CopyTo s d ov r => OpCopyWebDAVResource s d ov r o
  | MoveTo s d ov => OpMoveWebDAVResource s d ov o
  end.

Lemma tx_drop {A} (m : M World A) w : (OnTransation (_ ← m; mret tt) w).2 = (OnTransation m w).2.
Proof. unfold OnTransation, mbind, M_bind. by destruct (m w) as [[a|e] w']. Qed.

Lemma mutation_op_eq m o w : (OnTransation (mutation_tx m o) w).2 = run_op (mutation_op m o) w.
Proof. destruct m; cbn [mutation_tx mutation_op run_op]; rewrite ?tx_drop; done. Qed.

Lemma runs_mutation works m o : runs works (on_db (B := B) (run_mutation m o)).
Proof.
  intros [w b] up dr cl _. exists up, dr, cl. split; [done|]. rewrite on_db_eq, run_mutation_eq.
  assert (step (sys_of (w, b) up dr cl) (sys_of ((WebDAV.cleanupExpiredWebDAVLocks w).2, b) up dr cl)) as Hfirst
    by apply (step_op OpCleanupExpiredWebDAVLocks).
  destruct (WebDAV.cleanupExpiredWebDAVLocks w) as [[[]|e] w1]; [|by apply rtc_once].
  eapply rtc_l; [exact Hfirst|]. apply rtc_once. cbn [snd].
  rewrite mutation_op_eq. apply (step_op (mutation_op m o)).
Qed.

(** A LOCK makes its file before its transaction: from a given state. *)
Definition runs_from {A} (s : World * B) (m : M (World * B) A) : Prop := forall up dr cl,
  exists up' dr' cl', cl ⊆ cl' /\ rtc step (sys_of s up dr cl) (sys_of (m s).2 up' dr' cl').

Lemma runs_at {A} s (m : M (World * B) A) : runs [] m -> runs_from s m.
Proof. intros Hm up dr cl. apply Hm. by intros c ?%elem_of_nil. Qed.

Lemma runs_from_bind {A C} s (m : M (World * B) A) (k : A -> M (World * B) C) :
  runs_from s m -> (forall a s1, m s = (Ok a, s1) -> runs_from s1 (k a)) -> runs_from s (m ≫= k).
Proof.
  intros Hm Hk up dr cl. destruct (Hm up dr cl) as (up1 & dr1 & cl1 & Hcl & R1).
  unfold mbind, M_bind. destruct (m s) as [[a|e] s1] eqn:E; [|by exists up1, dr1, cl1].
  destruct (Hk a s1 eq_refl up1 dr1 cl1) as (up2 & dr2 & cl2 & Hcl2 & R2).
  exists up2, dr2, cl2. split; [by etrans|]. by etrans.
Qed.

Lemma Stat_same p w : (Directory.Stat p w).2 = w.
Proof.
  unfold Directory.Stat. destruct (Directory.splitFilename p) as [[dir name] [|]].
  - unfold Directory.txGetRoot, Directory.txSearchEntry, query, reads, mbind, M_bind. by case_match.
  - unfold Directory.onSelectDir, OnTransation, Directory.txOnSelectDir, mbind, M_bind, lift.
    destruct (Directory.rebuildDirItems dir) as [items|e]; [|by destruct w].
    rewrite select_loop_walk. destruct (walk _ _ items) as [pid|e]; [|by destruct w].
    unfold Directory.txSearchEntry, query, reads. cbv beta iota zeta.
    match goal with |- context [match ?x with Some _ => _ | None => _ end] => destruct x end; by destruct w.
Qed.

(** The empty file of a new upload may be linked. *)
Lemma empty_file_ready w b f s' :
  file_inv (db w) ->
  FileManager.CreateFile 0 {| src_data := []; src_err := None |} (w, b) = (Ok f, s') -> lock_file (db s'.1) f.
Proof.
  intros Hinv. unfold FileManager.CreateFile, FileManager.createFile.
  destruct (CreateFileDraft_cases 0 w b) as [(e0 & w1 & Ed & Edb)|(w1 & cnt & Ed & Hcnt & Hr & Hn & Ew)].
  { rewrite (bind_ok _ _ (w, b) (0, Some e0) (w1, b)); [done|].
    by rewrite (bind_ok _ _ (w, b) (Err e0) (w1, b)) by (unfold attempt; by rewrite Ed). }
  assert (cnt = 0) as ->.
  { unfold FileManager.calculateFileBlockCount in Hcnt. cbn in Hcnt. destruct (_ <=? 0); congruence. }
  set (fid := idfn (ids w)) in *. set (w2 := (FileManager.FinishFileCreate fid w1).2).
  rewrite (bind_ok _ _ (w, b) (fid, None) (w2, b)).
  2: { rewrite (bind_ok _ _ (w, b) (Ok (fid, MaxFileSize b)) (w1, b)) by (unfold attempt; by rewrite Ed).
       unfold attempt, mbind, M_bind, lift, on_db. rewrite Hcnt. cbn. done. }
  intros [= <- <-]. right. subst w1. split.
  - eexists. split; [apply sql_update_elem; eexists; split; [apply elem_of_app; right; by left|done]|].
    cbn. by rewrite Z.eqb_refl.
  - split.
    + intros q Hq Ef. cbn in Hq. destruct (decide (d_state q = DsLive)) as [|Hl]; [done|].
      destruct (wf_queued _ (inv_wf _ Hinv) q Hq Hl) as (r & Hin & Er & _). destruct (Hn r Hin). congruence.
    + intros x Hx Ef. destruct (wf_segment_file _ (inv_wf _ Hinv) x Hx) as (r & Hin & Er & _).
      destruct (Hn r Hin). congruence.
Qed.

Lemma prepare_lock w b p :
  file_inv (db w) ->
  runs_from (w, b) (WebDAV.prepareWebDAVLockNullFile p) /\
  forall f s', WebDAV.prepareWebDAVLockNullFile p (w, b) = (Ok f, s') -> lock_file (db s'.1) f.
Proof.
  intros Hinv. unfold WebDAV.prepareWebDAVLockNullFile.
  assert (attempt (on_db (B := B) (Directory.Stat p)) (w, b) = (Ok (Directory.Stat p w).1, (w, b))) as E.
  { unfold attempt. rewrite on_db_eq. pose proof (Stat_same p w) as Es.
    by destruct (Directory.Stat p w) as [o w']; cbn in *; subst w'. }
  unfold runs_from. rewrite (bind_ok _ _ _ _ _ E). destruct (Directory.Stat p w).1 as [r|e].
  { split; [by apply (runs_at (w, b)), runs_same|]. intros f s' [= <- _]. by left. }
  destruct (decide (e = ErrNotExist)).
  - split; [by apply runs_at, runs_CreateFile, Forall_nil_2|]. intros f s'. by apply empty_file_ready.
  - split; [by apply (runs_at (w, b)), runs_same|done].
Qed.

Lemma runs_lock s uuid rq :
  file_inv (db s.1) -> runs_from s (WebDAV.LockWebDAVResource uuid rq).
Proof.
  intros Hinv. destruct s as [w b]. unfold WebDAV.LockWebDAVResource.
  apply runs_from_bind; [by apply runs_at, (runs_op _ OpCleanupExpiredWebDAVLocks)|].
  intros [] [w1 b1] R1. rewrite on_db_eq in R1.
  assert (file_inv (db w1)) as Hinv1.
  { pose proof (cleanupLocks_safe w Hinv) as [Hi _].
    destruct (WebDAV.cleanupExpiredWebDAVLocks w) as [o w1']. by injection R1 as _ <- _. }
  destruct (prepare_lock w1 b1 (WebDAV.LockPath rq) Hinv1) as [Hprep Hfile].
  apply runs_from_bind; [exact Hprep|]. intros f [w2 b2] R2. specialize (Hfile f _ R2). cbn [fst] in Hfile. cbv zeta.
  apply runs_from_bind.
  - intros up dr cl. exists up, dr, cl. split; [done|]. apply rtc_once. unfold attempt. rewrite on_db_eq.
    pose proof (step_lock uuid rq f w2 b2 up dr cl Hfile) as Hs.
    by destruct (OnTransation _ w2) as [o w3].
  - intros r s3 _. apply runs_at.
    assert (runs [] (if f =? 0 then mret (Ok tt) else attempt (on_db (B := B) (DiscardUnpublishedFile f)))) as Hc.
    { destruct (f =? 0); [by apply runs_same|]. by apply runs_attempt, (runs_op _ (OpDiscardUnpublishedFile f)). }
    destruct r as [[lock [|]]|e]; [by apply runs_same| |]; (apply runs_bind; [done|intros; by apply runs_same]).
Qed.
End WebDAVRuns.

(** ** Reachable states *)

Section Theorems.
Context `{!Env} `{!S3Object.MimeTypes} `{!FileCodec} `{!Sha} {B : Type} `{!IBlockIO B} `{!BlockStore B}.

(** A new installation: no files, and a store that has handed nothing out. *)
Record initial (s : Sys B) : Prop := {
  in_file : t_file (db (sys_world s)) = []; in_part : t_part (db (sys_world s)) = [];
  in_delete : t_delete (db (sys_world s)) = []; in_segment : t_segment (db (sys_world s)) = [];
  in_upload : t_upload (db (sys_world s)) = []; in_mpart : t_mpart (db (sys_world s)) = [];
  in_job_file : t_job_file (db (sys_world s)) = [];
  in_store : bs_inv (sys_store s);
  in_refs : forall r, bs_ref_key (sys_store s) r = None;
  in_flight : sys_uploaded s = [] /\ sys_dropped s = [] /\ sys_claimed s = [] }.

Definition reachable (s : Sys B) : Prop := exists s0, initial s0 /\ rtc step s0 s.

Lemma initial_inv s : initial s -> sys_inv s.
Proof.
  intros [Ef Ep Ed Es Eul Emp Ejf Hb Hr (Eu & Edr & Ec)].
  split; unfold recorded; rewrite ?Ep, ?Ed, ?Eu, ?Edr, ?Ec; try done; try (by intros ? ?%elem_of_nil).
  - split; [split; rewrite ?Ef, ?Ed, ?Es, ?Eul, ?Emp, ?Ejf; try (by intros ? ?%elem_of_nil); apply NoDup_nil_2|].
    intros f _ q. rewrite Ed. by intros ?%elem_of_nil.
  - intros r1 r2 k. by rewrite Hr.
  - apply NoDup_nil_2.
  - by intros r [?%elem_of_nil|?%elem_of_nil].
Qed.

Lemma reachable_inv s : ids_positive -> reachable s -> sys_inv s.
Proof. intros Hids (s0 & Hi & R). by apply (steps_inv s0 s Hids (initial_inv s0 Hi)). Qed.

(** C1: In every interleaving of client transactions, purges, uploads and delete batches,
    a physical file with at least one byte whose content is stored at some point and that
    is referenced (by a link, a composite file that is linked, a running multipart upload
    or a backup) at a later point still opens with its size then, and reads back byte for
    byte. A purge of unreferenced files is one step: its queries are not interleaved with
    others. An empty file is left out, since a purge removes it when only a backup holds it. *)
Theorem referenced_file_survives `{!RetryLib} s s' f content fuel sizes :
  ids_positive -> reachable s -> rtc step s s' -> referenced (db (sys_world s')) f -> content <> [] ->
  FileManager.OpenFile f (sys_world s) =
    (Ok (FileManager.Physical (FileStream.newFileStream (zlen content))), sys_world s) ->
  FileStream.stored_file (sys_store s) (FileManager.block_key (sys_world s) f) content ->
  (forall i, 0 < sizes i) -> 2 * zlen content < Z.of_nat fuel ->
  FileManager.OpenFile f (sys_world s') =
    (Ok (FileManager.Physical (FileStream.newFileStream (zlen content))), sys_world s') /\
  FileStream.ReadAll (sys_store s') (FileManager.block_key (sys_world s') f) fuel sizes
    (FileStream.newFileStream (zlen content)) = Ok content.
Proof.
  intros Hids Hreach R Href Hne Hopen Hst Hsizes Hfuel. pose proof (reachable_inv s Hids Hreach) as Hs.
  destruct (steps_inv s s' Hids Hs R) as [Hs' Hk]. split.
  { apply (opens_survives s s'); [done..|by eapply stored_has_delete|done]. }
  eapply FileStream.read_stored; [exact (stored_survives s s' f content Hs Hs' Hk Href Hst)|done|done].
Qed.

(** C2: Whatever is about to be given to [DeleteBlocks], by the delete worker or to
    take back a block that could not be recorded, is not a block of a referenced
    file. *)
Theorem doomed_blocks_unreferenced s r p :
  ids_positive -> reachable s ->
  (exists c, c ∈ sys_claimed s /\ DeleteWorker.deleteRef c = r) \/ r ∈ sys_dropped s ->
  p ∈ t_part (db (sys_world s)) -> referenced (db (sys_world s)) (p_file_id p) ->
  bs_ref_key (sys_store s) r <> Some (p_key p).
Proof.
  intros Hids Hreach Hr Hp Href Ek. pose proof (reachable_inv s Hids Hreach) as Hs.
  destruct (si_parts _ Hs p Hp) as (q & Hq & [Ef _] & Ekq).
  pose proof (si_inj _ Hs _ _ _ Ek Ekq) as ->. destruct s as [w b up dr cl]. destruct Hr as [Hc|Hd].
  - eapply (claimed_not_live w b up dr cl (d_ref q) Hs Hc q Hq); [|done].
    apply (inv_safe _ (si_files _ Hs) _ Href q Hq). congruence.
  - apply (si_dropped _ Hs _ Hd). apply elem_of_app. left. by apply list_elem_of_fmap_2.
Qed.

(** Deletion is final: once a block of a file is queued for deletion, no
    sequence of steps brings a reference to that file back. *)
Theorem queued_never_referenced s s' q :
  ids_positive -> reachable s -> rtc step s s' ->
  q ∈ t_delete (db (sys_world s)) -> d_state q <> DsLive ->
  ~ referenced (db (sys_world s')) (d_file_id q).
Proof.
  intros Hids Hreach R Hq Hn Href. pose proof (reachable_inv s Hids Hreach) as Hs.
  destruct (steps_inv s s' Hids Hs R) as [Hs' Hk].
  destruct (sk_rows _ _ Hk q Hq) as (q' & Hq' & (Ef & _ & _ & Hl) & _).
  apply (Hl Hn). by apply (inv_safe _ (si_files _ Hs') _ Href).
Qed.
End Theorems.

(** C23: The code runs as steps of the system: an upload with [CreateFile], whether it
    succeeds or fails at any point, any number of delete batches, whatever the block
    store answers, a WebDAV mutation, and a LOCK with the upload of the empty file it
    may make first are sequences of the steps above, from any state (a LOCK from any
    that keeps the invariant) and with any other work under way. *)
Theorem code_runs_as_steps `{!Env} `{!S3Object.MimeTypes} `{!FileCodec} `{!Sha} {B} `{!IBlockIO B} `{!ErrorView}
    size src nows mutation options uuid lock (s : World * B) up dr cl :
  Forall is_byte (src_data src) ->
  let as_steps s' := exists up' dr' cl', cl ⊆ cl' /\ rtc step (sys_of s up dr cl) (sys_of s' up' dr' cl') in
  as_steps (FileManager.CreateFile size src s).2 /\
  as_steps (DeleteWorker.RunBlockDeleteWorker nows s).2 /\
  as_steps (on_db (run_mutation mutation options) s).2 /\
  (file_inv (db s.1) -> as_steps (WebDAV.LockWebDAVResource uuid lock s).2).
Proof.
  intros Hb as_steps. assert ([] ⊆ cl) as Hnil by (by intros c ?%elem_of_nil). split_and!.
  - by apply (runs_CreateFile [] size src Hb).
  - apply (runs_for_each []); [|done]. intros now _.
    apply runs_bind; [apply runs_attempt, runs_batch|]. intros. by apply runs_same.
  - by apply (runs_mutation []).
  - intros Hinv. by apply runs_lock.
Qed.

(** ** Runs *)

Section Demo.
#[local] Existing Instances demo_env demo_codec demo_reliable.
#[local] Instance demo_sha : Sha := {| sha1 _ := replicate 20 0; sha256 _ := replicate 32 0 |}.
#[local] Instance demo_mime : S3Object.MimeTypes := fun _ d => d.
#[local] Instance demo_errors : ErrorView :=
  {| as_DeleteFailure _ := None; as_net_Error _ := false; is_context_error _ := false |}.

Definition sys0 : Sys Mem.memBlockIO := sys_of (demo_start, empty_store) [] [] [].

Lemma sys0_initial : initial sys0.
Proof. split; try done. intros k [d Hd]. discriminate Hd. Qed.

Lemma demo_ids : ids_positive.
Proof. intros n. cbn. lia. Qed.

(** One file is uploaded and linked, another is uploaded and given up; the worker
    deletes the blocks of the second one. *)
Definition upload_demo (n : nat) (s : World * Mem.memBlockIO) : World * Mem.memBlockIO :=
  (FileManager.CreateFile (Z.of_nat n) (demo_source n) s).2.
Definition linked (s : World * Mem.memBlockIO) : World * Mem.memBlockIO :=
  (run_op (OpCreateFileLink "/a" 1 10 false) s.1, s.2).
Definition given_up (f : Z) (s : World * Mem.memBlockIO) : World * Mem.memBlockIO :=
  (run_op (OpDiscardUnpublishedFile f) s.1, s.2).
Definition batch (s : World * Mem.memBlockIO) : World * Mem.memBlockIO :=
  (DeleteWorker.processBlockDeleteBatch 5000000000 s).2.

Definition demo_stored : World * Mem.memBlockIO := upload_demo 10 (demo_start, empty_store).
Definition demo_queue : World * Mem.memBlockIO := given_up 4 (given_up 1 (upload_demo 6 (linked demo_stored))).

Lemma demo_bytes n : (n < 256)%nat -> Forall is_byte (src_data (demo_source n)).
Proof.
  intros Hn. apply Forall_fmap, Forall_forall. intros x Hx%elem_of_seq. unfold is_byte. cbn. lia.
Qed.

Lemma run_upload n s up dr cl : (n < 256)%nat ->
  exists up' dr' cl', rtc step (sys_of s up dr cl) (sys_of (upload_demo n s) up' dr' cl').
Proof.
  intros Hn. destruct (runs_CreateFile [] (Z.of_nat n) (demo_source n) (demo_bytes n Hn) s up dr cl)
    as (up' & dr' & cl' & _ & R); [by intros c ?%elem_of_nil|]. by exists up', dr', cl'.
Qed.

Lemma run_stored : exists up dr cl, rtc step sys0 (sys_of demo_stored up dr cl).
Proof. apply run_upload. lia. Qed.

Lemma run_one op s up dr cl : step (sys_of s up dr cl) (sys_of (run_op op s.1, s.2) up dr cl).
Proof. apply step_op. Qed.

Lemma run_after_link s up dr cl : exists up' dr' cl',
  rtc step (sys_of s up dr cl) (sys_of (given_up 4 (given_up 1 (upload_demo 6 (linked s)))) up' dr' cl').
Proof.
  destruct (run_upload 6 (linked s) up dr cl) as (up1 & dr1 & cl1 & R1); [lia|].
  exists up1, dr1, cl1. eapply rtc_l; [apply (run_one (OpCreateFileLink "/a" 1 10 false))|].
  etrans; [exact R1|]. eapply rtc_l; [apply (run_one (OpDiscardUnpublishedFile 1))|].
  apply rtc_once, (run_one (OpDiscardUnpublishedFile 4)).
Qed.

Lemma run_queue up dr cl : exists up' dr' cl',
  rtc step (sys_of demo_stored up dr cl) (sys_of demo_queue up' dr' cl').
Proof. apply run_after_link. Qed.

Lemma run_batch up dr cl : exists up' dr' cl',
  rtc step (sys_of demo_queue up dr cl) (sys_of (batch demo_queue) up' dr' cl').
Proof.
  destruct (runs_batch 5000000000 demo_queue up dr cl) as (up' & dr' & cl' & _ & R);
    [by intros c ?%elem_of_nil|]. by exists up', dr', cl'.
Qed.

Lemma demo_stored_file : FileStream.stored_file demo_stored.2 (FileManager.block_key demo_stored.1 1)
  (src_data (demo_source 10)).
Proof.
  destruct (@CreateFile_ok demo_env Mem.memBlockIO _ _ _ _ 10 (demo_source 10) demo_start empty_store)
    as (w' & b' & Hrun & _ & Hst & _).
  - intros k [d Hd]. discriminate Hd.
  - reflexivity.
  - split; [lia|]. vm_compute. discriminate.
  - vm_compute. discriminate.
  - apply demo_bytes. lia.
  - cbn. lia.
  - by intros r ?%elem_of_nil.
  - by intros r ?%elem_of_nil.
  - by intros r ?%elem_of_nil.
  - unfold demo_stored, upload_demo. change (Z.of_nat 10) with 10. rewrite Hrun. exact Hst.
Qed.

Lemma demo_opens : FileManager.OpenFile 1 demo_stored.1 =
  (Ok (FileManager.Physical (FileStream.newFileStream 10)), demo_stored.1).
Proof. vm_compute. reflexivity. Qed.
Lemma demo_linked : referenced (db (batch demo_queue).1) 1.
Proof. apply has_ref_spec. vm_compute. reflexivity. Qed.

Lemma referenced_file_survives_witness :
  FileManager.OpenFile 1 (batch demo_queue).1 =
    (Ok (FileManager.Physical (FileStream.newFileStream 10)), (batch demo_queue).1) /\
  FileStream.ReadAll (batch demo_queue).2 (FileManager.block_key (batch demo_queue).1 1) 30 (fun _ => 3)
    (FileStream.newFileStream 10) = Ok [0; 1; 2; 3; 4; 5; 6; 7; 8; 9].
Proof.
  destruct run_stored as (up1 & dr1 & cl1 & R1). destruct (run_queue up1 dr1 cl1) as (up2 & dr2 & cl2 & R2).
  destruct (run_batch up2 dr2 cl2) as (up3 & dr3 & cl3 & R3).
  assert (forall st fin, rtc step sys0 (sys_of st up1 dr1 cl1) ->
    rtc step (sys_of st up1 dr1 cl1) (sys_of fin up3 dr3 cl3) -> referenced (db fin.1) 1 ->
    FileManager.OpenFile 1 st.1 = (Ok (FileManager.Physical (FileStream.newFileStream 10)), st.1) ->
    FileStream.stored_file st.2 (FileManager.block_key st.1 1) (src_data (demo_source 10)) ->
    FileManager.OpenFile 1 fin.1 = (Ok (FileManager.Physical (FileStream.newFileStream 10)), fin.1) /\
    FileStream.ReadAll fin.2 (FileManager.block_key fin.1 1) 30 (fun _ => 3) (FileStream.newFileStream 10)
    = Ok (src_data (demo_source 10))) as K.
  { intros st fin Q1 Q2 Hl Ho Hs.
    apply (referenced_file_survives (sys_of st up1 dr1 cl1) (sys_of fin up3 dr3 cl3) 1
      (src_data (demo_source 10)) 30 (fun _ => 3) demo_ids).
    - exists sys0. split; [apply sys0_initial|exact Q1].
    - exact Q2.
    - exact Hl.
    - discriminate.
    - exact Ho.
    - exact Hs.
    - intros i. lia.
    - vm_compute. reflexivity. }
  exact (K demo_stored (batch demo_queue) R1 (transitivity R2 R3) demo_linked demo_opens demo_stored_file).
Defined.

Lemma demo_queued_row : exists q, q ∈ t_delete (db demo_queue.1) /\ d_state q = DsPending /\ d_file_id q = 4.
Proof.
  assert (existsb (fun q => DeleteWorker.in_state DsPending q && (d_file_id q =? 4))
    (t_delete (db demo_queue.1)) = true) as E by (vm_compute; reflexivity).
  apply existsb_exists in E as (q & Hq & [Hs Hf]%andb_true_iff). exists q.
  apply list_elem_of_In in Hq. apply in_state_eq in Hs. by apply Z.eqb_eq in Hf.
Qed.

Lemma queued_never_referenced_witness :
  exists q, q ∈ t_delete (db demo_queue.1) /\ d_state q = DsPending /\ d_file_id q = 4 /\
    ~ referenced (db (batch demo_queue).1) 4.
Proof.
  destruct run_stored as (up1 & dr1 & cl1 & R1). destruct (run_queue up1 dr1 cl1) as (up2 & dr2 & cl2 & R2).
  destruct (run_batch up2 dr2 cl2) as (up3 & dr3 & cl3 & R3).
  assert (forall qu fin q, rtc step sys0 (sys_of qu up2 dr2 cl2) ->
    rtc step (sys_of qu up2 dr2 cl2) (sys_of fin up3 dr3 cl3) -> q ∈ t_delete (db qu.1) ->
    d_state q = DsPending -> ~ referenced (db fin.1) (d_file_id q)) as K.
  { intros qu fin q Q1 Q2 Hq Es.
    apply (queued_never_referenced (sys_of qu up2 dr2 cl2) (sys_of fin up3 dr3 cl3) q demo_ids).
    - exists sys0. split; [apply sys0_initial|exact Q1].
    - exact Q2.
    - exact Hq.
    - rewrite Es. discriminate. }
  destruct demo_queued_row as (q & Hq & Es & Ef). exists q. split; [exact Hq|]. split; [exact Es|].
  split; [exact Ef|]. rewrite <- Ef. exact (K demo_queue (batch demo_queue) q (transitivity R1 R2) R3 Hq Es).
Defined.

(** The worker has claimed the block [uuuk] of the file that was given up. *)
Definition demo_claim : World * list DeleteWorker.blockDeleteWork :=
  match DeleteWorker.claimBlockDeleteWork "mem" 5000000000 demo_queue.1 with
  | (Ok works, w) => (w, works)
  | (Err _, w) => (w, [])
  end.

Lemma demo_claim_run :
  DeleteWorker.claimBlockDeleteWork "mem" 5000000000 demo_queue.1 = (Ok demo_claim.2, demo_claim.1).
Proof. vm_compute. reflexivity. Qed.

Lemma demo_claimed : exists c, c ∈ demo_claim.2 /\ DeleteWorker.deleteRef c = "uuuk".
Proof.
  assert (existsb (fun c => String.eqb (DeleteWorker.deleteRef c) "uuuk") demo_claim.2 = true) as E
    by (vm_compute; reflexivity).
  apply existsb_exists in E as (c & Hc & Hr). exists c. apply list_elem_of_In in Hc.
  by apply String.eqb_eq in Hr.
Qed.

Lemma demo_part : exists p, p ∈ t_part (db demo_claim.1) /\ p_file_id p = 1.
Proof.
  assert (existsb (fun p => p_file_id p =? 1) (t_part (db demo_claim.1)) = true) as E
    by (vm_compute; reflexivity).
  apply existsb_exists in E as (p & Hp & Hf). exists p. apply list_elem_of_In in Hp.
  by apply Z.eqb_eq in Hf.
Qed.

Lemma demo_still_linked : referenced (db demo_claim.1) 1.
Proof. apply has_ref_spec. vm_compute. reflexivity. Qed.

Lemma doomed_blocks_unreferenced_witness : exists p,
  p ∈ t_part (db demo_claim.1) /\ p_file_id p = 1 /\ bs_ref_key demo_queue.2 "uuuk" <> Some (p_key p).
Proof.
  destruct run_stored as (up1 & dr1 & cl1 & R1). destruct (run_queue up1 dr1 cl1) as (up2 & dr2 & cl2 & R2).
  assert (forall qu cw works p, rtc step sys0 (sys_of qu up2 dr2 cl2) ->
    DeleteWorker.claimBlockDeleteWork "mem" 5000000000 qu.1 = (Ok works, cw) ->
    (exists c, c ∈ works /\ DeleteWorker.deleteRef c = "uuuk") ->
    p ∈ t_part (db cw) -> referenced (db cw) (p_file_id p) -> bs_ref_key qu.2 "uuuk" <> Some (p_key p)) as K.
  { intros qu cw works p Q Hclaim (c & Hc & Er) Hp Href.
    apply (doomed_blocks_unreferenced (sys_of (cw, qu.2) up2 dr2 (works ++ cl2)) "uuuk" p demo_ids).
    - exists sys0. split; [apply sys0_initial|]. etrans; [exact Q|]. apply rtc_once.
      exact (step_claim _ _ _ _ _ _ _ _ _ Hclaim).
    - left. exists c. split; [apply elem_of_app; left; exact Hc|exact Er].
    - exact Hp.
    - exact Href. }
  destruct demo_part as (p & Hp & Ef). exists p. split; [exact Hp|]. split; [exact Ef|].
  apply (K demo_queue demo_claim.1 demo_claim.2 p (transitivity R1 R2) demo_claim_run demo_claimed Hp).
  rewrite Ef. exact demo_still_linked.
Defined.

Definition a_lock : WebDAV.WebDAVLockRequest :=
  {| WebDAV.LockPath := "/l"; WebDAV.Depth := "0"; WebDAV.OwnerXML := ""; WebDAV.LockPrincipal := "u";
     WebDAV.Timeout := 1000 |}.
Definition no_options : WebDAV.WebDAVMutationOptions :=
  {| WebDAV.Principal := "u"; WebDAV.Condition := None; WebDAV.MaxEntries := 0; WebDAV.QuotaRoot := "/";
     WebDAV.QuotaBytes := 0 |}.

Lemma code_runs_as_steps_witness :
  (exists up' dr' cl',
     rtc step sys0 (sys_of (FileManager.CreateFile 6 (demo_source 6) (demo_start, empty_store)).2 up' dr' cl')) /\
  (exists up' dr' cl',
     rtc step sys0 (sys_of (WebDAV.LockWebDAVResource "t" a_lock (demo_start, empty_store)).2 up' dr' cl')).
Proof.
  destruct (code_runs_as_steps 6 (demo_source 6) [] (MkCollection "/d") no_options "t" a_lock
    (demo_start, empty_store) [] [] []) as ((up1 & dr1 & cl1 & _ & R1) & _ & _ & Hlock);
    [apply demo_bytes; lia|].
  destruct Hlock as (up2 & dr2 & cl2 & _ & R2); [exact (si_files _ (initial_inv _ sys0_initial))|].
  split; [by exists up1, dr1, cl1|by exists up2, dr2, cl2].
Defined.
End Demo.
