(* ===== verification/BackupTheorems.v ===== *)
(** * Backups: theorems

    The parts of a snapshot stay readable until it is released; a staged part is the block
    the archive describes, and a block that could not be staged is recorded for deletion;
    a restored file reads back when its parts have the block size of the store, and never
    ends when they are smaller; what an import publishes. *)

From stdpp Require Import base strings list gmap relations.
From S2P Require Import Prelude GoStr Crc BlockIO FileStream CompositeStream Store Directory DirFrame References RefInv.
From S2P Require Import DeleteWorker Dao Mutation S3Object FileManager UploadProofs LinkSafety Multipart MultipartSafety.
From S2P Require Import BackupFmt Archive ManifestSpec ArchiveTheorems BackupExport BackupImport BackupSafety WebDAV WebDAVSafety System SystemTheorems.
Import References BackupFmt BackupExport BackupImport.

(** ** Staging a part *)

Section Stage.
Context `{!Env} `{!FileCodec} `{!Sha} {B : Type} `{!IBlockIO B} `{!BlockStore B}.

(** [StageBackupPart] once there is a block. *)
Definition stage_after (job : string) (staged : stagedBackupPart) (err : option err) : M (World * B) unit :=
  backend ← reads (fun s => bio_name s.2);
  persisted ← attempt (on_db (persistBackupPart backend job staged));
  match persisted with
  | Err e =>
      compensated ← attempt (deleteUnpersistedBackupPart staged);
      fail match compensated with Err c => c | Ok _ => default e err end
  | Ok _ =>
      match err with
      | Some e => discardFailedBackupPart (st_targetID staged) e
      | None =>
          verified ← attempt (verifyBackupPartReadback staged);
          match verified with
          | Err e => discardFailedBackupPart (st_targetID staged) e
          | Ok _ =>
              advanced ← attempt (on_db (advanceBackupPartCursor job staged));
              match advanced with
              | Err e => discardFailedBackupPart (st_targetID staged) e
              | Ok _ => mret tt
              end
          end
      end
  end.

Definition staged_of (t : Z) (ref : string) (part : Part) (res : UploadResult) : stagedBackupPart :=
  {| st_targetID := t; st_fileRef := ref; st_index := part_Index part; st_size := part_Size part;
     st_md5 := part_MD5 part; st_sha256 := part_SHA256 part; st_fileKey := FileKey res;
     st_deleteRef := DeleteRef res; st_uploaded := UploadedAt res |}.
Definition upload_error (part : Part) (data : list Z) : option err :=
  if negb (zlen data =? part_Size part) || negb (String.eqb (md5_hex data) (part_MD5 part)) ||
     negb (String.eqb (Archive.sha256_hex data) (part_SHA256 part)) then Some ErrChecksum else None.

Lemma stage_upload job part src w (b : B) t ref next r s' :
  readBackupStageTarget job (part_Entry part) w = (Ok (t, ref, next), w) -> part_Index part = next ->
  bs_inv b -> Forall is_byte (src_data src) -> StageBackupPart job part src (w, b) = (r, s') ->
  (exists e n b', Upload src b = (Err e, n, b') /\ r = Err ErrBackupBackendUpload) \/
  r = Err ErrInvalidUploadDeleteReference \/
  exists res b1, Upload src b = (Ok res, zlen (src_data src), b1) /\
    stage_after job (staged_of t ref part res) (upload_error part (src_data src)) (w, b1) = (r, s').
Proof.
  intros Hread Hi Hb Hbytes Hrun. unfold StageBackupPart in Hrun.
  rewrite (bind_ok _ _ (w, b) (t, ref, next) (w, b)) in Hrun by (by rewrite on_db_eq, Hread). cbv beta iota in Hrun.
  destruct (Z.ltb_spec (part_Index part) next); [lia|]. rewrite <- Hi, Z.eqb_refl in Hrun. cbn [negb check] in Hrun.
  rewrite (bind_ok (mret tt) _ (w, b) tt (w, b) eq_refl) in Hrun.
  destruct (Upload src b) as [[[res|e] n] b1] eqn:Eu.
  2: { left. exists e, n, b1. split; [done|]. unfold uploadBackupPart, FileManager.upload, attempt, mbind, M_bind in Hrun.
       cbn in Hrun. rewrite Eu in Hrun. cbn in Hrun. by injection Hrun. }
  right. pose proof Eu as Hu. apply bs_upload in Hu as (_ & _ & _ & _ & -> & _); [|done|done].
  unfold uploadBackupPart in Hrun.
  destruct (bool_decide (FileKey res = "") || bool_decide (DeleteRef res = "") || (UploadedAt res <=? 0)) eqn:Ebad.
  { left. unfold FileManager.upload, attempt, mbind, M_bind in Hrun. cbn in Hrun. rewrite Eu in Hrun. cbn in Hrun.
    rewrite Ebad in Hrun. cbn in Hrun. by injection Hrun. }
  right. exists res, b1. split; [done|]. unfold stage_after. rewrite <- Hrun.
  unfold FileManager.upload, attempt, mbind, M_bind. cbn. rewrite Eu. cbn. rewrite Ebad. cbn.
  rewrite (ztake_ge (zlen (src_data src))) by lia. reflexivity.
Qed.

(** The row of a file of the import, which waits for part [k]. *)
Definition waits (d : DB) (job ref : string) (t k : Z) : Prop :=
  exists j, sql_select (job_file_is job ref) (t_job_file d) = [j] /\ jf_layout j = 1 /\ jf_target_file_id j = t /\
    jf_next_part j = k.

Lemma select_update {R} (P Q : R -> bool) f l :
  (forall x, P (f x) = P x) ->
  sql_select P (sql_update Q f l) = map (fun x => if Q x then f x else x) (sql_select P l).
Proof.
  intros Hf. unfold sql_select, sql_update. induction l as [|x l IH]; cbn; [done|].
  assert (P (if Q x then f x else x) = P x) as -> by (by case_match).
  destruct (P x); cbn; by rewrite IH.
Qed.

Lemma read_target d job entry ref t k w : db w = d -> waits d job ref t k -> backupPartFileRef entry = Ok ref ->
  readBackupStageTarget job entry w = (Ok (t, ref, k), w).
Proof.
  intros <- (j & Hsel & Hl & Ht & Hk) Href. unfold readBackupStageTarget. rewrite Href.
  rewrite (bind_ok (lift (Ok ref)) _ w ref w eq_refl).
  assert (sql_select (fun j => job_file_is job ref j && (jf_layout j =? 1)) (t_job_file (db w)) = [j]) as E.
  { assert (forall l, sql_select (fun j => job_file_is job ref j && (jf_layout j =? 1)) l =
      sql_select (fun j => jf_layout j =? 1) (sql_select (job_file_is job ref) l)) as ->.
    { intros l. unfold sql_select. induction l as [|x l IH]; cbn; [done|]. destruct (job_file_is job ref x); cbn; by rewrite IH. }
    rewrite Hsel. cbn. by rewrite Hl. }
  unfold query, reads, mbind, M_bind. cbn. rewrite E. cbn. by rewrite Ht, Hk.
Qed.

Lemma move_stage_waits job ref t k f w a w' :
  waits (db w) job ref t k -> (forall j, job_file_is job ref (f j) = job_file_is job ref j) ->
  (forall j, jf_layout (f j) = jf_layout j /\ jf_target_file_id (f j) = jf_target_file_id j) ->
  move_stage job ref k f w = (Ok a, w') ->
  db w' = set_job_file (fun _ => t_job_file (db w')) (db w) /\
  forall k', (forall j, jf_next_part j = k -> jf_next_part (f j) = k') -> waits (db w') job ref t k'.
Proof.
  intros (j & Hsel & Hl & Ht & Hk) Hf1 Hf2 Hrun. unfold move_stage in Hrun. do 2 step_ok Hrun. apply check_ok in Hrun as [-> _].
  split; [done|]. intros k' Hk'. exists (f j). cbn. rewrite select_update, Hsel by done. cbn.
  assert (job_file_is job ref j = true) as Hj.
  { assert (j ∈ sql_select (job_file_is job ref) (t_job_file (db w))) as Hin by (rewrite Hsel; by left).
    by apply sql_select_elem in Hin as [_ ?]. }
  unfold at_stage. rewrite Hj, Hk, Z.eqb_refl. cbn. destruct (Hf2 j) as [-> ->]. auto.
Qed.

(** A part was staged: its block is stored and recorded, and the next one is awaited. *)
Record part_staged (job ref : string) (t k : Z) (part : Part) (data : list Z) (s s' : World * B) : Prop := {
  ps_row : exists p, t_part (db s'.1) = t_part (db s.1) ++ [p] /\ p_file_id p = t /\ p_part_id p = k /\
    bs_block s'.2 (p_key p) = Some data;
  ps_new : forall p, p ∈ t_part (db s.1) -> p_file_id p = t -> p_part_id p <> k;
  ps_checked : upload_error part data = None;
  ps_waits : waits (db s'.1) job ref t (k + 1);
  ps_files : t_file (db s'.1) = t_file (db s.1);
  ps_store : bs_inv s'.2 /\ MaxFileSize s'.2 = MaxFileSize s.2 /\
    forall key, is_Some (bs_block s.2 key) -> bs_block s'.2 key = bs_block s.2 key }.

Lemma readback_same st w (b : B) r s' : verifyBackupPartReadback st (w, b) = (r, s') -> s' = (w, b).
Proof.
  unfold verifyBackupPartReadback. rewrite (bind_ok (reads snd) _ (w, b) b (w, b) eq_refl).
  destruct (Download _ _ _) as [rc|e]; [|by intros [= _ <-]]. destruct (rc_copy _ _) as [data e].
  unfold check, mbind, M_bind. destruct (bool_decide (is_Some e)); [by intros [= _ <-]|]. cbn. by case_match; intros [= _ <-].
Qed.

Lemma stage_after_ok job st err w (b : B) s' :
  stage_after job st err (w, b) = (Ok tt, s') ->
  err = None /\ s'.2 = b /\ exists w1, persistBackupPart (bio_name b) job st w = (Ok tt, w1) /\
    advanceBackupPartCursor job st w1 = (Ok tt, s'.1).
Proof.
  intros Hrun. unfold stage_after in Hrun. rewrite (bind_ok (reads _) _ (w, b) (bio_name b) (w, b) eq_refl) in Hrun.
  apply bind_ok_inv in Hrun as (r & s1 & R1 & Hrun). unfold attempt in R1. rewrite on_db_eq in R1.
  destruct (persistBackupPart (bio_name b) job st w) as [[[]|e] w1] eqn:Ep; cbn in R1; injection R1 as <- <-.
  2: { by apply bind_ok_inv in Hrun as (? & ? & _ & ?). }
  destruct err as [e|]; [by apply bind_ok_inv in Hrun as (? & ? & _ & ?)|]. split; [done|].
  apply bind_ok_inv in Hrun as (r & s1 & R1 & Hrun). unfold attempt in R1.
  destruct (verifyBackupPartReadback st (w1, b)) as [r1 s2] eqn:Ev. cbn in R1. injection R1 as <- <-.
  apply readback_same in Ev as ->. destruct r1 as [[]|e]; [|by apply bind_ok_inv in Hrun as (? & ? & _ & ?)].
  apply bind_ok_inv in Hrun as (r & s1 & R1 & Hrun). unfold attempt in R1. rewrite on_db_eq in R1.
  destruct (advanceBackupPartCursor job st w1) as [[[]|e] w2] eqn:Ea; cbn in R1; injection R1 as <- <-.
  2: { by apply bind_ok_inv in Hrun as (? & ? & _ & ?). }
  injection Hrun as <-. split; [done|]. by exists w1.
Qed.

Lemma stage_part_ok job part src w (b : B) t ref k s' :
  waits (db w) job ref t k -> backupPartFileRef (part_Entry part) = Ok ref -> part_Index part = k ->
  bs_inv b -> Forall is_byte (src_data src) -> StageBackupPart job part src (w, b) = (Ok tt, s') ->
  part_staged job ref t k part (src_data src) (w, b) s'.
Proof.
  intros Hw Href Hk Hb Hbytes Hrun. pose proof (read_target _ _ _ _ _ _ w eq_refl Hw Href) as Hread.
  destruct (stage_upload _ _ _ _ _ _ _ _ _ _ Hread Hk Hb Hbytes Hrun) as [(? & ? & ? & _ & ?)|[?|(res & b1 & Hu & Ha)]]; [done..|].
  apply stage_after_ok in Ha as (Herr & Eb & w1 & Hp & Hadv). destruct s' as [w' b']. cbn in Eb, Hadv. subst b'.
  apply bs_upload in Hu as (Hb1 & Hm & _ & _ & _ & _ & _ & Hnone & _ & Hblk); [|done|done].
  unfold persistBackupPart in Hp. step_ok Hp. injection Hp0 as <-. rewrite OnTransation_ok in Hp.
  apply bind_ok_inv in Hp as ([] & w2 & R1 & Hp). pose proof R1 as R2. apply insert_staged_ok in R1 as [-> _].
  cbn [staged_of st_fileRef st_index] in Hp. rewrite Hk in Hp.
  apply (move_stage_waits job ref t k) in Hp as [E1 W1]; [|done|done|done].
  unfold advanceBackupPartCursor in Hadv. step_ok Hadv. injection Hadv0 as <-.
  cbn [staged_of st_fileRef st_index] in Hadv. rewrite Hk in Hadv.
  apply (move_stage_waits job ref t k) in Hadv as [E2 W2]; [|cbn; by apply W1|done|done].
  cbn [db] in E2. split; cbn [fst snd].
  - exists (staged_part (staged_of t ref part res) (clk (ticks w))). rewrite E2, E1. cbn.
    split; [done|]. split; [done|]. split; [done|]. by rewrite Hblk, decide_True.
  - intros p Hpin Ept Epk. unfold insert_staged in R2. step_ok R2.
    apply bind_ok_inv in R2 as (? & ? & R2 & _). apply check_ok in R2 as [_ Hex].
    rewrite sql_exists_false in Hex. specialize (Hex p Hpin). cbn in Hex. by rewrite Ept, Epk, Hk, !Z.eqb_refl in Hex.
  - done.
  - by apply W2.
  - rewrite E2, E1. done.
  - split; [done|]. split; [done|]. intros key [d Hd]. rewrite Hblk. case_decide; [|done]. subst. congruence.
Qed.

(** ** All parts of a file, one after the other *)

Definition stage_parts (job : string) (parts : list (Part * list Z)) : M (World * B) unit :=
  for_each (fun pd => StageBackupPart job pd.1 {| src_data := pd.2; src_err := None |}) parts.

(** The parts of the file [ref] as the archive delivers them, from number [k] on. *)
Fixpoint archived (ref : string) (k : Z) (parts : list (Part * list Z)) : Prop :=
  match parts with
  | [] => True
  | (part, data) :: parts =>
      part_Index part = k /\ backupPartFileRef (part_Entry part) = Ok ref /\ Forall is_byte data /\
      archived ref (k + 1) parts
  end.

(** Block [i] of the file [t] is stored and found under its number. *)
Definition holds (s : World * B) (t : Z) (blocks : list (list Z)) : Prop :=
  forall i d, blocks !! i = Some d -> exists key,
    FileManager.block_key s.1 t (Z.of_nat i) = Ok key /\ bs_block s.2 key = Some d.

Lemma holds_staged job ref t part data s s' blocks :
  holds s t blocks -> part_staged job ref t (zlen blocks) part data s s' -> holds s' t (blocks ++ [data]).
Proof.
  intros Hh [(p & Ep & Et & Ek & Hd) Hnew _ _ _ (_ & _ & Hkeep)] i d Hi.
  rewrite block_key_eq, Ep. apply lookup_app_Some in Hi as [Hi|[Hi Hs]].
  - destruct (Hh i d Hi) as (key & Hkey & Hblk). rewrite block_key_eq in Hkey. exists key. split; [by apply part_key_old|].
    rewrite Hkeep; [done|]. by exists d.
  - apply list_lookup_singleton_Some in Hs as [Hz ->]. assert (i = length blocks) as -> by lia.
    exists (p_key p). split; [|done]. change (Z.of_nat (length blocks)) with (zlen blocks). rewrite <- Et, <- Ek.
    apply part_key_new. rewrite Et, Ek. apply Hnew.
Qed.

Lemma stage_parts_ok job ref t parts blocks (s s' : World * B) :
  waits (db s.1) job ref t (zlen blocks) -> holds s t blocks -> archived ref (zlen blocks) parts -> bs_inv s.2 ->
  stage_parts job parts s = (Ok tt, s') ->
  holds s' t (blocks ++ map snd parts) /\ Forall (fun pd => upload_error pd.1 pd.2 = None) parts /\
  bs_inv s'.2 /\ MaxFileSize s'.2 = MaxFileSize s.2 /\ t_file (db s'.1) = t_file (db s.1).
Proof.
  revert blocks s. induction parts as [|[part data] parts IH]; intros blocks s Hw Hh Ha Hb Hrun.
  { cbn in Hrun. injection Hrun as <-. by rewrite app_nil_r. }
  destruct Ha as (Hi & Href & Hbytes & Ha). cbn in Hrun. apply bind_ok_inv in Hrun as ([] & s1 & R1 & Hrun).
  destruct s as [w b]. pose proof (stage_part_ok _ _ {| src_data := data; src_err := None |} _ _ _ _ _ _ Hw Href Hi Hb Hbytes R1) as Hps. cbn in Hps.
  pose proof (holds_staged _ _ _ _ _ _ _ _ Hh Hps) as Hh1. destruct Hps as [_ _ Hc Hw1 Hf1 (Hb1 & Hm1 & _)].
  assert (zlen (blocks ++ [data]) = zlen blocks + 1) as El by (by rewrite zlen_app).
  destruct (IH (blocks ++ [data]) s1) as (Q1 & Q2 & Q3 & Q4 & Q5); [by rewrite El|done|by rewrite El|done|done|].
  rewrite <- app_assoc in Q1. cbn in Q1. cbn [fst snd] in *. split; [done|]. split; [by constructor|].
  split; [done|]. split; congruence.
Qed.

(** Blocks as the store cuts them: all but the last are full. *)
Fixpoint full_blocks (size : Z) (blocks : list (list Z)) : Prop :=
  match blocks with
  | [] => True
  | [d] => zlen d <= size
  | d :: blocks => zlen d = size /\ full_blocks size blocks
  end.

Lemma full_blocks_lookup size blocks i :
  0 < size -> full_blocks size blocks -> Z.of_nat i * size < zlen (concat blocks) ->
  blocks !! i = Some (ztake size (zdrop (Z.of_nat i * size) (concat blocks))).
Proof.
  intros Hpos. revert i. induction blocks as [|d blocks IH]; intros i Hf Hi; [unfold zlen in Hi; cbn in Hi; lia|].
  cbn [concat] in *. destruct (decide (blocks = [])) as [->|Hne].
  { cbn in *. rewrite app_nil_r in *. assert (i = 0%nat) as -> by nia. cbn. f_equal. rewrite ztake_ge; [done|]. done. }
  assert (zlen d = size /\ full_blocks size blocks) as [Hd Hf'] by (by destruct blocks).
  destruct i as [|i].
  - cbn [lookup list_lookup]. f_equal. symmetry. unfold ztake, zdrop. rewrite Z.mul_0_l. change (Z.to_nat 0) with 0%nat.
    rewrite drop_0, take_app_le by (unfold zlen in Hd; lia).
    apply take_ge. unfold zlen in Hd. lia.
  - rewrite zlen_app in Hi. cbn [lookup list_lookup]. rewrite IH; [|done|lia]. do 2 f_equal.
    unfold zdrop. rewrite drop_app_ge by (unfold zlen in Hd; lia). f_equal. unfold zlen in Hd. lia.
Qed.

Lemma full_blocks_count size blocks : 0 < size -> full_blocks size blocks -> zlen (concat blocks) <= zlen blocks * size.
Proof.
  intros Hpos. induction blocks as [|d blocks IH]; intros Hf; [done|]. cbn [concat]. rewrite zlen_app.
  destruct (decide (blocks = [])) as [->|Hne]; [cbn in *; unfold zlen in *; cbn; lia|].
  assert (zlen d = size /\ full_blocks size blocks) as [Hd Hf'] by (by destruct blocks).
  specialize (IH Hf'). unfold zlen in *. cbn [length]. nia.
Qed.

Lemma holds_stored s t blocks :
  bs_inv s.2 -> 0 < MaxFileSize s.2 -> full_blocks (MaxFileSize s.2) blocks ->
  zlen blocks <= FileStream.maxFilePartCount -> holds s t blocks ->
  FileStream.stored_file s.2 (FileManager.block_key s.1 t) (concat blocks).
Proof.
  intros Hb Hpos Hf Hn Hh. split; [done|]. split; [done|]. split.
  { pose proof (full_blocks_count _ _ Hpos Hf). nia. }
  intros i Hi Hlt. destruct (Hh (Z.to_nat i) (ztake (MaxFileSize s.2) (zdrop (i * MaxFileSize s.2) (concat blocks))))
    as (key & Hkey & Hblk); [|exists key; by rewrite Z2Nat.id in Hkey].
  rewrite (full_blocks_lookup (MaxFileSize s.2)); rewrite ?Z2Nat.id; done.
Qed.

Context `{!RetryLib}.

(** C29: A restored file reads back: when every part of a file has been staged, each one
    passed the checksums of the archive, and when the parts have the block size of the
    store the file opens with its size and delivers the parts one after the other. *)
Theorem restored_file_reads_back job ref t parts w (b : B) s' r sizes fuel :
  waits (db w) job ref t 0 -> archived ref 0 parts -> bs_inv b -> 0 < MaxFileSize b ->
  full_blocks (MaxFileSize b) (map snd parts) -> zlen parts <= FileStream.maxFilePartCount ->
  head (sql_select (fun x => bool_decide (f_file_id x ∈ [t])) (t_file (db w))) = Some r ->
  f_layout r = 1 -> f_size r = zlen (concat (map snd parts)) ->
  stage_parts job parts (w, b) = (Ok tt, s') ->
  (forall i, 0 < sizes i) -> 2 * f_size r < Z.of_nat fuel ->
  Forall (fun pd => upload_error pd.1 pd.2 = None) parts /\
  FileManager.OpenFile t s'.1 = (Ok (FileManager.Physical (FileStream.newFileStream (f_size r))), s'.1) /\
  FileStream.ReadAll s'.2 (FileManager.block_key s'.1 t) fuel sizes (FileStream.newFileStream (f_size r)) =
    Ok (concat (map snd parts)).
Proof.
  intros Hw Ha Hb Hpos Hf Hn Hr Hl Hsize Hrun Hsz Hfuel.
  destruct (stage_parts_ok job ref t parts [] (w, b) s' Hw) as (Hh & Hc & Hb' & Hm & Hfile); [by intros i d|done..|].
  split; [done|]. cbn [fst snd app] in *. split.
  - apply OpenFile_physical. split; [done|]. exists r. by rewrite Hfile.
  - rewrite Hsize. eapply FileStream.read_stored; [|done|congruence]. rewrite <- Hm in Hpos, Hf.
    apply holds_stored; [done..| |done]. unfold zlen in *. by rewrite length_map.
Qed.

(** C30: A file restored to a store with larger blocks than its parts cannot be read: when
    the first of several parts is shorter than the block size of the store, a reader that
    reads the file to its end gets no end and no error, whatever follows. *)
Theorem restored_smaller_parts_never_end job ref t part first rest w (b : B) s' r sizes fuel :
  waits (db w) job ref t 0 -> archived ref 0 ((part, first) :: rest) -> bs_inv b ->
  zlen first < MaxFileSize b -> concat (map snd rest) <> [] ->
  head (sql_select (fun x => bool_decide (f_file_id x ∈ [t])) (t_file (db w))) = Some r ->
  f_layout r = 1 -> f_size r = zlen (first ++ concat (map snd rest)) ->
  stage_parts job ((part, first) :: rest) (w, b) = (Ok tt, s') -> (forall i, 0 < sizes i) ->
  FileManager.OpenFile t s'.1 = (Ok (FileManager.Physical (FileStream.newFileStream (f_size r))), s'.1) /\
  FileStream.ReadAll s'.2 (FileManager.block_key s'.1 t) fuel sizes (FileStream.newFileStream (f_size r)) = Err Diverge.
Proof.
  intros Hw Ha Hb Hshort Hrest Hr Hl Hsize Hrun Hsz.
  destruct (stage_parts_ok job ref t _ [] (w, b) s' Hw ltac:(by intros i d) Ha Hb Hrun) as (Hh & Hc & Hb' & Hm & Hfile).
  cbn [fst snd app map] in *. split.
  - apply OpenFile_physical. split; [done|]. exists r. by rewrite Hfile.
  - apply (FileStream.short_block_never_ends _ _ first); [done|]. unfold FileStream.in_short. cbn.
    destruct (Hh 0%nat first eq_refl) as (key & Hkey & Hblk). pose proof (zlen_nonneg first).
    rewrite Hsize, zlen_app, Hm. split_and!; try done; try lia; [|by exists key].
    destruct (concat (map snd rest)); [done|]. unfold zlen. cbn. lia.
Qed.

(** ** Failures *)

Lemma read_target_same job entry w : exists r, readBackupStageTarget job entry w = (r, w).
Proof.
  unfold readBackupStageTarget. destruct (backupPartFileRef entry) as [ref|e]; [|by eexists].
  rewrite (bind_ok (lift (Ok ref)) _ w ref w eq_refl), (bind_ok (query _) _ w _ w eq_refl). case_match; by eexists.
Qed.

Lemma stage_without_upload job part src w (b : B) r s' :
  StageBackupPart job part src (w, b) = (r, s') ->
  s' = (w, b) \/ exists t ref, readBackupStageTarget job (part_Entry part) w = (Ok (t, ref, part_Index part), w).
Proof.
  intros Hrun. unfold StageBackupPart in Hrun. destruct (read_target_same job (part_Entry part) w) as [[[[t ref] next]|e] Hread].
  2: { rewrite (bind_err _ _ (w, b) e (w, b)) in Hrun by (by rewrite on_db_eq, Hread). left. by injection Hrun. }
  rewrite (bind_ok _ _ (w, b) (t, ref, next) (w, b)) in Hrun by (by rewrite on_db_eq, Hread). cbv beta iota in Hrun.
  destruct (Z.ltb_spec (part_Index part) next).
  { left. unfold check in Hrun. case_match; by injection Hrun. }
  destruct (decide (next = part_Index part)) as [E|Hne]; [right; exists t, ref; by rewrite Hread, E|]. left.
  rewrite (proj2 (Z.eqb_neq _ _) Hne) in Hrun. by injection Hrun.
Qed.

Lemma refs_kept d d' ref : delete_rel d d' -> ref ∈ d_ref <$> t_delete d -> ref ∈ d_ref <$> t_delete d'.
Proof.
  intros [_ Hr] Hin. enough (d_ref <$> t_delete d' = d_ref <$> t_delete d) as -> by done.
  clear Hin. induction Hr as [|q q' l l' (_ & _ & E & _) _ IH]; [done|]. by rewrite !fmap_cons, E, IH.
Qed.

Lemma discard_kept {A} f e w (b : B) (r : outcome A) s' : file_inv (db w) ->
  discardFailedBackupPart f e (w, b) = (r, s') -> s'.2 = b /\ delete_rel (db w) (db s'.1).
Proof.
  intros Hinv Hrun. unfold discardFailedBackupPart, attempt, mbind, M_bind in Hrun. rewrite on_db_eq in Hrun. cbn in Hrun.
  injection Hrun as _ <-. split; [done|]. by apply DiscardUnpublishedFile_delete.
Qed.

Lemma added_ref d d' key ref : part_added d d' key ref -> ref ∈ d_ref <$> t_delete d'.
Proof.
  intros (p & q & _ & -> & _ & _ & <- & _). rewrite fmap_app. apply elem_of_app. right. by left.
Qed.

Lemma advance_refs job st w : d_ref <$> t_delete (db (advanceBackupPartCursor job st w).2) = d_ref <$> t_delete (db w).
Proof.
  unfold advanceBackupPartCursor, move_stage, now, query, reads, upd, check, mbind, M_bind. cbn. by case_match.
Qed.

Lemma attempt_eq {S A} (m : M S A) st : attempt m st = (Ok (m st).1, (m st).2).
Proof. done. Qed.

Lemma unpersisted_cases st w (b : B) r s' key :
  bs_inv b -> bs_ref_key b (st_deleteRef st) = Some key -> deleteUnpersistedBackupPart st (w, b) = (r, s') ->
  r = Err ErrBackupCompensation \/
  (bs_block s'.2 key = None /\ forall k, k <> key -> bs_block s'.2 k = bs_block b k) \/
  s'.2 = b /\ st_deleteRef st ∈ d_ref <$> t_delete (db s'.1).
Proof.
  intros Hb Hkey. unfold deleteUnpersistedBackupPart. rewrite (bind_ok (reads _) _ (w, b) (bio_name b) (w, b) eq_refl).
  rewrite (bind_ok _ _ _ _ _ (attempt_eq _ _)), on_db_eq. cbn [fst snd].
  destruct (persistBackupCompensationRecord (bio_name b) st w) as [[[]|e2] w2] eqn:Ec; cbn [fst snd].
  - intros [= <- <-]. right. right. split; [done|]. unfold persistBackupCompensationRecord in Ec. step_ok Ec.
    rewrite OnTransation_ok in Ec. apply insert_staged_ok in Ec as [-> _]. cbn [fst db with_db]. eapply added_ref, add_staged_added.
  - rewrite (bind_ok _ _ _ _ _ (attempt_eq _ _)). unfold on_store. cbn.
    destruct (DeleteBlocks [st_deleteRef st] b) as [[[]|e3] b2] eqn:Ed; cbn; intros [= <- <-]; [|by left].
    right. left. apply bs_delete in Ed as (_ & _ & _ & _ & Hother & Hgone); [|done]. cbn. split.
    + eapply Hgone; [done|by left|done].
    + intros k Hk. apply Hother. intros ref ->%list_elem_of_singleton. congruence.
Qed.

(** Once there is a block it is recorded, or deleted, or the error says that neither worked. *)
Lemma stage_after_recorded job st err w (b : B) r s' key :
  file_inv (db w) -> bs_inv b -> bs_ref_key b (st_deleteRef st) = Some key ->
  stage_after job st err (w, b) = (r, s') ->
  r = Err ErrBackupCompensation \/
  (bs_block s'.2 key = None /\ forall k, k <> key -> bs_block s'.2 k = bs_block b k) \/
  s'.2 = b /\ st_deleteRef st ∈ d_ref <$> t_delete (db s'.1).
Proof.
  intros Hinv Hb Hkey Hrun. unfold stage_after in Hrun. rewrite (bind_ok (reads _) _ (w, b) (bio_name b) (w, b) eq_refl) in Hrun.
  assert (attempt (on_db (persistBackupPart (bio_name b) job st)) (w, b) =
    (Ok (persistBackupPart (bio_name b) job st w).1, ((persistBackupPart (bio_name b) job st w).2, b))) as Ep
    by (unfold attempt; by rewrite on_db_eq).
  rewrite (bind_ok _ _ _ _ _ Ep) in Hrun. clear Ep.
  destruct (persistBackupPart (bio_name b) job st w) as [[[]|e] w1] eqn:Ep; cbn [fst snd] in Hrun.
  - destruct (persist_ok _ _ _ _ _ _ Hinv Ep) as [Hinv1 Hadd]. apply added_ref in Hadd. right. right.
    assert (forall A f e w2 (r2 : outcome A) s2, file_inv (db w2) -> d_ref <$> t_delete (db w2) = d_ref <$> t_delete (db w1) ->
      discardFailedBackupPart f e (w2, b) = (r2, s2) -> s2.2 = b /\ st_deleteRef st ∈ d_ref <$> t_delete (db s2.1)) as Hdisc.
    { intros A f e w2 r2 s2 Hi2 E Hd. apply discard_kept in Hd as [-> Hrel]; [|done]. split; [done|].
      eapply refs_kept; [exact Hrel|]. by rewrite E. }
    destruct err as [e|]; [by eapply Hdisc|]. unfold mbind at 1, M_bind at 1, attempt at 1 in Hrun. cbn [fst snd] in Hrun.
    destruct (verifyBackupPartReadback st (w1, b)) as [r1 s2] eqn:Ev. cbn [fst snd] in Hrun.
    apply readback_same in Ev as ->. destruct r1 as [[]|e]; [|by eapply Hdisc].
    unfold mbind at 1, M_bind at 1, attempt at 1 in Hrun. rewrite on_db_eq in Hrun. cbn [fst snd] in Hrun.
    pose proof (advance_refs job st w1) as Eadv. pose proof (proj1 (advance_safe job st w1 Hinv1)) as Hinv2.
    destruct (advanceBackupPartCursor job st w1) as [[[]|e] w2]; cbn [fst snd] in *; [|by eapply Hdisc].
    injection Hrun as _ <-. cbn. by rewrite Eadv.
  - apply persist_err in Ep. assert (r = Err match (deleteUnpersistedBackupPart st (w1, b)).1 with Err c => c | Ok _ => default e err end
      /\ s' = (deleteUnpersistedBackupPart st (w1, b)).2) as [-> ->] by (by injection Hrun).
    destruct (deleteUnpersistedBackupPart st (w1, b)) as [r2 s2] eqn:E2.
    apply (unpersisted_cases _ _ _ _ _ _ Hb Hkey) in E2 as [->|[?|?]]; auto.
Qed.

(** C31: A block that staging a part leaves in the store is known to the database: whatever
    fails after the upload, the block is recorded with its delete reference, so that it can
    be deleted, or it has been deleted, or the error says that neither could be done. *)
Theorem staged_block_recorded job part src w (b : B) r s' key data :
  file_inv (db w) -> bs_inv b -> Forall is_byte (src_data src) ->
  StageBackupPart job part src (w, b) = (r, s') -> bs_block b key = None -> bs_block s'.2 key = Some data ->
  r = Err ErrBackupBackendUpload \/ r = Err ErrInvalidUploadDeleteReference \/ r = Err ErrBackupCompensation \/
  exists q, q ∈ t_delete (db s'.1) /\ bs_ref_key s'.2 (d_ref q) = Some key.
Proof.
  intros Hinv Hb Hbytes Hrun Hnone Hsome. destruct (stage_without_upload _ _ _ _ _ _ _ Hrun) as [->|(t & ref & Hread)].
  { cbn in Hsome. congruence. }
  destruct (stage_upload _ _ _ _ _ _ _ _ _ _ Hread eq_refl Hb Hbytes Hrun) as [(e & n & b' & _ & ->)|[->|(res & b1 & Hu & Ha)]]; [tauto..|].
  apply bs_upload in Hu as (Hb1 & _ & _ & _ & _ & _ & _ & _ & Href & Hblk); [|done|done].
  assert (bs_ref_key b1 (DeleteRef res) = Some (FileKey res)) as Hkey by (by rewrite Href, decide_True).
  destruct (stage_after_recorded _ (staged_of t ref part res) _ _ _ _ _ _ Hinv Hb1 Hkey Ha) as [->|[[Hgone Hother]|[Eb Hin]]]; [tauto| |].
  - destruct (decide (key = FileKey res)) as [->|Hne]; [congruence|].
    rewrite Hother, Hblk, decide_False in Hsome by done. congruence.
  - rewrite Eb in *. rewrite Hblk in Hsome. case_decide as Ek; [|congruence]. subst key. do 3 right.
    apply list_elem_of_fmap in Hin as (q & Eq & Hq). exists q. split; [done|]. rewrite <- Eq. exact Hkey.
Qed.
End Stage.

(** ** Snapshots *)

Section Snapshot.
Context `{!Env} `{!S3Object.MimeTypes} `{!FileCodec} `{!Sha} {B : Type} `{!IBlockIO B} `{!BlockStore B}.

Lemma open_part f i key w (b : B) :
  0 < f < 2 ^ 63 -> 0 <= i -> part_key (t_part (db w)) f i = Ok key ->
  OpenBackupPart (FormatUint f) i (w, b) = (Download key 0 b, (w, b)).
Proof.
  intros Hf Hi Hkey. unfold OpenBackupPart. rewrite ParseUint_FormatUint by lia.
  rewrite (proj2 (Z.ltb_ge i 0) Hi). cbn [check]. rewrite (bind_ok (mret tt) _ (w, b) tt (w, b) eq_refl).
  match goal with |- context [on_db (query ?q) ≫= ?k] =>
    rewrite (bind_ok (on_db (query q)) k (w, b) (q (db w)) (w, b) eq_refl) end.
  assert (forall t, sql_select (fun p => (p_file_id p =? f) && (p_part_id p =? i)) t =
    sql_select (fun r => (p_file_id r =? f) && bool_decide (p_part_id r ∈ [i])) t) as ->.
  { intros t. unfold sql_select. apply List.filter_ext. intros p. f_equal.
    destruct (Z.eqb_spec (p_part_id p) i), (bool_decide_reflect (p_part_id p ∈ [i])) as [Hp|Hp]; try done;
      rewrite list_elem_of_singleton in Hp; done. }
  unfold part_key in Hkey. destruct (head _) as [p|]; [|done]. by injection Hkey as ->.
Qed.

Lemma shape_key t f i key : (f, i, key) ∈ part_shape <$> t -> exists key', part_key t f i = Ok key'.
Proof.
  intros (p & E & Hp)%list_elem_of_fmap. injection E as -> -> _. unfold part_key.
  assert (p ∈ sql_select (fun r => (p_file_id r =? p_file_id p) && bool_decide (p_part_id r ∈ [p_part_id p])) t) as Hin.
  { apply sql_select_elem. split; [done|]. rewrite Z.eqb_refl. by apply bool_decide_eq_true_2, list_elem_of_singleton. }
  destruct (sql_select _ _); [by apply elem_of_nil in Hin|]. by eexists.
Qed.

(** C28: A snapshot keeps what it lists: every part that the manifest of a snapshot names
    can be opened by the file id and the number it gives, and as long as the pins of the
    job are there, whatever else runs and whatever is deleted meanwhile, it is the same
    block with the same bytes. *)
Theorem snapshot_parts_readable mp rq m0 m w1 (s s' : Sys B) file i :
  ids_positive -> reachable s ->
  OnTransation (populateBackupSnapshotTx mp rq m0) (sys_world s) = (Ok m, w1) ->
  let s1 := {| sys_world := w1; sys_store := sys_store s; sys_uploaded := sys_uploaded s;
               sys_dropped := sys_dropped s; sys_claimed := sys_claimed s |} in
  rtc step s1 s' ->
  (forall p, p ∈ t_pin (db w1) -> pin_job p = rq_JobID rq -> p ∈ t_pin (db (sys_world s'))) ->
  file ∈ mf_Files m -> 0 <= i < zlen (file_Parts file) ->
  exists f key, file_SourceFileID file = FormatUint f /\ 0 < f < 2 ^ 63 /\ FileManager.block_key w1 f i = Ok key /\
    OpenBackupPart (file_SourceFileID file) i (w1, sys_store s) = (Download key 0 (sys_store s), (w1, sys_store s)) /\
    OpenBackupPart (file_SourceFileID file) i (sys_world s', sys_store s') =
      (Download key 0 (sys_store s'), (sys_world s', sys_store s')) /\
    forall data, bs_block (sys_store s) key = Some data ->
      exists rc, Download key 0 (sys_store s') = Ok rc /\ rc_ok rc /\ rc_content rc = data.
Proof.
  intros Hids Hreach Hrun s1 R Hpins Hfile Hi. pose proof (reachable_inv s Hids Hreach) as Hs.
  assert (step s s1) as Hstep.
  { destruct s as [w b up dr cl]. pose proof (step_op (OpCreateBackupSnapshot mp rq m0) w b up dr cl) as Hst.
    cbn [run_op] in Hst. cbn [sys_world] in Hrun. by rewrite Hrun in Hst. }
  destruct (step_inv _ _ Hids Hs Hstep) as [Hs1 _]. destruct (steps_inv _ _ Hids Hs1 R) as [Hs' Hk].
  rewrite OnTransation_ok in Hrun. destruct (populate_ok _ _ _ _ _ _ (si_files _ Hs) Hrun) as [(_ & _ & Eshape & _) Hfiles].
  rewrite Forall_forall in Hfiles. destruct (Hfiles file Hfile) as (f & [[-> Hf] Hparts] & Hpin).
  destruct (Hparts i Hi) as [key0 Hin]. rewrite <- Eshape in Hin. apply shape_key in Hin as [key Hkey]. exists f, key.
  split; [done|]. split; [done|]. split; [by rewrite block_key_eq|]. split; [apply open_part; [done|lia|done]|]. destruct Hk as [_ _ Hpre Hrows]. cbn in Hpre, Hrows.
  split; [apply open_part; [done|lia|by eapply part_key_prefix]|].
  intros data Hdata. destruct (part_key_row _ _ _ _ Hkey) as (p & Hp & Hpf & Hpj & <-).
  destruct (si_parts _ Hs1 p Hp) as (q & Hq & [Ef _] & Ek). cbn in Ek.
  destruct (Hrows q Hq) as (q' & Hq' & (Ef' & _) & _ & Hkeep).
  assert (bs_block (sys_store s') (p_key p) = Some data) as Hblk.
  { rewrite <- Hdata. apply Hkeep; [|done|by rewrite Hdata]. apply (inv_safe _ (si_files _ Hs') f); [|done|congruence].
    eapply ref_pin; [by apply Hpins; [exact Hpin|]|done]. }
  destruct (bs_download _ _ 0 _ (si_store _ Hs') Hblk) as (rc & Hd & Hok & Hc); [lia|]. by exists rc.
Qed.
End Snapshot.

(** ** Totals *)

Section Totals.
Context `{!ArchiveLib} `{!FileCodec} `{!Sha}.

Lemma fold_files {A} (g : A -> Part -> A) n files :
  foldl (fun n f => foldl g n (file_Parts f)) n files = foldl g n (parts_of files).
Proof.
  revert n. induction files as [|f files IH]; intros n; [done|]. cbn. rewrite IH. unfold parts_of. cbn. by rewrite foldl_app.
Qed.

Lemma fold_bytes n parts :
  positive_parts parts -> 0 <= n -> n + bytes_of parts <= Multipart.MaxInt64 ->
  foldl (fun n p => wrap64 (n + part_Size p)) n parts = n + bytes_of parts.
Proof.
  intros Hp. revert n. induction Hp as [|p parts Hpos Hp IH]; intros n Hn Hle; cbn [foldl].
  { unfold bytes_of. cbn. lia. }
  unfold bytes_of in *. rewrite fmap_cons in *. change (sumZ (?a :: ?l)) with (a + sumZ l) in *.
  pose proof (bytes_nonneg _ Hp) as Hb. unfold bytes_of in Hb.
  rewrite wrap64_id by (unfold int64, Multipart.MaxInt64 in *; lia). rewrite IH; lia.
Qed.

Lemma fold_count n files : foldl (fun n f => n + zlen (file_Parts f)) n files = n + zlen (parts_of files).
Proof.
  revert n. induction files as [|f files IH]; intros n; [unfold zlen; cbn; lia|]. cbn [foldl]. rewrite IH.
  unfold parts_of. cbn. rewrite zlen_app. fold (parts_of files). unfold parts_of. lia.
Qed.

Definition no_totals : Summary :=
  {| sum_MappingCount := 0; sum_DirectoryCount := 0; sum_FileCount := 0; sum_PartCount := 0; sum_PhysicalBytes := 0 |}.
Definition without_totals (m : Manifest) : Manifest :=
  {| mf_Format := mf_Format m; mf_Version := mf_Version m; mf_CreatedAt := mf_CreatedAt m; mf_Scope := mf_Scope m;
     mf_Source := mf_Source m; mf_Limits := no_totals; mf_RequiredBuckets := mf_RequiredBuckets m;
     mf_Files := mf_Files m; mf_Directories := mf_Directories m; mf_Mappings := mf_Mappings m;
     mf_S3Objects := mf_S3Objects m; mf_WebDAVProperties := mf_WebDAVProperties m |}.

(** The totals of a backup do not wrap around: for every manifest that validation
    accepts, the 64-bit sums that [fillBackupSummary] computes are the exact numbers of
    entries, files and parts and the exact number of bytes, which are those the manifest
    carries, and they stay within the limits. *)
Theorem summary_never_wraps m limits target :
  ValidateManifest m limits target = Ok tt ->
  mf_Limits (fillBackupSummary (without_totals m)) = mf_Limits m /\
  sum_PhysicalBytes (mf_Limits m) = bytes_of (parts_of (mf_Files m)) /\
  0 <= sum_PhysicalBytes (mf_Limits m) <= Multipart.MaxInt64 /\
  (parts_of (mf_Files m) <> [] ->
     sum_PhysicalBytes (mf_Limits m) <= lim_MaxExpandedBytes limits /\
     sum_PartCount (mf_Limits m) <= lim_MaxPartCount limits).
Proof.
  intros [_ _ _ _ _ [_ Hf _ Hlim] _ _ _ _ _ _ Hsum]%validateManifest_ok. rewrite Hsum.
  pose proof (parts_of_positive _ _ Hf) as Hpos. pose proof (bytes_nonneg _ Hpos) as Hb.
  assert (bytes_of (parts_of (mf_Files m)) <= Multipart.MaxInt64) as Hmax.
  { destruct Hlim as [->|(_ & _ & _ & ?)]; [|done]. unfold bytes_of, Multipart.MaxInt64. cbn. lia. }
  cbn [sum_PhysicalBytes sum_PartCount]. split; [|split; [done|split; [lia|]]].
  - unfold fillBackupSummary, without_totals, no_totals. cbn [mf_Limits mf_Files mf_Mappings mf_Directories
      sum_PhysicalBytes sum_PartCount]. rewrite fold_count, fold_files, fold_bytes by (done || lia). f_equal; lia.
  - intros Hne. destruct Hlim as [|(? & _ & ? & _)]; done.
Qed.
End Totals.

(** ** Runs *)

Module Demo.
#[local] Existing Instances DirTheorems.demo_env UploadProofs.demo_codec UploadProofs.demo_reliable.
#[local] Existing Instances SystemTheorems.demo_sha SystemTheorems.demo_mime SystemTheorems.demo_errors.

(** A file of two parts, four bytes and two, restored to stores with blocks of four and of
    eight bytes. *)
Definition digest : string := "0cc175b9c0f1b6a831c399e269772661".
Definition demo_part (i : Z) (data : list Z) : Part * list Z :=
  ({| part_Index := i; part_Size := zlen data; part_MD5 := digest; part_SHA256 := Archive.sha256_hex data;
      part_Entry := part_entry "f00000001" i |}, data).
Definition demo_parts : list (Part * list Z) := [demo_part 0 [97; 98; 99; 100]; demo_part 1 [101; 102]].
Definition demo_file : File :=
  {| file_Ref := "f00000001"; file_SourceFileID := "1"; file_LayoutVersion := 1; file_Size := 6;
     file_CompatibilityMD5 := digest; file_Ctime := 5; file_Mtime := 6; file_Parts := map fst demo_parts;
     file_Segments := []; file_CompletedParts := [] |}.
Definition demo_mapping : Mapping :=
  {| map_Path := "/d/x"; map_FileRef := "f00000001"; map_Size := 6; map_Mode := 420; map_Ctime := 5; map_Mtime := 6 |}.
Definition demo_manifest : Manifest :=
  {| mf_Format := FormatName; mf_Version := FormatVersion; mf_CreatedAt := ""; mf_Scope := "/";
     mf_Source := {| so_SchemaVersion := 1; so_BlockIOKind := "mem"; so_MaxPartSize := 4 |};
     mf_Limits := {| sum_MappingCount := 1; sum_DirectoryCount := 1; sum_FileCount := 1; sum_PartCount := 2;
                     sum_PhysicalBytes := 6 |};
     mf_RequiredBuckets := []; mf_Files := [demo_file];
     mf_Directories := [{| dir_Path := "/d"; dir_Mode := 493; dir_Ctime := 5; dir_Mtime := 6 |}];
     mf_Mappings := [demo_mapping];
     mf_S3Objects := []; mf_WebDAVProperties := [] |}.
Definition begun : World := (BeginBackupImport "job" demo_manifest DirTheorems.demo_start).2.
Definition demo_row : file_row :=
  {| f_id := 1; f_file_id := 1; f_size := 6; f_part_count := 2; f_state := FileStateInit; f_ctime := 5; f_mtime := 6;
     f_extinfo := digest; f_layout := 1 |}.

Lemma begun_waits : waits (db begun) "job" "f00000001" 1 0.
Proof. eexists. vm_compute. repeat split. Qed.
Lemma demo_archived : archived "f00000001" 0 demo_parts.
Proof. cbn. split_and!; try (vm_compute; reflexivity); try done; apply (bool_decide_unpack _); vm_compute; exact Logic.I. Qed.
Lemma new_store_inv n : bs_inv (Mem.New n).
Proof. intros k [d Hd]. discriminate Hd. Qed.

Lemma restored_file_reads_back_witness : exists s',
  stage_parts "job" demo_parts (begun, Mem.New 4) = (Ok tt, s') /\
  FileStream.ReadAll s'.2 (FileManager.block_key s'.1 1) 20 (fun _ => 3) (FileStream.newFileStream 6)
    = Ok [97; 98; 99; 100; 101; 102].
Proof.
  destruct (stage_parts "job" demo_parts (begun, Mem.New 4)) as [r s'] eqn:E.
  assert (r = Ok tt) as -> by (vm_compute in E; by injection E).
  destruct (restored_file_reads_back "job" "f00000001" 1 demo_parts begun (Mem.New 4) s' demo_row (fun _ => 3) 20)
    as (_ & _ & Hread).
  - exact begun_waits.
  - exact demo_archived.
  - apply new_store_inv.
  - vm_compute. reflexivity.
  - vm_compute. split; [reflexivity|discriminate].
  - vm_compute. discriminate.
  - vm_compute. reflexivity.
  - reflexivity.
  - vm_compute. reflexivity.
  - exact E.
  - intros i. lia.
  - vm_compute. reflexivity.
  - exists s'. split; [reflexivity|exact Hread].
Defined.

Definition demo_limits : Limits :=
  {| lim_MaxArchiveBytes := 1000; lim_MaxExpandedBytes := 1000; lim_MaxMappingCount := 10; lim_MaxFileCount := 10;
     lim_MaxPartCount := 10; lim_MaxPathBytes := 100; lim_MaxManifestBytes := 1000; lim_MaxPropertyBytes := 100;
     lim_MaxUserMetaBytes := 100 |}.

(** The archive passes validation for the larger store too. *)
Lemma restored_smaller_parts_never_end_witness : exists s',
  @ValidateManifest ArchiveTheorems.Demo.demo_lib _ _ demo_manifest demo_limits 8 = Ok tt /\
  stage_parts "job" demo_parts (begun, Mem.New 8) = (Ok tt, s') /\
  FileStream.ReadAll s'.2 (FileManager.block_key s'.1 1) 1000 (fun _ => 3) (FileStream.newFileStream 6) = Err Diverge.
Proof.
  destruct (stage_parts "job" demo_parts (begun, Mem.New 8)) as [r s'] eqn:E.
  assert (r = Ok tt) as -> by (vm_compute in E; by injection E).
  destruct (restored_smaller_parts_never_end "job" "f00000001" 1 (demo_part 0 [97; 98; 99; 100]).1 [97; 98; 99; 100]
    [demo_part 1 [101; 102]] begun (Mem.New 8) s' demo_row (fun _ => 3) 1000) as [_ Hread].
  - exact begun_waits.
  - exact demo_archived.
  - apply new_store_inv.
  - vm_compute. reflexivity.
  - vm_compute. discriminate.
  - vm_compute. reflexivity.
  - reflexivity.
  - vm_compute. reflexivity.
  - exact E.
  - intros i. lia.
  - exists s'. split; [vm_compute; reflexivity|]. split; [reflexivity|exact Hread].
Defined.

(** A part whose bytes are not those of the archive: its block is recorded, to be deleted. *)
Definition bad_part : Part :=
  {| part_Index := 0; part_Size := 4; part_MD5 := "other"; part_SHA256 := ""; part_Entry := part_entry "f00000001" 0 |}.
Definition bad_source : BlockIO.source := {| src_data := [97; 98; 99; 100]; src_err := None |}.

Lemma begun_inv : file_inv (db begun).
Proof.
  apply (begin_safe "job" demo_manifest DirTheorems.demo_start); [intros n; cbn; lia|].
  split; [split; try (by intros ? ?%elem_of_nil); apply NoDup_nil_2|]. by intros f _ q ?%elem_of_nil.
Qed.

Lemma staged_block_recorded_witness : exists s' q,
  StageBackupPart "job" bad_part bad_source (begun, Mem.New 4) = (Err ErrChecksum, s') /\
  q ∈ t_delete (db s'.1) /\ bs_ref_key s'.2 (d_ref q) = Some "k".
Proof.
  destruct (StageBackupPart "job" bad_part bad_source (begun, Mem.New 4)) as [r s'] eqn:E.
  assert (r = Err ErrChecksum) as -> by (vm_compute in E; by injection E).
  assert (bs_block s'.2 "k" = Some [97; 98; 99; 100]) as Hblk by (vm_compute in E; injection E as <-; vm_compute; reflexivity).
  destruct (staged_block_recorded "job" bad_part bad_source begun (Mem.New 4) (Err ErrChecksum) s' "k" [97; 98; 99; 100])
    as [?|[?|[?|(q & Hq & Hk)]]]; [| | | | | |discriminate..|].
  - exact begun_inv.
  - apply new_store_inv.
  - apply (bool_decide_unpack _). vm_compute. exact Logic.I.
  - exact E.
  - reflexivity.
  - exact Hblk.
  - exists s', q. split; [reflexivity|]. split; [exact Hq|exact Hk].
Defined.

(** A file is linked and a snapshot taken; then the link is removed, and the worker runs:
    the blocks of the file are still there. *)
Definition demo_request : BackupSnapshotRequest :=
  {| rq_JobID := "job"; rq_Scope := "/"; rq_SchemaVersion := 1; rq_RequiredBuckets := [] |}.
Definition demo_base : Manifest := newBackupManifest demo_request "/" "mem" "" 4.
Definition demo_linked : World * Mem.memBlockIO := SystemTheorems.linked SystemTheorems.demo_stored.
Definition shot : outcome Manifest * World :=
  OnTransation (populateBackupSnapshotTx 4 demo_request demo_base) demo_linked.1.
Definition shot_manifest : Manifest := match shot.1 with Ok m => m | Err _ => demo_base end.
Definition shot_file : File := match mf_Files shot_manifest with f :: _ => f | [] => demo_file end.
Definition unlinked (s : World * Mem.memBlockIO) : World * Mem.memBlockIO :=
  (run_op (OpRemoveFileLink "/a") s.1, s.2).
Definition demo_after : World * Mem.memBlockIO :=
  SystemTheorems.batch (unlinked (shot.2, demo_linked.2)).

Lemma shot_files : mf_Files shot_manifest = [shot_file].
Proof. vm_compute. reflexivity. Qed.
Lemma shot_ok : OnTransation (populateBackupSnapshotTx 4 demo_request demo_base)
  demo_linked.1 = (Ok shot_manifest, shot.2).
Proof. vm_compute. reflexivity. Qed.
Lemma after_pins : t_pin (db demo_after.1) = t_pin (db shot.2).
Proof. vm_compute. reflexivity. Qed.

Lemma shot_len : 1 < zlen (file_Parts shot_file).
Proof. vm_compute. reflexivity. Qed.
Lemma shot_source : file_SourceFileID shot_file = FormatUint 1.
Proof. vm_compute. reflexivity. Qed.
Lemma shot_key : FileManager.block_key shot.2 1 1 = Ok "uk".
Proof. vm_compute. reflexivity. Qed.
Lemma demo_block : bs_block demo_linked.2 "uk" = Some [4; 5; 6; 7].
Proof. vm_compute. reflexivity. Qed.

Lemma run_linked : exists up dr cl, rtc step SystemTheorems.sys0
  (sys_of demo_linked up dr cl).
Proof.
  destruct SystemTheorems.run_stored as (up & dr & cl & R). exists up, dr, cl. etrans; [exact R|].
  apply rtc_once, (SystemTheorems.run_one (OpCreateFileLink "/a" 1 10 false)).
Qed.
Lemma run_after up dr cl : exists up' dr' cl',
  rtc step (sys_of (shot.2, demo_linked.2) up dr cl) (sys_of demo_after up' dr' cl').
Proof.
  destruct (runs_batch 5000000000 (unlinked (shot.2, demo_linked.2)) up dr cl) as (up' & dr' & cl' & _ & R);
    [by intros c ?%elem_of_nil|].
  exists up', dr', cl'. eapply rtc_l; [|exact R]. apply (SystemTheorems.run_one (OpRemoveFileLink "/a")).
Qed.

Lemma snapshot_parts_readable_witness : exists key rc,
  OpenBackupPart (file_SourceFileID shot_file) 1 demo_after = (Download key 0 demo_after.2, demo_after) /\
  Download key 0 demo_after.2 = Ok rc /\ rc_content rc = [4; 5; 6; 7].
Proof.
  destruct run_linked as (up & dr & cl & R1). destruct (run_after up dr cl) as (up2 & dr2 & cl2 & R2).
  assert (forall st w1 fin m file, rtc step SystemTheorems.sys0 (sys_of st up dr cl) ->
    OnTransation (populateBackupSnapshotTx 4 demo_request demo_base) st.1 = (Ok m, w1) ->
    rtc step (sys_of (w1, st.2) up dr cl) (sys_of fin up2 dr2 cl2) -> t_pin (db fin.1) = t_pin (db w1) ->
    mf_Files m = [file] -> 1 < zlen (file_Parts file) -> exists f key,
    file_SourceFileID file = FormatUint f /\ 0 < f < 2 ^ 63 /\ FileManager.block_key w1 f 1 = Ok key /\
    OpenBackupPart (file_SourceFileID file) 1 (w1, st.2) = (Download key 0 st.2, (w1, st.2)) /\
    OpenBackupPart (file_SourceFileID file) 1 (fin.1, fin.2) = (Download key 0 fin.2, (fin.1, fin.2)) /\
    forall data, bs_block st.2 key = Some data ->
      exists rc, Download key 0 fin.2 = Ok rc /\ rc_ok rc /\ rc_content rc = data) as K.
  { intros st w1 fin m file Q1 Hrun Q2 Hpins Hfiles Hlen.
    apply (snapshot_parts_readable 4 demo_request demo_base m w1 (sys_of st up dr cl) (sys_of fin up2 dr2 cl2) file 1
      SystemTheorems.demo_ids).
    - exists SystemTheorems.sys0. split; [apply SystemTheorems.sys0_initial|exact Q1].
    - exact Hrun.
    - exact Q2.
    - intros p Hp _. cbn [sys_world sys_of]. rewrite Hpins. exact Hp.
    - rewrite Hfiles. left.
    - split; [discriminate|exact Hlen]. }
  destruct (K demo_linked shot.2 demo_after shot_manifest shot_file R1 shot_ok R2 after_pins shot_files shot_len)
    as (f & key & Ef & Hf & Hkey & _ & Q2 & Q3).
  assert (f = 1) as -> by (apply FormatUint_inj; [lia|lia|rewrite <- Ef; exact shot_source]).
  rewrite shot_key in Hkey. injection Hkey as <-. rewrite <- surjective_pairing in Q2.
  destruct (Q3 _ demo_block) as (rc & Hd & _ & Hc).
  exists "uk", rc. split; [exact Q2|]. split; [exact Hd|exact Hc].
Defined.

Lemma summary_never_wraps_witness :
  mf_Limits (fillBackupSummary (without_totals demo_manifest)) = mf_Limits demo_manifest.
Proof.
  destruct (@summary_never_wraps ArchiveTheorems.Demo.demo_lib _ _ demo_manifest demo_limits 8) as [H _].
  - vm_compute. reflexivity.
  - exact H.
Defined.
End Demo.
