(* ===== verification/BackupPublish.v ===== *)
(** * What an import publishes

    A successful publication puts exactly the files of the manifest into the tree, each at
    its path with the file that was restored for it, and adds directories at most besides;
    under the policy "fail" none of the paths was taken before. *)

From stdpp Require Import base strings list gmap.
From S2P Require Import Prelude GoStr Store Directory DirFrame Tree DirWalk DirOps DirTx DirTheorems References Dao.
From S2P Require Import Mutation S3Object LinkSafety ObjectTheorems FileManager Multipart BackupFmt Archive BackupImport BackupTheorems.
Import References BackupFmt BackupImport.

(** The components of a path. *)
Definition comps (p : string) : list string := List.filter keep (split_on slash p).

Section Publish.
Context `{!Env} `{!GoodIds}.

(** The tree and the counter of ids are those of a given state. *)
Definition same_tree (X : list directoryEntryTab * nat) (w : World) : Prop := (T w, ids w) = X.
#[local] Instance same_tree_queue X : QueueStable (same_tree X).
Proof. by split. Qed.

(** [m] keeps the tree well-formed and adds directories at most, when it succeeds. *)
Definition only_dirs {A} (m : M World A) : Prop := forall w a w',
  wf_world w -> m w = (Ok a, w') -> wf_world w' /\ adds_dirs (T w) (T w').

Lemma only_dirs_bind {A C} (m : M World A) (k : A -> M World C) :
  only_dirs m -> (forall a, only_dirs (k a)) -> only_dirs (m ≫= k).
Proof.
  intros Hm Hk w c w'' Hw Hrun. apply bind_ok_inv in Hrun as (a & w' & R1 & R2).
  destruct (Hm w a w' Hw R1) as [Hw' H1]. destruct (Hk a w' c w'' Hw' R2) as [Hw'' H2].
  split; [done|by eapply adds_dirs_trans].
Qed.
Lemma only_dirs_each {A} (f : A -> M World unit) l : (forall a, only_dirs (f a)) -> only_dirs (for_each f l).
Proof.
  intros Hf. induction l as [|a l IH]; [|by apply only_dirs_bind].
  intros w x w' Hw [= _ <-]. split; [done|by apply adds_dirs_same].
Qed.
Lemma only_dirs_fold {A C} (f : C -> A -> M World C) acc l : (forall c a, only_dirs (f c a)) -> only_dirs (fold_each f acc l).
Proof.
  intros Hf. revert acc. induction l as [|a l IH]; intros acc; [|apply only_dirs_bind; auto].
  intros w x w' Hw [= _ <-]. split; [done|by apply adds_dirs_same].
Qed.
Lemma only_dirs_tree {A} (m : M World A) : (forall X, preserves (same_tree X) m) -> only_dirs m.
Proof.
  intros Hm w a w' Hw Hrun. pose proof (Hm (T w, ids w) w eq_refl) as E. rewrite Hrun in E. injection E as E1 E2.
  split; [by apply (wf_world_same w)|]. apply adds_dirs_same. intros x. by rewrite E1.
Qed.

Lemma only_dirs_ret {A} (a : A) : only_dirs (mret a).
Proof. apply only_dirs_tree. by intros X w. Qed.
Lemma only_dirs_fail {A} e : only_dirs (fail e : M World A).
Proof. by intros w a w'. Qed.
Lemma only_dirs_check b e : only_dirs (check b e).
Proof. destruct b; [apply only_dirs_fail|apply only_dirs_ret]. Qed.
Lemma only_dirs_query {A} (f : DB -> A) : only_dirs (query f).
Proof. apply only_dirs_tree. by intros X w. Qed.
Lemma only_dirs_now : only_dirs now.
Proof. apply only_dirs_tree. by intros X w. Qed.
Lemma only_dirs_Stat p : only_dirs (Directory.Tx.Stat p).
Proof. apply only_dirs_tree. intros X w. by rewrite Stat_tx_same. Qed.
Lemma only_dirs_Touch p t : only_dirs (Directory.Tx.Touch p t).
Proof.
  intros w a w' Hw Hrun. destruct (Touch_run p t w Hw) as (_ & Hw' & Ha). rewrite Hrun in Hw', Ha.
  split; [done|by apply adds_dirs_same].
Qed.
Lemma only_dirs_Mkdir p : only_dirs (Directory.Tx.Mkdir p).
Proof.
  intros w a w' Hw Hrun. destruct (Mkdir_tx_run p w Hw) as [_ Hok]. rewrite Hrun in Hok. by apply (Hok a).
Qed.
Lemma only_dirs_metadata e mode c m : only_dirs (updateBackupEntryMetadata e mode c m).
Proof.
  intros w a w' Hw [= _ <-].
  assert (retouched (T w) (sql_update (fun r => EntryId_ r =? e) (with_times mode c m) (T w))) as Hre.
  { exists (fun r => if EntryId_ r =? e then with_times mode c m r else r).
    split_and!; [|by intros r; case_match|done]. apply keeps_place_if. by intros r. }
  split; [by apply (wf_world_retouched w)|]. apply adds_dirs_same. intros x. by apply retouched_abs.
Qed.
Lemma only_dirs_property f : only_dirs (upd (set_property f)).
Proof. apply only_dirs_tree. by intros X w. Qed.
Lemma only_dirs_job f : only_dirs (upd (set_job f)).
Proof. apply only_dirs_tree. by intros X w. Qed.
Lemma only_dirs_s3meta f : only_dirs (upd (set_s3meta f)).
Proof. apply only_dirs_tree. by intros X w. Qed.
Lemma only_dirs_mark f t : only_dirs (markFileTreePendingIfUnreferenced f t).
Proof. apply only_dirs_tree. intros X. by apply view_mark. Qed.
Lemma only_dirs_ensure f : only_dirs (ensureFileTreeCanBeLinked f).
Proof. apply only_dirs_tree. intros X. by apply view_ensure. Qed.
End Publish.

Create HintDb onlydirs.
#[export] Hint Resolve only_dirs_ret only_dirs_fail only_dirs_check only_dirs_query only_dirs_now only_dirs_Stat
  only_dirs_Touch only_dirs_Mkdir only_dirs_metadata only_dirs_property only_dirs_job only_dirs_s3meta
  only_dirs_mark only_dirs_ensure : onlydirs.
Ltac only_dirs_step :=
  lazymatch goal with
  | |- only_dirs ?m =>
      lazymatch m with
      | mbind _ _ => apply only_dirs_bind; [|intros ?]
      | for_each _ _ => apply only_dirs_each; intros ?
      | fold_each _ _ _ => apply only_dirs_fold; intros ? ?
      | let _ := _ in _ => cbv zeta
      | match ?x with _ => _ end => destruct x
      | _ => solve [eauto with onlydirs]
      end
  end.
Ltac only_dirs := repeat only_dirs_step.

Section Items.
Context `{!Env} `{!GoodIds}.

Lemma only_dirs_directories m p : only_dirs (publishDirectories m p).
Proof. unfold publishDirectories. only_dirs. Qed.
Lemma only_dirs_properties m p : only_dirs (publishWebDAVProperties m p).
Proof. unfold publishWebDAVProperties. only_dirs. Qed.
Lemma only_dirs_complete job n p : only_dirs (complete job n p).
Proof. unfold complete. only_dirs. Qed.
Lemma only_dirs_insertMeta m : only_dirs (S3Object.insertS3Metadata m).
Proof. unfold S3Object.insertS3Metadata. only_dirs. Qed.

(** A file of the manifest is in place, and directories came at most besides. *)
Definition placed_file (t t' : list directoryEntryTab) (cs : list string) (n : Z * string * Z) : Prop :=
  abs t' cs = Some n /\ forall x, x <> cs -> kept_or_dir t t' x.

Lemma placed_before t t1 t2 cs n : adds_dirs t t1 -> placed_file t1 t2 cs n -> placed_file t t2 cs n.
Proof.
  intros Ha [Hn Ho]. split; [done|]. intros x Hx. eapply kept_or_dir_trans; [apply Ha|by apply Ho].
Qed.
Lemma placed_after t t1 t2 cs n : placed_file t t1 cs n -> adds_dirs t1 t2 -> placed_file t t2 cs n.
Proof.
  intros [Hn Ho] Ha. split.
  - destruct (Ha cs) as [->|[E _]]; [done|congruence].
  - intros x Hx. eapply kept_or_dir_trans; [by apply Ho|apply Ha].
Qed.

Lemma create_places path size ref cs c w ent w' :
  wf_world w -> denotes path (cs ++ [c]) -> Directory.Tx.Create path size ref w = (Ok ent, w') ->
  wf_world w' /\ placed_file (T w) (T w') (cs ++ [c]) (file_node ref size) /\ abs (T w) (cs ++ [c]) = None.
Proof.
  intros Hw Hd Hrun. destruct (created_ok _ _ _ _ _ _ _ _ Hw Hd Hrun) as (Hw' & _ & Hnone & Ha & _).
  split; [done|]. split; [|by apply abs_none]. split; [by rewrite Ha, decide_True|].
  intros x Hx. unfold kept_or_dir. rewrite Ha, decide_False by done. unfold ensured. case_decide; [|by left].
  destruct (abs (T w) x); [by left|by right].
Qed.

Lemma replace_places path size ref m cs c w ent w' :
  wf_world w -> denotes path (cs ++ [c]) -> Directory.Tx.Replace path size ref m w = (Ok ent, w') ->
  wf_world w' /\ placed_file (T w) (T w') (cs ++ [c]) (file_node ref size).
Proof.
  intros Hw Hd Hrun. pose proof (Replace_run path size ref m w Hw) as Hr. cbv zeta in Hr. rewrite Hrun in Hr.
  destruct (get_info (T w) path) as [[[e|] pid]|er]; [|done..]. destruct (_ =? _); [|done].
  destruct Hr as (w2 & ds & _ & Hw2 & Ha & _ & Hok). destruct (Hok _ _ Hd) as [-> [= <- <-]].
  split; [done|]. split; [by rewrite Ha, decide_True|]. intros x Hx. left. by rewrite Ha, decide_False.
Qed.

Lemma only_dirs_lift {A} (o : outcome A) : only_dirs (lift o).
Proof. apply only_dirs_tree. by intros X w. Qed.
Lemma only_dirs_deleteMeta e : only_dirs (S3Object.deleteS3Metadata e).
Proof. unfold S3Object.deleteS3Metadata. only_dirs. Qed.
Hint Resolve only_dirs_lift only_dirs_deleteMeta only_dirs_insertMeta : onlydirs.

Lemma mapping_placed policy item f p cs c w ent p' w' :
  wf_world w -> denotes (map_Path item) (cs ++ [c]) -> publishMapping policy item f p w = (Ok (ent, p'), w') ->
  wf_world w' /\ placed_file (T w) (T w') (cs ++ [c]) (file_node (FormatUint f) (map_Size item)) /\
  pb_created p' + pb_replaced p' = pb_created p + pb_replaced p + 1 /\
  (policy <> "replace" -> pb_replaced p' = pb_replaced p /\ abs (T w) (cs ++ [c]) = None).
Proof.
  intros Hw Hd Hrun. unfold publishMapping in Hrun. apply bind_ok_inv in Hrun as (cur & w1 & R1 & Hrun).
  pose proof (Stat_tx_same (map_Path item) w) as E1. rewrite R1 in E1. cbn in E1. subst w1. destruct cur as [cur|].
  - unfold replaceMapping in Hrun. apply bind_ok_inv in Hrun as ([] & w1 & R2 & Hrun). apply check_ok in R2 as [-> Hpol].
    apply orb_false_iff in Hpol as [Hpol%negb_false_iff%String.eqb_eq _].
    apply bind_ok_inv in Hrun as (old & w1 & R2 & Hrun). apply only_dirs_lift in R2 as [Hw1 A1]; [|done].
    apply bind_ok_inv in Hrun as ([] & w2 & R2 & Hrun). apply only_dirs_deleteMeta in R2 as [Hw2 A2]; [|done].
    apply bind_ok_inv in Hrun as ([] & w3 & R2 & Hrun). apply only_dirs_property in R2 as [Hw3 A3]; [|done].
    apply bind_ok_inv in Hrun as (e & w4 & R2 & Hrun). injection Hrun as <- <- <-.
    apply (replace_places _ _ _ _ cs c) in R2 as [Hw4 Hpl]; [|done..]. split; [done|]. split; [|split; [cbn; lia|done]].
    do 3 (eapply placed_before; [eassumption|]). done.
  - apply bind_ok_inv in Hrun as (e & w1 & R2 & Hrun). injection Hrun as <- <- <-.
    apply (create_places _ _ _ cs c) in R2 as (Hw1 & Hpl & Hn); [|done..]. split; [done|]. split; [done|]. cbn. split; [lia|done].
Qed.

(** The files of a manifest, at their paths. *)
Definition restored_node (targets : gmap string Z) (item : Mapping) : Z * string * Z :=
  file_node (FormatUint (target_of targets (map_FileRef item))) (map_Size item).

Lemma item_placed m policy targets p item cs c w p' w' :
  wf_world w -> denotes (map_Path item) (cs ++ [c]) -> publish_item m policy targets p item w = (Ok p', w') ->
  wf_world w' /\ placed_file (T w) (T w') (cs ++ [c]) (restored_node targets item) /\
  pb_created p' + pb_replaced p' = pb_created p + pb_replaced p + 1 /\
  (policy <> "replace" -> pb_replaced p' = pb_replaced p /\ abs (T w) (cs ++ [c]) = None).
Proof.
  intros Hw Hd Hrun. unfold publish_item in Hrun. cbv zeta in Hrun.
  apply bind_ok_inv in Hrun as ([] & w1 & R1 & Hrun). apply only_dirs_ensure in R1 as [Hw1 A1]; [|done].
  apply bind_ok_inv in Hrun as ([e p1] & w2 & R2 & Hrun).
  apply (mapping_placed _ _ _ _ cs c) in R2 as (Hw2 & Hpl & Hcount & Hpol); [|done..].
  assert (only_dirs (_ ← updateBackupEntryMetadata (EntryId_ e) (map_Mode item) (map_Ctime item) (map_Mtime item);
    _ ← match BackupImport.object_at m (map_Path item) with
        | Some metadata => S3Object.insertS3Metadata (restoreS3Metadata (EntryId_ e) metadata) | None => mret tt end;
    mret (remember p1 (map_Path item) e))) as Hrest by only_dirs.
  assert (p' = remember p1 (map_Path item) e) as ->.
  { apply bind_ok_inv in Hrun as (? & w3 & _ & Hrun). apply bind_ok_inv in Hrun as (? & w4 & _ & Hrun). by injection Hrun. }
  destruct (Hrest _ _ _ Hw2 Hrun) as [Hw' A2]. split; [done|].
  split; [eapply placed_before; [exact A1|]; by eapply placed_after|]. split; [done|].
  intros Hp. destruct (Hpol Hp) as [E1 E2]. split; [done|]. destruct (A1 (cs ++ [c])) as [<-|[E _]]; done.
Qed.

Definition path_of (item : Mapping) : list string := comps (map_Path item).
(** Paths as a valid manifest has them: below the root, without "..", each once. *)
Definition proper_paths (l : list Mapping) : Prop :=
  Forall (fun item => ".." ∉ split_on slash (map_Path item) /\ path_of item <> []) l /\ NoDup (path_of <$> l).

Lemma proper_denotes item : ".." ∉ split_on slash (map_Path item) -> path_of item <> [] ->
  exists cs c, path_of item = cs ++ [c] /\ denotes (map_Path item) (cs ++ [c]).
Proof.
  intros Hdots Hne. destruct (exists_last Hne) as (cs & c & E). exists cs, c. split; [done|]. split; [done|]. by rewrite <- E.
Qed.

Lemma items_placed m policy targets l p w p' w' :
  wf_world w -> proper_paths l -> fold_each (publish_item m policy targets) p l w = (Ok p', w') ->
  wf_world w' /\
  (forall item, item ∈ l -> abs (T w') (path_of item) = Some (restored_node targets item)) /\
  (forall x, x ∉ path_of <$> l -> kept_or_dir (T w) (T w') x) /\
  pb_created p' + pb_replaced p' = pb_created p + pb_replaced p + zlen l /\
  (policy <> "replace" -> pb_replaced p' = pb_replaced p /\ forall item, item ∈ l -> abs (T w) (path_of item) = None).
Proof.
  revert p w. induction l as [|item l IH]; intros p w Hw [Hall Hnd] Hrun.
  { cbn in Hrun. injection Hrun as <- <-. split; [done|]. split; [by intros ? ?%elem_of_nil|]. split; [by left|].
    split; [unfold zlen; cbn; lia|]. intros _. split; [done|]. by intros ? ?%elem_of_nil. }
  cbn [fold_each] in Hrun. apply bind_ok_inv in Hrun as (p1 & w1 & R1 & Hrun).
  apply Forall_cons in Hall as [[Hdots Hne] Hall]. rewrite fmap_cons in Hnd. apply NoDup_cons in Hnd as [Hnew Hnd].
  destruct (proper_denotes item Hdots Hne) as (cs & c & Ep & Hd).
  destruct (item_placed _ _ _ _ _ _ _ _ _ _ Hw Hd R1) as (Hw1 & [Hn Ho] & Hcount & Hpol). rewrite <- Ep in *.
  destruct (IH p1 w1 Hw1 (conj Hall Hnd) Hrun) as (Hw' & Hin & Hout & Hcount' & Hpol'). split; [done|]. split; [|split; [|split]].
  - intros it [->|Hit]%elem_of_cons; [|by apply Hin]. destruct (Hout _ Hnew) as [->|[E _]]; [done|congruence].
  - intros x Hx. rewrite fmap_cons, not_elem_of_cons in Hx. destruct Hx as [Hx1 Hx2].
    eapply kept_or_dir_trans; [by apply Ho|by apply Hout].
  - unfold zlen in *. cbn [length]. lia.
  - intros Hp. destruct (Hpol Hp) as [E1 E2]. destruct (Hpol' Hp) as [E3 E4]. split; [congruence|].
    intros it [->|Hit]%elem_of_cons; [done|]. specialize (E4 it Hit).
    assert (path_of it <> path_of item) as Hx by (intros E; apply Hnew; rewrite <- E; by apply list_elem_of_fmap_2).
    destruct (Ho _ Hx) as [<-|[? ?]]; done.
Qed.

Lemma directories_counts m p w p' w' : publishDirectories m p w = (Ok p', w') ->
  pb_created p' = pb_created p /\ pb_replaced p' = pb_replaced p.
Proof.
  unfold publishDirectories. revert p w. induction (mf_Directories m) as [|d l IH]; intros p w Hrun; [by injection Hrun as <- _|].
  cbn [fold_each] in Hrun. apply bind_ok_inv in Hrun as (p1 & w1 & R1 & Hrun). destruct (IH _ _ Hrun) as [-> ->].
  apply bind_ok_inv in R1 as (found & w2 & _ & R1). apply bind_ok_inv in R1 as (? & w3 & _ & R1).
  apply bind_ok_inv in R1 as (e & w4 & _ & R1). do 2 apply bind_ok_inv in R1 as (? & ? & _ & R1). by injection R1 as <- _.
Qed.

(** A transaction whose error is wrapped ends as the transaction does. *)
Lemma wrapped_run {A} (m : M World A) w r w' (e : err) :
  (r0 ← attempt m; match r0 with Ok a => mret a | Err _ => fail e end) w = (r, w') ->
  match r with Ok a => m w = (Ok a, w') | Err _ => exists e', m w = (Err e', w') end.
Proof.
  unfold attempt, mbind, M_bind. destruct (m w) as [[a|e'] w1]; intros [= <- <-]; [done|by eexists].
Qed.

(** C32: A published import is the manifest: after a publication every file of the manifest
    is at its path, with the id of the file that was restored for it and its size, and
    every other path is as it was, but for directories that were not there; the counts it
    returns add up to the files of the manifest; and unless the policy is "replace" no path
    of the manifest was taken before and nothing was replaced. A publication that fails
    changes nothing, but that the root directory may have been made. *)
Theorem import_publishes_manifest job m policy w r w' :
  wf_world w -> proper_paths (mf_Mappings m) -> PublishBackupImport job m policy w = (r, w') ->
  match r with
  | Ok res =>
      let targets := list_to_map (job_targets (db w) job) in
      (forall item, item ∈ mf_Mappings m -> abs (T w') (path_of item) = Some (restored_node targets item)) /\
      (forall x, x ∉ path_of <$> mf_Mappings m ->
         abs (T w') x = abs (T w) x \/ (abs (T w) x = None /\ abs (T w') x = Some dir_node)) /\
      MappingsCreated res + MappingsReplaced res = zlen (mf_Mappings m) /\
      (policy <> "replace" -> MappingsReplaced res = 0 /\
         forall item, item ∈ mf_Mappings m -> abs (T w) (path_of item) = None)
  | Err _ => db w' = db w \/ db w' = db (Directory.Mkdir "/" w).2
  end.
Proof.
  intros Hw Hproper Hrun. unfold PublishBackupImport in Hrun.
  destruct (negb _ && negb _); [cbn in Hrun; injection Hrun as <- <-; by left|].
  cbn [check] in Hrun. rewrite (bind_ok (mret tt) _ w tt w eq_refl) in Hrun.
  destruct (Mkdir_root_run "/" _ _ w Hw eq_refl) as (w0 & E0 & Hw0 & A0). rewrite (bind_ok _ _ _ _ _ E0) in Hrun.
  apply wrapped_run in Hrun.
  destruct r as [res|e]; [|right; rewrite E0; by destruct Hrun as [e' Hrun%OnTransation_err]].
  destruct (LinkSafety.dir_op_effect "" _ w (dir_op_Mkdir "/")) as [Hother _]. rewrite E0 in Hother. cbn in Hother.
  assert (job_targets (db w0) job = job_targets (db w) job) as Ejf.
  { unfold job_targets. f_equal. unfold other_tables in Hother. congruence. }
  assert (adds_dirs (T w) (T w0)) as Ad0.
  { intros x. unfold kept_or_dir. rewrite A0. unfold ensured. case_decide; [|by left]. destruct (abs (T w) x); [by left|by right]. }
  rewrite OnTransation_ok in Hrun. unfold publish in Hrun. step_ok Hrun.
  apply bind_ok_inv in Hrun as (? & w1 & R1 & Hrun).
  assert (w1 = w0) as -> by (destruct (head _) as [j|]; [by apply check_ok in R1 as [-> _]|done]). clear R1.
  apply bind_ok_inv in Hrun as (targets & w1 & R1 & Hrun). apply query_ok in R1 as [-> ->]. step_ok Hrun.
  apply bind_ok_inv in Hrun as (p1 & w2 & R2 & Hrun). pose proof R2 as R2'.
  apply only_dirs_directories in R2 as [Hw2 A2]; [|done].
  apply bind_ok_inv in Hrun as (p2 & w3 & R3 & Hrun).
  apply (items_placed m policy) in R3 as (Hw3 & Hin & Hout & Hcount & Hpol); [|done|done].
  apply bind_ok_inv in Hrun as ([] & w4 & R4 & Hrun). apply only_dirs_properties in R4 as [Hw4 A4]; [|done].
  apply bind_ok_inv in Hrun as ([] & w5 & R5 & Hrun). apply only_dirs_complete in R5 as [Hw5 A5]; [|done].
  injection Hrun as <- <-. cbn [MappingsCreated MappingsReplaced].
  pose proof (adds_dirs_trans _ _ _ Ad0 A2) as Abefore. pose proof (adds_dirs_trans _ _ _ A4 A5) as Aafter.
  assert (pb_created p1 = 0 /\ pb_replaced p1 = 0) as [Ec Er] by (by apply (directories_counts _ _ _ _ _ R2')).
  cbv zeta. split; [|split; [|split]].
  - intros item Hitem. rewrite <- Ejf. destruct (Aafter (path_of item)) as [->|[E _]]; [by apply Hin|].
    rewrite Hin in E by done. done.
  - intros y Hy. eapply kept_or_dir_trans; [eapply kept_or_dir_trans; [apply Abefore|by apply Hout]|apply Aafter].
  - lia.
  - intros Hp. destruct (Hpol Hp) as [E1 E2]. split; [congruence|]. intros item Hitem. specialize (E2 item Hitem).
    destruct (Abefore (path_of item)) as [<-|[? _]]; done.
Qed.
End Items.

(** ** A run *)

Module Demo.
#[local] Existing Instances DirTheorems.demo_env DirTheorems.demo_ids UploadProofs.demo_codec SystemTheorems.demo_sha.
Import BackupTheorems.Demo.

Definition demo_job : job_row :=
  {| j_job_id := "job"; j_kind := JkImport; j_owner := "admin"; j_state := JsPublishing; j_scope := "/";
     j_dry_run := false; j_conflict := "fail"; j_idempotency_key := ""; j_fingerprint := ""; j_artifact_path := "";
     j_snapshot_path := ""; j_report_path := ""; j_artifact_size := 0; j_artifact_sha256 := ""; j_files_total := 1;
     j_files_completed := 1; j_parts_total := 2; j_parts_completed := 2; j_bytes_total := 6; j_bytes_completed := 6;
     j_mappings_created := 0; j_mappings_replaced := 0; j_files_created := 0; j_error_code := "";
     j_error_message := ""; j_cancel_requested := false; j_created_at := 0; j_updated_at := 0; j_completed_at := 0;
     j_artifact_expires_at := 0 |}.
(** The file of the manifest is staged and finished; the job is at its last step. *)
Definition staged : World := (stage_parts "job" demo_parts (begun, BlockIO.Mem.New 4)).2.1.
Definition finished : World := (FinishBackupImportFiles "job" demo_manifest staged).2.
Definition at_publish : World := {| db := set_job (fun _ => [demo_job]) (db finished); ticks := ticks finished; ids := ids finished |}.

Lemma at_publish_wf : wf_world at_publish.
Proof.
  assert (T at_publish = []) as E by (vm_compute; reflexivity).
  split; [rewrite E; apply wf_empty|]. intros r n Hr. exfalso. rewrite E in Hr. exact (not_elem_of_nil _ Hr).
Qed.

Definition demo_result : BackupPublishResult := {| MappingsCreated := 1; MappingsReplaced := 0; FilesCreated := 1 |}.
Lemma publish_ok : (PublishBackupImport "job" demo_manifest "fail" at_publish).1 = Ok demo_result.
Proof. vm_compute. reflexivity. Qed.
Lemma demo_node : restored_node (list_to_map (job_targets (db at_publish) "job")) demo_mapping = file_node "1" 6.
Proof. vm_compute. reflexivity. Qed.

Lemma import_publishes_manifest_witness : exists w',
  PublishBackupImport "job" demo_manifest "fail" at_publish = (Ok demo_result, w') /\
  abs (T w') ["d"; "x"] = Some (file_node "1" 6) /\ MappingsReplaced demo_result = 0.
Proof.
  pose proof publish_ok as Hok.
  destruct (PublishBackupImport "job" demo_manifest "fail" at_publish) as [r w'] eqn:E. cbn in Hok. subst r.
  destruct (import_publishes_manifest "job" demo_manifest "fail" at_publish (Ok demo_result) w') as (Hin & _ & _ & Hpol).
  - exact at_publish_wf.
  - split; [|apply NoDup_singleton]. constructor; [|constructor]. split; [|vm_compute; discriminate].
    apply (bool_decide_unpack _). vm_compute. exact Logic.I.
  - exact E.
  - exists w'. split; [reflexivity|]. split; [|by apply Hpol]. rewrite <- demo_node. apply (Hin demo_mapping). left.
Defined.
End Demo.
