(* ===== verification/BackupJobSteps.v ===== *)
(** * Backup jobs as a state machine

    Every statement of the manager on the job table is a step of a relation on the rows;
    requests, workers, recovery and cleanup run as sequences of such steps, whatever the
    file manager and the work directory do. Interleavings of them are therefore sequences
    of steps too, and what holds along these holds for the program. *)

From stdpp Require Import base strings list gmap relations.
From S2P Require Import Prelude GoStr Base64 BlockIO Store Multipart FileManager BackupFmt Archive.
From S2P Require Import BackupExport BackupImport JobRow BackupJobs.
Import BackupFmt Archive BackupJobs.

(** ** What the manager relies on *)

Definition keeps_jobs {B A} (m : M (World * B) A) : Prop :=
  forall s, t_job (db (m s).2.1) = t_job (db s.1).

(** The file manager leaves the job table alone, but for a publication that succeeds, which
    finishes its job. *)
Class BackupFilesLaws `{!Env} (B : Type) `{!BackupFiles B} : Prop := {
  law_snapshot : forall rq, keeps_jobs (CreateBackupSnapshot rq);
  law_release : forall job, keeps_jobs (ReleaseBackupSnapshot job);
  law_validate : forall m policy, keeps_jobs (ValidateBackupImport m policy);
  law_begin : forall job m, keeps_jobs (BeginBackupImport job m);
  law_stage : forall job part src, keeps_jobs (StageBackupPart job part src);
  law_finish : forall job m, keeps_jobs (FinishBackupImportFiles job m);
  law_discard : forall job, keeps_jobs (DiscardBackupImport job);
  law_publish : forall job m policy (s : World * B) r s',
    PublishBackupImport job m policy s = (r, s') ->
    match r with
    | Ok _ => exists created replaced files t,
        sql_count (BackupImport.publishing job) (t_job (db s.1)) = 1 /\
        t_job (db s'.1) = sql_update (BackupImport.publishing job)
          (BackupImport.complete_job created replaced files t) (t_job (db s.1)) /\
        exists n, t = clk n
    | Err _ => t_job (db s'.1) = t_job (db s.1)
    end }.

(** ** Steps *)

(** The moves of [transitionState]. *)
Definition allowed_move (from to : job_state) : bool :=
  match from, to with
  | JsQueued, JsSnapshotting | JsQueued, JsValidating | JsValidating, JsStaging
  | JsStaging, JsPublishing => true
  | _, _ => false
  end.

Section Steps.
Context `{!Env} `{!BackupLib}.

(** The ids that have been drawn and not used yet, how many have been drawn, and the rows. *)
Definition jobs := (gset nat * nat * list job_row)%type.
(** The time of a statement. *)
Definition a_time (t : Z) : Prop := exists n, t = clk n.

Inductive job_step : jobs -> jobs -> Prop :=
  | step_draw P n t : job_step (P, n, t) ({[n]} ∪ P, S n, t)
  | step_insert P n k raw t j :
      k ∈ P -> random_bytes k = Ok raw -> j_job_id j = Base64.hex_encode raw ->
      j_completed_at j = 0 -> j_cancel_requested j = false -> j_state j ∈ [JsQueued; JsReceiving] ->
      (j_state j = JsReceiving -> j_kind j = JkImport) ->
      (forall r, r ∈ t -> j_job_id r <> j_job_id j /\
         same_request (j_owner j) (j_kind j) (j_idempotency_key j) r = false) ->
      job_step (P, n, t) (P ∖ {[k]}, n, t ++ [j])
  | step_receive n t id path sha size at_ :
      a_time at_ ->
      job_step (n, t) (n, sql_update (fun j => is_job id j && bool_decide (j_state j = JsReceiving))
                            (with_received path sha size at_) t)
  | step_cancel n t id at_ :
      a_time at_ ->
      job_step (n, t) (n, sql_update (fun j => is_job id j && (j_completed_at j =? 0) &&
                                               negb (bool_decide (j_state j = JsPublishing))) (with_cancel at_) t)
  | step_move n t id from to at_ :
      a_time at_ -> allowed_move from to = true ->
      job_step (n, t) (n, sql_update (fun j => is_job id j && bool_decide (j_state j = from) &&
                                               (j_completed_at j =? 0) && negb (j_cancel_requested j))
                            (with_state to at_) t)
  | step_snapshot n t id path files parts bytes at_ :
      a_time at_ ->
      job_step (n, t) (n, sql_update (is_job id) (with_snapshot path files parts bytes at_) t)
  | step_export n t id path sha size at_ expires :
      a_time at_ ->
      job_step (n, t) (n, sql_update (fun j => is_job id j && bool_decide (j_state j = JsBuilding) &&
                                               negb (j_cancel_requested j))
                            (with_export path sha size at_ expires) t)
  | step_success n t id at_ :
      a_time at_ ->
      job_step (n, t) (n, sql_update (fun j => is_job id j && (j_completed_at j =? 0) &&
                                               negb (j_cancel_requested j)) (with_success at_) t)
  | step_publish n t id created replaced files at_ :
      a_time at_ ->
      job_step (n, t) (n, sql_update (BackupImport.publishing id)
                            (BackupImport.complete_job created replaced files at_) t)
  | step_finish n t id state code message at_ :
      a_time at_ -> state = JsFailed \/ state = JsCanceled ->
      job_step (n, t) (n, sql_update (is_job id) (with_finish state code message at_) t)
  | step_reset n t id at_ :
      a_time at_ ->
      job_step (n, t) (n, sql_update (fun j => is_job id j && (j_completed_at j =? 0)) (with_state JsQueued at_) t)
  | step_restart n t id at_ :
      a_time at_ -> job_step (n, t) (n, sql_update (is_job id) (with_restart at_) t)
  | step_note n t id f :
      (forall j, j_job_id (f j) = j_job_id j /\ j_kind (f j) = j_kind j /\ j_state (f j) = j_state j /\
         j_cancel_requested (f j) = j_cancel_requested j /\ j_completed_at (f j) = j_completed_at j /\
         j_owner (f j) = j_owner j /\ j_idempotency_key (f j) = j_idempotency_key j /\
         j_fingerprint (f j) = j_fingerprint j) ->
      job_step (n, t) (n, sql_update (is_job id) f t)
  | step_purge n t cutoff : job_step (n, t) (n, sql_delete (retained_out cutoff) t).

Notation steps := (rtc job_step).
End Steps.
Notation steps := (rtc job_step).

(** ** Runs are sequences of steps *)
Section Runs.
Context `{!Env} `{!ArchiveLib} `{!FileCodec} `{!Sha} `{!BackupLib} {B : Type} `{!BackupFiles B} `{!BackupFilesLaws B}.
Context (options : Options).
Notation St := ((World * B) * Work)%type.

Definition job_table (P : gset nat) (s : St) : jobs := (P, rand_calls s.2, t_job (db s.1.1)).
Definition moves {A} (m : M St A) : Prop :=
  forall s P, exists P', steps (job_table P s) (job_table P' (m s).2).

Lemma moves_bind {A C} (m : M St A) (f : A -> M St C) :
  moves m -> (forall a, moves (f a)) -> moves (m ≫= f).
Proof.
  intros Hm Hf s P. unfold mbind, M_bind. destruct (Hm s P) as [P1 Hs1].
  destruct (m s) as [[a|e] s'] eqn:E; [|by exists P1].
  destruct (Hf a s' P1) as [P2 Hs2]. exists P2. by etransitivity.
Qed.

Lemma moves_same {A} (m : M St A) : (forall s P, job_table P (m s).2 = job_table P s) -> moves m.
Proof. intros Hm s P. exists P. by rewrite Hm. Qed.

Lemma moves_attempt {A} (m : M St A) : moves m -> moves (attempt m).
Proof. intros Hm s P. apply Hm. Qed.
Lemma moves_ret {A} (a : A) : moves (mret a).
Proof. by apply moves_same. Qed.
Lemma moves_fail {A} e : moves (fail (A := A) e).
Proof. by apply moves_same. Qed.
Lemma moves_lift {A} (o : outcome A) : moves (lift o).
Proof. by apply moves_same. Qed.
Lemma moves_check b e : moves (check b e).
Proof. apply moves_same. intros s P. unfold check. by destruct b. Qed.
Lemma moves_reads {A} (f : St -> A) : moves (reads f).
Proof. by apply moves_same. Qed.
Lemma moves_set_dir f : moves (set_dir f).
Proof. by apply moves_same. Qed.
Lemma moves_query {A} (f : DB -> A) : moves (on_jobs (query f)).
Proof. by apply moves_same. Qed.
Lemma moves_now : moves (on_jobs now).
Proof. by apply moves_same. Qed.
Lemma moves_fm {A} (m : M (World * B) A) : keeps_jobs m -> moves (on_fm m).
Proof.
  intros Hm. apply moves_same. intros s P. unfold on_fm, job_table. specialize (Hm s.1).
  destruct (m s.1) as [r wb]. cbn in *. by rewrite Hm.
Qed.
Lemma moves_upd f : (forall d, t_job (f d) = t_job d) -> moves (on_jobs (upd f)).
Proof. intros Hf. apply moves_same. intros s P. unfold job_table. cbn. by rewrite Hf. Qed.
Lemma moves_for_each {A} (f : A -> M St unit) l : (forall a, moves (f a)) -> moves (for_each f l).
Proof. intros Hf. induction l; cbn; [apply moves_ret|]. apply moves_bind; [apply Hf|done]. Qed.
Lemma moves_fold_each {A C} (f : C -> A -> M St C) l c : (forall c a, moves (f c a)) -> moves (fold_each f c l).
Proof. intros Hf. revert c. induction l; intros c; cbn; [apply moves_ret|]. apply moves_bind; [apply Hf|done]. Qed.

(** Statements that use the time they were issued at. *)
Lemma moves_now_bind {A} (f : Z -> M St A) : (forall t, a_time t -> moves (f t)) -> moves (on_jobs now ≫= f).
Proof.
  intros Hf s P. rewrite (bind_ok (on_jobs now) f s (clk (ticks s.1.1)) _ eq_refl).
  exact (Hf (clk (ticks s.1.1)) (ex_intro _ (ticks s.1.1) eq_refl) (on_jobs now s).2 P).
Qed.

(** Transactions. *)
Lemma moves_tx {A} (m : M World A) : moves (on_jobs m) -> moves (on_jobs (OnTransation m)).
Proof.
  intros Hm s P. specialize (Hm s P). unfold on_jobs, on_fm, on_db, OnTransation in *.
  destruct (m s.1.1) as [[a|e] w'] eqn:E; cbn in *; [exact Hm|by exists P].
Qed.
Lemma moves_on_bind {A C} (m : M World A) (f : A -> M World C) :
  moves (on_jobs m ≫= fun a => on_jobs (f a)) -> moves (on_jobs (m ≫= f)).
Proof.
  intros Hm s P. specialize (Hm s P). unfold on_jobs, on_fm, on_db, mbind, M_bind in *. cbn in *.
  destruct (m s.1.1) as [[a|e] w'] eqn:E; cbn in *; exact Hm.
Qed.
Lemma moves_on_check b e : moves (on_jobs (check b e)).
Proof. apply moves_same. intros s P. unfold on_jobs, on_fm, on_db, check. by destruct b. Qed.

Lemma moves_upd_step p f :
  (forall n t, job_step (n, t) (n, sql_update p f t)) -> moves (on_jobs (upd (set_job (sql_update p f)))).
Proof. intros Hs s P. exists P. apply rtc_once. apply Hs. Qed.
Lemma moves_update_jobs p f :
  (forall n t, job_step (n, t) (n, sql_update p f t)) -> moves (on_jobs (update_jobs p f)).
Proof. intros Hs s P. exists P. apply rtc_once. apply Hs. Qed.
End Runs.

Create HintDb jobs.
#[export] Hint Resolve law_snapshot law_release law_validate law_begin law_stage law_finish law_discard : jobs.

(** Follows the program: binds, tests and statements. *)
Ltac walk_jobs :=
  repeat
    lazymatch goal with
    | |- forall _, _ => intros ?
    | |- moves (on_jobs now ≫= _) => apply moves_now_bind; intros ? ?
    | |- moves (_ ≫= _) => apply moves_bind; [|intros ?]
    | |- moves (attempt _) => apply moves_attempt
    | |- moves (mret _) => apply moves_ret
    | |- moves (fail _) => apply moves_fail
    | |- moves (lift _) => apply moves_lift
    | |- moves (check _ _) => apply moves_check
    | |- moves (reads _) => apply moves_reads
    | |- moves (set_dir _) => apply moves_set_dir
    | |- moves (on_jobs (query _)) => apply moves_query
    | |- moves (on_jobs now) => apply moves_now
    | |- moves (on_jobs (upd (set_job (sql_update _ _)))) => apply moves_upd_step; intros ? ?; by constructor
    | |- moves (on_jobs (update_jobs _ _)) => apply moves_update_jobs; intros ? ?; by constructor
    | |- moves (on_jobs (OnTransation _)) => apply moves_tx
    | |- moves (on_jobs (_ ≫= _)) => apply moves_on_bind
    | |- moves (on_jobs (check _ _)) => apply moves_on_check
    | |- moves (on_fm _) => apply moves_fm; by eauto with jobs
    | |- moves (for_each _ _) => apply moves_for_each; intros ?
    | |- moves (fold_each _ _ _) => apply moves_fold_each; intros ? ?
    | |- moves (match ?x with _ => _ end) => destruct x
    | |- moves _ => solve [eauto 2 with jobs]
    end.

Section Programs.
Context `{!Env} `{!ArchiveLib} `{!FileCodec} `{!Sha} `{!BackupLib} {B : Type} `{!BackupFiles B} `{!BackupFilesLaws B}.
Context (options : Options).

Lemma moves_GetJob id : moves (B := B) (GetJob id).
Proof. unfold GetJob, setArtifactAvailability. walk_jobs. Qed.
Lemma moves_isCanceled id : moves (B := B) (isCanceled id).
Proof. unfold isCanceled. walk_jobs. Qed.
Lemma moves_finishJob id state code message :
  state = JsFailed \/ state = JsCanceled -> moves (B := B) (finishJob id state code message).
Proof. intros Hst. unfold finishJob. walk_jobs. Qed.

#[local] Hint Resolve moves_GetJob moves_isCanceled : jobs.
#[local] Hint Extern 1 (moves (finishJob _ _ _ _)) => apply moves_finishJob; auto : jobs.

Lemma moves_ensureFreeSpace n : moves (B := B) (ensureFreeSpace n).
Proof.
  unfold ensureFreeSpace. walk_jobs. by apply moves_same.
Qed.
Lemma moves_space_checked src : moves (B := B) (space_checked src).
Proof. unfold space_checked. walk_jobs. by apply moves_same. Qed.
Lemma moves_transition id from to : allowed_move from to = true -> moves (B := B) (transitionState id from to).
Proof. intros Hm. unfold transitionState. walk_jobs. Qed.
Lemma moves_reset id : moves (B := B) (resetState id JsQueued).
Proof. unfold resetState. walk_jobs. Qed.
Lemma moves_success id : moves (B := B) (finishSuccessfulJob id).
Proof. unfold finishSuccessfulJob. walk_jobs. Qed.
Lemma moves_release id name : moves (B := B) (releaseImportArtifact id name).
Proof. unfold releaseImportArtifact, remove_file. walk_jobs. Qed.
Lemma moves_getByIdempotency owner kind k : moves (B := B) (getJobByIdempotency owner kind k).
Proof. unfold getJobByIdempotency. walk_jobs. Qed.
#[local] Hint Resolve moves_ensureFreeSpace moves_space_checked moves_reset moves_success moves_release
  moves_getByIdempotency : jobs.
#[local] Hint Extern 1 (moves (transitionState _ _ _)) => apply moves_transition; reflexivity : jobs.

(** *** Creating *)

Lemma insert_job_run j (w : World) :
  match insert_job j w with
  | (Ok _, w') => (forall r, r ∈ t_job (db w) -> j_job_id r <> j_job_id j /\
        same_request (j_owner j) (j_kind j) (j_idempotency_key j) r = false) /\
      t_job (db w') = t_job (db w) ++ [j]
  | (Err _, w') => w' = w
  end.
Proof.
  destruct (insert_job j w) as [[u|e] w'] eqn:Hrun; unfold insert_job in Hrun.
  - step_ok Hrun. step_ok Hrun. apply bind_ok_inv in Hrun as (? & ? & [-> Hex]%check_ok & Hrun).
    injection Hrun as <- <-. split; [|done]. intros r Hr.
    rewrite sql_exists_false in Hex. specialize (Hex r Hr). apply orb_false_iff in Hex as [Hid Hreq].
    split; [|done]. unfold is_job in Hid. by apply String.eqb_neq in Hid.
  - unfold mbind, M_bind, query, reads, check in Hrun. destruct (negb _ || _ || _); [by injection Hrun|].
    cbn [mret M_ret] in Hrun. destruct (sql_exists _ _); [by injection Hrun|done].
Qed.

Definition drawn (s : World * B * Work) : World * B * Work :=
  (s.1, {| dir := dir s.2; disk_calls := disk_calls s.2; rand_calls := S (rand_calls s.2); copies := copies s.2 |}).
Lemma randomJobID_run s :
  randomJobID s = (match random_bytes (rand_calls s.2) with
                   | Ok raw => Ok (Base64.hex_encode raw) | Err e => Err e end, drawn s).
Proof.
  unfold randomJobID, mbind, M_bind, reads, modify, lift. cbn. by destruct (random_bytes (rand_calls s.2)).
Qed.

Lemma moves_insertJob kind owner k fingerprint scope dry conflict state :
  state ∈ [JsQueued; JsReceiving] -> (state = JsReceiving -> kind = JkImport) ->
  moves (B := B) (insertJob kind owner k fingerprint scope dry conflict state).
Proof.
  intros Hstate Hkind s P. unfold insertJob. pose proof (randomJobID_run s) as Hrand.
  set (n := rand_calls s.2) in *. set (s1 := drawn s) in *.
  assert (steps (job_table P s) (job_table ({[n]} ∪ P) s1)) as Hdraw by (apply rtc_once; constructor).
  destruct (random_bytes n) as [raw|e] eqn:Eraw; [|rewrite (bind_err _ _ _ _ _ Hrand); by eexists].
  rewrite (bind_ok _ _ _ _ _ Hrand).
  rewrite (bind_ok (on_jobs now) _ s1 (clk (ticks s1.1.1)) _ eq_refl).
  set (s2 := (_, s1.2)). set (j := new_job _ _ _ _ _ _ _ _ _ _).
  pose proof (insert_job_run j s2.1.1) as Hins.
  assert (exists P', steps (job_table P s) (job_table P' (on_jobs (insert_job j) s2).2)) as [P1 Hstep].
  { unfold on_jobs, on_fm, on_db. destruct (insert_job j s2.1.1) as [[u|e] w'] eqn:E; cbn.
    - destruct Hins as [Hfresh Et]. eexists. etransitivity; [exact Hdraw|]. unfold job_table. cbn. rewrite Et.
      apply rtc_once. eapply (step_insert _ _ n raw); [set_solver|done..].
    - subst w'. by eexists. }
  rewrite (bind_ok (attempt (on_jobs (insert_job j))) _ s2 (on_jobs (insert_job j) s2).1
    (on_jobs (insert_job j) s2).2 eq_refl).
  match goal with |- exists P', steps _ (job_table P' (?m ?x).2) => assert (moves m) as Hrest end.
  { destruct (on_jobs (insert_job j) s2).1; walk_jobs. }
  destruct (Hrest (on_jobs (insert_job j) s2).2 P1) as [P2 Hs2]. exists P2. by etransitivity.
Qed.

Lemma moves_CreateExport request : moves (B := B) (CreateExport options request).
Proof.
  unfold CreateExport, createQueuedJob. walk_jobs. apply moves_insertJob; [left|done].
Qed.

Lemma moves_receive partial name n body sha : moves (B := B) (receiveArtifact partial name n body sha).
Proof. unfold receiveArtifact, create_file, write_file, rename_file. walk_jobs. Qed.

Lemma moves_createImport request : moves (B := B) (createImport options request).
Proof.
  unfold createImport, prepareImportRequest, receiveAndQueueImport, remove_file. walk_jobs;
    [apply moves_insertJob; [right; left|done]|apply moves_receive].
Qed.

Lemma moves_CreateImport request : moves (B := B) (CreateImport options request).
Proof. unfold CreateImport. walk_jobs. apply moves_createImport. Qed.
Lemma moves_CreateImportUpload request : moves (B := B) (CreateImportUpload options request).
Proof. apply moves_createImport. Qed.

Lemma moves_Cancel id : moves (B := B) (Cancel id).
Proof. unfold Cancel. walk_jobs. Qed.

(** *** Working *)

Lemma moves_publish job m : moves (B := B) (publishImport job m).
Proof.
  unfold publishImport. apply moves_bind; [|intros; apply moves_ret]. intros s P. exists P. unfold on_fm.
  destruct (PublishBackupImport _ _ _ s.1) as [r wb] eqn:E. apply law_publish in E. unfold job_table. cbn.
  destruct r as [res|e]; [|by rewrite E]. destruct E as (c & rp & f & t & _ & -> & Ht). apply rtc_once. by constructor.
Qed.

Lemma moves_processExport job : moves (B := B) (processExport options job).
Proof.
  unfold processExport, prepareExportSnapshot, buildExportArtifact, completeExport, verify_name, read_file,
    create_file, write_file, rename_file, remove_file.
  walk_jobs. apply moves_upd. done.
Qed.

Lemma moves_walk {A} (seen : bool) entries corrupt (visit : A -> source -> M (World * B * Work) unit) f :
  (forall p src, moves (visit (f p) src)) ->
  moves (walk_entries seen entries corrupt (fun p src => visit (f p) src)).
Proof.
  intros Hv. revert seen. induction entries as [|e l IH]; intros seen; cbn; walk_jobs.
Qed.

Lemma moves_processImport job : moves (B := B) (processImport options job).
Proof.
  unfold processImport, resumeImportPublish, validateImportArtifact, stageImport, WalkParts, verify_name, read_file,
    ensureImportNotCanceled.
  walk_jobs; try apply moves_publish.
  apply (moves_walk _ _ _ (stage_part job a1) id). intros p src. unfold stage_part, ensureImportNotCanceled. walk_jobs.
Qed.

Lemma moves_cancelJob job : moves (B := B) (cancelJob job).
Proof. unfold cancelJob, remove_export_files, remove_file. walk_jobs. Qed.
#[local] Hint Resolve moves_cancelJob moves_processExport moves_processImport : jobs.

Lemma moves_processJob job : moves (B := B) (processJob options job).
Proof.
  unfold processJob, executeJob, handleJobFailure, cleanupFailedJob, writeFailureReport, remove_export_files,
    remove_file, write_file.
  walk_jobs.
Qed.

Lemma moves_processNext kind : moves (B := B) (processNext options kind).
Proof. unfold processNext. walk_jobs. apply moves_processJob. Qed.

Lemma moves_ProcessUntilTerminal fuel id : moves (B := B) (ProcessUntilTerminal options fuel id).
Proof. induction fuel; cbn; walk_jobs. apply moves_processJob. Qed.

Lemma moves_recover : moves (B := B) recover.
Proof.
  unfold recover, recoverJob, readRecoverableJobs, resetStagedImport, remove_export_files, remove_file.
  walk_jobs; by apply moves_upd.
Qed.

Lemma moves_cleanup : moves (B := B) (cleanup options).
Proof.
  unfold cleanup, cleanupCompletedImportArtifacts, readExpiredArtifacts, expireArtifacts, cleanupRetainedJobs,
    cleanupRetainedJobFiles, remove_file.
  walk_jobs; [by apply moves_upd|]. intros s P. exists P. apply rtc_once. constructor.
Qed.
End Programs.
