(* ===== verification/BackupJobFiles.v ===== *)
(** * The file manager keeps its promise to the backup manager

    The operations of src/filemgr/backup.go are an instance of [BackupFiles], and satisfy
    [BackupFilesLaws]: none of them writes the job table, but for the publication, which
    finishes its job when it succeeds. *)

From stdpp Require Import base strings list gmap.
From S2P Require Import Prelude GoStr BlockIO FileStream CompositeStream Store Directory DirFrame References.
From S2P Require Import RefInv DeleteWorker WorkerProofs Dao Mutation S3Object FileManager Multipart UploadProofs.
From S2P Require Import LinkSafety ObjectTheorems WebDAVSafety BackupFmt Archive BackupExport BackupImport JobRow BackupJobs BackupJobSteps.
Import BackupFmt References.

#[export] Instance file_manager_backups `{!Env} `{!S3Object.MimeTypes} `{!FileCodec} `{!TimeText} `{!Sha}
    {B} `{!IBlockIO B} `{!RetryLib} : BackupFiles B := {|
  CreateBackupSnapshot := BackupExport.CreateBackupSnapshot;
  ReleaseBackupSnapshot := fun job => on_db (BackupExport.ReleaseBackupSnapshot job);
  OpenBackupPart := BackupExport.OpenBackupPart;
  ValidateBackupImport := fun m policy => on_db (BackupImport.ValidateBackupImport m policy);
  BeginBackupImport := fun job m => on_db (BackupImport.BeginBackupImport job m);
  StageBackupPart := BackupImport.StageBackupPart;
  FinishBackupImportFiles := fun job m => on_db (BackupImport.FinishBackupImportFiles job m);
  PublishBackupImport := fun job m policy => on_db (BackupImport.PublishBackupImport job m policy);
  DiscardBackupImport := fun job => on_db (BackupImport.DiscardBackupImport job) |}.

(** ** Frames *)
Definition same_jobs (X : list job_row) (w : World) : Prop := t_job (db w) = X.
#[export] Instance same_jobs_queue X : QueueStable (same_jobs X).
Proof. by split. Qed.
#[export] Instance same_jobs_dir X : DirStable (same_jobs X) (fun _ => True).
Proof. by split. Qed.

Section Frame.
Context `{!Env} (X : list job_row).
Notation I := (same_jobs X).

Lemma jb_upd f : (forall d, t_job (f d) = t_job d) -> preserves I (upd f).
Proof. intros Hf w Hw. unfold same_jobs in *. cbn. by rewrite Hf. Qed.
Lemma jb_query {A} (f : DB -> A) : preserves I (query f).
Proof. by intros w. Qed.
Lemma jb_now : preserves I now.
Proof. by intros w. Qed.
Lemma jb_NextId : preserves I NextId.
Proof. by intros w. Qed.
Lemma jb_tx {A} (m : M World A) : preserves I m -> preserves I (OnTransation m).
Proof. intros Hm w Hw. specialize (Hm w Hw). unfold OnTransation. by destruct (m w) as [[a|e] w']. Qed.
Lemma jb_dir {A} ref (m : M World A) : dir_op ref m -> preserves I m.
Proof. intros Hm. by apply (Hm I (fun _ => True)). Qed.
Lemma jb_mark f t : preserves I (markFileTreePendingIfUnreferenced f t).
Proof. by apply view_mark. Qed.
Lemma jb_ensure f : preserves I (ensureFileTreeCanBeLinked f).
Proof. by apply view_ensure. Qed.
Lemma jb_Stat_tx s : preserves I (Directory.Tx.Stat s).
Proof. intros w Hw. by rewrite Stat_tx_same. Qed.

Lemma jb_on_db {B A} (m : M World A) :
  preserves I m -> preserves (fun s : World * B => I s.1) (on_db m).
Proof. intros Hm [w b] Hw. rewrite on_db_eq. by apply Hm. Qed.
Lemma jb_on_store {B A} (f : B -> outcome A * B) : preserves (fun s : World * B => I s.1) (on_store f).
Proof. intros [w b] Hw. unfold on_store. cbn. by destruct (f b). Qed.
Lemma jb_upload {B} `{!IBlockIO B} src : preserves (fun s : World * B => I s.1) (FileManager.upload src).
Proof. intros [w b] Hw. unfold FileManager.upload. cbn. by destruct (Upload src b) as [[? ?] ?]. Qed.
End Frame.

Create HintDb jobframe.
#[export] Hint Resolve preserves_ret preserves_fail preserves_lift preserves_reads preserves_check
  jb_query jb_now jb_NextId jb_mark jb_ensure jb_Stat_tx jb_on_store jb_upload : jobframe.
#[export] Hint Extern 1 (preserves (same_jobs _) (upd _)) => apply jb_upd; intros; reflexivity : jobframe.
#[export] Hint Extern 2 (preserves (same_jobs _) (Directory.Tx.Create _ _ _)) =>
  exact (jb_dir _ _ _ (dir_op_Create _ _ _)) : jobframe.
#[export] Hint Extern 2 (preserves (same_jobs _) (Directory.Tx.Touch _ _)) =>
  exact (jb_dir _ _ _ (dir_op_Touch _ _)) : jobframe.
#[export] Hint Extern 2 (preserves (same_jobs _) (Directory.Mkdir _)) =>
  exact (jb_dir _ _ _ (dir_op_Mkdir _)) : jobframe.

Ltac jb_step :=
  lazymatch goal with
  | |- preserves _ ?m =>
      lazymatch m with
      | mbind _ _ => apply preserves_bind; [|intros ?]
      | for_each _ _ => apply preserves_for_each; intros ?
      | fold_each _ _ _ => apply preserves_fold_each; intros ? ?
      | attempt _ => apply preserves_attempt
      | OnTransation _ => apply jb_tx
      | on_db _ => apply jb_on_db
      | let _ := _ in _ => cbv zeta
      | match ?x with _ => _ end => destruct x
      | _ => solve [eauto with jobframe]
      end
  end.
Ltac jb := repeat jb_step.

Section BackupOps.
Context `{!Env} `{!S3Object.MimeTypes} `{!FileCodec} `{!Sha} (X : list job_row).
Notation I := (same_jobs X).
Import BackupExport BackupImport.

Lemma jb_load_tree fuel mp f r : preserves I (load_tree fuel mp f r).
Proof.
  revert f r. induction fuel as [|fuel IH]; intros f r; cbn [load_tree]; [jb|].
  unfold readBackupFileSnapshot, loadBackupPhysicalFile, ensureBackupPhysicalFileExportable, scanBackupPhysicalPart,
    readBackupSegments, readBackupCompletedParts, Dao.FilePartDao.ListFilePart. jb.
Qed.
Lemma jb_Mkdir_tx p : preserves I (Directory.Tx.Mkdir p).
Proof. exact (jb_dir _ _ _ (dir_op_Mkdir_tx _)). Qed.
Lemma jb_Replace p size f t : preserves I (Directory.Tx.Replace p size f t).
Proof. exact (jb_dir _ _ _ (dir_op_Replace _ _ _ _)). Qed.
Lemma jb_Discard f : preserves I (DiscardUnpublishedFile f).
Proof. unfold DiscardUnpublishedFile. jb. Qed.
#[local] Hint Resolve jb_load_tree jb_Mkdir_tx jb_Replace jb_Discard : jobframe.

Lemma jb_populate mp rq m : preserves I (populateBackupSnapshotTx mp rq m).
Proof.
  unfold populateBackupSnapshotTx, readBackupMappings, loadSelectedBackupFiles, loadBackupFileTree,
    appendBackupFilesAndPins, insert_pin, appendBackupMappings, S3Object.readS3Metadata, readBackupWebDAVProperties,
    readBackupEntryWebDAVProperties. jb.
Qed.
Lemma jb_release job : preserves I (BackupExport.ReleaseBackupSnapshot job).
Proof. unfold BackupExport.ReleaseBackupSnapshot. jb. Qed.
Lemma jb_validate m policy : preserves I (BackupImport.ValidateBackupImport m policy).
Proof. unfold BackupImport.ValidateBackupImport. jb. Qed.
Lemma jb_begin job m : preserves I (BackupImport.BeginBackupImport job m).
Proof. unfold BackupImport.BeginBackupImport, begin_file, insert_job_file, Dao.FileDao.insert_file. jb. Qed.
Lemma jb_move_stage job ref i f : preserves I (move_stage job ref i f).
Proof. unfold move_stage. jb. Qed.
#[local] Hint Resolve jb_move_stage : jobframe.
Lemma jb_advance job st : preserves I (advanceBackupPartCursor job st).
Proof. unfold advanceBackupPartCursor. jb. Qed.
Lemma jb_persist k job st : preserves I (persistBackupPart k job st).
Proof. unfold persistBackupPart, insert_staged. jb. Qed.
Lemma jb_compensate k st : preserves I (persistBackupCompensationRecord k st).
Proof. unfold persistBackupCompensationRecord, insert_staged. jb. Qed.
Lemma jb_finish_import job m : preserves I (BackupImport.FinishBackupImportFiles job m).
Proof.
  unfold BackupImport.FinishBackupImportFiles, readBackupTargets, finishBackupPhysicalFiles, finishBackupCompositeFiles,
    markBackupFileReady, backupFileIsReady, insertBackupSegments, insertBackupCompletedParts,
    Multipart.insert_segment, Multipart.insert_completed. jb.
Qed.
Lemma jb_discard_import job : preserves I (BackupImport.DiscardBackupImport job).
Proof. unfold BackupImport.DiscardBackupImport. jb. Qed.
Lemma jb_directories m p : preserves I (publishDirectories m p).
Proof. unfold publishDirectories, updateBackupEntryMetadata. jb. Qed.
Lemma jb_mappings m c targets p : preserves I (publishMappings m c targets p).
Proof.
  unfold publishMappings, publish_item, publishMapping, replaceMapping, updateBackupEntryMetadata,
    S3Object.deleteS3Metadata, S3Object.insertS3Metadata. jb.
Qed.
Lemma jb_properties m p : preserves I (publishWebDAVProperties m p).
Proof. unfold publishWebDAVProperties. jb. Qed.

(** ** With the block store *)
Context {B : Type} `{!IBlockIO B} `{!RetryLib} `{!TimeText}.
Notation I2 := (fun s : World * B => I s.1).
#[local] Hint Resolve jb_populate jb_release jb_persist jb_compensate jb_advance : jobframe.

Lemma jb_fill job files : preserves I2 (fillCompositeBackupDigests job files).
Proof. unfold fillCompositeBackupDigests, calculateBackupFileMD5, FileManager.OpenFile, FileManager.internalGetFileInfo,
  Dao.FileDao.GetFileInfo. jb. Qed.
#[local] Hint Resolve jb_fill : jobframe.
Lemma jb_snapshot rq : preserves I2 (BackupExport.CreateBackupSnapshot rq).
Proof. unfold BackupExport.CreateBackupSnapshot. jb. Qed.
Lemma jb_stage job part src : preserves I2 (BackupImport.StageBackupPart job part src).
Proof.
  unfold BackupImport.StageBackupPart, readBackupStageTarget, uploadBackupPart, verifyBackupPartReadback,
    discardFailedBackupPart, deleteUnpersistedBackupPart. jb.
Qed.
End BackupOps.

(** ** The publication *)
Section Publish.
Context `{!Env}.
Import BackupImport.

Lemma complete_jobs job files p w a w' :
  complete job files p w = (Ok a, w') ->
  exists t, a_time t /\ sql_count (publishing job) (t_job (db w)) = 1 /\ t_job (db w') = sql_update (publishing job) (complete_job (pb_created p) (pb_replaced p) files t) (t_job (db w)).
Proof.
  unfold complete. intros Hrun. apply bind_ok_inv in Hrun as (t & w1 & R1 & Hrun).
  assert (same_jobs (t_job (db w)) w1 /\ a_time t) as [Hw1 Ht] by (injection R1 as <- <-; by split; [|eexists]).
  exists t. split; [done|].
  apply bind_ok_inv in Hrun as ([] & w2 & R2 & Hrun).
  assert (t_job (db w2) = t_job (db w)) as <-.
  { refine (_ : same_jobs _ w2).
    assert (forall X l, preserves (same_jobs X) (for_each (fun f => markFileTreePendingIfUnreferenced f t) l)) as Hm
      by (intros; jb).
    specialize (Hm _ (replacedIDs p) _ Hw1). by rewrite R2 in Hm. }
  apply bind_ok_inv in Hrun as (n & w3 & R3 & Hrun). injection R3 as <- <-.
  apply bind_ok_inv in Hrun as ([] & w4 & R4 & Hrun). injection R4 as <-.
  apply check_ok in Hrun as [-> E].
  apply negb_false_iff, Z.eqb_eq in E. done.
Qed.

Lemma publish_jobs job m c w a w' :
  publish job m c w = (Ok a, w') ->
  exists created replaced files t, a_time t /\ sql_count (publishing job) (t_job (db w)) = 1 /\ t_job (db w') = sql_update (publishing job) (complete_job created replaced files t) (t_job (db w)).
Proof.
  unfold publish. intros Hrun.
  apply bind_ok_inv in Hrun as (j & w1 & R1 & Hrun). injection R1 as _ <-.
  apply bind_ok_inv in Hrun as ([] & w2 & R2 & Hrun).
  assert (w2 = w) as -> by (destruct j as [j|]; [by apply check_ok in R2 as [-> _]|done]).
  apply bind_ok_inv in Hrun as (targets & w3 & R3 & Hrun). injection R3 as _ <-.
  apply bind_ok_inv in Hrun as ([] & w4 & R4 & Hrun).
  apply check_ok in R4 as [-> _].
  apply bind_ok_inv in Hrun as (p1 & w5 & R5 & Hrun). apply bind_ok_inv in Hrun as (p2 & w6 & R6 & Hrun).
  apply bind_ok_inv in Hrun as ([] & w7 & R7 & Hrun). apply bind_ok_inv in Hrun as ([] & w8 & R8 & Hrun).
  injection Hrun as _ <-.
  pose proof (jb_directories (t_job (db w)) m {| pb_created := 0; pb_replaced := 0; entryByPath := ∅; replacedIDs := [] |} w eq_refl) as H5. rewrite R5 in H5.
  pose proof (jb_mappings (t_job (db w)) m c targets p1 w5 H5) as H6. rewrite R6 in H6.
  pose proof (jb_properties (t_job (db w)) m p2 w6 H6) as H7. rewrite R7 in H7.
  unfold same_jobs in H7. cbn in H7. apply complete_jobs in R8 as (t & Ht & Hn & Hj). rewrite H7 in Hn, Hj.
  by exists (pb_created p2), (pb_replaced p2), (zlen (mf_Files m)), t.
Qed.

Lemma PublishBackupImport_jobs job m c w r w' :
  BackupImport.PublishBackupImport job m c w = (r, w') ->
  match r with
  | Ok _ => exists created replaced files t, a_time t /\ sql_count (publishing job) (t_job (db w)) = 1 /\ t_job (db w') = sql_update (publishing job) (complete_job created replaced files t) (t_job (db w))
  | Err _ => t_job (db w') = t_job (db w)
  end.
Proof.
  unfold BackupImport.PublishBackupImport, check, mbind, M_bind. intros Hrun.
  destruct (negb _ && negb _); [by injection Hrun as <- <-|]. cbn in Hrun.
  assert (preserves (same_jobs (t_job (db w))) (Directory.Mkdir "/")) as Hmk by jb.
  specialize (Hmk w eq_refl). destruct (Directory.Mkdir "/" w) as [[u|e] w1] eqn:E1; cbn in Hrun, Hmk;
    [|by injection Hrun as <- <-].
  unfold same_jobs in Hmk. rewrite <- Hmk. unfold attempt, OnTransation in Hrun. destruct (publish job m c w1) as [[a|e] w2] eqn:E2; cbn in Hrun;
    injection Hrun as <- <-; [by apply publish_jobs in E2|done].
Qed.
End Publish.

Lemma keeps_of {B A} (m : M (World * B) A) :
  (forall X, preserves (fun s : World * B => same_jobs X s.1) m) -> keeps_jobs m.
Proof. intros Hm s. by apply (Hm _ s). Qed.
Lemma keeps_on_db {B A} (m : M World A) : (forall X, preserves (same_jobs X) m) -> keeps_jobs (B := B) (on_db m).
Proof. intros Hm. apply keeps_of. intros X. by apply jb_on_db. Qed.

#[export] Instance file_manager_laws `{!Env} `{!S3Object.MimeTypes} `{!FileCodec} `{!TimeText} `{!Sha}
    {B} `{!IBlockIO B} `{!RetryLib} : BackupFilesLaws B.
Proof.
  split; intros; cbn.
  - apply keeps_of. intros. apply jb_snapshot.
  - apply keeps_on_db. intros. apply jb_release.
  - apply keeps_on_db. intros. apply jb_validate.
  - apply keeps_on_db. intros. apply jb_begin.
  - apply keeps_of. intros. apply jb_stage.
  - apply keeps_on_db. intros. apply jb_finish_import.
  - apply keeps_on_db. intros. apply jb_discard_import.
  - match goal with Hp : PublishBackupImport _ _ _ _ = _ |- _ => rename Hp into Hrun end.
    destruct s as [w b]. unfold PublishBackupImport, file_manager_backups in Hrun. rewrite on_db_eq in Hrun.
    injection Hrun as Er <-. cbn.
    destruct (BackupImport.PublishBackupImport job m policy w) as [r0 w'] eqn:E. cbn in Er |- *. subst r0.
    apply PublishBackupImport_jobs in E. destruct r; [|done].
    destruct E as (c & p & f & t & Ht & Hn & Hj). by exists c, p, f, t.
Qed.
