(* ===== verification/BackupJobTheorems.v ===== *)
(** * What holds of backup jobs

    The manager's operations are sequences of the steps of [BackupJobSteps]; along these a
    canceled job never succeeds, a repeated request finds its job again, and what a restart
    finds unfinished goes back into the queue. *)

From stdpp Require Import base strings list gmap relations.
From S2P Require Import Prelude GoStr Base64 BlockIO FileStream Store Directory DirTheorems Multipart FileManager BackupFmt Archive.
From S2P Require Import BackupExport BackupImport JobRow BackupJobs UploadProofs ArchiveTheorems BackupJobSteps BackupJobFiles.
From S2P Require Import SystemTheorems.
Import BackupFmt Archive BackupJobs.

(** ** Rows along steps *)

Definition identity (j : job_row) : string * job_kind * string * string * string :=
  (j_job_id j, j_kind j, j_owner j, j_idempotency_key j, j_fingerprint j).
Definition request_of (j : job_row) : string * job_kind * string := (j_owner j, j_kind j, j_idempotency_key j).

(** A canceled job is not published and has not succeeded. *)
Definition cancel_holds (j : job_row) : Prop :=
  j_cancel_requested j = true -> j_state j <> JsPublishing /\ j_state j <> JsSucceeded.

Definition row_moves (j j' : job_row) : Prop :=
  identity j' = identity j /\ (j_cancel_requested j = true -> j_cancel_requested j' = true) /\
  (cancel_holds j -> cancel_holds j').

Lemma row_moves_refl j : row_moves j j.
Proof. by split_and!. Qed.

(** The guards of an UPDATE, one by one. *)
Ltac guards :=
  repeat match goal with
  | Hg : _ && _ = true |- _ => apply andb_true_iff in Hg as [? ?]
  | Hg : negb _ = true |- _ => apply negb_true_iff in Hg
  | Hg : bool_decide _ = true |- _ => apply bool_decide_eq_true in Hg
  | Hg : bool_decide _ = false |- _ => apply bool_decide_eq_false in Hg
  | Hg : (_ =? _) = true |- _ => apply Z.eqb_eq in Hg
  | Hg : is_job _ _ = true |- _ => apply String.eqb_eq in Hg
  end.

Section Invariants.
Context `{!Env} `{!BackupLib}.

(** What one step does to the rows: it moves them, adds one or removes some. *)
Inductive rows_step : jobs -> jobs -> Prop :=
  | rows_draw P n t : rows_step (P, n, t) ({[n]} ∪ P, S n, t)
  | rows_insert P n k raw t j :
      k ∈ P -> random_bytes k = Ok raw -> j_job_id j = Base64.hex_encode raw -> j_cancel_requested j = false ->
      (forall r, r ∈ t -> j_job_id r <> j_job_id j /\ request_of r <> request_of j) ->
      rows_step (P, n, t) (P ∖ {[k]}, n, t ++ [j])
  | rows_update P n t p f :
      (forall j, p j = true -> row_moves j (f j)) -> rows_step (P, n, t) (P, n, sql_update p f t)
  | rows_delete P n t p : rows_step (P, n, t) (P, n, sql_delete p t).

Lemma same_request_iff owner kind key j :
  same_request owner kind key j = true <-> request_of j = (owner, kind, key).
Proof.
  unfold same_request, request_of. rewrite !andb_true_iff, bool_decide_eq_true, !String.eqb_eq.
  split; [by intros [[-> ->] ->]|by intros [= -> -> ->]].
Qed.

Lemma job_step_rows s s' : job_step s s' -> rows_step s s'.
Proof.
  destruct 1 as [P n t|P n k raw t j Hk Hraw Hid Hdone Hcancel Hst Hkind Hfresh| | |[P n] t id from to at_ Ht Hm| | | |
                 | | | | |]; try (destruct n as [P n]).
  all: try by (apply rows_update; intros j Hg; guards; split_and!; [done|done|]; unfold cancel_holds; cbn; intuition congruence).
  - constructor.
  - apply (rows_insert P n k raw t j Hk Hraw Hid Hcancel). intros r Hr. destruct (Hfresh r Hr) as [Hne Hreq].
    split; [done|]. intros E. apply same_request_iff in E. congruence.
  - apply rows_update. intros j Hg. unfold BackupImport.publishing in Hg. guards. split_and!; [done|done|].
    unfold cancel_holds. cbn. intuition congruence.
  - apply rows_update. intros j Hg. guards. split_and!; [done| |].
    + intros Hc. cbn. rewrite Hc. by apply orb_true_r.
    + unfold cancel_holds. cbn. destruct_or!; subst; intuition congruence.
  - apply rows_update. intros j _. match goal with Hn : forall j, _ /\ _ |- _ => destruct (Hn j) as (E1 & E2 & E3 & E4 & E5 & E6 & E7 & E8) end.
    split_and!.
    + unfold identity. congruence.
    + congruence.
    + unfold cancel_holds. by rewrite E3, E4.
  - apply rows_delete.
Qed.

(** ** Reachable tables *)

(** Random ids of 32 bytes do not collide. *)
Definition fresh_ids : Prop := forall k k' raw raw',
  random_bytes k = Ok raw -> random_bytes k' = Ok raw' -> Base64.hex_encode raw = Base64.hex_encode raw' -> k = k'.

Record jobs_inv (s : jobs) : Prop := {
  ji_pool : forall k, k ∈ s.1.1 -> (k < s.1.2)%nat;
  ji_drawn : forall j, j ∈ s.2 -> exists k raw, random_bytes k = Ok raw /\ j_job_id j = Base64.hex_encode raw /\
    (k < s.1.2)%nat /\ k ∉ s.1.1;
  ji_ids : NoDup (j_job_id <$> s.2);
  ji_requests : NoDup (request_of <$> s.2);
  ji_cancel : forall j, j ∈ s.2 -> cancel_holds j }.

Lemma update_fmap {A} (g : job_row -> A) p f t :
  (forall j, p j = true -> g (f j) = g j) -> g <$> sql_update p f t = g <$> t.
Proof.
  intros Hg. unfold sql_update. induction t as [|j t IH]; [done|]. cbn. rewrite IH.
  destruct (p j) eqn:E; [by rewrite Hg|done].
Qed.
Lemma delete_NoDup {A} (g : job_row -> A) p t : NoDup (g <$> t) -> NoDup (g <$> sql_delete p t).
Proof. intros Hn. eapply sublist_NoDup; [done|]. apply fmap_sublist, filter_sublist. Qed.

Lemma rows_step_inv s s' : rows_step s s' -> jobs_inv s -> jobs_inv s'.
Proof.
  intros Hstep [Hp Hd Hi Hr Hc].
  destruct Hstep as [P n t|P n k raw t j Hk Hraw Hid Hcancel Hfresh|P n t p f Hf|P n t p]; cbn in *; split; cbn.
  - intros k [ ->%elem_of_singleton|Hk]%elem_of_union; [lia|]. apply Hp in Hk. lia.
  - intros j Hj. destruct (Hd j Hj) as (k & raw & ? & ? & ? & ?). exists k, raw. split_and!; [done..|lia|].
    apply not_elem_of_union. split; [|done]. intros ->%elem_of_singleton. lia.
  - done.
  - done.
  - done.
  - intros k' [Hk' _]%elem_of_difference. by apply Hp.
  - intros r [Hr'| ->%list_elem_of_singleton]%elem_of_app.
    + destruct (Hd r Hr') as (k' & raw' & ? & ? & ? & ?). exists k', raw'. split_and!; [done..|set_solver].
    + exists k, raw. split_and!; [done..|by apply Hp|set_solver].
  - rewrite fmap_app. apply NoDup_app. split_and!; [done| |apply NoDup_singleton].
    intros x (r & -> & Hr')%list_elem_of_fmap E%list_elem_of_singleton. by destruct (Hfresh r Hr').
  - rewrite fmap_app. apply NoDup_app. split_and!; [done| |apply NoDup_singleton].
    intros x (r & -> & Hr')%list_elem_of_fmap E%list_elem_of_singleton. by destruct (Hfresh r Hr').
  - intros r [Hr'| ->%list_elem_of_singleton]%elem_of_app; [by apply Hc|]. unfold cancel_holds. by rewrite Hcancel.
  - done.
  - intros r (j & Hj & ->)%sql_update_elem. destruct (Hd j Hj) as (k & raw & ? & ? & ? & ?). exists k, raw.
    split_and!; [done| |done..]. destruct (p j) eqn:E; [|done]. destruct (Hf j E) as [[= -> _ _ _ _] _]. done.
  - rewrite update_fmap; [done|]. intros j E. by destruct (Hf j E) as [[= -> _ _ _ _] _].
  - rewrite update_fmap; [done|]. intros j E. unfold request_of. by destruct (Hf j E) as [[= _ -> -> -> _] _].
  - intros r (j & Hj & ->)%sql_update_elem. destruct (p j) eqn:E; [|by apply Hc]. by apply (Hf j E), Hc.
  - done.
  - intros j [Hj _]%sql_delete_elem. by apply Hd.
  - by apply delete_NoDup.
  - by apply delete_NoDup.
  - intros j [Hj _]%sql_delete_elem. by apply Hc.
Qed.

Lemma jobs_steps_inv s s' : steps s s' -> jobs_inv s -> jobs_inv s'.
Proof. induction 1 as [|s1 s2 s3 Hs _ IH]; [done|]. intros Hi. by eapply IH, rows_step_inv, Hi; apply job_step_rows. Qed.

Definition reachable (s : jobs) : Prop := exists n, steps (∅, n, []) s.
Lemma jobs_reachable_inv s : reachable s -> jobs_inv s.
Proof. intros [n R]. eapply jobs_steps_inv; [done|]. split; cbn; try set_solver; constructor. Qed.
Lemma reachable_steps s s' : reachable s -> steps s s' -> reachable s'.
Proof. intros [n R] R'. exists n. by etransitivity. Qed.

(** ** One row along steps *)

(** No draw that is still unused has the id of [j], and every row with that id comes from [j]. *)
Definition descends (j : job_row) (s : jobs) : Prop :=
  (forall k raw, random_bytes k = Ok raw -> Base64.hex_encode raw = j_job_id j -> (k < s.1.2)%nat /\ k ∉ s.1.1) /\
  (forall j', j' ∈ s.2 -> j_job_id j' = j_job_id j -> row_moves j j').

Lemma row_moves_trans j1 j2 j3 : row_moves j1 j2 -> row_moves j2 j3 -> row_moves j1 j3.
Proof. intros (E1 & C1 & H1) (E2 & C2 & H2). split_and!; [congruence|auto..]. Qed.

Lemma descends_step j s s' : rows_step s s' -> descends j s -> descends j s'.
Proof.
  intros Hstep [Hdraw Hrow].
  destruct Hstep as [P n t|P n k raw t i Hk Hraw Hid Hcancel Hfresh|P n t p f Hf|P n t p]; cbn in *; split; cbn.
  - intros k raw Hraw E. destruct (Hdraw k raw Hraw E) as [? ?]. split; [lia|].
    apply not_elem_of_union. split; [|done]. intros ->%elem_of_singleton. lia.
  - done.
  - intros k' raw' Hraw' E. destruct (Hdraw k' raw' Hraw' E) as [? ?]. split; [done|set_solver].
  - intros j' [Hj'| ->%list_elem_of_singleton]%elem_of_app E; [by apply Hrow|].
    destruct (Hdraw k raw Hraw); [congruence|done].
  - done.
  - intros j' (i & Hi & ->)%sql_update_elem E. destruct (p i) eqn:Ep; [|by apply Hrow].
    apply (row_moves_trans j i); [|by apply Hf]. apply Hrow; [done|]. destruct (Hf i Ep) as [[= <- _ _ _ _] _]. done.
  - done.
  - intros j' [Hj' _]%sql_delete_elem. by apply Hrow.
Qed.

Lemma descends_steps j s s' : steps s s' -> descends j s -> descends j s'.
Proof. induction 1 as [|s1 s2 s3 Hs _ IH]; [done|]. intros Hd. by eapply IH, descends_step, Hd; apply job_step_rows. Qed.

Lemma descends_start j s : fresh_ids -> jobs_inv s -> j ∈ s.2 -> descends j s.
Proof.
  intros Hfresh Hi Hj. destruct (ji_drawn _ Hi j Hj) as (k & raw & Hraw & Hid & Hk & HP). split.
  - intros k' raw' Hraw' E. assert (k' = k) as -> by (eapply Hfresh; [done..|congruence]). done.
  - intros j' Hj' E. assert (j' = j) as -> by (by apply (NoDup_fmap_inj j_job_id s.2); [apply Hi|..]).
    apply row_moves_refl.
Qed.
End Invariants.

(** ** Runs of the manager *)
Section Programs.
Context `{!Env} `{!ArchiveLib} `{!FileCodec} `{!Sha} `{!BackupLib} {B : Type} `{!BackupFiles B}.
Notation St := ((World * B) * Work)%type.

Definition rows (s : St) : list job_row := t_job (db s.1.1).

(** The first step of a successful run, where it only reads. *)
Lemma jobs_query_ok {A} (f : DB -> A) (s : St) a s' :
  on_jobs (query f) s = (Ok a, s') -> s' = s /\ a = f (db s.1.1).
Proof. destruct s as [[w b] k]. by intros [= <- <-]. Qed.
Lemma jobs_now_ok (s : St) t s' :
  on_jobs now s = (Ok t, s') -> a_time t /\ rows s' = rows s /\ s'.2 = s.2.
Proof. destruct s as [[w b] k]. intros [= <- <-]. split_and!; [by eexists|done..]. Qed.
Lemma jobs_check_ok b e (s : St) a s' : check b e s = (Ok a, s') -> s' = s /\ b = false.
Proof. unfold check. destruct b; [done|]. by intros [= _ <-]. Qed.
Lemma jobs_update_ok p f (s : St) n s' :
  on_jobs (update_jobs p f) s = (Ok n, s') ->
  n = sql_count p (rows s) /\ rows s' = sql_update p f (rows s) /\ s'.2 = s.2.
Proof. destruct s as [[w b] k]. by intros [= <- <-]. Qed.
Lemma jobs_upd_rows p f (s : St) r s' :
  on_jobs (upd (set_job (sql_update p f))) s = (r, s') -> rows s' = sql_update p f (rows s) /\ s'.2 = s.2.
Proof. destruct s as [[w b] k]. by intros [= <- <-]. Qed.
End Programs.

Ltac job_ok R :=
  let a := fresh "a" in let s := fresh "s" in let R1 := fresh R in
  apply bind_ok_inv in R as (a & s & R1 & R);
  first [apply jobs_query_ok in R1 as [-> ->] | apply jobs_check_ok in R1 as [-> R1] | idtac].

Section Reading.
Context `{!Env} `{!ArchiveLib} `{!FileCodec} `{!Sha} `{!BackupLib} {B : Type} `{!BackupFiles B}.
Notation St := ((World * B) * Work)%type.

Lemma availability_run j (s : St) :
  exists b s', setArtifactAvailability j s = (Ok {| row := j; ArtifactAvailable := b |}, s') /\
    rows s' = rows s /\ s'.2 = s.2.
Proof.
  unfold setArtifactAvailability. destruct (_ && _); [|by eexists _, _].
  destruct (j_artifact_expires_at j =? 0); by eexists _, _.
Qed.

Lemma GetJob_found id (s : St) j :
  validJobID id = true -> head (sql_select (is_job id) (rows s)) = Some j ->
  exists b s', GetJob id s = (Ok {| row := j; ArtifactAvailable := b |}, s') /\ rows s' = rows s /\ s'.2 = s.2.
Proof.
  intros Hid Hj. unfold GetJob. rewrite Hid.
  rewrite (bind_ok (check (negb true) ErrJobNotFound) _ s tt s eq_refl).
  rewrite (bind_ok (on_jobs (query _)) _ s (Some j) s); [apply availability_run|].
  destruct s as [[w b] k]. unfold rows in Hj. cbn in Hj |- *. by rewrite <- Hj.
Qed.

Lemma GetJob_ok id (s : St) job s' :
  GetJob id s = (Ok job, s') ->
  validJobID id = true /\ head (sql_select (is_job id) (rows s)) = Some (row job) /\ rows s' = rows s /\ s'.2 = s.2.
Proof.
  unfold GetJob. intros R. job_ok R. apply negb_false_iff in R0. job_ok R.
  fold (rows s) in R. destruct (head _) as [j|] eqn:E; [|done].
  destruct (availability_run j s) as (b & s1 & E1 & Hr & Hk). rewrite E1 in R. injection R as <- <-. done.
Qed.


Lemma head_row id (t : list job_row) j :
  head (sql_select (is_job id) t) = Some j -> j ∈ t /\ j_job_id j = id.
Proof.
  intros Hj. assert (j ∈ sql_select (is_job id) t) as [Hin Hid]%sql_select_elem.
  { destruct (sql_select _ _); [done|]. injection Hj as ->. left. }
  by apply String.eqb_eq in Hid.
Qed.
Lemma head_unique id (t : list job_row) j :
  NoDup (j_job_id <$> t) -> j ∈ t -> j_job_id j = id -> head (sql_select (is_job id) t) = Some j.
Proof.
  intros Hn Hj Hid. assert (j ∈ sql_select (is_job id) t) as Hs.
  { apply sql_select_elem. split; [done|]. by apply String.eqb_eq. }
  destruct (sql_select (is_job id) t) as [|j' l] eqn:E; [by apply elem_of_nil in Hs|]. cbn. f_equal.
  destruct (head_row id t j') as [Hj' Hid']; [by rewrite E|]. apply (NoDup_fmap_inj j_job_id t); congruence.
Qed.

(** An UPDATE of one job that changes a row changes the row of that job. *)
Lemma count_hits id p (t : list job_row) j :
  (forall r, p r = true -> j_job_id r = id) -> NoDup (j_job_id <$> t) -> sql_count p t <> 0 ->
  j ∈ t -> j_job_id j = id -> p j = true.
Proof.
  intros Hp Hn Hc Hj Hid. destruct (p j) eqn:E; [done|]. destruct Hc. apply sql_count_zero. intros r Hr.
  destruct (p r) eqn:Er; [|done].
  assert (r = j) as -> by (apply (NoDup_fmap_inj j_job_id t); [done..|]; by rewrite (Hp r Er)). congruence.
Qed.

Lemma count_some (p : job_row -> bool) t : sql_count p t = 1 -> exists r, r ∈ t /\ p r = true.
Proof.
  intros Hc. destruct (sql_exists p t) eqn:E; [by apply sql_exists_true|].
  rewrite sql_exists_false in E. apply sql_count_zero in E. lia.
Qed.
End Reading.

(** ** The manager against the steps *)
Section Refinement.
Context `{!Env} `{!ArchiveLib} `{!FileCodec} `{!Sha} `{!BackupLib} {B : Type} `{!BackupFiles B}.
Context (options : Options).
Notation St := ((World * B) * Work)%type.

Inductive manager_op :=
  | OpCreateExport (request : CreateExportRequest)
  | OpCreateImport (request : importReceiveRequest)
  | OpCreateImportUpload (request : importReceiveRequest)
  | OpCancel (jobID : string)
  | OpGetJob (jobID : string)
  | OpProcessNext (kind : job_kind)
  | OpProcessUntilTerminal (fuel : nat) (jobID : string)
  | OpRecover
  | OpCleanup.

Definition run_manager (op : manager_op) (s : St) : St :=
  match op with
  | OpCreateExport request => (CreateExport options request s).2
  | OpCreateImport request => (CreateImport options request s).2
  | OpCreateImportUpload request => (CreateImportUpload options request s).2
  | OpCancel jobID => (Cancel jobID s).2
  | OpGetJob jobID => (GetJob jobID s).2
  | OpProcessNext kind => (processNext options kind s).2
  | OpProcessUntilTerminal fuel jobID => (ProcessUntilTerminal options fuel jobID s).2
  | OpRecover => (recover s).2
  | OpCleanup => (cleanup options s).2
  end.
Definition run_managers (ops : list manager_op) (s : St) : St := foldl (fun s op => run_manager op s) s ops.

(** C8: Whatever requests, workers, restarts and cleanups do, in any order, and however they
    fail, the job table goes through steps of [job_step] only, provided the file manager
    writes it in a successful publication only. *)
Theorem manager_runs_in_steps `{!BackupFilesLaws B} ops (s : St) P :
  exists P', steps (job_table P s) (job_table P' (run_managers ops s)).
Proof.
  revert s P. induction ops as [|op ops IH]; intros s P; [by exists P|].
  assert (exists P1, steps (job_table P s) (job_table P1 (run_manager op s))) as [P1 R1].
  { destruct op; cbn [run_manager].
    - apply moves_CreateExport.
    - apply moves_CreateImport.
    - apply moves_CreateImportUpload.
    - apply moves_Cancel.
    - apply moves_GetJob.
    - apply moves_processNext.
    - apply moves_ProcessUntilTerminal.
    - apply moves_recover.
    - apply moves_cleanup. }
  destruct (IH (run_manager op s) P1) as [P2 R2]. exists P2. by etransitivity.
Qed.
End Refinement.

(** ** Cancellation *)
Section Cancel.
Context `{!Env} `{!ArchiveLib} `{!FileCodec} `{!Sha} `{!BackupLib} {B : Type} `{!BackupFiles B} `{!BackupFilesLaws B}.
Notation St := ((World * B) * Work)%type.

(** The guard of the UPDATE of [Cancel]. *)
Definition cancelable (id : string) (j : job_row) : bool :=
  is_job id j && (j_completed_at j =? 0) && negb (bool_decide (j_state j = JsPublishing)).

Lemma Cancel_run id (s : St) job s' P :
  Cancel id s = (Ok job, s') ->
  job_step (job_table P s) (job_table P s') /\
  exists at_, sql_count (cancelable id) (rows s) = 1 /\ rows s' = sql_update (cancelable id) (with_cancel at_) (rows s).
Proof.
  unfold Cancel. intros R. job_ok R. apply GetJob_ok in R0 as (_ & _ & E0 & K0). job_ok R. clear R0.
  job_ok R. apply jobs_now_ok in R0 as (Ht & E1 & K1).
  job_ok R. apply jobs_update_ok in R0 as (-> & E2 & K2). job_ok R.
  apply GetJob_ok in R as (_ & _ & E3 & K3). apply negb_false_iff, Z.eqb_eq in R0.
  rewrite E1, E0 in E2, R0. split; [|eexists; split; [exact R0|by rewrite E3]].
  unfold job_table, rows in *. rewrite E3, E2, K3, K2, K1, K0. by constructor.
Qed.

(** C7: A job that [Cancel] accepted is never published and never succeeds afterwards,
    whatever the manager's workers were doing and do then, in any interleaving of their
    statements, restarts and cleanups included: its row, while it is there, stays marked as
    canceled and is in no state of success, and a publication of it fails. *)
Theorem canceled_job_never_succeeds id (s s' : St) P job (later : jobs) :
  fresh_ids -> reachable (job_table P s) -> Cancel id s = (Ok job, s') -> steps (job_table P s') later ->
  (forall j, j ∈ later.2 -> j_job_id j = id ->
     j_cancel_requested j = true /\ j_state j <> JsPublishing /\ j_state j <> JsSucceeded) /\
  (forall (fm : World * B) manifest policy, t_job (db fm.1) = later.2 ->
     exists e, (PublishBackupImport id manifest policy fm).1 = Err e).
Proof.
  intros Hfresh Hreach Hc R. destruct (Cancel_run id s job s' P Hc) as (Hstep & at_ & Hn & Hrows).
  pose proof (jobs_reachable_inv _ Hreach) as Hinv.
  assert (reachable (job_table P s')) as Hreach' by (eapply reachable_steps; [done|by apply rtc_once]).
  pose proof (jobs_reachable_inv _ (reachable_steps _ _ Hreach' R)) as Hlater.
  assert (forall j, j ∈ later.2 -> j_job_id j = id -> j_cancel_requested j = true) as Hmark.
  { assert (exists j0, j0 ∈ rows s' /\ j_job_id j0 = id /\ j_cancel_requested j0 = true) as (j0 & Hj0 & Hid0 & Hc0).
    { apply count_some in Hn as (r & Hr & Hp). exists (with_cancel at_ r). split_and!.
      - rewrite Hrows. apply sql_update_elem. exists r. by rewrite Hp.
      - unfold cancelable in Hp. by guards.
      - done. }
    pose proof (descends_start j0 _ Hfresh (jobs_reachable_inv _ Hreach') Hj0) as Hd.
    intros j Hj Hid. apply (descends_steps _ _ _ R) in Hd as [_ Hd].
    apply (Hd j Hj); [congruence|done]. }
  split.
  - intros j Hj Hid. specialize (Hmark j Hj Hid). split; [done|]. by apply (ji_cancel _ Hlater j Hj).
  - intros fm manifest policy Hfm. destruct (PublishBackupImport id manifest policy fm) as [r fm'] eqn:E.
    apply law_publish in E. destruct r as [res|e]; [|by exists e]. destruct E as (c & rp & f & t & Hone & _).
    rewrite Hfm in Hone. apply count_some in Hone as (r & Hr & Hp).
    unfold BackupImport.publishing in Hp. guards. exfalso. assert (j_job_id r = id) as Hid by (by apply String.eqb_eq).
    by destruct (ji_cancel _ Hlater r Hr (Hmark r Hr Hid)).
Qed.
End Cancel.

(** ** Recovery *)
Section Recovery.
Context `{!Env} `{!ArchiveLib} `{!FileCodec} `{!Sha} `{!BackupLib} {B : Type} `{!BackupFiles B} `{!BackupFilesLaws B}.
Notation St := ((World * B) * Work)%type.
Context (clock : forall n, 0 < clk n).

(** An unfinished job is one that a worker can claim, and if it is past the queue it is an
    import whose publication has to be resumed. *)
Definition at_rest (j : job_row) : Prop :=
  j_completed_at j = 0 -> claimable (j_kind j) j = true /\
    (j_state j = JsQueued \/ (j_kind j = JkImport /\ j_state j = JsPublishing)).

(** Recovering the jobs [ids] changes their rows only and leaves them at rest. *)
Definition recovers (items : list job_row) (s s' : St) : Prop :=
  exists f, rows s' = f <$> rows s /\ (forall j, j_job_id (f j) = j_job_id j) /\
    (forall j, j_job_id j ∉ (j_job_id <$> items) -> f j = j) /\ (forall j, j ∈ items -> at_rest (f j)).

Lemma queued_rests j : j_state j = JsQueued -> at_rest j.
Proof. intros E _. split; [|by left]. unfold claimable. rewrite E. by destruct (j_kind j). Qed.

Lemma update_recovers item f s s' :
  rows s' = sql_update (is_job (j_job_id item)) f (rows s) -> (forall j, j_job_id (f j) = j_job_id j) ->
  at_rest (f item) -> recovers [item] s s'.
Proof.
  intros E Hid Hrest. exists (fun j => if is_job (j_job_id item) j then f j else j). split_and!.
  - exact E.
  - intros j. by destruct (is_job _ _).
  - intros j Hj. destruct (is_job _ j) eqn:Ej; [|done]. apply String.eqb_eq in Ej. destruct Hj. cbn. rewrite Ej. left.
  - intros j ->%list_elem_of_singleton. unfold is_job. by rewrite String.eqb_refl.
Qed.

Lemma fm_rows {A} (m : M (World * B) A) (s : St) r s' :
  keeps_jobs m -> on_fm m s = (r, s') -> rows s' = rows s /\ s'.2 = s.2.
Proof.
  intros Hm. unfold on_fm. specialize (Hm s.1). destruct (m s.1) as [r1 wb]. intros [= _ <-]. done.
Qed.
Lemma set_dir_rows f (s : St) r s' : set_dir f s = (r, s') -> rows s' = rows s /\ s'.2.(rand_calls) = s.2.(rand_calls).
Proof. by intros [= _ <-]. Qed.
Lemma finishJob_rows id state code message (s : St) r s' :
  finishJob id state code message s = (r, s') ->
  r = Ok tt /\ exists n, rows s' = sql_update (is_job id) (with_finish state code message (clk n)) (rows s).
Proof. destruct s as [[w b] k]. intros [= <- <-]. by split; [|eexists]. Qed.
Lemma resetState_rows id state (s : St) r s' :
  resetState id state s = (r, s') ->
  exists t, rows s' = sql_update (fun j => is_job id j && (j_completed_at j =? 0)) (with_state state t) (rows s).
Proof. destruct s as [[w b] k]. intros [= _ <-]. by eexists. Qed.

Lemma reset_update id state t (l : list job_row) :
  sql_update (fun j => is_job id j && (j_completed_at j =? 0)) (with_state state t) l =
  sql_update (is_job id) (fun j => if j_completed_at j =? 0 then with_state state t j else j) l.
Proof.
  unfold sql_update. apply map_ext. intros j. destruct (is_job id j); [|done]. by destruct (_ =? _).
Qed.
Lemma update_update id f g (l : list job_row) :
  (forall j, j_job_id (f j) = j_job_id j) ->
  sql_update (is_job id) g (sql_update (is_job id) f l) = sql_update (is_job id) (fun j => g (f j)) l.
Proof.
  intros Hf. unfold sql_update. rewrite map_map. apply map_ext. intros j. unfold is_job at 2 4.
  destruct (String.eqb (j_job_id j) id) eqn:E; unfold is_job; [by rewrite Hf, E|by rewrite E].
Qed.

Lemma reset_recovers item (s s' : St) r :
  resetState (j_job_id item) JsQueued s = (r, s') -> recovers [item] s s'.
Proof.
  intros [t E]%resetState_rows. rewrite reset_update in E. apply (update_recovers _ _ _ _ E).
  - intros j. by destruct (_ =? _).
  - destruct (j_completed_at item =? 0) eqn:E0; [by apply queued_rests|]. intros Hd. apply Z.eqb_neq in E0. done.
Qed.

Lemma recoverJob_run item (s s' : St) : recoverJob item s = (Ok tt, s') -> recovers [item] s s'.
Proof.
  unfold recoverJob. destruct (bool_decide (j_state item = JsReceiving)).
  { intros R. job_ok R. apply set_dir_rows in R0 as [E0 _]. apply finishJob_rows in R as [_ [n E]]. rewrite E0 in E.
    apply (update_recovers _ _ _ _ E); [done|]. intros Hd. cbn in Hd. specialize (clock n). lia. }
  destruct (bool_decide (j_kind item = JkExport)) eqn:Ek.
  { intros R. job_ok R. apply fm_rows in R0 as [E0 _]; [|apply law_release].
    job_ok R. assert (rows s1 = rows s0) as E1.
    { unfold remove_export_files in R0. job_ok R0. job_ok R0. apply set_dir_rows in R0 as [E3 _], R1 as [E1 _], R2 as [E2 _].
      congruence. }
    job_ok R. apply jobs_upd_rows in R1 as [E2 _]. apply resetState_rows in R as [t E].
    rewrite reset_update, E2, E1, E0, update_update in E by done. apply (update_recovers _ _ _ _ E).
    - intros j. by destruct (_ =? _).
    - destruct (_ =? 0) eqn:Ec; [by apply queued_rests|]. intros Hd. apply Z.eqb_neq in Ec. done. }
  destruct (bool_decide (j_state item = JsPublishing)) eqn:Ep.
  { intros [= <-]. exists id. split_and!; [by rewrite list_fmap_id|done..|].
    intros j ->%list_elem_of_singleton _. apply bool_decide_eq_true in Ep. apply bool_decide_eq_false in Ek.
    assert (j_kind item = JkImport) as Ei by (by destruct (j_kind item)).
    unfold id. split; [unfold claimable; by rewrite Ei, Ep|by right]. }
  destruct (bool_decide (j_state item = JsStaging)); [|apply reset_recovers].
  unfold resetStagedImport. intros R. job_ok R. apply fm_rows in R0 as [E0 _]; [|apply law_discard].
  job_ok R. assert (rows s1 = rows s0) as E1 by (destruct s0 as [[? ?] ?]; by injection R0 as <- <-).
  job_ok R. apply jobs_now_ok in R1 as (_ & E2 & _). apply jobs_upd_rows in R as [E _]. rewrite E2, E1, E0 in E.
  apply (update_recovers _ _ _ _ E); [done|]. by apply queued_rests.
Qed.

Lemma recover_each items (s s' : St) :
  NoDup (j_job_id <$> items) -> (forall j, j ∈ items -> j ∈ rows s) ->
  for_each recoverJob items s = (Ok tt, s') -> recovers items s s'.
Proof.
  revert s. induction items as [|item items IH]; intros s Hn Hin R.
  { injection R as <-. exists id. split_and!; [by rewrite list_fmap_id|done..|]. by intros j ?%elem_of_nil. }
  cbn in Hn. apply NoDup_cons in Hn as [Hni Hn]. cbn in R. job_ok R. destruct a.
  apply recoverJob_run in R0 as (f & E & Hid & Hsame & Hrest).
  assert (forall j, j ∈ items -> f j = j) as Hf.
  { intros j Hj. apply Hsame. intros Ej%list_elem_of_singleton. destruct Hni. rewrite <- Ej. by apply list_elem_of_fmap_2. }
  destruct (IH s0 Hn) as (g & Eg & Hidg & Hsameg & Hrestg); [|done|].
  { intros j Hj. rewrite E. apply list_elem_of_fmap. exists j. split; [by rewrite Hf|]. apply Hin. by right. }
  exists (fun j => g (f j)). split_and!.
  - by rewrite Eg, E, <- list_fmap_compose.
  - intros j. by rewrite Hidg.
  - intros j Hj. cbn in Hj. apply not_elem_of_cons in Hj as [Hne Hni2].
    rewrite Hsame by (by cbn; rewrite list_elem_of_singleton). by apply Hsameg.
  - intros j [->|Hj]%elem_of_cons; [|rewrite Hf by done; by apply Hrestg].
    rewrite Hsameg by (by rewrite Hid). apply Hrest. left.
Qed.

(** C9: After a restart has recovered the jobs, every unfinished one can be claimed by a
    worker: it is back in the queue, or it is an import whose publication has to be
    resumed. No job is lost, finished jobs are as they were, and the pins that are left
    belong to queued exports. *)
Theorem recover_requeues (s s' : St) P :
  reachable (job_table P s) -> recover s = (Ok tt, s') ->
  j_job_id <$> rows s' = j_job_id <$> rows s /\
  (forall j, j ∈ rows s -> j_completed_at j <> 0 -> j ∈ rows s') /\
  (forall j, j ∈ rows s' -> at_rest j) /\
  (forall p, p ∈ t_pin (db s'.1.1) ->
     exists j, j ∈ rows s' /\ j_job_id j = pin_job p /\ j_kind j = JkExport /\ j_state j = JsQueued).
Proof.
  intros Hreach R. pose proof (ji_ids _ (jobs_reachable_inv _ Hreach)) as Hn. cbn in Hn. fold (rows s) in Hn.
  unfold recover in R. job_ok R. fold (rows s) in R. set (items := order_by _ _) in R.
  assert (forall j, j ∈ items <-> j ∈ rows s /\ j_completed_at j = 0) as Hitems.
  { intros j. unfold items. rewrite order_by_perm, sql_select_elem. by rewrite Z.eqb_eq. }
  job_ok R. destruct a. apply recover_each in R0 as (f & E & Hid & Hsame & Hrest).
  2: { unfold items. rewrite order_by_perm. eapply sublist_NoDup; [exact Hn|]. apply fmap_sublist, filter_sublist. }
  2: { intros j Hj. by apply Hitems. }
  assert (rows s' = rows s0 /\ t_pin (db s'.1.1) = sql_delete (fun p => negb (sql_exists (fun j =>
    is_job (pin_job p) j && bool_decide (j_kind j = JkExport) && (j_completed_at j =? 0)) (rows s0))) (t_pin (db s0.1.1)))
    as [Er Ep] by (destruct s0 as [[? ?] ?]; by injection R as <-).
  assert (forall j, j ∈ rows s -> j_completed_at j <> 0 -> f j = j) as Hdone.
  { intros j Hj Hd. apply Hsame. intros (j' & Ej & Hj')%list_elem_of_fmap. apply Hitems in Hj' as [Hj' Hd'].
    destruct Hd. by rewrite (NoDup_fmap_inj j_job_id (rows s) j j'). }
  assert (forall j, j ∈ rows s' -> at_rest j) as Hall.
  { intros j Hj. rewrite Er, E in Hj. apply list_elem_of_fmap in Hj as (j0 & -> & Hj0).
    destruct (decide (j_completed_at j0 = 0)); [by apply Hrest, Hitems|]. by rewrite Hdone. }
  split_and!.
  - rewrite Er, E, <- list_fmap_compose. apply list_fmap_ext. intros i j _. apply Hid.
  - intros j Hj Hd. rewrite Er, E, list_elem_of_fmap. exists j. by rewrite Hdone.
  - done.
  - intros p Hp. rewrite Ep in Hp. apply sql_delete_elem in Hp as [_ Hp].
    apply negb_false_iff, sql_exists_true in Hp as (j & Hj & Hp). guards. exists j. rewrite Er. split_and!; try done.
    assert (at_rest j) as Hr by (by apply Hall; rewrite Er). destruct (Hr) as [_ [?|[? _]]]; congruence.
Qed.
End Recovery.

(** ** Idempotent requests *)
Section Idempotency.
Context `{!Env} `{!ArchiveLib} `{!FileCodec} `{!Sha} `{!BackupLib} {B : Type} `{!BackupFiles B} `{!BackupFilesLaws B}.
Context (options : Options).
Notation St := ((World * B) * Work)%type.

Lemma getJobByIdempotency_run owner kind key (s : St) j :
  NoDup (j_job_id <$> rows s) -> NoDup (request_of <$> rows s) -> j ∈ rows s -> request_of j = (owner, kind, key) ->
  validJobID (j_job_id j) = true ->
  exists b s', getJobByIdempotency owner kind key s = (Ok {| row := j; ArtifactAvailable := b |}, s') /\
    rows s' = rows s /\ s'.2 = s.2.
Proof.
  intros Hn Hr Hj Hreq Hid. unfold getJobByIdempotency.
  assert (head (sql_select (same_request owner kind key) (rows s)) = Some j) as Eh.
  { assert (j ∈ sql_select (same_request owner kind key) (rows s)) as Hs.
    { apply sql_select_elem. split; [done|]. by apply same_request_iff. }
    destruct (sql_select _ _) as [|j' l] eqn:E; [by apply elem_of_nil in Hs|]. cbn. f_equal.
    assert (j' ∈ rows s /\ same_request owner kind key j' = true) as [Hj' Hreq'%same_request_iff]
      by (apply sql_select_elem; rewrite E; left).
    apply (NoDup_fmap_inj request_of (rows s)); congruence. }
  rewrite (bind_ok (on_jobs (query _)) _ s (Some j) s).
  - apply GetJob_found; [done|]. by apply head_unique.
  - destruct s as [[w b] k]. unfold rows in Eh. cbn in Eh |- *. by rewrite <- Eh.
Qed.

Lemma getJobByIdempotency_ok owner kind key (s : St) job s' :
  NoDup (j_job_id <$> rows s) -> getJobByIdempotency owner kind key s = (Ok job, s') ->
  row job ∈ rows s' /\ validJobID (JobID job) = true /\ request_of (row job) = (owner, kind, key).
Proof.
  intros Hn R. unfold getJobByIdempotency in R. job_ok R. fold (rows s) in R.
  destruct (head (sql_select (same_request owner kind key) (rows s))) as [j0|] eqn:Eh; [|done].
  assert (j0 ∈ rows s /\ same_request owner kind key j0 = true) as [Hin Hreq%same_request_iff].
  { apply sql_select_elem. destruct (sql_select _ _); [done|]. injection Eh as ->. left. }
  apply GetJob_ok in R as (Hid & Hhead & E3 & _).
  rewrite (head_unique _ _ j0 Hn Hin eq_refl) in Hhead. injection Hhead as ->. by rewrite E3.
Qed.

(** What a successful creation returns is the job of the request. *)
Lemma insertJob_ok kind owner key fingerprint scope dry conflict state (s : St) job created s' :
  NoDup (j_job_id <$> rows s) ->
  insertJob kind owner key fingerprint scope dry conflict state s = (Ok (job, created), s') ->
  row job ∈ rows s' /\ validJobID (JobID job) = true /\ request_of (row job) = (owner, kind, key) /\
  j_fingerprint (row job) = fingerprint.
Proof.
  unfold insertJob. intros Hn R. job_ok R. rewrite randomJobID_run in R0. injection R0 as Eid <-.
  job_ok R. apply jobs_now_ok in R0 as (_ & E1 & _). change (rows (drawn s)) with (rows s) in E1.
  job_ok R. set (j := new_job _ _ _ _ _ _ _ _ _ _) in *.
  pose proof (insert_job_run j s0.1.1) as Hins. unfold attempt, on_jobs, on_fm, on_db in R0.
  destruct (insert_job j s0.1.1) as [[[]|e] w'] eqn:E; cbn in R0; injection R0 as <- <-.
  - destruct Hins as [Hfresh Erows]. job_ok R. injection R as <- _ <-.
    apply GetJob_ok in R0 as (Hid & Hhead & E3 & _). apply head_row in Hhead as [Hin Hjid].
    unfold rows in Hin, E3 |- *. cbn in Hin, E3. rewrite E3. rewrite Erows in Hin.
    assert (row a1 = j) as Ej.
    { apply elem_of_app in Hin as [Hin| ->%list_elem_of_singleton]; [|done]. by destruct (Hfresh _ Hin). }
    unfold JobID. rewrite Ej, Erows. split_and!; [|by rewrite Ej in Hjid|done..]. apply elem_of_app. right. left.
  - subst w'. job_ok R. destruct a1 as [existing|e2]; [|done]. destruct (negb _) eqn:Ef; [done|]. injection R as <- _ <-.
    apply negb_false_iff, String.eqb_eq in Ef. unfold attempt in R0.
    destruct (getJobByIdempotency owner kind key _) as [r s3'] eqn:Eg. injection R0 as -> ->.
    apply getJobByIdempotency_ok in Eg as (? & ? & ?); [done|]. unfold rows in *. cbn. by rewrite E1.
Qed.

Lemma insertJob_again kind owner key fingerprint scope dry conflict state (s : St) raw j :
  NoDup (j_job_id <$> rows s) -> NoDup (request_of <$> rows s) -> random_bytes (rand_calls s.2) = Ok raw ->
  j ∈ rows s -> request_of j = (owner, kind, key) -> validJobID (j_job_id j) = true ->
  exists b s', rows s' = rows s /\
    insertJob kind owner key fingerprint scope dry conflict state s =
      (if String.eqb (j_fingerprint j) fingerprint then Ok ({| row := j; ArtifactAvailable := b |}, false)
       else Err ErrIdempotencyConflict, s').
Proof.
  intros Hn Hr Hraw Hj Hreq Hid. unfold insertJob.
  pose proof (randomJobID_run s) as Hrand. rewrite Hraw in Hrand. rewrite (bind_ok _ _ _ _ _ Hrand).
  rewrite (bind_ok (on_jobs now) _ (drawn s) (clk (ticks s.1.1)) _ eq_refl).
  set (s2 := (_, (drawn s).2)). set (i := new_job _ _ _ _ _ _ _ _ _ _).
  pose proof (insert_job_run i s2.1.1) as Hins.
  destruct (insert_job i s2.1.1) as [[u|e] w'] eqn:E.
  { destruct Hins as [Hfresh _]. destruct (Hfresh j Hj) as [_ Hf].
    assert (same_request owner kind key j = true) as Ht by (by apply same_request_iff). cbn in Hf. congruence. }
  subst w'. rewrite (bind_ok (attempt (on_jobs (insert_job i))) _ s2 (Err e) s2).
  2: { unfold attempt, on_jobs, on_fm, on_db. rewrite E. done. }
  destruct (getJobByIdempotency_run owner kind key s2 j) as (b & s' & Eg & Er & _); [done..|].
  rewrite (bind_ok (attempt (getJobByIdempotency owner kind key)) _ s2 (Ok {| row := j; ArtifactAvailable := b |}) s')
    by (unfold attempt; by rewrite Eg).
  exists b, s'. split; [done|]. cbn [row]. by destruct (String.eqb _ _).
Qed.

(** The scope of a request, as [CreateExport] normalises it, and its fingerprint. *)
Definition export_scope (request : CreateExportRequest) : string :=
  if String.eqb (ce_Scope request) "" then "/" else path_clean (ce_Scope request).
Definition export_fingerprint (request : CreateExportRequest) : string :=
  requestFingerprint ["export"; export_scope request].

Definition export_refused (request : CreateExportRequest) : bool :=
  String.eqb (ce_Owner request) "" || negb (validIdempotencyKey (ce_IdempotencyKey request)) ||
  negb (validScope (export_scope request) (lim_MaxPathBytes (o_Limits options))) ||
  (negb (String.eqb (export_scope request) (ce_Scope request)) && negb (String.eqb (ce_Scope request) "")).

Lemma CreateExport_eq request (s : St) :
  CreateExport options request s =
  if export_refused request then (Err ErrInvalidRequest, s)
  else createQueuedJob JkExport (ce_Owner request) (ce_IdempotencyKey request) (export_fingerprint request)
         (export_scope request) false "fail" s.
Proof.
  unfold CreateExport. fold (export_scope request). fold (export_refused request). unfold mbind, M_bind, check.
  by destruct (export_refused request).
Qed.

(** C11: A request to create an export that is repeated with its idempotency key returns the
    job it created and creates none, whatever steps jobs, workers, requests and cleanups
    took in between, provided the row of that job has not been purged and the random source
    still delivers the bytes of an id, which is drawn before the key is looked up. A valid
    export request of the same owner with that key whose fingerprint differs is refused as
    a conflict and creates no job either. Requests for imports are not covered: they check
    the free space before anything else. *)
Theorem repeated_export_finds_its_job request (s s1 s2 : St) job P P1 P2 raw :
  fresh_ids -> reachable (job_table P s) -> CreateExport options request s = (Ok job, s1) ->
  reachable (job_table P1 s1) -> steps (job_table P1 s1) (job_table P2 s2) ->
  JobID job ∈ (j_job_id <$> rows s2) -> random_bytes (rand_calls s2.2) = Ok raw ->
  (exists job2 s3, CreateExport options request s2 = (Ok job2, s3) /\ JobID job2 = JobID job /\ rows s3 = rows s2) /\
  (forall other, ce_Owner other = ce_Owner request -> ce_IdempotencyKey other = ce_IdempotencyKey request ->
     export_refused other = false -> export_fingerprint other <> export_fingerprint request ->
     exists s3, CreateExport options other s2 = (Err ErrIdempotencyConflict, s3) /\ rows s3 = rows s2).
Proof.
  intros Hfresh Hr Hrun Hr1 R Hin Hraw. rewrite CreateExport_eq in Hrun.
  destruct (export_refused request) eqn:Eref; [done|]. unfold createQueuedJob in Hrun.
  apply bind_ok_inv in Hrun as ([job' created] & s' & Hrun & [= -> ->]).
  apply insertJob_ok in Hrun as (Hj & Hid & Hreq & Hfp); [|apply (ji_ids _ (jobs_reachable_inv _ Hr))].
  cbn in Hj, Hid, Hreq, Hfp, Hin |- *.
  pose proof (jobs_reachable_inv _ (reachable_steps _ _ Hr1 R)) as [_ _ Hn2 Hq2 _]. cbn in Hn2, Hq2.
  pose proof (descends_start _ _ Hfresh (jobs_reachable_inv _ Hr1) Hj) as Hd.
  apply (descends_steps _ _ _ R) in Hd as [_ Hd].
  apply list_elem_of_fmap in Hin as (j & Ej & Hj2). destruct (Hd j Hj2 (eq_sym Ej)) as [Eid _].
  injection Eid as Eid Ek Eo Ekey Ef.
  assert (forall request, ce_Owner request = j_owner j -> ce_IdempotencyKey request = j_idempotency_key j ->
    exists b s3, rows s3 = rows s2 /\
      insertJob JkExport (ce_Owner request) (ce_IdempotencyKey request) (export_fingerprint request)
        (export_scope request) false "fail" JsQueued s2 =
      (if String.eqb (j_fingerprint j) (export_fingerprint request) then Ok ({| row := j; ArtifactAvailable := b |}, false)
       else Err ErrIdempotencyConflict, s3)) as Hagain.
  { intros rq E1 E2. apply (insertJob_again _ _ _ _ _ _ _ _ s2 raw j Hn2 Hq2 Hraw Hj2).
    - unfold request_of in *. injection Hreq as _ Hkind _. by rewrite E1, E2, Ek, Hkind.
    - by rewrite Eid. }
  injection Hreq as Ho _ Hkey. split.
  - destruct (Hagain request) as (b & s3 & Er & E3); [congruence..|]. rewrite CreateExport_eq, Eref.
    unfold createQueuedJob. rewrite Ef, Hfp, String.eqb_refl in E3. rewrite (bind_ok _ _ _ _ _ E3).
    eexists _, s3. split; [done|]. split; [exact Eid|done].
  - intros other E1 E2 Eother Hne. destruct (Hagain other) as (b & s3 & Er & E3); [congruence..|].
    rewrite CreateExport_eq, Eother. unfold createQueuedJob.
    rewrite (proj2 (String.eqb_neq _ _)) in E3 by congruence. rewrite (bind_err _ _ _ _ _ E3). by exists s3.
Qed.
End Idempotency.
