(* ===== verification/BackupJobProgress.v ===== *)
(** * Jobs come to an end

    A worker that is done with a job without an error leaves it in a final state, so that
    waiting for a job ends after one round. *)

From stdpp Require Import base strings list gmap relations.
From S2P Require Import Prelude GoStr Base64 BlockIO FileStream Store Directory DirTheorems Multipart FileManager BackupFmt Archive.
From S2P Require Import BackupExport BackupImport JobRow BackupJobs UploadProofs ArchiveTheorems BackupJobSteps BackupJobFiles.
From S2P Require Import BackupJobTheorems.
Import BackupFmt Archive BackupJobs.

(** ** Frames over the manager's programs *)
Section Frames.
Context `{!Env} `{!BackupLib} {B : Type}.
Notation St := ((World * B) * Work)%type.

(** The ids of the rows; the states of the rows of one job. *)
Definition same_ids (X : list string) (s : St) : Prop := j_job_id <$> rows s = X.
Definition over (id : string) (s : St) : Prop :=
  forall j, j ∈ rows s -> j_job_id j = id -> isTerminal (j_state j) = true.

(** A property of the job table that an UPDATE with [f] keeps. *)
Class RowFrame (I : St -> Prop) (ok : (job_row -> job_row) -> Prop) : Prop := {
  rf_rows : forall s s', rows s' = rows s -> I s -> I s';
  rf_update : forall s s' p f, ok f -> rows s' = sql_update p f (rows s) -> I s -> I s' }.

#[export] Instance same_ids_frame X : RowFrame (same_ids X) (fun f => forall j, j_job_id (f j) = j_job_id j).
Proof.
  split; unfold same_ids.
  - by intros s s' ->.
  - intros s s' p f Hf ->. by rewrite update_fmap.
Qed.
#[export] Instance over_frame id :
  RowFrame (over id) (fun f => forall j, j_job_id (f j) = j_job_id j /\ j_state (f j) = j_state j).
Proof.
  split; unfold over.
  - by intros s s' ->.
  - intros s s' p f Hf -> Hs j (j0 & Hj0 & ->)%sql_update_elem Hid. destruct (p j0); [|by apply Hs].
    destruct (Hf j0) as [E1 E2]. rewrite E2. apply Hs; congruence.
Qed.

Section Rules.
Context (I : St -> Prop) (ok : (job_row -> job_row) -> Prop) `{!RowFrame I ok}.

Lemma rf_same {A} (m : M St A) : (forall s, rows (m s).2 = rows s) -> preserves I m.
Proof. intros Hm s Hs. by eapply (rf_rows s). Qed.
Lemma rf_query {A} (f : DB -> A) : preserves I (on_jobs (query f)).
Proof. by apply rf_same. Qed.
Lemma rf_now : preserves I (on_jobs now).
Proof. by apply rf_same. Qed.
Lemma rf_set_dir f : preserves I (set_dir f).
Proof. by apply rf_same. Qed.
Lemma rf_modify (f : Work -> Work) : preserves I (modify (fun s => (s.1, f s.2))).
Proof. by apply rf_same. Qed.
Lemma rf_fm {A} (m : M (World * B) A) : keeps_jobs m -> preserves I (on_fm m).
Proof. intros Hm. apply rf_same. intros s. unfold on_fm. specialize (Hm s.1). by destruct (m s.1). Qed.
Lemma rf_upd f : (forall d, t_job (f d) = t_job d) -> preserves I (on_jobs (upd f)).
Proof. intros Hf. apply rf_same. intros s. unfold rows. cbn. by rewrite Hf. Qed.
Lemma rf_upd_jobs p f : ok f -> preserves I (on_jobs (upd (set_job (sql_update p f)))).
Proof. intros Hf s Hs. by eapply (rf_update s). Qed.
Lemma rf_update_jobs p f : ok f -> preserves I (on_jobs (update_jobs p f)).
Proof. intros Hf s Hs. by eapply (rf_update s). Qed.
Lemma rf_tx {A} (m : M World A) : preserves I (on_jobs m) -> preserves I (on_jobs (OnTransation m)).
Proof.
  intros Hm s Hs. specialize (Hm s Hs). unfold on_jobs, on_fm, on_db, OnTransation in *.
  destruct (m s.1.1) as [[a|e] w'] eqn:E; cbn in *; [exact Hm|]. by eapply (rf_rows s).
Qed.
Lemma rf_on_bind {A C} (m : M World A) (f : A -> M World C) :
  preserves I (on_jobs m ≫= fun a => on_jobs (f a)) -> preserves I (on_jobs (m ≫= f)).
Proof.
  intros Hm s Hs. specialize (Hm s Hs). unfold on_jobs, on_fm, on_db, mbind, M_bind in *. cbn in *.
  destruct (m s.1.1) as [[a|e] w'] eqn:E; cbn in *; exact Hm.
Qed.
Lemma rf_on_check b e : preserves I (on_jobs (check b e)).
Proof. apply rf_same. intros s. unfold on_jobs, on_fm, on_db, check. by destruct b. Qed.
End Rules.
End Frames.

Create HintDb rowframe.
#[export] Hint Resolve preserves_ret preserves_fail preserves_lift preserves_reads preserves_check rf_on_bind : rowframe.

(** Follows the program, as [walk_jobs] does. *)
Ltac rf_step :=
  lazymatch goal with
  | |- preserves _ ?m =>
      lazymatch m with
      | mbind _ _ => apply preserves_bind; [|intros ?]
      | for_each _ _ => apply preserves_for_each; intros ?
      | fold_each _ _ _ => apply preserves_fold_each; intros ? ?
      | attempt _ => apply preserves_attempt
      | on_jobs (OnTransation _) => eapply rf_tx; [apply _|]
      | on_jobs (mbind _ _) => apply rf_on_bind
      | on_jobs (upd (set_job (sql_update _ _))) => eapply rf_upd_jobs; [apply _|done]
      | on_jobs (update_jobs _ _) => eapply rf_update_jobs; [apply _|done]
      | on_jobs (upd _) => eapply rf_upd; [apply _|done]
      | on_jobs (query _) => eapply rf_query; apply _
      | on_jobs now => eapply rf_now; apply _
      | on_jobs (check _ _) => eapply rf_on_check; apply _
      | set_dir _ => eapply rf_set_dir; apply _
      | modify _ => eapply rf_modify; apply _
      | on_fm _ => eapply rf_fm; [apply _|by eauto with jobs]
      | let _ := _ in _ => cbv zeta
      | match ?x with _ => _ end => destruct x
      | _ => solve [eauto with rowframe]
      end
  end.
Ltac rf := repeat rf_step.

(** ** The ids of the rows *)
Section Ids.
Context `{!Env} `{!ArchiveLib} `{!FileCodec} `{!Sha} `{!BackupLib} {B : Type} `{!BackupFiles B} `{!BackupFilesLaws B}.
Context (options : Options) (X : list string).
Notation I := (same_ids (B := B) X).

Lemma ids_GetJob id : preserves I (GetJob id).
Proof. unfold GetJob, setArtifactAvailability. rf. Qed.
Lemma ids_space n : preserves I (ensureFreeSpace n).
Proof. unfold ensureFreeSpace. rf. eapply rf_same; [apply _|done]. Qed.
Lemma ids_checked src : preserves I (space_checked src).
Proof. unfold space_checked. rf. eapply rf_same; [apply _|done]. Qed.
Lemma ids_transition id from to : preserves I (transitionState id from to).
Proof. unfold transitionState, isCanceled. rf. Qed.
#[local] Hint Resolve ids_GetJob ids_space ids_checked ids_transition : rowframe.

Lemma ids_prepare job : preserves I (prepareExportSnapshot options job).
Proof. unfold prepareExportSnapshot, create_file. rf. Qed.
Lemma ids_build id m : preserves I (buildExportArtifact options id m).
Proof. unfold buildExportArtifact, verify_name, read_file, create_file, write_file, rename_file. rf. Qed.
Lemma ids_validate job name : preserves I (validateImportArtifact options job name).
Proof. unfold validateImportArtifact, verify_name, read_file. rf. Qed.
Lemma ids_walk {A} (seen : bool) entries corrupt (visit : A -> source -> M (World * B * Work) unit) f :
  (forall p src, preserves I (visit (f p) src)) -> preserves I (walk_entries seen entries corrupt (fun p src => visit (f p) src)).
Proof. intros Hv. revert seen. induction entries as [|e l IH]; intros seen; cbn; rf; eauto. Qed.
Lemma ids_stage job name m : preserves I (stageImport options job name m).
Proof.
  unfold stageImport, WalkParts, read_file. rf.
  apply (ids_walk _ _ _ (stage_part job m) id). intros p src.
  unfold stage_part, ensureImportNotCanceled, isCanceled. rf.
Qed.
Lemma ids_publish job m : preserves I (publishImport job m).
Proof.
  unfold publishImport. rf. intros s Hs. unfold on_fm.
  destruct (PublishBackupImport _ _ _ s.1) as [r wb] eqn:E. apply law_publish in E. cbn.
  destruct r as [res|e]; [|by eapply (rf_rows s)]. destruct E as (c & rp & f & t & _ & E & _).
  unfold same_ids, rows in *. cbn. by rewrite E, update_fmap.
Qed.
#[local] Hint Resolve ids_prepare ids_build ids_validate ids_stage ids_publish : rowframe.

Lemma ids_executeJob job : preserves I (executeJob options job).
Proof.
  unfold executeJob, processExport, completeExport, processImport, resumeImportPublish, verify_name, read_file,
    finishSuccessfulJob, ensureImportNotCanceled, isCanceled, remove_file. rf.
Qed.
Lemma ids_cancelJob job : preserves I (cancelJob job).
Proof. unfold cancelJob, remove_export_files, releaseImportArtifact, finishJob, remove_file. rf. Qed.
#[local] Hint Resolve ids_executeJob ids_cancelJob : rowframe.
Lemma ids_processJob job : preserves I (processJob options job).
Proof.
  unfold processJob, handleJobFailure, cleanupFailedJob, writeFailureReport, remove_export_files, releaseImportArtifact,
    finishJob, remove_file, write_file. rf.
Qed.
End Ids.

(** ** Endings *)
Section Endings.
Context `{!Env} `{!ArchiveLib} `{!FileCodec} `{!Sha} `{!BackupLib} {B : Type} `{!BackupFiles B} `{!BackupFilesLaws B}.
Context (options : Options).
Notation St := ((World * B) * Work)%type.
Definition distinct (s : St) : Prop := NoDup (j_job_id <$> rows s).

Lemma distinct_kept {A} (m : M St A) (s : St) r s' :
  (forall X, preserves (same_ids X) m) -> m s = (r, s') -> j_job_id <$> rows s' = j_job_id <$> rows s.
Proof. intros Hm R. pose proof (Hm (j_job_id <$> rows s) s eq_refl) as Hs. by rewrite R in Hs. Qed.

(** A conditional UPDATE to a final state that changed a row. *)
Lemma update_over id p f (s s' : St) :
  distinct s -> (forall j, p j = true -> j_job_id j = id) ->
  (forall j, j_job_id (f j) = j_job_id j /\ isTerminal (j_state (f j)) = true) ->
  sql_count p (rows s) = 1 -> rows s' = sql_update p f (rows s) -> over id s'.
Proof.
  intros Hd Hp Hf Hc E j Hj Hid. rewrite E in Hj. apply sql_update_elem in Hj as (j0 & Hj0 & ->).
  assert (j_job_id j0 = id) as Hid0 by (destruct (p j0); [by rewrite <- (proj1 (Hf j0))|done]).
  rewrite (count_hits id p (rows s) j0 Hp Hd) by (done || lia). apply Hf.
Qed.

Lemma finishJob_over id state code message (s s' : St) r :
  isTerminal state = true -> finishJob id state code message s = (r, s') -> over id s'.
Proof.
  intros Ht [_ [n E]]%finishJob_rows j Hj Hid. rewrite E in Hj. apply sql_update_elem in Hj as (j0 & Hj0 & ->).
  destruct (is_job id j0) eqn:Ej; [done|]. apply String.eqb_neq in Ej. done.
Qed.

Lemma complete_over id name report (s s' : St) :
  distinct s -> completeExport options id name report s = (Ok tt, s') -> over id s'.
Proof.
  unfold completeExport. intros Hd R. job_ok R. apply set_dir_rows in R0 as [E0 _].
  job_ok R. apply jobs_now_ok in R0 as (_ & E1 & _).
  unfold on_jobs, on_fm, on_db in R. destruct (OnTransation _ s1.1.1) as [r w] eqn:E. injection R as -> <-.
  apply (proj1 (OnTransation_ok _ _ _ _)) in E. apply bind_ok_inv in E as (n & w1 & R1 & E).
  injection R1 as En <-. apply bind_ok_inv in E as ([] & w2 & [-> Hn]%check_ok & E). injection E as <-.
  apply negb_false_iff, Z.eqb_eq in Hn. subst n.
  eapply (update_over id _ _ s1 _); [unfold distinct; by rewrite E1, E0| | |exact Hn|reflexivity].
  - intros j Hj. cbv beta in Hj. by guards.
  - done.
Qed.

Lemma publish_over job m (s s' : St) : distinct s -> publishImport job m s = (Ok tt, s') -> over (JobID job) s'.
Proof.
  unfold publishImport. intros Hd R. job_ok R. injection R as <-. unfold on_fm in R0.
  destruct (PublishBackupImport _ _ _ s.1) as [r wb] eqn:E. injection R0 as -> <-. apply law_publish in E.
  destruct E as (c & rp & f & t & Hn & E & _).
  eapply (update_over _ _ _ s _ Hd); [| |exact Hn|exact E]; [|done].
  intros j Hj. unfold BackupImport.publishing in Hj. guards. by apply String.eqb_eq.
Qed.

Lemma success_over id (s s' : St) : distinct s -> finishSuccessfulJob id s = (Ok tt, s') -> over id s'.
Proof.
  unfold finishSuccessfulJob. intros Hd R. job_ok R. apply jobs_now_ok in R0 as (_ & E1 & _).
  job_ok R. apply jobs_update_ok in R0 as (-> & E2 & _). apply jobs_check_ok in R as [-> Hn].
  apply negb_false_iff, Z.eqb_eq in Hn.
  eapply (update_over id _ _ s0 _); [unfold distinct; by rewrite E1| | |exact Hn|exact E2]; [|done].
  intros j Hj. cbv beta in Hj. by guards.
Qed.

Lemma export_over job (s s' : St) : distinct s -> processExport options job s = (Ok tt, s') -> over (JobID job) s'.
Proof.
  unfold processExport. intros Hd R. job_ok R. job_ok R. apply complete_over in R; [done|].
  unfold distinct. rewrite (distinct_kept _ _ _ _ (fun X => ids_build options X _ _) R1).
  by rewrite (distinct_kept _ _ _ _ (fun X => ids_prepare options X _) R0).
Qed.

Lemma import_over job (s s' : St) : distinct s -> processImport options job s = (Ok tt, s') -> over (JobID job) s'.
Proof.
  unfold processImport. intros Hd R. job_ok R. clear R0. destruct (bool_decide _).
  { unfold resumeImportPublish in R. job_ok R. job_ok R. apply publish_over in R; [done|].
    unfold distinct. rewrite (distinct_kept (verify_name options (j_artifact_path (row job))) s (Ok a0) s0); [done| |done].
    intros X. unfold verify_name, read_file. rf. }
  job_ok R. job_ok R. assert (distinct s1) as Hd1.
  { unfold distinct. rewrite (distinct_kept _ _ _ _ (fun X => ids_validate options X _ _) R1).
    by rewrite (distinct_kept _ _ _ _ (fun X => ids_transition X _ _ _) R0). }
  destruct (j_dry_run (row job)); [by apply success_over in R|].
  job_ok R. job_ok R. job_ok R. apply publish_over in R; [done|]. unfold distinct.
  rewrite (distinct_kept _ _ _ _ (fun X => ids_transition X _ _ _) R4).
  rewrite (distinct_kept (ensureImportNotCanceled (JobID job)) s2 (Ok a3) s3); [|intros X; unfold ensureImportNotCanceled, isCanceled; rf|done].
  by rewrite (distinct_kept _ _ _ _ (fun X => ids_stage options X _ _ _) R2).
Qed.

Lemma cancelJob_over job (s s' : St) : cancelJob job s = (Ok tt, s') -> over (JobID job) s'.
Proof. unfold cancelJob. intros R. job_ok R. by apply finishJob_over in R. Qed.

Lemma failure_over job e (s s' : St) : distinct s -> handleJobFailure job e s = (Ok tt, s') -> over (JobID job) s'.
Proof.
  unfold handleJobFailure. intros Hd R. destruct (bool_decide (e = ErrJobClaimed)); [done|].
  destruct (bool_decide (e = ErrJobCanceled)); [by apply cancelJob_over in R|].
  destruct (bool_decide (e = ErrBackupCompensation)); [done|].
  job_ok R. destruct (match a with Ok _ => _ | Err _ => _ end) eqn:Et.
  - injection R as <-. destruct a as [current|e1]; [|done]. unfold attempt in R0.
    destruct (GetJob (JobID job) s) as [r1 s1] eqn:Eg. injection R0 as -> ->.
    apply GetJob_ok in Eg as (_ & Hh & Er & _). intros j Hj Hid. rewrite Er in Hj.
    rewrite (head_unique _ _ j Hd Hj Hid) in Hh. injection Hh as ->. done.
  - job_ok R. destruct a0 as [|e2]; [|done]. job_ok R. job_ok R. destruct a2 as [|e3]; [|done]. injection R as <-.
    unfold attempt in R3. destruct (finishJob _ _ _ _ s2) as [r3 s4] eqn:Ef. injection R3 as -> ->.
    by apply finishJob_over in Ef.
Qed.

Lemma processJob_over job (s s' : St) : distinct s -> processJob options job s = (Ok tt, s') -> over (JobID job) s'.
Proof.
  unfold processJob. intros Hd R. destruct (_ || _); [by apply cancelJob_over in R|].
  job_ok R. unfold attempt in R0. destruct (executeJob options job s) as [r1 s1] eqn:Ex. injection R0 as <- <-.
  pose proof (distinct_kept _ _ _ _ (fun X => ids_executeJob options X job) Ex) as Hd1.
  destruct r1 as [[]|e]; [|apply failure_over in R; [done|]; unfold distinct; by rewrite Hd1].
  assert (over (JobID job) s1) as Hover.
  { unfold executeJob in Ex. destruct (j_kind (row job)); [by apply export_over in Ex|by apply import_over in Ex]. }
  destruct (bool_decide _); [|by injection R as <-].
  assert (preserves (over (B := B) (JobID job)) (_ ← attempt (releaseImportArtifact (JobID job) (j_artifact_path (row job))); mret tt)) as Hp.
  { unfold releaseImportArtifact, remove_file. rf. }
  specialize (Hp s1 Hover). by rewrite R in Hp.
Qed.

(** C10: A worker that is done with a job without an error has brought it to its end: the
    row is still there and its state is final. Waiting for a job therefore ends: when the
    job has not ended yet and the round of work on it reports no error,
    [ProcessUntilTerminal] returns after the next look at it, the job if it succeeded and
    an error if it failed or was canceled. *)
Theorem processed_job_ends id (s s1 s2 : St) P job fuel :
  reachable (job_table P s) -> GetJob id s = (Ok job, s1) -> isTerminal (j_state (row job)) = false ->
  processJob options job s1 = (Ok tt, s2) ->
  exists j, j ∈ rows s2 /\ j_job_id j = id /\ isTerminal (j_state j) = true /\
    exists s3 avail, rows s3 = rows s2 /\ ProcessUntilTerminal options (S (S fuel)) id s =
      (if bool_decide (j_state j = JsSucceeded) then Ok {| row := j; ArtifactAvailable := avail |}
       else Err ErrJobFailed, s3).
Proof.
  intros Hreach Hget Hlive Hrun. pose proof (ji_ids _ (jobs_reachable_inv _ Hreach)) as Hn. cbn in Hn. fold (rows s) in Hn.
  pose proof (GetJob_ok _ _ _ _ Hget) as (Hid & Hhead & Er1 & _). apply head_row in Hhead as [Hin Hjid].
  assert (distinct s1) as Hd1 by (unfold distinct; by rewrite Er1).
  pose proof (processJob_over _ _ _ Hd1 Hrun) as Hover.
  pose proof (distinct_kept _ _ _ _ (fun X => ids_processJob options X job) Hrun) as Hids. rewrite Er1 in Hids.
  assert (id ∈ (j_job_id <$> rows s2)) as (j & Ej & Hj)%list_elem_of_fmap.
  { rewrite Hids, <- Hjid. by apply list_elem_of_fmap_2. }
  assert (isTerminal (j_state j) = true) as Hterm by (apply (Hover j Hj); unfold JobID; congruence).
  destruct (GetJob_found id s2 j Hid) as (b & s3 & Hget2 & Er3 & _).
  { apply head_unique; [by rewrite Hids|done..]. }
  exists j. split_and!; [done..|]. exists s3, b. split; [done|].
  change (ProcessUntilTerminal options (S (S fuel)) id) with
    (job ← GetJob id;
     if isTerminal (j_state (row job)) then lift (terminalJobResult job)
     else processed ← attempt (processJob options job);
          match processed with
          | Ok _ => ProcessUntilTerminal options (S fuel) id
          | Err e => if bool_decide (e = ErrJobClaimed) then ProcessUntilTerminal options (S fuel) id else fail e
          end : M St Job).
  rewrite (bind_ok _ _ _ _ _ Hget), Hlive.
  rewrite (bind_ok (attempt (processJob options job)) _ s1 (Ok tt) s2) by (unfold attempt; by rewrite Hrun).
  cbn [ProcessUntilTerminal]. rewrite (bind_ok _ _ _ _ _ Hget2). cbn [row]. rewrite Hterm. unfold terminalJobResult, lift.
  cbn [row]. by destruct (bool_decide _).
Qed.
End Endings.
