(* ===== verification/BackupJobDemo.v ===== *)
(** * Runs of backup jobs

    The theorems on jobs at a file manager over an empty database and a memory store: an
    import is received and carried out as a dry run, an export is canceled, and a restart
    finds both at work. *)

From stdpp Require Import base strings list gmap relations.
From S2P Require Import Prelude GoStr Crc Base64 BlockIO FileStream Store Directory DirTheorems Multipart FileManager BackupFmt Archive.
From S2P Require Import BackupExport BackupImport JobRow BackupJobs UploadProofs ArchiveTheorems SystemTheorems BackupJobSteps BackupJobFiles.
From S2P Require Import BackupJobTheorems BackupJobProgress.
Import BackupFmt Archive BackupJobs.

Module Demo.
#[local] Instance job_env : Env := {| clk n := Z.of_nat n + 1; idfn n := Z.of_nat n + 1 |}.
#[local] Existing Instances ArchiveTheorems.Demo.demo_codec ArchiveTheorems.Demo.demo_sha ArchiveTheorems.Demo.demo_lib.
#[local] Existing Instance SystemTheorems.demo_mime.
#[local] Instance demo_time : TimeText := fun _ => "2026-01-01T00:00:00Z".

(** Ids that begin with the number of the draw; a source that ends after 256 of them. *)
#[local] Instance job_lib : BackupLib :=
  {| filesystemFreeBytes _ := Ok (2 ^ 40);
     random_bytes n := if (Z.of_nat n <? 256) then Ok (Z.of_nat n :: replicate 31 0) else Err EOF;
     interrupted _ := None; pack _ := [1]; open_archive _ := ArchiveTheorems.Demo.demo_archive;
     marshal_report _ := [] |}.

Lemma demo_fresh : fresh_ids.
Proof.
  assert (forall k raw, random_bytes k = Ok raw -> raw = Z.of_nat k :: replicate 31 0 /\ Forall is_byte raw) as Hr.
  { intros k raw E. unfold random_bytes, job_lib in E. destruct (Z.of_nat k <? 256) eqn:Hk; [|done].
    apply Z.ltb_lt in Hk. assert (raw = Z.of_nat k :: replicate 31 0) as -> by congruence. split; [done|].
    constructor; [unfold is_byte; lia|]. repeat constructor; unfold is_byte; lia. }
  intros k k' raw raw' [Er Hb]%Hr [Er' Hb']%Hr Hh.
  assert (Ok raw = Ok raw') as [= E] by (rewrite <- !Base64.hex_decode_encode by done; by rewrite Hh).
  rewrite Er, Er' in E. injection E. lia.
Qed.

Definition options : Options :=
  {| o_Limits := DefaultLimits; o_RequiredBuckets := [{| rb_Name := "bkt"; rb_ACL := "private" |}];
     o_SchemaVersion := 1; o_MaxPartSize := 1024; o_ArtifactRetention := 10; o_JobRetention := 100 |}.
Definition St : Type := (World * Mem.memBlockIO) * Work.
Definition start : St :=
  ((DirTheorems.demo_start, UploadProofs.empty_store), {| dir := ∅; disk_calls := 0; rand_calls := 0; copies := 0 |}).
Definition export_request : CreateExportRequest := {| ce_Owner := "u"; ce_IdempotencyKey := "k"; ce_Scope := "" |}.
Definition other_request : CreateExportRequest := {| ce_Owner := "u"; ce_IdempotencyKey := "k"; ce_Scope := "/bkt" |}.
Definition import_request : importReceiveRequest :=
  {| ir_Owner := "u"; ir_IdempotencyKey := "i"; ir_ConflictPolicy := ""; ir_DryRun := true; ir_ContentLength := 1;
     ir_ExpectedSHA256 := ""; ir_Body := Some {| src_data := [1]; src_err := None |} |}.

Definition created : outcome Job * St := CreateExport options export_request start.
Definition imported : outcome Job * St := CreateImportUpload options import_request start.
Definition id0 : string := Base64.hex_encode (0 :: replicate 31 0).

Lemma start_reachable : reachable (job_table ∅ start).
Proof. exists O. constructor. Qed.
Lemma reachable_moves {A} (m : M St A) s P :
  moves m -> reachable (job_table P s) -> exists P', steps (job_table P s) (job_table P' (m s).2) /\
    reachable (job_table P' (m s).2).
Proof. intros Hm Hr. destruct (Hm s P) as [P' R]. exists P'. split; [done|]. by eapply reachable_steps. Qed.
Lemma created_reachable : exists P, reachable (job_table P created.2).
Proof. destruct (reachable_moves _ _ _ (moves_CreateExport options export_request) start_reachable) as (P & _ & Hr). by exists P. Qed.

(** A day of the manager: requests, a cancellation, workers, a restart, a cleanup. *)
Definition day : list manager_op :=
  [OpCreateExport export_request; OpCreateImportUpload import_request; OpCancel id0; OpProcessNext JkExport;
   OpProcessNext JkImport; OpRecover; OpCleanup].
Definition states (s : St) : list (string * job_state) := map (fun j => (j_idempotency_key j, j_state j)) (rows s).

Lemma manager_runs_in_steps_witness :
  states (run_managers options day start) = [("k", JsCanceled); ("i", JsSucceeded)] /\
  exists P, steps (job_table ∅ start) (job_table P (run_managers options day start)).
Proof. split; [by vm_compute|]. apply (manager_runs_in_steps options day start ∅). Defined.

(** The job after the outcome of an operation. *)
Definition the_job (r : outcome Job * St) : Job :=
  match r.1 with Ok job => job | Err _ => {| row := new_job "" JkExport "" "" "" "" false "" JsQueued 0; ArtifactAvailable := false |} end.
Lemma the_job_ok (r : outcome Job * St) :
  match r.1 with Ok _ => true | Err _ => false end = true -> r = (Ok (the_job r), r.2).
Proof. destruct r as [[job|e] s]; [done|]. intros H. discriminate H. Qed.

Lemma done_ok (r : outcome unit * St) : match r.1 with Ok _ => true | Err _ => false end = true -> r = (Ok tt, r.2).
Proof. destruct r as [[[]|e] s]; [done|]. intros H. discriminate H. Qed.

Definition cancelled : outcome Job * St := Cancel id0 created.2.
Definition after_cancel : St := run_managers options [OpProcessNext JkExport; OpRecover] cancelled.2.

Lemma canceled_job_never_succeeds_witness :
  states created.2 = [("k", JsQueued)] /\ states after_cancel = [("k", JsCanceled)] /\
  (forall j, j ∈ rows cancelled.2 -> j_job_id j = id0 -> j_state j <> JsSucceeded).
Proof.
  split; [by vm_compute|]. split; [by vm_compute|]. intros j Hj Hid.
  destruct created_reachable as [P Hr].
  destruct (canceled_job_never_succeeds id0 created.2 cancelled.2 P (the_job cancelled) (job_table P cancelled.2))
    as [Hall _].
  - apply demo_fresh.
  - exact Hr.
  - apply (the_job_ok cancelled). by vm_compute.
  - constructor.
  - apply (Hall j Hj Hid).
Defined.

(** A restart while the export is at its snapshot. *)
Definition working : St := (transitionState id0 JsQueued JsSnapshotting created.2).2.

Lemma recover_requeues_witness :
  states working = [("k", JsSnapshotting)] /\ states (recover working).2 = [("k", JsQueued)] /\
  (forall j, j ∈ rows (recover working).2 -> at_rest j).
Proof.
  split; [by vm_compute|]. split; [by vm_compute|].
  destruct created_reachable as [P Hr].
  destruct (reachable_moves _ _ _ (moves_transition id0 JsQueued JsSnapshotting eq_refl) Hr) as (P' & _ & Hr').
  destruct (recover_requeues (B := Mem.memBlockIO)) with (s := working) (s' := (recover working).2) (P := P') as (_ & _ & Hall & _).
  - intros n. cbn. lia.
  - exact Hr'.
  - apply (done_ok (recover working)). by vm_compute.
  - exact Hall.
Defined.

(** The export request again, after its job was canceled and finished. *)
Lemma repeated_export_finds_its_job_witness :
  exists job2 s3, CreateExport options export_request after_cancel = (Ok job2, s3) /\
    JobID job2 = JobID (the_job created) /\ rows s3 = rows after_cancel.
Proof.
  destruct created_reachable as [P1 Hr1].
  assert (exists P2, steps (job_table P1 created.2) (job_table P2 after_cancel)) as [P2 R].
  { destruct (moves_Cancel id0 created.2 P1) as [P2 R1].
    destruct (moves_processNext options JkExport (Cancel id0 created.2).2 P2) as [P3 R2].
    destruct (moves_recover (processNext options JkExport (Cancel id0 created.2).2).2 P3) as [P4 R3].
    exists P4. etransitivity; [exact R1|]. etransitivity; [exact R2|exact R3]. }
  destruct (repeated_export_finds_its_job options export_request start created.2 after_cancel (the_job created) ∅ P1 P2
              (1 :: replicate 31 0)) as [Hagain _].
  - apply demo_fresh.
  - apply start_reachable.
  - apply (the_job_ok created). by vm_compute.
  - exact Hr1.
  - exact R.
  - assert ((j_job_id <$> rows after_cancel) = [JobID (the_job created)]) as -> by (by vm_compute). left.
  - by vm_compute.
  - exact Hagain.
Defined.

(** The received import, carried out. *)
Definition found : outcome Job * St := GetJob id0 imported.2.

Lemma processed_job_ends_witness :
  isTerminal (j_state (row (the_job found))) = false /\
  states (ProcessUntilTerminal options 2 id0 imported.2).2 = [("i", JsSucceeded)] /\
  exists j, j ∈ rows (processJob options (the_job found) found.2).2 /\ j_job_id j = id0 /\ isTerminal (j_state j) = true.
Proof.
  split; [by vm_compute|]. split; [by vm_compute|].
  destruct (reachable_moves _ _ _ (moves_CreateImportUpload options import_request) start_reachable) as (P & _ & Hr).
  destruct (processed_job_ends options id0 imported.2 found.2 (processJob options (the_job found) found.2).2 P (the_job found) 0)
    as (j & Hj & Hid & Ht & _).
  - exact Hr.
  - apply (the_job_ok found). by vm_compute.
  - by vm_compute.
  - apply (done_ok (processJob options (the_job found) found.2)). by vm_compute.
  - exists j. exact (conj Hj (conj Hid Ht)).
Defined.
End Demo.
