(* ===== verification/UploadLifecycle.v ===== *)
(** * The life of multipart uploads

    Every step of the system leaves the row of an upload as it is or takes it along one
    edge of its state machine, for the reason the edge names: it is created active by a
    request to create it, aborted by a request that names it or once it has expired,
    completed by a request that names it before it expires, and removed by a cleanup after
    its retention. The state [completing] exists inside a transaction only. *)

From stdpp Require Import base strings list relations.
From S2P Require Import Prelude Paging GoStr Crc BlockIO FileStream Store Directory DirFrame.
From S2P Require Import References.
From S2P Require Import RefInv DeleteWorker WorkerProofs Dao Mutation S3Object FileManager UploadProofs.
From S2P Require Import LinkSafety ObjectTheorems Multipart MultipartSafety MultipartTheorems.
From S2P Require Import WebDAV WebDAVSafety BackupFmt BackupExport BackupImport BackupSafety PurgeSafety System SystemTheorems.
Import References Multipart.







Section Ops.
Context `{!Env} `{!S3Object.MimeTypes} `{!FileCodec} `{!Sha}.

(** ** Operations that leave the upload table alone *)

Definition same_uploads (X : list upload_row) (w : World) : Prop := t_upload (db w) = X.
#[export] Instance same_uploads_queue X : QueueStable (same_uploads X).
Proof. by split. Qed.
#[export] Instance same_uploads_dir X : DirStable (same_uploads X) (fun _ => True).
Proof. by split. Qed.

Section Frame.
Context (X : list upload_row).
Notation I := (same_uploads X).

Lemma up_s3meta f : preserves I (upd (set_s3meta f)). Proof. by intros w. Qed.
Lemma up_property f : preserves I (upd (set_property f)). Proof. by intros w. Qed.
Lemma up_lock f : preserves I (upd (set_lock f)). Proof. by intros w. Qed.
Lemma up_mpart f : preserves I (upd (set_mpart f)). Proof. by intros w. Qed.
Lemma up_file f : preserves I (upd (set_file f)). Proof. by intros w. Qed.
Lemma up_add_file f : preserves I (upd (add_file f)). Proof. by intros w. Qed.
Lemma up_segment f : preserves I (upd (set_segment f)). Proof. by intros w. Qed.
Lemma up_completed f : preserves I (upd (set_completed f)). Proof. by intros w. Qed.
Lemma up_pin f : preserves I (upd (set_pin f)). Proof. by intros w. Qed.
Lemma up_job_file f : preserves I (upd (set_job_file f)). Proof. by intros w. Qed.
Lemma up_job f : preserves I (upd (set_job f)). Proof. by intros w. Qed.
Lemma up_delete f : preserves I (upd (set_delete f)). Proof. by intros w. Qed.
Lemma up_part f : preserves I (upd (set_part f)). Proof. by intros w. Qed.
Lemma up_mapping f : preserves I (upd (set_mapping f)). Proof. by intros w. Qed.
Lemma up_query {A} (f : DB -> A) : preserves I (query f). Proof. by intros w. Qed.
Lemma up_now : preserves I now. Proof. by intros w. Qed.
Lemma up_NextId : preserves I NextId. Proof. by intros w. Qed.
Lemma up_tx {A} (m : M World A) : preserves I m -> preserves I (OnTransation m).
Proof.
  intros Hm w Hw. specialize (Hm w Hw). unfold OnTransation. by destruct (m w) as [[a|e] w'].
Qed.
Lemma up_dir {A} ref (m : M World A) : dir_op ref m -> preserves I m.
Proof. intros Hm. by apply (Hm I (fun _ => True)). Qed.
Lemma up_mark f t : preserves I (markFileTreePendingIfUnreferenced f t). Proof. by apply view_mark. Qed.
Lemma up_ensure f : preserves I (ensureFileTreeCanBeLinked f). Proof. by apply view_ensure. Qed.
Lemma up_Stat_tx s : preserves I (Directory.Tx.Stat s).
Proof. intros w Hw. by rewrite Stat_tx_same. Qed.
End Frame.
End Ops.

Create HintDb uploads.
#[export] Hint Resolve preserves_ret preserves_fail preserves_lift preserves_reads preserves_check
  up_s3meta up_property up_lock up_mpart up_file up_add_file up_segment up_completed up_query
  up_pin up_job_file up_job up_delete up_part up_mapping
  up_now up_NextId up_mark up_ensure up_Stat_tx : uploads.
#[export] Hint Extern 2 (preserves (same_uploads _) (Directory.Tx.Remove _)) =>
  exact (up_dir _ _ _ (dir_op_Remove _)) : uploads.
#[export] Hint Extern 2 (preserves (same_uploads _) (Directory.Tx.Create _ _ _)) =>
  exact (up_dir _ _ _ (dir_op_Create _ _ _)) : uploads.
#[export] Hint Extern 2 (preserves (same_uploads _) (Directory.Tx.Touch _ _)) =>
  exact (up_dir _ _ _ (dir_op_Touch _ _)) : uploads.
#[export] Hint Extern 2 (preserves (same_uploads _) (Directory.Move_tx _ _ _)) =>
  exact (up_dir _ _ _ (dir_op_Move _ _ _)) : uploads.
#[export] Hint Extern 2 (preserves (same_uploads _) (Directory.Copy_tx _ _ _)) =>
  exact (up_dir _ _ _ (dir_op_Copy _ _ _)) : uploads.
#[export] Hint Extern 2 (preserves (same_uploads _) (Directory.Mkdir _)) =>
  exact (up_dir _ _ _ (dir_op_Mkdir _)) : uploads.

Ltac up_step :=
  lazymatch goal with
  | |- preserves _ ?m =>
      lazymatch m with
      | mbind _ _ => apply preserves_bind; [|intros ?]
      | for_each _ _ => apply preserves_for_each; intros ?
      | fold_each _ _ _ => apply preserves_fold_each; intros ? ?
      | attempt _ => apply preserves_attempt
      | OnTransation _ => apply up_tx
      | let _ := _ in _ => cbv zeta
      | match ?x with _ => _ end => destruct x
      | _ => solve [eauto with uploads]
      end
  end.
Ltac up := repeat up_step.

Section LinkOps.
Context `{!Env} `{!S3Object.MimeTypes} `{!FileCodec} `{!Sha} (X : list upload_row).
Notation I := (same_uploads X).
Import Mutation S3Object.

Lemma up_finalize l : preserves I (finalizeRemovedWebDAVEntries l).
Proof.
  unfold finalizeRemovedWebDAVEntries, deleteMappingMetadata, deleteWebDAVProperties, deleteWebDAVLocks,
    markMappingFilesPending. up.
Qed.
Hint Resolve up_finalize : uploads.


Lemma up_statTx p : preserves I (statS3ObjectTx p).
Proof. unfold statS3ObjectTx, entry_info, readS3Metadata. up. Qed.
Hint Resolve up_statTx : uploads.
End LinkOps.

(** ** WebDAV requests *)

Section WebDAVOps.
Context `{!Env} `{!S3Object.MimeTypes} (X : list upload_row).
Notation I := (same_uploads X).
Import Mutation S3Object WebDAV.

Lemma up_etag p : preserves I (queryWebDAVETagByPath p).
Proof. unfold queryWebDAVETagByPath. up. Qed.
Hint Resolve up_etag up_finalize : uploads.
Lemma up_assertLocks l c : preserves I (assertWebDAVLocksTx l c).
Proof. unfold assertWebDAVLocksTx, queryApplicableWebDAVLocks. up. Qed.
Lemma up_assertTreeLocks l c : preserves I (assertWebDAVTreeLocksTx l c).
Proof. unfold assertWebDAVTreeLocksTx, queryOverlappingWebDAVLocks. up. Qed.
Hint Resolve up_assertLocks up_assertTreeLocks : uploads.
Lemma up_assertConditions l c : preserves I (assertWebDAVConditionsTx l c).
Proof. unfold assertWebDAVConditionsTx, evaluateFirstWebDAVConditionTx. up. Qed.
Lemma up_limit e n : preserves I (enforceWebDAVMutationLimitTx e n).
Proof. unfold enforceWebDAVMutationLimitTx. up. Qed.
Lemma up_parent p : preserves I (ensureWebDAVParentTx p).
Proof. unfold ensureWebDAVParentTx. up. Qed.
Lemma up_Mkdir_tx p : preserves I (Directory.Tx.Mkdir p).
Proof. exact (up_dir _ _ _ (dir_op_Mkdir_tx _)). Qed.
Lemma up_CopyDepth s d o r : preserves I (Directory.CopyDepth s d o r).
Proof. exact (up_dir _ _ _ (dir_op_CopyDepth _ _ _ _)). Qed.
Lemma up_Replace p z r t : preserves I (Directory.Tx.Replace p z r t).
Proof. exact (up_dir _ _ _ (dir_op_Replace _ _ _ _)). Qed.
Hint Resolve up_assertConditions up_limit up_parent up_Mkdir_tx up_CopyDepth up_Replace : uploads.

Lemma up_copyDestination p o : preserves I (prepareWebDAVCopyDestinationTx p o).
Proof. unfold prepareWebDAVCopyDestinationTx. up. destruct (bool_decide _); up. Qed.
Hint Resolve up_copyDestination : uploads.
End WebDAVOps.

(** ** Multipart operations *)

Section Multipart.
Context `{!Env} `{!S3Object.MimeTypes} `{!FileCodec} `{!Sha}.




(** ** Creating *)



(** ** Aborting *)

Lemma up_mark_files X l t : preserves (same_uploads X) (mark_files l t).
Proof. unfold mark_files. up. Qed.
Hint Resolve up_mark_files : uploads.














(** ** Completing *)





(** ** Cleaning up *)








End Multipart.

(** ** The system *)

(** ** Backups *)

Section BackupOps.
Context `{!Env} `{!S3Object.MimeTypes} `{!FileCodec} `{!Sha} (X : list upload_row).
Notation I := (same_uploads X).
Import BackupExport BackupImport.

Lemma up_load_tree fuel mp f r : preserves I (load_tree fuel mp f r).
Proof.
  revert f r. induction fuel as [|fuel IH]; intros f r; cbn [load_tree]; [up|].
  unfold readBackupFileSnapshot, loadBackupPhysicalFile, ensureBackupPhysicalFileExportable, scanBackupPhysicalPart,
    readBackupSegments, readBackupCompletedParts, Dao.FilePartDao.ListFilePart. up.
Qed.
#[local] Hint Resolve up_load_tree up_Mkdir_tx up_Replace : uploads.
Lemma up_move_stage job ref i f : preserves I (move_stage job ref i f).
Proof. unfold move_stage. up. Qed.
#[local] Hint Resolve up_move_stage : uploads.
End BackupOps.

Section System.
Context `{!Env} `{!S3Object.MimeTypes} `{!FileCodec} `{!Sha} {B : Type} `{!IBlockIO B} `{!BlockStore B}.



Lemma up_hasRef X f : preserves (same_uploads X) (fileHasLiveReference f).
Proof. by apply view_hasRef. Qed.
Hint Resolve up_hasRef : uploads.






End System.

(** ** A run *)
Section Demo.
#[local] Existing Instances DirTheorems.demo_env demo_codec SystemTheorems.demo_sha SystemTheorems.demo_mime.


End Demo.
